(* ===== verification/_CoqProject ===== *)
-Q . S2P
Prelude.v
Rust.v
Npt.v
NptTables.v
NptMapper.v
NptBuild.v
NptEdit.v
NptSplit.v
NptDirty.v
Pic.v
Irq.v
Lapic.v
IoApic.v
Controller.v
Pirq.v
Bus.v
Line.v
Pit.v
Hpet.v
Storage.v
Qcow.v
QcowInv.v
QcowSteps.v
QcowAlloc.v
QcowGrow.v
QcowHost.v
QcowRefine.v
QcowCheck.v
QcowCreate.v
Block.v
Samples.v
Switch.v
Net.v
MemMap.v
Cas.v
BootMem.v
GuestNpt.v
Pflash.v
VarsFlash.v
ServiceVm.v
Isolation.v
Mgmt.v
Ralloc.v
RallocInv.v
RallocOps.v
RallocSpec.v
Str.v
Config.v
ConfigValid.v
UsbRouting.v
XhciRing.v
XhciEvent.v
XhciPorts.v
UsbHotplug.v
Insn.v
BlockDev.v
