(* ===== verification/Prelude.v ===== *)
(** * A verification of the Enlil hypervisor's isolation and device core

    Enlil is a bare-metal and KVM hypervisor in Rust.  At boot the kernel
    (enlil-boot) reads the firmware's memory map, takes a heap, plans windows
    for the guests' RAM (enlil-platform) and gives each guest a slice.  Guests
    see physical memory through nested page tables the hypervisor builds
    (enlil-hal), and devices through port and memory buses that dispatch exits
    to emulated devices (enlil-devices); interrupts go from device lines and
    messages through the 8259 pair or the I/O APIC to the per-vCPU local APICs.
    Guest disks are virtio block devices over memory, raw-file or qcow2
    backends, guest networks virtio-net devices on a learning switch.  USB
    devices of the host are routed to guests by the configuration (enlil-config)
    and plugged into emulated xHCI controllers.  This library models that core as Rocq functions, one per function of the source,
    and proves what it promises.

    ** Files and sources

    - [Prelude]: machine integers as [Z], bit notations, tactics, hints.
    - [Rust]: [Result] with panics, state-passing computations with a
      weakest-precondition calculus, checked arithmetic, byte buffers.
    - [Npt], enlil-hal/src/npt.rs: entries, the walker [translate_npt], the
      builders, the leaf and range editors, the 2 MiB split.  Theorems in
      [NptTables] (the hierarchy invariant and what a walk reads), [NptBuild],
      [NptEdit] and [NptSplit].
    - [NptMapper], [NptDirty], same source: the sparse range mapper and the
      dirty-page log, with their theorems.
    - [Pic], interrupt/pic.rs: the cascaded 8259 pair.
    - [Irq], interrupt/mod.rs and msi.rs: modes, entries, MSI messages.
    - [Lapic], interrupt/lapic.rs: register file, arbitration, timers.
    - [IoApic], interrupt/ioapic.rs: redirection table, lines, EOI broadcast.
    - [Controller], interrupt/controller.rs: delivery, IPIs, EOI.
    - [Pirq], interrupt/pirq.rs: the PCI interrupt router.
    - [Bus], bus.rs: registration, decode and accesses of both buses.
    - [Line], interrupt/line.rs and the adapters of pic.rs: lines, MSI sink,
      and the register apertures as instances of the bus's device classes.
    - [Pit], [Hpet], timer/pit.rs and timer/hpet.rs.
    - [Storage], storage/mod.rs and storage/raw.rs: files as byte lists, the
      backend trait as a class, its laws as the class [Disk], the memory and
      raw-file backends with their instances.
    - [Qcow], storage/qcow.rs: the qcow2 backend, from the header to [create].
      [QcowInv] has the invariant: every cluster of the file has one role
      ([Image]) and refcount one exactly when it is in use ([Consistent]).
      [QcowSteps] has the elementary steps, [QcowAlloc] the lookups and the
      calculus for runs that only let the file grow, [QcowGrow] and [QcowHost]
      allocation, [QcowRefine] reads, writes and trims against the guest's
      byte array and the instance of [Disk], [QcowCheck] the consistency
      check, [QcowCreate] creation and reopening.
    - [Block], block.rs: the virtio block device over any backend.  [Samples]
      applies the storage theorems to an image small enough to run.
    - [Switch], net/switch.rs and the address predicates of net/config.rs: the
      learning switch.
    - [Net], net/device.rs, control.rs, header.rs, virtqueue.rs, backend.rs and
      features.rs: the virtio-net device over any backend of its class.
    - [MemMap], enlil-platform/src/memory/map.rs: the physical memory map,
      carving, reserving, coalescing and [plan_hypervisor_regions].
    - [Cas]: a loop over the weak compare-and-exchange for any loop body, alone
      and as a step relation of any number of threads, with stale loads and
      spurious failures; its two users are the next file and [Ralloc].
    - [BootMem], enlil-boot/src/kernel.rs and handoff.rs: the UEFI map's bytes,
      the memory summary, the heap, the plan and its check, the guest-RAM
      windows and [RamWindow::take], the startup page.
    - [GuestNpt], enlil-boot/src/platform.rs and linux_guest.rs: the flash
      layout and the nested tables of a firmware guest.
    - [Pflash], enlil-boot/src/pflash.rs: the flash chip; [VarsFlash],
      linux_guest.rs: the chip with the nested tables it is mapped in.
    - [ServiceVm], enlil-boot/src/service_vm.rs: the plan of the privileged
      domain, its device table and its identity-mapped tables.  [Isolation],
      with the faults of svm.rs, composes the boot, the windows and the tables
      of all guests.
    - [Mgmt], enlil-mgmt-proto/src/lib.rs: the frames of the management
      protocol, over any JSON serializer and parser.
    - [Ralloc], enlil-platform/src/redox/ralloc.rs: the slab allocator over
      byte memory and any page source; [RallocInv] has the heap invariant and
      the laws of a page source, [RallocOps] every operation against it,
      [RallocSpec] the allocator as its clients see it, a source that meters
      the pages it hands out and gets back, and the bump source.
    - [Str]: the string functions of the standard library the sources use, on
      lists of code points.
    - [Config], enlil-config/src/types.rs, mac.rs, validate.rs and lib.rs: the
      configuration, its parsers, every validation rule and [load_config];
      [ConfigValid] has the rules as a specification and the theorems.
    - [UsbRouting], usb/types.rs, usb/routing.rs and enlil-core/src/
      usb_routing.rs: device identities, the rule table and the table a
      configuration asks for.
    - [XhciRing], usb/xhci/trb.rs, transfer.rs and ring.rs: TRBs, guest memory
      as a class with its laws, the cursor on a guest ring, the gathering of
      transfer descriptors.  [XhciEvent], usb/xhci/event.rs: the event queue and
      the event ring in guest memory.  [XhciPorts], usb/xhci/registers.rs and
      usb/controller.rs: the operational registers as the guest writes them,
      the ports and the attachment of devices.
    - [UsbHotplug], usb/monitor.rs, registry.rs, hotplug.rs and device.rs: from
      the host's report of a device to a port of a guest's controller.
    - [Insn], enlil-boot/src/insn.rs and the fetch of linux_guest.rs: decoding
      the instruction of a trapped memory access.
    - [BlockDev], enlil-boot/src/blockdev.rs: the disk interface of the boot
      kernel, the allow-list that carves guest disks out of a host disk, and the
      text that assigns the ranges.

    ** How code is modelled

    A struct is a record with the source's fields, an enum an inductive type, a
    [&mut self] method a function that returns the new state with its result.
    A [w]-bit integer is a [Z] with its bounds stated ([fits]); truncation is
    [wrap], wrapping arithmetic wraps, and [u64] sums that panic on overflow do
    so in the model.  A fixed-size array is a list whose length is part of the
    invariant.  Table buffers are byte lists read and written eight bytes at a
    time.  Mutexes are the state the closures and adapters share: the device
    classes of [Bus] pass a world to the device methods, and every aperture of
    the interrupt controller acts on the one controller.  Iterator adaptors of
    the standard library ([find], [min_by_key], ordered maps) are defined where
    they are used.  Raw memory is a function from addresses to bytes, with the
    allocator's headers and links stored in it as the code stores them.  An
    interface the code is generic over (bus device, storage or network backend,
    page source) is a class with a class of laws; the clients' theorems are
    proved from the laws, and the implementations are instances.  Atomics that
    several processors use are step relations; a lock makes calls one after
    another.

    ** What the theorems show

    - Guests end to end: on any firmware map whose regions are apart, the boot
      never panics, and whatever guests, the service VM among them, take their
      RAM on whatever processors in whatever order and run, no guest reaches
      another guest's RAM, memory the firmware owns that was not given to it
      (flash images, device windows), or the kernel's heap but for the blocks
      allocated for it ([guests_isolated]).  That the kernel's allocator gives
      two guests different blocks, and that device windows and staged images lie
      outside the heap and the planned RAM, are hypotheses.  It rests on
      the memory map (carving takes the lowest fit and nothing else, a plan is
      all or nothing), the windows (slices granted under contention are
      disjoint, refusals have a reason, and contended requests end unless their
      exchanges fail for ever) and the tables below.
    - Firmware guests: the tables show exactly RAM and flash, and the variable
      store is one flash chip to the guest, mapped or trapped.
    - Allocator: in every run of clients that keep their side, live objects are
      aligned, apart, in the source's pages and keep their contents; [realloc]
      keeps the common prefix; every page goes back to the source, once, when
      all is freed; nothing panics.

    - Isolation: [map_range] refines a partial map, so a guest address reaches
      host memory only where a request granted it and later requests never
      change it; the builders map exactly what they are asked to; the editors,
      the split and the dirty log change exactly the pages they name.
    - Interrupts: arbitration delivers the right vector and INTA, EOI and
      service cycles cancel; lines, MSIs and IPIs reach exactly the addressed
      LAPICs; a level line interrupts its vCPU until the device deasserts it;
      register files keep their reserved bits and read back what was written.
    - Buses: registration keeps ranges disjoint, and an access reaches exactly
      the device that covers it; with the APIC apertures mounted a guest access
      is the register access it names.
    - Timers: batching is exact for the periodic LAPIC timer, the rate
      generator of the PIT, and the HPET within a period.
    - Storage: a qcow2 image refines the guest's byte array under every mixture
      of allocation, copy-on-write and table growth; it stays consistent under
      every sequence of operations, allocation terminates, the check accepts
      exactly the consistent images, and what was written is there after
      reopening.  The block device serves the requests from such a disk, reads
      and writes whose byte offset fits in 63 bits; a discard or write-zeroes
      acts on its segments up to the first it must refuse, and says so.
    - Network: the switch forwards each frame to exactly the ports it is for,
      learns and ages; the device sends exactly the guest's frames in order,
      completes checksums, and gets back what a loopback returned.
    - Management: messages survive the stream however it is cut, each answered
      by what the parser makes of its own text.
    - Configuration: what [load_config] lets through is what the rules say, no
      more and no less, and validation panics only on a memory sum past [u64].
    - USB: the table sends every device where the configuration says; through
      any run of the host, the run loop, the console and the drivers, placements
      and assignments agree, and so do the ports of every guest that has not
      reset its controller under its devices; descriptors in guest memory are gathered as
      they are, and events reach the driver in order and overwrite nothing
      unread.
    - Emulated accesses: the decoder knows exactly its instructions, the fetch
      reads what the processor would without paging or on 4-level tables, and a
      load leaves the register it leaves.
    - Carved-out disks: guests share a host disk as if each had its own, within
      the sectors their assignment texts grant.
    - Divergences: some theorems state what the code does where it departs from
      its comments or from the hardware: the one-shot LAPIC timer fires again
      after expiry, a level line asserted while masked is lost and Remote IRR
      gates nothing, writing the APIC ID detaches a vCPU from its LAPIC, a
      device on the cascade input makes INTA and the pending vector disagree,
      a guest sector past [2^55] panics the block device, a square wave with
      divisor 0 never counts, a periodic HPET timer that falls a period behind
      stops, a switch port's number is given out again while it is in use, the
      planner accepts a heap nobody reserved, flash of 18 MiB and more hides
      the local APIC, an oversized management frame blocks its connection, a
      transfer ring that chains into itself is gathered for ever, bus addresses
      run out after 126 connects, a port is lost when the event queue is full, a
      guest's reset of its controller unplugs the devices the registry keeps, and an instruction cut inside its displacement is decoded.

    ** Bounds and fuel

    Loops that are not structural use one unit of fuel per round, and running
    out is a panic, which the theorems exclude.  [map_chunks] and [page_loop]
    get the page count of the range; the read, plan, discard and zeroing loops
    of [Qcow] and [Block] the number of bytes or clusters of the request; the
    allocation loop 3 (two rounds are proved enough) and the arena fixed point
    of the refcount-table growth 64.  The loop over one transfer descriptor has
    none the code would have: its model takes fuel and gives [None] without it,
    enough is proved for every descriptor that ends, and no fuel is enough for
    one that does not.  A fetch follows eight Link TRBs, the source's limit; a
    flush turns once per queued event; the fetch of an instruction reads at most
    its fifteen octets.  A read through an allow-list turns at most once per
    sector.  The qcow2 theorems are for images of the
    format's geometry (512-byte to 2 MiB clusters, refcounts of whole bytes, no
    snapshots) whose file ends below [2^31] clusters.
    The clock loop of the PIT takes exactly the number of elapsed clocks.  The
    reserving loop of [MemMap] gets one round per region of the map; the walk along a slab list at most [2^52] rounds, the number of pages
    there are.  The bound on contended [take] loops is a theorem.  Translation
    theorems are for guest addresses below [2^48] and tables below [2^52], the
    architecture's bounds; the boot theorems for maps that end below [2^52].

    ** What is not modelled, and the plan

    Not modelled: privileged instructions and host I/O (the drivers and run
    loops of the boot kernel, KVM and VFIO backends), orchestration,
    presentation code, and the Rust runtime shim.  [log] calls and messages on
    the serial line have no effect on state and are omitted.  Host I/O errors
    are those the modelled files have: seeks past [2^63], reads past the end; a
    failing or full host disk is not represented, and resolving a backing
    file's path is a parameter of [from_file].  Which guest the handoff asks
    for, and its RAM size, is one field of the modelled handoff.  The kernel's
    own global allocator, which gives RAM to a guest whose window has none and
    pages to a proof guest that faults, is a crate the sources only call: the
    blocks it hands out are arguments.  The bus scan that fills the service VM's
    device table is host I/O, so the table is an argument too.
    A TOML parser and the file system are arguments of [load_config].  Of the
    xHCI controller the capability and runtime registers, slots, contexts and
    commands are left out, and what a guest's driver does to a controller is any
    write to the operational registers and any other step that keeps them; listeners of the monitor other than the dispatcher are
    left out.  The dispatch of a decoded access to the devices of platform.rs
    and to the virtual disks is left out with those devices.  The scheduler of
    enlil-platform, the RTC and the remaining clocks, PCI configuration space,
    ACPI tables and the processor-identity policies are pure code this library
    does not reach yet. *)

From Stdlib Require Import ZArith Lia Bool Btauto.
From stdpp Require Import base decidable list numbers.

#[global] Open Scope Z_scope.

(** ** Machine integers

    A [w]-bit unsigned integer is a [Z] in [[0, 2^w)].  Bit operations are the
    ones of [Z]; Rust's [a & !b] is [Z.ldiff a b] (for [a] in range both have
    exactly the bits of [a] that are clear in [b]). *)

Declare Scope word_scope.
Delimit Scope word_scope with word.
Notation "a .& b" := (Z.land a b) (at level 40, left associativity) : word_scope.
Notation "a .| b" := (Z.lor a b) (at level 50, left associativity) : word_scope.
Notation "a .&~ b" := (Z.ldiff a b) (at level 40, left associativity) : word_scope.
Notation "a .>> n" := (Z.shiftr a n) (at level 38, left associativity) : word_scope.
Notation "a .<< n" := (Z.shiftl a n) (at level 38, left associativity) : word_scope.
#[global] Open Scope word_scope.

#[global] Arguments Z.testbit : simpl never.
#[global] Arguments Z.land : simpl never.
#[global] Arguments Z.lor : simpl never.
#[global] Arguments Z.ldiff : simpl never.
#[global] Arguments Z.shiftl : simpl never.
#[global] Arguments Z.shiftr : simpl never.
#[global] Arguments Z.modulo : simpl never.
#[global] Arguments Z.div : simpl never.
#[global] Arguments Z.pow : simpl never.
#[global] Arguments Z.mul : simpl never.

Definition fits (w x : Z) : Prop := 0 <= x < 2 ^ w.

#[export] Instance fits_decision w x : Decision (fits w x).
Proof. unfold fits; apply _. Defined.

(** Rust's [a & m != 0]. *)
Definition tst (a m : Z) : bool := negb (a .& m =? 0).

(** Truncation to the low [w] bits: [x as u8], [u8_of(x)], wrapping arithmetic. *)
Definition wrap (w x : Z) : Z := x mod 2 ^ w.

(** The single-bit mask [1 << i]. *)
Definition bit (i : Z) : Z := 1 .<< i.

(** [trailing_zeros] of a non-zero [w]-bit integer, and [w] of zero. *)
Fixpoint ctz (w : nat) (x : Z) : Z :=
  match w with
  | O => 0
  | S w' => if Z.odd x then 0 else 1 + ctz w' (x .>> 1)
  end.

(** ** Bit-level lemmas *)

Create HintDb word.

Lemma bit_pow i : bit i = 2 ^ i.
Proof. unfold bit. apply Z.shiftl_1_l. Qed.

Lemma testbit_bit i j : 0 <= i -> Z.testbit (bit i) j = (i =? j).
Proof. intros; rewrite bit_pow; by apply Z.pow2_bits_eqb. Qed.

Lemma tst_bit a i : 0 <= i -> tst a (bit i) = Z.testbit a i.
Proof.
  intros Hi. unfold tst.
  destruct (Z.eqb_spec (a .& bit i) 0) as [E|E]; simpl.
  - apply (f_equal (fun z => Z.testbit z i)) in E.
    rewrite Z.land_spec, testbit_bit, Z.eqb_refl, andb_true_r, Z.testbit_0_l in E by done.
    done.
  - destruct (Z.testbit a i) eqn:T; [done|]. exfalso. apply E.
    apply Z.bits_inj'. intros j Hj.
    rewrite Z.land_spec, testbit_bit, Z.testbit_0_l by done.
    destruct (Z.eqb_spec i j); subst; by rewrite ?T, ?andb_false_r.
Qed.

(** A mask that is a power of two written as a literal. *)
Lemma tst_pow a m i : 0 <= i -> m = 2 ^ i -> tst a m = Z.testbit a i.
Proof. intros Hi ->. rewrite <- bit_pow. by apply tst_bit. Qed.

Lemma fits_high w x i : fits w x -> w <= i -> Z.testbit x i = false.
Proof.
  intros [H0 H1] Hi.
  destruct (Z.le_gt_cases 0 w) as [Hw|Hw].
  - rewrite <- (Z.mod_small x (2 ^ w)) by lia. by apply Z.mod_pow2_bits_high.
  - rewrite Z.pow_neg_r in H1 by lia. lia.
Qed.

(** A non-negative integer with no bit at or above [w] fits in [w] bits. *)
Lemma fits_intro w x :
  0 <= w -> 0 <= x -> (forall i, w <= i -> Z.testbit x i = false) -> fits w x.
Proof.
  intros Hw Hx Hb. split; [done|].
  destruct (Z.lt_ge_cases x (2 ^ w)) as [|Hge]; [done|]. exfalso.
  assert (0 < x) by (pose proof (Z.pow_pos_nonneg 2 w); lia).
  assert (w <= Z.log2 x) by (apply Z.log2_le_pow2; lia).
  specialize (Hb (Z.log2 x) ltac:(lia)). rewrite Z.bit_log2 in Hb; [done|lia].
Qed.

Lemma fits_ext w x y :
  fits w x -> fits w y ->
  (forall i, 0 <= i < w -> Z.testbit x i = Z.testbit y i) -> x = y.
Proof.
  intros Hx Hy H. apply Z.bits_inj'. intros i Hi.
  destruct (Z.lt_ge_cases i w); [by apply H|].
  by rewrite (fits_high w x), (fits_high w y).
Qed.

Lemma fits_nonneg w x : fits w x -> 0 <= x.
Proof. intros []; lia. Qed.

Lemma fits_width w x : fits w x -> 0 <= w.
Proof.
  intros [H0 H1]. destruct (Z.le_gt_cases 0 w); [done|].
  rewrite Z.pow_neg_r in H1 by lia. lia.
Qed.

Lemma fits_land_l w a b : fits w a -> fits w (a .& b).
Proof.
  intros Ha. apply fits_intro; [by eapply fits_width| |].
  - apply Z.land_nonneg. left. by eapply fits_nonneg.
  - intros i Hi. by rewrite Z.land_spec, (fits_high w a).
Qed.

Lemma fits_land_r w a b : fits w b -> fits w (a .& b).
Proof. rewrite Z.land_comm. apply fits_land_l. Qed.

Lemma fits_ldiff w a b : fits w a -> fits w (a .&~ b).
Proof.
  intros Ha. apply fits_intro; [by eapply fits_width| |].
  - apply Z.ldiff_nonneg. left. by eapply fits_nonneg.
  - intros i Hi. by rewrite Z.ldiff_spec, (fits_high w a).
Qed.

Lemma fits_lor w a b : fits w a -> fits w b -> fits w (a .| b).
Proof.
  intros Ha Hb. apply fits_intro; [by eapply fits_width| |].
  - apply Z.lor_nonneg. eauto using fits_nonneg.
  - intros i Hi. by rewrite Z.lor_spec, (fits_high w a), (fits_high w b).
Qed.

Lemma fits_bit w i : 0 <= i < w -> fits w (bit i).
Proof.
  intros Hi. rewrite bit_pow. split; [apply Z.pow_nonneg; lia|].
  apply Z.pow_lt_mono_r; lia.
Qed.

Lemma fits_wrap w x : 0 <= w -> fits w (wrap w x).
Proof. intros. unfold wrap. apply Z.mod_pos_bound. by apply Z.pow_pos_nonneg. Qed.

Lemma fits_shiftr w a n : fits w a -> 0 <= n -> fits w (a .>> n).
Proof.
  intros Ha Hn. apply fits_intro; [by eapply fits_width| |].
  - apply Z.shiftr_nonneg. by eapply fits_nonneg.
  - intros i Hi. rewrite Z.shiftr_spec by (apply fits_width in Ha; lia).
    apply (fits_high w); [done|lia].
Qed.

Lemma fits_shiftl w a n : fits w a -> 0 <= n -> fits (w + n) (a .<< n).
Proof.
  intros Ha Hn. pose proof (fits_width w a Ha). destruct Ha. rewrite Z.shiftl_mul_pow2 by done.
  split; [nia|]. rewrite Z.pow_add_r by done. pose proof (Z.pow_pos_nonneg 2 n). nia.
Qed.

Lemma fits_0 w : 0 <= w -> fits w 0.
Proof. intros. split; [done|]. by apply Z.pow_pos_nonneg. Qed.

Lemma fits_mono w w' x : fits w x -> w <= w' -> fits w' x.
Proof.
  intros Hx Hw. pose proof (fits_width w x Hx). destruct Hx.
  split; [lia|]. eapply Z.lt_le_trans; [done|]. apply Z.pow_le_mono_r; lia.
Qed.

Lemma wrap_small w x : fits w x -> wrap w x = x.
Proof. intros [? ?]. by apply Z.mod_small. Qed.

Lemma testbit_wrap w x i :
  0 <= w -> Z.testbit (wrap w x) i = (i <? w) && Z.testbit x i.
Proof.
  intros Hw. unfold wrap. destruct (Z.ltb_spec i w); simpl.
  - destruct (Z.le_gt_cases 0 i).
    + by apply Z.mod_pow2_bits_low.
    + by rewrite !Z.testbit_neg_r.
  - by apply Z.mod_pow2_bits_high.
Qed.

#[export] Hint Resolve fits_land_l fits_land_r fits_ldiff fits_lor fits_bit
  fits_wrap fits_shiftr fits_0 : word.
#[export] Hint Extern 4 (fits _ _) => unfold fits; lia : word.
#[export] Hint Extern 5 (_ <= _) => lia : word.
#[export] Hint Extern 5 (_ < _) => lia : word.

Create Rewrite HintDb testbit.
#[export] Hint Rewrite Z.land_spec Z.lor_spec Z.ldiff_spec Z.lxor_spec Z.testbit_0_l : testbit.
#[export] Hint Rewrite testbit_bit Z.shiftr_spec Z.shiftl_spec using lia : testbit.
#[export] Hint Rewrite testbit_wrap using lia : testbit.

(** [trailing_zeros] finds the lowest set bit. *)
Lemma ctz_lt w x i :
  0 <= i < Z.of_nat w -> Z.testbit x i = true -> 0 <= ctz w x <= i.
Proof.
  revert x i. induction w as [|w IH]; intros x i Hi Hx; [lia|].
  cbn [ctz]. destruct (Z.odd x) eqn:Ho; [lia|].
  destruct (Z.eq_dec i 0) as [->|].
  { rewrite Z.bit0_odd in Hx. congruence. }
  specialize (IH (x .>> 1) (i - 1) ltac:(lia)).
  rewrite Z.shiftr_spec, Z.sub_add in IH by lia. specialize (IH Hx). lia.
Qed.

Lemma ctz_below w x i : 0 <= i < ctz w x -> Z.testbit x i = false.
Proof.
  revert x i. induction w as [|w IH]; intros x i Hi; cbn [ctz] in Hi; [lia|].
  destruct (Z.odd x) eqn:Ho; [lia|].
  destruct (Z.eq_dec i 0) as [->|]; [by rewrite Z.bit0_odd|].
  specialize (IH (x .>> 1) (i - 1) ltac:(lia)).
  by rewrite Z.shiftr_spec, Z.sub_add in IH by lia.
Qed.

Lemma ctz_set w x : fits (Z.of_nat w) x -> x <> 0 -> Z.testbit x (ctz w x) = true.
Proof.
  revert x. induction w as [|w IH]; intros x Hx Hnz.
  { destruct Hx. cbn in *. lia. }
  cbn [ctz]. destruct (Z.odd x) eqn:Ho; [by rewrite Z.bit0_odd|].
  assert (E : x = 2 * (x .>> 1)).
  { rewrite Z.shiftr_div_pow2, Z.pow_1_r by lia.
    rewrite (Z.div_mod x 2) at 1 by lia.
    rewrite Zmod_odd, Ho. lia. }
  assert (0 <= ctz w (x .>> 1)).
  { clear. generalize (x .>> 1). induction w; intros y; cbn [ctz]; [done|].
    case_match; [done|]. specialize (IHw (y .>> 1)). lia. }
  rewrite Z.add_comm, <- Z.shiftr_spec by done.
  apply IH; [|lia]. destruct Hx as [Hx0 Hx1].
  rewrite Nat2Z.inj_succ, Z.pow_succ_r in Hx1 by lia. split; lia.
Qed.

Lemma ctz_nonneg w x : 0 <= ctz w x.
Proof.
  revert x. induction w; intros y; cbn [ctz]; [done|].
  case_match; [done|]. specialize (IHw (y .>> 1)). lia.
Qed.

#[global] Arguments ctz : simpl never.

(** ** Sums and periodic events *)

Definition zsum (l : list Z) : Z := foldr Z.add 0 l.

Lemma zsum_nonneg l : Forall (fun x => 0 <= x) l -> 0 <= zsum l.
Proof. induction 1 as [|x l Hx Hl IH]; cbn; [lia|]. fold (zsum l). lia. Qed.

(** The events among the first [n] clocks when the first comes after [e] clocks
    and the others every [period] clocks. *)
Definition edges (e period n : Z) : Z := if n <? e then 0 else 1 + (n - e) / period.

(** Advancing by at most one period sees at most one event. *)
Lemma edges_advance e P t n :
  1 <= e -> 0 <= t <= P -> 1 <= P -> 0 <= n ->
  edges e P (t + n) = (if e <=? t then 1 else 0) + edges (if e <=? t then e + P - t else e - t) P n.
Proof.
  intros He Ht HP Hn. unfold edges. destruct (Z.leb_spec e t).
  - destruct (Z.ltb_spec (t + n) e); [lia|]. destruct (Z.ltb_spec n (e + P - t)).
    + rewrite Z.div_small by lia. lia.
    + replace (t + n - e) with (n - (e + P - t) + 1 * P) by lia. rewrite Z.div_add by lia. lia.
  - destruct (Z.ltb_spec (t + n) e), (Z.ltb_spec n (e - t)); try lia. replace (n - (e - t)) with (t + n - e) by lia. lia.
Qed.

Lemma edges_nonneg e P n : 1 <= P -> 0 <= edges e P n.
Proof. intros HP. unfold edges. destruct (Z.ltb_spec n e); [lia|]. pose proof (Z.div_pos (n - e) P). lia. Qed.

(** ** Tactics *)

(** Prove an equality of integers bit by bit. *)
Ltac bitwise i Hi :=
  apply Z.bits_inj'; intros i Hi; autorewrite with testbit.

(** Split a bounded integer into its values (small literal bounds). *)
Ltac enum_Z i lo hi :=
  let rec go k :=
    tryif (let b := eval vm_compute in (k <? hi) in unify b true)
    then (let k' := eval vm_compute in (k + 1) in
          destruct (Z.eq_dec i k) as [?Ei|?]; [try subst i | go k'])
    else (exfalso; lia)
  in go lo.

(** Case analysis on every boolean test of the goal, then arithmetic. *)
Ltac zcases :=
  repeat match goal with
  | |- context [?a =? ?b] => destruct (Z.eqb_spec a b)
  | |- context [?a <? ?b] => destruct (Z.ltb_spec a b)
  | |- context [?a <=? ?b] => destruct (Z.leb_spec a b)
  end.

(** Turn boolean comparisons of the hypotheses into propositions. *)
Ltac breflect :=
  repeat match goal with
  | H : (_ =? _) = true |- _ => apply Z.eqb_eq in H
  | H : (_ =? _) = false |- _ => apply Z.eqb_neq in H
  | H : (_ <? _) = true |- _ => apply Z.ltb_lt in H
  | H : (_ <? _) = false |- _ => apply Z.ltb_ge in H
  | H : (_ <=? _) = true |- _ => apply Z.leb_le in H
  | H : (_ <=? _) = false |- _ => apply Z.leb_gt in H
  | H : _ && _ = true |- _ => apply andb_true_iff in H; destruct H
  | H : _ || _ = false |- _ => apply orb_false_iff in H; destruct H
  | H : negb _ = true |- _ => apply negb_true_iff in H
  | H : negb _ = false |- _ => apply negb_false_iff in H
  end.

(** Evaluate the bits of literals, then simplify the boolean connectives. *)
Ltac eval_bits :=
  repeat match goal with
  | |- context [Z.testbit (Zpos ?p) ?k] =>
      let b := eval vm_compute in (Z.testbit (Zpos p) k) in
      change (Z.testbit (Zpos p) k) with b
  end;
  rewrite ?andb_false_r, ?andb_true_r, ?orb_true_r, ?orb_false_r, ?orb_false_l.
