(* ===== verification/Rust.v ===== *)
(** * Rust-level vocabulary shared by the fallible components

    [res E A] is [Result<A, E>] extended with [Panic], the outcome of an
    out-of-range slice index; [M S E A] is a computation over a mutable state
    [S] (a [&mut] argument or [&mut self]) that keeps the state when it fails,
    as Rust code does.  Both carry stdpp's monad notation.  The second half of
    the file is byte buffers: little-endian integers in byte lists, 8-byte
    reads and writes, and the view of a buffer as an array of 64-bit words. *)

From Stdlib Require Import ZArith Lia Bool.
From stdpp Require Import base decidable list numbers sorting.
From S2P Require Import Prelude.

(** ** Results and stateful computations *)

Inductive res (E A : Type) : Type :=
  | Ok (a : A)
  | Err (e : E)
  | Panic.
Arguments Ok {E A} a.
Arguments Err {E A} e.
Arguments Panic {E A}.

Definition is_ok {E A} (r : res E A) : bool := match r with Ok _ => true | _ => false end.

#[export] Instance res_ret E : MRet (res E) := fun A a => Ok a.
#[export] Instance res_bind E : MBind (res E) := fun A B f m =>
  match m with Ok a => f a | Err e => Err e | Panic => Panic end.

(** [opt.ok_or(e)] *)
Definition ok_or {E A} (o : option A) (e : E) : res E A :=
  match o with Some a => Ok a | None => Err e end.

(** [res.ok()] *)
Definition ok {E A} (r : res E A) : option A :=
  match r with Ok a => Some a | _ => None end.

Definition M (S E A : Type) : Type := S -> S * res E A.

#[export] Instance M_ret S E : MRet (M S E) := fun A a s => (s, Ok a).
#[export] Instance M_bind S E : MBind (M S E) := fun A B f m s =>
  match m s with
  | (s', Ok a) => f a s'
  | (s', Err e) => (s', Err e)
  | (s', Panic) => (s', Panic)
  end.

(** Read the state without changing it. *)
Definition reads {S E A} (f : S -> res E A) : M S E A := fun s => (s, f s).
Definition fail {S E A} (e : E) : M S E A := fun s => (s, Err e).

(** [for x in l { f x }] with [?] inside the body. *)
Fixpoint mfor {S E A} (l : list A) (f : A -> M S E unit) : M S E unit :=
  match l with
  | [] => mret tt
  | x :: l' => f x ;; mfor l' f
  end.

Definition panic {S E A} : M S E A := fun s => (s, Panic).

(** Plain [a + b] on [u64]: overflow is a panic (overflow checks on). *)
Definition uadd {S E} (a b : Z) : M S E Z :=
  if a + b <? 2 ^ 64 then mret (a + b) else panic.

(** A result as a computation, and the state itself. *)
Definition lift {S E A} (r : res E A) : M S E A := fun s => (s, r).
Definition get {S E} : M S E S := fun s => (s, Ok s).

(** [let mut a = a0; for x in l { a = f(x, a)? }] *)
Fixpoint mfold {S E A X} (l : list X) (f : X -> A -> M S E A) (a : A) : M S E A :=
  match l with
  | [] => mret a
  | x :: l' => a' ← f x a; mfold l' f a'
  end.

(** [u64] arithmetic that panics on overflow or division by zero. *)
Definition radd {E} (a b : Z) : res E Z := if a + b <? 2 ^ 64 then Ok (a + b) else Panic.
Definition rsub {E} (a b : Z) : res E Z := if a <? b then Panic else Ok (a - b).
Definition rmul {E} (a b : Z) : res E Z := if a * b <? 2 ^ 64 then Ok (a * b) else Panic.
Definition rdiv {E} (a b : Z) : res E Z := if b =? 0 then Panic else Ok (a / b).
Definition rrem {E} (a b : Z) : res E Z := if b =? 0 then Panic else Ok (a mod b).

(** ** Reasoning about computations *)

(** [wp f Q s]: run from [s], [f] ends in a state and a result that satisfy [Q]. *)
Definition wp {S E A} (f : M S E A) (Q : S -> res E A -> Prop) (s : S) : Prop :=
  Q (f s).1 (f s).2.

Section wp.
Context {S E : Type}.

Lemma wp_bind {A B} (f : M S E A) (k : A -> M S E B) Q s :
  wp f (fun s' r => match r with
                    | Ok a => wp (k a) Q s'
                    | Err e => Q s' (Err e)
                    | Panic => Q s' Panic
                    end) s ->
  wp (f ≫= k) Q s.
Proof. unfold wp, mbind, M_bind. by destruct (f s) as [s' [a|e|]]. Qed.

Lemma bind_run {A B} (f : M S E A) (k : A -> M S E B) s s' a : f s = (s', Ok a) -> (f ≫= k) s = k a s'.
Proof. unfold mbind, M_bind. by intros ->. Qed.

(** A success comes from successes. *)
Lemma bind_inv {A B} (f : M S E A) (k : A -> M S E B) s s' b :
  (f ≫= k) s = (s', Ok b) -> exists s1 a, f s = (s1, Ok a) /\ k a s1 = (s', Ok b).
Proof. unfold mbind, M_bind. destruct (f s) as [s1 [a|e|]]; [by eauto|done..]. Qed.

Lemma uadd_inv a b (s s' : S) (c : Z) : uadd (E := E) a b s = (s', Ok c) -> s' = s /\ c = a + b /\ a + b < 2 ^ 64.
Proof. unfold uadd. destruct (Z.ltb_spec (a + b) (2 ^ 64)); [by intros [= <- <-]|done]. Qed.

Lemma lift_run {A} (r : res E A) (s : S) a : r = Ok a -> lift r s = (s, Ok a).
Proof. unfold lift. by intros ->. Qed.

Lemma bind_assoc {A B C} (f : M S E A) (k : A -> M S E B) (h : B -> M S E C) s :
  ((f ≫= k) ≫= h) s = (f ≫= (fun a => k a ≫= h)) s.
Proof. unfold mbind, M_bind. by destruct (f s) as [s' [a|e|]]. Qed.

Lemma wp_mono {A} (f : M S E A) (Q Q' : S -> res E A -> Prop) s :
  wp f Q s -> (forall s' r, Q s' r -> Q' s' r) -> wp f Q' s.
Proof. unfold wp. auto. Qed.

Lemma wp_eq {A} (f : M S E A) (Q : S -> res E A -> Prop) s s' r :
  f s = (s', r) -> Q s' r -> wp f Q s.
Proof. unfold wp. by intros ->. Qed.

Lemma wp_elim {A} (f : M S E A) (Q : S -> res E A -> Prop) s s' r :
  wp f Q s -> f s = (s', r) -> Q s' r.
Proof. unfold wp. by intros H E'; rewrite E' in H. Qed.

Lemma wp_ret {A} (a : A) (Q : S -> res E A -> Prop) s : Q s (Ok a) -> wp (mret a) Q s.
Proof. done. Qed.

Lemma wp_step {A B} (f : M S E A) (k : A -> M S E B) Q s s' a :
  f s = (s', Ok a) -> wp (k a) Q s' -> wp (f ≫= k) Q s.
Proof. intros E0 H. unfold wp in *. by rewrite (bind_run _ _ _ _ _ E0). Qed.

Lemma wp_uadd a b (Q : S -> res E Z -> Prop) s :
  a + b < 2 ^ 64 -> Q s (Ok (a + b)) -> wp (uadd a b) Q s.
Proof. intros H HQ. unfold uadd. by destruct (Z.ltb_spec (a + b) (2 ^ 64)); [|lia]. Qed.

(** A loop whose body always succeeds, with an invariant indexed by the
    number of iterations done. *)
Lemma wp_mfor {A} (l : list A) (f : A -> M S E unit) (I : nat -> S -> Prop) s :
  I 0%nat s ->
  (forall k x s, l !! k = Some x -> I k s -> wp (f x) (fun s' r => r = Ok tt /\ I (Datatypes.S k) s') s) ->
  wp (mfor l f) (fun s' r => r = Ok tt /\ I (length l) s') s.
Proof.
  revert s I. induction l as [|x l IH]; intros s I H0 Hstep; cbn [mfor length].
  - by apply wp_ret.
  - apply wp_bind. eapply wp_mono; [by apply (Hstep 0%nat)|].
    intros s' r [-> Hs']. apply (IH s' (fun k => I (Datatypes.S k))); [done|].
    intros k y s'' Hy Hk. by apply (Hstep (Datatypes.S k)).
Qed.

(** The same for a loop with an accumulator. *)
Lemma wp_mfold {A X} (l : list X) (f : X -> A -> M S E A) (I : nat -> A -> Prop) (a : A) s :
  I 0%nat a ->
  (forall k x a, l !! k = Some x -> I k a -> wp (f x a) (fun s' r => s' = s /\ exists a', r = Ok a' /\ I (Datatypes.S k) a') s) ->
  wp (mfold l f a) (fun s' r => s' = s /\ exists a', r = Ok a' /\ I (length l) a') s.
Proof.
  revert a I. induction l as [|x l IH]; intros a I H0 Hstep; cbn [mfold length].
  - apply wp_ret. eauto.
  - apply wp_bind. eapply wp_mono; [by apply (Hstep 0%nat)|].
    intros s' r [-> (a' & -> & Ha')]. apply (IH a' (fun k => I (Datatypes.S k))); [done|].
    intros k y a'' Hy Hk. by apply (Hstep (Datatypes.S k)).
Qed.
End wp.

(** Run the first computation of a sequence, its result given by [tac]. *)
Tactic Notation "run" tactic3(tac) := etransitivity; [eapply bind_run; tac|]; cbn beta iota zeta.
Tactic Notation "run_lift" tactic3(tac) := run (apply lift_run; tac).
Tactic Notation "wstep" tactic3(tac) := eapply wp_step; [tac|]; cbn beta iota zeta.
Tactic Notation "wstep_lift" tactic3(tac) := wstep (apply lift_run; tac).

(** ** Checked [u64]/[usize] arithmetic *)

Definition checked_add (a b : Z) : option Z := if a + b <? 2 ^ 64 then Some (a + b) else None.
Definition checked_mul (a b : Z) : option Z := if a * b <? 2 ^ 64 then Some (a * b) else None.
Definition checked_sub (a b : Z) : option Z := if a <? b then None else Some (a - b).
Definition saturating_add (a b : Z) : Z := Z.min (a + b) (2 ^ 64 - 1).
Definition div_ceil (a b : Z) : Z := (a + b - 1) / b.
Definition usize_max : Z := 2 ^ 64 - 1.

(** [u64::is_power_of_two] *)
Definition is_power_of_two (a : Z) : bool := (0 <? a) && (a .& (a - 1) =? 0).

Lemma power_of_two_spec a : is_power_of_two a = true -> exists k, 0 <= k /\ a = 2 ^ k.
Proof.
  unfold is_power_of_two. intros [H0%Z.ltb_lt H1%Z.eqb_eq]%andb_true_iff.
  exists (Z.log2 a). split; [apply Z.log2_nonneg|]. pose proof (Z.log2_spec a H0) as [Hl Hu].
  destruct (Z.eq_dec a (2 ^ Z.log2 a)) as [|Hne]; [done|]. exfalso.
  assert (Hb : Z.testbit (a .& (a - 1)) (Z.log2 a) = true); [|by rewrite H1, Z.bits_0 in Hb].
  pose proof (Z.log2_nonneg a). rewrite Z.land_spec, Z.bit_log2 by lia. cbn [andb].
  assert (E : Z.log2 (a - 1) = Z.log2 a) by (apply Z.log2_unique; [done|]; lia). rewrite <- E. apply Z.bit_log2. lia.
Qed.

(** Rounding down to a power of two clears the low bits. *)
Lemma ldiff_pow2 x k : 0 <= k -> x .&~ (2 ^ k - 1) = 2 ^ k * (x / 2 ^ k).
Proof.
  intros Hk. replace (2 ^ k - 1) with (Z.ones k) by (rewrite Z.ones_equiv; lia).
  rewrite Z.ldiff_ones_r, Z.shiftl_mul_pow2, Z.shiftr_div_pow2 by done. lia.
Qed.

(** ** Loops *)

(** A loop of at most [2 ^ n] turns that may end before. *)
Fixpoint iter_until {A B} (n : nat) (step : A -> A + B) (a : A) : A + B :=
  match n with
  | O => step a
  | S n' => match iter_until n' step a with inl a' => iter_until n' step a' | inr b => inr b end
  end.

(** The same, one turn at a time. *)
Fixpoint turns {A B} (k : nat) (step : A -> A + B) (a : A) : A + B :=
  match k with
  | O => inl a
  | S k' => match step a with inl a' => turns k' step a' | inr b => inr b end
  end.

Lemma turns_add {A B} (step : A -> A + B) i : forall j a,
  turns (i + j) step a = match turns i step a with inl a' => turns j step a' | inr b => inr b end.
Proof. induction i as [|i IH]; intros j a; cbn; [done|]. destruct (step a) as [a'|b]; [by apply IH|done]. Qed.

Lemma iter_until_turns {A B} n (step : A -> A + B) : forall a, iter_until n step a = turns (2 ^ n) step a.
Proof.
  induction n as [|n IH]; intros a; cbn [iter_until].
  - cbn. by destruct (step a).
  - rewrite Nat.pow_succ_r', Nat.mul_comm. cbn [Nat.mul]. replace (2 ^ n * 2)%nat with (2 ^ n + 2 ^ n)%nat by lia. rewrite turns_add, IH.
    destruct (turns (2 ^ n) step a); [by apply IH|done].
Qed.

(** Enough turns give the result. *)
Lemma iter_until_enough {A B} n k (step : A -> A + B) a b : turns k step a = inr b -> Z.of_nat k <= 2 ^ Z.of_nat n -> iter_until n step a = inr b.
Proof.
  intros H Hk. change 2 with (Z.of_nat 2) in Hk. rewrite <- Nat2Z.inj_pow in Hk. apply Nat2Z.inj_le in Hk. rewrite iter_until_turns. replace (2 ^ n)%nat with (k + (2 ^ n - k))%nat by lia. by rewrite turns_add, H.
Qed.

(** ** Little-endian byte buffers *)

Fixpoint le_bytes (n : nat) (z : Z) : list Z :=
  match n with
  | O => []
  | S n' => z mod 256 :: le_bytes n' (z / 256)
  end.

Fixpoint le_value (l : list Z) : Z :=
  match l with
  | [] => 0
  | b :: l' => b + 256 * le_value l'
  end.

Definition len (buf : list Z) : Z := Z.of_nat (length buf).

(** The little-endian [u64] at byte [off] (meaningful when it lies inside). *)
Definition get_u64 (buf : list Z) (off : Z) : Z :=
  le_value (take 8 (drop (Z.to_nat off) buf)).

(** [buf[off..off + 8].copy_from_slice(&v.to_le_bytes())], in range. *)
Definition put_u64 (buf : list Z) (off v : Z) : list Z :=
  list_inserts (Z.to_nat off) (le_bytes 8 v) buf.

(** [for byte in &mut buf[a..b] { *byte = 0 }], in range. *)
Fixpoint zero_at (i n : nat) (buf : list Z) : list Z :=
  match buf, i, n with
  | [], _, _ => []
  | x :: buf', S i', _ => x :: zero_at i' n buf'
  | x :: buf', O, S n' => 0 :: zero_at O n' buf'
  | _, O, O => buf
  end.
Definition zero_range (buf : list Z) (a b : Z) : list Z := zero_at (Z.to_nat a) (Z.to_nat (b - a)) buf.

(** The two slice writes as computations: out of range they panic. *)
Definition store_u64 {E} (off v : Z) : M (list Z) E unit := fun buf =>
  if off + 8 <=? len buf then (put_u64 buf off v, Ok tt) else (buf, Panic).
Definition zero_bytes {E} (a b : Z) : M (list Z) E unit := fun buf =>
  if (a <=? b) && (b <=? len buf) then (zero_range buf a b, Ok tt) else (buf, Panic).

(** The buffer as an array of 64-bit words. *)
Definition word (buf : list Z) (a : Z) : Z := get_u64 buf (8 * a).

Lemma zero_range_inserts buf a b : zero_range buf a b = list_inserts (Z.to_nat a) (replicate (Z.to_nat (b - a)) 0) buf.
Proof.
  unfold zero_range. generalize (Z.to_nat a), (Z.to_nat (b - a)). intros i n. revert i n. induction buf as [|x buf IH]; intros i n.
  - by rewrite list_inserts_nil.
  - destruct i as [|i]; [|cbn [zero_at]; by rewrite list_inserts_cons, IH]. destruct n as [|n]; [done|].
    cbn [zero_at replicate list_inserts]. by rewrite list_inserts_cons, IH.
Qed.

Lemma length_le_bytes n z : length (le_bytes n z) = n.
Proof. revert z; induction n; intros; cbn; auto. Qed.

Lemma le_value_bytes n z : le_value (le_bytes n z) = z mod 256 ^ Z.of_nat n.
Proof.
  revert z. induction n as [|n IH]; intros z; cbn [le_bytes le_value].
  { by rewrite Z.mod_1_r. }
  rewrite IH, Nat2Z.inj_succ, Z.pow_succ_r, Z.rem_mul_r by lia. lia.
Qed.

Lemma le_bytes_fits n z : Forall (fits 8) (le_bytes n z).
Proof.
  revert z. induction n; intros z; cbn; constructor; [|done].
  unfold fits. change (2 ^ 8) with 256. apply Z.mod_pos_bound. lia.
Qed.

Lemma inserts_fits i k l : Forall (fits 8) k -> Forall (fits 8) l -> Forall (fits 8) (list_inserts i k l).
Proof.
  intros Hk Hl. revert i. induction Hk as [|x k Hx _ IH]; intros i; cbn; [done|].
  by apply Forall_insert.
Qed.

Lemma le_value_fits l : Forall (fits 8) l -> 0 <= le_value l < 256 ^ Z.of_nat (length l).
Proof.
  induction 1 as [|b l Hb _ IH]; cbn [le_value length]; [done|].
  rewrite Nat2Z.inj_succ, Z.pow_succ_r by lia. unfold fits in Hb. change (2 ^ 8) with 256 in Hb. nia.
Qed.

Lemma len_put_u64 buf off v : len (put_u64 buf off v) = len buf.
Proof. unfold len, put_u64. by rewrite length_inserts. Qed.

Lemma len_zero_range buf a b : len (zero_range buf a b) = len buf.
Proof. unfold len. by rewrite zero_range_inserts, length_inserts. Qed.

Lemma len_nonneg buf : 0 <= len buf.
Proof. unfold len. lia. Qed.

(** A buffer of [n] zero bytes, as a caller allocates it. *)
Definition zeros (n : Z) : list Z := replicate (Z.to_nat n) 0.

Lemma len_zeros n : 0 <= n -> len (zeros n) = n.
Proof. intros. unfold len, zeros. rewrite length_replicate. lia. Qed.

(** Two buffers with the same eight bytes have the same word. *)
Lemma get_u64_ext buf buf' off off' :
  (forall k, (k < 8)%nat -> buf !! (Z.to_nat off + k)%nat = buf' !! (Z.to_nat off' + k)%nat) ->
  get_u64 buf off = get_u64 buf' off'.
Proof.
  intros H. unfold get_u64. f_equal. apply list_eq. intros k.
  destruct (decide (k < 8)%nat).
  - by rewrite !lookup_take_lt, !lookup_drop, H.
  - by rewrite !lookup_take_ge by lia.
Qed.

Lemma get_put_same buf off v :
  0 <= off -> off + 8 <= len buf -> get_u64 (put_u64 buf off v) off = v mod 2 ^ 64.
Proof.
  intros H0 H1. unfold len in H1.
  transitivity (get_u64 (le_bytes 8 v) 0).
  - apply get_u64_ext. intros k Hk. unfold put_u64.
    rewrite list_lookup_inserts by (rewrite ?length_le_bytes; lia). f_equal. lia.
  - unfold get_u64. rewrite drop_0, take_ge by (by rewrite length_le_bytes).
    rewrite le_value_bytes. by change (256 ^ Z.of_nat 8) with (2 ^ 64).
Qed.

Lemma get_put_other buf off off' v :
  0 <= off -> 0 <= off' -> off + 8 <= off' \/ off' + 8 <= off ->
  get_u64 (put_u64 buf off v) off' = get_u64 buf off'.
Proof.
  intros H0 H1 Hd. apply get_u64_ext. intros k Hk. unfold put_u64.
  destruct Hd.
  - rewrite list_lookup_inserts_ge; [done|]. rewrite length_le_bytes. lia.
  - rewrite list_lookup_inserts_lt; [done|]. lia.
Qed.

Lemma get_zero_in buf a b off :
  0 <= a -> a <= off -> off + 8 <= b -> b <= len buf -> get_u64 (zero_range buf a b) off = 0.
Proof.
  intros. unfold len in *. transitivity (get_u64 (replicate 8 0) 0); [|reflexivity].
  apply get_u64_ext. intros k Hk. rewrite zero_range_inserts.
  rewrite list_lookup_inserts by (rewrite ?length_replicate; lia).
  rewrite !lookup_replicate_2; (done || lia).
Qed.

Lemma get_zero_out buf a b off :
  0 <= a <= b -> 0 <= off -> off + 8 <= a \/ b <= off ->
  get_u64 (zero_range buf a b) off = get_u64 buf off.
Proof.
  intros H0 H1 Hd. apply get_u64_ext. intros k Hk. rewrite zero_range_inserts.
  destruct Hd.
  - rewrite list_lookup_inserts_lt; [done|]. lia.
  - rewrite list_lookup_inserts_ge; [done|]. rewrite length_replicate. lia.
Qed.

(** Words written and zeroed one at a time. *)
Lemma word_put buf a a' v :
  0 <= a -> 8 * a + 8 <= len buf -> 0 <= a' ->
  word (put_u64 buf (8 * a) v) a' = if a =? a' then v mod 2 ^ 64 else word buf a'.
Proof.
  intros. unfold word. destruct (Z.eqb_spec a a') as [->|].
  - apply get_put_same; lia.
  - apply get_put_other; lia.
Qed.

Lemma word_zero buf a b a' :
  0 <= a <= b -> 8 * b <= len buf -> 0 <= a' ->
  word (zero_range buf (8 * a) (8 * b)) a' =
    if (a <=? a') && (a' <? b) then 0 else word buf a'.
Proof.
  intros. unfold word. destruct (Z.leb_spec a a'), (Z.ltb_spec a' b); cbn.
  - apply get_zero_in; lia.
  - apply get_zero_out; lia.
  - apply get_zero_out; lia.
  - apply get_zero_out; lia.
Qed.

#[global] Arguments put_u64 : simpl never.
#[global] Arguments zero_range : simpl never.
#[global] Arguments get_u64 : simpl never.
#[global] Arguments word : simpl never.
#[global] Arguments len : simpl never.
#[global] Arguments zeros : simpl never.

(** ** Slices: stable sorting and extremal elements *)

Section by_key.
Context {A : Type} (key : A -> Z).

(** [slice.sort_by_key(key)], which is stable. *)
Fixpoint insert_by (x : A) (l : list A) : list A :=
  match l with
  | [] => [x]
  | y :: l' => if key x <=? key y then x :: l else y :: insert_by x l'
  end.
Definition sort_by_key (l : list A) : list A := foldr insert_by [] l.

(** [iter.max_by_key(key)]: the last of the greatest elements. *)
Fixpoint max_by_key (l : list A) : option A :=
  match l with
  | [] => None
  | x :: l' => match max_by_key l' with
               | Some y => if key x <=? key y then Some y else Some x
               | None => Some x
               end
  end.

Lemma insert_by_perm x l : insert_by x l ≡ₚ x :: l.
Proof. induction l as [|y l IH]; cbn; [done|]. destruct (_ <=? _); [done|]. rewrite IH. apply Permutation_swap. Qed.

Lemma sort_by_key_perm l : sort_by_key l ≡ₚ l.
Proof. induction l as [|x l IH]; cbn; [done|]. by rewrite insert_by_perm, IH. Qed.

Lemma insert_by_sorted x l : StronglySorted (fun a b => key a <= key b) l -> StronglySorted (fun a b => key a <= key b) (insert_by x l).
Proof.
  induction 1 as [|y l Hl IH Hy]; cbn; [by repeat constructor|]. destruct (Z.leb_spec (key x) (key y)) as [H|H].
  - constructor; [by constructor|]. constructor; [done|]. eapply Forall_impl; [exact Hy|]. cbn. lia.
  - constructor; [done|]. rewrite insert_by_perm. constructor; [lia|done].
Qed.

Lemma sort_by_key_sorted l : StronglySorted (fun a b => key a <= key b) (sort_by_key l).
Proof. induction l as [|x l IH]; cbn; [constructor|]. by apply insert_by_sorted. Qed.

Lemma max_by_key_spec l x : max_by_key l = Some x -> x ∈ l /\ Forall (fun y => key y <= key x) l.
Proof.
  revert x. induction l as [|a l IH]; intros x H; cbn in H; [done|].
  destruct (max_by_key l) as [y|] eqn:E.
  - destruct (IH y eq_refl) as [H1 H2]. destruct (Z.leb_spec (key a) (key y)); simplify_eq.
    + split; [by right|]. constructor; [lia|done].
    + split; [left|]. constructor; [lia|]. eapply Forall_impl; [exact H2|]. cbn. lia.
  - simplify_eq. destruct l as [|b l]; [by split; [left|repeat constructor]|]. cbn in E. destruct (max_by_key l); [destruct (_ <=? _)|]; done.
Qed.

Lemma max_by_key_none l : max_by_key l = None -> l = [].
Proof. destruct l as [|a l]; [done|]. cbn. destruct (max_by_key l); [destruct (_ <=? _)|]; done. Qed.
End by_key.
