(* ===== verification/Npt.v ===== *)
(** * Nested page tables (enlil-hal/src/npt.rs)

    The builders and editors of the four-level tables an SVM guest translates
    its guest-physical addresses through, and the table walker [translate_npt].
    The tables live in a byte buffer [buf] whose first byte is at physical
    address [phys_base]; the functions that take [&mut [u8]] are computations
    over that buffer.  Buffer offsets ([usize]) are bounded by the buffer's
    length and are plain integers; [u64] address sums are overflow-checked
    ([uadd]). *)

From Stdlib Require Import ZArith Lia Bool.
From stdpp Require Import base decidable list numbers.
From S2P Require Import Prelude Rust.

Abbreviation PAGE_SIZE := 4096 (only parsing).
Abbreviation HUGE_2MIB := (2 * 1024 * 1024) (only parsing).
Abbreviation TABLE_ENTRIES := 512 (only parsing).
Definition PRESENT : Z := 1.
Definition WRITABLE : Z := 2.
Abbreviation USER := 4 (only parsing).
Definition HUGE_PAGE : Z := 0x80.
Definition ADDR_MASK : Z := 0x000FFFFFFFFFF000.

Record NptLayout : Type := mk_NptLayout {
  ncr3 : Z;
  table_count : Z;
  bytes : Z
}.

Inductive NptError : Type :=
  | EmptyRegion
  | UnalignedBase
  | UnalignedSpaBase
  | MapTooLarge (num_pd : Z)
  | TablesExceedBuffer (needed have : Z)
  | IntermediateNotPresent
  | GuardPageOutOfRange (index num_pages : Z)
  | HugePageOnPath
  | NotAHugePageLeaf
  | FineWindowOutOfRange (index num_2mib : Z)
  | AddressOutOfRange (addr : Z)
  | RangeOverlap (gpa : Z)
  | GuardAddressOutOfRange (guard range_base range_len : Z)
  | GpaOutOfRange (gpa base_gpa num_pages : Z)
  | DirtyRangeOverflow (base_gpa num_pages : Z).

#[export] Instance NptError_eq_dec : EqDecision NptError.
Proof. solve_decision. Defined.

Abbreviation buffer := (list Z).
Abbreviation npt := (M (list Z) NptError).

(** The table indices of a guest-physical address. *)
Abbreviation pml4_i gpa := ((gpa .>> 39) .& 0x1FF) (only parsing).
Abbreviation pdpt_i gpa := ((gpa .>> 30) .& 0x1FF) (only parsing).
Abbreviation pd_i gpa := ((gpa .>> 21) .& 0x1FF) (only parsing).
Abbreviation leaf_i gpa := ((gpa .>> 12) .& 0x1FF) (only parsing).

(** [flags::PRESENT | flags::WRITABLE | flags::USER], and with [HUGE_PAGE]. *)
Abbreviation table_flags := (PRESENT .| WRITABLE .| USER) (only parsing).
Abbreviation huge_leaf_flags := (PRESENT .| WRITABLE .| USER .| HUGE_PAGE) (only parsing).

(** ** Entries *)

Definition read_entry (buf : buffer) (offset : Z) : res NptError Z :=
  if offset + 8 <=? len buf then Ok (get_u64 buf offset) else Err IntermediateNotPresent.

Definition write_entry (offset entry : Z) : npt unit := store_u64 offset entry.

Definition child_offset (buf : buffer) (phys_base table_off index : Z) : res NptError Z :=
  entry ← read_entry buf (table_off + index * 8);
  if negb (tst entry PRESENT) then Err IntermediateNotPresent
  else if tst entry HUGE_PAGE then Err HugePageOnPath
  else
    let child_pa := entry .& ADDR_MASK in
    off ← ok_or (checked_sub child_pa phys_base) IntermediateNotPresent;
    match checked_add off 4096 with
    | Some e => if len buf <? e then Err IntermediateNotPresent else Ok off
    | None => Err IntermediateNotPresent
    end.

(** ** The walker *)

Definition translate_npt (buf : buffer) (phys_base gpa : Z) : option Z :=
  pdpt_off ← ok (child_offset buf phys_base 0 (pml4_i gpa));
  pd_off ← ok (child_offset buf phys_base pdpt_off (pdpt_i gpa));
  pd_entry ← ok (read_entry buf (pd_off + pd_i gpa * 8));
  if negb (tst pd_entry PRESENT) then None
  else if tst pd_entry HUGE_PAGE then
    Some ((pd_entry .& ADDR_MASK) .| (gpa .& (HUGE_2MIB - 1)))
  else
    leaf_table_off ← ok (child_offset buf phys_base pd_off (pd_i gpa));
    leaf ← ok (read_entry buf (leaf_table_off + leaf_i gpa * 8));
    if negb (tst leaf PRESENT) then None
    else Some ((leaf .& ADDR_MASK) .| (gpa .& (PAGE_SIZE - 1))).

(** ** Builders *)

(** Claim the front of the buffer for [count] tables, zeroed. *)
Definition claim_tables (count : Z) : npt Z :=
  n ← reads (fun buf => Ok (len buf));
  region_bytes ← reads (fun _ => ok_or (checked_mul count 4096) (TablesExceedBuffer usize_max n));
  if n <? region_bytes then fail (TablesExceedBuffer region_bytes n)
  else zero_bytes 0 region_bytes ;; mret region_bytes.

Definition build_npt_2mib (phys_base spa_base bytes_to_map : Z) : npt NptLayout :=
  if bytes_to_map =? 0 then fail EmptyRegion
  else if tst phys_base (PAGE_SIZE - 1) then fail UnalignedBase
  else if tst spa_base (HUGE_2MIB - 1) then fail UnalignedSpaBase
  else
    let num_2mib := div_ceil bytes_to_map HUGE_2MIB in
    let num_pd := div_ceil num_2mib TABLE_ENTRIES in
    if TABLE_ENTRIES <? num_pd then fail (MapTooLarge num_pd)
    else
      let table_count := 2 + num_pd in
      region_bytes ← claim_tables table_count;
      pdpt_pa ← uadd phys_base PAGE_SIZE;
      first_pd_pa ← uadd phys_base (2 * PAGE_SIZE);
      let pdpt_off := 4096 in
      let first_pd_off := 2 * 4096 in
      write_entry 0 ((pdpt_pa .& ADDR_MASK) .| table_flags) ;;
      mfor (seqZ 0 num_pd) (fun k =>
        pd_pa ← uadd first_pd_pa (k * PAGE_SIZE);
        write_entry (pdpt_off + k * 8) ((pd_pa .& ADDR_MASK) .| table_flags)) ;;
      mfor (seqZ 0 num_2mib) (fun page =>
        let k := page / 512 in
        let j := page mod 512 in
        let pd_off := first_pd_off + k * 4096 in
        phys ← uadd spa_base (page * HUGE_2MIB);
        write_entry (pd_off + j * 8) ((phys .& ADDR_MASK) .| huge_leaf_flags)) ;;
      mret (mk_NptLayout phys_base table_count region_bytes).

Definition build_identity_npt_2mib (phys_base bytes_to_map : Z) : npt NptLayout :=
  build_npt_2mib phys_base 0 bytes_to_map.

Definition build_identity_npt_4kib (phys_base num_pages : Z) (guard_pages : list Z) : npt NptLayout :=
  if num_pages =? 0 then fail EmptyRegion
  else if tst phys_base (PAGE_SIZE - 1) then fail UnalignedBase
  else
    mfor guard_pages (fun g =>
      if num_pages <=? g then fail (GuardPageOutOfRange g num_pages) else mret tt) ;;
    let num_pt := div_ceil num_pages TABLE_ENTRIES in
    if TABLE_ENTRIES <? num_pt then fail (MapTooLarge num_pt)
    else
      let table_count := 3 + num_pt in
      region_bytes ← claim_tables table_count;
      let pdpt_off := 4096 in
      let directory_off := 2 * 4096 in
      let first_pt_off := 3 * 4096 in
      pdpt_pa ← uadd phys_base PAGE_SIZE;
      directory_pa ← uadd phys_base (2 * PAGE_SIZE);
      first_pt_pa ← uadd phys_base (3 * PAGE_SIZE);
      write_entry 0 ((pdpt_pa .& ADDR_MASK) .| table_flags) ;;
      write_entry pdpt_off ((directory_pa .& ADDR_MASK) .| table_flags) ;;
      mfor (seqZ 0 num_pt) (fun k =>
        pt_pa ← uadd first_pt_pa (k * PAGE_SIZE);
        write_entry (directory_off + k * 8) ((pt_pa .& ADDR_MASK) .| table_flags)) ;;
      mfor (seqZ 0 num_pages) (fun page =>
        if bool_decide (page ∈ guard_pages) then mret tt
        else
          let k := page / 512 in
          let j := page mod 512 in
          let pt_off := first_pt_off + k * 4096 in
          let phys := page * PAGE_SIZE in
          write_entry (pt_off + j * 8) ((phys .& ADDR_MASK) .| table_flags)) ;;
      mret (mk_NptLayout phys_base table_count region_bytes).

Definition build_identity_npt_2mib_with_4kib_window
    (phys_base bytes_to_map fine_2mib_index : Z) (guard_pages : list Z) : npt NptLayout :=
  if bytes_to_map =? 0 then fail EmptyRegion
  else if tst phys_base (PAGE_SIZE - 1) then fail UnalignedBase
  else
    let num_2mib := div_ceil bytes_to_map HUGE_2MIB in
    let num_pd := div_ceil num_2mib TABLE_ENTRIES in
    if TABLE_ENTRIES <? num_pd then fail (MapTooLarge num_pd)
    else if num_2mib <=? fine_2mib_index then fail (FineWindowOutOfRange fine_2mib_index num_2mib)
    else
      mfor guard_pages (fun g =>
        if TABLE_ENTRIES <=? g then fail (GuardPageOutOfRange g TABLE_ENTRIES) else mret tt) ;;
      let fine := fine_2mib_index in
      let table_count := 2 + num_pd + 1 in
      region_bytes ← claim_tables table_count;
      pdpt_pa ← uadd phys_base PAGE_SIZE;
      first_pd_pa ← uadd phys_base (2 * PAGE_SIZE);
      fine_pt_pa ← uadd phys_base ((2 + num_pd) * PAGE_SIZE);
      let pdpt_off := 4096 in
      let first_pd_off := 2 * 4096 in
      let fine_pt_off := (2 + num_pd) * 4096 in
      write_entry 0 ((pdpt_pa .& ADDR_MASK) .| table_flags) ;;
      mfor (seqZ 0 num_pd) (fun k =>
        pd_pa ← uadd first_pd_pa (k * PAGE_SIZE);
        write_entry (pdpt_off + k * 8) ((pd_pa .& ADDR_MASK) .| table_flags)) ;;
      mfor (seqZ 0 num_2mib) (fun page =>
        let k := page / 512 in
        let j := page mod 512 in
        let pd_off := first_pd_off + k * 4096 in
        if page =? fine then
          write_entry (pd_off + j * 8) ((fine_pt_pa .& ADDR_MASK) .| table_flags)
        else
          let phys := page * HUGE_2MIB in
          write_entry (pd_off + j * 8) ((phys .& ADDR_MASK) .| huge_leaf_flags)) ;;
      let fine_base := fine * HUGE_2MIB in
      mfor (seqZ 0 TABLE_ENTRIES) (fun p =>
        if bool_decide (p ∈ guard_pages) then mret tt
        else
          phys ← uadd fine_base (p * PAGE_SIZE);
          write_entry (fine_pt_off + p * 8) ((phys .& ADDR_MASK) .| table_flags)) ;;
      mret (mk_NptLayout phys_base table_count region_bytes).

(** ** Editing single leaves *)

Definition map_npt_2mib_leaf (phys_base gpa spa : Z) : npt unit :=
  if tst gpa (HUGE_2MIB - 1) || tst spa (HUGE_2MIB - 1) then fail UnalignedBase
  else
    pdpt_off ← reads (fun buf => child_offset buf phys_base 0 (pml4_i gpa));
    pd_off ← reads (fun buf => child_offset buf phys_base pdpt_off (pdpt_i gpa));
    write_entry (pd_off + pd_i gpa * 8) ((spa .& ADDR_MASK) .| huge_leaf_flags).

Definition map_npt_4kib_leaf (phys_base gpa spa : Z) : npt unit :=
  if tst gpa (PAGE_SIZE - 1) || tst spa (PAGE_SIZE - 1) then fail UnalignedBase
  else
    pdpt_off ← reads (fun buf => child_offset buf phys_base 0 (pml4_i gpa));
    pd_off ← reads (fun buf => child_offset buf phys_base pdpt_off (pdpt_i gpa));
    leaf_table_off ← reads (fun buf => child_offset buf phys_base pd_off (pd_i gpa));
    write_entry (leaf_table_off + leaf_i gpa * 8) ((spa .& ADDR_MASK) .| table_flags).

Definition set_flag (entry flag : Z) (on : bool) : Z :=
  if on then entry .| flag else entry .&~ flag.

Definition set_npt_2mib_leaf_writable (phys_base gpa : Z) (writable : bool) : npt unit :=
  if tst gpa (HUGE_2MIB - 1) then fail UnalignedBase
  else
    pdpt_off ← reads (fun buf => child_offset buf phys_base 0 (pml4_i gpa));
    pd_off ← reads (fun buf => child_offset buf phys_base pdpt_off (pdpt_i gpa));
    entry ← reads (fun buf => read_entry buf (pd_off + pd_i gpa * 8));
    if negb (tst entry PRESENT) || negb (tst entry HUGE_PAGE) then fail NotAHugePageLeaf
    else write_entry (pd_off + pd_i gpa * 8) (set_flag entry WRITABLE writable).

Definition set_npt_4kib_leaf_writable (phys_base gpa : Z) (writable : bool) : npt unit :=
  if tst gpa (PAGE_SIZE - 1) then fail UnalignedBase
  else
    pdpt_off ← reads (fun buf => child_offset buf phys_base 0 (pml4_i gpa));
    dir_off ← reads (fun buf => child_offset buf phys_base pdpt_off (pdpt_i gpa));
    table_off ← reads (fun buf => child_offset buf phys_base dir_off (pd_i gpa));
    let at_ := table_off + leaf_i gpa * 8 in
    entry ← reads (fun buf => read_entry buf at_);
    if negb (tst entry PRESENT) then fail IntermediateNotPresent
    else write_entry at_ (set_flag entry WRITABLE writable).

Definition set_npt_4kib_leaf_present (phys_base gpa : Z) (present : bool) : npt unit :=
  if tst gpa (PAGE_SIZE - 1) then fail UnalignedBase
  else
    pdpt_off ← reads (fun buf => child_offset buf phys_base 0 (pml4_i gpa));
    dir_off ← reads (fun buf => child_offset buf phys_base pdpt_off (pdpt_i gpa));
    table_off ← reads (fun buf => child_offset buf phys_base dir_off (pd_i gpa));
    let at_ := table_off + leaf_i gpa * 8 in
    entry ← reads (fun buf => read_entry buf at_);
    if (entry .&~ PRESENT) =? 0 then fail IntermediateNotPresent
    else write_entry at_ (set_flag entry PRESENT present).

(** [while at < end { f(at)?; at += PAGE_SIZE }]: one unit of fuel per page. *)
Fixpoint page_loop (fuel : nat) (f : Z -> npt unit) (at_ end_ : Z) : npt unit :=
  if at_ <? end_ then
    match fuel with
    | O => panic
    | S fuel' => f at_ ;; next ← uadd at_ PAGE_SIZE; page_loop fuel' f next end_
    end
  else mret tt.

Definition page_fuel (len_ : Z) : nat := Z.to_nat (div_ceil len_ PAGE_SIZE).

Definition set_npt_range_present (phys_base gpa len_ : Z) (present : bool) : npt unit :=
  end_ ← reads (fun _ => ok_or (checked_add gpa len_) (AddressOutOfRange gpa));
  page_loop (page_fuel len_) (fun at_ => set_npt_4kib_leaf_present phys_base at_ present) gpa end_.

Definition set_npt_range_writable (phys_base gpa len_ : Z) (writable : bool) : npt unit :=
  end_ ← reads (fun _ => ok_or (checked_add gpa len_) (AddressOutOfRange gpa));
  page_loop (page_fuel len_) (fun at_ => set_npt_4kib_leaf_writable phys_base at_ writable) gpa end_.

(** ** Splitting a 2 MiB leaf *)

(** The validation of one guard address of [split_npt_2mib_leaf]. *)
Definition split_guard_ok (gpa g : Z) : npt unit :=
  if tst g (PAGE_SIZE - 1) then fail UnalignedBase
  else
    index ← reads (fun _ => ok_or ((fun d => d / PAGE_SIZE) <$> checked_sub g gpa)
                                  (GuardPageOutOfRange 0 TABLE_ENTRIES));
    if TABLE_ENTRIES <=? index then fail (GuardPageOutOfRange index TABLE_ENTRIES)
    else mret tt.

Definition split_npt_2mib_leaf (phys_base gpa pt_pa : Z) (guard_gpas : list Z) : npt unit :=
  if tst gpa (HUGE_2MIB - 1) || tst pt_pa (PAGE_SIZE - 1) then fail UnalignedBase
  else
    mfor guard_gpas (split_guard_ok gpa) ;;
    n ← reads (fun buf => Ok (len buf));
    new_table_off ← reads (fun _ => ok_or (checked_sub pt_pa phys_base) (TablesExceedBuffer 0 n));
    if (match checked_add new_table_off 4096 with Some e => n <? e | None => true end)
    then fail (TablesExceedBuffer (saturating_add new_table_off 4096) n)
    else
      pdpt_off ← reads (fun buf => child_offset buf phys_base 0 (pml4_i gpa));
      pd_off ← reads (fun buf => child_offset buf phys_base pdpt_off (pdpt_i gpa));
      huge ← reads (fun buf => read_entry buf (pd_off + pd_i gpa * 8));
      if negb (tst huge PRESENT) || negb (tst huge HUGE_PAGE) then fail NotAHugePageLeaf
      else
        let spa_base := huge .& ADDR_MASK in
        let leaf_flags := (huge .&~ ADDR_MASK) .&~ HUGE_PAGE in
        zero_bytes new_table_off (new_table_off + 4096) ;;
        mfor (seqZ 0 TABLE_ENTRIES) (fun j =>
          page_gpa ← uadd gpa (j * PAGE_SIZE);
          if bool_decide (page_gpa ∈ guard_gpas) then mret tt
          else
            phys ← uadd spa_base (j * PAGE_SIZE);
            write_entry (new_table_off + j * 8) ((phys .& ADDR_MASK) .| leaf_flags)) ;;
        write_entry (pd_off + pd_i gpa * 8) ((pt_pa .& ADDR_MASK) .| table_flags).
