(* ===== verification/NptTables.v ===== *)
(** * Page-table hierarchies: the invariant and the walker's reading of it

    [Tables pb buf role] says that the buffer holds a well-formed four-level
    hierarchy: [role] gives each table page its level (0 = PML4 .. 3 = PT) and
    the guest-physical prefix it covers.  A walk for an address visits, at each
    level, exactly the table whose role is that level and the address's prefix;
    hence [translate_npt] is determined by the roles, and a write to one entry
    only changes the addresses whose prefix selects that entry. *)

From Stdlib Require Import ZArith Lia Bool.
From stdpp Require Import base decidable list numbers.
From S2P Require Import Prelude Rust Npt.

(** ** Entry encoding *)

Lemma testbit_ADDR_MASK i : Z.testbit ADDR_MASK i = (12 <=? i) && (i <? 52).
Proof.
  change ADDR_MASK with (Z.ones 40 .<< 12).
  destruct (Z.lt_ge_cases i 0).
  { rewrite Z.testbit_neg_r by done. zcases; lia || done. }
  rewrite Z.shiftl_spec by done.
  destruct (Z.leb_spec 12 i); cbn.
  - rewrite Z.testbit_ones_nonneg by lia. zcases; lia || done.
  - by apply Z.testbit_neg_r; lia.
Qed.
#[export] Hint Rewrite testbit_ADDR_MASK : testbit.

(** Clearing the low [k] bits: alignment as a mask. *)
Lemma land_ones_mod x k : 0 <= k -> x .& Z.ones k = x mod 2 ^ k.
Proof. apply Z.land_ones. Qed.

Lemma tst_mask x k : 0 <= k -> tst x (2 ^ k - 1) = negb (x mod 2 ^ k =? 0).
Proof.
  intros. unfold tst. rewrite <- land_ones_mod by done.
  by rewrite Z.ones_equiv, <- Z.sub_1_r.
Qed.

Lemma tst_page x : tst x (PAGE_SIZE - 1) = negb (x mod 4096 =? 0).
Proof. exact (tst_mask x 12 ltac:(lia)). Qed.

Lemma tst_huge x : tst x (HUGE_2MIB - 1) = negb (x mod 2 ^ 21 =? 0).
Proof. exact (tst_mask x 21 ltac:(lia)). Qed.

Lemma mod_pow_testbit a k i : 0 <= i < k -> a mod 2 ^ k = 0 -> Z.testbit a i = false.
Proof.
  intros Hi Ha. rewrite <- (Z.mod_pow2_bits_low a k i) by lia. by rewrite Ha, Z.testbit_0_l.
Qed.

Lemma addr_mask_id a : fits 52 a -> a mod 4096 = 0 -> a .& ADDR_MASK = a.
Proof.
  intros Hf Ha. bitwise i Hi. destruct (Z.leb_spec 12 i), (Z.ltb_spec i 52); cbn;
    rewrite ?andb_true_r, ?andb_false_r; try done.
  - symmetry. by apply (fits_high 52).
  - symmetry. by apply (mod_pow_testbit a 12); [lia|].
  - lia.
Qed.

Lemma entry_addr a f : f .& ADDR_MASK = 0 -> ((a .& ADDR_MASK) .| f) .& ADDR_MASK = a .& ADDR_MASK.
Proof.
  intros Hf. rewrite Z.land_lor_distr_l, Hf, Z.lor_0_r, <- Z.land_assoc.
  by rewrite Z.land_diag.
Qed.

Lemma entry_flag a f i :
  0 <= i < 12 -> Z.testbit ((a .& ADDR_MASK) .| f) i = Z.testbit f i.
Proof.
  intros Hi. autorewrite with testbit. destruct (Z.leb_spec 12 i); [lia|].
  cbn. by rewrite andb_false_r.
Qed.

Lemma entry_fits a f : 0 <= a -> fits 64 f -> fits 64 ((a .& ADDR_MASK) .| f).
Proof.
  intros Ha Hf. apply fits_lor; [|done]. apply fits_land_r. unfold fits, ADDR_MASK. lia.
Qed.

Lemma tst_PRESENT e : tst e PRESENT = Z.testbit e 0.
Proof. by apply tst_pow. Qed.
Lemma tst_WRITABLE e : tst e WRITABLE = Z.testbit e 1.
Proof. by apply tst_pow. Qed.
Lemma tst_HUGE e : tst e HUGE_PAGE = Z.testbit e 7.
Proof. by apply tst_pow. Qed.

(** A page address joined with an in-page offset is their sum. *)
Lemma lor_offset a k x :
  0 <= k -> a mod 2 ^ k = 0 -> a .| (x .& (2 ^ k - 1)) = a + x mod 2 ^ k.
Proof.
  intros Hk Ha. rewrite Z.sub_1_r, <- Z.ones_equiv, land_ones_mod by done.
  assert (Hl : a .& (x mod 2 ^ k) = 0).
  { bitwise i Hi. destruct (Z.lt_ge_cases i k).
    - by rewrite (mod_pow_testbit a k) by (done || lia).
    - by rewrite Z.mod_pow2_bits_high, andb_false_r by lia. }
  by rewrite Z.add_nocarry_lxor, Z.lxor_lor.
Qed.

(** ** Tables as arrays of entries *)

(** Entry [i] of the table page [t] of the buffer. *)
Definition ent (buf : buffer) (t i : Z) : Z := word buf (512 * t + i).

(** The prefix of [gpa] that selects a table at level [l], and its index there. *)
Definition pfx (l gpa : Z) : Z := gpa / 2 ^ (48 - 9 * l).
Definition idx (l gpa : Z) : Z := pfx (l + 1) gpa mod 512.

Lemma idx_range l gpa : 0 <= idx l gpa < 512.
Proof. apply Z.mod_pos_bound. lia. Qed.

Lemma pfx_step l gpa : 0 <= l <= 3 -> pfx (l + 1) gpa = pfx l gpa * 512 + idx l gpa.
Proof.
  intros Hl. unfold idx. rewrite (Z.div_mod (pfx (l + 1) gpa) 512) at 1 by lia.
  unfold pfx. rewrite Z.div_div by (try apply Z.pow_nonzero; lia).
  replace (2 ^ (48 - 9 * l)) with (2 ^ (48 - 9 * (l + 1)) * 512); [lia|].
  change 512 with (2 ^ 9). rewrite <- Z.pow_add_r by lia. f_equal. lia.
Qed.

Lemma shr_and_511 gpa n : 0 <= n -> (gpa .>> n) .& 0x1FF = (gpa / 2 ^ n) mod 512.
Proof.
  intros. rewrite Z.shiftr_div_pow2 by done. exact (land_ones_mod _ 9 ltac:(lia)).
Qed.

Lemma pml4_i_idx gpa : pml4_i gpa = idx 0 gpa.
Proof. exact (shr_and_511 gpa 39 ltac:(lia)). Qed.
Lemma pdpt_i_idx gpa : pdpt_i gpa = idx 1 gpa.
Proof. exact (shr_and_511 gpa 30 ltac:(lia)). Qed.
Lemma pd_i_idx gpa : pd_i gpa = idx 2 gpa.
Proof. exact (shr_and_511 gpa 21 ltac:(lia)). Qed.
Lemma leaf_i_idx gpa : leaf_i gpa = idx 3 gpa.
Proof. exact (shr_and_511 gpa 12 ltac:(lia)). Qed.

Create Rewrite HintDb npt.
#[export] Hint Rewrite pml4_i_idx pdpt_i_idx pd_i_idx leaf_i_idx
  tst_PRESENT tst_WRITABLE tst_HUGE tst_page tst_huge : npt.

Lemma pfx_0 gpa : 0 <= gpa < 2 ^ 48 -> pfx 0 gpa = 0.
Proof. intros. by apply Z.div_small. Qed.

(** The page [t] lies inside the buffer. *)
Definition in_buf (buf : buffer) (t : Z) : Prop := 0 <= t /\ 4096 * t + 4096 <= len buf.

Lemma read_entry_ent buf t i :
  in_buf buf t -> 0 <= i < 512 -> read_entry buf (4096 * t + i * 8) = Ok (ent buf t i).
Proof.
  intros [Ht Hl] Hi. unfold read_entry, ent, word.
  destruct (Z.leb_spec (4096 * t + i * 8 + 8) (len buf)); [|lia].
  do 2 f_equal. lia.
Qed.

(** ** The invariant *)

Abbreviation roles := (Z -> option (Z * Z)).

(** The entry [e] is a present pointer to table page [c]. *)
Definition points_to (pb e c : Z) : Prop :=
  Z.testbit e 0 = true /\ Z.testbit e 7 = false /\ e .& ADDR_MASK = pb + 4096 * c.

Record Tables (pb : Z) (buf : buffer) (role : roles) : Prop := mk_Tables {
  tb_base : 0 <= pb /\ pb mod 4096 = 0;
  tb_phys : pb + len buf <= 2 ^ 52;
  tb_root : role 0 = Some (0, 0);
  tb_in : forall t l p, role t = Some (l, p) -> in_buf buf t /\ 0 <= l <= 3 /\ 0 <= p;
  tb_inj : forall t t' x, role t = Some x -> role t' = Some x -> t = t';
  (** a present entry is a 2 MiB leaf in a PD or points to the table of its prefix *)
  tb_child : forall t l p i,
    role t = Some (l, p) -> l < 3 -> 0 <= i < 512 -> Z.testbit (ent buf t i) 0 = true ->
    (l = 2 /\ Z.testbit (ent buf t i) 7 = true) \/
    (exists c, points_to pb (ent buf t i) c /\ role c = Some (l + 1, p * 512 + i));
  (** every table but the root is pointed to by the table of its parent prefix *)
  tb_parent : forall c l q, role c = Some (l, q) -> 0 < l ->
    exists t, role t = Some (l - 1, q / 512) /\ points_to pb (ent buf t (q mod 512)) c
}.

(** The buffer holds a well-formed hierarchy. *)
Definition npt_wf (pb : Z) (buf : buffer) : Prop := exists role, Tables pb buf role.

Section walk.
Context (pb : Z) (buf : buffer) (role : roles) (T : Tables pb buf role).

Lemma child_offset_points t i c :
  in_buf buf t -> 0 <= i < 512 -> points_to pb (ent buf t i) c -> in_buf buf c ->
  child_offset buf pb (4096 * t) i = Ok (4096 * c).
Proof.
  intros Ht Hi (Hp & Hh & Ha) [Hc0 Hc]. unfold child_offset.
  rewrite read_entry_ent by done. cbn. autorewrite with npt. rewrite Hp, Hh, Ha. cbn.
  destruct T as [[Hpb _] Hphys _ _ _ _ _].
  unfold checked_sub, checked_add. destruct (Z.ltb_spec (pb + 4096 * c) pb); [lia|].
  replace (pb + 4096 * c - pb) with (4096 * c) by lia. cbn.
  destruct (Z.ltb_spec (4096 * c + 4096) (2 ^ 64)).
  - destruct (Z.ltb_spec (len buf) (4096 * c + 4096)); [lia|done].
  - assert (2 ^ 52 < 2 ^ 64) by (by apply Z.pow_lt_mono_r). lia.
Qed.

Lemma child_offset_absent t i :
  in_buf buf t -> 0 <= i < 512 -> Z.testbit (ent buf t i) 0 = false ->
  child_offset buf pb (4096 * t) i = Err IntermediateNotPresent.
Proof.
  intros Ht Hi Hp. unfold child_offset. rewrite read_entry_ent by done. cbn.
  autorewrite with npt. by rewrite Hp.
Qed.

(** One step of the walk: at the table of level [l] for [gpa], the entry is
    absent, is a 2 MiB leaf, or leads to the table of level [l + 1]. *)
Lemma walk_step l gpa t :
  role t = Some (l, pfx l gpa) -> 0 <= l < 3 ->
  let e := ent buf t (idx l gpa) in
  (Z.testbit e 0 = false /\ child_offset buf pb (4096 * t) (idx l gpa) = Err IntermediateNotPresent
     /\ forall c, role c <> Some (l + 1, pfx (l + 1) gpa)) \/
  (l = 2 /\ Z.testbit e 0 = true /\ Z.testbit e 7 = true
     /\ forall c, role c <> Some (l + 1, pfx (l + 1) gpa)) \/
  (exists c, points_to pb e c /\ child_offset buf pb (4096 * t) (idx l gpa) = Ok (4096 * c)
     /\ role c = Some (l + 1, pfx (l + 1) gpa)).
Proof.
  intros Hr Hl e. destruct (tb_in _ _ _ T _ _ _ Hr) as (Hin & _ & _).
  pose proof (idx_range l gpa) as Hidx.
  assert (Hpar : forall c, role c = Some (l + 1, pfx (l + 1) gpa) -> points_to pb e c).
  { intros c Hc. destruct (tb_parent _ _ _ T _ _ _ Hc) as (t' & Ht' & Hpt); [lia|].
    rewrite Z.add_simpl_r in Ht'. rewrite pfx_step in Ht', Hpt by lia.
    rewrite Z.div_add_l, Z.div_small, Z.add_0_r in Ht' by lia.
    rewrite Z.add_comm, Z.mod_add, Z.mod_small in Hpt by lia.
    pose proof (tb_inj _ _ _ T _ _ _ Hr Ht') as <-. exact Hpt. }
  destruct (Z.testbit e 0) eqn:Hp.
  - destruct (tb_child _ _ _ T _ _ _ _ Hr ltac:(lia) Hidx Hp) as [[-> Hh]|(c & Hpt & Hc)].
    + right; left. split_and!; try done. intros c Hc. apply Hpar in Hc as (_ & Hc & _).
      unfold e in Hc. congruence.
    + right; right. exists c. rewrite pfx_step by lia.
      destruct (tb_in _ _ _ T _ _ _ Hc) as (Hinc & _). split_and!; try done.
      by apply child_offset_points.
  - left. split_and!; try done; [by apply child_offset_absent|].
    intros c Hc. apply Hpar in Hc as (Hc & _). congruence.
Qed.

Lemma role_up l gpa c :
  0 <= l < 3 -> role c = Some (l + 1, pfx (l + 1) gpa) -> exists t, role t = Some (l, pfx l gpa).
Proof.
  intros Hl Hc. destruct (tb_parent _ _ _ T _ _ _ Hc) as (t & Ht & _); [lia|].
  rewrite Z.add_simpl_r, pfx_step in Ht by lia. pose proof (idx_range l gpa).
  rewrite Z.div_add_l, Z.div_small, Z.add_0_r in Ht by lia. eauto.
Qed.

Lemma root_role gpa : 0 <= gpa < 2 ^ 48 -> role 0 = Some (0, pfx 0 gpa).
Proof. intros. rewrite pfx_0 by done. apply T. Qed.

(** The walk down to the PD of an address. *)
Lemma walk_pd gpa :
  0 <= gpa < 2 ^ 48 ->
  (exists tp t, child_offset buf pb 0 (pml4_i gpa) = Ok (4096 * tp) /\
     child_offset buf pb (4096 * tp) (pdpt_i gpa) = Ok (4096 * t) /\
     role tp = Some (1, pfx 1 gpa) /\ role t = Some (2, pfx 2 gpa)) \/
  (translate_npt buf pb gpa = None /\ forall t, role t <> Some (2, pfx 2 gpa)).
Proof.
  intros Hg. pose proof (root_role gpa Hg) as H0. autorewrite with npt.
  assert (Hup : (forall c, role c <> Some (1, pfx 1 gpa)) -> forall t, role t <> Some (2, pfx 2 gpa)).
  { intros Hn t Ht. destruct (role_up 1 gpa t ltac:(lia) Ht) as [t' Ht']. by apply (Hn t'). }
  destruct (walk_step 0 gpa 0 H0 ltac:(lia)) as [(_ & E & Hn)|[(? & _)|(tp & _ & E & Htp)]]; [|lia|].
  { right. split; [|by apply Hup]. unfold translate_npt. autorewrite with npt.
    change (4096 * 0) with 0 in E. by rewrite E. }
  change (4096 * 0) with 0 in E. cbn in Htp.
  destruct (walk_step 1 gpa tp Htp ltac:(lia)) as [(_ & E' & Hn)|[(? & _)|(t & _ & E' & Ht)]]; [|lia|].
  { right. split; [|done]. unfold translate_npt. autorewrite with npt.
    rewrite E. cbn. by rewrite E'. }
  left. exists tp, t. cbn in Ht. done.
Qed.

(** What the walker returns, by the deepest table of the address. *)
Lemma translate_cases gpa :
  0 <= gpa < 2 ^ 48 ->
  (exists t, role t = Some (3, pfx 3 gpa) /\
     translate_npt buf pb gpa =
       let e := ent buf t (idx 3 gpa) in
       if Z.testbit e 0 then Some ((e .& ADDR_MASK) .| (gpa .& (PAGE_SIZE - 1))) else None) \/
  (exists t, role t = Some (2, pfx 2 gpa) /\ (forall c, role c <> Some (3, pfx 3 gpa)) /\
     let e := ent buf t (idx 2 gpa) in
     (Z.testbit e 0 = true -> Z.testbit e 7 = true) /\
     translate_npt buf pb gpa =
       if Z.testbit e 0 then Some ((e .& ADDR_MASK) .| (gpa .& (HUGE_2MIB - 1))) else None) \/
  ((forall c, role c <> Some (2, pfx 2 gpa)) /\ (forall c, role c <> Some (3, pfx 3 gpa)) /\
   translate_npt buf pb gpa = None).
Proof.
  intros Hg. destruct (walk_pd gpa Hg) as [(tp & t & E0 & E1 & _ & Ht)|[E Hn]].
  2: { right; right. split_and!; try done. intros c Hc.
       destruct (role_up 2 gpa c ltac:(lia) Hc) as [t' Ht']. by apply (Hn t'). }
  destruct (tb_in _ _ _ T _ _ _ Ht) as (Hin & _). pose proof (idx_range 2 gpa).
  unfold translate_npt. rewrite E0. cbn. rewrite E1. cbn. autorewrite with npt.
  rewrite read_entry_ent by done. cbn. autorewrite with npt.
  destruct (walk_step 2 gpa t Ht ltac:(lia))
    as [(Hp & _ & Hn)|[(_ & Hp & Hh & Hn)|(c & (Hp & Hh & _) & E2 & Hc)]]; rewrite Hp.
  - right; left. exists t. rewrite Hp. split_and!; done.
  - rewrite Hh. right; left. exists t. rewrite Hp. split_and!; done.
  - rewrite Hh, E2. cbn. left. exists c. cbn in Hc. split; [done|].
    destruct (tb_in _ _ _ T _ _ _ Hc) as (Hinc & _). pose proof (idx_range 3 gpa).
    rewrite read_entry_ent by done. cbn. autorewrite with npt.
    by destruct (Z.testbit (ent buf c (idx 3 gpa)) 0).
Qed.

(** The entries a walk for [gpa] may read. *)
Definition on_path (gpa t i : Z) : Prop :=
  exists l, 0 <= l <= 3 /\ role t = Some (l, pfx l gpa) /\ i = idx l gpa.

Lemma child_offset_frame buf' t i :
  len buf' = len buf -> in_buf buf t -> 0 <= i < 512 -> ent buf' t i = ent buf t i ->
  child_offset buf' pb (4096 * t) i = child_offset buf pb (4096 * t) i.
Proof.
  intros Hl Hin Hi He. unfold child_offset.
  rewrite !read_entry_ent by (unfold in_buf in *; rewrite ?Hl; done). by rewrite He, Hl.
Qed.

(** The walker only depends on the entries on the path of the address. *)
Lemma translate_frame buf' gpa :
  0 <= gpa < 2 ^ 48 -> len buf' = len buf ->
  (forall t i, on_path gpa t i -> ent buf' t i = ent buf t i) ->
  translate_npt buf' pb gpa = translate_npt buf pb gpa.
Proof.
  intros Hg Hl Hent.
  assert (Hsame : forall l t, 0 <= l <= 3 -> role t = Some (l, pfx l gpa) ->
    ent buf' t (idx l gpa) = ent buf t (idx l gpa)) by (intros; apply Hent; unfold on_path; eauto).
  assert (Hco : forall l t, 0 <= l <= 3 -> role t = Some (l, pfx l gpa) ->
    child_offset buf' pb (4096 * t) (idx l gpa) = child_offset buf pb (4096 * t) (idx l gpa)).
  { intros l t Hl' Ht. pose proof (idx_range l gpa).
    destruct (tb_in _ _ _ T _ _ _ Ht) as (? & _). apply child_offset_frame; auto. }
  assert (Hre : forall l t, 0 <= l <= 3 -> role t = Some (l, pfx l gpa) ->
    read_entry buf' (4096 * t + idx l gpa * 8) = read_entry buf (4096 * t + idx l gpa * 8)).
  { intros l t Hl' Ht. pose proof (idx_range l gpa).
    destruct (tb_in _ _ _ T _ _ _ Ht) as (? & _).
    rewrite !read_entry_ent by (unfold in_buf in *; rewrite ?Hl; done). by rewrite Hsame. }
  pose proof (root_role gpa Hg) as H0.
  unfold translate_npt. autorewrite with npt. change 0 with (4096 * 0) at 1 3.
  rewrite (Hco 0 0) by (done || lia).
  destruct (walk_step 0 gpa 0 H0 ltac:(lia)) as [(_ & E & _)|[(? & _)|(tp & _ & E & Htp)]];
    [by rewrite E|lia|]. rewrite E. cbn in Htp |- *.
  rewrite (Hco 1 tp) by (done || lia).
  destruct (walk_step 1 gpa tp Htp ltac:(lia)) as [(_ & E' & _)|[(? & _)|(t & _ & E' & Ht)]];
    [by rewrite E'|lia|]. rewrite E'. cbn in Ht |- *.
  rewrite (Hre 2 t), (Hco 2 t) by (done || lia).
  destruct (walk_step 2 gpa t Ht ltac:(lia))
    as [(Hp & E2 & _)|[(_ & Hp & Hh & _)|(c & _ & E2 & Hc)]].
  - by rewrite E2.
  - destruct (tb_in _ _ _ T _ _ _ Ht) as (? & _). pose proof (idx_range 2 gpa).
    rewrite read_entry_ent by done. cbn. autorewrite with npt. by rewrite Hp, Hh.
  - rewrite E2. cbn in Hc |- *. by rewrite (Hre 3 c) by (done || lia).
Qed.
End walk.

(** ** Reading a translation off the tables *)

(** The page of a present 4 KiB leaf, the page of a present 2 MiB leaf. *)
Lemma pfx_mod_page gpa : gpa = pfx 4 gpa * 4096 + gpa mod 4096.
Proof. unfold pfx. change (2 ^ (48 - 9 * 4)) with 4096. rewrite (Z.div_mod gpa 4096) at 1 by lia. lia. Qed.

Lemma pfx_mod_huge gpa : gpa = pfx 3 gpa * 2 ^ 21 + gpa mod 2 ^ 21.
Proof. unfold pfx. change (2 ^ (48 - 9 * 3)) with (2 ^ 21). rewrite (Z.div_mod gpa (2 ^ 21)) at 1 by lia. lia. Qed.

Lemma div_eq_range s a b : 0 < s -> a mod s = 0 -> b / s = a / s <-> a <= b < a + s.
Proof.
  intros Hs Ha. pose proof (Z.div_mod a s ltac:(lia)). pose proof (Z.div_mod b s ltac:(lia)).
  pose proof (Z.mod_pos_bound b s Hs). rewrite Ha in *. split; [intros; nia|].
  intros. assert (s * (b / s - a / s) < s) by nia. assert (- s < s * (b / s - a / s)) by nia. nia.
Qed.

(** Two addresses agree on a prefix exactly when they agree on the table and the index. *)
Lemma pfx_split l g gpa :
  0 <= l <= 3 -> pfx (l + 1) g = pfx (l + 1) gpa <-> pfx l g = pfx l gpa /\ idx l g = idx l gpa.
Proof.
  intros Hl. rewrite !pfx_step by done. pose proof (idx_range l g). pose proof (idx_range l gpa). lia.
Qed.

Section read.
Context (pb : Z) (buf : buffer) (role : roles) (T : Tables pb buf role).

Lemma role_eq t t' x : role t = Some x -> role t' = Some x -> t = t'.
Proof. apply T. Qed.

Lemma absent_no_child l gpa t :
  0 <= l < 3 -> role t = Some (l, pfx l gpa) -> Z.testbit (ent buf t (idx l gpa)) 0 = false ->
  forall c, role c <> Some (l + 1, pfx (l + 1) gpa).
Proof.
  intros Hl Ht He. destruct (walk_step _ _ _ T l gpa t Ht Hl)
    as [(_ & _ & ?)|[(_ & ? & _)|(c & (? & _) & _)]]; [done|congruence..].
Qed.

Lemma no_role_down l l' gpa :
  0 <= l <= l' -> l' <= 3 -> (forall c, role c <> Some (l, pfx l gpa)) ->
  forall c, role c <> Some (l', pfx l' gpa).
Proof.
  intros [Hl Hll] Hl'. remember (Z.to_nat (l' - l)) as n eqn:Hn.
  replace l' with (l + Z.of_nat n) in * by lia. clear Hn Hll.
  induction n as [|n IH]; intros Hno c Hc.
  { rewrite Z.add_0_r in Hc. by apply (Hno c). }
  replace (l + Z.of_nat (S n)) with (l + Z.of_nat n + 1) in Hc by lia.
  destruct (role_up _ _ _ T (l + Z.of_nat n) gpa c ltac:(lia) Hc) as [t Ht].
  apply (IH ltac:(lia) Hno t Ht).
Qed.

(** No table at or above the PD, or an absent entry on the path: not mapped. *)
Lemma translate_absent l gpa t :
  0 <= gpa < 2 ^ 48 -> 0 <= l <= 3 -> role t = Some (l, pfx l gpa) ->
  Z.testbit (ent buf t (idx l gpa)) 0 = false -> translate_npt buf pb gpa = None.
Proof.
  intros Hg Hl Ht He.
  assert (Hno : forall l', l < l' <= 3 -> forall c, role c <> Some (l', pfx l' gpa)).
  { intros l' Hl'. apply (no_role_down (l + 1)); [lia..|]. apply (absent_no_child l gpa t); (done || lia). }
  destruct (translate_cases _ _ _ T gpa Hg) as [(t' & Ht' & E)|[(t' & Ht' & Hn3 & _ & E)|(_ & _ & E)]];
    [..|done]; rewrite E; cbv zeta.
  - destruct (decide (l = 3)) as [->|]; [|exfalso; by apply (Hno 3 ltac:(lia) t')].
    rewrite (role_eq _ _ _ Ht' Ht). by rewrite He.
  - destruct (decide (l = 3)) as [->|]; [by exfalso; apply (Hn3 t)|].
    destruct (decide (l = 2)) as [->|]; [|exfalso; by apply (Hno 2 ltac:(lia) t')].
    rewrite (role_eq _ _ _ Ht' Ht). by rewrite He.
Qed.

Lemma translate_small gpa t spa f :
  0 <= gpa < 2 ^ 48 -> role t = Some (3, pfx 3 gpa) ->
  ent buf t (idx 3 gpa) = (spa .& ADDR_MASK) .| f -> f .& ADDR_MASK = 0 -> Z.testbit f 0 = true ->
  fits 52 spa -> spa mod 4096 = 0 ->
  translate_npt buf pb gpa = Some (spa + gpa mod 4096).
Proof.
  intros Hg Ht He Hf Hp Hs Ha.
  destruct (translate_cases _ _ _ T gpa Hg) as [(t' & Ht' & E)|[(t' & Ht' & Hn3 & _ & E)|(_ & Hn3 & E)]];
    [|by exfalso; apply (Hn3 t)..].
  rewrite E, (role_eq _ _ _ Ht' Ht), He. cbv zeta.
  rewrite entry_flag, Hp, entry_addr, addr_mask_id by (done || lia).
  f_equal. exact (lor_offset spa 12 gpa ltac:(lia) Ha).
Qed.

Lemma translate_huge gpa t spa f :
  0 <= gpa < 2 ^ 48 -> role t = Some (2, pfx 2 gpa) ->
  ent buf t (idx 2 gpa) = (spa .& ADDR_MASK) .| f -> f .& ADDR_MASK = 0 ->
  Z.testbit f 0 = true -> Z.testbit f 7 = true -> fits 52 spa -> spa mod 2 ^ 21 = 0 ->
  translate_npt buf pb gpa = Some (spa + gpa mod 2 ^ 21).
Proof.
  intros Hg Ht He Hf Hp Hh Hs Ha.
  assert (Hn3 : forall c, role c <> Some (3, pfx 3 gpa)).
  { intros c. destruct (walk_step _ _ _ T 2 gpa t Ht ltac:(lia))
      as [(Hc & _)|[(_ & _ & _ & Hn)|(c' & (_ & Hc & _) & _)]]; [|apply Hn|];
      rewrite He, entry_flag in Hc by lia; congruence. }
  destruct (translate_cases _ _ _ T gpa Hg) as [(t' & Ht' & E)|[(t' & Ht' & _ & _ & E)|(Hn & _)]];
    [by exfalso; apply (Hn3 t')| |by exfalso; apply (Hn t)].
  rewrite E, (role_eq _ _ _ Ht' Ht), He. cbv zeta.
  assert (Ha' : spa mod 4096 = 0).
  { rewrite (Z.div_mod spa (2 ^ 21)), Ha by lia.
    replace (2 ^ 21 * (spa / 2 ^ 21) + 0) with ((512 * (spa / 2 ^ 21)) * 4096) by lia. apply Z.mod_mul. lia. }
  rewrite entry_flag, Hp, entry_addr, addr_mask_id by (done || lia).
  f_equal. exact (lor_offset spa 21 gpa ltac:(lia) Ha).
Qed.
End read.

(** Entries that agree on presence and address translate alike. *)
Lemma translate_same_leaves pb role buf buf' g :
  Tables pb buf role -> Tables pb buf' role -> 0 <= g < 2 ^ 48 ->
  (forall t l, role t = Some (l, pfx l g) -> 0 <= l <= 3 ->
     Z.testbit (ent buf' t (idx l g)) 0 = Z.testbit (ent buf t (idx l g)) 0 /\
     ent buf' t (idx l g) .& ADDR_MASK = ent buf t (idx l g) .& ADDR_MASK) ->
  translate_npt buf' pb g = translate_npt buf pb g.
Proof.
  intros T T' Hg Hent.
  destruct (translate_cases _ _ _ T' g Hg) as [(t & Ht & ->)|[(t & Ht & Hn3 & _ & ->)|(Hn2 & Hn3 & ->)]],
    (translate_cases _ _ _ T g Hg) as [(t2 & Ht2 & ->)|[(t2 & Ht2 & Hn3' & _ & ->)|(Hn2' & Hn3' & ->)]];
    try (exfalso; match goal with H : forall c, role c <> Some ?x, H' : role _ = Some ?x |- _ => exact (H _ H') end);
    try done; cbv zeta;
    pose proof (role_eq _ _ _ T _ _ _ Ht Ht2) as <-; destruct (Hent t _ Ht ltac:(lia)) as [-> ->]; done.
Qed.

(** ** Updates that keep the invariant *)

Section update.
Context (pb : Z) (buf : buffer) (role : roles) (T : Tables pb buf role).

(** Leaves may change: any PT entry, and a PD entry without a page table. *)
Lemma Tables_leaves buf' :
  len buf' = len buf ->
  (forall t l p i, role t = Some (l, p) -> l < 3 -> 0 <= i < 512 ->
     ent buf' t i = ent buf t i \/
     (l = 2 /\ (forall c, role c <> Some (3, p * 512 + i)) /\
      (Z.testbit (ent buf' t i) 0 = true -> Z.testbit (ent buf' t i) 7 = true))) ->
  Tables pb buf' role.
Proof.
  intros Hl He. destruct T as [Hb Hp Hr Hin Hinj Hch Hpa]. split; try done.
  - by rewrite Hl.
  - intros t l p Ht. destruct (Hin _ _ _ Ht) as (? & ? & ?). unfold in_buf in *. by rewrite Hl.
  - intros t l p i Ht Hl3 Hi Hpr. destruct (He _ _ _ _ Ht Hl3 Hi) as [E|(-> & Hn & Hh)]; [|left; auto].
    rewrite E in *. eauto.
  - intros c l q Hc Hl0. destruct (Hpa _ _ _ Hc Hl0) as (t & Ht & Hpt). exists t. split; [done|].
    destruct (Hin _ _ _ Hc) as (_ & Hlc & _).
    destruct (He t (l - 1) (q / 512) (q mod 512) Ht) as [->|(Hl2 & Hn & _)]; [lia|by apply Z.mod_pos_bound|done|].
    exfalso. apply (Hn c). rewrite Hc. f_equal. f_equal; [lia|].
    rewrite (Z.div_mod q 512) at 1 by lia. lia.
Qed.

Definition role_insert (c : Z) (x : Z * Z) : roles := fun t => if t =? c then Some x else role t.

(** A fresh page [c], empty unless it is a PT, is linked below a slot that has no table. *)
Lemma Tables_link buf' t l p i c :
  len buf' = len buf -> role t = Some (l, p) -> 0 <= l < 3 -> 0 <= i < 512 ->
  role c = None -> in_buf buf c ->
  (forall c', role c' <> Some (l + 1, p * 512 + i)) ->
  points_to pb (ent buf' t i) c ->
  (l < 2 -> forall j, 0 <= j < 512 -> Z.testbit (ent buf' c j) 0 = false) ->
  (forall t' j, role t' <> None -> 0 <= j < 512 -> (t', j) <> (t, i) -> ent buf' t' j = ent buf t' j) ->
  Tables pb buf' (role_insert c (l + 1, p * 512 + i)).
Proof.
  intros Hlen Ht Hl Hi Hc Hinc Hno Hpt Hempty Hsame.
  destruct T as [Hb Hp Hr Hin Hinj Hch Hpa].
  destruct (Hin _ _ _ Ht) as (_ & _ & Hp0).
  assert (Hib : forall t, in_buf buf' t <-> in_buf buf t) by (intros; unfold in_buf; by rewrite Hlen).
  split; try done.
  - by rewrite Hlen.
  - unfold role_insert. zcases; [congruence|done].
  - unfold role_insert. intros t' l' p'. zcases; intros E.
    + simplify_eq. rewrite Hib. split_and!; (done || lia).
    + rewrite Hib. eauto.
  - unfold role_insert. intros t1 t2 x. zcases; intros E1 E2; simplify_eq; eauto;
      exfalso; eapply Hno; eauto.
  - unfold role_insert. intros t' l' p' j. zcases; intros E Hl' Hj Hpr.
    + simplify_eq. rewrite Hempty in Hpr by lia. done.
    + destruct (decide ((t', j) = (t, i))) as [Heq|Hne].
      { simplify_eq. right. exists c. by rewrite Z.eqb_refl. }
      rewrite Hsame in * by (done || congruence).
      destruct (Hch _ _ _ _ E Hl' Hj Hpr) as [?|(c' & ? & Hc')]; [by left|].
      right. exists c'. split; [done|]. zcases; [congruence|done].
  - unfold role_insert. intros c' l' q. zcases; intros E Hl0.
    + simplify_eq. exists t. rewrite Z.add_simpl_r.
      rewrite Z.div_add_l, Z.div_small, Z.add_0_r by lia.
      rewrite (Z.add_comm (p * 512) i), Z.mod_add, Z.mod_small by lia.
      split; [zcases; [congruence|done]|done].
    + destruct (Hpa _ _ _ E Hl0) as (t' & Ht' & Hpt'). exists t'.
      split; [zcases; [congruence|done]|].
      destruct (decide ((t', q mod 512) = (t, i))) as [Heq|Hne].
      { exfalso. simplify_eq.
        apply (Hno c'). rewrite E. f_equal. f_equal; [lia|]. rewrite (Z.div_mod q 512) at 1 by lia. lia. }
      rewrite Hsame; [done|congruence|by apply Z.mod_pos_bound|done].
Qed.

(** Forget the page table of a PD slot. *)
Definition role_forget (q : Z) : roles := fun t =>
  if bool_decide (role t = Some (3, q)) then None else role t.

Lemma role_forget_some q t x : role_forget q t = Some x <-> role t = Some x /\ x <> (3, q).
Proof.
  unfold role_forget. case_bool_decide as E; split; [done| |..].
  - intros [Hx Hne]. congruence.
  - intros Hx. split; [done|]. congruence.
  - by intros [? _].
Qed.

(** A PD entry is replaced by a 2 MiB leaf: a page table below it is dropped. *)
Lemma Tables_replace buf' t p i :
  len buf' = len buf -> role t = Some (2, p) -> 0 <= i < 512 ->
  Z.testbit (ent buf' t i) 7 = true ->
  (forall t' j, role t' <> None -> 0 <= j < 512 -> (t', j) <> (t, i) -> ent buf' t' j = ent buf t' j) ->
  Tables pb buf' (role_forget (p * 512 + i)).
Proof.
  intros Hl Ht Hi Hh Hsame. destruct T as [Hb Hp Hr Hin Hinj Hch Hpa]. split; try done.
  - by rewrite Hl.
  - by apply role_forget_some.
  - intros t' l' p' [Ht' _]%role_forget_some. destruct (Hin _ _ _ Ht') as (? & ? & ?).
    unfold in_buf in *. by rewrite Hl.
  - intros t1 t2 x [H1 _]%role_forget_some [H2 _]%role_forget_some. eauto.
  - intros t' l' p' j [Ht' Hne]%role_forget_some Hl3 Hj Hpr.
    destruct (decide ((t', j) = (t, i))) as [E|Hn].
    { injection E as -> ->. left. rewrite Ht in Ht'. by injection Ht' as <- <-. }
    rewrite Hsame in * by (done || congruence).
    destruct (Hch _ _ _ _ Ht' Hl3 Hj Hpr) as [?|(c & Hpt & Hc)]; [by left|].
    right. exists c. split; [done|]. apply role_forget_some. split; [done|]. intros [= El Eq].
    apply Hn. destruct (Hin _ _ _ Ht) as (_ & _ & ?), (Hin _ _ _ Ht') as (_ & _ & ?).
    assert (p' = p /\ j = i) as [-> ->] by lia. f_equal. apply (Hinj t' t (2, p)); [|done].
    rewrite Ht'. do 2 f_equal. lia.
  - intros c l' q [Hc Hne]%role_forget_some Hl0. destruct (Hpa _ _ _ Hc Hl0) as (t' & Ht' & Hpt).
    exists t'. split; [apply role_forget_some; split; [done|intros [=]; destruct (Hin _ _ _ Hc); lia]|].
    rewrite Hsame; [done|congruence|by apply Z.mod_pos_bound|].
    intros [= -> Ei]. apply Hne. rewrite Ht in Ht'. injection Ht' as El Ep.
    f_equal; [lia|]. rewrite (Z.div_mod q 512) by lia. lia.
Qed.

(** Only the addresses below the written slot can change. *)
Lemma translate_slot buf' t l p i gpa :
  0 <= gpa < 2 ^ 48 -> len buf' = len buf -> role t = Some (l, p) -> 0 <= l <= 3 -> 0 <= i < 512 ->
  (forall t' j, role t' <> None -> 0 <= j < 512 -> (t', j) <> (t, i) -> ent buf' t' j = ent buf t' j) ->
  pfx (l + 1) gpa <> p * 512 + i ->
  translate_npt buf' pb gpa = translate_npt buf pb gpa.
Proof.
  intros Hg Hlen Ht Hl Hi Hsame Hne. apply (translate_frame pb buf role T); [done..|].
  intros t' j (l' & Hl' & Ht' & ->). apply Hsame; [congruence|apply idx_range|].
  intros [=-> Hj]. rewrite Ht' in Ht. simplify_eq. by rewrite pfx_step in Hne.
Qed.
End update.

(** ** Writes of the code, seen on the entries *)

(** A write of one entry, seen on the entries. *)
Lemma ent_put buf t i v t' j :
  in_buf buf t -> 0 <= i < 512 -> 0 <= t' -> 0 <= j < 512 -> fits 64 v ->
  ent (put_u64 buf (4096 * t + i * 8) v) t' j = if bool_decide ((t', j) = (t, i)) then v else ent buf t' j.
Proof.
  intros [Ht Hl] Hi Ht' Hj Hv. unfold ent.
  replace (4096 * t + i * 8) with (8 * (512 * t + i)) by lia.
  rewrite word_put by lia. destruct (Z.eqb_spec (512 * t + i) (512 * t' + j)).
  - rewrite bool_decide_eq_true_2; [by apply Z.mod_small|]. f_equal; lia.
  - rewrite bool_decide_eq_false_2; [done|]. intros [=]. lia.
Qed.

(** Zeroing one page, seen on the entries. *)
Lemma ent_zero_page buf u t j :
  in_buf buf u -> 0 <= t -> 0 <= j < 512 ->
  ent (zero_range buf (4096 * u) (4096 * (u + 1))) t j = if t =? u then 0 else ent buf t j.
Proof.
  intros [Hu Hl] Ht Hj. unfold ent.
  replace (4096 * u) with (8 * (512 * u)) by lia.
  replace (4096 * (u + 1)) with (8 * (512 * (u + 1))) by lia.
  rewrite word_zero by lia. destruct (Z.eqb_spec t u).
  - destruct (Z.leb_spec (512 * u) (512 * t + j)), (Z.ltb_spec (512 * t + j) (512 * (u + 1))); (done || lia).
  - destruct (Z.leb_spec (512 * u) (512 * t + j)), (Z.ltb_spec (512 * t + j) (512 * (u + 1))); (done || lia).
Qed.

Lemma write_entry_ok buf t i v :
  in_buf buf t -> 0 <= i < 512 ->
  @write_entry (4096 * t + i * 8) v buf = (put_u64 buf (4096 * t + i * 8) v, Ok tt).
Proof.
  intros [Ht Hl] Hi. unfold write_entry, store_u64.
  by destruct (Z.leb_spec (4096 * t + i * 8 + 8) (len buf)); [|lia].
Qed.

(** A table pointer built by the code points to its page. *)
Lemma table_entry_points pb c :
  0 <= pb -> pb mod 4096 = 0 -> 0 <= c -> pb + 4096 * c < 2 ^ 52 ->
  points_to pb (((pb + 4096 * c) .& ADDR_MASK) .| table_flags) c.
Proof.
  intros Hpb Ha Hc Hs. unfold points_to. rewrite !entry_flag, entry_addr by (done || lia).
  split_and!; [done..|]. apply addr_mask_id; [unfold fits; lia|].
  rewrite Z.mul_comm, Z.mod_add by lia. done.
Qed.

Lemma table_entry_fits pa : 0 <= pa -> fits 64 ((pa .& ADDR_MASK) .| table_flags).
Proof. intros. by apply entry_fits. Qed.
