(* ===== verification/NptMapper.v ===== *)
(** * The sparse range mapper (enlil-hal/src/npt.rs, [NptMapper])

    [NptMapper] composes a hierarchy range by range, taking table pages from
    the front of the buffer on demand and choosing 2 MiB or 4 KiB leaves per
    chunk.  The file models every method and proves that the mapper refines a
    partial map from guest-physical to system-physical addresses: [map_range]
    adds exactly the pages of its range, in order, up to the point of the
    reported error, and never changes an address mapped before. *)

From Stdlib Require Import ZArith Lia Bool.
From stdpp Require Import base decidable list numbers.
From S2P Require Import Prelude Rust Npt NptTables.

(** ** The mapper *)

Record NptMapper : Type := mk_NptMapper {
  mp_buf : buffer;
  phys_base : Z;
  tables_used : Z
}.

Inductive MapperChild : Type :=
  | Absent
  | HugeLeaf
  | Table (off : Z).

Abbreviation mapper := (M NptMapper NptError).

(** Run a computation on the mapper's buffer. *)
Definition on_buf {A} (f : npt A) : mapper A := fun m =>
  let '(b, r) := f (mp_buf m) in (mk_NptMapper b (phys_base m) (tables_used m), r).

(** [self.tables_used += 1] *)
Definition count_table : mapper unit := fun m =>
  (mk_NptMapper (mp_buf m) (phys_base m) (tables_used m + 1), Ok tt).

Definition alloc_table : mapper (Z * Z) :=
  n ← reads (fun m => Ok (len (mp_buf m)));
  off ← reads (fun m => ok_or (checked_mul (tables_used m) 4096) (TablesExceedBuffer usize_max n));
  end_ ← reads (fun _ => ok_or (checked_add off 4096) (TablesExceedBuffer usize_max n));
  if n <? end_ then fail (TablesExceedBuffer end_ n)
  else
    on_buf (zero_bytes off end_) ;;
    base ← reads (fun m => Ok (phys_base m));
    pa ← uadd base off;
    count_table ;;
    mret (pa, off).

(** [NptMapper::new]: the buffer is borrowed, so the mapper owns its contents. *)
Definition mapper_new (buf : buffer) (base : Z) : res NptError NptMapper :=
  if tst base (PAGE_SIZE - 1) then Err UnalignedBase
  else if len buf <? 4096 then Err (TablesExceedBuffer 4096 (len buf))
  else
    let '(m, r) := alloc_table (mk_NptMapper buf base 0) in
    r ≫= fun _ => Ok m.

Definition mapper_layout (m : NptMapper) : NptLayout :=
  mk_NptLayout (phys_base m) (tables_used m) (Z.min (tables_used m * 4096) usize_max).

(** A table address converted back to a buffer offset, when the page is inside. *)
Definition table_offset (m : NptMapper) (child_pa : Z) : res NptError Z :=
  off ← ok_or (checked_sub child_pa (phys_base m)) IntermediateNotPresent;
  match checked_add off 4096 with
  | Some end_ => if len (mp_buf m) <? end_ then Err IntermediateNotPresent else Ok off
  | None => Err IntermediateNotPresent
  end.

Definition child_table_off (table_off index : Z) : mapper Z :=
  entry ← reads (fun m => read_entry (mp_buf m) (table_off + index * 8));
  if tst entry PRESENT then reads (fun m => table_offset m (entry .& ADDR_MASK))
  else
    '(pa, off) ← alloc_table;
    on_buf (write_entry (table_off + index * 8) ((pa .& ADDR_MASK) .| table_flags)) ;;
    mret off.

Definition pd_off_for (gpa : Z) : mapper Z :=
  pdpt_off ← child_table_off 0 (pml4_i gpa);
  child_table_off pdpt_off (pdpt_i gpa).

Definition pd_child (m : NptMapper) (pd_off index : Z) : res NptError MapperChild :=
  entry ← read_entry (mp_buf m) (pd_off + index * 8);
  if negb (tst entry PRESENT) then Ok Absent
  else if tst entry HUGE_PAGE then Ok HugeLeaf
  else off ← table_offset m (entry .& ADDR_MASK); Ok (Table off).

Definition pt_off_for (gpa : Z) : mapper Z :=
  pd_off ← pd_off_for gpa;
  child ← reads (fun m => pd_child m pd_off (pd_i gpa));
  match child with
  | Table off => mret off
  | Absent =>
      '(pa, off) ← alloc_table;
      on_buf (write_entry (pd_off + pd_i gpa * 8) ((pa .& ADDR_MASK) .| table_flags)) ;;
      mret off
  | HugeLeaf => fail (RangeOverlap gpa)
  end.

Definition map_huge_leaf (gpa spa : Z) : mapper unit :=
  pd_off ← pd_off_for gpa;
  child ← reads (fun m => pd_child m pd_off (pd_i gpa));
  match child with
  | Absent => on_buf (write_entry (pd_off + pd_i gpa * 8) ((spa .& ADDR_MASK) .| huge_leaf_flags))
  | _ => fail (RangeOverlap gpa)
  end.

Definition map_small_page (gpa : Z) (spa : option Z) : mapper unit :=
  pt_off ← pt_off_for gpa;
  let off := pt_off + leaf_i gpa * 8 in
  entry ← reads (fun m => read_entry (mp_buf m) off);
  if tst entry PRESENT then fail (RangeOverlap gpa)
  else match spa with
       | Some spa => on_buf (write_entry off ((spa .& ADDR_MASK) .| table_flags))
       | None => mret tt
       end.

(** The loop of [map_range]: one unit of fuel per chunk. *)
Fixpoint map_chunks (fuel : nat) (guard_gpas : list Z) (gpa spa remaining : Z) : mapper unit :=
  if negb (0 <? remaining) then mret tt
  else match fuel with
  | O => panic
  | S fuel' =>
      let chunk_has_guard := existsb (fun g => (gpa <=? g) && (g <? gpa + HUGE_2MIB)) guard_gpas in
      if negb (tst gpa (HUGE_2MIB - 1)) && negb (tst spa (HUGE_2MIB - 1))
         && (HUGE_2MIB <=? remaining) && negb chunk_has_guard
      then
        map_huge_leaf gpa spa ;;
        gpa' ← uadd gpa HUGE_2MIB;
        spa' ← uadd spa HUGE_2MIB;
        map_chunks fuel' guard_gpas gpa' spa' (remaining - HUGE_2MIB)
      else
        let target := if bool_decide (gpa ∈ guard_gpas) then None else Some spa in
        map_small_page gpa target ;;
        gpa' ← uadd gpa PAGE_SIZE;
        spa' ← uadd spa PAGE_SIZE;
        map_chunks fuel' guard_gpas gpa' spa' (remaining - PAGE_SIZE)
  end.

(** The validation of one guard address of [map_range]. *)
Definition range_guard_ok (gpa len_ end_ guard : Z) : mapper unit :=
  if tst guard (PAGE_SIZE - 1) then fail UnalignedBase
  else if (guard <? gpa) || (end_ <=? guard) then fail (GuardAddressOutOfRange guard gpa len_)
  else mret tt.

Definition map_range (gpa spa len_ : Z) (guard_gpas : list Z) : mapper unit :=
  if len_ =? 0 then fail EmptyRegion
  else if tst gpa (PAGE_SIZE - 1) || tst spa (PAGE_SIZE - 1) || tst len_ (PAGE_SIZE - 1)
  then fail UnalignedBase
  else
    end_ ← reads (fun _ => ok_or (checked_add gpa len_) (AddressOutOfRange gpa));
    if 2 ^ 48 <? end_ then fail (AddressOutOfRange (end_ - 1))
    else
      mfor guard_gpas (range_guard_ok gpa len_ end_) ;;
      map_chunks (page_fuel len_) guard_gpas gpa spa len_.

(** ** The invariant: the roles are exactly the tables handed out *)

Definition MRole (m : NptMapper) (role : roles) : Prop :=
  Tables (phys_base m) (mp_buf m) role /\ forall t, role t <> None <-> 0 <= t < tables_used m.

Definition mapper_inv (m : NptMapper) : Prop := exists role, MRole m role.

(** What the guest sees: the translation of a guest-physical address. *)
Definition xlate (m : NptMapper) (gpa : Z) : option Z := translate_npt (mp_buf m) (phys_base m) gpa.

Definition same_frame (m m' : NptMapper) : Prop :=
  phys_base m' = phys_base m /\ len (mp_buf m') = len (mp_buf m).

(** Nothing the guest sees has changed. *)
Definition keeps (m m' : NptMapper) : Prop :=
  same_frame m m' /\ forall g, 0 <= g < 2 ^ 48 -> xlate m' g = xlate m g.

(** The error of an exhausted buffer: the next table page does not fit. *)
Definition full (m : NptMapper) (e : NptError) : Prop :=
  e = TablesExceedBuffer (4096 * (tables_used m + 1)) (len (mp_buf m)) /\
  len (mp_buf m) < 4096 * (tables_used m + 1).

(** The outcome of a table lookup: the table of level [l] for [gpa], or a full buffer. *)
Definition finds (role : roles) (m : NptMapper) (l gpa : Z) (r : res NptError Z) : Prop :=
  match r with
  | Ok off => exists c, off = 4096 * c /\ role c = Some (l, pfx l gpa)
  | Err e => full m e
  | Panic => False
  end.

(** ** Tables *)

Lemma MRole_used m role :
  MRole m role -> 0 < tables_used m /\ 4096 * tables_used m <= len (mp_buf m).
Proof.
  intros [T Hd]. assert (H0 : role 0 <> None) by (rewrite (tb_root _ _ _ T); done).
  apply Hd in H0. split; [lia|].
  destruct (role (tables_used m - 1)) as [[l p]|] eqn:E.
  - destruct (tb_in _ _ _ T _ _ _ E) as ([_ ?] & _). lia.
  - exfalso. assert (role (tables_used m - 1) <> None) by (apply Hd; lia). done.
Qed.

Lemma alloc_table_run m :
  0 <= phys_base m -> phys_base m + len (mp_buf m) <= 2 ^ 52 ->
  0 <= tables_used m -> 4096 * tables_used m <= len (mp_buf m) ->
  let u := tables_used m in
  wp alloc_table (fun m' r =>
    (m' = m /\ exists e, r = Err e /\ full m e) \/
    (m' = mk_NptMapper (zero_range (mp_buf m) (4096 * u) (4096 * (u + 1))) (phys_base m) (u + 1) /\
     in_buf (mp_buf m) u /\ r = Ok (phys_base m + 4096 * u, 4096 * u))) m.
Proof.
  intros Hb Hp Hu Hl u. assert (2 ^ 52 + 4096 < 2 ^ 64) by done. pose proof (len_nonneg (mp_buf m)).
  unfold wp, alloc_table, reads, mbind, M_bind, checked_mul, checked_add. cbn -[Z.pow].
  destruct (Z.ltb_spec (tables_used m * 4096) (2 ^ 64)); [|lia]. cbn -[Z.pow].
  destruct (Z.ltb_spec (tables_used m * 4096 + 4096) (2 ^ 64)); [|lia]. cbn -[Z.pow].
  destruct (Z.ltb_spec (len (mp_buf m)) (tables_used m * 4096 + 4096)); cbn -[Z.pow].
  { left. split; [done|]. eexists. split; [done|]. split; [f_equal; lia|lia]. }
  unfold on_buf, zero_bytes. destruct (Z.leb_spec (tables_used m * 4096) (tables_used m * 4096 + 4096)); [|lia].
  destruct (Z.leb_spec (tables_used m * 4096 + 4096) (len (mp_buf m))); [|lia]. cbn -[Z.pow].
  unfold uadd. destruct (Z.ltb_spec (phys_base m + tables_used m * 4096) (2 ^ 64)); [|lia].
  cbn. right. subst u. replace (4096 * (tables_used m + 1)) with (tables_used m * 4096 + 4096) by lia.
  rewrite (Z.mul_comm 4096 (tables_used m)). split_and!; try done. unfold in_buf. lia.
Qed.

Lemma alloc_table_spec m role :
  MRole m role ->
  let u := tables_used m in
  wp alloc_table (fun m' r =>
    (m' = m /\ exists e, r = Err e /\ full m e) \/
    (m' = mk_NptMapper (zero_range (mp_buf m) (4096 * u) (4096 * (u + 1))) (phys_base m) (u + 1) /\
     in_buf (mp_buf m) u /\ r = Ok (phys_base m + 4096 * u, 4096 * u))) m.
Proof.
  intros HM u. destruct (MRole_used _ _ HM) as [Hu Hl]. destruct HM as [T _].
  apply alloc_table_run; [apply (tb_base _ _ _ T)|apply (tb_phys _ _ _ T)|lia|done].
Qed.

(** ** Linking a fresh table below an absent entry *)

Section link.
Context (m : NptMapper) (role : roles) (HM : MRole m role).
Context (t l gpa : Z) (Ht : role t = Some (l, pfx l gpa)) (Hl : 0 <= l < 3) (Hg : 0 <= gpa < 2 ^ 48).
Hypothesis (Habs : Z.testbit (ent (mp_buf m) t (idx l gpa)) 0 = false).

Let u := tables_used m.
Let e := ((phys_base m + 4096 * u) .& ADDR_MASK) .| table_flags.
Let buf' := put_u64 (zero_range (mp_buf m) (4096 * u) (4096 * (u + 1))) (4096 * t + idx l gpa * 8) e.
Let role' := role_insert role u (l + 1, pfx (l + 1) gpa).

Hypothesis (Hu : in_buf (mp_buf m) u).

Lemma link_fresh : role u = None.
Proof.
  destruct HM as [_ Hd]. destruct (role u) eqn:E; [|done].
  assert (role u <> None) as H%Hd by congruence. unfold u in H. lia.
Qed.

Lemma link_ent t' j :
  0 <= t' -> 0 <= j < 512 ->
  ent buf' t' j = if bool_decide ((t', j) = (t, idx l gpa)) then e
                  else if t' =? u then 0 else ent (mp_buf m) t' j.
Proof.
  intros Ht' Hj. destruct HM as [T Hd]. destruct (tb_in _ _ _ T _ _ _ Ht) as (Hin & _).
  unfold buf'. rewrite ent_put; [|by unfold in_buf in *; rewrite len_zero_range|apply idx_range|done..|].
  - case_bool_decide; [done|]. by apply ent_zero_page.
  - apply table_entry_fits. destruct (tb_base _ _ _ T). destruct Hu. lia.
Qed.

Lemma link_same t' j :
  role t' <> None -> 0 <= j < 512 -> (t', j) <> (t, idx l gpa) -> ent buf' t' j = ent (mp_buf m) t' j.
Proof.
  intros Ht' Hj Hne. destruct HM as [_ Hd]. pose proof (proj1 (Hd t') Ht').
  rewrite link_ent by (done || lia). rewrite bool_decide_eq_false_2 by done.
  destruct (Z.eqb_spec t' u) as [->|]; [|done]. by rewrite link_fresh in Ht'.
Qed.

Lemma link_role : MRole (mk_NptMapper buf' (phys_base m) (u + 1)) role'.
Proof.
  destruct HM as [T Hd]. pose proof (idx_range l gpa). pose proof link_fresh as Hf.
  assert (Hne : t <> u) by (intros ->; congruence).
  split; cbn.
  - unfold role'. rewrite pfx_step by lia.
    apply (Tables_link _ (mp_buf m) _ T buf' t l (pfx l gpa) (idx l gpa) u); try done.
    + unfold buf'. by rewrite len_put_u64, len_zero_range.
    + rewrite <- pfx_step by lia. eapply absent_no_child; eauto.
    + rewrite link_ent by (first [apply (tb_in _ _ _ T _ _ _ Ht)|done]).
      rewrite bool_decide_eq_true_2 by done. unfold e.
      destruct (tb_base _ _ _ T), Hu. pose proof (tb_phys _ _ _ T).
      apply table_entry_points; (done || lia).
    + intros _ j Hj. rewrite link_ent by (destruct Hu; done || lia).
      rewrite bool_decide_eq_false_2 by congruence. by rewrite Z.eqb_refl, Z.testbit_0_l.
    + apply link_same.
  - intros t'. unfold role', role_insert. specialize (Hd t'). destruct (MRole_used _ _ HM).
    unfold u in *. destruct (Z.eqb_spec t' (tables_used m)); [split; [lia|done]|].
    rewrite Hd. lia.
Qed.

Lemma link_keeps : keeps m (mk_NptMapper buf' (phys_base m) (u + 1)).
Proof.
  destruct HM as [T Hd]. pose proof (idx_range l gpa).
  assert (Hlen : len buf' = len (mp_buf m)) by (unfold buf'; by rewrite len_put_u64, len_zero_range).
  split; [done|]. intros g Hg'. unfold xlate. cbn.
  destruct (decide (pfx (l + 1) g = pfx (l + 1) gpa)) as [E|Hne].
  - destruct link_role as [T' _]. cbn in T'.
    transitivity (@None Z).
    + apply (translate_absent _ _ _ T' (l + 1) g u); [done|lia| |].
      * unfold role', role_insert. by rewrite Z.eqb_refl, E.
      * rewrite link_ent; [|destruct Hu; done|apply idx_range].
        rewrite bool_decide_eq_false_2; [by rewrite Z.eqb_refl, Z.testbit_0_l|].
        intros [= Hut _]. rewrite <- Hut in Ht. pose proof link_fresh. congruence.
    + symmetry. apply pfx_split in E as [E1 E2]; [|lia].
      apply (translate_absent _ _ _ T l g t); [done|lia|by rewrite E1|by rewrite E2].
  - apply (translate_slot _ _ _ T buf' t l (pfx l gpa) (idx l gpa)); try done; [lia|apply link_same|].
    by rewrite <- pfx_step by lia.
Qed.
End link.

(** The outcome of a step that only prepares tables. *)
Definition prepared (m : NptMapper) (role : roles) (m' : NptMapper) (role' : roles) : Prop :=
  MRole m' role' /\ keeps m m' /\ forall t x, role t = Some x -> role' t = Some x.

Lemma keeps_refl m : keeps m m.
Proof. by repeat split. Qed.

Lemma keeps_trans m1 m2 m3 : keeps m1 m2 -> keeps m2 m3 -> keeps m1 m3.
Proof.
  intros [[E1 E2] H1] [[E3 E4] H2]. split; [by split; congruence|].
  intros g Hg. by rewrite H2, H1.
Qed.

Lemma prepared_refl m role : MRole m role -> prepared m role m role.
Proof. intros. by split; [|split; [apply keeps_refl|]]. Qed.

Lemma prepared_trans m1 r1 m2 r2 m3 r3 :
  prepared m1 r1 m2 r2 -> prepared m2 r2 m3 r3 -> prepared m1 r1 m3 r3.
Proof. intros (_ & ? & ?) (? & ? & ?). split_and!; eauto using keeps_trans. Qed.

#[local] Hint Resolve prepared_refl : core.

Lemma link_spec m role t l gpa :
  MRole m role -> role t = Some (l, pfx l gpa) -> 0 <= l < 3 -> 0 <= gpa < 2 ^ 48 ->
  Z.testbit (ent (mp_buf m) t (idx l gpa)) 0 = false ->
  wp ('(pa, off) ← alloc_table;
      on_buf (write_entry (4096 * t + idx l gpa * 8) ((pa .& ADDR_MASK) .| table_flags)) ;;
      mret off)
    (fun m' r => exists role', prepared m role m' role' /\ finds role' m' (l + 1) gpa r) m.
Proof.
  intros HM Ht Hl Hg Habs. apply wp_bind. eapply wp_mono; [by eapply alloc_table_spec|].
  intros m1 r [(-> & e & -> & Hfull)|(-> & Hu & ->)].
  { exists role. by split; [auto|]. }
  set (u := tables_used m) in *.
  assert (Hin : in_buf (mp_buf m) t) by (destruct HM as [T _]; apply (tb_in _ _ _ T _ _ _ Ht)).
  eapply wp_eq.
  { unfold mbind, M_bind, on_buf. cbn. rewrite write_entry_ok; [done| |apply idx_range].
    unfold in_buf in *. by rewrite len_zero_range. }
  exists (role_insert role u (l + 1, pfx (l + 1) gpa)). split; [split_and!|].
  - by apply link_role.
  - by eapply link_keeps.
  - intros t' x Ht'. unfold role_insert. destruct (Z.eqb_spec t' u) as [->|]; [|done].
    pose proof (link_fresh m role HM). unfold u in *. congruence.
  - cbn. exists u. unfold role_insert. by rewrite Z.eqb_refl.
Qed.

Lemma table_offset_points m role t i c l q :
  MRole m role -> points_to (phys_base m) (ent (mp_buf m) t i) c -> role c = Some (l, q) ->
  table_offset m (ent (mp_buf m) t i .& ADDR_MASK) = Ok (4096 * c).
Proof.
  intros [T _] (_ & _ & Ha) Hc. unfold table_offset. rewrite Ha.
  destruct (tb_in _ _ _ T _ _ _ Hc) as ([Hc0 Hin] & _). destruct (tb_base _ _ _ T).
  pose proof (tb_phys _ _ _ T). assert (2 ^ 52 < 2 ^ 64) by done.
  unfold checked_sub, checked_add. destruct (Z.ltb_spec (phys_base m + 4096 * c) (phys_base m)); [lia|].
  replace (phys_base m + 4096 * c - phys_base m) with (4096 * c) by lia. cbn.
  destruct (Z.ltb_spec (4096 * c + 4096) (2 ^ 64)); [|lia].
  by destruct (Z.ltb_spec (len (mp_buf m)) (4096 * c + 4096)); [lia|].
Qed.

Lemma child_table_off_spec m role t l gpa :
  MRole m role -> role t = Some (l, pfx l gpa) -> 0 <= l < 2 -> 0 <= gpa < 2 ^ 48 ->
  wp (child_table_off (4096 * t) (idx l gpa))
    (fun m' r => exists role', prepared m role m' role' /\ finds role' m' (l + 1) gpa r) m.
Proof.
  intros HM Ht Hl Hg. pose proof HM as [T _]. pose proof (idx_range l gpa) as Hi.
  destruct (tb_in _ _ _ T _ _ _ Ht) as (Hin & _).
  unfold child_table_off. apply wp_bind. eapply wp_eq.
  { unfold reads. by rewrite read_entry_ent. }
  cbv beta iota. rewrite tst_PRESENT.
  destruct (walk_step _ _ _ T l gpa t Ht ltac:(lia))
    as [(Hp & _ & _)|[(? & _)|(c & Hpt & _ & Hc)]]; [|lia|].
  - rewrite Hp. by apply link_spec; try lia.
  - rewrite (proj1 Hpt). eapply wp_eq; [unfold reads; by erewrite table_offset_points|].
    exists role. split; [auto|]. by exists c.
Qed.

Lemma pd_off_for_spec m role gpa :
  MRole m role -> 0 <= gpa < 2 ^ 48 ->
  wp (pd_off_for gpa)
    (fun m' r => exists role', prepared m role m' role' /\ finds role' m' 2 gpa r) m.
Proof.
  intros HM Hg. unfold pd_off_for. rewrite pml4_i_idx, pdpt_i_idx. apply wp_bind.
  eapply wp_mono.
  { apply (child_table_off_spec m role 0 0 gpa HM); [|lia|done].
    destruct HM as [T _]. by apply (root_role _ _ _ T). }
  intros m1 [off|e|] (role1 & Hp & Hf); [|by exists role1|done].
  destruct Hf as (c & -> & Hc). eapply wp_mono.
  { apply (child_table_off_spec m1 role1 c 1 gpa); [apply Hp|exact Hc|lia|done]. }
  intros m2 r (role2 & Hp2 & Hf2). exists role2. split; [by eapply prepared_trans|done].
Qed.

(** [pd_child] classifies the PD entry by the walk. *)
Lemma pd_child_spec m role t gpa :
  MRole m role -> role t = Some (2, pfx 2 gpa) ->
  let e := ent (mp_buf m) t (idx 2 gpa) in
  (Z.testbit e 0 = false /\ pd_child m (4096 * t) (idx 2 gpa) = Ok Absent) \/
  (Z.testbit e 0 = true /\ pd_child m (4096 * t) (idx 2 gpa) = Ok HugeLeaf /\ Z.testbit e 7 = true) \/
  (exists c, pd_child m (4096 * t) (idx 2 gpa) = Ok (Table (4096 * c)) /\ role c = Some (3, pfx 3 gpa)).
Proof.
  intros HM Ht e. pose proof HM as [T _]. pose proof (idx_range 2 gpa) as Hi.
  destruct (tb_in _ _ _ T _ _ _ Ht) as (Hin & _).
  unfold pd_child. rewrite read_entry_ent by done. cbn. rewrite tst_PRESENT, tst_HUGE.
  destruct (walk_step _ _ _ T 2 gpa t Ht ltac:(lia))
    as [(Hp & _ & _)|[(_ & Hp & Hh & _)|(c & Hpt & _ & Hc)]].
  - left. by rewrite Hp.
  - right; left. unfold e. by rewrite Hp, Hh.
  - right; right. exists c. erewrite table_offset_points by done.
    destruct Hpt as (-> & -> & _). done.
Qed.

Lemma huge_mapped m role t gpa :
  MRole m role -> 0 <= gpa < 2 ^ 48 -> role t = Some (2, pfx 2 gpa) ->
  let e := ent (mp_buf m) t (idx 2 gpa) in
  Z.testbit e 0 = true -> Z.testbit e 7 = true -> xlate m gpa <> None.
Proof.
  intros [T _] Hg Ht e Hp Hh. unfold xlate.
  assert (Hn3 : forall c, role c <> Some (3, pfx 3 gpa)).
  { destruct (walk_step _ _ _ T 2 gpa t Ht ltac:(lia))
      as [(Hc & _)|[(_ & _ & _ & Hn)|(c' & (_ & Hc & _) & _)]]; [|apply Hn|]; unfold e in *; congruence. }
  destruct (translate_cases _ _ _ T gpa Hg) as [(t' & Ht' & E)|[(t' & Ht' & _ & _ & E)|(Hn & _)]];
    [by exfalso; apply (Hn3 t')| |by exfalso; apply (Hn t)].
  rewrite E, (role_eq _ _ _ T _ _ _ Ht' Ht). fold e. by rewrite Hp.
Qed.

Lemma small_mapped m role t gpa :
  MRole m role -> 0 <= gpa < 2 ^ 48 -> role t = Some (3, pfx 3 gpa) ->
  Z.testbit (ent (mp_buf m) t (idx 3 gpa)) 0 = true -> xlate m gpa <> None.
Proof.
  intros [T _] Hg Ht Hp. unfold xlate.
  destruct (translate_cases _ _ _ T gpa Hg) as [(t' & Ht' & E)|[(t' & _ & Hn & _)|(_ & Hn & _)]];
    [|by exfalso; apply (Hn t)..].
  rewrite E, (role_eq _ _ _ T _ _ _ Ht' Ht). cbv zeta. by rewrite Hp.
Qed.

Lemma pt_off_for_spec m role gpa :
  MRole m role -> 0 <= gpa < 2 ^ 48 ->
  wp (pt_off_for gpa) (fun m' r => exists role', prepared m role m' role' /\
    (finds role' m' 3 gpa r \/ (r = Err (RangeOverlap gpa) /\ xlate m gpa <> None))) m.
Proof.
  intros HM Hg. unfold pt_off_for. rewrite pd_i_idx. apply wp_bind.
  eapply wp_mono; [by apply pd_off_for_spec|].
  intros m1 [off|e|] (role1 & Hp & Hf); [|exists role1; auto|done].
  destruct Hf as (t & -> & Ht). pose proof Hp as (HM1 & Hk & _). apply wp_bind.
  destruct (pd_child_spec m1 role1 t gpa HM1 Ht) as [(Hab & E)|[(Hpr & E & Hh)|(c & E & Hc)]];
    (eapply wp_eq; [unfold reads; by rewrite E|]; cbv beta iota).
  - eapply wp_mono; [by apply (link_spec m1 role1 t 2 gpa HM1 Ht)|].
    intros m2 r (role2 & Hp2 & Hf2). exists role2. split; [by eapply prepared_trans|by left].
  - exists role1. split; [done|right]. split; [done|].
    rewrite <- (proj2 Hk) by done. by eapply huge_mapped.
  - exists role1. split; [done|left]. by exists c.
Qed.

(** ** Writing a leaf into an absent slot *)

Section leaf.
Context (m : NptMapper) (role : roles) (HM : MRole m role).
Context (t l gpa e : Z) (Ht : role t = Some (l, pfx l gpa)) (Hl : 2 <= l <= 3) (Hg : 0 <= gpa < 2 ^ 48).
Hypothesis (Habs : Z.testbit (ent (mp_buf m) t (idx l gpa)) 0 = false).
Hypothesis (He : fits 64 e) (Hleaf : l = 2 -> Z.testbit e 7 = true).

Let m' := mk_NptMapper (put_u64 (mp_buf m) (4096 * t + idx l gpa * 8) e) (phys_base m) (tables_used m).

Lemma leaf_ent t' j :
  0 <= t' -> 0 <= j < 512 ->
  ent (mp_buf m') t' j = if bool_decide ((t', j) = (t, idx l gpa)) then e else ent (mp_buf m) t' j.
Proof.
  intros. destruct HM as [T _]. destruct (tb_in _ _ _ T _ _ _ Ht) as (Hin & _).
  apply ent_put; (done || apply idx_range).
Qed.

Lemma leaf_role : MRole m' role.
Proof.
  destruct HM as [T Hd]. split; [|done]. cbn. apply (Tables_leaves _ (mp_buf m)); [done|apply len_put_u64|].
  intros t' l' p i Ht' Hl' Hi. change (put_u64 _ _ _) with (mp_buf m').
  rewrite leaf_ent; [|apply (tb_in _ _ _ T _ _ _ Ht')|done].
  case_bool_decide as Heq; [right|by left]. simplify_eq.
  assert (El : l = 2) by lia. split_and!; auto.
  replace 3 with (l + 1) by lia. rewrite <- pfx_step by lia. apply (absent_no_child _ _ _ T l gpa t); (done || lia).
Qed.

Lemma leaf_before g : 0 <= g < 2 ^ 48 -> pfx (l + 1) g = pfx (l + 1) gpa -> xlate m g = None.
Proof.
  intros Hg' [E1 E2]%pfx_split; [|lia]. destruct HM as [T _].
  apply (translate_absent _ _ _ T l g t); [done|lia|by rewrite E1|by rewrite E2].
Qed.

Lemma leaf_other g :
  0 <= g < 2 ^ 48 -> pfx (l + 1) g <> pfx (l + 1) gpa -> xlate m' g = xlate m g.
Proof.
  intros Hg' Hne. destruct HM as [T Hd]. pose proof (idx_range l gpa).
  apply (translate_slot _ _ _ T _ t l (pfx l gpa) (idx l gpa)); try done; [apply len_put_u64|lia| |].
  - intros t' j Ht'%Hd Hj Hne'. change (put_u64 _ _ _) with (mp_buf m').
    rewrite leaf_ent by (done || lia). by rewrite bool_decide_eq_false_2.
  - by rewrite <- pfx_step by lia.
Qed.

Lemma leaf_here : ent (mp_buf m') t (idx l gpa) = e.
Proof.
  destruct HM as [T _]. rewrite leaf_ent; [by rewrite bool_decide_eq_true_2| |apply idx_range].
  apply (tb_in _ _ _ T _ _ _ Ht).
Qed.
End leaf.

(** What a successful leaf write does: the addresses of its slot, unmapped
    before, translate to the target; all others are as before. *)
Definition added (k : Z) (m m' : NptMapper) (gpa : Z) (f : Z -> option Z) : Prop :=
  forall g, 0 <= g < 2 ^ 48 ->
    if pfx k g =? pfx k gpa then xlate m g = None /\ xlate m' g = f g else xlate m' g = xlate m g.

(** The outcome of mapping one leaf for the addresses that share [gpa]'s
    prefix [k]: mapped, or nothing changed and a full buffer or an overlap. *)
Definition leaf_outcome (k : Z) (m m' : NptMapper) (gpa : Z) (f : Z -> option Z)
    (r : res NptError unit) : Prop :=
  mapper_inv m' /\ same_frame m m' /\
  match r with
  | Ok _ => added k m m' gpa f
  | Err e => keeps m m' /\
      (full m' e \/ (e = RangeOverlap gpa /\ (xlate m gpa <> None \/ gpa mod 2 ^ 21 = 0)))
  | Panic => False
  end.

Lemma added_after_keeps k m m1 m' gpa f : keeps m m1 -> added k m1 m' gpa f -> added k m m' gpa f.
Proof.
  intros [_ Hk] Ha g Hg. specialize (Ha g Hg). rewrite Hk in Ha by done. done.
Qed.

Lemma outcome_full k m m1 role1 gpa f e :
  MRole m1 role1 -> keeps m m1 -> full m1 e -> leaf_outcome k m m1 gpa f (Err e).
Proof. intros HM Hk Hf. split; [by exists role1|]. split; [apply Hk|]. split; [done|by left]. Qed.

Lemma outcome_overlap k m m1 role1 gpa f :
  MRole m1 role1 -> keeps m m1 -> xlate m gpa <> None \/ gpa mod 2 ^ 21 = 0 ->
  leaf_outcome k m m1 gpa f (Err (RangeOverlap gpa)).
Proof. intros HM Hk Hf. split; [by exists role1|]. split; [apply Hk|]. split; [done|by right]. Qed.

Lemma outcome_ok k m m1 m' role' gpa f :
  MRole m' role' -> keeps m m1 -> same_frame m1 m' -> added k m1 m' gpa f ->
  leaf_outcome k m m' gpa f (Ok tt).
Proof.
  intros HM Hk [E1 E2] Ha. pose proof Hk as [[E3 E4] _]. split; [by exists role'|].
  split; [by split; congruence|]. by eapply added_after_keeps.
Qed.

Lemma map_huge_leaf_spec m gpa spa :
  mapper_inv m -> 0 <= gpa < 2 ^ 48 -> gpa mod 2 ^ 21 = 0 -> fits 52 spa -> spa mod 2 ^ 21 = 0 ->
  wp (map_huge_leaf gpa spa)
     (fun m' r => leaf_outcome 3 m m' gpa (fun g => Some (spa + g mod 2 ^ 21)) r) m.
Proof.
  intros [role HM] Hg Hga Hs Ha. unfold map_huge_leaf. rewrite pd_i_idx. apply wp_bind.
  eapply wp_mono; [by apply (pd_off_for_spec m role)|].
  intros m1 [off|e|] (role1 & (HM1 & Hk & _) & Hf); [| |done].
  2: by eapply outcome_full.
  destruct Hf as (t & -> & Ht). apply wp_bind.
  assert (Hbusy : leaf_outcome 3 m m1 gpa (fun g => Some (spa + g mod 2 ^ 21)) (Err (RangeOverlap gpa))).
  { eapply outcome_overlap; eauto. }
  destruct (pd_child_spec m1 role1 t gpa HM1 Ht) as [(Hab & E)|[(Hpr & E & Hh)|(c & E & Hc)]];
    (eapply wp_eq; [unfold reads; by rewrite E|]; cbv beta iota); [|done..].
  pose proof HM1 as [T1 _].
  eapply wp_eq.
  { unfold on_buf. rewrite write_entry_ok; [done|apply (tb_in _ _ _ T1 _ _ _ Ht)|apply idx_range]. }
  assert (Hfit : fits 64 ((spa .& ADDR_MASK) .| huge_leaf_flags)) by (apply entry_fits; [apply Hs|done]).
  assert (Hle : 2 = 2 -> Z.testbit ((spa .& ADDR_MASK) .| huge_leaf_flags) 7 = true) by (intros; by rewrite entry_flag).
  pose proof (leaf_role m1 role1 HM1 t 2 gpa _ Ht ltac:(lia) Hab Hfit Hle) as HM2.
  eapply outcome_ok; [done|done|split; [done|apply len_put_u64]|].
  intros g Hg'. destruct (Z.eqb_spec (pfx 3 g) (pfx 3 gpa)) as [Eg|Hne].
  - split; [by eapply (leaf_before m1 role1 HM1 t 2 gpa)|].
    pose proof (proj1 (pfx_split 2 g gpa ltac:(lia)) Eg) as [E1 E2].
    apply (translate_huge _ _ _ (proj1 HM2) g t spa huge_leaf_flags); try done; [by rewrite E1|].
    rewrite E2. by apply (leaf_here m1 role1).
  - by apply (leaf_other m1 role1 HM1 t 2 gpa).
Qed.

Lemma map_small_page_spec m gpa target :
  mapper_inv m -> 0 <= gpa < 2 ^ 48 ->
  (forall spa, target = Some spa -> fits 52 spa /\ spa mod 4096 = 0) ->
  wp (map_small_page gpa target)
     (fun m' r => leaf_outcome 4 m m' gpa (fun g => spa ← target; Some (spa + g mod 4096)) r) m.
Proof.
  intros [role HM] Hg Hs. unfold map_small_page. rewrite leaf_i_idx. apply wp_bind.
  eapply wp_mono; [by apply (pt_off_for_spec m role)|].
  intros m1 r (role1 & (HM1 & Hk & _) & Hf).
  destruct Hf as [Hf|(-> & Hx)]; [destruct r as [off|e|]; [| |done]|].
  2: by eapply outcome_full.
  2: by eapply outcome_overlap; auto.
  destruct Hf as (t & -> & Ht). pose proof HM1 as [T1 _]. pose proof (idx_range 3 gpa).
  destruct (tb_in _ _ _ T1 _ _ _ Ht) as (Hin & _). cbv zeta. apply wp_bind.
  eapply wp_eq; [unfold reads; by rewrite read_entry_ent|]. cbv beta iota. rewrite tst_PRESENT.
  destruct (Z.testbit (ent (mp_buf m1) t (idx 3 gpa)) 0) eqn:Hab.
  { eapply outcome_overlap; [done|done|left].
    rewrite <- (proj2 Hk) by done. by eapply small_mapped. }
  destruct target as [spa|]; cbn [mbind option_bind].
  2: { eapply outcome_ok; [done|done|done|]. intros g Hg'.
       destruct (Z.eqb_spec (pfx 4 g) (pfx 4 gpa)) as [Eg|]; [|done].
       split; by eapply (leaf_before m1 role1 HM1 t 3 gpa). }
  destruct (Hs spa eq_refl) as [Hfs Ha].
  eapply wp_eq; [unfold on_buf; rewrite write_entry_ok; done|].
  assert (Hfit : fits 64 ((spa .& ADDR_MASK) .| table_flags)) by (apply entry_fits; [apply Hfs|done]).
  pose proof (leaf_role m1 role1 HM1 t 3 gpa _ Ht ltac:(lia) Hab Hfit ltac:(lia)) as HM2.
  eapply outcome_ok; [done|done|split; [done|apply len_put_u64]|].
  intros g Hg'. destruct (Z.eqb_spec (pfx 4 g) (pfx 4 gpa)) as [Eg|Hne].
  - split; [by eapply (leaf_before m1 role1 HM1 t 3 gpa)|].
    pose proof (proj1 (pfx_split 3 g gpa ltac:(lia)) Eg) as [E1 E2].
    apply (translate_small _ _ _ (proj1 HM2) g t spa table_flags); try done; [by rewrite E1|].
    rewrite E2. by apply (leaf_here m1 role1).
  - by apply (leaf_other m1 role1 HM1 t 3 gpa).
Qed.

(** ** Whole ranges *)

(** The image of an address of the range: [None] on guard pages. *)
Definition range_target (guards : list Z) (delta g : Z) : option Z :=
  if bool_decide (g - g mod 4096 ∈ guards) then None else Some (g + delta).

(** [\[gpa, mid)] was unmapped and now translates by [f]; nothing else changed. *)
Definition mapped_upto (m m' : NptMapper) (gpa mid : Z) (f : Z -> option Z) : Prop :=
  forall g, 0 <= g < 2 ^ 48 ->
    if (gpa <=? g) && (g <? mid) then xlate m g = None /\ xlate m' g = f g
    else xlate m' g = xlate m g.

Lemma slot_range k gpa g :
  0 <= k <= 5 -> gpa mod 2 ^ (48 - 9 * k) = 0 ->
  (pfx k g =? pfx k gpa) = (gpa <=? g) && (g <? gpa + 2 ^ (48 - 9 * k)).
Proof.
  intros Hk Ha. pose proof (div_eq_range (2 ^ (48 - 9 * k)) gpa g ltac:(apply Z.pow_pos_nonneg; lia) Ha).
  unfold pfx. zcases; cbn; (done || lia).
Qed.

Lemma added_upto k m m' gpa f f' :
  0 <= k <= 5 -> gpa mod 2 ^ (48 - 9 * k) = 0 -> added k m m' gpa f ->
  (forall g, gpa <= g < gpa + 2 ^ (48 - 9 * k) -> f g = f' g) ->
  mapped_upto m m' gpa (gpa + 2 ^ (48 - 9 * k)) f'.
Proof.
  intros Hk Ha Hadd Hf g Hg. specialize (Hadd g Hg). rewrite slot_range in Hadd by done.
  destruct (Z.leb_spec gpa g), (Z.ltb_spec g (gpa + 2 ^ (48 - 9 * k))); cbn in *; try done.
  by rewrite Hf in Hadd by lia.
Qed.

Lemma mapped_upto_trans m1 m2 m3 a b c f :
  a <= b <= c -> mapped_upto m1 m2 a b f -> mapped_upto m2 m3 b c f -> mapped_upto m1 m3 a c f.
Proof.
  intros Habc H1 H2 g Hg. specialize (H1 g Hg). specialize (H2 g Hg).
  destruct (Z.leb_spec a g), (Z.ltb_spec g b), (Z.leb_spec b g), (Z.ltb_spec g c);
    cbn in *; try lia; destruct_and?; split_and?; congruence.
Qed.

Lemma keeps_upto m m' a f : keeps m m' -> mapped_upto m m' a a f.
Proof.
  intros [_ Hk] g Hg. destruct (Z.leb_spec a g), (Z.ltb_spec g a); cbn; try lia; auto.
Qed.

(** How a run over [\[gpa, gpa + len)] ends: at [mid], which is the end on success. *)
Definition range_outcome (m m' : NptMapper) (gpa len_ : Z) (f : Z -> option Z)
    (r : res NptError unit) : Prop :=
  mapper_inv m' /\ same_frame m m' /\
  exists mid, gpa <= mid <= gpa + len_ /\ mapped_upto m m' gpa mid f /\
  match r with
  | Ok _ => mid = gpa + len_
  | Err e => mid < gpa + len_ /\
      (full m' e \/ (e = RangeOverlap mid /\ (xlate m mid <> None \/ mid mod 2 ^ 21 = 0)))
  | Panic => False
  end.

(** One leaf of size [sz], then the rest of the range. *)
Lemma leaf_then_rest k m gpa spa len_ f f' (step : mapper unit) (rest : Z -> Z -> mapper unit) :
  let sz := 2 ^ (48 - 9 * k) in
  0 <= k <= 5 -> 0 <= gpa -> gpa mod sz = 0 -> sz <= len_ -> gpa + len_ <= 2 ^ 48 ->
  spa + sz < 2 ^ 64 ->
  (forall g, gpa <= g < gpa + sz -> f g = f' g) ->
  wp step (fun m1 r => leaf_outcome k m m1 gpa f r) m ->
  (forall m1, mapper_inv m1 ->
     wp (rest (gpa + sz) (spa + sz)) (fun m' r => range_outcome m1 m' (gpa + sz) (len_ - sz) f' r) m1) ->
  wp (step ;; gpa' ← uadd gpa sz; spa' ← uadd spa sz; rest gpa' spa')
     (fun m' r => range_outcome m m' gpa len_ f' r) m.
Proof.
  intros sz Hk Hgpa Ha Hsz Hend Hspa Hf Hstep Hrest.
  assert (Hsz0 : 0 < sz) by (apply Z.pow_pos_nonneg; lia). assert (2 ^ 48 < 2 ^ 64) by done.
  apply wp_bind. eapply wp_mono; [exact Hstep|].
  intros m1 [[]|e|] (Hinv & Hfr & Hout); [| |done].
  - apply wp_bind, wp_uadd; [lia|]. apply wp_bind, wp_uadd; [lia|].
    eapply wp_mono; [by apply Hrest|].
    intros m' r (Hinv' & Hfr' & mid & Hmid & Hup & Hr). split; [done|].
    split; [destruct Hfr, Hfr'; split; congruence|].
    assert (Hup1 : mapped_upto m m1 gpa (gpa + sz) f') by (by apply (added_upto k m m1 gpa f)).
    exists mid. split; [lia|]. split; [by eapply mapped_upto_trans; [|done..]; lia|].
    destruct r as [|e|]; [lia| |done]. destruct Hr as [Hlt He]. split; [lia|].
    destruct He as [He|(-> & Hx)]; [by left|right]. split; [done|].
    destruct Hx as [Hx|]; [left|by right].
    specialize (Hup1 mid ltac:(lia)). destruct (Z.leb_spec gpa mid), (Z.ltb_spec mid (gpa + sz)); try lia.
    cbn in Hup1. congruence.
  - destruct Hout as [Hk' He]. split; [done|]. split; [done|]. exists gpa.
    split; [lia|]. split; [by apply keeps_upto|]. split; [lia|done].
Qed.

Lemma chunk_free guards gpa g :
  existsb (fun x => (gpa <=? x) && (x <? gpa + HUGE_2MIB)) guards = false ->
  gpa mod 2 ^ 21 = 0 -> gpa <= g < gpa + 2 ^ 21 -> g - g mod 4096 ∉ guards.
Proof.
  intros Hex Ha Hg Hin. assert (Hpage : gpa <= g - g mod 4096 < gpa + 2 ^ 21).
  { pose proof (Z.mod_pos_bound g 4096 ltac:(lia)). pose proof (Z.div_mod g 4096 ltac:(lia)).
    pose proof (Z.div_mod gpa (2 ^ 21) ltac:(lia)). rewrite Ha in *. lia. }
  apply not_true_iff_false in Hex. apply Hex, existsb_exists. exists (g - g mod 4096).
  split; [by apply list_elem_of_In|].
  change HUGE_2MIB with (2 ^ 21). zcases; (done || lia).
Qed.

(** The side conditions of a range: aligned, inside the address spaces. *)
Record range_ok (gpa spa len_ : Z) : Prop := mk_range_ok {
  ro_gpa : 0 <= gpa;
  ro_end : gpa + len_ <= 2 ^ 48;
  ro_spa : 0 <= spa;
  ro_send : spa + len_ <= 2 ^ 52;
  ro_len : 0 <= len_;
  ro_ga : gpa mod 4096 = 0;
  ro_sa : spa mod 4096 = 0;
  ro_la : len_ mod 4096 = 0
}.

Lemma page_of s gpa g : 0 < s -> gpa mod s = 0 -> gpa <= g < gpa + s -> g - g mod s = gpa.
Proof.
  intros Hs Ha Hg. apply (proj2 (div_eq_range s gpa g Hs Ha)) in Hg.
  pose proof (Z.div_mod g s ltac:(lia)). pose proof (Z.div_mod gpa s ltac:(lia)). lia.
Qed.

Lemma mod_page_add a k : a mod 4096 = 0 -> (a + k * 4096) mod 4096 = 0.
Proof. intros. by rewrite Z.mod_add by lia. Qed.

Lemma range_ok_advance gpa spa len_ n :
  range_ok gpa spa len_ -> 0 <= n -> n * 4096 <= len_ ->
  range_ok (gpa + n * 4096) (spa + n * 4096) (len_ - n * 4096).
Proof.
  intros [] Hn Hle. split; try lia.
  - by apply mod_page_add.
  - by apply mod_page_add.
  - replace (len_ - n * 4096) with (len_ + - n * 4096) by lia. by apply mod_page_add.
Qed.

Section chunks.
Context (guards : list Z) (m : NptMapper) (gpa spa len_ : Z) (rest : Z -> Z -> mapper unit).
Context (Hinv : mapper_inv m) (Hok : range_ok gpa spa len_).
Let f := range_target guards (spa - gpa).

Lemma huge_chunk_spec :
  gpa mod 2 ^ 21 = 0 -> spa mod 2 ^ 21 = 0 -> 2 ^ 21 <= len_ ->
  existsb (fun x => (gpa <=? x) && (x <? gpa + HUGE_2MIB)) guards = false ->
  (forall m1, mapper_inv m1 ->
     wp (rest (gpa + 2 ^ 21) (spa + 2 ^ 21))
        (fun m' r => range_outcome m1 m' (gpa + 2 ^ 21) (len_ - 2 ^ 21) f r) m1) ->
  wp (map_huge_leaf gpa spa ;;
      gpa' ← uadd gpa HUGE_2MIB; spa' ← uadd spa HUGE_2MIB; rest gpa' spa')
     (fun m' r => range_outcome m m' gpa len_ f r) m.
Proof.
  intros Hg Hs Hl Hex Hrest. destruct Hok. assert (2 ^ 52 < 2 ^ 64) by done.
  apply (leaf_then_rest 3 m gpa spa len_ (fun g => Some (spa + g mod 2 ^ 21)));
    [lia|lia|exact Hg|exact Hl|lia|lia| |apply map_huge_leaf_spec; [done|lia|done|unfold fits; lia|done]|exact Hrest].
  intros g Hg'. unfold f, range_target. rewrite bool_decide_eq_false_2 by (by eapply chunk_free).
  pose proof (page_of (2 ^ 21) gpa g ltac:(lia) Hg Hg'). f_equal. lia.
Qed.

Lemma small_chunk_spec :
  0 < len_ ->
  (forall m1, mapper_inv m1 ->
     wp (rest (gpa + 4096) (spa + 4096))
        (fun m' r => range_outcome m1 m' (gpa + 4096) (len_ - 4096) f r) m1) ->
  wp (map_small_page gpa (if bool_decide (gpa ∈ guards) then None else Some spa) ;;
      gpa' ← uadd gpa PAGE_SIZE; spa' ← uadd spa PAGE_SIZE; rest gpa' spa')
     (fun m' r => range_outcome m m' gpa len_ f r) m.
Proof.
  intros Hl Hrest. destruct Hok. assert (2 ^ 52 + 4096 < 2 ^ 64) by done.
  assert (4096 <= len_) by (pose proof (Z.div_mod len_ 4096 ltac:(lia)); nia).
  apply (leaf_then_rest 4 m gpa spa len_
    (fun g => x ← (if bool_decide (gpa ∈ guards) then None else Some spa); Some (x + g mod 4096)));
    [lia|lia|done|done|lia|change (2 ^ (48 - 9 * 4)) with 4096; lia| | |exact Hrest].
  - intros g Hg. pose proof (page_of 4096 gpa g ltac:(lia) ltac:(done) Hg) as Hp.
    unfold f, range_target. rewrite Hp. case_bool_decide; cbn; [done|]. f_equal. lia.
  - apply map_small_page_spec; [done|lia|]. intros x. case_bool_decide; intros [=<-].
    split; [unfold fits; lia|done].
Qed.
End chunks.

Lemma map_chunks_spec guards fuel : forall m gpa spa len_,
  mapper_inv m -> range_ok gpa spa len_ -> len_ <= 4096 * Z.of_nat fuel ->
  wp (map_chunks fuel guards gpa spa len_)
     (fun m' r => range_outcome m m' gpa len_ (range_target guards (spa - gpa)) r) m.
Proof.
  induction fuel as [|fuel IH]; intros m gpa spa len_ Hinv Hok Hlen; pose proof (ro_len _ _ _ Hok);
    cbn [map_chunks]; (destruct (Z.ltb_spec 0 len_) as [Hl0|]; cbn [negb];
      [|apply wp_ret; replace len_ with 0 by lia; split; [done|]; split; [done|]; exists gpa;
        split; [lia|]; split; [apply keeps_upto, keeps_refl|lia]]); [lia|].
  assert (Hsmall : wp (map_small_page gpa (if bool_decide (gpa ∈ guards) then None else Some spa) ;;
      gpa' ← uadd gpa PAGE_SIZE; spa' ← uadd spa PAGE_SIZE; map_chunks fuel guards gpa' spa' (len_ - PAGE_SIZE))
     (fun m' r => range_outcome m m' gpa len_ (range_target guards (spa - gpa)) r) m).
  { apply (small_chunk_spec guards m gpa spa len_ (fun a b => map_chunks fuel guards a b (len_ - PAGE_SIZE)));
      [done..|]. intros m1 Hm1.
    replace (spa - gpa) with (spa + 4096 - (gpa + 4096)) by lia.
    assert (4096 <= len_) by (pose proof (ro_la _ _ _ Hok); pose proof (Z.div_mod len_ 4096 ltac:(lia)); nia).
    apply IH; [done|apply (range_ok_advance gpa spa len_ 1); (done || lia)|lia]. }
  rewrite !tst_huge, !negb_involutive.
  destruct (Z.eqb_spec (gpa mod 2 ^ 21) 0) as [Hg|]; cbn [andb]; [|exact Hsmall].
  destruct (Z.eqb_spec (spa mod 2 ^ 21) 0) as [Hs|]; cbn [andb]; [|exact Hsmall].
  destruct (Z.leb_spec HUGE_2MIB len_) as [Hl|]; cbn [andb]; [|exact Hsmall].
  destruct (existsb _ guards) eqn:Hex; cbn [negb]; [exact Hsmall|].
  apply (huge_chunk_spec guards m gpa spa len_ (fun a b => map_chunks fuel guards a b (len_ - HUGE_2MIB)));
    [done..|]. intros m1 Hm1.
  replace (spa - gpa) with (spa + 2 ^ 21 - (gpa + 2 ^ 21)) by lia.
  apply IH; [done|apply (range_ok_advance gpa spa len_ 512); (done || lia)|lia].
Qed.

(** ** The operations *)

(** The validation of [map_range]. *)
Definition range_valid (gpa spa len_ : Z) (guards : list Z) : bool :=
  negb (len_ =? 0) && (gpa mod 4096 =? 0) && (spa mod 4096 =? 0) && (len_ mod 4096 =? 0) &&
  (gpa + len_ <=? 2 ^ 48) &&
  forallb (fun g => (g mod 4096 =? 0) && (gpa <=? g) && (g <? gpa + len_)) guards.

Lemma guards_check gpa len_ guards m :
  exists r, mfor guards (range_guard_ok gpa len_ (gpa + len_)) m = (m, r) /\
    if forallb (fun g => (g mod 4096 =? 0) && (gpa <=? g) && (g <? gpa + len_)) guards
    then r = Ok tt else exists e, r = Err e.
Proof.
  induction guards as [|g guards (r & IH & Hr)]; cbn [mfor forallb]; [by exists (Ok tt)|].
  unfold mbind, M_bind, range_guard_ok at 1. rewrite tst_page.
  destruct (Z.eqb_spec (g mod 4096) 0); cbn [negb andb]; [|by eauto].
  destruct (Z.leb_spec gpa g), (Z.ltb_spec g gpa), (Z.leb_spec (gpa + len_) g), (Z.ltb_spec g (gpa + len_));
    try lia; cbn; eauto.
Qed.

(** Outside the validation nothing is touched; inside it the range is mapped
    up to the point where the run stops. *)
Lemma map_range_spec m gpa spa len_ guards :
  mapper_inv m -> 0 <= gpa -> 0 <= spa -> 0 <= len_ -> spa + len_ <= 2 ^ 52 ->
  wp (map_range gpa spa len_ guards) (fun m' r =>
    if range_valid gpa spa len_ guards
    then range_outcome m m' gpa len_ (range_target guards (spa - gpa)) r
    else m' = m /\ exists e, r = Err e) m.
Proof.
  intros Hinv Hg Hs Hl Hsend. unfold map_range, range_valid. rewrite !tst_page.
  destruct (Z.eqb_spec len_ 0) as [|Hl0]; cbn [negb andb]; [by split; eauto|].
  destruct (Z.eqb_spec (gpa mod 4096) 0); cbn [negb andb orb]; [|by split; eauto].
  destruct (Z.eqb_spec (spa mod 4096) 0); cbn [negb andb orb]; [|by split; eauto].
  destruct (Z.eqb_spec (len_ mod 4096) 0); cbn [negb andb orb]; [|by split; eauto].
  apply wp_bind. assert (2 ^ 48 < 2 ^ 64) by done.
  destruct (Z.leb_spec (gpa + len_) (2 ^ 48)) as [Hend|Hend]; cbn [andb].
  2: { unfold checked_add. destruct (Z.ltb_spec (gpa + len_) (2 ^ 64));
         (eapply wp_eq; [by unfold reads|]; cbn -[Z.pow]); [|by eauto].
       destruct (Z.ltb_spec (2 ^ 48) (gpa + len_)); [|lia]. by split; eauto. }
  eapply wp_eq.
  { unfold reads, checked_add. by destruct (Z.ltb_spec (gpa + len_) (2 ^ 64)); [|lia]. }
  cbv beta iota. cbn [ok_or]. destruct (Z.ltb_spec (2 ^ 48) (gpa + len_)); [lia|].
  apply wp_bind. destruct (guards_check gpa len_ guards m) as (r & E & Hr).
  eapply wp_eq; [exact E|]. destruct (forallb _ guards); [|by destruct Hr as [err ->]; eauto].
  subst r. cbv beta iota. apply map_chunks_spec; [done|by split|].
  unfold page_fuel, div_ceil. pose proof (Z.div_mod (len_ + 4096 - 1) 4096 ltac:(lia)).
  pose proof (Z.mod_pos_bound (len_ + 4096 - 1) 4096 ltac:(lia)).
  rewrite Z2Nat.id; [lia|]. apply Z.div_pos; lia.
Qed.

(** A new mapper owns a zeroed PML4 and maps nothing. *)
Lemma mapper_new_run buf base :
  0 <= base -> base mod 4096 = 0 -> 4096 <= len buf -> base + len buf <= 2 ^ 52 ->
  mapper_new buf base = Ok (mk_NptMapper (zero_range buf 0 4096) base 1).
Proof.
  intros Hb Ha Hl Hp. unfold mapper_new. rewrite tst_page, Ha. cbn [negb Z.eqb].
  destruct (Z.ltb_spec (len buf) 4096); [lia|].
  destruct (alloc_table_run (mk_NptMapper buf base 0)) as [(_ & e & _ & _ & Hf)|(Em & _ & Er)];
    cbn [mp_buf phys_base tables_used] in *; [lia..|].
  destruct (alloc_table (mk_NptMapper buf base 0)) as [m r]. cbn in Em, Er. by subst.
Qed.

Lemma mapper_new_ok buf base :
  0 <= base -> base mod 4096 = 0 -> 4096 <= len buf -> base + len buf <= 2 ^ 52 ->
  exists m, mapper_new buf base = Ok m /\ mapper_inv m /\
    forall g, 0 <= g < 2 ^ 48 -> xlate m g = None.
Proof.
  intros Hb Ha Hl Hp. set (buf' := zero_range buf 0 4096).
  exists (mk_NptMapper buf' base 1). split.
  { by apply mapper_new_run. }
  assert (Hent : forall j, 0 <= j < 512 -> ent buf' 0 j = 0).
  { intros j Hj. apply (ent_zero_page buf 0 0 j); [split; lia|lia|done]. }
  assert (Hlen : len buf' = len buf) by apply len_zero_range. clearbody buf'.
  set (role := fun t => if t =? 0 then Some (0, 0) else None).
  assert (T : Tables base buf' role).
  { unfold role. split.
    - by split.
    - by rewrite Hlen.
    - reflexivity.
    - intros t l p. destruct (Z.eqb_spec t 0) as [->|]; [|done]. intros [=<- <-]. unfold in_buf. lia.
    - intros t t' x. by destruct (Z.eqb_spec t 0) as [->|], (Z.eqb_spec t' 0) as [->|].
    - intros t l p i. destruct (Z.eqb_spec t 0) as [->|]; [|done]. intros _ _ Hi.
      by rewrite Hent, Z.testbit_0_l.
    - intros t l p. destruct (Z.eqb_spec t 0) as [->|]; [|done]. intros [=<- <-]. lia. }
  split.
  - exists role. split; [done|]. intros t. unfold role. cbn [tables_used].
    destruct (Z.eqb_spec t 0); split; [lia|discriminate|congruence|lia].
  - intros g Hg. apply (translate_absent _ _ _ T 0 g 0); [done|lia|by rewrite pfx_0|].
    cbn [mp_buf]. by rewrite Hent, Z.testbit_0_l by apply idx_range.
Qed.

(** A mapper there is, is a fresh one over its buffer. *)
Lemma mapper_new_inv buf base m :
  0 <= base -> base + len buf <= 2 ^ 52 -> mapper_new buf base = Ok m ->
  mapper_inv m /\ (forall g, 0 <= g < 2 ^ 48 -> xlate m g = None) /\ phys_base m = base /\ mp_buf m = zero_range buf 0 4096.
Proof.
  intros Hb Hp Hnew. assert (Ha : base mod 4096 = 0 /\ 4096 <= len buf).
  { unfold mapper_new in Hnew. rewrite tst_page in Hnew.
    destruct (Z.eqb_spec (base mod 4096) 0); [|done].
    destruct (Z.ltb_spec (len buf) 4096); [done|]. by split. }
  destruct (mapper_new_ok buf base) as (m0 & E & Hinv & Hnone); [done|apply Ha|apply Ha|done|].
  rewrite E in Hnew. injection Hnew as <-. rewrite mapper_new_run in E by (done || apply Ha). injection E as <-. done.
Qed.

(** A mapping request, and a caller that issues them in turn (whatever each returns). *)
Record map_req : Type := mk_map_req {
  rq_gpa : Z;
  rq_spa : Z;
  rq_len : Z;
  rq_guards : list Z
}.

Definition map_req_run (q : map_req) (m : NptMapper) : NptMapper :=
  (map_range (rq_gpa q) (rq_spa q) (rq_len q) (rq_guards q) m).1.

Definition map_all (qs : list map_req) (m : NptMapper) : NptMapper :=
  foldl (fun m q => map_req_run q m) m qs.

Definition map_req_ok (q : map_req) : Prop :=
  0 <= rq_gpa q /\ 0 <= rq_spa q /\ 0 <= rq_len q /\ rq_spa q + rq_len q <= 2 ^ 52.

(** The request grants the translation of [g] to [s]. *)
Definition grants (q : map_req) (g s : Z) : Prop :=
  rq_gpa q <= g < rq_gpa q + rq_len q /\ (g - g mod 4096 ∉ rq_guards q) /\
  s = rq_spa q + (g - rq_gpa q).

Lemma map_req_run_spec q m :
  mapper_inv m -> map_req_ok q ->
  mapper_inv (map_req_run q m) /\
  forall g, 0 <= g < 2 ^ 48 ->
    (forall s, xlate m g = Some s -> xlate (map_req_run q m) g = Some s) /\
    (forall s, xlate (map_req_run q m) g = Some s -> xlate m g = Some s \/ grants q g s).
Proof.
  intros Hinv (H1 & H2 & H3 & H4).
  pose proof (map_range_spec m _ _ _ (rq_guards q) Hinv H1 H2 H3 H4) as H. unfold wp in H.
  change (map_range _ _ _ _ m).1 with (map_req_run q m) in H.
  destruct (range_valid _ _ _ _).
  2: { destruct H as [-> _]. by auto. }
  destruct H as (Hinv' & _ & mid & Hmid & Hup & _). split; [done|]. intros g Hg.
  specialize (Hup g Hg). destruct (Z.leb_spec (rq_gpa q) g), (Z.ltb_spec g mid); cbn in Hup;
    [|by rewrite Hup; auto..].
  destruct Hup as [Hn ->]. rewrite Hn. split; [done|].
  intros s. unfold range_target. case_bool_decide; [done|]. intros [=<-]. right.
  unfold grants. split_and!; (done || lia).
Qed.

Lemma map_all_spec qs : forall m,
  mapper_inv m -> Forall map_req_ok qs ->
  mapper_inv (map_all qs m) /\
  forall g, 0 <= g < 2 ^ 48 ->
    (forall s, xlate m g = Some s -> xlate (map_all qs m) g = Some s) /\
    (forall s, xlate (map_all qs m) g = Some s -> xlate m g = Some s \/ Exists (fun q => grants q g s) qs).
Proof.
  induction qs as [|q qs IH]; intros m Hinv Hok.
  { cbn. by auto. }
  inversion_clear Hok as [|? ? Hq Hqs]. destruct (map_req_run_spec q m Hinv Hq) as [Hinv1 H1].
  destruct (IH _ Hinv1 Hqs) as [Hinv2 H2]. split; [done|]. intros g Hg.
  destruct (H1 g Hg) as [Ha Hb], (H2 g Hg) as [Hc Hd]. split; [auto|]. intros s Hs.
  destruct (Hd s Hs) as [Hm|Hex]; [|right; by apply Exists_cons_tl].
  destruct (Hb s Hm); [by left|right; by apply Exists_cons_hd].
Qed.

(** C30: [map_range] refines a partial map of addresses.  On arguments its
    checks reject it changes nothing and reports an error.  Otherwise there is
    an address [mid] up to which every page of the range, none of them mapped
    before, now translates to its target (guard pages to nothing), while every
    other guest address translates as before; [mid] is the end of the range
    exactly when the call succeeds, and on failure the error is a buffer with
    no room for the next table or an overlap at [mid].  It never panics. *)
Theorem npt_map_range_refines m gpa spa len_ guards m' r :
  mapper_inv m -> 0 <= gpa -> 0 <= spa -> 0 <= len_ -> spa + len_ <= 2 ^ 52 ->
  map_range gpa spa len_ guards m = (m', r) ->
  mapper_inv m' /\ r <> Panic /\
  if range_valid gpa spa len_ guards
  then exists mid, gpa <= mid <= gpa + len_ /\
    mapped_upto m m' gpa mid (range_target guards (spa - gpa)) /\
    (r = Ok tt <-> mid = gpa + len_) /\
    (forall e, r = Err e ->
       full m' e \/ (e = RangeOverlap mid /\ (xlate m mid <> None \/ mid mod 2 ^ 21 = 0)))
  else m' = m /\ exists e, r = Err e.
Proof.
  intros Hinv Hg Hs Hl Hsl E.
  pose proof (wp_elim _ _ _ _ _ (map_range_spec m gpa spa len_ guards Hinv Hg Hs Hl Hsl) E) as H.
  cbn in H. destruct (range_valid gpa spa len_ guards).
  - destruct H as (Hinv' & _ & mid & Hmid & Hup & Hr).
    split_and!; [done|by destruct r|]. exists mid. split; [done|]. split; [done|].
    destruct r as [[]|e|]; [by split|destruct Hr as [Hlt He]|done].
    split; [split; [done|lia]|]. by intros ? [=<-].
  - destruct H as (-> & e & ->). by eauto.
Qed.

Lemma npt_map_range_refines_witness :
  exists m m' r,
    map_range 0x200000 0x40000000 0x3000 [0x201000] m = (m', r) /\
    mapper_inv m' /\ r <> Panic /\
    exists mid, 0x200000 <= mid <= 0x203000 /\
      mapped_upto m m' 0x200000 mid (range_target [0x201000] (0x40000000 - 0x200000)).
Proof.
  destruct (mapper_new_ok (zeros 16384) 0) as (m & _ & Hinv & _);
    [lia|done|by rewrite len_zeros..|].
  destruct (map_range 0x200000 0x40000000 0x3000 [0x201000] m) as [m' r] eqn:E.
  exists m, m', r. split; [done|].
  destruct (npt_map_range_refines m 0x200000 0x40000000 0x3000 [0x201000] m' r Hinv
              ltac:(lia) ltac:(lia) ltac:(lia) ltac:(lia) E) as (H1 & H2 & H3).
  split; [done|]. split; [done|]. destruct H3 as (mid & ? & ? & _). exists mid. split; [lia|done].
Defined.

(** C31: isolation.  Whatever requests are issued against a fresh mapper, and
    whichever of them fail part-way, a guest address is mapped only where one
    of the requests grants it, to the address that request names and not on a
    guard page; and once an address is mapped no later request changes it. *)
Theorem npt_mapper_isolation buf base m qs qs' :
  0 <= base -> base + len buf <= 2 ^ 52 -> mapper_new buf base = Ok m ->
  Forall map_req_ok (qs ++ qs') ->
  forall g s, 0 <= g < 2 ^ 48 -> xlate (map_all qs m) g = Some s ->
    Exists (fun q => grants q g s) qs /\ xlate (map_all (qs ++ qs') m) g = Some s.
Proof.
  intros Hb Hp Hnew [Hqs Hqs']%Forall_app g s Hg Hs.
  destruct (mapper_new_inv buf base m Hb Hp Hnew) as (Hinv & Hnone & _).
  destruct (map_all_spec qs m Hinv Hqs) as [Hinv1 H1].
  destruct (map_all_spec qs' _ Hinv1 Hqs') as [_ H2].
  split.
  - destruct (proj2 (H1 g Hg) s Hs) as [Hn|]; [|done]. by rewrite Hnone in Hn.
  - unfold map_all in *. rewrite foldl_app. by apply (H2 g Hg).
Qed.

Lemma npt_mapper_isolation_witness :
  exists m, mapper_new (zeros 16384) 0x100000 = Ok m /\
    forall g s, 0 <= g < 2 ^ 48 ->
      xlate (map_all [mk_map_req 0xFEE00000 0xFEC00000 0x1000 []] m) g = Some s ->
      0xFEE00000 <= g < 0xFEE01000.
Proof.
  destruct (mapper_new_ok (zeros 16384) 0x100000) as (m & E & _ & _);
    [lia|done|by rewrite len_zeros..|].
  exists m. split; [done|]. intros g s Hg Hs.
  destruct (npt_mapper_isolation (zeros 16384) 0x100000 m
              [mk_map_req 0xFEE00000 0xFEC00000 0x1000 []] [] ltac:(lia)
              ltac:(by rewrite len_zeros) E
              ltac:(by repeat constructor) g s Hg Hs) as [Hex _].
  inversion_clear Hex as [? ? Hq|? ? Hn]; [|by inversion Hn]. destruct Hq as (Hr & _). cbn in Hr. lia.
Defined.
