(* ===== verification/NptBuild.v ===== *)
(** * The fixed-pattern page-table builders (enlil-hal/src/npt.rs)

    Correctness of [build_npt_2mib], [build_identity_npt_4kib] and
    [build_identity_npt_2mib_with_4kib_window]: on arguments their checks
    accept, the buffer they leave translates exactly the requested addresses;
    on all others they report an error and leave the buffer as it was. *)

From Stdlib Require Import ZArith Lia Bool.
From stdpp Require Import base decidable list numbers.
From S2P Require Import Prelude Rust Npt NptTables.

(** ** Loops that fill consecutive entries *)

(** The words after filling [\[base, base + n)] with [val] ([None] skips). *)
Definition filled (base n : Z) (val : Z -> option Z) (w : Z -> Z) (a : Z) : Z :=
  if (base <=? a) && (a <? base + n) then default (w a) (val (a - base)) else w a.

Lemma filled_in base n val w a :
  base <= a < base + n -> filled base n val w a = default (w a) (val (a - base)).
Proof. intros. unfold filled. by destruct (Z.leb_spec base a), (Z.ltb_spec a (base + n)); try lia. Qed.

Lemma filled_out base n val w a : a < base \/ base + n <= a -> filled base n val w a = w a.
Proof. intros. unfold filled. by destruct (Z.leb_spec base a), (Z.ltb_spec a (base + n)); try lia. Qed.

(** One iteration of a filling loop. *)
Definition fills (base k : Z) (v : option Z) (body : npt unit) (s : buffer) : Prop :=
  body s = (match v with Some v => put_u64 s (8 * (base + k)) v | None => s end, Ok tt).

Lemma fill_loop (body : Z -> npt unit) base n val s :
  0 <= base -> 0 <= n -> 8 * (base + n) <= len s ->
  (forall k v, val k = Some v -> 0 <= k < n -> fits 64 v) ->
  (forall k s', 0 <= k < n -> len s' = len s -> fills base k (val k) (body k) s') ->
  wp (mfor (seqZ 0 n) body) (fun s' r => r = Ok tt /\
    (len s' = len s /\ forall a, 0 <= a -> word s' a = filled base n val (word s) a)) s.
Proof.
  intros Hb Hn Hl Hfit Hbody.
  pose (I := fun (k : nat) s' => len s' = len s /\
    forall a, 0 <= a -> word s' a = filled base (Z.of_nat k) val (word s) a).
  assert (Hlen : Z.of_nat (length (seqZ 0 n)) = n) by (rewrite length_seqZ; lia).
  replace (fun s' r => r = Ok tt /\ _) with (fun s' (r : res NptError unit) => r = Ok tt /\ I (length (seqZ 0 n)) s')
    by (unfold I; by rewrite Hlen).
  apply wp_mfor.
  - split; [done|]. intros a Ha. unfold filled. destruct (Z.leb_spec base a), (Z.ltb_spec a (base + Z.of_nat 0));
      cbn; (done || lia).
  - intros k x s' [-> Hk]%lookup_seqZ [Hs' Hw]. rewrite Z.add_0_l. eapply wp_eq.
    { apply Hbody; [lia|done]. }
    split; [done|]. split; [by destruct (val _); rewrite ?len_put_u64|].
    intros a Ha. unfold filled in *. specialize (Hw a Ha).
    destruct (val (Z.of_nat k)) as [v|] eqn:Ev.
    + rewrite word_put by lia. destruct (Z.eqb_spec (base + Z.of_nat k) a) as [<-|Hne].
      * destruct (Z.leb_spec base (base + Z.of_nat k)), (Z.ltb_spec (base + Z.of_nat k) (base + Z.of_nat (S k))); try lia.
        cbn. rewrite Z.add_simpl_l, Ev. cbn. apply Z.mod_small. apply (Hfit _ _ Ev). lia.
      * rewrite Hw. destruct (Z.leb_spec base a), (Z.ltb_spec a (base + Z.of_nat k)),
          (Z.ltb_spec a (base + Z.of_nat (S k))); (done || lia).
    + rewrite Hw. destruct (Z.leb_spec base a), (Z.ltb_spec a (base + Z.of_nat k)),
        (Z.ltb_spec a (base + Z.of_nat (S k))); try (done || lia); cbn.
      replace (a - base) with (Z.of_nat k) by lia. by rewrite Ev.
Qed.

(** [claim_tables] zeroes the region, or reports that it does not fit. *)
Lemma claim_tables_spec count s :
  0 <= count -> 4096 * count < 2 ^ 64 -> 4096 * count <= len s ->
  wp (claim_tables count) (fun s' r => r = Ok (4096 * count) /\ len s' = len s /\
    forall a, 0 <= a -> word s' a = if a <? 512 * count then 0 else word s a) s.
Proof.
  intros Hc Hov Hl. unfold wp, claim_tables, mbind, M_bind, reads, checked_mul. cbn -[Z.pow].
  rewrite (Z.mul_comm count). destruct (Z.ltb_spec (4096 * count) (2 ^ 64)); [|lia]. cbn -[Z.pow].
  destruct (Z.ltb_spec (len s) (4096 * count)); [lia|]. unfold zero_bytes.
  destruct (Z.leb_spec 0 (4096 * count)), (Z.leb_spec (4096 * count) (len s)); try lia. cbn -[Z.pow].
  split; [done|]. split; [apply len_zero_range|]. intros a Ha.
  replace (4096 * count) with (8 * (512 * count)) by lia.
  rewrite (word_zero s 0 (512 * count)) by lia. by destruct (Z.leb_spec 0 a); [|lia].
Qed.

Lemma claim_tables_err count s :
  0 <= count -> len s < 4096 * count -> exists e, claim_tables count s = (s, Err e).
Proof.
  intros Hc Hl. unfold claim_tables, mbind, M_bind, reads, checked_mul. cbn -[Z.pow].
  rewrite (Z.mul_comm count). destruct (Z.ltb_spec (4096 * count) (2 ^ 64)); cbn -[Z.pow]; [|by eauto].
  destruct (Z.ltb_spec (len s) (4096 * count)); [by eauto|lia].
Qed.

(** ** Hierarchies laid out at once *)

(** The entry the builders write for table page [c]. *)
Definition table_entry (pb c : Z) : Z := ((pb + 4096 * c) .& ADDR_MASK) .| table_flags.

Lemma Tables_layout pb buf role :
  0 <= pb -> pb mod 4096 = 0 -> pb + len buf <= 2 ^ 52 -> role 0 = Some (0, 0) ->
  (forall t l p, role t = Some (l, p) -> in_buf buf t /\ 0 <= l <= 3 /\ 0 <= p) ->
  (forall t t' x, role t = Some x -> role t' = Some x -> t = t') ->
  (forall c l q, role c = Some (l, q) -> 0 < l -> exists t, role t = Some (l - 1, q / 512)) ->
  (forall t l p i, role t = Some (l, p) -> l < 3 -> 0 <= i < 512 ->
     (exists c, role c = Some (l + 1, p * 512 + i) /\ ent buf t i = table_entry pb c) \/
     ((forall c, role c <> Some (l + 1, p * 512 + i)) /\
      (Z.testbit (ent buf t i) 0 = true -> l = 2 /\ Z.testbit (ent buf t i) 7 = true))) ->
  Tables pb buf role.
Proof.
  intros Hb Ha Hp Hr Hin Hinj Hup Hent.
  assert (Hpts : forall c x, role c = Some x -> points_to pb (table_entry pb c) c).
  { intros c [l q] Hc. destruct (Hin _ _ _ Hc) as ([? ?] & _). apply table_entry_points; (done || lia). }
  split; try done.
  - intros t l p i Ht Hl Hi Hpr. destruct (Hent _ _ _ _ Ht Hl Hi) as [(c & Hc & E)|[_ Hh]]; [|by left; auto].
    right. exists c. rewrite E. eauto.
  - intros c l q Hc Hl. destruct (Hup _ _ _ Hc Hl) as [t Ht]. exists t. split; [done|].
    destruct (Hin _ _ _ Hc) as (_ & ? & _). pose proof (Z.mod_pos_bound q 512 ltac:(lia)).
    assert (E : Some (l - 1 + 1, q / 512 * 512 + q mod 512) = Some (l, q)).
    { do 2 f_equal; [lia|]. pose proof (Z.div_mod q 512 ltac:(lia)). lia. }
    destruct (Hent t (l - 1) (q / 512) (q mod 512) Ht) as [(c' & Hc' & ->)|[Hno _]]; [lia|done|..].
    + rewrite E in Hc'. pose proof (Hinj _ _ _ Hc Hc') as <-. eauto.
    + exfalso. apply (Hno c). by rewrite E.
Qed.

(** ** The 2 MiB layout, with an optional 4 KiB window *)

Section huge_layout.
Context (pb spa num_pd n : Z) (fine : option Z) (guards : list Z) (buf : buffer).
Context (Hpb : 0 <= pb) (Hal : pb mod 4096 = 0) (Hphys : pb + len buf <= 2 ^ 52).
Context (Hspa : 0 <= spa) (Hsal : spa mod 2 ^ 21 = 0) (Hsend : spa + n * 2 ^ 21 <= 2 ^ 52).
Context (Hpd : 0 < num_pd <= 512) (Hn : 0 < n <= 512 * num_pd).
Context (Hfine : forall f, fine = Some f -> 0 <= f < n).
Let tables := match fine with Some _ => 3 + num_pd | None => 2 + num_pd end.
Context (Hlen : 4096 * tables <= len buf).

(** The PD entry of 2 MiB page [page]. *)
Definition pd_slot (page : Z) : Z :=
  if bool_decide (fine = Some page) then table_entry pb (2 + num_pd)
  else if page <? n then ((spa + page * 2 ^ 21) .& ADDR_MASK) .| huge_leaf_flags else 0.

(** The entry of 4 KiB page [j] of the window at 2 MiB page [f]. *)
Definition window_slot (f j : Z) : Z :=
  if bool_decide (j ∈ guards) then 0
  else ((spa + f * 2 ^ 21 + j * 4096) .& ADDR_MASK) .| table_flags.

Context (Hw0 : forall i, 0 <= i < 512 -> ent buf 0 i = if i =? 0 then table_entry pb 1 else 0).
Context (Hw1 : forall i, 0 <= i < 512 -> ent buf 1 i = if i <? num_pd then table_entry pb (2 + i) else 0).
Context (Hw2 : forall k i, 0 <= k < num_pd -> 0 <= i < 512 -> ent buf (2 + k) i = pd_slot (512 * k + i)).
Context (Hw3 : forall f i, fine = Some f -> 0 <= i < 512 -> ent buf (2 + num_pd) i = window_slot f i).

Definition huge_role : roles := fun t =>
  if t =? 0 then Some (0, 0)
  else if t =? 1 then Some (1, 0)
  else if (2 <=? t) && (t <? 2 + num_pd) then Some (2, t - 2)
  else if t =? 2 + num_pd then (fun f => (3, f)) <$> fine
  else None.

(** Prove one of the first three kinds of table page by arithmetic. *)
Ltac kind := first [left; lia | right; left; lia | right; right; left; lia].

(** The four kinds of table page. *)
Lemma huge_role_cases t l p :
  huge_role t = Some (l, p) <->
  (t = 0 /\ l = 0 /\ p = 0) \/ (t = 1 /\ l = 1 /\ p = 0) \/
  (2 <= t < 2 + num_pd /\ l = 2 /\ p = t - 2) \/ (t = 2 + num_pd /\ l = 3 /\ fine = Some p).
Proof using Hpd.
  clear - Hpd.
  unfold huge_role. destruct (Z.eqb_spec t 0), (Z.eqb_spec t 1), (Z.leb_spec 2 t), (Z.ltb_spec t (2 + num_pd)),
    (Z.eqb_spec t (2 + num_pd)); cbn; try lia;
    try (split; [intros [=]; lia|intros; repeat (f_equal; try lia)]; fail).
  destruct fine as [f|]; cbn; split; [intros [=]; subst; right; right; right; done| |done|].
  - intros [?|[?|[?|(_ & -> & [=->])]]]; (done || lia).
  - intros [?|[?|[?|(_ & _ & ?)]]]; (done || lia).
Qed.

Lemma huge_layout_tables : Tables pb buf huge_role.
Proof.
  assert (Hpos : 2 + num_pd <= tables) by (unfold tables; destruct fine; lia).
  apply Tables_layout; try done.
  - intros t l p [(-> & -> & ->)|[(-> & -> & ->)|[(? & -> & ->)|(-> & -> & Ef)]]]%huge_role_cases;
      unfold in_buf; try lia.
    unfold tables in Hlen. rewrite Ef in Hlen. pose proof (Hfine _ Ef). lia.
  - intros t t' [l p] [?|[?|[?|(? & ? & _)]]]%huge_role_cases [?|[?|[?|(? & ? & _)]]]%huge_role_cases; lia.
  - intros c l q Hc%huge_role_cases Hl.
    destruct Hc as [?|[(-> & -> & ->)|[(? & -> & ->)|(-> & -> & Ef)]]]; [lia|..].
    + exists 0. apply huge_role_cases. rewrite Z.div_0_l by lia. kind.
    + exists 1. apply huge_role_cases. rewrite Z.div_small by lia. kind.
    + pose proof (Hfine _ Ef). exists (2 + q / 512). apply huge_role_cases. right; right; left.
      assert (q / 512 < num_pd) by (apply Z.div_lt_upper_bound; lia).
      pose proof (Z.div_pos q 512 ltac:(lia) ltac:(lia)). lia.
  - intros t l p i Ht%huge_role_cases Hl Hi.
    destruct Ht as [(-> & -> & ->)|[(-> & -> & ->)|[(Ht & -> & ->)|?]]]; [..|lia].
    + rewrite Hw0 by done. destruct (Z.eqb_spec i 0) as [->|].
      * left. exists 1. split; [|done]. apply huge_role_cases. kind.
      * right. split; [|by rewrite Z.testbit_0_l]. intros c [?|[?|[?|(_ & ? & _)]]]%huge_role_cases; lia.
    + rewrite Hw1 by done. destruct (Z.ltb_spec i num_pd).
      * left. exists (2 + i). split; [|done]. apply huge_role_cases. kind.
      * right. split; [|by rewrite Z.testbit_0_l]. intros c [?|[?|[?|(_ & ? & _)]]]%huge_role_cases; lia.
    + replace t with (2 + (t - 2)) by lia. rewrite Hw2 by lia. unfold pd_slot.
      case_bool_decide as Ef.
      * left. exists (2 + num_pd). split; [|done]. apply huge_role_cases. right; right; right.
        split_and!; [done|lia|]. rewrite Ef. f_equal. lia.
      * right. split.
        { intros c [?|[?|[?|(_ & _ & Ef')]]]%huge_role_cases; [lia..|]. apply Ef. rewrite Ef'. f_equal. lia. }
        destruct (_ <? n); [|by rewrite Z.testbit_0_l]. intros _. by rewrite entry_flag.
Qed.

(** What the layout translates: everything below [n] huge pages but the guards. *)
Definition huge_image (g : Z) : option Z :=
  if g <? n * 2 ^ 21
  then if bool_decide (fine = Some (pfx 3 g) /\ idx 3 g ∈ guards) then None else Some (spa + g)
  else None.

Lemma huge_layout_translate g :
  0 <= g < 2 ^ 48 -> translate_npt buf pb g = huge_image g.
Proof.
  intros Hg. pose proof huge_layout_tables as T. pose proof (idx_range 2 g) as Hi2.
  pose proof (pfx_step 2 g ltac:(lia)) as E3. change (2 + 1) with 3 in E3.
  pose proof (pfx_mod_huge g) as Eg. pose proof (Z.mod_pos_bound g (2 ^ 21) ltac:(lia)) as Hmod.
  assert (Hp2 : 0 <= pfx 2 g) by (apply Z.div_pos; [lia|done]).
  assert (Hp3 : g < n * 2 ^ 21 <-> pfx 3 g < n) by nia.
  unfold huge_image.
  destruct (Z.lt_ge_cases (pfx 2 g) num_pd) as [Hin|Hout].
  2: { destruct (Z.ltb_spec g (n * 2 ^ 21)); [nia|].
       destruct (translate_cases _ _ _ T g Hg) as [(t & Ht & _)|[(t & Ht & _)|(_ & _ & E)]]; [..|done].
       - apply huge_role_cases in Ht as [?|[?|[?|(_ & _ & Ef)]]]; [lia..|]. pose proof (Hfine _ Ef). lia.
       - apply huge_role_cases in Ht as [?|[?|[?|(_ & ? & _)]]]; lia. }
  assert (Hrole : huge_role (2 + pfx 2 g) = Some (2, pfx 2 g)) by (apply huge_role_cases; kind).
  pose proof (Hw2 (pfx 2 g) (idx 2 g) ltac:(lia) Hi2) as He.
  replace (512 * pfx 2 g + idx 2 g) with (pfx 3 g) in He by lia. unfold pd_slot in He.
  destruct (decide (fine = Some (pfx 3 g))) as [Ef|Hnf].
  - pose proof (Hfine _ Ef). destruct (Z.ltb_spec g (n * 2 ^ 21)); [|lia].
    assert (Hrole3 : huge_role (2 + num_pd) = Some (3, pfx 3 g)) by (apply huge_role_cases; by do 3 right).
    pose proof (Hw3 _ (idx 3 g) Ef (idx_range 3 g)) as He3. unfold window_slot in He3.
    pose proof (pfx_step 3 g ltac:(lia)) as E4. pose proof (pfx_mod_page g) as Egp.
    pose proof (idx_range 3 g). change (3 + 1) with 4 in E4.
    destruct (decide (idx 3 g ∈ guards)) as [Hgd|Hgd].
    + rewrite bool_decide_eq_true_2 in He3 by done. rewrite bool_decide_eq_true_2 by done.
      apply (translate_absent _ _ _ T 3 g (2 + num_pd)); [done|lia|done|]. by rewrite He3, Z.testbit_0_l.
    + rewrite bool_decide_eq_false_2 in He3 by done. rewrite bool_decide_eq_false_2 by tauto.
      rewrite (translate_small _ _ _ T g _ _ _ Hg Hrole3 He3);
        [f_equal; lia|done|done|unfold fits; nia|].
      replace (2 ^ 21) with (512 * 4096) in * by lia.
      rewrite Z.mod_add, Z.mul_assoc, Z.mod_add by lia.
      rewrite (Z.div_mod spa (512 * 4096)), Hsal by lia.
      replace (512 * 4096 * (spa / (512 * 4096)) + 0) with (512 * (spa / (512 * 4096)) * 4096) by lia.
      by rewrite Z.mod_mul.
  - rewrite (bool_decide_eq_false_2 (fine = Some (pfx 3 g))) in He by done.
    rewrite bool_decide_eq_false_2 by tauto.
    destruct (Z.ltb_spec (pfx 3 g) n) as [H3|H3], (Z.ltb_spec g (n * 2 ^ 21)); try lia.
    + rewrite (translate_huge _ _ _ T g _ _ _ Hg Hrole He);
        [f_equal; lia|done|done|done|unfold fits; nia|by rewrite Z.mod_add by lia].
    + apply (translate_absent _ _ _ T 2 g (2 + pfx 2 g)); [done|lia|done|]. by rewrite He, Z.testbit_0_l.
Qed.

Lemma huge_layout_ok :
  Tables pb buf huge_role /\
  (forall k i, 0 <= k < num_pd -> 0 <= i < 512 -> ent buf (2 + k) i = pd_slot (512 * k + i)) /\
  forall g, 0 <= g < 2 ^ 48 -> translate_npt buf pb g = huge_image g.
Proof. split; [apply huge_layout_tables|]. split; [exact Hw2|exact huge_layout_translate]. Qed.
End huge_layout.

(** ** Bodies of the builders' loops *)

Lemma store_word s (a v : Z) :
  0 <= a -> 8 * a + 8 <= len s -> @write_entry (8 * a) v s = (put_u64 s (8 * a) v, Ok tt).
Proof.
  intros Ha Hl. unfold write_entry, store_u64. by destruct (Z.leb_spec (8 * a + 8) (len s)); [|lia].
Qed.

Lemma uadd_run {S E} a b (s : S) : a + b < 2 ^ 64 -> @uadd S E a b s = (s, Ok (a + b)).
Proof. intros. unfold uadd. by destruct (Z.ltb_spec (a + b) (2 ^ 64)); [|lia]. Qed.

(** An entry computed from an address sum and stored. *)
Lemma fills_entry base k a b f off s :
  0 <= base + k -> 8 * (base + k) + 8 <= len s -> a + b < 2 ^ 64 -> off = 8 * (base + k) ->
  fills base k (Some (((a + b) .& ADDR_MASK) .| f))
    (x ← uadd a b; write_entry off ((x .& ADDR_MASK) .| f)) s.
Proof.
  intros H0 Hl Hs ->. unfold fills, mbind, M_bind. rewrite uadd_run by done. by apply store_word.
Qed.

(** Offsets of consecutive pages of a table run are consecutive. *)
Lemma page_slot base page : (512 * base) * 8 + page / 512 * 4096 + page mod 512 * 8 = 8 * (512 * base + page).
Proof. pose proof (Z.div_mod page 512 ltac:(lia)). lia. Qed.

Lemma div_ceil_spec a b : 0 < b -> 0 < a -> 0 < div_ceil a b /\ a <= b * div_ceil a b < a + b.
Proof.
  intros Hb Ha. unfold div_ceil. pose proof (Z.div_mod (a + b - 1) b ltac:(lia)).
  pose proof (Z.mod_pos_bound (a + b - 1) b Hb). split; nia.
Qed.

Definition build_2mib_valid (base spa bytes_ buflen : Z) : bool :=
  negb (bytes_ =? 0) && (base mod 4096 =? 0) && (spa mod 2 ^ 21 =? 0) &&
  (div_ceil (div_ceil bytes_ HUGE_2MIB) 512 <=? 512) &&
  (4096 * (2 + div_ceil (div_ceil bytes_ HUGE_2MIB) 512) <=? buflen).

Section build_2mib.
Context (base spa bytes_ : Z) (buf : buffer).
Context (Hb : 0 <= base) (Hphys : base + len buf <= 2 ^ 52).
Context (Hspa : 0 <= spa) (Hby : 0 <= bytes_).
Let n := div_ceil bytes_ HUGE_2MIB.
Let num_pd := div_ceil n 512.
Context (Hsend : spa + n * 2 ^ 21 <= 2 ^ 52).

(** The words the builder leaves. *)
Definition words_2mib : Z -> Z :=
  filled 1024 n (fun page => Some (((spa + page * HUGE_2MIB) .& ADDR_MASK) .| huge_leaf_flags))
    (filled 512 num_pd (fun k => Some (((base + 2 * PAGE_SIZE + k * PAGE_SIZE) .& ADDR_MASK) .| table_flags))
       (fun a => if a =? 0 then ((base + PAGE_SIZE) .& ADDR_MASK) .| table_flags
                 else if a <? 512 * (2 + num_pd) then 0 else word buf a)).

Lemma filled_ext b n' val w w' a : w a = w' a -> filled b n' val w a = filled b n' val w' a.
Proof. intros E. unfold filled. by rewrite E. Qed.

Lemma build_2mib_run :
  build_2mib_valid base spa bytes_ (len buf) = true ->
  wp (build_npt_2mib base spa bytes_) (fun buf' r =>
    r = Ok (mk_NptLayout base (2 + num_pd) (4096 * (2 + num_pd))) /\
    len buf' = len buf /\ forall a, 0 <= a -> word buf' a = words_2mib a) buf.
Proof.
  unfold build_2mib_valid. fold n num_pd. intros Hv. breflect. destruct_and?.
  destruct (div_ceil_spec bytes_ HUGE_2MIB) as [Hn0 Hn1]; [done|lia|]. fold n in Hn0, Hn1.
  destruct (div_ceil_spec n 512) as [Hp0 Hp1]; [lia..|]. fold num_pd in Hp0, Hp1.
  assert (2 ^ 52 + 2 ^ 30 < 2 ^ 64) by done.
  unfold build_npt_2mib. fold n. change TABLE_ENTRIES with 512. fold num_pd. rewrite tst_page, tst_huge.
  destruct (Z.eqb_spec bytes_ 0), (Z.eqb_spec (base mod 4096) 0), (Z.eqb_spec (spa mod 2 ^ 21) 0); try lia.
  cbn [negb]. destruct (Z.ltb_spec 512 num_pd); [lia|]. cbv zeta.
  apply wp_bind. eapply wp_mono; [apply claim_tables_spec; lia|]. intros s0 r (-> & Hl0 & Hw0).
  apply wp_bind, wp_uadd; [lia|].
  apply wp_bind, wp_uadd; [lia|].
  apply wp_bind. eapply wp_eq; [apply (store_word s0 0); lia|]. cbv beta iota.
  set (s1 := put_u64 s0 _ _). assert (Hl1 : len s1 = len buf) by (unfold s1; by rewrite len_put_u64).
  assert (Hw1 : forall a, 0 <= a -> word s1 a = if a =? 0 then ((base + PAGE_SIZE) .& ADDR_MASK) .| table_flags
                 else if a <? 512 * (2 + num_pd) then 0 else word buf a).
  { intros a Ha. unfold s1. rewrite (word_put s0 0) by lia. rewrite (Z.eqb_sym 0 a).
    destruct (Z.eqb_spec a 0); [|by apply Hw0]. apply Z.mod_small, entry_fits; [lia|done]. }
  clearbody s1. apply wp_bind. eapply wp_mono.
  { apply (fill_loop _ 512 num_pd
      (fun k => Some (((base + 2 * PAGE_SIZE + k * PAGE_SIZE) .& ADDR_MASK) .| table_flags))); [lia..| |].
    - intros k v [=<-] Hk. apply entry_fits; [lia|done].
    - intros k s' Hk Hs'. apply fills_entry; lia. }
  intros s2 r (-> & Hl2 & Hw2). apply wp_bind. eapply wp_mono.
  { apply (fill_loop _ 1024 n
      (fun page => Some (((spa + page * HUGE_2MIB) .& ADDR_MASK) .| huge_leaf_flags))); [lia..| |].
    - intros k v [=<-] Hk. apply entry_fits; [lia|done].
    - intros k s' Hk Hs'. apply fills_entry; [lia|lia|nia|exact (page_slot 2 k)]. }
  intros s3 r (-> & Hl3 & Hw3). apply wp_ret. split; [done|]. split; [lia|]. intros a Ha.
  rewrite Hw3 by done. apply filled_ext. rewrite Hw2 by done. apply filled_ext. auto.
Qed.
End build_2mib.

Lemma build_2mib_rejects base spa bytes_ buf :
  0 <= bytes_ -> build_2mib_valid base spa bytes_ (len buf) = false ->
  exists e, build_npt_2mib base spa bytes_ buf = (buf, Err e).
Proof.
  unfold build_2mib_valid, build_npt_2mib. intros Hby.
  set (n := div_ceil bytes_ HUGE_2MIB). change TABLE_ENTRIES with 512. set (num_pd := div_ceil n 512).
  rewrite tst_page, tst_huge.
  destruct (Z.eqb_spec bytes_ 0); cbn [negb andb]; [by eauto|].
  destruct (Z.eqb_spec (base mod 4096) 0); cbn [negb andb]; [|by eauto].
  destruct (Z.eqb_spec (spa mod 2 ^ 21) 0); cbn [negb andb]; [|by eauto].
  destruct (Z.leb_spec num_pd 512), (Z.ltb_spec 512 num_pd); try lia; cbn [andb]; [|by eauto].
  intros Hlen%Z.leb_gt.
  assert (0 <= num_pd) by (unfold num_pd, n, div_ceil; repeat (apply Z.div_pos; [|done]; rewrite <- Z.add_sub_assoc;
    apply Z.add_nonneg_nonneg; [|done]); lia).
  destruct (claim_tables_err (2 + num_pd) buf) as [err E]; [lia..|].
  exists err. unfold mbind at 1, M_bind. by rewrite E.
Qed.

(** Entries of a page inside the region, from the words. *)
Lemma ent_words buf w t i : (forall a, 0 <= a -> word buf a = w a) -> 0 <= t -> 0 <= i ->
  ent buf t i = w (512 * t + i).
Proof. intros H Ht Hi. apply H. lia. Qed.

Lemma build_2mib_translate base spa bytes_ buf buf' :
  0 <= base -> base + len buf' <= 2 ^ 52 -> 0 <= spa -> 0 <= bytes_ ->
  spa + div_ceil bytes_ HUGE_2MIB * 2 ^ 21 <= 2 ^ 52 ->
  build_2mib_valid base spa bytes_ (len buf') = true ->
  (forall a, 0 <= a -> word buf' a = words_2mib base spa bytes_ buf a) ->
  let n := div_ceil bytes_ HUGE_2MIB in
  let num_pd := div_ceil n 512 in
  Tables base buf' (huge_role num_pd None) /\
  (forall k i, 0 <= k < num_pd -> 0 <= i < 512 ->
     ent buf' (2 + k) i = pd_slot base spa num_pd n None (512 * k + i)) /\
  forall g, 0 <= g < 2 ^ 48 ->
    translate_npt buf' base g = if g <? div_ceil bytes_ HUGE_2MIB * 2 ^ 21 then Some (spa + g) else None.
Proof.
  intros Hb Hp Hs Hby Hsend Hv Hw. cbv zeta. unfold build_2mib_valid in Hv. breflect. destruct_and?.
  destruct (div_ceil_spec bytes_ HUGE_2MIB) as [Hn0 Hn1]; [done|lia|].
  set (n := div_ceil bytes_ HUGE_2MIB) in *.
  destruct (div_ceil_spec n 512) as [Hp0 Hp1]; [lia..|]. set (num_pd := div_ceil n 512) in *.
  assert (H' : Tables base buf' (huge_role num_pd None) /\
    (forall k i, 0 <= k < num_pd -> 0 <= i < 512 ->
       ent buf' (2 + k) i = pd_slot base spa num_pd n None (512 * k + i)) /\
    forall g, 0 <= g < 2 ^ 48 -> translate_npt buf' base g = huge_image spa n None [] g).
  2: { split; [apply H'|]. split; [apply H'|]. intros g Hg. rewrite (proj2 (proj2 H')) by done. unfold huge_image.
       by rewrite (bool_decide_eq_false_2 (None = Some _ /\ _)) by (by intros [? _]). }
  apply (huge_layout_ok base spa num_pd n None [] buf'); try (done || lia);
    intros; rewrite (ent_words _ _ _ _ Hw) by lia; unfold words_2mib; fold n num_pd.
  - rewrite !filled_out by lia. replace (512 * 0 + i) with i by lia. zcases; (done || lia).
  - rewrite filled_out by lia. destruct (Z.ltb_spec i num_pd).
    + rewrite filled_in by lia. cbn. unfold table_entry. do 2 f_equal. lia.
    + rewrite filled_out by lia. cbv beta. zcases; (done || lia).
  - unfold pd_slot. rewrite bool_decide_eq_false_2 by done. destruct (Z.ltb_spec (512 * k + i) n).
    + rewrite filled_in by lia. cbn. do 2 f_equal. change HUGE_2MIB with (2 ^ 21). lia.
    + rewrite !filled_out by lia. cbv beta. zcases; (done || lia).
Qed.

(** [build_npt_2mib] maps exactly the requested range.  On arguments its
    checks reject it reports an error and leaves the buffer untouched;
    otherwise it succeeds, describes the tables it used, and the tables
    translate every guest address below the (2 MiB-rounded) size to
    [spa_base] plus the address and no other address at all. *)
Theorem npt_build_2mib_correct base spa bytes_ buf :
  0 <= base -> base + len buf <= 2 ^ 52 -> 0 <= spa -> 0 <= bytes_ ->
  spa + div_ceil bytes_ HUGE_2MIB * 2 ^ 21 <= 2 ^ 52 ->
  let num_pd := div_ceil (div_ceil bytes_ HUGE_2MIB) 512 in
  if build_2mib_valid base spa bytes_ (len buf)
  then exists buf',
    build_npt_2mib base spa bytes_ buf =
      (buf', Ok (mk_NptLayout base (2 + num_pd) (4096 * (2 + num_pd)))) /\
    len buf' = len buf /\
    (forall a, 512 * (2 + num_pd) <= a -> word buf' a = word buf a) /\
    npt_wf base buf' /\
    forall g, 0 <= g < 2 ^ 48 ->
      translate_npt buf' base g = if g <? div_ceil bytes_ HUGE_2MIB * 2 ^ 21 then Some (spa + g) else None
  else exists e, build_npt_2mib base spa bytes_ buf = (buf, Err e).
Proof.
  intros Hb Hp Hs Hby Hsend num_pd. destruct (build_2mib_valid _ _ _ _) eqn:Hv; [|by apply build_2mib_rejects].
  pose proof (build_2mib_run base spa bytes_ buf Hb Hp Hs Hby Hsend Hv) as Hrun. unfold wp in Hrun.
  destruct (build_npt_2mib base spa bytes_ buf) as [buf' r]. cbn in Hrun. destruct Hrun as (-> & Hl & Hw).
  exists buf'. split; [done|]. split; [done|].
  destruct (build_2mib_translate base spa bytes_ buf buf') as (T & _ & Ht); [rewrite ?Hl; done..|].
  split; [|split; [by eexists|exact Ht]].
  intros a Ha. unfold build_2mib_valid in Hv. breflect. destruct_and?.
  destruct (div_ceil_spec bytes_ HUGE_2MIB) as [Hn0 Hn1]; [done|lia|].
  destruct (div_ceil_spec (div_ceil bytes_ HUGE_2MIB) 512) as [Hp0 Hp1]; [lia..|].
  rewrite Hw by lia. unfold words_2mib, num_pd in *. rewrite !filled_out by lia. zcases; (lia || done).
Qed.

Lemma npt_build_2mib_correct_witness :
  exists buf', build_npt_2mib 0x100000 0x40000000 0x300000 (zeros 16384) =
                 (buf', Ok (mk_NptLayout 0x100000 3 12288)) /\
    translate_npt buf' 0x100000 0x234567 = Some 0x40234567 /\
    translate_npt buf' 0x100000 0x400000 = None.
Proof.
  pose proof (npt_build_2mib_correct 0x100000 0x40000000 0x300000 (zeros 16384) ltac:(lia)
    ltac:(by rewrite len_zeros) ltac:(lia) ltac:(lia) ltac:(by vm_compute)) as H.
  rewrite len_zeros in H by lia.
  destruct H as (buf' & E & _ & _ & _ & Ht). exists buf'. split; [exact E|].
  split; rewrite Ht by lia; reflexivity.
Defined.

(** ** The window builder *)

Definition window_valid (base bytes_ fine : Z) (guards : list Z) (buflen : Z) : bool :=
  negb (bytes_ =? 0) && (base mod 4096 =? 0) &&
  (div_ceil (div_ceil bytes_ HUGE_2MIB) 512 <=? 512) &&
  (fine <? div_ceil bytes_ HUGE_2MIB) && forallb (fun g => g <? 512) guards &&
  (4096 * (3 + div_ceil (div_ceil bytes_ HUGE_2MIB) 512) <=? buflen).

(** A loop that only validates its elements. *)
Lemma check_loop (bound : Z) (err : Z -> NptError) guards (s : buffer) :
  if forallb (fun g => g <? bound) guards
  then mfor guards (fun g => if bound <=? g then fail (err g) else mret tt) s = (s, Ok tt)
  else exists e, mfor guards (fun g => if bound <=? g then fail (err g) else mret tt) s = (s, Err e).
Proof.
  induction guards as [|g guards IH]; cbn [forallb mfor]; [done|].
  unfold mbind, M_bind. destruct (Z.ltb_spec g bound), (Z.leb_spec bound g); try lia; cbn; [done|by eauto].
Qed.

Section build_window.
Context (base bytes_ fine : Z) (guards : list Z) (buf : buffer).
Context (Hb : 0 <= base) (Hphys : base + len buf <= 2 ^ 52) (Hby : 0 <= bytes_) (Hfi : 0 <= fine).
Let n := div_ceil bytes_ HUGE_2MIB.
Let num_pd := div_ceil n 512.

Definition window_page (page : Z) : Z :=
  if page =? fine then ((base + (2 + num_pd) * PAGE_SIZE) .& ADDR_MASK) .| table_flags
  else ((page * HUGE_2MIB) .& ADDR_MASK) .| huge_leaf_flags.

Definition window_leaf (p : Z) : option Z :=
  if bool_decide (p ∈ guards) then None
  else Some (((fine * HUGE_2MIB + p * PAGE_SIZE) .& ADDR_MASK) .| table_flags).

(** The words the builder leaves. *)
Definition words_window : Z -> Z :=
  filled (512 * (2 + num_pd)) 512 window_leaf
    (filled 1024 n (fun page => Some (window_page page))
      (filled 512 num_pd (fun k => Some (((base + 2 * PAGE_SIZE + k * PAGE_SIZE) .& ADDR_MASK) .| table_flags))
       (fun a => if a =? 0 then ((base + PAGE_SIZE) .& ADDR_MASK) .| table_flags
                 else if a <? 512 * (2 + num_pd + 1) then 0 else word buf a))).

Lemma window_page_fills k s :
  0 <= k < n -> 8 * (1024 + n) <= len s ->
  fills 1024 k (Some (window_page k))
    (if k =? fine
     then write_entry (2 * 4096 + k / 512 * 4096 + k mod 512 * 8)
            (((base + (2 + num_pd) * PAGE_SIZE) .& ADDR_MASK) .| table_flags)
     else write_entry (2 * 4096 + k / 512 * 4096 + k mod 512 * 8)
            (((k * HUGE_2MIB) .& ADDR_MASK) .| huge_leaf_flags)) s.
Proof.
  intros Hk Hs. pose proof (page_slot 2 k) as E. change (512 * 2) with 1024 in E.
  change (1024 * 8) with (2 * 4096) in E. rewrite E. unfold fills, window_page.
  destruct (k =? fine); apply store_word; lia.
Qed.

Lemma window_leaf_fills k s :
  0 <= k < 512 -> fine < 2 ^ 18 -> 0 <= num_pd -> 4096 * (3 + num_pd) <= len s ->
  fills (512 * (2 + num_pd)) k (window_leaf k)
    (if bool_decide (k ∈ guards) then mret tt
     else phys ← uadd (fine * HUGE_2MIB) (k * PAGE_SIZE);
          write_entry ((2 + num_pd) * 4096 + k * 8) ((phys .& ADDR_MASK) .| table_flags)) s.
Proof.
  intros Hk Hf Hp Hs. assert (2 ^ 18 * 2 ^ 21 + 2 ^ 21 < 2 ^ 64) by done.
  unfold window_leaf. case_bool_decide; [done|].
  apply fills_entry; [lia|lia|lia|lia].
Qed.

Lemma build_window_run :
  window_valid base bytes_ fine guards (len buf) = true ->
  wp (build_identity_npt_2mib_with_4kib_window base bytes_ fine guards) (fun buf' r =>
    r = Ok (mk_NptLayout base (3 + num_pd) (4096 * (3 + num_pd))) /\
    len buf' = len buf /\ forall a, 0 <= a -> word buf' a = words_window a) buf.
Proof.
  unfold window_valid. fold n num_pd. intros Hv. breflect. destruct_and?.
  destruct (div_ceil_spec bytes_ HUGE_2MIB) as [Hn0 Hn1]; [done|lia|]. fold n in Hn0, Hn1.
  destruct (div_ceil_spec n 512) as [Hp0 Hp1]; [lia..|]. fold num_pd in Hp0, Hp1.
  assert (2 ^ 52 + 2 ^ 30 < 2 ^ 64) by done.
  unfold build_identity_npt_2mib_with_4kib_window. fold n. change TABLE_ENTRIES with 512. fold num_pd.
  rewrite tst_page.
  destruct (Z.eqb_spec bytes_ 0), (Z.eqb_spec (base mod 4096) 0); try lia. cbn [negb].
  destruct (Z.ltb_spec 512 num_pd), (Z.leb_spec n fine); try lia. cbv zeta.
  apply wp_bind. pose proof (check_loop 512 (fun g => GuardPageOutOfRange g 512) guards buf) as Hck.
  destruct (forallb _ guards); [|done]. eapply wp_eq; [exact Hck|]. cbv beta iota.
  apply wp_bind. eapply wp_mono; [apply claim_tables_spec; lia|]. intros s0 r (-> & Hl0 & Hw0).
  do 3 (apply wp_bind, wp_uadd; [lia|]).
  apply wp_bind. eapply wp_eq; [apply (store_word s0 0); lia|]. cbv beta iota.
  set (s1 := put_u64 s0 _ _). assert (Hl1 : len s1 = len buf) by (unfold s1; by rewrite len_put_u64).
  assert (Hw1 : forall a, 0 <= a -> word s1 a = if a =? 0 then ((base + PAGE_SIZE) .& ADDR_MASK) .| table_flags
                 else if a <? 512 * (2 + num_pd + 1) then 0 else word buf a).
  { intros a Ha. unfold s1. rewrite (word_put s0 0) by lia. rewrite (Z.eqb_sym 0 a).
    destruct (Z.eqb_spec a 0); [|by apply Hw0]. apply Z.mod_small, entry_fits; [lia|done]. }
  clearbody s1. apply wp_bind. eapply wp_mono.
  { apply (fill_loop _ 512 num_pd
      (fun k => Some (((base + 2 * PAGE_SIZE + k * PAGE_SIZE) .& ADDR_MASK) .| table_flags))); [lia..| |].
    - intros k v [=<-] Hk. apply entry_fits; [lia|done].
    - intros k s' Hk Hs'. apply fills_entry; lia. }
  intros s2 r (-> & Hl2 & Hw2). apply wp_bind. eapply wp_mono.
  { apply (fill_loop _ 1024 n (fun page => Some (window_page page))); [lia..| |].
    - intros k v [=<-] Hk. unfold window_page.
      destruct (k =? fine); apply entry_fits; try done; lia.
    - intros k s' Hk Hs'. apply window_page_fills; lia. }
  intros s3 r (-> & Hl3 & Hw3). apply wp_bind. eapply wp_mono.
  { apply (fill_loop _ (512 * (2 + num_pd)) 512 window_leaf); [lia..| |].
    - intros k v Hv Hk. unfold window_leaf in Hv. case_bool_decide; simplify_eq.
      apply entry_fits; [lia|done].
    - intros k s' Hk Hs'. apply window_leaf_fills; lia. }
  intros s4 r (-> & Hl4 & Hw4). apply wp_ret. split; [do 2 f_equal; lia|]. split; [lia|]. intros a Ha.
  rewrite Hw4 by done. apply filled_ext. rewrite Hw3 by done. apply filled_ext.
  rewrite Hw2 by done. apply filled_ext. auto.
Qed.
End build_window.

Lemma build_window_rejects base bytes_ fine guards buf :
  0 <= bytes_ -> window_valid base bytes_ fine guards (len buf) = false ->
  exists e, build_identity_npt_2mib_with_4kib_window base bytes_ fine guards buf = (buf, Err e).
Proof.
  unfold window_valid, build_identity_npt_2mib_with_4kib_window. intros Hby.
  set (n := div_ceil bytes_ HUGE_2MIB). change TABLE_ENTRIES with 512. set (num_pd := div_ceil n 512).
  rewrite tst_page.
  destruct (Z.eqb_spec bytes_ 0); cbn [negb andb]; [by eauto|].
  destruct (Z.eqb_spec (base mod 4096) 0); cbn [negb andb]; [|by eauto].
  destruct (Z.leb_spec num_pd 512), (Z.ltb_spec 512 num_pd); try lia; cbn [andb]; [|by eauto].
  destruct (Z.ltb_spec fine n), (Z.leb_spec n fine); try lia; cbn [andb]; [|by eauto].
  pose proof (check_loop 512 (fun g => GuardPageOutOfRange g 512) guards buf) as Hck.
  unfold mbind at 1, M_bind at 1. destruct (forallb _ guards); cbn [andb].
  2: { destruct Hck as [err E]. rewrite E. by eauto. }
  rewrite Hck. intros Hlen%Z.leb_gt.
  assert (0 <= num_pd) by (destruct (div_ceil_spec bytes_ HUGE_2MIB); [done|lia|];
    destruct (div_ceil_spec n 512); unfold num_pd; subst n; lia).
  destruct (claim_tables_err (2 + num_pd + 1) buf) as [err E]; [lia..|].
  exists err. unfold mbind at 1, M_bind. by rewrite E.
Qed.

Lemma build_window_translate base bytes_ fine guards buf buf' :
  0 <= base -> base + len buf' <= 2 ^ 52 -> 0 <= bytes_ -> 0 <= fine ->
  window_valid base bytes_ fine guards (len buf') = true ->
  (forall a, 0 <= a -> word buf' a = words_window base bytes_ fine guards buf a) ->
  npt_wf base buf' /\ forall g, 0 <= g < 2 ^ 48 ->
    translate_npt buf' base g = huge_image 0 (div_ceil bytes_ HUGE_2MIB) (Some fine) guards g.
Proof.
  intros Hb Hp Hby Hf Hv Hw. unfold window_valid in Hv. breflect. destruct_and?.
  destruct (div_ceil_spec bytes_ HUGE_2MIB) as [Hn0 Hn1]; [done|lia|].
  set (n := div_ceil bytes_ HUGE_2MIB) in *.
  destruct (div_ceil_spec n 512) as [Hp0 Hp1]; [lia..|]. set (num_pd := div_ceil n 512) in *.
  assert (2 ^ 18 * 2 ^ 21 <= 2 ^ 52) by done.
  assert (H' : Tables base buf' (huge_role num_pd (Some fine)) /\
    (forall k i, 0 <= k < num_pd -> 0 <= i < 512 ->
       ent buf' (2 + k) i = pd_slot base 0 num_pd n (Some fine) (512 * k + i)) /\
    forall g, 0 <= g < 2 ^ 48 -> translate_npt buf' base g = huge_image 0 n (Some fine) guards g);
    [|destruct H' as (T & _ & Ht); split; [by eexists|exact Ht]].
  apply (huge_layout_ok base 0 num_pd n (Some fine) guards buf'); try (done || lia);
    try (intros ? [=<-]; lia); intros; rewrite (ent_words _ _ _ _ Hw) by lia; unfold words_window; fold n num_pd.
  - rewrite !filled_out by lia. replace (512 * 0 + i) with i by lia. zcases; (done || lia).
  - rewrite (filled_out (512 * _)), (filled_out 1024) by lia. destruct (Z.ltb_spec i num_pd).
    + rewrite filled_in by lia. cbn. unfold table_entry. do 2 f_equal. lia.
    + rewrite filled_out by lia. cbv beta. zcases; (done || lia).
  - rewrite (filled_out (512 * _)) by lia. unfold pd_slot. destruct (Z.ltb_spec (512 * k + i) n).
    + rewrite filled_in by lia. cbn. unfold window_page. fold n num_pd.
      replace (512 * (2 + k) + i - 1024) with (512 * k + i) by lia.
      case_bool_decide; destruct (Z.eqb_spec (512 * k + i) fine); try congruence.
      * unfold table_entry. do 2 f_equal. lia.
      * done.
    + rewrite !filled_out by lia. case_bool_decide; simplify_eq; [lia|]. cbv beta. zcases; (done || lia).
  - match goal with H : Some fine = Some f |- _ => injection H as <- end.
    rewrite filled_in by lia. unfold window_leaf, window_slot.
    replace (512 * (2 + num_pd) + i - 512 * (2 + num_pd)) with i by lia.
    case_bool_decide; cbn.
    + rewrite !filled_out by lia. cbv beta. zcases; (done || lia).
    + done.
Qed.

(** The 2 MiB map with a 4 KiB window identity-maps every address below
    its (2 MiB-rounded) size except the guard pages of the window, and nothing
    else; rejected arguments leave the buffer untouched. *)
Theorem npt_build_window_correct base bytes_ fine guards buf :
  0 <= base -> base + len buf <= 2 ^ 52 -> 0 <= bytes_ -> 0 <= fine ->
  let num_pd := div_ceil (div_ceil bytes_ HUGE_2MIB) 512 in
  if window_valid base bytes_ fine guards (len buf)
  then exists buf',
    build_identity_npt_2mib_with_4kib_window base bytes_ fine guards buf =
      (buf', Ok (mk_NptLayout base (3 + num_pd) (4096 * (3 + num_pd)))) /\
    len buf' = len buf /\ npt_wf base buf' /\
    forall g, 0 <= g < 2 ^ 48 -> translate_npt buf' base g =
      if (g <? div_ceil bytes_ HUGE_2MIB * 2 ^ 21) &&
         negb (bool_decide (g / 2 ^ 21 = fine /\ g / 4096 mod 512 ∈ guards))
      then Some g else None
  else exists e, build_identity_npt_2mib_with_4kib_window base bytes_ fine guards buf = (buf, Err e).
Proof.
  intros Hb Hp Hby Hf num_pd. destruct (window_valid _ _ _ _ _) eqn:Hv; [|by apply build_window_rejects].
  pose proof (build_window_run base bytes_ fine guards buf Hb Hp Hby Hf Hv) as Hrun. unfold wp in Hrun.
  destruct (build_identity_npt_2mib_with_4kib_window base bytes_ fine guards buf) as [buf' r].
  cbn in Hrun. destruct Hrun as (-> & Hl & Hw).
  destruct (build_window_translate base bytes_ fine guards buf buf') as [Hwf Ht]; try (rewrite ?Hl; done).
  exists buf'. do 3 (split; [done|]). intros g Hg. rewrite Ht by done.
  unfold huge_image. destruct (g <? _); [|done]. cbn [andb].
  change (idx 3 g) with (g / 4096 mod 512). change (pfx 3 g) with (g / 2 ^ 21).
  rewrite (bool_decide_ext (Some fine = Some (g / 2 ^ 21) /\ _) (g / 2 ^ 21 = fine /\ g / 4096 mod 512 ∈ guards)).
  - by case_bool_decide.
  - by split; intros [? ?]; split; congruence.
Qed.

Lemma npt_build_window_correct_witness :
  exists buf', build_identity_npt_2mib_with_4kib_window 0 0x400000 1 [3] (zeros 16384) =
                 (buf', Ok (mk_NptLayout 0 4 16384)) /\
    translate_npt buf' 0 0x202468 = Some 0x202468 /\ translate_npt buf' 0 0x203468 = None.
Proof.
  pose proof (npt_build_window_correct 0 0x400000 1 [3] (zeros 16384) ltac:(lia)
    ltac:(by rewrite len_zeros) ltac:(lia) ltac:(lia)) as H.
  rewrite len_zeros in H by lia.
  destruct H as (buf' & E & _ & _ & Ht). exists buf'. split; [exact E|].
  split; rewrite Ht by lia; reflexivity.
Defined.

(** ** The 4 KiB layout *)

Section small_layout.
Context (pb num_pt n : Z) (guards : list Z) (buf : buffer).
Context (Hpb : 0 <= pb) (Hal : pb mod 4096 = 0) (Hphys : pb + len buf <= 2 ^ 52).
Context (Hpt : 0 < num_pt <= 512) (Hn : 0 < n <= 512 * num_pt) (Hlen : 4096 * (3 + num_pt) <= len buf).

Definition pt_slot (page : Z) : Z :=
  if (page <? n) && negb (bool_decide (page ∈ guards))
  then ((page * 4096) .& ADDR_MASK) .| table_flags else 0.

Context (Hw0 : forall i, 0 <= i < 512 -> ent buf 0 i = if i =? 0 then table_entry pb 1 else 0).
Context (Hw1 : forall i, 0 <= i < 512 -> ent buf 1 i = if i =? 0 then table_entry pb 2 else 0).
Context (Hw2 : forall i, 0 <= i < 512 -> ent buf 2 i = if i <? num_pt then table_entry pb (3 + i) else 0).
Context (Hw3 : forall k i, 0 <= k < num_pt -> 0 <= i < 512 -> ent buf (3 + k) i = pt_slot (512 * k + i)).

Definition small_role : roles := fun t =>
  if (0 <=? t) && (t <? 3) then Some (t, 0)
  else if (3 <=? t) && (t <? 3 + num_pt) then Some (3, t - 3) else None.

Lemma small_role_cases t l p :
  small_role t = Some (l, p) <->
  (0 <= t < 3 /\ l = t /\ p = 0) \/ (3 <= t < 3 + num_pt /\ l = 3 /\ p = t - 3).
Proof.
  unfold small_role. destruct (Z.leb_spec 0 t), (Z.ltb_spec t 3), (Z.leb_spec 3 t), (Z.ltb_spec t (3 + num_pt));
    cbn; try lia; (split; [intros [=]; lia|intros; repeat (f_equal; try lia)]).
Qed.

Lemma small_layout_tables : Tables pb buf small_role.
Proof.
  apply Tables_layout; try done.
  - intros t l p H%small_role_cases. unfold in_buf. lia.
  - intros t t' [l p] H1%small_role_cases H2%small_role_cases. lia.
  - intros c l q Hc%small_role_cases Hl. exists (l - 1). apply small_role_cases.
    assert (q / 512 = 0) as -> by (apply Z.div_small; lia). lia.
  - intros t l p i Ht%small_role_cases Hl Hi. destruct Ht as [(Ht & -> & ->)|]; [|lia].
    assert (t = 0 \/ t = 1 \/ t = 2) as [->|[->| ->]] by lia.
    + rewrite Hw0 by done. destruct (Z.eqb_spec i 0) as [->|].
      * left. exists 1. split; [apply small_role_cases; lia|done].
      * right. split; [intros c Hc%small_role_cases; lia|by rewrite Z.testbit_0_l].
    + rewrite Hw1 by done. destruct (Z.eqb_spec i 0) as [->|].
      * left. exists 2. split; [apply small_role_cases; lia|done].
      * right. split; [intros c Hc%small_role_cases; lia|by rewrite Z.testbit_0_l].
    + rewrite Hw2 by done. destruct (Z.ltb_spec i num_pt).
      * left. exists (3 + i). split; [apply small_role_cases; lia|done].
      * right. split; [intros c Hc%small_role_cases; lia|by rewrite Z.testbit_0_l].
Qed.

Lemma small_layout_translate g :
  0 <= g < 2 ^ 48 ->
  translate_npt buf pb g =
    if (g <? n * 4096) && negb (bool_decide (g / 4096 ∈ guards)) then Some g else None.
Proof.
  intros Hg. pose proof small_layout_tables as T. pose proof (idx_range 3 g) as Hi3.
  pose proof (pfx_step 3 g ltac:(lia)) as E4. change (3 + 1) with 4 in E4.
  pose proof (pfx_mod_page g) as Eg. pose proof (Z.mod_pos_bound g 4096 ltac:(lia)) as Hmod.
  assert (Hp3 : 0 <= pfx 3 g) by (apply Z.div_pos; [lia|done]).
  change (g / 4096) with (pfx 4 g).
  destruct (Z.lt_ge_cases (pfx 3 g) num_pt) as [Hin|Hout].
  - assert (Hrole : small_role (3 + pfx 3 g) = Some (3, pfx 3 g)) by (apply small_role_cases; lia).
    pose proof (Hw3 (pfx 3 g) (idx 3 g) ltac:(lia) Hi3) as He.
    replace (512 * pfx 3 g + idx 3 g) with (pfx 4 g) in He by lia. unfold pt_slot in He.
    assert (Hlt : (g <? n * 4096) = (pfx 4 g <? n)) by (zcases; (done || lia)).
    rewrite Hlt. destruct (_ && _).
    + rewrite (translate_small _ _ _ T g _ _ _ Hg Hrole He);
        [f_equal; lia|done|done|unfold fits; lia|by apply Z.mod_mul].
    + apply (translate_absent _ _ _ T 3 g (3 + pfx 3 g)); [done|lia|done|]. by rewrite He, Z.testbit_0_l.
  - destruct (Z.ltb_spec g (n * 4096)); [lia|]. cbn [andb].
    destruct (Z.eq_dec (pfx 2 g) 0) as [E2|Hne].
    + apply (translate_absent _ _ _ T 2 g 2); [done|lia|apply small_role_cases; lia|].
      pose proof (pfx_step 2 g ltac:(lia)). pose proof (idx_range 2 g). change (2 + 1) with 3 in *.
      rewrite Hw2 by done. destruct (Z.ltb_spec (idx 2 g) num_pt); [lia|by rewrite Z.testbit_0_l].
    + destruct (translate_cases _ _ _ T g Hg) as [(t & Ht & _)|[(t & Ht & _)|(_ & _ & E)]]; [..|done];
        apply small_role_cases in Ht; lia.
Qed.

Lemma small_layout_ok :
  Tables pb buf small_role /\
  (forall k i, 0 <= k < num_pt -> 0 <= i < 512 -> ent buf (3 + k) i = pt_slot (512 * k + i)) /\
  forall g, 0 <= g < 2 ^ 48 -> translate_npt buf pb g =
    if (g <? n * 4096) && negb (bool_decide (g / 4096 ∈ guards)) then Some g else None.
Proof. split; [apply small_layout_tables|]. split; [exact Hw3|exact small_layout_translate]. Qed.
End small_layout.

Definition build_4kib_valid (base num_pages : Z) (guards : list Z) (buflen : Z) : bool :=
  negb (num_pages =? 0) && (base mod 4096 =? 0) && forallb (fun g => g <? num_pages) guards &&
  (div_ceil num_pages 512 <=? 512) && (4096 * (3 + div_ceil num_pages 512) <=? buflen).

Section build_4kib.
Context (base n : Z) (guards : list Z) (buf : buffer).
Context (Hb : 0 <= base) (Hphys : base + len buf <= 2 ^ 52) (Hn : 0 <= n).
Let num_pt := div_ceil n 512.

Definition leaf_4kib (page : Z) : option Z :=
  if bool_decide (page ∈ guards) then None
  else Some (((page * PAGE_SIZE) .& ADDR_MASK) .| table_flags).

(** The words the builder leaves. *)
Definition words_4kib : Z -> Z :=
  filled 1536 n leaf_4kib
    (filled 1024 num_pt (fun k => Some (((base + 3 * PAGE_SIZE + k * PAGE_SIZE) .& ADDR_MASK) .| table_flags))
       (fun a => if a =? 512 then ((base + 2 * PAGE_SIZE) .& ADDR_MASK) .| table_flags
                 else if a =? 0 then ((base + PAGE_SIZE) .& ADDR_MASK) .| table_flags
                 else if a <? 512 * (3 + num_pt) then 0 else word buf a)).

Lemma leaf_4kib_fills k s :
  0 <= k < n -> 8 * (1536 + n) <= len s ->
  fills 1536 k (leaf_4kib k)
    (if bool_decide (k ∈ guards) then mret tt
     else write_entry (3 * 4096 + k / 512 * 4096 + k mod 512 * 8)
            (((k * PAGE_SIZE) .& ADDR_MASK) .| table_flags)) s.
Proof.
  intros Hk Hs. pose proof (page_slot 3 k) as E. change (512 * 3) with 1536 in E.
  change (1536 * 8) with (3 * 4096) in E. rewrite E. unfold fills, leaf_4kib.
  case_bool_decide; [done|]. apply store_word; lia.
Qed.

Lemma build_4kib_run :
  build_4kib_valid base n guards (len buf) = true ->
  wp (build_identity_npt_4kib base n guards) (fun buf' r =>
    r = Ok (mk_NptLayout base (3 + num_pt) (4096 * (3 + num_pt))) /\
    len buf' = len buf /\ forall a, 0 <= a -> word buf' a = words_4kib a) buf.
Proof.
  unfold build_4kib_valid. fold num_pt. intros Hv. breflect. destruct_and?.
  destruct (div_ceil_spec n 512) as [Hp0 Hp1]; [lia..|]. fold num_pt in Hp0, Hp1.
  assert (2 ^ 52 + 2 ^ 30 < 2 ^ 64) by done.
  unfold build_identity_npt_4kib. change TABLE_ENTRIES with 512. fold num_pt. rewrite tst_page.
  destruct (Z.eqb_spec n 0), (Z.eqb_spec (base mod 4096) 0); try lia. cbn [negb].
  apply wp_bind. pose proof (check_loop n (fun g => GuardPageOutOfRange g n) guards buf) as Hck.
  destruct (forallb _ guards); [|done]. eapply wp_eq; [exact Hck|]. cbv beta iota zeta.
  destruct (Z.ltb_spec 512 num_pt); [lia|].
  apply wp_bind. eapply wp_mono; [apply claim_tables_spec; lia|]. intros s0 r (-> & Hl0 & Hw0).
  do 3 (apply wp_bind, wp_uadd; [lia|]).
  apply wp_bind. eapply wp_eq; [apply (store_word s0 0); lia|]. cbv beta iota.
  apply wp_bind. eapply wp_eq; [apply (store_word _ 512); rewrite ?len_put_u64; lia|]. cbv beta iota.
  set (s1 := put_u64 _ _ _). assert (Hl1 : len s1 = len buf) by (unfold s1; by rewrite !len_put_u64).
  assert (Hw1 : forall a, 0 <= a -> word s1 a =
    if a =? 512 then ((base + 2 * PAGE_SIZE) .& ADDR_MASK) .| table_flags
    else if a =? 0 then ((base + PAGE_SIZE) .& ADDR_MASK) .| table_flags
    else if a <? 512 * (3 + num_pt) then 0 else word buf a).
  { intros a Ha. unfold s1. rewrite (word_put _ 512), (word_put s0 0) by (rewrite ?len_put_u64; lia).
    rewrite (Z.eqb_sym 0 a), (Z.eqb_sym 512 a), !Z.mod_small by (apply entry_fits; [lia|done]).
    destruct (a =? 512), (a =? 0); by rewrite ?Hw0. }
  clearbody s1. apply wp_bind. eapply wp_mono.
  { apply (fill_loop _ 1024 num_pt
      (fun k => Some (((base + 3 * PAGE_SIZE + k * PAGE_SIZE) .& ADDR_MASK) .| table_flags))); [lia..| |].
    - intros k v [=<-] Hk. apply entry_fits; [lia|done].
    - intros k s' Hk Hs'. apply fills_entry; lia. }
  intros s2 r (-> & Hl2 & Hw2). apply wp_bind. eapply wp_mono.
  { apply (fill_loop _ 1536 n leaf_4kib); [lia..| |].
    - intros k v Hv Hk. unfold leaf_4kib in Hv. case_bool_decide; simplify_eq.
      apply entry_fits; [lia|done].
    - intros k s' Hk Hs'. apply leaf_4kib_fills; lia. }
  intros s3 r (-> & Hl3 & Hw3). apply wp_ret. split; [done|]. split; [lia|]. intros a Ha.
  rewrite Hw3 by done. apply filled_ext. rewrite Hw2 by done. apply filled_ext. auto.
Qed.
End build_4kib.

Lemma build_4kib_rejects base n guards buf :
  0 <= n -> build_4kib_valid base n guards (len buf) = false ->
  exists e, build_identity_npt_4kib base n guards buf = (buf, Err e).
Proof.
  unfold build_4kib_valid, build_identity_npt_4kib. intros Hn. change TABLE_ENTRIES with 512.
  set (num_pt := div_ceil n 512). rewrite tst_page.
  destruct (Z.eqb_spec n 0); cbn [negb andb]; [by eauto|].
  destruct (Z.eqb_spec (base mod 4096) 0); cbn [negb andb]; [|by eauto].
  pose proof (check_loop n (fun g => GuardPageOutOfRange g n) guards buf) as Hck.
  unfold mbind at 1, M_bind at 1. destruct (forallb _ guards); cbn [andb].
  2: { destruct Hck as [err E]. rewrite E. by eauto. }
  rewrite Hck. destruct (Z.leb_spec num_pt 512), (Z.ltb_spec 512 num_pt); try lia; cbn [andb]; [|by eauto].
  intros Hlen%Z.leb_gt. destruct (div_ceil_spec n 512) as [Hp0 _]; [lia..|]. fold num_pt in Hp0.
  destruct (claim_tables_err (3 + num_pt) buf) as [err E]; [lia..|].
  exists err. unfold mbind at 1, M_bind. by rewrite E.
Qed.

Lemma build_4kib_translate base n guards buf buf' :
  0 <= base -> base + len buf' <= 2 ^ 52 -> 0 <= n ->
  build_4kib_valid base n guards (len buf') = true ->
  (forall a, 0 <= a -> word buf' a = words_4kib base n guards buf a) ->
  let num_pt := div_ceil n 512 in
  Tables base buf' (small_role num_pt) /\
  (forall k i, 0 <= k < num_pt -> 0 <= i < 512 -> ent buf' (3 + k) i = pt_slot n guards (512 * k + i)) /\
  forall g, 0 <= g < 2 ^ 48 -> translate_npt buf' base g =
    if (g <? n * 4096) && negb (bool_decide (g / 4096 ∈ guards)) then Some g else None.
Proof.
  intros Hb Hp Hn Hv Hw num_pt. unfold build_4kib_valid in Hv. breflect. destruct_and?.
  destruct (div_ceil_spec n 512) as [Hp0 Hp1]; [lia..|]. fold num_pt in Hp0, Hp1.
  apply (small_layout_ok base num_pt n guards buf'); try (done || lia);
    intros; rewrite (ent_words _ _ _ _ Hw) by lia; unfold words_4kib; fold num_pt.
  - rewrite !filled_out by lia. replace (512 * 0 + i) with i by lia. zcases; (done || lia).
  - rewrite !filled_out by lia. zcases; (done || lia).
  - rewrite (filled_out 1536) by lia. destruct (Z.ltb_spec i num_pt).
    + rewrite filled_in by lia. cbn. unfold table_entry. do 2 f_equal. lia.
    + rewrite filled_out by lia. zcases; (done || lia).
  - unfold pt_slot. destruct (Z.ltb_spec (512 * k + i) n); cbn [andb].
    + rewrite filled_in by lia. unfold leaf_4kib.
      replace (512 * (3 + k) + i - 1536) with (512 * k + i) by lia. case_bool_decide; cbn; [|done].
      rewrite filled_out by lia. zcases; (done || lia).
    + rewrite !filled_out by lia. zcases; (done || lia).
Qed.

(** The 4 KiB builder identity-maps exactly the pages below [num_pages]
    that are not guard pages; rejected arguments leave the buffer untouched. *)
Theorem npt_build_4kib_correct base n guards buf :
  0 <= base -> base + len buf <= 2 ^ 52 -> 0 <= n ->
  let num_pt := div_ceil n 512 in
  if build_4kib_valid base n guards (len buf)
  then exists buf',
    build_identity_npt_4kib base n guards buf =
      (buf', Ok (mk_NptLayout base (3 + num_pt) (4096 * (3 + num_pt)))) /\
    len buf' = len buf /\ npt_wf base buf' /\
    forall g, 0 <= g < 2 ^ 48 -> translate_npt buf' base g =
      if (g <? n * 4096) && negb (bool_decide (g / 4096 ∈ guards)) then Some g else None
  else exists e, build_identity_npt_4kib base n guards buf = (buf, Err e).
Proof.
  intros Hb Hp Hn num_pt. destruct (build_4kib_valid _ _ _ _) eqn:Hv; [|by apply build_4kib_rejects].
  pose proof (build_4kib_run base n guards buf Hb Hp Hn Hv) as Hrun. unfold wp in Hrun.
  destruct (build_identity_npt_4kib base n guards buf) as [buf' r]. cbn in Hrun.
  destruct Hrun as (-> & Hl & Hw). exists buf'. do 2 (split; [done|]).
  destruct (build_4kib_translate base n guards buf buf') as (T & _ & Ht); [rewrite ?Hl; done..|].
  split; [by exists (small_role num_pt)|exact Ht].
Qed.

Lemma npt_build_4kib_correct_witness :
  exists buf', build_identity_npt_4kib 0x1000 16 [5] (zeros 16384) =
                 (buf', Ok (mk_NptLayout 0x1000 4 16384)) /\
    translate_npt buf' 0x1000 0x4567 = Some 0x4567 /\ translate_npt buf' 0x1000 0x5567 = None.
Proof.
  pose proof (npt_build_4kib_correct 0x1000 16 [5] (zeros 16384) ltac:(lia)
    ltac:(by rewrite len_zeros) ltac:(lia)) as H.
  rewrite len_zeros in H by lia.
  destruct H as (buf' & E & _ & _ & Ht). exists buf'. split; [exact E|].
  split; rewrite Ht by lia; reflexivity.
Defined.
