(* ===== verification/NptEdit.v ===== *)
(** * Editing built page tables (enlil-hal/src/npt.rs)

    The walks the editors share, the 4 KiB leaf editors and the range editors
    built from them, over an arbitrary well-formed hierarchy. *)

From Stdlib Require Import ZArith Lia Bool.
From stdpp Require Import base decidable list numbers.
From S2P Require Import Prelude Rust Npt NptTables NptBuild.

(** ** Walks of the editors *)

Section walks.
Context (pb : Z) (buf : buffer) (role : roles) (T : Tables pb buf role).
Context (gpa : Z) (Hg : 0 <= gpa < 2 ^ 48).

(** Two reads lead to the PD, or fail because there is none. *)
Lemma wp_walk_pd {A} (k : Z -> npt A) Q :
  (forall t, role t = Some (2, pfx 2 gpa) -> wp (k (4096 * t)) Q buf) ->
  ((forall t, role t <> Some (2, pfx 2 gpa)) -> Q buf (Err IntermediateNotPresent)) ->
  wp (pdpt_off ← reads (fun b => child_offset b pb 0 (pml4_i gpa));
      pd_off ← reads (fun b => child_offset b pb pdpt_off (pdpt_i gpa)); k pd_off) Q buf.
Proof.
  intros Hk He. pose proof (root_role _ _ _ T gpa Hg) as H0. rewrite pml4_i_idx, pdpt_i_idx.
  destruct (walk_step _ _ _ T 0 gpa 0 H0 ltac:(lia)) as [(_ & E & Hn)|[(? & _)|(tp & _ & E & Htp)]];
    [|lia|]; change (4096 * 0) with 0 in E; apply wp_bind; (eapply wp_eq; [unfold reads; by rewrite E|]);
    cbv beta iota.
  { apply He. by apply (no_role_down _ _ _ T 1); [lia..|]. }
  apply wp_bind. destruct (walk_step _ _ _ T 1 gpa tp Htp ltac:(lia))
    as [(_ & E' & Hn)|[(? & _)|(t & _ & E' & Ht)]]; [|lia|];
    (eapply wp_eq; [unfold reads; by rewrite E'|]); cbv beta iota; auto.
Qed.

(** A third read leads to the PT, or fails on an absent entry or a huge page. *)
Lemma wp_walk_pt {A} (k : Z -> npt A) Q :
  (forall c, role c = Some (3, pfx 3 gpa) -> wp (k (4096 * c)) Q buf) ->
  ((forall c, role c <> Some (3, pfx 3 gpa)) ->
     forall e, e = IntermediateNotPresent \/ e = HugePageOnPath -> Q buf (Err e)) ->
  wp (pdpt_off ← reads (fun b => child_offset b pb 0 (pml4_i gpa));
      pd_off ← reads (fun b => child_offset b pb pdpt_off (pdpt_i gpa));
      table_off ← reads (fun b => child_offset b pb pd_off (pd_i gpa)); k table_off) Q buf.
Proof.
  intros Hk He. apply (wp_walk_pd (fun pd_off => table_off ← reads (fun b => child_offset b pb pd_off (pd_i gpa)); k table_off)).
  2: { intros Hn. apply He; [by apply (no_role_down _ _ _ T 2); [lia..|]|by left]. }
  intros t Ht. rewrite pd_i_idx. apply wp_bind. pose proof (idx_range 2 gpa) as Hi.
  destruct (tb_in _ _ _ T _ _ _ Ht) as (Hin & _).
  destruct (walk_step _ _ _ T 2 gpa t Ht ltac:(lia))
    as [(_ & E & Hn)|[(_ & Hp & Hh & Hn)|(c & _ & E & Hc)]].
  - eapply wp_eq; [unfold reads; by rewrite E|]. cbv beta iota. auto.
  - eapply wp_eq.
    { unfold reads, child_offset. rewrite read_entry_ent by done. cbn.
      rewrite tst_PRESENT, tst_HUGE, Hp, Hh. reflexivity. }
    cbn. auto.
  - eapply wp_eq; [unfold reads; by rewrite E|]. cbv beta iota. auto.
Qed.
End walks.

(** ** Edits of one entry and of a range of 4 KiB entries *)

(** Entry [i] of table [c] becomes [v]; every other entry of a table is kept. *)
Definition slot_upd (role : roles) (buf buf' : buffer) (c i v : Z) : Prop :=
  len buf' = len buf /\
  forall t j, role t <> None -> 0 <= j < 512 ->
    ent buf' t j = if bool_decide ((t, j) = (c, i)) then v else ent buf t j.

Lemma slot_upd_put pb buf role c x i v :
  Tables pb buf role -> role c = Some x -> 0 <= i < 512 -> fits 64 v ->
  slot_upd role buf (put_u64 buf (4096 * c + i * 8) v) c i v.
Proof.
  intros T Hc Hi Hv. split; [apply len_put_u64|]. intros t j Ht Hj.
  destruct x as [l p]. destruct (tb_in _ _ _ T _ _ _ Hc) as (Hin & _).
  destruct (role t) as [[l' p']|] eqn:Et; [|done]. destruct (tb_in _ _ _ T _ _ _ Et) as ([? _] & _).
  by apply ent_put.
Qed.

(** The buffer holds bytes. *)
Definition bytes_ok (buf : buffer) : Prop := Forall (fits 8) buf.

Lemma word_fits buf a : bytes_ok buf -> fits 64 (word buf a).
Proof.
  intros Hb. unfold word, get_u64. set (l := take 8 _).
  assert (Hl : Forall (fits 8) l) by (by apply Forall_take, Forall_drop).
  pose proof (le_value_fits l Hl) as H.
  assert (256 ^ Z.of_nat (length l) <= 256 ^ 8).
  { apply Z.pow_le_mono_r; [lia|]. unfold l. rewrite length_take. lia. }
  unfold fits. change (2 ^ 64) with (256 ^ 8). lia.
Qed.

Lemma bytes_ok_put buf off v : bytes_ok buf -> bytes_ok (put_u64 buf off v).
Proof. intros. apply inserts_fits; [apply le_bytes_fits|done]. Qed.

Lemma bytes_ok_zero buf a b : bytes_ok buf -> bytes_ok (zero_range buf a b).
Proof. intros. unfold bytes_ok. rewrite zero_range_inserts. apply inserts_fits; [by apply Forall_replicate|done]. Qed.

Lemma bytes_ok_zeros n : bytes_ok (zeros n).
Proof. by apply Forall_replicate. Qed.

(** Computations that keep a buffer of bytes one. *)
Definition byte_safe {A} (f : npt A) : Prop := forall s, bytes_ok s -> bytes_ok (f s).1.

Lemma byte_safe_bind {A B} (f : npt A) (k : A -> npt B) :
  byte_safe f -> (forall a, byte_safe (k a)) -> byte_safe (f ≫= k).
Proof.
  intros Hf Hk s Hs. unfold mbind, M_bind. specialize (Hf s Hs).
  destruct (f s) as [s' [a|e|]]; [by apply Hk|done..].
Qed.

Lemma byte_safe_mfor {A} (l : list A) (f : A -> npt unit) :
  (forall x, byte_safe (f x)) -> byte_safe (mfor l f).
Proof. intros Hf. induction l as [|x l IH]; cbn [mfor]; [by intros s|]. by apply byte_safe_bind. Qed.

Lemma byte_safe_reads {A} (f : buffer -> res NptError A) : byte_safe (reads f).
Proof. by intros s. Qed.

Lemma byte_safe_ret {A} (a : A) : byte_safe (mret a).
Proof. by intros s. Qed.

Lemma byte_safe_fail {A} e : byte_safe (@fail _ _ A e).
Proof. by intros s. Qed.

Lemma byte_safe_uadd a b : byte_safe (uadd a b).
Proof. intros s Hs. unfold uadd. by destruct (_ <? _). Qed.

Lemma byte_safe_write off v : byte_safe (write_entry off v).
Proof. intros s Hs. unfold write_entry, store_u64. destruct (_ <=? _); [by apply bytes_ok_put|done]. Qed.

Lemma byte_safe_zero a b : byte_safe (zero_bytes a b).
Proof. intros s Hs. unfold zero_bytes. destruct (_ && _); [by apply bytes_ok_zero|done]. Qed.

Create HintDb bytes.
#[export] Hint Resolve byte_safe_bind byte_safe_mfor byte_safe_reads byte_safe_ret byte_safe_fail
  byte_safe_uadd byte_safe_write byte_safe_zero : bytes.

(** Walk a computation down to its writes. *)
Ltac byte_safe :=
  repeat (intros; match goal with
  | |- byte_safe (_ ≫= _) => apply byte_safe_bind
  | |- byte_safe (if ?b then _ else _) => destruct b
  | |- byte_safe _ => solve [auto with bytes] || apply byte_safe_mfor
  end).

Lemma build_4kib_byte_safe base n guards : byte_safe (build_identity_npt_4kib base n guards).
Proof. unfold build_identity_npt_4kib, claim_tables. cbv zeta. byte_safe. Qed.

Lemma build_2mib_byte_safe base spa n : byte_safe (build_npt_2mib base spa n).
Proof. unfold build_npt_2mib, claim_tables. cbv zeta. byte_safe. Qed.

(** An editor of 4 KiB entries: it applies [upd] to the entry of the page when
    [cond] accepts it, and otherwise fails without a change. *)
Definition edits_leaf (pb : Z) (edit : Z -> npt unit) (cond : Z -> bool) (upd : Z -> Z) : Prop :=
  forall buf role gpa, Tables pb buf role -> 0 <= gpa < 2 ^ 48 -> gpa mod 4096 = 0 ->
  bytes_ok buf ->
  wp (edit gpa) (fun buf' r =>
    (exists c, r = Ok tt /\ role c = Some (3, pfx 3 gpa) /\
       cond (ent buf c (idx 3 gpa)) = true /\
       bytes_ok buf' /\ slot_upd role buf buf' c (idx 3 gpa) (upd (ent buf c (idx 3 gpa)))) \/
    (buf' = buf /\ (exists e, r = Err e) /\
     forall c, role c = Some (3, pfx 3 gpa) -> cond (ent buf c (idx 3 gpa)) = false)) buf.

Lemma set_flag_fits e f b : fits 64 e -> fits 64 f -> fits 64 (set_flag e f b).
Proof. intros. destruct b; cbn; auto with word. Qed.

Lemma set_present_edits pb present :
  edits_leaf pb (fun gpa => set_npt_4kib_leaf_present pb gpa present)
    (fun e => negb (e .&~ PRESENT =? 0)) (fun e => set_flag e PRESENT present).
Proof.
  intros buf role gpa T Hg Ha Hb. unfold set_npt_4kib_leaf_present.
  rewrite tst_page, Ha. cbn [negb Z.eqb]. apply (wp_walk_pt pb buf role T gpa Hg).
  2: { intros Hn e _. right. split; [done|]. split; [by eauto|]. intros c Hc. by apply Hn in Hc. }
  intros c Hc. pose proof (idx_range 3 gpa) as Hi. destruct (tb_in _ _ _ T _ _ _ Hc) as (Hin & _).
  rewrite leaf_i_idx. cbv zeta. apply wp_bind. eapply wp_eq; [unfold reads; by rewrite read_entry_ent|].
  cbv beta iota. destruct (Z.eqb_spec (ent buf c (idx 3 gpa) .&~ PRESENT) 0) as [E|E].
  - right. split; [done|]. split; [by eauto|]. intros c' Hc'.
    rewrite (role_eq _ _ _ T _ _ _ Hc' Hc), E. done.
  - eapply wp_eq; [by rewrite write_entry_ok|]. left. exists c. split_and!; try done.
    + by apply negb_true_iff, Z.eqb_neq.
    + by apply bytes_ok_put.
    + eapply slot_upd_put; try done. apply set_flag_fits; [by apply word_fits|done].
Qed.

Lemma set_writable_edits pb writable :
  edits_leaf pb (fun gpa => set_npt_4kib_leaf_writable pb gpa writable)
    (fun e => Z.testbit e 0) (fun e => set_flag e WRITABLE writable).
Proof.
  intros buf role gpa T Hg Ha Hb. unfold set_npt_4kib_leaf_writable.
  rewrite tst_page, Ha. cbn [negb Z.eqb]. apply (wp_walk_pt pb buf role T gpa Hg).
  2: { intros Hn e _. right. split; [done|]. split; [by eauto|]. intros c Hc. by apply Hn in Hc. }
  intros c Hc. pose proof (idx_range 3 gpa) as Hi. destruct (tb_in _ _ _ T _ _ _ Hc) as (Hin & _).
  rewrite leaf_i_idx. cbv zeta. apply wp_bind. eapply wp_eq; [unfold reads; by rewrite read_entry_ent|].
  cbv beta iota. rewrite tst_PRESENT. destruct (Z.testbit (ent buf c (idx 3 gpa)) 0) eqn:E; cbn [negb].
  - eapply wp_eq; [by rewrite write_entry_ok|]. left. exists c. split_and!; try done.
    + by apply bytes_ok_put.
    + eapply slot_upd_put; try done. apply set_flag_fits; [by apply word_fits|done].
  - right. split; [done|]. split; [by eauto|]. intros c' Hc'.
    by rewrite (role_eq _ _ _ T _ _ _ Hc' Hc).
Qed.

(** The 4 KiB entries of the pages in [\[lo, hi)] are updated, nothing else. *)
Definition range_upd (role : roles) (buf buf' : buffer) (lo hi : Z) (upd : Z -> Z) : Prop :=
  len buf' = len buf /\
  forall t l p i, role t = Some (l, p) -> 0 <= i < 512 ->
    ent buf' t i =
      if (l =? 3) && (lo <=? (p * 512 + i) * 4096) && ((p * 512 + i) * 4096 <? hi)
      then upd (ent buf t i) else ent buf t i.

(** The entry of the page at [p] is one the editor accepts. *)
Definition accepts (role : roles) (buf : buffer) (cond : Z -> bool) (p : Z) : Prop :=
  exists c, role c = Some (3, pfx 3 p) /\ cond (ent buf c (idx 3 p)) = true.

Lemma slot_upd_tables pb role buf buf' c p i v :
  Tables pb buf role -> role c = Some (3, p) -> slot_upd role buf buf' c i v -> Tables pb buf' role.
Proof.
  intros T Hc [Hl He]. apply (Tables_leaves pb buf role T buf' Hl).
  intros t l q j Ht Hl3 Hj. left. rewrite He by (done || congruence).
  case_bool_decide as E; [|done]. injection E as -> ->. rewrite Hc in Ht. injection Ht as <- <-. lia.
Qed.

Lemma page_addr gpa : gpa mod 4096 = 0 -> gpa = (pfx 3 gpa * 512 + idx 3 gpa) * 4096.
Proof. intros Ha. rewrite <- (pfx_step 3) by lia. change (3 + 1) with 4. pose proof (pfx_mod_page gpa). lia. Qed.

(** A page of the range other than the first. *)
Lemma page_next lo a : a mod 4096 = 0 -> lo mod 4096 = 0 -> lo <= a -> a <> lo -> lo + 4096 <= a.
Proof. intros Ha Hl Hle Hne. pose proof (Z.div_mod a 4096 ltac:(lia)). pose proof (Z.div_mod lo 4096 ltac:(lia)). nia. Qed.

Section range.
Context (pb : Z) (role : roles) (edit : Z -> npt unit) (cond : Z -> bool) (upd : Z -> Z).
Hypothesis (Hedit : edits_leaf pb edit cond upd).

Lemma range_upd_step buf buf1 buf2 c gpa mid :
  Tables pb buf role -> gpa mod 4096 = 0 -> role c = Some (3, pfx 3 gpa) -> gpa + 4096 <= mid ->
  slot_upd role buf buf1 c (idx 3 gpa) (upd (ent buf c (idx 3 gpa))) ->
  range_upd role buf1 buf2 (gpa + 4096) mid upd -> range_upd role buf buf2 gpa mid upd.
Proof.
  intros T Ha Hc Hmid [Hl1 H1] [Hl2 H2]. split; [congruence|]. intros t l p i Ht Hi.
  rewrite (H2 t l p i Ht Hi), (H1 t i) by (done || congruence).
  pose proof (page_addr gpa Ha) as Eg. pose proof (idx_range 3 gpa).
  case_bool_decide as E.
  - injection E as -> ->. rewrite Hc in Ht. injection Ht as <- <-. rewrite <- Eg.
    destruct (Z.leb_spec (gpa + 4096) gpa), (Z.leb_spec gpa gpa), (Z.ltb_spec gpa mid); (done || lia).
  - destruct (Z.eqb_spec l 3) as [->|]; cbn [andb]; [|done].
    assert ((p * 512 + i) * 4096 <> gpa).
    { intros Heq. apply E. assert (p = pfx 3 gpa /\ i = idx 3 gpa) as [-> ->] by lia.
      f_equal. by eapply role_eq. }
    pose proof (page_next gpa ((p * 512 + i) * 4096) ltac:(by apply Z.mod_mul) Ha).
    destruct (Z.leb_spec (gpa + 4096) ((p * 512 + i) * 4096)), (Z.leb_spec gpa ((p * 512 + i) * 4096));
      (done || lia).
Qed.

Lemma accepts_step buf buf1 c gpa p v :
  Tables pb buf role -> gpa mod 4096 = 0 -> p mod 4096 = 0 -> p <> gpa ->
  role c = Some (3, pfx 3 gpa) -> slot_upd role buf buf1 c (idx 3 gpa) v ->
  accepts role buf1 cond p <-> accepts role buf cond p.
Proof.
  intros T Ha Hp Hne Hc [_ H1].
  assert (He : forall c', role c' = Some (3, pfx 3 p) -> ent buf1 c' (idx 3 p) = ent buf c' (idx 3 p)).
  { intros c' Hc'. rewrite H1; [|congruence|apply idx_range]. rewrite bool_decide_eq_false_2; [done|].
    intros [= -> Hi]. rewrite Hc in Hc'. injection Hc' as Hpf.
    pose proof (page_addr gpa Ha). pose proof (page_addr p Hp). rewrite Hpf, Hi in *. congruence. }
  split; intros (c' & Hc' & Hcond); exists c'; rewrite He in *; done.
Qed.

Lemma page_loop_spec fuel : forall buf lo hi,
  Tables pb buf role -> bytes_ok buf -> 0 <= lo -> lo mod 4096 = 0 -> hi <= 2 ^ 48 ->
  lo < hi + 4096 -> hi - lo <= 4096 * Z.of_nat fuel ->
  wp (page_loop fuel edit lo hi) (fun buf' r => Tables pb buf' role /\ bytes_ok buf' /\
    exists mid, lo <= mid < hi + 4096 /\ mid mod 4096 = 0 /\ range_upd role buf buf' lo mid upd /\
      (forall p, lo <= p < mid -> p mod 4096 = 0 -> accepts role buf cond p) /\
      ((r = Ok tt /\ hi <= mid) \/ ((exists e, r = Err e) /\ mid < hi /\ ~ accepts role buf cond mid))) buf.
Proof.
  assert (Hrefl : forall buf lo, range_upd role buf buf lo lo upd).
  { intros buf lo. split; [done|]. intros t l p i Ht Hi.
    destruct (Z.leb_spec lo ((p * 512 + i) * 4096)), (Z.ltb_spec ((p * 512 + i) * 4096) lo);
      rewrite ?andb_false_r; (done || lia). }
  assert (2 ^ 48 + 4096 < 2 ^ 64) by done.
  induction fuel as [|fuel IH]; intros buf lo hi T Hb Hlo Ha Hhi Hlh Hf; cbn [page_loop];
    (destruct (Z.ltb_spec lo hi) as [Hlt|Hge];
      [|apply wp_ret; split; [done|]; split; [done|]; exists lo; split; [lia|]; split; [done|]; split; [done|];
        split; [intros; lia|left; by split]]);
    [lia|].
  apply wp_bind. eapply wp_mono; [apply (Hedit buf role lo T); [lia|done|done]|].
  intros buf1 r [(c & -> & Hc & Hcond & Hb1 & Hs)|(-> & (e & ->) & Hno)].
  2: { split; [done|]. split; [done|]. exists lo. split; [lia|]. split; [done|]. split; [done|]. split; [intros; lia|right].
       split; [by eauto|]. split; [done|]. intros (c & Hc & Hcd). by rewrite (Hno c Hc) in Hcd. }
  apply wp_bind, wp_uadd; [lia|].
  pose proof (slot_upd_tables _ _ _ _ _ _ _ _ T Hc Hs) as T1.
  assert (Ha' : (lo + 4096) mod 4096 = 0) by (rewrite <- Zplus_mod_idemp_l, Ha; done).
  eapply wp_mono; [apply (IH buf1 (lo + 4096) hi); (done || lia)|].
  intros buf2 r (T2 & Hb2 & mid & Hmid & Hma & Hup & Hacc & Hr). split; [done|]. split; [done|].
  exists mid. split; [lia|]. split; [done|]. split; [eapply range_upd_step; eauto; lia|]. split.
  - intros p Hp Hpa. destruct (decide (p = lo)) as [->|Hne]; [by exists c|].
    apply (proj1 (accepts_step buf buf1 c lo p _ T Ha Hpa Hne Hc Hs)), Hacc; [|done]. pose proof (page_next lo p Hpa Ha). lia.
  - destruct Hr as [?|(? & ? & Hn)]; [by left|right]. split; [done|]. split; [done|].
    intros Hc'. apply Hn, (proj2 (accepts_step buf buf1 c lo mid _ T Ha Hma ltac:(lia) Hc Hs)), Hc'.
Qed.
End range.

(** The page of [g] is in [\[lo, hi)]. *)
Definition in_pages (lo hi g : Z) : bool := (lo <=? g - g mod 4096) && (g - g mod 4096 <? hi).

Lemma page_base g : g - g mod 4096 = (pfx 3 g * 512 + idx 3 g) * 4096.
Proof. rewrite <- (pfx_step 3) by lia. change (3 + 1) with 4. pose proof (pfx_mod_page g). lia. Qed.

Lemma page_base_aligned g : (g - g mod 4096) mod 4096 = 0.
Proof. rewrite page_base. by apply Z.mod_mul. Qed.

(** Splitting an address into its page and offset keeps its indices. *)
Lemma pfx_page l g : 0 <= l <= 4 -> pfx l (g - g mod 4096) = pfx l g.
Proof.
  intros Hl. unfold pfx. rewrite page_base, <- (pfx_step 3) by lia. change (3 + 1) with 4.
  replace (2 ^ (48 - 9 * l)) with (4096 * 2 ^ (36 - 9 * l)).
  2: { change 4096 with (2 ^ 12). rewrite <- Z.pow_add_r by lia. f_equal. lia. }
  assert (0 < 2 ^ (36 - 9 * l)) by (apply Z.pow_pos_nonneg; lia).
  rewrite <- !Z.div_div, Z.div_mul by lia. done.
Qed.

Lemma idx_page l g : 0 <= l <= 3 -> idx l (g - g mod 4096) = idx l g.
Proof. intros. unfold idx. by rewrite pfx_page by lia. Qed.

Section range_translate.
Context (pb : Z) (role : roles) (buf buf' : buffer) (lo hi : Z) (upd : Z -> Z).
Context (T : Tables pb buf role) (T' : Tables pb buf' role) (Hup : range_upd role buf buf' lo hi upd).

Lemma range_upd_outside g :
  0 <= g < 2 ^ 48 -> in_pages lo hi g = false -> translate_npt buf' pb g = translate_npt buf pb g.
Proof.
  intros Hg Hout. destruct Hup as [Hl He]. apply (translate_frame pb buf role T); [done..|].
  intros t i (l & Hl' & Ht & ->). rewrite (He t l (pfx l g) (idx l g) Ht (idx_range l g)).
  destruct (Z.eqb_spec l 3) as [->|]; [|done]. cbn [andb]. rewrite <- page_base.
  unfold in_pages in Hout. by rewrite Hout.
Qed.

Lemma range_upd_inside g c :
  0 <= g < 2 ^ 48 -> in_pages lo hi g = true -> role c = Some (3, pfx 3 g) ->
  translate_npt buf' pb g =
    let e := upd (ent buf c (idx 3 g)) in
    if Z.testbit e 0 then Some ((e .& ADDR_MASK) .| (g .& (PAGE_SIZE - 1))) else None.
Proof.
  intros Hg Hin Hc. destruct Hup as [Hl He].
  destruct (translate_cases _ _ _ T' g Hg) as [(t' & Ht' & E)|[(t' & _ & Hn & _)|(_ & Hn & _)]];
    [|by exfalso; apply (Hn c)..].
  rewrite E, (role_eq _ _ _ T _ _ _ Ht' Hc). cbv zeta.
  rewrite (He c 3 (pfx 3 g) (idx 3 g) Hc (idx_range 3 g)), <- page_base. cbn [Z.eqb andb Pos.eqb].
  unfold in_pages in Hin. by rewrite Hin.
Qed.
End range_translate.

(** Every page of the range is mapped by its own 4 KiB leaf. *)
Definition fine_range (pb : Z) (buf : buffer) (lo hi : Z) : Prop :=
  exists role, Tables pb buf role /\
    forall p, lo <= p < hi -> p mod 4096 = 0 ->
      accepts role buf (fun e => Z.testbit e 0 && negb (e .&~ PRESENT =? 0)) p.

Lemma testbit_ldiff_1 e i : Z.testbit (e .&~ PRESENT) i = Z.testbit e i && negb (i =? 0).
Proof.
  destruct (Z.lt_ge_cases i 0); [by rewrite !Z.testbit_neg_r by done|].
  rewrite Z.ldiff_spec. change PRESENT with (bit 0). rewrite testbit_bit by lia.
  by rewrite (Z.eqb_sym 0 i).
Qed.

(** Hiding an entry and showing it again restores it. *)
Lemma show_hide e : Z.testbit e 0 = true -> set_flag (set_flag e PRESENT false) PRESENT true = e.
Proof.
  intros H0. cbn. apply Z.bits_inj'. intros i Hi. rewrite Z.lor_spec, testbit_ldiff_1.
  change PRESENT with (bit 0). rewrite testbit_bit, (Z.eqb_sym 0 i) by lia.
  destruct (Z.eqb_spec i 0) as [->|]; cbn; rewrite ?H0, ?andb_true_r, ?orb_false_r; done.
Qed.

Lemma hide_absent e : Z.testbit (set_flag e PRESENT false) 0 = false.
Proof. cbn. by rewrite testbit_ldiff_1, andb_false_r. Qed.

Lemma hide_keeps e : (set_flag e PRESENT false) .&~ PRESENT = e .&~ PRESENT.
Proof.
  cbn. apply Z.bits_inj'. intros i Hi. rewrite !testbit_ldiff_1. by destruct (Z.testbit e i), (i =? 0).
Qed.

(** Rounding the end of the range up to a page changes nothing. *)
Lemma range_upd_round role buf buf' lo hi mid upd :
  mid mod 4096 = 0 -> hi <= mid < hi + 4096 ->
  range_upd role buf buf' lo mid upd -> range_upd role buf buf' lo hi upd.
Proof.
  intros Hm Hr [Hl He]. split; [done|]. intros t l p i Ht Hi. rewrite (He t l p i Ht Hi).
  pose proof (Z.div_mod mid 4096 ltac:(lia)).
  destruct (Z.ltb_spec ((p * 512 + i) * 4096) mid), (Z.ltb_spec ((p * 512 + i) * 4096) hi); (done || lia).
Qed.

Lemma page_fuel_enough n : 0 <= n -> n <= 4096 * Z.of_nat (page_fuel n).
Proof.
  intros Hn. unfold page_fuel, div_ceil. pose proof (Z.div_mod (n + 4096 - 1) 4096 ltac:(lia)).
  pose proof (Z.mod_pos_bound (n + 4096 - 1) 4096 ltac:(lia)).
  rewrite Z2Nat.id; [lia|]. apply Z.div_pos; lia.
Qed.

(** A range editor over a leaf editor, run to its end. *)
Lemma range_edit_spec pb role edit cond upd buf gpa len_ :
  edits_leaf pb edit cond upd ->
  Tables pb buf role -> bytes_ok buf -> 0 <= gpa -> gpa mod 4096 = 0 -> 0 <= len_ -> gpa + len_ <= 2 ^ 48 ->
  wp (end_ ← reads (fun _ => ok_or (checked_add gpa len_) (AddressOutOfRange gpa));
      page_loop (page_fuel len_) edit gpa end_)
    (fun buf' r => Tables pb buf' role /\ bytes_ok buf' /\
      exists mid, gpa <= mid /\ range_upd role buf buf' gpa mid upd /\
        (forall p, gpa <= p < mid -> p mod 4096 = 0 -> accepts role buf cond p) /\
        ((r = Ok tt /\ mid = gpa + len_) \/
         ((exists e, r = Err e) /\ mid < gpa + len_ /\ ~ accepts role buf cond mid /\ mid mod 4096 = 0))) buf.
Proof.
  intros Hed T Hb Hg Ha Hl Hend. assert (2 ^ 48 < 2 ^ 64) by done. apply wp_bind. eapply wp_eq.
  { unfold reads, checked_add. by destruct (Z.ltb_spec (gpa + len_) (2 ^ 64)); [|lia]. }
  cbn [ok_or]. eapply wp_mono.
  { apply (page_loop_spec pb role edit cond upd Hed (page_fuel len_) buf gpa (gpa + len_)); try (done || lia).
    pose proof (page_fuel_enough len_ Hl). lia. }
  intros buf' r (T' & Hb' & mid & Hmid & Hma & Hup & Hacc & Hr). split; [done|]. split; [done|].
  destruct Hr as [[-> Hge]|(He & Hlt & Hn)].
  - exists (gpa + len_). split; [lia|]. split; [apply (range_upd_round _ _ _ _ _ mid); [done|lia|done]|].
    split; [intros p Hp; apply Hacc; lia|by left].
  - exists mid. split; [lia|]. split; [done|]. split; [done|]. right. done.
Qed.

Lemma range_present_ok pb role present buf gpa len_ :
  Tables pb buf role -> bytes_ok buf -> 0 <= gpa -> gpa mod 4096 = 0 -> 0 <= len_ -> gpa + len_ <= 2 ^ 48 ->
  (forall p, gpa <= p < gpa + len_ -> p mod 4096 = 0 ->
     accepts role buf (fun e => negb (e .&~ PRESENT =? 0)) p) ->
  exists buf', set_npt_range_present pb gpa len_ present buf = (buf', Ok tt) /\
    Tables pb buf' role /\ bytes_ok buf' /\
    range_upd role buf buf' gpa (gpa + len_) (fun e => set_flag e PRESENT present).
Proof.
  intros T Hb Hg Ha Hl Hend Hacc.
  pose proof (range_edit_spec pb role _ _ _ buf gpa len_ (set_present_edits pb present) T Hb Hg Ha Hl Hend) as H.
  unfold wp in H. fold (set_npt_range_present pb gpa len_ present) in H.
  destruct (set_npt_range_present pb gpa len_ present buf) as [buf' r].
  destruct H as (T' & Hb' & mid & Hmid & Hup & _ & Hr). cbn [fst snd] in *. exists buf'.
  destruct Hr as [[-> ->]|(_ & Hlt & Hn & Hma)]; [done|].
  exfalso. apply Hn, Hacc; [lia|done].
Qed.

(** A fresh 4 KiB identity map of 16 pages. *)
Lemma fine_map_exists :
  exists buf, bytes_ok buf /\ Tables 0x1000 buf (small_role 1) /\
    (forall i, 0 <= i < 512 -> ent buf 3 i = pt_slot 16 [] i) /\
    forall g, 0 <= g < 2 ^ 48 -> translate_npt buf 0x1000 g = if (g <? 16 * 4096) && true then Some g else None.
Proof.
  assert (Hlen : len (zeros 16384) = 16384) by (by apply len_zeros).
  pose proof (build_4kib_run 0x1000 16 [] (zeros 16384) ltac:(lia) ltac:(by rewrite Hlen) ltac:(lia)
    ltac:(by rewrite Hlen)) as Hrun.
  pose proof (build_4kib_byte_safe 0x1000 16 [] (zeros 16384) (bytes_ok_zeros _)) as Hb. unfold wp in Hrun.
  destruct (build_identity_npt_4kib 0x1000 16 [] (zeros 16384)) as [buf r]. cbn [fst snd] in *.
  destruct Hrun as (_ & Hl & Hw).
  destruct (build_4kib_translate 0x1000 16 [] (zeros 16384) buf) as (T & Hent & Ht);
    [lia|by rewrite Hl, Hlen|lia|by rewrite Hl, Hlen|done|].
  exists buf. split; [done|]. split; [done|]. split; [|exact Ht].
  intros i Hi. exact (Hent 0 i ltac:(split; [lia|reflexivity]) Hi).
Qed.

(** Hiding a range of 4 KiB pages and showing it again.  Where every page
    of the range has its own leaf, [set_npt_range_present(.., false)] succeeds
    and makes exactly the pages of the range untranslatable; a following
    [set_npt_range_present(.., true)] succeeds and restores every guest
    translation. *)
Theorem npt_hide_show_roundtrip pb buf gpa len_ :
  fine_range pb buf gpa (gpa + len_) -> bytes_ok buf ->
  0 <= gpa -> gpa mod 4096 = 0 -> 0 <= len_ -> gpa + len_ <= 2 ^ 48 ->
  exists buf1 buf2,
    set_npt_range_present pb gpa len_ false buf = (buf1, Ok tt) /\
    (forall g, 0 <= g < 2 ^ 48 -> translate_npt buf1 pb g =
       if in_pages gpa (gpa + len_) g then None else translate_npt buf pb g) /\
    set_npt_range_present pb gpa len_ true buf1 = (buf2, Ok tt) /\
    forall g, 0 <= g < 2 ^ 48 -> translate_npt buf2 pb g = translate_npt buf pb g.
Proof.
  intros (role & T & Hfine) Hb Hg Ha Hl Hend.
  destruct (range_present_ok pb role false buf gpa len_) as (buf1 & E1 & T1 & Hb1 & Hu1); try done.
  { intros p Hp Hpa. destruct (Hfine p Hp Hpa) as (c & Hc & [_ Hcd]%andb_true_iff). by exists c. }
  assert (Hent1 : forall p c, gpa <= p < gpa + len_ -> p mod 4096 = 0 -> role c = Some (3, pfx 3 p) ->
    ent buf1 c (idx 3 p) = set_flag (ent buf c (idx 3 p)) PRESENT false).
  { intros p c Hp Hpa Hc. destruct Hu1 as [_ He].
    rewrite (He c 3 (pfx 3 p) (idx 3 p) Hc (idx_range 3 p)), <- (page_addr p Hpa). cbn [Z.eqb andb Pos.eqb].
    destruct (Z.leb_spec gpa p), (Z.ltb_spec p (gpa + len_)); (done || lia). }
  destruct (range_present_ok pb role true buf1 gpa len_) as (buf2 & E2 & T2 & Hb2 & Hu2); try done.
  { intros p Hp Hpa. destruct (Hfine p Hp Hpa) as (c & Hc & [_ Hcd]%andb_true_iff).
    exists c. split; [done|]. by rewrite (Hent1 p c Hp Hpa Hc), hide_keeps. }
  exists buf1, buf2. split; [done|]. split; [|split; [done|]]; intros g Hgr.
  - destruct (in_pages gpa (gpa + len_) g) eqn:Hin; [|by eapply range_upd_outside].
    pose proof Hin as [?%Z.leb_le ?%Z.ltb_lt]%andb_true_iff.
    destruct (Hfine (g - g mod 4096) ltac:(lia) (page_base_aligned g)) as (c & Hc & _).
    rewrite pfx_page in Hc by lia.
    rewrite (range_upd_inside pb role buf buf1 gpa (gpa + len_) _ T T1 Hu1 g c) by done.
    cbv zeta. by rewrite hide_absent.
  - destruct (in_pages gpa (gpa + len_) g) eqn:Hin.
    2: { transitivity (translate_npt buf1 pb g); by eapply range_upd_outside. }
    pose proof Hin as [?%Z.leb_le ?%Z.ltb_lt]%andb_true_iff.
    destruct (Hfine (g - g mod 4096) ltac:(lia) (page_base_aligned g)) as (c & Hc & [Hp _]%andb_true_iff).
    pose proof (Hent1 (g - g mod 4096) c ltac:(lia) (page_base_aligned g) Hc) as He1.
    rewrite pfx_page in Hc by lia. rewrite idx_page in Hp, He1 by lia.
    rewrite (range_upd_inside pb role buf1 buf2 gpa (gpa + len_) _ T1 T2 Hu2 g c) by done.
    cbv zeta. rewrite He1, (show_hide _ Hp), Hp.
    destruct (translate_cases _ _ _ T g Hgr) as [(t' & Ht' & E)|[(t' & _ & Hn & _)|(_ & Hn & _)]];
      [|by exfalso; apply (Hn c)..].
    rewrite E, (role_eq _ _ _ T _ _ _ Ht' Hc). cbv zeta. by rewrite Hp.
Qed.

Lemma npt_hide_show_roundtrip_witness :
  exists buf buf1 buf2,
    set_npt_range_present 0x1000 0x4000 0x3000 false buf = (buf1, Ok tt) /\
    translate_npt buf 0x1000 0x5678 = Some 0x5678 /\ translate_npt buf1 0x1000 0x5678 = None /\
    set_npt_range_present 0x1000 0x4000 0x3000 true buf1 = (buf2, Ok tt) /\
    translate_npt buf2 0x1000 0x5678 = Some 0x5678.
Proof.
  destruct fine_map_exists as (buf & Hb & T & Hent & Ht).
  destruct (npt_hide_show_roundtrip 0x1000 buf 0x4000 0x3000) as (buf1 & buf2 & E1 & H1 & E2 & H2);
    [|done|lia|done|lia|done|].
  { exists (small_role 1). split; [exact T|]. intros p Hp Hpa.
    assert (p = 0x4000 \/ p = 0x5000 \/ p = 0x6000) as Hcase
      by (pose proof (Z.div_mod p 4096 ltac:(lia)); lia).
    exists 3. destruct Hcase as [->|[->| ->]]; (split; [reflexivity|]);
      rewrite Hent by apply idx_range; reflexivity. }
  exists buf, buf1, buf2. rewrite H1, H2, !Ht by lia. split_and!; (done || reflexivity).
Defined.

(** ** Write permission of a range *)

Lemma testbit_set_writable e b i :
  0 <= i -> i <> 1 -> Z.testbit (set_flag e WRITABLE b) i = Z.testbit e i.
Proof.
  intros Hi Hne. change WRITABLE with (bit 1). destruct b; cbn [set_flag].
  - rewrite Z.lor_spec, testbit_bit by lia. destruct (Z.eqb_spec 1 i); [lia|]. apply orb_false_r.
  - rewrite Z.ldiff_spec, testbit_bit by lia. destruct (Z.eqb_spec 1 i); [lia|]. apply andb_true_r.
Qed.

Lemma set_writable_addr e b : (set_flag e WRITABLE b) .& ADDR_MASK = e .& ADDR_MASK.
Proof.
  apply Z.bits_inj'. intros i Hi. rewrite !Z.land_spec, testbit_ADDR_MASK.
  destruct (Z.leb_spec 12 i); cbn [andb]; [|by rewrite !andb_false_r]. by rewrite testbit_set_writable by lia.
Qed.

(** Changing the write permission of a range of 4 KiB pages changes no
    translation.  Page by page, in order, the write flag of the page's leaf is
    set as requested and no other entry changes; the run ends at the end of the
    range exactly when it succeeds, and otherwise at the first page that is not
    mapped by a present 4 KiB leaf.  It never panics. *)
Theorem npt_range_writable_correct pb buf role gpa len_ w buf' r :
  Tables pb buf role -> bytes_ok buf -> 0 <= gpa -> gpa mod 4096 = 0 -> 0 <= len_ -> gpa + len_ <= 2 ^ 48 ->
  set_npt_range_writable pb gpa len_ w buf = (buf', r) ->
  Tables pb buf' role /\ (forall g, 0 <= g < 2 ^ 48 -> translate_npt buf' pb g = translate_npt buf pb g) /\
  exists mid, gpa <= mid /\ range_upd role buf buf' gpa mid (fun e => set_flag e WRITABLE w) /\
    ((r = Ok tt /\ mid = gpa + len_) \/
     ((exists e, r = Err e) /\ mid < gpa + len_ /\ ~ accepts role buf (fun e => Z.testbit e 0) mid)).
Proof.
  intros T Hb Hg Ha Hl Hend E.
  pose proof (range_edit_spec pb role _ _ _ buf gpa len_ (set_writable_edits pb w) T Hb Hg Ha Hl Hend) as H.
  apply (wp_elim _ _ _ _ _ H) in E. cbv beta in E.
  destruct E as (T' & _ & mid & Hmid & Hup & _ & Hr). split; [done|]. split.
  - intros g Hgr. apply (translate_same_leaves pb role buf buf' g T T' Hgr). intros t l Ht Hll.
    destruct Hup as [_ He]. rewrite (He t l _ _ Ht (idx_range l g)). destruct (_ && _); [|done].
    by rewrite testbit_set_writable, set_writable_addr by lia.
  - exists mid. split; [done|]. split; [done|]. destruct Hr as [?|(? & ? & ? & _)]; [by left|by right].
Qed.

Lemma npt_range_writable_correct_witness :
  exists buf buf', set_npt_range_writable 0x1000 0x4000 0x2000 false buf = (buf', Ok tt) /\
    translate_npt buf' 0x1000 0x5678 = Some 0x5678.
Proof.
  destruct fine_map_exists as (buf & Hb & T & Hent & Ht).
  destruct (set_npt_range_writable 0x1000 0x4000 0x2000 false buf) as [buf' r] eqn:E.
  destruct (npt_range_writable_correct 0x1000 buf (small_role 1) 0x4000 0x2000 false buf' r T Hb
    ltac:(lia) eq_refl ltac:(lia) ltac:(lia) E) as (_ & Hk & mid & Hmid & _ & [[-> _]|(_ & Hlt & Hn)]).
  - exists buf, buf'. split; [exact E|]. rewrite Hk, Ht by lia. reflexivity.
  - exfalso. apply Hn. exists 3.
    assert (Hi : pfx 3 mid = 0) by (apply Z.div_small; lia). rewrite Hi. split; [reflexivity|].
    assert (Hx : idx 3 mid = 4 \/ idx 3 mid = 5).
    { assert (mid / 4096 = 4 \/ mid / 4096 = 5) as [E4|E5]
        by (pose proof (Z.div_mod mid 4096 ltac:(lia)); pose proof (Z.mod_pos_bound mid 4096 ltac:(lia)); lia);
        [left|right]; unfold idx, pfx; change (2 ^ (48 - 9 * (3 + 1))) with 4096; by rewrite ?E4, ?E5. }
    rewrite Hent by apply idx_range. destruct Hx as [-> | ->]; reflexivity.
Defined.
