(* ===== verification/NptSplit.v ===== *)
(** * Splitting a 2 MiB leaf and placing leaves (enlil-hal/src/npt.rs)

    [split_npt_2mib_leaf] replaces a present 2 MiB leaf by a page table in a
    spare page of the buffer; [map_npt_2mib_leaf] and [map_npt_4kib_leaf] place
    single leaves in an existing hierarchy. *)

From Stdlib Require Import ZArith Lia Bool.
From stdpp Require Import base decidable list numbers.
From S2P Require Import Prelude Rust Npt NptTables NptBuild NptEdit.

(** ** The split *)

(** A guard address the split accepts. *)
Definition split_guard (gpa g : Z) : bool :=
  (g mod 4096 =? 0) && (gpa <=? g) && (g <? gpa + 2 ^ 21).

Lemma split_guards_run gpa guards (s : buffer) :
  gpa mod 4096 = 0 ->
  if forallb (split_guard gpa) guards
  then mfor guards (split_guard_ok gpa) s = (s, Ok tt)
  else exists e, mfor guards (split_guard_ok gpa) s = (s, Err e).
Proof.
  intros Ha. induction guards as [|g guards IH]; cbn [forallb mfor]; [done|].
  unfold mbind at 1 2, M_bind. unfold split_guard_ok at 1 3, split_guard at 1. rewrite !tst_page.
  destruct (Z.eqb_spec (g mod 4096) 0) as [Hg|]; cbn [negb andb]; [|by eauto].
  unfold mbind, M_bind, reads, checked_sub. change TABLE_ENTRIES with 512. change PAGE_SIZE with 4096.
  destruct (Z.leb_spec gpa g), (Z.ltb_spec g gpa); try lia; cbn [andb fmap option_fmap option_map ok_or];
    [|by eauto].
  assert (Hd : (512 <=? (g - gpa) / 4096) = negb (g <? gpa + 2 ^ 21)).
  { pose proof (Z.div_mod g 4096 ltac:(lia)). pose proof (Z.div_mod gpa 4096 ltac:(lia)).
    replace (g - gpa) with ((g / 4096 - gpa / 4096) * 4096) by lia. rewrite Z.div_mul by lia.
    destruct (Z.ltb_spec g (gpa + 2 ^ 21)); cbn; [apply Z.leb_gt|apply Z.leb_le]; lia. }
  rewrite Hd. destruct (g <? gpa + 2 ^ 21); cbn [negb andb]; [exact IH|by eauto].
Qed.

Section split.
Context (pb : Z) (buf : buffer) (role : roles) (T : Tables pb buf role) (Hbytes : bytes_ok buf).
Context (gpa c t : Z) (guards : list Z).
Context (Hg : 0 <= gpa < 2 ^ 48) (Ha : gpa mod 2 ^ 21 = 0).
Context (Hc : role c = None) (Hin : in_buf buf c) (Ht : role t = Some (2, pfx 2 gpa)).
Let huge := ent buf t (idx 2 gpa).
Let spa := huge .& ADDR_MASK.
Let flags := (huge .&~ ADDR_MASK) .&~ HUGE_PAGE.
Context (Hp : Z.testbit huge 0 = true) (Hh : Z.testbit huge 7 = true) (Hsal : spa mod 2 ^ 21 = 0).

(** The entries of the new page table. *)
Definition split_leaf (j : Z) : option Z :=
  if bool_decide (gpa + j * PAGE_SIZE ∈ guards) then None
  else Some (((spa + j * PAGE_SIZE) .& ADDR_MASK) .| flags).

Lemma spa_fits : 0 <= spa /\ spa + 2 ^ 21 <= 2 ^ 52.
Proof.
  assert (H : 0 <= spa < 2 ^ 52).
  { apply (fits_intro 52); [lia| |].
    - apply Z.land_nonneg. by right.
    - intros i Hi. unfold spa. rewrite Z.land_spec, testbit_ADDR_MASK.
      destruct (Z.leb_spec 12 i), (Z.ltb_spec i 52); try lia; by rewrite andb_false_r. }
  pose proof (Z.div_mod spa (2 ^ 21) ltac:(lia)).
  replace (2 ^ 52) with (2 ^ 31 * 2 ^ 21) in * by lia. nia.
Qed.

Lemma flags_facts : flags .& ADDR_MASK = 0 /\ Z.testbit flags 0 = true /\ fits 64 flags.
Proof.
  split_and!.
  - unfold flags. apply Z.bits_inj'. intros i Hi. rewrite Z.land_spec, !Z.ldiff_spec, Z.testbit_0_l.
    destruct (Z.testbit ADDR_MASK i); cbn; by rewrite ?andb_false_r.
  - unfold flags. rewrite !Z.ldiff_spec, Hp. reflexivity.
  - unfold flags. apply fits_ldiff, fits_ldiff. by apply word_fits.
Qed.

Lemma split_leaf_fills k s :
  0 <= k < 512 -> len s = len buf ->
  fills (512 * c) k (split_leaf k)
    (page_gpa ← uadd gpa (k * PAGE_SIZE);
     if bool_decide (page_gpa ∈ guards) then mret tt
     else phys ← uadd spa (k * PAGE_SIZE);
          write_entry (4096 * c + k * 8) ((phys .& ADDR_MASK) .| flags)) s.
Proof.
  intros Hk Hs. pose proof spa_fits. destruct Hin. assert (2 ^ 52 < 2 ^ 64) by done.
  unfold fills, mbind at 1, M_bind. rewrite uadd_run by (lia).
  unfold split_leaf. case_bool_decide; [done|].
  apply fills_entry; lia.
Qed.

(** The tables the split leaves: the new page table and the pointer to it. *)
Definition split_entries (buf' : buffer) : Prop :=
  len buf' = len buf /\
  (forall j, 0 <= j < 512 -> ent buf' c j = default 0 (split_leaf j)) /\
  ent buf' t (idx 2 gpa) = table_entry pb c /\
  forall t' j, role t' <> None -> 0 <= j < 512 -> (t', j) <> (t, idx 2 gpa) -> ent buf' t' j = ent buf t' j.

Lemma split_fill_run :
  wp (zero_bytes (4096 * c) (4096 * c + 4096) ;;
      mfor (seqZ 0 TABLE_ENTRIES) (fun j =>
        page_gpa ← uadd gpa (j * PAGE_SIZE);
        if bool_decide (page_gpa ∈ guards) then mret tt
        else phys ← uadd spa (j * PAGE_SIZE);
             write_entry (4096 * c + j * 8) ((phys .& ADDR_MASK) .| flags)) ;;
      write_entry (4096 * t + idx 2 gpa * 8) (((pb + 4096 * c) .& ADDR_MASK) .| table_flags))
    (fun buf' r => r = Ok tt /\ split_entries buf') buf.
Proof.
  pose proof Hin as [Hc0 Hcl]. pose proof spa_fits. pose proof flags_facts as (_ & _ & Hff).
  pose proof (idx_range 2 gpa) as Hi. destruct (tb_in _ _ _ T _ _ _ Ht) as ([Ht0 Htl] & _).
  assert (Htc : t <> c) by (intros ->; congruence).
  apply wp_bind. eapply wp_eq.
  { unfold zero_bytes. destruct (Z.leb_spec (4096 * c) (4096 * c + 4096)), (Z.leb_spec (4096 * c + 4096) (len buf));
      try lia. reflexivity. }
  cbv beta iota. replace (4096 * c + 4096) with (4096 * (c + 1)) by lia.
  set (s0 := zero_range buf _ _). assert (Hl0 : len s0 = len buf) by apply len_zero_range.
  assert (Hw0 : forall t' j, 0 <= t' -> 0 <= j < 512 -> ent s0 t' j = if t' =? c then 0 else ent buf t' j)
    by (intros; by apply ent_zero_page).
  clearbody s0. apply wp_bind. eapply wp_mono.
  { apply (fill_loop _ (512 * c) 512 split_leaf); [lia..| |].
    - intros k v Hv Hk. unfold split_leaf in Hv. case_bool_decide; simplify_eq.
      apply entry_fits; [lia|done].
    - intros k s' Hk Hs'. apply split_leaf_fills; [done|congruence]. }
  intros s1 r (-> & Hl1 & Hw1). cbv beta iota.
  assert (Hent1 : forall t' j, 0 <= t' -> 0 <= j < 512 ->
    ent s1 t' j = if t' =? c then default 0 (split_leaf j) else ent buf t' j).
  { intros t' j Ht' Hj. specialize (Hw0 t' j Ht' Hj). unfold ent in *. rewrite Hw1 by lia.
    destruct (Z.eqb_spec t' c) as [->|].
    - rewrite filled_in, Hw0 by lia. do 2 f_equal. lia.
    - rewrite filled_out by lia. done. }
  assert (Hin1 : in_buf s1 t) by (unfold in_buf; lia).
  eapply wp_eq; [by apply write_entry_ok|]. split; [done|]. fold (table_entry pb c).
  assert (Hfit : fits 64 (table_entry pb c)).
  { apply table_entry_fits. destruct (tb_base _ _ _ T). lia. }
  split; [rewrite len_put_u64; congruence|]. split; [|split].
  - intros j Hj. rewrite ent_put, bool_decide_eq_false_2 by (congruence || done).
    by rewrite Hent1, Z.eqb_refl.
  - by rewrite ent_put, bool_decide_eq_true_2.
  - intros t' j Ht' Hj Hne. destruct (role t') as [[l p]|] eqn:Et; [|done].
    destruct (tb_in _ _ _ T _ _ _ Et) as ([? _] & _). rewrite ent_put, bool_decide_eq_false_2, Hent1 by done.
    destruct (Z.eqb_spec t' c) as [->|]; [congruence|done].
Qed.

Lemma split_tables buf' :
  split_entries buf' -> Tables pb buf' (role_insert role c (3, pfx 3 gpa)).
Proof.
  intros (Hl & Hnew & Hptr & Hsame). pose proof Hin as [Hc0 Hcl].
  destruct (tb_base _ _ _ T), (tb_in _ _ _ T _ _ _ Ht) as (_ & _ & ?). pose proof (tb_phys _ _ _ T).
  replace (3, pfx 3 gpa) with (2 + 1, pfx 2 gpa * 512 + idx 2 gpa) by (by rewrite <- (pfx_step 2) by lia).
  apply (Tables_link pb buf role T buf' t); try (done || lia); [apply idx_range| |].
  - rewrite <- (pfx_step 2) by lia. destruct (walk_step _ _ _ T 2 gpa t Ht ltac:(lia))
      as [(Hc' & _)|[(_ & _ & _ & Hn)|(c' & (_ & Hc' & _) & _)]]; [|exact Hn|]; unfold huge in *; congruence.
  - rewrite Hptr. apply table_entry_points; (done || lia).
Qed.

(** Before the split, the whole 2 MiB translates through the leaf. *)
Lemma split_before g :
  0 <= g < 2 ^ 48 -> pfx 3 g = pfx 3 gpa -> translate_npt buf pb g = Some (spa + g mod 2 ^ 21).
Proof.
  intros Hgr E3. pose proof (proj1 (pfx_split 2 g gpa ltac:(lia)) E3) as [E2 Ei2].
  destruct (translate_cases _ _ _ T g Hgr) as [(t' & Ht' & _)|[(t' & Ht' & _ & _ & E)|(Hn & _)]].
  - destruct (walk_step _ _ _ T 2 gpa t Ht ltac:(lia))
      as [(Hc' & _)|[(_ & _ & _ & Hn)|(c' & (_ & Hc' & _) & _)]]; unfold huge in *; try congruence.
    exfalso. apply (Hn t'). by rewrite Ht', E3.
  - rewrite E, (role_eq _ _ _ T _ _ _ Ht' (eq_trans Ht (f_equal (fun x => Some (2, x)) (eq_sym E2)))).
    rewrite Ei2. fold huge. rewrite Hp. f_equal. exact (lor_offset spa 21 g ltac:(lia) Hsal).
  - exfalso. apply (Hn t). by rewrite E2.
Qed.

Lemma split_translate buf' g :
  split_entries buf' -> 0 <= g < 2 ^ 48 ->
  translate_npt buf' pb g =
    if bool_decide (gpa <= g < gpa + 2 ^ 21 /\ g - g mod 4096 ∈ guards) then None else translate_npt buf pb g.
Proof.
  intros Hse Hgr. pose proof (split_tables buf' Hse) as T'. destruct Hse as (Hl & Hnew & Hptr & Hsame).
  pose proof (idx_range 2 gpa) as Hi. pose proof flags_facts as (Hf1 & Hf2 & _). pose proof spa_fits as [Hs0 Hs1].
  destruct (decide (pfx 3 g = pfx 3 gpa)) as [E3|Hne].
  2: { assert (~ gpa <= g < gpa + 2 ^ 21).
       { intros Hr. apply Hne. apply (div_eq_range (2 ^ 21)); [lia|done|done]. }
       rewrite bool_decide_eq_false_2 by tauto.
       apply (translate_slot pb buf role T buf' t 2 (pfx 2 gpa) (idx 2 gpa)); try (done || lia).
       by rewrite <- (pfx_step 2) by lia. }
  pose proof (proj1 (pfx_split 2 g gpa ltac:(lia)) E3) as [E2 Ei2].
  assert (Hr : gpa <= g < gpa + 2 ^ 21) by (apply (div_eq_range (2 ^ 21)); [lia|done|done]).
  assert (Hrole : role_insert role c (3, pfx 3 gpa) c = Some (3, pfx 3 g)).
  { unfold role_insert. by rewrite Z.eqb_refl, E3. }
  pose proof (Hnew (idx 3 g) (idx_range 3 g)) as He. unfold split_leaf in He.
  pose proof (page_base g) as Epb. rewrite E3 in Epb.
  pose proof (pfx_mod_huge gpa) as Egpa. rewrite Ha in Egpa.
  replace (gpa + idx 3 g * 4096) with (g - g mod 4096) in He by lia.
  pose proof (split_before g Hgr E3) as Hold.
  assert (Hm : g mod 2 ^ 21 = idx 3 g * 4096 + g mod 4096) by (pose proof (pfx_mod_huge g); lia).
  destruct (decide (g - g mod 4096 ∈ guards)) as [Hgd|Hgd].
  - rewrite bool_decide_eq_true_2 by done. rewrite bool_decide_eq_true_2 in He by done.
    apply (translate_absent _ _ _ T' 3 g c); [done|lia|done|]. by rewrite He, Z.testbit_0_l.
  - rewrite bool_decide_eq_false_2 by tauto. rewrite bool_decide_eq_false_2 in He by done.
    pose proof (idx_range 3 g).
    rewrite Hold, (translate_small _ _ _ T' g c _ _ Hgr Hrole He Hf1 Hf2); [f_equal; lia|unfold fits; lia|].
    rewrite Z.mod_add by lia. pose proof (Z.div_mod spa (2 ^ 21) ltac:(lia)) as Hdm. rewrite Hsal in Hdm.
    rewrite Hdm. replace (2 ^ 21 * (spa / 2 ^ 21) + 0) with (512 * (spa / 2 ^ 21) * 4096) by lia. by apply Z.mod_mul.
Qed.
End split.

(** 2 MiB leaves hold 2 MiB-aligned addresses. *)
Definition huge_aligned (role : roles) (buf : buffer) : Prop :=
  forall t p i, role t = Some (2, p) -> 0 <= i < 512 ->
    Z.testbit (ent buf t i) 7 = true -> (ent buf t i .& ADDR_MASK) mod 2 ^ 21 = 0.

(** What the split requires: aligned, guards inside, a present 2 MiB leaf. *)
Definition splittable (role : roles) (buf : buffer) (gpa : Z) (guards : list Z) : Prop :=
  gpa mod 2 ^ 21 = 0 /\ forallb (split_guard gpa) guards = true /\
  exists t, role t = Some (2, pfx 2 gpa) /\
    Z.testbit (ent buf t (idx 2 gpa)) 0 = true /\ Z.testbit (ent buf t (idx 2 gpa)) 7 = true.

Lemma mod_huge_page a : a mod 2 ^ 21 = 0 -> a mod 4096 = 0.
Proof.
  intros Ha. rewrite (Z.div_mod a (2 ^ 21)), Ha by lia.
  replace (2 ^ 21 * (a / 2 ^ 21) + 0) with (512 * (a / 2 ^ 21) * 4096) by lia. by apply Z.mod_mul.
Qed.

Lemma split_run pb buf role gpa c guards :
  Tables pb buf role -> bytes_ok buf -> huge_aligned role buf -> role c = None -> in_buf buf c ->
  0 <= gpa < 2 ^ 48 ->
  wp (split_npt_2mib_leaf pb gpa (pb + 4096 * c) guards) (fun buf' r =>
    (r = Ok tt /\ splittable role buf gpa guards /\ npt_wf pb buf' /\
     forall g, 0 <= g < 2 ^ 48 -> translate_npt buf' pb g =
       if bool_decide (gpa <= g < gpa + 2 ^ 21 /\ g - g mod 4096 ∈ guards) then None
       else translate_npt buf pb g) \/
    (buf' = buf /\ (exists e, r = Err e) /\ ~ splittable role buf gpa guards)) buf.
Proof.
  intros T Hb Hhal Hc Hin Hg. destruct (tb_base _ _ _ T) as [Hpb Hpal]. pose proof (tb_phys _ _ _ T).
  pose proof Hin as [Hc0 Hcl]. assert (2 ^ 52 < 2 ^ 64) by done.
  unfold split_npt_2mib_leaf. rewrite tst_huge, tst_page.
  replace ((pb + 4096 * c) mod 4096) with 0 by (by rewrite Z.mul_comm, Z.mod_add).
  destruct (Z.eqb_spec (gpa mod 2 ^ 21) 0) as [Ha|Ha]; cbn [negb orb Z.eqb].
  2: { right. split; [done|]. split; [by eauto|]. by intros [? _]. }
  apply wp_bind. pose proof (split_guards_run gpa guards buf (mod_huge_page _ Ha)) as Hgs.
  destruct (forallb (split_guard gpa) guards) eqn:Hfa.
  2: { destruct Hgs as [e E]. eapply wp_eq; [exact E|]. right. split; [done|]. split; [by eauto|].
       intros (_ & ? & _). congruence. }
  eapply wp_eq; [exact Hgs|]. cbv beta iota. apply wp_bind. eapply wp_eq; [by unfold reads|]. cbv beta iota.
  apply wp_bind. eapply wp_eq.
  { unfold reads, checked_sub. destruct (Z.ltb_spec (pb + 4096 * c) pb); [lia|].
    by replace (pb + 4096 * c - pb) with (4096 * c) by lia. }
  cbn [ok_or]. unfold checked_add. destruct (Z.ltb_spec (4096 * c + 4096) (2 ^ 64)); [|lia].
  destruct (Z.ltb_spec (len buf) (4096 * c + 4096)); [lia|].
  apply (wp_walk_pd pb buf role T gpa Hg).
  2: { intros Hn. right. split; [done|]. split; [by eauto|]. intros (_ & _ & t & Ht & _). by apply (Hn t). }
  intros t Ht. destruct (tb_in _ _ _ T _ _ _ Ht) as (Hint & _). pose proof (idx_range 2 gpa) as Hi.
  rewrite pd_i_idx. apply wp_bind. eapply wp_eq; [unfold reads; by rewrite read_entry_ent|]. cbv beta iota.
  rewrite tst_PRESENT, tst_HUGE.
  destruct (Z.testbit (ent buf t (idx 2 gpa)) 0) eqn:Hp, (Z.testbit (ent buf t (idx 2 gpa)) 7) eqn:Hh;
    cbn [negb orb].
  2-4: right; split; [done|]; split; [by eauto|]; intros (_ & _ & t' & Ht' & Hp' & Hh');
    rewrite (role_eq _ _ _ T _ _ _ Ht' Ht) in *; congruence.
  pose proof (Hhal t (pfx 2 gpa) (idx 2 gpa) Ht Hi Hh) as Hsal. cbv zeta.
  eapply wp_mono; [by apply (split_fill_run pb buf role T Hb gpa c t guards)|].
  intros buf' r [-> Hse]. left. split; [done|].
  split; [split; [done|]; split; [done|]; by exists t|].
  split; [exists (role_insert role c (3, pfx 3 gpa)); by eapply (split_tables pb buf role T gpa c t guards)|].
  intros g Hgr. by apply (split_translate pb buf role T Hb gpa c t guards).
Qed.

(** A fresh 2 MiB identity map of 4 MiB at address 0, with a spare page. *)
Lemma small_map_exists :
  exists buf, len buf = 16384 /\ bytes_ok buf /\ Tables 0 buf (huge_role 1 None) /\
    (forall i, 0 <= i < 512 -> ent buf 2 i = pd_slot 0 0 1 2 None i) /\
    forall g, 0 <= g < 2 ^ 48 -> translate_npt buf 0 g = if g <? 0x400000 then Some g else None.
Proof.
  assert (Hlen : len (zeros 16384) = 16384) by (by apply len_zeros).
  pose proof (build_2mib_run 0 0 0x400000 (zeros 16384) ltac:(lia) ltac:(rewrite Hlen; lia) ltac:(lia) ltac:(lia)
    ltac:(vm_compute; discriminate) ltac:(by rewrite Hlen)) as Hrun.
  pose proof (build_2mib_byte_safe 0 0 0x400000 (zeros 16384) (bytes_ok_zeros _)) as Hb. unfold wp in Hrun.
  destruct (build_npt_2mib 0 0 0x400000 (zeros 16384)) as [buf r]. cbn [fst snd] in *.
  destruct Hrun as (_ & Hl & Hw). rewrite Hlen in Hl. clear Hlen.
  destruct (build_2mib_translate 0 0 0x400000 (zeros 16384) buf) as (T & Hent & Ht);
    [lia|rewrite Hl; lia|lia|lia|vm_compute; discriminate|by rewrite Hl|done|].
  exists buf. do 3 (split; [done|]). split; [|exact Ht].
  intros i Hi. exact (Hent 0 i ltac:(split; [lia|reflexivity]) Hi).
Qed.

(** C35: splitting a 2 MiB leaf.  Given a spare page of the buffer, the split
    succeeds exactly when the address is 2 MiB-aligned, the guards are pages of
    the 2 MiB and a present 2 MiB leaf covers it.  Then the guard pages stop
    translating and every other guest address translates as before; in all
    other cases it reports an error and leaves the tables untouched. *)
Theorem npt_split_preserves pb buf role gpa c guards buf' r :
  Tables pb buf role -> bytes_ok buf -> huge_aligned role buf -> role c = None -> in_buf buf c ->
  0 <= gpa < 2 ^ 48 -> split_npt_2mib_leaf pb gpa (pb + 4096 * c) guards buf = (buf', r) ->
  (r = Ok tt /\ splittable role buf gpa guards /\ npt_wf pb buf' /\
   forall g, 0 <= g < 2 ^ 48 -> translate_npt buf' pb g =
     if bool_decide (g - g mod 4096 ∈ guards) then None else translate_npt buf pb g) \/
  ((exists e, r = Err e) /\ ~ splittable role buf gpa guards /\ buf' = buf).
Proof.
  intros T Hb Hh Hc Hin Hg E.
  destruct (wp_elim _ _ _ _ _ (split_run pb buf role gpa c guards T Hb Hh Hc Hin Hg) E)
    as [(-> & Hs & Hwf & Ht)|(-> & He & Hn)]; [left|by right].
  split; [done|]. split; [done|]. split; [done|]. intros g Hgr. rewrite (Ht g Hgr).
  rewrite (bool_decide_ext (gpa <= g < gpa + 2 ^ 21 /\ g - g mod 4096 ∈ guards) (g - g mod 4096 ∈ guards)); [done|].
  split; [by intros [_ ?]|]. intros Hgd. split; [|done]. destruct Hs as (Ha & Hfa & _).
  rewrite forallb_forall in Hfa.
  specialize (Hfa _ (proj1 (list_elem_of_In _ _) Hgd)). unfold split_guard in Hfa. breflect. destruct_and?.
  pose proof (Z.mod_pos_bound g 4096 ltac:(lia)). pose proof (page_base g).
  pose proof (Z.div_mod gpa (2 ^ 21) ltac:(lia)). lia.
Qed.

Lemma npt_split_preserves_witness :
  exists buf buf', split_npt_2mib_leaf 0 0x200000 0x3000 [0x201000] buf = (buf', Ok tt) /\
    translate_npt buf 0 0x201234 = Some 0x201234 /\ translate_npt buf' 0 0x201234 = None /\
    translate_npt buf' 0 0x202345 = Some 0x202345 /\ translate_npt buf' 0 0x12345 = Some 0x12345.
Proof.
  destruct small_map_exists as (buf & Hl & Hb & T & Hent & Ht).
  destruct (split_npt_2mib_leaf 0 0x200000 0x3000 [0x201000] buf) as [buf' r'] eqn:E.
  assert (Hhal : huge_aligned (huge_role 1 None) buf).
  { intros t p i Hr Hi _. apply huge_role_cases in Hr as [?|[?|[(? & _ & ->)|(_ & ? & _)]]]; [lia|lia| |lia..].
    replace t with 2 by lia. rewrite Hent by lia. unfold pd_slot.
    rewrite bool_decide_eq_false_2 by done. destruct (Z.ltb_spec i 2); [|reflexivity].
    rewrite entry_addr, addr_mask_id; [|unfold fits; lia| |reflexivity].
    - rewrite Z.add_0_l. by apply Z.mod_mul.
    - rewrite Z.add_0_l. apply mod_huge_page. by apply Z.mod_mul. }
  destruct (npt_split_preserves 0 buf (huge_role 1 None) 0x200000 3 [0x201000] buf' r' T Hb Hhal eq_refl
    ltac:(unfold in_buf; lia) ltac:(lia) E) as [(-> & _ & _ & H)|(_ & Hn & _)].
  - exists buf, buf'. split; [exact E|]. rewrite !H, !Ht by lia. repeat split.
  - exfalso. apply Hn. split; [reflexivity|]. split; [reflexivity|]. exists 2. split; [reflexivity|].
    change (idx 2 0x200000) with 1. rewrite Hent by lia. split; reflexivity.
Defined.

(** ** Placing single leaves *)

Lemma map_small_run pb buf role gpa spa :
  Tables pb buf role -> 0 <= gpa < 2 ^ 48 -> fits 52 spa ->
  wp (map_npt_4kib_leaf pb gpa spa) (fun buf' r =>
    (r = Ok tt /\ gpa mod 4096 = 0 /\ spa mod 4096 = 0 /\ Tables pb buf' role /\ (exists c, role c = Some (3, pfx 3 gpa)) /\
     forall g, 0 <= g < 2 ^ 48 -> translate_npt buf' pb g =
       if g / 4096 =? gpa / 4096 then Some (spa + g mod 4096) else translate_npt buf pb g) \/
    (buf' = buf /\ (exists e, r = Err e) /\
     (gpa mod 4096 <> 0 \/ spa mod 4096 <> 0 \/ forall c, role c <> Some (3, pfx 3 gpa)))) buf.
Proof.
  intros T Hg Hs. unfold map_npt_4kib_leaf. rewrite !tst_page.
  destruct (Z.eqb_spec (gpa mod 4096) 0) as [Ha|]; cbn [negb orb]; [|right; split; [done|split; [by eauto|by left]]].
  destruct (Z.eqb_spec (spa mod 4096) 0) as [Hsa|]; cbn [negb orb]; [|right; split; [done|split; [by eauto|by auto]]].
  apply (wp_walk_pt pb buf role T gpa Hg); [|by intros Hn e _; right; split; [done|split; [by eauto|auto]]].
  intros c Hc. rewrite leaf_i_idx. destruct (tb_in _ _ _ T _ _ _ Hc) as (Hin & _). pose proof (idx_range 3 gpa) as Hi.
  eapply wp_eq; [by apply write_entry_ok|].
  assert (Hfit : fits 64 ((spa .& ADDR_MASK) .| table_flags)) by (apply entry_fits; [apply Hs|done]).
  pose proof (slot_upd_put pb buf role c _ (idx 3 gpa) _ T Hc Hi Hfit) as Hup.
  pose proof (slot_upd_tables pb role buf _ c _ _ _ T Hc Hup) as T'. destruct Hup as [Hl He].
  left. do 4 (split; [done|]). split; [by eauto|]. intros g Hgr.
  change (g / 4096) with (pfx (3 + 1) g). change (gpa / 4096) with (pfx (3 + 1) gpa).
  destruct (Z.eqb_spec (pfx (3 + 1) g) (pfx (3 + 1) gpa)) as [E|Hne].
  - apply pfx_split in E as [E3 Ei]; [|lia].
    apply (translate_small _ _ _ T' g c spa table_flags); try done; [by rewrite E3|].
    rewrite Ei, He by (done || congruence). by rewrite bool_decide_eq_true_2.
  - apply (translate_slot pb buf role T _ c 3 (pfx 3 gpa) (idx 3 gpa)); try (done || lia).
    + intros t' j Ht' Hj Hn. rewrite He by done. by rewrite bool_decide_eq_false_2.
    + by rewrite <- (pfx_step 3) by lia.
Qed.

Lemma map_huge_run pb buf role gpa spa :
  Tables pb buf role -> 0 <= gpa < 2 ^ 48 -> fits 52 spa ->
  wp (map_npt_2mib_leaf pb gpa spa) (fun buf' r =>
    (r = Ok tt /\ gpa mod 2 ^ 21 = 0 /\ spa mod 2 ^ 21 = 0 /\ npt_wf pb buf' /\ (exists t, role t = Some (2, pfx 2 gpa)) /\
     forall g, 0 <= g < 2 ^ 48 -> translate_npt buf' pb g =
       if g / 2 ^ 21 =? gpa / 2 ^ 21 then Some (spa + g mod 2 ^ 21) else translate_npt buf pb g) \/
    (buf' = buf /\ (exists e, r = Err e) /\
     (gpa mod 2 ^ 21 <> 0 \/ spa mod 2 ^ 21 <> 0 \/ forall t, role t <> Some (2, pfx 2 gpa)))) buf.
Proof.
  intros T Hg Hs. unfold map_npt_2mib_leaf. rewrite !tst_huge.
  destruct (Z.eqb_spec (gpa mod 2 ^ 21) 0) as [Ha|]; cbn [negb orb]; [|right; split; [done|split; [by eauto|by left]]].
  destruct (Z.eqb_spec (spa mod 2 ^ 21) 0) as [Hsa|]; cbn [negb orb]; [|right; split; [done|split; [by eauto|by auto]]].
  apply (wp_walk_pd pb buf role T gpa Hg); [|by intros Hn; right; split; [done|split; [by eauto|auto]]].
  intros t Ht. rewrite pd_i_idx. destruct (tb_in _ _ _ T _ _ _ Ht) as (Hin & _). pose proof (idx_range 2 gpa) as Hi.
  eapply wp_eq; [by apply write_entry_ok|]. set (e := (spa .& ADDR_MASK) .| huge_leaf_flags).
  assert (Hfit : fits 64 e) by (apply entry_fits; [apply Hs|done]).
  destruct (slot_upd_put pb buf role t _ (idx 2 gpa) e T Ht Hi Hfit) as [Hl He].
  assert (He' : ent (put_u64 buf (4096 * t + idx 2 gpa * 8) e) t (idx 2 gpa) = e).
  { rewrite He by (done || congruence). by rewrite bool_decide_eq_true_2. }
  assert (Hsame : forall t' j, role t' <> None -> 0 <= j < 512 -> (t', j) <> (t, idx 2 gpa) ->
    ent (put_u64 buf (4096 * t + idx 2 gpa * 8) e) t' j = ent buf t' j).
  { intros t' j Ht' Hj Hn. rewrite He by done. by rewrite bool_decide_eq_false_2. }
  assert (T' : Tables pb (put_u64 buf (4096 * t + idx 2 gpa * 8) e) (role_forget role (pfx 2 gpa * 512 + idx 2 gpa))).
  { apply (Tables_replace pb buf role T _ t); try done. rewrite He'. unfold e. by rewrite entry_flag. }
  left. do 3 (split; [done|]). split; [by eexists|]. split; [by eauto|]. intros g Hgr.
  change (g / 2 ^ 21) with (pfx (2 + 1) g). change (gpa / 2 ^ 21) with (pfx (2 + 1) gpa).
  destruct (Z.eqb_spec (pfx (2 + 1) g) (pfx (2 + 1) gpa)) as [E|Hne].
  - apply pfx_split in E as [E2 Ei]; [|lia].
    apply (translate_huge _ _ _ T' g t spa huge_leaf_flags); try done; [|by rewrite Ei].
    apply role_forget_some. by rewrite E2.
  - apply (translate_slot pb buf role T _ t 2 (pfx 2 gpa) (idx 2 gpa)); try (done || lia).
    by rewrite <- (pfx_step 2) by lia.
Qed.

(** A leaf of size [sz] in a table of level [l] can be placed for [gpa]. *)
Definition placeable (role : roles) (l sz gpa spa : Z) : Prop :=
  gpa mod sz = 0 /\ spa mod sz = 0 /\ exists t, role t = Some (l, pfx l gpa).

(** The outcome of placing a leaf: exactly the addresses of the leaf change. *)
Definition placed (pb : Z) (role : roles) (l sz : Z) (buf : buffer) (gpa spa : Z)
    (out : buffer * res NptError unit) : Prop :=
  (placeable role l sz gpa spa /\ out.2 = Ok tt /\ npt_wf pb out.1 /\
   forall g, 0 <= g < 2 ^ 48 -> translate_npt out.1 pb g =
     if g / sz =? gpa / sz then Some (spa + g mod sz) else translate_npt buf pb g) \/
  (~ placeable role l sz gpa spa /\ (exists e, out.2 = Err e) /\ out.1 = buf).

(** Placing single leaves.  [map_npt_4kib_leaf] (in an existing page table)
    and [map_npt_2mib_leaf] (in an existing page directory, over whatever the
    entry held) succeed exactly when the addresses are aligned and the table
    exists; then the page translates to its target and all other addresses are
    unchanged.  Otherwise they report an error and change nothing. *)
Theorem npt_map_leaf_correct pb buf role gpa spa :
  Tables pb buf role -> 0 <= gpa < 2 ^ 48 -> fits 52 spa ->
  placed pb role 3 4096 buf gpa spa (map_npt_4kib_leaf pb gpa spa buf) /\
  placed pb role 2 (2 ^ 21) buf gpa spa (map_npt_2mib_leaf pb gpa spa buf).
Proof.
  intros T Hg Hs. split.
  - pose proof (map_small_run pb buf role gpa spa T Hg Hs) as H. unfold wp in H. unfold placed, placeable.
    destruct H as [(-> & Ha & Hsa & T' & Hc & Ht)|(-> & He & Hn)]; [left|right].
    + split; [done|]. split; [done|]. split; [by eexists|done].
    + split; [|done]. intros (? & ? & c & Hc). destruct Hn as [?|[?|Hn]]; [done..|]. by apply (Hn c).
  - pose proof (map_huge_run pb buf role gpa spa T Hg Hs) as H. unfold wp in H. unfold placed, placeable.
    destruct H as [(-> & Ha & Hsa & Hwf & Hc & Ht)|(-> & He & Hn)]; [by left|right].
    split; [|done]. intros (? & ? & c & Hc). destruct Hn as [?|[?|Hn]]; [done..|]. by apply (Hn c).
Qed.

Lemma npt_map_leaf_correct_witness :
  exists buf, translate_npt buf 0 0x212345 = Some 0x212345 /\
    translate_npt (map_npt_2mib_leaf 0 0x200000 0x40000000 buf).1 0 0x212345 = Some 0x40012345.
Proof.
  destruct small_map_exists as (buf & Hl & Hb & T & Hent & Ht). exists buf. split; [by rewrite Ht|].
  destruct (npt_map_leaf_correct 0 buf (huge_role 1 None) 0x200000 0x40000000 T
    ltac:(split; [lia|reflexivity]) ltac:(split; [lia|reflexivity])) as [_ [(_ & _ & _ & H)|(Hn & _)]].
  - rewrite H by (split; [lia|reflexivity]). reflexivity.
  - exfalso. apply Hn. split; [reflexivity|]. split; [reflexivity|]. exists 2. reflexivity.
Defined.
