(* ===== verification/NptDirty.v ===== *)
(** * The dirty-page log (enlil-hal/src/npt.rs, [NptDirtyLog])

    The per-epoch bitmap of written 2 MiB pages and the re-protection of the
    recorded pages in the nested page tables. *)

From Stdlib Require Import ZArith Lia Bool.
From stdpp Require Import base decidable list numbers.
From S2P Require Import Prelude Rust Npt NptTables NptBuild NptEdit NptSplit.

(** ** The dirty log *)

Abbreviation dirty_bitmap_words num_pages := (div_ceil num_pages 64) (only parsing).

Record NptDirtyLog : Type := mk_NptDirtyLog {
  base_gpa : Z;
  num_pages : Z;
  log_bits : list Z
}.

(** The state of the log's methods: the log, and the tables [end_epoch] edits. *)
Definition log_new (base num : Z) (bits : list Z) : res NptError NptDirtyLog :=
  if num =? 0 then Err EmptyRegion
  else if tst base (HUGE_2MIB - 1) then Err UnalignedBase
  else
    let need := dirty_bitmap_words num in
    if len bits <? need then Err (TablesExceedBuffer (need * 8) (len bits * 8))
    else
      range_len ← ok_or (checked_mul num HUGE_2MIB) (DirtyRangeOverflow base num);
      _ ← ok_or (checked_add base range_len) (DirtyRangeOverflow base num);
      Ok (mk_NptDirtyLog base num (replicate (length bits) 0)).

Abbreviation locate page := (page / 64, 1 .<< (page mod 64)) (only parsing).

Definition page_index (l : NptDirtyLog) (gpa : Z) : option Z :=
  rel ← checked_sub gpa (base_gpa l);
  let page := rel / HUGE_2MIB in
  if page <? num_pages l then Some page else None.

(** [self.bits[word]], a panic out of range. *)
Definition log_word (l : NptDirtyLog) (w : Z) : res NptError Z :=
  match log_bits l !! Z.to_nat w with Some x => Ok x | None => Panic end.

Definition log_set_word (w v : Z) : M NptDirtyLog NptError unit := fun l =>
  (mk_NptDirtyLog (base_gpa l) (num_pages l) (<[Z.to_nat w := v]> (log_bits l)), Ok tt).

Definition record (fault_gpa : Z) : M NptDirtyLog NptError bool :=
  page ← reads (fun l => ok_or (page_index l fault_gpa)
                               (GpaOutOfRange fault_gpa (base_gpa l) (num_pages l)));
  let '(w, mask) := locate page in
  x ← reads (fun l => log_word l w);
  log_set_word w (x .| mask) ;;
  mret (negb (tst x mask)).

Definition is_dirty (l : NptDirtyLog) (gpa : Z) : res NptError bool :=
  match page_index l gpa with
  | None => Err (GpaOutOfRange gpa (base_gpa l) (num_pages l))
  | Some page =>
      let '(w, mask) := locate page in
      x ← log_word l w; Ok (tst x mask)
  end.

(** [u64::count_ones] *)
Fixpoint popcount (n : nat) (x : Z) : Z :=
  match n with
  | O => 0
  | S n' => Z.b2z (Z.odd x) + popcount n' (x / 2)
  end.

Definition dirty_page_count (l : NptDirtyLog) : Z :=
  foldr (fun w acc => popcount 64 w + acc) 0 (log_bits l).

(** One step of the [dirty_pages] iterator: the page's address when its bit is set. *)
Definition dirty_page (l : NptDirtyLog) (page : Z) : res NptError (option Z) :=
  let '(w, mask) := locate page in
  x ← log_word l w;
  Ok (if tst x mask then checked_add (base_gpa l) (page * HUGE_2MIB) else None).

(** The items of [dirty_pages] collected, in order. *)
Definition dirty_pages (l : NptDirtyLog) : res NptError (list Z) :=
  items ← mapM (dirty_page l) (seqZ 0 (num_pages l));
  Ok (omap id items).

(** [for gpa in self.dirty_pages() { set_npt_2mib_leaf_writable(..)?; count += 1 }] *)
Fixpoint reprotect_loop (l : NptDirtyLog) (phys_base : Z) (pages : list Z) (count : Z) : npt Z :=
  match pages with
  | [] => mret count
  | page :: pages' =>
      item ← reads (fun _ => dirty_page l page);
      match item with
      | Some gpa =>
          set_npt_2mib_leaf_writable phys_base gpa false ;;
          reprotect_loop l phys_base pages' (count + 1)
      | None => reprotect_loop l phys_base pages' count
      end
  end.

Definition reprotect_recorded (l : NptDirtyLog) (phys_base : Z) : npt Z :=
  reprotect_loop l phys_base (seqZ 0 (num_pages l)) 0.

Definition end_epoch (phys_base : Z) : M (NptDirtyLog * buffer) NptError Z := fun '(l, buf) =>
  match reprotect_recorded l phys_base buf with
  | (buf', Ok count) =>
      ((mk_NptDirtyLog (base_gpa l) (num_pages l) (replicate (length (log_bits l)) 0), buf'), Ok count)
  | (buf', Err e) => ((l, buf'), Err e)
  | (buf', Panic) => ((l, buf'), Panic)
  end.

(** ** The log as a set of pages *)

(** Page [q] is recorded in the bitmap. *)
Definition marked (l : NptDirtyLog) (q : Z) : bool :=
  match log_bits l !! Z.to_nat (q / 64) with
  | Some x => Z.testbit x (q mod 64)
  | None => false
  end.

Record log_wf (l : NptDirtyLog) : Prop := mk_log_wf {
  lw_base : 0 <= base_gpa l /\ base_gpa l mod 2 ^ 21 = 0;
  lw_num : 0 < num_pages l;
  lw_end : base_gpa l + num_pages l * 2 ^ 21 < 2 ^ 64;
  lw_bits : num_pages l <= 64 * len (log_bits l)
}.

Lemma tst_shift x i : 0 <= i -> tst x (1 .<< i) = Z.testbit x i.
Proof. intros. by apply tst_bit. Qed.

Lemma log_word_ok l q :
  log_wf l -> 0 <= q < num_pages l ->
  exists x, log_bits l !! Z.to_nat (q / 64) = Some x.
Proof.
  intros H Hq. apply lookup_lt_is_Some. destruct H. unfold len in *.
  pose proof (Z.div_pos q 64 ltac:(lia) ltac:(lia)).
  assert (q / 64 < Z.of_nat (length (log_bits l))) by (apply Z.div_lt_upper_bound; lia). lia.
Qed.

Lemma page_index_spec l gpa p :
  log_wf l ->
  page_index l gpa = Some p <-> 0 <= p < num_pages l /\ base_gpa l + p * 2 ^ 21 <= gpa < base_gpa l + (p + 1) * 2 ^ 21.
Proof.
  intros H. destruct H as [_ Hn _ _]. unfold page_index, checked_sub. change HUGE_2MIB with (2 ^ 21).
  destruct (Z.ltb_spec gpa (base_gpa l)); cbn [mbind option_bind]; [split; [done|lia]|].
  pose proof (Z.div_mod (gpa - base_gpa l) (2 ^ 21) ltac:(lia)).
  pose proof (Z.mod_pos_bound (gpa - base_gpa l) (2 ^ 21) ltac:(lia)).
  pose proof (Z.div_pos (gpa - base_gpa l) (2 ^ 21) ltac:(lia) ltac:(lia)).
  destruct (Z.ltb_spec ((gpa - base_gpa l) / 2 ^ 21) (num_pages l)); split; try (intros [=<-]; lia); try done.
  - intros [? ?]. f_equal. lia.
  - lia.
Qed.

(** One record: the page is added to the set, and the result tells whether it is new. *)
Lemma record_spec l g :
  log_wf l ->
  wp (record g) (fun l' r => log_wf l' /\ base_gpa l' = base_gpa l /\ num_pages l' = num_pages l /\
    match page_index l g with
    | Some p => r = Ok (negb (marked l p)) /\ forall q, 0 <= q -> marked l' q = marked l q || (q =? p)
    | None => r = Err (GpaOutOfRange g (base_gpa l) (num_pages l)) /\ l' = l
    end) l.
Proof.
  intros Hwf. unfold record. apply wp_bind. eapply wp_eq; [by unfold reads|].
  destruct (page_index l g) as [p|] eqn:Ep; cbn [ok_or]; [|by auto].
  apply page_index_spec in Ep as [Hp _]; [|done].
  destruct (log_word_ok l p Hwf Hp) as [x Hx]. cbn -[Z.shiftl].
  apply wp_bind. eapply wp_eq; [unfold reads, log_word; by rewrite Hx|]. cbv beta iota.
  apply wp_bind. eapply wp_eq; [by unfold log_set_word|]. cbv beta iota. apply wp_ret.
  pose proof (Z.mod_pos_bound p 64 ltac:(lia)). rewrite tst_shift by lia.
  split; [destruct Hwf; split; cbn; try done; unfold len in *; by rewrite length_insert|].
  split; [done|]. split; [done|]. split; [unfold marked; by rewrite Hx|].
  intros q Hq. unfold marked. cbn. pose proof (Z.mod_pos_bound q 64 ltac:(lia)).
  pose proof (Z.div_mod p 64 ltac:(lia)). pose proof (Z.div_mod q 64 ltac:(lia)).
  pose proof (Z.div_pos q 64 ltac:(lia) ltac:(lia)). pose proof (Z.div_pos p 64 ltac:(lia) ltac:(lia)).
  destruct (Z.eq_dec (q / 64) (p / 64)) as [E|Hne].
  - rewrite E, list_lookup_insert_eq, Hx by (by eapply lookup_lt_Some).
    rewrite Z.lor_spec. change (1 .<< (p mod 64)) with (bit (p mod 64)). rewrite testbit_bit by lia.
    f_equal. destruct (Z.eqb_spec (p mod 64) (q mod 64)), (Z.eqb_spec q p); (done || lia).
  - rewrite list_lookup_insert_ne by lia. destruct (Z.eqb_spec q p); [congruence|]. by rewrite orb_false_r.
Qed.

Lemma log_new_spec base num bits l :
  0 <= base -> 0 <= num -> log_new base num bits = Ok l ->
  log_wf l /\ base_gpa l = base /\ num_pages l = num /\ forall q, marked l q = false.
Proof.
  intros Hb Hn. unfold log_new. rewrite tst_huge. destruct (Z.eqb_spec num 0); [done|].
  destruct (Z.eqb_spec (base mod 2 ^ 21) 0); [|done]. cbn [negb].
  unfold checked_mul, checked_add. change HUGE_2MIB with (2 ^ 21).
  destruct (Z.ltb_spec (len bits) (div_ceil num 64)); [done|].
  destruct (Z.ltb_spec (num * 2 ^ 21) (2 ^ 64)); [|done]. cbn -[Z.pow].
  destruct (Z.ltb_spec (base + num * 2 ^ 21) (2 ^ 64)); [|done]. intros [=<-]. cbn -[Z.pow].
  destruct (div_ceil_spec num 64) as [_ ?]; [lia..|].
  split; [split; cbn -[Z.pow]; try (done || lia)|].
  - unfold len in *. rewrite length_replicate. lia.
  - split; [done|]. split; [done|]. intros q. unfold marked. cbn.
    destruct (replicate _ _ !! _) as [x|] eqn:E; [|done].
    apply lookup_replicate in E as [-> _]. by rewrite Z.testbit_0_l.
Qed.

(** ** Counting *)

(** How many of [0 .. n-1] satisfy [f]. *)
Fixpoint countb (n : nat) (f : Z -> bool) : Z :=
  match n with
  | O => 0
  | S n' => Z.b2z (f 0) + countb n' (fun i => f (i + 1))
  end.

Lemma countb_ext n f g : (forall i, 0 <= i < Z.of_nat n -> f i = g i) -> countb n f = countb n g.
Proof.
  revert f g. induction n as [|n IH]; intros f g H; cbn; [done|].
  rewrite (H 0) by lia. f_equal. apply IH. intros i Hi. apply H. lia.
Qed.

Lemma countb_app n m f : countb (n + m) f = countb n f + countb m (fun i => f (Z.of_nat n + i)).
Proof.
  revert f. induction n as [|n IH]; intros f; cbn [countb Nat.add].
  - apply countb_ext. intros. by rewrite Z.add_0_l.
  - rewrite IH, <- Z.add_assoc. do 2 f_equal. apply countb_ext. intros i Hi. f_equal. lia.
Qed.

Lemma countb_false n f : (forall i, 0 <= i < Z.of_nat n -> f i = false) -> countb n f = 0.
Proof.
  intros H. rewrite (countb_ext n f (fun _ => false)) by done. clear. induction n; cbn; [done|]. by rewrite IHn.
Qed.

Lemma length_filter_fmap (f : Z -> bool) (l : list Z) :
  length (filter (fun p => Is_true (f p)) (Z.add 1 <$> l)) = length (filter (fun p => Is_true (f (p + 1))) l).
Proof.
  induction l as [|x l IH]; [done|]. cbn [fmap list_fmap]. rewrite !filter_cons, (Z.add_comm 1 x).
  destruct (decide (Is_true (f (x + 1)))); cbn [length]; by rewrite <- IH.
Qed.

Lemma countb_filter n f : countb n f = Z.of_nat (length (filter (fun p => Is_true (f p)) (seqZ 0 (Z.of_nat n)))).
Proof.
  revert f. induction n as [|n IH]; intros f; [done|]. cbn [countb]. rewrite IH.
  rewrite Nat2Z.inj_succ, (seqZ_cons 0 (Z.succ _)) by lia. rewrite filter_cons.
  replace (Z.succ 0) with (0 + 1) by lia. rewrite Z.pred_succ, <- (fmap_add_seqZ 1 0).
  rewrite <- length_filter_fmap. destruct (f 0); cbn [Z.b2z]; case_decide; cbn [length]; (done || lia).
Qed.

Lemma popcount_countb n x : popcount n x = countb n (Z.testbit x).
Proof.
  revert x. induction n as [|n IH]; intros x; cbn [popcount countb]; [done|].
  rewrite IH, Z.bit0_odd. f_equal. apply countb_ext. intros i Hi.
  rewrite <- Z.div2_div, Z.div2_spec, Z.shiftr_spec by lia. done.
Qed.

(** The bit [q] of a bitmap. *)
Definition bit_of (bits : list Z) (q : Z) : bool :=
  match bits !! Z.to_nat (q / 64) with Some x => Z.testbit x (q mod 64) | None => false end.

Lemma count_ones_countb bits :
  foldr (fun w acc => popcount 64 w + acc) 0 bits = countb (64 * length bits) (bit_of bits).
Proof.
  induction bits as [|w bits IH]; [done|]. cbn [foldr length]. rewrite IH, popcount_countb.
  replace (64 * S (length bits))%nat with (64 + 64 * length bits)%nat by lia. rewrite countb_app.
  f_equal; apply countb_ext; intros i Hi; unfold bit_of.
  replace (Z.of_nat 64 + i) with (i + 1 * 64) by lia. rewrite Z.div_add, Z.mod_add by lia.
  pose proof (Z.div_pos i 64 ltac:(lia) ltac:(lia)). by rewrite Z2Nat.inj_add by lia; rewrite Nat.add_comm.
Qed.

(** ** The log over a run *)

(** The calls [record(g)] for each [g] in turn, whatever each returns. *)
Definition record_all (gs : list Z) (l : NptDirtyLog) : NptDirtyLog :=
  foldl (fun l g => (record g l).1) l gs.

(** One of the addresses falls in page [p] of the log. *)
Definition hit (l : NptDirtyLog) (gs : list Z) (p : Z) : bool :=
  existsb (fun g => bool_decide (page_index l g = Some p)) gs.

Lemma page_index_same l l' g :
  base_gpa l' = base_gpa l -> num_pages l' = num_pages l -> page_index l' g = page_index l g.
Proof. intros Hb Hn. unfold page_index. by rewrite Hb, Hn. Qed.

Lemma record_all_spec gs : forall l, log_wf l ->
  let l' := record_all gs l in
  log_wf l' /\ base_gpa l' = base_gpa l /\ num_pages l' = num_pages l /\
  forall q, 0 <= q -> marked l' q = marked l q || hit l gs q.
Proof.
  induction gs as [|g gs IH]; intros l Hwf; cbn zeta.
  { do 3 (split; [done|]). intros. cbn. by rewrite orb_false_r. }
  pose proof (record_spec l g Hwf) as (Hwf1 & Hb1 & Hn1 & Hm1).
  change (record_all (g :: gs) l) with (record_all gs (record g l).1).
  destruct (IH _ Hwf1) as (Hwf2 & Hb2 & Hn2 & Hm2). do 3 (split; [congruence|]). intros q Hq.
  rewrite (Hm2 q Hq). unfold hit at 1 2. cbn [existsb].
  assert (Hsame : existsb (fun g0 => bool_decide (page_index (record g l).1 g0 = Some q)) gs =
                  existsb (fun g0 => bool_decide (page_index l g0 = Some q)) gs).
  { clear -Hb1 Hn1. induction gs as [|g0 gs IH]; cbn; [done|]. by rewrite IH, (page_index_same l _ g0 Hb1 Hn1). }
  rewrite Hsame, orb_assoc. f_equal. destruct (page_index l g) as [p|].
  - rewrite (proj2 Hm1) by done. f_equal. case_bool_decide as E; [injection E as ->; apply Z.eqb_refl|].
    apply Z.eqb_neq. congruence.
  - rewrite (proj2 Hm1). by rewrite orb_false_r.
Qed.

Lemma is_dirty_spec l gpa p :
  log_wf l -> page_index l gpa = Some p -> is_dirty l gpa = Ok (marked l p).
Proof.
  intros Hwf Hp. unfold is_dirty. rewrite Hp. apply page_index_spec in Hp as [Hp _]; [|done].
  destruct (log_word_ok l p Hwf Hp) as [x Hx]. cbn -[Z.shiftl]. unfold log_word, marked. rewrite Hx. cbn -[Z.shiftl].
  pose proof (Z.mod_pos_bound p 64 ltac:(lia)). by rewrite tst_shift by lia.
Qed.

Lemma dirty_page_spec l p :
  log_wf l -> 0 <= p < num_pages l ->
  dirty_page l p = Ok (if marked l p then Some (base_gpa l + p * 2 ^ 21) else None).
Proof.
  intros Hwf Hp. destruct (log_word_ok l p Hwf Hp) as [x Hx]. destruct Hwf as [_ _ He _].
  unfold dirty_page, log_word, marked. cbn -[Z.shiftl Z.pow]. rewrite Hx. cbn -[Z.shiftl Z.pow].
  pose proof (Z.mod_pos_bound p 64 ltac:(lia)). rewrite tst_shift by lia.
  destruct (Z.testbit x (p mod 64)); [|done]. unfold checked_add. change HUGE_2MIB with (2 ^ 21).
  by destruct (Z.ltb_spec (base_gpa l + p * 2 ^ 21) (2 ^ 64)); [|lia].
Qed.

Lemma dirty_pages_spec l :
  log_wf l ->
  dirty_pages l = Ok ((fun p => base_gpa l + p * 2 ^ 21) <$> filter (fun p => Is_true (marked l p)) (seqZ 0 (num_pages l))).
Proof.
  intros Hwf. unfold dirty_pages.
  assert (H : forall ps, Forall (fun p => 0 <= p < num_pages l) ps ->
    exists items, mapM (dirty_page l) ps = Ok items /\
      omap id items = (fun p => base_gpa l + p * 2 ^ 21) <$> filter (fun p => Is_true (marked l p)) ps).
  { induction 1 as [|p ps Hp _ (items & E & Ei)]; [by exists []|].
    exists ((if marked l p then Some (base_gpa l + p * 2 ^ 21) else None) :: items). cbn [mapM].
    rewrite (dirty_page_spec l p Hwf Hp). cbn [mbind res_bind]. rewrite E. split; [done|].
    rewrite filter_cons. destruct (marked l p); cbn; rewrite Ei; case_decide; done. }
  destruct (H (seqZ 0 (num_pages l))) as (items & -> & Ei).
  - apply Forall_forall. intros p Hp%list_elem_of_In%elem_of_seqZ. lia.
  - cbn. by rewrite Ei.
Qed.

Lemma dirty_page_count_spec l :
  log_wf l -> (forall q, num_pages l <= q -> marked l q = false) ->
  dirty_page_count l = Z.of_nat (length (filter (fun p => Is_true (marked l p)) (seqZ 0 (num_pages l)))).
Proof.
  intros Hwf Hout. unfold dirty_page_count. rewrite count_ones_countb. destruct Hwf as [_ Hn _ Hb]. unfold len in Hb.
  replace (64 * length (log_bits l))%nat
    with (Z.to_nat (num_pages l) + (64 * length (log_bits l) - Z.to_nat (num_pages l)))%nat by lia.
  rewrite countb_app, (countb_false (_ - _)), Z.add_0_r.
  - rewrite countb_filter, Z2Nat.id by lia. done.
  - intros i Hi. apply Hout. lia.
Qed.

(** the dirty log is a set of pages.  From a fresh log, after any sequence
    of recorded faults, a page is reported dirty exactly when one of the faults
    hit it, [dirty_pages] lists the bases of exactly those pages in ascending
    order, and [dirty_page_count] is their number. *)
Theorem npt_dirty_log_set base num bits l gs :
  0 <= base -> 0 <= num -> log_new base num bits = Ok l ->
  let l' := record_all gs l in
  (forall gpa p, page_index l gpa = Some p -> is_dirty l' gpa = Ok (hit l gs p)) /\
  let dirty := filter (fun p => Is_true (hit l gs p)) (seqZ 0 num) in
  dirty_pages l' = Ok ((fun p => base + p * 2 ^ 21) <$> dirty) /\
  dirty_page_count l' = Z.of_nat (length dirty).
Proof.
  intros Hb Hn Hnew l'. destruct (log_new_spec base num bits l Hb Hn Hnew) as (Hwf & Eb & En & H0).
  destruct (record_all_spec gs l Hwf) as (Hwf' & Eb' & En' & Hm). fold l' in Hwf', Eb', En', Hm.
  assert (Hmark : forall q, 0 <= q -> marked l' q = hit l gs q) by (intros; by rewrite Hm, H0).
  assert (Hfil : filter (fun p => Is_true (marked l' p)) (seqZ 0 num) = filter (fun p => Is_true (hit l gs p)) (seqZ 0 num)).
  { assert (Forall (fun q => 0 <= q) (seqZ 0 num)) as Hall by (apply Forall_forall; intros p Hp%list_elem_of_In%elem_of_seqZ; lia).
    induction Hall as [|p ps Hp _ IH]; [done|]. rewrite !filter_cons, IH, (Hmark p Hp). done. }
  split; [|split].
  - intros gpa p Hp. rewrite (is_dirty_spec l' gpa p Hwf') by (by rewrite (page_index_same l l' gpa Eb' En')).
    f_equal. apply (page_index_spec l gpa p Hwf) in Hp as [? _]. apply Hmark. lia.
  - rewrite (dirty_pages_spec l' Hwf'), En', En, Eb', Eb, Hfil. done.
  - rewrite (dirty_page_count_spec l' Hwf'); [by rewrite En', En, Hfil|].
    intros q Hq. rewrite Hmark by (destruct Hwf'; lia). unfold hit.
    apply not_true_iff_false. intros (g & _ & Hg)%existsb_exists. apply bool_decide_eq_true in Hg.
    apply (page_index_spec l g q Hwf) in Hg. lia.
Qed.

Lemma npt_dirty_log_set_witness :
  exists l, log_new 0x400000 3 [7] = Ok l /\
    dirty_pages (record_all [0x812345; 0x400000; 0x800000; 0xA00000] l) = Ok [0x400000; 0x800000].
Proof.
  eexists. split; [reflexivity|].
  destruct (npt_dirty_log_set 0x400000 3 [7] _ [0x812345; 0x400000; 0x800000; 0xA00000]
              ltac:(lia) ltac:(lia) eq_refl) as (_ & H & _).
  rewrite H. reflexivity.
Defined.

(** ** Re-protection *)

(** A present 2 MiB leaf covers [gpa]. *)
Definition huge_leaf (role : roles) (buf : buffer) (gpa : Z) : Prop :=
  exists t, role t = Some (2, pfx 2 gpa) /\
    Z.testbit (ent buf t (idx 2 gpa)) 0 = true /\ Z.testbit (ent buf t (idx 2 gpa)) 7 = true.

Lemma protect_spec pb buf role gpa b :
  Tables pb buf role -> bytes_ok buf -> 0 <= gpa < 2 ^ 48 -> gpa mod 2 ^ 21 = 0 -> huge_leaf role buf gpa ->
  wp (set_npt_2mib_leaf_writable pb gpa b) (fun buf' r =>
    r = Ok tt /\ bytes_ok buf' /\ Tables pb buf' role /\ exists t, role t = Some (2, pfx 2 gpa) /\
      slot_upd role buf buf' t (idx 2 gpa) (set_flag (ent buf t (idx 2 gpa)) WRITABLE b)) buf.
Proof.
  intros T Hb Hg Ha (t0 & Ht0 & Hp & Hh). unfold set_npt_2mib_leaf_writable. rewrite tst_huge, Ha. cbn [negb Z.eqb].
  apply (wp_walk_pd pb buf role T gpa Hg); [|by intros Hn; exfalso; apply (Hn t0)].
  intros t Ht. pose proof (role_eq _ _ _ T _ _ _ Ht0 Ht) as ->. clear Ht0.
  destruct (tb_in _ _ _ T _ _ _ Ht) as (Hin & _). pose proof (idx_range 2 gpa) as Hi. rewrite pd_i_idx.
  apply wp_bind. eapply wp_eq; [unfold reads; by rewrite read_entry_ent|]. cbv beta iota.
  rewrite tst_PRESENT, tst_HUGE, Hp, Hh. cbn [negb orb]. eapply wp_eq; [by apply write_entry_ok|].
  set (e := set_flag _ _ _). assert (Hfit : fits 64 e) by (apply set_flag_fits; [by apply word_fits|done]).
  pose proof (slot_upd_put pb buf role t _ (idx 2 gpa) e T Ht Hi Hfit) as Hup.
  split; [done|]. split; [by apply bytes_ok_put|]. split; [|by exists t].
  destruct Hup as [Hl He]. apply (Tables_leaves pb buf role T); [done|].
  intros t' l p i Ht' Hl3 Hj. rewrite He by (done || congruence).
  case_bool_decide as E; [right|by left]. injection E as -> ->. rewrite Ht in Ht'. injection Ht' as <- <-.
  split; [done|]. split; [|by unfold e; rewrite !testbit_set_writable by lia].
  rewrite <- (pfx_step 2) by lia. intros c. destruct (walk_step _ _ _ T 2 gpa t Ht ltac:(lia))
    as [(Hc & _)|[(_ & _ & _ & Hn)|(c' & (_ & Hc & _) & _)]]; [|apply Hn|]; congruence.
Qed.

(** The PD entries of the 2 MiB pages that [D] selects lose their write
    permission; nothing else changes. *)
Definition protected (role : roles) (buf buf' : buffer) (D : Z -> bool) : Prop :=
  len buf' = len buf /\
  forall t l q i, role t = Some (l, q) -> 0 <= i < 512 ->
    ent buf' t i = if (l =? 2) && D (q * 512 + i) then set_flag (ent buf t i) WRITABLE false else ent buf t i.

Lemma protected_translate pb role buf buf' D g :
  Tables pb buf role -> Tables pb buf' role -> protected role buf buf' D -> 0 <= g < 2 ^ 48 ->
  translate_npt buf' pb g = translate_npt buf pb g.
Proof.
  intros T T' [Hl He] Hg.
  apply (translate_same_leaves pb role buf buf' g T T' Hg). intros t l Ht Hll.
  rewrite (He t l _ _ Ht (idx_range l g)). destruct (_ && _); [|done].
  by rewrite testbit_set_writable, set_writable_addr by lia.
Qed.

Lemma protected_step role buf buf1 buf2 D D' t gpa :
  (forall t t' x, role t = Some x -> role t' = Some x -> t = t') ->
  role t = Some (2, pfx 2 gpa) ->
  slot_upd role buf buf1 t (idx 2 gpa) (set_flag (ent buf t (idx 2 gpa)) WRITABLE false) ->
  protected role buf1 buf2 D -> D (pfx 3 gpa) = false ->
  (forall q, D' q = (q =? pfx 3 gpa) || D q) -> protected role buf buf2 D'.
Proof.
  intros Hinj Ht [Hl1 H1] [Hl2 H2] HD HD'. split; [congruence|]. intros t' l q i Ht' Hi.
  rewrite (H2 t' l q i Ht' Hi), (H1 t' i) by (done || congruence). rewrite HD'.
  pose proof (pfx_step 2 gpa ltac:(lia)) as E3. change (2 + 1) with 3 in E3. pose proof (idx_range 2 gpa).
  case_bool_decide as E.
  - injection E as -> ->. rewrite Ht in Ht'. injection Ht' as <- <-.
    rewrite <- E3, HD, (Z.eqb_refl (pfx 3 gpa)). reflexivity.
  - destruct (Z.eqb_spec l 2) as [->|]; cbn [andb]; [|done].
    destruct (Z.eqb_spec (q * 512 + i) (pfx 3 gpa)) as [Eq|]; [|done]. exfalso. apply E.
    assert (q = pfx 2 gpa /\ i = idx 2 gpa) as [-> ->] by lia. f_equal. eauto.
Qed.

(** The dirty pages from [k] on, as 2 MiB page numbers. *)
Definition dirty_from (l : NptDirtyLog) (k q : Z) : bool :=
  let p := q - base_gpa l / 2 ^ 21 in (k <=? p) && (p <? num_pages l) && marked l p.

Section reprotect.
Context (pb : Z) (role : roles) (l : NptDirtyLog) (Hwf : log_wf l).
Hypothesis (Hend : base_gpa l + num_pages l * 2 ^ 21 <= 2 ^ 48).

Definition leaves_ok (buf : buffer) (k : Z) : Prop :=
  forall p, k <= p < num_pages l -> marked l p = true -> huge_leaf role buf (base_gpa l + p * 2 ^ 21).

Lemma base_page p : (base_gpa l + p * 2 ^ 21) / 2 ^ 21 = base_gpa l / 2 ^ 21 + p.
Proof. by rewrite Z.div_add by lia. Qed.

Lemma reprotect_loop_spec n : forall k buf cnt,
  Tables pb buf role -> bytes_ok buf -> 0 <= k -> k + Z.of_nat n = num_pages l -> leaves_ok buf k ->
  wp (reprotect_loop l pb (seqZ k (Z.of_nat n)) cnt) (fun buf' r =>
    r = Ok (cnt + countb n (fun i => marked l (k + i))) /\ Tables pb buf' role /\
    protected role buf buf' (dirty_from l k)) buf.
Proof.
  assert (Hpast : forall k q, num_pages l <= k -> dirty_from l k q = false).
  { intros k q Hk. unfold dirty_from. zcases; (done || lia). }
  induction n as [|n IH]; intros k buf cnt T Hb Hk Hn Hok.
  { cbn. apply wp_ret. split; [by rewrite Z.add_0_r|]. split; [done|]. split; [done|].
    intros. rewrite Hpast by lia. by rewrite andb_false_r. }
  rewrite Nat2Z.inj_succ, seqZ_cons, Z.pred_succ by lia. cbn [reprotect_loop].
  apply wp_bind. eapply wp_eq; [unfold reads; by rewrite dirty_page_spec by (done || lia)|]. cbv beta iota.
  assert (Hcount : countb (S n) (fun i => marked l (k + i)) =
    Z.b2z (marked l k) + countb n (fun i => marked l (Z.succ k + i))).
  { cbn [countb]. rewrite Z.add_0_r. f_equal. apply countb_ext. intros i Hi. f_equal. lia. }
  rewrite Hcount. destruct (marked l k) eqn:Hmk; cbn [Z.b2z].
  2: { eapply wp_mono; [apply (IH (Z.succ k) buf cnt); try (done || lia)|].
       - intros p Hp. apply Hok. lia.
       - intros buf' r (-> & T' & Hl & Hpr). split; [done|]. split; [done|]. split; [done|].
         intros t l' q i Ht Hi. rewrite (Hpr t l' q i Ht Hi). do 2 f_equal. unfold dirty_from.
         destruct (Z.eq_dec (q * 512 + i - base_gpa l / 2 ^ 21) k) as [->|]; [rewrite Hmk, !andb_false_r; done|].
         zcases; (done || lia). }
  destruct Hwf as [[Hb0 Hba] Hn0 _ _]. set (gpa := base_gpa l + k * 2 ^ 21).
  assert (Hgpa : 0 <= gpa < 2 ^ 48) by (unfold gpa; lia).
  assert (Hga : gpa mod 2 ^ 21 = 0) by (unfold gpa; by rewrite Z.mod_add by lia).
  assert (Hp3 : pfx 3 gpa = base_gpa l / 2 ^ 21 + k) by apply base_page.
  apply wp_bind. eapply wp_mono; [apply (protect_spec pb buf role gpa false); try done; apply Hok; [lia|done]|].
  intros buf1 r (-> & Hb1 & T1 & t & Ht & Hup). cbv beta iota.
  eapply wp_mono; [apply (IH (Z.succ k) buf1 (cnt + 1)); try (done || lia)|].
  - intros p Hp Hm. destruct (Hok p ltac:(lia) Hm) as (t' & Ht' & Hpr & Hhu). exists t'.
    assert (Hne : pfx 3 (base_gpa l + p * 2 ^ 21) <> pfx 3 gpa).
    { rewrite Hp3. change (pfx 3 (base_gpa l + p * 2 ^ 21)) with ((base_gpa l + p * 2 ^ 21) / 2 ^ 21).
      rewrite base_page. lia. }
    destruct Hup as [_ He]. rewrite He by (apply idx_range || congruence).
    rewrite bool_decide_eq_false_2; [done|]. intros [= -> Ei]. apply Hne, (pfx_split 2); [lia|].
    split; [congruence|done].
  - intros buf2 r (-> & T2 & Hpr). split; [f_equal; lia|]. split; [done|].
    apply (protected_step role buf buf1 buf2 (dirty_from l (Z.succ k)) _ t gpa); try done.
    + apply T.
    + unfold dirty_from. rewrite Hp3. zcases; (done || lia).
    + intros q. rewrite Hp3. unfold dirty_from. destruct (Z.eqb_spec q (base_gpa l / 2 ^ 21 + k)) as [->|].
      * replace (base_gpa l / 2 ^ 21 + k - base_gpa l / 2 ^ 21) with k by lia. rewrite Hmk. zcases; (done || lia).
      * cbn [orb]. zcases; (done || lia).
Qed.
End reprotect.

(** ending an epoch.  When every recorded page still has its present 2 MiB
    leaf, [end_epoch] succeeds with the number of dirty pages, the bitmap is
    empty afterwards, exactly the PD entries of the dirty pages lose their
    write permission, and no guest translation changes. *)
Theorem npt_end_epoch_reprotects pb buf role l :
  log_wf l -> base_gpa l + num_pages l * 2 ^ 21 <= 2 ^ 48 ->
  (forall q, num_pages l <= q -> marked l q = false) ->
  Tables pb buf role -> bytes_ok buf -> leaves_ok role l buf 0 ->
  exists l' buf', end_epoch pb (l, buf) = ((l', buf'), Ok (dirty_page_count l)) /\
    (forall q, marked l' q = false) /\
    protected role buf buf' (dirty_from l 0) /\
    forall g, 0 <= g < 2 ^ 48 -> translate_npt buf' pb g = translate_npt buf pb g.
Proof.
  intros Hwf Hend Hout T Hb Hok. pose proof (lw_num l Hwf).
  pose proof (reprotect_loop_spec pb role l Hwf Hend (Z.to_nat (num_pages l)) 0 buf 0 T Hb
    ltac:(lia) ltac:(lia) Hok) as H'. rewrite Z2Nat.id in H' by lia.
  unfold end_epoch, reprotect_recorded. unfold wp in H'.
  destruct (reprotect_loop l pb (seqZ 0 (num_pages l)) 0 buf) as [buf' r]. cbn [fst snd] in H'.
  destruct H' as (-> & T' & Hpr). eexists _, buf'.
  split; [f_equal; f_equal; rewrite dirty_page_count_spec, Z.add_0_l, countb_filter, Z2Nat.id by (done || lia); done|].
  split; [|split; [done|intros; by eapply protected_translate]].
  intros q. unfold marked. cbn. destruct (replicate _ _ !! _) as [x|] eqn:E; [|done].
  apply lookup_replicate in E as [-> _]. by rewrite Z.testbit_0_l.
Qed.

Lemma npt_end_epoch_reprotects_witness :
  exists l buf l' buf', log_new 0 2 [0] = Ok l /\
    end_epoch 0 (record_all [0x234567] l, buf) = ((l', buf'), Ok 1) /\
    translate_npt buf 0 0x234567 = Some 0x234567 /\ translate_npt buf' 0 0x234567 = Some 0x234567.
Proof.
  destruct small_map_exists as (buf & Hl & Hb & T & Hent & Ht).
  destruct (npt_end_epoch_reprotects 0 buf (huge_role 1 None)
              (record_all [0x234567] (mk_NptDirtyLog 0 2 [0]))) as (l' & buf' & E & _ & _ & Hk).
  - split; [split; [reflexivity || discriminate|reflexivity]|reflexivity|reflexivity|discriminate].
  - discriminate.
  - intros q Hq. change (2 <= q) in Hq. unfold marked. change (log_bits _) with [2]. destruct (Z.to_nat (q / 64)) as [|n] eqn:E; [|done].
    change (Z.testbit (bit 1) (q mod 64) = false). rewrite testbit_bit by lia.
    pose proof (Z.div_mod q 64 ltac:(lia)). pose proof (Z.div_pos q 64 ltac:(lia) ltac:(lia)).
    destruct (Z.eqb_spec 1 (q mod 64)); [lia|done].
  - exact T.
  - exact Hb.
  - intros p Hp Hm. change (0 <= p < 2) in Hp. assert (p = 0 \/ p = 1) as [->| ->] by lia; [discriminate Hm|].
    exists 2. split; [reflexivity|]. change (idx 2 _) with 1. rewrite Hent by lia. split; reflexivity.
  - exists (mk_NptDirtyLog 0 2 [0]), buf, l', buf'. split; [reflexivity|]. split; [exact E|].
    rewrite Hk by lia. rewrite Ht by lia. split; reflexivity.
Defined.
