(* ===== verification/Pic.v ===== *)
(** * The 8259A interrupt controllers (enlil-devices/src/interrupt/pic.rs)

    [Pic8259] is one chip with its three core registers, its initialization
    sequence and its OCW3 read-back state; [DualPic] is the cascaded
    master/slave pair that the guest programs through ports 0x20/0x21,
    0xA0/0xA1 and the ELCR ports 0x4D0/0x4D1.  Every method of the source is a
    state-passing function; a method that returns a value returns the new state
    with it. *)

From Stdlib Require Import ZArith Lia Bool.
From stdpp Require Import base decidable list numbers relations.
From S2P Require Import Prelude.

Abbreviation MASTER_CMD := 0x20 (only parsing).
Abbreviation MASTER_DATA := 0x21 (only parsing).
Abbreviation SLAVE_CMD := 0xA0 (only parsing).
Abbreviation SLAVE_DATA := 0xA1 (only parsing).
Definition CASCADE_IRQ : Z := 2.
Abbreviation ELCR_MASTER := 0x4D0 (only parsing).
Abbreviation ELCR_SLAVE := 0x4D1 (only parsing).
Abbreviation ELCR_MASTER_WRITABLE := 0xF8 (only parsing).
Abbreviation ELCR_SLAVE_WRITABLE := 0xDE (only parsing).

Inductive InitStep : Type := Ready | Icw2 | Icw3 | Icw4.

#[export] Instance InitStep_eq_dec : EqDecision InitStep.
Proof. solve_decision. Defined.

Record ReadState : Type := mk_ReadState {
  isr_selected : bool;
  special_mask : bool;
  poll : bool
}.

Abbreviation ReadState_new := (mk_ReadState false false false) (only parsing).

Record Pic8259 : Type := mk_Pic8259 {
  irr : Z;
  isr : Z;
  imr : Z;
  vector_base : Z;
  init_step : InitStep;
  expect_icw4 : bool;
  single : bool;
  auto_eoi : bool;
  elcr : Z;
  line_level : Z;
  read : ReadState
}.

Definition Pic8259_new : Pic8259 :=
  mk_Pic8259 0 0 0 0 Ready false false false 0 0 ReadState_new.

(** Field updates. *)
Definition with_irr (p : Pic8259) (v : Z) : Pic8259 :=
  mk_Pic8259 v (isr p) (imr p) (vector_base p) (init_step p) (expect_icw4 p)
    (single p) (auto_eoi p) (elcr p) (line_level p) (read p).
Definition with_isr (p : Pic8259) (v : Z) : Pic8259 :=
  mk_Pic8259 (irr p) v (imr p) (vector_base p) (init_step p) (expect_icw4 p)
    (single p) (auto_eoi p) (elcr p) (line_level p) (read p).
Definition with_imr (p : Pic8259) (v : Z) : Pic8259 :=
  mk_Pic8259 (irr p) (isr p) v (vector_base p) (init_step p) (expect_icw4 p)
    (single p) (auto_eoi p) (elcr p) (line_level p) (read p).
Definition with_vector_base (p : Pic8259) (v : Z) : Pic8259 :=
  mk_Pic8259 (irr p) (isr p) (imr p) v (init_step p) (expect_icw4 p)
    (single p) (auto_eoi p) (elcr p) (line_level p) (read p).
Definition with_init_step (p : Pic8259) (v : InitStep) : Pic8259 :=
  mk_Pic8259 (irr p) (isr p) (imr p) (vector_base p) v (expect_icw4 p)
    (single p) (auto_eoi p) (elcr p) (line_level p) (read p).
Definition with_auto_eoi (p : Pic8259) (v : bool) : Pic8259 :=
  mk_Pic8259 (irr p) (isr p) (imr p) (vector_base p) (init_step p) (expect_icw4 p)
    (single p) v (elcr p) (line_level p) (read p).
Definition with_elcr (p : Pic8259) (v : Z) : Pic8259 :=
  mk_Pic8259 (irr p) (isr p) (imr p) (vector_base p) (init_step p) (expect_icw4 p)
    (single p) (auto_eoi p) v (line_level p) (read p).
Definition with_line_level (p : Pic8259) (v : Z) : Pic8259 :=
  mk_Pic8259 (irr p) (isr p) (imr p) (vector_base p) (init_step p) (expect_icw4 p)
    (single p) (auto_eoi p) (elcr p) v (read p).
Definition with_read (p : Pic8259) (v : ReadState) : Pic8259 :=
  mk_Pic8259 (irr p) (isr p) (imr p) (vector_base p) (init_step p) (expect_icw4 p)
    (single p) (auto_eoi p) (elcr p) (line_level p) v.

(** ** Pic8259 *)

Definition set_line (p : Pic8259) (irq : Z) (level : bool) : Pic8259 :=
  if 8 <=? irq then p
  else
    let b := bit irq in
    let p := with_line_level p
               (if level then line_level p .| b else line_level p .&~ b) in
    if tst (elcr p) b then
      with_irr p (if level then irr p .| b else irr p .&~ b)
    else if level then with_irr p (irr p .| b)
    else p.

Definition raise (p : Pic8259) (irq : Z) : Pic8259 := set_line p irq true.

Definition set_elcr (p : Pic8259) (val writable : Z) : Pic8259 :=
  with_elcr p (val .& writable).

Definition write_icw1 (p : Pic8259) (val : Z) : Pic8259 :=
  mk_Pic8259 (irr p) 0 0 (vector_base p) Icw2 (tst val 0x01) (tst val 0x02)
    false (elcr p) (line_level p) ReadState_new.

Definition clear_highest_in_service (p : Pic8259) : Pic8259 :=
  if isr p =? 0 then p
  else
    let level := ctz 8 (isr p) .& 0x07 in
    with_isr p (isr p .&~ bit level).

Definition write_ocw2 (p : Pic8259) (val : Z) : Pic8259 :=
  let specific := tst val 0x40 in
  let eoi := tst val 0x20 in
  if negb eoi then p
  else if specific then
    let level := val .& 0x07 in
    with_isr p (isr p .&~ bit level)
  else clear_highest_in_service p.

Definition write_ocw3 (p : Pic8259) (val : Z) : Pic8259 :=
  let r := read p in
  with_read p
    (mk_ReadState
       (if tst val 0x02 then tst val 0x01 else isr_selected r)
       (if tst val 0x40 then tst val 0x20 else special_mask r)
       (if tst val 0x04 then true else poll r)).

Definition write_command (p : Pic8259) (val : Z) : Pic8259 :=
  if tst val 0x10 then write_icw1 p val
  else if tst val 0x08 then write_ocw3 p val
  else write_ocw2 p val.

Definition write_data (p : Pic8259) (val : Z) : Pic8259 :=
  match init_step p with
  | Icw2 =>
      let p := with_vector_base p (val .& 0xF8) in
      with_init_step p
        (if single p then (if expect_icw4 p then Icw4 else Ready) else Icw3)
  | Icw3 => with_init_step p (if expect_icw4 p then Icw4 else Ready)
  | Icw4 => with_init_step (with_auto_eoi p (tst val 0x02)) Ready
  | Ready => with_imr p val
  end.

(** The [while irq < ceiling] scan of [resolve], by the levels left to look at. *)
Fixpoint resolve_scan (n : nat) (irq requests : Z) : option Z :=
  match n with
  | O => None
  | S n' => if tst requests (bit irq) then Some irq
            else resolve_scan n' (irq + 1) requests
  end.

Definition resolve_blocking (p : Pic8259) : Z :=
  if special_mask (read p) then isr p .&~ imr p else isr p.

Definition resolve_ceiling (blocking : Z) : Z :=
  if blocking =? 0 then 8 else ctz 8 blocking .& 0x07.

Definition resolve (p : Pic8259) (ir : Z) : option Z :=
  let requests := ir .&~ imr p in
  if requests =? 0 then None
  else resolve_scan (Z.to_nat (resolve_ceiling (resolve_blocking p))) 0 requests.

(** The state change of [acknowledge] once [resolve] has chosen [irq]. *)
Definition acknowledge_irq (p : Pic8259) (irq : Z) : Pic8259 :=
  let b := bit irq in
  let p := with_irr p (irr p .&~ b) in
  let p := if tst (elcr p) b && tst (line_level p) b
           then with_irr p (irr p .| b) else p in
  if auto_eoi p then p else with_isr p (isr p .| b).

Definition acknowledge (p : Pic8259) : Pic8259 * option Z :=
  match resolve p (irr p) with
  | Some irq => (acknowledge_irq p irq, Some irq)
  | None => (p, None)
  end.

Definition read_command (p : Pic8259) : Pic8259 * Z :=
  let r := read p in
  if poll r then
    let p := with_read p (mk_ReadState (isr_selected r) (special_mask r) false) in
    match acknowledge p with
    | (p, Some irq) => (p, 0x80 .| irq)
    | (p, None) => (p, 0x00)
    end
  else (p, if isr_selected r then isr p else irr p).

Definition read_data (p : Pic8259) : Z := imr p.

(** ** DualPic *)

Record DualPic : Type := mk_DualPic { master : Pic8259; slave : Pic8259 }.

Abbreviation DualPic_new := (mk_DualPic Pic8259_new Pic8259_new) (only parsing).

Definition with_master (d : DualPic) (p : Pic8259) : DualPic := mk_DualPic p (slave d).
Definition with_slave (d : DualPic) (p : Pic8259) : DualPic := mk_DualPic (master d) p.

Definition set_irq_level (d : DualPic) (irq : Z) (level : bool) : DualPic :=
  if irq <? 8 then with_master d (set_line (master d) irq level)
  else if irq <? 16 then with_slave d (set_line (slave d) (irq - 8) level)
  else d.

Abbreviation raise_irq d irq := (set_irq_level d irq true).

Definition write_elcr (d : DualPic) (port val : Z) : DualPic :=
  if port =? ELCR_MASTER then with_master d (set_elcr (master d) val ELCR_MASTER_WRITABLE)
  else if port =? ELCR_SLAVE then with_slave d (set_elcr (slave d) val ELCR_SLAVE_WRITABLE)
  else d.

Definition read_elcr (d : DualPic) (port : Z) : Z :=
  if port =? ELCR_MASTER then elcr (master d)
  else if port =? ELCR_SLAVE then elcr (slave d)
  else 0xFF.

Definition master_irr (d : DualPic) : Z :=
  if decide (is_Some (resolve (slave d) (irr (slave d))))
  then irr (master d) .| bit CASCADE_IRQ
  else irr (master d) .&~ bit CASCADE_IRQ.

Definition pending_vector (d : DualPic) : option Z :=
  match resolve (master d) (master_irr d) with
  | Some m =>
      if m =? CASCADE_IRQ then
        match resolve (slave d) (irr (slave d)) with
        | Some s => Some (wrap 8 (vector_base (slave d) + s))
        | None => None
        end
      else Some (wrap 8 (vector_base (master d) + m))
  | None => None
  end.

Definition has_interrupt (d : DualPic) : bool :=
  match pending_vector d with Some _ => true | None => false end.

Definition dual_acknowledge (d : DualPic) : DualPic * option Z :=
  match resolve (master d) (master_irr d) with
  | Some m =>
      if m =? CASCADE_IRQ then
        let d := if auto_eoi (master d) then d
                 else with_master d (with_isr (master d) (isr (master d) .| bit CASCADE_IRQ)) in
        match acknowledge (slave d) with
        | (s', Some s) => (with_slave d s', Some (wrap 8 (vector_base s' + s)))
        | (s', None) => (with_slave d s', None)
        end
      else
        match acknowledge (master d) with
        | (m', Some m) => (with_master d m', Some (wrap 8 (vector_base m' + m)))
        | (m', None) => (with_master d m', None)
        end
  | None => (d, None)
  end.

Definition read_port (d : DualPic) (port : Z) : DualPic * Z :=
  if port =? MASTER_CMD then
    let '(p, v) := read_command (master d) in (with_master d p, v)
  else if port =? MASTER_DATA then (d, read_data (master d))
  else if port =? SLAVE_CMD then
    let '(p, v) := read_command (slave d) in (with_slave d p, v)
  else if port =? SLAVE_DATA then (d, read_data (slave d))
  else (d, 0xFF).

Definition write_port (d : DualPic) (port val : Z) : DualPic :=
  if port =? MASTER_CMD then with_master d (write_command (master d) val)
  else if port =? MASTER_DATA then with_master d (write_data (master d) val)
  else if port =? SLAVE_CMD then with_slave d (write_command (slave d) val)
  else if port =? SLAVE_DATA then with_slave d (write_data (slave d) val)
  else d.

(** ** Priority resolution *)

(** What the fully-nested fixed-priority scheme promises: [i] is the
    lowest-numbered unmasked request, and no level at or above its priority is
    in service. *)
Definition serviceable (p : Pic8259) (ir i : Z) : Prop :=
  0 <= i < 8 /\ Z.testbit ir i = true /\ Z.testbit (imr p) i = false /\
  (forall j, 0 <= j < i -> Z.testbit ir j = true -> Z.testbit (imr p) j = true) /\
  (forall j, 0 <= j <= i -> Z.testbit (resolve_blocking p) j = false).

Lemma resolve_scan_spec n i0 r i :
  0 <= i0 ->
  resolve_scan n i0 r = Some i <->
  i0 <= i < i0 + Z.of_nat n /\ Z.testbit r i = true /\
  forall j, i0 <= j < i -> Z.testbit r j = false.
Proof.
  revert i0. induction n as [|n IH]; intros i0 Hi0; cbn [resolve_scan].
  { split; [done|]. intros [? _]; lia. }
  rewrite tst_bit by done. destruct (Z.testbit r i0) eqn:T.
  - split.
    + intros [= <-]. split_and!; [lia|lia|done|]. intros; lia.
    + intros (Hb & Hi & Hlow). destruct (Z.eq_dec i i0) as [->|]; [done|].
      rewrite (Hlow i0) in T by lia. done.
  - rewrite IH by lia. split; intros (Hb & Hi & Hlow); split_and!; try done; try lia.
    + intros j Hj. destruct (Z.eq_dec j i0) as [->|]; [done|]. apply Hlow; lia.
    + destruct (Z.eq_dec i i0) as [->|]; [congruence|lia].
    + intros j Hj. apply Hlow; lia.
Qed.

Lemma ctz8_land x : fits 8 x -> x <> 0 -> ctz 8 x .& 7 = ctz 8 x /\ 0 <= ctz 8 x < 8.
Proof.
  intros Hx Hnz. pose proof (ctz_set 8 x Hx Hnz) as Hs.
  assert (Hb : 0 <= ctz 8 x < 8).
  { split; [apply ctz_nonneg|]. destruct (Z.lt_ge_cases (ctz 8 x) 8); [done|].
    by rewrite (fits_high 8 x) in Hs. }
  split; [|done]. change 7 with (Z.ones 3). rewrite Z.land_ones by done.
  by apply Z.mod_small.
Qed.

Lemma resolve_ceiling_spec b :
  fits 8 b ->
  0 <= resolve_ceiling b <= 8 /\
  forall i, 0 <= i < 8 ->
    (i < resolve_ceiling b <-> forall j, 0 <= j <= i -> Z.testbit b j = false).
Proof.
  intros Hb. unfold resolve_ceiling. destruct (Z.eqb_spec b 0) as [->|Hnz].
  { split; [lia|]. intros i Hi. split; [|lia]. intros. apply Z.testbit_0_l. }
  destruct (ctz8_land b Hb Hnz) as [-> Hc]. split; [lia|].
  intros i Hi. split.
  - intros Hlt j Hj. apply (ctz_below 8). lia.
  - intros Hall. destruct (Z.lt_ge_cases i (ctz 8 b)); [done|].
    pose proof (ctz_set 8 b Hb Hnz) as Hs. rewrite Hall in Hs by lia. done.
Qed.

Lemma resolve_blocking_fits p : fits 8 (isr p) -> fits 8 (resolve_blocking p).
Proof. intros. unfold resolve_blocking. case_match; auto with word. Qed.
#[export] Hint Resolve resolve_blocking_fits : word.

Lemma resolve_spec p ir i :
  fits 8 (isr p) -> resolve p ir = Some i <-> serviceable p ir i.
Proof.
  intros Hisr. unfold resolve, serviceable.
  destruct (resolve_ceiling_spec (resolve_blocking p)) as [Hc Hceil]; [auto with word|].
  assert (Hreq : forall j, Z.testbit (ir .&~ imr p) j = Z.testbit ir j && negb (Z.testbit (imr p) j))
    by (intros; by autorewrite with testbit).
  destruct (Z.eqb_spec (ir .&~ imr p) 0) as [E|E].
  { split; [done|]. intros (Hi & H1 & H2 & _). specialize (Hreq i).
    by rewrite E, Z.testbit_0_l, H1, H2 in Hreq. }
  rewrite resolve_scan_spec, Z2Nat.id, Hreq, andb_true_iff, negb_true_iff by lia.
  split.
  - intros (Hb & [H1 H2] & Hlow). split_and!; try done; try lia.
    + intros j Hj Hr. specialize (Hlow j ltac:(lia)). rewrite Hreq, Hr in Hlow.
      by destruct (Z.testbit (imr p) j).
    + apply Hceil; lia.
  - intros (Hb & H1 & H2 & Hlow & Hblk). apply Hceil in Hblk; [|lia]. split_and!; try done; try lia.
    intros j Hj. rewrite Hreq. destruct (Z.testbit ir j) eqn:T; [|done].
    by rewrite Hlow by (done || lia).
Qed.

Lemma resolve_None p ir :
  fits 8 (isr p) -> resolve p ir = None <-> forall i, ~ serviceable p ir i.
Proof.
  intros Hisr. split.
  - intros E i Hs. apply resolve_spec in Hs; [|done]. congruence.
  - intros Hn. destruct (resolve p ir) as [i|] eqn:E; [|done].
    exfalso. apply (Hn i). by apply resolve_spec.
Qed.

(** ** Well-formedness *)

(** Registers are bytes, the vector base is a multiple of eight, and the lines
    the chipset hardwires to edge mode are clear in the ELCR. *)
Definition pic_wf (writable : Z) (p : Pic8259) : Prop :=
  fits 8 (irr p) /\ fits 8 (isr p) /\ fits 8 (imr p) /\
  fits 8 (vector_base p) /\ vector_base p .& 7 = 0 /\
  fits 8 (elcr p) /\ elcr p .&~ writable = 0 /\ fits 8 (line_level p).

Definition dual_wf (d : DualPic) : Prop :=
  pic_wf ELCR_MASTER_WRITABLE (master d) /\ pic_wf ELCR_SLAVE_WRITABLE (slave d).

Ltac pic_wf_tac :=
  unfold pic_wf in *; cbn in *; destruct_and?; split_and?; auto 6 with word.

Section chip_invariant.
Context (wr : Z).

Lemma set_line_wf p irq level :
  0 <= irq -> pic_wf wr p -> pic_wf wr (set_line p irq level).
Proof.
  intros Hi Hp. unfold set_line. destruct (Z.leb_spec 8 irq); [done|].
  assert (fits 8 (bit irq)) by auto with word.
  repeat case_match; pic_wf_tac.
Qed.

Lemma set_elcr_wf p val :
  fits 8 val -> pic_wf wr p -> pic_wf wr (set_elcr p val wr).
Proof.
  intros Hv Hp. unfold set_elcr. pic_wf_tac.
  bitwise i Hi. destruct (Z.testbit val i), (Z.testbit wr i); done.
Qed.

Lemma clear_highest_wf p : pic_wf wr p -> pic_wf wr (clear_highest_in_service p).
Proof. intros Hp. unfold clear_highest_in_service. case_match; pic_wf_tac. Qed.

Lemma write_command_wf p val : pic_wf wr p -> pic_wf wr (write_command p val).
Proof.
  intros Hp. unfold write_command, write_icw1, write_ocw2, write_ocw3.
  repeat case_match; try apply clear_highest_wf; pic_wf_tac.
Qed.

Lemma write_data_wf p val : fits 8 val -> pic_wf wr p -> pic_wf wr (write_data p val).
Proof.
  intros Hv Hp. unfold write_data.
  destruct (init_step p); cbn; repeat case_match; pic_wf_tac;
    by rewrite <- Z.land_assoc, Z.land_0_r.
Qed.

Lemma acknowledge_irq_wf p i :
  0 <= i < 8 -> pic_wf wr p -> pic_wf wr (acknowledge_irq p i).
Proof.
  intros Hi Hp. assert (fits 8 (bit i)) by auto with word.
  unfold acknowledge_irq. cbn. repeat case_match; pic_wf_tac.
Qed.

Lemma resolve_bound p ir i : pic_wf wr p -> resolve p ir = Some i -> 0 <= i < 8.
Proof. intros Hp E. apply resolve_spec in E; [apply E|]. by destruct Hp as (_ & ? & _). Qed.

Lemma acknowledge_wf p : pic_wf wr p -> pic_wf wr (acknowledge p).1.
Proof.
  intros Hp. unfold acknowledge. destruct (resolve p (irr p)) eqn:E; [|done].
  eauto using acknowledge_irq_wf, resolve_bound.
Qed.

Lemma read_command_wf p : pic_wf wr p -> pic_wf wr (read_command p).1.
Proof.
  intros Hp. unfold read_command. destruct (poll (read p)); [|done].
  set (p' := with_read p _). assert (Hp' : pic_wf wr p') by pic_wf_tac.
  pose proof (acknowledge_wf p' Hp') as Ha.
  destruct (acknowledge p') as [q [?|]]; done.
Qed.

(** The delivered vector is [base + level] exactly: the addition never wraps. *)
Lemma vector_no_wrap p i :
  pic_wf wr p -> 0 <= i < 8 -> wrap 8 (vector_base p + i) = vector_base p + i.
Proof.
  intros (_ & _ & _ & Hv & H7 & _) Hi. apply wrap_small.
  change 7 with (Z.ones 3) in H7. rewrite Z.land_ones in H7 by done.
  unfold fits in *. change (2 ^ 3) with 8 in H7. change (2 ^ 8) with 256 in *.
  pose proof (Z.div_mod (vector_base p) 8). lia.
Qed.
End chip_invariant.

(** ** The pair as a state machine *)

(** What the outside does to the pair: devices drive lines, the guest reads and
    writes ports, the CPU runs an INTA cycle. *)
Inductive pic_op : Type :=
  | OpLine (irq : Z) (level : bool)
  | OpWriteElcr (port val : Z)
  | OpWrite (port val : Z)
  | OpRead (port : Z)
  | OpInta.

Definition pic_op_ok (op : pic_op) : Prop :=
  match op with
  | OpLine irq _ => fits 8 irq
  | OpWriteElcr _ v | OpWrite _ v => fits 8 v
  | _ => True
  end.

Definition pic_exec (d : DualPic) (op : pic_op) : DualPic :=
  match op with
  | OpLine irq level => set_irq_level d irq level
  | OpWriteElcr port v => write_elcr d port v
  | OpWrite port v => write_port d port v
  | OpRead port => (read_port d port).1
  | OpInta => (dual_acknowledge d).1
  end.

Definition pic_run (d : DualPic) (ops : list pic_op) : DualPic :=
  fold_left pic_exec ops d.

Lemma dual_acknowledge_wf d : dual_wf d -> dual_wf (dual_acknowledge d).1.
Proof.
  intros [Hm Hs]. unfold dual_acknowledge.
  pose proof (acknowledge_wf _ _ Hm) as Ham. pose proof (acknowledge_wf _ _ Hs) as Has.
  destruct (resolve (master d) (master_irr d)) as [m|]; [|done].
  destruct (m =? CASCADE_IRQ).
  - destruct (auto_eoi (master d)); cbn [slave with_master];
      destruct (acknowledge (slave d)) as [s' [?|]]; split; cbn in *; try done;
      assert (fits 8 (bit CASCADE_IRQ)) by (unfold CASCADE_IRQ; auto with word); pic_wf_tac.
  - destruct (acknowledge (master d)) as [m' [?|]]; split; done.
Qed.

Lemma pic_exec_wf d op : pic_op_ok op -> dual_wf d -> dual_wf (pic_exec d op).
Proof.
  intros Hop [Hm Hs]. destruct op as [irq level|port v|port v|port|]; cbn in Hop |- *.
  - unfold set_irq_level. destruct Hop.
    repeat case_match; breflect; split; cbn; try done; apply set_line_wf; (done || lia).
  - unfold write_elcr. repeat case_match; split; cbn; try done; by apply set_elcr_wf.
  - unfold write_port. repeat case_match; split; cbn; try done;
      auto using write_command_wf, write_data_wf.
  - unfold read_port.
    pose proof (read_command_wf _ _ Hm). pose proof (read_command_wf _ _ Hs).
    destruct (read_command (master d)), (read_command (slave d)).
    repeat case_match; split; cbn in *; done.
  - by apply dual_acknowledge_wf.
Qed.

Lemma pic_run_wf ops : forall d, Forall pic_op_ok ops -> dual_wf d -> dual_wf (pic_run d ops).
Proof.
  induction ops as [|op ops IH]; intros d Hops Hd; [done|].
  inversion Hops; subst. apply IH; [done|]. by apply pic_exec_wf.
Qed.

Lemma DualPic_new_wf : dual_wf DualPic_new.
Proof. unfold dual_wf, Pic8259_new; split; pic_wf_tac; done. Qed.

(** ** INTA against the advertised vector *)

Lemma serviceable_drop_bit p ir ir' b m :
  m <> b -> 0 <= b -> Z.testbit ir' b = false ->
  (forall j, j <> b -> Z.testbit ir j = Z.testbit ir' j) ->
  serviceable p ir m -> serviceable p ir' m.
Proof.
  intros Hne Hb Hclr Hsame (Hm & Hr & Hi & Hlow & Hblk).
  split_and!; try done; try lia.
  - by rewrite <- Hsame.
  - intros j Hj Hj'. destruct (Z.eq_dec j b) as [->|]; [congruence|].
    apply Hlow; [done|]. by rewrite Hsame.
Qed.

Lemma testbit_master_irr d j :
  j <> CASCADE_IRQ -> Z.testbit (master_irr d) j = Z.testbit (irr (master d)) j.
Proof.
  intros Hj. unfold master_irr. case_decide; autorewrite with testbit;
    rewrite testbit_bit by (unfold CASCADE_IRQ; lia);
    destruct (Z.eqb_spec CASCADE_IRQ j); try congruence;
    by rewrite ?orb_false_r, ?andb_true_r.
Qed.

(** With no request latched on the master's own cascade input, every level the
    pair would deliver from the master is the one the master alone resolves. *)
Lemma master_resolve_agrees d m :
  fits 8 (isr (master d)) -> Z.testbit (irr (master d)) CASCADE_IRQ = false ->
  resolve (master d) (master_irr d) = Some m -> m <> CASCADE_IRQ ->
  resolve (master d) (irr (master d)) = Some m.
Proof.
  intros Hf Hc Hr Hm. apply resolve_spec in Hr; [|done]. apply resolve_spec; [done|].
  apply (serviceable_drop_bit _ (master_irr d) _ CASCADE_IRQ); try done.
  intros. by apply testbit_master_irr.
Qed.

(** A request is never invented: acknowledging leaves clear request bits clear. *)
Lemma acknowledge_irr_clear p j :
  fits 8 (isr p) -> Z.testbit (irr p) j = false ->
  Z.testbit (irr (acknowledge p).1) j = false.
Proof.
  intros Hf Hj. unfold acknowledge. destruct (resolve p (irr p)) as [i|] eqn:E; [|done].
  apply resolve_spec in E as (Hi & Hr & _); [|done].
  assert (i <> j) by congruence.
  unfold acknowledge_irq. cbn. repeat case_match; cbn; autorewrite with testbit;
    rewrite ?testbit_bit, Hj by lia; destruct (Z.eqb_spec i j); done.
Qed.

Lemma set_line_irr_clear p irq level j :
  0 <= irq -> irq <> j -> Z.testbit (irr p) j = false ->
  Z.testbit (irr (set_line p irq level)) j = false.
Proof.
  intros Hi Hne Hj. unfold set_line. destruct (8 <=? irq); [done|].
  repeat case_match; cbn; autorewrite with testbit; rewrite ?testbit_bit, Hj by done;
    destruct (Z.eqb_spec irq j); done.
Qed.

Lemma write_command_irr p v : irr (write_command p v) = irr p.
Proof.
  unfold write_command, write_icw1, write_ocw2, write_ocw3, clear_highest_in_service.
  repeat case_match; done.
Qed.

Lemma write_data_irr p v : irr (write_data p v) = irr p.
Proof. unfold write_data. by destruct (init_step p). Qed.

Lemma read_command_irr_clear p j :
  fits 8 (isr p) -> Z.testbit (irr p) j = false ->
  Z.testbit (irr (read_command p).1) j = false.
Proof.
  intros Hf Hj. unfold read_command. destruct (poll (read p)); [|done].
  set (p' := with_read p _). pose proof (acknowledge_irr_clear p' j Hf Hj) as H.
  destruct (acknowledge p') as [q [?|]]; done.
Qed.

(** No device drives the cascade input. *)
Definition cascade_free (op : pic_op) : Prop :=
  match op with OpLine irq _ => irq <> CASCADE_IRQ | _ => True end.

Definition cascade_clear (d : DualPic) : Prop :=
  Z.testbit (irr (master d)) CASCADE_IRQ = false.

Lemma pic_exec_cascade d op :
  pic_op_ok op -> cascade_free op -> dual_wf d -> cascade_clear d ->
  cascade_clear (pic_exec d op).
Proof.
  unfold cascade_clear. intros Hop Hcf [Hm Hs] Hc.
  assert (Hf : fits 8 (isr (master d))) by (by destruct Hm as (_ & ? & _)).
  destruct op as [irq level|port v|port v|port|]; cbn in Hop, Hcf |- *.
  - unfold set_irq_level. destruct Hop. repeat case_match; cbn; try done.
    by apply set_line_irr_clear.
  - unfold write_elcr. repeat case_match; done.
  - unfold write_port. repeat case_match; cbn; rewrite ?write_command_irr, ?write_data_irr; done.
  - unfold read_port. pose proof (read_command_irr_clear (master d) CASCADE_IRQ Hf Hc).
    destruct (read_command (master d)), (read_command (slave d)).
    repeat case_match; done.
  - unfold dual_acknowledge. pose proof (acknowledge_irr_clear (master d) CASCADE_IRQ Hf Hc).
    destruct (acknowledge (master d)) as [m' [?|]] eqn:Em,
             (resolve (master d) (master_irr d)) as [m|]; try done;
      destruct (m =? CASCADE_IRQ); try done;
      destruct (auto_eoi (master d)); cbn [slave with_master];
      destruct (acknowledge (slave d)) as [s' [?|]]; done.
Qed.

Lemma pic_run_cascade ops : forall d,
  Forall pic_op_ok ops -> Forall cascade_free ops -> dual_wf d -> cascade_clear d ->
  cascade_clear (pic_run d ops).
Proof.
  induction ops as [|op ops IH]; intros d Hok Hcf Hd Hc; [done|].
  inversion Hok; inversion Hcf; subst. apply IH; auto using pic_exec_wf, pic_exec_cascade.
Qed.

Lemma acknowledge_vector p i :
  resolve p (irr p) = Some i ->
  (acknowledge p).2 = Some i /\ vector_base (acknowledge p).1 = vector_base p.
Proof.
  intros E. unfold acknowledge. rewrite E. split; [done|].
  cbn. unfold acknowledge_irq. repeat case_match; done.
Qed.

Lemma acknowledge_pending d :
  dual_wf d -> cascade_clear d -> (dual_acknowledge d).2 = pending_vector d.
Proof.
  intros [Hm Hs] Hc. unfold dual_acknowledge, pending_vector.
  destruct (resolve (master d) (master_irr d)) as [m|] eqn:Er; [|done].
  destruct (Z.eqb_spec m CASCADE_IRQ) as [|Hne].
  - assert (Hsl : forall q, slave (if auto_eoi (master d) then d else with_master d q) = slave d)
      by (intros; by case_match).
    rewrite Hsl. destruct (resolve (slave d) (irr (slave d))) as [s|] eqn:Es.
    + destruct (acknowledge_vector _ _ Es) as [E1 E2].
      destruct (acknowledge (slave d)) as [s' o]. cbn in *. by rewrite E1, E2.
    + unfold acknowledge. by rewrite Es.
  - assert (Hr : resolve (master d) (irr (master d)) = Some m).
    { apply master_resolve_agrees; try done. by destruct Hm as (_ & ? & _). }
    destruct (acknowledge_vector _ _ Hr) as [E1 E2].
    destruct (acknowledge (master d)) as [m' o]. cbn in *. by rewrite E1, E2.
Qed.

(** ** The service cycle *)

Lemma ldiff_lor_bit a i :
  0 <= i -> Z.testbit a i = false -> (a .| bit i) .&~ bit i = a.
Proof.
  intros Hi Ha. bitwise j Hj. rewrite ?testbit_bit by done.
  destruct (Z.eqb_spec i j) as [->|]; [by rewrite Ha|]. cbn. by rewrite orb_false_r, andb_true_r.
Qed.

Lemma lor_ldiff_bit a i :
  0 <= i -> Z.testbit a i = true -> (a .&~ bit i) .| bit i = a.
Proof.
  intros Hi Ha. bitwise j Hj. rewrite ?testbit_bit by done.
  destruct (Z.eqb_spec i j) as [->|]; [by rewrite Ha|]. cbn. by rewrite orb_false_r, andb_true_r.
Qed.

(** The lowest set bit after adding a bit below all the others. *)
Lemma ctz_lor_bit a i :
  0 <= i < 8 -> fits 8 a -> (forall j, 0 <= j <= i -> Z.testbit a j = false) ->
  ctz 8 (a .| bit i) = i.
Proof.
  intros Hi Ha Hlow.
  assert (Hn : Z.testbit (a .| bit i) i = true)
    by (autorewrite with testbit; rewrite ?testbit_bit, Z.eqb_refl by lia; apply orb_true_r).
  assert (Hf : fits 8 (a .| bit i)) by auto with word.
  assert (Hnz : a .| bit i <> 0) by (intros E; by rewrite E, Z.testbit_0_l in Hn).
  pose proof (ctz_lt 8 _ i ltac:(lia) Hn) as [Hc0 Hc1].
  pose proof (ctz_set 8 _ Hf Hnz) as Hs.
  destruct (Z.eq_dec (ctz 8 (a .| bit i)) i) as [|Hne]; [done|].
  autorewrite with testbit in Hs. rewrite Hlow in Hs by lia.
  destruct (Z.eqb_spec i (ctz 8 (a .| bit i))); [lia|done].
Qed.

Lemma clear_highest_after p i :
  0 <= i < 8 -> fits 8 (isr p) -> (forall j, 0 <= j <= i -> Z.testbit (isr p) j = false) ->
  clear_highest_in_service (with_isr p (isr p .| bit i)) = p.
Proof.
  intros Hi Hf Hlow. unfold clear_highest_in_service. cbn.
  assert (Hn : Z.testbit (isr p .| bit i) i = true)
    by (autorewrite with testbit; rewrite ?testbit_bit, Z.eqb_refl by lia; apply orb_true_r).
  destruct (Z.eqb_spec (isr p .| bit i) 0) as [E|E]; [by rewrite E, Z.testbit_0_l in Hn|].
  destruct (ctz8_land (isr p .| bit i)) as [Hl _]; [auto with word|done|].
  rewrite Hl, ctz_lor_bit by done.
  unfold with_isr. cbn. rewrite ldiff_lor_bit by (try apply Hlow; lia). by destruct p.
Qed.

(** ** Properties *)

(** [resolve] implements the fully-nested fixed-priority scheme: it returns
    exactly the lowest-numbered unmasked request that is not blocked by an
    in-service level of the same or a higher priority (masked levels do not
    block in special mask mode), and [None] exactly when there is none. *)
Theorem pic_resolve_priority p ir :
  fits 8 (isr p) ->
  (forall i, resolve p ir = Some i <-> serviceable p ir i) /\
  (resolve p ir = None <-> forall i, ~ serviceable p ir i).
Proof. intros Hf. split; [intros; by apply resolve_spec | by apply resolve_None]. Qed.

Lemma pic_resolve_priority_witness :
  let p := mk_Pic8259 0 0x20 0x01 0x20 Ready false false false 0 0 ReadState_new in
  resolve p 0xC9 = Some 3 /\ serviceable p 0xC9 3.
Proof.
  intros p. split; [reflexivity|].
  apply (pic_resolve_priority p 0xC9); [vm_compute; split; congruence | reflexivity].
Defined.

(** From power-on, under any sequence of line changes, guest port accesses,
    ELCR writes and INTA cycles, every register of both chips stays a byte, the
    vector bases stay multiples of eight, and the lines the chipset hardwires to
    edge mode stay clear in the ELCR. *)
Theorem pic_reachable_wf ops :
  Forall pic_op_ok ops -> dual_wf (pic_run DualPic_new ops).
Proof. intros. apply pic_run_wf; [done|]. apply DualPic_new_wf. Qed.

Lemma pic_reachable_wf_witness :
  dual_wf (pic_run DualPic_new
    [OpWrite MASTER_CMD 0x11; OpWrite MASTER_DATA 0x23; OpWriteElcr ELCR_MASTER 0xFF;
     OpLine 5 true; OpInta]).
Proof.
  apply pic_reachable_wf. repeat constructor; vm_compute; congruence.
Defined.

(** C36: If no device drives the cascade input IRQ2 itself, then in every
    reachable state the INTA cycle delivers exactly the vector [pending_vector]
    advertised, whichever chip owns it. *)
Theorem pic_inta_matches_pending ops :
  Forall pic_op_ok ops -> Forall cascade_free ops ->
  (dual_acknowledge (pic_run DualPic_new ops)).2 = pending_vector (pic_run DualPic_new ops).
Proof.
  intros Hok Hcf. apply acknowledge_pending.
  - by apply pic_run_wf; [|apply DualPic_new_wf].
  - by apply pic_run_cascade; [| |apply DualPic_new_wf|].
Qed.

Lemma pic_inta_matches_pending_witness :
  let d := pic_run DualPic_new
    [OpWrite MASTER_CMD 0x11; OpWrite MASTER_DATA 0x20; OpWrite MASTER_DATA 4; OpWrite MASTER_DATA 1;
     OpWrite SLAVE_CMD 0x11; OpWrite SLAVE_DATA 0x28; OpWrite SLAVE_DATA 2; OpWrite SLAVE_DATA 1;
     OpLine 12 true; OpLine 4 true] in
  pending_vector d = Some 0x2C /\ (dual_acknowledge d).2 = Some 0x2C.
Proof.
  intros d. split; [reflexivity|]. unfold d.
  rewrite pic_inta_matches_pending; [reflexivity | repeat constructor; vm_compute; congruence ..].
Defined.

(** A request latched on the master's own IRQ2 input breaks that agreement:
    after lines 2 and 5 are raised, the pair advertises the vector of line 5 but
    the INTA cycle delivers the vector of line 2. *)
Theorem pic_inta_cascade_line_divergence :
  let d := pic_run DualPic_new
    [OpWrite MASTER_CMD 0x11; OpWrite MASTER_DATA 0x20; OpWrite MASTER_DATA 4; OpWrite MASTER_DATA 1;
     OpLine 2 true; OpLine 5 true] in
  pending_vector d = Some 0x25 /\ (dual_acknowledge d).2 = Some 0x22.
Proof. split; reflexivity. Qed.

(** One service cycle of a chip in normal mode (no auto-EOI, no special
    mask): while the acknowledged level is in service only strictly higher
    priorities can be delivered, whatever the lines do, and a non-specific EOI
    (OCW2 0x20) restores the chip exactly, with the request cleared for an
    edge-triggered line and still pending for a level-triggered line that is
    still asserted. *)
Theorem pic_service_cycle wr p p' i :
  pic_wf wr p -> auto_eoi p = false -> special_mask (read p) = false ->
  acknowledge p = (p', Some i) ->
  (forall ir j, resolve p' ir = Some j -> j < i) /\
  write_command p' 0x20 =
    with_irr p (if tst (elcr p) (bit i) && tst (line_level p) (bit i)
                then irr p else irr p .&~ bit i).
Proof.
  intros Hwf Hae Hsm Hack. assert (Hf : fits 8 (isr p)) by (by destruct Hwf as (_ & ? & _)).
  unfold acknowledge in Hack. destruct (resolve p (irr p)) as [i'|] eqn:E; [|done].
  injection Hack as <- ->. apply resolve_spec in E as (Hi & Hr & _ & _ & Hblk); [|done].
  unfold resolve_blocking in Hblk. rewrite Hsm in Hblk.
  set (q := with_irr p (if tst (elcr p) (bit i) && tst (line_level p) (bit i)
                        then irr p else irr p .&~ bit i)).
  assert (Eq : acknowledge_irq p i = with_isr q (isr q .| bit i)).
  { unfold acknowledge_irq, q, with_isr, with_irr. cbn.
    destruct (tst (elcr p) (bit i) && tst (line_level p) (bit i)); cbn; rewrite Hae; [|done].
    by rewrite lor_ldiff_bit by (done || lia). }
  rewrite Eq. split.
  - intros ir j Hj. apply resolve_spec in Hj as (Hj & _ & _ & _ & Hb).
    2: { assert (fits 8 (bit i)) by auto with word. cbn. auto with word. }
    destruct (Z.lt_ge_cases j i); [done|]. specialize (Hb i ltac:(lia)).
    unfold resolve_blocking in Hb. cbn in Hb. rewrite Hsm in Hb.
    autorewrite with testbit in Hb. by rewrite Z.eqb_refl, orb_true_r in Hb.
  - exact (clear_highest_after q i Hi Hf Hblk).
Qed.

Lemma pic_service_cycle_witness :
  let p := mk_Pic8259 0x28 0x40 0 0x20 Ready false false false 0x20 0x20 ReadState_new in
  write_command (acknowledge p).1 0x20 = with_irr p 0x20.
Proof.
  intros p.
  destruct (pic_service_cycle ELCR_MASTER_WRITABLE p (acknowledge p).1 3) as [_ H];
    [pic_wf_tac; done | reflexivity | reflexivity | reflexivity | exact H].
Defined.

(** The data bytes the initialization sequence started by [icw1] consumes. *)
Definition icw_bytes (icw1 v2 v3 v4 : Z) : list Z :=
  [v2] ++ (if tst icw1 0x02 then [] else [v3]) ++ (if tst icw1 0x01 then [v4] else []).

(** The ICW sequence: an ICW1 followed by exactly the bytes its SNGL and IC4
    bits announce leaves the chip operational with the upper five bits of ICW2 as
    the vector base, nothing masked or in service, and auto-EOI as ICW4 asks
    (off without ICW4); the next data byte is the mask register. *)
Theorem pic_icw_sequence p icw1 v2 v3 v4 m :
  tst icw1 0x10 = true ->
  let q := fold_left write_data (icw_bytes icw1 v2 v3 v4) (write_command p icw1) in
  init_step q = Ready /\ vector_base q = v2 .& 0xF8 /\ imr q = 0 /\ isr q = 0 /\
  auto_eoi q = tst icw1 0x01 && tst v4 0x02 /\ irr q = irr p /\
  write_data q m = with_imr q m.
Proof.
  intros H. unfold write_command. rewrite H. unfold icw_bytes, write_icw1.
  destruct (tst icw1 0x02) eqn:E2, (tst icw1 0x01) eqn:E1; cbn; split_and!; done.
Qed.

Lemma pic_icw_sequence_witness :
  let q := fold_left write_data (icw_bytes 0x11 0x2F 0x04 0x03) (write_command Pic8259_new 0x11) in
  init_step q = Ready /\ vector_base q = 0x28 /\ auto_eoi q = true.
Proof.
  destruct (pic_icw_sequence Pic8259_new 0x11 0x2F 0x04 0x03 0xFF)
    as (H1 & H2 & _ & _ & H3 & _); [reflexivity | split_and!; [exact H1 | exact H2 | exact H3]].
Defined.
