(* ===== verification/Irq.v ===== *)
(** * Interrupt messages (enlil-devices/src/interrupt/mod.rs, msi.rs)

    The delivery and trigger modes shared by the local APIC, the I/O APIC and
    MSI, the entry a LAPIC accepts, and the MSI address/data message. *)

From Stdlib Require Import ZArith Lia Bool.
From stdpp Require Import base decidable list numbers.
From S2P Require Import Prelude.

Inductive DeliveryMode : Type :=
  | Fixed | LowestPriority | Smi | Nmi | Init | StartUp | ExtInt.

#[export] Instance DeliveryMode_eq_dec : EqDecision DeliveryMode.
Proof. solve_decision. Defined.

(** [delivery_mode as u32] *)
Definition mode_bits (m : DeliveryMode) : Z :=
  match m with
  | Fixed => 0 | LowestPriority => 1 | Smi => 2 | Nmi => 4 | Init => 5 | StartUp => 6 | ExtInt => 7
  end.

Definition from_bits (bits : Z) : DeliveryMode :=
  let b := bits .& 7 in
  if b =? 1 then LowestPriority
  else if b =? 2 then Smi
  else if b =? 4 then Nmi
  else if b =? 5 then Init
  else if b =? 6 then StartUp
  else if b =? 7 then ExtInt
  else Fixed.

Inductive TriggerMode : Type := Edge | Level.

#[export] Instance TriggerMode_eq_dec : EqDecision TriggerMode.
Proof. solve_decision. Defined.

Record InterruptEntry : Type := mk_InterruptEntry {
  ie_vector : Z;
  ie_delivery_mode : DeliveryMode;
  ie_trigger_mode : TriggerMode;
  ie_level : bool
}.

(** ** MSI messages *)

Record MsiMessage : Type := mk_MsiMessage {
  msi_address : Z;
  msi_data : Z;
  msi_delivery_mode : DeliveryMode
}.

Definition msi_new (address data : Z) : MsiMessage :=
  mk_MsiMessage address data (from_bits ((data .>> 8) .& 7)).

Abbreviation msi_vector m := (msi_data m .& 0xFF) (only parsing).
Abbreviation msi_destination_id m := ((msi_address m .>> 12) .& 0xFF) (only parsing).
Definition msi_destination_mode_logical (m : MsiMessage) : bool := tst (msi_address m) (1 .<< 2).
Abbreviation msi_is_level m := (tst (msi_data m) (1 .<< 15)) (only parsing).
Abbreviation msi_is_assert m := (tst (msi_data m) (1 .<< 14)) (only parsing).

(** The only encoding that is not kept is the reserved mode 3, read as [Fixed]. *)
Lemma from_bits_mode m : from_bits (mode_bits m) = m.
Proof. by destruct m. Qed.

Lemma mode_bits_from b :
  0 <= b < 8 -> mode_bits (from_bits b) = if b =? 3 then 0 else b.
Proof. intros Hb. enum_Z b 0 8; reflexivity. Qed.

Lemma mode_bits_range m : 0 <= mode_bits m < 8.
Proof. by destruct m. Qed.
