(* ===== verification/Lapic.v ===== *)
(** * The local APIC (enlil-devices/src/interrupt/lapic.rs)

    [LocalApic] with its register file, the 256-bit IRR/ISR/TMR bitmaps (eight
    32-bit registers each, as in the source), priority arbitration, EOI, and
    the one-shot, periodic and TSC-deadline timers.  The theorems relate the
    arbitration to the set of requested and in-service vectors, give the
    register file its reserved bits as an invariant of every access, and show
    when batching timer ticks is exact. *)

From Stdlib Require Import ZArith Lia Bool.
From stdpp Require Import base decidable list numbers relations.
From S2P Require Import Prelude Irq.

Abbreviation LAPIC_ID := 0x020 (only parsing).
Abbreviation LAPIC_VERSION := 0x030 (only parsing).
Abbreviation LAPIC_TPR := 0x080 (only parsing).
Abbreviation LAPIC_APR := 0x090 (only parsing).
Abbreviation LAPIC_PPR := 0x0A0 (only parsing).
Abbreviation LAPIC_EOI := 0x0B0 (only parsing).
Abbreviation LAPIC_LDR := 0x0D0 (only parsing).
Abbreviation LAPIC_DFR := 0x0E0 (only parsing).
Abbreviation LAPIC_SVR := 0x0F0 (only parsing).
Abbreviation LAPIC_ISR_BASE := 0x100 (only parsing).
Abbreviation LAPIC_TMR_BASE := 0x180 (only parsing).
Abbreviation LAPIC_IRR_BASE := 0x200 (only parsing).
Abbreviation LAPIC_ESR := 0x280 (only parsing).
Abbreviation LAPIC_LVT_CMCI := 0x2F0 (only parsing).
Abbreviation LAPIC_ICR_LOW := 0x300 (only parsing).
Abbreviation LAPIC_ICR_HIGH := 0x310 (only parsing).
Abbreviation LAPIC_LVT_TIMER := 0x320 (only parsing).
Abbreviation LAPIC_LVT_THERMAL := 0x330 (only parsing).
Abbreviation LAPIC_LVT_PERF := 0x340 (only parsing).
Abbreviation LAPIC_LVT_LINT0 := 0x350 (only parsing).
Abbreviation LAPIC_LVT_LINT1 := 0x360 (only parsing).
Abbreviation LAPIC_LVT_ERROR := 0x370 (only parsing).
Abbreviation LAPIC_TIMER_INIT := 0x380 (only parsing).
Abbreviation LAPIC_TIMER_CURRENT := 0x390 (only parsing).
Abbreviation LAPIC_TIMER_DIVIDE := 0x3E0 (only parsing).
Abbreviation LAPIC_SELF_IPI := 0x3F0 (only parsing).
Abbreviation LVT_TIMER_WRITE_MASK := 0x000700FF (only parsing).
Abbreviation LVT_DELIVERY_WRITE_MASK := 0x000107FF (only parsing).
Abbreviation LVT_LINT_WRITE_MASK := 0x0001A7FF (only parsing).
Abbreviation LVT_ERROR_WRITE_MASK := 0x000100FF (only parsing).
Abbreviation SVR_WRITE_MASK := 0x000003FF (only parsing).
Abbreviation ICR_LOW_WRITE_MASK := 0x000CCFFF (only parsing).
Abbreviation ICR_HIGH_WRITE_MASK := 0xFF000000 (only parsing).
Abbreviation TIMER_DCR_WRITE_MASK := 0x0000000B (only parsing).

Inductive TimerMode : Type := OneShot | Periodic | TscDeadline.

#[export] Instance TimerMode_eq_dec : EqDecision TimerMode.
Proof. solve_decision. Defined.

Record LocalApic : Type := mk_LocalApic {
  la_id : Z;
  la_enabled : bool;
  la_tpr : Z;
  la_ldr : Z;
  la_dfr : Z;
  la_svr : Z;
  la_isr : list Z;
  la_tmr : list Z;
  la_irr : list Z;
  la_esr : Z;
  la_icr : Z;
  la_lvt_timer : Z;
  la_lvt_thermal : Z;
  la_lvt_perf : Z;
  la_lvt_lint0 : Z;
  la_lvt_lint1 : Z;
  la_lvt_error : Z;
  la_lvt_cmci : Z;
  timer_initial : Z;
  timer_current : Z;
  timer_divide : Z;
  timer_divide_residual : Z;
  timer_mode : TimerMode;
  tsc_deadline : Z;
  pending_injection : option Z
}.

Definition LocalApic_new (id : Z) : LocalApic := {|
  la_id := id; la_enabled := false; la_tpr := 0; la_ldr := 0; la_dfr := 0xFFFFFFFF; la_svr := 0xFF;
  la_isr := replicate 8 0; la_tmr := replicate 8 0; la_irr := replicate 8 0; la_esr := 0; la_icr := 0;
  la_lvt_timer := 0x00010000; la_lvt_thermal := 0x00010000; la_lvt_perf := 0x00010000;
  la_lvt_lint0 := 0x00010000; la_lvt_lint1 := 0x00010000; la_lvt_error := 0x00010000;
  la_lvt_cmci := 0x00010000; timer_initial := 0; timer_current := 0; timer_divide := 0;
  timer_divide_residual := 0; timer_mode := OneShot; tsc_deadline := 0; pending_injection := None
|}.

(** Field updates. *)
Definition with_la_id (l : LocalApic) (v : Z) : LocalApic :=
  mk_LocalApic v (la_enabled l) (la_tpr l) (la_ldr l) (la_dfr l) (la_svr l) (la_isr l) (la_tmr l)
    (la_irr l) (la_esr l) (la_icr l) (la_lvt_timer l) (la_lvt_thermal l) (la_lvt_perf l)
    (la_lvt_lint0 l) (la_lvt_lint1 l) (la_lvt_error l) (la_lvt_cmci l) (timer_initial l)
    (timer_current l) (timer_divide l) (timer_divide_residual l) (timer_mode l) (tsc_deadline l)
    (pending_injection l).
Definition with_la_enabled (l : LocalApic) (v : bool) : LocalApic :=
  mk_LocalApic (la_id l) v (la_tpr l) (la_ldr l) (la_dfr l) (la_svr l) (la_isr l) (la_tmr l)
    (la_irr l) (la_esr l) (la_icr l) (la_lvt_timer l) (la_lvt_thermal l) (la_lvt_perf l)
    (la_lvt_lint0 l) (la_lvt_lint1 l) (la_lvt_error l) (la_lvt_cmci l) (timer_initial l)
    (timer_current l) (timer_divide l) (timer_divide_residual l) (timer_mode l) (tsc_deadline l)
    (pending_injection l).
Definition with_la_tpr (l : LocalApic) (v : Z) : LocalApic :=
  mk_LocalApic (la_id l) (la_enabled l) v (la_ldr l) (la_dfr l) (la_svr l) (la_isr l) (la_tmr l)
    (la_irr l) (la_esr l) (la_icr l) (la_lvt_timer l) (la_lvt_thermal l) (la_lvt_perf l)
    (la_lvt_lint0 l) (la_lvt_lint1 l) (la_lvt_error l) (la_lvt_cmci l) (timer_initial l)
    (timer_current l) (timer_divide l) (timer_divide_residual l) (timer_mode l) (tsc_deadline l)
    (pending_injection l).
Definition with_la_ldr (l : LocalApic) (v : Z) : LocalApic :=
  mk_LocalApic (la_id l) (la_enabled l) (la_tpr l) v (la_dfr l) (la_svr l) (la_isr l) (la_tmr l)
    (la_irr l) (la_esr l) (la_icr l) (la_lvt_timer l) (la_lvt_thermal l) (la_lvt_perf l)
    (la_lvt_lint0 l) (la_lvt_lint1 l) (la_lvt_error l) (la_lvt_cmci l) (timer_initial l)
    (timer_current l) (timer_divide l) (timer_divide_residual l) (timer_mode l) (tsc_deadline l)
    (pending_injection l).
Definition with_la_dfr (l : LocalApic) (v : Z) : LocalApic :=
  mk_LocalApic (la_id l) (la_enabled l) (la_tpr l) (la_ldr l) v (la_svr l) (la_isr l) (la_tmr l)
    (la_irr l) (la_esr l) (la_icr l) (la_lvt_timer l) (la_lvt_thermal l) (la_lvt_perf l)
    (la_lvt_lint0 l) (la_lvt_lint1 l) (la_lvt_error l) (la_lvt_cmci l) (timer_initial l)
    (timer_current l) (timer_divide l) (timer_divide_residual l) (timer_mode l) (tsc_deadline l)
    (pending_injection l).
Definition with_la_svr (l : LocalApic) (v : Z) : LocalApic :=
  mk_LocalApic (la_id l) (la_enabled l) (la_tpr l) (la_ldr l) (la_dfr l) v (la_isr l) (la_tmr l)
    (la_irr l) (la_esr l) (la_icr l) (la_lvt_timer l) (la_lvt_thermal l) (la_lvt_perf l)
    (la_lvt_lint0 l) (la_lvt_lint1 l) (la_lvt_error l) (la_lvt_cmci l) (timer_initial l)
    (timer_current l) (timer_divide l) (timer_divide_residual l) (timer_mode l) (tsc_deadline l)
    (pending_injection l).
Definition with_la_isr (l : LocalApic) (v : list Z) : LocalApic :=
  mk_LocalApic (la_id l) (la_enabled l) (la_tpr l) (la_ldr l) (la_dfr l) (la_svr l) v (la_tmr l)
    (la_irr l) (la_esr l) (la_icr l) (la_lvt_timer l) (la_lvt_thermal l) (la_lvt_perf l)
    (la_lvt_lint0 l) (la_lvt_lint1 l) (la_lvt_error l) (la_lvt_cmci l) (timer_initial l)
    (timer_current l) (timer_divide l) (timer_divide_residual l) (timer_mode l) (tsc_deadline l)
    (pending_injection l).
Definition with_la_tmr (l : LocalApic) (v : list Z) : LocalApic :=
  mk_LocalApic (la_id l) (la_enabled l) (la_tpr l) (la_ldr l) (la_dfr l) (la_svr l) (la_isr l) v
    (la_irr l) (la_esr l) (la_icr l) (la_lvt_timer l) (la_lvt_thermal l) (la_lvt_perf l)
    (la_lvt_lint0 l) (la_lvt_lint1 l) (la_lvt_error l) (la_lvt_cmci l) (timer_initial l)
    (timer_current l) (timer_divide l) (timer_divide_residual l) (timer_mode l) (tsc_deadline l)
    (pending_injection l).
Definition with_la_irr (l : LocalApic) (v : list Z) : LocalApic :=
  mk_LocalApic (la_id l) (la_enabled l) (la_tpr l) (la_ldr l) (la_dfr l) (la_svr l) (la_isr l)
    (la_tmr l) v (la_esr l) (la_icr l) (la_lvt_timer l) (la_lvt_thermal l) (la_lvt_perf l)
    (la_lvt_lint0 l) (la_lvt_lint1 l) (la_lvt_error l) (la_lvt_cmci l) (timer_initial l)
    (timer_current l) (timer_divide l) (timer_divide_residual l) (timer_mode l) (tsc_deadline l)
    (pending_injection l).
Definition with_la_esr (l : LocalApic) (v : Z) : LocalApic :=
  mk_LocalApic (la_id l) (la_enabled l) (la_tpr l) (la_ldr l) (la_dfr l) (la_svr l) (la_isr l)
    (la_tmr l) (la_irr l) v (la_icr l) (la_lvt_timer l) (la_lvt_thermal l) (la_lvt_perf l)
    (la_lvt_lint0 l) (la_lvt_lint1 l) (la_lvt_error l) (la_lvt_cmci l) (timer_initial l)
    (timer_current l) (timer_divide l) (timer_divide_residual l) (timer_mode l) (tsc_deadline l)
    (pending_injection l).
Definition with_la_icr (l : LocalApic) (v : Z) : LocalApic :=
  mk_LocalApic (la_id l) (la_enabled l) (la_tpr l) (la_ldr l) (la_dfr l) (la_svr l) (la_isr l)
    (la_tmr l) (la_irr l) (la_esr l) v (la_lvt_timer l) (la_lvt_thermal l) (la_lvt_perf l)
    (la_lvt_lint0 l) (la_lvt_lint1 l) (la_lvt_error l) (la_lvt_cmci l) (timer_initial l)
    (timer_current l) (timer_divide l) (timer_divide_residual l) (timer_mode l) (tsc_deadline l)
    (pending_injection l).
Definition with_la_lvt_timer (l : LocalApic) (v : Z) : LocalApic :=
  mk_LocalApic (la_id l) (la_enabled l) (la_tpr l) (la_ldr l) (la_dfr l) (la_svr l) (la_isr l)
    (la_tmr l) (la_irr l) (la_esr l) (la_icr l) v (la_lvt_thermal l) (la_lvt_perf l)
    (la_lvt_lint0 l) (la_lvt_lint1 l) (la_lvt_error l) (la_lvt_cmci l) (timer_initial l)
    (timer_current l) (timer_divide l) (timer_divide_residual l) (timer_mode l) (tsc_deadline l)
    (pending_injection l).
Definition with_la_lvt_thermal (l : LocalApic) (v : Z) : LocalApic :=
  mk_LocalApic (la_id l) (la_enabled l) (la_tpr l) (la_ldr l) (la_dfr l) (la_svr l) (la_isr l)
    (la_tmr l) (la_irr l) (la_esr l) (la_icr l) (la_lvt_timer l) v (la_lvt_perf l)
    (la_lvt_lint0 l) (la_lvt_lint1 l) (la_lvt_error l) (la_lvt_cmci l) (timer_initial l)
    (timer_current l) (timer_divide l) (timer_divide_residual l) (timer_mode l) (tsc_deadline l)
    (pending_injection l).
Definition with_la_lvt_perf (l : LocalApic) (v : Z) : LocalApic :=
  mk_LocalApic (la_id l) (la_enabled l) (la_tpr l) (la_ldr l) (la_dfr l) (la_svr l) (la_isr l)
    (la_tmr l) (la_irr l) (la_esr l) (la_icr l) (la_lvt_timer l) (la_lvt_thermal l) v
    (la_lvt_lint0 l) (la_lvt_lint1 l) (la_lvt_error l) (la_lvt_cmci l) (timer_initial l)
    (timer_current l) (timer_divide l) (timer_divide_residual l) (timer_mode l) (tsc_deadline l)
    (pending_injection l).
Definition with_la_lvt_lint0 (l : LocalApic) (v : Z) : LocalApic :=
  mk_LocalApic (la_id l) (la_enabled l) (la_tpr l) (la_ldr l) (la_dfr l) (la_svr l) (la_isr l)
    (la_tmr l) (la_irr l) (la_esr l) (la_icr l) (la_lvt_timer l) (la_lvt_thermal l)
    (la_lvt_perf l) v (la_lvt_lint1 l) (la_lvt_error l) (la_lvt_cmci l) (timer_initial l)
    (timer_current l) (timer_divide l) (timer_divide_residual l) (timer_mode l) (tsc_deadline l)
    (pending_injection l).
Definition with_la_lvt_lint1 (l : LocalApic) (v : Z) : LocalApic :=
  mk_LocalApic (la_id l) (la_enabled l) (la_tpr l) (la_ldr l) (la_dfr l) (la_svr l) (la_isr l)
    (la_tmr l) (la_irr l) (la_esr l) (la_icr l) (la_lvt_timer l) (la_lvt_thermal l)
    (la_lvt_perf l) (la_lvt_lint0 l) v (la_lvt_error l) (la_lvt_cmci l) (timer_initial l)
    (timer_current l) (timer_divide l) (timer_divide_residual l) (timer_mode l) (tsc_deadline l)
    (pending_injection l).
Definition with_la_lvt_error (l : LocalApic) (v : Z) : LocalApic :=
  mk_LocalApic (la_id l) (la_enabled l) (la_tpr l) (la_ldr l) (la_dfr l) (la_svr l) (la_isr l)
    (la_tmr l) (la_irr l) (la_esr l) (la_icr l) (la_lvt_timer l) (la_lvt_thermal l)
    (la_lvt_perf l) (la_lvt_lint0 l) (la_lvt_lint1 l) v (la_lvt_cmci l) (timer_initial l)
    (timer_current l) (timer_divide l) (timer_divide_residual l) (timer_mode l) (tsc_deadline l)
    (pending_injection l).
Definition with_la_lvt_cmci (l : LocalApic) (v : Z) : LocalApic :=
  mk_LocalApic (la_id l) (la_enabled l) (la_tpr l) (la_ldr l) (la_dfr l) (la_svr l) (la_isr l)
    (la_tmr l) (la_irr l) (la_esr l) (la_icr l) (la_lvt_timer l) (la_lvt_thermal l)
    (la_lvt_perf l) (la_lvt_lint0 l) (la_lvt_lint1 l) (la_lvt_error l) v (timer_initial l)
    (timer_current l) (timer_divide l) (timer_divide_residual l) (timer_mode l) (tsc_deadline l)
    (pending_injection l).
Definition with_timer_initial (l : LocalApic) (v : Z) : LocalApic :=
  mk_LocalApic (la_id l) (la_enabled l) (la_tpr l) (la_ldr l) (la_dfr l) (la_svr l) (la_isr l)
    (la_tmr l) (la_irr l) (la_esr l) (la_icr l) (la_lvt_timer l) (la_lvt_thermal l)
    (la_lvt_perf l) (la_lvt_lint0 l) (la_lvt_lint1 l) (la_lvt_error l) (la_lvt_cmci l) v
    (timer_current l) (timer_divide l) (timer_divide_residual l) (timer_mode l) (tsc_deadline l)
    (pending_injection l).
Definition with_timer_current (l : LocalApic) (v : Z) : LocalApic :=
  mk_LocalApic (la_id l) (la_enabled l) (la_tpr l) (la_ldr l) (la_dfr l) (la_svr l) (la_isr l)
    (la_tmr l) (la_irr l) (la_esr l) (la_icr l) (la_lvt_timer l) (la_lvt_thermal l)
    (la_lvt_perf l) (la_lvt_lint0 l) (la_lvt_lint1 l) (la_lvt_error l) (la_lvt_cmci l)
    (timer_initial l) v (timer_divide l) (timer_divide_residual l) (timer_mode l) (tsc_deadline l)
    (pending_injection l).
Definition with_timer_divide (l : LocalApic) (v : Z) : LocalApic :=
  mk_LocalApic (la_id l) (la_enabled l) (la_tpr l) (la_ldr l) (la_dfr l) (la_svr l) (la_isr l)
    (la_tmr l) (la_irr l) (la_esr l) (la_icr l) (la_lvt_timer l) (la_lvt_thermal l)
    (la_lvt_perf l) (la_lvt_lint0 l) (la_lvt_lint1 l) (la_lvt_error l) (la_lvt_cmci l)
    (timer_initial l) (timer_current l) v (timer_divide_residual l) (timer_mode l)
    (tsc_deadline l) (pending_injection l).
Definition with_timer_divide_residual (l : LocalApic) (v : Z) : LocalApic :=
  mk_LocalApic (la_id l) (la_enabled l) (la_tpr l) (la_ldr l) (la_dfr l) (la_svr l) (la_isr l)
    (la_tmr l) (la_irr l) (la_esr l) (la_icr l) (la_lvt_timer l) (la_lvt_thermal l)
    (la_lvt_perf l) (la_lvt_lint0 l) (la_lvt_lint1 l) (la_lvt_error l) (la_lvt_cmci l)
    (timer_initial l) (timer_current l) (timer_divide l) v (timer_mode l) (tsc_deadline l)
    (pending_injection l).
Definition with_timer_mode (l : LocalApic) (v : TimerMode) : LocalApic :=
  mk_LocalApic (la_id l) (la_enabled l) (la_tpr l) (la_ldr l) (la_dfr l) (la_svr l) (la_isr l)
    (la_tmr l) (la_irr l) (la_esr l) (la_icr l) (la_lvt_timer l) (la_lvt_thermal l)
    (la_lvt_perf l) (la_lvt_lint0 l) (la_lvt_lint1 l) (la_lvt_error l) (la_lvt_cmci l)
    (timer_initial l) (timer_current l) (timer_divide l) (timer_divide_residual l) v
    (tsc_deadline l) (pending_injection l).
Definition with_tsc_deadline (l : LocalApic) (v : Z) : LocalApic :=
  mk_LocalApic (la_id l) (la_enabled l) (la_tpr l) (la_ldr l) (la_dfr l) (la_svr l) (la_isr l)
    (la_tmr l) (la_irr l) (la_esr l) (la_icr l) (la_lvt_timer l) (la_lvt_thermal l)
    (la_lvt_perf l) (la_lvt_lint0 l) (la_lvt_lint1 l) (la_lvt_error l) (la_lvt_cmci l)
    (timer_initial l) (timer_current l) (timer_divide l) (timer_divide_residual l) (timer_mode l)
    v (pending_injection l).
Definition with_pending_injection (l : LocalApic) (v : option Z) : LocalApic :=
  mk_LocalApic (la_id l) (la_enabled l) (la_tpr l) (la_ldr l) (la_dfr l) (la_svr l) (la_isr l)
    (la_tmr l) (la_irr l) (la_esr l) (la_icr l) (la_lvt_timer l) (la_lvt_thermal l)
    (la_lvt_perf l) (la_lvt_lint0 l) (la_lvt_lint1 l) (la_lvt_error l) (la_lvt_cmci l)
    (timer_initial l) (timer_current l) (timer_divide l) (timer_divide_residual l) (timer_mode l)
    (tsc_deadline l) v.

(** ** 256-bit registers *)

(** [regs[i]] and [regs[i] = v] for an index below 8. *)
Definition reg (regs : list Z) (i : Z) : Z := regs !!! Z.to_nat i.
Definition set_reg (regs : list Z) (i v : Z) : list Z := <[Z.to_nat i := v]> regs.

(** [for i in (0..8).rev() { if regs[i] != 0 { return Some(i * 32 + ilog2) } }] *)
Fixpoint highest_from (n : nat) (regs : list Z) : option Z :=
  match n with
  | O => None
  | S n' =>
      if negb (reg regs (Z.of_nat n') =? 0)
      then Some (Z.of_nat n' * 32 + Z.log2 (reg regs (Z.of_nat n')))
      else highest_from n' regs
  end.

Definition highest_bit_in_register (regs : list Z) : option Z := highest_from 8 regs.

Definition set_vector_bit (regs : list Z) (vector : Z) : list Z :=
  set_reg regs (vector / 32) (reg regs (vector / 32) .| (1 .<< (vector mod 32))).
Definition clear_vector_bit (regs : list Z) (vector : Z) : list Z :=
  set_reg regs (vector / 32) (reg regs (vector / 32) .&~ (1 .<< (vector mod 32))).

(** ** Priorities *)

Definition in_service_vector (l : LocalApic) : option Z := highest_bit_in_register (la_isr l).

Definition compute_apr (l : LocalApic) : Z :=
  let isr_prio := from_option (fun v => v .>> 4) 0 (highest_bit_in_register (la_isr l)) in
  let tpr_prio := la_tpr l .>> 4 in
  if isr_prio <=? tpr_prio then la_tpr l
  else (isr_prio .<< 4) .| (isr_prio .& 0xF).

Definition compute_ppr (l : LocalApic) : Z :=
  let isrv := default 0 (highest_bit_in_register (la_isr l)) in
  let tpr := la_tpr l in
  if (isrv .>> 4) <=? (tpr .>> 4) then tpr else isrv .& 0xF0.

Definition matches_logical (l : LocalApic) (dest : Z) : bool :=
  let logical_id := la_ldr l .>> 24 in
  if (la_dfr l .>> 28) =? 0xF then negb ((logical_id .& dest) =? 0)
  else
    let cluster_match := (logical_id .& 0xF0) =? (dest .& 0xF0) in
    let mask_overlap := negb ((logical_id .& dest .& 0x0F) =? 0) in
    cluster_match && mask_overlap.

Abbreviation get_tpr l := (la_tpr l .& 0xFF) (only parsing).
Abbreviation set_tpr := with_la_tpr (only parsing).

(** ** Accepting, servicing and retiring vectors *)

Definition accept_interrupt (l : LocalApic) (entry : InterruptEntry) : LocalApic * bool :=
  if negb (la_enabled l) then (l, false)
  else
    let vector := ie_vector entry in
    if vector <? 16 then (l, false)
    else
      let l := with_la_irr l (set_vector_bit (la_irr l) vector) in
      let l := if bool_decide (ie_trigger_mode entry = Level)
               then with_la_tmr l (set_vector_bit (la_tmr l) vector)
               else with_la_tmr l (clear_vector_bit (la_tmr l) vector) in
      (l, true).

(** The edge-triggered fixed entry the timer and self-IPI paths build. *)
Definition edge_entry (vector : Z) : InterruptEntry := mk_InterruptEntry vector Fixed Edge true.

Definition accept_interrupt_vector (l : LocalApic) (vector : Z) : LocalApic * bool :=
  accept_interrupt l (edge_entry vector).

Definition pending_interrupt (l : LocalApic) : option Z :=
  if negb (la_enabled l) then None
  else
    pending_vec ← highest_bit_in_register (la_irr l);
    let servicing_vec := default 0 (highest_bit_in_register (la_isr l)) in
    let ppr := wrap 8 (compute_ppr l) in
    if ((ppr .>> 4) <? (pending_vec .>> 4)) && ((servicing_vec .>> 4) <? (pending_vec .>> 4))
    then Some pending_vec else None.

Definition has_pending_interrupt (l : LocalApic) : bool :=
  match pending_interrupt l with Some _ => true | None => false end.
Abbreviation lapic_pending_vector := pending_interrupt (only parsing).

Definition start_servicing (l : LocalApic) (vector : Z) : LocalApic :=
  let l := with_la_irr l (clear_vector_bit (la_irr l) vector) in
  with_la_isr l (set_vector_bit (la_isr l) vector).

Definition accept_highest_interrupt (l : LocalApic) : LocalApic * option Z :=
  match pending_interrupt l with
  | Some vector => (start_servicing l vector, Some vector)
  | None => (l, None)
  end.

Definition take_pending_injection (l : LocalApic) : LocalApic * option Z :=
  (with_pending_injection l None, pending_injection l).

Definition handle_eoi (l : LocalApic) : LocalApic :=
  match highest_bit_in_register (la_isr l) with
  | Some vector => with_la_isr l (clear_vector_bit (la_isr l) vector)
  | None => l
  end.

Abbreviation signal_eoi := handle_eoi (only parsing).

(** ** The register file *)

(** [regs[(off - base) / 0x10]] for an offset inside a 0x80-byte bank. *)
Definition bank_read (regs : list Z) (base off : Z) : Z :=
  let idx := (off - base) / 0x10 in if idx <? 8 then reg regs idx else 0.

Abbreviation in_bank base off := ((base <=? off) && (off <? base + 0x80)) (only parsing).

Definition read_register (l : LocalApic) (offset : Z) : Z :=
  if offset =? LAPIC_ID then la_id l .<< 24
  else if offset =? LAPIC_VERSION then 0x14 .| (6 .<< 16)
  else if offset =? LAPIC_TPR then la_tpr l
  else if offset =? LAPIC_APR then compute_apr l
  else if offset =? LAPIC_PPR then compute_ppr l
  else if offset =? LAPIC_LDR then la_ldr l
  else if offset =? LAPIC_DFR then la_dfr l
  else if offset =? LAPIC_SVR then la_svr l
  else if in_bank LAPIC_ISR_BASE offset then bank_read (la_isr l) LAPIC_ISR_BASE offset
  else if in_bank LAPIC_TMR_BASE offset then bank_read (la_tmr l) LAPIC_TMR_BASE offset
  else if in_bank LAPIC_IRR_BASE offset then bank_read (la_irr l) LAPIC_IRR_BASE offset
  else if offset =? LAPIC_ESR then la_esr l
  else if offset =? LAPIC_ICR_LOW then wrap 32 (la_icr l)
  else if offset =? LAPIC_ICR_HIGH then wrap 32 (la_icr l .>> 32)
  else if offset =? LAPIC_LVT_TIMER then la_lvt_timer l
  else if offset =? LAPIC_LVT_THERMAL then la_lvt_thermal l
  else if offset =? LAPIC_LVT_PERF then la_lvt_perf l
  else if offset =? LAPIC_LVT_LINT0 then la_lvt_lint0 l
  else if offset =? LAPIC_LVT_LINT1 then la_lvt_lint1 l
  else if offset =? LAPIC_LVT_ERROR then la_lvt_error l
  else if offset =? LAPIC_LVT_CMCI then la_lvt_cmci l
  else if offset =? LAPIC_TIMER_INIT then timer_initial l
  else if offset =? LAPIC_TIMER_CURRENT then
    if bool_decide (timer_mode l = TscDeadline) then 0 else timer_current l
  else if offset =? LAPIC_TIMER_DIVIDE then timer_divide l
  else 0.

(** The timer mode a write of [LVT_TIMER] selects. *)
Definition lvt_timer_mode (value : Z) : TimerMode :=
  let m := (value .>> 17) .& 3 in
  if m =? 1 then Periodic else if m =? 2 then TscDeadline else OneShot.

Definition write_lvt_timer (l : LocalApic) (value : Z) : LocalApic :=
  let l := with_la_lvt_timer l (value .& LVT_TIMER_WRITE_MASK) in
  let new_mode := lvt_timer_mode value in
  let l := if bool_decide (new_mode <> timer_mode l) then with_tsc_deadline l 0 else l in
  with_timer_mode l new_mode.

Definition write_timer_init (l : LocalApic) (value : Z) : LocalApic :=
  if bool_decide (timer_mode l <> TscDeadline)
  then with_timer_divide_residual (with_timer_current (with_timer_initial l value) value) 0
  else l.

Definition write_register (l : LocalApic) (offset value : Z) : LocalApic :=
  if offset =? LAPIC_ID then with_la_id l (value .>> 24)
  else if offset =? LAPIC_TPR then with_la_tpr l (value .& 0xFF)
  else if offset =? LAPIC_LDR then with_la_ldr l (value .& 0xFF000000)
  else if offset =? LAPIC_DFR then with_la_dfr l (value .| 0x0FFFFFFF)
  else if offset =? LAPIC_SVR then
    with_la_enabled (with_la_svr l (value .& SVR_WRITE_MASK)) (tst value 0x100)
  else if offset =? LAPIC_EOI then handle_eoi l
  else if offset =? LAPIC_ESR then with_la_esr l 0
  else if offset =? LAPIC_ICR_LOW then
    with_la_icr l ((la_icr l .& 0xFFFFFFFF00000000) .| (value .& ICR_LOW_WRITE_MASK))
  else if offset =? LAPIC_ICR_HIGH then
    with_la_icr l ((la_icr l .& 0x00000000FFFFFFFF) .| ((value .& ICR_HIGH_WRITE_MASK) .<< 32))
  else if offset =? LAPIC_LVT_TIMER then write_lvt_timer l value
  else if offset =? LAPIC_LVT_THERMAL then with_la_lvt_thermal l (value .& LVT_DELIVERY_WRITE_MASK)
  else if offset =? LAPIC_LVT_PERF then with_la_lvt_perf l (value .& LVT_DELIVERY_WRITE_MASK)
  else if offset =? LAPIC_LVT_LINT0 then with_la_lvt_lint0 l (value .& LVT_LINT_WRITE_MASK)
  else if offset =? LAPIC_LVT_LINT1 then with_la_lvt_lint1 l (value .& LVT_LINT_WRITE_MASK)
  else if offset =? LAPIC_LVT_ERROR then with_la_lvt_error l (value .& LVT_ERROR_WRITE_MASK)
  else if offset =? LAPIC_LVT_CMCI then with_la_lvt_cmci l (value .& LVT_DELIVERY_WRITE_MASK)
  else if offset =? LAPIC_TIMER_INIT then write_timer_init l value
  else if offset =? LAPIC_TIMER_DIVIDE then
    with_timer_divide_residual (with_timer_divide l (value .& TIMER_DCR_WRITE_MASK)) 0
  else if offset =? LAPIC_SELF_IPI then (accept_interrupt l (edge_entry (value .& 0xFF))).1
  else l.

(** ** Timers *)

Definition timer_divisor (l : LocalApic) : Z :=
  let b3 := (timer_divide l .>> 3) .& 1 in
  let b1 := (timer_divide l .>> 1) .& 1 in
  let b0 := timer_divide l .& 1 in
  let combined := (b3 .<< 2) .| (b1 .<< 1) .| b0 in
  if combined =? 7 then 1 else 1 .<< (combined + 1).

(** The interrupt of an expired timer: delivered unless the LVT entry is masked. *)
Definition timer_fire (l : LocalApic) : LocalApic :=
  if tst (la_lvt_timer l) 0x00010000 then l
  else (accept_interrupt l (edge_entry (la_lvt_timer l .& 0xFF))).1.

Definition timer_tick (l : LocalApic) (ticks : Z) : LocalApic * bool :=
  if (timer_initial l =? 0) || bool_decide (timer_mode l = TscDeadline) then (l, false)
  else
    let divisor := timer_divisor l in
    let total := Z.min (timer_divide_residual l + ticks) (2 ^ 32 - 1) in
    let ticks := total / divisor in
    let l := with_timer_divide_residual l (total mod divisor) in
    if ticks =? 0 then (l, false)
    else if timer_current l <=? ticks then
      let l := timer_fire l in
      if bool_decide (timer_mode l = Periodic) then
        let beyond := ticks - timer_current l in
        let into_period := beyond mod timer_initial l in
        (with_timer_current l (timer_initial l - into_period), true)
      else (with_timer_current l 0, true)
    else (with_timer_current l (timer_current l - ticks), false).

Definition timer_interrupt_pending (l : LocalApic) : bool := negb (tst (la_lvt_timer l) 0x00010000).

Definition set_tsc_deadline (l : LocalApic) (value : Z) : LocalApic := with_tsc_deadline l value.

Definition read_tsc_deadline_msr (l : LocalApic) : Z :=
  if bool_decide (timer_mode l = TscDeadline) then tsc_deadline l else 0.

Definition write_tsc_deadline_msr (l : LocalApic) (value : Z) : LocalApic :=
  if bool_decide (timer_mode l = TscDeadline) then with_tsc_deadline l value else l.

Definition check_tsc_deadline (l : LocalApic) (current_tsc : Z) : LocalApic * bool :=
  if bool_decide (timer_mode l <> TscDeadline) || (tsc_deadline l =? 0) then (l, false)
  else if current_tsc <? tsc_deadline l then (l, false)
  else (timer_fire (with_tsc_deadline l 0), true).

(** ** Bitmaps as sets of vectors *)

Definition vbit (regs : list Z) (v : Z) : bool := Z.testbit (reg regs (v / 32)) (v mod 32).

Definition wf256 (regs : list Z) : Prop := length regs = 8%nat /\ Forall (fits 32) regs.

Lemma reg_fits regs i : wf256 regs -> fits 32 (reg regs i).
Proof.
  intros [Hl Hf]. unfold reg. rewrite list_lookup_total_alt.
  destruct (regs !! Z.to_nat i) as [x|] eqn:E; cbn; [|done]. by eapply Forall_lookup_1.
Qed.

Lemma reg_set regs i j v :
  length regs = 8%nat -> 0 <= i < 8 -> 0 <= j ->
  reg (set_reg regs i v) j = if j =? i then v else reg regs j.
Proof.
  intros Hl Hi Hj. unfold reg, set_reg. rewrite !list_lookup_total_alt.
  destruct (Z.eqb_spec j i) as [->|].
  - by rewrite list_lookup_insert_eq by lia.
  - by rewrite list_lookup_insert_ne by lia.
Qed.

Lemma wf256_set regs i v : wf256 regs -> fits 32 v -> wf256 (set_reg regs i v).
Proof. intros [Hl Hf] Hv. split; [by unfold set_reg; rewrite length_insert|]. by apply Forall_insert. Qed.

(** A vector below 256 is a register index and a bit. *)
Lemma vector_split v : 0 <= v < 256 -> 0 <= v / 32 < 8 /\ 0 <= v mod 32 < 32 /\ v = 32 * (v / 32) + v mod 32.
Proof. intros Hv. pose proof (Z.div_mod v 32 ltac:(lia)). pose proof (Z.mod_pos_bound v 32 ltac:(lia)). lia. Qed.

Lemma wf256_set_bit regs v : wf256 regs -> 0 <= v < 256 -> wf256 (set_vector_bit regs v).
Proof.
  intros Hw Hv. destruct (vector_split v Hv) as (? & ? & _). apply wf256_set; [done|].
  apply fits_lor; [by apply reg_fits|]. apply (fits_bit 32). lia.
Qed.

Lemma wf256_clear_bit regs v : wf256 regs -> wf256 (clear_vector_bit regs v).
Proof. intros Hw. apply wf256_set; [done|]. apply fits_ldiff. by apply reg_fits. Qed.

Lemma vbit_set_bit regs v w :
  length regs = 8%nat -> 0 <= v < 256 -> 0 <= w < 256 ->
  vbit (set_vector_bit regs v) w = vbit regs w || (w =? v).
Proof.
  intros Hl Hv Hw. destruct (vector_split v Hv) as (? & ? & ?), (vector_split w Hw) as (? & ? & ?).
  unfold vbit, set_vector_bit. rewrite reg_set by (done || lia).
  destruct (Z.eqb_spec (w / 32) (v / 32)) as [E|E].
  - rewrite E, Z.lor_spec. change (1 .<< (v mod 32)) with (bit (v mod 32)). rewrite testbit_bit by lia.
    f_equal. destruct (Z.eqb_spec (v mod 32) (w mod 32)), (Z.eqb_spec w v); (done || lia || congruence).
  - destruct (Z.eqb_spec w v); [congruence|]. by rewrite orb_false_r.
Qed.

Lemma vbit_clear_bit regs v w :
  length regs = 8%nat -> 0 <= v < 256 -> 0 <= w < 256 ->
  vbit (clear_vector_bit regs v) w = vbit regs w && negb (w =? v).
Proof.
  intros Hl Hv Hw. destruct (vector_split v Hv) as (? & ? & ?), (vector_split w Hw) as (? & ? & ?).
  unfold vbit, clear_vector_bit. rewrite reg_set by (done || lia).
  destruct (Z.eqb_spec (w / 32) (v / 32)) as [E|E].
  - rewrite E, Z.ldiff_spec. change (1 .<< (v mod 32)) with (bit (v mod 32)). rewrite testbit_bit by lia.
    do 2 f_equal. destruct (Z.eqb_spec (v mod 32) (w mod 32)), (Z.eqb_spec w v); (done || lia || congruence).
  - destruct (Z.eqb_spec w v); [congruence|]. by rewrite andb_true_r.
Qed.

(** [v] is the highest member of the bitmap. *)
Definition highest (regs : list Z) (v : Z) : Prop :=
  0 <= v < 256 /\ vbit regs v = true /\ forall w, 0 <= w < 256 -> vbit regs w = true -> w <= v.

Lemma highest_from_spec regs n :
  wf256 regs -> (n <= 8)%nat ->
  match highest_from n regs with
  | Some v => 0 <= v < 32 * Z.of_nat n /\ vbit regs v = true /\
              forall w, v < w < 32 * Z.of_nat n -> vbit regs w = false
  | None => forall w, 0 <= w < 32 * Z.of_nat n -> vbit regs w = false
  end.
Proof.
  intros Hw. induction n as [|n IH]; intros Hn; cbn [highest_from]; [lia|].
  pose proof (reg_fits regs (Z.of_nat n) Hw) as Hf. set (x := reg regs (Z.of_nat n)) in *.
  assert (Hlow : forall w, 32 * Z.of_nat n <= w < 32 * Z.of_nat (S n) ->
    vbit regs w = Z.testbit x (w - 32 * Z.of_nat n)).
  { intros w Hwr. unfold vbit, x. pose proof (Z.div_mod w 32 ltac:(lia)).
    pose proof (Z.mod_pos_bound w 32 ltac:(lia)). f_equal; [f_equal|]; lia. }
  destruct (Z.eqb_spec x 0) as [E|Hne]; cbn [negb].
  - specialize (IH ltac:(lia)). assert (Hz : forall w, 32 * Z.of_nat n <= w < 32 * Z.of_nat (S n) -> vbit regs w = false).
    { intros w Hwr. rewrite Hlow, E by done. apply Z.testbit_0_l. }
    destruct (highest_from n regs) as [v|].
    + destruct IH as (Hv & Hb & Hhi). split_and!; [lia..|done|]. intros w Hwr.
      destruct (Z.lt_ge_cases w (32 * Z.of_nat n)); [apply Hhi|apply Hz]; lia.
    + intros w Hwr. destruct (Z.lt_ge_cases w (32 * Z.of_nat n)); [apply IH|apply Hz]; lia.
  - assert (0 < x) by (unfold fits in Hf; lia). pose proof (Z.log2_spec x ltac:(lia)) as [_ Hup].
    assert (Z.log2 x < 32) by (apply Z.log2_lt_pow2; [lia|]; apply Hf). pose proof (Z.log2_nonneg x).
    split; [lia|]. split.
    + rewrite Hlow by lia. replace (Z.of_nat n * 32 + Z.log2 x - 32 * Z.of_nat n) with (Z.log2 x) by lia.
      by apply Z.bit_log2.
    + intros w Hwr. rewrite Hlow by lia. apply Z.bits_above_log2; lia.
Qed.

Lemma highest_spec regs v :
  wf256 regs -> highest_bit_in_register regs = Some v <-> highest regs v.
Proof.
  intros Hw. pose proof (highest_from_spec regs 8 Hw ltac:(lia)) as H.
  unfold highest_bit_in_register, highest. destruct (highest_from 8 regs) as [u|].
  - destruct H as (Hu & Hb & Hhi). split.
    + intros [=->]. split_and!; [lia..|done|]. intros w Hwr Hbw.
      destruct (Z.lt_ge_cases v w); [|done]. rewrite Hhi in Hbw by lia. done.
    + intros (Hv & Hbv & Hmax). f_equal. pose proof (Hmax u ltac:(lia) Hb).
      destruct (Z.lt_ge_cases u v); [|lia]. rewrite Hhi in Hbv by lia. done.
  - split; [done|]. intros (Hv & Hbv & _). rewrite H in Hbv by lia. done.
Qed.

Lemma highest_none regs :
  wf256 regs -> highest_bit_in_register regs = None <-> forall w, 0 <= w < 256 -> vbit regs w = false.
Proof.
  intros Hw. pose proof (highest_from_spec regs 8 Hw ltac:(lia)) as H.
  unfold highest_bit_in_register. destruct (highest_from 8 regs) as [u|].
  - destruct H as (Hu & Hb & _). split; [done|]. intros Hn. rewrite Hn in Hb by lia. done.
  - by split.
Qed.

(** ** The invariant *)

(** All set bits of [x] are writable ones. *)
Definition within (mask x : Z) : Prop := 0 <= x /\ x .&~ mask = 0.

Lemma within_land v mask : 0 <= mask -> within mask (v .& mask).
Proof.
  intros Hm. split; [apply Z.land_nonneg; by right|].
  apply Z.bits_inj'. intros i Hi. rewrite Z.ldiff_spec, Z.land_spec, Z.testbit_0_l.
  by destruct (Z.testbit v i), (Z.testbit mask i).
Qed.

Lemma within_bit mask x i : within mask x -> Z.testbit mask i = false -> Z.testbit x i = false.
Proof.
  intros [_ Hx] Hm. apply (f_equal (fun z => Z.testbit z i)) in Hx.
  rewrite Z.ldiff_spec, Hm, Z.testbit_0_l in Hx. by rewrite andb_true_r in Hx.
Qed.

Lemma within_fits w mask x : fits w mask -> within mask x -> fits w x.
Proof.
  intros Hm Hx. pose proof Hx as [H0 _]. apply fits_intro; [by eapply fits_width|done|].
  intros i Hi. eapply within_bit; [done|]. by eapply fits_high.
Qed.

(** No vector below 16 is ever requested or in service. *)
Definition legal_vectors (regs : list Z) : Prop :=
  wf256 regs /\ forall v, 0 <= v < 16 -> vbit regs v = false.

Record lapic_wf (l : LocalApic) : Prop := mk_lapic_wf {
  lw_id : fits 8 (la_id l);
  lw_enabled : la_enabled l = Z.testbit (la_svr l) 8;
  lw_tpr : fits 8 (la_tpr l);
  lw_ldr : within 0xFF000000 (la_ldr l);
  lw_dfr : fits 32 (la_dfr l) /\ la_dfr l .& 0x0FFFFFFF = 0x0FFFFFFF;
  lw_svr : within SVR_WRITE_MASK (la_svr l);
  lw_isr : legal_vectors (la_isr l);
  lw_tmr : wf256 (la_tmr l);
  lw_irr : legal_vectors (la_irr l);
  lw_esr : la_esr l = 0;
  lw_icr : within (ICR_LOW_WRITE_MASK .| (ICR_HIGH_WRITE_MASK .<< 32)) (la_icr l);
  lw_lvt_timer : within LVT_TIMER_WRITE_MASK (la_lvt_timer l);
  lw_lvt_thermal : within LVT_DELIVERY_WRITE_MASK (la_lvt_thermal l);
  lw_lvt_perf : within LVT_DELIVERY_WRITE_MASK (la_lvt_perf l);
  lw_lvt_lint0 : within LVT_LINT_WRITE_MASK (la_lvt_lint0 l);
  lw_lvt_lint1 : within LVT_LINT_WRITE_MASK (la_lvt_lint1 l);
  lw_lvt_error : within LVT_ERROR_WRITE_MASK (la_lvt_error l);
  lw_lvt_cmci : within LVT_DELIVERY_WRITE_MASK (la_lvt_cmci l);
  lw_counts : 0 <= timer_current l <= timer_initial l;
  lw_initial : fits 32 (timer_initial l);
  lw_divide : within TIMER_DCR_WRITE_MASK (timer_divide l);
  lw_residual : 0 <= timer_divide_residual l < timer_divisor l;
  lw_mode : timer_mode l = lvt_timer_mode (la_lvt_timer l);
  lw_deadline : fits 64 (tsc_deadline l);
  lw_injection : pending_injection l = None
}.

Lemma timer_divisor_cases l :
  timer_divisor l = 1 \/ timer_divisor l = 2 \/ timer_divisor l = 4 \/ timer_divisor l = 8 \/
  timer_divisor l = 16 \/ timer_divisor l = 32 \/ timer_divisor l = 64 \/ timer_divisor l = 128.
Proof.
  unfold timer_divisor.
  assert (Hb : forall x, x .& 1 = 0 \/ x .& 1 = 1).
  { intros x. change (x .& 1) with (x .& Z.ones 1). rewrite Z.land_ones by lia.
    pose proof (Z.mod_pos_bound x 2 ltac:(lia)). change (2 ^ 1) with 2. lia. }
  destruct (Hb (timer_divide l .>> 3)) as [-> | ->], (Hb (timer_divide l .>> 1)) as [-> | ->],
    (Hb (timer_divide l)) as [-> | ->]; cbn; auto 10.
Qed.

Lemma timer_divisor_pos l : 0 < timer_divisor l.
Proof. pose proof (timer_divisor_cases l). lia. Qed.

Lemma wf256_zero : wf256 (replicate 8 0).
Proof. split; [done|]. by apply Forall_replicate. Qed.

Lemma vbit_zero v : 0 <= v < 256 -> vbit (replicate 8 0) v = false.
Proof.
  intros Hv. unfold vbit, reg. rewrite lookup_total_replicate_2 by (destruct (vector_split v Hv); lia).
  apply Z.testbit_0_l.
Qed.

Lemma legal_zero : legal_vectors (replicate 8 0).
Proof. split; [apply wf256_zero|]. intros v Hv. apply vbit_zero. lia. Qed.

Lemma legal_set regs v : legal_vectors regs -> 16 <= v < 256 -> legal_vectors (set_vector_bit regs v).
Proof.
  intros [Hw Hl] Hv. split; [apply wf256_set_bit; (done || lia)|]. intros w Hwr.
  rewrite vbit_set_bit by (apply Hw || lia). rewrite Hl by done. destruct (Z.eqb_spec w v); [lia|done].
Qed.

Lemma legal_clear regs v : legal_vectors regs -> 0 <= v < 256 -> legal_vectors (clear_vector_bit regs v).
Proof.
  intros [Hw Hl] Hv. split; [by apply wf256_clear_bit|]. intros w Hwr.
  rewrite vbit_clear_bit by (apply Hw || lia). by rewrite Hl.
Qed.

Lemma LocalApic_new_wf id : fits 8 id -> lapic_wf (LocalApic_new id).
Proof. intros Hid. split; cbn; try done; try (split; done); apply legal_zero || apply wf256_zero || (split; [lia|reflexivity]). Qed.

(** Re-establish the invariant after field updates. *)
Ltac lapic_fields H := destruct H; split; cbn; auto.

Lemma accept_interrupt_wf l e :
  lapic_wf l -> 0 <= ie_vector e < 256 -> lapic_wf (accept_interrupt l e).1.
Proof.
  intros H Hv. unfold accept_interrupt. destruct (la_enabled l) eqn:He; cbn [negb fst]; [|done].
  destruct (Z.ltb_spec (ie_vector e) 16); cbn [fst]; [done|].
  case_bool_decide; (lapic_fields H; [|apply legal_set; (done || lia)]);
    [apply wf256_set_bit; (done || lia)|by apply wf256_clear_bit].
Qed.

Lemma land_255 x : 0 <= x .& 0xFF < 256.
Proof. change 0xFF with (Z.ones 8). rewrite Z.land_ones by lia. apply Z.mod_pos_bound. done. Qed.

Lemma timer_fire_wf l : lapic_wf l -> lapic_wf (timer_fire l).
Proof.
  intros H. unfold timer_fire. destruct (tst _ _); [done|]. apply accept_interrupt_wf; [done|]. apply land_255.
Qed.

Lemma start_servicing_wf l v : lapic_wf l -> 16 <= v < 256 -> lapic_wf (start_servicing l v).
Proof. intros H Hv. lapic_fields H; [apply legal_set|apply legal_clear]; (done || lia). Qed.

Lemma handle_eoi_wf l : lapic_wf l -> lapic_wf (handle_eoi l).
Proof.
  intros H. unfold handle_eoi. destruct (highest_bit_in_register (la_isr l)) as [v|] eqn:E; [|done].
  apply highest_spec in E as (Hv & _ & _); [|apply H]. lapic_fields H. by apply legal_clear.
Qed.

Lemma highest_legal regs v : legal_vectors regs -> highest_bit_in_register regs = Some v -> 16 <= v < 256.
Proof.
  intros [Hw Hl] E. apply highest_spec in E as (Hv & Hb & _); [|done].
  destruct (Z.lt_ge_cases v 16); [|lia]. rewrite Hl in Hb by lia. done.
Qed.

Lemma accept_highest_wf l : lapic_wf l -> lapic_wf (accept_highest_interrupt l).1.
Proof.
  intros H. unfold accept_highest_interrupt, pending_interrupt.
  destruct (la_enabled l); cbn [negb]; [|done].
  destruct (highest_bit_in_register (la_irr l)) as [v|] eqn:E; cbn; [|done].
  destruct (_ && _); [|done]. cbn. apply start_servicing_wf; [done|]. by eapply highest_legal, E; apply H.
Qed.

Lemma write_lvt_timer_wf l v : lapic_wf l -> lapic_wf (write_lvt_timer l v).
Proof.
  intros H. assert (Hm : lvt_timer_mode (v .& LVT_TIMER_WRITE_MASK) = lvt_timer_mode v).
  { unfold lvt_timer_mode. replace (((v .& LVT_TIMER_WRITE_MASK) .>> 17) .& 3) with ((v .>> 17) .& 3); [done|].
    rewrite Z.shiftr_land, <- Z.land_assoc. by change ((LVT_TIMER_WRITE_MASK .>> 17) .& 3) with 3. }
  unfold write_lvt_timer. case_bool_decide; lapic_fields H; (by apply within_land) || (split; done).
Qed.

Lemma write_timer_init_wf l v : lapic_wf l -> fits 32 v -> lapic_wf (write_timer_init l v).
Proof.
  intros H Hv. unfold write_timer_init. case_bool_decide; [|done]. pose proof (timer_divisor_pos l).
  lapic_fields H; [unfold fits in Hv; lia|]. split; [lia|]. done.
Qed.

Lemma write_divide_wf l v :
  lapic_wf l -> lapic_wf (with_timer_divide_residual (with_timer_divide l (v .& TIMER_DCR_WRITE_MASK)) 0).
Proof.
  intros H. lapic_fields H; [by apply within_land|]. split; [lia|]. apply timer_divisor_pos.
Qed.

Lemma icr_low_within icr v :
  within (ICR_LOW_WRITE_MASK .| (ICR_HIGH_WRITE_MASK .<< 32)) icr ->
  within (ICR_LOW_WRITE_MASK .| (ICR_HIGH_WRITE_MASK .<< 32))
    ((icr .& 0xFFFFFFFF00000000) .| (v .& ICR_LOW_WRITE_MASK)).
Proof.
  intros H. pose proof H as [H0 _]. split.
  { apply Z.lor_nonneg. split; apply Z.land_nonneg; [by left|by right]. }
  apply Z.bits_inj'. intros i Hi. rewrite Z.ldiff_spec, Z.lor_spec, !Z.land_spec, Z.lor_spec, Z.testbit_0_l.
  destruct (Z.testbit ICR_LOW_WRITE_MASK i) eqn:E1; cbn [orb negb]; [by rewrite andb_false_r|].
  rewrite andb_false_r, orb_false_r.
  destruct (Z.testbit (ICR_HIGH_WRITE_MASK .<< 32) i) eqn:E2; cbn [negb]; [by rewrite andb_false_r|].
  rewrite (within_bit _ _ _ H); [done|]. by rewrite Z.lor_spec, E1, E2.
Qed.

Lemma icr_high_within icr v :
  within (ICR_LOW_WRITE_MASK .| (ICR_HIGH_WRITE_MASK .<< 32)) icr ->
  within (ICR_LOW_WRITE_MASK .| (ICR_HIGH_WRITE_MASK .<< 32))
    ((icr .& 0x00000000FFFFFFFF) .| ((v .& ICR_HIGH_WRITE_MASK) .<< 32)).
Proof.
  intros H. pose proof H as [H0 _]. rewrite Z.shiftl_land. split.
  { apply Z.lor_nonneg. split; apply Z.land_nonneg; by right. }
  apply Z.bits_inj'. intros i Hi. rewrite Z.ldiff_spec, Z.lor_spec, !Z.land_spec, Z.lor_spec, Z.testbit_0_l.
  destruct (Z.testbit ICR_LOW_WRITE_MASK i) eqn:E1; cbn [orb negb]; [by rewrite andb_false_r|].
  destruct (Z.testbit (ICR_HIGH_WRITE_MASK .<< 32) i) eqn:E2; cbn [negb]; [by rewrite andb_false_r|].
  rewrite andb_false_r, orb_false_r.
  rewrite (within_bit _ _ _ H); [done|]. by rewrite Z.lor_spec, E1, E2.
Qed.

Lemma write_register_wf l off v : lapic_wf l -> fits 32 v -> lapic_wf (write_register l off v).
Proof.
  intros H Hv. unfold write_register.
  repeat match goal with |- lapic_wf (if ?b then _ else _) => destruct b end;
    try (lapic_fields H; by apply within_land);
    auto using handle_eoi_wf, write_lvt_timer_wf, write_timer_init_wf, write_divide_wf.
  - lapic_fields H. unfold fits in *. rewrite Z.shiftr_div_pow2 by lia. split; [apply Z.div_pos; lia|apply Z.div_lt_upper_bound; lia].
  - lapic_fields H. by apply fits_land_r.
  - lapic_fields H. split; [by apply fits_lor|]. apply Z.bits_inj'. intros i Hi.
    rewrite Z.land_spec, Z.lor_spec. by destruct (Z.testbit v i), (Z.testbit 0x0FFFFFFF i).
  - lapic_fields H; [|by apply within_land]. rewrite (tst_pow v 0x100 8) by done.
    by rewrite Z.land_spec, andb_true_r.
  - lapic_fields H. by apply icr_low_within.
  - lapic_fields H. by apply icr_high_within.
  - apply accept_interrupt_wf; [done|]. apply land_255.
Qed.

(** Firing the timer leaves the timer registers alone. *)
Lemma timer_fire_timer l :
  timer_initial (timer_fire l) = timer_initial l /\ timer_current (timer_fire l) = timer_current l /\
  timer_mode (timer_fire l) = timer_mode l /\ timer_divide (timer_fire l) = timer_divide l /\
  timer_divide_residual (timer_fire l) = timer_divide_residual l /\
  la_lvt_timer (timer_fire l) = la_lvt_timer l.
Proof.
  unfold timer_fire, accept_interrupt. destruct (tst _ _); [done|].
  destruct (la_enabled l); cbn [negb fst]; [|done].
  destruct (_ <? 16); cbn [fst]; [done|]. case_bool_decide; done.
Qed.

Lemma timer_tick_wf l n : lapic_wf l -> 0 <= n -> lapic_wf (timer_tick l n).1.
Proof.
  intros H Hn. pose proof (timer_divisor_pos l). unfold timer_tick. destruct (_ || _) eqn:Hg; cbn [fst]; [done|].
  apply orb_false_iff in Hg as [Hi0%Z.eqb_neq _]. set (total := Z.min _ _). set (l1 := with_timer_divide_residual l (total mod timer_divisor l)).
  assert (H1 : lapic_wf l1).
  { unfold l1. lapic_fields H. by apply Z.mod_pos_bound. }
  assert (Ht : 0 <= total / timer_divisor l).
  { apply Z.div_pos; [|done]. destruct H. unfold total. lia. }
  destruct (Z.eqb_spec (total / timer_divisor l) 0); cbn [fst]; [done|].
  destruct (Z.leb_spec (timer_current l1) (total / timer_divisor l)).
  - pose proof (timer_fire_wf l1 H1) as Hwf2. destruct (timer_fire_timer l1) as (Ei & Ec & _).
    pose proof (lw_counts _ H1) as Hcounts. set (l2 := timer_fire l1) in *. clearbody l2.
    case_bool_decide; cbn [fst]; lapic_fields Hwf2; rewrite ?Ei; [|lia].
    change (timer_initial l1 <> 0) in Hi0.
    pose proof (Z.mod_pos_bound (total / timer_divisor l - timer_current l2) (timer_initial l1) ltac:(lia)). lia.
  - pose proof (lw_counts _ H) as Hc. change (timer_current l1) with (timer_current l) in *. lapic_fields H1. lia.
Qed.

(** ** Everything that can happen to a local APIC *)

Inductive lapic_op : Type :=
  | OpWrite (offset value : Z)
  | OpAccept (e : InterruptEntry)
  | OpAcceptHighest
  | OpEoi
  | OpSetTpr (value : Z)
  | OpTick (ticks : Z)
  | OpCheckTsc (tsc : Z)
  | OpWriteTscMsr (value : Z)
  | OpSetTscDeadline (value : Z)
  | OpTakeInjection.

Definition lapic_exec (o : lapic_op) (l : LocalApic) : LocalApic :=
  match o with
  | OpWrite offset value => write_register l offset value
  | OpAccept e => (accept_interrupt l e).1
  | OpAcceptHighest => (accept_highest_interrupt l).1
  | OpEoi => signal_eoi l
  | OpSetTpr value => set_tpr l value
  | OpTick ticks => (timer_tick l ticks).1
  | OpCheckTsc tsc => (check_tsc_deadline l tsc).1
  | OpWriteTscMsr value => write_tsc_deadline_msr l value
  | OpSetTscDeadline value => set_tsc_deadline l value
  | OpTakeInjection => (take_pending_injection l).1
  end.

(** The arguments are values of their Rust types. *)
Definition lapic_op_typed (o : lapic_op) : Prop :=
  match o with
  | OpWrite offset value => fits 32 value
  | OpAccept e => fits 8 (ie_vector e)
  | OpSetTpr value => fits 8 value
  | OpTick ticks => fits 32 ticks
  | OpWriteTscMsr value | OpSetTscDeadline value => fits 64 value
  | _ => True
  end.

Definition lapic_run (os : list lapic_op) (l : LocalApic) : LocalApic :=
  foldl (fun l o => lapic_exec o l) l os.

Lemma lapic_exec_wf o l : lapic_wf l -> lapic_op_typed o -> lapic_wf (lapic_exec o l).
Proof.
  intros H Ho. destruct o; cbn in *.
  - by apply write_register_wf.
  - by apply accept_interrupt_wf.
  - by apply accept_highest_wf.
  - by apply handle_eoi_wf.
  - lapic_fields H.
  - apply timer_tick_wf; [done|]. apply Ho.
  - unfold check_tsc_deadline. destruct (_ || _); cbn; [done|]. destruct (_ <? _); cbn; [done|].
    apply timer_fire_wf. lapic_fields H. by split.
  - unfold write_tsc_deadline_msr. case_bool_decide; [lapic_fields H|done].
  - lapic_fields H.
  - lapic_fields H.
Qed.

Lemma lapic_run_wf os : forall l, lapic_wf l -> Forall lapic_op_typed os -> lapic_wf (lapic_run os l).
Proof.
  induction os as [|o os IH]; intros l H Hos; [done|]. inversion_clear Hos. cbn. apply IH; [|done].
  by apply lapic_exec_wf.
Qed.

(** The register file keeps its reserved bits.  Whatever sequence of guest
    register writes, interrupts, EOIs, timer ticks and MSR writes a LAPIC goes
    through, its state is well-formed: reserved and read-only bits of every
    register are 0, no vector below 16 is requested or in service, the timer's
    count and divider residual stay in range, and the timer mode is the one
    the LVT timer entry shows. *)
Theorem lapic_reachable_wf id os :
  fits 8 id -> Forall lapic_op_typed os -> lapic_wf (lapic_run os (LocalApic_new id)).
Proof. intros Hid Hos. apply lapic_run_wf; [by apply LocalApic_new_wf|done]. Qed.

Lemma lapic_reachable_wf_witness :
  let l := lapic_run [OpWrite LAPIC_SVR 0xFFFFFFFF; OpWrite LAPIC_LVT_TIMER 0xFFFFFFFF; OpAccept (edge_entry 0x31)]
             (LocalApic_new 3) in
  lapic_wf l /\ la_svr l = 0x3FF /\ la_lvt_timer l = 0x700FF /\ pending_interrupt l = Some 0x31.
Proof.
  split; [|repeat split]. apply lapic_reachable_wf; [by split|]. repeat constructor; by cbn.
Defined.

(** ** Arbitration *)

Lemma shr4 v : v .>> 4 = v / 16.
Proof. rewrite Z.shiftr_div_pow2 by lia. done. Qed.

(** The processor priority class dominates the TPR and every in-service class. *)
Lemma ppr_class l c :
  lapic_wf l -> 0 <= c ->
  ((wrap 8 (compute_ppr l) .>> 4) <? c) = (la_tpr l / 16 <? c) &&
    (default 0 (highest_bit_in_register (la_isr l)) / 16 <? c).
Proof.
  intros H Hc. pose proof (lw_tpr _ H) as Ht. unfold compute_ppr.
  set (isrv := default 0 _). assert (Hi : 0 <= isrv < 256).
  { unfold isrv. destruct (highest_bit_in_register (la_isr l)) as [v|] eqn:E; cbn; [|lia].
    apply highest_spec in E as (? & _); [done|apply H]. }
  rewrite !shr4.
  assert (H240 : isrv .& 0xF0 = isrv / 16 * 16).
  { apply Z.bits_inj'. intros i Hi0. replace (isrv / 16 * 16) with ((isrv .>> 4) .<< 4).
    2: { rewrite Z.shiftl_mul_pow2, shr4 by lia. done. }
    rewrite Z.land_spec, Z.shiftl_spec by done. destruct (Z.lt_ge_cases i 4).
    - rewrite (Z.testbit_neg_r _ (i - 4)) by lia. enum_Z i 0 4; by rewrite andb_false_r.
    - rewrite Z.shiftr_spec by lia. replace (i - 4 + 4) with i by lia.
      destruct (Z.lt_ge_cases i 8); [enum_Z i 4 8; by rewrite andb_true_r|].
      rewrite (fits_high 8 isrv) by (unfold fits; lia). done. }
  rewrite H240. unfold fits in Ht. change (2 ^ 8) with 256 in Ht.
  pose proof (Z.div_mod isrv 16 ltac:(lia)). pose proof (Z.mod_pos_bound isrv 16 ltac:(lia)).
  destruct (Z.leb_spec (isrv / 16) (la_tpr l / 16)); rewrite wrap_small by (unfold fits; change (2 ^ 8) with 256; lia);
    rewrite ?Z.div_mul by lia; zcases; cbn; (done || lia).
Qed.

Lemma default_class regs c :
  wf256 regs -> 0 < c ->
  (default 0 (highest_bit_in_register regs) / 16 <? c) = true <->
  forall w, 0 <= w < 256 -> vbit regs w = true -> w / 16 < c.
Proof.
  intros Hw Hc. rewrite Z.ltb_lt. destruct (highest_bit_in_register regs) as [v|] eqn:E; cbn.
  - apply highest_spec in E as (Hv & Hb & Hmax); [|done]. split; [|by intros; auto].
    intros Hlt w Hwr Hbw. pose proof (Hmax w Hwr Hbw). assert (w / 16 <= v / 16) by (apply Z.div_le_mono; lia). lia.
  - rewrite highest_none in E by done. split; [|done]. intros _ w Hwr Hbw. rewrite E in Hbw by done. done.
Qed.

Lemma pending_spec l v :
  lapic_wf l ->
  pending_interrupt l = Some v <->
  la_enabled l = true /\ highest (la_irr l) v /\ la_tpr l / 16 < v / 16 /\
  forall w, 0 <= w < 256 -> vbit (la_isr l) w = true -> w / 16 < v / 16.
Proof.
  intros H. unfold pending_interrupt. destruct (la_enabled l); cbn [negb]; [|by split; [done|intros [? _]]].
  destruct (highest_bit_in_register (la_irr l)) as [u|] eqn:E; cbn [mbind option_bind].
  2: { split; [done|]. intros (_ & Hh & _). apply highest_spec in Hh; [congruence|apply H]. }
  pose proof (highest_legal _ _ (lw_irr _ H) E) as Hu.
  assert (Hpos : 0 < u / 16) by (apply Z.div_str_pos; lia).
  rewrite (ppr_class l (u .>> 4)) by (done || (rewrite shr4; lia)). rewrite !shr4.
  apply highest_spec in E; [|apply H].
  assert (Hcls : (default 0 (highest_bit_in_register (la_isr l)) / 16 <? u / 16) = true <->
    forall w, 0 <= w < 256 -> vbit (la_isr l) w = true -> w / 16 < u / 16) by (apply default_class; [apply H|done]).
  assert (Huniq : highest (la_irr l) v -> v = u).
  { intros Hv. destruct E as (? & ? & Hm), Hv as (? & ? & Hm'). apply Z.le_antisymm; auto. }
  destruct (_ && _) eqn:Eb; split.
  - intros [=->]. rewrite !andb_true_iff, Z.ltb_lt in Eb. destruct Eb as [[? ?] ?]. split_and!; try done; apply E || tauto.
  - intros (_ & Hv & _). f_equal. symmetry. auto.
  - done.
  - intros (_ & Hv & Ht & Hs). rewrite <- (Huniq Hv) in *. apply Hcls in Hs. apply Z.ltb_lt in Ht.
    rewrite Hs, Ht in Eb. done.
Qed.

(** C38: arbitration delivers the right vector.  An enabled LAPIC has a pending
    interrupt [v] exactly when [v] is its highest requested vector and its
    priority class exceeds both the task priority class and the class of
    every vector in service. *)
Theorem lapic_pending_priority l v :
  lapic_wf l ->
  pending_interrupt l = Some v <->
  la_enabled l = true /\ highest (la_irr l) v /\ la_tpr l / 16 < v / 16 /\
  forall w, 0 <= w < 256 -> vbit (la_isr l) w = true -> w / 16 < v / 16.
Proof. apply pending_spec. Qed.

Lemma lapic_pending_priority_witness :
  let l := lapic_run [OpWrite LAPIC_SVR 0x1FF; OpAccept (edge_entry 0x41); OpAccept (edge_entry 0x52)]
             (LocalApic_new 0) in
  highest (la_irr l) 0x52.
Proof.
  cbv zeta. set (l := lapic_run _ _).
  assert (H : lapic_wf l) by (apply lapic_run_wf; [by apply LocalApic_new_wf|repeat constructor; by cbn]).
  apply (proj1 (lapic_pending_priority l 0x52 H)). reflexivity.
Defined.

(** Bitmaps with the same members are equal. *)
Lemma vbit_ext a b :
  wf256 a -> wf256 b -> (forall v, 0 <= v < 256 -> vbit a v = vbit b v) -> a = b.
Proof.
  intros Ha Hb He. pose proof Ha as [La _]. pose proof Hb as [Lb _]. apply list_eq_same_length with 8%nat; [done..|].
  intros i x y Hi Hx Hy. assert (Ex : reg a (Z.of_nat i) = x).
  { unfold reg. rewrite list_lookup_total_alt, Nat2Z.id, Hx. done. }
  assert (Ey : reg b (Z.of_nat i) = y).
  { unfold reg. rewrite list_lookup_total_alt, Nat2Z.id, Hy. done. }
  rewrite <- Ex, <- Ey. apply (fits_ext 32); [by apply reg_fits..|]. intros j Hj.
  specialize (He (32 * Z.of_nat i + j) ltac:(lia)). unfold vbit in He.
  rewrite (Z.mul_comm 32), Z.div_add_l, (Z.div_small j 32), Z.add_0_r in He by lia.
  rewrite (Z.add_comm _ j), Z.mod_add, Z.mod_small in He by lia. done.
Qed.

Lemma service_spec l v :
  lapic_wf l -> pending_interrupt l = Some v ->
  let l1 := (accept_highest_interrupt l).1 in
  (accept_highest_interrupt l).2 = Some v /\
  la_irr l1 = clear_vector_bit (la_irr l) v /\
  in_service_vector l1 = Some v /\
  (forall u, pending_interrupt l1 = Some u -> v / 16 < u / 16) /\
  la_isr (handle_eoi l1) = la_isr l /\ la_irr (handle_eoi l1) = la_irr l1.
Proof.
  intros H Hp. pose proof Hp as Hp'. apply pending_spec in Hp' as (He & Hh & Ht & Hs); [|done].
  pose proof Hh as (Hv & Hbv & _). pose proof (accept_highest_wf l H) as Hwf1.
  unfold accept_highest_interrupt in *. rewrite Hp in *. cbn [fst snd] in *.
  set (l1 := start_servicing l v) in *. cbv zeta.
  destruct (lw_isr _ H) as [Hw _]. destruct (lw_isr _ Hwf1) as [Hw1 _].
  assert (Hisr : la_isr l1 = set_vector_bit (la_isr l) v) by done.
  assert (Hnot : vbit (la_isr l) v = false).
  { destruct (vbit (la_isr l) v) eqn:E; [|done]. specialize (Hs v Hv E). lia. }
  assert (Htop : highest (la_isr l1) v).
  { rewrite Hisr. split_and!; [lia..| |].
    - rewrite vbit_set_bit, Z.eqb_refl, orb_true_r by (apply Hw || lia). done.
    - intros w Hwr Hbw. rewrite vbit_set_bit in Hbw by (apply Hw || lia).
      destruct (Z.eqb_spec w v); [lia|]. rewrite orb_false_r in Hbw. specialize (Hs w Hwr Hbw).
      destruct (Z.le_gt_cases w v); [done|]. assert (v / 16 <= w / 16) by (apply Z.div_le_mono; lia). lia. }
  split; [done|]. split; [done|]. apply highest_spec in Htop; [|done].
  split; [done|]. split.
  - intros u Hu. apply pending_spec in Hu as (_ & _ & _ & Hu); [|done]. apply Hu; [done|].
    rewrite Hisr, vbit_set_bit, Z.eqb_refl by (apply Hw || lia). apply orb_true_r.
  - unfold handle_eoi. rewrite Htop. cbn [la_isr la_irr with_la_isr]. split; [|done].
    apply vbit_ext; [rewrite Hisr; by apply wf256_clear_bit, wf256_set_bit|done|]. intros w Hwr.
    rewrite Hisr, vbit_clear_bit, vbit_set_bit by (rewrite ?Hisr; apply Hw || apply wf256_set_bit || lia; done).
    destruct (Z.eqb_spec w v) as [->|]; cbn; [by rewrite Hnot, andb_false_r|]. by rewrite orb_false_r, andb_true_r.
Qed.

(** servicing and EOI cancel.  When an interrupt is delivered to the vCPU
    its vector leaves the requests and enters service, which blocks every
    vector of its class or below; the EOI that follows retires exactly that
    vector, so the in-service register is as it was before the delivery. *)
Theorem lapic_service_cycle l v :
  lapic_wf l -> pending_interrupt l = Some v ->
  let l1 := (accept_highest_interrupt l).1 in
  (accept_highest_interrupt l).2 = Some v /\
  la_irr l1 = clear_vector_bit (la_irr l) v /\
  in_service_vector l1 = Some v /\
  (forall u, pending_interrupt l1 = Some u -> v / 16 < u / 16) /\
  la_isr (handle_eoi l1) = la_isr l /\ la_irr (handle_eoi l1) = la_irr l1.
Proof. apply service_spec. Qed.

Lemma lapic_service_cycle_witness :
  let l := lapic_run [OpWrite LAPIC_SVR 0x1FF; OpAccept (edge_entry 0x41); OpAccept (edge_entry 0x52)]
             (LocalApic_new 0) in
  in_service_vector (accept_highest_interrupt l).1 = Some 0x52.
Proof.
  cbv zeta. set (l := lapic_run _ _).
  assert (H : lapic_wf l) by (apply lapic_run_wf; [by apply LocalApic_new_wf|repeat constructor; by cbn]).
  apply (lapic_service_cycle l 0x52 H eq_refl).
Defined.

(** ** Timers *)

(** Setting a bit twice, clearing a bit twice. *)
Lemma set_vector_bit_idem regs v :
  wf256 regs -> 0 <= v < 256 -> set_vector_bit (set_vector_bit regs v) v = set_vector_bit regs v.
Proof.
  intros H Hv. apply vbit_ext; [by repeat apply wf256_set_bit|by apply wf256_set_bit|]. intros w Hw.
  rewrite !vbit_set_bit by (apply H || apply wf256_set_bit || lia; done). by destruct (vbit regs w), (w =? v).
Qed.

Lemma clear_vector_bit_idem regs v :
  wf256 regs -> 0 <= v < 256 -> clear_vector_bit (clear_vector_bit regs v) v = clear_vector_bit regs v.
Proof.
  intros H Hv. apply vbit_ext; [by repeat apply wf256_clear_bit|by apply wf256_clear_bit|]. intros w Hw.
  rewrite !vbit_clear_bit by (apply H || apply wf256_clear_bit || lia; done). by destruct (vbit regs w), (w =? v).
Qed.

(** A second expiry before the vector is serviced adds nothing. *)
Lemma timer_fire_idem l : lapic_wf l -> timer_fire (timer_fire l) = timer_fire l.
Proof.
  intros H. unfold timer_fire at 2 3. destruct (tst (la_lvt_timer l) 0x00010000) eqn:Em.
  { unfold timer_fire. by rewrite Em. }
  unfold accept_interrupt. destruct (la_enabled l) eqn:Ee; cbn [negb fst]; [|unfold timer_fire, accept_interrupt; by rewrite Em, Ee].
  pose proof (land_255 (la_lvt_timer l)) as Hv. cbn [edge_entry ie_vector ie_trigger_mode].
  destruct (_ <? 16) eqn:E16; cbn [fst].
  { unfold timer_fire, accept_interrupt. rewrite Em, Ee. cbn [negb edge_entry ie_vector]. by rewrite E16. }
  rewrite (bool_decide_eq_false_2 (Edge = Level)) by done.
  unfold timer_fire, accept_interrupt. cbn [la_lvt_timer la_enabled with_la_tmr with_la_irr]. rewrite Em, Ee.
  cbn [negb edge_entry ie_vector ie_trigger_mode]. rewrite E16, (bool_decide_eq_false_2 (Edge = Level)) by done.
  cbn [fst la_irr la_tmr with_la_tmr with_la_irr].
  rewrite set_vector_bit_idem, clear_vector_bit_idem by (apply H || done). done.
Qed.

Lemma timer_fire_current l c : timer_fire (with_timer_current l c) = with_timer_current (timer_fire l) c.
Proof.
  unfold timer_fire, accept_interrupt. cbn [la_lvt_timer la_enabled with_timer_current].
  destruct (tst _ _); [done|]. destruct (la_enabled l); cbn [negb fst]; [|done].
  destruct (_ <? 16); cbn [fst]; [done|]. by case_bool_decide.
Qed.

Lemma timer_fire_residual l r :
  timer_fire (with_timer_divide_residual l r) = with_timer_divide_residual (timer_fire l) r.
Proof.
  unfold timer_fire, accept_interrupt. cbn [la_lvt_timer la_enabled with_timer_divide_residual].
  destruct (tst _ _); [done|]. destruct (la_enabled l); cbn [negb fst]; [|done].
  destruct (_ <? 16); cbn [fst]; [done|]. by case_bool_decide.
Qed.

(** The periodic counter after [q] counts: one formula for all cases. *)
Definition periodic_count (I c q : Z) : Z := I - (q - c) mod I.

Lemma periodic_count_early I c q : 1 <= c <= I -> 0 <= q < c -> periodic_count I c q = c - q.
Proof.
  intros Hc Hq. unfold periodic_count. rewrite <- (Z.mod_add (q - c) 1), Z.mod_small by lia. lia.
Qed.

Lemma periodic_count_range I c q : 0 < I -> 1 <= periodic_count I c q <= I.
Proof. intros. unfold periodic_count. pose proof (Z.mod_pos_bound (q - c) I). lia. Qed.

Lemma periodic_count_add I c q1 q2 :
  0 < I -> periodic_count I (periodic_count I c q1) q2 = periodic_count I c (q1 + q2).
Proof.
  intros HI. unfold periodic_count. f_equal.
  replace (q2 - (I - (q1 - c) mod I)) with ((q1 - c) mod I + q2 + (- 1) * I) by lia.
  rewrite Z.mod_add, Zplus_mod_idemp_l by lia. f_equal. lia.
Qed.

(** The state and the result of a periodic tick, in closed form. *)
Definition periodic_after (l : LocalApic) (n : Z) : LocalApic * bool :=
  let d := timer_divisor l in
  let q := (timer_divide_residual l + n) / d in
  let fired := timer_current l <=? q in
  (with_timer_current
     (with_timer_divide_residual (if fired then timer_fire l else l) ((timer_divide_residual l + n) mod d))
     (periodic_count (timer_initial l) (timer_current l) q), fired).

Lemma timer_tick_periodic l n :
  lapic_wf l -> timer_mode l = Periodic -> 1 <= timer_current l -> 0 <= n ->
  timer_divide_residual l + n < 2 ^ 32 -> timer_tick l n = periodic_after l n.
Proof.
  intros H Hm Hc Hn Hs. pose proof (timer_divisor_pos l). pose proof (lw_counts _ H). pose proof (lw_residual _ H).
  unfold timer_tick, periodic_after. rewrite Z.min_l by lia. cbv zeta.
  destruct (Z.eqb_spec (timer_initial l) 0); [lia|]. rewrite bool_decide_eq_false_2 by congruence. cbn [orb].
  set (q := (timer_divide_residual l + n) / timer_divisor l).
  set (r := (timer_divide_residual l + n) mod timer_divisor l).
  assert (Hq : 0 <= q) by (apply Z.div_pos; lia).
  change (timer_current (with_timer_divide_residual l r)) with (timer_current l).
  destruct (Z.eqb_spec q 0) as [E|E].
  { rewrite E. destruct (Z.leb_spec (timer_current l) 0); [lia|].
    rewrite periodic_count_early, Z.sub_0_r by lia. done. }
  destruct (Z.leb_spec (timer_current l) q).
  - rewrite timer_fire_residual. destruct (timer_fire_timer l) as (Ei & Ec & Em & _).
    cbn [timer_mode with_timer_divide_residual timer_current timer_initial].
    rewrite Em, Hm, bool_decide_eq_true_2, Ei, Ec by done. done.
  - by rewrite periodic_count_early by lia.
Qed.

(** batching timer ticks is exact.  In periodic mode two successive ticks
    of [a] and [b] input clocks leave the LAPIC in the very state one tick of
    [a + b] does, and one of them fires exactly when the combined one does. *)
Theorem lapic_timer_batch l a b :
  lapic_wf l -> timer_mode l = Periodic -> 1 <= timer_current l -> 0 <= a -> 0 <= b ->
  timer_divide_residual l + a + b < 2 ^ 32 ->
  let '(l1, f1) := timer_tick l a in
  let '(l2, f2) := timer_tick l1 b in
  timer_tick l (a + b) = (l2, f1 || f2).
Proof.
  intros H Hm Hc Ha Hb Hs. pose proof (timer_divisor_pos l) as Hd. pose proof (lw_counts _ H).
  pose proof (lw_residual _ H) as Hr.
  assert (Ht1 : timer_tick l a = periodic_after l a) by (apply timer_tick_periodic; (done || lia)).
  pose proof (timer_tick_wf l a H Ha) as H1. rewrite Ht1 in *. unfold periodic_after in *. cbv zeta in *.
  set (d := timer_divisor l) in *. set (q1 := (timer_divide_residual l + a) / d) in *.
  set (r1 := (timer_divide_residual l + a) mod d) in *. cbn [fst] in H1.
  set (l1 := with_timer_current _ _) in *.
  assert (Hbase : timer_initial l1 = timer_initial l /\ timer_divisor l1 = d /\ timer_mode l1 = Periodic /\
    timer_current l1 = periodic_count (timer_initial l) (timer_current l) q1 /\ timer_divide_residual l1 = r1).
  { unfold l1, d, timer_divisor. destruct (timer_fire_timer l) as (Ei & _ & Em & Ed & _).
    destruct (timer_current l <=? q1); cbn; by rewrite ?Ei, ?Em, ?Ed. }
  destruct Hbase as (Ei & Ed & Em & Ec & Er).
  pose proof (periodic_count_range (timer_initial l) (timer_current l) q1 ltac:(lia)) as Hcr.
  assert (Hr1 : 0 <= r1 < d) by (apply Z.mod_pos_bound; lia).
  assert (Hdm : timer_divide_residual l + a = d * q1 + r1) by (apply Z.div_mod; lia).
  assert (0 <= q1) by (apply Z.div_pos; lia).
  rewrite (timer_tick_periodic l1 b H1 Em) by (rewrite ?Ec, ?Er; lia || nia).
  rewrite (timer_tick_periodic l (a + b)) by (done || lia).
  unfold periodic_after. rewrite Ei, Ed, Ec, Er. fold d.
  assert (Hq : (timer_divide_residual l + (a + b)) / d = q1 + (r1 + b) / d).
  { rewrite Z.add_assoc, Hdm. replace (d * q1 + r1 + b) with (q1 * d + (r1 + b)) by lia. by rewrite Z.div_add_l by lia. }
  assert (Hmod : (timer_divide_residual l + (a + b)) mod d = (r1 + b) mod d).
  { rewrite Z.add_assoc, Hdm. replace (d * q1 + r1 + b) with (r1 + b + q1 * d) by lia. by rewrite Z.mod_add by lia. }
  rewrite Hq, Hmod. set (q2 := (r1 + b) / d). assert (0 <= q2) by (apply Z.div_pos; lia).
  rewrite <- periodic_count_add by lia.
  assert (Hfire : (timer_current l <=? q1 + q2) = (timer_current l <=? q1) ||
    (periodic_count (timer_initial l) (timer_current l) q1 <=? q2)).
  { destruct (Z.leb_spec (timer_current l) q1); cbn [orb]; [apply Z.leb_le; lia|].
    rewrite periodic_count_early by lia. zcases; (done || lia). }
  rewrite Hfire. f_equal. unfold l1. clear -H.
  destruct (timer_current l <=? q1); cbn [orb]; destruct (_ <=? q2); try done;
    rewrite timer_fire_current, timer_fire_residual, ?timer_fire_idem by done; done.
Qed.

Lemma lapic_timer_batch_witness :
  let l := lapic_run [OpWrite LAPIC_SVR 0x1FF; OpWrite LAPIC_LVT_TIMER 0x20030; OpWrite LAPIC_TIMER_INIT 5]
             (LocalApic_new 0) in
  exists l1 l2, timer_tick l 7 = (l1, false) /\ timer_tick l1 19 = (l2, true) /\ timer_tick l 26 = (l2, true).
Proof.
  set (l := lapic_run _ _).
  assert (H : lapic_wf l) by (apply lapic_run_wf; [by apply LocalApic_new_wf|repeat constructor; by cbn]).
  pose proof (lapic_timer_batch l 7 19 H eq_refl ltac:(vm_compute; discriminate) ltac:(lia) ltac:(lia) ltac:(vm_compute; reflexivity)) as E.
  assert (E1 : (timer_tick l 7).2 = false) by (vm_compute; reflexivity).
  assert (E2 : (timer_tick (timer_tick l 7).1 19).2 = true) by (vm_compute; reflexivity).
  change (7 + 19) with 26 in E. clearbody l. destruct (timer_tick l 7) as [l1 f1] eqn:Et1. cbn [fst snd] in *. destruct (timer_tick l1 19) as [l2 f2] eqn:Et.
  cbn [snd] in E2. subst f1 f2. exists l1, l2. split; [|split]; (done || exact E).
Defined.

(** The state a one-shot expiry leaves. *)
Lemma timer_tick_oneshot l n l1 :
  lapic_wf l -> timer_mode l = OneShot -> timer_tick l n = (l1, true) ->
  timer_current l1 = 0 /\ timer_initial l1 <> 0 /\ timer_mode l1 = OneShot /\ timer_divisor l1 = timer_divisor l /\
  0 <= timer_divide_residual l1.
Proof.
  intros H Hm. pose proof (timer_divisor_pos l). unfold timer_tick.
  destruct (Z.eqb_spec (timer_initial l) 0) as [|Ei]; cbn [orb]; [done|]. rewrite bool_decide_eq_false_2 by congruence.
  set (total := Z.min _ _). set (l0 := with_timer_divide_residual l (total mod timer_divisor l)). cbv zeta.
  destruct (total / timer_divisor l =? 0); [done|]. destruct (_ <=? _); [|done].
  destruct (timer_fire_timer l0) as (Fi & Fc & Fm & Fd & Fr & _).
  rewrite bool_decide_eq_false_2 by (rewrite Fm; cbn; congruence). intros [= <-].
  cbn [timer_current with_timer_current timer_initial timer_mode timer_divide_residual]. unfold timer_divisor at 1.
  cbn [timer_divide with_timer_current]. rewrite Fi, Fm, Fd, Fr. split; [done|]. split; [exact Ei|]. split; [exact Hm|].
  split; [done|]. cbn. apply Z.mod_pos_bound. lia.
Qed.

(** a one-shot timer does not stay expired.  Once a one-shot count has run
    out and fired, the counter reads zero, and every later tick of at least one
    divided clock fires the interrupt again, although the guest has not
    re-armed the timer. *)
Theorem lapic_oneshot_refires l n m l1 :
  lapic_wf l -> timer_mode l = OneShot -> timer_tick l n = (l1, true) -> timer_divisor l <= m < 2 ^ 32 ->
  timer_current l1 = 0 /\ (timer_tick l1 m).2 = true.
Proof.
  intros H Hm Hf Hd. pose proof (timer_divisor_pos l) as Hp.
  destruct (timer_tick_oneshot l n l1 H Hm Hf) as (Ec & Ei & Em & Ed & Er). split; [done|]. unfold timer_tick.
  destruct (Z.eqb_spec (timer_initial l1) 0); [done|]. rewrite bool_decide_eq_false_2 by congruence. cbn [orb].
  rewrite Ed. cbv zeta. set (q := Z.min _ _ / timer_divisor l).
  assert (1 <= q) by (apply Z.div_le_lower_bound; lia). destruct (Z.eqb_spec q 0); [lia|].
  cbn [timer_current with_timer_divide_residual]. rewrite Ec. destruct (Z.leb_spec 0 q); [|lia]. by case_bool_decide.
Qed.

Lemma lapic_oneshot_refires_witness :
  let l := lapic_run [OpWrite LAPIC_SVR 0x1FF; OpWrite LAPIC_LVT_TIMER 0x30; OpWrite LAPIC_TIMER_INIT 5]
             (LocalApic_new 0) in
  exists l1, timer_tick l 10 = (l1, true) /\ (timer_tick l1 2).2 = true.
Proof.
  set (l := lapic_run _ _).
  assert (H : lapic_wf l) by (apply lapic_run_wf; [by apply LocalApic_new_wf|repeat constructor; by cbn]).
  assert (E : timer_divisor l <= 2 < 2 ^ 32) by (vm_compute; split; [discriminate|reflexivity]).
  assert (F : (timer_tick l 10).2 = true) by (vm_compute; reflexivity).
  assert (M : timer_mode l = OneShot) by (vm_compute; reflexivity). clearbody l.
  destruct (timer_tick l 10) as [l1 f] eqn:Et. cbn in F. subst f. exists l1. split; [done|].
  apply (lapic_oneshot_refires l 10 2 l1 H M Et E).
Defined.

(** The deadline checks a vCPU makes with successive counter samples. *)
Fixpoint check_all (l : LocalApic) (tscs : list Z) : LocalApic * list bool :=
  match tscs with
  | [] => (l, [])
  | t :: ts => let '(l, f) := check_tsc_deadline l t in let '(l, fs) := check_all l ts in (l, f :: fs)
  end.

Lemma check_all_before l before after :
  Forall (fun t => t < tsc_deadline l) before ->
  check_all l (before ++ after) =
    let '(l', fs) := check_all l after in (l', replicate (length before) false ++ fs).
Proof.
  induction before as [|t before IH]; intros Hf; [cbn; by destruct (check_all l after)|].
  inversion_clear Hf as [|? ? Ht Hb]. cbn. unfold check_tsc_deadline.
  destruct (_ || _); [|rewrite (proj2 (Z.ltb_lt _ _)) by done]; rewrite IH by done; by destruct (check_all l after).
Qed.

Lemma check_all_disarmed l tscs : tsc_deadline l = 0 -> check_all l tscs = (l, replicate (length tscs) false).
Proof.
  intros Hd. induction tscs as [|t ts IH]; [done|]. cbn. unfold check_tsc_deadline.
  rewrite Hd, orb_true_r, IH. done.
Qed.

Lemma timer_fire_deadline l : tsc_deadline (timer_fire l) = tsc_deadline l /\ timer_mode (timer_fire l) = timer_mode l.
Proof.
  unfold timer_fire, accept_interrupt. destruct (tst _ _); [done|].
  destruct (la_enabled l); cbn [negb fst]; [|done]. destruct (_ <? 16); cbn [fst]; [done|]. by case_bool_decide.
Qed.

(** An armed TSC deadline fires exactly once.  Over any sequence of counter
    samples, the check reports the interrupt at the first sample that reaches
    the deadline and at no other, the vector is then requested, and the
    deadline MSR reads zero until it is written again. *)
Theorem lapic_tsc_deadline_once l before t after :
  lapic_wf l -> timer_mode l = TscDeadline -> tsc_deadline l <> 0 ->
  Forall (fun x => x < tsc_deadline l) before -> tsc_deadline l <= t ->
  exists l', check_all l (before ++ t :: after) =
      (l', replicate (length before) false ++ true :: replicate (length after) false) /\
    read_tsc_deadline_msr l' = 0 /\
    (timer_interrupt_pending l = true -> la_enabled l = true -> 16 <= la_lvt_timer l .& 0xFF ->
     vbit (la_irr l') (la_lvt_timer l .& 0xFF) = true).
Proof.
  intros H Hm Hd Hb Ht. rewrite check_all_before by done. cbn. unfold check_tsc_deadline at 1.
  rewrite bool_decide_eq_false_2 by (intros Hn; by apply Hn). destruct (Z.eqb_spec (tsc_deadline l) 0); [done|].
  cbn [orb]. destruct (Z.ltb_spec t (tsc_deadline l)); [lia|].
  destruct (timer_fire_deadline (with_tsc_deadline l 0)) as [Fd Fm].
  rewrite check_all_disarmed by (by rewrite Fd). eexists. split; [done|]. split.
  { unfold read_tsc_deadline_msr. rewrite Fd. by case_bool_decide. }
  unfold timer_interrupt_pending, timer_fire, accept_interrupt. cbn [la_lvt_timer la_enabled with_tsc_deadline].
  intros ->%negb_true_iff -> Hv. cbn [negb edge_entry ie_vector ie_trigger_mode].
  destruct (Z.ltb_spec (la_lvt_timer l .& 255) 16); [lia|]. rewrite bool_decide_eq_false_2 by done.
  cbn [fst la_irr la_tmr with_la_tmr with_la_irr with_tsc_deadline]. pose proof (land_255 (la_lvt_timer l)).
  rewrite vbit_set_bit, Z.eqb_refl by (lia || apply H). by rewrite orb_true_r.
Qed.

Lemma lapic_tsc_deadline_once_witness :
  let l := lapic_run [OpWrite LAPIC_SVR 0x1FF; OpWrite LAPIC_LVT_TIMER 0x40030; OpWriteTscMsr 100] (LocalApic_new 0) in
  exists l', check_all l ([40; 99] ++ 100 :: [101]) = (l', [false; false; true; false]) /\
    vbit (la_irr l') 0x30 = true.
Proof.
  set (l := lapic_run _ _).
  assert (H : lapic_wf l) by (apply lapic_run_wf; [by apply LocalApic_new_wf|repeat constructor; by cbn]).
  destruct (lapic_tsc_deadline_once l [40; 99] 100 [101] H eq_refl) as (l' & E & _ & V);
    [vm_compute; discriminate|repeat constructor|vm_compute; discriminate|].
  exists l'. split; [exact E|]. exact (V eq_refl eq_refl ltac:(vm_compute; discriminate)).
Defined.

(** ** Register file *)

(** The read-write registers: offset, writable bits, bits that read as one. *)
Definition rw_registers : list (Z * Z * Z) :=
  [(LAPIC_ID, 0xFF000000, 0); (LAPIC_TPR, 0xFF, 0); (LAPIC_LDR, 0xFF000000, 0); (LAPIC_DFR, 0xF0000000, 0x0FFFFFFF);
   (LAPIC_SVR, SVR_WRITE_MASK, 0); (LAPIC_ICR_LOW, ICR_LOW_WRITE_MASK, 0); (LAPIC_ICR_HIGH, ICR_HIGH_WRITE_MASK, 0);
   (LAPIC_LVT_TIMER, LVT_TIMER_WRITE_MASK, 0); (LAPIC_LVT_THERMAL, LVT_DELIVERY_WRITE_MASK, 0);
   (LAPIC_LVT_PERF, LVT_DELIVERY_WRITE_MASK, 0); (LAPIC_LVT_LINT0, LVT_LINT_WRITE_MASK, 0);
   (LAPIC_LVT_LINT1, LVT_LINT_WRITE_MASK, 0); (LAPIC_LVT_ERROR, LVT_ERROR_WRITE_MASK, 0);
   (LAPIC_LVT_CMCI, LVT_DELIVERY_WRITE_MASK, 0); (LAPIC_TIMER_INIT, 0xFFFFFFFF, 0);
   (LAPIC_TIMER_DIVIDE, TIMER_DCR_WRITE_MASK, 0)].

(** The byte lanes of the identifier and command registers. *)
Lemma id_lane v : fits 32 v -> (v .>> 24) .<< 24 = v .& 0xFF000000.
Proof.
  intros Hv. apply Z.bits_inj'. intros i Hi. destruct (Z.lt_ge_cases i 32).
  - enum_Z i 0 32; autorewrite with testbit; cbn; by rewrite ?andb_false_r, ?andb_true_r.
  - rewrite Z.land_spec, (fits_high 32 0xFF000000) by (done || lia). rewrite andb_false_r, Z.shiftl_spec, Z.shiftr_spec by lia.
    apply (fits_high 32); [done|lia].
Qed.

Lemma dfr_lane v : fits 32 v -> v .| 0x0FFFFFFF = (v .& 0xF0000000) .| 0x0FFFFFFF.
Proof.
  intros Hv. apply (fits_ext 32); [eauto with word..|]. intros i Hi. rewrite !Z.lor_spec, Z.land_spec.
  enum_Z i 0 32; cbn; by rewrite ?andb_false_r, ?andb_true_r, ?orb_true_r, ?orb_false_r.
Qed.

(** Two 32-bit values that agree on their 32 bits, the constants evaluated. *)
Ltac lanes :=
  apply (fits_ext 32); [eauto with word..|];
  let i := fresh "i" in let Hi := fresh "Hi" in
  intros i Hi; autorewrite with testbit; rewrite ?(proj2 (Z.ltb_lt i 32)) by lia;
  enum_Z i 0 32; cbn; by rewrite ?andb_false_r, ?andb_true_r, ?orb_true_r, ?orb_false_r.

Lemma full_lane v : fits 32 v -> v .& 0xFFFFFFFF = v.
Proof. intros Hv. lanes. Qed.

Lemma icr_low_lane icr v :
  wrap 32 ((icr .& 0xFFFFFFFF00000000) .| (v .& ICR_LOW_WRITE_MASK)) = v .& ICR_LOW_WRITE_MASK /\
  wrap 32 (((icr .& 0xFFFFFFFF00000000) .| (v .& ICR_LOW_WRITE_MASK)) .>> 32) = wrap 32 (icr .>> 32).
Proof. split; lanes. Qed.

Lemma icr_high_lane icr v :
  wrap 32 (((icr .& 0x00000000FFFFFFFF) .| ((v .& ICR_HIGH_WRITE_MASK) .<< 32)) .>> 32) = v .& ICR_HIGH_WRITE_MASK /\
  wrap 32 ((icr .& 0x00000000FFFFFFFF) .| ((v .& ICR_HIGH_WRITE_MASK) .<< 32)) = wrap 32 icr.
Proof. split; lanes. Qed.

(** The registers a guest can write keep their own storage. *)
Lemma write_read_same l o m f v :
  (o, m, f) ∈ rw_registers -> fits 32 v -> (o = LAPIC_TIMER_INIT -> timer_mode l <> TscDeadline) ->
  read_register (write_register l o v) o = (v .& m) .| f.
Proof.
  intros Hin Hv Ht. unfold rw_registers in Hin.
  repeat (apply elem_of_cons in Hin as [[= -> -> ->]|Hin]; [rewrite ?Z.lor_0_r|]); [..|by apply elem_of_nil in Hin].
  all: try reflexivity.
  - exact (id_lane v Hv).
  - exact (dfr_lane v Hv).
  - exact (proj1 (icr_low_lane (la_icr l) v)).
  - exact (proj1 (icr_high_lane (la_icr l) v)).
  - change (la_lvt_timer (write_lvt_timer l v) = v .& LVT_TIMER_WRITE_MASK). unfold write_lvt_timer. by case_bool_decide.
  - change (timer_initial (write_timer_init l v) = v .& 0xFFFFFFFF). unfold write_timer_init.
    rewrite bool_decide_eq_true_2 by (by apply Ht). symmetry. exact (full_lane v Hv).
Qed.

Lemma write_read_other_table l v :
  let offsets := rw_registers.*1.*1 in
  Forall (fun o => Forall (fun o' => o <> o' ->
    read_register (write_register l o v) o' = read_register l o') offsets) offsets.
Proof.
  cbn [rw_registers fmap list_fmap fst].
  repeat first [apply Forall_nil_2|apply Forall_cons_2]; intros Hne; try (exfalso; apply Hne; reflexivity);
    try reflexivity.
  1: exact (proj2 (icr_low_lane (la_icr l) v)).
  1: exact (proj2 (icr_high_lane (la_icr l) v)).
  all: match goal with
    | |- context [write_register ?x LAPIC_LVT_TIMER ?w] =>
        change (write_register x LAPIC_LVT_TIMER w) with (write_lvt_timer x w); unfold write_lvt_timer
    | |- context [write_register ?x LAPIC_TIMER_INIT ?w] =>
        change (write_register x LAPIC_TIMER_INIT w) with (write_timer_init x w); unfold write_timer_init
    end; case_bool_decide; reflexivity.
Qed.

(** The register file reads back what was written.  For every read-write
    register, a 32-bit write is read back with exactly its writable bits (and
    the bits hard-wired to one); the other read-write registers keep their
    values.  The initial count is the exception the SDM makes: it ignores
    writes in TSC-deadline mode. *)
Theorem lapic_register_file l o m f v :
  (o, m, f) ∈ rw_registers -> fits 32 v -> (o = LAPIC_TIMER_INIT -> timer_mode l <> TscDeadline) ->
  read_register (write_register l o v) o = (v .& m) .| f /\
  forall o', o' ∈ rw_registers.*1.*1 -> o' <> o -> read_register (write_register l o v) o' = read_register l o'.
Proof.
  intros Hin Hv Ht. split; [exact (write_read_same l o m f v Hin Hv Ht)|]. intros o' Ho' Hne.
  pose proof (write_read_other_table l v) as T. cbv zeta in T. rewrite Forall_forall in T.
  assert (Ho : o ∈ rw_registers.*1.*1).
  { apply list_elem_of_fmap. exists (o, m). split; [done|]. apply list_elem_of_fmap. by exists (o, m, f). }
  specialize (T o Ho). rewrite Forall_forall in T. apply (T o' Ho'). congruence.
Qed.

Lemma lapic_register_file_witness :
  let l := write_register (LocalApic_new 2) LAPIC_LVT_LINT0 0xFFFFFFFF in
  read_register l LAPIC_LVT_LINT0 = 0x1A7FF /\ read_register l LAPIC_DFR = 0xFFFFFFFF.
Proof.
  destruct (lapic_register_file (LocalApic_new 2) LAPIC_LVT_LINT0 LVT_LINT_WRITE_MASK 0 0xFFFFFFFF) as [E O].
  - by apply list_elem_of_In; repeat (left; reflexivity) || right.
  - by split.
  - discriminate.
  - split; [exact E|]. apply (O LAPIC_DFR); [|discriminate]. apply list_elem_of_In. cbn. auto 10.
Defined.
