(* ===== verification/IoApic.v ===== *)
(** * The I/O APIC (enlil-devices/src/interrupt/ioapic.rs)

    The 82093AA with its 24 redirection entries: the index/data register pair,
    the encoding of an entry in two 32-bit words, line assertion and
    deassertion, and the EOI broadcast with its re-delivery of level lines.
    Arrays are lists of length [NUM_IOAPIC_PINS]; [self] is threaded. *)

From Stdlib Require Import ZArith Lia Bool.
From stdpp Require Import base decidable list numbers.
From S2P Require Import Prelude Rust Irq.

Abbreviation IOAPIC_BASE := (0xFEC00000) (only parsing).
Abbreviation IOREGSEL := (0x00) (only parsing).
Abbreviation IOWIN := (0x10) (only parsing).
Abbreviation IOAPIC_REG_ID := (0x00) (only parsing).
Abbreviation IOAPIC_REG_VER := (0x01) (only parsing).
Abbreviation IOAPIC_REG_ARB := (0x02) (only parsing).
Abbreviation IOAPIC_REG_REDTBL_BASE := (0x10) (only parsing).
Abbreviation NUM_IOAPIC_PINS := (24) (only parsing).
Abbreviation IOAPIC_VERSION := (0x11) (only parsing).

Record RteFlags : Type := mk_RteFlags {
  dest_logical : bool;
  delivery_pending : bool;
  active_low : bool
}.

Record RedirectionEntry : Type := mk_RedirectionEntry {
  re_vector : Z;
  re_delivery_mode : DeliveryMode;
  re_flags : RteFlags;
  remote_irr : bool;
  level_triggered : bool;
  re_masked : bool;
  re_destination : Z
}.

Definition RedirectionEntry_default : RedirectionEntry :=
  mk_RedirectionEntry 0 Fixed (mk_RteFlags false false false) false false true 0.

(** ** The encoding of an entry *)

(** [if b { val |= 1 << i }] *)
Definition or_flag (val : Z) (b : bool) (i : Z) : Z := if b then val .| (1 .<< i) else val.

Definition rte_low (e : RedirectionEntry) : Z :=
  let val := re_vector e in
  let val := val .| ((mode_bits (re_delivery_mode e) .& 0x7) .<< 8) in
  let val := or_flag val (dest_logical (re_flags e)) 11 in
  let val := or_flag val (delivery_pending (re_flags e)) 12 in
  let val := or_flag val (active_low (re_flags e)) 13 in
  let val := or_flag val (remote_irr e) 14 in
  let val := or_flag val (level_triggered e) 15 in
  or_flag val (re_masked e) 16.

Abbreviation rte_high e := (re_destination e .<< 24) (only parsing).

(** [(val >> i) & 1 != 0] *)
Abbreviation bit_at val i := (negb ((val .>> i) .& 1 =? 0)) (only parsing).

Definition set_low (e : RedirectionEntry) (val : Z) : RedirectionEntry :=
  mk_RedirectionEntry (val .& 0xFF) (from_bits ((val .>> 8) .& 0x7))
    (mk_RteFlags (bit_at val 11) (delivery_pending (re_flags e)) (bit_at val 13))
    (remote_irr e) (bit_at val 15) (bit_at val 16) (re_destination e).

Definition set_high (e : RedirectionEntry) (val : Z) : RedirectionEntry :=
  mk_RedirectionEntry (re_vector e) (re_delivery_mode e) (re_flags e) (remote_irr e) (level_triggered e)
    (re_masked e) ((val .>> 24) .& 0xFF).

Definition set_remote_irr (e : RedirectionEntry) (b : bool) : RedirectionEntry :=
  mk_RedirectionEntry (re_vector e) (re_delivery_mode e) (re_flags e) b (level_triggered e)
    (re_masked e) (re_destination e).

Definition clear_delivery_pending (e : RedirectionEntry) : RedirectionEntry :=
  mk_RedirectionEntry (re_vector e) (re_delivery_mode e)
    (mk_RteFlags (dest_logical (re_flags e)) false (active_low (re_flags e)))
    (remote_irr e) (level_triggered e) (re_masked e) (re_destination e).

(** The field setters the controller's callers use on [get_rte_mut]. *)
Definition set_vector (e : RedirectionEntry) (vector : Z) : RedirectionEntry :=
  mk_RedirectionEntry vector (re_delivery_mode e) (re_flags e) (remote_irr e) (level_triggered e)
    (re_masked e) (re_destination e).
Definition set_delivery_mode (e : RedirectionEntry) (mode : Z) : RedirectionEntry :=
  mk_RedirectionEntry (re_vector e) (from_bits mode) (re_flags e) (remote_irr e) (level_triggered e)
    (re_masked e) (re_destination e).
Definition set_destination (e : RedirectionEntry) (dest : Z) : RedirectionEntry :=
  mk_RedirectionEntry (re_vector e) (re_delivery_mode e) (re_flags e) (remote_irr e) (level_triggered e)
    (re_masked e) dest.
Definition set_destination_mode_logical (e : RedirectionEntry) (logical : bool) : RedirectionEntry :=
  mk_RedirectionEntry (re_vector e) (re_delivery_mode e)
    (mk_RteFlags logical (delivery_pending (re_flags e)) (active_low (re_flags e)))
    (remote_irr e) (level_triggered e) (re_masked e) (re_destination e).
Definition set_masked (e : RedirectionEntry) (masked : bool) : RedirectionEntry :=
  mk_RedirectionEntry (re_vector e) (re_delivery_mode e) (re_flags e) (remote_irr e) (level_triggered e)
    masked (re_destination e).

(** ** The device *)

Record IoApic : Type := mk_IoApic {
  io_id : Z;
  reg_select : Z;
  entries : list RedirectionEntry;
  irq_level : list bool
}.

Definition with_entries (io : IoApic) (es : list RedirectionEntry) : IoApic :=
  mk_IoApic (io_id io) (reg_select io) es (irq_level io).
Definition with_irq_level (io : IoApic) (ls : list bool) : IoApic :=
  mk_IoApic (io_id io) (reg_select io) (entries io) ls.

Definition IoApic_new (id : Z) : IoApic :=
  mk_IoApic id 0 (replicate 24 RedirectionEntry_default) (replicate 24 false).

#[export] Instance RedirectionEntry_inhabited : Inhabited RedirectionEntry := populate RedirectionEntry_default.

(** [self.entries[i]], [self.irq_level[i]] for an index known to be in range. *)
Definition entry_at (io : IoApic) (i : Z) : RedirectionEntry := entries io !!! Z.to_nat i.
Definition level_at (io : IoApic) (i : Z) : bool := irq_level io !!! Z.to_nat i.
Definition set_entry (io : IoApic) (i : Z) (e : RedirectionEntry) : IoApic :=
  with_entries io (<[Z.to_nat i := e]> (entries io)).
Definition set_level (io : IoApic) (i : Z) (b : bool) : IoApic :=
  with_irq_level io (<[Z.to_nat i := b]> (irq_level io)).

Definition ioapic_read_register (io : IoApic) (reg : Z) : Z :=
  if (reg =? IOAPIC_REG_ID) || (reg =? IOAPIC_REG_ARB) then io_id io .<< 24
  else if reg =? IOAPIC_REG_VER then IOAPIC_VERSION .| ((NUM_IOAPIC_PINS - 1) .<< 16)
  else if IOAPIC_REG_REDTBL_BASE <=? reg then
    let index := reg - IOAPIC_REG_REDTBL_BASE in
    let entry_idx := index / 2 in
    if NUM_IOAPIC_PINS <=? entry_idx then 0
    else if index mod 2 =? 0 then rte_low (entry_at io entry_idx)
    else rte_high (entry_at io entry_idx)
  else 0.

Definition ioapic_write_register (io : IoApic) (reg value : Z) : IoApic :=
  if reg =? IOAPIC_REG_ID then
    mk_IoApic ((value .>> 24) .& 0xF) (reg_select io) (entries io) (irq_level io)
  else if IOAPIC_REG_REDTBL_BASE <=? reg then
    let index := reg - IOAPIC_REG_REDTBL_BASE in
    let entry_idx := index / 2 in
    if NUM_IOAPIC_PINS <=? entry_idx then io
    else if index mod 2 =? 0 then set_entry io entry_idx (set_low (entry_at io entry_idx) value)
    else set_entry io entry_idx (set_high (entry_at io entry_idx) value)
  else io.

Definition mmio_read (io : IoApic) (offset : Z) : Z :=
  if offset =? IOREGSEL then reg_select io
  else if offset =? IOWIN then ioapic_read_register io (reg_select io)
  else 0.

Definition mmio_write (io : IoApic) (offset value : Z) : IoApic :=
  if offset =? IOREGSEL then mk_IoApic (io_id io) (value .& 0xFF) (entries io) (irq_level io)
  else if offset =? IOWIN then ioapic_write_register io (reg_select io) value
  else io.

(** ** Lines and routing *)

Record InterruptRoute : Type := mk_InterruptRoute {
  ir_vector : Z;
  ir_delivery_mode : DeliveryMode;
  ir_dest_logical : bool;
  ir_destination : Z;
  ir_level_triggered : bool
}.

(** The route an entry describes. *)
Definition route_of (e : RedirectionEntry) (level : bool) : InterruptRoute :=
  mk_InterruptRoute (re_vector e) (re_delivery_mode e) (dest_logical (re_flags e)) (re_destination e) level.

Definition set_irq (io : IoApic) (irq : Z) : IoApic * option InterruptRoute :=
  if NUM_IOAPIC_PINS <=? irq then (io, None)
  else
    let entry := entry_at io irq in
    if re_masked entry then (io, None)
    else if level_triggered entry then
      if level_at io irq then (io, None)
      else
        let io := set_level io irq true in
        let entry := set_remote_irr entry true in
        (set_entry io irq entry, Some (route_of entry (level_triggered entry)))
    else (io, Some (route_of entry (level_triggered entry))).

Definition ioapic_clear_irq (io : IoApic) (irq : Z) : IoApic :=
  if irq <? NUM_IOAPIC_PINS then set_level io irq false else io.

(** One iteration of the EOI loop: the entry's new value and the route it
    re-delivers, given the level of its line. *)
Definition eoi_entry (vector : Z) (level : bool) (entry : RedirectionEntry) : RedirectionEntry * option InterruptRoute :=
  if level_triggered entry && remote_irr entry && (re_vector entry =? vector) then
    let entry := clear_delivery_pending (set_remote_irr entry false) in
    if level && negb (re_masked entry) then
      let entry := set_remote_irr entry true in (entry, Some (route_of entry true))
    else (entry, None)
  else (entry, None).

Fixpoint eoi_loop (vector : Z) (levels : list bool) (i : nat) (es : list RedirectionEntry) :
    list RedirectionEntry * list InterruptRoute :=
  match es with
  | [] => ([], [])
  | entry :: es =>
      let '(entry, r) := eoi_entry vector (levels !!! i) entry in
      let '(es, redeliver) := eoi_loop vector levels (S i) es in
      (entry :: es, match r with Some r => r :: redeliver | None => redeliver end)
  end.

Definition eoi (io : IoApic) (vector : Z) : IoApic * list InterruptRoute :=
  let '(es, redeliver) := eoi_loop vector (irq_level io) 0 (entries io) in
  (with_entries io es, redeliver).

Definition eoi_broadcast (io : IoApic) (vector : Z) : IoApic * list InterruptRoute := eoi io vector.

(** [get_rte] panics on a pin that does not exist; [entry] answers [None]. *)
Definition get_rte (io : IoApic) (irq : Z) : res unit RedirectionEntry :=
  match entries io !! Z.to_nat irq with Some e => Ok e | None => Panic end.
Definition entry (io : IoApic) (irq : Z) : option RedirectionEntry :=
  if irq <? Z.of_nat (length (entries io)) then entries io !! Z.to_nat irq else None.

(** ** Well-formedness *)

Definition rte_wf (e : RedirectionEntry) : Prop := fits 8 (re_vector e) /\ fits 8 (re_destination e).

Record ioapic_wf (io : IoApic) : Prop := mk_ioapic_wf {
  iw_id : fits 8 (io_id io);
  iw_select : fits 8 (reg_select io);
  iw_entries : length (entries io) = 24%nat /\ Forall rte_wf (entries io);
  iw_levels : length (irq_level io) = 24%nat
}.

Lemma IoApic_new_wf id : fits 8 id -> ioapic_wf (IoApic_new id).
Proof. intros Hid. split; try done. split; [done|]. repeat constructor; done. Qed.

Lemma entry_at_wf io i : ioapic_wf io -> rte_wf (entry_at io i).
Proof.
  intros H. unfold entry_at. rewrite list_lookup_total_alt.
  destruct (entries io !! Z.to_nat i) as [e|] eqn:E; cbn; [|by repeat split].
  eapply Forall_lookup_1; [apply (iw_entries _ H)|done].
Qed.

Lemma set_entry_wf io i e : ioapic_wf io -> rte_wf e -> ioapic_wf (set_entry io i e).
Proof.
  intros H He. destruct (iw_entries _ H) as [Hl Hf]. split; cbn; try apply H.
  rewrite length_insert. split; [done|]. by apply Forall_insert.
Qed.

Lemma set_level_wf io i b : ioapic_wf io -> ioapic_wf (set_level io i b).
Proof. intros H. split; cbn; try apply H. rewrite length_insert. apply H. Qed.

(** Reading an array slot after writing one. *)
Lemma entry_at_set io i j e :
  ioapic_wf io -> 0 <= i < 24 -> 0 <= j ->
  entry_at (set_entry io i e) j = if j =? i then e else entry_at io j.
Proof.
  intros H Hi Hj. destruct (iw_entries _ H) as [Hl _]. unfold entry_at, set_entry. cbn. rewrite !list_lookup_total_alt.
  destruct (Z.eqb_spec j i) as [->|].
  - rewrite list_lookup_insert_eq by lia. done.
  - by rewrite list_lookup_insert_ne by lia.
Qed.

Lemma level_at_set io i j b :
  ioapic_wf io -> 0 <= i < 24 -> 0 <= j ->
  level_at (set_level io i b) j = if j =? i then b else level_at io j.
Proof.
  intros H Hi Hj. pose proof (iw_levels _ H) as Hl. unfold level_at, set_level. cbn. rewrite !list_lookup_total_alt.
  destruct (Z.eqb_spec j i) as [->|].
  - rewrite list_lookup_insert_eq by lia. done.
  - by rewrite list_lookup_insert_ne by lia.
Qed.

(** ** The encoding round trip *)

Lemma testbit_or_flag v b i j : 0 <= i -> Z.testbit (or_flag v b i) j = Z.testbit v j || (b && (i =? j)).
Proof.
  intros Hi. unfold or_flag. destruct b; cbn [andb]; [|by rewrite orb_false_r].
  rewrite Z.lor_spec. f_equal. rewrite Z.shiftl_1_l, Z.pow2_bits_eqb by lia. done.
Qed.

Lemma bit_at_testbit v i : 0 <= i -> bit_at v i = Z.testbit v i.
Proof.
  intros Hi. rewrite <- (Z.add_0_l i), <- Z.shiftr_spec by lia. rewrite Z.add_0_l, Z.bit0_odd.
  change 1 with (Z.ones 1). rewrite Z.land_ones by lia. change (2 ^ 1) with 2. rewrite Zmod_odd. by destruct (Z.odd _).
Qed.

Lemma mode_fits m : fits 3 (mode_bits m .& 7).
Proof. pose proof (mode_bits_range m). by destruct m. Qed.

(** The bits of the low word. *)
Lemma testbit_rte_low e j :
  rte_wf e -> 0 <= j ->
  Z.testbit (rte_low e) j =
    if j <? 8 then Z.testbit (re_vector e) j
    else if j <? 11 then Z.testbit (mode_bits (re_delivery_mode e) .& 7) (j - 8)
    else if j =? 11 then dest_logical (re_flags e)
    else if j =? 12 then delivery_pending (re_flags e)
    else if j =? 13 then active_low (re_flags e)
    else if j =? 14 then remote_irr e
    else if j =? 15 then level_triggered e
    else (j =? 16) && re_masked e.
Proof.
  intros [Hv _] Hj. unfold rte_low. cbv zeta. rewrite !testbit_or_flag by lia. rewrite Z.lor_spec, Z.shiftl_spec by lia.
  destruct (Z.ltb_spec j 8).
  { rewrite (Z.testbit_neg_r _ (j - 8)) by lia. do 6 (rewrite (proj2 (Z.eqb_neq _ j)) by lia; rewrite andb_false_r, orb_false_r).
    by rewrite orb_false_r. }
  rewrite (fits_high 8 (re_vector e)) by (done || lia). cbn [orb]. destruct (Z.ltb_spec j 11).
  { do 6 (rewrite (proj2 (Z.eqb_neq _ j)) by lia; rewrite andb_false_r, orb_false_r). done. }
  rewrite (fits_high 3 (_ .& 7)) by (apply mode_fits || lia). cbn [orb].
  rewrite !(Z.eqb_sym _ j). zcases; subst; try lia; by rewrite ?andb_true_r, ?andb_false_r, ?orb_false_r.
Qed.

Lemma set_low_wf e v : rte_wf e -> rte_wf (set_low e v).
Proof. intros [? ?]. split; [|done]. cbn. eauto with word. Qed.

Lemma set_high_wf e v : rte_wf e -> rte_wf (set_high e v).
Proof. intros [? ?]. split; [done|]. cbn. eauto with word. Qed.

(** What a write of the low word reads back as: the writable bits, the
    delivery mode with the reserved encoding 3 turned into 0, and the two
    read-only status bits of the old word. *)
Definition low_readback (old v : Z) : Z :=
  (v .& 0x1A8FF) .| (mode_bits (from_bits (v .>> 8)) .<< 8) .| (old .& 0x5000).

Lemma from_bits_mask b : from_bits (b .& 7) = from_bits b.
Proof. unfold from_bits. by rewrite <- Z.land_assoc. Qed.

Lemma mode_land m : mode_bits m .& 7 = mode_bits m.
Proof. by destruct m. Qed.

Lemma rte_low_set_low e v : rte_wf e -> rte_low (set_low e v) = low_readback (rte_low e) v.
Proof.
  intros He. apply Z.bits_inj'. intros j Hj. rewrite testbit_rte_low by (by try apply set_low_wf).
  unfold low_readback. rewrite !Z.lor_spec, !Z.land_spec, Z.shiftl_spec by lia. rewrite testbit_rte_low by done.
  cbn [set_low re_vector re_delivery_mode re_flags dest_logical delivery_pending active_low remote_irr level_triggered re_masked].
  rewrite !bit_at_testbit, from_bits_mask, mode_land by lia.
  destruct (Z.lt_ge_cases j 17).
  - pose proof (mode_fits (from_bits (v .>> 8))) as Hf. rewrite mode_land in Hf.
    set (m := mode_bits (from_bits (v .>> 8))) in *. clearbody m.
    enum_Z j 0 17; cbn [Z.ltb Z.eqb Z.compare Pos.compare Pos.compare_cont Pos.eqb Z.sub Z.add Z.opp Z.pos_sub andb];
      rewrite ?Z.land_spec; cbn -[Z.testbit]; rewrite ?(Z.testbit_neg_r m) by lia; rewrite ?(fits_high 3 m) by (done || lia).
    all: eval_bits; try done.
  - rewrite (fits_high 17 0x1A8FF), (fits_high 17 0x5000) by (done || lia).
    pose proof (mode_fits (from_bits (v .>> 8))) as Hf. rewrite mode_land in Hf.
    rewrite (fits_high 3 (mode_bits _)) by (done || lia).
    rewrite !andb_false_r. zcases; (done || lia).
Qed.

Lemma rte_high_set_high e v : fits 32 v -> rte_high (set_high e v) = v .& 0xFF000000.
Proof.
  intros Hv. cbn [set_high re_destination].
  apply (fits_ext 32); [|eauto with word|].
  - apply (fits_shiftl 8 _ 24); eauto with word.
  - intros i Hi. rewrite Z.shiftl_spec, Z.land_spec, (Z.land_spec v) by lia. destruct (Z.lt_ge_cases i 24).
    + rewrite !(Z.testbit_neg_r _ (i - 24)) by lia. enum_Z i 0 24; by eval_bits.
    + rewrite Z.shiftr_spec by lia. replace (i - 24 + 24) with i by lia. enum_Z i 24 32; eval_bits; done.
Qed.

(** A guest's indexed access: select the register, then use the window. *)
Definition guest_read (io : IoApic) (reg : Z) : Z := mmio_read (mmio_write io IOREGSEL reg) IOWIN.
Definition guest_write (io : IoApic) (reg v : Z) : IoApic := mmio_write (mmio_write io IOREGSEL reg) IOWIN v.

Definition redtbl_low (n : Z) : Z := IOAPIC_REG_REDTBL_BASE + 2 * n.
Definition redtbl_high (n : Z) : Z := IOAPIC_REG_REDTBL_BASE + 2 * n + 1.

Lemma land_255_small v : fits 8 v -> v .& 0xFF = v.
Proof. intros Hv. change 0xFF with (Z.ones 8). rewrite Z.land_ones by lia. by apply Z.mod_small. Qed.

Lemma guest_read_reg io reg : fits 8 reg -> guest_read io reg = ioapic_read_register io reg.
Proof. intros Hr. unfold guest_read, mmio_read, mmio_write. cbn. by rewrite land_255_small. Qed.

(** Selecting a register changes nothing else. *)
Definition selected (io : IoApic) (reg : Z) : IoApic := mk_IoApic (io_id io) reg (entries io) (irq_level io).

Lemma guest_write_reg io reg v :
  fits 8 reg -> guest_write io reg v = ioapic_write_register (selected io reg) reg v.
Proof. intros Hr. unfold guest_write, mmio_write. cbn. by rewrite land_255_small. Qed.

Lemma redtbl_decode n b :
  0 <= n -> 0 <= b < 2 ->
  (IOAPIC_REG_REDTBL_BASE + 2 * n + b - IOAPIC_REG_REDTBL_BASE) / 2 = n /\
  (IOAPIC_REG_REDTBL_BASE + 2 * n + b - IOAPIC_REG_REDTBL_BASE) mod 2 = b.
Proof.
  intros Hn Hb. replace (_ - _) with (n * 2 + b) by lia.
  split; [rewrite Z.div_add_l, Z.div_small by lia; lia|].
  by rewrite Z.add_comm, Z.mod_add, Z.mod_small by lia.
Qed.

Lemma ioapic_write_low io n v :
  0 <= n < 24 -> ioapic_write_register io (redtbl_low n) v = set_entry io n (set_low (entry_at io n) v).
Proof.
  intros Hn. destruct (redtbl_decode n 0) as [Ed Em]; [lia..|]. rewrite Z.add_0_r in Ed, Em.
  unfold ioapic_write_register, redtbl_low in *. rewrite Ed, Em.
  zcases; (lia || done).
Qed.

Lemma ioapic_write_high io n v :
  0 <= n < 24 -> ioapic_write_register io (redtbl_high n) v = set_entry io n (set_high (entry_at io n) v).
Proof.
  intros Hn. destruct (redtbl_decode n 1) as [Ed Em]; [lia..|].
  unfold ioapic_write_register, redtbl_high in *. rewrite Ed, Em.
  zcases; (lia || done).
Qed.

Lemma ioapic_read_low io n :
  0 <= n < 24 -> ioapic_read_register io (redtbl_low n) = rte_low (entry_at io n).
Proof.
  intros Hn. destruct (redtbl_decode n 0) as [Ed Em]; [lia..|]. rewrite Z.add_0_r in Ed, Em.
  unfold ioapic_read_register, redtbl_low in *.
  rewrite Ed, Em. zcases; (lia || done).
Qed.

Lemma ioapic_read_high io n :
  0 <= n < 24 -> ioapic_read_register io (redtbl_high n) = rte_high (entry_at io n).
Proof.
  intros Hn. destruct (redtbl_decode n 1) as [Ed Em]; [lia..|].
  unfold ioapic_read_register, redtbl_high in *.
  rewrite Ed, Em. zcases; (lia || done).
Qed.

(** A register's value depends only on the identifier and on one entry. *)
Lemma ioapic_read_frame io io' n reg :
  io_id io' = io_id io -> (forall j, 0 <= j -> j <> n -> entry_at io' j = entry_at io j) ->
  0 <= reg -> reg <> redtbl_low n -> reg <> redtbl_high n ->
  ioapic_read_register io' reg = ioapic_read_register io reg.
Proof.
  unfold ioapic_read_register, redtbl_low, redtbl_high. intros -> He Hr H1 H2.
  destruct (_ || _); [done|]. destruct (reg =? _); [done|]. destruct (Z.leb_spec 16 reg); [|done].
  destruct (NUM_IOAPIC_PINS <=? _); [done|]. pose proof (Z.div_mod (reg - 16) 2) as Hd.
  pose proof (Z.mod_pos_bound (reg - 16) 2). rewrite He; [done|apply Z.div_pos; lia|lia].
Qed.

(** Program a redirection entry the way a guest does: low word, then high word. *)
Definition guest_write_rte (io : IoApic) (n lo hi : Z) : IoApic :=
  guest_write (guest_write io (redtbl_low n) lo) (redtbl_high n) hi.

Lemma redtbl_fits n : 0 <= n < 24 -> fits 8 (redtbl_low n) /\ fits 8 (redtbl_high n).
Proof. intros Hn. unfold redtbl_low, redtbl_high, fits. lia. Qed.

Lemma selected_wf io r : ioapic_wf io -> fits 8 r -> ioapic_wf (selected io r).
Proof. intros [] ?. by split. Qed.

Lemma guest_write_rte_eq io n lo hi :
  ioapic_wf io -> 0 <= n < 24 ->
  guest_write_rte io n lo hi =
    set_entry (selected io (redtbl_high n)) n (set_high (set_low (entry_at io n) lo) hi).
Proof.
  intros H Hn. destruct (redtbl_fits n Hn) as [Hl Hh]. unfold guest_write_rte.
  rewrite (guest_write_reg io), ioapic_write_low by done. rewrite guest_write_reg, ioapic_write_high by done.
  set (io1 := selected io (redtbl_low n)). assert (H1 : ioapic_wf io1) by (by apply selected_wf).
  change (entry_at (selected (set_entry io1 n (set_low (entry_at io1 n) lo)) (redtbl_high n)) n)
    with (entry_at (set_entry io1 n (set_low (entry_at io1 n) lo)) n).
  rewrite entry_at_set, Z.eqb_refl by (done || lia). unfold set_entry, selected, with_entries. cbn.
  by rewrite list_insert_insert_eq.
Qed.

(** Redirection entries survive the register window.  Programming entry [n]
    with a low and a high word and reading both back gives the writable bits
    that were written (the reserved delivery mode 3 reads as fixed) with the
    read-only delivery-status and remote-IRR bits unchanged, the whole
    destination byte, and leaves every other register as it was. *)
Theorem ioapic_rte_roundtrip io n lo hi :
  ioapic_wf io -> 0 <= n < 24 -> fits 32 lo -> fits 32 hi ->
  let io' := guest_write_rte io n lo hi in
  guest_read io' (redtbl_low n) = low_readback (guest_read io (redtbl_low n)) lo /\
  guest_read io' (redtbl_high n) = hi .& 0xFF000000 /\
  (forall reg, fits 8 reg -> reg <> redtbl_low n -> reg <> redtbl_high n -> guest_read io' reg = guest_read io reg) /\
  irq_level io' = irq_level io /\ ioapic_wf io'.
Proof.
  intros H Hn Hlo Hhi io'. destruct (redtbl_fits n Hn) as [Fl Fh].
  assert (Hs : ioapic_wf (selected io (redtbl_high n))) by (by apply selected_wf).
  pose proof (entry_at_wf io n H) as He.
  assert (E : entry_at io' n = set_high (set_low (entry_at io n) lo) hi).
  { unfold io'. rewrite guest_write_rte_eq, entry_at_set, Z.eqb_refl by (done || lia). done. }
  rewrite !guest_read_reg, ioapic_read_low, ioapic_read_high, ioapic_read_low, E by done.
  split; [|split; [|split; [|split]]].
  - change (rte_low (set_high ?e hi)) with (rte_low e). by apply rte_low_set_low.
  - by apply rte_high_set_high.
  - intros reg Hr H1 H2. rewrite !guest_read_reg by done. unfold io'. rewrite guest_write_rte_eq by done.
    apply (ioapic_read_frame _ _ n); [done| |apply Hr|done|done]. intros j Hj Hne.
    rewrite entry_at_set by (done || lia). by destruct (Z.eqb_spec j n).
  - unfold io'. by rewrite guest_write_rte_eq.
  - unfold io'. rewrite guest_write_rte_eq by done. apply set_entry_wf; [done|]. by apply set_high_wf, set_low_wf.
Qed.

Lemma ioapic_rte_roundtrip_witness :
  let io' := guest_write_rte (IoApic_new 0) 5 0xFFFFFFFF 0x12345678 in
  guest_read io' (redtbl_low 5) = 0x1AFFF /\ guest_read io' (redtbl_high 5) = 0x12000000 /\
  guest_read io' (redtbl_low 6) = 0x10000.
Proof.
  destruct (ioapic_rte_roundtrip (IoApic_new 0) 5 0xFFFFFFFF 0x12345678) as (L & U & F & _); [by apply IoApic_new_wf|lia|by split..|].
  split; [exact L|split; [exact U|]]. apply (F (redtbl_low 6)); [by split|discriminate..].
Defined.

(** ** The EOI broadcast, pin by pin *)

Lemma eoi_loop_spec v levels es : forall i,
  eoi_loop v levels i es =
    (imap (fun k e => (eoi_entry v (levels !!! (i + k)%nat) e).1) es,
     omap id (imap (fun k e => (eoi_entry v (levels !!! (i + k)%nat) e).2) es)).
Proof.
  induction es as [|e es IH]; intros i; [done|]. cbn [eoi_loop imap]. rewrite Nat.add_0_r.
  destruct (eoi_entry v (levels !!! i) e) as [e' r] eqn:E. rewrite IH.
  f_equal; cbn [fst snd].
  - f_equal. apply imap_ext. intros k x _. cbn. by rewrite Nat.add_succ_r.
  - change (omap id (?x :: ?l)) with (match x with Some y => y :: omap id l | None => omap id l end).
    assert (Hl : imap (fun k e => (eoi_entry v (levels !!! (S i + k)%nat) e).2) es =
                 imap ((fun k e => (eoi_entry v (levels !!! (i + k)%nat) e).2) ∘ S) es).
    { apply imap_ext. intros k x _. cbn. by rewrite Nat.add_succ_r. }
    by rewrite Hl.
Qed.

Lemma eoi_entries io v :
  entries (eoi io v).1 = imap (fun k e => (eoi_entry v (irq_level io !!! k) e).1) (entries io).
Proof. unfold eoi. by rewrite eoi_loop_spec. Qed.

Lemma eoi_routes io v :
  (eoi io v).2 = omap id (imap (fun k e => (eoi_entry v (irq_level io !!! k) e).2) (entries io)).
Proof. unfold eoi. by rewrite eoi_loop_spec. Qed.

Lemma eoi_frame io v :
  io_id (eoi io v).1 = io_id io /\ reg_select (eoi io v).1 = reg_select io /\ irq_level (eoi io v).1 = irq_level io.
Proof. unfold eoi. by rewrite eoi_loop_spec. Qed.

Lemma lookup_entry io i : ioapic_wf io -> 0 <= i < 24 -> entries io !! Z.to_nat i = Some (entry_at io i).
Proof.
  intros H Hi. destruct (iw_entries _ H) as [Hl _]. unfold entry_at. apply list_lookup_lookup_total_lt. lia.
Qed.

Lemma eoi_entry_at io v i :
  ioapic_wf io -> 0 <= i < 24 -> entry_at (eoi io v).1 i = (eoi_entry v (level_at io i) (entry_at io i)).1.
Proof.
  intros H Hi. unfold entry_at at 1. rewrite eoi_entries, list_lookup_total_alt, list_lookup_imap.
  by rewrite lookup_entry.
Qed.

Lemma eoi_entry_wf v b e : rte_wf e -> rte_wf (eoi_entry v b e).1.
Proof. unfold eoi_entry. intros [? ?]. by repeat case_match. Qed.

Lemma eoi_wf io v : ioapic_wf io -> ioapic_wf (eoi io v).1.
Proof.
  intros H. destruct (eoi_frame io v) as (E1 & E2 & E3). destruct (iw_entries _ H) as [Hl Hf].
  split; rewrite ?E1, ?E2, ?E3, ?eoi_entries; try apply H. rewrite length_imap. split; [done|].
  apply Forall_lookup_2. intros i x. rewrite list_lookup_imap. intros (e & He & ->)%fmap_Some.
  apply eoi_entry_wf. by eapply Forall_lookup_1.
Qed.

Lemma omap_id_none {A} (l : list (option A)) :
  (forall i x, l !! i = Some x -> x = None) -> omap id l = [].
Proof.
  induction l as [|x l IH]; intros H; [done|]. rewrite (H 0%nat x eq_refl). apply IH. intros i. apply (H (S i)).
Qed.

Lemma omap_id_single {A} (l : list (option A)) n r :
  l !! n = Some (Some r) -> (forall i x, i <> n -> l !! i = Some x -> x = None) -> omap id l = [r].
Proof.
  revert n. induction l as [|x l IH]; intros n Hn Ho; [done|]. destruct n as [|n].
  - injection Hn as ->. change (r :: omap id l = [r]). f_equal. apply omap_id_none. intros i y. by apply (Ho (S i)).
  - rewrite (Ho 0%nat x) by done. apply (IH n); [done|]. intros i y Hi. apply (Ho (S i)). lia.
Qed.

(** The routes of an EOI when at most the pin [n] answers. *)
Lemma eoi_routes_one io v n :
  ioapic_wf io -> 0 <= n < 24 ->
  (forall j, 0 <= j < 24 -> j <> n -> (eoi_entry v (level_at io j) (entry_at io j)).2 = None) ->
  (eoi io v).2 = match (eoi_entry v (level_at io n) (entry_at io n)).2 with Some r => [r] | None => [] end.
Proof.
  intros H Hn Ho. rewrite eoi_routes. destruct (iw_entries _ H) as [Hl _].
  set (l := imap _ _).
  assert (Hlk : forall i, l !! i = (fun e => (eoi_entry v (irq_level io !!! i) e).2) <$> entries io !! i).
  { intros i. unfold l. by rewrite list_lookup_imap. }
  assert (Hoth : forall i x, i <> Z.to_nat n -> l !! i = Some x -> x = None).
  { intros i x Hi. rewrite Hlk. intros (e & He & ->)%fmap_Some. apply lookup_lt_Some in He as Hlt.
    rewrite <- (Ho (Z.of_nat i)) by lia. unfold entry_at, level_at. rewrite Nat2Z.id.
    by rewrite (list_lookup_total_correct _ _ _ He). }
  assert (En : l !! Z.to_nat n = Some (eoi_entry v (level_at io n) (entry_at io n)).2).
  { by rewrite Hlk, lookup_entry. }
  destruct (eoi_entry v (level_at io n) (entry_at io n)).2 as [r|] eqn:E.
  - by apply (omap_id_single l (Z.to_nat n)).
  - apply omap_id_none. intros i x Hx. destruct (decide (i = Z.to_nat n)) as [->|]; [congruence|by eapply Hoth].
Qed.

(** ** The level-triggered protocol *)

(** Pin [n] is a level pin, unmasked, and no other level pin shares its vector. *)
Record level_pin (io : IoApic) (n : Z) (r : InterruptRoute) : Prop := mk_level_pin {
  lp_wf : ioapic_wf io;
  lp_pin : 0 <= n < 24;
  lp_level : level_triggered (entry_at io n) = true;
  lp_unmasked : re_masked (entry_at io n) = false;
  lp_route : route_of (entry_at io n) true = r;
  lp_sole : forall j, 0 <= j < 24 -> j <> n -> level_triggered (entry_at io j) = true ->
    re_vector (entry_at io j) <> ir_vector r
}.

(** An EOI does not touch the programmed part of an entry. *)
Lemma eoi_entry_config v b e :
  let e' := (eoi_entry v b e).1 in
  level_triggered e' = level_triggered e /\ re_masked e' = re_masked e /\ re_vector e' = re_vector e /\
  route_of e' true = route_of e true.
Proof. unfold eoi_entry. by repeat case_match. Qed.

Lemma eoi_entry_silent v b e :
  (level_triggered e = true -> re_vector e <> v) -> eoi_entry v b e = (e, None).
Proof.
  intros Hs. unfold eoi_entry. destruct (level_triggered e); [|done]. rewrite (proj2 (Z.eqb_neq _ _)) by auto.
  by rewrite andb_false_r.
Qed.

Lemma level_pin_eoi io n r v : level_pin io n r -> level_pin (eoi io v).1 n r.
Proof.
  intros []. destruct (eoi_entry_config v (level_at io n) (entry_at io n)) as (E1 & E2 & _ & E4).
  split; rewrite ?eoi_entry_at by done; try congruence; [by apply eoi_wf|].
  intros j Hj Hne. rewrite eoi_entry_at by done.
  destruct (eoi_entry_config v (level_at io j) (entry_at io j)) as (-> & _ & -> & _). by apply lp_sole0.
Qed.

Lemma level_pin_routes io n r :
  level_pin io n r -> remote_irr (entry_at io n) = true ->
  (eoi io (ir_vector r)).2 = (if level_at io n then [r] else []) /\
  remote_irr (entry_at (eoi io (ir_vector r)).1 n) = level_at io n.
Proof.
  intros [] Hr. rewrite (eoi_routes_one io _ n), eoi_entry_at by
    (try done; intros j Hj Hne; by rewrite eoi_entry_silent by (intros; by apply lp_sole0)).
  assert (Hv : re_vector (entry_at io n) = ir_vector r) by (by rewrite <- lp_route0).
  unfold eoi_entry. rewrite lp_level0, Hr, Hv, Z.eqb_refl. cbn [andb clear_delivery_pending set_remote_irr re_masked].
  rewrite lp_unmasked0, andb_true_r. destruct (level_at io n); cbn; [|done]. split; [|done]. f_equal. exact lp_route0.
Qed.

(** [k] EOIs of one vector in a row, with the routes each returns. *)
Fixpoint eois (k : nat) (io : IoApic) (v : Z) : IoApic * list (list InterruptRoute) :=
  match k with
  | O => (io, [])
  | S k => let '(io, rs) := eoi io v in let '(io, rss) := eois k io v in (io, rs :: rss)
  end.

Lemma level_at_eoi io v n : level_at (eoi io v).1 n = level_at io n.
Proof. unfold level_at. by destruct (eoi_frame io v) as (_ & _ & ->). Qed.

Lemma eois_held k : forall io n r,
  level_pin io n r -> remote_irr (entry_at io n) = true -> level_at io n = true ->
  let io' := (eois k io (ir_vector r)).1 in
  (eois k io (ir_vector r)).2 = replicate k [r] /\
  level_pin io' n r /\ remote_irr (entry_at io' n) = true /\ level_at io' n = true.
Proof.
  induction k as [|k IH]; intros io n r Hp Hr Hl; [done|]. cbn [eois replicate].
  destruct (level_pin_routes io n r Hp Hr) as [E1 E2]. rewrite Hl in E1, E2.
  pose proof (level_pin_eoi io n r (ir_vector r) Hp) as Hp'. pose proof (level_at_eoi io (ir_vector r) n) as Hl'.
  destruct (eoi io (ir_vector r)) as [io1 rs]. cbn [fst snd] in *. subst rs.
  destruct (IH io1 n r Hp' E2) as (Es & Ep & Er & El); [congruence|].
  destruct (eois k io1 (ir_vector r)) as [io2 rss]. cbn [fst snd] in *. by subst rss.
Qed.

Lemma level_pin_set_level io n r b : level_pin io n r -> level_pin (set_level io n b) n r.
Proof. intros []. split; try done. by apply set_level_wf. Qed.

(** Asserting the line of a level pin whose line is low. *)
Lemma level_pin_assert io n r :
  level_pin io n r -> level_at io n = false ->
  exists io1, set_irq io n = (io1, Some r) /\ level_pin io1 n r /\
    remote_irr (entry_at io1 n) = true /\ level_at io1 n = true.
Proof.
  intros Hp Hl. pose proof Hp as []. unfold set_irq. destruct (Z.leb_spec NUM_IOAPIC_PINS n) as [Hge|_].
  { lia. }
  rewrite lp_unmasked0, lp_level0, Hl. pose proof (level_pin_set_level io n r true Hp) as Hp1.
  set (e1 := set_remote_irr (entry_at io n) true). set (io1 := set_entry (set_level io n true) n e1).
  assert (He : forall j, 0 <= j -> entry_at io1 j = if j =? n then e1 else entry_at io j).
  { intros j Hj. unfold io1. by rewrite entry_at_set by (by try apply Hp1). }
  exists io1. assert (En : entry_at io1 n = e1) by (rewrite He, Z.eqb_refl by lia; done).
  split; [|split; [|split]].
  - f_equal. f_equal. unfold e1. cbn [level_triggered set_remote_irr]. rewrite lp_level0. exact lp_route0.
  - split; rewrite ?En; try done.
    + apply set_entry_wf; [apply Hp1|]. by apply (entry_at_wf io n).
    + intros j Hj Hne. rewrite He by lia. rewrite (proj2 (Z.eqb_neq _ _)) by done. by apply lp_sole0.
  - by rewrite En.
  - change (level_at (set_level io n true) n = true). by rewrite level_at_set, Z.eqb_refl by (done || lia).
Qed.

Lemma level_pin_clear io n r :
  level_pin io n r -> level_pin (ioapic_clear_irq io n) n r /\ level_at (ioapic_clear_irq io n) n = false /\
  entry_at (ioapic_clear_irq io n) n = entry_at io n.
Proof.
  intros Hp. pose proof Hp as []. unfold ioapic_clear_irq. destruct (Z.ltb_spec n NUM_IOAPIC_PINS) as [_|Hge].
  - split; [by apply level_pin_set_level|]. by rewrite level_at_set, Z.eqb_refl by (done || lia).
  - lia.
Qed.

(** a level line is delivered until it is deasserted.  Asserting the line
    of an unmasked level pin delivers its route; each EOI of its vector while
    the line stays high delivers the same route again; once the device has
    deasserted the line the next EOI delivers nothing, and a new assertion is
    delivered. *)
Theorem ioapic_level_redelivery io n r k :
  level_pin io n r -> level_at io n = false ->
  exists io1 io2 io3, set_irq io n = (io1, Some r) /\
    eois k io1 (ir_vector r) = (io2, replicate k [r]) /\
    eoi (ioapic_clear_irq io2 n) (ir_vector r) = (io3, []) /\
    (set_irq io3 n).2 = Some r.
Proof.
  intros Hp Hl. destruct (level_pin_assert io n r Hp Hl) as (io1 & E1 & Hp1 & Hr1 & Hl1).
  destruct (eois_held k io1 n r Hp1 Hr1 Hl1) as (E2 & Hp2 & Hr2 & Hl2).
  destruct (eois k io1 (ir_vector r)) as [io2 rss] eqn:Ek. cbn [fst snd] in *. subst rss.
  destruct (level_pin_clear io2 n r Hp2) as (Hp3 & Hl3 & Ee).
  destruct (level_pin_routes _ n r Hp3) as [E3 _]; [by rewrite Ee|]. rewrite Hl3 in E3.
  pose proof (level_pin_eoi _ n r (ir_vector r) Hp3) as Hp4. pose proof (level_at_eoi (ioapic_clear_irq io2 n) (ir_vector r) n) as Hl4.
  destruct (eoi (ioapic_clear_irq io2 n) (ir_vector r)) as [io3 rs] eqn:E4. cbn [fst snd] in *. subst rs.
  destruct (level_pin_assert io3 n r Hp4) as (io5 & E5 & _); [congruence|].
  exists io1, io2, io3. by rewrite E5.
Qed.

(** A table with pin 9 level-triggered on vector 0x40 to APIC 1. *)
Definition acpi_ioapic : IoApic := guest_write_rte (IoApic_new 0) 9 0x8040 0x01000000.
Definition acpi_route : InterruptRoute := mk_InterruptRoute 0x40 Fixed false 1 true.

Lemma acpi_level_pin : level_pin acpi_ioapic 9 acpi_route.
Proof.
  split; [|lia|reflexivity..|].
  - unfold acpi_ioapic. rewrite guest_write_rte_eq by (lia || by apply IoApic_new_wf).
    apply set_entry_wf; [apply selected_wf; [by apply IoApic_new_wf|by split]|].
    apply set_high_wf, set_low_wf, entry_at_wf. by apply IoApic_new_wf.
  - intros j Hj Hne. enum_Z j 0 24; done.
Qed.

Lemma ioapic_level_redelivery_witness :
  exists io1 io2 io3, set_irq acpi_ioapic 9 = (io1, Some acpi_route) /\
    eois 3 io1 0x40 = (io2, [[acpi_route]; [acpi_route]; [acpi_route]]) /\
    eoi (ioapic_clear_irq io2 9) 0x40 = (io3, []) /\ (set_irq io3 9).2 = Some acpi_route.
Proof. exact (ioapic_level_redelivery acpi_ioapic 9 acpi_route 3 acpi_level_pin eq_refl). Defined.

(** Remote IRR does not gate assertions.  While an interrupt of a level pin
    is outstanding (Remote IRR set, no EOI yet), a deassertion followed by an
    assertion delivers the route a second time. *)
Theorem ioapic_remote_irr_ungated io n r :
  level_pin io n r -> remote_irr (entry_at io n) = true -> level_at io n = true ->
  remote_irr (entry_at (ioapic_clear_irq io n) n) = true /\ (set_irq (ioapic_clear_irq io n) n).2 = Some r.
Proof.
  intros Hp Hr Hl. destruct (level_pin_clear io n r Hp) as (Hp3 & Hl3 & Ee). split; [by rewrite Ee|].
  destruct (level_pin_assert _ n r Hp3 Hl3) as (io5 & -> & _). done.
Qed.

Lemma ioapic_remote_irr_ungated_witness :
  let io := (set_irq acpi_ioapic 9).1 in (set_irq (ioapic_clear_irq io 9) 9).2 = Some acpi_route.
Proof.
  destruct (level_pin_assert acpi_ioapic 9 acpi_route acpi_level_pin eq_refl) as (io1 & -> & Hp & Hr & Hl).
  apply (ioapic_remote_irr_ungated io1 9 acpi_route Hp Hr Hl).
Defined.

(** ** Lines asserted while masked *)

(** What can happen besides a line assertion. *)
Inductive quiet_op : Type :=
  | QWrite (offset value : Z)
  | QEoi (vector : Z)
  | QClear (irq : Z).

Definition quiet_exec (o : quiet_op) (io : IoApic) : IoApic * list InterruptRoute :=
  match o with
  | QWrite offset value => (mmio_write io offset value, [])
  | QEoi vector => eoi io vector
  | QClear irq => (ioapic_clear_irq io irq, [])
  end.

Fixpoint quiet_run (os : list quiet_op) (io : IoApic) : IoApic * list InterruptRoute :=
  match os with
  | [] => (io, [])
  | o :: os => let '(io, rs) := quiet_exec o io in let '(io, rs') := quiet_run os io in (io, rs ++ rs')
  end.

(** No line is recorded as asserted. *)
Definition lines_low (io : IoApic) : Prop := Forall (fun b => b = false) (irq_level io).

Lemma lines_low_at io k : ioapic_wf io -> lines_low io -> (k < 24)%nat -> irq_level io !!! k = false.
Proof.
  intros W H Hk. pose proof (iw_levels _ W). destruct (lookup_lt_is_Some_2 (irq_level io) k) as [b E]; [lia|].
  rewrite (list_lookup_total_correct _ _ _ E). exact (Forall_lookup_1 _ _ _ _ H E).
Qed.

Lemma ioapic_write_register_wf io reg v : ioapic_wf io -> ioapic_wf (ioapic_write_register io reg v).
Proof.
  intros H. unfold ioapic_write_register. destruct (_ =? _).
  { destruct H. split; cbn; try done. eauto with word. }
  destruct (_ <=? _); [|done]. cbv zeta. destruct (_ <=? _); [done|].
  destruct (_ =? _); (apply set_entry_wf; [done|]); [apply set_low_wf|apply set_high_wf]; by apply entry_at_wf.
Qed.

Lemma mmio_write_wf io offset v : ioapic_wf io -> ioapic_wf (mmio_write io offset v).
Proof.
  intros H. unfold mmio_write. destruct (_ =? _).
  { apply (selected_wf io); [done|]. eauto with word. }
  destruct (_ =? _); [|done]. by apply ioapic_write_register_wf.
Qed.

Lemma quiet_exec_low o io :
  ioapic_wf io /\ lines_low io ->
  (ioapic_wf (quiet_exec o io).1 /\ lines_low (quiet_exec o io).1) /\ (quiet_exec o io).2 = [].
Proof.
  intros [W H]. destruct o as [offset value|v|irq]; cbn [quiet_exec fst snd].
  - split; [|done]. split; [by apply mmio_write_wf|].
    unfold lines_low, mmio_write, ioapic_write_register. by repeat case_match.
  - split; [split; [by apply eoi_wf|unfold lines_low; by destruct (eoi_frame io v) as (_ & _ & ->)]|].
    rewrite eoi_routes. apply omap_id_none. intros i x. rewrite list_lookup_imap. intros (e & He & ->)%fmap_Some.
    destruct (iw_entries _ W) as [Hl _]. apply lookup_lt_Some in He. rewrite lines_low_at by (done || lia).
    unfold eoi_entry. by case_match.
  - split; [|done]. unfold ioapic_clear_irq, lines_low. case_match; [|done].
    split; [by apply set_level_wf|]. cbn. by apply Forall_insert.
Qed.

(** A level line asserted while its pin is masked is lost.  The assertion
    returns nothing and records nothing, so whatever the guest then does --
    unmasking the pin included -- no interrupt is ever delivered for the line
    the device still holds high. *)
Theorem ioapic_masked_assertion_lost io n os :
  ioapic_wf io -> lines_low io -> re_masked (entry_at io n) = true ->
  let '(io1, r) := set_irq io n in
  r = None /\ (quiet_run os io1).2 = [].
Proof.
  intros W Hl Hm. unfold set_irq.
  assert (Hq : forall io, ioapic_wf io /\ lines_low io -> (quiet_run os io).2 = []).
  { induction os as [|o os IH]; intros io0 H0; [done|]. cbn. destruct (quiet_exec_low o io0 H0) as [H1 E].
    destruct (quiet_exec o io0) as [io1 rs]. cbn [fst snd] in *. subst rs. specialize (IH io1 H1).
    by destruct (quiet_run os io1). }
  rewrite Hm. destruct (_ <=? n); split; auto.
Qed.

Lemma ioapic_masked_assertion_lost_witness :
  let io := guest_write_rte (IoApic_new 0) 9 0x18040 0x01000000 in
  let '(io1, r) := set_irq io 9 in
  r = None /\ (quiet_run [QWrite IOREGSEL 34; QWrite IOWIN 0x8040; QEoi 0x40] io1).2 = [].
Proof.
  cbv zeta. apply ioapic_masked_assertion_lost; [|repeat constructor|reflexivity].
  by repeat apply mmio_write_wf; apply IoApic_new_wf.
Defined.
