(* ===== verification/Controller.v ===== *)
(** * The interrupt controller (enlil-devices/src/interrupt/controller.rs)

    The component that owns one local APIC per vCPU and the I/O APIC: delivery
    of device lines, MSI messages and inter-processor interrupts to the
    addressed LAPICs, guest LAPIC writes with their side effects, and the EOI
    path with the re-delivery of level lines. *)

From Stdlib Require Import ZArith Lia Bool Sorted.
From stdpp Require Import base decidable list numbers.
From S2P Require Import Prelude Rust Irq Lapic IoApic.

Record InterruptController : Type := mk_InterruptController {
  lapics : list LocalApic;
  ioapic : IoApic;
  active_lapic : Z
}.

Definition with_lapics (c : InterruptController) (ls : list LocalApic) : InterruptController :=
  mk_InterruptController ls (ioapic c) (active_lapic c).
Definition with_ioapic (c : InterruptController) (io : IoApic) : InterruptController :=
  mk_InterruptController (lapics c) io (active_lapic c).

Definition InterruptController_new (num_vcpus : Z) : InterruptController :=
  mk_InterruptController (LocalApic_new <$> seqZ 0 num_vcpus) (IoApic_new 0) 0.

Definition set_active_lapic (c : InterruptController) (vcpu_id : Z) : InterruptController :=
  mk_InterruptController (lapics c) (ioapic c) vcpu_id.
Abbreviation active_lapic_id := active_lapic (only parsing).

(** ** The iterator combinators the code uses *)

(** [iter_mut().find(p)] followed by an update of the element found. *)
Fixpoint update_first {A} (p : A -> bool) (f : A -> A) (l : list A) : list A :=
  match l with
  | [] => []
  | x :: l => if p x then f x :: l else x :: update_first p f l
  end.

(** [iter().find(p)] *)
Fixpoint find_first {A} (p : A -> bool) (l : list A) : option A :=
  match l with
  | [] => None
  | x :: l => if p x then Some x else find_first p l
  end.

(** [min_by_key]: the first of the elements with the least key. *)
Definition min_by_key {A} (key : A -> Z) (l : list A) : option A :=
  match l with
  | [] => None
  | x :: l => Some (fold_left (fun best y => if key y <? key best then y else best) l x)
  end.

(** [enumerate().filter(p).min_by_key(tpr)], then [accept_interrupt] on the
    LAPIC at the index found, if any. *)
Definition accept_lowest (p : LocalApic -> bool) (entry : InterruptEntry) (ls : list LocalApic) : list LocalApic :=
  match min_by_key (fun il => get_tpr il.2) (filter (fun il => p il.2) (imap pair ls)) with
  | Some (idx, _) => alter (fun l => (accept_interrupt l entry).1) idx ls
  | None => ls
  end.

(** [for lapic in &mut self.lapics { if p(lapic) { accept } }] *)
Definition accept_each (p : LocalApic -> bool) (entry : InterruptEntry) (ls : list LocalApic) : list LocalApic :=
  (fun l => if p l then (accept_interrupt l entry).1 else l) <$> ls.

(** ** Delivery *)

Definition lapic (c : InterruptController) (vcpu_id : Z) : option LocalApic :=
  find_first (fun l => la_id l =? vcpu_id) (lapics c).

(** [lapic_mut(vcpu_id)] with an update through the reference. *)
Definition lapic_mut (c : InterruptController) (vcpu_id : Z) (f : LocalApic -> LocalApic) : InterruptController :=
  with_lapics c (update_first (fun l => la_id l =? vcpu_id) f (lapics c)).

Definition deliver_physical (c : InterruptController) (dest : Z) (entry : InterruptEntry) : InterruptController :=
  let broadcast := dest =? 0xFF in
  match ie_delivery_mode entry with
  | LowestPriority =>
      with_lapics c (accept_lowest (fun l => (broadcast || (la_id l =? dest)) && la_enabled l) entry (lapics c))
  | _ => with_lapics c (accept_each (fun l => broadcast || (la_id l =? dest)) entry (lapics c))
  end.

Definition deliver_logical (c : InterruptController) (dest : Z) (entry : InterruptEntry) : InterruptController :=
  match ie_delivery_mode entry with
  | LowestPriority =>
      with_lapics c (accept_lowest (fun l => la_enabled l && matches_logical l dest) entry (lapics c))
  | _ => with_lapics c (accept_each (fun l => la_enabled l && matches_logical l dest) entry (lapics c))
  end.

Definition route_entry (route : InterruptRoute) : InterruptEntry :=
  mk_InterruptEntry (ir_vector route) (ir_delivery_mode route)
    (if ir_level_triggered route then Level else Edge) true.

Definition deliver_route (c : InterruptController) (route : InterruptRoute) : InterruptController :=
  let entry := route_entry route in
  if ir_dest_logical route then deliver_logical c (ir_destination route) entry
  else deliver_physical c (ir_destination route) entry.

Definition deliver_irq (c : InterruptController) (irq : Z) : InterruptController :=
  let '(io, r) := set_irq (ioapic c) irq in
  let c := with_ioapic c io in
  match r with Some route => deliver_route c route | None => c end.

Definition controller_clear_irq (c : InterruptController) (irq : Z) : InterruptController :=
  with_ioapic c (ioapic_clear_irq (ioapic c) irq).

Definition deliver_msi (c : InterruptController) (msg : MsiMessage) : InterruptController :=
  let entry := mk_InterruptEntry (msi_vector msg) (msi_delivery_mode msg) Edge true in
  if msi_destination_mode_logical msg then deliver_logical c (msi_destination_id msg) entry
  else deliver_physical c (msi_destination_id msg) entry.

Definition send_ipi (c : InterruptController) (source_id icr : Z) : InterruptController :=
  let delivery_mode := from_bits ((icr .>> 8) .& 0x7) in
  if negb (bool_decide (delivery_mode = Fixed) || bool_decide (delivery_mode = LowestPriority)) then c
  else
    let entry := mk_InterruptEntry (icr .& 0xFF) delivery_mode Edge true in
    let dest_logical := bit_at icr 11 in
    let shorthand := (icr .>> 18) .& 0x3 in
    let dest := (icr .>> 56) .& 0xFF in
    if shorthand =? 1 then lapic_mut c source_id (fun l => (accept_interrupt l entry).1)
    else if shorthand =? 2 then deliver_physical c 0xFF entry
    else if shorthand =? 3 then
      if bool_decide (delivery_mode = LowestPriority) then
        with_lapics c (accept_lowest (fun l => negb (la_id l =? source_id) && la_enabled l) entry (lapics c))
      else with_lapics c (accept_each (fun l => negb (la_id l =? source_id)) entry (lapics c))
    else if dest_logical then deliver_logical c dest entry
    else deliver_physical c dest entry.

(** ** EOI and guest writes *)

Definition controller_eoi (c : InterruptController) (vcpu_id vector : Z) : InterruptController :=
  let c := lapic_mut c vcpu_id signal_eoi in
  let '(io, routes) := eoi_broadcast (ioapic c) vector in
  fold_left deliver_route routes (with_ioapic c io).

Definition write_lapic (c : InterruptController) (vcpu_id offset value : Z) : InterruptController :=
  if offset =? LAPIC_EOI then
    match lapic c vcpu_id ≫= in_service_vector with
    | Some vector => controller_eoi c vcpu_id vector
    | None => c
    end
  else
    match lapic c vcpu_id with
    | None => c
    | Some l =>
        let l := write_register l offset value in
        let c := lapic_mut c vcpu_id (fun _ => l) in
        if offset =? LAPIC_ICR_LOW then send_ipi c (la_id l) (la_icr l) else c
    end.

Definition has_pending (c : InterruptController) (vcpu_id : Z) : bool :=
  match lapic c vcpu_id with Some l => has_pending_interrupt l | None => false end.

Definition pending_vector (c : InterruptController) (vcpu_id : Z) : option Z :=
  lapic c vcpu_id ≫= lapic_pending_vector.

(** ** Arbitration *)

(** Positions of an enumerated list increase. *)
Definition before {A} (x y : nat * A) : Prop := (x.1 < y.1)%nat.

Lemma enumerate_from {A} (ls : list A) n x :
  x ∈ imap (fun k a => ((n + k)%nat, a)) ls <-> (n <= x.1)%nat /\ ls !! (x.1 - n)%nat = Some x.2.
Proof.
  rewrite list_elem_of_lookup. setoid_rewrite list_lookup_imap. destruct x as [i a]. cbn. split.
  - intros (k & (b & Hb & [= -> ->])%fmap_Some). split; [lia|]. by replace (n + k - n)%nat with k by lia.
  - intros [Hi Ha]. exists (i - n)%nat. rewrite Ha. cbn. do 2 f_equal. lia.
Qed.

Lemma enumerate_sorted {A} (P : nat * A -> Prop) `{!forall x, Decision (P x)} (ls : list A) : forall n,
  StronglySorted before (filter P (imap (fun k a => ((n + k)%nat, a)) ls)).
Proof.
  induction ls as [|a ls IH]; intros n; [constructor|]. cbn [imap]. rewrite Nat.add_0_r.
  assert (E : imap ((fun k a => ((n + k)%nat, a)) ∘ S) ls = imap (fun k a => ((S n + k)%nat, a)) ls).
  { apply imap_ext. intros i x _. cbn. by rewrite Nat.add_succ_r. }
  rewrite E, filter_cons. case_decide; [|apply IH]. constructor; [apply IH|]. apply Forall_forall.
  intros y Hy%list_elem_of_In.
  apply list_elem_of_filter in Hy as [_ [Hy _]%enumerate_from]. unfold before. cbn. lia.
Qed.

(** The fold of [min_by_key] keeps the first of the least elements. *)
Lemma fold_min_spec {A} (key : nat * A -> Z) (L : list (nat * A)) : forall b,
  StronglySorted before (b :: L) ->
  let r := fold_left (fun best y => if key y <? key best then y else best) L b in
  r ∈ b :: L /\ forall y, y ∈ b :: L -> key r <= key y /\ (before y r -> key r < key y).
Proof.
  induction L as [|x L IH]; intros b Hs; cbn.
  { split; [by left|]. intros y ->%list_elem_of_singleton. unfold before. lia. }
  inversion_clear Hs as [|? ? Hs1 Hb]. inversion_clear Hs1 as [|? ? Hs2 Hx].
  inversion_clear Hb as [|? ? Hbx HbL]. destruct (Z.ltb_spec (key x) (key b)).
  - destruct (IH x) as [Hr Hmin]; [by constructor|]. set (r := fold_left _ L x) in *.
    split; [by right|]. intros y [->|Hy]%elem_of_cons; [|by apply Hmin].
    destruct (Hmin x) as [? _]; [by left|]. lia.
  - destruct (IH b) as [Hr Hmin]; [by constructor|]. set (r := fold_left _ L b) in *.
    split; [apply elem_of_cons in Hr as [E|Hr]; [rewrite E; by left|by do 2 right]|]. intros y [->|[->|Hy]%elem_of_cons]%elem_of_cons.
    + apply Hmin. by left.
    + destruct (Hmin b) as [? Hlt]; [by left|]. split; [lia|]. intros Hxr.
      assert (before b r) by (unfold before in *; lia). specialize (Hlt H1). lia.
    + apply Hmin. by right.
Qed.

(** [i] is the first of the LAPICs satisfying [p] with the lowest task priority. *)
Definition first_lowest (p : LocalApic -> bool) (ls : list LocalApic) (i : nat) (l : LocalApic) : Prop :=
  ls !! i = Some l /\ p l = true /\
  forall j l', ls !! j = Some l' -> p l' = true ->
    get_tpr l <= get_tpr l' /\ ((j < i)%nat -> get_tpr l < get_tpr l').

Lemma accept_lowest_spec p entry ls :
  (exists i l, first_lowest p ls i l /\ accept_lowest p entry ls = <[i := (accept_interrupt l entry).1]> ls) \/
  (Forall (fun l => p l = false) ls /\ accept_lowest p entry ls = ls).
Proof.
  unfold accept_lowest.
  pose proof (enumerate_sorted (fun il : nat * LocalApic => p il.2) ls 0) as Hs.
  assert (E : imap (fun k a => ((0 + k)%nat, a)) ls = imap pair ls) by done. rewrite E in Hs.
  assert (Hin : forall i l, (i, l) ∈ filter (fun il : nat * LocalApic => p il.2) (imap pair ls) <->
    ls !! i = Some l /\ p l = true).
  { intros i l. rewrite list_elem_of_filter, <- E, enumerate_from. cbn. rewrite Nat.sub_0_r, Is_true_true.
    split; [intros (? & _ & ?); done|intros [? ?]; split_and!; (done || lia)]. }
  destruct (filter _ _) as [|x L] eqn:EL; cbn [min_by_key].
  - right. split; [|done]. apply Forall_lookup_2. intros i l Hl. apply not_true_is_false. intros Hp.
    assert (Hf : (i, l) ∈ @nil (nat * LocalApic)) by (by apply Hin). by apply elem_of_nil in Hf.
  - left. destruct (fold_min_spec (fun il => get_tpr il.2) L x Hs) as [Hr Hmin].
    destruct (fold_left _ L x) as [i l]. destruct (proj1 (Hin i l) Hr) as [Hl Hp]. exists i, l. split.
    + split; [done|]. split; [done|]. intros j l' Hj Hp'. apply (Hmin (j, l')). by apply Hin.
    + rewrite list_insert_alter. apply list_alter_ext; [|done]. intros y. rewrite Hl. by intros [= <-].
Qed.

(** ** Targets *)

(** The LAPICs a destination addresses: enabled, and matched by APIC ID (or the
    broadcast ID) in physical mode, by [LDR]/[DFR] in logical mode. *)
Definition addressed (logical : bool) (dest : Z) (l : LocalApic) : bool :=
  la_enabled l && (if logical then matches_logical l dest else (dest =? 0xFF) || (la_id l =? dest)).

(** What delivering [entry] to the LAPICs in [p] must do to the LAPICs: every
    one of them accepts, or, for lowest priority, exactly the first of least
    task priority. *)
Definition delivered (p : LocalApic -> bool) (entry : InterruptEntry) (ls ls' : list LocalApic) : Prop :=
  if bool_decide (ie_delivery_mode entry = LowestPriority) then
    (exists i l, first_lowest p ls i l /\ ls' = <[i := (accept_interrupt l entry).1]> ls) \/
    (Forall (fun l => p l = false) ls /\ ls' = ls)
  else ls' = (fun l => if p l then (accept_interrupt l entry).1 else l) <$> ls.

Lemma accept_disabled l e : la_enabled l = false -> accept_interrupt l e = (l, false).
Proof. intros E. unfold accept_interrupt. by rewrite E. Qed.

(** A disabled LAPIC accepts nothing, so the loops may skip it. *)
Lemma accept_each_enabled p q e ls :
  (forall l, q l = la_enabled l && p l) -> accept_each p e ls = (fun l => if q l then (accept_interrupt l e).1 else l) <$> ls.
Proof.
  intros Hq. apply list_fmap_ext. intros i l _. rewrite Hq. destruct (la_enabled l) eqn:E; [done|].
  rewrite accept_disabled by done. by destruct (p l).
Qed.

Lemma accept_lowest_ext p q e ls : (forall l, p l = q l) -> accept_lowest p e ls = accept_lowest q e ls.
Proof.
  intros Hpq. unfold accept_lowest.
  assert (E : filter (fun il : nat * LocalApic => p il.2) (imap pair ls) = filter (fun il : nat * LocalApic => q il.2) (imap pair ls)).
  { apply list_filter_iff. intros x. by rewrite Hpq. }
  by rewrite E.
Qed.

Lemma deliver_physical_spec c dest e :
  let c' := deliver_physical c dest e in
  ioapic c' = ioapic c /\ active_lapic c' = active_lapic c /\
  delivered (addressed false dest) e (lapics c) (lapics c').
Proof.
  assert (E : lapics (deliver_physical c dest e) =
    if bool_decide (ie_delivery_mode e = LowestPriority) then accept_lowest (addressed false dest) e (lapics c)
    else accept_each (fun l => (dest =? 0xFF) || (la_id l =? dest)) e (lapics c)).
  { unfold deliver_physical. destruct (ie_delivery_mode e); try done. cbn.
    apply accept_lowest_ext. intros l. apply andb_comm. }
  split; [unfold deliver_physical; by destruct (ie_delivery_mode e)|].
  split; [unfold deliver_physical; by destruct (ie_delivery_mode e)|].
  rewrite E. unfold delivered. case_bool_decide; [apply accept_lowest_spec|by apply accept_each_enabled].
Qed.

Lemma deliver_logical_spec c dest e :
  let c' := deliver_logical c dest e in
  ioapic c' = ioapic c /\ active_lapic c' = active_lapic c /\
  delivered (addressed true dest) e (lapics c) (lapics c').
Proof.
  assert (E : lapics (deliver_logical c dest e) =
    if bool_decide (ie_delivery_mode e = LowestPriority) then accept_lowest (addressed true dest) e (lapics c)
    else accept_each (addressed true dest) e (lapics c)).
  { unfold deliver_logical. by destruct (ie_delivery_mode e). }
  split; [unfold deliver_logical; by destruct (ie_delivery_mode e)|].
  split; [unfold deliver_logical; by destruct (ie_delivery_mode e)|].
  rewrite E. unfold delivered. case_bool_decide; [apply accept_lowest_spec|done].
Qed.

(** interrupts reach exactly the LAPICs they address.  A device line's
    route and an MSI are delivered to the LAPICs selected by destination and
    destination mode: each of them accepts, or, with lowest-priority delivery,
    exactly the first one whose task priority is the least; no other LAPIC and
    nothing of the I/O APIC changes. *)
Theorem controller_delivery_targets c r m :
  (let c' := deliver_route c r in
   ioapic c' = ioapic c /\
   delivered (addressed (ir_dest_logical r) (ir_destination r)) (route_entry r) (lapics c) (lapics c')) /\
  (let c' := deliver_msi c m in
   ioapic c' = ioapic c /\
   delivered (addressed (msi_destination_mode_logical m) (msi_destination_id m))
     (mk_InterruptEntry (msi_vector m) (msi_delivery_mode m) Edge true) (lapics c) (lapics c')).
Proof.
  split; cbv zeta.
  - unfold deliver_route. destruct (ir_dest_logical r);
      [destruct (deliver_logical_spec c (ir_destination r) (route_entry r)) as (? & _ & ?)
      |destruct (deliver_physical_spec c (ir_destination r) (route_entry r)) as (? & _ & ?)]; done.
  - unfold deliver_msi. set (e := mk_InterruptEntry _ _ _ _).
    destruct (msi_destination_mode_logical m);
      [destruct (deliver_logical_spec c (msi_destination_id m) e) as (? & _ & ?)
      |destruct (deliver_physical_spec c (msi_destination_id m) e) as (? & _ & ?)]; done.
Qed.

(** ** Looking LAPICs up by APIC ID *)

Lemma fmap_same {A} (f : A -> A) (ls : list A) : (forall x, x ∈ ls -> f x = x) -> f <$> ls = ls.
Proof.
  induction ls as [|a ls IH]; intros H; [done|]. cbn. rewrite H by (by left). f_equal. apply IH. intros x Hx. apply H. by right.
Qed.

Section find.
Context {A : Type} (key : A -> Z).

Lemma find_first_lookup k ls x :
  find_first (fun a => key a =? k) ls = Some x -> key x = k /\ exists i, ls !! i = Some x.
Proof.
  induction ls as [|a ls IH]; [done|]. cbn. destruct (Z.eqb_spec (key a) k).
  - intros [= <-]. split; [done|]. by exists 0%nat.
  - intros [? [i Hi]]%IH. split; [done|]. by exists (S i).
Qed.

Lemma find_first_none k ls : find_first (fun a => key a =? k) ls = None <-> k ∉ key <$> ls.
Proof.
  induction ls as [|a ls IH]; cbn; [split; [intros _ H; by apply elem_of_nil in H|done]|].
  rewrite not_elem_of_cons. destruct (Z.eqb_spec (key a) k) as [->|Hne]; [by split; [|intros []]|].
  rewrite IH. split; [by intros; split|by intros []].
Qed.

(** With distinct keys the first match is the only one. *)
Lemma update_first_nodup k f ls :
  NoDup (key <$> ls) -> update_first (fun a => key a =? k) f ls = (fun a => if key a =? k then f a else a) <$> ls.
Proof.
  induction ls as [|a ls IH]; intros Hn; [done|]. cbn in *. apply list.NoDup_cons in Hn as [Ha Hn].
  destruct (Z.eqb_spec (key a) k) as [<-|]; [|by rewrite IH]. f_equal. symmetry. apply fmap_same. intros x Hx.
  destruct (Z.eqb_spec (key x) (key a)) as [E|]; [|done]. exfalso. apply Ha. rewrite <- E. by apply list_elem_of_fmap_2.
Qed.

Lemma find_update k f ls x :
  find_first (fun a => key a =? k) ls = Some x -> key (f x) = k ->
  find_first (fun a => key a =? k) (update_first (fun a => key a =? k) f ls) = Some (f x).
Proof.
  induction ls as [|a ls IH]; [done|]. cbn. destruct (Z.eqb_spec (key a) k) as [<-|Hne]; cbn.
  - intros [= ->] ->. by rewrite Z.eqb_refl.
  - rewrite (proj2 (Z.eqb_neq _ _)) by done. done.
Qed.

Lemma update_first_keys k f ls :
  (forall a, key (f a) = key a) -> key <$> update_first (fun a => key a =? k) f ls = key <$> ls.
Proof. intros Hk. induction ls as [|a ls IH]; [done|]. cbn. case_match; cbn; [by rewrite Hk|by rewrite IH]. Qed.

(** An update that depends only on the element found. *)
Lemma update_first_const k f ls x :
  find_first (fun a => key a =? k) ls = Some x ->
  update_first (fun a => key a =? k) (fun _ => f x) ls = update_first (fun a => key a =? k) f ls.
Proof. induction ls as [|a ls IH]; [done|]. cbn. case_match; [by intros [= ->]|]. intros. by rewrite IH. Qed.

End find.

(** ** Inter-processor interrupts *)

Definition icr_mode (icr : Z) : DeliveryMode := from_bits ((icr .>> 8) .& 0x7).
Definition icr_entry (icr : Z) : InterruptEntry := mk_InterruptEntry (icr .& 0xFF) (icr_mode icr) Edge true.

(** The LAPICs an ICR value of the LAPIC [source] addresses. *)
Definition ipi_targets (source icr : Z) (l : LocalApic) : bool :=
  let shorthand := (icr .>> 18) .& 0x3 in
  if shorthand =? 1 then la_enabled l && (la_id l =? source)
  else if shorthand =? 2 then la_enabled l
  else if shorthand =? 3 then la_enabled l && negb (la_id l =? source)
  else addressed (bit_at icr 11) ((icr .>> 56) .& 0xFF) l.

Lemma delivered_ext p q e ls ls' : (forall l, p l = q l) -> delivered p e ls ls' -> delivered q e ls ls'.
Proof.
  intros Hpq. unfold delivered. case_bool_decide.
  - intros [(i & l & (Hl & Hp & Hm) & ->)|[Hf ->]]; [left|right].
    + exists i, l. split; [|done]. split; [done|]. rewrite <- Hpq. split; [done|].
      intros j l' Hj. rewrite <- Hpq. by apply Hm.
    + split; [|done]. eapply list.Forall_impl; [exact Hf|]. cbn. intros l. by rewrite Hpq.
  - intros ->. apply list_fmap_ext. intros i l _. by rewrite Hpq.
Qed.

(** A LAPIC addressed alone is the winner of any arbitration. *)
Lemma delivered_self source e ls :
  NoDup (la_id <$> ls) ->
  delivered (fun l => la_enabled l && (la_id l =? source)) e ls
    (update_first (fun l => la_id l =? source) (fun l => (accept_interrupt l e).1) ls).
Proof.
  intros Hn. rewrite update_first_nodup by done.
  assert (E : (fun l => if la_id l =? source then (accept_interrupt l e).1 else l) <$> ls =
              (fun l => if la_enabled l && (la_id l =? source) then (accept_interrupt l e).1 else l) <$> ls)
    by (by apply accept_each_enabled).
  unfold delivered. case_bool_decide; [|done].
  destruct (find_first (fun l => la_id l =? source) ls) as [l|] eqn:Ef.
  - destruct (find_first_lookup la_id source ls l Ef) as [Hid [i Hi]]. destruct (la_enabled l) eqn:Een.
    + assert (Huniq : forall j l', ls !! j = Some l' -> la_id l' = source -> j = i).
      { intros j l' Hj Hj'. eapply list.NoDup_lookup; [exact Hn|rewrite list_lookup_fmap, Hj; cbn; by rewrite Hj'|].
        rewrite list_lookup_fmap, Hi. cbn. by rewrite Hid. }
      left. exists i, l. split.
      * split; [done|]. rewrite Een, Hid, Z.eqb_refl. split; [done|]. intros j l' Hj [_ Hs%Z.eqb_eq]%andb_true_iff.
        pose proof (Huniq j l' Hj Hs) as ->. rewrite Hi in Hj. injection Hj as ->. lia.
      * apply list_eq. intros j. rewrite list_lookup_fmap. destruct (decide (j = i)) as [->|Hne].
        { rewrite Hi, list_lookup_insert_eq by (by eapply lookup_lt_Some). cbn. by rewrite Hid, Z.eqb_refl. }
        rewrite list_lookup_insert_ne by done. destruct (ls !! j) as [l'|] eqn:Hj; [|done]. cbn.
        destruct (Z.eqb_spec (la_id l') source) as [Es|]; [by destruct Hne; eapply Huniq|done].
    + right. rewrite E. assert (Hf : forall x, x ∈ ls -> la_enabled x && (la_id x =? source) = false).
      { intros x [j Hj]%list_elem_of_lookup. destruct (Z.eqb_spec (la_id x) source) as [Es|]; [|by rewrite andb_false_r].
        assert (j = i) as ->. { eapply list.NoDup_lookup; [exact Hn|rewrite list_lookup_fmap, Hj; cbn; by rewrite Es|].
          rewrite list_lookup_fmap, Hi. cbn. by rewrite Hid. }
        replace x with l by congruence. by rewrite Een. }
      split; [by apply list.Forall_forall|]. apply fmap_same. intros x Hx. by rewrite (Hf x Hx).
  - right. apply find_first_none in Ef.
    assert (Hf : forall x, x ∈ ls -> (la_id x =? source) = false).
    { intros x Hx. apply Z.eqb_neq. intros <-. by apply Ef, list_elem_of_fmap_2. }
    split; [apply list.Forall_forall; intros x Hx; by rewrite (Hf x Hx), andb_false_r|].
    apply fmap_same. intros x Hx. by rewrite (Hf x Hx).
Qed.

Lemma send_ipi_spec c source icr :
  NoDup (la_id <$> lapics c) ->
  let c' := send_ipi c source icr in
  ioapic c' = ioapic c /\ active_lapic c' = active_lapic c /\
  if bool_decide (icr_mode icr = Fixed) || bool_decide (icr_mode icr = LowestPriority)
  then delivered (ipi_targets source icr) (icr_entry icr) (lapics c) (lapics c') else c' = c.
Proof.
  intros Hn. cbv zeta. unfold send_ipi. fold (icr_mode icr). fold (icr_entry icr).
  destruct (_ || _) eqn:Em; cbn [negb]; [|done]. unfold ipi_targets.
  destruct ((icr .>> 18) .& 3 =? 1); [split; [done|split; [done|by apply delivered_self]]|].
  destruct ((icr .>> 18) .& 3 =? 2).
  { destruct (deliver_physical_spec c 0xFF (icr_entry icr)) as (-> & -> & D). split; [done|split; [done|]].
    eapply delivered_ext; [|exact D]. intros l. unfold addressed. by rewrite andb_true_r. }
  destruct ((icr .>> 18) .& 3 =? 3).
  { unfold delivered. cbn [icr_entry ie_delivery_mode].
    destruct (bool_decide (icr_mode icr = LowestPriority)); (split; [done|split; [done|]]); cbn [lapics with_lapics];
      [|by apply accept_each_enabled].
    rewrite (accept_lowest_ext _ (fun l => la_enabled l && negb (la_id l =? source))) by (intros; apply andb_comm).
    apply accept_lowest_spec. }
  destruct (bit_at icr 11); [apply deliver_logical_spec|apply deliver_physical_spec].
Qed.

(** Inter-processor interrupts reach exactly the LAPICs the ICR addresses.
    A guest write of [ICR_LOW] stores the command and sends it: the shorthands
    select the sender, everyone, or everyone else, and without a shorthand the
    destination field selects as for devices.  Each enabled target accepts, or
    only the first of least task priority for lowest-priority delivery; the
    modes that carry no vector change nothing but the stored command. *)
Theorem controller_ipi_targets c vcpu l value :
  NoDup (la_id <$> lapics c) -> lapic c vcpu = Some l ->
  let l1 := write_register l LAPIC_ICR_LOW value in
  let ls := (fun x => if la_id x =? vcpu then l1 else x) <$> lapics c in
  let icr := la_icr l1 in
  let c' := write_lapic c vcpu LAPIC_ICR_LOW value in
  ioapic c' = ioapic c /\
  if bool_decide (icr_mode icr = Fixed) || bool_decide (icr_mode icr = LowestPriority)
  then delivered (ipi_targets vcpu icr) (icr_entry icr) ls (lapics c') else lapics c' = ls.
Proof.
  intros Hn Hl l1 ls icr. pose proof (find_first_lookup la_id vcpu _ l Hl) as [Hid _].
  unfold write_lapic. cbn [Z.eqb Pos.eqb]. rewrite Hl. fold l1. fold icr.
  change (la_id l1) with (la_id l). rewrite Hid.
  set (c1 := lapic_mut c vcpu (fun _ => l1)).
  assert (Els : lapics c1 = ls) by (by apply update_first_nodup).
  assert (Hn1 : NoDup (la_id <$> lapics c1)).
  { rewrite Els. unfold ls. rewrite <- list_fmap_compose. rewrite (list_fmap_ext _ la_id (lapics c)); [done|].
    intros i x _. cbn. destruct (Z.eqb_spec (la_id x) vcpu); [|done]. transitivity (la_id l); [done|congruence]. }
  destruct (send_ipi_spec c1 vcpu icr Hn1) as (-> & _ & D). split; [done|]. rewrite <- Els.
  destruct (_ || _); [exact D|by rewrite D].
Qed.

(** Two CPUs, both software-enabled. *)
Definition two_cpus : InterruptController :=
  let c := InterruptController_new 2 in
  write_lapic (write_lapic c 0 LAPIC_SVR 0x1FF) 1 LAPIC_SVR 0x1FF.

Lemma two_cpus_ids : NoDup (la_id <$> lapics two_cpus).
Proof. vm_compute. repeat constructor; repeat (rewrite not_elem_of_cons; split; [done|]); by apply not_elem_of_nil. Qed.

Lemma controller_ipi_targets_witness :
  exists l, lapic two_cpus 0 = Some l /\
  let l1 := write_register l LAPIC_ICR_LOW 0xC0040 in
  let c' := write_lapic two_cpus 0 LAPIC_ICR_LOW 0xC0040 in
  ioapic c' = ioapic two_cpus /\
  delivered (ipi_targets 0 (la_icr l1)) (icr_entry (la_icr l1))
    ((fun x => if la_id x =? 0 then l1 else x) <$> lapics two_cpus) (lapics c').
Proof.
  destruct (lapic two_cpus 0) as [l|] eqn:E; [|by vm_compute in E]. exists l. split; [done|].
  assert (Em : icr_mode (la_icr (write_register l LAPIC_ICR_LOW 0xC0040)) = Fixed).
  { vm_compute in E. injection E as <-. reflexivity. }
  pose proof (controller_ipi_targets two_cpus 0 l 0xC0040 two_cpus_ids E) as T. cbv zeta in T.
  rewrite Em in T. exact T.
Defined.

(** ** The invariant *)

Record controller_wf (c : InterruptController) : Prop := mk_controller_wf {
  cw_lapics : Forall lapic_wf (lapics c);
  cw_ioapic : ioapic_wf (ioapic c)
}.

Lemma controller_new_wf n : 0 <= n < 256 -> controller_wf (InterruptController_new n).
Proof.
  intros Hn. split; [|by apply IoApic_new_wf]. apply Forall_fmap, list.Forall_forall. intros x Hx%elem_of_seqZ.
  apply LocalApic_new_wf. split; lia.
Qed.

Lemma update_first_forall {A} (P : A -> Prop) p f ls :
  Forall P ls -> (forall x, P x -> P (f x)) -> Forall P (update_first p f ls).
Proof. intros H Hf. induction H; [constructor|]. cbn. case_match; constructor; auto. Qed.

Lemma lapic_mut_wf c d f : controller_wf c -> (forall l, lapic_wf l -> lapic_wf (f l)) -> controller_wf (lapic_mut c d f).
Proof. intros [] Hf. split; [by apply update_first_forall|done]. Qed.

Lemma delivered_wf p e ls ls' :
  delivered p e ls ls' -> 0 <= ie_vector e < 256 -> Forall lapic_wf ls -> Forall lapic_wf ls'.
Proof.
  intros D He Hw. unfold delivered in D. case_bool_decide.
  - destruct D as [(i & l & (Hl & _) & ->)|[_ ->]]; [|done]. apply Forall_insert; [done|].
    apply accept_interrupt_wf; [|done]. by eapply Forall_lookup_1.
  - subst ls'. apply Forall_fmap. eapply list.Forall_impl; [exact Hw|]. intros l Hl. cbn.
    case_match; [by apply accept_interrupt_wf|done].
Qed.

Lemma deliver_route_wf c r : controller_wf c -> fits 8 (ir_vector r) -> controller_wf (deliver_route c r).
Proof.
  intros [] Hv. unfold deliver_route. destruct (ir_dest_logical r);
    [destruct (deliver_logical_spec c (ir_destination r) (route_entry r)) as (Ei & _ & D)
    |destruct (deliver_physical_spec c (ir_destination r) (route_entry r)) as (Ei & _ & D)];
    (split; [by eapply delivered_wf|by rewrite Ei]).
Qed.

Lemma set_irq_wf io n : ioapic_wf io -> ioapic_wf (set_irq io n).1 /\ forall r, (set_irq io n).2 = Some r -> fits 8 (ir_vector r).
Proof.
  intros H. pose proof (entry_at_wf io n H) as [He Hd]. unfold set_irq. destruct (_ <=? _); [done|]. destruct (re_masked _); [done|].
  destruct (level_triggered _); [destruct (level_at _ _); [done|]|]; cbn [fst snd]; (split; [|by intros r [= <-]]); [|done].
  apply set_entry_wf; [by apply set_level_wf|done].
Qed.

Lemma eoi_routes_fit io v : ioapic_wf io -> Forall (fun r => fits 8 (ir_vector r)) (eoi io v).2.
Proof.
  intros H. rewrite eoi_routes. apply list.Forall_forall. intros r Hr. apply list_elem_of_omap in Hr as (o & Ho & E). cbn in E. subst o.
  apply list_elem_of_lookup in Ho as [i Hi]. rewrite list_lookup_imap in Hi. apply fmap_Some in Hi as (e & He & E).
  destruct (iw_entries _ H) as [_ Hf]. pose proof (Forall_lookup_1 _ _ _ _ Hf He) as [Hv _].
  unfold eoi_entry in E. repeat case_match; try done. cbn in E. injection E as ->. done.
Qed.

Lemma controller_eoi_wf c d v : controller_wf c -> controller_wf (controller_eoi c d v).
Proof.
  intros H. unfold controller_eoi. pose proof (lapic_mut_wf c d signal_eoi H handle_eoi_wf) as H1.
  set (c1 := lapic_mut c d signal_eoi) in *. clearbody c1.
  pose proof (eoi_routes_fit (ioapic c1) v (cw_ioapic _ H1)) as Hr. pose proof (eoi_wf (ioapic c1) v (cw_ioapic _ H1)) as Hi.
  unfold eoi_broadcast. destruct (eoi (ioapic c1) v) as [io routes]. cbn [fst snd] in *.
  assert (H2 : controller_wf (with_ioapic c1 io)) by (split; [apply H1|done]).
  revert H2. generalize (with_ioapic c1 io). induction Hr as [|r rs Hr1 Hr IH]; intros c2 H2; [done|].
  cbn. apply IH. by apply deliver_route_wf.
Qed.

Lemma accept_each_wf p e ls : Forall lapic_wf ls -> 0 <= ie_vector e < 256 -> Forall lapic_wf (accept_each p e ls).
Proof.
  intros Hw He. apply Forall_fmap. eapply list.Forall_impl; [exact Hw|]. intros l Hl. cbn.
  case_match; [by apply accept_interrupt_wf|done].
Qed.

Lemma accept_lowest_wf p e ls : Forall lapic_wf ls -> 0 <= ie_vector e < 256 -> Forall lapic_wf (accept_lowest p e ls).
Proof.
  intros Hw He. destruct (accept_lowest_spec p e ls) as [(i & l & (Hl & _) & ->)|[_ ->]]; [|done].
  apply Forall_insert; [done|]. apply accept_interrupt_wf; [|done]. by eapply Forall_lookup_1.
Qed.

Lemma deliver_to_wf c dest e :
  controller_wf c -> 0 <= ie_vector e < 256 ->
  controller_wf (deliver_physical c dest e) /\ controller_wf (deliver_logical c dest e).
Proof.
  intros [] He. destruct (deliver_physical_spec c dest e) as (Ep & _ & Dp).
  destruct (deliver_logical_spec c dest e) as (El & _ & Dl).
  split; (split; [by eapply delivered_wf|]); [by rewrite Ep|by rewrite El].
Qed.

Lemma send_ipi_wf c source icr : controller_wf c -> controller_wf (send_ipi c source icr).
Proof.
  intros H. pose proof (land_255 icr) as Hv. unfold send_ipi. destruct (negb _); [done|].
  set (e := mk_InterruptEntry _ _ _ _). assert (He : 0 <= ie_vector e < 256) by done. clearbody e.
  destruct (deliver_to_wf c 0xFF e H He) as [Hb _]. destruct (deliver_to_wf c ((icr .>> 56) .& 0xFF) e H He) as [Hp Hl].
  destruct (_ =? 1); [apply lapic_mut_wf; [done|]; intros l Hl0; by apply accept_interrupt_wf|].
  destruct (_ =? 2); [done|]. destruct (_ =? 3); [|by destruct (bit_at icr 11)].
  destruct H. case_bool_decide; (split; [|done]); [by apply accept_lowest_wf|by apply accept_each_wf].
Qed.

Lemma write_lapic_wf c d o v : controller_wf c -> fits 32 v -> controller_wf (write_lapic c d o v).
Proof.
  intros H Hv. unfold write_lapic. destruct (o =? LAPIC_EOI).
  { destruct (_ ≫= _); [by apply controller_eoi_wf|done]. }
  destruct (lapic c d) as [l|] eqn:El; [|done].
  destruct (find_first_lookup la_id d _ l El) as [_ [i Hi]].
  assert (Hl : lapic_wf (write_register l o v)).
  { apply write_register_wf; [|done]. eapply Forall_lookup_1; [apply H|done]. }
  assert (Hm : controller_wf (lapic_mut c d (fun _ => write_register l o v))) by (apply lapic_mut_wf; [done|by intros]).
  destruct (_ =? _); [by apply send_ipi_wf|done].
Qed.

(** What the machine does to the controller. *)
Inductive controller_op : Type :=
  | CIrq (irq : Z)
  | CClear (irq : Z)
  | CMsi (address data : Z)
  | CWriteLapic (vcpu offset value : Z)
  | CWriteIoapic (offset value : Z)
  | CEoi (vcpu vector : Z)
  | CVcpu (vcpu : Z) (o : lapic_op)
  | CSetActive (vcpu : Z).

Definition controller_exec (c : InterruptController) (o : controller_op) : InterruptController :=
  match o with
  | CIrq irq => deliver_irq c irq
  | CClear irq => controller_clear_irq c irq
  | CMsi address data => deliver_msi c (msi_new address data)
  | CWriteLapic vcpu offset value => write_lapic c vcpu offset value
  | CWriteIoapic offset value => with_ioapic c (mmio_write (ioapic c) offset value)
  | CEoi vcpu vector => controller_eoi c vcpu vector
  | CVcpu vcpu o => lapic_mut c vcpu (lapic_exec o)
  | CSetActive vcpu => set_active_lapic c vcpu
  end.

Definition controller_op_typed (o : controller_op) : Prop :=
  match o with
  | CWriteLapic _ _ value => fits 32 value
  | CVcpu _ o => lapic_op_typed o
  | _ => True
  end.

Lemma controller_exec_wf c o : controller_wf c -> controller_op_typed o -> controller_wf (controller_exec c o).
Proof.
  intros H Ho. destruct o as [irq|irq|a d|vcpu off v|off v|vcpu v|vcpu o|vcpu]; cbn in *.
  - unfold deliver_irq. destruct (set_irq_wf (ioapic c) irq (cw_ioapic _ H)) as [Hi Hr].
    destruct (set_irq (ioapic c) irq) as [io r]. cbn [fst snd] in *.
    assert (H1 : controller_wf (with_ioapic c io)) by (split; [apply H|done]).
    destruct r; [apply deliver_route_wf; auto|done].
  - split; [apply H|]. unfold controller_clear_irq, ioapic_clear_irq. cbn. case_match; [apply set_level_wf|]; apply H.
  - unfold deliver_msi. set (e := mk_InterruptEntry _ _ _ _).
    destruct (deliver_to_wf c (msi_destination_id (msi_new a d)) e H) as [Hp Hl]; [apply land_255|]. by case_match.
  - by apply write_lapic_wf.
  - split; [apply H|]. apply mmio_write_wf, H.
  - by apply controller_eoi_wf.
  - apply lapic_mut_wf; [done|]. intros l Hl. by apply lapic_exec_wf.
  - by destruct H.
Qed.

(** the controller's invariant.  From reset, whatever device lines, MSIs,
    guest LAPIC and I/O APIC writes, EOIs and vCPU-side operations follow,
    every LAPIC satisfies the LAPIC invariant and the I/O APIC its own. *)
Theorem controller_reachable_wf n os :
  0 <= n < 256 -> Forall controller_op_typed os ->
  controller_wf (foldl controller_exec (InterruptController_new n) os).
Proof.
  intros Hn Hos. pose proof (controller_new_wf n Hn) as H. revert H. generalize (InterruptController_new n).
  induction Hos as [|o os Ho Hos IH]; intros c H; [done|]. cbn. apply IH. by apply controller_exec_wf.
Qed.

Lemma controller_reachable_wf_witness :
  controller_wf (foldl controller_exec (InterruptController_new 2)
    [CWriteLapic 1 LAPIC_SVR 0xFFFFFFFF; CWriteIoapic IOREGSEL 0x22; CWriteIoapic IOWIN 0x8040; CIrq 9;
     CVcpu 1 OpAcceptHighest; CWriteLapic 1 LAPIC_EOI 0]).
Proof. apply controller_reachable_wf; [lia|]. repeat constructor; by cbn. Defined.

(** A guest that writes its APIC ID register loses its LAPIC.  LAPICs are
    looked up by their current APIC ID, so once a vCPU writes a different ID
    its accesses find no LAPIC: interrupts are never pending for it again and
    its register writes, EOIs included, change nothing. *)
Theorem controller_id_write_detaches c vcpu l value :
  NoDup (la_id <$> lapics c) -> lapic c vcpu = Some l -> value .>> 24 <> vcpu ->
  let c' := write_lapic c vcpu LAPIC_ID value in
  lapic c' vcpu = None /\ pending_vector c' vcpu = None /\ forall o v, write_lapic c' vcpu o v = c'.
Proof.
  intros Hn Hl Hne c'.
  assert (E : lapic c' vcpu = None).
  { unfold c', write_lapic. cbn [Z.eqb Pos.eqb]. rewrite Hl.
    unfold lapic, lapic_mut. cbn [lapics with_lapics]. rewrite update_first_nodup by done. apply find_first_none.
    intros (x & Ex & (y & -> & Hy)%list_elem_of_fmap)%list_elem_of_fmap.
    destruct (Z.eqb_spec (la_id y) vcpu); [by cbn in Ex|congruence]. }
  split; [done|]. split; [unfold pending_vector; by rewrite E|]. intros o v. unfold write_lapic. rewrite E. by destruct (o =? _).
Qed.

Lemma controller_id_write_detaches_witness :
  lapic (write_lapic two_cpus 1 LAPIC_ID 0x05000000) 1 = None.
Proof.
  destruct (lapic two_cpus 1) as [l|] eqn:E; [|by vm_compute in E].
  apply (controller_id_write_detaches two_cpus 1 l 0x05000000 two_cpus_ids E). discriminate.
Defined.

(** ** A device line, end to end *)

(** Nothing requested or in service, and the task priority lets [v] through. *)
Record idle_for (l : LocalApic) (v : Z) : Prop := mk_idle_for {
  il_wf : lapic_wf l;
  il_enabled : la_enabled l = true;
  il_irr : forall w, 0 <= w < 256 -> vbit (la_irr l) w = false;
  il_isr : forall w, 0 <= w < 256 -> vbit (la_isr l) w = false;
  il_tpr : la_tpr l / 16 < v / 16
}.

(** An idle LAPIC that accepts [v]: [v] is pending, servicing it makes nothing
    pending, and the EOI leaves the LAPIC idle again. *)
Lemma idle_accept l v e :
  idle_for l v -> ie_vector e = v -> 16 <= v < 256 ->
  let l1 := (accept_interrupt l e).1 in
  let l2 := (accept_highest_interrupt l1).1 in
  lapic_wf l1 /\ la_id l1 = la_id l /\ pending_interrupt l1 = Some v /\
  lapic_wf l2 /\ la_id l2 = la_id l /\ pending_interrupt l2 = None /\ in_service_vector l2 = Some v /\
  idle_for (signal_eoi l2) v /\ la_id (signal_eoi l2) = la_id l.
Proof.
  intros [W En Hirr Hisr Ht] Hv Hr l1 l2.
  assert (W1 : lapic_wf l1) by (apply accept_interrupt_wf; [done|lia]).
  assert (E1 : la_irr l1 = set_vector_bit (la_irr l) v /\ la_isr l1 = la_isr l /\ la_tpr l1 = la_tpr l /\
    la_enabled l1 = true /\ la_id l1 = la_id l).
  { unfold l1, accept_interrupt. rewrite En, Hv. cbn [negb]. destruct (Z.ltb_spec v 16); [lia|]. by case_bool_decide. }
  destruct E1 as (Ei & Es & Et & Ee & Eid).
  assert (Hp : pending_interrupt l1 = Some v).
  { apply pending_spec; [done|]. rewrite Ee, Ei, Es, Et. split; [done|]. split; [|split; [done|]].
    - split; [lia|]. rewrite vbit_set_bit, Z.eqb_refl by (lia || apply W). split; [by rewrite orb_true_r|].
      intros w Hw. rewrite vbit_set_bit by (lia || apply W). rewrite Hirr by done. intros ->%Z.eqb_eq. lia.
    - intros w Hw. by rewrite Hisr. }
  destruct (service_spec l1 v W1 Hp) as (_ & Si & Sv & Sp & Se & Sr). fold l2 in Si, Sv, Sp, Se, Sr.
  pose proof (accept_highest_wf l1 W1) as W2. fold l2 in W2.
  assert (Hl2 : la_id l2 = la_id l /\ la_enabled l2 = true /\ la_tpr l2 = la_tpr l).
  { unfold l2, accept_highest_interrupt. rewrite Hp. cbn. by rewrite Eid, Ee, Et. }
  destruct Hl2 as (Hid2 & Hen2 & Htpr2).
  assert (Hirr2 : forall w, 0 <= w < 256 -> vbit (la_irr l2) w = false).
  { intros w Hw. rewrite Si, Ei, vbit_clear_bit, vbit_set_bit, Hirr by
      (lia || apply W || (apply wf256_set_bit; [apply W|lia])). by destruct (w =? v). }
  assert (Hn2 : pending_interrupt l2 = None).
  { destruct (pending_interrupt l2) as [u|] eqn:Eu; [|done]. apply pending_spec in Eu as (_ & (Hu & Hb & _) & _); [|done].
    by rewrite Hirr2 in Hb. }
  assert (Heoi : la_id (signal_eoi l2) = la_id l2 /\ la_enabled (signal_eoi l2) = la_enabled l2 /\
    la_tpr (signal_eoi l2) = la_tpr l2).
  { unfold handle_eoi. by case_match. }
  destruct Heoi as (H1 & H2 & H3). do 7 (split; [done|]). split; [|congruence].
  split; [by apply handle_eoi_wf|congruence| | |by rewrite H3, Htpr2].
  - by rewrite Sr.
  - by rewrite Se, Es.
Qed.

Lemma deliver_route_fixed c r :
  ir_delivery_mode r = Fixed -> ir_dest_logical r = false -> ir_destination r <> 0xFF -> NoDup (la_id <$> lapics c) ->
  deliver_route c r = lapic_mut c (ir_destination r) (fun l => (accept_interrupt l (route_entry r)).1).
Proof.
  intros Hm Hl Hd Hn. unfold deliver_route, deliver_physical, lapic_mut. rewrite Hl. cbn [route_entry ie_delivery_mode].
  rewrite Hm, (proj2 (Z.eqb_neq _ _)) by done. by rewrite update_first_nodup.
Qed.

Lemma accept_interrupt_id l e : la_id (accept_interrupt l e).1 = la_id l.
Proof. unfold accept_interrupt. destruct (negb _); [done|]. destruct (_ <? _); [done|]. by case_bool_decide. Qed.

Lemma accept_highest_id l : la_id (accept_highest_interrupt l).1 = la_id l.
Proof. unfold accept_highest_interrupt. by destruct (pending_interrupt l). Qed.

Lemma signal_eoi_id l : la_id (signal_eoi l) = la_id l.
Proof. unfold handle_eoi. by case_match. Qed.

(** Updating a vCPU's LAPIC without changing identifiers. *)
Lemma lapic_mut_spec c d f l :
  lapic c d = Some l -> (forall x, la_id (f x) = la_id x) ->
  lapic (lapic_mut c d f) d = Some (f l) /\ la_id <$> lapics (lapic_mut c d f) = la_id <$> lapics c /\
  ioapic (lapic_mut c d f) = ioapic c.
Proof.
  intros Hl Hf. destruct (find_first_lookup la_id d _ l Hl) as [Hid _]. split; [|split; [by apply update_first_keys|done]].
  apply (find_update la_id); [done|]. by rewrite Hf.
Qed.

(** A level line of a PCI or ACPI device routed to one CPU. *)
Record line_setup (c : InterruptController) (n : Z) (r : InterruptRoute) (l : LocalApic) : Prop := mk_line_setup {
  ls_pin : level_pin (ioapic c) n r;
  ls_low : level_at (ioapic c) n = false;
  ls_fixed : ir_delivery_mode r = Fixed /\ ir_dest_logical r = false /\ ir_destination r <> 0xFF;
  ls_vector : 16 <= ir_vector r < 256;
  ls_ids : NoDup (la_id <$> lapics c);
  ls_lapic : lapic c (ir_destination r) = Some l;
  ls_idle : idle_for l (ir_vector r)
}.

(** The EOI of the vCPU's LAPIC while the line has level [b]. *)
Lemma line_eoi c n r l :
  level_pin (ioapic c) n r -> remote_irr (entry_at (ioapic c) n) = true ->
  ir_delivery_mode r = Fixed -> ir_dest_logical r = false -> ir_destination r <> 0xFF -> NoDup (la_id <$> lapics c) ->
  lapic c (ir_destination r) = Some l -> in_service_vector l = Some (ir_vector r) ->
  lapic (write_lapic c (ir_destination r) LAPIC_EOI 0) (ir_destination r) =
    Some (if level_at (ioapic c) n then (accept_interrupt (signal_eoi l) (route_entry r)).1 else signal_eoi l).
Proof.
  intros Hp Hr Hm Hd Hf Hn Hl Hs. set (d := ir_destination r) in *.
  unfold write_lapic. rewrite Z.eqb_refl, Hl. cbn [mbind option_bind]. rewrite Hs. unfold controller_eoi.
  destruct (lapic_mut_spec c d signal_eoi l Hl signal_eoi_id) as (L1 & I1 & O1).
  set (c1 := lapic_mut c d signal_eoi) in *. rewrite O1. unfold eoi_broadcast.
  destruct (level_pin_routes (ioapic c) n r Hp Hr) as [Er _].
  destruct (eoi (ioapic c) (ir_vector r)) as [io rs]. cbn [fst snd] in Er. subst rs.
  destruct (level_at (ioapic c) n); [|exact L1]. cbn [fold_left].
  rewrite deliver_route_fixed by (try done; cbn [with_ioapic lapics]; by rewrite I1). fold d.
  apply (lapic_mut_spec (with_ioapic c1 io) d (fun l => (accept_interrupt l (route_entry r)).1) (signal_eoi l) L1).
  intros x. apply accept_interrupt_id.
Qed.

(** C37: a device line interrupts its CPU until it is deasserted.  Asserting a
    level line routed to an idle vCPU makes its vector pending there; after the
    vCPU takes the interrupt nothing is pending; its EOI makes the vector
    pending again if the device still holds the line, and leaves nothing
    pending if the device deasserted it first. *)
Theorem controller_level_line c n r l :
  line_setup c n r l ->
  let vcpu := ir_destination r in
  let c1 := deliver_irq c n in
  let c2 := lapic_mut c1 vcpu (fun l => (accept_highest_interrupt l).1) in
  pending_vector c1 vcpu = Some (ir_vector r) /\
  pending_vector c2 vcpu = None /\
  pending_vector (write_lapic c2 vcpu LAPIC_EOI 0) vcpu = Some (ir_vector r) /\
  pending_vector (write_lapic (controller_clear_irq c2 n) vcpu LAPIC_EOI 0) vcpu = None.
Proof.
  intros [Hp Hl (Hm & Hd & Hf) Hv Hn Hlap Hidle] vcpu c1 c2.
  destruct (level_pin_assert (ioapic c) n r Hp Hl) as (io1 & Eset & Hp1 & Hr1 & Hl1).
  destruct (idle_accept l (ir_vector r) (route_entry r) Hidle eq_refl Hv) as (_ & _ & P1 & _ & _ & P2 & S2 & I3 & _).
  assert (E1 : c1 = lapic_mut (with_ioapic c io1) vcpu (fun l => (accept_interrupt l (route_entry r)).1)).
  { unfold c1, deliver_irq. rewrite Eset. by apply deliver_route_fixed. }
  destruct (lapic_mut_spec (with_ioapic c io1) vcpu (fun l => (accept_interrupt l (route_entry r)).1) l) as (L1 & N1 & O1);
    [done|intros; apply accept_interrupt_id|]. rewrite <- E1 in L1, N1, O1.
  destruct (lapic_mut_spec c1 vcpu (fun l => (accept_highest_interrupt l).1) _ L1) as (L2 & N2 & O2);
    [intros; apply accept_highest_id|]. fold c2 in L2, N2, O2. cbn [ioapic with_ioapic] in O1. rewrite O1 in O2.
  assert (Hn2 : NoDup (la_id <$> lapics c2)) by (rewrite N2, N1; exact Hn).
  destruct (level_pin_clear io1 n r Hp1) as (Hp3 & Hl3 & He3).
  split; [unfold pending_vector; by rewrite L1|]. split; [unfold pending_vector; by rewrite L2|]. split; unfold pending_vector.
  - unfold vcpu in *. rewrite (line_eoi c2 n r _) by (rewrite ?O2; done). rewrite O2, Hl1. cbn [mbind option_bind].
    by apply (idle_accept _ _ (route_entry r) I3 eq_refl Hv).
  - unfold vcpu in *. rewrite (line_eoi (controller_clear_irq c2 n) n r _ ) by (cbn [controller_clear_irq with_ioapic ioapic lapics]; rewrite ?O2, ?He3; done).
    cbn [controller_clear_irq with_ioapic ioapic]. rewrite O2, Hl3. cbn [mbind option_bind].
    destruct (pending_interrupt (signal_eoi _)) as [u|] eqn:Eu; [|done]. exfalso. destruct I3.
    apply pending_spec in Eu as (_ & (Hu & Hb & _) & _); [|done]. by rewrite il_irr0 in Hb.
Qed.

Definition acpi_machine : InterruptController := with_ioapic two_cpus acpi_ioapic.

Lemma controller_level_line_witness :
  let c1 := deliver_irq acpi_machine 9 in
  let c2 := lapic_mut c1 1 (fun l => (accept_highest_interrupt l).1) in
  pending_vector c1 1 = Some 0x40 /\ pending_vector (write_lapic c2 1 LAPIC_EOI 0) 1 = Some 0x40 /\
  pending_vector (write_lapic (controller_clear_irq c2 9) 1 LAPIC_EOI 0) 1 = None.
Proof.
  destruct (lapic acpi_machine 1) as [l|] eqn:E; [|by vm_compute in E].
  assert (S : line_setup acpi_machine 9 acpi_route l).
  { assert (W : lapic_wf l).
    { destruct (find_first_lookup la_id 1 _ l E) as [_ [i Hi]]. eapply Forall_lookup_1; [|exact Hi].
      apply (cw_lapics two_cpus). repeat (apply write_lapic_wf; [|by split]). by apply controller_new_wf. }
    vm_compute in E. injection E as <-.
    split; [exact acpi_level_pin|reflexivity|by split_and!|by cbn|exact two_cpus_ids|reflexivity|].
    split; [exact W|reflexivity| | |reflexivity]; intros w Hw; cbn [la_irr la_isr]; by apply (vbit_zero w). }
  destruct (controller_level_line acpi_machine 9 acpi_route l S) as (A & _ & B & C).
  change (ir_destination acpi_route) with 1 in A, B, C. change (ir_vector acpi_route) with 0x40 in A, B.
  exact (conj A (conj B C)).
Defined.
