(* ===== verification/Pirq.v ===== *)
(** * The PCI interrupt router (enlil-devices/src/interrupt/pirq.rs)

    The four [PIRQ] routing registers of the LPC bridge, the slot/pin swizzle,
    and the resolution of a device pin to an ISA IRQ (PIC mode) or to an I/O
    APIC input (APIC mode), with the theorem that ties the router to the
    edge/level control of the 8259 pair. *)

From Stdlib Require Import ZArith Lia Bool.
From stdpp Require Import base decidable list numbers.
From S2P Require Import Prelude Rust Pic.

Abbreviation PIRQ_LINES := (4) (only parsing).
Abbreviation PIRQ_ROUTE_BASE := (0x60) (only parsing).
Abbreviation PIRQ_GSI_BASE := (16) (only parsing).
Abbreviation PIRQ_DEFAULT_IRQS := ([11; 10; 5; 6]) (only parsing).
Abbreviation ROUTE_DISABLED := (0x80) (only parsing).
Abbreviation ROUTE_IRQ_MASK := (0x0F) (only parsing).

Record PirqRouter : Type := mk_PirqRouter { routes : list Z }.

Abbreviation PirqRouter_new := (mk_PirqRouter (replicate 4 ROUTE_DISABLED)) (only parsing).

Definition pirq_line (slot pin : Z) : option Z :=
  if (pin =? 0) || (4 <? pin) then None else Some ((slot + pin - 1) mod PIRQ_LINES).

(** [self.routes[pirq % PIRQ_LINES]] *)
Definition route_at (rt : PirqRouter) (pirq : Z) : Z := routes rt !!! Z.to_nat (pirq mod PIRQ_LINES).

Definition set_route (rt : PirqRouter) (pirq value : Z) : PirqRouter :=
  mk_PirqRouter (<[Z.to_nat (pirq mod PIRQ_LINES) := value]> (routes rt)).

Abbreviation route_register := route_at (only parsing).

Definition sync_from_config (rt : PirqRouter) (pirq_registers : list Z) : PirqRouter := mk_PirqRouter pirq_registers.

Definition is_pci_routable_irq (irq : Z) : bool :=
  ((3 <=? irq) && (irq <=? 7)) || ((9 <=? irq) && (irq <=? 12)) || (irq =? 14) || (irq =? 15).

Definition isa_irq (rt : PirqRouter) (pirq : Z) : option Z :=
  let reg := route_at rt pirq in
  if tst reg ROUTE_DISABLED then None
  else
    let irq := reg .& ROUTE_IRQ_MASK in
    if is_pci_routable_irq irq then Some irq else None.

Definition device_isa_irq (rt : PirqRouter) (slot pin : Z) : option Z :=
  match pirq_line slot pin with Some line => isa_irq rt line | None => None end.

Abbreviation firmware_default := (mk_PirqRouter PIRQ_DEFAULT_IRQS) (only parsing).

Definition default_device_isa_irq (slot pin : Z) : option Z :=
  match pirq_line slot pin with Some line => Some (PIRQ_DEFAULT_IRQS !!! Z.to_nat line) | None => None end.

Definition device_gsi (slot pin : Z) : option Z :=
  match pirq_line slot pin with
  | Some line =>
      if line =? 0 then Some PIRQ_GSI_BASE
      else if line =? 1 then Some (PIRQ_GSI_BASE + 1)
      else if line =? 2 then Some (PIRQ_GSI_BASE + 2)
      else Some (PIRQ_GSI_BASE + 3)
  | None => None
  end.

(** ** Routing *)

Lemma pirq_line_range slot pin l : pirq_line slot pin = Some l -> 0 <= l < 4 /\ 1 <= pin <= 4 \/ pin < 0.
Proof.
  unfold pirq_line. destruct (_ || _) eqn:E; [done|]. intros [= <-]. breflect.
  pose proof (Z.mod_pos_bound (slot + pin - 1) 4). lia.
Qed.

(** The ELCR port and bit of an ISA IRQ. *)
Definition elcr_port (irq : Z) : Z := if irq <? 8 then ELCR_MASTER else ELCR_SLAVE.

Lemma routable_range irq : is_pci_routable_irq irq = true -> 3 <= irq <= 15 /\ irq <> 8 /\ irq <> 13.
Proof.
  unfold is_pci_routable_irq. intros [[[H|H]%orb_true_iff|H]%orb_true_iff|H]%orb_true_iff; breflect; lia.
Qed.

Lemma routable_level_capable irq d :
  is_pci_routable_irq irq = true ->
  tst (read_elcr (write_elcr d (elcr_port irq) (bit (irq mod 8))) (elcr_port irq)) (bit (irq mod 8)) = true.
Proof.
  intros H. pose proof (routable_range irq H). enum_Z irq 3 16; try discriminate H; reflexivity.
Qed.

Lemma firmware_default_line line : 0 <= line < 4 -> isa_irq firmware_default line = Some (PIRQ_DEFAULT_IRQS !!! Z.to_nat line).
Proof. intros Hl. enum_Z line 0 4; reflexivity. Qed.

(** The PCI interrupt router is consistent with what surrounds it.  For
    every slot and pin, the routing the firmware programs resolves to the IRQ
    the static PIC-mode table advertises; the APIC-mode input is 16 plus the
    swizzled line; and an IRQ any programming of the registers routes a pin to
    is one whose ELCR bit is writable, so it can be made level-triggered. *)
Theorem pirq_routing_consistent rt slot pin :
  0 <= slot -> 0 <= pin ->
  device_isa_irq firmware_default slot pin = default_device_isa_irq slot pin /\
  device_gsi slot pin = (Z.add 16) <$> pirq_line slot pin /\
  (1 <= pin <= 4 <-> is_Some (pirq_line slot pin)) /\
  forall irq d, device_isa_irq rt slot pin = Some irq ->
    let port := elcr_port irq in
    tst (read_elcr (write_elcr d port (bit (irq mod 8))) port) (bit (irq mod 8)) = true.
Proof.
  intros Hs Hp. split; [|split; [|split]].
  - unfold device_isa_irq, default_device_isa_irq. destruct (pirq_line slot pin) as [l|] eqn:E; [|done].
    apply pirq_line_range in E. apply firmware_default_line. lia.
  - unfold device_gsi. destruct (pirq_line slot pin) as [l|] eqn:E; [|done]. apply pirq_line_range in E.
    assert (Hl : 0 <= l < 4) by lia. enum_Z l 0 4; reflexivity.
  - unfold pirq_line. destruct (_ || _) eqn:E.
    + split; [|intros [? ?]; done]. intros Hr. apply orb_true_iff in E as [E|E]; breflect; lia.
    + breflect. split; [by eexists|lia].
  - intros irq d. unfold device_isa_irq. destruct (pirq_line slot pin) as [l|]; [|done]. unfold isa_irq.
    destruct (tst _ _); [done|]. destruct (is_pci_routable_irq _) eqn:E; [|done]. intros [= <-]. by apply routable_level_capable.
Qed.

Lemma pirq_routing_consistent_witness :
  device_isa_irq firmware_default 3 2 = Some 11 /\ device_gsi 3 2 = Some 16.
Proof.
  destruct (pirq_routing_consistent PirqRouter_new 3 2) as (A & B & _); [lia..|]. by rewrite A, B.
Defined.
