(* ===== verification/Bus.v ===== *)
(** * The device buses (enlil-devices/src/bus.rs)

    Registration of devices over address ranges, address decode, and the
    byte-slice front door of the port and memory buses.  The device traits are
    classes over a device type [D] and a world [W], the state that devices
    share (the interrupt controller behind its mutex, for the APIC apertures).
    A [BTreeMap] is an association list in key order; [range(..=k).next_back()]
    is its last binding at or below [k], [range(k..).next()] its first at or
    above. *)

From Stdlib Require Import ZArith Lia Bool Sorted.
From stdpp Require Import base decidable numbers list.
From S2P Require Import Prelude Rust.

Inductive BusError : Type :=
  | EmptyRange
  | BusOverlap (base end_ : Z).

Class PioDevice (W D : Type) : Type := {
  pio_read : D -> Z -> Z -> W -> D * W * Z;
  pio_write : D -> Z -> Z -> Z -> W -> D * W;
  port_range : D -> Z * Z
}.

Class MmioDevice (W D : Type) : Type := {
  dev_mmio_read : D -> Z -> Z -> W -> D * W * Z;
  dev_mmio_write : D -> Z -> Z -> Z -> W -> D * W;
  mmio_range : D -> Z * Z
}.

(** ** Little-endian conversions *)

Abbreviation le_to_u32 data := (le_value (take 4 data)) (only parsing).
Abbreviation le_to_u64 data := (le_value (take 8 data)) (only parsing).

(** [fill_le]: overwrite a prefix of [data], as long as the shorter of the two. *)
Fixpoint fill_le (data bytes : list Z) : list Z :=
  match data, bytes with
  | _ :: data, src :: bytes => src :: fill_le data bytes
  | _, _ => data
  end.

(** ** Ordered maps of devices *)

(** [PioEntry] and [MmioEntry]: the exclusive end of the range, and the device. *)
Record BusEntry (D : Type) : Type := mk_BusEntry { be_end : Z; be_device : D }.
Arguments mk_BusEntry {D} be_end be_device.
Arguments be_end {D} b.
Arguments be_device {D} b.

Abbreviation bus_map D := (list (Z * BusEntry D)).

Section map.
Context {D : Type}.

Definition range_to_back (k : Z) (m : bus_map D) : option (Z * BusEntry D) :=
  last (filter (fun kv => kv.1 <= k) m).
Definition range_from_next (k : Z) (m : bus_map D) : option (Z * BusEntry D) :=
  head (filter (fun kv => k <= kv.1) m).

(** [BTreeMap::insert] *)
Fixpoint map_insert (k : Z) (e : BusEntry D) (m : bus_map D) : bus_map D :=
  match m with
  | [] => [(k, e)]
  | (k', e') :: m' =>
      if k <? k' then (k, e) :: m
      else if k =? k' then (k, e) :: m'
      else (k', e') :: map_insert k e m'
  end.

(** The device behind a [&mut] entry replaced by its new state. *)
Definition map_set_device (k : Z) (d : D) (m : bus_map D) : bus_map D :=
  (fun kv => if kv.1 =? k then (kv.1, mk_BusEntry (be_end kv.2) d) else kv) <$> m.

(** ** Registration and decode *)

Definition bus_register (range : D -> Z * Z) (m : bus_map D) (device : D) : bus_map D * res BusError unit :=
  let '(base, end_) := range device in
  if end_ <=? base then (m, Err EmptyRange)
  else
    match range_to_back base m with
    | Some (_, prev) =>
        if base <? be_end prev then (m, Err (BusOverlap base (be_end prev)))
        else
          match range_from_next base m with
          | Some (next_base, next) =>
              if next_base <? end_ then (m, Err (BusOverlap next_base (be_end next)))
              else (map_insert base (mk_BusEntry end_ device) m, Ok tt)
          | None => (map_insert base (mk_BusEntry end_ device) m, Ok tt)
          end
    | None =>
        match range_from_next base m with
        | Some (next_base, next) =>
            if next_base <? end_ then (m, Err (BusOverlap next_base (be_end next)))
            else (map_insert base (mk_BusEntry end_ device) m, Ok tt)
        | None => (map_insert base (mk_BusEntry end_ device) m, Ok tt)
        end
    end.

Definition bus_is_mapped (m : bus_map D) (addr : Z) : bool :=
  match range_to_back addr m with Some (_, e) => addr <? be_end e | None => false end.

Definition bus_lookup_mut (m : bus_map D) (addr : Z) : option (Z * BusEntry D) :=
  match range_to_back addr m with
  | Some (base, entry) => if addr <? be_end entry then Some (base, entry) else None
  | None => None
  end.

End map.

(** ** The port bus *)

Section pio.
Context {W D : Type} `{PioDevice W D}.

Definition PioBus : Type := bus_map D.
Definition PioBus_new : PioBus := [].
Definition pio_register (m : PioBus) (device : D) : PioBus * res BusError unit := bus_register port_range m device.
Definition pio_is_mapped (m : PioBus) (port : Z) : bool := bus_is_mapped m port.

Definition pio_bus_read (m : PioBus) (w : W) (port : Z) (data : list Z) : PioBus * W * list Z :=
  match bus_lookup_mut m port with
  | Some (base, entry) =>
      let '(d, w, value) := pio_read (be_device entry) port (wrap 8 (len data)) w in
      (map_set_device base d m, w, fill_le data (le_bytes 4 value))
  | None => (m, w, replicate (length data) 0xFF)
  end.

Definition pio_bus_write (m : PioBus) (w : W) (port : Z) (data : list Z) : PioBus * W :=
  match bus_lookup_mut m port with
  | Some (base, entry) =>
      let '(d, w) := pio_write (be_device entry) port (wrap 8 (len data)) (le_to_u32 data) w in
      (map_set_device base d m, w)
  | None => (m, w)
  end.

End pio.

(** ** The memory bus *)

Section mmio.
Context {W D : Type} `{MmioDevice W D}.

Definition MmioBus : Type := bus_map D.
Definition MmioBus_new : MmioBus := [].
Definition mmio_register (m : MmioBus) (device : D) : MmioBus * res BusError unit := bus_register mmio_range m device.
Definition mmio_is_mapped (m : MmioBus) (address : Z) : bool := bus_is_mapped m address.

Definition mmio_bus_read (m : MmioBus) (w : W) (address : Z) (data : list Z) : MmioBus * W * list Z :=
  match bus_lookup_mut m address with
  | Some (base, entry) =>
      let '(d, w, value) := dev_mmio_read (be_device entry) (address - base) (wrap 8 (len data)) w in
      (map_set_device base d m, w, fill_le data (le_bytes 8 value))
  | None => (m, w, replicate (length data) 0xFF)
  end.

Definition mmio_bus_write (m : MmioBus) (w : W) (address : Z) (data : list Z) : MmioBus * W :=
  match bus_lookup_mut m address with
  | Some (base, entry) =>
      let '(d, w) := dev_mmio_write (be_device entry) (address - base) (wrap 8 (len data)) (le_to_u64 data) w in
      (map_set_device base d m, w)
  | None => (m, w)
  end.

End mmio.

(** ** Maps of disjoint ranges *)

Section disjoint.
Context {D : Type}.
Implicit Types (m : bus_map D) (x y : Z * BusEntry D).

(** [x] lies below [y] without overlapping it. *)
Definition below x y : Prop := be_end x.2 <= y.1.

(** Ranges are non-empty, disjoint and in order. *)
Definition bus_ok m : Prop := StronglySorted below m /\ Forall (fun x => x.1 < be_end x.2) m.

Definition covers x (addr : Z) : Prop := x.1 <= addr < be_end x.2.
Definition overlaps (base end_ : Z) x : Prop := x.1 < end_ /\ base < be_end x.2.

Lemma bus_ok_nil : bus_ok [].
Proof. by repeat constructor. Qed.

Lemma bus_ok_cons x m : bus_ok (x :: m) <-> x.1 < be_end x.2 /\ (forall y, y ∈ m -> below x y) /\ bus_ok m.
Proof.
  unfold bus_ok. rewrite Forall_cons. split.
  - intros [Hs [Hx Hm]]. inversion_clear Hs. split_and!; try done. by apply Forall_forall.
  - intros (Hx & Hb & Hs & Hm). split; [|done]. constructor; [done|]. by apply Forall_forall.
Qed.

Lemma range_to_back_cons k x m :
  bus_ok (x :: m) ->
  range_to_back k (x :: m) =
    if x.1 <=? k then Some (default x (range_to_back k m)) else None.
Proof.
  intros (Hx & Hb & Hm)%bus_ok_cons. unfold range_to_back. rewrite filter_cons.
  destruct (Z.leb_spec x.1 k).
  - rewrite decide_True by done. rewrite last_cons. by destruct (last _).
  - rewrite decide_False by lia.
    assert (E : filter (fun kv : Z * BusEntry D => kv.1 <= k) m = []); [|by rewrite E].
    clear Hm. induction m as [|y m IH]; [done|]. rewrite filter_cons.
    assert (below x y) by (apply Hb; by left). unfold below in *.
    rewrite decide_False by lia. apply IH. intros z Hz. apply Hb. by right.
Qed.

(** The binding found at or below [k] is the greatest one. *)
Lemma range_to_back_spec k m :
  bus_ok m ->
  match range_to_back k m with
  | Some x => x ∈ m /\ x.1 <= k /\ forall y, y ∈ m -> y.1 <= k -> y = x \/ below y x
  | None => forall y, y ∈ m -> k < y.1
  end.
Proof.
  induction m as [|x m IH]; intros Hok; [intros y Hy; by apply elem_of_nil in Hy|].
  rewrite range_to_back_cons by done. apply bus_ok_cons in Hok as (Hx & Hb & Hm). specialize (IH Hm).
  destruct (Z.leb_spec x.1 k).
  - destruct (range_to_back k m) as [z|]; cbn [default from_option].
    + destruct IH as (Hz & Hk & Hmax). split; [by right|]. split; [done|].
      intros y [->|Hy]%elem_of_cons Hyk; [right; by apply Hb|by apply Hmax].
    + split; [by left|]. split; [done|]. intros y [->|Hy]%elem_of_cons Hyk; [by left|]. specialize (IH y Hy). lia.
  - intros y [->|Hy]%elem_of_cons; [done|]. specialize (Hb y Hy). unfold below in Hb. lia.
Qed.

(** The binding found at or above [k] is the least one. *)
Lemma range_from_next_spec k m :
  bus_ok m ->
  match range_from_next k m with
  | Some x => x ∈ m /\ k <= x.1 /\ forall y, y ∈ m -> k <= y.1 -> x.1 <= y.1
  | None => forall y, y ∈ m -> y.1 < k
  end.
Proof.
  unfold range_from_next. induction m as [|x m IH]; intros Hok; [intros y Hy; by apply elem_of_nil in Hy|].
  rewrite filter_cons. apply bus_ok_cons in Hok as (Hx & Hb & Hm). specialize (IH Hm). case_decide as Hk; cbn [head].
  - split; [by left|]. split; [done|]. intros y [->|Hy]%elem_of_cons _; [done|]. specialize (Hb y Hy). unfold below in Hb. lia.
  - destruct (head _) as [z|].
    + destruct IH as (Hz & Hkz & Hmin). split; [by right|]. split; [done|].
      intros y [->|Hy]%elem_of_cons Hy'; [done|]. by apply Hmin.
    + intros y [->|Hy]%elem_of_cons; [lia|]. by apply IH.
Qed.

(** Address decode finds exactly the device that covers the address. *)
Lemma bus_lookup_spec m addr :
  bus_ok m ->
  match bus_lookup_mut m addr with
  | Some x => x ∈ m /\ covers x addr
  | None => forall y, y ∈ m -> ~ covers y addr
  end.
Proof.
  intros Hok. pose proof (range_to_back_spec addr m Hok) as H. unfold bus_lookup_mut, covers.
  destruct (range_to_back addr m) as [[b e]|].
  - destruct H as (Hx & Hk & Hmax). cbn [fst snd] in *. destruct (Z.ltb_spec addr (be_end e)); [done|].
    intros y Hy Hc. destruct (Hmax y Hy) as [->|Hb]; [lia|cbn in *; lia|]. unfold below in Hb. cbn in *. lia.
  - intros y Hy Hc. specialize (H y Hy). lia.
Qed.

Lemma covers_unique m x y addr : bus_ok m -> x ∈ m -> y ∈ m -> covers x addr -> covers y addr -> x = y.
Proof.
  intros Hok. induction m as [|z m IH]; [intros H; by apply elem_of_nil in H|].
  apply bus_ok_cons in Hok as (Hz & Hb & Hm). unfold covers, below in *.
  intros [->|Hx]%elem_of_cons [->|Hy]%elem_of_cons Cx Cy; auto.
  - specialize (Hb y Hy). lia.
  - specialize (Hb x Hx). lia.
Qed.

Lemma map_insert_elem k e m x :
  Forall (fun y => y.1 <> k) m -> x ∈ map_insert k e m <-> x = (k, e) \/ x ∈ m.
Proof.
  induction m as [|[k' e'] m IH]; intros Hf; cbn [map_insert].
  - rewrite list_elem_of_singleton. split; [by left|]. intros [?|Hx]; [done|by apply elem_of_nil in Hx].
  - apply Forall_cons in Hf as [Hk Hf]. cbn in Hk. destruct (k <? k'); [by rewrite elem_of_cons|].
    destruct (Z.eqb_spec k k'); [done|]. rewrite !elem_of_cons, IH by done. tauto.
Qed.

Lemma map_insert_ok base end_ d m :
  bus_ok m -> base < end_ -> Forall (fun x => ~ overlaps base end_ x) m ->
  bus_ok (map_insert base (mk_BusEntry end_ d) m).
Proof.
  intros Hok Hne. induction m as [|[k e] m IH]; intros Hf; cbn [map_insert].
  { apply bus_ok_cons. cbn. split; [done|]. split; [intros y Hy; by apply elem_of_nil in Hy|apply bus_ok_nil]. }
  pose proof Hok as (Hx & Hb & Hm)%bus_ok_cons. apply Forall_cons in Hf as [Hk Hf]. unfold overlaps, below in *. cbn [fst snd] in *.
  destruct (Z.ltb_spec base k).
  - apply bus_ok_cons. cbn. split; [done|]. split; [|done]. intros y [->|Hy]%elem_of_cons; unfold below; cbn; [lia|].
    specialize (Hb y Hy). lia.
  - destruct (Z.eqb_spec base k) as [->|]; [lia|]. apply bus_ok_cons. cbn. split; [done|]. split; [|by apply IH].
    intros y Hy. apply map_insert_elem in Hy as [->|Hy]; unfold below; cbn; [lia|by apply Hb|].
    apply Forall_forall. intros z Hz. rewrite Forall_forall in Hf. specialize (Hf z Hz). specialize (Hb z Hz).
    intros Ez. apply Hf. destruct Hm as [_ Hnz]. rewrite Forall_forall in Hnz. specialize (Hnz z Hz). lia.
Qed.

End disjoint.

(** ** Registration *)

Section register.
Context {D : Type} (range : D -> Z * Z).
Implicit Types m : bus_map D.

(** The two neighbours of [base] decide whether anything overlaps. *)
Lemma no_overlap_neighbours m base end_ :
  bus_ok m ->
  (forall p, range_to_back base m = Some p -> be_end p.2 <= base) ->
  (forall n, range_from_next base m = Some n -> end_ <= n.1) ->
  Forall (fun x => ~ overlaps base end_ x) m.
Proof.
  intros Hok Hp Hn. apply Forall_forall. intros y Hy [H1 H2].
  pose proof (range_to_back_spec base m Hok) as Sp. pose proof (range_from_next_spec base m Hok) as Sn.
  destruct (Z.le_gt_cases y.1 base).
  - destruct (range_to_back base m) as [p|]; [|specialize (Sp y Hy); lia]. specialize (Hp p eq_refl).
    destruct Sp as (_ & Hpk & Hmax). destruct (Hmax y Hy) as [->|Hb]; [done|lia|]. unfold below in Hb.
    destruct Hok as [_ Hne]. lia.
  - destruct (range_from_next base m) as [n|]; [|specialize (Sn y Hy); lia]. specialize (Hn n eq_refl).
    destruct Sn as (_ & _ & Hmin). specialize (Hmin y Hy). lia.
Qed.

(** What [register] answers, and the map it leaves. *)
Definition register_post m (device : D) (r : bus_map D * res BusError unit) : Prop :=
  let '(base, end_) := range device in
  match r with
  | (m', Ok _) =>
      base < end_ /\ Forall (fun x => ~ overlaps base end_ x) m /\ bus_ok m' /\
      forall x, x ∈ m' <-> x = (base, mk_BusEntry end_ device) \/ x ∈ m
  | (m', Err EmptyRange) => m' = m /\ end_ <= base
  | (m', Err (BusOverlap _ e)) => m' = m /\ exists x, x ∈ m /\ overlaps base end_ x /\ be_end x.2 = e
  | (_, Panic) => False
  end.

Lemma bus_register_insert m device base end_ :
  bus_ok m -> base < end_ -> range device = (base, end_) -> Forall (fun x => ~ overlaps base end_ x) m ->
  register_post m device (map_insert base (mk_BusEntry end_ device) m, Ok tt).
Proof.
  intros Hok Hne Hr Hno. unfold register_post. rewrite Hr. split; [done|]. split; [done|].
  split; [by apply map_insert_ok|]. intros x. apply map_insert_elem. apply Forall_forall. intros y Hy Ey.
  destruct Hok as [_ Hnz]. rewrite Forall_forall in Hno, Hnz. specialize (Hno y Hy). specialize (Hnz y Hy).
  apply Hno. unfold overlaps. cbn in Hnz. lia.
Qed.

Lemma bus_register_post m device : bus_ok m -> register_post m device (bus_register range m device).
Proof.
  intros Hok. unfold bus_register. destruct (range device) as [base end_] eqn:Hr.
  destruct (Z.leb_spec end_ base) as [|Hne]; [unfold register_post; rewrite Hr; done|].
  pose proof (range_to_back_spec base m Hok) as Sp. pose proof (range_from_next_spec base m Hok) as Sn.
  pose proof (no_overlap_neighbours m base end_ Hok) as Hno.
  assert (Hovl : forall b x, x ∈ m -> overlaps base end_ x -> register_post m device (m, Err (BusOverlap b (be_end x.2)))).
  { intros b x Hx Ho. unfold register_post. rewrite Hr. split; [done|]. by exists x. }
  assert (Hnx : forall n, range_from_next base m = Some n -> n.1 < end_ -> overlaps base end_ n).
  { intros n E Hlt. rewrite E in Sn. destruct Sn as (Hn & Hk & _). split; [done|].
    destruct Hok as [_ Hnz]. rewrite Forall_forall in Hnz. specialize (Hnz n Hn). cbn in Hnz. lia. }
  destruct (range_to_back base m) as [[pb p]|].
  - destruct Sp as (Hp & Hpk & _). destruct (Z.ltb_spec base (be_end p)).
    { apply (Hovl base (pb, p) Hp). split; cbn in *; lia. }
    destruct (range_from_next base m) as [[nb n]|].
    + destruct (Z.ltb_spec nb end_); [apply (Hovl nb (nb, n)); [apply Sn|by apply Hnx]|].
      apply bus_register_insert; try done. apply Hno; by intros ? [= <-].
    + apply bus_register_insert; try done. apply Hno; [by intros ? [= <-]|done].
  - destruct (range_from_next base m) as [[nb n]|].
    + destruct (Z.ltb_spec nb end_); [apply (Hovl nb (nb, n)); [apply Sn|by apply Hnx]|].
      apply bus_register_insert; try done. apply Hno; [done|by intros ? [= <-]].
    + apply bus_register_insert; try done. by apply Hno.
Qed.

End register.

(** Registration keeps ranges disjoint.  On a bus whose devices own
    non-empty disjoint ranges in order, [register] accepts a device exactly
    when its range is non-empty and overlaps no resident, in which case the
    new map holds the residents and the device and is again well-formed;
    otherwise the map is unchanged and the error says why. *)
Theorem bus_register_correct {D} (range : D -> Z * Z) (m : bus_map D) (device : D) :
  bus_ok m -> register_post range m device (bus_register range m device).
Proof. apply bus_register_post. Qed.

Lemma bus_register_correct_witness :
  let m := [(0x3F8, mk_BusEntry 0x400 (0x3F8, 0x400)); (0x4D0, mk_BusEntry 0x4D2 (0x4D0, 0x4D2))] in
  register_post id m (0x400, 0x410) (bus_register id m (0x400, 0x410)) /\
  (bus_register id m (0x3F0, 0x3F9)).2 = Err (BusOverlap 0x3F8 0x400).
Proof.
  cbv zeta. split; [|reflexivity]. apply bus_register_correct. apply bus_ok_cons.
  split; [done|]. split; [intros y ->%list_elem_of_singleton; done|]. apply bus_ok_cons.
  split; [done|]. split; [intros y Hy; by apply elem_of_nil in Hy|apply bus_ok_nil].
Defined.

(** ** Routing of accesses *)

Section routing.
Context {D : Type}.
Implicit Types m : bus_map D.

(** Only the device at [b] changes. *)
Lemma map_set_device_spec m b e d :
  bus_ok m -> (b, e) ∈ m ->
  bus_ok (map_set_device b d m) /\
  forall x, x ∈ map_set_device b d m <-> x = (b, mk_BusEntry (be_end e) d) \/ (x ∈ m /\ x.1 <> b).
Proof.
  intros Hok Hin. split.
  - clear e Hin. induction m as [|y m IH]; [done|]. apply bus_ok_cons in Hok as (Hy & Hb & Hm).
    cbn. apply bus_ok_cons. split; [by destruct (_ =? _)|]. split; [|by apply IH].
    intros z (u & -> & Hu)%list_elem_of_fmap. specialize (Hb u Hu). unfold below in *.
    by destruct (y.1 =? b), (u.1 =? b).
  - intros x. unfold map_set_device. rewrite list_elem_of_fmap. split.
    + intros (y & -> & Hy). destruct (Z.eqb_spec y.1 b) as [E|]; [left|by right].
      assert (y = (b, e)) as ->; [|done]. pose proof Hok as [_ Hne]. rewrite Forall_forall in Hne.
      pose proof (Hne _ Hy) as Hy1. pose proof (Hne _ Hin) as Hb1. cbn in Hy1, Hb1.
      apply (covers_unique m _ _ b); try done; unfold covers; cbn; lia.
    + intros [->|[Hx Hne]].
      * exists (b, e). cbn. by rewrite Z.eqb_refl.
      * exists x. by rewrite (proj2 (Z.eqb_neq _ _)).
Qed.

Lemma bus_lookup_covered m b e addr :
  bus_ok m -> (b, e) ∈ m -> b <= addr < be_end e -> bus_lookup_mut m addr = Some (b, e).
Proof.
  intros Hok Hin Hc. pose proof (bus_lookup_spec m addr Hok) as H. destruct (bus_lookup_mut m addr) as [x|].
  - destruct H as [Hx Hcx]. f_equal. by apply (covers_unique m _ _ addr).
  - by destruct (H (b, e) Hin).
Qed.

Lemma bus_lookup_uncovered m addr :
  bus_ok m -> (forall x, x ∈ m -> ~ covers x addr) -> bus_lookup_mut m addr = None.
Proof.
  intros Hok Hn. pose proof (bus_lookup_spec m addr Hok) as H. destruct (bus_lookup_mut m addr) as [x|]; [|done].
  destruct H as [Hx Hc]. by destruct (Hn x Hx).
Qed.

End routing.

Lemma fill_le_bytes n data v :
  (length data <= n)%nat -> fill_le data (le_bytes n v) = le_bytes (length data) v.
Proof.
  revert data v. induction n as [|n IH]; intros data v Hl; destruct data as [|x data]; try done; cbn in *; [lia|].
  f_equal. apply IH. lia.
Qed.

(** a memory access reaches exactly the device that covers it.  The device
    is asked at the offset inside its range with the access width; a write
    carries the little-endian value of the bytes, a read returns the bytes of
    its answer; no other device changes and the map stays well-formed.  An
    address no device covers reads as all ones and ignores writes. *)
Theorem mmio_bus_routing {W D} `{!MmioDevice W D} (m : bus_map D) (w : W) (addr : Z) (data : list Z) :
  bus_ok m -> len data <= 8 ->
  (forall b e, (b, e) ∈ m -> b <= addr < be_end e ->
    let '(d, w', v) := dev_mmio_read (be_device e) (addr - b) (len data) w in
    let '(d2, w2) := dev_mmio_write (be_device e) (addr - b) (len data) (le_value data) w in
    mmio_bus_read m w addr data = (map_set_device b d m, w', le_bytes (length data) v) /\
    mmio_bus_write m w addr data = (map_set_device b d2 m, w2) /\
    bus_ok (map_set_device b d m) /\
    forall x, x ∈ map_set_device b d2 m <-> x = (b, mk_BusEntry (be_end e) d2) \/ (x ∈ m /\ x.1 <> b)) /\
  ((forall x, x ∈ m -> ~ covers x addr) ->
    mmio_bus_read m w addr data = (m, w, replicate (length data) 0xFF) /\ mmio_bus_write m w addr data = (m, w)).
Proof.
  intros Hok Hlen. pose proof (len_nonneg data). unfold len in *. split.
  - intros b e Hin Hc. unfold mmio_bus_read, mmio_bus_write.
    rewrite (bus_lookup_covered m b e addr) by done. rewrite (wrap_small 8) by (unfold fits, len; lia).
    rewrite take_ge by lia. unfold len.
    destruct (dev_mmio_read _ _ _ w) as [[d w'] v]. destruct (dev_mmio_write _ _ _ _ w) as [d2 w2].
    rewrite fill_le_bytes by lia. split; [done|]. split; [done|].
    split; [by apply (map_set_device_spec m b e d)|by apply map_set_device_spec].
  - intros Hn. unfold mmio_bus_read, mmio_bus_write. by rewrite bus_lookup_uncovered.
Qed.

(** A port access reaches exactly the device that covers it, at the
    absolute port, with the same guarantees for accesses of up to four bytes:
    little-endian values, no other device touched, open bus elsewhere. *)
Theorem pio_bus_routing {W D} `{!PioDevice W D} (m : bus_map D) (w : W) (addr : Z) (data : list Z) :
  bus_ok m -> len data <= 4 ->
  (forall b e, (b, e) ∈ m -> b <= addr < be_end e ->
    let '(d, w', v) := pio_read (be_device e) addr (len data) w in
    let '(d2, w2) := pio_write (be_device e) addr (len data) (le_value data) w in
    pio_bus_read m w addr data = (map_set_device b d m, w', le_bytes (length data) v) /\
    pio_bus_write m w addr data = (map_set_device b d2 m, w2) /\
    bus_ok (map_set_device b d m) /\
    forall x, x ∈ map_set_device b d2 m <-> x = (b, mk_BusEntry (be_end e) d2) \/ (x ∈ m /\ x.1 <> b)) /\
  ((forall x, x ∈ m -> ~ covers x addr) ->
    pio_bus_read m w addr data = (m, w, replicate (length data) 0xFF) /\ pio_bus_write m w addr data = (m, w)).
Proof.
  intros Hok Hlen. pose proof (len_nonneg data). unfold len in *. split.
  - intros b e Hin Hc. unfold pio_bus_read, pio_bus_write.
    rewrite (bus_lookup_covered m b e addr) by done. rewrite (wrap_small 8) by (unfold fits, len; lia).
    rewrite take_ge by lia. unfold len.
    destruct (pio_read _ _ _ w) as [[d w'] v]. destruct (pio_write _ _ _ _ w) as [d2 w2].
    rewrite fill_le_bytes by lia. split; [done|]. split; [done|].
    split; [by apply (map_set_device_spec m b e d)|by apply map_set_device_spec].
  - intros Hn. unfold pio_bus_read, pio_bus_write. by rewrite bus_lookup_uncovered.
Qed.
