(* ===== verification/Line.v ===== *)
(** * Interrupt wiring and register apertures
      (enlil-devices/src/interrupt/line.rs, and the port adapters of pic.rs)

    The sinks device models drive (level lines, ISA lines with the standard-PC
    override, MSI messages) and the bus front-ends of the interrupt
    controllers.  The controller behind its mutex is the world the apertures
    share: every aperture acts on the one controller. *)

From Stdlib Require Import ZArith Lia Bool.
From stdpp Require Import base decidable numbers list.
From S2P Require Import Prelude Rust Irq Lapic IoApic Controller Pic Bus.

Definition LAPIC_BASE : Z := 0xFEE00000.
Abbreviation IOAPIC_MMIO_SIZE := (0x1000) (only parsing).
Abbreviation LAPIC_MMIO_SIZE := (0x1000) (only parsing).

(** ** Lines *)

Abbreviation STANDARD_PC_GSI_OVERRIDES := [(0, 2)] (only parsing).

Definition isa_to_gsi (isa_irq : Z) : Z :=
  default isa_irq (snd <$> find_first (fun p => p.1 =? isa_irq) STANDARD_PC_GSI_OVERRIDES).

(** [line(irq)] called with [level] *)
Definition line (irq : Z) (level : bool) (c : InterruptController) : InterruptController :=
  if level then deliver_irq c irq else controller_clear_irq c irq.

Definition isa_line (isa_irq : Z) (level : bool) (c : InterruptController) : InterruptController :=
  let gsi := isa_to_gsi isa_irq in
  line (if gsi <? 256 then gsi else isa_irq) level c.

Definition msi_sink (msg : MsiMessage) (c : InterruptController) : InterruptController := deliver_msi c msg.

(** ** The APIC apertures *)

Inductive ApicMmio : Type :=
  | IoApicMmio
  | LapicMmio (vcpu_id : Z)
  | SharedLapicMmio.

Definition lapic_aperture_read (c : InterruptController) (vcpu offset : Z) : Z :=
  match lapic c vcpu with Some l => read_register l (wrap 32 offset) | None => 0 end.

#[export] Instance ApicMmio_device : MmioDevice InterruptController ApicMmio := {|
  dev_mmio_read d offset size c :=
    match d with
    | IoApicMmio => (d, c, mmio_read (ioapic c) offset)
    | LapicMmio vcpu_id => (d, c, lapic_aperture_read c vcpu_id offset)
    | SharedLapicMmio => (d, c, lapic_aperture_read c (active_lapic_id c) offset)
    end;
  dev_mmio_write d offset size data c :=
    match d with
    | IoApicMmio => (d, with_ioapic c (mmio_write (ioapic c) offset (wrap 32 data)))
    | LapicMmio vcpu_id => (d, write_lapic c vcpu_id (wrap 32 offset) (wrap 32 data))
    | SharedLapicMmio => (d, write_lapic c (active_lapic_id c) (wrap 32 offset) (wrap 32 data))
    end;
  mmio_range d :=
    match d with
    | IoApicMmio => (IOAPIC_BASE, IOAPIC_BASE + IOAPIC_MMIO_SIZE)
    | LapicMmio _ | SharedLapicMmio => (LAPIC_BASE, LAPIC_BASE + LAPIC_MMIO_SIZE)
    end |}.

(** ** The 8259 ports *)

Inductive PicPort : Type := PicMasterPort | PicSlavePort | ElcrPort.

#[export] Instance PicPort_device : PioDevice DualPic PicPort := {|
  pio_read d port size p :=
    match d with
    | PicMasterPort | PicSlavePort => let '(p, v) := read_port p port in (d, p, v)
    | ElcrPort => (d, p, read_elcr p port)
    end;
  pio_write d port size data p :=
    match d with
    | PicMasterPort | PicSlavePort => (d, write_port p port (wrap 8 data))
    | ElcrPort => (d, write_elcr p port (wrap 8 data))
    end;
  port_range d :=
    match d with
    | PicMasterPort => (MASTER_CMD, MASTER_CMD + 2)
    | PicSlavePort => (SLAVE_CMD, SLAVE_CMD + 2)
    | ElcrPort => (ELCR_MASTER, ELCR_SLAVE + 1)
    end |}.

(** ** Guest accesses end to end *)

(** The machine's memory bus with both APIC apertures mounted. *)
Definition apic_bus : bus_map ApicMmio :=
  (mmio_register (mmio_register MmioBus_new IoApicMmio).1 SharedLapicMmio).1.

Definition ioapic_slot : Z * BusEntry ApicMmio := (IOAPIC_BASE, mk_BusEntry (IOAPIC_BASE + IOAPIC_MMIO_SIZE) IoApicMmio).
Definition lapic_slot : Z * BusEntry ApicMmio := (LAPIC_BASE, mk_BusEntry (LAPIC_BASE + LAPIC_MMIO_SIZE) SharedLapicMmio).

Lemma apic_bus_eq : apic_bus = [ioapic_slot; lapic_slot].
Proof. reflexivity. Qed.

Lemma apic_bus_ok : bus_ok apic_bus.
Proof.
  rewrite apic_bus_eq. apply bus_ok_cons. split; [done|]. split; [intros y ->%list_elem_of_singleton; done|].
  apply bus_ok_cons. split; [done|]. split; [intros y Hy; by apply elem_of_nil in Hy|apply bus_ok_nil].
Qed.

Lemma apic_lookup_ioapic off :
  0 <= off < 0x1000 -> bus_lookup_mut apic_bus (IOAPIC_BASE + off) = Some ioapic_slot.
Proof.
  intros Ho. unfold ioapic_slot. apply bus_lookup_covered; [apply apic_bus_ok|rewrite apic_bus_eq; by left|].
  cbn. lia.
Qed.

Lemma apic_lookup_lapic off :
  0 <= off < 0x1000 -> bus_lookup_mut apic_bus (LAPIC_BASE + off) = Some lapic_slot.
Proof.
  intros Ho. unfold lapic_slot.
  apply bus_lookup_covered; [apply apic_bus_ok|rewrite apic_bus_eq; right; by left|]. cbn. lia.
Qed.

(** Four bytes are a 32-bit value. *)
Definition dword (data : list Z) : Prop := length data = 4%nat /\ Forall (fun b => 0 <= b < 256) data.

Lemma dword_value data : dword data -> le_to_u64 data = le_value data /\ wrap 32 (le_value data) = le_value data.
Proof.
  intros [Hl Hb]. pose proof (le_value_fits data Hb) as Hf. rewrite Hl in Hf.
  change (256 ^ Z.of_nat 4) with (2 ^ 32) in Hf.
  split; [by rewrite take_ge by lia|]. by apply wrap_small.
Qed.

(** the APIC apertures reach the controller.  With the I/O APIC and the
    shared LAPIC page mounted, a 4-byte guest access inside either page is
    exactly the register access it names: on the I/O APIC's index or window,
    or on the LAPIC of the vCPU the run loop selected, EOIs and IPIs with
    their side effects; reads return the register's four bytes. *)
Theorem apic_apertures c off data :
  0 <= off < 0x1000 -> dword data ->
  let v := le_value data in
  mmio_bus_write apic_bus c (IOAPIC_BASE + off) data = (apic_bus, with_ioapic c (mmio_write (ioapic c) off v)) /\
  mmio_bus_read apic_bus c (IOAPIC_BASE + off) data = (apic_bus, c, le_bytes 4 (mmio_read (ioapic c) off)) /\
  mmio_bus_write apic_bus c (LAPIC_BASE + off) data = (apic_bus, write_lapic c (active_lapic c) off v) /\
  mmio_bus_read apic_bus c (LAPIC_BASE + off) data =
    (apic_bus, c, le_bytes 4 (match lapic c (active_lapic c) with Some l => read_register l off | None => 0 end)).
Proof.
  intros Ho Hd v. destruct (dword_value data Hd) as [E1 E2]. destruct Hd as [Hl _].
  assert (E3 : wrap 32 off = off) by (apply wrap_small; unfold fits; lia).
  unfold mmio_bus_write, mmio_bus_read. rewrite apic_lookup_ioapic, apic_lookup_lapic by done. cbn [ioapic_slot lapic_slot].
  assert (Hf : forall x, fill_le data (le_bytes 8 x) = le_bytes 4 x) by (intros x; rewrite fill_le_bytes, Hl by lia; done).
  rewrite E1. replace (IOAPIC_BASE + off - IOAPIC_BASE) with off by lia. replace (LAPIC_BASE + off - LAPIC_BASE) with off by lia.
  cbn [be_device dev_mmio_write dev_mmio_read ApicMmio_device].
  unfold lapic_aperture_read. rewrite E2, E3, !Hf. fold v. done.
Qed.

Lemma apic_apertures_witness :
  mmio_bus_write apic_bus two_cpus (LAPIC_BASE + LAPIC_EOI) [0; 0; 0; 0] = (apic_bus, write_lapic two_cpus 0 LAPIC_EOI 0).
Proof.
  destruct (apic_apertures two_cpus LAPIC_EOI [0; 0; 0; 0]) as (_ & _ & E & _); [done|by split; [|repeat constructor]|exact E].
Defined.

Lemma mmio_bus_routing_witness :
  mmio_bus_write apic_bus two_cpus 0xFEC00000 [0x12] =
    (map_set_device IOAPIC_BASE IoApicMmio apic_bus, with_ioapic two_cpus (mmio_write (ioapic two_cpus) 0 0x12)) /\
  mmio_bus_write apic_bus two_cpus 0xFED00000 [0x12] = (apic_bus, two_cpus).
Proof.
  split.
  - destruct (mmio_bus_routing apic_bus two_cpus 0xFEC00000 [0x12] apic_bus_ok ltac:(done)) as [R _].
    specialize (R IOAPIC_BASE (mk_BusEntry (IOAPIC_BASE + IOAPIC_MMIO_SIZE) IoApicMmio)).
    apply R; [rewrite apic_bus_eq; by left|by cbn].
  - destruct (mmio_bus_routing apic_bus two_cpus 0xFED00000 [0x12] apic_bus_ok ltac:(done)) as [_ U].
    apply U. intros x. rewrite apic_bus_eq. unfold covers.
    intros [->|[->|Hx]%elem_of_cons]%elem_of_cons; [by intros [? ?]..|by apply elem_of_nil in Hx].
Defined.

(** The port bus with the three 8259 adapters mounted. *)
Definition pic_bus : bus_map PicPort :=
  let m := (pio_register PioBus_new PicMasterPort).1 in
  let m := (pio_register m PicSlavePort).1 in
  (pio_register m ElcrPort).1.

Lemma pic_bus_ok : bus_ok pic_bus.
Proof.
  change (bus_ok [(MASTER_CMD, mk_BusEntry 0x22 PicMasterPort); (SLAVE_CMD, mk_BusEntry 0xA2 PicSlavePort);
    (ELCR_MASTER, mk_BusEntry 0x4D2 ElcrPort)]).
  repeat (apply bus_ok_cons; split; [done|]; split;
    [intros y Hy; repeat (apply elem_of_cons in Hy as [->|Hy]; [done|]); by apply elem_of_nil in Hy|]).
  apply bus_ok_nil.
Qed.

Lemma pio_bus_routing_witness :
  (pio_bus_write pic_bus DualPic_new MASTER_CMD [0x11]).2 = write_port DualPic_new MASTER_CMD 0x11 /\
  (pio_bus_read pic_bus DualPic_new 0x60 [0; 0]).2 = [0xFF; 0xFF].
Proof.
  split.
  - destruct (pio_bus_routing pic_bus DualPic_new MASTER_CMD [0x11] pic_bus_ok ltac:(done)) as [R _].
    specialize (R MASTER_CMD (mk_BusEntry 0x22 PicMasterPort) ltac:(by left) ltac:(by cbn)). cbn [be_device] in R.
    destruct (pio_read PicMasterPort MASTER_CMD (len [0x11]) DualPic_new) as [[d w] v].
    destruct R as (_ & -> & _). reflexivity.
  - destruct (pio_bus_routing pic_bus DualPic_new 0x60 [0; 0] pic_bus_ok ltac:(done)) as [_ U].
    destruct U as [-> _]; [|done]. intros x. unfold covers.
    intros [->|[->|[->|Hx]%elem_of_cons]%elem_of_cons]%elem_of_cons; [by intros [? ?]..|by apply elem_of_nil in Hx].
Defined.
