(* ===== verification/Pit.v ===== *)
(** * The 8254 interval timer (enlil-devices/src/timer/pit.rs)

    Three channels with their access latches and read-back status, the four
    ports, and the conversion of elapsed nanoseconds into channel clocks.  The
    host line attached to channel 0 is observed as the sequence of levels
    driven into it. *)

From Stdlib Require Import ZArith Lia Bool.
From stdpp Require Import base decidable numbers list.
From S2P Require Import Prelude Rust Bus.

Abbreviation PIT_FREQUENCY := (1193182) (only parsing).
Abbreviation NS_PER_TICK := (838) (only parsing).
Abbreviation PIT_PORT_BASE := (0x40) (only parsing).
Abbreviation PIT_PORT_COUNT := (4) (only parsing).

Inductive ChannelMode : Type :=
  | InterruptOnTerminalCount
  | HardwareRetriggerable
  | RateGenerator
  | SquareWave
  | SoftwareStrobe
  | HardwareStrobe.

Definition mode_from_bits (bits : Z) : ChannelMode :=
  let b := bits .& 7 in
  if b =? 1 then HardwareRetriggerable
  else if b =? 2 then RateGenerator
  else if b =? 3 then SquareWave
  else if b =? 4 then SoftwareStrobe
  else if b =? 5 then HardwareStrobe
  else InterruptOnTerminalCount.

Definition mode_to_bits (m : ChannelMode) : Z :=
  match m with
  | InterruptOnTerminalCount => 0 | HardwareRetriggerable => 1 | RateGenerator => 2
  | SquareWave => 3 | SoftwareStrobe => 4 | HardwareStrobe => 5
  end.

Inductive AccessMode : Type := Latch | LoByte | HiByte | LoHiByte.

#[export] Instance AccessMode_eq_dec : EqDecision AccessMode.
Proof. solve_decision. Defined.

Definition access_from_bits (bits : Z) : AccessMode :=
  let b := bits .& 3 in
  if b =? 1 then LoByte else if b =? 2 then HiByte else if b =? 3 then LoHiByte else Latch.

Definition access_to_bits (a : AccessMode) : Z :=
  match a with Latch => 0 | LoByte => 1 | HiByte => 2 | LoHiByte => 3 end.

Record ByteLatch : Type := mk_ByteLatch { read_hi : bool; write_hi : bool }.
Record CounterStatus : Type := mk_CounterStatus { output : bool; null_count : bool }.

Record PitChannel : Type := mk_PitChannel {
  count : Z;
  reload : Z;
  ch_mode : ChannelMode;
  access : AccessMode;
  latched_count : option Z;
  latched_status : option Z;
  byte_latch : ByteLatch;
  ch_status : CounterStatus;
  gate : bool;
  ch_enabled : bool
}.

Definition PitChannel_new : PitChannel :=
  mk_PitChannel 0 0 InterruptOnTerminalCount LoHiByte None None (mk_ByteLatch false false)
    (mk_CounterStatus false false) true false.

Definition with_count (c : PitChannel) (v : Z) : PitChannel :=
  mk_PitChannel v (reload c) (ch_mode c) (access c) (latched_count c) (latched_status c) (byte_latch c) (ch_status c)
    (gate c) (ch_enabled c).
Definition with_reload (c : PitChannel) (v : Z) : PitChannel :=
  mk_PitChannel (count c) v (ch_mode c) (access c) (latched_count c) (latched_status c) (byte_latch c) (ch_status c)
    (gate c) (ch_enabled c).
Definition with_latched_count (c : PitChannel) (v : option Z) : PitChannel :=
  mk_PitChannel (count c) (reload c) (ch_mode c) (access c) v (latched_status c) (byte_latch c) (ch_status c)
    (gate c) (ch_enabled c).
Definition with_latched_status (c : PitChannel) (v : option Z) : PitChannel :=
  mk_PitChannel (count c) (reload c) (ch_mode c) (access c) (latched_count c) v (byte_latch c) (ch_status c)
    (gate c) (ch_enabled c).
Definition with_byte_latch (c : PitChannel) (v : ByteLatch) : PitChannel :=
  mk_PitChannel (count c) (reload c) (ch_mode c) (access c) (latched_count c) (latched_status c) v (ch_status c)
    (gate c) (ch_enabled c).
Definition with_output (c : PitChannel) (v : bool) : PitChannel :=
  mk_PitChannel (count c) (reload c) (ch_mode c) (access c) (latched_count c) (latched_status c) (byte_latch c)
    (mk_CounterStatus v (null_count (ch_status c))) (gate c) (ch_enabled c).

(** ** One channel *)

Definition status_byte (c : PitChannel) : Z :=
  (Z.b2z (output (ch_status c)) .<< 7) .| (Z.b2z (null_count (ch_status c)) .<< 6)
  .| (access_to_bits (access c) .<< 4) .| (mode_to_bits (ch_mode c) .<< 1).

Definition ch_read_data (c : PitChannel) : PitChannel * Z :=
  match latched_status c with
  | Some status => (with_latched_status c None, status)
  | None =>
      let value := default (count c) (latched_count c) in
      match access c with
      | LoByte | Latch => (c, value .& 0xFF)
      | HiByte => (c, (value .>> 8) .& 0xFF)
      | LoHiByte =>
          if read_hi (byte_latch c) then
            (with_latched_count (with_byte_latch c (mk_ByteLatch false (write_hi (byte_latch c)))) None,
             (value .>> 8) .& 0xFF)
          else (with_byte_latch c (mk_ByteLatch true (write_hi (byte_latch c))), value .& 0xFF)
      end
  end.

Definition load_count (c : PitChannel) : PitChannel :=
  let effective := if reload c =? 0 then 0x10000 else reload c in
  mk_PitChannel (wrap 16 effective) (reload c) (ch_mode c) (access c) (latched_count c) (latched_status c) (byte_latch c)
    (mk_CounterStatus false false) (gate c) true.

Definition ch_write_data (c : PitChannel) (val : Z) : PitChannel :=
  match access c with
  | LoByte => load_count (with_reload c ((reload c .& 0xFF00) .| val))
  | HiByte => load_count (with_reload c ((reload c .& 0x00FF) .| (val .<< 8)))
  | LoHiByte =>
      if write_hi (byte_latch c) then
        let c := with_reload c ((reload c .& 0x00FF) .| (val .<< 8)) in
        load_count (with_byte_latch c (mk_ByteLatch (read_hi (byte_latch c)) false))
      else
        with_byte_latch (with_reload c ((reload c .& 0xFF00) .| val)) (mk_ByteLatch (read_hi (byte_latch c)) true)
  | Latch => c
  end.

(** One input clock: the new state, and whether an interrupt edge is produced. *)
Definition ch_tick (c : PitChannel) : PitChannel * bool :=
  if negb (ch_enabled c) || negb (gate c) then (c, false)
  else
    match ch_mode c with
    | InterruptOnTerminalCount =>
        if count c =? 0 then (with_output c true, false)
        else
          let c := with_count c (wrap 16 (count c - 1)) in
          if count c =? 0 then (with_output c true, true) else (c, false)
    | RateGenerator =>
        let c := with_count c (wrap 16 (count c - 1)) in
        if count c =? 0 then (with_output (with_count c (reload c)) false, true)
        else (with_output c true, false)
    | SquareWave =>
        if count c =? 0 then (with_count c (reload c), false)
        else
          let c := with_count c (wrap 16 (count c - 2)) in
          if count c <=? 1 then
            let c := with_output c (negb (output (ch_status c))) in
            (with_count c (reload c), output (ch_status c))
          else (c, false)
    | _ => (if 0 <? count c then with_count c (wrap 16 (count c - 1)) else c, false)
    end.

(** ** The device *)

Record Pit : Type := mk_Pit {
  channel0 : PitChannel;
  channel1 : PitChannel;
  channel2 : PitChannel;
  accumulator_ns : Z;
  irq0 : bool
}.

Definition Pit_new : Pit := mk_Pit PitChannel_new PitChannel_new PitChannel_new 0 false.
Definition attach_irq0 (p : Pit) : Pit :=
  mk_Pit (channel0 p) (channel1 p) (channel2 p) (accumulator_ns p) true.

(** [self.channels[i]] for [i < 3] *)
Definition channel (p : Pit) (i : Z) : PitChannel :=
  if i =? 0 then channel0 p else if i =? 1 then channel1 p else channel2 p.
Definition set_channel (p : Pit) (i : Z) (c : PitChannel) : Pit :=
  if i =? 0 then mk_Pit c (channel1 p) (channel2 p) (accumulator_ns p) (irq0 p)
  else if i =? 1 then mk_Pit (channel0 p) c (channel2 p) (accumulator_ns p) (irq0 p)
  else mk_Pit (channel0 p) (channel1 p) c (accumulator_ns p) (irq0 p).

Definition pit_read_port (p : Pit) (port : Z) : Pit * Z :=
  let i := port .& 3 in
  if i <? 3 then let '(c, v) := ch_read_data (channel p i) in (set_channel p i c, v) else (p, 0).

(** The read-back latch of one selected channel. *)
Definition read_back_channel (latch_count latch_status : bool) (c : PitChannel) : PitChannel :=
  let c := if latch_status && bool_decide (latched_status c = None) then with_latched_status c (Some (status_byte c)) else c in
  if latch_count && bool_decide (latched_count c = None) then with_latched_count c (Some (count c)) else c.

Definition read_back (p : Pit) (val : Z) : Pit :=
  let latch_count := negb (tst val 0x20) in
  let latch_status := negb (tst val 0x10) in
  let sel idx c := if tst val (1 .<< (idx + 1)) then read_back_channel latch_count latch_status c else c in
  mk_Pit (sel 0 (channel0 p)) (sel 1 (channel1 p)) (sel 2 (channel2 p)) (accumulator_ns p) (irq0 p).

Definition pit_write_command (p : Pit) (val : Z) : Pit :=
  let channel_idx := (val .>> 6) .& 3 in
  if 3 <=? channel_idx then read_back p val
  else
    let acc := access_from_bits ((val .>> 4) .& 3) in
    let c := channel p channel_idx in
    if bool_decide (acc = Latch) then set_channel p channel_idx (with_latched_count c (Some (count c)))
    else
      set_channel p channel_idx
        (mk_PitChannel (count c) (reload c) (mode_from_bits ((val .>> 1) .& 7)) acc (latched_count c) (latched_status c)
           (mk_ByteLatch false false) (mk_CounterStatus false true) (gate c) false).

Definition pit_write_port (p : Pit) (port val : Z) : Pit :=
  if port =? 0x43 then pit_write_command p val
  else
    let i := port .& 3 in
    if i <? 3 then set_channel p i (ch_write_data (channel p i) val) else p.

(** One iteration of the clock loop: the levels driven into IRQ0, and whether
    channel 0 produced an edge. *)
Definition pit_clock (p : Pit) : Pit * list bool * bool :=
  let '(c0, fired) := ch_tick (channel0 p) in
  let '(c1, _) := ch_tick (channel1 p) in
  let '(c2, _) := ch_tick (channel2 p) in
  (mk_Pit c0 c1 c2 (accumulator_ns p) (irq0 p), if fired && irq0 p then [true; false] else [], fired).

Fixpoint pit_clocks (n : nat) (p : Pit) : Pit * list bool * bool :=
  match n with
  | O => (p, [], false)
  | S n =>
      let '(p, l, f) := pit_clock p in
      let '(p, l', f') := pit_clocks n p in
      (p, l ++ l', f || f')
  end.

(** [tick(ns)]; the addition panics on overflow. *)
Definition pit_tick (p : Pit) (ns : Z) : res unit (Pit * list bool * bool) :=
  let acc := accumulator_ns p + ns in
  if 2 ^ 64 <=? acc then Panic
  else
    let ticks := acc / NS_PER_TICK in
    Ok (pit_clocks (Z.to_nat ticks)
          (mk_Pit (channel0 p) (channel1 p) (channel2 p) (acc mod NS_PER_TICK) (irq0 p))).

Definition channel0_frequency (p : Pit) : Z :=
  if reload (channel0 p) =? 0 then PIT_FREQUENCY / 65536 else PIT_FREQUENCY / reload (channel0 p).

(** The PIT on the port bus: [Pit] itself, or a port over the shared one. *)
Inductive PitPort : Type := mk_PitPort.

#[export] Instance PitPort_device : PioDevice Pit PitPort := {|
  pio_read d port size p := let '(p, v) := pit_read_port p port in (d, p, v);
  pio_write d port size data p := (d, pit_write_port p port (wrap 8 data));
  port_range d := (PIT_PORT_BASE, PIT_PORT_BASE + PIT_PORT_COUNT)
|}.

(** ** Batching *)

Lemma pit_clocks_add n m p :
  pit_clocks (n + m) p =
    let '(p1, l1, f1) := pit_clocks n p in let '(p2, l2, f2) := pit_clocks m p1 in (p2, l1 ++ l2, f1 || f2).
Proof.
  revert p. induction n as [|n IH]; intros p; cbn [pit_clocks Nat.add].
  { by destruct (pit_clocks m p) as [[? ?] ?]. }
  destruct (pit_clock p) as [[p1 l1] f1]. rewrite IH. destruct (pit_clocks n p1) as [[p2 l2] f2].
  destruct (pit_clocks m p2) as [[p3 l3] f3]. by rewrite app_assoc, orb_assoc.
Qed.

(** The accumulator is not touched by the clocks. *)
Definition with_acc (p : Pit) (a : Z) : Pit := mk_Pit (channel0 p) (channel1 p) (channel2 p) a (irq0 p).

Lemma pit_clocks_acc n p a :
  pit_clocks n (with_acc p a) = let '(p', l, f) := pit_clocks n p in (with_acc p' a, l, f).
Proof.
  revert p. induction n as [|n IH]; intros p; [done|]. cbn [pit_clocks]. unfold pit_clock. cbn [channel0 channel1 channel2 with_acc irq0 accumulator_ns].
  destruct (ch_tick (channel0 p)) as [c0 f0]. destruct (ch_tick (channel1 p)) as [c1 f1]. destruct (ch_tick (channel2 p)) as [c2 f2].
  change (mk_Pit c0 c1 c2 a (irq0 p)) with (with_acc (mk_Pit c0 c1 c2 (accumulator_ns p) (irq0 p)) a). rewrite IH.
  by destruct (pit_clocks n _) as [[? ?] ?].
Qed.

Lemma pit_clocks_frame n p :
  let p' := (pit_clocks n p).1.1 in accumulator_ns p' = accumulator_ns p /\ irq0 p' = irq0 p.
Proof.
  revert p. induction n as [|n IH]; intros p; [done|]. cbn [pit_clocks]. unfold pit_clock.
  destruct (ch_tick (channel0 p)) as [c0 f0]. destruct (ch_tick (channel1 p)) as [c1 f1]. destruct (ch_tick (channel2 p)) as [c2 f2].
  specialize (IH (mk_Pit c0 c1 c2 (accumulator_ns p) (irq0 p))). by destruct (pit_clocks n _) as [[? ?] ?].
Qed.

(** Successive [tick] calls, with the levels they drive. *)
Fixpoint pit_run (nss : list Z) (p : Pit) : res unit (Pit * list bool) :=
  match nss with
  | [] => Ok (p, [])
  | ns :: nss =>
      match pit_tick p ns with
      | Ok (p, l, _) => match pit_run nss p with Ok (p, l') => Ok (p, l ++ l') | Err e => Err e | Panic => Panic end
      | Err e => Err e
      | Panic => Panic
      end
  end.

(** Any way of slicing the elapsed time gives the same clocks. *)
Lemma pit_run_total nss : forall p,
  0 <= accumulator_ns p < NS_PER_TICK -> Forall (fun ns => 0 <= ns) nss -> accumulator_ns p + zsum nss < 2 ^ 64 ->
  let t := accumulator_ns p + zsum nss in
  exists p' f, pit_clocks (Z.to_nat (t / NS_PER_TICK)) (with_acc p (t mod NS_PER_TICK)) = (p', (default [] (snd <$> ok (pit_run nss p))), f) /\
    is_ok (pit_run nss p) = true.
Proof.
  induction nss as [|ns nss IH]; intros p Ha Hn Hs; cbn [pit_run zsum foldr].
  { rewrite Z.add_0_r, Z.div_small, Z.mod_small by lia. by exists (with_acc p (accumulator_ns p)), false. }
  inversion_clear Hn as [|? ? Hns Hnss]. cbn [zsum foldr] in Hs. fold (zsum nss) in *.
  pose proof (zsum_nonneg nss Hnss) as Hz.
  unfold pit_tick. destruct (Z.leb_spec (2 ^ 64) (accumulator_ns p + ns)); [lia|].
  set (a := accumulator_ns p + ns) in *. pose proof (Z.mod_pos_bound a 838). pose proof (Z.div_mod a 838) as Hdm.
  assert (0 <= a / 838) by (apply Z.div_pos; lia).
  change (mk_Pit (channel0 p) (channel1 p) (channel2 p) (a mod 838) (irq0 p)) with (with_acc p (a mod 838)).
  pose proof (pit_clocks_frame (Z.to_nat (a / 838)) (with_acc p (a mod 838))) as [Hacc _].
  pose proof (fun b => pit_clocks_acc (Z.to_nat (a / 838)) p b) as Hb. rewrite Hb in *.
  destruct (pit_clocks (Z.to_nat (a / 838)) p) as [[p1 l1] f1] eqn:E1. cbn [fst snd] in *. clear Hb.
  destruct (IH (with_acc p1 (a mod 838))) as (p' & f & Ec & Eok); [cbn; lia|done|cbn; lia|].
  cbn [accumulator_ns with_acc] in Ec. set (t := a mod 838 + zsum nss) in *.
  replace (accumulator_ns p + (ns + zsum nss)) with (t + a / 838 * 838) by lia.
  rewrite Z.div_add, Z.mod_add by lia. assert (0 <= t / 838) by (apply Z.div_pos; lia).
  replace (Z.to_nat (t / 838 + a / 838)) with (Z.to_nat (a / 838) + Z.to_nat (t / 838))%nat by lia.
  rewrite pit_clocks_add, pit_clocks_acc, E1. cbn beta iota.
  change (with_acc (with_acc p1 (a mod 838)) (t mod 838)) with (with_acc p1 (t mod 838)) in Ec. rewrite Ec.
  exists p', (f1 || f). destruct (pit_run nss (with_acc p1 (a mod 838))) as [[p2 l2]| |]; [|done..]. done.
Qed.

(** ** Rate generator *)

(** The clocks a 16-bit counter value stands for: 0 is 65536. *)
Definition clocks_of (v : Z) : Z := if v =? 0 then 65536 else v.

Record rate_channel (c : PitChannel) : Prop := mk_rate_channel {
  rc_mode : ch_mode c = RateGenerator;
  rc_on : ch_enabled c = true /\ gate c = true;
  rc_count : fits 16 (count c);
  rc_reload : fits 16 (reload c)
}.

Lemma rate_tick c :
  rate_channel c ->
  let e := clocks_of (count c) in
  let '(c', fired) := ch_tick c in
  rate_channel c' /\ reload c' = reload c /\ fired = (e =? 1) /\
  clocks_of (count c') = if e =? 1 then clocks_of (reload c) else e - 1.
Proof.
  intros [Hm [He Hg] [Hc0 Hc1] Hr]. unfold ch_tick. rewrite He, Hg, Hm. cbn [negb orb].
  assert (Hw : wrap 16 (count c - 1) = clocks_of (count c) - 1).
  { unfold clocks_of, wrap. destruct (Z.eqb_spec (count c) 0) as [->|]; [reflexivity|]. apply Z.mod_small. lia. }
  cbn [count with_count reload]. rewrite Hw. assert (Hcl : 1 <= clocks_of (count c) <= 65536) by (unfold clocks_of; zcases; lia).
  destruct (Z.eqb_spec (clocks_of (count c) - 1) 0), (Z.eqb_spec (clocks_of (count c)) 1); try lia.
  - split; [by split|]. done.
  - split; [split; try done; cbn; unfold fits; lia|]. split; [done|]. split; [done|]. cbn.
    unfold clocks_of at 1. by destruct (Z.eqb_spec (clocks_of (count c) - 1) 0).
Qed.

Lemma edges_step e P n :
  1 <= e -> 1 <= P -> 0 <= n ->
  edges e P (n + 1) = (if e =? 1 then 1 else 0) + edges (if e =? 1 then P else e - 1) P n.
Proof.
  intros He HP Hn. rewrite Z.add_comm, edges_advance by lia. destruct (Z.leb_spec e 1), (Z.eqb_spec e 1); try lia.
  subst e. by replace (1 + P - 1) with P by lia.
Qed.

(** [k] interrupt pulses on the line. *)
Definition pulses (k : nat) : list bool := mjoin (replicate k [true; false]).

Lemma pulses_add a b : pulses (a + b) = pulses a ++ pulses b.
Proof. unfold pulses. by rewrite replicate_add, join_app. Qed.

Lemma rate_clocks n : forall p,
  rate_channel (channel0 p) -> irq0 p = true ->
  (pit_clocks n p).1.2 =
    pulses (Z.to_nat (edges (clocks_of (count (channel0 p))) (clocks_of (reload (channel0 p))) (Z.of_nat n))).
Proof.
  induction n as [|n IH]; intros p Hr Hi.
  { unfold edges. assert (1 <= clocks_of (count (channel0 p))) by (destruct Hr as [_ _ [? ?] _]; unfold clocks_of; zcases; lia).
    by rewrite (proj2 (Z.ltb_lt _ _)) by lia. }
  cbn [pit_clocks]. unfold pit_clock. pose proof (rate_tick _ Hr) as Ht. cbv zeta in Ht.
  destruct (ch_tick (channel0 p)) as [c0 f0]. destruct Ht as (Hr' & Er & -> & Ec).
  destruct (ch_tick (channel1 p)) as [c1 f1]. destruct (ch_tick (channel2 p)) as [c2 f2].
  specialize (IH (mk_Pit c0 c1 c2 (accumulator_ns p) (irq0 p)) Hr' Hi). cbn [channel0] in IH.
  destruct (pit_clocks n _) as [[p2 l2] f]. cbn [fst snd] in *. rewrite IH, Er, Ec, Hi, andb_true_r.
  rewrite Nat2Z.inj_succ, <- Z.add_1_r, edges_step; [| |unfold clocks_of; destruct Hr as [_ _ _ [? ?]]; zcases; lia|lia].
  2: { destruct Hr as [_ _ [? ?] _]. unfold clocks_of. zcases; lia. }
  assert (HP : 1 <= clocks_of (reload (channel0 p))) by (destruct Hr as [_ _ _ [? ?]]; unfold clocks_of; zcases; lia).
  destruct (clocks_of (count (channel0 p)) =? 1); [|done].
  match goal with |- context [edges ?e ?q ?m] => pose proof (edges_nonneg e q m HP) end.
  rewrite Z2Nat.inj_add by lia. by rewrite pulses_add.
Qed.

(** the system timer does not drift.  With channel 0 running as a rate
    generator, however the elapsed time is sliced into [tick] calls, the host
    line receives exactly one assert/deassert pulse per period: the first after
    the remaining count, then one every [reload] clocks (65536 for 0), where
    the clocks are the whole elapsed time divided by the clock length. *)
Theorem pit_rate_no_drift p nss :
  rate_channel (channel0 p) -> irq0 p = true -> 0 <= accumulator_ns p < NS_PER_TICK ->
  Forall (fun ns => 0 <= ns) nss -> accumulator_ns p + zsum nss < 2 ^ 64 ->
  exists p', pit_run nss p =
    Ok (p', pulses (Z.to_nat (edges (clocks_of (count (channel0 p))) (clocks_of (reload (channel0 p)))
                               ((accumulator_ns p + zsum nss) / NS_PER_TICK)))).
Proof.
  intros Hr Hi Ha Hn Hs. destruct (pit_run_total nss p Ha Hn Hs) as (p' & f & Ec & Eok). cbv zeta in Ec.
  set (t := accumulator_ns p + zsum nss) in *.
  pose proof (rate_clocks (Z.to_nat (t / NS_PER_TICK)) (with_acc p (t mod NS_PER_TICK)) Hr Hi) as E.
  rewrite Ec in E. cbn [fst snd channel0 with_acc] in E.
  destruct (pit_run nss p) as [[p2 l2]| |]; [|done..]. exists p2. cbn in E. rewrite E. do 4 f_equal.
  rewrite Z2Nat.id; [done|]. apply Z.div_pos; [|done].
  pose proof (zsum_nonneg nss Hn). lia.
Qed.

(** Channel 0 programmed through the ports: rate generator, divisor 4. *)
Definition rate_pit : Pit :=
  pit_write_port (pit_write_port (pit_write_port (attach_irq0 Pit_new) 0x43 0x34) 0x40 4) 0x40 0.

Lemma pit_rate_no_drift_witness :
  exists p', pit_run [1000; 2000; 700; 3300] rate_pit = Ok (p', [true; false; true; false]).
Proof.
  destruct (pit_rate_no_drift rate_pit [1000; 2000; 700; 3300]) as [p' E].
  - by repeat split.
  - done.
  - by cbn.
  - by repeat constructor.
  - done.
  - exists p'. exact E.
Defined.

(** ** Square wave *)

(** [n] clocks of one channel, with the number of interrupt edges. *)
Fixpoint ch_ticks (n : nat) (c : PitChannel) : PitChannel * Z :=
  match n with
  | O => (c, 0)
  | S n => let '(c, f) := ch_tick c in let '(c, k) := ch_ticks n c in (c, Z.b2z f + k)
  end.

(** Position [s] of the wave of even period [2 * h]: the low half, then the high half. *)
Record square_at (h s : Z) (c : PitChannel) : Prop := mk_square_at {
  sq_mode : ch_mode c = SquareWave;
  sq_on : ch_enabled c = true /\ gate c = true;
  sq_reload : reload c = 2 * h;
  sq_range : 0 < h < 32768 /\ 0 <= s < 2 * h;
  sq_output : output (ch_status c) = (h <=? s);
  sq_count : count c = 2 * h - 2 * (s mod h)
}.

Lemma square_step h s c :
  square_at h s c ->
  let '(c', fired) := ch_tick c in
  square_at h ((s + 1) mod (2 * h)) c' /\ fired = (s + 1 =? h).
Proof.
  intros [Hm [He Hg] Hr [Hh Hs] Ho Hc]. unfold ch_tick. rewrite He, Hg, Hm. cbn [negb orb].
  pose proof (Z.mod_pos_bound s h) as Hb. pose proof (Z.div_mod s h) as Hd.
  assert (Hq : s / h = 0 \/ s / h = 1) by (pose proof (Z.div_pos s h); pose proof (Z.div_lt_upper_bound s h 2); lia).
  destruct (Z.eqb_spec (count c) 0); [lia|]. cbn [count with_count].
  assert (Hw : wrap 16 (count c - 2) = 2 * h - 2 * (s mod h) - 2) by (rewrite Hc; apply Z.mod_small; lia). rewrite Hw.
  assert (Hn : (s + 1) mod (2 * h) = if s + 1 =? 2 * h then 0 else s + 1).
  { destruct (Z.eqb_spec (s + 1) (2 * h)) as [->|]; [apply Z.mod_same; lia|apply Z.mod_small; lia]. }
  rewrite Hn. destruct (Z.leb_spec (2 * h - 2 * (s mod h) - 2) 1).
  - assert (Hend : s mod h = h - 1) by lia. cbn [ch_status with_count with_output output negb reload].
    assert (Hm0 : (if s + 1 =? 2 * h then 0 else s + 1) mod h = 0).
    { destruct (Z.eqb_spec (s + 1) (2 * h)); [apply Z.mod_0_l; lia|]. replace (s + 1) with h by nia. apply Z.mod_same. lia. }
    split; [split; cbn; try done|]; rewrite ?Hm0, ?Hr, ?Ho; try lia; zcases; cbn; try done; nia.
  - assert (Hm1 : (s + 1) mod h = s mod h + 1).
    { replace (s + 1) with (s mod h + 1 + s / h * h) by lia. rewrite Z.mod_add by lia. apply Z.mod_small. lia. }
    destruct (Z.eqb_spec (s + 1) (2 * h)); [nia|].
    split; [split; cbn; try done; rewrite ?Hm1, ?Ho; try lia|]; zcases; try done; nia.
Qed.

Lemma square_ticks h n : forall s c,
  square_at h s c -> (ch_ticks n c).2 = (s + Z.of_nat n + h) / (2 * h) - (s + h) / (2 * h).
Proof.
  induction n as [|n IH]; intros s c Hc; cbn [ch_ticks].
  { rewrite Z.add_0_r. cbn. lia. }
  pose proof (square_step h s c Hc) as Hst. destruct (ch_tick c) as [c' f]. destruct Hst as [Hc' ->].
  specialize (IH _ _ Hc'). destruct (ch_ticks n c') as [c2 k]. cbn [snd] in *. rewrite IH.
  destruct Hc as [_ _ _ [Hh Hs] _ _].
  assert (Hn : (s + 1) mod (2 * h) = if s + 1 =? 2 * h then 0 else s + 1).
  { destruct (Z.eqb_spec (s + 1) (2 * h)) as [->|]; [apply Z.mod_same; lia|apply Z.mod_small; lia]. }
  rewrite Hn, Nat2Z.inj_succ. destruct (Z.eqb_spec (s + 1) (2 * h)) as [E|].
  - rewrite (proj2 (Z.eqb_neq (s + 1) h)) by lia. cbn [Z.b2z].
    replace (s + Z.succ (Z.of_nat n) + h) with (0 + Z.of_nat n + h + 1 * (2 * h)) by lia. rewrite Z.div_add by lia.
    rewrite (Z.div_small (0 + h)) by lia. replace (s + h) with (h - 1 + 1 * (2 * h)) by lia.
    rewrite Z.div_add, (Z.div_small (h - 1)) by lia. lia.
  - replace (s + Z.succ (Z.of_nat n) + h) with (s + 1 + Z.of_nat n + h) by lia. destruct (Z.eqb_spec (s + 1) h) as [E|]; cbn [Z.b2z].
    + replace (s + 1 + h) with (0 + 1 * (2 * h)) by lia. rewrite Z.div_add, (Z.div_small 0) by lia.
      rewrite (Z.div_small (s + h)) by lia. lia.
    + assert (E : (s + 1 + h) / (2 * h) = (s + h) / (2 * h)); [|lia].
      destruct (Z.lt_ge_cases (s + h) (2 * h)); [rewrite !Z.div_small by lia; lia|].
      replace (s + 1 + h) with (s + 1 - h + 1 * (2 * h)) by lia. replace (s + h) with (s - h + 1 * (2 * h)) by lia.
      rewrite !Z.div_add, !Z.div_small by lia. lia.
Qed.

(** A channel whose square-wave count was just loaded. *)
Definition square_loaded (r : Z) (c : PitChannel) : Prop :=
  ch_mode c = SquareWave /\ ch_enabled c = true /\ gate c = true /\ reload c = r /\ count c = r /\
  output (ch_status c) = false.

(** The square-wave timer.  Loaded with an even divisor [r] of at least two,
    the channel produces one interrupt edge every [r] clocks, the first in the
    middle of the first period.  Loaded with 0, which stands for 65536 and is
    the divisor the reported frequency is computed with, it never counts and
    never produces an edge. *)
Theorem pit_square_wave c r n :
  square_loaded r c -> 0 <= r < 65536 -> r mod 2 = 0 ->
  (ch_ticks n c).2 = if r =? 0 then 0 else (Z.of_nat n + r / 2) / r.
Proof.
  intros (Hm & He & Hg & Hr & Hc & Ho) Hb Hev. destruct (Z.eqb_spec r 0) as [->|Hne].
  - assert (Hst : ch_tick c = (with_count c 0, false)).
    { unfold ch_tick. rewrite He, Hg, Hm, Hc. cbn. by rewrite Hr. }
    assert (Hid : with_count c 0 = c) by (destruct c; cbn in *; by subst). rewrite Hid in Hst.
    induction n as [|n IH]; [done|]. cbn [ch_ticks]. rewrite Hst. by destruct (ch_ticks n c).
  - pose proof (Z.div_mod r 2). assert (Er : r = 2 * (r / 2)) by lia. set (h := r / 2) in *.
    assert (Hs : square_at h 0 c).
    { split; try done; try lia; [rewrite Ho; symmetry; apply Z.leb_gt; lia|]. rewrite Z.mod_0_l by lia. lia. }
    rewrite (square_ticks h n 0 c Hs), (Z.div_small (0 + h)) by lia. rewrite <- Er, Z.sub_0_r. by rewrite Z.add_0_l.
Qed.

Lemma pit_square_wave_witness :
  let c r := ch_write_data (ch_write_data
               (mk_PitChannel 0 0 SquareWave LoHiByte None None (mk_ByteLatch false false) (mk_CounterStatus false true) true false)
               r) 0 in
  (ch_ticks 10 (c 4)).2 = 3 /\ (ch_ticks 1000 (c 0)).2 = 0.
Proof.
  cbv zeta. split.
  - apply (pit_square_wave _ 4 10); [by repeat split|lia|done].
  - apply (pit_square_wave _ 0 1000); [by repeat split|lia|done].
Defined.
