(* ===== verification/Hpet.v ===== *)
(** * The HPET (enlil-devices/src/timer/hpet.rs)

    The register block of the high-precision event timer, its three timers in
    one-shot and periodic mode, the advance of the main counter, and the MMIO
    adapter that splices 32-bit accesses into the 64-bit registers. *)

From Stdlib Require Import ZArith Lia Bool.
From stdpp Require Import base decidable numbers list.
From S2P Require Import Prelude Rust Bus.

Abbreviation NUM_TIMERS := 3 (only parsing).
Abbreviation HPET_MMIO_BASE := 0xFED00000 (only parsing).
Abbreviation HPET_MMIO_SIZE := 0x400 (only parsing).
Abbreviation HPET_CLK_PERIOD_FS := 100000000 (only parsing).
Abbreviation HPET_TICK_NS := (HPET_CLK_PERIOD_FS / 1000000) (only parsing).
Abbreviation TIMER_ROUTE_CAP := 0x000F0000 (only parsing).
Abbreviation HPET_VENDOR_ID := 0x8086 (only parsing).
Abbreviation HPET_COUNT_SIZE_CAP := (1 .<< 13) (only parsing).
Abbreviation HPET_LEG_RT_CAP := (1 .<< 15) (only parsing).
Abbreviation HPET_CAP_VALUE := ((HPET_CLK_PERIOD_FS .<< 32) .| (HPET_VENDOR_ID .<< 16) .| HPET_LEG_RT_CAP .| HPET_COUNT_SIZE_CAP
  .| ((NUM_TIMERS - 1) .<< 8) .| 0x01) (only parsing).
Abbreviation TIMER_CONFIG_WRITABLE_MASK := 0x7F4E (only parsing).

Record HpetTimer : Type := mk_HpetTimer {
  t_config : Z;
  comparator : Z;
  fsb_route : Z;
  period : Z;
  index : Z
}.

Definition HpetTimer_new (i : Z) : HpetTimer :=
  mk_HpetTimer ((TIMER_ROUTE_CAP .<< 32) .| (1 .<< 4) .| (1 .<< 5)) 0 0 0 i.

Abbreviation is_periodic t := (tst (t_config t) (1 .<< 3)) (only parsing).
Abbreviation interrupt_enabled t := (tst (t_config t) (1 .<< 2)) (only parsing).
Abbreviation is_level_triggered t := (tst (t_config t) (1 .<< 1)) (only parsing).
Abbreviation irq_route t := ((t_config t .>> 9) .& 0x1F) (only parsing).

Record Hpet : Type := mk_Hpet {
  h_config : Z;
  counter : Z;
  timers : list HpetTimer;
  interrupt_status : Z
}.

Definition Hpet_new : Hpet := mk_Hpet 0 0 (HpetTimer_new <$> [0; 1; 2]) 0.

Abbreviation is_enabled h := (tst (h_config h) 1) (only parsing).
Abbreviation legacy_routing h := (tst (h_config h) 2) (only parsing).
Abbreviation timer h i := (timers h !! Z.to_nat i) (only parsing).

(** ** Registers *)

Definition hpet_read (h : Hpet) (offset : Z) : Z :=
  if offset =? 0x000 then HPET_CAP_VALUE
  else if offset =? 0x010 then h_config h
  else if offset =? 0x020 then interrupt_status h
  else if offset =? 0x0F0 then counter h
  else if (0x100 <=? offset) && (offset <=? 0x1FF) then
    let timer_idx := (offset - 0x100) / 0x20 in
    let reg_offset := (offset - 0x100) mod 0x20 in
    match timers h !! Z.to_nat timer_idx with
    | Some t =>
        if reg_offset =? 0x00 then t_config t
        else if reg_offset =? 0x08 then comparator t
        else if reg_offset =? 0x10 then fsb_route t
        else 0
    | None => 0
    end
  else 0.

(** A write to one timer's register. *)
Definition timer_write (t : HpetTimer) (reg_offset value : Z) : HpetTimer :=
  if reg_offset =? 0x00 then
    mk_HpetTimer ((t_config t .&~ TIMER_CONFIG_WRITABLE_MASK) .| (value .& TIMER_CONFIG_WRITABLE_MASK))
      (comparator t) (fsb_route t) (period t) (index t)
  else if reg_offset =? 0x08 then
    let cmp := if negb (is_periodic t) || tst (t_config t) (1 .<< 6) then value else comparator t in
    let per := if is_periodic t then value else period t in
    mk_HpetTimer (t_config t .&~ (1 .<< 6)) cmp (fsb_route t) per (index t)
  else if reg_offset =? 0x10 then mk_HpetTimer (t_config t) (comparator t) value (period t) (index t)
  else t.

Definition hpet_write (h : Hpet) (offset value : Z) : Hpet :=
  if offset =? 0x010 then mk_Hpet (value .& 0x3) (counter h) (timers h) (interrupt_status h)
  else if offset =? 0x020 then mk_Hpet (h_config h) (counter h) (timers h) (interrupt_status h .&~ value)
  else if (offset =? 0x0F0) && negb (is_enabled h) then mk_Hpet (h_config h) value (timers h) (interrupt_status h)
  else if (0x100 <=? offset) && (offset <=? 0x1FF) then
    let timer_idx := (offset - 0x100) / 0x20 in
    let reg_offset := (offset - 0x100) mod 0x20 in
    mk_Hpet (h_config h) (counter h) (alter (fun t => timer_write t reg_offset value) (Z.to_nat timer_idx) (timers h))
      (interrupt_status h)
  else h.

(** ** The main counter *)

(** One timer while the counter goes from [old] to [new]: its new state, and
    whether it fires. *)
Definition timer_advance (old new : Z) (t : HpetTimer) : HpetTimer * bool :=
  if negb (interrupt_enabled t) then (t, false)
  else
    let crossed := (old <? comparator t) && (comparator t <=? new) in
    if is_periodic t then
      if crossed then
        (mk_HpetTimer (t_config t) (wrap 64 (comparator t + period t)) (fsb_route t) (period t) (index t), true)
      else (t, false)
    else (t, crossed).

Fixpoint advance_timers (old new : Z) (ts : list HpetTimer) (status : Z) : list HpetTimer * Z * list (Z * Z) :=
  match ts with
  | [] => ([], status, [])
  | t :: ts =>
      let '(t', fire) := timer_advance old new t in
      let status := if fire && is_level_triggered t' then status .| (1 .<< index t') else status in
      let '(ts', status, fired) := advance_timers old new ts status in
      (t' :: ts', status, if fire then (index t', irq_route t') :: fired else fired)
  end.

Definition hpet_tick (h : Hpet) (ticks : Z) : Hpet * list (Z * Z) :=
  if negb (is_enabled h) then (h, [])
  else
    let old_counter := counter h in
    let new_counter := wrap 64 (counter h + ticks) in
    let '(ts, status, fired) := advance_timers old_counter new_counter (timers h) (interrupt_status h) in
    (mk_Hpet (h_config h) new_counter ts status, fired).

Definition clear_interrupt (h : Hpet) (timer_idx : Z) : Hpet :=
  if timer_idx <? NUM_TIMERS
  then mk_Hpet (h_config h) (counter h) (timers h) (interrupt_status h .&~ (1 .<< timer_idx)) else h.

(** ** The MMIO adapter *)

Inductive HpetMmio : Type := mk_HpetMmio.

Definition hpet_mmio_read (h : Hpet) (offset : Z) : Z :=
  let full := hpet_read h (offset .&~ 0x7) in
  if tst offset 0x4 then full .>> 32 else full.

Definition hpet_mmio_write (h : Hpet) (offset size data : Z) : Hpet :=
  let aligned := offset .&~ 0x7 in
  if 8 <=? size then hpet_write h aligned data
  else
    let dword := data .& 0xFFFFFFFF in
    let current := hpet_read h aligned in
    let merged := if tst offset 0x4 then (current .& 0xFFFFFFFF) .| (dword .<< 32)
                  else (current .& 0xFFFFFFFF00000000) .| dword in
    hpet_write h aligned merged.

#[export] Instance HpetMmio_device : MmioDevice Hpet HpetMmio := {|
  dev_mmio_read d offset size h := (d, h, hpet_mmio_read h offset);
  dev_mmio_write d offset size data h := (d, hpet_mmio_write h offset size data);
  mmio_range d := (HPET_MMIO_BASE, HPET_MMIO_BASE + HPET_MMIO_SIZE)
|}.

(** ** Timers over time *)

(** Timer [i] sits at position [i]. *)
Definition indexed (h : Hpet) : Prop := forall k t, timers h !! k = Some t -> index t = Z.of_nat k.

Lemma timer_advance_index old new t : index (timer_advance old new t).1 = index t.
Proof. unfold timer_advance. by repeat case_match. Qed.

Lemma advance_timers_lookup old new ts : forall status k,
  (advance_timers old new ts status).1.1 !! k = (fun t => (timer_advance old new t).1) <$> ts !! k.
Proof.
  induction ts as [|t ts IH]; intros status k; [done|]. cbn [advance_timers].
  destruct (timer_advance old new t) as [t' f] eqn:Et. set (st := if _ && _ then _ else _). specialize (IH st).
  destruct (advance_timers old new ts st) as [[ts' s'] fired]. cbn [fst] in *. destruct k; cbn; [by rewrite Et|apply IH].
Qed.

(** How often timer [i] appears in a list of expirations. *)
Definition fires (i : Z) (l : list (Z * Z)) : Z := Z.of_nat (length (filter (fun p => p.1 = i) l)).

Lemma fires_cons i p l : fires i (p :: l) = (if p.1 =? i then 1 else 0) + fires i l.
Proof. unfold fires. rewrite filter_cons. destruct (Z.eqb_spec p.1 i); case_decide; try done. cbn. lia. Qed.

Lemma fires_app i l l' : fires i (l ++ l') = fires i l + fires i l'.
Proof. unfold fires. rewrite filter_app, length_app. lia. Qed.

Lemma fires_none i l : (forall p, p ∈ l -> p.1 <> i) -> fires i l = 0.
Proof.
  induction l as [|p l IH]; intros H; [done|]. rewrite fires_cons, IH by (intros q Hq; apply H; by right).
  rewrite (proj2 (Z.eqb_neq _ _)); [done|]. apply H. by left.
Qed.

Lemma advance_timers_indices old new ts : forall status p,
  p ∈ (advance_timers old new ts status).2 -> exists k t, ts !! k = Some t /\ p.1 = index t.
Proof.
  induction ts as [|t ts IH]; intros status p; cbn [advance_timers]; [intros H; by apply elem_of_nil in H|].
  pose proof (timer_advance_index old new t) as Hidx.
  destruct (timer_advance old new t) as [t' f]. set (st := if _ && _ then _ else _). specialize (IH st p).
  destruct (advance_timers old new ts st) as [[ts' s'] fired]. cbn [fst snd] in *.
  assert (Htl : p ∈ fired -> exists k u, (t :: ts) !! k = Some u /\ p.1 = index u).
  { intros Hp. destruct (IH Hp) as (k & u & Hk & Hu). by exists (S k), u. }
  destruct f; [|exact Htl]. intros [->|Hp]%elem_of_cons; [by exists 0%nat, t|by apply Htl].
Qed.

Lemma advance_timers_fires old new ts : forall status n i,
  (forall k t, ts !! k = Some t -> index t = n + Z.of_nat k) -> n <= i ->
  fires i (advance_timers old new ts status).2 =
    match ts !! Z.to_nat (i - n) with Some t => Z.b2z (timer_advance old new t).2 | None => 0 end.
Proof.
  induction ts as [|t ts IH]; intros status n i Hi Hle; [done|]. cbn [advance_timers].
  pose proof (timer_advance_index old new t) as Hidx. rewrite (Hi 0%nat t eq_refl) in Hidx.
  destruct (timer_advance old new t) as [t' f] eqn:Et. cbn [fst] in Hidx. set (st := if _ && _ then _ else _).
  assert (Hi' : forall k u, ts !! k = Some u -> index u = n + 1 + Z.of_nat k).
  { intros k u Hk. specialize (Hi (S k) u Hk). lia. }
  pose proof (advance_timers_indices old new ts st) as Hin. specialize (IH st (n + 1) i Hi').
  destruct (advance_timers old new ts st) as [[ts' s'] fired]. cbn [snd] in *.
  destruct (Z.eq_dec i n) as [->|Hne].
  - rewrite Z.sub_diag. change ((t :: ts) !! Z.to_nat 0) with (Some t). cbv beta iota. rewrite Et. cbn [snd].
    assert (H0 : fires n fired = 0).
    { apply fires_none. intros p Hp. destruct (Hin p Hp) as (k & u & Hk & ->). rewrite (Hi' k u Hk). lia. }
    destruct f; [|done]. rewrite fires_cons, H0. cbn [fst]. rewrite Hidx, (proj2 (Z.eqb_eq _ _)) by lia. done.
  - replace (Z.to_nat (i - n)) with (S (Z.to_nat (i - (n + 1)))) by lia.
    change ((t :: ts) !! S ?k) with (ts !! k). rewrite <- IH by lia.
    destruct f; [|done]. rewrite fires_cons. cbn [fst]. by rewrite Hidx, (proj2 (Z.eqb_neq _ _)) by lia.
Qed.

(** Successive advances of the counter, with all expirations. *)
Fixpoint hpet_run (tks : list Z) (h : Hpet) : Hpet * list (Z * Z) :=
  match tks with
  | [] => (h, [])
  | x :: tks => let '(h, l) := hpet_tick h x in let '(h, l') := hpet_run tks h in (h, l ++ l')
  end.

(** Timer [i] of a running HPET, periodic and interrupting. *)
Record periodic_timer (h : Hpet) (i : Z) (t : HpetTimer) : Prop := mk_periodic_timer {
  pt_running : is_enabled h = true;
  pt_indexed : indexed h;
  pt_timer : 0 <= i /\ timer h i = Some t;
  pt_mode : is_periodic t = true /\ interrupt_enabled t = true;
  pt_counter : 0 <= counter h
}.

(** One advance of a periodic timer without wrap-around. *)
Lemma periodic_tick h i t x :
  periodic_timer h i t -> 0 <= x -> counter h + x < 2 ^ 64 ->
  let '(h', l) := hpet_tick h x in
  let crossed := (counter h <? comparator t) && (comparator t <=? counter h + x) in
  counter h' = counter h + x /\ fires i l = Z.b2z crossed /\
  periodic_timer h' i (if crossed then mk_HpetTimer (t_config t) (wrap 64 (comparator t + period t)) (fsb_route t) (period t) (index t) else t).
Proof.
  intros [Hr Hx [Hi Ht] [Hp He] Hc] H0 Hb. unfold hpet_tick. rewrite Hr. cbn [negb].
  assert (Hw : wrap 64 (counter h + x) = counter h + x) by (apply Z.mod_small; lia). rewrite Hw.
  pose proof (advance_timers_fires (counter h) (counter h + x) (timers h) (interrupt_status h) 0 i) as Hf.
  pose proof (advance_timers_lookup (counter h) (counter h + x) (timers h) (interrupt_status h)) as Hl.
  destruct (advance_timers _ _ (timers h) _) as [[ts st] fired]. cbn [fst snd] in *.
  assert (Ha : timer_advance (counter h) (counter h + x) t =
    (if (counter h <? comparator t) && (comparator t <=? counter h + x)
     then mk_HpetTimer (t_config t) (wrap 64 (comparator t + period t)) (fsb_route t) (period t) (index t) else t,
     (counter h <? comparator t) && (comparator t <=? counter h + x))).
  { unfold timer_advance. rewrite He, Hp. cbn [negb]. by destruct (_ && _). }
  rewrite Z.sub_0_r, Ht, Ha in Hf. cbn [snd] in Hf.
  split; [done|]. split; [apply Hf; [intros k u Hk; by rewrite (Hx k u Hk)|done]|]. split; cbn.
  - exact Hr.
  - intros k u Hk. cbn in Hk. rewrite Hl in Hk. apply fmap_Some in Hk as (v & Hv & ->). rewrite timer_advance_index. by apply Hx.
  - split; [done|]. cbn. rewrite Hl, Ht. cbn. by rewrite Ha.
  - by destruct (_ && _).
  - lia.
Qed.

(** Advances of at most a period each: one expiration per period. *)
Lemma periodic_exact tks : forall h i t,
  periodic_timer h i t -> 0 < period t -> counter h < comparator t <= counter h + period t ->
  Forall (fun x => 0 <= x <= period t) tks -> counter h + zsum tks + period t < 2 ^ 64 ->
  fires i (hpet_run tks h).2 = edges (comparator t - counter h) (period t) (zsum tks).
Proof.
  induction tks as [|x tks IH]; intros h i t Hpt HP Hc Hx Hb; cbn [hpet_run zsum foldr].
  { unfold edges. by rewrite (proj2 (Z.ltb_lt _ _)) by lia. }
  inversion_clear Hx as [|? ? Hx1 Hx2]. cbn [zsum foldr] in Hb. fold (zsum tks) in *.
  assert (Hz : 0 <= zsum tks). { apply zsum_nonneg. eapply Forall_impl; [exact Hx2|]. cbn. lia. }
  assert (Hc0 : 0 <= counter h) by apply Hpt.
  pose proof (periodic_tick h i t x Hpt ltac:(lia) ltac:(lia)) as Ht. destruct (hpet_tick h x) as [h1 l1]. cbv zeta in Ht.
  destruct Ht as (Ec & Ef & Hpt1). rewrite (proj2 (Z.ltb_lt _ _)) in Ef, Hpt1 by lia. cbn [andb] in *.
  rewrite edges_advance by lia. specialize (IH h1 i).
  destruct (hpet_run tks h1) as [h2 l2] eqn:E2. cbn [snd] in *. rewrite fires_app, Ef.
  destruct (Z.leb_spec (comparator t) (counter h + x)) as [Hcr|Hcr]; destruct (Z.leb_spec (comparator t - counter h) x); try lia.
  - specialize (IH _ Hpt1). cbn [comparator period] in IH.
    assert (Hw : wrap 64 (comparator t + period t) = comparator t + period t) by (apply Z.mod_small; lia). rewrite Hw in IH.
    rewrite IH by (done || lia). cbn [Z.b2z]. do 2 f_equal. lia.
  - specialize (IH _ Hpt1). rewrite IH by (done || lia). cbn [Z.b2z]. do 2 f_equal. lia.
Qed.

(** A comparator the counter has passed is never crossed again. *)
Lemma periodic_passed tks : forall h i t,
  periodic_timer h i t -> comparator t <= counter h -> Forall (fun x => 0 <= x) tks -> counter h + zsum tks < 2 ^ 64 ->
  fires i (hpet_run tks h).2 = 0.
Proof.
  induction tks as [|x tks IH]; intros h i t Hpt Hc Hx Hb; cbn [hpet_run]; [done|].
  inversion_clear Hx as [|? ? Hx1 Hx2]. cbn [zsum foldr] in Hb. fold (zsum tks) in *. pose proof (zsum_nonneg tks Hx2).
  pose proof (periodic_tick h i t x Hpt ltac:(lia) ltac:(lia)) as Ht. destruct (hpet_tick h x) as [h1 l1]. cbv zeta in Ht.
  destruct Ht as (Ec & Ef & Hpt1). rewrite (proj2 (Z.ltb_ge _ _)) in Ef, Hpt1 by lia. cbn [andb Z.b2z] in *.
  specialize (IH h1 i t Hpt1). destruct (hpet_run tks h1) as [h2 l2]. cbn [snd] in *.
  by rewrite fires_app, Ef, IH by (done || lia).
Qed.

(** the periodic HPET timer.  When no advance of the counter exceeds the
    period, the timer expires exactly once per period, however the advances
    are sliced.  When one advance reaches a second period, it expires once and
    the comparator is left behind the counter, so it never expires again
    before the 64-bit counter wraps. *)
Theorem hpet_periodic h i t tks :
  periodic_timer h i t -> 0 < period t -> counter h < comparator t <= counter h + period t ->
  Forall (fun x => 0 <= x) tks -> counter h + zsum tks + period t < 2 ^ 64 ->
  (Forall (fun x => x <= period t) tks ->
    fires i (hpet_run tks h).2 = edges (comparator t - counter h) (period t) (zsum tks)) /\
  (forall x, comparator t + period t <= counter h + x -> counter h + x + zsum tks < 2 ^ 64 ->
    fires i (hpet_run (x :: tks) h).2 = 1).
Proof.
  intros Hpt HP Hc Hn Hb. pose proof (zsum_nonneg tks Hn) as Hz. assert (Hc0 : 0 <= counter h) by apply Hpt. split.
  - intros Hx. apply periodic_exact; try done. rewrite Forall_forall in *. intros x Hin. split; [by apply Hn|by apply Hx].
  - intros x Hx Hs. cbn [hpet_run].
    pose proof (periodic_tick h i t x Hpt ltac:(lia) ltac:(lia)) as Ht. destruct (hpet_tick h x) as [h1 l1]. cbv zeta in Ht.
    destruct Ht as (Ec & Ef & Hpt1). rewrite (proj2 (Z.ltb_lt _ _)), (proj2 (Z.leb_le _ _)) in Ef, Hpt1 by lia. cbn [andb Z.b2z] in *.
    assert (Hw : wrap 64 (comparator t + period t) = comparator t + period t) by (apply Z.mod_small; lia). rewrite Hw in Hpt1.
    pose proof (periodic_passed tks h1 i _ Hpt1) as H0. destruct (hpet_run tks h1) as [h2 l2]. cbn [snd] in *.
    rewrite fires_app, Ef, H0; [done|cbn; lia|done|lia].
Qed.

(** Timer 0 programmed through the registers: periodic, every 10 ticks. *)
Definition periodic_hpet : Hpet :=
  hpet_write (hpet_write (hpet_write (hpet_write Hpet_new 0x100 0x4C) 0x108 10) 0x108 10) 0x010 1.

Lemma hpet_periodic_witness :
  fires 0 (hpet_run [7; 9; 10; 4] periodic_hpet).2 = 3 /\ fires 0 (hpet_run [25; 7; 9; 10; 4] periodic_hpet).2 = 1.
Proof.
  destruct (timer periodic_hpet 0) as [t|] eqn:E; [|by vm_compute in E].
  assert (Hpt : periodic_timer periodic_hpet 0 t).
  { split; [done| |by split|vm_compute in E; injection E as <-; done|done].
    intros k u Hk. do 3 (destruct k; [vm_compute in Hk; injection Hk as <-; done|]). done. }
  vm_compute in E. injection E as <-.
  destruct (hpet_periodic periodic_hpet 0 _ [7; 9; 10; 4] Hpt) as [A B]; [done|done|by repeat constructor|done|].
  split; [exact (A ltac:(by repeat constructor))|exact (B 25 ltac:(done) ltac:(done))].
Defined.
