(* ===== verification/Storage.v ===== *)
(** * Storage backends (enlil-devices/src/storage/mod.rs and raw.rs)

    The [StorageBackend] trait is a class of operations.  A [&self] method
    that changes state through a lock is a computation over the backend.
    [Disk] is what the trait promises its clients: a backend is an array of
    bytes with a fixed capacity.  The in-memory and raw-file backends are
    instances of both here; the qcow2 image is one in [QcowRefine], and the
    virtio block device ([Block]) is verified against [Disk] alone.

    The first part of the file is random-access files: a file is the list of
    its bytes, a write past the end extends it, and the bytes of a hole are
    zero.  Operating-system failures (a full or broken disk) are not modelled;
    a seek beyond [i64::MAX], which the system call refuses, is. *)

From Stdlib Require Import ZArith Lia Bool.
From stdpp Require Import base decidable numbers list.
From S2P Require Import Prelude Rust.

(** ** Files *)

(** The byte at position [k], zero past the end. *)
Definition getb (l : list Z) (k : Z) : Z :=
  if k <? 0 then 0 else default 0 (l !! Z.to_nat k).

(** [l[off..off + n]] *)
Definition sub (l : list Z) (off n : Z) : list Z := take (Z.to_nat n) (drop (Z.to_nat off) l).

(** [dst[off..off + src.len()].copy_from_slice(src)], in range. *)
Definition splice (dst : list Z) (off : Z) (src : list Z) : list Z := list_inserts (Z.to_nat off) src dst.

(** [file.set_len(n)] *)
Definition set_len (f : list Z) (n : Z) : list Z := take (Z.to_nat n) f ++ zeros (n - len f).

(** [file.seek(SeekFrom::Start(off))] then [file.write_all(bs)]. *)
Definition file_write (f : list Z) (off : Z) (bs : list Z) : list Z :=
  match bs with
  | [] => f
  | _ => splice (f ++ zeros (off + len bs - len f)) off bs
  end.

(** Big-endian integers. *)
Definition be_bytes (n : nat) (z : Z) : list Z := rev (le_bytes n z).
Definition be_value (l : list Z) : Z := le_value (rev l).

(** The big-endian integer in the [n] bytes at [off]. *)
Definition be_at (l : list Z) (off n : Z) : Z := be_value ((fun k => getb l (off + k)) <$> seqZ 0 n).

(** The largest offset a seek accepts ([off_t]). *)
Definition OFF_MAX : Z := 2 ^ 63 - 1.

Lemma len_app (a b : list Z) : len (a ++ b) = len a + len b.
Proof. unfold len. rewrite length_app. lia. Qed.

Lemma len_splice d off s : len (splice d off s) = len d.
Proof. unfold len, splice. by rewrite length_inserts. Qed.

Lemma len_sub l off n : 0 <= off -> 0 <= n -> off + n <= len l -> len (sub l off n) = n.
Proof. intros. unfold len, sub in *. rewrite length_take, length_drop. lia. Qed.

Lemma len_set_len f n : 0 <= n -> len (set_len f n) = n.
Proof.
  intros. unfold set_len. rewrite len_app. unfold len, zeros. rewrite length_take, length_replicate. lia.
Qed.

Lemma len_file_write f off bs :
  0 <= off -> len (file_write f off bs) = if bool_decide (bs = []) then len f else Z.max (len f) (off + len bs).
Proof.
  intros. destruct bs as [|b bs]; [done|]. cbn [file_write]. rewrite len_splice, len_app.
  unfold zeros, len. cbn [length]. rewrite length_replicate. cbn. lia.
Qed.

Lemma getb_neg l k : k < 0 -> getb l k = 0.
Proof. intros. unfold getb. by rewrite (proj2 (Z.ltb_lt _ _)). Qed.

Lemma getb_past l k : len l <= k -> getb l k = 0.
Proof.
  intros H. unfold getb, len in *. destruct (k <? 0) eqn:E; [done|].
  by rewrite (proj2 (lookup_ge_None l (Z.to_nat k))) by lia.
Qed.

Lemma getb_lookup l k : 0 <= k -> getb l k = default 0 (l !! Z.to_nat k).
Proof. intros. unfold getb. by rewrite (proj2 (Z.ltb_ge _ _)). Qed.

Lemma getb_app a b k : getb (a ++ b) k = if k <? len a then getb a k else getb b (k - len a).
Proof.
  destruct (Z.lt_ge_cases k 0) as [Hk|Hk].
  { rewrite !getb_neg by (unfold len; lia). by case_match. }
  unfold len. destruct (Z.ltb_spec k (Z.of_nat (length a))).
  - rewrite !getb_lookup by lia. by rewrite lookup_app_l by lia.
  - rewrite !getb_lookup by lia. rewrite lookup_app_r by lia. do 2 f_equal. lia.
Qed.

Lemma getb_zeros n k : getb (zeros n) k = 0.
Proof.
  unfold getb, zeros. case_match; [done|]. destruct (replicate _ _ !! _) eqn:E; [|done].
  by apply lookup_replicate in E as [-> _].
Qed.

Lemma getb_splice d off s k :
  0 <= off -> off + len s <= len d ->
  getb (splice d off s) k = if (off <=? k) && (k <? off + len s) then getb s (k - off) else getb d k.
Proof.
  intros H0 H1. destruct (Z.lt_ge_cases k 0) as [Hk|Hk].
  { rewrite !getb_neg by lia. by case_match. }
  unfold len, splice in *. rewrite (getb_lookup _ k), (getb_lookup d k) by lia.
  destruct (Z.leb_spec off k), (Z.ltb_spec k (off + Z.of_nat (length s))); cbn.
  - rewrite list_lookup_inserts by lia. rewrite getb_lookup by lia. do 2 f_equal. lia.
  - by rewrite list_lookup_inserts_ge by lia.
  - by rewrite list_lookup_inserts_lt by lia.
  - by rewrite list_lookup_inserts_lt by lia.
Qed.

Lemma getb_sub l off n k :
  0 <= off -> 0 <= k < n -> getb (sub l off n) k = getb l (off + k).
Proof.
  intros H0 H1. unfold sub. rewrite !getb_lookup by lia.
  rewrite lookup_take_lt, lookup_drop by lia. do 2 f_equal. lia.
Qed.

Lemma getb_set_len f n k : 0 <= n -> getb (set_len f n) k = if k <? n then getb f k else 0.
Proof.
  intros Hn. unfold set_len. rewrite getb_app, getb_zeros.
  assert (El : len (take (Z.to_nat n) f) = Z.min n (len f)) by (unfold len; rewrite length_take; lia).
  rewrite El. destruct (Z.lt_ge_cases k 0) as [Hk|Hk].
  { rewrite !getb_neg by lia. by repeat case_match. }
  destruct (Z.ltb_spec k (Z.min n (len f))), (Z.ltb_spec k n); try lia.
  - rewrite !getb_lookup by lia. by rewrite lookup_take_lt by lia.
  - by rewrite getb_past by lia.
Qed.

Lemma getb_file_write f off bs k :
  0 <= off -> getb (file_write f off bs) k = if (off <=? k) && (k <? off + len bs) then getb bs (k - off) else getb f k.
Proof.
  intros Ho. destruct bs as [|b bs].
  { change (len []) with 0. destruct (Z.leb_spec off k), (Z.ltb_spec k (off + 0)); (done || lia). }
  cbn [file_write]. set (s := b :: bs). rewrite getb_splice; [|done|].
  - case_match; [done|]. rewrite getb_app, getb_zeros. case_match; [done|].
    symmetry. apply getb_past. lia.
  - rewrite len_app. unfold zeros, len. rewrite length_replicate. lia.
Qed.

Lemma list_getb_ext a b : len a = len b -> (forall k, 0 <= k < len a -> getb a k = getb b k) -> a = b.
Proof.
  intros Hl H. apply list_eq. intros i. unfold len in *.
  destruct (decide (i < length a)%nat).
  - specialize (H (Z.of_nat i) ltac:(lia)). rewrite !getb_lookup, !Nat2Z.id in H by lia.
    destruct (lookup_lt_is_Some_2 a i ltac:(lia)) as [x Hx], (lookup_lt_is_Some_2 b i ltac:(lia)) as [y Hy].
    rewrite Hx, Hy in *. cbn in H. by subst.
  - by rewrite !(proj2 (lookup_ge_None _ _)) by lia.
Qed.

Lemma length_be_bytes n z : length (be_bytes n z) = n.
Proof. unfold be_bytes. by rewrite length_rev, length_le_bytes. Qed.

Lemma len_be_bytes n z : len (be_bytes n z) = Z.of_nat n.
Proof. unfold len. by rewrite length_be_bytes. Qed.

Lemma be_value_bytes n z : be_value (be_bytes n z) = z mod 256 ^ Z.of_nat n.
Proof. unfold be_value, be_bytes. by rewrite rev_involutive, le_value_bytes. Qed.

Lemma be_at_ext l l' off off' n :
  (forall k, 0 <= k < n -> getb l (off + k) = getb l' (off' + k)) -> be_at l off n = be_at l' off' n.
Proof.
  intros H. unfold be_at. f_equal. apply list_fmap_ext. intros i x Hx.
  apply lookup_seqZ in Hx. apply H. lia.
Qed.

Lemma be_value_at l : be_value l = be_at l 0 (len l).
Proof.
  unfold be_at. f_equal. apply list_getb_ext.
  - unfold len. by rewrite length_fmap, length_seqZ, Nat2Z.id.
  - intros k Hk. unfold len in Hk. rewrite (getb_lookup (_ <$> _)) by lia.
    rewrite list_lookup_fmap, lookup_seqZ_lt by (unfold len; lia). cbn. f_equal. lia.
Qed.

Lemma be_value_sub l off n :
  0 <= off -> 0 <= n -> off + n <= len l -> be_value (sub l off n) = be_at l off n.
Proof.
  intros. rewrite be_value_at, len_sub by done. apply be_at_ext. intros k Hk.
  by rewrite getb_sub by lia.
Qed.

Lemma be_at_bytes n z off l :
  (forall k, 0 <= k < Z.of_nat n -> getb l (off + k) = getb (be_bytes n z) k) ->
  be_at l off (Z.of_nat n) = z mod 256 ^ Z.of_nat n.
Proof.
  intros H. rewrite <- be_value_bytes, be_value_at, len_be_bytes. by apply be_at_ext.
Qed.

(** An integer read back after it was written, and after another write. *)
Lemma be_at_write f off n z :
  0 <= off -> be_at (file_write f off (be_bytes n z)) off (Z.of_nat n) = z mod 256 ^ Z.of_nat n.
Proof.
  intros. apply be_at_bytes. intros k Hk. rewrite getb_file_write, len_be_bytes by done.
  rewrite (proj2 (Z.leb_le _ _)), (proj2 (Z.ltb_lt _ _)) by lia. cbn. f_equal. lia.
Qed.

Lemma be_at_write64 f off z : 0 <= off -> fits 64 z -> be_at (file_write f off (be_bytes 8 z)) off 8 = z.
Proof. intros Ho Hz. etransitivity; [exact (be_at_write f off 8 z Ho)|]. exact (Z.mod_small _ _ Hz). Qed.

Lemma be_at_write_other f off bs off' n :
  0 <= off -> off' + n <= off \/ off + len bs <= off' ->
  be_at (file_write f off bs) off' n = be_at f off' n.
Proof.
  intros H0 Hd. apply be_at_ext. intros k Hk. rewrite getb_file_write by done.
  destruct (Z.leb_spec off (off' + k)), (Z.ltb_spec (off' + k) (off + len bs)); (done || lia).
Qed.

Lemma be_at_zero l off n : (forall k, 0 <= k < n -> getb l (off + k) = 0) -> be_at l off n = 0.
Proof.
  intros Hz. transitivity (be_at [] 0 n).
  - apply be_at_ext. intros k Hk. rewrite Hz by done. unfold getb. by case_match.
  - unfold be_at, be_value. clear.
    assert (E : forall l, Forall (eq 0) l -> le_value l = 0) by (induction 1; cbn; lia).
    apply E, Stdlib.Lists.List.Forall_rev, list.Forall_fmap, list.Forall_true. intros x. cbn. unfold getb. by case_match.
Qed.

(** A slice assignment is a write inside the list. *)
Lemma splice_write d off s : 0 <= off -> off + len s <= len d -> splice d off s = file_write d off s.
Proof.
  intros Ho Hl. apply list_getb_ext.
  - rewrite len_splice, len_file_write by done. case_bool_decide; lia.
  - intros k _. by rewrite getb_splice, getb_file_write.
Qed.

(** ** The trait *)

(** The failures the backends report ([anyhow::Error]), one per site. *)
Inductive serr :=
  | ReadOnly
  | SeekInvalid
  | UnexpectedEof
  | HeaderTooShort | BadMagic | BadVersion
  | BackingNameUtf8
  | TooMuchMetadata | BackingPathTooLong
  | RefcountWidth (bits : Z)
  | NoRefcountBlock (cluster : Z)
  | SelfCoverage
  | NoRefcountTable
  | TableTooSmall
  | BeyondL1 (guest_offset : Z)
  | HasSnapshots
  | Misaligned (host_offset : Z)
  | PastEof (host_offset : Z)
  | Mismatch (cluster got want : Z)
  | CopiedFlag (entry refcount : Z).

Class StorageBackend (B : Type) := {
  (** the buffer after the call, and the count *)
  read_at : B -> Z -> list Z -> list Z * res serr Z;
  write_at : Z -> list Z -> M B serr Z;
  flush : M B serr unit;
  trim : Z -> Z -> M B serr unit;
  capacity : B -> Z;
  is_readonly : B -> bool;
}.

(** [f] with the bytes [data] written at [off]. *)
Definition over (f : Z -> Z) (off : Z) (data : list Z) (g : Z) : Z :=
  if (off <=? g) && (g <? off + len data) then getb data (g - off) else f g.

(** How many of [n] bytes at [off] lie below [cap]. *)
Definition clip (cap off n : Z) : Z := Z.max 0 (Z.min n (cap - off)).

(** What a backend promises: an array of [capacity] bytes.  [in_limits] bounds
    the resources a backend may use up (a physical image's length); promises
    about a write hold while they are not exceeded. *)
Class Disk (B : Type) `{StorageBackend B} := {
  disk_ok : B -> Prop;
  in_limits : B -> Prop;
  byte_at : B -> Z -> Z;
  disk_capacity : forall b, disk_ok b -> 0 <= capacity b <= OFF_MAX;
  disk_read : forall b off buf buf' r, disk_ok b -> 0 <= off <= OFF_MAX -> off + len buf < 2 ^ 64 ->
    read_at b off buf = (buf', r) ->
    len buf' = len buf /\
    (exists n, r = Ok n /\ clip (capacity b) off (len buf) <= n <= len buf) /\
    forall k, 0 <= k < len buf ->
      if k <? clip (capacity b) off (len buf) then getb buf' k = byte_at b (off + k)
      else getb buf' k = getb buf k \/ getb buf' k = 0;
  disk_write : forall b off data b' r, disk_ok b -> 0 <= off -> off + len data < 2 ^ 64 ->
    write_at off data b = (b', r) -> in_limits b' ->
    disk_ok b' /\ capacity b' = capacity b /\ is_readonly b' = is_readonly b /\
    ((is_readonly b = false /\ r = Ok (clip (capacity b) off (len data)) /\
      forall g, 0 <= g < capacity b -> byte_at b' g = over (byte_at b) off data g) \/
     ((exists e, r = Err e) /\ forall g, 0 <= g < capacity b -> byte_at b' g = byte_at b g));
  (** A shape every write keeps, whatever its outcome; it makes limits monotone. *)
  disk_shape : B -> Prop;
  disk_ok_shape : forall b, disk_ok b -> disk_shape b;
  disk_shape_write : forall b off data, disk_shape b -> disk_shape (write_at off data b).1;
  disk_limits : forall b off data, disk_shape b -> in_limits (write_at off data b).1 -> in_limits b;
  disk_trim : forall b off n b' r, disk_ok b -> 0 <= off -> 0 <= n -> off + n <= capacity b ->
    trim off n b = (b', r) -> in_limits b ->
    disk_ok b' /\ in_limits b' /\ capacity b' = capacity b /\ is_readonly b' = is_readonly b /\ r <> Panic /\
    forall g, 0 <= g < capacity b ->
      byte_at b' g = byte_at b g \/ (byte_at b' g = 0 /\ off <= g < off + n);
  disk_flush : forall b, flush b = (b, Ok tt);
}.

(** ** The in-memory backend *)

Record MemoryBackend := mk_MemoryBackend { mem_data : list Z; mem_readonly : bool }.

Definition MemoryBackend_new (size : Z) : MemoryBackend := mk_MemoryBackend (zeros size) false.
Definition MemoryBackend_from_data (data : list Z) : MemoryBackend := mk_MemoryBackend data false.
Definition MemoryBackend_new_readonly (data : list Z) : MemoryBackend := mk_MemoryBackend data true.

Definition mem_read_at (b : MemoryBackend) (offset : Z) (buf : list Z) : list Z * res serr Z :=
  if len (mem_data b) <=? offset then (buf, Ok 0)
  else
    let available := len (mem_data b) - offset in
    let to_read := Z.min (len buf) available in
    (splice buf 0 (sub (mem_data b) offset to_read), Ok to_read).

Definition mem_write_at (offset : Z) (buf : list Z) : M MemoryBackend serr Z := fun b =>
  if mem_readonly b then (b, Err ReadOnly)
  else if len (mem_data b) <=? offset then (b, Ok 0)
  else
    let available := len (mem_data b) - offset in
    let to_write := Z.min (len buf) available in
    (mk_MemoryBackend (splice (mem_data b) offset (sub buf 0 to_write)) (mem_readonly b), Ok to_write).

(** [offset + len] panics on overflow. *)
Definition mem_trim (offset n : Z) : M MemoryBackend serr unit := fun b =>
  if mem_readonly b then (b, Err ReadOnly)
  else if 2 ^ 64 <=? offset + n then (b, Panic)
  else
    let start := Z.min offset (len (mem_data b)) in
    let end_ := Z.min (offset + n) (len (mem_data b)) in
    (mk_MemoryBackend (splice (mem_data b) start (zeros (end_ - start))) (mem_readonly b), Ok tt).

#[export] Instance Memory_backend : StorageBackend MemoryBackend := {
  read_at := mem_read_at;
  write_at := mem_write_at;
  flush := mret tt;
  trim := mem_trim;
  capacity b := len (mem_data b);
  is_readonly := mem_readonly;
}.

(** ** The raw-file backend *)

Record RawFileBackend := mk_RawFileBackend { raw_file : list Z; raw_capacity : Z; raw_readonly : bool }.

(** [open] on a file with these bytes, and [create]. *)
Definition raw_open (file : list Z) (readonly : bool) : RawFileBackend := mk_RawFileBackend file (len file) readonly.
Definition raw_create (size_bytes : Z) : RawFileBackend := mk_RawFileBackend (set_len [] size_bytes) size_bytes false.

(** The reads up to the end of the file fill a prefix; the rest is zeroed. *)
Definition raw_read_at (b : RawFileBackend) (offset : Z) (buf : list Z) : list Z * res serr Z :=
  if OFF_MAX <? offset then (buf, Err SeekInvalid)
  else
    let total := clip (len (raw_file b)) offset (len buf) in
    (sub (raw_file b) offset total ++ zeros (len buf - total), Ok (len buf)).

Definition raw_write_at (offset : Z) (buf : list Z) : M RawFileBackend serr Z := fun b =>
  if raw_readonly b then (b, Err ReadOnly)
  else if raw_capacity b <=? offset then (b, Ok 0)
  else if OFF_MAX <? offset then (b, Err SeekInvalid)
  else
    let to_write := Z.min (raw_capacity b - offset) (len buf) in
    (mk_RawFileBackend (file_write (raw_file b) offset (sub buf 0 to_write)) (raw_capacity b) (raw_readonly b), Ok to_write).

#[export] Instance RawFile_backend : StorageBackend RawFileBackend := {
  read_at := raw_read_at;
  write_at := raw_write_at;
  flush := mret tt;
  trim _ _ := mret tt;
  capacity := raw_capacity;
  is_readonly := raw_readonly;
}.

(** ** Both are disks *)

Ltac zcmp :=
  repeat match goal with
  | |- context [Z.leb ?a ?b] => destruct (Z.leb_spec a b); cbn [andb negb]
  | |- context [Z.ltb ?a ?b] => destruct (Z.ltb_spec a b); cbn [andb negb]
  | |- context [Z.eqb ?a ?b] => destruct (Z.eqb_spec a b); cbn [andb negb]
  end.

Lemma len_zeros' n : len (zeros n) = Z.max 0 n.
Proof. unfold len, zeros. rewrite length_replicate. lia. Qed.

Lemma over_prefix f off data n g :
  0 <= off -> clip (off + n) off (len data) = n -> g < off + n ->
  over f off (sub data 0 n) g = over f off data g.
Proof.
  unfold clip. intros Ho Hn Hg. pose proof (len_nonneg data). unfold over. rewrite len_sub by lia.
  zcmp; try (done || lia). rewrite getb_sub by lia. done.
Qed.

#[local] Obligation Tactic := idtac.

#[export] Program Instance Memory_disk : Disk MemoryBackend := {
  disk_ok b := len (mem_data b) <= OFF_MAX;
  in_limits _ := True;
  disk_shape _ := True;
  byte_at b := getb (mem_data b);
}.
Next Obligation. intros b Hb. cbn in *. pose proof (len_nonneg (mem_data b)). lia. Qed.
Next Obligation.
  intros b off buf buf' r Hok Ho Hl E. cbn in *. unfold mem_read_at in E. pose proof (len_nonneg buf).
  unfold clip. destruct (Z.leb_spec (len (mem_data b)) off); inversion E; subst; clear E.
  - split; [done|]. split; [exists 0; split; [done|lia]|]. intros k Hk. zcmp; [lia|by left].
  - rewrite len_splice. split; [done|]. split; [eexists; split; [done|lia]|]. intros k Hk.
    rewrite getb_splice by (rewrite ?len_sub; lia). rewrite len_sub by lia.
    zcmp; try lia. rewrite getb_sub by lia. f_equal. lia.
Qed.
Next Obligation.
  intros b off data b' r Hok Ho Hl E _. cbn in *. unfold mem_write_at in E. pose proof (len_nonneg data).
  destruct (mem_readonly b) eqn:Hro; [inversion E; subst; split_and!; try done; right; eauto|].
  unfold clip. destruct (Z.leb_spec (len (mem_data b)) off); inversion E; subst; clear E; cbn.
  - split_and!; try done. left. split_and!; [done|f_equal; lia|]. intros g Hg. unfold over. zcmp; (done || lia).
  - rewrite len_splice. split_and!; try done. left. split_and!; [done|f_equal; lia|]. intros g Hg.
    rewrite getb_splice by (rewrite ?len_sub; lia). fold (over (getb (mem_data b)) off (sub data 0 (Z.min (len data) (len (mem_data b) - off))) g).
    set (n := Z.min _ _). destruct (Z.lt_ge_cases g (off + n)).
    + apply over_prefix; unfold clip; lia.
    + unfold over. rewrite len_sub by lia. zcmp; try (done || lia).
Qed.
Next Obligation. done. Qed.
Next Obligation. done. Qed.
Next Obligation. done. Qed.
Next Obligation.
  intros b off n b' r Hok Ho Hn Hc E _. cbn in *. unfold mem_trim in E. unfold OFF_MAX in *.
  destruct (mem_readonly b) eqn:Hro; [inversion E; subst; split_and!; try done; by left|].
  destruct (Z.leb_spec (2 ^ 64) (off + n)); [lia|]. inversion E; subst; clear E; cbn. rewrite len_splice.
  split_and!; try done. intros g Hg. rewrite getb_splice by (rewrite ?len_zeros'; lia). rewrite len_zeros', getb_zeros.
  zcmp; try (by left). right. lia.
Qed.
Next Obligation. done. Qed.

#[export] Program Instance RawFile_disk : Disk RawFileBackend := {
  disk_ok b := len (raw_file b) = raw_capacity b /\ raw_capacity b <= OFF_MAX;
  in_limits _ := True;
  disk_shape _ := True;
  byte_at b := getb (raw_file b);
}.
Next Obligation. intros b [E Hb]. cbn in *. pose proof (len_nonneg (raw_file b)). lia. Qed.
Next Obligation.
  intros b off buf buf' r [El Hok] Ho Hl E. cbn in *. unfold raw_read_at in E. pose proof (len_nonneg buf).
  destruct (Z.ltb_spec OFF_MAX off); [lia|]. injection E as <- <-. rewrite El. unfold clip. set (n := Z.max 0 _).
  pose proof (len_nonneg (raw_file b)). assert (Hs : len (sub (raw_file b) off n) = n).
  { destruct (Z.le_gt_cases (len (raw_file b)) off); [|apply len_sub; lia].
    assert (n = 0) as -> by lia. done. }
  rewrite len_app, Hs, len_zeros'. split; [lia|]. split; [eexists; split; [done|lia]|]. intros k Hk.
  rewrite getb_app, Hs, getb_zeros. zcmp; [|by right]. apply getb_sub; lia.
Qed.
Next Obligation.
  intros b off data b' r [El Hok] Ho Hl E _. cbn in *. unfold raw_write_at in E. pose proof (len_nonneg data).
  destruct (raw_readonly b) eqn:Hro; [inversion E; subst; split_and!; try done; right; eauto|].
  unfold clip. destruct (Z.leb_spec (raw_capacity b) off).
  { inversion E; subst; clear E; cbn. split_and!; try done. left. split_and!; [done|f_equal; lia|].
    intros g Hg. unfold over. zcmp; (done || lia). }
  destruct (Z.ltb_spec OFF_MAX off); [lia|]. injection E as <- <-. cbn. set (n := Z.min _ _).
  assert (Hs : len (sub data 0 n) = n) by (apply len_sub; lia).
  rewrite len_file_write, Hs by done. split_and!; try done; [case_bool_decide; lia|].
  left. split_and!; [done|f_equal; lia|]. intros g Hg. rewrite getb_file_write by done.
  fold (over (getb (raw_file b)) off (sub data 0 n) g). destruct (Z.lt_ge_cases g (off + n)).
  - apply over_prefix; unfold clip; lia.
  - unfold over. rewrite Hs. zcmp; try (done || lia).
Qed.
Next Obligation. done. Qed.
Next Obligation. done. Qed.
Next Obligation. done. Qed.
Next Obligation. intros b off n b' r [? ?] Ho Hn Hc E _. injection E as <- <-. split_and!; try done. intros g Hg. by left. Qed.
Next Obligation. done. Qed.

#[global] Arguments getb : simpl never.
#[global] Arguments sub : simpl never.
#[global] Arguments splice : simpl never.
#[global] Arguments set_len : simpl never.
#[global] Arguments file_write : simpl never.
#[global] Arguments be_at : simpl never.
#[global] Arguments be_bytes : simpl never.
