(* ===== verification/Qcow.v ===== *)
(** * The qcow2 image backend (enlil-devices/src/storage/qcow.rs)

    The image file is the state, with the parsed header, the live refcount
    table geometry and the cached L1 table; the mutexes only serialise whole
    operations.  Every helper of the source is a definition here.  [B] is the
    type of the backing image ([Box<dyn StorageBackend>]): a raw file, or a
    qcow2 image again, so chains of any depth are instances.

    [u64] arithmetic panics on overflow and on division by zero, which a bad
    [cluster_bits] can cause.  The two loops without a bound in the source run
    on fuel: running out stands for a loop that does not end, and the theorems
    of [QcowAlloc] and [QcowRefine] show it does not happen. *)

From Stdlib Require Import ZArith Lia Bool.
From stdpp Require Import base decidable numbers list.
From S2P Require Import Prelude Rust Storage.

Abbreviation QCOW2_MAGIC := (0x514649FB) (only parsing).
Abbreviation L2_OFFSET_MASK := (0x00FFFFFFFFFFFE00) (only parsing).
Abbreviation QCOW_OFLAG_ZERO := 0x1 (only parsing).
Abbreviation QCOW_OFLAG_COPIED := (1 .<< 63) (only parsing).
Abbreviation REFT_OFFSET_MASK := (0xFFFFFFFFFFFFFE00) (only parsing).

Inductive ClusterLoc :=
  | Mapped (host_offset : Z)
  | Zeroed
  | Unallocated.

(** ** The header *)

Record QcowHeader := mk_QcowHeader {
  h_magic : Z; h_version : Z;
  h_backing_file_offset : Z; h_backing_file_size : Z;
  h_cluster_bits : Z; h_size : Z; h_crypt_method : Z;
  h_l1_size : Z; h_l1_table_offset : Z;
  h_refcount_table_offset : Z; h_refcount_table_clusters : Z;
  h_nb_snapshots : Z; h_snapshots_offset : Z;
  h_refcount_order : Z;
}.

Definition from_bytes (bytes : list Z) : res serr QcowHeader :=
  if len bytes <? 72 then Err HeaderTooShort
  else
    let magic := be_value (sub bytes 0 4) in
    if negb (magic =? QCOW2_MAGIC) then Err BadMagic
    else
      let version := be_value (sub bytes 4 4) in
      if negb (version =? 2) && negb (version =? 3) then Err BadVersion
      else Ok (mk_QcowHeader magic version
        (be_value (sub bytes 8 8)) (be_value (sub bytes 16 4))
        (be_value (sub bytes 20 4)) (be_value (sub bytes 24 8)) (be_value (sub bytes 32 4))
        (be_value (sub bytes 36 4)) (be_value (sub bytes 40 8))
        (be_value (sub bytes 48 8)) (be_value (sub bytes 56 4))
        (be_value (sub bytes 60 4)) (be_value (sub bytes 64 8))
        (if (3 <=? version) && (100 <=? len bytes) then be_value (sub bytes 96 4) else 4)).

(** [1u64 << cluster_bits] *)
Definition cluster_size (h : QcowHeader) : res serr Z :=
  if h_cluster_bits h <? 64 then Ok (1 .<< h_cluster_bits h) else Panic.

Definition l2_entries (h : QcowHeader) : res serr Z := cs ← cluster_size h; Ok (cs / 8).

(** [1u32 << refcount_order] *)
Definition refcount_bits (h : QcowHeader) : res serr Z :=
  if h_refcount_order h <? 32 then Ok (1 .<< h_refcount_order h) else Panic.

Definition refcount_block_entries (h : QcowHeader) : res serr Z :=
  cs ← cluster_size h;
  bits ← rmul cs 8;
  width ← refcount_bits h;
  rdiv bits width.

Definition refcount_table_entries (h : QcowHeader) : res serr Z :=
  cs ← cluster_size h;
  bytes ← rmul (h_refcount_table_clusters h) cs;
  Ok (bytes / 8).

Definition refcount_table_clusters_for (h : QcowHeader) (rt_index : Z) : res serr Z :=
  n ← radd rt_index 1;
  bytes_needed ← rmul n 8;
  cs ← cluster_size h;
  let needed := div_ceil bytes_needed cs in
  let clusters := Z.max needed (h_refcount_table_clusters h) in
  Ok (Z.min clusters (2 ^ 32 - 1)).

(** ** The backend *)

Record QcowBackend (B : Type) := mk_QcowBackend {
  q_file : list Z;
  q_header : QcowHeader;
  q_rt_offset : Z;
  q_rt_clusters : Z;
  q_l1 : list Z;
  q_writable : bool;
  q_backing : option B;
}.
Arguments mk_QcowBackend {B} _ _ _ _ _ _ _.
Arguments q_file {B} _.
Arguments q_header {B} _.
Arguments q_rt_offset {B} _.
Arguments q_rt_clusters {B} _.
Arguments q_l1 {B} _.
Arguments q_writable {B} _.
Arguments q_backing {B} _.

Definition with_file {B} (q : QcowBackend B) (f : list Z) : QcowBackend B :=
  mk_QcowBackend f (q_header q) (q_rt_offset q) (q_rt_clusters q) (q_l1 q) (q_writable q) (q_backing q).
Definition with_l1 {B} (q : QcowBackend B) (l1 : list Z) : QcowBackend B :=
  mk_QcowBackend (q_file q) (q_header q) (q_rt_offset q) (q_rt_clusters q) l1 (q_writable q) (q_backing q).
Definition with_rt {B} (q : QcowBackend B) (off clusters : Z) : QcowBackend B :=
  mk_QcowBackend (q_file q) (q_header q) off clusters (q_l1 q) (q_writable q) (q_backing q).

Section Qcow.
Context {B : Type} {SB : StorageBackend B}.
Abbreviation qcow := (QcowBackend B).
Abbreviation qm A := (M qcow serr A).

(** [file.seek(SeekFrom::Start(off))?; file.read_exact(&mut [0; n])?] *)
Definition q_read (off n : Z) : qm (list Z) := fun q =>
  (q, if OFF_MAX <? off then Err SeekInvalid
      else if off + n <=? len (q_file q) then Ok (sub (q_file q) off n) else Err UnexpectedEof).

Definition read_be (off n : Z) : qm Z := bs ← q_read off n; mret (be_value bs).

(** [file.seek(SeekFrom::Start(off))?; file.write_all(bs)?] *)
Definition q_write (off : Z) (bs : list Z) : qm unit := fun q =>
  if OFF_MAX <? off then (q, Err SeekInvalid) else (with_file q (file_write (q_file q) off bs), Ok tt).

Definition q_set_len (n : Z) : qm unit := fun q =>
  if OFF_MAX <? n then (q, Err SeekInvalid) else (with_file q (set_len (q_file q) n), Ok tt).

(** The stores to [rt_offset] and [rt_clusters], and to the cached L1 table. *)
Definition set_rt (off clusters : Z) : qm unit := fun q => (with_rt q off clusters, Ok tt).
Definition set_l1 (i entry : Z) : qm unit := fun q =>
  if i <? len (q_l1 q) then (with_l1 q (<[Z.to_nat i := entry]> (q_l1 q)), Ok tt) else (q, Panic).

(** [file.seek(SeekFrom::End(0))?] *)
Definition q_end : qm Z := fun q => (q, Ok (len (q_file q))).

Definition header : qm QcowHeader := fun q => (q, Ok (q_header q)).

(** [x.next_multiple_of(m)] *)
Definition next_multiple_of (x m : Z) : res serr Z := rmul (div_ceil x m) m.

(** The L1 index of a guest offset, and the host offset of its L2 entry. *)
Definition l1_index_of (h : QcowHeader) (guest_offset : Z) : res serr Z :=
  cs ← cluster_size h;
  n ← l2_entries h;
  span ← rmul n cs;
  rdiv guest_offset span.

Definition l2_entry_off (h : QcowHeader) (l2_table_offset guest_offset : Z) : res serr Z :=
  cs ← cluster_size h;
  n ← l2_entries h;
  c ← rdiv guest_offset cs;
  l2_index ← rrem c n;
  b ← rmul l2_index 8;
  radd l2_table_offset b.

Definition resolve_cluster (guest_offset : Z) : qm ClusterLoc :=
  q ← get;
  let h := q_header q in
  l1_index ← lift (l1_index_of h guest_offset);
  if len (q_l1 q) <=? l1_index then mret Unallocated
  else
    let l2_table_offset := getb (q_l1 q) l1_index .& L2_OFFSET_MASK in
    if l2_table_offset =? 0 then mret Unallocated
    else
      off ← lift (l2_entry_off h l2_table_offset guest_offset);
      l2_entry ← read_be off 8;
      if tst l2_entry QCOW_OFLAG_ZERO then mret Zeroed
      else
        let host_cluster_offset := l2_entry .& L2_OFFSET_MASK in
        if host_cluster_offset =? 0 then mret Unallocated
        else
          cs ← lift (cluster_size h);
          host ← lift (radd host_cluster_offset (guest_offset .& (cs - 1)));
          mret (Mapped host).

(** ** Refcounts *)

(** [rt_entries()] over the live geometry. *)
Definition rt_entries (q : qcow) : res serr Z :=
  cs ← cluster_size (q_header q);
  bytes ← rmul (q_rt_clusters q) cs;
  Ok (bytes / 8).

Definition refcount_block_offset (cluster_index : Z) : qm (option Z) :=
  q ← get;
  rb_entries ← lift (refcount_block_entries (q_header q));
  rt_index ← lift (rdiv cluster_index rb_entries);
  n ← lift (rt_entries q);
  if n <=? rt_index then mret None
  else
    b ← lift (rmul rt_index 8);
    off ← lift (radd (q_rt_offset q) b);
    v ← read_be off 8;
    let block_offset := v .& REFT_OFFSET_MASK in
    mret (if block_offset =? 0 then None else Some block_offset).

(** Widths of whole bytes are read and written alike. *)
Definition whole_bytes (bits : Z) : bool := (bits =? 8) || (bits =? 16) || (bits =? 32) || (bits =? 64).

Definition read_refcount (cluster_index : Z) : qm Z :=
  block ← refcount_block_offset cluster_index;
  match block with
  | None => mret 0
  | Some block_offset =>
      h ← header;
      n ← lift (refcount_block_entries h);
      block_index ← lift (rrem cluster_index n);
      bits ← lift (refcount_bits h);
      if (bits =? 1) || (bits =? 2) || (bits =? 4) then
        let per_byte := 8 / bits in
        off ← lift (radd block_offset (block_index / per_byte));
        b ← read_be off 1;
        let within := block_index mod per_byte in
        let shift := (per_byte - 1 - within) * bits in
        let mask := (1 .<< bits) - 1 in
        mret ((b .>> shift) .& mask)
      else if whole_bytes bits then
        let w := bits / 8 in
        b ← lift (rmul block_index w);
        off ← lift (radd block_offset b);
        read_be off w
      else fail (RefcountWidth bits)
  end.

Definition write_refcount (cluster_index value : Z) : qm unit :=
  block ← refcount_block_offset cluster_index;
  match block with
  | None => fail (NoRefcountBlock cluster_index)
  | Some block_offset =>
      h ← header;
      n ← lift (refcount_block_entries h);
      block_index ← lift (rrem cluster_index n);
      bits ← lift (refcount_bits h);
      if whole_bytes bits then
        let w := bits / 8 in
        b ← lift (rmul block_index w);
        off ← lift (radd block_offset b);
        q_write off (be_bytes (Z.to_nat w) value)
      else fail (RefcountWidth bits)
  end.

(** ** Allocation *)

(** The arena's block count: [nb] grows until the blocks cover the arena and
    the cluster behind it; the result is the block count with its top slot. *)
Fixpoint arena_blocks (fuel : nat) (rbe blk_start first_slot nb : Z) : res serr (Z * Z) :=
  arena_end ← radd blk_start nb;
  top_slot ← rdiv arena_end rbe;
  d ← rsub top_slot first_slot;
  needed ← radd d 1;
  if needed <=? nb then Ok (nb, top_slot)
  else match fuel with
       | O => Panic
       | S fuel => arena_blocks fuel rbe blk_start first_slot needed
       end.

(** [buf[off..off + bs.len()].copy_from_slice(bs)] *)
Definition put_slice (off : Z) (bs buf : list Z) : res serr (list Z) :=
  if off + len bs <=? len buf then Ok (splice buf off bs) else Panic.

Definition rfold {A X} (l : list X) (f : X -> A -> res serr A) (a : A) : res serr A :=
  fold_left (fun r x => a ← r; f x a) l (Ok a).

(** The new table: the old bytes, then a pointer to each new block. *)
Definition grown_table (cs new_clusters blk_start first_slot top_slot : Z) (old : list Z) : res serr (list Z) :=
  n ← rmul new_clusters cs;
  table ← put_slice 0 old (zeros n);
  rfold (seqZ first_slot (top_slot - first_slot + 1)) (fun s table =>
    blk_off ← rmul (blk_start + (s - first_slot)) cs;
    put_slice (s * 8) (be_bytes 8 blk_off) table) table.

(** The new blocks: refcount one for every cluster of the arena. *)
Definition grown_blocks (cs rbe bits nb first_slot arena_start arena_end : Z) : res serr (list Z) :=
  n ← rmul nb cs;
  rfold (seqZ arena_start (arena_end - arena_start)) (fun cluster blocks =>
    ordinal ← rsub (cluster / rbe) first_slot;
    let within := cluster mod rbe in
    base ← rmul ordinal cs;
    if whole_bytes bits then
      let w := bits / 8 in
      put_slice (base + within * w) (be_bytes (Z.to_nat w) 1) blocks
    else Err (RefcountWidth bits)) (zeros n).

Definition grow_refcount_table (rt_index : Z) : qm unit :=
  q ← get;
  let h := q_header q in
  cs ← lift (cluster_size h);
  rbe ← lift (refcount_block_entries h);
  let old_off := q_rt_offset q in
  let old_clusters := q_rt_clusters q in
  old_entries ← lift (rt_entries q);
  if (old_clusters =? 0) || (old_off =? 0) then fail NoRefcountTable
  else
    new_clusters ← lift (refcount_table_clusters_for h rt_index);
    if new_clusters <=? old_clusters then mret tt
    else
      nbytes ← lift (rmul new_clusters cs);
      let new_entries := nbytes / 8 in
      end_ ← q_end;
      let arena_start := div_ceil end_ cs in
      blk_start ← lift (radd arena_start new_clusters);
      let first_slot := old_entries in
      nb_top ← lift (arena_blocks 64 rbe blk_start first_slot 1);
      let '(nb, top_slot) := nb_top in
      arena_end ← lift (radd blk_start nb);
      if new_entries <=? top_slot then fail TableTooSmall
      else
        old_bytes ← lift (rmul old_clusters cs);
        old ← q_read old_off old_bytes;
        table ← lift (grown_table cs new_clusters blk_start first_slot top_slot old);
        bits ← lift (refcount_bits h);
        blocks ← lift (grown_blocks cs rbe bits nb first_slot arena_start arena_end);
        new_off ← lift (rmul arena_start cs);
        q_write new_off table ;;
        q_write (new_off + len table) blocks ;;
        set_rt new_off (wrap 32 new_clusters) ;;
        q_write 48 (be_bytes 8 new_off) ;;
        q_write 56 (be_bytes 4 new_clusters) ;;
        let old_first := old_off / cs in
        mfor (seqZ old_first old_clusters) (fun i =>
          rc ← read_refcount i;
          write_refcount i (Z.max 0 (rc - 1))).

(** The second half of [allocate_refcount_block], with the table large enough. *)
Definition publish_refcount_block (h : QcowHeader) (rb_entries rt_index cluster_index : Z) : qm Z :=
  present ← refcount_block_offset cluster_index;
  match present with
  | Some off => mret off
  | None =>
      cs ← lift (cluster_size h);
      end_ ← q_end;
      block_off ← lift (next_multiple_of end_ cs);
      new_end ← lift (radd block_off cs);
      q_set_len new_end ;;
      let block_self_index := block_off / cs in
      if negb (block_self_index / rb_entries =? rt_index) then fail SelfCoverage
      else
        q ← get;
        b ← lift (rmul rt_index 8);
        off ← lift (radd (q_rt_offset q) b);
        q_write off (be_bytes 8 block_off) ;;
        write_refcount block_self_index 1 ;;
        mret block_off
  end.

Definition allocate_refcount_block (cluster_index : Z) : qm Z :=
  q ← get;
  let h := q_header q in
  rb_entries ← lift (refcount_block_entries h);
  rt_index ← lift (rdiv cluster_index rb_entries);
  n ← lift (rt_entries q);
  (if n <=? rt_index then grow_refcount_table rt_index else mret tt) ;;
  publish_refcount_block h rb_entries rt_index cluster_index.

(** The loop of [allocate_host_cluster]. *)
Fixpoint alloc_loop (fuel : nat) (cs : Z) : qm Z :=
  end_ ← q_end;
  offset ← lift (next_multiple_of end_ cs);
  let index := offset / cs in
  block ← refcount_block_offset index;
  match block with
  | Some _ =>
      new_end ← lift (radd offset cs);
      q_set_len new_end ;;
      write_refcount index 1 ;;
      mret offset
  | None =>
      match fuel with
      | O => panic
      | S fuel => allocate_refcount_block index ;; alloc_loop fuel cs
      end
  end.

Definition allocate_host_cluster : qm Z :=
  h ← header;
  cs ← lift (cluster_size h);
  alloc_loop 3 cs.

Definition allocate_l2_table (l1_index : Z) : qm Z :=
  l2_off ← allocate_host_cluster;
  let entry := l2_off .| QCOW_OFLAG_COPIED in
  h ← header;
  b ← lift (rmul l1_index 8);
  off ← lift (radd (h_l1_table_offset h) b);
  q_write off (be_bytes 8 entry) ;;
  set_l1 l1_index entry ;;
  mret l2_off.

(** The copy-on-write seeding of a fresh data cluster. *)
Definition copy_from_backing (backing : option B) (unallocated : bool) (cs guest_offset data_off : Z) : qm unit :=
  match backing with
  | Some backing =>
      if unallocated then
        let cluster_start := guest_offset .&~ (cs - 1) in
        let '(tmp, r) := read_at backing cluster_start (zeros cs) in
        _ ← lift r;
        q_write data_off tmp
      else mret tt
  | None => mret tt
  end.

(** The second half of [allocate_data_cluster], with the L2 table in place. *)
Definition fill_data_cluster (h : QcowHeader) (backing : option B) (cs guest_offset l2_table_offset : Z) : qm Z :=
  off ← lift (l2_entry_off h l2_table_offset guest_offset);
  old ← read_be off 8;
  let was_zero := tst old QCOW_OFLAG_ZERO in
  let had_data := tst old L2_OFFSET_MASK in
  data_off ← allocate_host_cluster;
  copy_from_backing backing (negb was_zero && negb had_data) cs guest_offset data_off ;;
  q_write off (be_bytes 8 (data_off .| QCOW_OFLAG_COPIED)) ;;
  mret data_off.

Definition allocate_data_cluster (guest_offset : Z) : qm Z :=
  q ← get;
  let h := q_header q in
  cs ← lift (cluster_size h);
  l1_index ← lift (l1_index_of h guest_offset);
  if len (q_l1 q) <=? l1_index then fail (BeyondL1 guest_offset)
  else
    let existing := getb (q_l1 q) l1_index .& L2_OFFSET_MASK in
    l2_table_offset ← (if existing =? 0 then allocate_l2_table l1_index else mret existing);
    fill_data_cluster h (q_backing q) cs guest_offset l2_table_offset.

Definition discard_cluster (guest_offset : Z) : qm unit :=
  q ← get;
  let h := q_header q in
  cs ← lift (cluster_size h);
  l1_index ← lift (l1_index_of h guest_offset);
  if len (q_l1 q) <=? l1_index then mret tt
  else
    let l2_table_offset := getb (q_l1 q) l1_index .& L2_OFFSET_MASK in
    if l2_table_offset =? 0 then mret tt
    else
      off ← lift (l2_entry_off h l2_table_offset guest_offset);
      entry ← read_be off 8;
      let data_off := entry .& L2_OFFSET_MASK in
      if tst entry QCOW_OFLAG_ZERO || (data_off =? 0) then mret tt
      else
        let data_index := data_off / cs in
        rc ← read_refcount data_index;
        write_refcount data_index (Z.max 0 (rc - 1)) ;;
        q_write off (be_bytes 8 QCOW_OFLAG_ZERO).

(** ** The consistency check *)

(** The [bump] closure of [compute_expected_refcounts]. *)
Definition bump (cs host_offset : Z) (expected : list Z) : res serr (list Z) :=
  let idx := host_offset / cs in
  if negb (host_offset mod cs =? 0) then Err (Misaligned host_offset)
  else if len expected <=? idx then Err (PastEof host_offset)
  else Ok (<[Z.to_nat idx := getb expected idx + 1]> expected).

(** The data cluster an L2 entry owns. *)
Definition l2_data (l2_entry : Z) : option Z :=
  if tst l2_entry QCOW_OFLAG_ZERO then None
  else let data_off := l2_entry .& L2_OFFSET_MASK in
       if data_off =? 0 then None else Some data_off.

Definition compute_expected_refcounts : qm (list Z) :=
  q ← get;
  let h := q_header q in
  if negb (h_nb_snapshots h =? 0) then fail HasSnapshots
  else
    cs ← lift (cluster_size h);
    file_len ← q_end;
    let total_clusters := div_ceil file_len cs in
    expected ← lift (bump cs 0 (zeros total_clusters));
    let l1_bytes := h_l1_size h * 8 in
    expected ← mfold (seqZ 0 (div_ceil l1_bytes cs)) (fun c expected =>
      off ← lift (radd (h_l1_table_offset h) (c * cs));
      lift (bump cs off expected)) expected;
    n ← lift (l2_entries h);
    expected ← mfold (q_l1 q) (fun l1_entry expected =>
      let l2_off := l1_entry .& L2_OFFSET_MASK in
      if l2_off =? 0 then mret expected
      else
        expected ← lift (bump cs l2_off expected);
        mfold (seqZ 0 n) (fun i expected =>
          l2_entry ← read_be (l2_off + i * 8) 8;
          match l2_data l2_entry with
          | None => mret expected
          | Some data_off => lift (bump cs data_off expected)
          end) expected) expected;
    expected ← mfold (seqZ 0 (q_rt_clusters q)) (fun c expected =>
      off ← lift (radd (q_rt_offset q) (c * cs));
      lift (bump cs off expected)) expected;
    m ← lift (rt_entries q);
    mfold (seqZ 0 m) (fun i expected =>
      off ← lift (radd (q_rt_offset q) (i * 8));
      v ← read_be off 8;
      let block_off := v .& REFT_OFFSET_MASK in
      if block_off =? 0 then mret expected else lift (bump cs block_off expected)) expected.

Definition verify_copied (entry host_off : Z) : qm unit :=
  h ← header;
  cs ← lift (cluster_size h);
  refcount ← read_refcount (host_off / cs);
  let copied := tst entry QCOW_OFLAG_COPIED in
  if negb (eqb copied (refcount =? 1)) then fail (CopiedFlag entry refcount) else mret tt.

Definition check_copied_flags : qm unit :=
  q ← get;
  n ← lift (l2_entries (q_header q));
  mfor (q_l1 q) (fun l1_entry =>
    let l2_off := l1_entry .& L2_OFFSET_MASK in
    if l2_off =? 0 then mret tt
    else
      verify_copied l1_entry l2_off ;;
      mfor (seqZ 0 n) (fun i =>
        l2_entry ← read_be (l2_off + i * 8) 8;
        match l2_data l2_entry with
        | None => mret tt
        | Some data_off => verify_copied l2_entry data_off
        end)).

Definition check_consistency : qm unit :=
  expected ← compute_expected_refcounts;
  mfor (imap (fun idx want => (Z.of_nat idx, want)) expected) (fun '(idx, want) =>
    got ← read_refcount idx;
    if negb (got =? want) then fail (Mismatch idx got want) else mret tt) ;;
  check_copied_flags.

(** ** The trait's operations *)

(** The loop of [read_at]; at least one byte per round. *)
Fixpoint read_loop (fuel : nat) (q : qcow) (cs : Z) (buf : list Z) (total_read remaining current_offset : Z) :
    list Z * res serr Z :=
  if negb (0 <? remaining) then (buf, Ok total_read)
  else match fuel with
  | O => (buf, Panic)
  | S fuel =>
      let in_cluster := current_offset mod cs in
      let chunk := Z.min remaining (cs - in_cluster) in
      let next dst := read_loop fuel q cs (splice buf total_read dst) (total_read + chunk) (remaining - chunk) (current_offset + chunk) in
      match (resolve_cluster current_offset q).2 with
      | Ok (Mapped host_offset) =>
          match (q_read host_offset chunk q).2 with
          | Ok dst => next dst
          | Err e => (buf, Err e)
          | Panic => (buf, Panic)
          end
      | Ok Zeroed => next (zeros chunk)
      | Ok Unallocated =>
          match q_backing q with
          | Some backing =>
              let '(dst, r) := read_at backing current_offset (zeros chunk) in
              match r with
              | Ok _ => next dst
              | Err e => (splice buf total_read dst, Err e)
              | Panic => (buf, Panic)
              end
          | None => next (zeros chunk)
          end
      | Err e => (buf, Err e)
      | Panic => (buf, Panic)
      end
  end.

Definition qcow_read_at (q : qcow) (offset : Z) (buf : list Z) : list Z * res serr Z :=
  if h_size (q_header q) <=? offset then (buf, Ok 0)
  else match cluster_size (q_header q) with
       | Ok cs =>
           let remaining := Z.min (len buf) (h_size (q_header q) - offset) in
           read_loop (Z.to_nat remaining) q cs buf 0 remaining offset
       | Err e => (buf, Err e)
       | Panic => (buf, Panic)
       end.

(** Pass 1 of [write_at]: one entry (host offset, start in the buffer, length)
    per cluster, allocating where the cluster is not mapped. *)
Fixpoint plan_loop (fuel : nat) (cs writable_len done : Z) (current_offset : Z) (plan : list (Z * Z * Z)) :
    qm (list (Z * Z * Z)) :=
  if negb (done <? writable_len) then mret plan
  else match fuel with
  | O => panic
  | S fuel =>
      let in_cluster := current_offset mod cs in
      let chunk := Z.min (writable_len - done) (cs - in_cluster) in
      loc ← resolve_cluster current_offset;
      host ← (match loc with
              | Mapped host_offset => mret host_offset
              | _ => data_off ← allocate_data_cluster current_offset;
                     mret (data_off + current_offset .& (cs - 1))
              end);
      plan_loop fuel cs writable_len (done + chunk) (current_offset + chunk) (plan ++ [(host, done, chunk)])
  end.

Definition qcow_write_at (offset : Z) (buf : list Z) : qm Z :=
  q ← get;
  let h := q_header q in
  if negb (q_writable q) then fail ReadOnly
  else if h_size h <=? offset then mret 0
  else
    cs ← lift (cluster_size h);
    let writable_len := Z.min (len buf) (h_size h - offset) in
    plan ← plan_loop (Z.to_nat writable_len) cs writable_len 0 offset [];
    mfor plan (fun '(host_offset, buf_start, n) => q_write host_offset (sub buf buf_start n)) ;;
    mret writable_len.

(** The loop of [trim]. *)
Fixpoint discard_loop (fuel : nat) (cs g end_ : Z) : qm unit :=
  next ← lift (radd g cs);
  if negb (next <=? end_) then mret tt
  else match fuel with
       | O => panic
       | S fuel => discard_cluster g ;; discard_loop fuel cs next end_
       end.

Definition qcow_trim (offset n : Z) : qm unit :=
  q ← get;
  let h := q_header q in
  if negb (q_writable q) || (n =? 0) || (h_size h <=? offset) then mret tt
  else
    cs ← lift (cluster_size h);
    let end_ := Z.min (saturating_add offset n) (h_size h) in
    g ← lift (rmul (div_ceil offset cs) cs);
    discard_loop (Z.to_nat (n / cs)) cs g end_.

#[export] Instance Qcow_backend : StorageBackend qcow := {
  read_at := qcow_read_at;
  write_at := qcow_write_at;
  flush := mret tt;
  trim := qcow_trim;
  capacity q := h_size (q_header q);
  is_readonly q := negb (q_writable q);
}.

(** ** Opening *)

(** [open_backing] up to the name; [open_named] resolves the path and opens the
    image found there, read-only. *)
Definition open_backing (open_named : list Z -> res serr B) (file : list Z) (h : QcowHeader) : res serr (option B) :=
  if (h_backing_file_offset h =? 0) || (h_backing_file_size h =? 0) then Ok None
  else if OFF_MAX <? h_backing_file_offset h then Err SeekInvalid
  else if len file <? h_backing_file_offset h + h_backing_file_size h then Err UnexpectedEof
  else
    b ← open_named (sub file (h_backing_file_offset h) (h_backing_file_size h));
    Ok (Some b).

(** The L1 entries are read one after the other from the table's start. *)
Definition read_l1 (file : list Z) (h : QcowHeader) : res serr (list Z) :=
  if OFF_MAX <? h_l1_table_offset h then Err SeekInvalid
  else if len file <? h_l1_table_offset h + h_l1_size h * 8 then
    (if h_l1_size h =? 0 then Ok [] else Err UnexpectedEof)
  else Ok ((fun i => be_value (sub file (h_l1_table_offset h + i * 8) 8)) <$> seqZ 0 (h_l1_size h)).

Definition from_file (open_named : list Z -> res serr B) (file : list Z) (writable : bool) : res serr qcow :=
  let n := Z.min 104 (len file) in
  if n <? 72 then Err HeaderTooShort
  else
    h ← from_bytes (sub file 0 n ++ zeros (104 - n));
    l1_table ← read_l1 file h;
    backing ← open_backing open_named file h;
    Ok (mk_QcowBackend file h (h_refcount_table_offset h) (h_refcount_table_clusters h) l1_table writable backing).
End Qcow.

(** ** Creating *)

(** The bytes [create] writes; [backing] is the backing path's bytes. *)
Definition create (virtual_size : Z) (backing : option (list Z)) : res serr (list Z) :=
  let CLUSTER_BITS := 16 in
  let cluster_size := 1 .<< CLUSTER_BITS in
  let l2_entries := cluster_size / 8 in
  let bytes_per_l1 := l2_entries * cluster_size in
  let l1_size := Z.max (div_ceil virtual_size bytes_per_l1) 1 in
  let l1_clusters := div_ceil (l1_size * 8) cluster_size in
  let reftable_cluster := 1 + l1_clusters in
  let refblock_cluster := reftable_cluster + 1 in
  let metadata_clusters := refblock_cluster + 1 in
  let refcount_block_entries := cluster_size * 8 / 16 in
  if refcount_block_entries <? metadata_clusters then Err TooMuchMetadata
  else
    let l1_offset := cluster_size in
    let reftable_offset := reftable_cluster * cluster_size in
    let refblock_offset := refblock_cluster * cluster_size in
    let img := zeros (metadata_clusters * cluster_size) in
    let img := splice img 0 (be_bytes 4 QCOW2_MAGIC) in
    let img := splice img 4 (be_bytes 4 3) in
    img ← (match backing with
           | Some bytes =>
               if cluster_size <? 0x200 + len bytes then Err BackingPathTooLong
               else
                 let img := splice img 8 (be_bytes 8 0x200) in
                 let img := splice img 16 (be_bytes 4 (len bytes)) in
                 Ok (splice img 0x200 bytes)
           | None => Ok img
           end);
    let img := splice img 20 (be_bytes 4 CLUSTER_BITS) in
    let img := splice img 24 (be_bytes 8 virtual_size) in
    let img := splice img 36 (be_bytes 4 l1_size) in
    let img := splice img 40 (be_bytes 8 l1_offset) in
    let img := splice img 48 (be_bytes 8 reftable_offset) in
    let img := splice img 56 (be_bytes 4 1) in
    let img := splice img 96 (be_bytes 4 4) in
    let img := splice img 100 (be_bytes 4 104) in
    let img := splice img reftable_offset (be_bytes 8 refblock_offset) in
    Ok (fold_left (fun img c => splice img (refblock_offset + c * 2) (be_bytes 2 1)) (seqZ 0 metadata_clusters) img).
