(* ===== verification/QcowInv.v ===== *)
(** * The invariant of a qcow2 image

    Every cluster of the image file has a role: the header, a piece of the L1
    table or of the refcount table, a refcount block, an L2 table, the data of
    one guest cluster, or none.  [Image q rho] says that the pointers of the
    image and the roles [rho] agree in both directions, so no cluster serves
    two purposes; [Counts q n] says what the stored refcounts are.  The image
    is consistent when the refcount is one exactly on the clusters in use.

    The second half gives the elementary steps every operation is made of
    (extend the file, set a refcount, publish a refcount block, link an L2
    table, link and unlink a data cluster, overwrite data), each with its
    effect on the two predicates and on the bytes the guest sees. *)

From Stdlib Require Import ZArith Lia Bool.
From stdpp Require Import base decidable numbers list.
From S2P Require Import Prelude Rust Storage Qcow.

(** ** Geometry *)

Definition csz (h : QcowHeader) : Z := 2 ^ h_cluster_bits h.
Definition l2n (h : QcowHeader) : Z := csz h / 8.
(** bytes of a refcount, and refcounts in a block *)
Definition wid (h : QcowHeader) : Z := 2 ^ (h_refcount_order h - 3).
Definition rbn (h : QcowHeader) : Z := csz h / wid h.
Definition l1_clusters (h : QcowHeader) : Z := div_ceil (h_l1_size h * 8) (csz h).

(** A header this code can write through: the cluster sizes of the format
    (512 bytes to 2 MiB), refcounts of whole bytes, an L1 table that covers
    the virtual size. *)
Record geometry (h : QcowHeader) : Prop := {
  geo_bits : 9 <= h_cluster_bits h <= 21;
  geo_order : 3 <= h_refcount_order h <= 6;
  geo_size : 0 <= h_size h < 2 ^ 62;
  geo_l1 : 0 <= h_l1_size h < 2 ^ 32;
  geo_cover : h_size h <= h_l1_size h * l2n h * csz h;
  geo_l1_off : 0 <= h_l1_table_offset h < 2 ^ 62;
  geo_snap : h_nb_snapshots h = 0;
}.

Section Geometry.
Context (h : QcowHeader) (G : geometry h).

Lemma csz_range : 512 <= csz h <= 2 ^ 21.
Proof.
  unfold csz. destruct (geo_bits h G). split.
  - change 512 with (2 ^ 9). apply Z.pow_le_mono_r; lia.
  - apply Z.pow_le_mono_r; lia.
Qed.

Lemma csz_l2n : csz h = 8 * l2n h /\ 64 <= l2n h <= 2 ^ 18.
Proof.
  unfold l2n, csz. destruct (geo_bits h G).
  replace (h_cluster_bits h) with (3 + (h_cluster_bits h - 3)) by lia.
  rewrite Z.pow_add_r by lia. change (2 ^ 3) with 8. rewrite Z.mul_comm, Z.div_mul by lia.
  split; [lia|]. split; [change 64 with (2 ^ 6)|]; apply Z.pow_le_mono_r; lia.
Qed.

Lemma wid_cases : wid h = 1 \/ wid h = 2 \/ wid h = 4 \/ wid h = 8.
Proof.
  unfold wid. destruct (geo_order h G).
  assert (h_refcount_order h - 3 = 0 \/ h_refcount_order h - 3 = 1 \/
          h_refcount_order h - 3 = 2 \/ h_refcount_order h - 3 = 3) as [E|[E|[E|E]]] by lia;
    rewrite E; cbn; auto.
Qed.

Lemma csz_rbn : csz h = wid h * rbn h /\ 64 <= rbn h <= 2 ^ 21.
Proof.
  pose proof csz_range. unfold rbn, csz, wid in *. destruct (geo_bits h G), (geo_order h G).
  set (a := h_refcount_order h - 3) in *. set (b := h_cluster_bits h) in *.
  assert (E : 2 ^ b = 2 ^ a * 2 ^ (b - a)) by (rewrite <- Z.pow_add_r by lia; f_equal; lia).
  assert (D : 2 ^ b / 2 ^ a = 2 ^ (b - a)) by (rewrite E, Z.mul_comm; apply Z.div_mul, Z.pow_nonzero; lia).
  rewrite D. split; [lia|]. split; [change 64 with (2 ^ 6)|]; apply Z.pow_le_mono_r; lia.
Qed.

Lemma cluster_size_ok : cluster_size h = Ok (csz h).
Proof.
  unfold cluster_size, csz. destruct (geo_bits h G). rewrite (proj2 (Z.ltb_lt _ _)) by lia.
  by rewrite Z.shiftl_1_l.
Qed.

Lemma l2_entries_ok : l2_entries h = Ok (l2n h).
Proof. unfold l2_entries. by rewrite cluster_size_ok. Qed.

Lemma refcount_bits_ok : refcount_bits h = Ok (8 * wid h).
Proof.
  unfold refcount_bits, wid. destruct (geo_order h G). rewrite (proj2 (Z.ltb_lt _ _)) by lia.
  rewrite Z.shiftl_1_l. f_equal. change 8 with (2 ^ 3). rewrite <- Z.pow_add_r by lia. f_equal. lia.
Qed.

Lemma whole_bytes_ok : whole_bytes (8 * wid h) = true /\
  ((8 * wid h =? 1) || (8 * wid h =? 2) || (8 * wid h =? 4)) = false /\ 8 * wid h / 8 = wid h.
Proof. by destruct wid_cases as [-> | [-> | [-> | ->]]]. Qed.

Lemma rmul_ok {E} a b : a * b < 2 ^ 64 -> @rmul E a b = Ok (a * b).
Proof. intros. unfold rmul. by rewrite (proj2 (Z.ltb_lt _ _)). Qed.

Lemma radd_ok {E} a b : a + b < 2 ^ 64 -> @radd E a b = Ok (a + b).
Proof. intros. unfold radd. by rewrite (proj2 (Z.ltb_lt _ _)). Qed.

Lemma rdiv_ok {E} a b : b <> 0 -> @rdiv E a b = Ok (a / b).
Proof. intros. unfold rdiv. by rewrite (proj2 (Z.eqb_neq _ _)). Qed.

Lemma rrem_ok {E} a b : b <> 0 -> @rrem E a b = Ok (a mod b).
Proof. intros. unfold rrem. by rewrite (proj2 (Z.eqb_neq _ _)). Qed.

Lemma refcount_block_entries_ok : refcount_block_entries h = Ok (rbn h).
Proof.
  unfold refcount_block_entries. pose proof csz_range. pose proof csz_rbn as [E [? ?]]. pose proof wid_cases.
  rewrite cluster_size_ok. cbn. rewrite rmul_ok by lia. cbn. rewrite refcount_bits_ok. cbn.
  rewrite rdiv_ok by lia. f_equal. rewrite E.
  replace (wid h * rbn h * 8) with (rbn h * (8 * wid h)) by lia. apply Z.div_mul. lia.
Qed.

Lemma l1_index_of_ok g : l1_index_of h g = Ok (g / csz h / l2n h).
Proof.
  unfold l1_index_of. pose proof csz_range. pose proof csz_l2n as [? [? ?]].
  rewrite cluster_size_ok. cbn. rewrite l2_entries_ok. cbn. rewrite rmul_ok by nia. cbn.
  rewrite rdiv_ok by nia. f_equal. by rewrite Z.div_div, Z.mul_comm by lia.
Qed.

Lemma l2_entry_off_ok t g :
  0 <= g -> 0 <= t < 2 ^ 63 -> l2_entry_off h t g = Ok (t + 8 * ((g / csz h) mod l2n h)).
Proof.
  intros. unfold l2_entry_off. pose proof csz_range. pose proof csz_l2n as [? [? ?]].
  rewrite cluster_size_ok. cbn. rewrite l2_entries_ok. cbn. rewrite rdiv_ok by lia. cbn.
  rewrite rrem_ok by lia. cbn. pose proof (Z.mod_pos_bound (g / csz h) (l2n h) ltac:(lia)).
  rewrite rmul_ok by lia. cbn. rewrite radd_ok by lia. f_equal. lia.
Qed.
End Geometry.

(** ** The image as pointers, refcounts and bytes *)

Inductive role :=
  | Free
  | RHeader
  | RL1 (k : Z)
  | RRT (k : Z)
  | RRB (slot : Z)
  | RL2 (i : Z)
  | RData (g : Z).

#[export] Instance role_eq_dec : EqDecision role.
Proof. solve_decision. Defined.

Section Image.
Context {B : Type} {SB : StorageBackend B} {DB : Disk B}.
Abbreviation qcow := (QcowBackend B).

Abbreviation cs q := (csz (q_header q)).

(** The L2 table of an L1 slot (0: none), and the L2 entry of guest cluster [g]. *)
Definition l1_off (q : qcow) (i : Z) : Z := getb (q_l1 q) i .& L2_OFFSET_MASK.
Definition l2_at (q : qcow) (g : Z) : Z :=
  let t := l1_off q (g / l2n (q_header q)) in
  if t =? 0 then 0 else be_at (q_file q) (t + 8 * (g mod l2n (q_header q))) 8.

(** The refcount table: its entries, and the block of a slot (0: none). *)
Definition rtn (q : qcow) : Z := q_rt_clusters q * l2n (q_header q).
Definition rt_ptr (q : qcow) (s : Z) : Z := be_at (q_file q) (q_rt_offset q + 8 * s) 8 .& REFT_OFFSET_MASK.

(** The block that counts cluster [c] (0: none), and its stored refcount. *)
Definition block_of (q : qcow) (c : Z) : Z :=
  let s := c / rbn (q_header q) in if rtn q <=? s then 0 else rt_ptr q s.
Definition refcount (q : qcow) (c : Z) : Z :=
  let b := block_of q c in
  if b =? 0 then 0
  else be_at (q_file q) (b + wid (q_header q) * (c mod rbn (q_header q))) (wid (q_header q)).

(** The byte the guest sees at offset [x]. *)
Definition backing_byte (q : qcow) (x : Z) : Z :=
  match q_backing q with Some b => if x <? capacity b then byte_at b x else 0 | None => 0 end.
Definition content (q : qcow) (x : Z) : Z :=
  let e := l2_at q (x / cs q) in
  if tst e QCOW_OFLAG_ZERO then 0
  else let o := e .& L2_OFFSET_MASK in
       if o =? 0 then backing_byte q x else getb (q_file q) (o + x mod cs q).

(** Which cluster the image's pointers give each role. *)
Definition refs (q : qcow) (r : role) (c : Z) : Prop :=
  let h := q_header q in
  match r with
  | Free => False
  | RHeader => c = 0
  | RL1 k => 0 <= k < l1_clusters h /\ c * cs q = h_l1_table_offset h + k * cs q
  | RRT k => 0 <= k < q_rt_clusters q /\ c * cs q = q_rt_offset q + k * cs q
  | RRB s => 0 <= s < rtn q /\ 0 < c /\ rt_ptr q s = c * cs q
  | RL2 i => 0 <= i < h_l1_size h /\ 0 < c /\ l1_off q i = c * cs q
  | RData g => 0 <= g < h_l1_size h * l2n h /\ 0 < c /\ l2_data (l2_at q g) = Some (c * cs q)
  end.

Definition inside (q : qcow) (c : Z) : Prop := 0 <= c /\ (c + 1) * cs q <= len (q_file q).

Record Roles (q : qcow) (rho : Z -> role) : Prop := {
  ro_refs : forall r c, refs q r c -> rho c = r;
  ro_used : forall c, rho c <> Free -> refs q (rho c) c /\ inside q c;
}.

(** The header as a reader of the file parses it now. *)
Definition live_header (q : qcow) : QcowHeader :=
  let h := q_header q in
  mk_QcowHeader (h_magic h) (h_version h) (h_backing_file_offset h) (h_backing_file_size h)
    (h_cluster_bits h) (h_size h) (h_crypt_method h) (h_l1_size h) (h_l1_table_offset h)
    (q_rt_offset q) (q_rt_clusters q) (h_nb_snapshots h) (h_snapshots_offset h) (h_refcount_order h).

Record Shape (q : qcow) : Prop := {
  sh_geo : geometry (q_header q);
  sh_rt : 0 < q_rt_clusters q < 2 ^ 32 /\ 0 < q_rt_offset q;
  sh_rt_old : 0 <= h_refcount_table_clusters (q_header q) <= q_rt_clusters q;
  sh_rt_al : q_rt_offset q mod cs q = 0;
  sh_l1_al : h_l1_table_offset (q_header q) mod cs q = 0;
  sh_l1_len : len (q_l1 q) = h_l1_size (q_header q);
  sh_l1_ptr : forall i, 0 <= i < h_l1_size (q_header q) ->
    l1_off q i mod cs q = 0 /\ (l1_off q i <> 0 -> Z.testbit (getb (q_l1 q) i) 63 = true);
  sh_l2_ptr : forall g o, 0 <= g < h_l1_size (q_header q) * l2n (q_header q) ->
    l2_data (l2_at q g) = Some o -> o mod cs q = 0 /\ Z.testbit (l2_at q g) 63 = true;
  sh_rt_ptr : forall s, 0 <= s < rtn q -> rt_ptr q s mod cs q = 0;
  sh_l1_disk : forall i, 0 <= i < h_l1_size (q_header q) ->
    be_at (q_file q) (h_l1_table_offset (q_header q) + 8 * i) 8 = getb (q_l1 q) i;
  sh_head : from_bytes (sub (q_file q) 0 104) = Ok (live_header q);
  sh_backing : match q_backing q with Some b => disk_ok b | None => True end;
}.

Definition Image (q : qcow) (rho : Z -> role) : Prop := Shape q /\ Roles q rho.

Definition Counts (q : qcow) (n : Z -> Z) : Prop := forall c, 0 <= c -> refcount q c = n c.

(** Refcount one exactly on the clusters in use. *)
Definition ones (rho : Z -> role) (c : Z) : Z := if decide (rho c = Free) then 0 else 1.

Definition Consistent (q : qcow) : Prop := exists rho, Image q rho /\ Counts q (ones rho).

Definition upd {A} (f : Z -> A) (c : Z) (a : A) (c' : Z) : A := if c' =? c then a else f c'.

Lemma upd_same {A} (f : Z -> A) c a : upd f c a c = a.
Proof. unfold upd. by rewrite Z.eqb_refl. Qed.
Lemma upd_other {A} (f : Z -> A) c a c' : c' <> c -> upd f c a c' = f c'.
Proof. intros. unfold upd. by rewrite (proj2 (Z.eqb_neq _ _)). Qed.

(** ** Pointers lie in the clusters their roles name *)

(** The bytes of cluster [c] are the same in [q'] as in [q]. *)
Definition agree (q q' : qcow) (c : Z) : Prop :=
  forall k, 0 <= k < cs q -> getb (q_file q') (c * cs q + k) = getb (q_file q) (c * cs q + k).

Lemma agree_be q q' c off n :
  agree q q' c -> 0 <= off -> 0 <= n -> off + n <= cs q ->
  be_at (q_file q') (c * cs q + off) n = be_at (q_file q) (c * cs q + off) n.
Proof. intros Ha H0 H1 H2. apply be_at_ext. intros k Hk. rewrite <- !Z.add_assoc. apply Ha. lia. Qed.

(** A multiple of the cluster size, as a cluster. *)
Lemma aligned_cluster a n : n <> 0 -> a mod n = 0 -> a = a / n * n.
Proof. intros Hn Ha. pose proof (Z.div_mod a n Hn). lia. Qed.

Section Pointers.
Context (q : qcow) (rho : Z -> role) (I : Image q rho).
Let G : geometry (q_header q) := sh_geo q (proj1 I).

Lemma cs_pos : 512 <= cs q <= 2 ^ 21.
Proof. exact (csz_range _ G). Qed.

Lemma l2n_cs : cs q = 8 * l2n (q_header q) /\ 64 <= l2n (q_header q) <= 2 ^ 18.
Proof. exact (csz_l2n _ G). Qed.

Lemma rbn_cs : cs q = wid (q_header q) * rbn (q_header q) /\ 64 <= rbn (q_header q) <= 2 ^ 21.
Proof. exact (csz_rbn _ G). Qed.

Lemma guest_index g : 0 <= g < h_l1_size (q_header q) * l2n (q_header q) ->
  0 <= g / l2n (q_header q) < h_l1_size (q_header q) /\ 0 <= g mod l2n (q_header q) < l2n (q_header q).
Proof.
  intros Hg. pose proof l2n_cs as [? [? ?]]. split; [|apply Z.mod_pos_bound; lia].
  split; [apply Z.div_pos; lia|]. apply Z.div_lt_upper_bound; lia.
Qed.

Lemma l2_table_role i :
  0 <= i < h_l1_size (q_header q) -> l1_off q i <> 0 ->
  let c := l1_off q i / cs q in l1_off q i = c * cs q /\ rho c = RL2 i /\ inside q c /\ 0 < c.
Proof.
  intros Hi Hn c. pose proof cs_pos. destruct (sh_l1_ptr q (proj1 I) i Hi) as [Ha _].
  assert (E : l1_off q i = c * cs q) by (apply aligned_cluster; [lia|done]).
  assert (Hc : 0 < c).
  { assert (0 <= l1_off q i) by (apply Z.land_nonneg; right; done).
    assert (0 <= c) by (apply Z.div_pos; lia). destruct (Z.eq_dec c 0); [|lia]. rewrite e in E. lia. }
  assert (R : rho c = RL2 i) by (by apply (ro_refs q rho (proj2 I) (RL2 i) c)).
  split_and!; try done. apply (ro_used q rho (proj2 I)). by rewrite R.
Qed.

Lemma data_role g o :
  0 <= g < h_l1_size (q_header q) * l2n (q_header q) -> l2_data (l2_at q g) = Some o ->
  let c := o / cs q in o = c * cs q /\ rho c = RData g /\ inside q c /\ 0 < c.
Proof.
  intros Hg Ho c. pose proof cs_pos. destruct (sh_l2_ptr q (proj1 I) g o Hg Ho) as [Ha _].
  assert (E : o = c * cs q) by (apply aligned_cluster; [lia|done]).
  assert (Hc : 0 < c).
  { unfold l2_data in Ho. case_match; [done|]. case_match eqn:E0; [done|]. simplify_eq.
    apply Z.eqb_neq in E0. assert (0 <= l2_at q g .& L2_OFFSET_MASK) by (apply Z.land_nonneg; right; done).
    assert (0 <= c) by (apply Z.div_pos; lia). destruct (Z.eq_dec c 0) as [e|]; [|lia]. rewrite e in E. lia. }
  assert (R : rho c = RData g).
  { apply (ro_refs q rho (proj2 I) (RData g) c). split_and!; try lia. by rewrite Ho, <- E. }
  split_and!; try done. apply (ro_used q rho (proj2 I)). by rewrite R.
Qed.

Lemma block_role s :
  0 <= s < rtn q -> rt_ptr q s <> 0 ->
  let c := rt_ptr q s / cs q in rt_ptr q s = c * cs q /\ rho c = RRB s /\ inside q c /\ 0 < c.
Proof.
  intros Hs Hn c. pose proof cs_pos. pose proof (sh_rt_ptr q (proj1 I) s Hs) as Ha.
  assert (E : rt_ptr q s = c * cs q) by (apply aligned_cluster; [lia|done]).
  assert (Hc : 0 < c).
  { assert (0 <= rt_ptr q s) by (apply Z.land_nonneg; right; done).
    assert (0 <= c) by (apply Z.div_pos; lia). destruct (Z.eq_dec c 0) as [e|]; [|lia]. rewrite e in E. lia. }
  assert (R : rho c = RRB s) by (by apply (ro_refs q rho (proj2 I) (RRB s) c)).
  split_and!; try done. apply (ro_used q rho (proj2 I)). by rewrite R.
Qed.

(** Entry [s] of the refcount table, inside the table's clusters. *)
Lemma rt_entry_role s :
  0 <= s < rtn q ->
  let k := s / l2n (q_header q) in let c := q_rt_offset q / cs q + k in
  q_rt_offset q + 8 * s = c * cs q + 8 * (s mod l2n (q_header q)) /\ rho c = RRT k /\ inside q c.
Proof.
  intros Hs k c. pose proof cs_pos. pose proof l2n_cs as [E [? ?]]. unfold rtn in Hs.
  pose proof (aligned_cluster (q_rt_offset q) (cs q) ltac:(lia) (sh_rt_al q (proj1 I))) as Eo.
  pose proof (Z.div_mod s (l2n (q_header q)) ltac:(lia)) as Ed. fold k in Ed.
  assert (Hk : 0 <= k < q_rt_clusters q) by (split; [apply Z.div_pos; lia|apply Z.div_lt_upper_bound; lia]).
  assert (R : rho c = RRT k).
  { apply (ro_refs q rho (proj2 I) (RRT k) c). split; [done|]. unfold c. rewrite Z.mul_add_distr_r. lia. }
  split_and!; [unfold c; rewrite Z.mul_add_distr_r, <- Eo; nia|done|]. apply (ro_used q rho (proj2 I)). by rewrite R.
Qed.

(** Entry [i] of the L1 table on disk, likewise. *)
Lemma l1_entry_role i :
  0 <= i < h_l1_size (q_header q) ->
  let k := i / l2n (q_header q) in let c := h_l1_table_offset (q_header q) / cs q + k in
  h_l1_table_offset (q_header q) + 8 * i = c * cs q + 8 * (i mod l2n (q_header q)) /\ rho c = RL1 k /\ inside q c.
Proof.
  intros Hs k c. pose proof cs_pos. pose proof l2n_cs as [E [? ?]].
  pose proof (aligned_cluster (h_l1_table_offset (q_header q)) (cs q) ltac:(lia) (sh_l1_al q (proj1 I))) as Eo.
  pose proof (Z.div_mod i (l2n (q_header q)) ltac:(lia)) as Ed. fold k in Ed.
  assert (Hk : 0 <= k < l1_clusters (q_header q)).
  { split; [apply Z.div_pos; lia|]. unfold l1_clusters, div_ceil. rewrite E.
    apply Z.div_lt_upper_bound; [lia|].
    pose proof (Z.div_mod (h_l1_size (q_header q) * 8 + 8 * l2n (q_header q) - 1) (8 * l2n (q_header q)) ltac:(lia)).
    pose proof (Z.mod_pos_bound (h_l1_size (q_header q) * 8 + 8 * l2n (q_header q) - 1) (8 * l2n (q_header q)) ltac:(lia)).
    nia. }
  assert (R : rho c = RL1 k).
  { apply (ro_refs q rho (proj2 I) (RL1 k) c). split; [done|]. unfold c. rewrite Z.mul_add_distr_r. lia. }
  split_and!; [unfold c; rewrite Z.mul_add_distr_r, <- Eo; nia|done|]. apply (ro_used q rho (proj2 I)). by rewrite R.
Qed.

Lemma header_role : rho 0 = RHeader /\ inside q 0.
Proof.
  assert (R : rho 0 = RHeader) by (by apply (ro_refs q rho (proj2 I) RHeader 0)).
  split; [done|]. apply (ro_used q rho (proj2 I)). by rewrite R.
Qed.

(** Two clusters with the same role are the same cluster. *)
Lemma role_unique c c' : rho c = rho c' -> rho c <> Free -> c = c'.
Proof.
  intros E Hn. pose proof cs_pos as Hcs. destruct (ro_used q rho (proj2 I) c Hn) as [Hu _].
  destruct (ro_used q rho (proj2 I) c' ltac:(congruence)) as [Hu' _]. rewrite <- E in Hu'. clear -Hu Hu' Hcs.
  destruct (rho c); cbn [refs] in *; try done; try lia.
  all: try (destruct Hu as [_ Hu], Hu' as [_ Hu']; nia).
  all: destruct Hu as (_ & _ & Hu), Hu' as (_ & _ & Hu'); rewrite Hu in Hu'; try injection Hu' as Hu'; nia.
Qed.
End Pointers.

(** ** Changes that keep the roles *)

Definition is_l2 (r : role) : Prop := match r with RL2 _ => True | _ => False end.
Definition is_rt (r : role) : Prop := match r with RRT _ => True | _ => False end.
Definition is_rb (r : role) : Prop := match r with RRB _ => True | _ => False end.
Definition is_data (r : role) : Prop := match r with RData _ => True | _ => False end.
(** the roles whose bytes are pointers *)
Definition is_meta (r : role) : Prop := match r with Free | RRB _ | RData _ => False | _ => True end.

(** A guest byte is the same when its L2 entry and its data cluster are. *)
Lemma content_ext (q q' : qcow) rho x :
  Image q rho -> q_header q' = q_header q -> q_backing q' = q_backing q -> 0 <= x < h_size (q_header q) ->
  l2_at q' (x / cs q) = l2_at q (x / cs q) -> (forall c, rho c = RData (x / cs q) -> agree q q' c) ->
  content q' x = content q x.
Proof.
  intros I Eh Eb Hx E2 Ha. pose proof (cs_pos q rho I) as Hcs.
  assert (Hg : 0 <= x / cs q < h_l1_size (q_header q) * l2n (q_header q)).
  { pose proof (geo_cover _ (sh_geo q (proj1 I))). split; [apply Z.div_pos; lia|apply Z.div_lt_upper_bound; lia]. }
  unfold content, backing_byte. rewrite Eh, Eb, E2.
  destruct (tst (l2_at q (x / cs q)) QCOW_OFLAG_ZERO) eqn:Ez; [done|].
  destruct (Z.eqb_spec (l2_at q (x / cs q) .& L2_OFFSET_MASK) 0) as [|Hn]; [done|].
  destruct (data_role q rho I (x / cs q) (l2_at q (x / cs q) .& L2_OFFSET_MASK) Hg) as (E & R & _).
  { unfold l2_data. rewrite Ez. by rewrite (proj2 (Z.eqb_neq _ _)). }
  rewrite E. apply Ha; [done|]. apply Z.mod_pos_bound. lia.
Qed.

Section Frame.
Context (q : qcow) (rho : Z -> role) (I : Image q rho) (f' : list Z).
Abbreviation q' := (with_file q f').
Let G : geometry (q_header q) := sh_geo q (proj1 I).

Lemma l2_at_frame g :
  (forall c, is_l2 (rho c) -> agree q q' c) ->
  0 <= g < h_l1_size (q_header q) * l2n (q_header q) -> l2_at q' g = l2_at q g.
Proof.
  intros Ha Hg. pose proof (guest_index q rho I g Hg) as [Hi Hj]. pose proof (l2n_cs q rho I) as [? _].
  unfold l2_at. change (l1_off q' ?i) with (l1_off q i). cbn [q_header with_file q_file].
  destruct (Z.eqb_spec (l1_off q (g / l2n (q_header q))) 0) as [|Hn]; [done|].
  destruct (l2_table_role q rho I _ Hi Hn) as (E & R & _). rewrite E.
  apply (agree_be q q'); try lia. apply Ha. by rewrite R.
Qed.

Lemma rt_ptr_frame s :
  (forall c, is_rt (rho c) -> agree q q' c) -> 0 <= s < rtn q -> rt_ptr q' s = rt_ptr q s.
Proof.
  intros Ha Hs. pose proof (l2n_cs q rho I) as [? [? ?]].
  destruct (rt_entry_role q rho I s Hs) as (E & R & _).
  unfold rt_ptr. cbn [q_rt_offset with_file]. rewrite E. f_equal.
  pose proof (Z.mod_pos_bound s (l2n (q_header q)) ltac:(lia)).
  apply (agree_be q q'); try lia. apply Ha. by rewrite R.
Qed.

Lemma block_of_frame c :
  (forall c, is_rt (rho c) -> agree q q' c) -> 0 <= c -> block_of q' c = block_of q c.
Proof.
  intros Ha Hc. unfold block_of. cbn [q_header with_file]. change (rtn q') with (rtn q).
  destruct (Z.leb_spec (rtn q) (c / rbn (q_header q))); [done|].
  pose proof (rbn_cs q rho I) as [? [? ?]]. apply rt_ptr_frame; [done|].
  split; [apply Z.div_pos; lia|done].
Qed.

Lemma refcount_frame n :
  Counts q n -> (forall c, is_rt (rho c) \/ is_rb (rho c) -> agree q q' c) -> Counts q' n.
Proof.
  intros Hn Ha c Hc. rewrite <- Hn by done. unfold refcount. rewrite block_of_frame by auto.
  destruct (Z.eqb_spec (block_of q c) 0) as [|Hb]; [done|]. cbn [q_header with_file].
  pose proof (rbn_cs q rho I) as [E [? ?]]. pose proof (wid_cases _ G).
  assert (Hs : 0 <= c / rbn (q_header q)) by (apply Z.div_pos; lia).
  unfold block_of in *. destruct (Z.leb_spec (rtn q) (c / rbn (q_header q))); [done|].
  destruct (block_role q rho I _ (conj Hs H2) Hb) as (Eb & R & _). rewrite Eb.
  pose proof (Z.mod_pos_bound c (rbn (q_header q)) ltac:(lia)).
  apply (agree_be q q'); try nia. apply Ha. right. by rewrite R.
Qed.

Lemma guest_cluster x : 0 <= x < h_size (q_header q) ->
  0 <= x / cs q < h_l1_size (q_header q) * l2n (q_header q).
Proof.
  intros Hx. pose proof (cs_pos q rho I). pose proof (geo_cover _ G).
  split; [apply Z.div_pos; lia|]. apply Z.div_lt_upper_bound; lia.
Qed.

Lemma content_frame x :
  (forall c, is_l2 (rho c) \/ is_data (rho c) -> agree q q' c) ->
  0 <= x < h_size (q_header q) -> content q' x = content q x.
Proof.
  intros Ha Hx. apply (content_ext q q' rho); try done.
  - apply l2_at_frame; auto. by apply guest_cluster.
  - intros c R. apply Ha. right. by rewrite R.
Qed.

Lemma l1_disk_frame i :
  (forall c, rho c = RL1 (i / l2n (q_header q)) -> agree q q' c) -> 0 <= i < h_l1_size (q_header q) ->
  be_at f' (h_l1_table_offset (q_header q) + 8 * i) 8 =
  be_at (q_file q) (h_l1_table_offset (q_header q) + 8 * i) 8.
Proof.
  intros Ha Hi. destruct (l1_entry_role q rho I i Hi) as (E & R & _). rewrite E.
  pose proof (l2n_cs q rho I) as [? [? ?]]. pose proof (Z.mod_pos_bound i (l2n (q_header q)) ltac:(lia)).
  apply (agree_be q q'); try lia. by apply Ha.
Qed.

Lemma head_frame :
  agree q q' 0 -> len (q_file q) <= len f' -> from_bytes (sub f' 0 104) = Ok (live_header q).
Proof.
  intros Ha Hl. pose proof (cs_pos q rho I). rewrite <- (sh_head q (proj1 I)).
  destruct (header_role q rho I) as [R [_ Hin]]. f_equal.
  apply list_getb_ext; [rewrite !len_sub; lia|]. rewrite len_sub by lia. intros k Hk.
  rewrite !getb_sub by lia. apply Ha. lia.
Qed.

Lemma Image_frame :
  len (q_file q) <= len f' -> (forall c, is_meta (rho c) -> agree q q' c) -> Image q' rho.
Proof.
  intros Hl Ha. pose proof (proj1 I) as S. pose proof (cs_pos q rho I).
  assert (H2 : forall g, 0 <= g < h_l1_size (q_header q) * l2n (q_header q) -> l2_at q' g = l2_at q g).
  { intros g Hg. apply l2_at_frame; [|done]. intros c Hc. apply Ha. by destruct (rho c). }
  assert (H3 : forall s, 0 <= s < rtn q -> rt_ptr q' s = rt_ptr q s).
  { intros s Hs. apply rt_ptr_frame; [|done]. intros c Hc. apply Ha. by destruct (rho c). }
  assert (Hr : forall r c, refs q' r c <-> refs q r c).
  { intros r c. destruct r; cbn [refs]; cbn [q_header with_file q_rt_clusters q_rt_offset]; try done.
    - change (rtn q') with (rtn q). split; intros (? & ? & E); (split; [done|split; [done|]]); [by rewrite <- H3|by rewrite H3].
    - split; intros (? & ? & E); (split; [done|split; [done|]]); [by rewrite <- H2|by rewrite H2]. }
  split.
  - destruct S. split; cbn [q_header with_file q_rt_clusters q_rt_offset q_l1 q_backing q_file]; try done.
    + intros g o Hg. rewrite H2 by done. auto.
    + intros s Hs. change (rtn q') with (rtn q) in Hs. rewrite H3 by done. auto.
    + intros i Hi. rewrite <- sh_l1_disk0 by done. apply l1_disk_frame; [|done]. intros c R. apply Ha. by rewrite R.
    + apply head_frame; [|done]. apply Ha. by rewrite (proj1 (header_role q rho I)).
  - split.
    + intros r c Hc. apply (ro_refs q rho (proj2 I)). by apply Hr.
    + intros c Hc. destruct (ro_used q rho (proj2 I) c Hc) as [Hu [Hi1 Hi2]]. split; [by apply Hr|].
      split; [done|]. cbn [q_header with_file q_file]. lia.
Qed.
End Frame.
End Image.
