(* ===== verification/QcowSteps.v ===== *)
(** * The elementary steps of the qcow2 code

    Every operation of the backend changes the image by a sequence of the
    steps of this file: extend the file, store a refcount, publish a refcount
    block, link an L2 table, link or unlink a data cluster.  Each lemma gives
    the step's effect on [Image], on [Counts] and on the guest's bytes. *)

From Stdlib Require Import ZArith Lia Bool.
From stdpp Require Import base decidable numbers list.
From S2P Require Import Prelude Rust Storage Qcow QcowInv.

(** ** Entries: an aligned offset with flags *)

Lemma testbit_mask_range lo n i : 0 <= lo -> 0 <= n ->
  Z.testbit (Z.ones n .<< lo) i = (lo <=? i) && (i <? lo + n).
Proof.
  intros Hl Hn. destruct (Z.lt_ge_cases i 0).
  { rewrite Z.testbit_neg_r by done. zcases; cbn; (done || lia). }
  rewrite Z.shiftl_spec by done. destruct (Z.leb_spec lo i); cbn.
  - rewrite Z.testbit_ones_nonneg by lia. zcases; (done || lia).
  - apply Z.testbit_neg_r. lia.
Qed.

Lemma testbit_L2_MASK i : Z.testbit L2_OFFSET_MASK i = (9 <=? i) && (i <? 56).
Proof. exact (testbit_mask_range 9 47 i ltac:(lia) ltac:(lia)). Qed.

Lemma testbit_REFT_MASK i : Z.testbit REFT_OFFSET_MASK i = (9 <=? i) && (i <? 64).
Proof. exact (testbit_mask_range 9 55 i ltac:(lia) ltac:(lia)). Qed.

Lemma aligned_low_bits a i : a mod 512 = 0 -> 0 <= i < 9 -> Z.testbit a i = false.
Proof.
  intros Ha Hi. change 512 with (2 ^ 9) in Ha. rewrite <- (Z.mod_pow2_bits_low a 9 i) by lia.
  by rewrite Ha, Z.testbit_0_l.
Qed.

Lemma reft_aligned a : a mod 512 = 0 -> fits 64 a -> a .& REFT_OFFSET_MASK = a.
Proof.
  intros Ha Hf. apply Z.bits_inj'. intros i Hi. rewrite Z.land_spec, testbit_REFT_MASK.
  destruct (Z.leb_spec 9 i), (Z.ltb_spec i 64); cbn; rewrite ?andb_true_r, ?andb_false_r; try done.
  - symmetry. apply (fits_high 64); [done|lia].
  - symmetry. apply aligned_low_bits; [done|lia].
  - lia.
Qed.

Lemma copied_entry a : a mod 512 = 0 -> fits 56 a ->
  let e := a .| QCOW_OFLAG_COPIED in
  e .& L2_OFFSET_MASK = a /\ tst e QCOW_OFLAG_ZERO = false /\ Z.testbit e 63 = true /\ fits 64 e.
Proof.
  intros Ha Hf e. assert (Hc : forall i, Z.testbit QCOW_OFLAG_COPIED i = (63 =? i)) by (intros; by apply testbit_bit).
  split_and!.
  - apply Z.bits_inj'. intros i Hi. unfold e. rewrite Z.land_spec, Z.lor_spec, testbit_L2_MASK, Hc.
    destruct (Z.leb_spec 9 i), (Z.ltb_spec i 56); cbn [andb]; rewrite ?andb_true_r, ?andb_false_r; try lia.
    + rewrite (proj2 (Z.eqb_neq _ _)) by lia. apply orb_false_r.
    + symmetry. apply (fits_high 56); [done|lia].
    + symmetry. apply aligned_low_bits; [done|lia].
  - rewrite (tst_pow e QCOW_OFLAG_ZERO 0) by done. unfold e. rewrite Z.lor_spec, Hc.
    rewrite aligned_low_bits by (done || lia). done.
  - unfold e. rewrite Z.lor_spec, Hc. apply orb_true_r.
  - apply fits_lor; [eapply fits_mono; [done|lia]|]. by apply (fits_bit 64 63).
Qed.

Lemma mod_512 c n : 9 <= n -> (c * 2 ^ n) mod 512 = 0.
Proof.
  intros. replace n with (n - 9 + 9) by lia. rewrite Z.pow_add_r by lia. change (2 ^ 9) with 512.
  rewrite Z.mul_assoc. apply Z.mod_mul. lia.
Qed.

(** The kinds of roles are disjoint. *)
Lemma meta_not_rb r : is_meta r -> ~ is_rb r. Proof. destruct r; cbn; tauto. Qed.
Lemma rt_not_rb r : is_rt r -> ~ is_rb r. Proof. destruct r; cbn; tauto. Qed.
Lemma l2_not_rb r : is_l2 r -> ~ is_rb r. Proof. destruct r; cbn; tauto. Qed.
Lemma data_not_rb r : is_data r -> ~ is_rb r. Proof. destruct r; cbn; tauto. Qed.

(** The parts of [Shape] a change of the file's bytes does not touch. *)
Ltac shape_rest S :=
  constructor;
  try (first [exact (sh_geo _ S)|exact (sh_rt _ S)|exact (sh_rt_old _ S)|exact (sh_rt_al _ S)|exact (sh_l1_al _ S)
             |exact (sh_l1_len _ S)|exact (sh_l1_ptr _ S)|exact (sh_backing _ S)]).

Section Steps.
Context {B : Type} {SB : StorageBackend B} {DB : Disk B}.
Abbreviation qcow := (QcowBackend B).
Abbreviation cs q := (csz (q_header q)).

(** ** Which clusters a change leaves alone *)

Lemma agree_set_len (q : qcow) n c :
  len (q_file q) <= n -> agree q (with_file q (set_len (q_file q) n)) c.
Proof.
  intros Hn k Hk. cbn [q_file with_file]. pose proof (len_nonneg (q_file q)). rewrite getb_set_len by lia.
  destruct (Z.ltb_spec (c * cs q + k) n); [done|]. symmetry. apply getb_past. lia.
Qed.

Lemma agree_write (q : qcow) off bs c0 c :
  0 <= c0 -> 0 < cs q -> c0 * cs q <= off -> off + len bs <= (c0 + 1) * cs q -> c <> c0 ->
  agree q (with_file q (file_write (q_file q) off bs)) c.
Proof.
  intros H0 Hcs H1 H2 Hne k Hk. cbn [q_file with_file]. rewrite getb_file_write by nia.
  destruct (Z.leb_spec off (c * cs q + k)), (Z.ltb_spec (c * cs q + k) (off + len bs)); cbn; try done.
  exfalso. assert (c < c0 \/ c0 < c) as [?|?] by lia; nia.
Qed.

(** The whole cluster [c] reads as zeros. *)
Definition zero_cluster (q : qcow) (c : Z) : Prop :=
  forall k, 0 <= k < cs q -> getb (q_file q) (c * cs q + k) = 0.

Lemma zero_cluster_be q c off n :
  zero_cluster q c -> 0 <= off -> 0 <= n -> off + n <= cs q -> be_at (q_file q) (c * cs q + off) n = 0.
Proof.
  intros Hz Ho Hn Hl. apply be_at_zero. intros k Hk. rewrite <- Z.add_assoc. apply Hz. lia.
Qed.

Section OneStep.
Context (q : qcow) (rho : Z -> role) (I : Image q rho).
Let S : Shape q := proj1 I.
Let R : Roles q rho := proj2 I.
Let G : geometry (q_header q) := sh_geo q S.

(** What every step keeps: the guest's bytes. *)
Definition same_content (q1 q2 : qcow) : Prop :=
  forall x, 0 <= x < h_size (q_header q1) -> content q2 x = content q1 x.

(** *** Extending the file *)

Lemma set_len_step n f' :
  f' = set_len (q_file q) n -> len (q_file q) <= n ->
  Image (with_file q f') rho /\ (forall m, Counts q m -> Counts (with_file q f') m) /\
  same_content q (with_file q f').
Proof.
  intros -> Hn. pose proof (len_nonneg (q_file q)).
  assert (Ha : forall c, agree q (with_file q (set_len (q_file q) n)) c) by (intros; by apply agree_set_len).
  split_and!.
  - apply Image_frame; auto. rewrite len_set_len; lia.
  - intros m Hm. by apply (refcount_frame q rho).
  - intros x Hx. by apply (content_frame q rho).
Qed.

(** *** Storing a refcount *)

Definition rc_off (c : Z) : Z := block_of q c + wid (q_header q) * (c mod rbn (q_header q)).
Definition rc_file (c v : Z) : list Z :=
  file_write (q_file q) (rc_off c) (be_bytes (Z.to_nat (wid (q_header q))) v).

(** Where the refcount of a covered cluster lies. *)
Lemma rc_place c :
  0 <= c -> block_of q c <> 0 ->
  let cb := block_of q c / cs q in
  block_of q c = cb * cs q /\ rho cb = RRB (c / rbn (q_header q)) /\ inside q cb /\
  cb * cs q <= rc_off c /\ rc_off c + wid (q_header q) <= (cb + 1) * cs q.
Proof.
  intros Hc Hb cb. pose proof (rbn_cs q rho I) as [E [? ?]]. pose proof (wid_cases _ G).
  assert (Hs : 0 <= c / rbn (q_header q)) by (apply Z.div_pos; lia).
  pose proof (Z.mod_pos_bound c (rbn (q_header q)) ltac:(lia)).
  assert (Hlt : c / rbn (q_header q) < rtn q).
  { unfold block_of in Hb. destruct (Z.leb_spec (rtn q) (c / rbn (q_header q))); [done|lia]. }
  assert (Eb : block_of q c = rt_ptr q (c / rbn (q_header q))).
  { unfold block_of. by rewrite (proj2 (Z.leb_gt _ _)). }
  rewrite Eb in Hb. destruct (block_role q rho I _ (conj Hs Hlt) Hb) as (E' & Hr & Hi & _).
  unfold cb, rc_off. rewrite Eb. split_and!; [done|done|apply Hi|nia|nia].
Qed.

Lemma len_rc_bytes v : len (be_bytes (Z.to_nat (wid (q_header q))) v) = wid (q_header q).
Proof. rewrite len_be_bytes. pose proof (wid_cases _ G). lia. Qed.

Lemma rc_agree c v c' :
  0 <= c -> block_of q c <> 0 -> ~ is_rb (rho c') -> agree q (with_file q (rc_file c v)) c'.
Proof.
  intros Hc Hb Hr'. pose proof (cs_pos q rho I). destruct (rc_place c Hc Hb) as (Eb & Hr & [Hi1 Hi2] & Hlo & Hhi).
  eapply agree_write; [exact Hi1|lia|exact Hlo|rewrite len_rc_bytes; exact Hhi|]. intros ->. by rewrite Hr in Hr'.
Qed.

Lemma rc_block_of c v c' :
  0 <= c -> block_of q c <> 0 -> 0 <= c' -> block_of (with_file q (rc_file c v)) c' = block_of q c'.
Proof.
  intros Hc Hb Hc'. apply (block_of_frame q rho I); [|done]. intros c'' Hr. by apply rc_agree, rt_not_rb.
Qed.

Lemma rc_step c v m :
  0 <= c -> block_of q c <> 0 -> 0 <= v < 256 -> Counts q m ->
  Image (with_file q (rc_file c v)) rho /\ Counts (with_file q (rc_file c v)) (upd m c v) /\
  same_content q (with_file q (rc_file c v)) /\ len (rc_file c v) = len (q_file q).
Proof.
  intros Hc Hb Hv Hm. pose proof (cs_pos q rho I). pose proof (wid_cases _ G) as Hw.
  destruct (rc_place c Hc Hb) as (Eb & Hr & [Hi1 Hi2] & Hlo & Hhi). set (cb := block_of q c / cs q) in *.
  assert (Hl : len (rc_file c v) = len (q_file q)).
  { unfold rc_file. rewrite len_file_write by nia. case_bool_decide; [done|]. rewrite len_rc_bytes. lia. }
  assert (Ha' : forall c', ~ is_rb (rho c') -> agree q (with_file q (rc_file c v)) c') by (intros; by apply rc_agree).
  split_and!; [..|done].
  - apply Image_frame; [done|lia|]. intros c' Hc'. by apply Ha', meta_not_rb.
  - intros c' Hc'. unfold refcount. rewrite rc_block_of by done.
    cbn [q_header with_file q_file]. unfold upd. rewrite <- (Hm c' Hc') . unfold refcount.
    destruct (Z.eqb_spec c' c) as [->|Hne].
    + rewrite (proj2 (Z.eqb_neq _ _)) by done. unfold rc_file, rc_off.
      replace (wid (q_header q)) with (Z.of_nat (Z.to_nat (wid (q_header q)))) at 4 by lia.
      rewrite be_at_write by (unfold rc_off in Hlo; nia). apply Z.mod_small.
      assert (256 ^ 1 <= 256 ^ Z.of_nat (Z.to_nat (wid (q_header q)))) by (apply Z.pow_le_mono_r; lia). lia.
    + destruct (Z.eqb_spec (block_of q c') 0) as [|Hb']; [done|].
      destruct (rc_place c' Hc' Hb') as (Eb' & Hr' & _ & Hlo' & Hhi'). unfold rc_file.
      apply be_at_write_other; [nia|]. rewrite len_rc_bytes. fold (rc_off c').
      destruct (Z.eq_dec (block_of q c' / cs q) cb) as [Ec|Hne'].
      * pose proof (rbn_cs q rho I) as [? [? ?]].
        assert (c' / rbn (q_header q) = c / rbn (q_header q)) by (rewrite Ec, Hr in Hr'; congruence).
        pose proof (Z.div_mod c (rbn (q_header q)) ltac:(lia)). pose proof (Z.div_mod c' (rbn (q_header q)) ltac:(lia)).
        unfold rc_off. rewrite Eb', Ec, Eb. nia.
      * assert (block_of q c' / cs q < cb \/ cb < block_of q c' / cs q) as [?|?] by lia; nia.
  - intros x Hx. apply (content_frame q rho); [done| |done]. intros c' [Hc'|Hc']; [by apply Ha', l2_not_rb|by apply Ha', data_not_rb].
Qed.

(** *** Overwriting a cluster that holds no metadata *)

Lemma cell_step c off bs :
  ~ is_meta (rho c) -> ~ is_rb (rho c) -> inside q c -> c * cs q <= off -> off + len bs <= (c + 1) * cs q ->
  let q' := with_file q (file_write (q_file q) off bs) in
  Image q' rho /\ (forall m, Counts q m -> Counts q' m) /\ len (q_file q') = len (q_file q) /\
  (forall c', c' <> c -> agree q q' c').
Proof.
  intros Hm Hr [Hi1 Hi2] Hlo Hhi q'. pose proof (cs_pos q rho I).
  assert (Ha : forall c', c' <> c -> agree q q' c') by (intros; by apply (agree_write q off bs c); try lia).
  assert (Hl : len (q_file q') = len (q_file q)).
  { cbn [q_file q' with_file]. rewrite len_file_write by nia. case_bool_decide; lia. }
  split_and!; try done.
  - apply Image_frame; [done|cbn in Hl; lia|]. intros c' Hc'. apply Ha. by intros ->.
  - intros m Hc. apply (refcount_frame q rho); [done..|]. intros c' Hc'. apply Ha. intros ->.
    destruct (rho c); cbn in *; tauto.
Qed.

(** *** Adding and removing a reference *)

Lemma Roles_add (q' : qcow) c0 r0 :
  q_header q' = q_header q -> len (q_file q) <= len (q_file q') ->
  rho c0 = Free -> r0 <> Free -> inside q' c0 -> refs q' r0 c0 ->
  (forall r c, refs q' r c -> refs q r c \/ (r = r0 /\ c = c0)) ->
  (forall r c, refs q r c -> refs q' r c) ->
  Roles q' (upd rho c0 r0).
Proof.
  intros Eh Hl Hf Hr0 Hi H0 Hback Hfwd. split.
  - intros r c Hrc. destruct (Hback r c Hrc) as [Hq|[-> ->]]; [|apply upd_same].
    pose proof (ro_refs q rho R r c Hq) as Er. rewrite upd_other; [done|]. intros ->. rewrite Hf in Er. subst r. done.
  - intros c Hc. destruct (Z.eq_dec c c0) as [->|Hne]; [by rewrite upd_same|].
    rewrite upd_other in * by done. destruct (ro_used q rho R c Hc) as [Hu [Hi1 Hi2]].
    split; [by apply Hfwd|]. split; [done|]. rewrite Eh. lia.
Qed.

Lemma Roles_del (q' : qcow) c0 r0 :
  q_header q' = q_header q -> len (q_file q) <= len (q_file q') -> rho c0 = r0 ->
  (forall r c, refs q' r c -> refs q r c /\ r <> r0) ->
  (forall r c, refs q r c -> r <> r0 -> refs q' r c) ->
  Roles q' (upd rho c0 Free).
Proof.
  intros Eh Hl Hf Hback Hfwd. split.
  - intros r c Hrc. destruct (Hback r c Hrc) as [Hq Hr]. pose proof (ro_refs q rho R r c Hq) as Er.
    rewrite upd_other; [done|]. intros ->. congruence.
  - intros c Hc. destruct (Z.eq_dec c c0) as [->|Hne]; [by rewrite upd_same in Hc|].
    rewrite upd_other in * by done. destruct (ro_used q rho R c Hc) as [Hu [Hi1 Hi2]].
    split; [|split; [done|]; rewrite Eh; lia]. apply Hfwd; [done|]. intros Er.
    apply Hne, (role_unique q rho I); congruence.
Qed.

(** A free cluster's offset as a pointer. *)
Definition fresh (c0 : Z) : Prop := rho c0 = Free /\ inside q c0 /\ 0 < c0 /\ c0 * cs q < 2 ^ 55.

Lemma fresh_aligned c0 : (c0 * cs q) mod 512 = 0.
Proof. unfold csz. apply mod_512. apply (geo_bits _ G). Qed.

Lemma fresh_fits c0 : fresh c0 -> fits 56 (c0 * cs q) /\ fits 64 (c0 * cs q).
Proof. intros (_ & _ & ? & ?). pose proof (cs_pos q rho I). unfold fits. nia. Qed.

(** *** Publishing a refcount block *)

Definition publish_file (s c0 : Z) : list Z := file_write (q_file q) (q_rt_offset q + 8 * s) (be_bytes 8 (c0 * cs q)).

Lemma rt_write_agree s c0 c :
  0 <= s < rtn q -> ~ is_rt (rho c) -> agree q (with_file q (publish_file s c0)) c.
Proof.
  intros Hs Hc. pose proof (cs_pos q rho I). pose proof (l2n_cs q rho I) as [? [? ?]].
  destruct (rt_entry_role q rho I s Hs) as (E & Hr & [Hi _]). pose proof (Z.mod_pos_bound s (l2n (q_header q)) ltac:(lia)).
  unfold publish_file. rewrite E. eapply agree_write; [done|lia|lia|rewrite len_be_bytes; lia|].
  intros ->. by rewrite Hr in Hc.
Qed.

Lemma rt_ptr_publish s c0 s' :
  fresh c0 -> 0 <= s < rtn q -> 0 <= s' ->
  rt_ptr (with_file q (publish_file s c0)) s' = if s' =? s then c0 * cs q else rt_ptr q s'.
Proof.
  intros Hf Hs Hs'. destruct (fresh_fits c0 Hf) as [_ Hc]. pose proof (sh_rt q S) as [_ Ho].
  unfold rt_ptr, publish_file. cbn [q_file q_rt_offset with_file]. destruct (Z.eqb_spec s' s) as [->|Hne].
  - rewrite be_at_write64 by (done || lia). apply reft_aligned, Hc. apply fresh_aligned.
  - rewrite be_at_write_other; [done|lia|]. rewrite len_be_bytes. lia.
Qed.

Lemma publish_step s c0 m :
  fresh c0 -> zero_cluster q c0 -> 0 <= s < rtn q -> rt_ptr q s = 0 -> Counts q m ->
  let q' := with_file q (publish_file s c0) in
  Image q' (upd rho c0 (RRB s)) /\ Counts q' m /\ same_content q q' /\ len (publish_file s c0) = len (q_file q).
Proof.
  intros Hf Hz Hs H0 Hm q'. pose proof (cs_pos q rho I) as Hcs. pose proof (fresh_aligned c0) as Hal.
  pose proof Hf as (Hfree & Hin & Hpos & Hlt).
  assert (Hl : len (publish_file s c0) = len (q_file q)).
  { destruct (rt_entry_role q rho I s Hs) as (E & _ & [Hi1 Hi2]). pose proof (l2n_cs q rho I) as [? [? ?]].
    pose proof (Z.mod_pos_bound s (l2n (q_header q)) ltac:(lia)).
    unfold publish_file. rewrite len_file_write by (pose proof (sh_rt q S); lia). rewrite len_be_bytes, E.
    case_bool_decide; lia. }
  assert (Ha : forall c, ~ is_rt (rho c) -> agree q q' c) by (intros; by apply rt_write_agree).
  assert (Hp : forall s', 0 <= s' -> rt_ptr q' s' = if s' =? s then c0 * cs q else rt_ptr q s')
    by (intros; by apply rt_ptr_publish).
  assert (H2 : forall g, 0 <= g < h_l1_size (q_header q) * l2n (q_header q) -> l2_at q' g = l2_at q g).
  { intros g Hg. apply (l2_at_frame q rho); [done| |done]. intros c Hc. apply Ha. destruct (rho c); cbn in *; tauto. }
  split_and!; [|..|done].
  - split.
    + shape_rest S; change (q_header q') with (q_header q).
      * intros g o Hg. rewrite H2 by done. by apply (sh_l2_ptr q S).
      * intros s' Hs'. rewrite Hp by lia. case_match; [apply Z.mod_mul; lia|by apply (sh_rt_ptr q S)].
      * intros i Hi. rewrite <- (sh_l1_disk q S) by done. apply (l1_disk_frame q rho); [done| |done].
        intros c Hr. apply Ha. rewrite Hr. cbn. tauto.
      * apply (head_frame q rho I (publish_file s c0)); [|lia]. apply Ha. rewrite (proj1 (header_role q rho I)). cbn. tauto.
    + apply Roles_add; try done; [exact (Z.eq_le_incl _ _ (eq_sym Hl))|split; [apply Hin|]; change (q_file q') with (publish_file s c0); rewrite Hl; apply Hin|..].
      * cbn. split; [done|]. split; [done|]. rewrite Hp by lia. by rewrite Z.eqb_refl.
      * intros r c. destruct r; cbn [refs]; try (by left).
        -- intros (? & ? & E). rewrite Hp in E by (cbn in *; lia). destruct (Z.eqb_spec slot s) as [->|]; [right|left; done].
           split; [done|]. cbn in E. nia.
        -- intros (? & ? & E). left. rewrite H2 in E by done. done.
      * intros r c. destruct r; cbn [refs]; try done.
        -- intros (? & ? & E). split; [done|]. split; [done|]. rewrite Hp by lia.
           destruct (Z.eqb_spec slot s) as [->|]; [|done]. rewrite H0 in E. nia.
        -- intros (? & ? & E). split; [done|]. split; [done|]. by rewrite H2.
  - intros c Hc. rewrite <- Hm by done. unfold refcount, block_of. change (q_header q') with (q_header q).
    change (rtn q') with (rtn q). set (s' := c / rbn (q_header q)). pose proof (rbn_cs q rho I) as [E [? ?]].
    assert (Hs' : 0 <= s') by (apply Z.div_pos; lia). destruct (Z.leb_spec (rtn q) s') as [|Hlt']; [done|].
    pose proof (Z.mod_pos_bound c (rbn (q_header q)) ltac:(lia)). pose proof (wid_cases _ G).
    rewrite Hp by done. destruct (Z.eqb_spec s' s) as [Es|].
    + rewrite Es, H0, Z.eqb_refl. rewrite (proj2 (Z.eqb_neq _ _)) by nia.
      erewrite (agree_be q q' c0); [by apply zero_cluster_be; try nia|apply Ha; rewrite Hfree; cbn; tauto|nia..].
    + destruct (Z.eqb_spec (rt_ptr q s') 0) as [|Hb]; [done|].
      destruct (block_role q rho I s' (conj Hs' Hlt') Hb) as (Eb & Hr & _). rewrite Eb.
      apply (agree_be q q'); try nia. apply Ha. rewrite Hr. cbn. tauto.
  - intros x Hx. apply (content_frame q rho); [done| |done]. intros c Hc. apply Ha. destruct (rho c); cbn in *; tauto.
Qed.

(** *** Writing an L2 entry *)

Definition l2_pos (g : Z) : Z := l1_off q (g / l2n (q_header q)) + 8 * (g mod l2n (q_header q)).
Definition set_l2_file (g e : Z) : list Z := file_write (q_file q) (l2_pos g) (be_bytes 8 e).
Definition guest (g : Z) : Prop := 0 <= g < h_l1_size (q_header q) * l2n (q_header q).

Lemma l2_pos_place g :
  guest g -> l1_off q (g / l2n (q_header q)) <> 0 ->
  let c := l1_off q (g / l2n (q_header q)) / cs q in
  l2_pos g = c * cs q + 8 * (g mod l2n (q_header q)) /\ rho c = RL2 (g / l2n (q_header q)) /\ inside q c /\
  0 <= g mod l2n (q_header q) < l2n (q_header q).
Proof.
  intros Hg Hn c. destruct (guest_index q rho I g Hg) as [Hi Hj].
  destruct (l2_table_role q rho I _ Hi Hn) as (E & Hr & Hin & _). unfold l2_pos. fold c in E, Hr, Hin. by rewrite E at 1.
Qed.

Section SetL2.
Context (g e : Z) (Hg : guest g) (Ht : l1_off q (g / l2n (q_header q)) <> 0) (He : fits 64 e).
Abbreviation q' := (with_file q (set_l2_file g e)).

Lemma set_l2_agree c : ~ is_l2 (rho c) -> agree q q' c.
Proof.
  intros Hc. pose proof (cs_pos q rho I). pose proof (l2n_cs q rho I) as [? _].
  destruct (l2_pos_place g Hg Ht) as (E & Hr & [Hi _] & Hj). unfold set_l2_file. rewrite E.
  eapply agree_write; [done|lia|lia|rewrite len_be_bytes; lia|]. intros ->. by rewrite Hr in Hc.
Qed.

Lemma set_l2_len : len (set_l2_file g e) = len (q_file q).
Proof.
  pose proof (l2n_cs q rho I) as [? _]. destruct (l2_pos_place g Hg Ht) as (E & Hr & [Hi1 Hi2] & Hj).
  unfold set_l2_file. rewrite E. rewrite len_file_write by nia. rewrite len_be_bytes. case_bool_decide; lia.
Qed.

Lemma set_l2_at g' : guest g' -> l2_at q' g' = if g' =? g then e else l2_at q g'.
Proof.
  intros Hg'. pose proof (cs_pos q rho I). pose proof (l2n_cs q rho I) as [Ecs [? ?]].
  destruct (l2_pos_place g Hg Ht) as (E & Hr & [Hi _] & Hj).
  unfold l2_at. change (l1_off q' ?i) with (l1_off q i). cbn [q_header with_file q_file].
  destruct (Z.eqb_spec (l1_off q (g' / l2n (q_header q))) 0) as [E0|Hn].
  { destruct (Z.eqb_spec g' g) as [->|]; [done|done]. }
  fold (l2_pos g'). unfold set_l2_file. destruct (Z.eqb_spec g' g) as [->|Hne].
  { fold (l2_pos g). apply be_at_write64; [nia|done]. }
  destruct (l2_pos_place g' Hg' Hn) as (E' & Hr' & [Hi' _] & Hj').
  apply be_at_write_other; [nia|]. rewrite len_be_bytes, E, E'.
  set (c := l1_off q (g / _) / cs q) in *. set (c' := l1_off q (g' / _) / cs q) in *.
  destruct (Z.eq_dec c c') as [Ec|].
  - assert (g / l2n (q_header q) = g' / l2n (q_header q)) by (rewrite <- Ec, Hr in Hr'; congruence).
    pose proof (Z.div_mod g (l2n (q_header q)) ltac:(lia)). pose proof (Z.div_mod g' (l2n (q_header q)) ltac:(lia)).
    rewrite Ec. nia.
  - assert (c < c' \/ c' < c) as [?|?] by lia; nia.
Qed.

Lemma set_l2_rt s : 0 <= s < rtn q -> rt_ptr q' s = rt_ptr q s.
Proof.
  intros Hs. apply (rt_ptr_frame q rho); [done| |done]. intros c Hc. apply set_l2_agree.
  destruct (rho c); cbn in *; tauto.
Qed.

Lemma set_l2_counts m : Counts q m -> Counts q' m.
Proof.
  intros Hm. apply (refcount_frame q rho); [done..|]. intros c Hc. apply set_l2_agree.
  destruct (rho c); cbn in *; tauto.
Qed.

Lemma set_l2_shape :
  (forall o, l2_data e = Some o -> o mod cs q = 0 /\ Z.testbit e 63 = true) -> Shape q'.
Proof.
  intros Hp. shape_rest S; cbn [q_header with_file].
  - intros g' o Hg'. rewrite set_l2_at by done. destruct (g' =? g); [apply Hp|by apply (sh_l2_ptr q S)].
  - intros s Hs. change (rtn q') with (rtn q) in Hs. rewrite set_l2_rt by done. by apply (sh_rt_ptr q S).
  - intros i Hi. rewrite <- (sh_l1_disk q S) by done. apply (l1_disk_frame q rho); [done| |done].
    intros c Hr. apply set_l2_agree. rewrite Hr. cbn. tauto.
  - apply (head_frame q rho I (set_l2_file g e)); [|rewrite set_l2_len; lia].
    apply set_l2_agree. rewrite (proj1 (header_role q rho I)). cbn. tauto.
Qed.

(** The entry of another guest cluster, and every other pointer, is the same. *)
Lemma set_l2_refs r c :
  (forall g', r = RData g' -> g' <> g) -> refs q' r c <-> refs q r c.
Proof.
  intros Hne. destruct r as [| |k|k|s|i|g']; cbn [refs]; try done.
  - change (rtn q') with (rtn q). split; intros (Hs & ? & E); (split; [done|split; [done|]]);
      [by rewrite <- set_l2_rt|by rewrite set_l2_rt].
  - cbn [q_header with_file]. specialize (Hne g' eq_refl).
    split; intros (Hg' & ? & E); (split; [done|split; [done|]]);
      [rewrite set_l2_at in E by done|rewrite set_l2_at by done]; by rewrite (proj2 (Z.eqb_neq _ _)) in *.
Qed.

Lemma set_l2_content x :
  0 <= x < h_size (q_header q) -> x / cs q <> g -> content q' x = content q x.
Proof.
  intros Hx Hne. apply (content_ext q q' rho); try done.
  - rewrite set_l2_at by exact (guest_cluster q rho I x Hx). by rewrite (proj2 (Z.eqb_neq _ _)).
  - intros c Hr. apply set_l2_agree. rewrite Hr. cbn. tauto.
Qed.
End SetL2.

(** *** Linking and unlinking a data cluster *)

Lemma l2_data_copied c0 : fresh c0 -> l2_data (c0 * cs q .| QCOW_OFLAG_COPIED) = Some (c0 * cs q).
Proof.
  intros Hf. pose proof (fresh_fits c0 Hf) as [H56 _]. destruct (copied_entry _ (fresh_aligned c0) H56) as (E1 & E2 & _).
  unfold l2_data. rewrite E1, E2. destruct Hf as (_ & _ & ? & _). pose proof (cs_pos q rho I).
  by rewrite (proj2 (Z.eqb_neq _ _)) by nia.
Qed.

Lemma link_step g c0 :
  guest g -> l1_off q (g / l2n (q_header q)) <> 0 -> l2_data (l2_at q g) = None -> fresh c0 ->
  let q' := with_file q (set_l2_file g (c0 * cs q .| QCOW_OFLAG_COPIED)) in
  Image q' (upd rho c0 (RData g)) /\ (forall m, Counts q m -> Counts q' m) /\
  (forall x, 0 <= x < h_size (q_header q) ->
    content q' x = if x / cs q =? g then getb (q_file q) (c0 * cs q + x mod cs q) else content q x).
Proof.
  intros Hg Ht Hd Hf q'. pose proof (cs_pos q rho I) as Hcs. pose proof (fresh_fits c0 Hf) as [H56 _].
  destruct (copied_entry _ (fresh_aligned c0) H56) as (E1 & E2 & E3 & E4). pose proof (l2_data_copied c0 Hf) as E5.
  set (e := c0 * cs q .| QCOW_OFLAG_COPIED) in *. pose proof Hf as (Hfree & Hin & Hpos & Hlt).
  pose proof (set_l2_len g e Hg Ht) as Hl. split_and!.
  - split.
    + apply set_l2_shape; try done. intros o Ho. rewrite E5 in Ho. simplify_eq. split; [apply Z.mod_mul; lia|done].
    + apply Roles_add; try done.
      * change (q_file q') with (set_l2_file g e). lia.
      * split; [apply Hin|]. change (q_file q') with (set_l2_file g e). rewrite Hl. apply Hin.
      * cbn [refs]. split; [done|]. split; [done|]. by rewrite (set_l2_at g e), Z.eqb_refl.
      * intros r c Hrc. destruct (decide (r = RData g)) as [->|Hne].
        -- right. split; [done|]. cbn [refs] in Hrc. destruct Hrc as (_ & _ & E). rewrite (set_l2_at g e), Z.eqb_refl, E5 in E by done.
           simplify_eq. change (q_header q') with (q_header q) in E. nia.
        -- left. apply (set_l2_refs g e) in Hrc; [done..|]. intros g' ->. congruence.
      * intros r c Hrc. apply (set_l2_refs g e); try done. intros g' -> ->. destruct Hrc as (_ & _ & E). by rewrite Hd in E.
  - intros m. by apply set_l2_counts.
  - intros x Hx. destruct (Z.eqb_spec (x / cs q) g) as [Eg|]; [|by apply set_l2_content].
    unfold content. change (q_header q') with (q_header q). rewrite Eg. rewrite (set_l2_at g e), Z.eqb_refl, E2, E1 by done.
    rewrite (proj2 (Z.eqb_neq _ _)) by nia. apply (set_l2_agree g e Hg Ht); [rewrite Hfree; cbn; tauto|]. apply Z.mod_pos_bound. lia.
Qed.

Lemma unlink_step g c :
  guest g -> l1_off q (g / l2n (q_header q)) <> 0 -> l2_data (l2_at q g) = Some (c * cs q) ->
  let q' := with_file q (set_l2_file g QCOW_OFLAG_ZERO) in
  Image q' (upd rho c Free) /\ (forall m, Counts q m -> Counts q' m) /\
  (forall x, 0 <= x < h_size (q_header q) -> content q' x = if x / cs q =? g then 0 else content q x).
Proof.
  intros Hg Ht Hd q'. pose proof (cs_pos q rho I) as Hcs. assert (He : fits 64 QCOW_OFLAG_ZERO) by done.
  destruct (data_role q rho I g _ Hg Hd) as (_ & Hr & _). rewrite Z.div_mul in Hr by lia.
  pose proof (set_l2_len g QCOW_OFLAG_ZERO Hg Ht) as Hl. split_and!.
  - split; [by apply set_l2_shape|]. apply (Roles_del q' c (RData g)); try done.
    + change (q_file q') with (set_l2_file g QCOW_OFLAG_ZERO). lia.
    + intros r c' Hrc. assert (Hne : r <> RData g).
      { intros ->. cbn [refs] in Hrc. destruct Hrc as (_ & _ & E). by rewrite (set_l2_at g QCOW_OFLAG_ZERO), Z.eqb_refl in E. }
      split; [|done]. apply (set_l2_refs g QCOW_OFLAG_ZERO) in Hrc; [done..|]. intros g' ->. congruence.
    + intros r c' Hrc Hne. apply (set_l2_refs g QCOW_OFLAG_ZERO); try done. intros g' ->. congruence.
  - intros m. by apply set_l2_counts.
  - intros x Hx. destruct (Z.eqb_spec (x / cs q) g) as [Eg|]; [|by apply set_l2_content].
    unfold content. change (q_header q') with (q_header q). rewrite Eg. by rewrite (set_l2_at g QCOW_OFLAG_ZERO), Z.eqb_refl.
Qed.

(** *** Linking an L2 table *)

Definition l1_entry_file (i e : Z) : list Z :=
  file_write (q_file q) (h_l1_table_offset (q_header q) + 8 * i) (be_bytes 8 e).

Section LinkL2.
Context (i c0 : Z) (Hi : 0 <= i < h_l1_size (q_header q)) (H0 : l1_off q i = 0) (Hf : fresh c0) (Hz : zero_cluster q c0).
Let e := c0 * cs q .| QCOW_OFLAG_COPIED.
Let q1 := with_file q (l1_entry_file i e).
Let q' := with_l1 q1 (<[Z.to_nat i := e]> (q_l1 q)).

Lemma l1_write_agree c : rho c <> RL1 (i / l2n (q_header q)) -> agree q q1 c.
Proof.
  intros Hc. pose proof (cs_pos q rho I). pose proof (l2n_cs q rho I) as [? [? ?]].
  destruct (l1_entry_role q rho I i Hi) as (E & Hr & [Hin _]). pose proof (Z.mod_pos_bound i (l2n (q_header q)) ltac:(lia)).
  unfold q1, l1_entry_file. rewrite E. eapply agree_write; [done|lia|lia|rewrite len_be_bytes; lia|]. congruence.
Qed.

Lemma l1_write_len : len (l1_entry_file i e) = len (q_file q).
Proof.
  destruct (l1_entry_role q rho I i Hi) as (E & _ & [Hi1 Hi2]). pose proof (l2n_cs q rho I) as [? [? ?]].
  pose proof (Z.mod_pos_bound i (l2n (q_header q)) ltac:(lia)). pose proof (geo_l1_off _ G).
  unfold l1_entry_file. rewrite len_file_write by lia. rewrite len_be_bytes, E. case_bool_decide; lia.
Qed.

Lemma l1_get i' : 0 <= i' -> getb (q_l1 q') i' = if i' =? i then e else getb (q_l1 q) i'.
Proof.
  intros Hi'. pose proof (sh_l1_len q S) as Hl. unfold len in Hl. cbn [q_l1 q' with_l1].
  rewrite !getb_lookup by done. destruct (Z.eqb_spec i' i) as [->|Hne].
  - by rewrite list_lookup_insert_eq by lia.
  - by rewrite list_lookup_insert_ne by lia.
Qed.

Lemma l1_off_link i' : 0 <= i' -> l1_off q' i' = if i' =? i then c0 * cs q else l1_off q i'.
Proof.
  intros Hi'. unfold l1_off. rewrite l1_get by done. case_match; [|done].
  by apply (copied_entry _ (fresh_aligned c0)), fresh_fits.
Qed.

Lemma l2_at_link g : guest g -> l2_at q' g = l2_at q g.
Proof.
  intros Hg. destruct (guest_index q rho I g Hg) as [Hgi Hgj]. pose proof (l2n_cs q rho I) as [? _].
  unfold l2_at. change (q_header q') with (q_header q). rewrite l1_off_link by lia.
  destruct (Z.eqb_spec (g / l2n (q_header q)) i) as [Ei|Hne].
  - rewrite Ei, H0, Z.eqb_refl. pose proof (cs_pos q rho I). destruct Hf as (Hfree & ? & ? & _).
    rewrite (proj2 (Z.eqb_neq _ _)) by nia. change (q_file q') with (q_file q1).
    rewrite (agree_be q q1 c0) by (first [apply l1_write_agree; congruence|lia]). apply zero_cluster_be; try done; lia.
  - destruct (Z.eqb_spec (l1_off q (g / l2n (q_header q))) 0) as [|Hn]; [done|].
    destruct (l2_pos_place g Hg Hn) as (E & Hr & _). fold (l2_pos g). rewrite E. change (q_file q') with (q_file q1).
    apply (agree_be q q1); try lia. apply l1_write_agree. congruence.
Qed.

Lemma rt_ptr_link s : 0 <= s < rtn q -> rt_ptr q' s = rt_ptr q s.
Proof.
  intros Hs. apply (rt_ptr_frame q rho I (l1_entry_file i e)); [|done]. intros c Hc. apply l1_write_agree.
  intros Hr. by rewrite Hr in Hc.
Qed.

Lemma link_l2_refs r c : r <> RL2 i -> refs q' r c <-> refs q r c.
Proof.
  intros Hne.
  destruct r as [| |k|k|s|i'|g]; cbn [refs]; try done.
  - change (rtn q') with (rtn q). split; intros (Hs & ? & E); (split; [done|split; [done|]]);
      [by rewrite <- rt_ptr_link|by rewrite rt_ptr_link].
  - change (q_header q') with (q_header q).
    split; intros (Hs & ? & E); (split; [done|split; [done|]]);
      [rewrite l1_off_link in E by lia|rewrite l1_off_link by lia]; rewrite (proj2 (Z.eqb_neq _ _)) in *; congruence.
  - change (q_header q') with (q_header q).
    split; intros (Hs & ? & E); (split; [done|split; [done|]]); [by rewrite <- l2_at_link|by rewrite l2_at_link].
Qed.

Lemma link_l2_step :
  Image q' (upd rho c0 (RL2 i)) /\ (forall m, Counts q m -> Counts q' m) /\ same_content q q'.
Proof.
  pose proof (cs_pos q rho I) as Hcs. pose proof Hf as (Hfree & Hin & Hpos & Hlt).
  pose proof (fresh_fits c0 Hf) as [H56 _]. pose proof l1_write_len as Hl.
  destruct (copied_entry _ (fresh_aligned c0) H56) as (E1 & E2 & E3 & E4). fold e in E1, E2, E3, E4.
  assert (Hag : forall c, ~ (exists k, rho c = RL1 k) -> agree q q1 c).
  { intros c Hc. apply l1_write_agree. intros Hr. apply Hc. by exists (i / l2n (q_header q)). }
  split_and!.
  - split.
    + shape_rest S; change (q_header q') with (q_header q).
      * cbn [q_l1 q' with_l1]. unfold len. rewrite length_insert. exact (sh_l1_len q S).
      * intros i' Hi'. rewrite l1_off_link, l1_get by lia. case_match; [|by apply (sh_l1_ptr q S)].
        split; [apply Z.mod_mul; lia|done].
      * intros g o Hg. rewrite l2_at_link by done. by apply (sh_l2_ptr q S).
      * intros s Hs. rewrite rt_ptr_link by done. by apply (sh_rt_ptr q S).
      * intros i' Hi'. rewrite l1_get by lia. change (q_file q') with (l1_entry_file i e). pose proof (geo_l1_off _ G).
        unfold l1_entry_file. destruct (Z.eqb_spec i' i) as [->|].
        -- apply be_at_write64; [lia|done].
        -- rewrite be_at_write_other; [by apply (sh_l1_disk q S)|lia|]. rewrite len_be_bytes. lia.
      * apply (head_frame q rho I (l1_entry_file i e)); [|lia]. apply Hag. intros [k Hk].
        by rewrite (proj1 (header_role q rho I)) in Hk.
    + apply Roles_add; try done.
      * change (q_file q') with (l1_entry_file i e). lia.
      * split; [apply Hin|]. change (q_file q') with (l1_entry_file i e). rewrite Hl. apply Hin.
      * cbn [refs]. split; [done|]. split; [done|]. rewrite l1_off_link by lia. by rewrite Z.eqb_refl.
      * intros r c Hrc. destruct (decide (r = RL2 i)) as [->|Hne]; [right|left; by apply link_l2_refs].
        split; [done|]. cbn [refs] in Hrc. destruct Hrc as (_ & _ & E). rewrite l1_off_link, Z.eqb_refl in E by lia.
        change (q_header q') with (q_header q) in E. nia.
      * intros r c Hrc. destruct (decide (r = RL2 i)) as [->|Hne]; [|by apply link_l2_refs].
        cbn [refs] in Hrc. destruct Hrc as (_ & ? & E). rewrite H0 in E. nia.
  - intros m Hm. apply (refcount_frame q rho I (l1_entry_file i e) m Hm). intros c Hc. apply Hag. intros [k Hk].
    rewrite Hk in Hc. cbn in Hc. tauto.
  - intros x Hx. apply (content_ext q q' rho); try done.
    + apply l2_at_link. exact (guest_cluster q rho I x Hx).
    + intros c Hr. apply l1_write_agree. congruence.
Qed.
End LinkL2.
End OneStep.
End Steps.
