(* ===== verification/QcowAlloc.v ===== *)
(** * Allocation in a qcow2 image

    What each helper of the allocator does to a well-formed image: lookups
    return what the image's pointers say, and an allocation appends a zeroed
    cluster with refcount one and changes no byte the guest sees, allocating
    refcount blocks and growing the refcount table on the way.  The facts
    about an allocation hold while the file stays within [small]; since no
    operation shrinks the file ([grows]), bounding the final length is enough. *)

From Stdlib Require Import ZArith Lia Bool.
From stdpp Require Import base decidable numbers list.
From S2P Require Import Prelude Rust Storage Qcow QcowInv QcowSteps.

Section Alloc.
Context {B : Type} {SB : StorageBackend B} {DB : Disk B}.
Abbreviation qcow := (QcowBackend B).
Abbreviation cs q := (csz (q_header q)).
Abbreviation qm A := (M qcow serr A).

(** An image file of at most [2^31] clusters. *)
Definition small (q : qcow) : Prop := len (q_file q) <= 2 ^ 31 * cs q.

(** ** Lookups *)

Section Lookup.
Context (q : qcow) (rho : Z -> role) (I : Image q rho) (Hsm : small q).
Let S : Shape q := proj1 I.
Let G : geometry (q_header q) := sh_geo q S.

Lemma small_len : len (q_file q) <= 2 ^ 52.
Proof. pose proof (cs_pos q rho I). unfold small in Hsm. lia. Qed.

Lemma q_read_ok off n :
  0 <= off -> 0 <= n -> off + n <= len (q_file q) -> q_read off n q = (q, Ok (sub (q_file q) off n)).
Proof.
  intros. pose proof small_len. unfold q_read, OFF_MAX. rewrite (proj2 (Z.ltb_ge _ _)) by lia.
  by rewrite (proj2 (Z.leb_le _ _)).
Qed.

Lemma read_be_ok off n :
  0 <= off -> 0 <= n -> off + n <= len (q_file q) -> read_be off n q = (q, Ok (be_at (q_file q) off n)).
Proof.
  intros. unfold read_be, mbind, M_bind. rewrite q_read_ok by done. unfold mret, M_ret. by rewrite be_value_sub.
Qed.

Lemma rt_entries_ok : rt_entries q = Ok (rtn q).
Proof.
  pose proof (sh_rt q S) as [? _]. pose proof (l2n_cs q rho I) as [E [? ?]].
  unfold rt_entries. rewrite cluster_size_ok by done. cbn. rewrite rmul_ok by nia. cbn. f_equal.
  unfold rtn. rewrite E. replace (q_rt_clusters q * (8 * l2n (q_header q))) with (q_rt_clusters q * l2n (q_header q) * 8) by lia.
  apply Z.div_mul. lia.
Qed.

Lemma refcount_block_offset_ok c :
  0 <= c -> refcount_block_offset c q = (q, Ok (if block_of q c =? 0 then None else Some (block_of q c))).
Proof.
  intros Hc. pose proof (rbn_cs q rho I) as [E [? ?]]. pose proof (l2n_cs q rho I) as [? [? ?]].
  unfold refcount_block_offset, mbind, M_bind, get, lift. rewrite refcount_block_entries_ok by done.
  rewrite rdiv_ok by lia. rewrite rt_entries_ok. unfold block_of. set (s := c / rbn (q_header q)).
  destruct (Z.leb_spec (rtn q) s) as [|Hs]; [done|].
  assert (Hs0 : 0 <= s) by (apply Z.div_pos; lia). pose proof (sh_rt q S) as [Hrc Ho].
  destruct (rt_entry_role q rho I s (conj Hs0 Hs)) as (Eo & _ & [Hi1 Hi2]).
  pose proof (Z.mod_pos_bound s (l2n (q_header q)) ltac:(lia)). pose proof small_len.
  rewrite rmul_ok by (unfold rtn in Hs; nia). rewrite radd_ok by lia.
  rewrite read_be_ok by lia. rewrite (Z.mul_comm s 8). fold (rt_ptr q s). by case_match.
Qed.

Lemma rc_place_ok c :
  0 <= c -> block_of q c <> 0 ->
  rc_off q c + wid (q_header q) <= len (q_file q) /\ 0 <= rc_off q c /\
  0 <= block_of q c /\ 0 <= c mod rbn (q_header q) < rbn (q_header q) /\
  wid (q_header q) * (c mod rbn (q_header q)) < 2 ^ 21.
Proof.
  intros Hc Hb. pose proof (cs_pos q rho I). pose proof (rbn_cs q rho I) as [E [? ?]]. pose proof (wid_cases _ G).
  destruct (rc_place q rho I c Hc Hb) as (Eb & _ & [Hi1 Hi2] & ? & ?).
  pose proof (Z.mod_pos_bound c (rbn (q_header q)) ltac:(lia)). nia.
Qed.

Lemma read_refcount_ok c : 0 <= c -> read_refcount c q = (q, Ok (refcount q c)).
Proof.
  intros Hc. pose proof (rbn_cs q rho I) as [E [? ?]]. pose proof (wid_cases _ G). pose proof small_len.
  destruct (whole_bytes_ok _ G) as (W1 & W2 & W3).
  unfold read_refcount, mbind, M_bind. rewrite refcount_block_offset_ok by done. unfold refcount.
  destruct (Z.eqb_spec (block_of q c) 0) as [|Hb]; [done|].
  destruct (rc_place_ok c Hc Hb) as (? & ? & ? & ? & ?). unfold rc_off in *.
  unfold header, lift. rewrite refcount_block_entries_ok, refcount_bits_ok by done. rewrite rrem_ok by lia.
  rewrite W1, W2, W3. rewrite rmul_ok by lia. rewrite radd_ok by lia. rewrite read_be_ok by lia.
  by rewrite (Z.mul_comm (c mod _)).
Qed.

Lemma write_refcount_ok c v :
  0 <= c -> block_of q c <> 0 -> write_refcount c v q = (with_file q (rc_file q c v), Ok tt).
Proof.
  intros Hc Hb. pose proof (rbn_cs q rho I) as [E [? ?]]. pose proof small_len. pose proof (wid_cases _ G).
  destruct (whole_bytes_ok _ G) as (W1 & W2 & W3). destruct (rc_place_ok c Hc Hb) as (? & ? & ? & ? & ?).
  unfold write_refcount, mbind, M_bind. rewrite refcount_block_offset_ok by done.
  rewrite (proj2 (Z.eqb_neq _ _)) by done. unfold header, lift.
  rewrite refcount_block_entries_ok, refcount_bits_ok by done. rewrite rrem_ok by lia.
  rewrite W1, W3. unfold rc_off in *. rewrite rmul_ok by lia. rewrite radd_ok by lia. unfold q_write, OFF_MAX.
  rewrite (proj2 (Z.ltb_ge _ _)) by lia. by rewrite (Z.mul_comm (c mod _)).
Qed.

(** Where the guest byte [x] is stored. *)
Definition locate (x : Z) : ClusterLoc :=
  let e := l2_at q (x / cs q) in
  if tst e QCOW_OFLAG_ZERO then Zeroed
  else let o := e .& L2_OFFSET_MASK in if o =? 0 then Unallocated else Mapped (o + x mod cs q).

Lemma land_cs x : x .& (cs q - 1) = x mod cs q.
Proof.
  unfold csz. pose proof (geo_bits _ G). rewrite <- Z.land_ones by lia. by rewrite Z.ones_equiv, <- Z.sub_1_r.
Qed.

Lemma l1_off_range i : 0 <= l1_off q i < 2 ^ 56.
Proof.
  assert (Hf : fits 56 (l1_off q i)) by (apply fits_land_r; done). exact Hf.
Qed.

Lemma l2_read_ok g :
  guest q g -> l1_off q (g / l2n (q_header q)) <> 0 ->
  read_be (l1_off q (g / l2n (q_header q)) + 8 * (g mod l2n (q_header q))) 8 q = (q, Ok (l2_at q g)).
Proof.
  intros Hg Ht. pose proof (l2n_cs q rho I) as [? [? ?]].
  destruct (l2_pos_place q rho I g Hg Ht) as (E & _ & [Hi1 Hi2] & ?). fold (l2_pos q g). rewrite read_be_ok by lia.
  unfold l2_at. by rewrite (proj2 (Z.eqb_neq _ _)).
Qed.

Lemma resolve_cluster_ok x :
  0 <= x < h_size (q_header q) -> resolve_cluster x q = (q, Ok (locate x)).
Proof.
  intros Hx. pose proof (guest_cluster q rho I x Hx) as Hg. pose proof (cs_pos q rho I).
  destruct (guest_index q rho I _ Hg) as [Hi Hj]. pose proof (l1_off_range (x / cs q / l2n (q_header q))).
  unfold resolve_cluster, mbind, M_bind, get, lift. rewrite l1_index_of_ok by done.
  rewrite (sh_l1_len q S), (proj2 (Z.leb_gt _ _)) by lia. fold (l1_off q (x / cs q / l2n (q_header q))).
  unfold locate. destruct (Z.eqb_spec (l1_off q (x / cs q / l2n (q_header q))) 0) as [E0|Ht].
  { unfold l2_at. rewrite E0. done. }
  rewrite l2_entry_off_ok by (done || lia). rewrite l2_read_ok by done.
  destruct (tst (l2_at q (x / cs q)) QCOW_OFLAG_ZERO) eqn:Ez; [done|].
  destruct (Z.eqb_spec (l2_at q (x / cs q) .& L2_OFFSET_MASK) 0) as [|Hn]; [done|].
  rewrite cluster_size_ok by done. rewrite land_cs.
  assert (Hf : fits 56 (l2_at q (x / cs q) .& L2_OFFSET_MASK)) by (apply fits_land_r; done). unfold fits in Hf.
  pose proof (Z.mod_pos_bound x (cs q) ltac:(lia)). by rewrite radd_ok by lia.
Qed.
End Lookup.

(** ** No operation shrinks the file *)

Definition grows_at {A} (m : qm A) (q : qcow) : Prop :=
  len (q_file q) <= len (q_file (m q).1) /\ q_header (m q).1 = q_header q.
Definition grows {A} (m : qm A) : Prop := forall q, geometry (q_header q) -> grows_at m q.
Definition reader {A} (m : qm A) : Prop := forall q, (m q).1 = q.

Lemma grows_bind_at {A C} (m : qm A) (k : A -> qm C) q :
  grows_at m q -> (forall a q1, m q = (q1, Ok a) -> grows_at (k a) q1) -> grows_at (m ≫= k) q.
Proof.
  intros [Hm Hh] Hk. unfold grows_at, mbind, M_bind in *. destruct (m q) as [q1 [a|e|]] eqn:E; cbn in *; try done.
  destruct (Hk a q1 eq_refl). split; [lia|congruence].
Qed.

Lemma grows_bind {A C} (m : qm A) (k : A -> qm C) :
  grows m -> (forall a, grows (k a)) -> grows (m ≫= k).
Proof.
  intros Hm Hk q G. apply grows_bind_at; [by apply Hm|]. intros a q1 E. destruct (Hm q G) as [_ Hh]. rewrite E in Hh.
  apply Hk. cbn in Hh. by rewrite Hh.
Qed.

Lemma reader_grows {A} (m : qm A) : reader m -> grows m.
Proof. intros Hm q _. unfold grows_at. by rewrite Hm. Qed.

Lemma reader_bind {A C} (m : qm A) (k : A -> qm C) :
  reader m -> (forall a, reader (k a)) -> reader (m ≫= k).
Proof.
  intros Hm Hk q. unfold mbind, M_bind. pose proof (Hm q). destruct (m q) as [q1 [a|e|]]; cbn in *; subst; try done. apply Hk.
Qed.

Lemma reader_simple {A} (f : qcow -> res serr A) : reader (fun q => (q, f q)).
Proof. by intros q. Qed.

Lemma reader_mfor {X} (l : list X) (f : X -> qm unit) : (forall x, reader (f x)) -> reader (mfor l f).
Proof. intros Hf. induction l; cbn; [by intros q|by apply reader_bind]. Qed.

Lemma grows_mfor {X} (l : list X) (f : X -> qm unit) : (forall x, grows (f x)) -> grows (mfor l f).
Proof. intros Hf. induction l; cbn; [by apply reader_grows|by apply grows_bind]. Qed.

Lemma len_file_write_ge f off bs : len f <= len (file_write f off bs).
Proof.
  destruct bs as [|b bs]; [done|]. unfold file_write. rewrite len_splice, len_app. pose proof (len_nonneg (zeros (off + len (b :: bs) - len f))). lia.
Qed.

Lemma grows_q_write off bs : grows (q_write off bs).
Proof.
  intros q _. unfold grows_at, q_write. case_match; [done|]. split; [apply len_file_write_ge|done].
Qed.

Lemma grows_set_len n q : len (q_file q) <= n -> grows_at (q_set_len n) q.
Proof.
  intros Hn. pose proof (len_nonneg (q_file q)). unfold grows_at, q_set_len. case_match; [done|]. cbn.
  rewrite len_set_len by lia. done.
Qed.

End Alloc.

(** Walk over a computation: every state change is one of the above. *)
Ltac reading :=
  repeat first
    [ solve [auto with qmono] | apply reader_bind; [|intros] | exact (reader_simple _) | apply reader_mfor; intros
    | match goal with |- reader (match ?x with _ => _ end) => destruct x end
    | progress cbv zeta ].
Ltac growing :=
  repeat first
    [ solve [auto with qmono] | solve [apply reader_grows; auto with qmono] | exact (reader_grows _ (reader_simple _))
    | match goal with
      | |- grows (match ?x with _ => _ end) => destruct x
      | |- grows (mbind _ _) => apply grows_bind; [|intros]
      | |- grows (mfor _ _) => apply grows_mfor; intros
      end
    | progress cbv zeta ].

Create HintDb qmono.

Section Growth.
Context {B : Type} {SB : StorageBackend B} {DB : Disk B}.
Abbreviation qcow := (QcowBackend B).
Abbreviation cs q := (csz (q_header q)).
Abbreviation qm A := (M qcow serr A).
#[local] Hint Resolve grows_q_write : qmono.

Lemma reader_read_be off n : reader (B:=B) (read_be off n).
Proof. unfold read_be. reading. Qed.
#[local] Hint Resolve reader_read_be : qmono.
Lemma reader_block c : reader (B:=B) (refcount_block_offset c).
Proof. unfold refcount_block_offset. reading. Qed.
#[local] Hint Resolve reader_block : qmono.
Lemma reader_refcount c : reader (B:=B) (read_refcount c).
Proof. unfold read_refcount. reading. Qed.
Lemma reader_resolve x : reader (B:=B) (resolve_cluster x).
Proof. unfold resolve_cluster. reading. Qed.
Lemma grows_write_refcount c v : grows (B:=B) (write_refcount c v).
Proof. unfold write_refcount. growing. Qed.
#[local] Hint Resolve reader_refcount reader_resolve grows_write_refcount : qmono.

Lemma grows_set_rt o n : grows (B:=B) (set_rt o n).
Proof. intros q _. done. Qed.
Lemma grows_set_l1 i e : grows (B:=B) (set_l1 i e).
Proof. intros q _. unfold grows_at, set_l1. by case_match. Qed.
#[local] Hint Resolve grows_set_rt grows_set_l1 : qmono.

Lemma grows_grow i : grows (B:=B) (grow_refcount_table i).
Proof. unfold grow_refcount_table. growing. Qed.
#[local] Hint Resolve grows_grow : qmono.

(** The file is only ever set to a length past its end. *)
Lemma next_multiple_ge x m y : 0 < m -> next_multiple_of x m = Ok y -> x <= y.
Proof.
  intros Hm E. unfold next_multiple_of, rmul, div_ceil in E. case_match; [|done]. simplify_eq.
  pose proof (Z.div_mod (x + m - 1) m ltac:(lia)). pose proof (Z.mod_pos_bound (x + m - 1) m ltac:(lia)). lia.
Qed.

Lemma reader_bind_at {A C} (m : qm A) (k : A -> qm C) q :
  reader m -> (forall a, m q = (q, Ok a) -> grows_at (k a) q) -> grows_at (m ≫= k) q.
Proof.
  intros Hm Hk. apply grows_bind_at; [unfold grows_at; by rewrite Hm|]. intros a q1 E.
  pose proof (Hm q) as Eq. rewrite E in Eq. cbn in Eq. subst q1. by apply Hk.
Qed.

Lemma append_grows {A} (q : qcow) c off (k : Z -> qm A) :
  geometry (q_header q) -> cluster_size (q_header q) = Ok c -> next_multiple_of (len (q_file q)) c = Ok off ->
  (forall b, grows (B:=B) (k b)) ->
  grows_at (new_end ← lift (radd off c); q_set_len new_end ;; k new_end) q.
Proof.
  intros G Hc Ho Hk. rewrite cluster_size_ok in Hc by done. injection Hc as <-. pose proof (csz_range _ G).
  apply next_multiple_ge in Ho; [|lia]. apply reader_bind_at; [done|]. intros n [= Hn].
  unfold radd in Hn. case_match; [|done]. injection Hn as <-.
  assert (Hg : grows_at (q_set_len (off + csz (q_header q))) q) by (apply grows_set_len; lia).
  apply grows_bind_at; [done|]. intros [] q1 E. destruct Hg as [_ Hg]. rewrite E in Hg. cbn in Hg.
  apply Hk. by rewrite Hg.
Qed.

Lemma grows_publish n s i (q : qcow) :
  geometry (q_header q) -> grows_at (publish_refcount_block (q_header q) n s i) q.
Proof.
  intros G. unfold publish_refcount_block. apply reader_bind_at; [reading|]. intros [b|] _; [by apply reader_grows|].
  apply reader_bind_at; [reading|]. intros c [= Hc]. apply reader_bind_at; [by intros|]. intros end_ [= <-].
  apply reader_bind_at; [reading|]. intros off [= Ho]. apply (append_grows q c off (fun _ => _)); try done. intros _. growing.
Qed.

Lemma grows_alloc_block i : grows (B:=B) (allocate_refcount_block i).
Proof.
  intros q G. unfold allocate_refcount_block. do 4 (apply reader_bind_at; [reading|]; intros ? ?). injection H as <-.
  assert (Hg : grows (if a2 <=? a1 then grow_refcount_table a1 else mret tt)) by growing.
  apply grows_bind_at; [by apply Hg|]. intros [] q1 E1. destruct (Hg q G) as [_ Hh]. rewrite E1 in Hh. cbn in Hh.
  rewrite <- Hh in *. by apply grows_publish.
Qed.
#[local] Hint Resolve grows_alloc_block : qmono.

Lemma grows_alloc_loop fuel : forall c (q : qcow), geometry (q_header q) -> cluster_size (q_header q) = Ok c ->
  grows_at (alloc_loop fuel c) q.
Proof.
  induction fuel as [|fuel IH]; intros c q G Hc; cbn [alloc_loop].
  all: apply reader_bind_at; [by intros|]; intros end_ [= <-].
  all: apply reader_bind_at; [reading|]; intros off [= Ho].
  all: apply reader_bind_at; [reading|]; intros [b|] _.
  1,3: apply (append_grows q c off (fun _ => _)); try done; intros _; growing.
  - by apply reader_grows.
  - apply grows_bind_at; [by apply grows_alloc_block|]. intros a q1 E. destruct (grows_alloc_block (off / c) q G) as [_ Hh].
    rewrite E in Hh. cbn in Hh. apply IH; by rewrite Hh.
Qed.

Lemma grows_alloc : grows (B:=B) allocate_host_cluster.
Proof.
  intros q G. unfold allocate_host_cluster. apply reader_bind_at; [by intros|]. intros h [= <-].
  apply reader_bind_at; [by intros|]. intros c [= Hc]. by apply grows_alloc_loop.
Qed.
#[local] Hint Resolve grows_alloc : qmono.

Lemma grows_alloc_l2 i : grows (B:=B) (allocate_l2_table i).
Proof. unfold allocate_l2_table. growing. Qed.
#[local] Hint Resolve grows_alloc_l2 : qmono.

Lemma grows_copy b u c x o : grows (B:=B) (copy_from_backing b u c x o).
Proof. unfold copy_from_backing. growing. Qed.
#[local] Hint Resolve grows_copy : qmono.

Lemma grows_fill h b c x t : grows (B:=B) (fill_data_cluster h b c x t).
Proof. unfold fill_data_cluster. growing. Qed.
#[local] Hint Resolve grows_fill : qmono.

Lemma grows_alloc_data g : grows (B:=B) (allocate_data_cluster g).
Proof. unfold allocate_data_cluster. growing. Qed.
#[local] Hint Resolve grows_alloc_data : qmono.

Lemma grows_plan fuel : forall c n d x p, grows (B:=B) (plan_loop fuel c n d x p).
Proof. induction fuel as [|fuel IH]; intros; cbn [plan_loop]; growing. Qed.
#[local] Hint Resolve grows_plan : qmono.

Lemma grows_write off buf : grows (B:=B) (qcow_write_at off buf).
Proof. unfold qcow_write_at. growing. Qed.

Lemma grows_discard g : grows (B:=B) (discard_cluster g).
Proof. unfold discard_cluster. growing. Qed.
#[local] Hint Resolve grows_discard : qmono.

Lemma grows_discards fuel : forall c g e, grows (B:=B) (discard_loop fuel c g e).
Proof. induction fuel as [|fuel IH]; intros; cbn [discard_loop]; growing. Qed.
#[local] Hint Resolve grows_discards : qmono.

Lemma grows_trim off n : grows (B:=B) (qcow_trim off n).
Proof. unfold qcow_trim. growing. Qed.

(** ** Reasoning about the final state *)

Definition wps {A} (m : qm A) (Q : qcow -> res serr A -> Prop) (q : qcow) : Prop :=
  wp m (fun q' r => small q' -> Q q' r) q.

Lemma wps_elim {A} (m : qm A) Q q q' r : wps m Q q -> m q = (q', r) -> small q' -> Q q' r.
Proof. intros H E. unfold wps, wp in H. by rewrite E in H. Qed.

Lemma grows_small {A} (m : qm A) q : grows_at m q -> small (m q).1 -> small q.
Proof. intros [Hl Hh] Hs. unfold small in *. rewrite Hh in Hs. lia. Qed.

Lemma wps_small {A} (m : qm A) Q q : grows_at m q -> (small q -> wps m Q q) -> wps m Q q.
Proof. intros Hg H Hs. apply H; [|done]. by apply (grows_small m). Qed.

Lemma wps_small_grows {A} (m : qm A) Q q : geometry (q_header q) -> grows m -> (small q -> wps m Q q) -> wps m Q q.
Proof. intros G Hm. apply wps_small. by apply Hm. Qed.

Lemma wps_bind {A C} (m : qm A) (k : A -> qm C) Q q :
  (forall a q1, m q = (q1, Ok a) -> grows_at (k a) q1) ->
  wps m (fun q1 r => match r with
                     | Ok a => wps (k a) Q q1
                     | Err e => Q q1 (Err e)
                     | Panic => Q q1 Panic
                     end) q ->
  wps (m ≫= k) Q q.
Proof.
  intros Hk H. unfold wps, wp, mbind, M_bind in *. destruct (m q) as [q1 [a|e|]]; cbn in *; try done.
  intros Hs. apply H; [|done]. by apply (grows_small (k a)), Hs; apply Hk.
Qed.

Lemma wps_bind_grows {A C} (m : qm A) (k : A -> qm C) Q q :
  geometry (q_header q) -> grows m -> (forall a, grows (k a)) ->
  wps m (fun q1 r => match r with
                     | Ok a => wps (k a) Q q1
                     | Err e => Q q1 (Err e)
                     | Panic => Q q1 Panic
                     end) q ->
  wps (m ≫= k) Q q.
Proof.
  intros G Hm Hk. apply wps_bind. intros a q1 E. apply Hk. destruct (Hm q G) as [_ Hh]. rewrite E in Hh. cbn in Hh. by rewrite Hh.
Qed.

Lemma wps_run {A} (m : qm A) (Q : qcow -> res serr A -> Prop) q q' r :
  m q = (q', r) -> (small q' -> Q q' r) -> wps m Q q.
Proof. unfold wps, wp. by intros ->. Qed.

Lemma wps_step {A C} (m : qm A) (k : A -> qm C) Q q q' a :
  m q = (q', Ok a) -> wps (k a) Q q' -> wps (m ≫= k) Q q.
Proof. intros E H. unfold wps, wp in *. by rewrite (bind_run _ _ _ _ _ E). Qed.

Lemma wps_mono {A} (m : qm A) (Q Q' : qcow -> res serr A -> Prop) q :
  wps m Q q -> (forall q' r, Q q' r -> Q' q' r) -> wps m Q' q.
Proof. unfold wps, wp. auto. Qed.

(** What allocation keeps. *)
Record keeps (q q' : qcow) : Prop := {
  k_header : q_header q' = q_header q;
  k_backing : q_backing q' = q_backing q;
  k_writable : q_writable q' = q_writable q;
  k_len : len (q_file q) <= len (q_file q');
  k_l2 : forall g, guest q g -> l2_at q' g = l2_at q g;
  k_content : same_content q q';
  k_head : forall k, 0 <= k < cs q -> ~ (48 <= k < 60) -> getb (q_file q') k = getb (q_file q) k;
}.

Lemma qkeeps_refl q : keeps q q.
Proof. by split. Qed.

Lemma qkeeps_trans q1 q2 q3 : keeps q1 q2 -> keeps q2 q3 -> keeps q1 q3.
Proof.
  intros H1 H2. pose proof (k_header _ _ H1) as Eh. split.
  - by rewrite (k_header _ _ H2).
  - by rewrite (k_backing _ _ H2), (k_backing _ _ H1).
  - by rewrite (k_writable _ _ H2), (k_writable _ _ H1).
  - pose proof (k_len _ _ H1). pose proof (k_len _ _ H2). lia.
  - intros g Hg. rewrite (k_l2 _ _ H2), (k_l2 _ _ H1); [done..|]. unfold guest. by rewrite Eh.
  - intros x Hx. rewrite (k_content _ _ H2), (k_content _ _ H1); [done..|]. by rewrite Eh.
  - intros k Hk Hn. rewrite (k_head _ _ H2), (k_head _ _ H1); [done..|by rewrite Eh|done].
Qed.

Lemma keeps_frame q rho f' :
  Image q rho -> len (q_file q) <= len f' ->
  (forall c, is_l2 (rho c) \/ is_data (rho c) \/ c = 0 -> agree q (with_file q f') c) -> keeps q (with_file q f').
Proof.
  intros I Hl Ha. split; try done.
  - intros g Hg. apply (l2_at_frame q rho); auto.
  - intros x Hx. apply (content_frame q rho); [done| |done]. intros c [Hc|Hc]; apply Ha; auto.
  - intros k Hk _. apply (Ha 0); auto.
Qed.
End Growth.

#[export] Hint Resolve grows_q_write reader_read_be reader_block reader_refcount reader_resolve grows_write_refcount
  grows_set_rt grows_set_l1 grows_grow grows_alloc_block grows_alloc grows_alloc_l2 grows_copy grows_fill grows_alloc_data grows_plan : qmono.

(** Run the first computation of a sequence, its result given by the tactic. *)
Tactic Notation "step" tactic3(tac) := eapply wps_step; [tac|]; cbn beta iota zeta.
Tactic Notation "step_lift" tactic3(tac) := step (apply lift_run; tac).
