(* ===== verification/QcowGrow.v ===== *)
(** * Growing the refcount table

    [grow_refcount_table] appends an arena of clusters, the enlarged table and
    the blocks that count the arena itself, moves the table there and frees the
    old one.  Growth either is refused before anything changes or yields a
    consistent image with the same guest bytes, whose table reaches the next
    cluster the allocator will ask for. *)

From Stdlib Require Import ZArith Lia Bool.
From stdpp Require Import base decidable numbers list.
From S2P Require Import Prelude Rust Storage Qcow QcowInv QcowSteps QcowAlloc.

(** ** The number of blocks *)

Section Arena.
Context (r start first : Z) (Hr : 64 <= r) (Hst : 0 <= first <= start / r) (Hb : 0 <= start < 2 ^ 40).

Definition needed (nb : Z) : Z := (start + nb) / r - first + 1.

Lemma needed_mono a b : a <= b -> needed a <= needed b <= needed a + (b - a + r - 1) / r.
Proof.
  intros Hab. unfold needed. assert (start + a <= start + b) by lia.
  pose proof (Z.div_le_mono (start + a) (start + b) r ltac:(lia) ltac:(lia)).
  pose proof (Z.div_mod (start + a) r ltac:(lia)). pose proof (Z.mod_pos_bound (start + a) r ltac:(lia)).
  pose proof (Z.div_mod (start + b) r ltac:(lia)). pose proof (Z.mod_pos_bound (start + b) r ltac:(lia)).
  pose proof (Z.div_mod (b - a + r - 1) r ltac:(lia)). pose proof (Z.mod_pos_bound (b - a + r - 1) r ltac:(lia)).
  split; [lia|]. nia.
Qed.

(** One round of the loop. *)
Lemma arena_round fuel nb :
  1 <= nb <= 2 ^ 40 ->
  arena_blocks fuel r start first nb =
    if needed nb <=? nb then Ok (nb, (start + nb) / r)
    else match fuel with O => Panic | S fuel => arena_blocks fuel r start first (needed nb) end.
Proof.
  intros Hn. pose proof (Z.div_pos start r).
  assert (start / r <= (start + nb) / r) by (apply Z.div_le_mono; lia).
  assert ((start + nb) / r <= start + nb) by (apply Z.div_le_upper_bound; [lia|nia]).
  destruct fuel; cbn [arena_blocks]; rewrite radd_ok by lia; cbn [mbind res_bind];
    rewrite rdiv_ok by lia; cbn [mbind res_bind]; unfold rsub; rewrite (proj2 (Z.ltb_ge _ _)) by lia; cbn [mbind res_bind];
    rewrite radd_ok by lia; cbn [mbind res_bind]; unfold needed; by case_match.
Qed.

Definition arena_done (fuel : nat) (nb : Z) : Prop :=
  exists nb', arena_blocks fuel r start first nb = Ok (nb', (start + nb') / r) /\ nb <= nb' /\ nb' = needed nb'.

Lemma needed_bound nb : 1 <= nb <= 2 ^ 40 -> needed nb <= 2 ^ 36.
Proof.
  intros. unfold needed. assert ((start + nb) / r <= (2 ^ 41 - 1) / r) by (apply Z.div_le_mono; lia).
  assert ((2 ^ 41 - 1) / r <= (2 ^ 41 - 1) / 64) by (apply Z.div_le_compat_l; lia).
  change ((2 ^ 41 - 1) / 64) with (2 ^ 35 - 1) in *. lia.
Qed.

Lemma arena_exit fuel nb : 1 <= nb <= 2 ^ 40 -> nb = needed nb -> arena_done fuel nb.
Proof.
  intros Hn E. exists nb. rewrite arena_round by lia. rewrite (proj2 (Z.leb_le _ _)) by lia. done.
Qed.

Lemma arena_step fuel nb :
  1 <= nb <= 2 ^ 40 -> nb < needed nb -> arena_done fuel (needed nb) -> arena_done (S fuel) nb.
Proof.
  intros Hn E (nb' & Ha & Hle & En). exists nb'. rewrite arena_round by lia.
  rewrite (proj2 (Z.leb_gt _ _)) by lia. split; [done|]. split; [lia|done].
Qed.

(** A gap of one closes in at most two more rounds. *)
Lemma arena_gap1 fuel nb :
  1 <= nb < 2 ^ 39 -> nb <= needed nb <= nb + 1 -> arena_done (2 + fuel) nb.
Proof.
  intros Hn Hg. destruct (Z.eq_dec (needed nb) nb) as [E|]; [by apply arena_exit; lia|].
  assert (E1 : needed nb = nb + 1) by lia. apply arena_step; [lia|lia|]. rewrite E1.
  pose proof (needed_mono nb (nb + 1) ltac:(lia)) as [? Hm].
  replace (nb + 1 - nb + r - 1) with (1 * r) in Hm by lia. rewrite Z.div_mul in Hm by lia.
  destruct (Z.eq_dec (needed (nb + 1)) (nb + 1)) as [E|]; [by apply arena_exit; lia|].
  assert (E2 : needed (nb + 1) = nb + 2) by lia. apply arena_step; [lia|lia|]. rewrite E2.
  apply arena_exit; [lia|]. unfold needed in *.
  pose proof (Z.div_mod (start + nb) r ltac:(lia)). pose proof (Z.mod_pos_bound (start + nb) r ltac:(lia)).
  pose proof (Z.div_mod (start + (nb + 1)) r ltac:(lia)). pose proof (Z.mod_pos_bound (start + (nb + 1)) r ltac:(lia)).
  assert (Eq : (start + (nb + 2)) / r = (start + (nb + 1)) / r).
  { symmetry. apply (Z.div_unique _ _ _ (start + (nb + 2) - r * ((start + (nb + 1)) / r))); [left|]; nia. }
  lia.
Qed.

Lemma arena_fuel n nb :
  1 <= nb <= 2 ^ 40 -> nb <= needed nb <= nb + 2 ^ Z.of_nat n -> arena_done (2 + n) nb.
Proof.
  revert nb. induction n as [|n IH]; intros nb Hn Hg; pose proof (needed_bound nb Hn).
  { change (2 ^ Z.of_nat 0) with 1 in Hg. apply arena_gap1; lia. }
  destruct (Z.le_gt_cases (needed nb) (nb + 1)).
  { apply arena_gap1; lia. }
  change (2 + S n)%nat with (S (2 + n)). apply arena_step; [lia|lia|].
  rewrite Nat2Z.inj_succ, Z.pow_succ_r in Hg by lia.
  pose proof (needed_mono nb (needed nb) ltac:(lia)) as [? Hm].
  assert (Hq : (needed nb - nb + r - 1) / r <= 2 ^ Z.of_nat n).
  { apply Z.lt_succ_r, Z.div_lt_upper_bound; [lia|]. nia. }
  pose proof (needed_bound (needed nb) ltac:(lia)).
  apply IH; lia.
Qed.
End Arena.

(** ** The new table and the new blocks *)

Lemma rfold_inv {A X} (l : list X) (f : X -> A -> res serr A) (P : nat -> A -> Prop) a :
  P 0%nat a ->
  (forall k x a, l !! k = Some x -> P k a -> exists a', f x a = Ok a' /\ P (S k) a') ->
  exists a', rfold l f a = Ok a' /\ P (length l) a'.
Proof.
  revert a P. induction l as [|x l IH]; intros a P H0 Hs; [by exists a|].
  destruct (Hs 0%nat x a eq_refl H0) as (a1 & E1 & H1).
  destruct (IH a1 (fun k => P (S k)) H1) as (a' & E & Ha').
  { intros k y b Hk Hb. by apply (Hs (S k)). }
  exists a'. split; [|done]. unfold rfold in *. cbn. by rewrite E1.
Qed.

Lemma put_slice_ok off bs buf :
  0 <= off -> off + len bs <= len buf -> put_slice off bs buf = Ok (file_write buf off bs).
Proof. intros. unfold put_slice. rewrite (proj2 (Z.leb_le _ _)) by done. by rewrite splice_write. Qed.

Lemma len_put off bs buf : 0 <= off -> off + len bs <= len buf -> len (file_write buf off bs) = len buf.
Proof. intros. rewrite len_file_write by done. case_bool_decide; lia. Qed.

Section Build.
Context (c n start first top : Z).
Context (Hc : exists m, c = 8 * m /\ 64 <= m <= 2 ^ 18) (Hn : 0 < n < 2 ^ 32) (Hstart : 0 <= start < 2 ^ 40).
Context (Hfirst : 0 <= first /\ first <= top < first + 2 ^ 40) (Htop : top < n * (c / 8)).

Lemma grown_table_ok old :
  len old = 8 * first ->
  exists T, grown_table c n start first top old = Ok T /\ len T = n * c /\
    forall s, 0 <= s < n * (c / 8) ->
      be_at T (8 * s) 8 = if s <? first then be_at old (8 * s) 8
                          else if s <=? top then (start + (s - first)) * c else 0.
Proof.
  intros Hold. destruct Hc as (m & Ec & Hm). assert (E8 : c / 8 = m) by (rewrite Ec, Z.mul_comm; apply Z.div_mul; lia).
  rewrite E8 in *. unfold grown_table. rewrite rmul_ok by nia. cbn [mbind res_bind].
  rewrite put_slice_ok by (rewrite ?len_zeros; nia). cbn [mbind res_bind].
  set (T0 := file_write (zeros (n * c)) 0 old).
  assert (Hl0 : len T0 = n * c) by (unfold T0; rewrite len_put; rewrite ?len_zeros; nia).
  destruct (rfold_inv (seqZ first (top - first + 1))
    (fun s table => blk_off ← rmul (start + (s - first)) c; put_slice (s * 8) (be_bytes 8 blk_off) table)
    (fun k T => len T = n * c /\ forall s, 0 <= s < n * m ->
       be_at T (8 * s) 8 = if s <? first then be_at old (8 * s) 8
                           else if s <? first + Z.of_nat k then (start + (s - first)) * c else 0) T0)
    as (T & ET & HlT & HT).
  - split; [done|]. intros s Hs. destruct (Z.ltb_spec s first).
    + apply be_at_ext. intros k Hk. unfold T0. rewrite getb_file_write by lia. zcmp; try lia. f_equal. lia.
    + rewrite (proj2 (Z.ltb_ge _ _)) by lia. apply be_at_zero. intros k Hk. unfold T0. rewrite getb_file_write by lia.
      zcmp; try lia; apply getb_zeros.
  - intros k x T Hx [HlT HT]. apply lookup_seqZ in Hx as [-> Hk].
    assert (Hfit : 0 <= (start + (first + Z.of_nat k - first)) * c < 2 ^ 64) by nia.
    rewrite rmul_ok by lia. cbn [mbind res_bind].
    rewrite put_slice_ok by (rewrite ?len_be_bytes; nia). eexists. split; [done|].
    rewrite len_put by (rewrite ?len_be_bytes; nia). split; [done|]. intros s Hs. rewrite Nat2Z.inj_succ.
    destruct (Z.eq_dec s (first + Z.of_nat k)) as [->|Hne].
    + rewrite (Z.mul_comm _ 8), be_at_write64 by (exact Hfit || lia). zcmp; (done || lia).
    + rewrite be_at_write_other by (rewrite ?len_be_bytes; lia). rewrite HT by done. zcmp; (done || lia).
  - exists T. split; [done|]. split; [done|]. intros s Hs. rewrite HT by done.
    rewrite length_seqZ, Z2Nat.id by lia. zcmp; (done || lia).
Qed.
End Build.

Section Blocks.
Context (c w rbe nb first lo hi : Z).
Context (Hc : c = w * rbe) (Hw : w = 1 \/ w = 2 \/ w = 4 \/ w = 8) (Hrbe : 64 <= rbe <= 2 ^ 21).
Context (Hnb : 0 < nb < 2 ^ 40) (Hlo : 0 <= lo <= hi).
Context (Hcover : forall k, lo <= k < hi -> first <= k / rbe < first + nb).

Lemma grown_blocks_ok :
  exists b, grown_blocks c rbe (8 * w) nb first lo hi = Ok b /\ len b = nb * c /\
    forall o j, 0 <= o < nb -> 0 <= j < rbe ->
      be_at b (o * c + w * j) w = if (lo <=? (first + o) * rbe + j) && ((first + o) * rbe + j <? hi) then 1 else 0.
Proof.
  assert (W : whole_bytes (8 * w) = true /\ 8 * w / 8 = w) by (destruct Hw as [->|[->|[->| ->]]]; done).
  destruct W as [W1 W2]. unfold grown_blocks. rewrite rmul_ok by nia. cbn [mbind res_bind]. rewrite W1, W2.
  assert (Hl0 : len (zeros (nb * c)) = nb * c) by (rewrite len_zeros; nia).
  destruct (rfold_inv (seqZ lo (hi - lo))
    (fun cluster blocks => ordinal ← rsub (cluster / rbe) first; base ← rmul ordinal c;
       put_slice (base + cluster mod rbe * w) (be_bytes (Z.to_nat w) 1) blocks)
    (fun k b => len b = nb * c /\ forall o j, 0 <= o < nb -> 0 <= j < rbe ->
       be_at b (o * c + w * j) w =
         if (lo <=? (first + o) * rbe + j) && ((first + o) * rbe + j <? lo + Z.of_nat k) then 1 else 0) (zeros (nb * c)))
    as (b & Eb & Hlb & Hb).
  - split; [done|]. intros o j Ho Hj. rewrite be_at_zero by (intros; apply getb_zeros). zcmp; (done || lia).
  - intros k x b Hx [Hlb Hb]. apply lookup_seqZ in Hx as [-> Hk]. set (x := lo + Z.of_nat k) in *.
    pose proof (Hcover x ltac:(lia)) as Hx. pose proof (Z.div_mod x rbe ltac:(lia)) as Ed.
    pose proof (Z.mod_pos_bound x rbe ltac:(lia)) as Hm. unfold rsub. rewrite (proj2 (Z.ltb_ge _ _)) by lia. cbn [mbind res_bind].
    set (o := x / rbe - first) in *. set (j := x mod rbe) in *.
    assert (Hpos : 0 <= o * c + j * w /\ o * c + j * w + w <= nb * c) by nia.
    rewrite rmul_ok by nia. cbn [mbind res_bind].
    assert (Hlw : len (be_bytes (Z.to_nat w) 1) = w) by (rewrite len_be_bytes; lia).
    rewrite put_slice_ok by (rewrite ?Hlw; lia). eexists. split; [done|].
    rewrite len_put by (rewrite ?Hlw; lia). split; [done|]. intros o' j' Ho' Hj'. rewrite Nat2Z.inj_succ.
    destruct (decide (o' = o /\ j' = j)) as [[-> ->]|Hne].
    + rewrite (Z.mul_comm j w). replace w with (Z.of_nat (Z.to_nat w)) at 4 by lia. rewrite be_at_write by lia.
      rewrite Z.mod_small by (assert (256 ^ 1 <= 256 ^ Z.of_nat (Z.to_nat w)) by (apply Z.pow_le_mono_r; lia); lia).
      assert (Ex : (first + o) * rbe + j = x) by (unfold o; lia). rewrite Ex. unfold x. zcmp; (done || lia).
    + rewrite be_at_write_other.
      * rewrite Hb by done. assert (Ex : (first + o') * rbe + j' <> x).
        { intros Ex. apply Hne. assert (Eo : first + o' = x / rbe) by (apply (Z.div_unique _ _ _ j'); [left; lia|lia]).
          assert (j' = j) by (apply (Z.mod_unique x rbe (first + o') j'); [left; lia|lia]). unfold o. lia. }
        unfold x in *. zcmp; (done || lia).
      * lia.
      * rewrite Hlw. destruct (Z.eq_dec o' o) as [->|]; [assert (j' < j \/ j < j') as [?|?] by lia; nia|].
        assert (0 <= w * j' /\ w * j' + w <= c /\ 0 <= j * w /\ j * w + w <= c /\ 0 <= c) as (? & ? & ? & ? & ?) by nia.
        assert (o' + 1 <= o \/ o + 1 <= o') as [Hlt|Hlt] by lia;
          pose proof (Z.mul_le_mono_nonneg_r _ _ c ltac:(lia) Hlt); lia.
  - exists b. split; [exact Eb|]. split; [done|]. intros o j Ho Hj. rewrite Hb by done.
    rewrite length_seqZ, Z2Nat.id by lia. by replace (lo + (hi - lo)) with hi by lia.
Qed.
End Blocks.

(** ** Moving the table *)

Lemma from_bytes_fields f :
  104 <= len f ->
  from_bytes (sub f 0 104) =
    if negb (be_at f 0 4 =? QCOW2_MAGIC) then Err BadMagic
    else if negb (be_at f 4 4 =? 2) && negb (be_at f 4 4 =? 3) then Err BadVersion
    else Ok (mk_QcowHeader (be_at f 0 4) (be_at f 4 4) (be_at f 8 8) (be_at f 16 4) (be_at f 20 4) (be_at f 24 8)
               (be_at f 32 4) (be_at f 36 4) (be_at f 40 8) (be_at f 48 8) (be_at f 56 4) (be_at f 60 4) (be_at f 64 8)
               (if 3 <=? be_at f 4 4 then be_at f 96 4 else 4)).
Proof.
  intros Hl. assert (Hs : len (sub f 0 104) = 104) by (apply len_sub; lia).
  assert (Hf : forall a n, 0 <= a -> 0 <= n -> a + n <= 104 -> be_value (sub (sub f 0 104) a n) = be_at f a n).
  { intros a n Ha Hn Han. rewrite be_value_sub by lia. apply be_at_ext. intros k Hk. rewrite getb_sub by lia. f_equal. }
  unfold from_bytes. rewrite Hs. change (104 <? 72) with false. change (100 <=? 104) with true. cbn [andb].
  rewrite !Hf by lia. rewrite andb_true_r. done.
Qed.

Section Relocate.
Context {B : Type} {SB : StorageBackend B} {DB : Disk B}.
Abbreviation qcow := (QcowBackend B).
Abbreviation cs q := (csz (q_header q)).

Context (q : qcow) (rho : Z -> role) (I : Image q rho) (Hsm : small q).
Let S : Shape q := proj1 I.
Let G : geometry (q_header q) := sh_geo q S.

(** The arena starts at the end of the file. *)
Definition eof_cluster (q : qcow) : Z := div_ceil (len (q_file q)) (cs q).
Let A := eof_cluster q.

Lemma eof_range : len (q_file q) <= A * cs q < len (q_file q) + cs q /\ 0 < A <= 2 ^ 31.
Proof.
  pose proof (cs_pos q rho I). pose proof (header_role q rho I) as [_ [_ Hi]]. unfold small in Hsm.
  unfold A, eof_cluster, div_ceil.
  pose proof (Z.div_mod (len (q_file q) + cs q - 1) (cs q) ltac:(lia)).
  pose proof (Z.mod_pos_bound (len (q_file q) + cs q - 1) (cs q) ltac:(lia)). split; [lia|nia].
Qed.

Lemma used_below c : rho c <> Free -> 0 <= c < A.
Proof.
  intros Hc. destruct (ro_used q rho (proj2 I) c Hc) as [_ [H0 H1]]. pose proof eof_range as [[? ?] ?].
  pose proof (cs_pos q rho I). nia.
Qed.

Lemma free_above c : A <= c -> rho c = Free.
Proof. intros Hc. destruct (decide (rho c = Free)) as [|Hn]; [done|]. pose proof (used_below c Hn). lia. Qed.

Context (n nb top : Z) (T b : list Z).
Let first := rtn q.
Let start := A + n.
Context (Hn : q_rt_clusters q < n < 2 ^ 32) (Hnb : 0 < nb <= 2 ^ 36) (Htop : top = (start + nb) / rbn (q_header q)).
Context (Hnb2 : nb = top - first + 1) (Hroom : top < n * l2n (q_header q)).
Context (HlT : len T = n * cs q) (Hlb : len b = nb * cs q).
Context (HT : forall s, 0 <= s < n * l2n (q_header q) ->
  be_at T (8 * s) 8 = if s <? first then be_at (q_file q) (q_rt_offset q + 8 * s) 8
                      else if s <=? top then (start + (s - first)) * cs q else 0).
Context (Hb : forall o j, 0 <= o < nb -> 0 <= j < rbn (q_header q) ->
  be_at b (o * cs q + wid (q_header q) * j) (wid (q_header q)) =
    if (A <=? (first + o) * rbn (q_header q) + j) && ((first + o) * rbn (q_header q) + j <? start + nb) then 1 else 0).
Context (Hreach : first <= A / rbn (q_header q)).

Let f1 := file_write (q_file q) (A * cs q) T.
Let f2 := file_write f1 (A * cs q + len T) b.
Let f3 := file_write f2 48 (be_bytes 8 (A * cs q)).
Let f4 := file_write f3 56 (be_bytes 4 n).
Definition moved : qcow := with_rt (with_file q f4) (A * cs q) n.

Lemma n_pos : 0 < n.
Proof. pose proof (sh_rt q S). lia. Qed.

Lemma moved_low x : 0 <= x < A * cs q -> ~ (48 <= x < 60) -> getb f4 x = getb (q_file q) x.
Proof.
  intros Hx Hn'. unfold f4, f3, f2, f1. pose proof (len_nonneg T).
  rewrite !getb_file_write by lia. rewrite !len_be_bytes. zcmp; (done || lia).
Qed.

Lemma arena_big : 512 <= A * cs q.
Proof. pose proof eof_range as [_ ?]. pose proof (cs_pos q rho I). nia. Qed.

Lemma moved_table k : 0 <= k < n * cs q -> getb f4 (A * cs q + k) = getb T k.
Proof.
  intros Hk. pose proof arena_big. unfold f4, f3, f2, f1.
  rewrite !getb_file_write by lia. rewrite !len_be_bytes, HlT. zcmp; try lia. f_equal. lia.
Qed.

Lemma moved_blocks k : 0 <= k < nb * cs q -> getb f4 (start * cs q + k) = getb b k.
Proof.
  intros Hk. pose proof arena_big. pose proof (cs_pos q rho I).
  assert (E : start * cs q = A * cs q + n * cs q) by (unfold start; lia). rewrite E.
  pose proof n_pos. assert (0 <= n * cs q) by nia. unfold f4, f3, f2.
  rewrite !getb_file_write by lia. rewrite !len_be_bytes, HlT, Hlb. zcmp; try lia. f_equal. lia.
Qed.

Lemma moved_len : len f4 = (start + nb) * cs q.
Proof.
  pose proof arena_big. pose proof (cs_pos q rho I). pose proof eof_range as [? _]. pose proof n_pos.
  assert (E1 : len f1 = start * cs q).
  { unfold f1. rewrite len_file_write by lia. rewrite HlT. case_bool_decide as Ee; [|unfold start; nia].
    rewrite Ee in HlT. change (len []) with 0 in HlT. nia. }
  assert (E2 : len f2 = (start + nb) * cs q).
  { unfold f2. rewrite len_file_write by lia. rewrite HlT, Hlb, E1. case_bool_decide as Ee; [|unfold start; nia].
    rewrite Ee in Hlb. change (len []) with 0 in Hlb. nia. }
  unfold f4, f3. rewrite !len_file_write by lia. rewrite !len_be_bytes, E2.
  assert (512 <= (start + nb) * cs q) by (unfold start; nia). repeat case_bool_decide; lia.
Qed.

Lemma moved_agree c : 0 < c < A -> agree q moved c.
Proof.
  intros Hc k Hk. pose proof (cs_pos q rho I). apply moved_low; nia.
Qed.

Lemma moved_agree_role c : rho c <> Free -> rho c <> RHeader -> agree q moved c.
Proof.
  intros H1 H2. apply moved_agree. pose proof (used_below c H1). destruct (Z.eq_dec c 0) as [->|]; [|lia].
  by rewrite (proj1 (header_role q rho I)) in H2.
Qed.

Lemma moved_l2 g : guest q g -> l2_at moved g = l2_at q g.
Proof.
  intros Hg. apply (l2_at_frame q rho I f4); [|done]. intros c Hc. apply moved_agree_role; by destruct (rho c).
Qed.

(** Entry [s] of the new table. *)
Lemma moved_rt s :
  0 <= s < n * l2n (q_header q) ->
  rt_ptr moved s = if s <? first then rt_ptr q s else if s <=? top then (start + (s - first)) * cs q else 0.
Proof.
  intros Hs. pose proof (l2n_cs q rho I) as [E [? ?]]. pose proof (cs_pos q rho I). pose proof eof_range as [_ ?].
  pose proof n_pos. unfold rt_ptr. change (q_file moved) with f4. change (q_rt_offset moved) with (A * cs q).
  rewrite (be_at_ext f4 T (A * cs q + 8 * s) (8 * s)) by (intros; rewrite <- Z.add_assoc; apply moved_table; nia).
  rewrite HT by done. case_match; [done|]. case_match; [|done]. breflect.
  apply reft_aligned; [unfold csz; apply mod_512, (geo_bits _ G)|]. unfold fits, start. nia.
Qed.

Definition moved_roles (c : Z) : role :=
  if (A <=? c) && (c <? start) then RRT (c - A)
  else if (start <=? c) && (c <? start + nb) then RRB (first + (c - start))
  else match rho c with RRT _ => Free | r => r end.

Lemma rtn_moved : rtn moved = n * l2n (q_header q).
Proof. done. Qed.

Lemma first_lt : 0 <= first /\ first < n * l2n (q_header q).
Proof. pose proof (l2n_cs q rho I) as [E [? ?]]. pose proof (sh_rt q S). unfold first, rtn. nia. Qed.

Lemma moved_roles_below c : c < A -> moved_roles c = match rho c with RRT _ => Free | r => r end.
Proof. intros Hc. pose proof n_pos. unfold moved_roles, start. zcmp; (done || lia). Qed.

Lemma moved_refs r c : refs moved r c -> moved_roles c = r.
Proof.
  pose proof (cs_pos q rho I) as Hcs. pose proof n_pos. pose proof first_lt.
  assert (Hold : forall r, refs q r c -> ~ is_rt r -> moved_roles c = r).
  { intros r' Hr Hrt. pose proof (ro_refs q rho (proj2 I) r' c Hr) as Er.
    assert (Hf : rho c <> Free) by (rewrite Er; by destruct r').
    rewrite moved_roles_below by (apply used_below in Hf; lia). rewrite Er. destruct r'; cbn in *; tauto. }
  destruct r as [| |k|k|s|i|g]; intros Hr.
  - done.
  - apply Hold; [done|cbn; tauto].
  - apply Hold; [done|cbn; tauto].
  - destruct Hr as [Hk E]. change (q_rt_offset moved) with (A * cs q) in E. change (q_header moved) with (q_header q) in E.
    change (q_rt_clusters moved) with n in Hk. assert (c = A + k) as -> by nia.
    unfold moved_roles, start. zcmp; try lia. f_equal. lia.
  - destruct Hr as (Hs & Hc & E). rewrite rtn_moved in Hs. change (q_header moved) with (q_header q) in E.
    rewrite moved_rt in E by done. destruct (Z.ltb_spec s first).
    + apply Hold; [|cbn; tauto]. split; [unfold first in *; lia|]. done.
    + destruct (Z.leb_spec s top); [|nia]. assert (c = start + (s - first)) as -> by nia.
      unfold moved_roles, start. zcmp; try lia. f_equal. lia.
  - apply Hold; [done|cbn; tauto].
  - apply Hold; [|cbn; tauto]. destruct Hr as (Hg & Hc & E). split; [done|]. split; [done|]. by rewrite <- moved_l2.
Qed.

Lemma moved_used c : moved_roles c <> Free -> refs moved (moved_roles c) c /\ inside moved c.
Proof.
  pose proof (cs_pos q rho I) as Hcs. pose proof n_pos. pose proof first_lt. pose proof eof_range as [? ?].
  assert (Hin : forall c, 0 <= c < start + nb -> inside moved c).
  { intros c' Hc'. split; [lia|]. change (q_file moved) with f4. change (q_header moved) with (q_header q).
    rewrite moved_len. nia. }
  unfold moved_roles. destruct (Z.leb_spec A c), (Z.ltb_spec c start); cbn [andb].
  { intros _. split; [|apply Hin; lia]. split; [change (q_rt_clusters moved) with n; unfold start in *; lia|].
    change (q_rt_offset moved) with (A * cs q). change (q_header moved) with (q_header q). lia. }
  2: unfold start in *; rewrite (proj2 (Z.leb_gt _ _)) by lia; cbn [andb].
  1: destruct (Z.leb_spec start c), (Z.ltb_spec c (start + nb)); cbn [andb]; try lia.
  1: { intros _. split; [|apply Hin; lia]. split; [rewrite rtn_moved; lia|]. split; [lia|].
    change (q_header moved) with (q_header q). rewrite moved_rt by lia. zcmp; lia. }
  1: { rewrite (free_above c) by lia. done. }
  2: unfold start in *; lia.
  intros Hc. assert (Hf : rho c <> Free) by (by intros E; rewrite E in Hc).
  destruct (ro_used q rho (proj2 I) c Hf) as [Hr _]. pose proof (used_below c Hf).
  split; [|apply Hin; lia]. destruct (rho c) as [| |k|k|s|i|g]; try done.
  - destruct Hr as (Hs & Hc' & E). split; [rewrite rtn_moved; unfold first in *; lia|]. split; [done|].
    change (q_header moved) with (q_header q). rewrite moved_rt by (unfold first in *; lia).
    by rewrite (proj2 (Z.ltb_lt _ _)) by (unfold first in *; lia).
  - destruct Hr as (Hg & Hc' & E). split; [done|]. split; [done|]. by rewrite moved_l2.
Qed.

Lemma moved_image : h_refcount_table_clusters (q_header q) <= q_rt_clusters q -> Image moved moved_roles.
Proof.
  intros Hold. pose proof (cs_pos q rho I) as Hcs. pose proof n_pos. pose proof eof_range as [? ?]. pose proof first_lt.
  split; [|split; [apply moved_refs|apply moved_used]].
  constructor; try (first [exact G|exact (sh_l1_al _ S)|exact (sh_l1_len _ S)|exact (sh_l1_ptr _ S)|exact (sh_backing _ S)]);
    change (q_header moved) with (q_header q); change (q_rt_offset moved) with (A * cs q);
    change (q_rt_clusters moved) with n.
  - split; [lia|nia].
  - pose proof (sh_rt_old q S). lia.
  - apply Z.mod_mul. lia.
  - intros g o Hg. rewrite moved_l2 by done. by apply (sh_l2_ptr q S).
  - intros s Hs. rewrite rtn_moved in Hs. rewrite moved_rt by done. repeat case_match; breflect.
    + apply (sh_rt_ptr q S). unfold first in *; lia.
    + apply Z.mod_mul. lia.
    + apply Z.mod_0_l. lia.
  - intros i Hi. rewrite <- (sh_l1_disk q S) by done. apply (l1_disk_frame q rho I f4); [|done].
    intros c Hr. apply moved_agree_role; by rewrite Hr.
  - pose proof (header_role q rho I) as [_ [_ Hi]]. pose proof (sh_head q S) as Hh.
    assert (Hl : 104 <= len f4) by (rewrite moved_len; unfold start; nia).
    rewrite from_bytes_fields in Hh by lia. change (q_file moved) with f4. rewrite from_bytes_fields by done.
    assert (Hsame : forall a k, 0 <= a -> a + k <= 48 \/ 60 <= a -> a + k <= 104 -> be_at f4 a k = be_at (q_file q) a k).
    { intros a k Ha Hd Hk. apply be_at_ext. intros j Hj. apply moved_low; nia. }
    rewrite (Hsame 0), (Hsame 4), (Hsame 8), (Hsame 16), (Hsame 20), (Hsame 24), (Hsame 32), (Hsame 36), (Hsame 40),
      (Hsame 60), (Hsame 64), (Hsame 96) by lia.
    assert (E48 : be_at f4 48 8 = A * cs q).
    { unfold f4. rewrite be_at_write_other by (rewrite ?len_be_bytes; lia). unfold f3. apply be_at_write64; [lia|unfold fits; nia]. }
    assert (E56 : be_at f4 56 4 = n).
    { unfold f4. etransitivity; [exact (be_at_write f3 56 4 n ltac:(lia))|]. apply Z.mod_small. change (256 ^ Z.of_nat 4) with (2 ^ 32). lia. }
    rewrite E48, E56. destruct (negb (be_at (q_file q) 0 4 =? QCOW2_MAGIC)); [done|].
    destruct (negb (be_at (q_file q) 4 4 =? 2) && negb (be_at (q_file q) 4 4 =? 3)); [done|].
    injection Hh as E1 E2 E3 E4 E5 E6 E7 E8 E9 E10 E11 E12 E13 E14. unfold live_header.
    rewrite E14, E1, E2, E3, E4, E5, E6, E7, E8, E9, E12, E13. done.
Qed.

Lemma moved_counts m :
  Counts q m -> Counts moved (fun c => if (A <=? c) && (c <? start + nb) then 1 else m c).
Proof.
  intros Hm c Hc. pose proof (rbn_cs q rho I) as [Ew [? ?]]. pose proof n_pos. pose proof first_lt. pose proof (wid_cases _ G) as Hw.
  pose proof (Z.div_mod c (rbn (q_header q)) ltac:(lia)) as Ed. pose proof (Z.mod_pos_bound c (rbn (q_header q)) ltac:(lia)) as Hj.
  assert (Hs : 0 <= c / rbn (q_header q)) by (apply Z.div_pos; lia).
  assert (Htop' : start + nb < (top + 1) * rbn (q_header q)).
  { rewrite Htop. pose proof (Z.div_mod (start + nb) (rbn (q_header q)) ltac:(lia)).
    pose proof (Z.mod_pos_bound (start + nb) (rbn (q_header q)) ltac:(lia)). nia. }
  assert (HA : first * rbn (q_header q) <= A).
  { pose proof (Z.div_mod A (rbn (q_header q)) ltac:(lia)). pose proof (Z.mod_pos_bound A (rbn (q_header q)) ltac:(lia)). nia. }
  rewrite <- Hm by done. unfold refcount, block_of. change (q_header moved) with (q_header q). rewrite rtn_moved.
  fold first. change (q_file moved) with f4. set (s := c / rbn (q_header q)) in *. set (j := c mod rbn (q_header q)) in *.
  destruct (Z.ltb_spec s first) as [Hlt|Hge].
  - rewrite (proj2 (Z.leb_gt (n * _) s)), (proj2 (Z.leb_gt first s)) by lia. rewrite moved_rt by lia.
    rewrite (proj2 (Z.ltb_lt _ _)) by done. rewrite (proj2 (Z.leb_gt A c)) by nia. cbn [andb].
    destruct (Z.eqb_spec (rt_ptr q s) 0) as [|Hb0]; [done|].
    destruct (block_role q rho I s (conj Hs Hlt) Hb0) as (Eb & Hr & _). rewrite Eb.
    apply (agree_be q moved); [|nia..]. apply moved_agree_role; by rewrite Hr.
  - rewrite (proj2 (Z.leb_le first s)) by lia. rewrite (Z.eqb_refl 0). destruct (Z.leb_spec (n * l2n (q_header q)) s).
    { zcmp; try done. nia. }
    rewrite moved_rt by lia. rewrite (proj2 (Z.ltb_ge _ _)) by done. destruct (Z.leb_spec s top).
    + pose proof eof_range as [_ ?]. pose proof (cs_pos q rho I).
      rewrite (proj2 (Z.eqb_neq _ _)) by (unfold start; apply Z.neq_mul_0; lia).
      rewrite (be_at_ext f4 b _ ((s - first) * cs q + wid (q_header q) * j)).
      * rewrite Hb by lia. replace ((first + (s - first)) * rbn (q_header q) + j) with c by lia. done.
      * intros k Hk. assert (0 <= wid (q_header q) * j /\ wid (q_header q) * j + wid (q_header q) <= cs q) by nia.
        pose proof (Z.mul_le_mono_nonneg_r (s - first + 1) nb (cs q) ltac:(lia) ltac:(lia)).
        assert (0 <= (s - first) * cs q) by (apply Z.mul_nonneg_nonneg; lia).
        rewrite <- (moved_blocks ((s - first) * cs q + wid (q_header q) * j + k)) by lia. f_equal. lia.
    + zcmp; try done. nia.
Qed.

Lemma moved_keeps : keeps q moved.
Proof.
  pose proof (cs_pos q rho I). pose proof n_pos. pose proof eof_range as [[? _] ?]. split; try done.
  - change (q_file moved) with f4. rewrite moved_len. unfold start. nia.
  - intros g Hg. by apply moved_l2.
  - intros x Hx. apply (content_ext q moved rho); try done.
    + apply moved_l2. exact (guest_cluster q rho I x Hx).
    + intros c Hr. apply moved_agree_role; by rewrite Hr.
  - intros k Hk Hne. apply moved_low; [nia|done].
Qed.

(** The table reaches every cluster of the arena and the one behind it. *)
Lemma moved_covers c : A <= c <= start + nb -> block_of moved c <> 0.
Proof.
  intros Hc. pose proof (rbn_cs q rho I) as [Ew [? ?]]. pose proof first_lt. pose proof eof_range as [_ ?]. pose proof (cs_pos q rho I).
  pose proof n_pos. assert (first <= c / rbn (q_header q) <= top).
  { split; [etransitivity; [exact Hreach|]; apply Z.div_le_mono; lia|]. rewrite Htop. apply Z.div_le_mono; lia. }
  unfold block_of. change (q_header moved) with (q_header q). rewrite rtn_moved. rewrite (proj2 (Z.leb_gt _ _)) by lia.
  rewrite moved_rt by lia. rewrite (proj2 (Z.ltb_ge _ _)), (proj2 (Z.leb_le _ _)) by lia. unfold start. nia.
Qed.
End Relocate.

(** ** Freeing the old table *)

Section Grow.
Context {B : Type} {SB : StorageBackend B} {DB : Disk B}.
Abbreviation qcow := (QcowBackend B).
Abbreviation cs q := (csz (q_header q)).

(** The step of storing a refcount, as [keeps]. *)
Lemma rc_keeps (q : qcow) rho c v m :
  Image q rho -> 0 <= c -> block_of q c <> 0 -> 0 <= v < 256 -> Counts q m -> keeps q (with_file q (rc_file q c v)).
Proof.
  intros I Hc Hb Hv Hm. destruct (rc_step q rho I c v m Hc Hb Hv Hm) as (_ & _ & _ & Hl).
  apply (keeps_frame q rho); [done|lia|]. intros c' Hc'. apply (rc_agree q rho I); [done..|].
  destruct Hc' as [Hc'|[Hc'| ->]]; [by apply l2_not_rb|by apply data_not_rb|].
  rewrite (proj1 (header_role q rho I)). cbn. tauto.
Qed.

Lemma block_of_counted (q : qcow) m c : Counts q m -> 0 <= c -> m c <> 0 -> block_of q c <> 0.
Proof. intros Hm Hc Hn Hb. apply Hn. rewrite <- Hm by done. unfold refcount. by rewrite Hb. Qed.

Lemma free_loop (q : qcow) rho m lo k :
  Image q rho -> small q -> Counts q m -> 0 <= lo -> (forall c, lo <= c < lo + Z.of_nat k -> m c = 1) ->
  exists q', mfor (seqZ lo (Z.of_nat k)) (fun i => rc ← read_refcount i; write_refcount i (Z.max 0 (rc - 1))) q = (q', Ok tt) /\
    Image q' rho /\ Counts q' (fun c => if (lo <=? c) && (c <? lo + Z.of_nat k) then 0 else m c) /\
    keeps q q' /\ len (q_file q') = len (q_file q) /\ q_l1 q' = q_l1 q /\
    (forall c, 0 <= c -> block_of q' c = block_of q c) /\ rtn q' = rtn q.
Proof.
  intros I Hsm Hm Hlo H1.
  destruct (mfor _ _ q) as [q' r] eqn:E. exists q'.
  set (P := fun (j : nat) (q' : qcow) => Image q' rho /\
    Counts q' (fun c => if (lo <=? c) && (c <? lo + Z.of_nat j) then 0 else m c) /\
    keeps q q' /\ len (q_file q') = len (q_file q) /\ q_l1 q' = q_l1 q /\
    (forall c, 0 <= c -> block_of q' c = block_of q c) /\ rtn q' = rtn q).
  assert (HW : wp (mfor (seqZ lo (Z.of_nat k)) (fun i => rc ← read_refcount i; write_refcount i (Z.max 0 (rc - 1))))
    (fun q' r => r = Ok tt /\ P (length (seqZ lo (Z.of_nat k))) q') q).
  { apply wp_mfor.
    - split; [done|]. split; [|by split_and!; [apply qkeeps_refl|..]]. intros c Hc. rewrite Hm by done. zcmp; (done || lia).
    - intros j x q1 Hx (I1 & Hm1 & K1 & Hl1 & Hl1' & Hb1 & Hr1). apply lookup_seqZ in Hx as [-> Hj].
      assert (Hs1 : small q1) by (unfold small in *; by rewrite (k_header _ _ K1), Hl1).
      set (i := lo + Z.of_nat j) in *. assert (Hi : m i = 1) by (apply H1; lia).
      assert (Hrc : refcount q1 i = 1) by (rewrite Hm1 by lia; zcmp; (done || lia)).
      assert (Hbi : block_of q1 i <> 0) by (intros E0; unfold refcount in Hrc; by rewrite E0 in Hrc).
      unfold wp, mbind, M_bind. rewrite (read_refcount_ok q1 rho I1 Hs1) by lia. rewrite Hrc.
      rewrite (write_refcount_ok q1 rho I1 Hs1) by (done || lia). change (Z.max 0 (1 - 1)) with 0. cbn [fst snd].
      split; [done|]. destruct (rc_step q1 rho I1 i 0 _ ltac:(lia) Hbi ltac:(lia) Hm1) as (I2 & Hm2 & _ & Hl2).
      pose proof (rc_keeps q1 rho i 0 _ I1 ltac:(lia) Hbi ltac:(lia) Hm1) as K2.
      split; [done|]. split.
      { intros c Hc. rewrite Hm2 by done. unfold upd. rewrite Nat2Z.inj_succ. zcmp; (done || lia). }
      split; [by eapply qkeeps_trans|]. split; [cbn; lia|]. split; [done|]. split; [|done].
      intros c Hc. rewrite <- Hb1 by done. apply (rc_block_of q1 rho I1); (done || lia). }
  destruct (wp_elim _ _ _ _ _ HW E) as [Er HP]. split; [by rewrite Er|].
  rewrite length_seqZ, Nat2Z.id in HP. exact HP.
Qed.

Lemma Counts_ext (q : qcow) m m' : Counts q m -> (forall c, 0 <= c -> m c = m' c) -> Counts q m'.
Proof. intros Hm E c Hc. rewrite <- E by done. by apply Hm. Qed.

(** ** The whole operation *)

(** A step that keeps the image consistent and the guest's bytes. *)
Record settled (q q' : qcow) : Prop := {
  st_ok : Consistent q';
  st_keeps : keeps q q';
  st_l1 : q_l1 q' = q_l1 q;
}.

Section Op.
Context (q : qcow) (rho : Z -> role) (I : Image q rho) (Hm : Counts q (ones rho)) (Hsm : small q).
Let S : Shape q := proj1 I.
Let G : geometry (q_header q) := sh_geo q S.
Let A := eof_cluster q.
Let slot := A / rbn (q_header q).
Context (Hslot : rtn q <= slot).
Let n := div_ceil ((slot + 1) * 8) (cs q).

Lemma slot_bound : 0 <= slot <= 2 ^ 25 /\ 0 < q_rt_clusters q <= 2 ^ 19.
Proof.
  pose proof (rbn_cs q rho I) as [_ [? _]]. pose proof (eof_range q rho I Hsm) as [_ HA]. fold A in HA.
  assert (slot <= 2 ^ 25).
  { unfold slot. transitivity (A / 64); [apply Z.div_le_compat_l; lia|]. apply Z.div_le_upper_bound; lia. }
  assert (0 <= slot) by (apply Z.div_pos; lia). pose proof (sh_rt q S) as [? _].
  pose proof (l2n_cs q rho I) as [_ [? _]]. unfold rtn in Hslot. split; [lia|nia].
Qed.

(** The new size: the capping at [u32::MAX] is never reached. *)
Lemma grown_size :
  refcount_table_clusters_for (q_header q) slot = Ok n /\ q_rt_clusters q < n <= 2 ^ 20 /\ slot < n * l2n (q_header q).
Proof.
  pose proof slot_bound as [? ?]. pose proof (l2n_cs q rho I) as [Ec [? ?]]. pose proof (sh_rt_old q S).
  assert (Hn : slot < n * l2n (q_header q) /\ (n - 1) * l2n (q_header q) <= slot).
  { unfold n, div_ceil. rewrite Ec.
    pose proof (Z.div_mod ((slot + 1) * 8 + 8 * l2n (q_header q) - 1) (8 * l2n (q_header q)) ltac:(lia)).
    pose proof (Z.mod_pos_bound ((slot + 1) * 8 + 8 * l2n (q_header q) - 1) (8 * l2n (q_header q)) ltac:(lia)). lia. }
  assert (Hold : q_rt_clusters q < n) by (unfold rtn in Hslot; nia). assert (n <= 2 ^ 20) by nia.
  split; [|lia]. unfold refcount_table_clusters_for. rewrite radd_ok by lia. cbn [mbind res_bind].
  rewrite rmul_ok by lia. cbn [mbind res_bind]. rewrite cluster_size_ok by done. cbn [mbind res_bind]. fold n. f_equal. lia.
Qed.

Lemma grown_arena :
  exists nb, arena_blocks 64 (rbn (q_header q)) (A + n) (rtn q) 1 = Ok (nb, (A + n + nb) / rbn (q_header q)) /\
    0 < nb <= 2 ^ 36 /\ nb = (A + n + nb) / rbn (q_header q) - rtn q + 1.
Proof.
  pose proof grown_size as (_ & ? & _). pose proof slot_bound as [? ?]. pose proof (rbn_cs q rho I) as [_ [? _]].
  pose proof (eof_range q rho I Hsm) as [_ HA]. fold A in HA. pose proof (l2n_cs q rho I) as [_ [? _]].
  assert (Hs : slot <= (A + n) / rbn (q_header q)) by (apply Z.div_le_mono; lia).
  assert (Hr : 0 <= rtn q) by (unfold rtn; nia).
  pose proof (needed_bound (rbn (q_header q)) (A + n) (rtn q) ltac:(lia) ltac:(lia) ltac:(lia) 1 ltac:(lia)) as Hb1.
  destruct (arena_fuel (rbn (q_header q)) (A + n) (rtn q) ltac:(lia) ltac:(lia) ltac:(lia) 62 1 ltac:(lia)) as (nb & E & Hn1 & Hn2).
  { change (2 ^ Z.of_nat 62) with (2 ^ 62). split; [|lia]. unfold needed.
    assert ((A + n) / rbn (q_header q) <= (A + n + 1) / rbn (q_header q)) by (apply Z.div_le_mono; lia). lia. }
  exists nb. split; [exact E|]. unfold needed in Hn2. split; [|exact Hn2]. split; [lia|].
  assert ((A + n + nb) / rbn (q_header q) <= (A + n + nb) / 64) by (apply Z.div_le_compat_l; lia).
  pose proof (Z.mul_div_le (A + n + nb) 64 ltac:(lia)). lia.
Qed.

Lemma old_table : q_rt_offset q + q_rt_clusters q * cs q <= len (q_file q).
Proof.
  pose proof slot_bound as [_ ?]. pose proof (l2n_cs q rho I) as [E [? ?]]. pose proof (cs_pos q rho I).
  destruct (rt_entry_role q rho I (rtn q - 1)) as (_ & _ & [_ Hi]); [unfold rtn; nia|].
  assert (Ed : (rtn q - 1) / l2n (q_header q) = q_rt_clusters q - 1).
  { symmetry. apply (Z.div_unique _ _ _ (l2n (q_header q) - 1)); [left; lia|]. unfold rtn. lia. }
  rewrite Ed in Hi. pose proof (aligned_cluster (q_rt_offset q) (cs q) ltac:(lia) (sh_rt_al q S)). nia.
Qed.

(** The old table's bytes, and the table and blocks built from them. *)
Lemma new_table nb top :
  0 < nb <= 2 ^ 36 -> nb = top - rtn q + 1 -> top < n * l2n (q_header q) ->
  exists T, grown_table (cs q) n (A + n) (rtn q) top (sub (q_file q) (q_rt_offset q) (q_rt_clusters q * cs q)) = Ok T /\
    len T = n * cs q /\
    forall s, 0 <= s < n * l2n (q_header q) ->
      be_at T (8 * s) 8 = if s <? rtn q then be_at (q_file q) (q_rt_offset q + 8 * s) 8
                          else if s <=? top then (A + n + (s - rtn q)) * cs q else 0.
Proof.
  intros Hnb Enb Hroom. pose proof slot_bound as [Hs Hrt]. pose proof grown_size as (_ & Hn & _). pose proof old_table as Hold.
  pose proof (eof_range q rho I Hsm) as [_ HA]. fold A in HA. pose proof (l2n_cs q rho I) as [Ec Hl].
  pose proof (sh_rt q S) as [_ Ho]. assert (Hr : 0 < rtn q /\ 8 * rtn q = q_rt_clusters q * cs q) by (unfold rtn; nia).
  assert (Hlo : len (sub (q_file q) (q_rt_offset q) (q_rt_clusters q * cs q)) = 8 * rtn q) by (rewrite len_sub; lia).
  destruct (grown_table_ok (cs q) n (A + n) (rtn q) top ltac:(by exists (l2n (q_header q))) ltac:(lia) ltac:(lia) ltac:(lia) Hroom _ Hlo)
    as (T & ET & HlT & HT).
  exists T. split; [exact ET|]. split; [done|]. intros s Hs'. rewrite HT by done. destruct (Z.ltb_spec s (rtn q)); [|done].
  apply be_at_ext. intros k Hk. rewrite getb_sub by lia. f_equal. lia.
Qed.

Lemma new_blocks nb :
  0 < nb <= 2 ^ 36 -> nb = (A + n + nb) / rbn (q_header q) - rtn q + 1 ->
  exists b, grown_blocks (cs q) (rbn (q_header q)) (8 * wid (q_header q)) nb (rtn q) A (A + n + nb) = Ok b /\ len b = nb * cs q /\
    forall o j, 0 <= o < nb -> 0 <= j < rbn (q_header q) ->
      be_at b (o * cs q + wid (q_header q) * j) (wid (q_header q)) =
        if (A <=? (rtn q + o) * rbn (q_header q) + j) && ((rtn q + o) * rbn (q_header q) + j <? A + n + nb) then 1 else 0.
Proof.
  intros Hnb Enb. pose proof (eof_range q rho I Hsm) as [_ HA]. fold A in HA. pose proof grown_size as (_ & Hn & _).
  pose proof slot_bound as [_ ?]. pose proof (rbn_cs q rho I) as [Er Hr].
  apply grown_blocks_ok; [done|exact (wid_cases _ G)|lia|lia|lia|]. intros k Hk. split.
  - transitivity slot; [done|]. apply Z.div_le_mono; lia.
  - assert (k / rbn (q_header q) <= (A + n + nb) / rbn (q_header q)) by (apply Z.div_le_mono; lia). lia.
Qed.

(** What one run does before it frees the old table. *)
Lemma grow_run :
  grow_refcount_table slot q = (q, Err TableTooSmall) \/
  exists nb top T b,
    (0 < nb <= 2 ^ 36 /\ top = (A + n + nb) / rbn (q_header q) /\ nb = top - rtn q + 1 /\ top < n * l2n (q_header q)) /\
    (len T = n * cs q /\ len b = nb * cs q) /\
    (forall s, 0 <= s < n * l2n (q_header q) ->
      be_at T (8 * s) 8 = if s <? rtn q then be_at (q_file q) (q_rt_offset q + 8 * s) 8
                          else if s <=? top then (A + n + (s - rtn q)) * cs q else 0) /\
    (forall o j, 0 <= o < nb -> 0 <= j < rbn (q_header q) ->
      be_at b (o * cs q + wid (q_header q) * j) (wid (q_header q)) =
        if (A <=? (rtn q + o) * rbn (q_header q) + j) && ((rtn q + o) * rbn (q_header q) + j <? A + n + nb) then 1 else 0) /\
    grow_refcount_table slot q =
      mfor (seqZ (q_rt_offset q / cs q) (q_rt_clusters q)) (fun i => rc ← read_refcount i; write_refcount i (Z.max 0 (rc - 1)))
        (moved q n T b).
Proof.
  pose proof slot_bound as [Hs Hrt]. pose proof grown_size as (En & Hn & Hsn). pose proof old_table as Hold.
  destruct grown_arena as (nb & Ea & Hnb & Enb). pose proof (eof_range q rho I Hsm) as [_ HA]. fold A in HA.
  pose proof (cs_pos q rho I). pose proof (l2n_cs q rho I) as [Ec Hl]. pose proof (rbn_cs q rho I) as [Er Hr].
  pose proof (sh_rt q S) as [_ Ho]. pose proof (small_len q rho I Hsm) as Hlen.
  set (top := (A + n + nb) / rbn (q_header q)) in *.
  assert (En8 : n * cs q / 8 = n * l2n (q_header q)).
  { rewrite Ec. replace (n * (8 * l2n (q_header q))) with (n * l2n (q_header q) * 8) by lia. apply Z.div_mul. lia. }
  eassert (Hrun : grow_refcount_table slot q = _).
  { unfold grow_refcount_table. run reflexivity. run_lift (by apply cluster_size_ok).
    run_lift (by apply refcount_block_entries_ok). run_lift (by apply (rt_entries_ok q rho)).
    rewrite (proj2 (Z.eqb_neq (q_rt_clusters q) 0)), (proj2 (Z.eqb_neq (q_rt_offset q) 0)) by lia. cbn [orb].
    run_lift (exact En). rewrite (proj2 (Z.leb_gt _ _)) by lia. run_lift (apply rmul_ok; nia).
    run reflexivity. fold (eof_cluster q). run_lift (apply radd_ok; fold A; lia). run_lift (exact Ea).
    run_lift (apply radd_ok; fold A; lia). rewrite En8. reflexivity. }
  destruct (Z.le_gt_cases (n * l2n (q_header q)) top) as [Hsmall|Hroom]; [left|right].
  - rewrite Hrun. by rewrite (proj2 (Z.leb_le _ _)).
  - destruct (new_table nb top Hnb Enb Hroom) as (T & ET & HlT & HT). destruct (new_blocks nb Hnb Enb) as (b & Eb & Hlb & Hb).
    exists nb, top, T, b. split_and!; try done; try lia.
    rewrite Hrun, (proj2 (Z.leb_gt _ _)) by lia. clear Hrun.
    assert (A * cs q <= 2 ^ 52 /\ n * cs q <= 2 ^ 41) by nia.
    run_lift (apply rmul_ok; nia). run (apply (q_read_ok q rho I Hsm); nia). run_lift (exact ET).
    run_lift (by apply refcount_bits_ok). run_lift (exact Eb). run_lift (apply rmul_ok; fold A; nia).
    run (unfold q_write; rewrite (proj2 (Z.ltb_ge _ _)) by (unfold OFF_MAX; fold A; lia); reflexivity).
    run (unfold q_write; rewrite (proj2 (Z.ltb_ge _ _)) by (unfold OFF_MAX; fold A; lia); reflexivity).
    run reflexivity. run reflexivity. run reflexivity. unfold wrap. rewrite (Z.mod_small n) by lia. done.
Qed.

Lemma grows_free l : grows (mfor l (fun i => rc ← @read_refcount B i; write_refcount i (Z.max 0 (rc - 1)))).
Proof. growing. Qed.

(** The clusters of the old table. *)
Lemma old_table_roles c :
  q_rt_offset q / cs q <= c < q_rt_offset q / cs q + q_rt_clusters q <-> is_rt (rho c).
Proof.
  pose proof (cs_pos q rho I). pose proof (aligned_cluster (q_rt_offset q) (cs q) ltac:(lia) (sh_rt_al q S)) as Eo.
  set (lo := q_rt_offset q / cs q) in *. split.
  - intros Hc. rewrite (ro_refs q rho (proj2 I) (RRT (c - lo)) c); [done|]. split; [lia|]. rewrite Eo. lia.
  - intros Hr. destruct (ro_used q rho (proj2 I) c) as [Hu _]; [by intros E; rewrite E in Hr|].
    destruct (rho c) as [| | |k| | |]; try done. destruct Hu as [? Hu]. rewrite Eo in Hu. nia.
Qed.

Lemma freed_counts nb c :
  0 < nb -> 0 <= c ->
  (if (q_rt_offset q / cs q <=? c) && (c <? q_rt_offset q / cs q + q_rt_clusters q) then 0
   else if (A <=? c) && (c <? A + n + nb) then 1 else ones rho c) = ones (moved_roles q rho n nb) c.
Proof.
  intros Hnb Hc. pose proof (old_table_roles c) as Hr. pose proof grown_size as (_ & Hn & _). pose proof slot_bound as [_ ?].
  pose proof (used_below q rho I Hsm c) as Hu. fold A in Hu. unfold ones, moved_roles. fold A.
  destruct ((q_rt_offset q / cs q <=? c) && (c <? q_rt_offset q / cs q + q_rt_clusters q)) eqn:Eo.
  - assert (Hrt : is_rt (rho c)) by (apply Hr; breflect; lia). assert (c < A) by (apply Hu; by intros E; rewrite E in Hrt).
    zcmp; try lia; case_decide as D; try done; destruct (rho c); try done; by exfalso; apply D.
  - assert (Hrt : ~ is_rt (rho c)) by (intros Hrt; apply Hr in Hrt; breflect; lia).
    zcmp; try lia; repeat case_decide; try done; destruct (rho c); cbn in *; try done; try tauto; try lia.
Qed.

(** A growth is refused before anything changes, or succeeds. *)
Lemma grow_spec :
  wps (grow_refcount_table slot) (fun q' r =>
    (r = Err TableTooSmall /\ q' = q) \/
    (r = Ok tt /\ settled q q' /\ block_of q' A <> 0 /\ block_of q' (eof_cluster q') <> 0)) q.
Proof.
  pose proof grown_size as (_ & Hn & _). pose proof slot_bound as [_ Hrt]. pose proof (cs_pos q rho I) as Hcs.
  pose proof (eof_range q rho I Hsm) as [_ HA]. fold A in HA.
  destruct grow_run as [E|(nb & top & T & b & (Hnb & Etop & Enb & Hroom) & (HlT & Hlb) & HT & Hb & E)].
  { eapply wps_run; [exact E|]. by left. }
  assert (Hn' : q_rt_clusters q < n < 2 ^ 32) by lia.
  assert (I2 : Image (moved q n T b) (moved_roles q rho n nb)).
  { eapply (moved_image q rho I Hsm n nb top T b); try eassumption. apply (sh_rt_old q S). }
  assert (Hm2 : Counts (moved q n T b) (fun c => if (A <=? c) && (c <? A + n + nb) then 1 else ones rho c))
    by (eapply (moved_counts q rho I Hsm n nb top T b); eassumption).
  assert (K2 : keeps q (moved q n T b)) by (eapply (moved_keeps q rho I Hsm n nb T b); eassumption).
  assert (Hl2 : len (q_file (moved q n T b)) = (A + n + nb) * cs q) by (eapply (moved_len q rho I Hsm n nb T b); eassumption).
  assert (Hcov : forall c, A <= c <= A + n + nb -> block_of (moved q n T b) c <> 0)
    by (intros c; eapply (moved_covers q rho I Hsm n nb top T b); eassumption).
  intros Hs. unfold wp in *. rewrite E in *.
  assert (Hs2 : small (moved q n T b)).
  { eapply grows_small; [|exact Hs]. apply grows_free. exact G. }
  destruct (free_loop _ _ _ (q_rt_offset q / cs q) (Z.to_nat (q_rt_clusters q)) I2 Hs2 Hm2) as
    (q' & Eq & I3 & Hm3 & K3 & Hl3 & Hl1 & Hb3 & _).
  { apply Z.div_pos; [|lia]. pose proof (sh_rt q S). lia. }
  { intros c Hc. rewrite Z2Nat.id in Hc by lia. apply old_table_roles in Hc. unfold ones.
    rewrite decide_False by (intros E0; by rewrite E0 in Hc). by case_match. }
  rewrite Z2Nat.id in Eq, Hm3 by lia. rewrite Eq. cbn [fst snd]. right. split; [done|].
  assert (Ee : eof_cluster q' = A + n + nb).
  { unfold eof_cluster, div_ceil. rewrite (k_header _ _ K3), Hl3, Hl2. change (q_header (moved q n T b)) with (q_header q).
    symmetry. apply (Z.div_unique _ _ _ (cs q - 1)); [left; lia|lia]. }
  split; [|split; [rewrite Hb3 by lia; apply Hcov; lia|rewrite Ee, Hb3 by lia; apply Hcov; lia]].
  split; [exists (moved_roles q rho n nb); split; [done|]|by eapply qkeeps_trans|done].
  eapply Counts_ext; [exact Hm3|]. intros c Hc. apply freed_counts; lia.
Qed.
End Op.
End Grow.
