(* ===== verification/QcowHost.v ===== *)
(** * Allocating clusters of a qcow2 image

    [allocate_host_cluster] appends one zeroed cluster with refcount one.  On
    the way it may publish refcount blocks and grow the table; its loop ends
    after at most two block allocations, because a second one leaves the next
    cluster covered.  The allocation of L2 tables and of data clusters (with
    the copy from the backing image) builds on it. *)

From Stdlib Require Import ZArith Lia Bool.
From stdpp Require Import base decidable numbers list.
From S2P Require Import Prelude Rust Storage Qcow QcowInv QcowSteps QcowAlloc QcowGrow.

Section Host.
Context {B : Type} {SB : StorageBackend B} {DB : Disk B}.
Abbreviation qcow := (QcowBackend B).
Abbreviation cs q := (csz (q_header q)).
Abbreviation qm A := (M qcow serr A).

(** [q'] is [q] with the fresh zeroed cluster [c0], counted but not yet in use. *)
Record taken (q q' : qcow) (c0 : Z) : Prop := {
  tk_ok : exists rho, Image q' rho /\ Counts q' (upd (ones rho) c0 1) /\ fresh q' rho c0;
  tk_zero : zero_cluster q' c0;
  tk_keeps : keeps q q';
  tk_l1 : q_l1 q' = q_l1 q;
}.

Lemma taken_after q q1 q2 c0 : settled q q1 -> taken q1 q2 c0 -> taken q q2 c0.
Proof.
  intros S1 T. split; [exact (tk_ok _ _ _ T)|exact (tk_zero _ _ _ T)| |].
  - exact (qkeeps_trans _ _ _ (st_keeps _ _ S1) (tk_keeps _ _ _ T)).
  - rewrite (tk_l1 _ _ _ T). exact (st_l1 _ _ S1).
Qed.

Lemma settled_trans (q q1 q2 : qcow) : settled q q1 -> settled q1 q2 -> settled q q2.
Proof.
  intros S1 S2. split; [exact (st_ok _ _ S2)| |].
  - exact (qkeeps_trans _ _ _ (st_keeps _ _ S1) (st_keeps _ _ S2)).
  - rewrite (st_l1 _ _ S2). exact (st_l1 _ _ S1).
Qed.

Lemma settled_refl (q : qcow) : Consistent q -> settled q q.
Proof. intros H. split; [done|apply qkeeps_refl|done]. Qed.

(** ** Appending a cluster *)

Section Extend.
Context (q : qcow) (rho : Z -> role) (I : Image q rho) (Hsm : small q).
Let S : Shape q := proj1 I.
Let G : geometry (q_header q) := sh_geo q S.
Let A := eof_cluster q.

Lemma next_multiple_ok : next_multiple_of (len (q_file q)) (cs q) = Ok (A * cs q).
Proof.
  pose proof (eof_range q rho I Hsm) as [_ HA]. fold A in HA. pose proof (cs_pos q rho I).
  unfold next_multiple_of. fold (eof_cluster q). fold A. apply rmul_ok. nia.
Qed.

Definition extended : qcow := with_file q (set_len (q_file q) ((A + 1) * cs q)).

Lemma q_set_len_ok : q_set_len ((A + 1) * cs q) q = (extended, Ok tt).
Proof.
  pose proof (eof_range q rho I Hsm) as [_ HA]. fold A in HA. pose proof (cs_pos q rho I).
  unfold q_set_len, OFF_MAX. by rewrite (proj2 (Z.ltb_ge _ _)) by nia.
Qed.

Lemma extended_len : len (q_file extended) = (A + 1) * cs q.
Proof.
  pose proof (eof_range q rho I Hsm) as [_ HA]. fold A in HA. pose proof (cs_pos q rho I). apply len_set_len. nia.
Qed.

Lemma extended_grows : len (q_file q) <= (A + 1) * cs q.
Proof. pose proof (eof_range q rho I Hsm) as [HA _]. fold A in HA. pose proof (cs_pos q rho I). lia. Qed.

Lemma extended_image : Image extended rho /\ (forall m, Counts q m -> Counts extended m) /\ keeps q extended.
Proof.
  pose proof extended_grows as Hg. destruct (set_len_step q rho I _ _ eq_refl Hg) as (I1 & Hm1 & _).
  split_and!; [done|done|]. apply (keeps_frame q rho); [done|exact (eq_ind_r (Z.le _) Hg extended_len)|]. intros c _. by apply agree_set_len.
Qed.

Lemma extended_fresh : fresh extended rho A /\ zero_cluster extended A.
Proof.
  pose proof (eof_range q rho I Hsm) as [Hl HA]. fold A in HA, Hl. pose proof (cs_pos q rho I). split.
  - split_and!; [apply (free_above q rho I Hsm); lia| |lia|change (q_header extended) with (q_header q); nia].
    split; [lia|]. rewrite extended_len. change (q_header extended) with (q_header q). lia.
  - intros k Hk. change (q_header extended) with (q_header q) in *. cbn [q_file extended with_file].
    rewrite getb_set_len by nia. case_match; [|done]. apply getb_past. lia.
Qed.

Lemma extended_block c : 0 <= c -> block_of extended c = block_of q c.
Proof. intros Hc. apply (block_of_frame q rho I); [|done]. intros c' _. apply agree_set_len, extended_grows. Qed.

Lemma eof_aligned (q' : qcow) c : q_header q' = q_header q -> len (q_file q') = c * cs q -> eof_cluster q' = c.
Proof.
  intros Eh El. pose proof (cs_pos q rho I). unfold eof_cluster, div_ceil. rewrite Eh, El. symmetry.
  apply (Z.div_unique _ _ _ (cs q - 1)); [left; lia|lia].
Qed.

Context (Hm : Counts q (ones rho)) (Hse : small extended).
Let Ie : Image extended rho := proj1 extended_image.

(** The cluster is covered by a refcount block. *)
Lemma take_cluster :
  block_of q A <> 0 ->
  exists q', write_refcount A 1 extended = (q', Ok tt) /\ taken q q' A.
Proof.
  intros Hb. pose proof (eof_range q rho I Hsm) as [_ HA]. fold A in HA. pose proof extended_image as (_ & Hme & K1).
  destruct extended_fresh as [(Hf1 & [Hf2 Hf2'] & Hf3 & Hf4) Hz].
  assert (Hbe : block_of extended A <> 0) by (by rewrite extended_block by lia).
  eexists. split; [apply (write_refcount_ok extended rho Ie Hse); [lia|done]|].
  destruct (rc_step extended rho Ie A 1 _ ltac:(lia) Hbe ltac:(lia) (Hme _ Hm)) as (I2 & Hm2 & _ & Hl2).
  pose proof (rc_keeps extended rho A 1 _ Ie ltac:(lia) Hbe ltac:(lia) (Hme _ Hm)) as K2. split.
  - exists rho. split_and!; [done|done|]. split_and!; [done| |done|done]. split; [done|]. cbn [q_file with_file]. by rewrite Hl2.
  - intros k Hk. rewrite <- (Hz k Hk). apply (rc_agree extended rho Ie); [lia|done| |done]. rewrite Hf1. cbn. tauto.
  - exact (qkeeps_trans _ _ _ K1 K2).
  - done.
Qed.

(** It is not, but the table has a slot for the block: the cluster becomes it. *)
Lemma publish_block :
  block_of q A = 0 -> A / rbn (q_header q) < rtn q ->
  let q2 := with_file extended (publish_file extended (A / rbn (q_header q)) A) in
  exists q', write_refcount A 1 q2 = (q', Ok tt) /\ settled q q' /\ len (q_file q') = (A + 1) * cs q /\ rtn q' = rtn q /\
    forall c, 0 <= c -> c / rbn (q_header q) = A / rbn (q_header q) -> block_of q' c <> 0.
Proof.
  intros Hb Hs q2. pose proof (eof_range q rho I Hsm) as [_ HA]. fold A in HA. pose proof extended_image as (_ & Hme & K1).
  destruct extended_fresh as [Hf Hz]. pose proof (rbn_cs q rho I) as [_ [? _]]. set (s := A / rbn (q_header q)) in *.
  assert (Hs0 : 0 <= s < rtn extended) by (split; [apply Z.div_pos; lia|exact Hs]).
  assert (Hp0 : rt_ptr extended s = 0).
  { rewrite <- (extended_block A) in Hb by lia. unfold block_of in Hb. change (q_header extended) with (q_header q) in Hb.
    fold s in Hb. by rewrite (proj2 (Z.leb_gt _ _)) in Hb by apply Hs0. }
  destruct (publish_step extended rho Ie s A _ Hf Hz Hs0 Hp0 (Hme _ Hm)) as (I2 & Hm2 & _ & Hl2). fold q2 in I2, Hm2.
  assert (K2 : keeps extended q2).
  { apply (keeps_frame extended rho); [exact Ie|lia|]. intros c Hc. apply (rt_write_agree extended rho Ie); [done|].
    destruct Hc as [Hc|[Hc| ->]]; [..|rewrite (proj1 (header_role extended rho Ie)); cbn; tauto]; destruct (rho c); cbn in *; tauto. }
  assert (Hb2 : forall c, 0 <= c -> c / rbn (q_header q) = s -> block_of q2 c <> 0).
  { intros c Hc Ec. unfold block_of. change (q_header q2) with (q_header q). rewrite Ec. change (rtn q2) with (rtn q).
    rewrite (proj2 (Z.leb_gt _ _)) by done. unfold q2. rewrite (rt_ptr_publish extended rho Ie) by (done || lia). rewrite Z.eqb_refl.
    change (q_header extended) with (q_header q). pose proof (cs_pos q rho I). nia. }
  assert (Hs2 : small q2) by (unfold small in *; cbn [q_file q2 with_file q_header]; rewrite Hl2; exact Hse).
  eexists. split; [apply (write_refcount_ok q2 _ I2 Hs2); [lia|apply Hb2; (done || lia)]|].
  destruct (rc_step q2 _ I2 A 1 _ ltac:(lia) (Hb2 A ltac:(lia) eq_refl) ltac:(lia) Hm2) as (I3 & Hm3 & _ & Hl3).
  pose proof (rc_keeps q2 _ A 1 _ I2 ltac:(lia) (Hb2 A ltac:(lia) eq_refl) ltac:(lia) Hm2) as K3.
  split_and!; [split|cbn [q_file with_file]; rewrite Hl3; cbn [q_file q2 with_file]; rewrite Hl2; exact extended_len|done|].
  - exists (upd rho A (RRB s)). split; [done|]. eapply Counts_ext; [exact Hm3|]. intros c _. unfold upd, ones.
    by destruct (c =? A).
  - exact (qkeeps_trans _ _ _ K1 (qkeeps_trans _ _ _ K2 K3)).
  - done.
  - intros c Hc Ec. rewrite (rc_block_of q2 _ I2) by (done || lia || (apply Hb2; (done || lia))). by apply Hb2.
Qed.
End Extend.

(** ** A refcount block for the next cluster *)

Lemma same_slot r c : 0 < r -> (c + 1) mod r <> 0 -> (c + 1) / r = c / r.
Proof.
  intros Hr Hn. pose proof (Z.div_mod c r ltac:(lia)). pose proof (Z.mod_pos_bound c r Hr).
  destruct (Z.eq_dec (c mod r + 1) r) as [E|].
  - exfalso. apply Hn. replace (c + 1) with ((c / r + 1) * r) by nia. apply Z.mod_mul. lia.
  - symmetry. apply (Z.div_unique _ _ _ (c mod r + 1)); [left; lia|lia].
Qed.

Definition covered_next (q q' : qcow) : Prop :=
  block_of q' (eof_cluster q') <> 0 \/
  (eof_cluster q' = eof_cluster q + 1 /\ (eof_cluster q + 1) mod rbn (q_header q) = 0).

Lemma publish_spec (q : qcow) rho :
  Image q rho -> Counts q (ones rho) -> small q -> block_of q (eof_cluster q) = 0 ->
  eof_cluster q / rbn (q_header q) < rtn q ->
  wps (publish_refcount_block (q_header q) (rbn (q_header q)) (eof_cluster q / rbn (q_header q)) (eof_cluster q)) (fun q' r =>
    exists off, r = Ok off /\ settled q q' /\ covered_next q q') q.
Proof.
  intros I Hm Hsm Hb Hs. pose proof (sh_geo q (proj1 I)) as G. pose proof (eof_range q rho I Hsm) as [_ HA].
  pose proof (cs_pos q rho I). pose proof (rbn_cs q rho I) as [_ [? _]]. set (A := eof_cluster q) in *.
  assert (Hr : 0 <= A / rbn (q_header q) <= A) by (split; [apply Z.div_pos; lia|apply Z.div_le_upper_bound; nia]).
  unfold publish_refcount_block. step (apply (refcount_block_offset_ok q rho I Hsm); lia). rewrite Hb, Z.eqb_refl.
  step_lift (by apply cluster_size_ok). step reflexivity. step_lift (by apply (next_multiple_ok q rho I Hsm)). fold A.
  step_lift (apply radd_ok; nia). replace (A * cs q + cs q) with ((A + 1) * cs q) by lia.
  step (apply (q_set_len_ok q rho I Hsm)). rewrite Z.div_mul by lia. rewrite Z.eqb_refl. cbn [negb].
  step reflexivity. step_lift (apply rmul_ok; lia).
  pose proof (sh_rt q (proj1 I)) as [_ Ho]. pose proof (small_len q rho I Hsm).
  destruct (rt_entry_role q rho I (A / rbn (q_header q)) ltac:(lia)) as (Eo & _ & [_ Hi]).
  pose proof (l2n_cs q rho I) as [El [? _]]. pose proof (Z.mod_pos_bound (A / rbn (q_header q)) (l2n (q_header q)) ltac:(lia)).
  change (q_rt_offset (extended q)) with (q_rt_offset q). rewrite (Z.mul_comm _ 8).
  step_lift (apply radd_ok; lia).
  step (unfold q_write, OFF_MAX; rewrite (proj2 (Z.ltb_ge _ _)) by lia; reflexivity).
  apply wps_small.
  { apply grows_bind; [apply grows_write_refcount|intros; by apply reader_grows|exact G]. }
  intros Hs2. assert (Hse : small (extended q)).
  { unfold small in *. etransitivity; [apply len_file_write_ge|exact Hs2]. }
  destruct (publish_block q rho I Hsm Hm Hse Hb Hs) as (q' & Ew & St & Hl' & Hrt' & Hc').
  step (exact Ew). apply (wps_run _ _ _ q' _ eq_refl). intros _. eexists. split; [done|]. split; [done|].
  pose proof (k_header _ _ (st_keeps _ _ St)) as Eh. pose proof (eof_aligned q rho I q' _ Eh Hl') as Ee. unfold covered_next.
  rewrite Ee. destruct (Z.eq_dec ((eof_cluster q + 1) mod rbn (q_header q)) 0) as [E0|Hn]; [by right|left].
  apply Hc'; [lia|]. apply same_slot; [lia|done].
Qed.

Lemma alloc_block_spec (q : qcow) :
  Consistent q -> block_of q (eof_cluster q) = 0 ->
  wps (allocate_refcount_block (eof_cluster q)) (fun q' r =>
    (r = Err TableTooSmall /\ q' = q) \/ (exists off, r = Ok off /\ settled q q' /\ covered_next q q')) q.
Proof.
  intros (rho & I & Hm) Hb. pose proof (sh_geo q (proj1 I)) as G. apply wps_small; [by apply grows_alloc_block|]. intros Hsm.
  pose proof (eof_range q rho I Hsm) as [_ HA]. pose proof (cs_pos q rho I). pose proof (rbn_cs q rho I) as [_ [? _]].
  unfold allocate_refcount_block. step reflexivity. step_lift (by apply refcount_block_entries_ok).
  step_lift (apply rdiv_ok; lia). step_lift (by apply (rt_entries_ok q rho)).
  set (A := eof_cluster q) in *. destruct (Z.leb_spec (rtn q) (A / rbn (q_header q))) as [Hs|Hs].
  - pose proof (grow_spec q rho I Hm Hsm Hs) as Hg. apply wps_bind.
    { intros [] q1 E. destruct (grows_grow (A / rbn (q_header q)) q G) as [_ Hh]. rewrite E in Hh. cbn in Hh.
      rewrite <- Hh. apply grows_publish. by rewrite Hh. }
    eapply wps_mono; [exact Hg|]. intros q1 r [[-> ->]|(-> & St & Hb1 & Hb2)]; [by left|].
    apply wps_small.
    { pose proof (k_header _ _ (st_keeps _ _ St)) as Eh. rewrite <- Eh. apply grows_publish. by rewrite Eh. }
    intros Hs1. destruct (st_ok _ _ St) as (rho1 & I1 & _). unfold publish_refcount_block.
    step (apply (refcount_block_offset_ok q1 rho1 I1 Hs1); lia). fold A in Hb1. rewrite (proj2 (Z.eqb_neq _ _)) by done.
    apply (wps_run _ _ _ q1 _ eq_refl). intros _. right. eexists. split; [done|]. split; [done|]. by left.
  - step reflexivity. eapply wps_mono; [by apply (publish_spec q rho)|]. by right.
Qed.

(** ** A host cluster *)

(** What a host allocation does; the only refusal is a table that cannot grow. *)
Definition host_post (q q' : qcow) (r : res serr Z) : Prop :=
  (r = Err TableTooSmall /\ settled q q') \/ (exists c0, r = Ok (c0 * cs q) /\ taken q q' c0).

Lemma loop_covered (q : qcow) fuel :
  Consistent q -> small q -> block_of q (eof_cluster q) <> 0 -> wps (alloc_loop fuel (cs q)) (host_post q) q.
Proof.
  intros (rho & I & Hm) Hsm Hb. pose proof (sh_geo q (proj1 I)) as G. pose proof (eof_range q rho I Hsm) as [_ HA].
  pose proof (cs_pos q rho I). set (A := eof_cluster q) in *.
  assert (Hrun : wps
    (new_end ← lift (radd (A * cs q) (cs q)); q_set_len new_end ;; write_refcount A 1 ;; mret (A * cs q)) (host_post q) q).
  { step_lift (apply radd_ok; nia). replace (A * cs q + cs q) with ((A + 1) * cs q) by lia.
    step (apply (q_set_len_ok q rho I Hsm)). apply wps_small.
    { apply grows_bind; [apply grows_write_refcount|intros; by apply reader_grows|exact G]. }
    intros Hse. destruct (take_cluster q rho I Hsm Hm Hse Hb) as (q' & Ew & Tk). step (exact Ew).
    apply (wps_run _ _ _ q' _ eq_refl). intros _. right. by exists A. }
  destruct fuel; cbn [alloc_loop].
  all: step reflexivity; step_lift (by apply (next_multiple_ok q rho I Hsm)); fold A; rewrite Z.div_mul by lia.
  all: step (apply (refcount_block_offset_ok q rho I Hsm); lia); rewrite (proj2 (Z.eqb_neq _ _)) by done; by apply Hrun.
Qed.

Lemma host_post_after (q q1 : qcow) q' r : settled q q1 -> host_post q1 q' r -> host_post q q' r.
Proof.
  intros St. pose proof (k_header _ _ (st_keeps _ _ St)) as Eh. intros [[-> S2]|(c0 & -> & Tk)].
  - left. split; [done|by eapply settled_trans].
  - right. exists c0. rewrite Eh. split; [done|by eapply taken_after].
Qed.

(** One round of the loop. *)
Lemma loop_round (q : qcow) fuel :
  Consistent q ->
  (forall q1, settled q q1 -> covered_next q q1 -> small q1 -> wps (alloc_loop fuel (cs q1)) (host_post q1) q1) ->
  wps (alloc_loop (S fuel) (cs q)) (host_post q) q.
Proof.
  intros C Hnext. pose proof C as (rho & I & Hm). pose proof (sh_geo q (proj1 I)) as G.
  apply wps_small; [by apply grows_alloc_loop, cluster_size_ok|]. intros Hsm.
  destruct (Z.eq_dec (block_of q (eof_cluster q)) 0) as [Hb|]; [|by apply loop_covered].
  pose proof (eof_range q rho I Hsm) as [_ HA]. pose proof (cs_pos q rho I). cbn [alloc_loop].
  step reflexivity. step_lift (by apply (next_multiple_ok q rho I Hsm)). rewrite Z.div_mul by lia.
  step (apply (refcount_block_offset_ok q rho I Hsm); lia). rewrite Hb, Z.eqb_refl.
  apply wps_bind.
  { intros off q1 E. destruct (grows_alloc_block (eof_cluster q) q G) as [_ Hh]. rewrite E in Hh. cbn in Hh.
    rewrite <- Hh. apply grows_alloc_loop; [by rewrite Hh|]. apply cluster_size_ok. by rewrite Hh. }
  eapply wps_mono; [by apply alloc_block_spec|]. intros q1 r [[-> ->]|(off & -> & St & Hc)].
  { left. split; [done|by apply settled_refl]. }
  pose proof (k_header _ _ (st_keeps _ _ St)) as Eh. rewrite <- Eh.
  apply wps_small; [apply grows_alloc_loop; [by rewrite Eh|by apply cluster_size_ok; rewrite Eh]|]. intros Hs1.
  eapply wps_mono; [by apply Hnext|]. intros q2 r Hp. by eapply host_post_after.
Qed.

Lemma alloc_loop_spec (q : qcow) fuel : Consistent q -> wps (alloc_loop (S (S fuel)) (cs q)) (host_post q) q.
Proof.
  intros C. pose proof C as (rho & I & Hm). pose proof (rbn_cs q rho I) as [_ [? _]].
  apply loop_round; [done|]. intros q1 S1 [Hb1|[Ee1 Hm1]] Hs1; [by apply loop_covered; [apply (st_ok _ _ S1)|..]|].
  apply loop_round; [apply (st_ok _ _ S1)|].
  intros q2 S2 [Hb2|[Ee2 Hm2]] Hs2; [by apply loop_covered; [apply (st_ok _ _ S2)|..]|].
  exfalso. rewrite Ee1, (k_header _ _ (st_keeps _ _ S1)) in Hm2. rewrite Z.add_mod, Hm1 in Hm2 by lia.
  rewrite Z.add_0_l, !Z.mod_1_l in Hm2 by lia. lia.
Qed.

Lemma alloc_spec (q : qcow) : Consistent q -> wps allocate_host_cluster (host_post q) q.
Proof.
  intros C. pose proof C as (rho & I & Hm). unfold allocate_host_cluster. step reflexivity.
  step_lift (apply cluster_size_ok, (sh_geo q (proj1 I))). by apply alloc_loop_spec.
Qed.

(** C17: The allocation loop terminates: from a consistent image two refcount
    blocks at most are published before the cluster at the end of the file
    has one, so any two rounds of fuel are enough.  The run ends in a fresh
    zeroed cluster of refcount one, or in the one refusal, with the guest's
    bytes untouched either way. *)
Theorem qcow_alloc_terminates (q q' : qcow) fuel r :
  Consistent q -> alloc_loop (S (S fuel)) (cs q) q = (q', r) -> small q' ->
  r <> Panic /\ same_content q q' /\
  ((r = Err TableTooSmall /\ Consistent q') \/
   exists c rho, r = Ok (c * cs q) /\ Image q' rho /\ rho c = Free /\ refcount q' c = 1 /\
     len (q_file q) <= len (q_file q') /\ (c + 1) * cs q <= len (q_file q') /\
     forall k, 0 <= k < cs q -> getb (q_file q') (c * cs q + k) = 0).
Proof.
  intros C E Hs. destruct (wps_elim _ _ _ _ _ (alloc_loop_spec q fuel C) E Hs) as [[-> St]|(c & -> & Tk)].
  - split; [done|]. split; [apply (k_content _ _ (st_keeps _ _ St))|]. left. by split; [|apply (st_ok _ _ St)].
  - destruct (tk_ok _ _ _ Tk) as (rho & I & Hm & Hf). pose proof (tk_keeps _ _ _ Tk) as K. pose proof (k_header _ _ K) as Eh.
    split; [done|]. split; [apply (k_content _ _ K)|]. right. exists c, rho. destruct Hf as (Hf & [Hi1 Hi2] & _). rewrite Eh in Hi2. rewrite Hm, upd_same by done.
    split_and!; try done; [apply (k_len _ _ K)|]. intros k Hk. rewrite <- Eh. apply (tk_zero _ _ _ Tk). by rewrite Eh.
Qed.

(** ** An L2 table *)

Lemma ones_upd (rho : Z -> role) c0 r c : r <> Free -> upd (ones rho) c0 1 c = ones (upd rho c0 r) c.
Proof. intros Hr. unfold upd, ones. destruct (c =? c0); [by rewrite decide_False|done]. Qed.

Lemma q_write_ok (q : qcow) off bs : off <= OFF_MAX -> q_write off bs q = (with_file q (file_write (q_file q) off bs), Ok tt).
Proof. intros. unfold q_write. by rewrite (proj2 (Z.ltb_ge _ _)). Qed.

Lemma l1_entry_place (q : qcow) rho i :
  Image q rho -> small q -> 0 <= i < h_l1_size (q_header q) ->
  0 <= h_l1_table_offset (q_header q) + 8 * i /\ h_l1_table_offset (q_header q) + 8 * i + 8 <= len (q_file q).
Proof.
  intros I Hsm Hi. destruct (l1_entry_role q rho I i Hi) as (E & _ & [_ Hin]). pose proof (l2n_cs q rho I) as [El [? _]].
  pose proof (Z.mod_pos_bound i (l2n (q_header q)) ltac:(lia)). pose proof (geo_l1_off _ (sh_geo q (proj1 I))). lia.
Qed.

Section Link.
Context (q : qcow) (rho : Z -> role) (c0 : Z) (I : Image q rho) (Hm : Counts q (upd (ones rho) c0 1)).
Context (Hf : fresh q rho c0) (Hz : zero_cluster q c0).

Lemma linked_l2 i :
  0 <= i < h_l1_size (q_header q) -> l1_off q i = 0 ->
  let e := c0 * cs q .| QCOW_OFLAG_COPIED in
  let q' := with_l1 (with_file q (l1_entry_file q i e)) (<[Z.to_nat i := e]> (q_l1 q)) in
  Consistent q' /\ keeps q q' /\ l1_off q' i = c0 * cs q /\ c0 * cs q <> 0.
Proof.
  intros Hi H0 e q'. destruct (link_l2_step q rho I i c0 Hi H0 Hf Hz) as (I2 & Hm2 & Hc2). fold e q' in I2, Hm2, Hc2.
  pose proof (l1_write_len q rho I i c0 Hi) as Hl. fold e in Hl.
  split_and!.
  - eexists. split; [exact I2|]. eapply Counts_ext; [exact (Hm2 _ Hm)|]. intros c _. by apply ones_upd.
  - split; try done.
    + change (len (q_file q) <= len (l1_entry_file q i e)). lia.
    + intros g Hg. by apply (l2_at_link q rho I i c0 Hi H0 Hf Hz).
    + intros k Hk _. apply (l1_write_agree q rho I i c0 Hi 0); [|done]. by rewrite (proj1 (header_role q rho I)).
  - unfold q', e. rewrite (l1_off_link q rho I i c0 Hi Hf) by lia. by rewrite Z.eqb_refl.
  - destruct Hf as (_ & _ & ? & _). pose proof (cs_pos q rho I). nia.
Qed.
End Link.

(** The new table is linked; every guest cluster's entry is what it was. *)
Definition l2_post (q q' : qcow) (i : Z) (r : res serr Z) : Prop :=
  (r = Err TableTooSmall /\ Consistent q' /\ keeps q q') \/
  (exists t, r = Ok t /\ Consistent q' /\ keeps q q' /\ l1_off q' i = t /\ t <> 0).

Lemma alloc_l2_spec (q : qcow) i :
  Consistent q -> 0 <= i < h_l1_size (q_header q) -> l1_off q i = 0 ->
  wps (allocate_l2_table i) (fun q' r => l2_post q q' i r) q.
Proof.
  intros C Hi H0. pose proof C as (rho & I & _). pose proof (sh_geo q (proj1 I)) as G. unfold allocate_l2_table.
  assert (Hk : forall t, grows (h ← @header B; b ← lift (rmul i 8); off ← lift (radd (h_l1_table_offset h) b);
    q_write off (be_bytes 8 (t .| QCOW_OFLAG_COPIED)) ;; set_l1 i (t .| QCOW_OFLAG_COPIED) ;; mret t)).
  { intros t. growing. }
  apply wps_bind_grows; [done|growing|done|].
  eapply wps_mono; [by apply alloc_spec|]. intros q1 r [[-> St]|(c0 & -> & Tk)].
  { left. split; [done|]. split; [apply (st_ok _ _ St)|apply (st_keeps _ _ St)]. }
  pose proof (tk_keeps _ _ _ Tk) as K1. pose proof (k_header _ _ K1) as Eh.
  apply wps_small; [apply Hk; by rewrite Eh|]. intros Hs1. destruct (tk_ok _ _ _ Tk) as (rho1 & I1 & Hm1 & Hf1).
  assert (Hi1 : 0 <= i < h_l1_size (q_header q1)) by (by rewrite Eh). pose proof (small_len q1 rho1 I1 Hs1) as Hsl.
  assert (H01 : l1_off q1 i = 0) by (unfold l1_off in *; by rewrite (tk_l1 _ _ _ Tk)).
  destruct (l1_entry_place q1 rho1 i I1 Hs1 Hi1) as [? ?]. pose proof (geo_l1 _ (sh_geo q1 (proj1 I1))).
  step reflexivity. step_lift (apply rmul_ok; lia). rewrite (Z.mul_comm i 8). step_lift (apply radd_ok; lia).
  step (apply q_write_ok; unfold OFF_MAX; lia). rewrite <- Eh. fold (l1_entry_file q1 i (c0 * cs q1 .| QCOW_OFLAG_COPIED)).
  step (unfold set_l1; rewrite (proj2 (Z.ltb_lt _ _)) by (cbn [q_l1 with_file]; rewrite (sh_l1_len q1 (proj1 I1)); lia); reflexivity).
  destruct (linked_l2 q1 rho1 c0 I1 Hm1 Hf1 (tk_zero _ _ _ Tk) i Hi1 H01) as (C2 & K2 & E2 & N2).
  eapply wps_run; [reflexivity|]. intros _. right. eexists. split; [done|]. split; [done|]. split; [by eapply qkeeps_trans|done].
Qed.

(** ** A data cluster *)

Lemma cluster_start c n : 0 <= n -> c .&~ (2 ^ n - 1) = c / 2 ^ n * 2 ^ n.
Proof.
  intros Hn. rewrite <- Z.shiftr_div_pow2, <- Z.shiftl_mul_pow2, <- Z.ldiff_ones_r by lia. f_equal.
  rewrite Z.ones_equiv. lia.
Qed.

(** Reading a whole cluster of the backing image into a zeroed buffer. *)
Lemma backing_read (q : qcow) b off n :
  q_backing q = Some b -> disk_ok b -> 0 <= off < 2 ^ 62 -> 0 <= n < 2 ^ 62 ->
  exists tmp m, read_at b off (zeros n) = (tmp, Ok m) /\ len tmp = n /\
    forall k, 0 <= k < n -> getb tmp k = backing_byte q (off + k).
Proof.
  intros Eb Hok Ho Hn. destruct (read_at b off (zeros n)) as [tmp r] eqn:E.
  assert (Hoff : 0 <= off <= OFF_MAX) by (unfold OFF_MAX; lia).
  assert (Hend : off + len (zeros n) < 2 ^ 64) by (rewrite len_zeros; lia).
  destruct (disk_read b off (zeros n) tmp r Hok Hoff Hend E) as (Hl & (m & -> & _) & Hk).
  rewrite len_zeros in Hl, Hk by lia. exists tmp, m. split; [done|]. split; [done|]. intros k Hk'. specialize (Hk k Hk').
  unfold backing_byte. rewrite Eb. unfold clip in Hk. rewrite getb_zeros in Hk.
  destruct (Z.ltb_spec k (Z.max 0 (Z.min n (capacity b - off)))), (Z.ltb_spec (off + k) (capacity b)); lia.
Qed.

Section Fill.
Context (q : qcow) (rho : Z -> role) (c0 : Z) (I : Image q rho) (Hsm : small q) (Hm : Counts q (upd (ones rho) c0 1)).
Context (Hf : fresh q rho c0) (Hz : zero_cluster q c0).
Let S : Shape q := proj1 I.
Let G : geometry (q_header q) := sh_geo q S.

Lemma free_write bs :
  len bs = cs q ->
  let q' := with_file q (file_write (q_file q) (c0 * cs q) bs) in
  Image q' rho /\ Counts q' (upd (ones rho) c0 1) /\ fresh q' rho c0 /\ keeps q q'.
Proof.
  intros Hl q'. pose proof Hf as (Hfree & Hin & Hpos & Hlt).
  destruct (cell_step q rho I c0 (c0 * cs q) bs) as (I' & Hm' & Hl' & Ha).
  1,2: rewrite Hfree; cbn; tauto. 1: done. 1,2: lia.
  fold q' in I', Hm', Hl', Ha.
  split_and!; [done|by apply Hm'| |].
  - split_and!; [done| |done|done]. split; [apply Hin|]. rewrite Hl'. apply Hin.
  - apply (keeps_frame q rho); [done|cbn in Hl'; lia|]. intros c Hc. apply Ha. intros ->. rewrite Hfree in Hc.
    destruct Hc as [?|[?| ->]]; done || lia.
Qed.

Lemma copy_spec (u : bool) x :
  0 <= x < 2 ^ 62 ->
  exists q', copy_from_backing (q_backing q) u (cs q) x (c0 * cs q) q = (q', Ok tt) /\
    Image q' rho /\ Counts q' (upd (ones rho) c0 1) /\ fresh q' rho c0 /\ keeps q q' /\ q_l1 q' = q_l1 q /\
    forall k, 0 <= k < cs q -> getb (q_file q') (c0 * cs q + k) = if u then backing_byte q (x / cs q * cs q + k) else 0.
Proof.
  intros Hx. pose proof (cs_pos q rho I). unfold copy_from_backing.
  assert (Hid : (u = true -> q_backing q = None) -> exists q', (q, Ok tt : res serr unit) = (q', Ok tt) /\
    Image q' rho /\ Counts q' (upd (ones rho) c0 1) /\ fresh q' rho c0 /\ keeps q q' /\ q_l1 q' = q_l1 q /\
    forall k, 0 <= k < cs q -> getb (q_file q') (c0 * cs q + k) = if u then backing_byte q (x / cs q * cs q + k) else 0).
  { intros Hu. exists q. split_and!; try done. intros k Hk. rewrite (Hz k Hk). destruct u; [|done].
    unfold backing_byte. by rewrite Hu. }
  destruct (q_backing q) as [b|] eqn:Eb; [|by apply Hid]. destruct u; [|by apply Hid]. clear Hid.
  assert (Est : x .&~ (cs q - 1) = x / cs q * cs q) by (apply cluster_start; pose proof (geo_bits _ G); lia). rewrite Est.
  pose proof (Z.mul_div_le x (cs q) ltac:(lia)). assert (0 <= x / cs q) by (apply Z.div_pos; lia).
  pose proof (sh_backing q S) as Hok. rewrite Eb in Hok.
  destruct (backing_read q b (x / cs q * cs q) (cs q) Eb Hok ltac:(nia) ltac:(lia)) as (tmp & m & Er & Hl & Hk). rewrite Er.
  destruct (free_write tmp Hl) as (I' & Hm' & Hf' & K'). eexists.
  split; [etransitivity; [by apply bind_run|]; apply q_write_ok; destruct Hf as (_ & _ & ? & ?); unfold OFF_MAX; lia|].
  split_and!; try done. intros k Hk'. cbn [q_file with_file]. destruct Hf as (_ & _ & ? & _).
  rewrite getb_file_write by nia. rewrite Hl. zcmp; try lia. rewrite <- Hk by done. f_equal. lia.
Qed.
End Fill.

(** What a change of the image may do: no guest byte changes, no mapped cluster moves. *)
Record evolves (q q' : qcow) : Prop := {
  ev_header : q_header q' = q_header q;
  ev_backing : q_backing q' = q_backing q;
  ev_writable : q_writable q' = q_writable q;
  ev_mapped : forall g o, guest q g -> l2_data (l2_at q g) = Some o -> l2_at q' g = l2_at q g;
  ev_content : same_content q q';
  ev_head : forall k, 0 <= k < cs q -> ~ (48 <= k < 60) -> getb (q_file q') k = getb (q_file q) k;
}.

Lemma keeps_evolves q q' : keeps q q' -> evolves q q'.
Proof. intros []. split; try done. intros g o Hg _. auto. Qed.

Lemma evolves_trans q1 q2 q3 : evolves q1 q2 -> evolves q2 q3 -> evolves q1 q3.
Proof.
  intros H1 H2. pose proof (ev_header _ _ H1) as Eh. split.
  - by rewrite (ev_header _ _ H2).
  - by rewrite (ev_backing _ _ H2), (ev_backing _ _ H1).
  - by rewrite (ev_writable _ _ H2), (ev_writable _ _ H1).
  - intros g o Hg Ho. pose proof (ev_mapped _ _ H1 g o Hg Ho) as E. rewrite <- E. apply (ev_mapped _ _ H2 g o); [|by rewrite E].
    unfold guest in *. by rewrite Eh.
  - intros x Hx. rewrite (ev_content _ _ H2), (ev_content _ _ H1); [done..|]. by rewrite Eh.
  - intros k Hk Hn. rewrite (ev_head _ _ H2), (ev_head _ _ H1); [done..|by rewrite Eh|done].
Qed.

Lemma linked_data (q : qcow) rho c0 g :
  Image q rho -> Counts q (upd (ones rho) c0 1) -> fresh q rho c0 ->
  guest q g -> l1_off q (g / l2n (q_header q)) <> 0 -> l2_data (l2_at q g) = None ->
  (forall x, 0 <= x < h_size (q_header q) -> x / cs q = g -> getb (q_file q) (c0 * cs q + x mod cs q) = content q x) ->
  let q' := with_file q (set_l2_file q g (c0 * cs q .| QCOW_OFLAG_COPIED)) in
  Consistent q' /\ evolves q q' /\ l2_data (l2_at q' g) = Some (c0 * cs q).
Proof.
  intros I Hm Hf Hg Ht Hd Hsame q'. destruct (link_step q rho I g c0 Hg Ht Hd Hf) as (I' & Hm' & Hc'). fold q' in I', Hm', Hc'.
  pose proof (fresh_fits q rho I c0 Hf) as [H56 _]. destruct (copied_entry _ (fresh_aligned q rho I c0) H56) as (_ & _ & _ & E4).
  assert (H2 : forall g', guest q g' -> l2_at q' g' = if g' =? g then c0 * cs q .| QCOW_OFLAG_COPIED else l2_at q g')
    by (intros; by apply (set_l2_at q rho I)).
  split_and!.
  - eexists. split; [exact I'|]. eapply Counts_ext; [exact (Hm' _ Hm)|]. intros c _. by apply ones_upd.
  - split; try done.
    + intros g' o Hg' Ho. rewrite H2 by done. destruct (Z.eqb_spec g' g) as [->|]; [congruence|done].
    + intros x Hx. rewrite Hc' by done. destruct (Z.eqb_spec (x / cs q) g); [by apply Hsame|done].
    + intros k Hk _. apply (set_l2_agree q rho I g _ Hg Ht 0); [|done]. rewrite (proj1 (header_role q rho I)). cbn. tauto.
  - rewrite H2, Z.eqb_refl by done. by apply (l2_data_copied q rho I).
Qed.

(** The bytes a fresh data cluster must hold, by the entry it replaces. *)
Lemma unmapped_content (q : qcow) x e :
  l2_at q (x / cs q) = e -> l2_data e = None ->
  content q x = if negb (tst e QCOW_OFLAG_ZERO) && negb (tst e L2_OFFSET_MASK) then backing_byte q x else 0.
Proof.
  intros E Hd. unfold content. rewrite E. unfold l2_data in Hd.
  destruct (tst e QCOW_OFLAG_ZERO); [done|]. cbn [negb andb]. unfold tst.
  destruct (e .& L2_OFFSET_MASK =? 0); [done|done].
Qed.

Definition data_post (q q' : qcow) (g : Z) (r : res serr Z) : Prop :=
  Consistent q' /\ evolves q q' /\
  (r = Err TableTooSmall \/ (exists o, r = Ok o /\ l2_data (l2_at q' g) = Some o)).

Lemma data_post_after q q1 q' g r : evolves q q1 -> data_post q1 q' g r -> data_post q q' g r.
Proof. intros E1 (C & E2 & H). split; [done|]. split; [by eapply evolves_trans|done]. Qed.

Lemma fill_spec (q : qcow) x t :
  Consistent q -> 0 <= x < h_size (q_header q) -> l1_off q (x / cs q / l2n (q_header q)) = t -> t <> 0 ->
  l2_data (l2_at q (x / cs q)) = None ->
  wps (fill_data_cluster (q_header q) (q_backing q) (cs q) x t) (fun q' r => data_post q q' (x / cs q) r) q.
Proof.
  intros C Hx Et Ht Hd. pose proof C as (rho & I & Hm). pose proof (sh_geo q (proj1 I)) as G.
  apply wps_small; [by apply grows_fill|]. intros Hsm. pose proof (guest_cluster q rho I x Hx) as Hg. set (g := x / cs q) in *.
  pose proof (l1_off_range q (g / l2n (q_header q))) as Hr. rewrite Et in Hr. unfold fill_data_cluster.
  step_lift (apply l2_entry_off_ok; [done|lia|lia]). fold g. rewrite <- Et.
  step (apply (l2_read_ok q rho I Hsm); [done|by rewrite Et]). fold (l2_pos q g).
  apply wps_bind_grows; [done|growing|intros; growing|]. eapply wps_mono; [by apply alloc_spec|].
  intros q1 r [[-> St]|(c0 & -> & Tk)].
  { split; [apply (st_ok _ _ St)|]. split; [apply keeps_evolves, (st_keeps _ _ St)|by left]. }
  pose proof (tk_keeps _ _ _ Tk) as K1. pose proof (k_header _ _ K1) as Eh. rewrite <- Eh, <- (k_backing _ _ K1).
  apply wps_small_grows; [by rewrite Eh|growing|]. intros Hs1.
  destruct (tk_ok _ _ _ Tk) as (rho1 & I1 & Hm1 & Hf1).
  set (u := negb (tst (l2_at q g) QCOW_OFLAG_ZERO) && negb (tst (l2_at q g) L2_OFFSET_MASK)).
  pose proof (geo_size _ G).
  destruct (copy_spec q1 rho1 c0 I1 Hm1 Hf1 (tk_zero _ _ _ Tk) u x ltac:(lia)) as (q2 & Ec & I2 & Hm2 & Hf2 & K2 & El1 & Hbytes).
  pose proof (k_header _ _ K2) as Eh2. pose proof (qkeeps_trans _ _ _ K1 K2) as K.
  step (exact Ec).
  assert (Ep : l2_pos q2 g = l2_pos q g) by (unfold l2_pos, l1_off; by rewrite Eh2, Eh, El1, (tk_l1 _ _ _ Tk)).
  destruct (l2_pos_place q rho I g Hg ltac:(by rewrite Et)) as (Epos & _ & [Hi1 Hi2] & Hj).
  pose proof (small_len q rho I Hsm). pose proof (l2n_cs q rho I) as [? _].
  step (apply q_write_ok; unfold OFF_MAX; lia). rewrite <- Ep, <- Eh2. fold (set_l2_file q2 g (c0 * cs q2 .| QCOW_OFLAG_COPIED)).
  destruct (linked_data q2 rho1 c0 g I2 Hm2 Hf2) as (C' & Ev & Ho).
  - unfold guest. by rewrite Eh2, Eh.
  - unfold l1_off. rewrite Eh2, Eh, El1, (tk_l1 _ _ _ Tk). fold (l1_off q (g / l2n (q_header q))). by rewrite Et.
  - by rewrite (k_l2 _ _ K).
  - intros x' Hx' Eg. rewrite Eh2, Eh in *. rewrite Hbytes by (apply Z.mod_pos_bound; pose proof (cs_pos q rho I); lia).
    rewrite (k_content _ _ K) by done. rewrite (unmapped_content q x' (l2_at q g)) by (done || by rewrite Eg). fold u.
    destruct u; [|done]. unfold backing_byte. rewrite (k_backing _ _ K1). pose proof (cs_pos q rho I).
    pose proof (Z.div_mod x' (cs q) ltac:(lia)). fold g. rewrite <- Eg. by replace (x' / cs q * cs q + x' mod cs q) with x' by lia.
  - eapply wps_run; [reflexivity|]. intros _. split; [done|].
    split; [by eapply evolves_trans; [apply keeps_evolves|]|]. right. by eexists.
Qed.

Lemma alloc_data_spec (q : qcow) x :
  Consistent q -> 0 <= x < h_size (q_header q) -> l2_data (l2_at q (x / cs q)) = None ->
  wps (allocate_data_cluster x) (fun q' r => data_post q q' (x / cs q) r) q.
Proof.
  intros C Hx Hd. pose proof C as (rho & I & Hm). pose proof (sh_geo q (proj1 I)) as G.
  pose proof (guest_cluster q rho I x Hx) as Hg. destruct (guest_index q rho I _ Hg) as [Hi _].
  unfold allocate_data_cluster. step reflexivity. step_lift (by apply cluster_size_ok). step_lift (by apply l1_index_of_ok).
  set (i := x / cs q / l2n (q_header q)) in *. rewrite (sh_l1_len q (proj1 I)), (proj2 (Z.leb_gt _ _)) by lia. fold (l1_off q i).
  destruct (Z.eqb_spec (l1_off q i) 0) as [E0|Hn].
  - apply wps_bind_grows; [done|growing|intros; growing|]. eapply wps_mono; [by apply alloc_l2_spec|].
    intros q1 r [(-> & C1 & K1)|(t & -> & C1 & K1 & Et & Ht)].
    { split; [done|]. split; [by apply keeps_evolves|by left]. }
    pose proof (k_header _ _ K1) as Eh. rewrite <- Eh, <- (k_backing _ _ K1).
    eapply wps_mono; [apply fill_spec; [done|by rewrite Eh|by rewrite Eh|done|by rewrite Eh, (k_l2 _ _ K1)]|].
    intros q2 r. apply data_post_after. by apply keeps_evolves.
  - step reflexivity. by apply fill_spec.
Qed.
End Host.
