(* ===== verification/QcowRefine.v ===== *)
(** * The qcow2 backend is a disk

    Reads return the guest's bytes, a write changes exactly the bytes it
    covers or, when the refcount table cannot grow, none, a trim zeroes mapped
    clusters that lie wholly inside the range; all of them keep the image
    consistent.  The instance at the end makes a qcow2 image over any [Disk] a
    [Disk] again. *)

From Stdlib Require Import ZArith Lia Bool.
From stdpp Require Import base decidable numbers list relations.
From S2P Require Import Prelude Rust Storage Qcow QcowInv QcowSteps QcowAlloc QcowGrow QcowHost.

Section Refine.
Context {B : Type} {SB : StorageBackend B} {DB : Disk B}.
Abbreviation qcow := (QcowBackend B).
Abbreviation cs q := (csz (q_header q)).
Abbreviation qm A := (M qcow serr A).

(** ** Within one cluster *)

Lemma in_cluster c x k : 0 < c -> 0 <= k -> x mod c + k < c -> (x + k) / c = x / c /\ (x + k) mod c = x mod c + k.
Proof.
  intros Hc Hk Hl. pose proof (Z.div_mod x c ltac:(lia)) as E. pose proof (Z.mod_pos_bound x c Hc).
  split; symmetry; [apply (Z.div_unique _ _ _ (x mod c + k))|apply (Z.mod_unique _ _ (x / c))]; try (left; lia); lia.
Qed.

Lemma l2_data_cases e :
  (tst e QCOW_OFLAG_ZERO = true /\ l2_data e = None) \/
  (tst e QCOW_OFLAG_ZERO = false /\ (e .& L2_OFFSET_MASK = 0 /\ l2_data e = None \/
                                     e .& L2_OFFSET_MASK <> 0 /\ l2_data e = Some (e .& L2_OFFSET_MASK))).
Proof.
  unfold l2_data. destruct (tst e QCOW_OFLAG_ZERO); [by left|right]. split; [done|].
  destruct (Z.eqb_spec (e .& L2_OFFSET_MASK) 0); auto.
Qed.

(** ** Reading *)

Section Read.
Context (q : qcow) (rho : Z -> role) (I : Image q rho) (Hsm : small q).
Let G : geometry (q_header q) := sh_geo q (proj1 I).

(** A round of the loop fetches the bytes the guest sees. *)
Lemma read_round fuel buf total rem cur :
  0 < rem -> 0 <= cur -> cur + rem <= h_size (q_header q) -> 0 <= total ->
  let chunk := Z.min rem (cs q - cur mod cs q) in
  exists dst, len dst = chunk /\ (forall k, 0 <= k < chunk -> getb dst k = content q (cur + k)) /\
    read_loop (S fuel) q (cs q) buf total rem cur =
      read_loop fuel q (cs q) (splice buf total dst) (total + chunk) (rem - chunk) (cur + chunk).
Proof.
  intros Hrem Hcur Hend Htot chunk. pose proof (cs_pos q rho I). pose proof (Z.mod_pos_bound cur (cs q) ltac:(lia)).
  pose proof (guest_cluster q rho I cur ltac:(lia)) as Hg. pose proof (geo_size _ G).
  assert (Hin : forall k, 0 <= k < chunk -> (cur + k) / cs q = cur / cs q /\ (cur + k) mod cs q = cur mod cs q + k)
    by (intros; apply in_cluster; lia).
  cbn [read_loop]. rewrite (proj2 (Z.ltb_lt 0 rem)) by lia. cbn [negb].
  rewrite (resolve_cluster_ok q rho I Hsm) by lia. unfold locate. cbn [snd]. fold chunk.
  destruct (l2_data_cases (l2_at q (cur / cs q))) as [[Ez _]|[Ez [[E0 _]|[E0 Ed]]]]; rewrite Ez.
  - exists (zeros chunk). split; [apply len_zeros; lia|]. split; [|done]. intros k Hk. rewrite getb_zeros.
    unfold content. rewrite (proj1 (Hin k Hk)). by rewrite Ez.
  - rewrite E0. change (0 =? 0) with true. cbn iota.
    assert (Hc : forall k, 0 <= k < chunk -> content q (cur + k) = backing_byte q (cur + k)).
    { intros k Hk. unfold content. rewrite (proj1 (Hin k Hk)), Ez, E0. done. }
    destruct (q_backing q) as [b|] eqn:Eb.
    + pose proof (sh_backing q (proj1 I)) as Hok. rewrite Eb in Hok.
      destruct (backing_read q b cur chunk Eb Hok ltac:(lia) ltac:(lia)) as (tmp & m & Er & Hl & Hk). rewrite Er.
      exists tmp. split; [done|]. split; [|done]. intros k Hk'. by rewrite Hc, Hk.
    + exists (zeros chunk). split; [apply len_zeros; lia|]. split; [|done]. intros k Hk. rewrite getb_zeros, Hc by done.
      unfold backing_byte. by rewrite Eb.
  - rewrite (proj2 (Z.eqb_neq _ _)) by done. set (o := l2_at q (cur / cs q) .& L2_OFFSET_MASK) in *.
    destruct (data_role q rho I _ _ Hg Ed) as (Eo & _ & [Hi1 Hi2] & _).
    rewrite (q_read_ok q rho I Hsm) by nia. cbn [snd]. exists (sub (q_file q) (o + cur mod cs q) chunk).
    split; [apply len_sub; nia|]. split; [|done]. intros k Hk. rewrite getb_sub by nia.
    unfold content. destruct (Hin k Hk) as [E1 E2]. rewrite E1, E2, Ez. fold o. rewrite (proj2 (Z.eqb_neq _ _)) by done. f_equal. lia.
Qed.

Lemma read_loop_ok fuel : forall buf total rem cur,
  (Z.to_nat rem <= fuel)%nat -> 0 <= rem -> 0 <= cur -> cur + rem <= h_size (q_header q) -> 0 <= total -> total + rem <= len buf ->
  exists buf', read_loop fuel q (cs q) buf total rem cur = (buf', Ok (total + rem)) /\ len buf' = len buf /\
    forall k, getb buf' k = if (total <=? k) && (k <? total + rem) then content q (cur + (k - total)) else getb buf k.
Proof.
  induction fuel as [|fuel IH]; intros buf total rem cur Hf Hrem Hcur Hend Htot Hbuf.
  - assert (rem = 0) as -> by lia. exists buf. rewrite Z.add_0_r. split_and!; [done|done|]. intros k. zcmp; (done || lia).
  - destruct (Z.eq_dec rem 0) as [->|Hne].
    { exists buf. rewrite Z.add_0_r. split_and!; [done|done|]. intros k. zcmp; (done || lia). }
    destruct (read_round fuel buf total rem cur ltac:(lia) Hcur Hend Htot) as (dst & Hl & Hk & E). rewrite E. clear E.
    pose proof (cs_pos q rho I). pose proof (Z.mod_pos_bound cur (cs q) ltac:(lia)).
    set (chunk := Z.min rem (cs q - cur mod cs q)) in *.
    destruct (IH (splice buf total dst) (total + chunk) (rem - chunk) (cur + chunk)) as (buf' & E' & Hl' & Hk'); try lia.
    { rewrite len_splice. lia. }
    exists buf'. rewrite E'. split; [do 2 f_equal; lia|]. split; [by rewrite Hl', len_splice|]. intros k. rewrite Hk'.
    rewrite getb_splice by lia. rewrite Hl. zcmp; try lia; try done; try (f_equal; lia). by rewrite Hk by lia.
Qed.

Lemma read_spec off buf :
  0 <= off ->
  exists buf', qcow_read_at q off buf = (buf', Ok (clip (h_size (q_header q)) off (len buf))) /\ len buf' = len buf /\
    forall k, getb buf' k = if (0 <=? k) && (k <? clip (h_size (q_header q)) off (len buf)) then content q (off + k) else getb buf k.
Proof.
  intros Ho. pose proof (len_nonneg buf). unfold qcow_read_at, clip. destruct (Z.leb_spec (h_size (q_header q)) off).
  { exists buf. rewrite Z.max_l by lia. split_and!; [done|done|]. intros k. zcmp; (done || lia). }
  rewrite cluster_size_ok by done. rewrite Z.max_r by lia. set (n := Z.min _ _).
  destruct (read_loop_ok (Z.to_nat n) buf 0 n off) as (buf' & E & Hl & Hk); try lia.
  exists buf'. split; [done|]. split; [done|]. intros k. rewrite Hk. zcmp; try done; try lia; f_equal; lia.
Qed.
End Read.

(** ** Writing *)

(** The entry of a plan: [n] bytes from [start] of the buffer go to [host], where the guest sees them. *)
Definition plan_entry (q : qcow) (off : Z) (e : Z * Z * Z) : Prop :=
  let '(host, start, n) := e in
  let p := off + start in
  0 <= start /\ 0 < n /\ p mod cs q + n <= cs q /\ 0 <= p /\ p + n <= h_size (q_header q) /\
  exists o, l2_data (l2_at q (p / cs q)) = Some o /\ host = o + p mod cs q.

(** The entries cover [a..b] of the buffer in order. *)
Inductive tiles : Z -> list (Z * Z * Z) -> Z -> Prop :=
  | tiles_nil a : tiles a [] a
  | tiles_cons a host n plan b : tiles (a + n) plan b -> tiles a ((host, a, n) :: plan) b.

Lemma tiles_snoc a plan b host n : tiles a plan b -> tiles a (plan ++ [(host, b, n)]) (b + n).
Proof. induction 1; repeat constructor. done. Qed.

Lemma plan_entry_evolves (q q' : qcow) off e :
  (exists rho, Image q rho) -> evolves q q' -> plan_entry q off e -> plan_entry q' off e.
Proof.
  destruct e as [[host start] n]. intros [rho I] Ev (? & ? & ? & ? & ? & o & Ho & Eh). unfold plan_entry.
  rewrite (ev_header _ _ Ev). split_and!; try done. exists o. split; [|done].
  rewrite (ev_mapped _ _ Ev _ o); [done| |done]. apply (guest_cluster q rho I). lia.
Qed.

Definition plan_post (q q' : qcow) (off wlen : Z) (r : res serr (list (Z * Z * Z))) : Prop :=
  Consistent q' /\ evolves q q' /\
  (r = Err TableTooSmall \/ (exists plan, r = Ok plan /\ tiles 0 plan wlen /\ Forall (plan_entry q' off) plan)).

Lemma evolves_refl (q : qcow) : evolves q q.
Proof. by apply keeps_evolves, qkeeps_refl. Qed.

(** One round finds or allocates the host cluster of the current offset. *)
Lemma plan_host (q : qcow) cur :
  Consistent q -> 0 <= cur < h_size (q_header q) ->
  wps (loc ← resolve_cluster cur;
       match loc with
       | Mapped host_offset => mret host_offset
       | _ => data_off ← allocate_data_cluster cur; mret (data_off + cur .& (cs q - 1))
       end) (fun q' r => Consistent q' /\ evolves q q' /\
    (r = Err TableTooSmall \/ exists o, l2_data (l2_at q' (cur / cs q)) = Some o /\ r = Ok (o + cur mod cs q))) q.
Proof.
  intros C Hcur. pose proof C as (rho & I & Hm). pose proof (sh_geo q (proj1 I)) as G.
  apply wps_small_grows; [done|growing|]. intros Hsm. step (by apply (resolve_cluster_ok q rho I Hsm)).
  assert (Halloc : l2_data (l2_at q (cur / cs q)) = None ->
    wps (data_off ← allocate_data_cluster cur; mret (data_off + cur .& (cs q - 1))) (fun q' r => Consistent q' /\ evolves q q' /\
    (r = Err TableTooSmall \/ exists o, l2_data (l2_at q' (cur / cs q)) = Some o /\ r = Ok (o + cur mod cs q))) q).
  { intros Hd. apply wps_bind_grows; [done|growing|intros; growing|]. eapply wps_mono; [by apply alloc_data_spec|].
    intros q1 r (C1 & Ev & [->|(o & -> & Ho)]); [by split_and!; [..|left]|].
    eapply wps_run; [reflexivity|]. intros _. split_and!; [done..|]. right. exists o. by rewrite (land_cs q rho I). }
  unfold locate. destruct (l2_data_cases (l2_at q (cur / cs q))) as [[Ez Ed]|[Ez [[E0 Ed]|[E0 Ed]]]]; rewrite Ez.
  - by apply Halloc.
  - rewrite E0. by apply Halloc.
  - rewrite (proj2 (Z.eqb_neq _ _)) by done. eapply wps_run; [reflexivity|]. intros _.
    split_and!; [done|apply evolves_refl|]. right. by eexists.
Qed.

Lemma plan_loop_spec off wlen fuel : forall (q : qcow) d plan,
  Consistent q -> (Z.to_nat (wlen - d) <= fuel)%nat -> 0 <= off -> 0 <= d <= wlen -> off + wlen <= h_size (q_header q) ->
  tiles 0 plan d -> Forall (plan_entry q off) plan ->
  wps (plan_loop fuel (cs q) wlen d (off + d) plan) (fun q' r => plan_post q q' off wlen r) q.
Proof.
  induction fuel as [|fuel IH]; intros q d plan C Hf Ho Hd Hend Ht Hp; cbn [plan_loop].
  all: destruct (Z.ltb_spec d wlen); cbn [negb]; try lia.
  all: try (eapply wps_run; [reflexivity|]; intros _; assert (d = wlen) as -> by lia;
            split; [done|]; split; [apply evolves_refl|]; right; by eexists).
  pose proof C as (rho & I & _). pose proof (sh_geo q (proj1 I)) as G. pose proof (cs_pos q rho I).
  pose proof (Z.mod_pos_bound (off + d) (cs q) ltac:(lia)). set (chunk := Z.min (wlen - d) (cs q - (off + d) mod cs q)).
  assert (Hch : 0 < chunk <= wlen - d /\ (off + d) mod cs q + chunk <= cs q) by lia. clearbody chunk.
  unfold wps, wp. rewrite <- bind_assoc. change (wps ((resolve_cluster (off + d) ≫= (fun loc => match loc with
    | Mapped host_offset => mret host_offset
    | _ => data_off ← allocate_data_cluster (off + d); mret (data_off + (off + d) .& (cs q - 1)) end)) ≫=
    (fun host => plan_loop fuel (cs q) wlen (d + chunk) (off + d + chunk) (plan ++ [(host, d, chunk)])))
    (fun q' r => plan_post q q' off wlen r) q).
  apply wps_bind_grows; [done|growing|intros; growing|]. eapply wps_mono; [apply plan_host; [done|lia]|].
  intros q1 r (C1 & Ev & [->|(o & Hd1 & ->)]); [by split_and!; [..|left]|]. pose proof (ev_header _ _ Ev) as Eh. rewrite <- Eh in *.
  rewrite <- (Z.add_assoc off d chunk). eapply wps_mono; [apply IH; try done; try lia|].
  - by apply tiles_snoc.
  - apply Forall_app. split.
    + eapply Forall_impl; [exact Hp|]. intros e. apply plan_entry_evolves; [by exists rho|done].
    + constructor; [|constructor]. unfold plan_entry. split_and!; try lia. by exists o.
  - intros q2 r (C2 & Ev2 & Hr). split; [done|]. split; [by eapply evolves_trans|done].
Qed.

(** Pass 2: one write into a data cluster. *)
Lemma data_write (q : qcow) rho p o data :
  Image q rho -> 0 <= p < h_size (q_header q) -> l2_data (l2_at q (p / cs q)) = Some o -> p mod cs q + len data <= cs q ->
  let q' := with_file q (file_write (q_file q) (o + p mod cs q) data) in
  Image q' rho /\ (forall m, Counts q m -> Counts q' m) /\ (forall g, guest q g -> l2_at q' g = l2_at q g) /\
  (forall x, 0 <= x < h_size (q_header q) -> content q' x = over (content q) p data x) /\
  (forall k, 0 <= k < cs q -> getb (q_file q') k = getb (q_file q) k).
Proof.
  intros I Hp Ho Hl q'. pose proof (cs_pos q rho I). pose proof (guest_cluster q rho I p Hp) as Hg.
  pose proof (Z.mod_pos_bound p (cs q) ltac:(lia)). pose proof (len_nonneg data).
  destruct (data_role q rho I _ _ Hg Ho) as (Eo & Hr & Hin & Hpos). set (c := o / cs q) in *.
  destruct (cell_step q rho I c (o + p mod cs q) data) as (I' & Hm' & Hl' & Ha); try (rewrite Hr; cbn; tauto); try done; try lia.
  fold q' in I', Hm', Hl', Ha.
  assert (H2 : forall g, guest q g -> l2_at q' g = l2_at q g).
  { intros g Hg'. apply (l2_at_frame q rho I); [|done]. intros c' Hc'. apply Ha. intros ->. by rewrite Hr in Hc'. }
  split_and!; try done.
  - intros x Hx. pose proof (guest_cluster q rho I x Hx) as Hgx. destruct (Z.eq_dec (x / cs q) (p / cs q)) as [Ex|Hne].
    + unfold content, over. change (q_header q') with (q_header q). rewrite H2, Ex by done.
      destruct (l2_data_cases (l2_at q (p / cs q))) as [[_ Ed]|[Ez [[_ Ed]|[E0 Ed]]]]; try congruence.
      rewrite Ez, (proj2 (Z.eqb_neq _ _)) by done. assert (Em : l2_at q (p / cs q) .& L2_OFFSET_MASK = o) by congruence. rewrite Em.
      cbn [q' q_file with_file]. rewrite getb_file_write by nia.
      pose proof (Z.div_mod x (cs q) ltac:(lia)). pose proof (Z.div_mod p (cs q) ltac:(lia)). rewrite Ex in *.
      zcmp; try lia; f_equal; lia.
    + transitivity (content q x).
      * apply (content_ext q q' rho); try done; [by apply H2|]. intros c' Hc'. apply Ha. intros ->. rewrite Hr in Hc'. congruence.
      * unfold over. pose proof (Z.div_mod x (cs q) ltac:(lia)). pose proof (Z.div_mod p (cs q) ltac:(lia)).
        pose proof (Z.mod_pos_bound x (cs q) ltac:(lia)). zcmp; try done. exfalso. apply Hne. clear Ho Hr Hne Hg Hgx.
        assert (x / cs q < p / cs q \/ x / cs q = p / cs q \/ p / cs q < x / cs q) as [?|[?|?]] by lia; nia.
  - intros k Hk. apply (Ha 0); [lia|done].
Qed.

(** What every operation keeps besides the guest's bytes. *)
Record same_frame (q q' : qcow) : Prop := {
  sf_header : q_header q' = q_header q;
  sf_backing : q_backing q' = q_backing q;
  sf_writable : q_writable q' = q_writable q;
  sf_head : forall k, 0 <= k < cs q -> ~ (48 <= k < 60) -> getb (q_file q') k = getb (q_file q) k;
}.

Lemma evolves_frame q q' : evolves q q' -> same_frame q q'.
Proof. by intros []. Qed.

Lemma same_frame_trans q1 q2 q3 : same_frame q1 q2 -> same_frame q2 q3 -> same_frame q1 q3.
Proof.
  intros [] []. split; try congruence. intros k Hk Hn. rewrite sf_head1, sf_head0; [done..|congruence|done].
Qed.

Lemma same_frame_refl (q : qcow) : same_frame q q.
Proof. by split. Qed.

Lemma write_plan off buf plan : forall (q : qcow) a b,
  Consistent q -> tiles a plan b -> 0 <= a -> b <= len buf -> Forall (plan_entry q off) plan ->
  exists q', mfor plan (fun '(host_offset, buf_start, n) => q_write host_offset (sub buf buf_start n)) q = (q', Ok tt) /\
    Consistent q' /\ same_frame q q' /\
    (forall x, 0 <= x < h_size (q_header q) ->
      content q' x = if (off + a <=? x) && (x <? off + b) then getb buf (x - off) else content q x).
Proof.
  induction plan as [|[[host st] n] plan IH]; intros q a b C Htl Ha Hb Hp; inversion Htl as [|? ? ? ? ? Ht]; subst; clear Htl.
  { exists q. split_and!; [done|done|apply same_frame_refl|]. intros x Hx. zcmp; (done || lia). }
  apply Forall_cons in Hp as [(_ & Hn & Hfit & Hp0 & Hend & o & Ho & ->) Hp]. pose proof C as (rho & I & Hm).
  assert (Hbt : forall a b (pl : list (Z * Z * Z)), tiles a pl b -> Forall (plan_entry q off) pl -> a <= b).
  { clear. induction 1 as [|a host n pl b _ IH]; intros Hf; [lia|]. apply Forall_cons in Hf as [(_ & ? & _) Hf]. specialize (IH Hf). lia. }
  pose proof (Hbt _ _ _ Ht Hp). clear Hbt. assert (Hl : len (sub buf st n) = n) by (apply len_sub; lia).
  destruct (data_write q rho (off + st) o (sub buf st n) I ltac:(lia) Ho ltac:(lia)) as (I1 & Hm1 & H2 & Hc & Hh).
  set (q1 := with_file q _) in *. cbn [mfor].
  assert (Ev : Forall (plan_entry q1 off) plan).
  { eapply Forall_impl; [exact Hp|]. intros [[h1 s1] n1] (? & ? & ? & ? & ? & o1 & Ho1 & Eh1). unfold plan_entry.
    change (q_header q1) with (q_header q). split_and!; try done. exists o1. split; [|done]. rewrite H2; [done|].
    apply (guest_cluster q rho I). lia. }
  destruct (IH q1 (st + n) b) as (q' & E & C' & Sf & Hc'); try done; [exists rho; split; [done|by apply Hm1]|lia|].
  exists q'. split.
  { etransitivity; [eapply bind_run, q_write_ok|exact E]. assert (Hf : fits 56 o).
    { destruct (l2_data_cases (l2_at q ((off + st) / cs q))) as [[_ Ed]|[_ [[_ Ed]|[_ Ed]]]]; try congruence.
      rewrite Ho in Ed. injection Ed as ->. by apply fits_land_r. }
    unfold fits in Hf. unfold OFF_MAX. pose proof (cs_pos q rho I). lia. }
  split; [done|]. split; [eapply same_frame_trans; [|exact Sf]; split; try done; auto|].
  intros x Hx. rewrite Hc' by done. rewrite Hc by done. unfold over. rewrite Hl. zcmp; try lia; try done.
  rewrite getb_sub by lia. f_equal. lia.
Qed.

(** ** The write, as the guest and the image see it *)

Definition write_post (q q' : qcow) (off : Z) (buf : list Z) (r : res serr Z) : Prop :=
  Consistent q' /\ same_frame q q' /\
  ((q_writable q = true /\ r = Ok (clip (h_size (q_header q)) off (len buf)) /\
    forall x, 0 <= x < h_size (q_header q) -> content q' x = over (content q) off buf x) \/
   ((q_writable q = false /\ r = Err ReadOnly \/ r = Err TableTooSmall) /\ same_content q q')).

Lemma write_spec (q : qcow) off buf :
  Consistent q -> 0 <= off -> wps (qcow_write_at off buf) (fun q' r => write_post q q' off buf r) q.
Proof.
  intros C Ho. pose proof C as (rho & I & Hm). pose proof (sh_geo q (proj1 I)) as G. pose proof (len_nonneg buf).
  unfold qcow_write_at. step reflexivity. destruct (q_writable q) eqn:Hw; cbn [negb].
  2: { eapply wps_run; [reflexivity|]. intros _. split; [done|]. split; [apply same_frame_refl|]. right. by split; [left|]. }
  destruct (Z.leb_spec (h_size (q_header q)) off) as [Hge|Hlt].
  { eapply wps_run; [reflexivity|]. intros _. split; [done|]. split; [apply same_frame_refl|]. left.
    split; [done|]. split; [unfold clip; f_equal; lia|]. intros x Hx. unfold over. zcmp; (done || lia). }
  step_lift (by apply cluster_size_ok). set (n := Z.min (len buf) (h_size (q_header q) - off)).
  apply wps_bind_grows; [done|growing|intros; growing|].
  pose proof (plan_loop_spec off n (Z.to_nat n) q 0 [] C) as Hpl. rewrite Z.add_0_r in Hpl.
  eapply wps_mono; [apply Hpl; try lia; constructor|]. clear Hpl.
  intros q1 r (C1 & Ev & [->|(plan & -> & Ht & Hp)]).
  { split; [done|]. split; [by apply evolves_frame|]. right. split; [by right|]. apply (ev_content _ _ Ev). }
  destruct (write_plan off buf plan q1 0 n C1 Ht ltac:(lia) ltac:(lia) Hp) as (q2 & E2 & C2 & Sf & Hc).
  step (exact E2). eapply wps_run; [reflexivity|]. intros _. split; [done|].
  split; [eapply same_frame_trans; [by apply evolves_frame|done]|]. left. split; [done|]. split; [unfold clip; f_equal; lia|].
  intros x Hx. rewrite Hc by (by rewrite (ev_header _ _ Ev)). rewrite (ev_content _ _ Ev) by done. unfold over.
  zcmp; try done; lia.
Qed.

(** ** Trimming *)

Definition mapped (q : qcow) (g : Z) : bool := match l2_data (l2_at q g) with Some _ => true | None => false end.

(** Freeing the data cluster [c] of guest cluster [g]. *)
Lemma discard_mapped (q : qcow) rho g c :
  Image q rho -> small q -> Counts q (ones rho) -> guest q g -> l1_off q (g / l2n (q_header q)) <> 0 ->
  l2_data (l2_at q g) = Some (c * cs q) -> 0 <= c ->
  let q1 := with_file q (rc_file q c 0) in
  let q' := with_file q1 (set_l2_file q1 g QCOW_OFLAG_ZERO) in
  block_of q c <> 0 /\ refcount q c = 1 /\ l2_pos q1 g = l2_pos q g /\
  Consistent q' /\ same_frame q q' /\ len (q_file q') = len (q_file q) /\
  (forall g', guest q g' -> g' <> g -> l2_at q' g' = l2_at q g') /\ mapped q' g = false /\
  (forall x, 0 <= x < h_size (q_header q) -> content q' x = if x / cs q =? g then 0 else content q x).
Proof.
  intros I Hsm Hm Hg Ht Hd Hc q1 q'. pose proof (cs_pos q rho I).
  destruct (data_role q rho I g _ Hg Hd) as (_ & Hr & _). rewrite Z.div_mul in Hr by lia.
  assert (Hrc : refcount q c = 1) by (rewrite Hm by done; unfold ones; rewrite Hr; by rewrite decide_False).
  assert (Hb : block_of q c <> 0) by (intros E; unfold refcount in Hrc; by rewrite E in Hrc).
  destruct (rc_step q rho I c 0 _ Hc Hb ltac:(lia) Hm) as (I1 & Hm1 & _ & Hl1).
  pose proof (rc_keeps q rho c 0 _ I Hc Hb ltac:(lia) Hm) as K1. fold q1 in I1, Hm1, K1.
  assert (Hd1 : l2_data (l2_at q1 g) = Some (c * cs q1)) by (by rewrite (k_l2 _ _ K1)).
  destruct (unlink_step q1 rho I1 g c Hg Ht Hd1) as (I2 & Hm2 & Hc2). fold q' in I2, Hm2, Hc2.
  split_and!; try done.
  - eexists. split; [exact I2|]. eapply Counts_ext; [exact (Hm2 _ Hm1)|]. intros c' _. unfold upd, ones. by destruct (c' =? c).
  - split; try done. intros k Hk Hn. transitivity (getb (q_file q1) k); [|by apply (k_head _ _ K1)].
    apply (set_l2_agree q1 rho I1 g _ Hg Ht 0); [|done]. rewrite (proj1 (header_role q1 rho I1)). cbn. tauto.
  - cbn [q' q_file with_file]. rewrite (set_l2_len q1 rho I1 g _ Hg Ht). exact Hl1.
  - intros g' Hg' Hne. unfold q'. rewrite (set_l2_at q1 rho I1 g _ Hg Ht) by done.
    rewrite (proj2 (Z.eqb_neq _ _)) by done. by apply (k_l2 _ _ K1).
  - unfold mapped, q'. rewrite (set_l2_at q1 rho I1 g _ Hg Ht) by done. by rewrite Z.eqb_refl.
  - intros x Hx. rewrite Hc2 by done. change (q_header q1) with (q_header q). case_match; [done|]. by apply (k_content _ _ K1).
Qed.

(** What a discard leaves: the guest cluster [g] reads zero if it was mapped. *)
Definition discarded (q q' : qcow) (g : Z) : Prop :=
  Consistent q' /\ same_frame q q' /\ len (q_file q') = len (q_file q) /\
  (forall g', guest q g' -> g' <> g -> l2_at q' g' = l2_at q g') /\
  (forall x, 0 <= x < h_size (q_header q) ->
    content q' x = if (x / cs q =? g) && mapped q g then 0 else content q x).

Lemma discard_spec (q : qcow) x :
  Consistent q -> small q -> 0 <= x < h_size (q_header q) ->
  wp (discard_cluster x) (fun q' r => r = Ok tt /\ discarded q q' (x / cs q)) q.
Proof.
  intros C Hsm Hx. pose proof C as (rho & I & Hm). pose proof (sh_geo q (proj1 I)) as G.
  pose proof (guest_cluster q rho I x Hx) as Hg. destruct (guest_index q rho I _ Hg) as [Hi _].
  assert (Hid : mapped q (x / cs q) = false -> discarded q q (x / cs q)).
  { intros E. split; [done|]. split; [apply same_frame_refl|]. split_and!; try done. intros y _. rewrite E, andb_false_r. done. }
  pose proof (l1_off_range q (x / cs q / l2n (q_header q))) as Hr. pose proof (cs_pos q rho I). pose proof (small_len q rho I Hsm).
  unfold discard_cluster. wstep reflexivity. wstep_lift (by apply cluster_size_ok). wstep_lift (by apply l1_index_of_ok).
  rewrite (sh_l1_len q (proj1 I)), (proj2 (Z.leb_gt _ _)) by lia. fold (l1_off q (x / cs q / l2n (q_header q))).
  destruct (Z.eqb_spec (l1_off q (x / cs q / l2n (q_header q))) 0) as [E0|Hn].
  { apply wp_ret. split; [done|]. apply Hid. unfold mapped, l2_at. by rewrite E0. }
  wstep_lift (apply l2_entry_off_ok; [done|lia|lia]). fold (l2_pos q (x / cs q)).
  wstep (by apply (l2_read_ok q rho I Hsm)).
  destruct (l2_data_cases (l2_at q (x / cs q))) as [[Ez Ed]|[Ez [[E0 Ed]|[E0 Ed]]]]; rewrite Ez.
  { cbn [orb]. apply wp_ret. split; [done|]. apply Hid. unfold mapped. by rewrite Ed. }
  { rewrite E0. cbn [orb Z.eqb]. apply wp_ret. split; [done|]. apply Hid. unfold mapped. by rewrite Ed. }
  rewrite (proj2 (Z.eqb_neq _ _)) by done. cbn [orb].
  destruct (data_role q rho I _ _ Hg Ed) as (Eo & _ & _ & Hpos). set (o := l2_at q (x / cs q) .& L2_OFFSET_MASK) in *.
  set (c := o / cs q) in *. assert (Edc : l2_data (l2_at q (x / cs q)) = Some (c * cs q)) by (by rewrite <- Eo).
  destruct (discard_mapped q rho _ c I Hsm Hm Hg Hn Edc ltac:(lia)) as (Hb & Hrc & Ep & C' & Sf & Hl & H2 & _ & Hc).
  wstep (apply (read_refcount_ok q rho I Hsm); lia). rewrite Hrc.
  wstep (apply (write_refcount_ok q rho I Hsm); [lia|done]). change (Z.max 0 (1 - 1)) with 0.
  destruct (l2_pos_place q rho I _ Hg Hn) as (Epos & _ & [Hi1 Hi2] & Hj). pose proof (l2n_cs q rho I) as [? _].
  eapply wp_eq; [apply q_write_ok; unfold OFF_MAX; lia|]. rewrite <- Ep. split; [done|]. split; [done|]. split_and!; try done.
  intros y Hy. unfold mapped. rewrite Ed, andb_true_r. by apply Hc.
Qed.

(** The loop discards every cluster from [g] on that ends by [end_]. *)
Definition in_trim (q : qcow) (g end_ x : Z) : bool := (g <=? x / cs q * cs q) && (x / cs q * cs q + cs q <=? end_).

Definition trim_loop_post (q q' : qcow) (g end_ : Z) : Prop :=
  Consistent q' /\ same_frame q q' /\ len (q_file q') = len (q_file q) /\
  (forall g', guest q g' -> g' * cs q < g -> l2_at q' g' = l2_at q g') /\
  (forall x, 0 <= x < h_size (q_header q) ->
    content q' x = if in_trim q g end_ x && mapped q (x / cs q) then 0 else content q x).

Lemma trim_loop_stop (q : qcow) c end_ : Consistent q -> end_ < c * cs q + cs q -> trim_loop_post q q (c * cs q) end_.
Proof.
  intros C Hgt. split; [done|]. split; [apply same_frame_refl|]. split_and!; try done. intros x Hx. unfold in_trim.
  zcmp; try done. lia.
Qed.

Lemma trim_loop_next (q q1 q2 : qcow) c end_ :
  0 < cs q -> (forall x, 0 <= x < h_size (q_header q) -> guest q (x / cs q)) -> c * cs q + cs q <= end_ ->
  discarded q q1 c -> trim_loop_post q1 q2 ((c + 1) * cs q) end_ -> trim_loop_post q q2 (c * cs q) end_.
Proof.
  intros Hcs Hgst Hle (C1 & Sf1 & Hl1 & H21 & Hc1) (C2 & Sf2 & Hl2 & H22 & Hc2).
  pose proof (sf_header _ _ Sf1) as Eh. unfold guest, in_trim in *. rewrite Eh in *. split; [done|].
  split; [by eapply same_frame_trans|]. split; [lia|]. split.
  - intros g' Hg' Hlt. rewrite H22, H21; [done|done|nia|done|nia].
  - intros x Hx. rewrite Hc2, Hc1 by done. specialize (Hgst x Hx). unfold in_trim. destruct (Z.eqb_spec (x / cs q) c) as [->|Hne].
    + cbn [andb]. rewrite (proj2 (Z.leb_le (c * cs q) _)), (proj2 (Z.leb_le (c * cs q + cs q) _)) by lia.
      rewrite (proj2 (Z.leb_gt ((c + 1) * cs q) _)) by lia. done.
    + cbn [andb]. assert (Em : mapped q1 (x / cs q) = mapped q (x / cs q)) by (unfold mapped; by rewrite H21). rewrite Em.
      destruct (Z.leb_spec ((c + 1) * cs q) (x / cs q * cs q)), (Z.leb_spec (c * cs q) (x / cs q * cs q)); try done; nia.
Qed.

Lemma discard_loop_spec fuel end_ : forall (q : qcow) c,
  Consistent q -> small q -> 0 <= c -> c * cs q < 2 ^ 63 -> end_ <= h_size (q_header q) ->
  (end_ - c * cs q < (Z.of_nat fuel + 1) * cs q) ->
  wp (discard_loop fuel (cs q) (c * cs q) end_) (fun q' r => r = Ok tt /\ trim_loop_post q q' (c * cs q) end_) q.
Proof.
  induction fuel as [|fuel IH]; intros q c C Hsm Hc Hlt Hend Hf; pose proof C as (rho & I & _); pose proof (cs_pos q rho I) as Hcs;
    cbn [discard_loop]; wstep_lift (apply radd_ok; lia).
  all: destruct (Z.leb_spec (c * cs q + cs q) end_) as [Hle|Hgt]; cbn [negb]; try lia.
  1,3: apply wp_ret; split; [done|by apply trim_loop_stop].
  pose proof (geo_size _ (sh_geo q (proj1 I))).
  apply wp_bind. eapply wp_mono; [by apply discard_spec; [..|nia]|]. intros q1 r [-> Hd]. rewrite Z.div_mul in Hd by lia.
  pose proof Hd as (C1 & Sf1 & Hl1 & _). pose proof (sf_header _ _ Sf1) as Eh.
  replace (c * cs q + cs q) with ((c + 1) * cs q1) by (rewrite Eh; lia). rewrite <- Eh.
  eapply wp_mono; [apply IH|].
  - done.
  - unfold small in *. by rewrite Eh, Hl1.
  - lia.
  - rewrite Eh. lia.
  - by rewrite Eh.
  - rewrite Eh. lia.
  - intros q2 r [-> Hp]. split; [done|]. rewrite Eh in *. eapply trim_loop_next; [lia| |done|done|done].
    intros x Hx. exact (guest_cluster q rho I x Hx).
Qed.

(** The first cluster boundary at or after [off]; clusters wholly inside the range are trimmed. *)
Definition trimmed (q : qcow) (off n x : Z) : bool :=
  (off <=? x / cs q * cs q) && (x / cs q * cs q + cs q <=? Z.min (saturating_add off n) (h_size (q_header q))).

Lemma trim_spec (q : qcow) off n :
  Consistent q -> small q -> 0 <= off -> 0 <= n ->
  wp (qcow_trim off n) (fun q' r => r = Ok tt /\ Consistent q' /\ same_frame q q' /\ len (q_file q') = len (q_file q) /\
    forall x, 0 <= x < h_size (q_header q) ->
      content q' x = if q_writable q && trimmed q off n x && mapped q (x / cs q) then 0 else content q x) q.
Proof.
  intros C Hsm Ho Hn. pose proof C as (rho & I & _). pose proof (sh_geo q (proj1 I)) as G. pose proof (cs_pos q rho I) as Hcs.
  pose proof (geo_size _ G). unfold qcow_trim. wstep reflexivity.
  destruct (negb (q_writable q) || (n =? 0) || (h_size (q_header q) <=? off)) eqn:Eg.
  - apply wp_ret. split; [done|]. split; [done|]. split; [apply same_frame_refl|]. split; [done|]. intros x Hx.
    destruct (q_writable q && trimmed q off n x) eqn:Et; [|done]. exfalso. unfold trimmed, saturating_add in Et.
    apply andb_true_iff in Et as [Ew Et]. rewrite Ew in Eg. cbn [negb orb] in Eg. breflect. lia.
  - breflect. wstep_lift (by apply cluster_size_ok).
    assert (Hdc : off <= div_ceil off (cs q) * cs q < off + cs q).
    { unfold div_ceil. pose proof (Z.div_mod (off + cs q - 1) (cs q) ltac:(lia)).
      pose proof (Z.mod_pos_bound (off + cs q - 1) (cs q) ltac:(lia)). lia. }
    wstep_lift (apply rmul_ok; lia). eapply wp_mono; [apply discard_loop_spec|]; try done; try lia.
    + unfold saturating_add. pose proof (Z.div_mod n (cs q) ltac:(lia)). pose proof (Z.mod_pos_bound n (cs q) ltac:(lia)).
      rewrite Z2Nat.id by (apply Z.div_pos; lia). lia.
    + intros q' r (-> & C' & Sf & Hl & _ & Hc). split_and!; try done. intros x Hx. rewrite Hc by done. rewrite H0. cbn [andb].
      assert (E : in_trim q (div_ceil off (cs q) * cs q) (Z.min (saturating_add off n) (h_size (q_header q))) x = trimmed q off n x).
      { unfold in_trim, trimmed. f_equal. apply Bool.eq_iff_eq_true. rewrite !Z.leb_le.
        split; [lia|]. intros Hx0. assert (div_ceil off (cs q) < x / cs q + 1) by nia. apply Z.mul_le_mono_nonneg_r; lia. }
      by rewrite E.
Qed.

(** ** A qcow2 image is a disk *)

#[local] Obligation Tactic := idtac.
#[export] Program Instance Qcow_disk : Disk qcow := {
  disk_ok q := Consistent q /\ small q;
  in_limits := small;
  disk_shape q := geometry (q_header q);
  byte_at := content;
}.
Next Obligation.
  intros q [(rho & I & _) _]. pose proof (geo_size _ (sh_geo q (proj1 I))). unfold OFF_MAX. cbn. lia.
Qed.
Next Obligation.
  intros q off buf buf' r [(rho & I & _) Hsm] Ho Hl E. cbn in *. pose proof (len_nonneg buf).
  destruct (read_spec q rho I Hsm off buf ltac:(lia)) as (b & E' & Hlb & Hk). rewrite E in E'. simplify_eq.
  split; [done|]. split; [eexists; split; [done|unfold clip; lia]|]. intros k Hk'. rewrite Hk.
  rewrite (proj2 (Z.leb_le 0 k)) by lia. cbn [andb]. case_match; [done|by left].
Qed.
Next Obligation.
  intros q off data q' r [C Hsm] Ho Hl E Hlim. cbn in *.
  destruct (wps_elim _ _ _ _ _ (write_spec q off data C Ho) E Hlim) as (C' & Sf & Hr). pose proof (sf_header _ _ Sf) as Eh.
  split; [done|]. split; [by rewrite Eh|]. split; [by rewrite (sf_writable _ _ Sf)|]. destruct Hr as [(Ew & -> & Hc)|(Hr & Hc)].
  - left. by rewrite Ew.
  - right. split; [destruct Hr as [[_ ->]| ->]; eauto|done].
Qed.
Next Obligation. intros q [(rho & I & _) _]. exact (sh_geo q (proj1 I)). Qed.
Next Obligation. intros q off data G. cbn in *. by rewrite (proj2 (grows_write off data q G)). Qed.
Next Obligation. intros q off data G Hs. cbn in *. eapply grows_small; [|exact Hs]. by apply grows_write. Qed.
Next Obligation.
  intros q off n q' r [C Hsm] Ho Hn Hcap E Hlim. cbn in *. pose proof (trim_spec q off n C Hsm Ho Hn) as Ht.
  apply (wp_elim _ _ _ _ _ Ht) in E. destruct E as (-> & C' & Sf & Hl & Hc). pose proof (sf_header _ _ Sf) as Eh.
  assert (Hs' : small q') by (unfold small in *; by rewrite Eh, Hl).
  split_and!; try done; [by rewrite Eh|by rewrite (sf_writable _ _ Sf)|]. intros x Hx. rewrite Hc by done.
  destruct (q_writable q && trimmed q off n x && mapped q (x / cs q)) eqn:Et; [right|by left]. split; [done|].
  destruct C as (rho & I & _). pose proof (cs_pos q rho I). unfold trimmed, saturating_add in Et. breflect.
  pose proof (Z.div_mod x (cs q) ltac:(lia)). pose proof (Z.mod_pos_bound x (cs q) ltac:(lia)). lia.
Qed.
Next Obligation. done. Qed.

(** ** What the backend promises *)

(** C2: A write to a consistent image leaves a consistent image in which the
    guest's disk is the old one overwritten at the offset (clipped to the
    virtual size, and the count says so), whatever mixture of allocated,
    zero and unallocated clusters it crosses; or, on a read-only image or when
    the refcount table cannot grow, an error and every guest byte as it was.
    It never panics. *)
Theorem qcow_write_refines (q q' : qcow) off buf r :
  Consistent q -> 0 <= off -> qcow_write_at off buf q = (q', r) -> small q' ->
  Consistent q' /\ q_header q' = q_header q /\ q_backing q' = q_backing q /\
  ((q_writable q = true /\ r = Ok (clip (h_size (q_header q)) off (len buf)) /\
    forall x, 0 <= x < h_size (q_header q) -> content q' x = over (content q) off buf x) \/
   ((q_writable q = false /\ r = Err ReadOnly \/ r = Err TableTooSmall) /\
    forall x, 0 <= x < h_size (q_header q) -> content q' x = content q x)).
Proof.
  intros C Ho E Hs. destruct (wps_elim _ _ _ _ _ (write_spec q off buf C Ho) E Hs) as (C' & Sf & Hr).
  split; [done|]. by rewrite (sf_header _ _ Sf), (sf_backing _ _ Sf).
Qed.

(** A read of a consistent image fills the buffer with the guest's bytes,
    up to the virtual size, leaves the rest of the buffer alone, and returns
    the count. *)
Theorem qcow_read_content (q : qcow) off buf :
  Consistent q -> small q -> 0 <= off ->
  exists buf', qcow_read_at q off buf = (buf', Ok (clip (h_size (q_header q)) off (len buf))) /\ len buf' = len buf /\
    forall k, getb buf' k =
      if (0 <=? k) && (k <? clip (h_size (q_header q)) off (len buf)) then content q (off + k) else getb buf k.
Proof. intros (rho & I & _) Hsm Ho. by apply (read_spec q rho I Hsm). Qed.

(** A trim always succeeds.  On a writable image the whole clusters inside
    the range that have data of their own read as zeros afterwards; every other
    guest byte is unchanged, as are the file's length and the consistency of
    the refcounts. *)
Theorem qcow_trim_zeroes (q q' : qcow) off n r :
  Consistent q -> small q -> 0 <= off -> 0 <= n -> qcow_trim off n q = (q', r) ->
  r = Ok tt /\ Consistent q' /\ len (q_file q') = len (q_file q) /\
  forall x, 0 <= x < h_size (q_header q) ->
    content q' x = if q_writable q && trimmed q off n x && mapped q (x / cs q) then 0 else content q x.
Proof.
  intros C Hsm Ho Hn E. destruct (wp_elim _ _ _ _ _ (trim_spec q off n C Hsm Ho Hn) E) as (-> & C' & _ & Hl & Hc). by split_and!.
Qed.

(** The operations that change an image. *)
Inductive qstep (q : qcow) : qcow -> Prop :=
  | step_write off buf : 0 <= off -> qstep q (qcow_write_at off buf q).1
  | step_trim off n : 0 <= off -> 0 <= n -> qstep q (qcow_trim off n q).1.

Lemma qstep_grows (q q' : qcow) :
  qstep q q' -> geometry (q_header q) -> len (q_file q) <= len (q_file q') /\ q_header q' = q_header q.
Proof. intros [off buf _|off n _ _] G; [by apply grows_write|by apply grows_trim]. Qed.

Lemma qstep_consistent (q q' : qcow) : qstep q q' -> Consistent q -> small q -> small q' -> Consistent q'.
Proof.
  intros [off buf Ho|off n Ho Hn] C Hs Hs'.
  - by apply (write_spec q off buf C Ho).
  - by apply (trim_spec q off n C Hs Ho Hn).
Qed.

Lemma reachable_inv (q q' : qcow) :
  Consistent q -> rtc qstep q q' -> geometry (q_header q') /\ (small q' -> Consistent q').
Proof.
  intros C R. revert q' R. apply rtc_ind_r; [destruct C as (rho & I & Hm); split; [exact (sh_geo q (proj1 I))|by exists rho]|].
  intros q1 q2 _ Hst [G IH]. destruct (qstep_grows q1 q2 Hst G) as [Hl Hh]. split; [by rewrite Hh|]. intros Hs.
  assert (Hs1 : small q1) by (unfold small in *; rewrite Hh in Hs; lia). apply (qstep_consistent q1); auto.
Qed.

(** C3: Whatever sequence of writes and trims, failing ones included, an image
    is taken through, it stays well formed: refcounts are one exactly on the
    clusters in use, no host cluster backs two guest clusters, and none of
    the guest's data lies in a cluster of metadata. *)
Theorem qcow_reachable_consistent (q q' : qcow) :
  Consistent q -> rtc qstep q q' -> small q' ->
  Consistent q' /\ exists rho, forall g o,
    0 <= g < h_l1_size (q_header q') * l2n (q_header q') -> l2_data (l2_at q' g) = Some o ->
    rho (o / cs q') = RData g /\ refcount q' (o / cs q') = 1 /\ o + cs q' <= len (q_file q').
Proof.
  intros C R Hs. destruct (reachable_inv q q' C R) as [_ H]. pose proof (H Hs) as C'. split; [done|].
  destruct C' as (rho & I & Hm). exists rho. intros g o Hg Ho.
  destruct (data_role q' rho I g o Hg Ho) as (E & Er & [Hi1 Hi2] & Hp). split_and!; [done| |lia].
  rewrite Hm by lia. unfold ones. by rewrite decide_False by (by rewrite Er).
Qed.
End Refine.
