(* ===== verification/QcowCheck.v ===== *)
(** * The consistency check accepts consistent images

    [check_consistency] recomputes every refcount from the image's pointers,
    compares it with the stored one and checks the COPIED flags.  On a
    consistent image every cluster is counted once per role, the counts agree
    and the check succeeds. *)

From Stdlib Require Import ZArith Lia Bool.
From stdpp Require Import base decidable numbers list.
From S2P Require Import Prelude Rust Storage Qcow QcowInv QcowSteps QcowAlloc QcowGrow QcowHost QcowRefine.

Section Check.
Context {B : Type} {SB : StorageBackend B} {DB : Disk B}.
Abbreviation qcow := (QcowBackend B).
Abbreviation cs q := (csz (q_header q)).
Abbreviation qm A := (M qcow serr A).

Section Count.
Context (q : qcow) (rho : Z -> role) (I : Image q rho) (Hsm : small q).
Let S : Shape q := proj1 I.
Let G : geometry (q_header q) := sh_geo q S.
Let A := eof_cluster q.

(** The clusters whose role is in [P] are counted once, the others not yet. *)
Definition counted (P : role -> bool) (E : list Z) : Prop :=
  len E = A /\ forall c, 0 <= c < A -> getb E c = if P (rho c) then 1 else 0.

Lemma counted_ext P P' E : counted P E -> (forall c, rho c <> Free -> P (rho c) = P' (rho c)) -> P Free = P' Free -> counted P' E.
Proof.
  intros [Hl HE] Hx Hf. split; [done|]. intros c Hc. rewrite HE by done.
  destruct (decide (rho c = Free)) as [->|Hn]; [by rewrite Hf|by rewrite Hx].
Qed.

(** Counting one more reference. *)
Lemma bump_counted P E c r :
  counted P E -> rho c = r -> r <> Free -> P r = false ->
  exists E', bump (cs q) (c * cs q) E = Ok E' /\ counted (fun r' => P r' || bool_decide (r' = r)) E'.
Proof.
  intros [Hl HE] Hr Hn HP. pose proof (cs_pos q rho I) as Hcs. pose proof (used_below q rho I Hsm c ltac:(congruence)) as Hc. fold A in Hc.
  unfold bump. rewrite Z.div_mul, Z.mod_mul, Hl by lia. change (0 =? 0) with true. cbn [negb].
  rewrite (proj2 (Z.leb_gt _ _)) by lia. eexists. split; [done|]. split; [unfold len in *; by rewrite length_insert|].
  intros c' Hc'. unfold len in Hl. destruct (Z.eq_dec c' c) as [->|Hne].
  - rewrite getb_lookup, list_lookup_insert_eq by lia. cbn [default]. rewrite HE by lia. rewrite Hr, HP.
    rewrite bool_decide_eq_true_2 by done. done.
  - rewrite getb_lookup, list_lookup_insert_ne by lia. rewrite <- getb_lookup by lia. rewrite HE by done.
    rewrite bool_decide_eq_false_2; [by rewrite orb_false_r|]. intros Er. apply Hne, (role_unique q rho I); congruence.
Qed.

(** The roles counted so far, one bound per kind. *)
Definition stage (k1 k2 k3 k4 k5 : Z) (r : role) : bool :=
  match r with
  | Free => false
  | RHeader => true
  | RL1 k => k <? k1
  | RL2 i => i <? k2
  | RData g => g <? k3
  | RRT k => k <? k4
  | RRB s => s <? k5
  end.

(** A bump moves from one stage to the next. *)
Lemma bump_stage P P' E c r :
  counted P E -> rho c = r -> r <> Free -> P r = false -> (forall r', P' r' = P r' || bool_decide (r' = r)) ->
  exists E', bump (cs q) (c * cs q) E = Ok E' /\ counted P' E'.
Proof.
  intros HE Hr Hn HP HP'. destruct (bump_counted P E c r HE Hr Hn HP) as (E' & Eb & Hl & HE'). exists E'. split; [done|].
  split; [done|]. intros c' Hc'. by rewrite HP', HE'.
Qed.

Ltac stages := intros [| |?|?|?|?|?]; cbn [stage]; rewrite ?orb_false_r, ?orb_true_r; try done;
  match goal with
  | |- context [bool_decide ?P] => destruct (bool_decide_reflect P); simplify_eq
  end; zcmp; cbn [orb]; try done; try lia; exfalso; (congruence || (match goal with H : _ <> _ |- _ => apply H; f_equal; lia end)).

Lemma count_header : exists E, bump (cs q) 0 (zeros A) = Ok E /\ counted (stage 0 0 0 0 0) E.
Proof.
  pose proof (eof_range q rho I Hsm) as [_ HA]. fold A in HA.
  destruct (bump_stage (fun _ => false) (fun r => bool_decide (r = RHeader)) (zeros A) 0 RHeader) as (E & Eb & HE); try done.
  { split; [apply len_zeros; lia|]. intros c _. apply getb_zeros. }
  { exact (proj1 (header_role q rho I)). }
  exists E. split; [done|]. eapply counted_ext; [exact HE| |done]. intros c Hc.
  destruct (ro_used q rho (proj2 I) c Hc) as [Hu _]. destruct (rho c); cbn [stage]; try done; cbn [refs] in Hu;
    (rewrite bool_decide_eq_false_2 by done); symmetry; apply Z.ltb_ge; lia.
Qed.

Lemma count_l1 E0 :
  counted (stage 0 0 0 0 0) E0 ->
  wp (mfold (seqZ 0 (l1_clusters (q_header q))) (fun c expected =>
        off ← lift (radd (h_l1_table_offset (q_header q)) (c * cs q)); lift (bump (cs q) off expected)) E0)
     (fun q' r => q' = q /\ exists E, r = Ok E /\ counted (stage (l1_clusters (q_header q)) 0 0 0 0) E) q.
Proof.
  intros HE0. pose proof (cs_pos q rho I). pose proof (small_len q rho I Hsm). pose proof (geo_l1 _ G).
  assert (Hlc : 0 <= l1_clusters (q_header q)) by (apply Z.div_pos; lia).
  eapply wp_mono; [apply (wp_mfold _ _ (fun k E => counted (stage (Z.of_nat k) 0 0 0 0) E)); [done|]|].
  - intros k x E Hx HE. apply lookup_seqZ in Hx as [-> Hk]. rewrite Z.add_0_l.
    set (c := h_l1_table_offset (q_header q) / cs q + Z.of_nat k).
    pose proof (aligned_cluster (h_l1_table_offset (q_header q)) (cs q) ltac:(lia) (sh_l1_al q S)) as Eo.
    assert (Ec : h_l1_table_offset (q_header q) + Z.of_nat k * cs q = c * cs q) by (unfold c; lia).
    assert (Hr : rho c = RL1 (Z.of_nat k)) by (apply (ro_refs q rho (proj2 I) (RL1 (Z.of_nat k))); cbn [refs]; lia).
    destruct (ro_used q rho (proj2 I) c ltac:(by rewrite Hr)) as [_ [_ Hin]].
    wstep_lift (apply radd_ok; lia). rewrite Ec.
    destruct (bump_stage _ (stage (Z.of_nat (Datatypes.S k)) 0 0 0 0) E c _ HE Hr) as (E' & Eb & HE'); [done|apply Z.ltb_ge; lia|stages|].
    eapply wp_eq; [apply lift_run; exact Eb|]. eauto.
  - intros q' r [-> (E & -> & HE)]. split; [done|]. exists E. split; [done|]. by rewrite length_seqZ, Z2Nat.id in HE.
Qed.

(** The L2 entries of table [i], found at [t]. *)
Lemma count_table K1 i t E0 :
  0 <= i < h_l1_size (q_header q) -> l1_off q i = t -> t <> 0 ->
  counted (stage K1 (i + 1) (i * l2n (q_header q)) 0 0) E0 ->
  wp (mfold (seqZ 0 (l2n (q_header q))) (fun j expected =>
        l2_entry ← read_be (t + j * 8) 8;
        match l2_data l2_entry with
        | None => mret expected
        | Some data_off => lift (bump (cs q) data_off expected)
        end) E0)
     (fun q' r => q' = q /\ exists E, r = Ok E /\ counted (stage K1 (i + 1) ((i + 1) * l2n (q_header q)) 0 0) E) q.
Proof.
  intros Hi Et Ht HE0. pose proof (l2n_cs q rho I) as [? [? ?]].
  eapply wp_mono; [apply (wp_mfold _ _ (fun k E => counted (stage K1 (i + 1) (i * l2n (q_header q) + Z.of_nat k) 0 0) E)); [by rewrite Z.add_0_r|]|].
  - intros k x E Hx HE. apply lookup_seqZ in Hx as [-> Hk]. rewrite Z.add_0_l. set (g := i * l2n (q_header q) + Z.of_nat k) in *.
    assert (Eg : g / l2n (q_header q) = i) by (symmetry; apply (Z.div_unique _ _ _ (Z.of_nat k)); [left; lia|unfold g; lia]).
    assert (Em : g mod l2n (q_header q) = Z.of_nat k) by (symmetry; apply (Z.mod_unique _ _ i); [left; lia|unfold g; lia]).
    assert (Hg : guest q g) by (unfold guest, g; nia).
    wstep (rewrite (Z.mul_comm _ 8), <- Em, <- Et, <- Eg; apply (l2_read_ok q rho I Hsm); [done|by rewrite Eg, Et]).
    rewrite Nat2Z.inj_succ. replace (i * l2n (q_header q) + Z.succ (Z.of_nat k)) with (g + 1) by (unfold g; lia).
    destruct (l2_data (l2_at q g)) as [o|] eqn:Ed.
    + destruct (data_role q rho I g o Hg Ed) as (Eo & Hr & _ & _).
      destruct (bump_stage _ (stage K1 (i + 1) (g + 1) 0 0) E _ _ HE Hr) as (E' & Eb & HE'); [done|apply Z.ltb_ge; lia|stages|].
      rewrite <- Eo in Eb. eapply wp_eq; [apply lift_run; exact Eb|]. eauto.
    + apply wp_ret. split; [done|]. exists E. split; [done|]. eapply counted_ext; [exact HE| |done]. intros c Hc.
      destruct (ro_used q rho (proj2 I) c Hc) as [Hu _]. destruct (rho c) as [| |?|?|?|?|g']; cbn [stage]; try done.
      destruct Hu as (_ & _ & Hu). assert (g' <> g) by congruence. zcmp; (done || lia).
  - intros q' r [-> (E & -> & HE)]. split; [done|]. exists E. split; [done|]. rewrite length_seqZ, Z2Nat.id in HE by lia.
    by replace ((i + 1) * l2n (q_header q)) with (i * l2n (q_header q) + l2n (q_header q)) by lia.
Qed.

Lemma count_l2 K1 E0 :
  counted (stage K1 0 0 0 0) E0 ->
  wp (mfold (q_l1 q) (fun l1_entry expected =>
        let l2_off := l1_entry .& L2_OFFSET_MASK in
        if l2_off =? 0 then mret expected
        else
          expected ← lift (bump (cs q) l2_off expected);
          mfold (seqZ 0 (l2n (q_header q))) (fun i expected =>
            l2_entry ← read_be (l2_off + i * 8) 8;
            match l2_data l2_entry with
            | None => mret expected
            | Some data_off => lift (bump (cs q) data_off expected)
            end) expected) E0)
     (fun q' r => q' = q /\ exists E, r = Ok E /\
        counted (stage K1 (h_l1_size (q_header q)) (h_l1_size (q_header q) * l2n (q_header q)) 0 0) E) q.
Proof.
  intros HE0. pose proof (l2n_cs q rho I) as [? [? ?]]. pose proof (sh_l1_len q S) as Hl1. unfold len in Hl1.
  eapply wp_mono; [apply (wp_mfold _ _ (fun k E => counted (stage K1 (Z.of_nat k) (Z.of_nat k * l2n (q_header q)) 0 0) E)); [done|]|].
  - intros k x E Hx HE. pose proof (lookup_lt_Some _ _ _ Hx) as Hk. set (i := Z.of_nat k) in *.
    assert (Ex : getb (q_l1 q) i = x) by (unfold i; rewrite getb_lookup, Nat2Z.id, Hx by lia; done).
    assert (Eo : x .& L2_OFFSET_MASK = l1_off q i) by (unfold l1_off; by rewrite Ex). cbv zeta. rewrite Eo.
    assert (Hi : 0 <= i < h_l1_size (q_header q)) by lia. rewrite Nat2Z.inj_succ. fold i. rewrite <- Z.add_1_r.
    destruct (Z.eqb_spec (l1_off q i) 0) as [E0'|Hn].
    + apply wp_ret. split; [done|]. exists E. split; [done|]. eapply counted_ext; [exact HE| |done]. intros c Hc.
      destruct (ro_used q rho (proj2 I) c Hc) as [Hu _]. pose proof (cs_pos q rho I).
      destruct (rho c) as [| |?|?|?|i'|g']; cbn [stage]; try done; destruct Hu as (? & ? & Hu).
      * assert (i' <> i) by (intros ->; nia). zcmp; (done || lia).
      * unfold l2_at in Hu. assert (g' / l2n (q_header q) <> i) by (intros Eg; by rewrite Eg, E0' in Hu).
        pose proof (Z.div_mod g' (l2n (q_header q)) ltac:(lia)). pose proof (Z.mod_pos_bound g' (l2n (q_header q)) ltac:(lia)).
        assert (g' / l2n (q_header q) < i \/ i < g' / l2n (q_header q)) as [?|?] by lia; zcmp; try done; nia.
    + destruct (l2_table_role q rho I i Hi Hn) as (Ec & Hr & _).
      destruct (bump_stage _ (stage K1 (i + 1) (i * l2n (q_header q)) 0 0) E _ _ HE Hr) as (E' & Eb & HE'); [done|apply Z.ltb_ge; lia|stages|].
      rewrite <- Ec in Eb. wstep_lift (exact Eb). by apply count_table.
  - intros q' r [-> (E & -> & HE)]. split; [done|]. exists E. split; [done|]. by rewrite Hl1 in HE.
Qed.

Lemma count_rt K1 K2 K3 E0 :
  counted (stage K1 K2 K3 0 0) E0 ->
  wp (mfold (seqZ 0 (q_rt_clusters q)) (fun c expected =>
        off ← lift (radd (q_rt_offset q) (c * cs q)); lift (bump (cs q) off expected)) E0)
     (fun q' r => q' = q /\ exists E, r = Ok E /\ counted (stage K1 K2 K3 (q_rt_clusters q) 0) E) q.
Proof.
  intros HE0. pose proof (cs_pos q rho I). pose proof (small_len q rho I Hsm). pose proof (sh_rt q S) as [? ?].
  eapply wp_mono; [apply (wp_mfold _ _ (fun k E => counted (stage K1 K2 K3 (Z.of_nat k) 0) E)); [done|]|].
  - intros k x E Hx HE. apply lookup_seqZ in Hx as [-> Hk]. rewrite Z.add_0_l. set (c := q_rt_offset q / cs q + Z.of_nat k).
    pose proof (aligned_cluster (q_rt_offset q) (cs q) ltac:(lia) (sh_rt_al q S)) as Eo.
    assert (Ec : q_rt_offset q + Z.of_nat k * cs q = c * cs q) by (unfold c; lia).
    assert (Hr : rho c = RRT (Z.of_nat k)) by (apply (ro_refs q rho (proj2 I) (RRT (Z.of_nat k))); cbn [refs]; lia).
    destruct (ro_used q rho (proj2 I) c ltac:(by rewrite Hr)) as [_ [_ Hin]].
    wstep_lift (apply radd_ok; lia). rewrite Ec.
    destruct (bump_stage _ (stage K1 K2 K3 (Z.of_nat (Datatypes.S k)) 0) E c _ HE Hr) as (E' & Eb & HE'); [done|apply Z.ltb_ge; lia|stages|].
    eapply wp_eq; [apply lift_run; exact Eb|]. eauto.
  - intros q' r [-> (E & -> & HE)]. split; [done|]. exists E. split; [done|]. by rewrite length_seqZ, Z2Nat.id in HE by lia.
Qed.

Lemma count_rb K1 K2 K3 K4 E0 :
  counted (stage K1 K2 K3 K4 0) E0 ->
  wp (mfold (seqZ 0 (rtn q)) (fun i expected =>
        off ← lift (radd (q_rt_offset q) (i * 8));
        v ← read_be off 8;
        let block_off := v .& REFT_OFFSET_MASK in
        if block_off =? 0 then mret expected else lift (bump (cs q) block_off expected)) E0)
     (fun q' r => q' = q /\ exists E, r = Ok E /\ counted (stage K1 K2 K3 K4 (rtn q)) E) q.
Proof.
  intros HE0. pose proof (l2n_cs q rho I) as [? [? ?]]. pose proof (small_len q rho I Hsm). pose proof (sh_rt q S) as [? ?].
  eapply wp_mono; [apply (wp_mfold _ _ (fun k E => counted (stage K1 K2 K3 K4 (Z.of_nat k)) E)); [done|]|].
  - intros k x E Hx HE. apply lookup_seqZ in Hx as [-> Hk]. rewrite Z.add_0_l. set (s := Z.of_nat k) in *.
    destruct (rt_entry_role q rho I s ltac:(lia)) as (Eo & _ & [_ Hin]).
    pose proof (Z.mod_pos_bound s (l2n (q_header q)) ltac:(lia)). rewrite (Z.mul_comm s 8).
    wstep_lift (apply radd_ok; lia). wstep (apply (read_be_ok q rho I Hsm); lia). fold (rt_ptr q s).
    rewrite Nat2Z.inj_succ. fold s. destruct (Z.eqb_spec (rt_ptr q s) 0) as [E0'|Hn].
    + apply wp_ret. split; [done|]. exists E. split; [done|]. eapply counted_ext; [exact HE| |done]. intros c Hc.
      destruct (ro_used q rho (proj2 I) c Hc) as [Hu _]. pose proof (cs_pos q rho I).
      destruct (rho c) as [| |?|?|s'|?|?]; cbn [stage]; try done. destruct Hu as (_ & ? & Hu).
      assert (s' <> s) by (intros ->; nia). zcmp; (done || lia).
    + destruct (block_role q rho I s ltac:(lia) Hn) as (Ec & Hr & _).
      destruct (bump_stage _ (stage K1 K2 K3 K4 (Z.succ s)) E _ _ HE Hr) as (E' & Eb & HE'); [done|apply Z.ltb_ge; lia|stages|].
      rewrite <- Ec in Eb. eapply wp_eq; [apply lift_run; exact Eb|]. eauto.
  - intros q' r [-> (E & -> & HE)]. split; [done|]. exists E. split; [done|].
    rewrite length_seqZ, Z2Nat.id in HE; [done|]. unfold rtn. nia.
Qed.

(** The recomputed refcounts: one on every cluster in use. *)
Lemma expected_ok :
  wp compute_expected_refcounts (fun q' r => q' = q /\
    exists E, r = Ok E /\ len E = A /\ forall c, 0 <= c < A -> getb E c = ones rho c) q.
Proof.
  unfold compute_expected_refcounts. wstep reflexivity. rewrite (geo_snap _ G). change (0 =? 0) with true. cbn [negb].
  wstep_lift (by apply cluster_size_ok). wstep reflexivity. fold (eof_cluster q). fold A.
  destruct count_header as (E1 & Eb & H1). wstep_lift (exact Eb). fold (l1_clusters (q_header q)).
  apply wp_bind. eapply wp_mono; [by apply count_l1|]. intros ? ? [-> (E2 & -> & H2)].
  wstep_lift (by apply l2_entries_ok).
  apply wp_bind. eapply wp_mono; [by apply count_l2|]. intros ? ? [-> (E3 & -> & H3)].
  apply wp_bind. eapply wp_mono; [by apply count_rt|]. intros ? ? [-> (E4 & -> & H4)].
  wstep_lift (by apply (rt_entries_ok q rho)).
  eapply wp_mono; [by apply count_rb|]. intros ? ? [-> (E5 & -> & Hl5 & H5)].
  split; [done|]. exists E5. split; [done|]. split; [done|]. intros c Hc. rewrite H5 by done. unfold ones.
  destruct (decide (rho c = Free)) as [->|Hn]; [done|]. destruct (ro_used q rho (proj2 I) c Hn) as [Hu _].
  destruct (rho c); try done; cbn [stage refs] in *; by rewrite (proj2 (Z.ltb_lt _ _)) by lia.
Qed.

(** A check that succeeds has compared every stored refcount. *)
Lemma mfor_reader_ok {X} (l : list X) (f : X -> qm unit) :
  (forall x, reader (f x)) -> (mfor l f q).2 = Ok tt -> Forall (fun x => (f x q).2 = Ok tt) l.
Proof.
  intros Hf. induction l as [|x l IH]; cbn [mfor]; [constructor|]. unfold mbind, M_bind. pose proof (Hf x q) as Hx.
  destruct (f x q) as [q1 [[]|e|]] eqn:E; cbn [fst snd] in *; subst; try done. intros H. constructor; [by rewrite E|auto].
Qed.

Lemma check_sound q' c : check_consistency q = (q', Ok tt) -> 0 <= c < A -> refcount q c = ones rho c.
Proof.
  intros Hok Hc. unfold check_consistency in Hok. pose proof expected_ok as He. unfold wp in He.
  destruct (compute_expected_refcounts q) as [q1 r1] eqn:E1. destruct He as [Eq (E & Er & Hl & HE)]. cbn [fst snd] in *. subst q1 r1.
  rewrite (bind_run _ _ _ _ _ E1) in Hok. match type of Hok with context [mfor ?l ?f] => pose proof (mfor_reader_ok l f) as Hr end.
  unfold mbind, M_bind in Hok. destruct (mfor _ _ q) as [q2 [[]|e|]] eqn:E2; try done.
  assert (Hall := Hr ltac:(intros [idx want]; unfold reader; intros q0; unfold mbind, M_bind; pose proof (reader_refcount idx q0);
    destruct (read_refcount idx q0) as [? [?|?|]]; cbn [fst] in *; subst; try done; by case_match) eq_refl).
  rewrite Forall_lookup in Hall. unfold len in Hl.
  destruct (lookup_lt_is_Some_2 E (Z.to_nat c) ltac:(lia)) as [x Hx].
  specialize (Hall (Z.to_nat c) (Z.of_nat (Z.to_nat c), x)). rewrite list_lookup_imap, Hx in Hall. specialize (Hall eq_refl).
  cbn beta iota in Hall. rewrite Z2Nat.id in Hall by lia.
  rewrite (bind_run _ _ _ _ _ (read_refcount_ok q rho I Hsm c ltac:(lia))) in Hall.
  destruct (Z.eqb_spec (refcount q c) x) as [Ex|]; [|done]. rewrite Ex, <- HE by lia. by rewrite getb_lookup, Hx by lia.
Qed.

Context (Hm : forall c, 0 <= c < A -> refcount q c = ones rho c).

Lemma verify_ok entry o r :
  Z.testbit entry 63 = true -> rho (o / cs q) = r -> r <> Free -> verify_copied entry o q = (q, Ok tt).
Proof.
  intros He Hr Hn. pose proof (used_below q rho I Hsm (o / cs q) ltac:(congruence)) as Ho. fold A in Ho. unfold verify_copied. run reflexivity. run_lift (by apply cluster_size_ok).
  run (apply (read_refcount_ok q rho I Hsm); lia). rewrite Hm by done. unfold ones. rewrite decide_False by congruence.
  rewrite (tst_pow entry QCOW_OFLAG_COPIED 63) by done. by rewrite He.
Qed.

Lemma copied_ok : check_copied_flags q = (q, Ok tt).
Proof.
  enough (H : wp check_copied_flags (fun q' r => r = Ok tt /\ q' = q) q).
  { unfold wp in H. destruct (check_copied_flags q) as [q' r]. cbn in H. by destruct H as [-> ->]. }
  unfold check_copied_flags. wstep reflexivity. wstep_lift (by apply l2_entries_ok). pose proof (sh_l1_len q S) as Hl1. unfold len in Hl1.
  apply (wp_mfor _ _ (fun _ q' => q' = q)); [done|]. intros k x q' Hx ->. pose proof (lookup_lt_Some _ _ _ Hx) as Hk.
  assert (Ex : getb (q_l1 q) (Z.of_nat k) = x) by (rewrite getb_lookup, Nat2Z.id, Hx by lia; done).
  assert (Eo : x .& L2_OFFSET_MASK = l1_off q (Z.of_nat k)) by (unfold l1_off; by rewrite Ex). cbv zeta. rewrite Eo.
  set (i := Z.of_nat k) in *. assert (Hi : 0 <= i < h_l1_size (q_header q)) by lia.
  destruct (Z.eqb_spec (l1_off q i) 0) as [|Hn]; [by apply wp_ret|].
  destruct (l2_table_role q rho I i Hi Hn) as (_ & Hr & _ & Hp). destruct (sh_l1_ptr q S i Hi) as [_ Hcp].
  wstep (apply (verify_ok x _ (RL2 i)); [rewrite <- Ex; by apply Hcp|done|done]).
  pose proof (l2n_cs q rho I) as [? [? ?]].
  apply (wp_mfor _ _ (fun _ q' => q' = q)); [done|]. intros j y q' Hy ->. apply lookup_seqZ in Hy as [-> Hj]. rewrite Z.add_0_l.
  set (g := i * l2n (q_header q) + Z.of_nat j).
  assert (Eg : g / l2n (q_header q) = i) by (symmetry; apply (Z.div_unique _ _ _ (Z.of_nat j)); [left; lia|unfold g; lia]).
  assert (Em : g mod l2n (q_header q) = Z.of_nat j) by (symmetry; apply (Z.mod_unique _ _ i); [left; lia|unfold g; lia]).
  assert (Hg : guest q g) by (unfold guest, g; nia).
  wstep (rewrite (Z.mul_comm _ 8), <- Em, <- Eg; apply (l2_read_ok q rho I Hsm); [done|by rewrite Eg]).
  destruct (l2_data (l2_at q g)) as [o|] eqn:Ed; [|by apply wp_ret].
  destruct (data_role q rho I g o Hg Ed) as (_ & Hr' & _ & Hp'). destruct (sh_l2_ptr q S g o Hg Ed) as [_ Hcp'].
  eapply wp_eq; [by apply (verify_ok _ o (RData g))|done].
Qed.

Lemma check_ok : check_consistency q = (q, Ok tt).
Proof.
  enough (H : wp check_consistency (fun q' r => r = Ok tt /\ q' = q) q).
  { unfold wp in H. destruct (check_consistency q) as [q' r]. cbn in H. by destruct H as [-> ->]. }
  unfold check_consistency. apply wp_bind. eapply wp_mono; [exact expected_ok|]. intros ? ? [-> (E & -> & Hl & HE)].
  apply wp_bind. eapply wp_mono; [apply (wp_mfor _ _ (fun _ q' => q' = q)); [done|]|].
  - intros k [idx want] q' Hk ->. apply list_lookup_imap_Some in Hk as (x & Hx & E'). injection E' as -> ->.
    pose proof (lookup_lt_Some _ _ _ Hx) as Hk. unfold len in Hl.
    assert (Ex : getb E (Z.of_nat k) = x) by (rewrite getb_lookup, Nat2Z.id, Hx by lia; done).
    wstep (apply (read_refcount_ok q rho I Hsm); lia). rewrite Hm, <- HE, Ex, Z.eqb_refl by lia. by apply wp_ret.
  - intros ? ? [-> ->]. eapply wp_eq; [exact copied_ok|done].
Qed.
End Count.

(** C18: The consistency check is exact: on an image whose pointers are well
    formed it succeeds, changing nothing, if and only if every cluster of the
    file has refcount one when something refers to it and zero otherwise. *)
Theorem qcow_check_exact (q : qcow) rho :
  Image q rho -> small q ->
  (check_consistency q = (q, Ok tt) <-> forall c, 0 <= c < eof_cluster q -> refcount q c = ones rho c).
Proof.
  intros I Hsm. split; [|by apply check_ok]. intros E c Hc. by apply (check_sound q rho I Hsm q).
Qed.
End Check.
