(* ===== verification/QcowCreate.v ===== *)
(** * Creating and reopening qcow2 images

    [create] writes an image that opens as a consistent, empty disk of the
    requested size: every byte reads as the backing image's, or as zero.  And
    what a backend has written is on disk: opening the image file again gives
    the same guest bytes. *)

From Stdlib Require Import ZArith Lia Bool.
From stdpp Require Import base decidable numbers list.
From S2P Require Import Prelude Rust Storage Qcow QcowInv QcowSteps QcowAlloc QcowGrow QcowHost QcowRefine.

(** ** Assignments to a byte vector *)

Lemma be_splice_same d off n z :
  0 <= off -> off + Z.of_nat n <= len d -> be_at (splice d off (be_bytes n z)) off (Z.of_nat n) = z mod 256 ^ Z.of_nat n.
Proof. intros. rewrite splice_write by (rewrite ?len_be_bytes; lia). by apply be_at_write. Qed.

Lemma be_splice_other d off s off' n :
  0 <= off -> off + len s <= len d -> off' + n <= off \/ off + len s <= off' -> be_at (splice d off s) off' n = be_at d off' n.
Proof. intros. rewrite splice_write by done. by apply be_at_write_other. Qed.

Lemma be_splice_is d off n z w :
  Z.of_nat n = w -> 0 <= off -> off + w <= len d -> 0 <= z < 256 ^ w -> be_at (splice d off (be_bytes n z)) off w = z.
Proof. intros <- Ho Hl Hz. rewrite be_splice_same by done. by apply Z.mod_small. Qed.

Lemma getb_splice_other d off s x :
  0 <= off -> off + len s <= len d -> x < off \/ off + len s <= x -> getb (splice d off s) x = getb d x.
Proof. intros. rewrite getb_splice by done. zcmp; (done || lia). Qed.

(** Storing refcount one for the clusters [lo..lo + k] in the block at [base]. *)
Lemma refcounts_stored k : forall img base lo,
  0 <= base -> 0 <= lo -> base + 2 * (lo + Z.of_nat k) <= len img ->
  let img' := fold_left (fun img c => splice img (base + c * 2) (be_bytes 2 1)) (seqZ lo (Z.of_nat k)) img in
  len img' = len img /\
  (forall c, 0 <= c -> base + 2 * c + 2 <= len img ->
    be_at img' (base + 2 * c) 2 = if (lo <=? c) && (c <? lo + Z.of_nat k) then 1 else be_at img (base + 2 * c) 2) /\
  (forall x, x < base + 2 * lo \/ base + 2 * (lo + Z.of_nat k) <= x -> getb img' x = getb img x).
Proof.
  induction k as [|k IH]; intros img base lo Hb Hlo Hl; cbn zeta.
  - rewrite seqZ_nil by lia. cbn. split_and!; try done. intros c Hc _. zcmp; (done || lia).
  - rewrite seqZ_cons by lia. cbn [fold_left]. set (img1 := splice img (base + lo * 2) (be_bytes 2 1)).
    assert (Hl1 : len img1 = len img) by apply len_splice.
    replace (Z.pred (Z.of_nat (S k))) with (Z.of_nat k) by lia.
    destruct (IH img1 base (Z.succ lo) Hb ltac:(lia) ltac:(lia)) as (H1 & H2 & H3). split_and!; [lia|..].
    + intros c Hc Hcl. rewrite H2 by lia. destruct (Z.eq_dec c lo) as [->|Hne].
      * zcmp; try lia. unfold img1. rewrite (Z.mul_comm lo 2). exact (be_splice_same img (base + 2 * lo) 2 1 ltac:(lia) ltac:(lia)).
      * assert (E : be_at img1 (base + 2 * c) 2 = be_at img (base + 2 * c) 2).
        { apply be_splice_other; rewrite ?len_be_bytes; lia. }
        rewrite E. zcmp; (done || lia).
    + intros x Hx. rewrite H3 by lia. unfold img1. rewrite getb_splice by (rewrite ?len_be_bytes; lia). rewrite len_be_bytes.
      zcmp; try done. lia.
Qed.

(** ** Images with no guest data

    Header, L1 table, refcount table, one refcount block: the layout of an
    image nothing has been written to, at any cluster size. *)

Section Blank.
Context {B : Type} {SB : StorageBackend B} {DB : Disk B}.
Abbreviation cs q := (csz (q_header q)).
Abbreviation lcs q := (l1_clusters (q_header q)).

Record blank (q : QcowBackend B) : Prop := {
  bl_geo : geometry (q_header q);
  bl_l1_off : h_l1_table_offset (q_header q) = cs q;
  bl_rt : q_rt_clusters q = 1 /\ q_rt_offset q = (1 + lcs q) * cs q /\ h_refcount_table_clusters (q_header q) = 1;
  bl_l1 : q_l1 q = zeros (h_l1_size (q_header q));
  bl_l1_disk : forall i, 0 <= i < h_l1_size (q_header q) -> be_at (q_file q) (cs q + 8 * i) 8 = 0;
  bl_table : forall s, 0 <= s < l2n (q_header q) ->
    be_at (q_file q) (q_rt_offset q + 8 * s) 8 = if s =? 0 then (lcs q + 2) * cs q else 0;
  bl_block : forall c, 0 <= c < rbn (q_header q) ->
    be_at (q_file q) ((lcs q + 2) * cs q + wid (q_header q) * c) (wid (q_header q)) = if c <? lcs q + 3 then 1 else 0;
  bl_len : len (q_file q) = (lcs q + 3) * cs q;
  bl_fit : lcs q + 3 <= rbn (q_header q);
  bl_head : from_bytes (sub (q_file q) 0 104) = Ok (live_header q);
  bl_backing : match q_backing q with Some b => disk_ok b | None => True end;
}.

Context (q : QcowBackend B) (K : blank q).
Let G : geometry (q_header q) := bl_geo q K.
Abbreviation lc := (lcs q).

Lemma blank_sizes : 0 <= lc /\ 512 <= cs q /\ 64 <= l2n (q_header q) /\ rtn q = l2n (q_header q).
Proof.
  pose proof (csz_range _ G). pose proof (csz_l2n _ G) as [_ ?]. pose proof (geo_l1 _ G). unfold rtn. rewrite (proj1 (bl_rt q K)).
  split_and!; try lia. apply Z.div_pos; lia.
Qed.

Lemma blank_l1 i : l1_off q i = 0.
Proof. unfold l1_off. by rewrite (bl_l1 q K), getb_zeros. Qed.

Lemma blank_l2 g : l2_at q g = 0.
Proof. unfold l2_at. by rewrite blank_l1. Qed.

Lemma blank_rt s : 0 <= s < rtn q -> rt_ptr q s = if s =? 0 then (lc + 2) * cs q else 0.
Proof.
  pose proof blank_sizes as (? & ? & ? & ->). pose proof (csz_range _ G). pose proof (csz_rbn _ G) as [_ ?]. intros Hs.
  unfold rt_ptr. rewrite (bl_table q K) by done. destruct (s =? 0); [|done]. pose proof (bl_fit q K).
  apply reft_aligned; [apply mod_512, (geo_bits _ G)|unfold fits; nia].
Qed.

Definition blank_roles (c : Z) : role :=
  if c <? 0 then Free
  else if c =? 0 then RHeader
  else if c <=? lc then RL1 (c - 1)
  else if c =? lc + 1 then RRT 0
  else if c =? lc + 2 then RRB 0
  else Free.

Lemma blank_refs r c : refs q r c <-> r <> Free /\ blank_roles c = r.
Proof.
  pose proof blank_sizes as (? & ? & ? & Er). destruct (bl_rt q K) as (E1 & E2 & _). unfold refs. rewrite E1, E2, (bl_l1_off q K).
  assert (Hc : forall x, c * cs q = x * cs q <-> c = x) by (intros; split; [apply Z.mul_reg_r; lia|by intros ->]).
  assert (Hrt : forall x, c * cs q = (1 + lc) * cs q + x * cs q <-> c = lc + 1 + x) by (intros x; rewrite <- Z.mul_add_distr_r, Hc; lia).
  assert (Hl1 : forall x, c * cs q = cs q + x * cs q <-> c = 1 + x).
  { intros x. replace (cs q + x * cs q) with ((1 + x) * cs q) by lia. apply Hc. }
  unfold blank_roles. destruct r as [| |k|k|s|i|g].
  - split; [done|]. by intros [? _].
  - zcmp; split; intros Hr; try lia; try done; destruct Hr; (done || lia).
  - rewrite Hl1. zcmp; (split; [intros [? ->]; split; [done|]; try lia; f_equal; lia|]); intros [_ E]; try done; injection E as E; lia.
  - rewrite Hrt. zcmp; (split; [intros [? ->]; split; [done|]; try lia; f_equal; lia|]); intros [_ E]; try done; injection E as E; lia.
  - split.
    + intros (Hs & Hp & E). rewrite blank_rt in E by done. destruct (Z.eqb_spec s 0) as [->|]; [|nia].
      symmetry in E. apply Hc in E. split; [done|]. zcmp; (done || lia).
    + intros [_ E]. assert (s = 0 /\ c = lc + 2) as [-> ->] by (revert E; zcmp; intros [= ]; lia).
      split; [lia|]. split; [lia|]. by rewrite blank_rt by lia.
  - rewrite blank_l1. split; [nia|]. intros [_ E]. revert E. zcmp; done.
  - rewrite blank_l2. split; [intros (_ & _ & ?); done|]. intros [_ E]. revert E. zcmp; done.
Qed.

Lemma blank_inside c : blank_roles c <> Free -> inside q c.
Proof.
  pose proof blank_sizes as (? & ? & ? & _). intros Hc.
  assert (0 <= c <= lc + 2) by (revert Hc; unfold blank_roles; zcmp; try done; lia).
  split; [lia|]. rewrite (bl_len q K). apply Z.mul_le_mono_nonneg_r; lia.
Qed.

Lemma blank_shape : Shape q.
Proof.
  pose proof blank_sizes as (? & ? & ? & _). destruct (bl_rt q K) as (E1 & E2 & E3). pose proof (geo_l1 _ G). split.
  - exact G.
  - rewrite E1, E2. split; [lia|]. apply Z.mul_pos_pos; lia.
  - rewrite E1, E3. lia.
  - rewrite E2. apply Z.mod_mul. lia.
  - rewrite (bl_l1_off q K). apply Z.mod_same. lia.
  - rewrite (bl_l1 q K). apply len_zeros. lia.
  - intros i _. by rewrite blank_l1.
  - intros g o _. by rewrite blank_l2.
  - intros s Hs. rewrite blank_rt by done. destruct (s =? 0); [apply Z.mod_mul; lia|done].
  - intros i Hi. rewrite (bl_l1 q K), getb_zeros, (bl_l1_off q K). by apply (bl_l1_disk q K).
  - exact (bl_head q K).
  - exact (bl_backing q K).
Qed.

Lemma blank_counts : Counts q (ones blank_roles).
Proof.
  pose proof blank_sizes as (? & ? & ? & _). pose proof (csz_rbn _ G) as [_ ?]. pose proof (bl_fit q K). intros c Hc.
  assert (Ho : ones blank_roles c = if c <? lc + 3 then 1 else 0) by (unfold ones, blank_roles; zcmp; case_decide; (done || lia)).
  pose proof (Z.div_mod c (rbn (q_header q)) ltac:(lia)) as Ed. pose proof (Z.mod_pos_bound c (rbn (q_header q)) ltac:(lia)).
  assert (0 <= c / rbn (q_header q)) by (apply Z.div_pos; lia). unfold refcount, block_of. rewrite Ho.
  destruct (Z.leb_spec (rtn q) (c / rbn (q_header q))) as [Hout|]; [|rewrite blank_rt by done; destruct (Z.eqb_spec (c / rbn (q_header q)) 0) as [E0|Hn]].
  - pose proof blank_sizes as (_ & _ & _ & Er). rewrite (proj2 (Z.ltb_ge _ _)) by nia. done.
  - rewrite (proj2 (Z.eqb_neq _ _)) by nia. rewrite E0 in Ed. replace (c mod rbn (q_header q)) with c by lia. apply (bl_block q K). lia.
  - rewrite (proj2 (Z.ltb_ge _ _)) by nia. done.
Qed.

Lemma blank_roles_ok : Roles q blank_roles.
Proof.
  split; [by intros r c [_ E]%blank_refs|]. intros c Hc. split; [by apply blank_refs|by apply blank_inside].
Qed.

Lemma blank_consistent : Consistent q.
Proof. exists blank_roles. split; [split; [exact blank_shape|exact blank_roles_ok]|exact blank_counts]. Qed.

Lemma blank_content x : content q x = backing_byte q x.
Proof. unfold content. by rewrite blank_l2. Qed.
End Blank.

(** ** The layout of a new image *)

Definition CS : Z := 65536.

(** Entries of the L1 table, its clusters, and all metadata clusters. *)
Definition l1n (size : Z) : Z := Z.max (div_ceil size (8192 * CS)) 1.
Definition l1c (size : Z) : Z := div_ceil (l1n size * 8) CS.
Definition mdc (size : Z) : Z := l1c size + 3.

Section Create.
Context (size : Z) (Hsize : 0 <= size < 2 ^ 62) (name : option (list Z)).
Abbreviation L := (l1n size).
Abbreviation lc := (l1c size).
Abbreviation md := (mdc size).
Context (Hmd : md <= 32768).
Context (Hname : match name with Some bs => 512 + len bs <= CS | None => True end).

Lemma layout : 1 <= L /\ 1 <= lc /\ L <= lc * 8192 /\ size <= L * 8192 * CS /\ L < 2 ^ 32 /\ (lc - 1) * 8192 < L.
Proof.
  unfold mdc, l1c in *. assert (H1 : 1 <= L /\ size <= L * 8192 * CS).
  { unfold l1n, div_ceil, CS. pose proof (Z.div_mod (size + 8192 * 65536 - 1) (8192 * 65536) ltac:(lia)).
    pose proof (Z.mod_pos_bound (size + 8192 * 65536 - 1) (8192 * 65536) ltac:(lia)). lia. }
  unfold div_ceil, CS in *. pose proof (Z.div_mod (L * 8 + 65536 - 1) 65536 ltac:(lia)).
  pose proof (Z.mod_pos_bound (L * 8 + 65536 - 1) 65536 ltac:(lia)). lia.
Qed.

(** The image up to the backing file's name. *)
Definition named : list Z :=
  let img := splice (splice (zeros (md * CS)) 0 (be_bytes 4 QCOW2_MAGIC)) 4 (be_bytes 4 3) in
  match name with
  | Some bs => splice (splice (splice img 8 (be_bytes 8 0x200)) 16 (be_bytes 4 (len bs))) 0x200 bs
  | None => img
  end.

Definition rtoff : Z := (1 + lc) * CS.
Definition rboff : Z := (1 + lc + 1) * CS.

Definition headed : list Z :=
  splice (splice (splice (splice (splice (splice (splice (splice (splice named
    20 (be_bytes 4 16)) 24 (be_bytes 8 size)) 36 (be_bytes 4 L)) 40 (be_bytes 8 CS)) 48 (be_bytes 8 rtoff))
    56 (be_bytes 4 1)) 96 (be_bytes 4 4)) 100 (be_bytes 4 104)) rtoff (be_bytes 8 rboff).

Definition new_image : list Z :=
  fold_left (fun img c => splice img (rboff + c * 2) (be_bytes 2 1)) (seqZ 0 md) headed.

Lemma create_image : create size name = Ok new_image.
Proof.
  unfold create. change (1 .<< 16) with CS. change (CS / 8) with 8192. change (CS * 8 / 16) with 32768.
  fold (l1n size) (l1c size). replace (1 + lc + 1 + 1) with md by (unfold mdc; lia). rewrite (proj2 (Z.ltb_ge _ _)) by lia.
  destruct name as [bs|] eqn:En; [rewrite (proj2 (Z.ltb_ge _ _)) by (change 0x200 with 512; lia)|]; cbn [mbind res_bind].
  - unfold new_image, headed, named. by rewrite En.
  - unfold new_image, headed, named. by rewrite En.
Qed.

Definition bsz : Z := match name with Some bs => len bs | None => 0 end.
Definition boff : Z := match name with Some _ => 512 | None => 0 end.

Lemma sizes : 512 <= CS /\ CS <= md * CS /\ rtoff + CS <= md * CS /\ rboff + CS <= md * CS /\ CS + CS <= rtoff /\ rtoff + CS = rboff.
Proof. pose proof layout. unfold rtoff, rboff, mdc, CS. lia. Qed.

Lemma bsz_range : 0 <= bsz /\ 512 + bsz <= CS.
Proof. unfold bsz. destruct name as [bs|]; [pose proof (len_nonneg bs); lia|unfold CS; lia]. Qed.

Lemma len_named : len named = md * CS.
Proof. pose proof sizes. unfold named. destruct name; rewrite !len_splice, len_zeros; lia. Qed.

Lemma len_headed : len headed = md * CS.
Proof. unfold headed. by rewrite !len_splice, len_named. Qed.

(** Peel assignments off a vector until the field read is reached. *)
Ltac fits_img := rewrite ?len_splice, ?len_be_bytes, ?len_named, ?len_zeros; (reflexivity || lia).
Ltac field := repeat first [rewrite be_splice_is by fits_img | rewrite be_splice_other by fits_img].

Lemma getb_named x :
  20 <= x -> getb named x = if (512 <=? x) && (x <? 512 + bsz) then getb (default [] name) (x - 512) else 0.
Proof.
  intros Hx. pose proof bsz_range. unfold named, bsz in *. destruct name as [bs|]; cbn [default].
  - rewrite !getb_splice by (pose proof sizes; rewrite ?len_splice, ?len_be_bytes, ?len_zeros; lia).
    rewrite !len_be_bytes, getb_zeros. change 0x200 with 512. zcmp; (done || lia).
  - rewrite !getb_splice by (pose proof sizes; rewrite ?len_splice, ?len_be_bytes, ?len_zeros; lia).
    rewrite !len_be_bytes, getb_zeros. zcmp; (done || lia).
Qed.

Lemma named_fields :
  be_at named 0 4 = QCOW2_MAGIC /\ be_at named 4 4 = 3 /\ be_at named 8 8 = boff /\ be_at named 16 4 = bsz.
Proof.
  pose proof sizes. pose proof bsz_range as Hb. assert (HM : 0 <= QCOW2_MAGIC < 256 ^ 4) by done.
  assert (Hz : forall a n, be_at (zeros (md * CS)) a n = 0) by (intros; apply be_at_zero; intros; apply getb_zeros).
  unfold named, bsz, boff in *. destruct name as [bs|].
  - unfold CS in *. change 0x200 with 512. split_and!; field; done.
  - split_and!; field; auto.
Qed.

(** The header of the new image. *)
Lemma headed_fields :
  be_at headed 0 4 = QCOW2_MAGIC /\ be_at headed 4 4 = 3 /\ be_at headed 8 8 = boff /\ be_at headed 16 4 = bsz /\
  be_at headed 20 4 = 16 /\ be_at headed 24 8 = size /\ be_at headed 32 4 = 0 /\ be_at headed 36 4 = L /\
  be_at headed 40 8 = CS /\ be_at headed 48 8 = rtoff /\ be_at headed 56 4 = 1 /\ be_at headed 60 4 = 0 /\
  be_at headed 64 8 = 0 /\ be_at headed 96 4 = 4.
Proof.
  pose proof sizes. pose proof bsz_range. pose proof layout as (? & ? & ? & ? & ? & ?). destruct named_fields as (? & ? & ? & ?).
  assert (0 <= rtoff < 256 ^ 8 /\ 0 <= CS < 256 ^ 8) by (unfold rtoff, mdc, CS in *; lia).
  assert (Hz : forall a n, 20 <= a -> a + n <= 512 -> be_at named a n = 0).
  { intros a n Ha Hn. apply be_at_zero. intros k Hk. rewrite getb_named by lia. zcmp; (done || lia). }
  unfold headed. split_and!; field; auto; apply Hz; lia.
Qed.

(** Its bytes past the header. *)
Lemma headed_rest x :
  104 <= x -> ~ (rtoff <= x < rtoff + 8) ->
  getb headed x = if (512 <=? x) && (x <? 512 + bsz) then getb (default [] name) (x - 512) else 0.
Proof.
  intros Hx Hr. pose proof sizes. unfold headed. do 9 (rewrite getb_splice_other by fits_img). apply getb_named. lia.
Qed.

Lemma headed_rt : be_at headed rtoff 8 = rboff.
Proof.
  pose proof sizes. pose proof layout. assert (0 <= rboff < 256 ^ 8) by (unfold rboff, mdc, CS in *; lia). unfold headed. field. done.
Qed.

Lemma new_image_facts :
  len new_image = md * CS /\ (forall x, x < rboff -> getb new_image x = getb headed x) /\
  (forall c, 0 <= c < 32768 -> be_at new_image (rboff + 2 * c) 2 = if c <? md then 1 else 0).
Proof.
  pose proof sizes. pose proof layout. pose proof bsz_range. assert (Hmd0 : 0 <= md) by (unfold mdc; lia).
  destruct (refcounts_stored (Z.to_nat md) headed rboff 0) as (F1 & F2 & F3); rewrite ?Z2Nat.id by done; try lia.
  { rewrite len_headed. unfold CS in *. lia. }
  rewrite Z2Nat.id in F1, F2, F3 by done. fold new_image in F1, F2, F3. split_and!.
  - by rewrite F1, len_headed.
  - intros x Hx. apply F3. lia.
  - intros c Hc. rewrite F2 by (rewrite ?len_headed; unfold CS in *; lia). rewrite (proj2 (Z.leb_le 0 c)) by lia. cbn [andb].
    rewrite Z.add_0_l. destruct (c <? md); [done|]. apply be_at_zero. intros k Hk. rewrite headed_rest by lia. zcmp; (done || lia).
Qed.

Lemma new_field a n : 0 <= a -> a + n <= rboff -> be_at new_image a n = be_at headed a n.
Proof. intros Ha Hn. destruct new_image_facts as (_ & H & _). apply be_at_ext. intros k Hk. apply H. lia. Qed.

(** ** Opening it *)

Definition new_header : QcowHeader := mk_QcowHeader QCOW2_MAGIC 3 boff bsz 16 size 0 L CS rtoff 1 0 0 4.

Lemma new_head : from_bytes (sub new_image 0 104) = Ok new_header.
Proof.
  destruct new_image_facts as (Hl & _ & _). pose proof sizes. unfold CS in *.
  destruct headed_fields as (F0 & F4 & F8 & F16 & F20 & F24 & F32 & F36 & F40 & F48 & F56 & F60 & F64 & F96).
  rewrite from_bytes_fields by lia. rewrite !new_field by lia. rewrite F0, F4, F8, F16, F20, F24, F32, F36, F40, F48, F56, F60, F64, F96.
  done.
Qed.

Lemma new_l1_zero i : 0 <= i < L -> be_at new_image (CS + 8 * i) 8 = 0.
Proof.
  intros Hi. pose proof sizes. pose proof layout as (? & ? & ? & ? & ? & ?). pose proof bsz_range.
  assert (CS + 8 * i + 8 <= rtoff) by (unfold rtoff, CS in *; lia).
  rewrite new_field by lia. apply be_at_zero. intros k Hk. rewrite headed_rest by (unfold CS in *; lia).
  zcmp; (done || lia).
Qed.

Lemma new_rt s : 0 <= s < 8192 -> be_at new_image (rtoff + 8 * s) 8 = if s =? 0 then rboff else 0.
Proof.
  intros Hs. pose proof sizes. pose proof bsz_range. rewrite new_field by (unfold CS in *; lia).
  destruct (Z.eqb_spec s 0) as [->|]; [rewrite Z.add_0_r; exact headed_rt|].
  apply be_at_zero. intros k Hk. rewrite headed_rest by (unfold CS in *; lia). zcmp; (done || lia).
Qed.

Section Open.
Context {B : Type} {SB : StorageBackend B} {DB : Disk B}.
Context (open_named : list Z -> res serr B) (w : bool) (b : option B).
Context (Hopen : match name with
                 | Some bs => if len bs =? 0 then b = None else exists d, open_named bs = Ok d /\ b = Some d /\ disk_ok d
                 | None => b = None
                 end).

Definition new_backend : QcowBackend B :=
  mk_QcowBackend new_image new_header rtoff 1 (replicate (Z.to_nat L) 0) w b.

Lemma new_opens : from_file open_named new_image w = Ok new_backend.
Proof.
  destruct new_image_facts as (Hl & Hlow & _). pose proof sizes. pose proof layout as (? & ? & ? & ? & ? & ?). pose proof bsz_range.
  unfold from_file. rewrite Hl. replace (Z.min 104 (md * CS)) with 104 by lia. change (104 <? 72) with false. cbn iota.
  change (zeros (104 - 104)) with (@nil Z). rewrite app_nil_r, new_head. cbn [mbind res_bind].
  assert (El1 : read_l1 new_image new_header = Ok (replicate (Z.to_nat L) 0)).
  { unfold read_l1. cbn [new_header h_l1_table_offset h_l1_size]. rewrite (proj2 (Z.ltb_ge OFF_MAX CS)) by (unfold OFF_MAX, CS; lia).
    assert (CS + L * 8 <= rtoff) by (unfold rtoff, CS in *; lia).
    rewrite (proj2 (Z.ltb_ge (len new_image) _)) by lia. f_equal. apply list_getb_ext.
    - unfold len. rewrite length_fmap, length_seqZ, length_replicate. done.
    - unfold len. rewrite length_fmap, length_seqZ. intros k Hk. rewrite Z2Nat.id in Hk by lia. fold (zeros L). rewrite getb_zeros.
      rewrite getb_lookup, list_lookup_fmap, lookup_seqZ_lt by lia. cbn. rewrite be_value_sub by lia.
      replace (CS + (0 + Z.of_nat (Z.to_nat k)) * 8) with (CS + 8 * k) by lia. apply new_l1_zero. lia. }
  rewrite El1. cbn [mbind res_bind]. pose proof headed_rest as Hrest. assert (Eb : open_backing open_named new_image new_header = Ok b).
  { unfold open_backing. cbn [new_header h_backing_file_offset h_backing_file_size]. unfold boff, bsz in *.
    destruct name as [bs|] eqn:En; [|by rewrite Hopen]. destruct (Z.eqb_spec (len bs) 0) as [|Hne]; [by rewrite Hopen|].
    destruct Hopen as (d & Ed & -> & _). change (512 =? 0) with false. cbn [orb].
    rewrite (proj2 (Z.ltb_ge OFF_MAX 512)), (proj2 (Z.ltb_ge (len new_image) _)) by (unfold OFF_MAX; lia).
    assert (Es : sub new_image 512 (len bs) = bs).
    { apply list_getb_ext; rewrite len_sub by lia; [done|]. intros k Hk. rewrite getb_sub, Hlow, Hrest by lia. cbn [default]. zcmp; try lia. f_equal. lia. }
    by rewrite Es, Ed. }
  rewrite Eb. done.
Qed.

Abbreviation q := new_backend.

Lemma new_geometry : geometry new_header.
Proof.
  pose proof layout as (? & ? & ? & ? & ? & ?). split; cbn; try lia; [|unfold CS; lia].
  change (l2n new_header) with 8192. change (csz new_header) with CS. lia.
Qed.

Lemma new_blank : blank q.
Proof.
  pose proof layout as (? & ? & ? & ? & ? & ?). destruct new_image_facts as (Hl & _ & Hrb).
  assert (Elc : l1_clusters new_header = lc) by done.
  split; cbn [q_header q_rt_clusters q_rt_offset q_l1 q_backing q_file new_backend]; rewrite ?Elc; change (csz new_header) with CS.
  - exact new_geometry.
  - done.
  - done.
  - done.
  - intros i Hi. by apply new_l1_zero.
  - intros s Hs. rewrite new_rt by done. unfold rboff. by replace (1 + lc + 1) with (lc + 2) by lia.
  - intros c Hc. change (wid new_header) with 2. replace (lc + 2) with (1 + lc + 1) by lia. by apply Hrb.
  - exact Hl.
  - exact Hmd.
  - exact new_head.
  - destruct name as [bs|]; [destruct (len bs =? 0); [by rewrite Hopen|destruct Hopen as (d & _ & -> & ?); done]|by rewrite Hopen].
Qed.

Lemma new_consistent : Consistent q.
Proof. exact (blank_consistent q new_blank). Qed.

Lemma new_small : small q.
Proof.
  destruct new_image_facts as (Hl & _ & _). unfold small. cbn [q_file q_header new_backend]. change (csz new_header) with CS.
  rewrite Hl. unfold CS. lia.
Qed.

Lemma new_content x : content q x = backing_byte q x.
Proof. exact (blank_content q new_blank x). Qed.
End Open.
End Create.

(** C19: A created image opens: for every size whose metadata one refcount block
    can count and every backing name that fits the header cluster, [create]
    succeeds and [from_file] on its bytes gives a consistent disk of that size
    whose every byte reads as the backing image's, or as zero without one. *)
Theorem qcow_create_opens {B : Type} {SB : StorageBackend B} {DB : Disk B} (open_named : list Z -> res serr B) size name w b :
  0 <= size < 2 ^ 62 -> mdc size <= 32768 ->
  match name with Some bs => 512 + len bs <= CS | None => True end ->
  match name with
  | Some bs => if len bs =? 0 then b = None else exists d, open_named bs = Ok d /\ b = Some d /\ disk_ok d
  | None => b = None
  end ->
  exists img q, create size name = Ok img /\ from_file open_named img w = Ok q /\
    Consistent q /\ small q /\ capacity q = size /\ is_readonly q = negb w /\
    forall x, content q x = match b with Some d => if x <? capacity d then byte_at d x else 0 | None => 0 end.
Proof.
  intros Hsize Hmd Hname Hopen. exists (new_image size name), (new_backend size name w b). split_and!; try done.
  - by apply create_image.
  - by eapply new_opens.
  - by eapply new_consistent.
  - by apply new_small.
  - intros x. by erewrite new_content.
Qed.

(** ** Opening an image again *)

Section Reopen.
Context {B : Type} {SB : StorageBackend B} {DB : Disk B}.
Abbreviation qcow := (QcowBackend B).
Abbreviation cs q := (csz (q_header q)).
Context (open_named : list Z -> res serr B).

Definition reopened (q : qcow) (w : bool) : qcow :=
  mk_QcowBackend (q_file q) (live_header q) (q_rt_offset q) (q_rt_clusters q) (q_l1 q) w (q_backing q).

Lemma reopened_image q w rho : Image q rho -> Image (reopened q w) rho.
Proof.
  intros [S [R1 R2]]. split; [|split; [exact R1|exact R2]].
  constructor; try (first [exact (sh_rt q S)|exact (sh_rt_al q S)|exact (sh_l1_al q S)|exact (sh_l1_len q S)|exact (sh_l1_ptr q S)
    |exact (sh_l2_ptr q S)|exact (sh_rt_ptr q S)|exact (sh_l1_disk q S)|exact (sh_head q S)|exact (sh_backing q S)]).
  - destruct (sh_geo q S). by constructor.
  - pose proof (sh_rt q S) as [? _]. cbn. lia.
Qed.

Lemma reopened_consistent q w : Consistent q -> Consistent (reopened q w).
Proof. intros (rho & I & Hm). exists rho. split; [by apply reopened_image|exact Hm]. Qed.

Lemma reopened_content q w x : content (reopened q w) x = content q x.
Proof. done. Qed.

Lemma l1_on_disk q rho : Image q rho -> small q -> read_l1 (q_file q) (live_header q) = Ok (q_l1 q).
Proof.
  intros I Hsm. pose proof (sh_geo q (proj1 I)) as G. pose proof (geo_l1 _ G). pose proof (geo_l1_off _ G).
  pose proof (sh_l1_len q (proj1 I)) as Hl. unfold read_l1. cbn [live_header h_l1_table_offset h_l1_size].
  rewrite (proj2 (Z.ltb_ge OFF_MAX _)) by (unfold OFF_MAX; lia).
  destruct (Z.eq_dec (h_l1_size (q_header q)) 0) as [E0|Hn].
  { rewrite E0 in *. rewrite Z.eqb_refl. change (seqZ 0 0) with (@nil Z). cbn [fmap list_fmap].
    destruct (q_l1 q); [by case_match|]. unfold len in Hl. cbn in Hl. lia. }
  destruct (l1_entry_place q rho (h_l1_size (q_header q) - 1) I Hsm ltac:(lia)) as [_ Hend].
  rewrite (proj2 (Z.ltb_ge (len (q_file q)) _)) by lia. f_equal. unfold len in Hl.
  apply list_getb_ext; unfold len; rewrite length_fmap, length_seqZ; [lia|]. intros k Hk. rewrite Z2Nat.id in Hk by lia.
  rewrite getb_lookup, list_lookup_fmap, lookup_seqZ_lt by lia. cbn. rewrite Z2Nat.id, Z.add_0_l by lia.
  rewrite be_value_sub by lia. rewrite (Z.mul_comm k 8). apply (sh_l1_disk q (proj1 I)). lia.
Qed.

Lemma reopen_ok q w :
  Consistent q -> small q -> open_backing open_named (q_file q) (q_header q) = Ok (q_backing q) ->
  from_file open_named (q_file q) w = Ok (reopened q w).
Proof.
  intros (rho & I & _) Hsm Hb. pose proof (header_role q rho I) as [_ [_ Hin]]. pose proof (cs_pos q rho I).
  unfold from_file. replace (Z.min 104 (len (q_file q))) with 104 by lia. change (104 <? 72) with false. cbn iota.
  change (zeros (104 - 104)) with (@nil Z). rewrite app_nil_r, (sh_head q (proj1 I)). cbn [mbind res_bind].
  rewrite (l1_on_disk q rho I Hsm). cbn [mbind res_bind].
  change (open_backing open_named (q_file q) (live_header q)) with (open_backing open_named (q_file q) (q_header q)).
  rewrite Hb. done.
Qed.

(** The backing file's name lies in the header cluster, past the fields that change. *)
Definition name_in_header (h : QcowHeader) : Prop :=
  h_backing_file_offset h = 0 \/ h_backing_file_size h = 0 \/
  (60 <= h_backing_file_offset h /\ 0 <= h_backing_file_size h /\ h_backing_file_offset h + h_backing_file_size h <= csz h).

Lemma backing_kept q q' :
  Consistent q -> Consistent q' -> same_frame q q' -> name_in_header (q_header q) ->
  open_backing open_named (q_file q') (q_header q') = open_backing open_named (q_file q) (q_header q).
Proof.
  intros (rho & I & _) (rho' & I' & _) Sf Hn. pose proof (sf_header _ _ Sf) as Eh. rewrite Eh. unfold open_backing.
  destruct (Z.eqb_spec (h_backing_file_offset (q_header q)) 0) as [|H1]; [done|].
  destruct (Z.eqb_spec (h_backing_file_size (q_header q)) 0) as [|H2]; [done|]. cbn [orb].
  destruct Hn as [?|[?|(Hn1 & Hn2 & Hn3)]]; try done.
  pose proof (header_role q rho I) as [_ [_ Hin]]. pose proof (header_role q' rho' I') as [_ [_ Hin']]. rewrite Eh in Hin'.
  rewrite !(proj2 (Z.ltb_ge (len _) _)) by lia.
  enough (Es : sub (q_file q') (h_backing_file_offset (q_header q)) (h_backing_file_size (q_header q)) =
               sub (q_file q) (h_backing_file_offset (q_header q)) (h_backing_file_size (q_header q))) by (by rewrite Es).
  apply list_getb_ext; rewrite !len_sub by lia; [done|]. intros k Hk. rewrite !getb_sub by lia. apply (sf_head _ _ Sf); lia.
Qed.

(** ** Sequences of operations *)

(** Writes one after the other, each with its result. *)
Fixpoint writes (ws : list (Z * list Z)) (q : qcow) : qcow * list (res serr Z) :=
  match ws with
  | [] => (q, [])
  | (off, data) :: ws =>
      let '(q1, r) := qcow_write_at off data q in
      let '(q2, rs) := writes ws q1 in (q2, r :: rs)
  end.

(** The guest's bytes after the writes that succeeded. *)
Fixpoint replay (ws : list (Z * list Z)) (rs : list (res serr Z)) (f : Z -> Z) : Z -> Z :=
  match ws, rs with
  | (off, data) :: ws, r :: rs => replay ws rs (if is_ok r then over f off data else f)
  | _, _ => f
  end.

Lemma replay_ext ws : forall rs f g N,
  (forall x, 0 <= x < N -> f x = g x) -> forall x, 0 <= x < N -> replay ws rs f x = replay ws rs g x.
Proof.
  induction ws as [|[off data] ws IH]; intros [|r rs] f g N Hfg x Hx; cbn [replay]; auto.
  apply (IH rs _ _ N); [|done]. intros y Hy. destruct (is_ok r); [|by apply Hfg]. unfold over. case_match; [done|by apply Hfg].
Qed.

Lemma writes_grow ws : forall q, geometry (q_header q) -> len (q_file q) <= len (q_file (writes ws q).1) /\
  q_header (writes ws q).1 = q_header q.
Proof.
  induction ws as [|[off data] ws IH]; intros q G; cbn [writes]; [done|].
  destruct (grows_write off data q G) as [Hl Hh]. destruct (qcow_write_at off data q) as [q1 r]. cbn [fst] in *.
  destruct (IH q1 ltac:(by rewrite Hh)) as [Hl2 Hh2]. destruct (writes ws q1) as [q2 rs]. cbn [fst] in *. split; [lia|congruence].
Qed.

Lemma writes_spec ws : forall (q : qcow) q' rs,
  Consistent q -> Forall (fun '(off, _) => 0 <= off) ws -> writes ws q = (q', rs) -> small q' ->
  Consistent q' /\ same_frame q q' /\
  forall x, 0 <= x < h_size (q_header q) -> content q' x = replay ws rs (content q) x.
Proof.
  induction ws as [|[off data] ws IH]; intros q q' rs C Hoff E Hs; cbn [writes] in E.
  { simplify_eq. split; [done|]. split; [apply same_frame_refl|done]. }
  apply Forall_cons in Hoff as [Ho Hoff]. destruct C as (rho & I & Hm). pose proof (sh_geo q (proj1 I)) as G.
  assert (C : Consistent q) by (by exists rho). destruct (qcow_write_at off data q) as [q1 r] eqn:E1.
  destruct (writes ws q1) as [q2 rs1] eqn:E2. simplify_eq.
  destruct (grows_write off data q G) as [Hl Hh]. rewrite E1 in Hl, Hh. cbn [fst] in Hl, Hh.
  pose proof (writes_grow ws q1 ltac:(by rewrite Hh)) as [Hl2 Hh2]. rewrite E2 in Hl2, Hh2. cbn [fst] in Hl2, Hh2.
  assert (Hs1 : small q1) by (unfold small in *; rewrite Hh2 in Hs; lia).
  destruct (wps_elim _ _ _ _ _ (write_spec q off data C Ho) E1 Hs1) as (C1 & Sf1 & Hr). destruct (IH q1 q' rs1 C1 Hoff E2 Hs) as (C2 & Sf2 & Hc).
  split; [done|]. split; [by eapply same_frame_trans|]. intros x Hx. rewrite Hc by (by rewrite Hh). cbn [replay].
  apply (replay_ext ws rs1 _ _ (h_size (q_header q))); [|done]. intros y Hy.
  destruct Hr as [(_ & -> & Hov)|([[_ ->]| ->] & Hsame)]; cbn [is_ok]; auto.
Qed.

(** C4: Writes survive a restart: after any sequence of writes to a consistent
    image, opening the file it left behind succeeds and shows the guest the
    disk it would see had every successful write been applied to the bytes of
    the start, and no other. *)
Theorem qcow_reopen_replays (q q' : qcow) ws rs w :
  Consistent q -> name_in_header (q_header q) ->
  open_backing open_named (q_file q) (q_header q) = Ok (q_backing q) ->
  Forall (fun '(off, _) => 0 <= off) ws -> writes ws q = (q', rs) -> small q' ->
  exists q2, from_file open_named (q_file q') w = Ok q2 /\ Consistent q2 /\ capacity q2 = capacity q /\
    forall x, 0 <= x < capacity q -> content q2 x = replay ws rs (content q) x.
Proof.
  intros C Hn Hb Ho E Hs. destruct (writes_spec ws q q' rs C Ho E Hs) as (C' & Sf & Hc). exists (reopened q' w). split_and!.
  - apply reopen_ok; [done..|]. rewrite (backing_kept q q' C C' Sf Hn), (sf_backing _ _ Sf). exact Hb.
  - by apply reopened_consistent.
  - cbn. by rewrite (sf_header _ _ Sf).
  - intros x Hx. rewrite reopened_content. by apply Hc.
Qed.
End Reopen.
