(* ===== verification/Block.v ===== *)
(** * The virtio block device (enlil-devices/src/block.rs)

    Request parsing, the six request types, the discard and write-zeroes
    segments and the configuration space, over any storage backend.  The
    theorems are proved against the interface [Disk] alone, so they hold for
    the in-memory, the raw and the qcow2 backend and for chains of them.

    A request is a computation on the device that returns the data buffer, the
    status byte and the count.  Guest-controlled arithmetic that is not
    checked in the source ([sector * 512]) panics on overflow here. *)

From Stdlib Require Import ZArith Lia Bool.
From stdpp Require Import base decidable numbers list.
From S2P Require Import Prelude Rust Storage.

Abbreviation VIRTIO_BLK_T_IN := 0 (only parsing).
Abbreviation VIRTIO_BLK_T_OUT := 1 (only parsing).
Abbreviation VIRTIO_BLK_T_FLUSH := 4 (only parsing).
Abbreviation VIRTIO_BLK_T_GET_ID := 8 (only parsing).
Abbreviation VIRTIO_BLK_T_DISCARD := 11 (only parsing).
Abbreviation VIRTIO_BLK_T_WRITE_ZEROES := 13 (only parsing).

Abbreviation VIRTIO_BLK_S_OK := 0 (only parsing).
Abbreviation VIRTIO_BLK_S_IOERR := 1 (only parsing).
Abbreviation VIRTIO_BLK_S_UNSUPP := 2 (only parsing).

Abbreviation VIRTIO_BLK_WRITE_ZEROES_FLAG_UNMAP := 0x1 (only parsing).

(** Feature bits. *)
Abbreviation SIZE_MAX := (1 .<< 1) (only parsing).
Abbreviation SEG_MAX := (1 .<< 2) (only parsing).
Abbreviation FEAT_RO := (1 .<< 5) (only parsing).
Abbreviation BLK_SIZE := (1 .<< 6) (only parsing).
Abbreviation FEAT_FLUSH := (1 .<< 9) (only parsing).
Abbreviation TOPOLOGY := (1 .<< 10) (only parsing).
Abbreviation FEAT_DISCARD := (1 .<< 13) (only parsing).
Abbreviation WRITE_ZEROES := (1 .<< 14) (only parsing).
Abbreviation VERSION_1 := (1 .<< 32) (only parsing).

Record BlockConfig := mk_BlockConfig {
  cfg_capacity : Z; cfg_size_max : Z; cfg_seg_max : Z;
  cylinders : Z; heads : Z; sectors : Z; blk_size : Z;
  physical_block_exp : Z; alignment_offset : Z; min_io_size : Z; opt_io_size : Z;
  max_discard_sectors : Z; max_discard_seg : Z; discard_sector_alignment : Z;
  max_write_zeroes_sectors : Z; max_write_zeroes_seg : Z; write_zeroes_may_unmap : Z;
}.

Record BlockRequestHeader := mk_BlockRequestHeader { request_type : Z; reserved : Z; sector : Z }.

(** The little-endian integer in [n] bytes at [off]. *)
Definition le_at (l : list Z) (off n : Z) : Z := le_value (sub l off n).

Definition header_from_bytes (bytes : list Z) : option BlockRequestHeader :=
  if len bytes <? 16 then None
  else Some (mk_BlockRequestHeader (le_at bytes 0 4) (le_at bytes 4 4) (le_at bytes 8 8)).

Record DiscardWriteZeroesSegment := mk_Segment { seg_sector : Z; num_sectors : Z; seg_flags : Z }.
Abbreviation SEG_SIZE := 16 (only parsing).

Definition seg_from_bytes (b : list Z) : option DiscardWriteZeroesSegment :=
  if len b <? SEG_SIZE then None
  else Some (mk_Segment (le_at b 0 8) (le_at b 8 4) (le_at b 12 4)).

Record BlockStats := mk_BlockStats {
  st_reads : Z; st_writes : Z; st_flushes : Z; st_discards : Z;
  st_write_zeroes : Z; st_read_bytes : Z; st_write_bytes : Z; st_errors : Z;
}.

Record VirtioBlockDevice (B : Type) := mk_VirtioBlockDevice {
  backend : B;
  config : BlockConfig;
  features : Z;
  device_id : list Z;
  stats : BlockStats;
}.
Arguments mk_VirtioBlockDevice {B} _ _ _ _ _.
Arguments backend {B} _.
Arguments config {B} _.
Arguments features {B} _.
Arguments device_id {B} _.
Arguments stats {B} _.

Section Block.
Context {B : Type} {SB : StorageBackend B}.
Abbreviation dev := (VirtioBlockDevice B).
Abbreviation dm A := (M dev serr A).

Definition with_backend (d : dev) (b : B) : dev := mk_VirtioBlockDevice b (config d) (features d) (device_id d) (stats d).
Definition with_stats (d : dev) (s : BlockStats) : dev := mk_VirtioBlockDevice (backend d) (config d) (features d) (device_id d) s.

Definition VirtioBlockDevice_new (b : B) (id : list Z) : dev :=
  let features := VERSION_1 .| SIZE_MAX .| SEG_MAX .| BLK_SIZE .| FEAT_FLUSH in
  let features := if is_readonly b then features .| FEAT_RO else features in
  let features := features .| (FEAT_DISCARD .| WRITE_ZEROES) in
  let features := features .| TOPOLOGY in
  let config := mk_BlockConfig (capacity b / 512) 1048576 128 0 0 0 512 3 0 8 0
    0x00400000 256 1 0x00400000 256 0 in
  let n := Z.min (len id) 20 in
  mk_VirtioBlockDevice b config features (splice (zeros 20) 0 (sub id 0 n)) (mk_BlockStats 0 0 0 0 0 0 0 0).

Definition config_as_bytes (d : dev) : list Z :=
  let c := config d in
  le_bytes 8 (cfg_capacity c) ++ le_bytes 4 (cfg_size_max c) ++ le_bytes 4 (cfg_seg_max c) ++
  le_bytes 2 (cylinders c) ++ [heads c] ++ [sectors c] ++ le_bytes 4 (blk_size c) ++
  [physical_block_exp c] ++ [alignment_offset c] ++ le_bytes 2 (min_io_size c) ++ le_bytes 4 (opt_io_size c) ++
  [0] ++ [0] ++ le_bytes 2 0 ++
  le_bytes 4 (max_discard_sectors c) ++ le_bytes 4 (max_discard_seg c) ++ le_bytes 4 (discard_sector_alignment c) ++
  le_bytes 4 (max_write_zeroes_sectors c) ++ le_bytes 4 (max_write_zeroes_seg c) ++ [write_zeroes_may_unmap c] ++ [0; 0; 0].

(** Bytes past the end of the configuration read as zero. *)
Definition config_value (bytes : list Z) (offset : Z) (n : nat) : Z :=
  fold_left (fun val i => val .| (getb bytes (offset + i) .<< (i * 8))) (seqZ 0 (Z.of_nat n)) 0.

Definition read_config (d : dev) (offset size : Z) : Z :=
  let config_bytes := config_as_bytes d in
  if len config_bytes <=? offset then 0
  else if size =? 1 then getb config_bytes offset
  else if size =? 2 then getb config_bytes offset .| (getb config_bytes (offset + 1) .<< 8)
  else if size =? 4 then config_value config_bytes offset 4
  else if size =? 8 then config_value config_bytes offset 8
  else 0.

(** A call of the backend whose failure the device reports itself. *)
Definition try_backend {A} (m : M B serr A) : dm (res serr A) := fun d =>
  let '(b, r) := m (backend d) in
  (with_backend d b, match r with Panic => Panic | r => Ok r end).

Definition u32_sat (n : Z) : Z := Z.min n (2 ^ 32 - 1).

(** The counters are [u64]: [+=] panics on overflow. *)
Definition on_stats (f : BlockStats -> res serr BlockStats) : dm unit := fun d =>
  match f (stats d) with Ok s => (with_stats d s, Ok tt) | Err e => (d, Err e) | Panic => (d, Panic) end.

Definition count_error : dm unit := on_stats (fun s =>
  e ← radd (st_errors s) 1;
  Ok (mk_BlockStats (st_reads s) (st_writes s) (st_flushes s) (st_discards s) (st_write_zeroes s) (st_read_bytes s) (st_write_bytes s) e)).
Definition count_read (n : Z) : dm unit := on_stats (fun s =>
  r ← radd (st_reads s) 1;
  rb ← radd (st_read_bytes s) (u32_sat n);
  Ok (mk_BlockStats r (st_writes s) (st_flushes s) (st_discards s) (st_write_zeroes s) rb (st_write_bytes s) (st_errors s))).
Definition count_write (n : Z) : dm unit := on_stats (fun s =>
  w ← radd (st_writes s) 1;
  wb ← radd (st_write_bytes s) (u32_sat n);
  Ok (mk_BlockStats (st_reads s) w (st_flushes s) (st_discards s) (st_write_zeroes s) (st_read_bytes s) wb (st_errors s))).
Definition count_flush : dm unit := on_stats (fun s =>
  f ← radd (st_flushes s) 1;
  Ok (mk_BlockStats (st_reads s) (st_writes s) f (st_discards s) (st_write_zeroes s) (st_read_bytes s) (st_write_bytes s) (st_errors s))).
Definition count_discard : dm unit := on_stats (fun s =>
  c ← radd (st_discards s) 1;
  Ok (mk_BlockStats (st_reads s) (st_writes s) (st_flushes s) c (st_write_zeroes s) (st_read_bytes s) (st_write_bytes s) (st_errors s))).
Definition count_write_zeroes : dm unit := on_stats (fun s =>
  z ← radd (st_write_zeroes s) 1;
  Ok (mk_BlockStats (st_reads s) (st_writes s) (st_flushes s) (st_discards s) z (st_read_bytes s) (st_write_bytes s) (st_errors s))).

(** Every refusal counts an error and reports [IOERR]. *)
Definition ioerr : dm (Z * Z) := count_error ;; mret (VIRTIO_BLK_S_IOERR, 0).

Definition handle_read (sector : Z) (buf : list Z) : dm (list Z * (Z * Z)) :=
  offset ← lift (rmul sector 512);
  d ← get;
  let '(buf', r) := read_at (backend d) offset buf in
  match r with
  | Ok n => count_read n ;; mret (buf', (VIRTIO_BLK_S_OK, n))
  | Err _ => s ← ioerr; mret (buf', s)
  | Panic => panic
  end.

Definition handle_write (sector : Z) (buf : list Z) : dm (Z * Z) :=
  d ← get;
  if is_readonly (backend d) then ioerr
  else
    offset ← lift (rmul sector 512);
    r ← try_backend (write_at offset buf);
    match r with
    | Ok n => count_write n ;; mret (VIRTIO_BLK_S_OK, n)
    | _ => ioerr
    end.

Definition handle_flush : dm (Z * Z) :=
  r ← try_backend flush;
  match r with
  | Ok _ => count_flush ;; mret (VIRTIO_BLK_S_OK, 0)
  | _ => ioerr
  end.

Definition handle_get_id (buf : list Z) : dm (list Z * (Z * Z)) :=
  d ← get;
  let n := Z.min (len buf) 20 in
  mret (splice buf 0 (sub (device_id d) 0 n), (VIRTIO_BLK_S_OK, n)).

Definition parse_dwz_segments (buf : list Z) (max_seg : Z) : option (list DiscardWriteZeroesSegment) :=
  let stride := SEG_SIZE in
  if (len buf =? 0) || negb (len buf mod stride =? 0) then None
  else
    let count := len buf / stride in
    if max_seg <? count then None
    else mapM (fun i => seg_from_bytes (drop (Z.to_nat (i * stride)) buf)) (seqZ 0 count).

Definition dwz_range (d : dev) (seg : DiscardWriteZeroesSegment) (max_sectors : Z) : option (Z * Z) :=
  if (num_sectors seg =? 0) || (max_sectors <? num_sectors seg) then None
  else
    offset ← checked_mul (seg_sector seg) 512;
    n ← checked_mul (num_sectors seg) 512;
    end_ ← checked_add offset n;
    if capacity (backend d) <? end_ then None else Some (offset, n).

(** The loop of [handle_discard]; [false] is an early return. *)
Fixpoint discard_segs (segs : list DiscardWriteZeroesSegment) : dm bool :=
  match segs with
  | [] => mret true
  | seg :: segs =>
      d ← get;
      match (if seg_flags seg =? 0 then dwz_range d seg (max_discard_sectors (config d)) else None) with
      | None => mret false
      | Some (offset, n) =>
          r ← try_backend (trim offset n);
          if is_ok r then discard_segs segs else mret false
      end
  end.

Definition handle_discard (seg_bytes : list Z) : dm (Z * Z) :=
  d ← get;
  if is_readonly (backend d) then ioerr
  else match parse_dwz_segments seg_bytes (max_discard_seg (config d)) with
       | None => ioerr
       | Some segs =>
           done ← discard_segs segs;
           if (done : bool) then count_discard ;; mret (VIRTIO_BLK_S_OK, 0) else ioerr
       end.

Abbreviation chunk_size := (64 * 1024) (only parsing).

(** The inner loop of [handle_write_zeroes]. *)
Fixpoint zero_chunks (fuel : nat) (at_ remaining : Z) : dm bool :=
  if negb (0 <? remaining) then mret true
  else match fuel with
       | O => panic
       | S fuel =>
           let this := Z.min remaining chunk_size in
           r ← try_backend (write_at at_ (zeros this));
           if match r with Ok n => n =? this | _ => false end then
             at_ ← lift (radd at_ this);
             zero_chunks fuel at_ (remaining - this)
           else mret false
       end.

Fixpoint zero_segs (segs : list DiscardWriteZeroesSegment) : dm bool :=
  match segs with
  | [] => mret true
  | seg :: segs =>
      if negb (seg_flags seg .&~ VIRTIO_BLK_WRITE_ZEROES_FLAG_UNMAP =? 0) then mret false
      else
        d ← get;
        match dwz_range d seg (max_write_zeroes_sectors (config d)) with
        | None => mret false
        | Some (offset, n) =>
            ok ← zero_chunks (Z.to_nat n) offset n;
            if (ok : bool) then zero_segs segs else mret false
        end
  end.

Definition handle_write_zeroes (seg_bytes : list Z) : dm (Z * Z) :=
  d ← get;
  if is_readonly (backend d) then ioerr
  else match parse_dwz_segments seg_bytes (max_write_zeroes_seg (config d)) with
       | None => ioerr
       | Some segs =>
           done ← zero_segs segs;
           if (done : bool) then count_write_zeroes ;; mret (VIRTIO_BLK_S_OK, 0) else ioerr
       end.

Definition process_request (header_bytes data_buf : list Z) : dm (list Z * (Z * Z)) :=
  match header_from_bytes header_bytes with
  | None => mret (data_buf, (VIRTIO_BLK_S_IOERR, 0))
  | Some header =>
      let t := request_type header in
      if t =? VIRTIO_BLK_T_IN then handle_read (sector header) data_buf
      else if t =? VIRTIO_BLK_T_OUT then s ← handle_write (sector header) data_buf; mret (data_buf, s)
      else if t =? VIRTIO_BLK_T_FLUSH then s ← handle_flush; mret (data_buf, s)
      else if t =? VIRTIO_BLK_T_GET_ID then handle_get_id data_buf
      else if t =? VIRTIO_BLK_T_DISCARD then s ← handle_discard data_buf; mret (data_buf, s)
      else if t =? VIRTIO_BLK_T_WRITE_ZEROES then s ← handle_write_zeroes data_buf; mret (data_buf, s)
      else count_error ;; mret (data_buf, (VIRTIO_BLK_S_UNSUPP, 0))
  end.
End Block.

(** ** Verified against the interface of the backend *)

Section Spec.
Context {B : Type} {SB : StorageBackend B} {DB : Disk B}.
Abbreviation dev := (VirtioBlockDevice B).
Abbreviation dm A := (M dev serr A).
Abbreviation disk d := (byte_at (backend d)).
Abbreviation cap d := (capacity (backend d)).

(** No counter is near its maximum. *)
Definition calm (s : BlockStats) : Prop :=
  st_reads s < 2 ^ 63 /\ st_writes s < 2 ^ 63 /\ st_flushes s < 2 ^ 63 /\ st_discards s < 2 ^ 63 /\
  st_write_zeroes s < 2 ^ 63 /\ st_read_bytes s < 2 ^ 63 /\ st_write_bytes s < 2 ^ 63 /\ st_errors s < 2 ^ 63.

Record dev_ok (d : dev) : Prop := {
  dv_disk : disk_ok (backend d);
  dv_limits : in_limits (backend d);
  dv_calm : calm (stats d);
}.

(** What a request keeps: the backend stays a disk of the same size and mode,
    and the device its configuration. *)
Record kept (d d' : dev) : Prop := {
  kp_disk : disk_ok (backend d');
  kp_cap : cap d' = cap d;
  kp_ro : is_readonly (backend d') = is_readonly (backend d);
  kp_config : config d' = config d;
  kp_id : device_id d' = device_id d;
  kp_features : features d' = features d;
}.

Lemma kept_refl d : disk_ok (backend d) -> kept d d.
Proof. by split. Qed.

Lemma kept_trans d1 d2 d3 : kept d1 d2 -> kept d2 d3 -> kept d1 d3.
Proof. intros [] []. split; congruence. Qed.

Definition same_disk (d d' : dev) : Prop := forall g, 0 <= g < cap d -> disk d' g = disk d g.

(** The counters change nothing else. *)
Lemma on_stats_ok (f : BlockStats -> res serr BlockStats) (d : dev) s :
  f (stats d) = Ok s -> on_stats f d = (with_stats d s, Ok tt).
Proof. intros E. unfold on_stats. by rewrite E. Qed.

Lemma stat_counted (d : dev) (m : dm unit) :
  calm (stats d) -> m = count_error \/ (exists n, 0 <= n /\ (m = count_read n \/ m = count_write n)) \/ m = count_flush \/ m = count_discard \/ m = count_write_zeroes ->
  exists s, m d = (with_stats d s, Ok tt).
Proof.
  intros (? & ? & ? & ? & ? & ? & ? & ?) Hm.
  assert (Hu : forall n, u32_sat n <= 2 ^ 32 - 1) by (intros; unfold u32_sat; lia).
  assert (Hr : forall a b, a < 2 ^ 63 -> b <= 2 ^ 32 - 1 -> @radd serr a b = Ok (a + b)).
  { intros a b Ha Hb. unfold radd. by rewrite (proj2 (Z.ltb_lt _ _)) by lia. }
  destruct Hm as [->|[(n & Hn & [->| ->])|[->|[->| ->]]]]; eexists; apply on_stats_ok; rewrite !Hr by (done || lia); cbn [mbind res_bind];
    rewrite ?Hr by (auto || lia); done.
Qed.

Lemma ioerr_ok (d : dev) : calm (stats d) -> exists s, ioerr d = (with_stats d s, Ok (VIRTIO_BLK_S_IOERR, 0)).
Proof.
  intros Hc. destruct (stat_counted d count_error Hc) as [s E]; [by left|]. exists s. unfold ioerr. by rewrite (bind_run _ _ _ _ _ E).
Qed.

Lemma stats_backend {A} f (a : A) (d : dev) : backend ((on_stats f ;; mret a) d).1 = backend d.
Proof. unfold mbind, M_bind, on_stats. by destruct (f (stats d)). Qed.

(** ** Reads *)

Definition blk_read_post (d d' : dev) (off : Z) (buf : list Z) (r : res serr (list Z * (Z * Z))) : Prop :=
  exists buf' n, r = Ok (buf', (VIRTIO_BLK_S_OK, n)) /\ backend d' = backend d /\ kept d d' /\
    len buf' = len buf /\ clip (cap d) off (len buf) <= n <= len buf /\
    forall k, 0 <= k < clip (cap d) off (len buf) -> getb buf' k = disk d (off + k).

Lemma handle_read_spec (d : dev) sec buf :
  dev_ok d -> 0 <= sec -> sec * 512 <= OFF_MAX -> sec * 512 + len buf < 2 ^ 64 ->
  wp (handle_read sec buf) (fun d' r => blk_read_post d d' (sec * 512) buf r) d.
Proof.
  intros [Hd Hlim Hc] H0 H1 H2. pose proof (len_nonneg buf). assert (Hoff : 0 <= sec * 512) by lia. unfold handle_read.
  wstep_lift (unfold rmul; rewrite (proj2 (Z.ltb_lt _ _)) by (unfold OFF_MAX in *; lia); reflexivity).
  wstep reflexivity. destruct (read_at (backend d) (sec * 512) buf) as [buf' r] eqn:E.
  destruct (disk_read _ _ _ _ _ Hd (conj Hoff H1) H2 E) as (Hl & (n & -> & Hn) & Hk).
  destruct (stat_counted d (count_read n) Hc) as [s Es]; [right; left; exists n; split; [unfold clip in Hn; lia|by left]|].
  wstep (exact Es). apply wp_ret. exists buf', n. split_and!; try done; try lia. intros k Hk'.
  assert (Hkn : 0 <= k < len buf) by lia. specialize (Hk k Hkn). by rewrite (proj2 (Z.ltb_lt _ _)) in Hk by lia.
Qed.

(** ** Writes *)

Definition blk_write_post (d d' : dev) (off : Z) (buf : list Z) (r : res serr (Z * Z)) : Prop :=
  kept d d' /\
  ((is_readonly (backend d) = false /\ r = Ok (VIRTIO_BLK_S_OK, clip (cap d) off (len buf)) /\
    forall g, 0 <= g < cap d -> disk d' g = over (disk d) off buf g) \/
   (r = Ok (VIRTIO_BLK_S_IOERR, 0) /\ same_disk d d' /\
    (is_readonly (backend d) = true \/ exists e, write_at off buf (backend d) = (backend d', Err e)))).

Lemma handle_write_spec (d : dev) sec buf :
  dev_ok d -> 0 <= sec -> sec * 512 + len buf < 2 ^ 64 ->
  wp (handle_write sec buf) (fun d' r => in_limits (backend d') -> blk_write_post d d' (sec * 512) buf r) d.
Proof.
  intros [Hd Hlim Hc] H0 H2. pose proof (len_nonneg buf). assert (Hoff : 0 <= sec * 512) by lia. unfold handle_write. wstep reflexivity.
  destruct (is_readonly (backend d)) eqn:Hro.
  { destruct (ioerr_ok d Hc) as [s E]. eapply wp_eq; [exact E|]. intros _. split; [by split|]. right. split_and!; [done..|by left]. }
  wstep_lift (unfold rmul; rewrite (proj2 (Z.ltb_lt _ _)) by lia; reflexivity).
  destruct (write_at (sec * 512) buf (backend d)) as [b r] eqn:E. intros Hl.
  assert (Hlb : in_limits b).
  { revert Hl. unfold mbind at 1, M_bind at 1, try_backend. rewrite E.
    destruct r as [n|e|]; unfold ioerr, count_write, count_error; rewrite ?stats_backend; done. }
  destruct (disk_write _ _ _ _ _ Hd Hoff H2 E Hlb) as (Hd' & Hcap & Hro' & Hr).
  unfold wp. destruct Hr as [(_ & -> & Hov)|((e & ->) & Hs)].
  - assert (Et : try_backend (write_at (sec * 512) buf) d = (with_backend d b, Ok (Ok (clip (cap d) (sec * 512) (len buf)))))
      by (unfold try_backend; by rewrite E).
    rewrite (bind_run _ _ _ _ _ Et). destruct (stat_counted (with_backend d b) (count_write (clip (cap d) (sec * 512) (len buf))) Hc) as [s Es].
    { right. left. eexists. split; [|by right]. unfold clip. lia. }
    rewrite (bind_run _ _ _ _ _ Es). cbn. split; [by split|]. by left.
  - assert (Et : try_backend (write_at (sec * 512) buf) d = (with_backend d b, Ok (Err e))) by (unfold try_backend; by rewrite E).
    rewrite (bind_run _ _ _ _ _ Et). destruct (ioerr_ok (with_backend d b) Hc) as [s Es]. rewrite Es. cbn.
    split; [by split|]. right. split_and!; [done..|right]. by exists e.
Qed.

(** ** Segments *)

Definition seg_covers (seg : DiscardWriteZeroesSegment) (g : Z) : Prop :=
  seg_sector seg * 512 <= g < (seg_sector seg + num_sectors seg) * 512.
Definition covered (segs : list DiscardWriteZeroesSegment) (g : Z) : Prop := Exists (fun seg => seg_covers seg g) segs.
Definition seg_nonneg (seg : DiscardWriteZeroesSegment) : Prop := 0 <= seg_sector seg /\ 0 <= num_sectors seg /\ 0 <= seg_flags seg.

(** A segment the device may act on: flags it knows, a length between one
    sector and the maximum it advertises, and sectors inside the disk. *)
Definition seg_valid (flags_ok : Z -> Prop) (m : Z) (d : dev) (seg : DiscardWriteZeroesSegment) : Prop :=
  flags_ok (seg_flags seg) /\ 0 < num_sectors seg <= m /\ (seg_sector seg + num_sectors seg) * 512 <= cap d.

Lemma seg_valid_kept flags_ok m d d1 seg : kept d d1 -> seg_valid flags_ok m d1 seg <-> seg_valid flags_ok m d seg.
Proof. intros K. unfold seg_valid. by rewrite (kp_cap _ _ K). Qed.

#[export] Instance covered_dec segs g : Decision (covered segs g).
Proof. unfold covered, seg_covers. apply _. Defined.

Lemma dwz_range_spec (d : dev) seg m :
  seg_nonneg seg -> disk_ok (backend d) ->
  (exists off n, dwz_range d seg m = Some (off, n) /\ off = seg_sector seg * 512 /\ n = num_sectors seg * 512 /\
     0 < num_sectors seg <= m /\ off + n <= cap d) \/
  (dwz_range d seg m = None /\ ~ (0 < num_sectors seg <= m /\ (seg_sector seg + num_sectors seg) * 512 <= cap d)).
Proof.
  intros (H0 & H1 & _) Hd. pose proof (disk_capacity _ Hd) as Hcap. unfold OFF_MAX in Hcap. unfold dwz_range, checked_mul, checked_add.
  destruct (Z.eqb_spec (num_sectors seg) 0); [right; split; [done|lia]|]. destruct (Z.ltb_spec m (num_sectors seg)); [right; split; [done|lia]|]. cbn [orb].
  destruct (Z.ltb_spec (seg_sector seg * 512) (2 ^ 64)); [|right; split; [done|lia]].
  destruct (Z.ltb_spec (num_sectors seg * 512) (2 ^ 64)); [|right; split; [done|lia]]. cbn [mbind option_bind].
  destruct (Z.ltb_spec (seg_sector seg * 512 + num_sectors seg * 512) (2 ^ 64)); [|right; split; [done|lia]]. cbn [mbind option_bind].
  destruct (Z.ltb_spec (cap d) (seg_sector seg * 512 + num_sectors seg * 512)); [right; split; [done|lia]|].
  left. eexists _, _. split_and!; try done; lia.
Qed.

(** Only the unmap bit of a flag word. *)
Lemma unmap_flags f : 0 <= f -> f .&~ VIRTIO_BLK_WRITE_ZEROES_FLAG_UNMAP = 0 <-> f = 0 \/ f = 1.
Proof.
  intros Hf. change (f .&~ VIRTIO_BLK_WRITE_ZEROES_FLAG_UNMAP) with (Z.ldiff f (Z.ones 1)). rewrite Z.ldiff_ones_r by lia.
  rewrite Z.shiftl_mul_pow2, Z.shiftr_div_pow2 by lia. change (2 ^ 1) with 2. pose proof (Z.div_mod f 2 ltac:(done)). pose proof (Z.mod_pos_bound f 2 ltac:(done)). lia.
Qed.

(** ** What the segments change *)

(** Some bytes of [P] zeroed and no other byte changed; all of them zeroed. *)
Definition trims (d d' : dev) (P : Z -> Prop) : Prop :=
  forall g, 0 <= g < cap d -> disk d' g = disk d g \/ (disk d' g = 0 /\ P g).
Definition wipes (d d' : dev) (P : Z -> Prop) : Prop :=
  forall g, 0 <= g < cap d -> (P g -> disk d' g = 0) /\ (~ P g -> disk d' g = disk d g).

(** The segments are taken in order, up to the first that is not valid or on
    which the backend fails: what came before it was done, it was done in part
    when the backend failed and not at all otherwise, and no later segment
    was touched. *)
Definition stops (valid : DiscardWriteZeroesSegment -> Prop) (did : dev -> dev -> list DiscardWriteZeroesSegment -> Prop)
    (fails : DiscardWriteZeroesSegment -> B -> B -> Prop) (d d' : dev) (segs : list DiscardWriteZeroesSegment) : Prop :=
  exists pre seg post d1, segs = pre ++ seg :: post /\ Forall valid pre /\ kept d d1 /\ did d d1 pre /\
    ((~ valid seg /\ backend d' = backend d1) \/ (valid seg /\ fails seg (backend d1) (backend d') /\ trims d1 d' (seg_covers seg))).

(** The backend trimmed the segments one after the other. *)
Fixpoint trimmed (segs : list DiscardWriteZeroesSegment) (b b' : B) : Prop :=
  match segs with
  | [] => b' = b
  | seg :: segs => exists b1 u, trim (seg_sector seg * 512) (num_sectors seg * 512) b = (b1, Ok u) /\ trimmed segs b1 b'
  end.

Definition discarded (d d' : dev) (segs : list DiscardWriteZeroesSegment) : Prop :=
  trimmed segs (backend d) (backend d') /\ trims d d' (covered segs).
Definition wiped (d d' : dev) (segs : list DiscardWriteZeroesSegment) : Prop := wipes d d' (covered segs).

(** The trim of the segment failed; a write of zeros to a part of it failed, leaving [b']. *)
Definition trim_fails (seg : DiscardWriteZeroesSegment) (b b' : B) : Prop :=
  exists e, trim (seg_sector seg * 512) (num_sectors seg * 512) b = (b', Err e).
Definition write_fails (lo hi : Z) (b' : B) : Prop :=
  exists b e at_ n, write_at at_ (zeros n) b = (b', Err e) /\ lo <= at_ /\ 0 < n /\ at_ + n <= hi.
Definition zero_fails (seg : DiscardWriteZeroesSegment) (_ : B) : B -> Prop :=
  write_fails (seg_sector seg * 512) ((seg_sector seg + num_sectors seg) * 512).

Definition discards (d d' : dev) (segs : list DiscardWriteZeroesSegment) (fin : bool) : Prop :=
  let valid := seg_valid (fun f => f = 0) (max_discard_sectors (config d)) d in
  if fin then Forall valid segs /\ discarded d d' segs else stops valid discarded trim_fails d d' segs.

Definition zeroes (d d' : dev) (segs : list DiscardWriteZeroesSegment) (fin : bool) : Prop :=
  let valid := seg_valid (fun f => f = 0 \/ f = 1) (max_write_zeroes_sectors (config d)) d in
  if fin then Forall valid segs /\ wiped d d' segs else stops valid wiped zero_fails d d' segs.

Lemma covered_cons seg segs g : covered (seg :: segs) g <-> seg_covers seg g \/ covered segs g.
Proof. apply Exists_cons. Qed.

Lemma trims_trans d d1 d2 seg segs : cap d1 = cap d ->
  trims d d1 (seg_covers seg) -> trims d1 d2 (covered segs) -> trims d d2 (covered (seg :: segs)).
Proof.
  intros Ec H1 H2 g Hg. unfold trims in H2. rewrite Ec in H2. rewrite covered_cons. destruct (H2 g Hg) as [->|[-> ?]]; [|auto].
  destruct (H1 g Hg) as [?|[? ?]]; auto.
Qed.

Lemma wipes_trans d d1 d2 seg segs : cap d1 = cap d ->
  wipes d d1 (seg_covers seg) -> wipes d1 d2 (covered segs) -> wipes d d2 (covered (seg :: segs)).
Proof.
  intros Ec H1 H2 g Hg. unfold wipes in H2. rewrite Ec in H2. rewrite covered_cons. destruct (H1 g Hg) as [A1 B1], (H2 g Hg) as [A2 B2].
  split; intros Hp; [|rewrite B2, B1; tauto]. destruct (decide (covered segs g)); [auto|]. rewrite B2 by done. apply A1. tauto.
Qed.

(** A segment that is done comes before the one that stops. *)
Lemma stops_cons flags_ok m did fails d d1 d' seg segs :
  (forall d2 segs, did d1 d2 segs -> did d d2 (seg :: segs)) ->
  kept d d1 -> seg_valid flags_ok m d seg -> stops (seg_valid flags_ok m d1) did fails d1 d' segs ->
  stops (seg_valid flags_ok m d) did fails d d' (seg :: segs).
Proof.
  intros Htr K Hv (pre & sg & post & d2 & -> & Hpre & K2 & Hd2 & Hs). exists (seg :: pre), sg, post, d2.
  split; [done|]. split; [constructor; [done|]; eapply Forall_impl; [exact Hpre|]; intros; by apply (seg_valid_kept flags_ok m d d1)|].
  split; [by eapply kept_trans|]. split; [by apply Htr|]. by rewrite (seg_valid_kept flags_ok m d d1) in Hs.
Qed.

(** A device after some zeroing: bytes outside [P] are unchanged, bytes inside
    are unchanged or zero, and all zero when the work was finished. *)
Definition zeroed (d d' : dev) (P : Z -> Prop) (finished : bool) : Prop :=
  kept d d' /\ stats d' = stats d /\
  (forall g, 0 <= g < cap d -> ~ P g -> disk d' g = disk d g) /\
  (forall g, 0 <= g < cap d -> P g -> disk d' g = 0 \/ (finished = false /\ disk d' g = disk d g)).

Lemma zeroed_trans d d1 d2 P1 P2 (P : Z -> Prop) fin :
  (forall g, P g <-> P1 g \/ P2 g) -> (forall g, Decision (P2 g)) -> (forall g, Decision (P1 g)) ->
  zeroed d d1 P1 true -> zeroed d1 d2 P2 fin -> zeroed d d2 P fin.
Proof.
  intros HP Hd2 Hd1 (K1 & E1 & O1 & I1) (K2 & E2 & O2 & I2). pose proof (kp_cap _ _ K1) as Ec. rewrite Ec in *.
  split; [by eapply kept_trans|]. split; [congruence|]. split.
  - intros g Hg Hn. rewrite O2, O1; try done; intros ?; apply Hn, HP; auto.
  - intros g Hg Hp. destruct (Hd2 g) as [H2|H2].
    + destruct (I2 g Hg H2) as [|[-> E]]; [by left|]. rewrite E. destruct (Hd1 g) as [H1|H1].
      * destruct (I1 g Hg H1) as [->|[? _]]; [by left|done].
      * right. split; [done|]. by apply O1.
    + rewrite (O2 g Hg H2). apply HP in Hp as [H1|]; [|done]. destruct (I1 g Hg H1) as [->|[? _]]; [by left|done].
Qed.

(** Any computation built from writes: the limits at the end bound those at the start. *)
Definition back {A} (m : dm A) : Prop := forall d, disk_shape (backend d) ->
  disk_shape (backend (m d).1) /\ (in_limits (backend (m d).1) -> in_limits (backend d)).

Lemma back_bind {A C} (m : dm A) (k : A -> dm C) : back m -> (forall a, back (k a)) -> back (m ≫= k).
Proof.
  intros Hm Hk d Hd. destruct (Hm d Hd) as [Hs Hl]. unfold mbind, M_bind. destruct (m d) as [d1 [a|e|]]; cbn [fst] in *; try done.
  destruct (Hk a d1 Hs) as [Hs' Hl']. auto.
Qed.

Lemma back_pure {A} (m : dm A) : (forall d, backend (m d).1 = backend d) -> back m.
Proof. intros Hm d Hd. by rewrite Hm. Qed.

Lemma back_write off data : back (try_backend (write_at off data)).
Proof.
  intros d Hd. unfold try_backend. pose proof (disk_shape_write _ off data Hd) as Hs. pose proof (disk_limits _ off data Hd) as Hl.
  destruct (write_at off data (backend d)) as [b r]. done.
Qed.

Lemma back_chunks fuel : forall at_ rem, back (zero_chunks fuel at_ rem).
Proof.
  induction fuel as [|fuel IH]; intros at_ rem; cbn [zero_chunks]; destruct (negb (0 <? rem)); try (by apply back_pure).
  apply back_bind; [apply back_write|]. intros r. case_match; [|by apply back_pure].
  apply back_bind; [by apply back_pure|]. intros a. apply IH.
Qed.

Lemma back_segs segs : back (zero_segs segs).
Proof.
  induction segs as [|seg segs IH]; cbn [zero_segs]; [by apply back_pure|]. case_match; [by apply back_pure|].
  apply back_bind; [by apply back_pure|]. intros d0. destruct (dwz_range _ _ _) as [[off n]|]; [|by apply back_pure].
  apply back_bind; [apply back_chunks|]. intros []; [done|by apply back_pure].
Qed.

Lemma zeroed_nothing d P fin : disk_ok (backend d) -> (forall g, ~ P g) \/ fin = false -> zeroed d d P fin.
Proof.
  intros Hd HP. split; [by apply kept_refl|]. split; [done|]. split; [done|]. intros g Hg Hp.
  destruct HP as [HP| ->]; [by destruct (HP g)|by right].
Qed.

(** One write of zeros. *)
Lemma zero_write (d : dev) at_ this b r :
  disk_ok (backend d) -> is_readonly (backend d) = false -> 0 <= at_ -> 0 <= this -> at_ + this <= cap d ->
  write_at at_ (zeros this) (backend d) = (b, r) -> in_limits b ->
  (r = Ok this /\ zeroed d (with_backend d b) (fun g => at_ <= g < at_ + this) true) \/
  ((exists e, r = Err e) /\ zeroed d (with_backend d b) (fun g => at_ <= g < at_ + this) false).
Proof.
  intros Hd Hro H0 Hn Hc E Hl. pose proof (disk_capacity _ Hd) as Hcap. unfold OFF_MAX in Hcap.
  assert (Hlz : len (zeros this) = this) by (by apply len_zeros). assert (Hend : at_ + len (zeros this) < 2 ^ 64) by lia.
  destruct (disk_write _ _ _ _ _ Hd H0 Hend E Hl) as (Hd' & Ec & Er & [(_ & -> & Hov)|(He & Hs)]); [left|right].
  - split; [f_equal; rewrite Hlz; unfold clip; lia|]. split; [split; try done; congruence|]. split; [done|]. split; intros g Hg Hp; cbn [backend with_backend].
    + rewrite Hov by done. unfold over. rewrite Hlz. zcmp; (done || lia).
    + left. rewrite Hov by done. unfold over. rewrite getb_zeros, Hlz. zcmp; (done || lia).
  - split; [done|]. split; [split; try done; congruence|]. split; [done|]. split; intros g Hg Hp; cbn [backend with_backend]; auto.
Qed.

Lemma zero_chunks_spec fuel : forall d at_ rem,
  disk_ok (backend d) -> is_readonly (backend d) = false -> 0 <= at_ -> 0 <= rem -> at_ + rem <= cap d -> (Z.to_nat rem <= fuel)%nat ->
  wp (zero_chunks fuel at_ rem) (fun d' r => in_limits (backend d') ->
    exists fin, r = Ok fin /\ zeroed d d' (fun g => at_ <= g < at_ + rem) fin /\
      (fin = false -> write_fails at_ (at_ + rem) (backend d'))) d.
Proof.
  induction fuel as [|fuel IH]; intros d at_ rem Hd Hro Ha Hr Hc Hf; cbn [zero_chunks]; destruct (Z.ltb_spec 0 rem); cbn [negb]; try lia.
  1,3: apply wp_ret; intros _; exists true; split; [done|]; split; [|done]; apply zeroed_nothing; [done|left; lia].
  set (this := Z.min rem (64 * 1024)). assert (Hthis : 0 < this <= rem) by (unfold this; lia).
  destruct (write_at at_ (zeros this) (backend d)) as [b r] eqn:E.
  assert (Hsb : disk_shape b).
  { pose proof (disk_shape_write _ at_ (zeros this) (disk_ok_shape _ Hd)) as Hs. by rewrite E in Hs. }
  pose proof (disk_capacity _ Hd) as Hcap. unfold OFF_MAX in Hcap.
  assert (Hw : in_limits b -> _) by exact (zero_write d at_ this b r Hd Hro Ha ltac:(lia) ltac:(lia) E).
  assert (Et : try_backend (write_at at_ (zeros this)) d = (with_backend d b, match r with Panic => Panic | r => Ok r end))
    by (unfold try_backend; by rewrite E).
  destruct r as [n|e|].
  - wstep (exact Et). destruct (Z.eqb_spec n this) as [->|Hne].
    + wstep_lift (unfold radd; rewrite (proj2 (Z.ltb_lt _ _)) by lia; reflexivity). intros Hl.
      assert (Hlb : in_limits b) by (by apply (back_chunks fuel (at_ + this) (rem - this) (with_backend d b))).
      destruct (Hw Hlb) as [[_ Z1]|[[e ?] _]]; [|done]. pose proof (kp_cap _ _ (proj1 Z1)) as Ec.
      pose proof (kp_ro _ _ (proj1 Z1)) as Er.
      destruct (IH (with_backend d b) (at_ + this) (rem - this) (kp_disk _ _ (proj1 Z1)) ltac:(congruence) ltac:(lia) ltac:(lia) ltac:(lia) ltac:(lia) Hl)
        as (fin & Ef & Z2 & Hfail).
      exists fin. split; [done|]. split; [eapply zeroed_trans; [..|exact Z1|exact Z2]; intros; [cbn beta; lia|apply _|apply _]|].
      intros Hfin. destruct (Hfail Hfin) as (b0 & e & a0 & n0 & E0 & ? & ? & ?). exists b0, e, a0, n0. split_and!; [done|lia..].
    + apply wp_ret. intros Hl. destruct (Hw Hl) as [[? _]|[[e ?] _]]; congruence.
  - wstep (exact Et). apply wp_ret. intros Hl. destruct (Hw Hl) as [[? _]|[_ Z1]]; [done|]. exists false. split; [done|].
    split; [|intros _; exists (backend d), e, at_, this; split_and!; [done|lia..]].
    destruct Z1 as (K & Es & O & I). split; [done|]. split; [done|]. split; [intros g Hg Hn; apply O; [done|lia]|]. intros g Hg Hp.
    destruct (decide (at_ <= g < at_ + this)); [auto|right; auto].
  - unfold wp, mbind, M_bind. rewrite Et. intros Hl. destruct (Hw Hl) as [[? _]|[[e ?] _]]; done.
Qed.

Lemma zeroed_wipes d d' seg : zeroed d d' (fun g => seg_sector seg * 512 <= g < seg_sector seg * 512 + num_sectors seg * 512) true -> wipes d d' (seg_covers seg).
Proof.
  intros (_ & _ & O & I) g Hg. unfold seg_covers. split; intros Hp; [|apply O; [done|lia]]. destruct (I g Hg ltac:(lia)) as [|[? _]]; done.
Qed.

Lemma zeroed_trims d d' seg fin : zeroed d d' (fun g => seg_sector seg * 512 <= g < seg_sector seg * 512 + num_sectors seg * 512) fin -> trims d d' (seg_covers seg).
Proof.
  intros (_ & _ & O & I) g Hg. unfold seg_covers. destruct (decide (seg_sector seg * 512 <= g < seg_sector seg * 512 + num_sectors seg * 512)) as [Hp|Hp].
  - destruct (I g Hg Hp) as [?|[_ ?]]; [right; split; [done|lia]|by left].
  - left. by apply O.
Qed.

(** The first segment stops the loop before the disk is touched. *)
Lemma stops_here valid (did : dev -> dev -> list DiscardWriteZeroesSegment -> Prop) fails d seg segs :
  disk_ok (backend d) -> did d d [] -> ~ valid seg -> stops valid did fails d d (seg :: segs).
Proof. intros Hd Hdid Hv. exists [], seg, segs, d. split_and!; [done|constructor|by apply kept_refl|done|by left]. Qed.

Lemma wiped_refl d : wiped d d [].
Proof. intros g Hg. split; [|done]. intros Hc. by apply Exists_nil in Hc. Qed.

Lemma discarded_refl d : discarded d d [].
Proof. split; [done|by left]. Qed.

Lemma zero_segs_spec segs : forall d,
  Forall seg_nonneg segs -> disk_ok (backend d) -> is_readonly (backend d) = false ->
  wp (zero_segs segs) (fun d' r => in_limits (backend d') ->
    exists fin, r = Ok fin /\ kept d d' /\ stats d' = stats d /\ zeroes d d' segs fin) d.
Proof.
  induction segs as [|seg segs IH]; intros d Hs Hd Hro; cbn [zero_segs].
  { apply wp_ret. intros _. exists true. split; [done|]. split; [by apply kept_refl|]. split; [done|]. split; [constructor|apply wiped_refl]. }
  apply Forall_cons in Hs as [Hseg Hs]. pose proof (unmap_flags (seg_flags seg) (proj2 (proj2 Hseg))) as Hfl.
  assert (Hstop : ~ seg_valid (fun f => f = 0 \/ f = 1) (max_write_zeroes_sectors (config d)) d seg ->
    wp (mret false : dm bool) (fun d' r => in_limits (backend d') -> exists fin, r = Ok fin /\ kept d d' /\ stats d' = stats d /\ zeroes d d' (seg :: segs) fin) d).
  { intros Hv. apply wp_ret. intros _. exists false. split; [done|]. split; [by apply kept_refl|]. split; [done|]. apply stops_here; [done|apply wiped_refl|done]. }
  destruct (Z.eqb_spec (seg_flags seg .&~ VIRTIO_BLK_WRITE_ZEROES_FLAG_UNMAP) 0) as [Ef|Ef]; cbn [negb]; [|apply Hstop; intros [? _]; tauto].
  wstep reflexivity. destruct (dwz_range_spec d seg (max_write_zeroes_sectors (config d)) Hseg Hd) as [(off & n & -> & -> & -> & Hm & Hc)|[-> Hv]].
  2: { apply Hstop. intros [_ ?]. by apply Hv. }
  assert (Hv : seg_valid (fun f => f = 0 \/ f = 1) (max_write_zeroes_sectors (config d)) d seg) by (split; [tauto|lia]).
  destruct Hseg as (H0 & H1 & _).
  pose proof (zero_chunks_spec (Z.to_nat (num_sectors seg * 512)) d (seg_sector seg * 512) (num_sectors seg * 512) Hd Hro ltac:(lia) ltac:(lia) Hc ltac:(lia)) as Hch.
  unfold wp in *. destruct (zero_chunks _ _ _ d) as [d1 r1] eqn:E1. cbn [fst snd] in Hch. intros Hl.
  assert (Hl1 : in_limits (backend d1)).
  { revert Hl. unfold mbind, M_bind. rewrite E1. destruct r1 as [[]|e|]; [|done..]. intros Hl. apply (back_segs segs d1); [|done].
    pose proof (back_chunks (Z.to_nat (num_sectors seg * 512)) (seg_sector seg * 512) (num_sectors seg * 512) d (disk_ok_shape _ Hd)) as [Hs1 _]. by rewrite E1 in Hs1. }
  destruct (Hch Hl1) as (fin & -> & Z1 & Hfail). rewrite (bind_run _ _ _ _ _ E1) in Hl |- *. pose proof Z1 as (K & Es & _). destruct fin.
  - pose proof (kp_ro _ _ K) as Er1. destruct (IH d1 Hs (kp_disk _ _ K) ltac:(congruence) Hl) as (fin & Efin & K2 & Es2 & Z2).
    exists fin. split; [done|]. split; [by eapply kept_trans|]. split; [congruence|]. apply zeroed_wipes in Z1. unfold zeroes in *. rewrite (kp_config _ _ K) in Z2. destruct fin.
    + destruct Z2 as [Hvs Hw]. split; [|eapply (wipes_trans d d1); [by apply kp_cap|done..]]. constructor; [done|].
      eapply Forall_impl; [exact Hvs|]. intros. by apply (seg_valid_kept _ _ d d1).
    + eapply stops_cons; [|exact K|done|exact Z2]. intros d2 ss. by apply (wipes_trans d d1); [apply kp_cap|].
  - exists false. split; [done|]. split; [done|]. split; [done|]. exists [], seg, segs, d. split; [done|]. split; [constructor|]. split; [by apply kept_refl|].
    split; [apply wiped_refl|]. right. split; [done|]. split; [|by eapply zeroed_trims]. unfold zero_fails. rewrite Z.mul_add_distr_r. by apply Hfail.
Qed.

Lemma discard_segs_spec segs : forall d,
  Forall seg_nonneg segs -> disk_ok (backend d) -> in_limits (backend d) ->
  wp (discard_segs segs) (fun d' r => exists fin, r = Ok fin /\ kept d d' /\ stats d' = stats d /\ discards d d' segs fin) d.
Proof.
  induction segs as [|seg segs IH]; intros d Hs Hd Hl; cbn [discard_segs].
  { apply wp_ret. exists true. split; [done|]. split; [by apply kept_refl|]. split; [done|]. split; [constructor|apply discarded_refl]. }
  apply Forall_cons in Hs as [Hseg Hs].
  assert (Hstop : ~ seg_valid (fun f => f = 0) (max_discard_sectors (config d)) d seg ->
    wp (mret false : dm bool) (fun d' r => exists fin, r = Ok fin /\ kept d d' /\ stats d' = stats d /\ discards d d' (seg :: segs) fin) d).
  { intros Hv. apply wp_ret. exists false. split; [done|]. split; [by apply kept_refl|]. split; [done|]. apply stops_here; [done|apply discarded_refl|done]. }
  wstep reflexivity. destruct (Z.eqb_spec (seg_flags seg) 0) as [Ef|Ef]; [|apply Hstop; by intros [? _]].
  destruct (dwz_range_spec d seg (max_discard_sectors (config d)) Hseg Hd) as [(off & n & -> & -> & -> & Hm & Hc)|[-> Hv]].
  2: { apply Hstop. intros [_ ?]. by apply Hv. }
  assert (Hv : seg_valid (fun f => f = 0) (max_discard_sectors (config d)) d seg) by (split; [done|lia]). destruct Hseg as (H0 & H1 & _).
  destruct (trim (seg_sector seg * 512) (num_sectors seg * 512) (backend d)) as [b r] eqn:E.
  destruct (disk_trim (backend d) (seg_sector seg * 512) (num_sectors seg * 512) b r Hd ltac:(lia) ltac:(lia) Hc E Hl) as (Hd' & Hl' & Ec & Ero & Hp & Hb).
  assert (K : kept d (with_backend d b)) by (by split).
  assert (Hb' : trims d (with_backend d b) (seg_covers seg)).
  { intros g Hg. destruct (Hb g Hg) as [?|[? ?]]; [by left|right]. split; [done|]. unfold seg_covers. lia. }
  assert (Et : try_backend (trim (seg_sector seg * 512) (num_sectors seg * 512)) d = (with_backend d b, Ok r)).
  { unfold try_backend. rewrite E. by destruct r. }
  wstep (exact Et). destruct r as [u|e|]; [| |done]; cbn [is_ok].
  - assert (Hdid : forall d2 ss, discarded (with_backend d b) d2 ss -> discarded d d2 (seg :: ss)).
    { intros d2 ss [Ht Htr]. split; [by exists b, u|]. by apply (trims_trans d (with_backend d b)). }
    eapply wp_mono; [by apply IH|]. intros d2 r2 (fin & -> & K2 & Es & Z2). exists fin. split; [done|].
    split; [by eapply kept_trans|]. split; [done|]. unfold discards in *. cbn [config with_backend] in Z2. destruct fin.
    + destruct Z2 as [Hvs Ht]. split; [|by apply Hdid]. constructor; [done|].
      eapply Forall_impl; [exact Hvs|]. intros. by apply (seg_valid_kept _ _ d (with_backend d b)).
    + by eapply stops_cons; [exact Hdid|..].
  - apply wp_ret. exists false. split; [done|]. split; [done|]. split; [done|]. exists [], seg, segs, d. split; [done|]. split; [constructor|].
    split; [by apply kept_refl|]. split; [apply discarded_refl|]. right. split; [done|]. split; [by exists e|done].
Qed.

(** ** The segments of a request *)

Lemma le_value_nonneg l : Forall (fits 8) l -> 0 <= le_value l.
Proof. intros H. apply le_value_fits in H. lia. Qed.

Lemma le_at_nonneg l off n : Forall (fits 8) l -> 0 <= le_at l off n.
Proof. intros H. unfold le_at, sub. apply le_value_nonneg. by apply Forall_take, Forall_drop. Qed.

(** The buffer of a discard or a write-zeroes: one to [m] segments of sixteen
    bytes, each a 64-bit sector, a 32-bit count and a 32-bit flag word. *)
Definition request_segments (buf : list Z) (m : Z) (segs : list DiscardWriteZeroesSegment) : Prop :=
  0 < len buf /\ len buf = SEG_SIZE * Z.of_nat (length segs) /\ Z.of_nat (length segs) <= m /\
  forall i seg, segs !! i = Some seg ->
    seg = mk_Segment (le_at buf (16 * Z.of_nat i) 8) (le_at buf (16 * Z.of_nat i + 8) 4) (le_at buf (16 * Z.of_nat i + 12) 4).

Lemma seg_at buf i : 0 <= i -> 16 * i + 16 <= len buf ->
  seg_from_bytes (drop (Z.to_nat (i * SEG_SIZE)) buf) = Some (mk_Segment (le_at buf (16 * i) 8) (le_at buf (16 * i + 8) 4) (le_at buf (16 * i + 12) 4)).
Proof.
  intros Hi Hl. unfold seg_from_bytes. rewrite (proj2 (Z.ltb_ge _ _)) by (unfold len in *; rewrite length_drop; lia).
  unfold le_at, sub. rewrite !drop_drop. do 2 f_equal; do 3 f_equal; lia.
Qed.

Lemma parse_segments buf m segs : parse_dwz_segments buf m = Some segs <-> request_segments buf m segs.
Proof.
  unfold parse_dwz_segments, request_segments. pose proof (len_nonneg buf). pose proof (Z.div_mod (len buf) SEG_SIZE ltac:(done)) as Ed.
  destruct (Z.eqb_spec (len buf) 0); [split; [done|lia]|].
  destruct (Z.eqb_spec (len buf mod SEG_SIZE) 0) as [Em|Em]; cbn [orb negb].
  2: { split; [done|]. intros (_ & El & _). rewrite El, Z.mul_comm, Z.mod_mul in Em; done. }
  destruct (Z.ltb_spec m (len buf / SEG_SIZE)); [split; [done|lia]|]. rewrite mapM_Some.
  assert (0 <= len buf / SEG_SIZE) by (apply Z.div_pos; done || lia). split.
  - intros E. pose proof (Forall2_length _ _ _ E) as El. rewrite length_seqZ in El. split_and!; [lia..|]. intros i seg Hi.
    destruct (Forall2_lookup_r _ _ _ _ _ E Hi) as (x & Hx & Es). apply lookup_seqZ in Hx as [-> Hlt]. rewrite Z.add_0_l, seg_at in Es by lia. by injection Es.
  - intros (_ & El & _ & Hs). apply Forall2_same_length_lookup_2; [rewrite length_seqZ; lia|]. intros i x seg Hx Hi.
    apply lookup_seqZ in Hx as [-> Hlt]. rewrite Z.add_0_l, seg_at by lia. by rewrite (Hs i seg Hi).
Qed.

Lemma parse_nonneg buf m segs : Forall (fits 8) buf -> parse_dwz_segments buf m = Some segs -> Forall seg_nonneg segs.
Proof.
  intros Hb E. apply parse_segments in E as (_ & _ & _ & Hs). apply Forall_lookup. intros i seg Hi.
  rewrite (Hs i seg Hi). split_and!; cbn; by apply le_at_nonneg.
Qed.

(** The request has segments or it has none. *)
Lemma parse_cases buf m (refused : Prop) (Q : list DiscardWriteZeroesSegment -> Prop) :
  match parse_dwz_segments buf m with None => refused | Some segs => Q segs end ->
  (forall segs, request_segments buf m segs -> Q segs) /\ ((forall segs, ~ request_segments buf m segs) -> refused).
Proof.
  intros H. split; [intros segs Hs; by apply parse_segments in Hs as E; rewrite E in H|]. intros Hn.
  destruct (parse_dwz_segments buf m) as [segs|] eqn:E; [|done]. by apply parse_segments, Hn in E.
Qed.

(** ** What a request does, by type *)

(** The header of a request. *)
Definition request_header (hdr : list Z) : BlockRequestHeader := mk_BlockRequestHeader (le_at hdr 0 4) (le_at hdr 4 4) (le_at hdr 8 8).

Definition moves_data (h : BlockRequestHeader) : Prop := request_type h = VIRTIO_BLK_T_IN \/ request_type h = VIRTIO_BLK_T_OUT.

Definition status_of (fin : bool) : Z := if fin then VIRTIO_BLK_S_OK else VIRTIO_BLK_S_IOERR.

Definition serves (d d' : dev) (h : BlockRequestHeader) (buf buf' : list Z) (st n : Z) : Prop :=
  let t := request_type h in
  let off := sector h * 512 in
  let refused := buf' = buf /\ st = VIRTIO_BLK_S_IOERR /\ n = 0 /\ same_disk d d' in
  let segmented m (result : list DiscardWriteZeroesSegment -> bool -> Prop) :=
    if is_readonly (backend d) then refused
    else (forall segs, request_segments buf m segs -> buf' = buf /\ n = 0 /\ exists fin, st = status_of fin /\ result segs fin) /\
         ((forall segs, ~ request_segments buf m segs) -> refused) in
  if t =? VIRTIO_BLK_T_IN then
    st = VIRTIO_BLK_S_OK /\ same_disk d d' /\ len buf' = len buf /\ clip (cap d) off (len buf) <= n <= len buf /\
    forall k, 0 <= k < clip (cap d) off (len buf) -> getb buf' k = disk d (off + k)
  else if t =? VIRTIO_BLK_T_OUT then
    (refused /\ (is_readonly (backend d) = true \/ exists e, write_at off buf (backend d) = (backend d', Err e))) \/
    (is_readonly (backend d) = false /\ buf' = buf /\ st = VIRTIO_BLK_S_OK /\ n = clip (cap d) off (len buf) /\
     forall g, 0 <= g < cap d -> disk d' g = over (disk d) off buf g)
  else if t =? VIRTIO_BLK_T_FLUSH then buf' = buf /\ st = VIRTIO_BLK_S_OK /\ n = 0 /\ same_disk d d'
  else if t =? VIRTIO_BLK_T_GET_ID then
    st = VIRTIO_BLK_S_OK /\ n = Z.min (len buf) 20 /\ buf' = splice buf 0 (sub (device_id d) 0 n) /\ same_disk d d'
  else if t =? VIRTIO_BLK_T_DISCARD then segmented (max_discard_seg (config d)) (discards d d')
  else if t =? VIRTIO_BLK_T_WRITE_ZEROES then segmented (max_write_zeroes_seg (config d)) (zeroes d d')
  else buf' = buf /\ st = VIRTIO_BLK_S_UNSUPP /\ n = 0 /\ same_disk d d'.

(** The status of a request that counts and reports, given its outcome. *)
Lemma finish_ok (d : dev) (m : dm unit) (fin : bool) :
  calm (stats d) -> m = count_discard \/ m = count_write_zeroes ->
  exists s, (if fin then m ;; mret (VIRTIO_BLK_S_OK, 0) else ioerr) d =
    (with_stats d s, Ok (status_of fin, 0)).
Proof.
  intros Hc Hm. destruct fin; [|by apply ioerr_ok]. destruct (stat_counted d m Hc) as [s E]; [destruct Hm; auto|].
  exists s. by rewrite (bind_run _ _ _ _ _ E).
Qed.

Lemma kept_stats (d d' : dev) s : kept d d' -> kept d (with_stats d' s).
Proof. by intros []. Qed.

(** What a segmented request does, given what its segments do. *)
Definition segmented_post (d d' : dev) (buf : list Z) (m : Z) (result : list DiscardWriteZeroesSegment -> bool -> Prop) (r : res serr (Z * Z)) : Prop :=
  exists st, r = Ok (st, 0) /\ kept d d' /\
    if is_readonly (backend d) then st = VIRTIO_BLK_S_IOERR /\ same_disk d d'
    else match parse_dwz_segments buf m with
         | None => st = VIRTIO_BLK_S_IOERR /\ same_disk d d'
         | Some segs => exists fin, st = status_of fin /\ result segs fin
         end.

Lemma segmented_refused (d : dev) buf m result :
  dev_ok d -> is_readonly (backend d) = true \/ parse_dwz_segments buf m = None ->
  segmented_post d (ioerr d).1 buf m result (ioerr d).2.
Proof.
  intros [Hd Hl Hc] Hr. destruct (ioerr_ok d Hc) as [s ->]. eexists. split; [done|]. split; [by apply kept_stats, kept_refl|].
  destruct (is_readonly (backend d)); [done|]. destruct Hr as [?| ->]; done.
Qed.

Lemma handle_discard_spec (d : dev) buf :
  dev_ok d -> Forall (fits 8) buf ->
  wp (handle_discard buf) (fun d' r => segmented_post d d' buf (max_discard_seg (config d)) (discards d d') r) d.
Proof.
  intros Hok Hb. pose proof Hok as [Hd Hl Hc]. unfold handle_discard. wstep reflexivity.
  destruct (is_readonly (backend d)) eqn:Hro; [apply segmented_refused; auto|].
  destruct (parse_dwz_segments buf _) as [segs|] eqn:Ep; [|apply segmented_refused; auto].
  apply wp_bind. eapply wp_mono; [apply discard_segs_spec; [by eapply parse_nonneg|done|done]|].
  intros d1 r (fin & -> & K & Es & Hg). destruct (finish_ok d1 count_discard fin) as [s E]; [by rewrite Es|by left|].
  eapply wp_eq; [exact E|]. eexists. split; [done|]. split; [by apply kept_stats|]. rewrite Hro, Ep. by exists fin.
Qed.

Lemma handle_write_zeroes_spec (d : dev) buf :
  dev_ok d -> Forall (fits 8) buf ->
  wp (handle_write_zeroes buf) (fun d' r => in_limits (backend d') ->
    segmented_post d d' buf (max_write_zeroes_seg (config d)) (zeroes d d') r) d.
Proof.
  intros Hok Hb. pose proof Hok as [Hd Hl Hc]. unfold handle_write_zeroes. wstep reflexivity.
  destruct (is_readonly (backend d)) eqn:Hro; [intros _; apply segmented_refused; auto|].
  destruct (parse_dwz_segments buf _) as [segs|] eqn:Ep; [|intros _; apply segmented_refused; auto].
  pose proof (zero_segs_spec segs d ltac:(by eapply parse_nonneg) Hd Hro) as Hz. unfold wp in *.
  destruct (zero_segs segs d) as [d1 r1] eqn:E1. cbn [fst snd] in Hz. intros Hlim.
  assert (Hl1 : in_limits (backend d1)).
  { revert Hlim. unfold mbind at 1, M_bind at 1. rewrite E1.
    destruct r1 as [[]|e|]; unfold ioerr, count_write_zeroes, count_error; rewrite ?stats_backend; done. }
  destruct (Hz Hl1) as (fin & -> & K & Es & Hg). rewrite (bind_run _ _ _ _ _ E1).
  destruct (finish_ok d1 count_write_zeroes fin) as [s E]; [by rewrite Es|by right|]. rewrite E. cbn [fst snd].
  eexists. split; [done|]. split; [by apply kept_stats|]. rewrite Hro, Ep. by exists fin.
Qed.

(** The branch of [serves] for segments, from the loops' result. *)
Lemma segmented_serves d d' buf m result st : segmented_post d d' buf m result (Ok (st, 0)) ->
  kept d d' /\
  let refused := buf = buf /\ st = VIRTIO_BLK_S_IOERR /\ 0 = 0 /\ same_disk d d' in
  if is_readonly (backend d) then refused
  else (forall segs, request_segments buf m segs -> buf = buf /\ 0 = 0 /\ exists fin, st = status_of fin /\ result segs fin) /\
       ((forall segs, ~ request_segments buf m segs) -> refused).
Proof.
  intros (st' & [= <-] & K & H). split; [done|]. cbn zeta. destruct (is_readonly (backend d)); [by destruct H; split_and!|].
  apply parse_cases. case_match; [by split_and!|]. by destruct H; split_and!.
Qed.

Lemma process_spec (d : dev) hdr buf : let h := request_header hdr in
  dev_ok d -> Forall (fits 8) hdr -> Forall (fits 8) buf -> 16 <= len hdr ->
  (moves_data h -> sector h * 512 <= OFF_MAX /\ sector h * 512 + len buf < 2 ^ 64) ->
  wp (process_request hdr buf) (fun d' r => in_limits (backend d') ->
    exists buf' st n, r = Ok (buf', (st, n)) /\ kept d d' /\ serves d d' h buf buf' st n) d.
Proof.
  intros h Hok Hh Hb Hlen Hs. assert (Hs0 : 0 <= sector h) by (by apply le_at_nonneg).
  assert (Eh : header_from_bytes hdr = Some h) by (unfold header_from_bytes; by rewrite (proj2 (Z.ltb_ge _ _))).
  clearbody h. unfold moves_data in Hs.
  pose proof Hok as [Hd Hl Hc]. unfold process_request, serves. rewrite Eh.
  destruct (Z.eqb_spec (request_type h) VIRTIO_BLK_T_IN) as [Ht|_].
  { destruct (Hs (or_introl Ht)) as [Hs1 Hs2]. eapply wp_mono; [by apply handle_read_spec|]. intros d' r (buf' & n & -> & Eb & K & Hlb & Hn & Hk) _.
    exists buf', VIRTIO_BLK_S_OK, n. split; [done|]. split; [done|]. split_and!; try done; try lia. intros g Hg. by rewrite Eb. }
  destruct (Z.eqb_spec (request_type h) VIRTIO_BLK_T_OUT) as [Ht|_].
  { destruct (Hs (or_intror Ht)) as [Hs1 Hs2]. apply wp_bind. pose proof (handle_write_spec d (sector h) buf Hok Hs0 Hs2) as Hw. unfold wp in *.
    destruct (handle_write (sector h) buf d) as [d' r]. cbn [fst snd] in *.
    destruct r as [[st n]|e|]; cbn; intros Hlim; destruct (Hw Hlim) as (K & [(Hro & Er & Ho)|(Er & Hsame & Hwhy)]); simplify_eq.
    - exists buf, VIRTIO_BLK_S_OK, (clip (cap d) (sector h * 512) (len buf)). split; [done|]. split; [done|]. right. by split_and!.
    - exists buf, VIRTIO_BLK_S_IOERR, 0. split; [done|]. split; [done|]. left. split; [by split_and!|done]. }
  destruct (request_type h =? VIRTIO_BLK_T_FLUSH).
  { unfold handle_flush. assert (Et : try_backend flush d = (with_backend d (backend d), Ok (Ok tt))) by (unfold try_backend; by rewrite disk_flush).
    destruct (stat_counted (with_backend d (backend d)) count_flush Hc) as [s Es]; [auto|].
    apply wp_bind. wstep (exact Et). wstep (exact Es). apply wp_ret. apply wp_ret. intros _. exists buf, VIRTIO_BLK_S_OK, 0.
    split; [done|]. split; [by split|]. by split_and!. }
  destruct (request_type h =? VIRTIO_BLK_T_GET_ID).
  { unfold handle_get_id. wstep reflexivity. apply wp_ret. intros _. eexists _, _, _. split; [done|]. split; [by apply kept_refl|]. by split_and!. }
  destruct (request_type h =? VIRTIO_BLK_T_DISCARD).
  { apply wp_bind. eapply wp_mono; [by apply handle_discard_spec|]. intros d' r Hp. pose proof Hp as (st & -> & _). apply wp_ret. intros _.
    exists buf, st, 0. split; [done|]. by apply segmented_serves. }
  destruct (request_type h =? VIRTIO_BLK_T_WRITE_ZEROES).
  { apply wp_bind. pose proof (handle_write_zeroes_spec d buf Hok Hb) as Hw. unfold wp in *.
    destruct (handle_write_zeroes buf d) as [d' r]. cbn [fst snd] in *. destruct r as [[st n]|e|]; cbn; intros Hlim;
      pose proof (Hw Hlim) as Hp; pose proof Hp as (st' & Er & _); simplify_eq.
    exists buf, st', 0. split; [done|]. by apply segmented_serves. }
  destruct (stat_counted d count_error Hc) as [s Es]; [auto|]. wstep (exact Es). apply wp_ret. intros _.
  exists buf, VIRTIO_BLK_S_UNSUPP, 0. split; [done|]. split; [by apply kept_stats, kept_refl|]. by split_and!.
Qed.

(** C5: Every request whose byte offset, for a read or a write, fits in 63
    bits (and its end in 64) is answered without a panic, on any disk that keeps
    the promises of the interface and stays in its limits.  A read returns the
    disk's bytes and a write overwrites them, or fails and changes nothing
    because the disk is read-only or the backend refused.  A discard or a
    write-zeroes takes its segments in order: it reports OK exactly when every
    segment has flags it knows, a length from one sector to the advertised
    maximum and its sectors inside the disk, and the backend did all of them;
    then a write-zeroes has zeroed exactly those sectors, and a discard has
    trimmed each in the backend, which zeroes or keeps them and touches no other.  Otherwise it reports IOERR and
    stopped at the first segment that is not such, or on which the backend
    failed: the segments before it stay done, those after it are untouched.  A
    read-only disk, a buffer that is not one to the maximum number of whole
    segments, a short header and an unknown type change nothing. *)
Theorem block_serves (d d' : dev) hdr buf r : let h := request_header hdr in
  dev_ok d -> Forall (fits 8) hdr -> Forall (fits 8) buf ->
  (moves_data h -> sector h * 512 <= OFF_MAX /\ sector h * 512 + len buf < 2 ^ 64) ->
  process_request hdr buf d = (d', r) -> in_limits (backend d') ->
  exists buf' st n, r = Ok (buf', (st, n)) /\ kept d d' /\
    if len hdr <? 16 then d' = d /\ buf' = buf /\ st = VIRTIO_BLK_S_IOERR /\ n = 0 else serves d d' h buf buf' st n.
Proof.
  intros h Hok Hh Hb Hs E Hl. destruct (Z.ltb_spec (len hdr) 16) as [Hshort|Hlen].
  - unfold process_request, header_from_bytes in E. rewrite (proj2 (Z.ltb_lt _ _)) in E by done. injection E as <- <-.
    exists buf, VIRTIO_BLK_S_IOERR, 0. split; [done|]. split; [apply kept_refl, Hok|done].
  - pose proof (process_spec d hdr buf Hok Hh Hb Hlen Hs) as H. unfold wp in H. rewrite E in H. by apply H.
Qed.
End Spec.

(** ** Guest-chosen sectors *)

(** The byte offset of a read or a write is computed without a check: a
    request whose sector times 512 exceeds 64 bits, which the guest is free to
    send, panics (in a build with overflow checks) on any backend, before the
    backend is touched. *)
Theorem block_sector_overflow_panics {B : Type} {SB : StorageBackend B} (d : VirtioBlockDevice B) hdr h buf :
  header_from_bytes hdr = Some h -> 2 ^ 55 <= sector h ->
  request_type h = VIRTIO_BLK_T_IN \/ (request_type h = VIRTIO_BLK_T_OUT /\ is_readonly (backend d) = false) ->
  process_request hdr buf d = (d, Panic).
Proof.
  intros Eh Hs Ht. assert (Eo : rmul (E:=serr) (sector h) 512 = Panic) by (unfold rmul; by rewrite (proj2 (Z.ltb_ge _ _)) by lia).
  unfold process_request. rewrite Eh. destruct Ht as [-> | [-> Hro]]; cbn -[handle_read handle_write].
  - unfold handle_read. by rewrite Eo.
  - assert (Ew : handle_write (sector h) buf d = (d, Panic)) by (unfold handle_write; run reflexivity; by rewrite Hro, Eo).
    unfold mbind, M_bind. by rewrite Ew.
Qed.

(** ** The configuration space *)

Lemma lor_shifted a b k : 0 <= k -> 0 <= a < 2 ^ k -> a .| (b .<< k) = a + b * 2 ^ k.
Proof.
  intros Hk Ha. rewrite Z.shiftl_mul_pow2 by done. apply Z.bits_inj'. intros i Hi.
  rewrite Z.lor_spec. assert (Hd : Z.land a (b * 2 ^ k) = 0).
  { apply Z.bits_inj'. intros j Hj. rewrite Z.land_spec, Z.bits_0. destruct (Z.lt_ge_cases j k).
    - by rewrite Z.mul_pow2_bits_low, andb_false_r.
    - by rewrite (fits_high k a j). }
  rewrite <- Z.lor_spec. f_equal. rewrite Z.add_nocarry_lxor by done. symmetry. by apply Z.lxor_lor.
Qed.

Lemma config_value_from g m : forall k acc,
  0 <= k -> 0 <= acc < 2 ^ (k * 8) -> (forall i, fits 8 (g i)) ->
  fold_left (fun val i => val .| (g i .<< (i * 8))) (seqZ k (Z.of_nat m)) acc =
    acc + 2 ^ (k * 8) * le_value (g <$> seqZ k (Z.of_nat m)).
Proof.
  induction m as [|m IH]; intros k acc Hk Ha Hg; [rewrite seqZ_nil by lia; cbn; lia|].
  rewrite seqZ_cons by lia. cbn [fold_left fmap list_fmap le_value]. replace (Z.pred (Z.of_nat (S m))) with (Z.of_nat m) by lia.
  pose proof (Hg k) as Hgk. unfold fits in Hgk. change (2 ^ 8) with 256 in Hgk. rewrite lor_shifted by lia.
  assert (Ep : 2 ^ (Z.succ k * 8) = 256 * 2 ^ (k * 8)).
  { replace (Z.succ k * 8) with (8 + k * 8) by lia. by rewrite Z.pow_add_r by lia. }
  rewrite IH; [rewrite Ep; lia|lia|rewrite Ep; nia|done].
Qed.

Lemma getb_fits l k : Forall (fits 8) l -> fits 8 (getb l k).
Proof.
  intros Hl. unfold getb. case_match; [done|]. destruct (l !! Z.to_nat k) as [b|] eqn:E; [|done].
  exact (proj1 (Forall_lookup (fits 8) l) Hl _ _ E).
Qed.

Lemma config_value_le n v : config_value (le_bytes n v) 0 n = v mod 256 ^ Z.of_nat n.
Proof.
  unfold config_value. rewrite (config_value_from (fun i => getb (le_bytes n v) (0 + i)) n 0 0); [|lia|lia|].
  - rewrite <- le_value_bytes. change (2 ^ (0 * 8)) with 1. rewrite Z.mul_1_l, Z.add_0_l. f_equal. apply list_getb_ext; unfold len.
    + by rewrite length_fmap, length_seqZ, length_le_bytes, Nat2Z.id.
    + intros k Hk. rewrite length_fmap, length_seqZ, Nat2Z.id in Hk.
      rewrite getb_lookup, list_lookup_fmap, lookup_seqZ_lt by lia. cbn. f_equal. lia.
  - intros i. apply getb_fits, le_bytes_fits.
Qed.

(** The fields of the configuration at their widths. *)
Record config_fits (c : BlockConfig) : Prop := {
  cf_64 : fits 64 (cfg_capacity c);
  cf_32 : Forall (fits 32) [cfg_size_max c; cfg_seg_max c; blk_size c; opt_io_size c; max_discard_sectors c; max_discard_seg c;
            discard_sector_alignment c; max_write_zeroes_sectors c; max_write_zeroes_seg c];
  cf_16 : Forall (fits 16) [cylinders c; min_io_size c];
}.

(** The guest reads every field of the configuration space where the
    virtio block structure puts it, whatever the values; reads past its 60
    bytes are zero. *)
Theorem block_config_layout {B : Type} (d : VirtioBlockDevice B) :
  config_fits (config d) ->
  read_config d 0 8 = cfg_capacity (config d) /\ read_config d 8 4 = cfg_size_max (config d) /\
  read_config d 12 4 = cfg_seg_max (config d) /\ read_config d 16 2 = cylinders (config d) /\
  read_config d 18 1 = heads (config d) /\ read_config d 19 1 = sectors (config d) /\
  read_config d 20 4 = blk_size (config d) /\ read_config d 24 1 = physical_block_exp (config d) /\
  read_config d 25 1 = alignment_offset (config d) /\ read_config d 26 2 = min_io_size (config d) /\
  read_config d 28 4 = opt_io_size (config d) /\ read_config d 36 4 = max_discard_sectors (config d) /\
  read_config d 40 4 = max_discard_seg (config d) /\ read_config d 44 4 = discard_sector_alignment (config d) /\
  read_config d 48 4 = max_write_zeroes_sectors (config d) /\ read_config d 52 4 = max_write_zeroes_seg (config d) /\
  read_config d 56 1 = write_zeroes_may_unmap (config d) /\
  forall off size, 60 <= off -> read_config d off size = 0.
Proof.
  intros [H8 H4 H2]. repeat (apply Forall_cons in H4 as [? H4]). repeat (apply Forall_cons in H2 as [? H2]).
  assert (F : forall n v w, 8 * Z.of_nat n = w -> fits w v -> config_value (le_bytes n v) 0 n = v).
  { intros n v w <- Hv. rewrite config_value_le. apply Z.mod_small. unfold fits in Hv. by rewrite Z.pow_mul_r in Hv by lia. }
  assert (F2 : forall v, fits 16 v -> getb (le_bytes 2 v) 0 .| (getb (le_bytes 2 v) 1 .<< 8) = v).
  { intros v Hv. transitivity (config_value (le_bytes 2 v) 0 2); [|by apply (F 2%nat _ 16)]. unfold config_value.
    change (seqZ 0 (Z.of_nat 2)) with [0; 1]. cbn [fold_left]. by rewrite Z.lor_0_l, Z.shiftl_0_r. }
  split; [by apply (F 8%nat _ 64)|]. do 2 (split; [by apply (F 4%nat _ 32)|]). split; [by apply F2|]. do 2 (split; [reflexivity|]).
  split; [by apply (F 4%nat _ 32)|]. do 2 (split; [reflexivity|]). split; [by apply F2|]. do 6 (split; [by apply (F 4%nat _ 32)|]).
  split; [reflexivity|]. intros off size Hoff. unfold read_config. change (len (config_as_bytes d)) with 60.
  by rewrite (proj2 (Z.leb_le 60 off)).
Qed.
