(* ===== verification/Samples.v ===== *)
(** * Sample images

    A qcow2 image of 512-byte clusters over no backing, small enough to run
    the model on: 64 KiB of guest disk, four clusters of metadata.  The
    theorems on the image format and on the block device are applied to it. *)

From Stdlib Require Import ZArith Lia Bool.
From stdpp Require Import base decidable numbers list relations.
From S2P Require Import Prelude Rust Storage Qcow QcowInv QcowSteps QcowAlloc QcowGrow QcowHost QcowRefine QcowCheck QcowCreate Block.

Definition sample_header : QcowHeader := mk_QcowHeader QCOW2_MAGIC 3 0 0 9 65536 0 2 512 1024 1 0 0 4.

Definition sample_file : list Z :=
  splice (splice (splice (splice (splice (splice (splice (splice (splice (splice (splice (splice (splice (splice (zeros 2048)
    0 (be_bytes 4 QCOW2_MAGIC)) 4 (be_bytes 4 3)) 20 (be_bytes 4 9)) 24 (be_bytes 8 65536)) 36 (be_bytes 4 2))
    40 (be_bytes 8 512)) 48 (be_bytes 8 1024)) 56 (be_bytes 4 1)) 96 (be_bytes 4 4))
    1024 (be_bytes 8 1536)) 1536 (be_bytes 2 1)) 1538 (be_bytes 2 1)) 1540 (be_bytes 2 1)) 1542 (be_bytes 2 1).

Definition sample : QcowBackend MemoryBackend := mk_QcowBackend sample_file sample_header 1024 1 [0; 0] true None.

(** A property of every index below a bound, by evaluation. *)
Lemma below (P : Z -> bool) n : forallb P (seqZ 0 n) = true -> forall i, 0 <= i < n -> P i = true.
Proof. intros H i Hi. rewrite forallb_forall in H. apply H, list_elem_of_In, elem_of_seqZ. lia. Qed.

Lemma sample_blank : blank sample.
Proof.
  split; try done.
  - intros i Hi. apply Z.eqb_eq. revert i Hi. apply below. vm_compute. done.
  - intros s Hs. apply Z.eqb_eq. revert s Hs. apply below. vm_compute. done.
  - intros c Hc. apply Z.eqb_eq. revert c Hc. apply below. vm_compute. done.
Qed.

Lemma sample_consistent : Consistent sample.
Proof. exact (blank_consistent sample sample_blank). Qed.

Lemma sample_small : small sample.
Proof. vm_compute. done. Qed.

(** A write across the border of the first two clusters. *)
Definition written : QcowBackend MemoryBackend := (qcow_write_at 510 [9; 8; 7; 6] sample).1.

Lemma written_run : qcow_write_at 510 [9; 8; 7; 6] sample = (written, Ok 4).
Proof. vm_compute. done. Qed.

Lemma written_step : rtc qstep sample written.
Proof. apply rtc_once. change written with (qcow_write_at 510 [9; 8; 7; 6] sample).1. by constructor. Qed.

Lemma written_size : h_size (q_header written) = 65536.
Proof. vm_compute. reflexivity. Qed.

Lemma written_small : small written.
Proof. vm_compute. done. Qed.

Lemma qcow_write_refines_witness : Consistent written /\ content written 511 = 8 /\ content written 512 = 7 /\ content written 509 = 0.
Proof.
  destruct (qcow_write_refines sample written 510 [9; 8; 7; 6] (Ok 4) sample_consistent) as (C & _ & _ & [(_ & _ & Hc)|([[_ ?]|?] & _)]);
    [lia|exact written_run|exact written_small| |done..].
  split; [exact C|]. split_and!; [rewrite (Hc 511)|rewrite (Hc 512)|rewrite (Hc 509)]; (done || vm_compute; done).
Defined.

Lemma qcow_read_content_witness : exists buf, qcow_read_at sample 65532 [1; 2; 3; 4; 5; 6] = (buf, Ok 4) /\ len buf = 6.
Proof.
  destruct (qcow_read_content sample 65532 [1; 2; 3; 4; 5; 6] sample_consistent sample_small) as (buf & E & Hl & _); [lia|].
  exists buf. split; [exact E|exact Hl].
Defined.

Lemma written_consistent : Consistent written.
Proof.
  destruct (reachable_inv sample written sample_consistent written_step) as [_ C]. exact (C written_small).
Qed.

Lemma qcow_trim_zeroes_witness : exists q, qcow_trim 0 600 written = (q, Ok tt) /\ Consistent q /\ content q 511 = 0 /\ content q 512 = 7.
Proof.
  destruct (qcow_trim 0 600 written) as [q r] eqn:E.
  destruct (qcow_trim_zeroes written q 0 600 r written_consistent written_small) as (-> & C & _ & Hc); [lia|lia|exact E|].
  exists q. split; [reflexivity|]. split; [exact C|]. split.
  - rewrite (Hc 511) by (rewrite written_size; lia). vm_compute. reflexivity.
  - rewrite (Hc 512) by (rewrite written_size; lia). vm_compute. reflexivity.
Defined.

Lemma qcow_reachable_consistent_witness : Consistent written.
Proof.
  destruct (qcow_reachable_consistent sample written sample_consistent written_step written_small) as [C _]. exact C.
Defined.

Definition grown : QcowBackend MemoryBackend := (alloc_loop 2 512 sample).1.

Lemma grown_run : alloc_loop 2 512 sample = (grown, Ok 2048).
Proof. vm_compute. done. Qed.

Lemma qcow_alloc_terminates_witness : exists c rho, 2048 = c * 512 /\ Image grown rho /\ refcount grown c = 1.
Proof.
  destruct (qcow_alloc_terminates sample grown 0 (Ok 2048) sample_consistent grown_run) as (_ & _ & [[? _]|(c & rho & E & I & _ & Hr & _)]);
    [vm_compute; done|done|].
  exists c, rho. split; [injection E as E; exact E|]. split; [exact I|exact Hr].
Defined.

Lemma qcow_check_exact_witness : check_consistency sample = (sample, Ok tt).
Proof.
  assert (I : Image sample (blank_roles sample)) by (split; [exact (blank_shape sample sample_blank)|exact (blank_roles_ok sample sample_blank)]).
  apply (qcow_check_exact sample (blank_roles sample) I sample_small). intros c Hc. apply (blank_counts sample sample_blank). lia.
Defined.

(** A backing disk of three bytes. *)
Definition base : MemoryBackend := mk_MemoryBackend [1; 2; 3] true.

Lemma qcow_create_opens_witness : exists img q,
  create 100000 (Some [98; 97; 115; 101]) = Ok img /\ from_file (fun _ => Ok base) img true = Ok q /\
  Consistent q /\ content q 1 = 2 /\ content q 3 = 0.
Proof.
  destruct (qcow_create_opens (fun _ => Ok base) 100000 (Some [98; 97; 115; 101]) true (Some base)) as (img & q & E1 & E2 & C & _ & _ & _ & Hc).
  - lia.
  - vm_compute. discriminate.
  - vm_compute. discriminate.
  - exists base. split; [reflexivity|]. split; [reflexivity|]. vm_compute. discriminate.
  - exists img, q. split; [exact E1|]. split; [exact E2|]. split; [exact C|]. rewrite !Hc. split; reflexivity.
Defined.

Lemma qcow_reopen_replays_witness :
  exists q, from_file (fun _ => Ok base) (q_file written) false = Ok q /\ Consistent q /\ content q 511 = 8 /\ content q 0 = 0.
Proof.
  destruct (qcow_reopen_replays (fun _ => Ok base) sample written [(510, [9; 8; 7; 6])] [Ok 4] false sample_consistent)
    as (q & E & C & _ & Hc).
  - left. reflexivity.
  - reflexivity.
  - constructor; [lia|constructor].
  - cbn [writes]. rewrite written_run. reflexivity.
  - exact written_small.
  - exists q. split; [exact E|]. split; [exact C|]. split.
    + rewrite (Hc 511) by (vm_compute; split; [discriminate|reflexivity]). vm_compute. reflexivity.
    + rewrite (Hc 0) by (vm_compute; split; [discriminate|reflexivity]). vm_compute. reflexivity.
Defined.

(** ** A block device over the sample image *)

Definition device : VirtioBlockDevice (QcowBackend MemoryBackend) := VirtioBlockDevice_new sample [118; 100; 97].

Lemma device_ok : dev_ok device.
Proof. split; [split; [exact sample_consistent|exact sample_small]|exact sample_small|]. vm_compute. repeat split. Qed.

(** Write one byte to sector 3. *)
Definition out_header : list Z := [1; 0; 0; 0; 0; 0; 0; 0; 3; 0; 0; 0; 0; 0; 0; 0].
Definition served : VirtioBlockDevice (QcowBackend MemoryBackend) := (process_request out_header [5] device).1.

Lemma served_run : process_request out_header [5] device = (served, Ok ([5], (VIRTIO_BLK_S_OK, 1))).
Proof. vm_compute. reflexivity. Qed.

Lemma block_serves_witness : kept device served /\ byte_at (backend served) 1536 = 5 /\ byte_at (backend served) 1537 = 0.
Proof.
  assert (Hb : Forall (fits 8) out_header /\ Forall (fits 8) [5]) by (split; repeat constructor; lia).
  assert (Hl : in_limits (backend served)) by (vm_compute; discriminate).
  assert (Hs : moves_data (request_header out_header) -> sector (request_header out_header) * 512 <= OFF_MAX /\ sector (request_header out_header) * 512 + len [5] < 2 ^ 64)
    by (intros _; split; [discriminate|reflexivity]).
  destruct (block_serves device served out_header [5] (Ok ([5], (VIRTIO_BLK_S_OK, 1)))
    device_ok (proj1 Hb) (proj2 Hb) Hs served_run Hl) as (buf & st & n & E & K & [[Hr _]|(_ & _ & _ & _ & Hc)]).
  - destruct Hr as (_ & -> & _). injection E as _ E. discriminate E.
  - split; [exact K|]. split.
    + rewrite (Hc 1536) by (vm_compute; split; [discriminate|reflexivity]). vm_compute. reflexivity.
    + rewrite (Hc 1537) by (vm_compute; split; [discriminate|reflexivity]). vm_compute. reflexivity.
Defined.

Lemma block_sector_overflow_panics_witness :
  process_request [0; 0; 0; 0; 0; 0; 0; 0; 0; 0; 0; 0; 0; 0; 128; 0] [7] device = (device, Panic).
Proof.
  apply (block_sector_overflow_panics device _ (mk_BlockRequestHeader 0 0 (2 ^ 55))); [reflexivity|reflexivity|]. left. reflexivity.
Defined.

Lemma block_config_layout_witness : read_config device 0 8 = 128 /\ read_config device 20 4 = 512.
Proof.
  destruct (block_config_layout device) as (E0 & _ & _ & _ & _ & _ & E20 & _).
  - split; [vm_compute; split; [discriminate|reflexivity]|..];
      repeat (constructor; [vm_compute; split; [discriminate|reflexivity]|]); constructor.
  - split; [exact E0|exact E20].
Defined.
