(* ===== verification/Switch.v ===== *)
(** * The virtual Ethernet switch

    enlil-devices/src/net/switch.rs and the address predicates of
    net/config.rs.  The forwarding database and the port queues are finite
    maps; [Instant]s are integers (nanoseconds), and every reading of the clock
    a call makes is an argument of its own.  Proved: a frame goes to exactly
    the ports it should, never back to its source; a learned address is
    forwarded to its port until it ages out; the database never exceeds its
    limit.  A last theorem shows what reusing a port number does. *)

From Stdlib Require Import ZArith Lia Bool.
From stdpp Require Import base decidable numbers list gmap relations.
From S2P Require Import Prelude Rust Storage.

(** ** Addresses *)

(** [MacAddress], as its six octets. *)
Abbreviation mac := (list Z).

Abbreviation is_multicast m := (tst (getb m 0) 0x01) (only parsing).
Abbreviation is_broadcast m := (bool_decide (m = replicate 6 0xFF)) (only parsing).

Lemma broadcast_multicast m : is_broadcast m = true -> is_multicast m = true.
Proof. by intros ->%bool_decide_eq_true. Qed.

(** ** State *)

Record FdbEntry := mk_FdbEntry { fe_port : Z; last_seen : Z }.

Record SwitchStats := mk_SwitchStats { received : Z; forwarded : Z; flooded : Z; dropped : Z }.

Record VirtualSwitch := mk_VirtualSwitch {
  fdb : gmap mac FdbEntry;
  port_queues : gmap Z (list (list Z));
  ports : list Z;
  aging_time : Z;
  max_fdb_entries : Z;
  sw_stats : SwitchStats;
}.

Abbreviation swm A := (M VirtualSwitch Empty_set A).

Definition with_fdb (sw : VirtualSwitch) f : VirtualSwitch :=
  mk_VirtualSwitch f (port_queues sw) (ports sw) (aging_time sw) (max_fdb_entries sw) (sw_stats sw).
Definition with_queues (sw : VirtualSwitch) q : VirtualSwitch :=
  mk_VirtualSwitch (fdb sw) q (ports sw) (aging_time sw) (max_fdb_entries sw) (sw_stats sw).
Definition with_sw_stats (sw : VirtualSwitch) s : VirtualSwitch :=
  mk_VirtualSwitch (fdb sw) (port_queues sw) (ports sw) (aging_time sw) (max_fdb_entries sw) s.

(** Five minutes, in nanoseconds. *)
Definition VirtualSwitch_new : VirtualSwitch := mk_VirtualSwitch ∅ ∅ [] (300 * 10 ^ 9) 4096 (mk_SwitchStats 0 0 0 0).
Definition with_aging_time (t : Z) : VirtualSwitch := mk_VirtualSwitch ∅ ∅ [] t 4096 (mk_SwitchStats 0 0 0 0).

(** ** Ports *)

Definition add_port (sw : VirtualSwitch) : VirtualSwitch * Z :=
  let id := wrap 32 (Z.of_nat (length (ports sw))) in
  (mk_VirtualSwitch (fdb sw) (<[id := []]> (port_queues sw)) (ports sw ++ [id])
     (aging_time sw) (max_fdb_entries sw) (sw_stats sw), id).

Definition remove_port (port : Z) (sw : VirtualSwitch) : VirtualSwitch :=
  mk_VirtualSwitch (filter (fun kv => fe_port kv.2 <> port) (fdb sw)) (delete port (port_queues sw))
    (filter (fun p => p <> port) (ports sw)) (aging_time sw) (max_fdb_entries sw) (sw_stats sw).

(** ** The forwarding database *)

(** [Instant::elapsed], which saturates at zero. *)
Definition elapsed (now seen : Z) : Z := Z.max 0 (now - seen).

Definition age_entries (now : Z) (sw : VirtualSwitch) : VirtualSwitch :=
  with_fdb sw (filter (fun kv => elapsed now (last_seen kv.2) < aging_time sw) (fdb sw)).

Definition fdb_full (sw : VirtualSwitch) : bool := max_fdb_entries sw <=? Z.of_nat (size (fdb sw)).

Definition fdb_insert (now : Z) (m : mac) (port : Z) (sw : VirtualSwitch) : VirtualSwitch :=
  with_fdb sw (<[m := mk_FdbEntry port now]> (fdb sw)).

(** [t_full] is the clock when a full database is aged, [now] when the entry is stored. *)
Definition learn (t_full now : Z) (m : mac) (port : Z) (sw : VirtualSwitch) : VirtualSwitch :=
  if is_broadcast m || is_multicast m then sw
  else if fdb_full sw && negb (bool_decide (is_Some (fdb sw !! m))) then
    let sw := age_entries t_full sw in
    if fdb_full sw then sw else fdb_insert now m port sw
  else fdb_insert now m port sw.

Definition lookup_port (now : Z) (m : mac) (sw : VirtualSwitch) : option Z :=
  match fdb sw !! m with
  | Some e => if elapsed now (last_seen e) <? aging_time sw then Some (fe_port e) else None
  | None => None
  end.

(** ** Forwarding *)

Definition enqueue (port : Z) (frame : list Z) (sw : VirtualSwitch) : VirtualSwitch :=
  match port_queues sw !! port with
  | Some q => with_queues sw (<[port := q ++ [frame]]> (port_queues sw))
  | None => sw
  end.

(** [stats.x += 1] *)
Definition bump (f : SwitchStats -> res Empty_set SwitchStats) : swm unit := fun sw =>
  match f (sw_stats sw) with Ok s => (with_sw_stats sw s, Ok tt) | Err e => (sw, Err e) | Panic => (sw, Panic) end.
Definition count_received : swm unit := bump (fun s => n ← radd (received s) 1; Ok (mk_SwitchStats n (forwarded s) (flooded s) (dropped s))).
Definition count_forwarded : swm unit := bump (fun s => n ← radd (forwarded s) 1; Ok (mk_SwitchStats (received s) n (flooded s) (dropped s))).
Definition count_flooded : swm unit := bump (fun s => n ← radd (flooded s) 1; Ok (mk_SwitchStats (received s) (forwarded s) n (dropped s))).
Definition count_dropped : swm unit := bump (fun s => n ← radd (dropped s) 1; Ok (mk_SwitchStats (received s) (forwarded s) (flooded s) n)).

Definition modify (f : VirtualSwitch -> VirtualSwitch) : swm unit := fun sw => (f sw, Ok tt).

Definition flood (src_port : Z) (frame : list Z) : swm unit :=
  sw ← get;
  let targets := filter (fun p => p <> src_port) (ports sw) in
  modify (fun sw => fold_left (fun sw p => enqueue p frame sw) targets sw) ;;
  count_flooded.

(** The readings of the clock one call of [process_frame] makes. *)
Record readings := mk_readings { t_full : Z; t_learn : Z; t_age : Z; t_lookup : Z }.

Definition process_frame (ts : readings) (src_port : Z) (frame : list Z) : swm unit :=
  if len frame <? 14 then count_dropped
  else
    count_received ;;
    let dst_mac := sub frame 0 6 in
    let src_mac := sub frame 6 6 in
    modify (learn (t_full ts) (t_learn ts) src_mac src_port) ;;
    sw ← get;
    (if received (sw_stats sw) mod 1000 =? 0 then modify (age_entries (t_age ts)) else mret tt) ;;
    if is_broadcast dst_mac || is_multicast dst_mac then flood src_port frame
    else
      sw ← get;
      match lookup_port (t_lookup ts) dst_mac sw with
      | Some dst_port =>
          if dst_port =? src_port then count_dropped
          else modify (enqueue dst_port frame) ;; count_forwarded
      | None => flood src_port frame
      end.

Definition dequeue (port : Z) (sw : VirtualSwitch) : VirtualSwitch * option (list Z) :=
  match port_queues sw !! port with
  | Some (f :: q) => (with_queues sw (<[port := q]> (port_queues sw)), Some f)
  | _ => (sw, None)
  end.

Definition has_pending (port : Z) (sw : VirtualSwitch) : bool :=
  match port_queues sw !! port with Some (_ :: _) => true | _ => false end.
Definition pending_count (port : Z) (sw : VirtualSwitch) : Z :=
  match port_queues sw !! port with Some q => Z.of_nat (length q) | None => 0 end.

Definition flush_fdb (sw : VirtualSwitch) : VirtualSwitch := with_fdb sw ∅.

(** ** What a call changes *)

Lemma age_lookup t sw m e :
  fdb (age_entries t sw) !! m = Some e <-> fdb sw !! m = Some e /\ elapsed t (last_seen e) < aging_time sw.
Proof. unfold age_entries, with_fdb. cbn [fdb]. by rewrite map_lookup_filter_Some. Qed.

Lemma size_filter_le {V} (P : mac * V -> Prop) `{forall x, Decision (P x)} (f : gmap mac V) : (size (filter P f) <= size f)%nat.
Proof. apply map_subseteq_size, map_filter_subseteq. Qed.

(** Learning touches the database only; entries keep their keys' owners or name the source. *)
Lemma learn_only t now m p sw : learn t now m p sw = with_fdb sw (fdb (learn t now m p sw)).
Proof. unfold learn, fdb_insert, age_entries, with_fdb. destruct sw. repeat case_match; done. Qed.

Lemma learn_lookup t now m p sw k e :
  fdb (learn t now m p sw) !! k = Some e ->
  fdb sw !! k = Some e \/ (k = m /\ e = mk_FdbEntry p now /\ is_multicast m = false).
Proof.
  unfold learn. destruct (is_broadcast m || is_multicast m) eqn:Em; [by left|].
  apply orb_false_iff in Em as [_ Em].
  assert (Hins : forall sw1, (forall k e, fdb sw1 !! k = Some e -> fdb sw !! k = Some e) ->
    fdb (fdb_insert now m p sw1) !! k = Some e -> fdb sw !! k = Some e \/ (k = m /\ e = mk_FdbEntry p now /\ is_multicast m = false)).
  { intros sw1 Hs H. cbn in H. apply lookup_insert_Some in H as [[<- <-]|[_ H]]; [by right|left; by apply Hs]. }
  destruct (fdb_full sw && _); [|by apply Hins].
  destruct (fdb_full (age_entries t sw)); [intros H%age_lookup; left; apply H|].
  apply Hins. intros k' e' H%age_lookup. apply H.
Qed.

(** A learned address is in the database unless the database is full of fresh entries. *)
Lemma learn_stored t now m p sw :
  is_multicast m = false -> Z.of_nat (size (fdb sw)) < max_fdb_entries sw \/ is_Some (fdb sw !! m) ->
  fdb (learn t now m p sw) !! m = Some (mk_FdbEntry p now).
Proof.
  intros Em Hroom. unfold learn. destruct (is_broadcast m) eqn:Eb; [apply broadcast_multicast in Eb; congruence|]. rewrite Em. cbn [orb].
  assert (Ei : forall sw1, fdb (fdb_insert now m p sw1) !! m = Some (mk_FdbEntry p now)) by (intros; cbn; by rewrite lookup_insert_eq).
  destruct (fdb_full sw && negb (bool_decide (is_Some (fdb sw !! m)))) eqn:Ef; [|apply Ei].
  apply andb_true_iff in Ef as [Ef Eb']. unfold fdb_full in Ef. apply Z.leb_le in Ef.
  apply negb_true_iff, bool_decide_eq_false in Eb'. destruct Hroom; [lia|done].
Qed.

Lemma learn_keeps t now m p sw k e :
  fdb sw !! k = Some e -> k <> m -> elapsed t (last_seen e) < aging_time sw -> fdb (learn t now m p sw) !! k = Some e.
Proof.
  intros Hk Hn Ht. unfold learn. destruct (is_broadcast m || is_multicast m); [done|].
  destruct (fdb_full sw && _); [|cbn; by rewrite lookup_insert_ne].
  destruct (fdb_full (age_entries t sw)); [by apply age_lookup|]. cbn. rewrite lookup_insert_ne by done. by apply (age_lookup t sw).
Qed.

Lemma learn_size t now m p sw :
  Z.of_nat (size (fdb sw)) <= max_fdb_entries sw -> Z.of_nat (size (fdb (learn t now m p sw))) <= max_fdb_entries sw.
Proof.
  intros Hs. unfold learn. destruct (is_broadcast m || is_multicast m); [done|].
  assert (Hage : (size (fdb (age_entries t sw)) <= size (fdb sw))%nat) by apply size_filter_le.
  assert (Hins : forall sw1, max_fdb_entries sw1 = max_fdb_entries sw -> fdb_full sw1 = false \/ is_Some (fdb sw1 !! m) /\ Z.of_nat (size (fdb sw1)) <= max_fdb_entries sw ->
    Z.of_nat (size (fdb (fdb_insert now m p sw1))) <= max_fdb_entries sw).
  { intros sw1 Em [Hf|[[e He] Hl]]; cbn; rewrite map_size_insert; [|by rewrite He].
    unfold fdb_full in Hf. apply Z.leb_gt in Hf. destruct (fdb sw1 !! m); cbn; lia. }
  destruct (fdb_full sw) eqn:Ef; cbn [andb]; [|by apply Hins; [done|left]].
  destruct (bool_decide (is_Some (fdb sw !! m))) eqn:Eb; cbn [negb].
  - apply bool_decide_eq_true in Eb. apply Hins; auto.
  - destruct (fdb_full (age_entries t sw)) eqn:Ef2; [lia|]. by apply Hins; [|left].
Qed.

(** The queue of a port, with [frame] appended when [b]. *)
Definition pushed (frame : list Z) (b : bool) (q : option (list (list Z))) : option (list (list Z)) :=
  if b then (fun q => q ++ [frame]) <$> q else q.

Lemma enqueue_spec p frame sw :
  exists Q, enqueue p frame sw = with_queues sw Q /\ forall x, Q !! x = pushed frame (bool_decide (x = p)) (port_queues sw !! x).
Proof.
  unfold enqueue, pushed. destruct (port_queues sw !! p) as [q|] eqn:E.
  - eexists. split; [done|]. intros x. case_bool_decide as H; [subst; by rewrite lookup_insert_eq, E|by rewrite lookup_insert_ne].
  - exists (port_queues sw). split; [by destruct sw|]. intros x. case_bool_decide as H; [subst; by rewrite E|done].
Qed.

Lemma enqueues_spec frame l : forall sw,
  exists Q, fold_left (fun sw p => enqueue p frame sw) l sw = with_queues sw Q /\
    (NoDup l -> forall x, Q !! x = pushed frame (bool_decide (x ∈ l)) (port_queues sw !! x)).
Proof.
  induction l as [|p l IH]; intros sw; cbn [fold_left].
  - exists (port_queues sw). split; [by destruct sw|]. intros _ x. by rewrite bool_decide_eq_false_2 by (by apply not_elem_of_nil).
  - destruct (enqueue_spec p frame sw) as (Q1 & -> & HQ1). destruct (IH (with_queues sw Q1)) as (Q & -> & HQ). exists Q.
    split; [done|]. intros [Hp Hnd]%NoDup_cons x. rewrite HQ by done. cbn. rewrite HQ1.
    destruct (decide (x = p)) as [->|Hn].
    + rewrite (bool_decide_eq_false_2 (p ∈ l)) by done. rewrite !bool_decide_eq_true_2 by (rewrite ?elem_of_cons; auto). done.
    + rewrite (bool_decide_eq_false_2 (x = p)) by done. cbn [pushed]. f_equal. apply bool_decide_ext. rewrite elem_of_cons. intuition congruence.
Qed.

(** No counter is at its maximum. *)
Definition roomy (s : SwitchStats) : Prop :=
  received s + 1 < 2 ^ 64 /\ forwarded s + 1 < 2 ^ 64 /\ flooded s + 1 < 2 ^ 64 /\ dropped s + 1 < 2 ^ 64.

Lemma received_ok sw : received (sw_stats sw) + 1 < 2 ^ 64 -> exists s, count_received sw = (with_sw_stats sw s, Ok tt) /\
  forwarded s = forwarded (sw_stats sw) /\ flooded s = flooded (sw_stats sw) /\ dropped s = dropped (sw_stats sw).
Proof. intros H%Z.ltb_lt. unfold count_received, bump, radd. rewrite H. eexists. by split. Qed.

Lemma counted_ok sw c :
  forwarded (sw_stats sw) + 1 < 2 ^ 64 /\ flooded (sw_stats sw) + 1 < 2 ^ 64 /\ dropped (sw_stats sw) + 1 < 2 ^ 64 ->
  c = count_forwarded \/ c = count_flooded \/ c = count_dropped -> exists s, c sw = (with_sw_stats sw s, Ok tt).
Proof.
  intros (H1%Z.ltb_lt & H2%Z.ltb_lt & H3%Z.ltb_lt). unfold count_forwarded, count_flooded, count_dropped, bump, radd.
  intros [-> | [-> | ->]]; rewrite ?H1, ?H2, ?H3; by eexists.
Qed.

(** The ports a frame goes to: the one the database names for its
    destination, or all; never the one it came from. *)
Definition addressed (sw : VirtualSwitch) (now src : Z) (frame : list Z) (p : Z) : bool :=
  let dst := sub frame 0 6 in
  negb (p =? src) &&
  match (if is_multicast dst then None else lookup_port now dst sw) with
  | Some d => p =? d
  | None => bool_decide (p ∈ ports sw)
  end.

Lemma flood_run src frame sw :
  flooded (sw_stats sw) + 1 < 2 ^ 64 ->
  exists Q s, flood src frame sw = (with_sw_stats (with_queues sw Q) s, Ok tt) /\
    (NoDup (ports sw) -> forall x, Q !! x = pushed frame (negb (x =? src) && bool_decide (x ∈ ports sw)) (port_queues sw !! x)).
Proof.
  intros Hc. unfold flood.
  destruct (enqueues_spec frame (filter (fun p => p <> src) (ports sw)) sw) as (Q & EQ & HQ).
  exists Q, (mk_SwitchStats (received (sw_stats sw)) (forwarded (sw_stats sw)) (flooded (sw_stats sw) + 1) (dropped (sw_stats sw))). split.
  - run reflexivity. run (unfold modify; by rewrite EQ). unfold count_flooded, bump, radd. cbn. by rewrite (proj2 (Z.ltb_lt _ _)).
  - intros Hnd x. rewrite HQ by (by apply NoDup_filter). f_equal. destruct (Z.eqb_spec x src) as [->|Hn]; cbn.
    + apply bool_decide_eq_false_2. rewrite list_elem_of_filter. intuition congruence.
    + apply bool_decide_ext. rewrite list_elem_of_filter. intuition congruence.
Qed.

(** The database a frame is looked up in: the source learned, aged now and then. *)
Definition fdb_after (ts : readings) (src : Z) (frame : list Z) (sw : VirtualSwitch) (f : gmap mac FdbEntry) : Prop :=
  let sw1 := learn (t_full ts) (t_learn ts) (sub frame 6 6) src sw in f = fdb sw1 \/ f = fdb (age_entries (t_age ts) sw1).

(** The last step of [process_frame], from a state that differs in its database and statistics only. *)
Lemma dispatch_run now src frame sw :
  forwarded (sw_stats sw) + 1 < 2 ^ 64 /\ flooded (sw_stats sw) + 1 < 2 ^ 64 /\ dropped (sw_stats sw) + 1 < 2 ^ 64 ->
  exists Q s,
    (if is_broadcast (sub frame 0 6) || is_multicast (sub frame 0 6) then flood src frame
     else sw ← get;
          match lookup_port now (sub frame 0 6) sw with
          | Some dst_port => if dst_port =? src then count_dropped else modify (enqueue dst_port frame) ;; count_forwarded
          | None => flood src frame
          end) sw = (with_sw_stats (with_queues sw Q) s, Ok tt) /\
    (NoDup (ports sw) -> forall x, Q !! x = pushed frame (addressed sw now src frame x) (port_queues sw !! x)).
Proof.
  intros Hc. destruct (flood_run src frame sw ltac:(lia)) as (Q & s & EQ & HQ). unfold addressed.
  destruct (is_multicast (sub frame 0 6)) eqn:Em; [rewrite orb_true_r; eauto|].
  destruct (is_broadcast (sub frame 0 6)) eqn:Eb; [apply broadcast_multicast in Eb; congruence|]. cbn [orb].
  rewrite (bind_run get _ sw sw sw eq_refl). destruct (lookup_port now (sub frame 0 6) sw) as [d|]; [|eauto]. clear Q s EQ HQ.
  destruct (Z.eqb_spec d src) as [->|Hn].
  - destruct (counted_ok sw count_dropped Hc) as [s Es]; [auto|]. exists (port_queues sw), s. split; [rewrite Es; by destruct sw|].
    intros _ x. by destruct (x =? src).
  - destruct (enqueue_spec d frame sw) as (Q & EQ & HQ).
    destruct (counted_ok (with_queues sw Q) count_forwarded Hc) as [s Es]; [auto|]. exists Q, s. split.
    + rewrite (bind_run (modify _) _ sw (with_queues sw Q) tt); [done|]. unfold modify. by rewrite EQ.
    + intros _ x. rewrite HQ. f_equal. destruct (Z.eqb_spec x d) as [->|Hx].
      * rewrite (proj2 (Z.eqb_neq d src)) by done. by apply bool_decide_eq_true_2.
      * rewrite andb_false_r. by apply bool_decide_eq_false_2.
Qed.

Lemma process_frame_run ts src frame sw :
  roomy (sw_stats sw) -> 14 <= len frame ->
  exists f Q s,
    process_frame ts src frame sw = (mk_VirtualSwitch f Q (ports sw) (aging_time sw) (max_fdb_entries sw) s, Ok tt) /\
    fdb_after ts src frame sw f /\
    (NoDup (ports sw) ->
     forall x, Q !! x = pushed frame (addressed (with_fdb sw f) (t_lookup ts) src frame x) (port_queues sw !! x)).
Proof.
  intros (H1 & H2 & H3 & H4) Hl. unfold process_frame. rewrite (proj2 (Z.ltb_ge _ _)) by done.
  destruct (received_ok sw H1) as (s1 & E1 & Ef & Eo & Ed). set (sw1 := learn (t_full ts) (t_learn ts) (sub frame 6 6) src sw).
  assert (Eo1 : sw1 = with_fdb sw (fdb sw1)) by apply learn_only.
  assert (El : learn (t_full ts) (t_learn ts) (sub frame 6 6) src (with_sw_stats sw s1) = with_sw_stats (with_fdb sw (fdb sw1)) s1).
  { unfold sw1, learn, fdb_full, fdb_insert, age_entries, with_fdb, with_sw_stats. destruct sw. cbn. repeat case_match; done. }
  assert (Hf : exists f, fdb_after ts src frame sw f /\
    (if received (sw_stats (with_sw_stats (with_fdb sw (fdb sw1)) s1)) mod 1000 =? 0 then modify (age_entries (t_age ts)) else mret tt)
      (with_sw_stats (with_fdb sw (fdb sw1)) s1) = (with_sw_stats (with_fdb sw f) s1, @Ok Empty_set unit tt)).
  { case_match; eexists; (split; [|reflexivity]); [right|by left].
    transitivity (fdb (age_entries (t_age ts) (with_fdb sw (fdb sw1)))); [done|]. by rewrite <- Eo1. }
  destruct Hf as (f & Hf & Eage).
  destruct (dispatch_run (t_lookup ts) src frame (with_sw_stats (with_fdb sw f) s1)) as (Q & s & E & HQ); [cbn; lia|].
  exists f, Q, s. split; [|split; [done|exact HQ]].
  rewrite (bind_run _ _ _ _ _ E1). cbn zeta. rewrite (bind_run (modify _) _ _ (with_sw_stats (with_fdb sw (fdb sw1)) s1) tt) by (unfold modify; by rewrite El).
  rewrite (bind_run get _ _ _ _ eq_refl), (bind_run _ _ _ _ _ Eage). exact E.
Qed.

(** ** The invariant *)

Record sw_ok (sw : VirtualSwitch) : Prop := {
  swo_nodup : NoDup (ports sw);
  swo_queues : forall p, is_Some (port_queues sw !! p) <-> p ∈ ports sw;
  swo_fdb : forall m e, fdb sw !! m = Some e -> fe_port e ∈ ports sw;
}.

Definition queue (sw : VirtualSwitch) (p : Z) : list (list Z) := default [] (port_queues sw !! p).

Lemma pushed_some frame b q : is_Some (pushed frame b q) <-> is_Some q.
Proof. unfold pushed. destruct b; [apply fmap_is_Some|done]. Qed.

Lemma fdb_after_ports ts src frame sw f : sw_ok sw -> src ∈ ports sw -> fdb_after ts src frame sw f ->
  forall m e, f !! m = Some e -> fe_port e ∈ ports sw.
Proof.
  intros Hok Hsrc Hf m e Hm.
  assert (H : fdb (learn (t_full ts) (t_learn ts) (sub frame 6 6) src sw) !! m = Some e).
  { destruct Hf as [-> | ->]; [done|]. by apply age_lookup in Hm as [Hm _]. }
  apply learn_lookup in H as [H|(_ & -> & _)]; [by apply (swo_fdb sw Hok m)|done].
Qed.

Lemma frame_ok ts src frame sw sw' r :
  sw_ok sw -> src ∈ ports sw -> roomy (sw_stats sw) -> 14 <= len frame -> process_frame ts src frame sw = (sw', r) ->
  r = Ok tt /\ sw_ok sw' /\ ports sw' = ports sw /\ fdb_after ts src frame sw (fdb sw') /\
  forall p, p ∈ ports sw -> queue sw' p = queue sw p ++ (if addressed sw' (t_lookup ts) src frame p then [frame] else []).
Proof.
  intros Hok Hsrc Hr Hl E. destruct (process_frame_run ts src frame sw Hr Hl) as (f & Q & s & E' & Hf & HQ).
  rewrite E in E'. simplify_eq. specialize (HQ (swo_nodup sw Hok)). split_and!; try done.
  - split; cbn; [apply Hok| |by apply (fdb_after_ports ts src frame sw f Hok)].
    intros p. by rewrite HQ, pushed_some, (swo_queues sw Hok).
  - intros p Hp. unfold queue. cbn. rewrite HQ. apply (swo_queues sw Hok) in Hp as [q ->].
    change (addressed (mk_VirtualSwitch f Q (ports sw) (aging_time sw) (max_fdb_entries sw) s) (t_lookup ts) src frame p)
      with (addressed (with_fdb sw f) (t_lookup ts) src frame p).
    unfold pushed. case_match; cbn; [done|by rewrite app_nil_r].
Qed.

(** C20: Forwarding is exact: a frame is appended to the queue of every port it
    is addressed to and of no other.  It is addressed to the port the database
    names for its destination when that entry is fresh, to all ports when the
    destination is a group address or unknown, and never to the port it came
    from. *)
Theorem switch_forwards ts src frame sw sw' r :
  sw_ok sw -> src ∈ ports sw -> roomy (sw_stats sw) -> 14 <= len frame -> process_frame ts src frame sw = (sw', r) ->
  r = Ok tt /\ sw_ok sw' /\ ports sw' = ports sw /\ queue sw' src = queue sw src /\
  forall p, p ∈ ports sw -> p <> src ->
    let dst := sub frame 0 6 in
    queue sw' p = queue sw p ++
      match (if is_multicast dst then None else lookup_port (t_lookup ts) dst sw') with
      | Some d => if p =? d then [frame] else []
      | None => [frame]
      end.
Proof.
  intros Hok Hsrc Hr Hl E. destruct (frame_ok ts src frame sw sw' r Hok Hsrc Hr Hl E) as (-> & Hok' & Ep & _ & Hq). split_and!; try done.
  - rewrite Hq by done. unfold addressed. rewrite Z.eqb_refl. cbn. by rewrite app_nil_r.
  - intros p Hp Hn dst. rewrite Hq by done. unfold addressed. rewrite (proj2 (Z.eqb_neq p src)) by done. cbn [negb andb]. fold dst.
    f_equal. rewrite Ep. destruct (if is_multicast dst then None else _) as [d|]; [done|]. by rewrite bool_decide_eq_true_2.
Qed.

(** ** Sequences of operations *)

Inductive swstep (sw : VirtualSwitch) : VirtualSwitch -> Prop :=
  | sws_add : swstep sw (add_port sw).1
  | sws_remove p : swstep sw (remove_port p sw)
  | sws_frame ts p frame : roomy (sw_stats sw) -> swstep sw (process_frame ts p frame sw).1
  | sws_dequeue p : swstep sw (dequeue p sw).1
  | sws_flush : swstep sw (flush_fdb sw).

Lemma short_frame ts p frame sw : len frame < 14 -> roomy (sw_stats sw) ->
  exists s, process_frame ts p frame sw = (with_sw_stats sw s, Ok tt).
Proof.
  intros Hl (_ & H2 & H3 & H4). unfold process_frame. rewrite (proj2 (Z.ltb_lt _ _)) by done. apply counted_ok; auto.
Qed.

(** The database holds at most [max_fdb_entries] addresses, none of a group. *)
Definition fdb_bounded (sw : VirtualSwitch) : Prop :=
  Z.of_nat (size (fdb sw)) <= max_fdb_entries sw /\ forall m e, fdb sw !! m = Some e -> is_multicast m = false.

Lemma fdb_bounded_sub sw f : fdb_bounded sw -> f ⊆ fdb sw -> fdb_bounded (with_fdb sw f).
Proof.
  intros [Hs Hm] Hf. split; cbn.
  - pose proof (map_subseteq_size _ _ Hf). lia.
  - intros m e He. apply (Hm m e). by apply (lookup_weaken _ _ _ _ He).
Qed.

Lemma fdb_bounded_learn t now m p sw : fdb_bounded sw -> fdb_bounded (learn t now m p sw).
Proof.
  intros [Hs Hm]. split.
  - rewrite (learn_only t now m p sw) at 2. cbn. by apply learn_size.
  - intros k e Hk. apply learn_lookup in Hk as [Hk|(-> & _ & ?)]; [by apply (Hm k e)|done].
Qed.

Lemma fdb_bounded_step sw sw' : swstep sw sw' -> fdb_bounded sw -> fdb_bounded sw' /\ max_fdb_entries sw' = max_fdb_entries sw.
Proof.
  intros Hst Hb. destruct Hst as [|p|ts p frame Hr|p|].
  - done.
  - split; [|done]. by apply (fdb_bounded_sub sw (filter (fun kv => fe_port kv.2 <> p) (fdb sw)) Hb), map_filter_subseteq.
  - destruct (Z.lt_ge_cases (len frame) 14) as [Hl|Hl]; [destruct (short_frame ts p frame sw Hl Hr) as [s ->]; done|].
    destruct (process_frame_run ts p frame sw Hr Hl) as (f & Q & s & -> & Hf & _). split; [|done].
    set (sw1 := learn (t_full ts) (t_learn ts) (sub frame 6 6) p sw) in *.
    assert (H1 : fdb_bounded sw1) by (by apply fdb_bounded_learn).
    assert (Hf' : f ⊆ fdb sw1) by (destruct Hf as [-> | ->]; [done|apply map_filter_subseteq]).
    pose proof (fdb_bounded_sub sw1 f H1 Hf') as [Hs Hm]. split; [|exact Hm].
    unfold sw1 in Hs. rewrite learn_only in Hs. exact Hs.
  - unfold dequeue. by destruct (port_queues sw !! p) as [[|]|].
  - split; [|done]. apply (fdb_bounded_sub sw ∅ Hb), map_empty_subseteq.
Qed.

(** C22: Whatever frames, ports and flushes a switch has seen, its forwarding
    database holds at most 4096 addresses and none of them is a group
    address. *)
Theorem switch_fdb_bounded t sw :
  rtc swstep (with_aging_time t) sw ->
  Z.of_nat (size (fdb sw)) <= 4096 /\ forall m, is_Some (fdb sw !! m) -> is_multicast m = false.
Proof.
  intros R. assert (H : fdb_bounded sw /\ max_fdb_entries sw = 4096).
  { revert sw R. apply rtc_ind_r; [split; [split; [cbn [fdb with_aging_time]; rewrite map_size_empty; cbn; lia|]|done]; intros m e; cbn; by rewrite lookup_empty|].
    intros sw1 sw2 _ Hst [Hb Em]. destruct (fdb_bounded_step sw1 sw2 Hst Hb) as [Hb' Em']. split; [done|congruence]. }
  destruct H as [[Hs Hm] Em]. split; [lia|]. intros m [e He]. by apply (Hm m e).
Qed.

(** ** A learned address *)

(** Station [m] is on port [a], heard at [t]. *)
Definition known (m : mac) (a t : Z) (sw : VirtualSwitch) : Prop :=
  sw_ok sw /\ a ∈ ports sw /\ is_multicast m = false /\ fdb sw !! m = Some (mk_FdbEntry a t).

(** Readings at which an entry of time [t] has not aged out. *)
Definition young (ts : readings) (t aging : Z) : Prop :=
  elapsed (t_full ts) t < aging /\ elapsed (t_age ts) t < aging /\ elapsed (t_lookup ts) t < aging.

(** What may happen meanwhile: other stations' frames, deliveries, ports that leave. *)
Inductive meanwhile (m : mac) (a t : Z) (sw : VirtualSwitch) : VirtualSwitch -> Prop :=
  | mw_frame ts p frame :
      roomy (sw_stats sw) -> p ∈ ports sw -> sub frame 6 6 <> m -> young ts t (aging_time sw) ->
      meanwhile m a t sw (process_frame ts p frame sw).1
  | mw_dequeue p : meanwhile m a t sw (dequeue p sw).1
  | mw_remove p : p <> a -> meanwhile m a t sw (remove_port p sw).

Lemma fdb_after_keeps ts p frame sw f m e :
  fdb_after ts p frame sw f -> fdb sw !! m = Some e -> sub frame 6 6 <> m -> young ts (last_seen e) (aging_time sw) -> f !! m = Some e.
Proof.
  intros Hf Hm Hn (H1 & H2 & _).
  pose proof (learn_keeps (t_full ts) (t_learn ts) (sub frame 6 6) p sw m e Hm ltac:(congruence) H1) as Hk.
  destruct Hf as [-> | ->]; [done|]. apply age_lookup. split; [done|]. by rewrite (learn_only (t_full ts)).
Qed.

Lemma sw_ok_stats sw s : sw_ok sw -> sw_ok (with_sw_stats sw s).
Proof. intros []. by split. Qed.

Lemma sw_ok_dequeue p sw : sw_ok sw -> sw_ok (dequeue p sw).1.
Proof.
  intros Hok. unfold dequeue. destruct (port_queues sw !! p) as [[|f q]|] eqn:E; try done. destruct Hok as [H1 H2 H3]. split; try done.
  intros x. cbn. destruct (decide (x = p)) as [->|Hn]; [rewrite lookup_insert_eq|by rewrite lookup_insert_ne].
  split; [intros _; apply H2; by rewrite E|done].
Qed.

Lemma sw_ok_remove p sw : sw_ok sw -> sw_ok (remove_port p sw).
Proof.
  intros [H1 H2 H3]. split; cbn.
  - by apply NoDup_filter.
  - intros x. rewrite list_elem_of_filter. destruct (decide (x = p)) as [->|Hn].
    + rewrite lookup_delete_eq. split; [intros [? ?]; done|intros [? _]; done].
    + rewrite lookup_delete_ne by done. rewrite H2. intuition.
  - intros m e [He Hp]%map_lookup_filter_Some. apply list_elem_of_filter. split; [done|by apply (H3 m)].
Qed.

Lemma known_step m a t sw sw' : meanwhile m a t sw sw' -> known m a t sw -> known m a t sw' /\ aging_time sw' = aging_time sw.
Proof.
  intros Hst (Hok & Ha & Hm & Hf). destruct Hst as [ts p frame Hr Hp Hn Hy|p|p Hp].
  - destruct (Z.lt_ge_cases (len frame) 14) as [Hl|Hl].
    { destruct (short_frame ts p frame sw Hl Hr) as [s ->]. split; [|done]. by split_and!; [apply sw_ok_stats|..]. }
    destruct (process_frame ts p frame sw) as [sw' r] eqn:E. destruct (frame_ok ts p frame sw sw' r Hok Hp Hr Hl E) as (_ & Hok' & Ep & Hfa & _).
    destruct (process_frame_run ts p frame sw Hr Hl) as (f & Q & s & E' & _). rewrite E in E'. simplify_eq. cbn in *. split; [|done].
    split_and!; try done. by apply (fdb_after_keeps ts p frame sw f m (mk_FdbEntry a t) Hfa Hf).
  - split; [|unfold dequeue; by destruct (port_queues sw !! p) as [[|]|]]. split; [by apply sw_ok_dequeue|].
    unfold dequeue. by destruct (port_queues sw !! p) as [[|]|].
  - split; [|done]. split_and!; [by apply sw_ok_remove| |done|].
    + apply list_elem_of_filter. by split.
    + apply map_lookup_filter_Some. split; [done|]. cbn. congruence.
Qed.

Lemma known_while m a t sw sw' : rtc (meanwhile m a t) sw sw' -> known m a t sw -> known m a t sw' /\ aging_time sw' = aging_time sw.
Proof.
  induction 1 as [|sw1 sw2 sw3 Hst _ IH]; intros Hk; [done|]. destruct (known_step m a t sw1 sw2 Hst Hk) as [Hk2 E2].
  destruct (IH Hk2) as [Hk3 E3]. split; [done|congruence].
Qed.

(** C21: Once a station has sent a frame, frames to it go to its port alone:
    whatever other stations send, whichever other ports leave and whatever is
    dequeued in between, until its entry ages out. *)
Theorem switch_learned_unicast ts1 a f1 ts2 b f2 sw sw1 sw2 sw3 r :
  let m := sub f1 6 6 in
  sw_ok sw -> a ∈ ports sw -> roomy (sw_stats sw) -> 14 <= len f1 -> is_multicast m = false ->
  Z.of_nat (size (fdb sw)) < max_fdb_entries sw -> elapsed (t_age ts1) (t_learn ts1) < aging_time sw ->
  process_frame ts1 a f1 sw = (sw1, Ok tt) -> rtc (meanwhile m a (t_learn ts1)) sw1 sw2 ->
  b ∈ ports sw2 -> b <> a -> roomy (sw_stats sw2) -> 14 <= len f2 -> sub f2 0 6 = m -> sub f2 6 6 <> m ->
  young ts2 (t_learn ts1) (aging_time sw) -> process_frame ts2 b f2 sw2 = (sw3, r) ->
  r = Ok tt /\ queue sw3 a = queue sw2 a ++ [f2] /\ forall p, p ∈ ports sw2 -> p <> a -> queue sw3 p = queue sw2 p.
Proof.
  intros m Hok Ha Hr Hl1 Hm Hroom Hage E1 R Hb Hba Hr2 Hl2 Hd Hs Hy E2.
  destruct (frame_ok ts1 a f1 sw sw1 _ Hok Ha Hr Hl1 E1) as (_ & Hok1 & Ep1 & Hf1 & _).
  destruct (process_frame_run ts1 a f1 sw Hr Hl1) as (f & Q & s & E1' & _). rewrite E1 in E1'. injection E1' as Esw1.
  assert (Ea : aging_time sw1 = aging_time sw) by (by rewrite Esw1).
  assert (Hk1 : known m a (t_learn ts1) sw1).
  { split_and!; try done; [by rewrite Ep1|]. pose proof (learn_stored (t_full ts1) (t_learn ts1) m a sw Hm (or_introl Hroom)) as Hst.
    destruct Hf1 as [-> | ->]; [done|]. apply age_lookup. split; [done|]. by rewrite (learn_only (t_full ts1)). }
  destruct (known_while m a (t_learn ts1) sw1 sw2 R Hk1) as [(Hok2 & Ha2 & _ & Hf2) Ea2].
  destruct (frame_ok ts2 b f2 sw2 sw3 r Hok2 Hb Hr2 Hl2 E2) as (-> & _ & Ep3 & Hf3 & Hq).
  destruct (process_frame_run ts2 b f2 sw2 Hr2 Hl2) as (g & Q2 & s2 & E2' & _). rewrite E2 in E2'. injection E2' as Esw3.
  assert (Ea3 : aging_time sw3 = aging_time sw) by (rewrite Esw3; cbn; congruence).
  assert (Hf3m : fdb sw3 !! m = Some (mk_FdbEntry a (t_learn ts1))).
  { apply (fdb_after_keeps ts2 b f2 sw2 _ m (mk_FdbEntry a (t_learn ts1)) Hf3 Hf2 Hs). cbn. by rewrite Ea2, Ea. }
  assert (El : lookup_port (t_lookup ts2) m sw3 = Some a).
  { unfold lookup_port. rewrite Hf3m, Ea3. cbn. by rewrite (proj2 (Z.ltb_lt _ _)) by apply Hy. }
  assert (Had : forall p, addressed sw3 (t_lookup ts2) b f2 p = negb (p =? b) && (p =? a)).
  { intros p. unfold addressed. by rewrite Hd, Hm, El. }
  split; [done|]. split; [|intros p Hp Hn]; rewrite Hq, Had by done.
  - by rewrite Z.eqb_refl, (proj2 (Z.eqb_neq a b)).
  - by rewrite (proj2 (Z.eqb_neq p a)), andb_false_r, app_nil_r.
Qed.

(** ** Port numbers *)

Lemma sw_ok_add sw : sw_ok sw -> (add_port sw).2 ∉ ports sw -> sw_ok (add_port sw).1.
Proof.
  intros [H1 H2 H3] Hn. unfold add_port in *. cbn in *. set (id := wrap 32 _) in *. split; cbn.
  - apply NoDup_app. split; [done|]. split; [|apply NoDup_singleton]. intros x Hx ->%list_elem_of_singleton. done.
  - intros p. rewrite elem_of_app, list_elem_of_singleton. destruct (decide (p = id)) as [->|Hp].
    + rewrite lookup_insert_eq. split; [by right|done].
    + rewrite lookup_insert_ne by done. rewrite H2. intuition.
  - intros m e He. apply elem_of_app. left. by apply (H3 m e).
Qed.

Lemma filter_all {A} (P : A -> Prop) `{forall x, Decision (P x)} (l : list A) : Forall P l -> filter P l = l.
Proof. induction 1; [done|]. rewrite filter_cons_True by done. by f_equal. Qed.

(** Port numbers are reused: on a switch with ports [0] to [n - 1], removing
    a port other than the last and adding one gives the new port the number
    of the last, which is still attached: the frames queued for it are lost,
    and the number is listed twice, so that floods reach it twice. *)
Theorem switch_port_reuse n p sw :
  sw_ok sw -> ports sw = seqZ 0 n -> 2 <= n < 2 ^ 32 -> 0 <= p < n - 1 ->
  let '(sw', id) := add_port (remove_port p sw) in
  id = n - 1 /\ id ∈ ports (remove_port p sw) /\ queue (remove_port p sw) id = queue sw id /\ queue sw' id = [] /\ ~ NoDup (ports sw').
Proof.
  intros Hok Ep Hn Hp. cbn.
  assert (El : Z.of_nat (length (filter (fun x => x <> p) (ports sw))) = n - 1).
  { rewrite Ep. replace (seqZ 0 n) with (seqZ 0 p ++ p :: seqZ (p + 1) (n - p - 1)).
    - rewrite filter_app, filter_cons_False by auto. rewrite length_app.
      rewrite !filter_all; [rewrite !length_seqZ; lia|..].
      all: apply Forall_forall; intros x Hx%elem_of_seqZ; lia.
    - replace n with (p + (n - p)) at 2 by lia. rewrite seqZ_app by lia. f_equal. rewrite (seqZ_cons (0 + p)) by lia.
      f_equal; lia. }
  assert (Ei : wrap 32 (Z.of_nat (length (filter (fun x => x <> p) (ports sw)))) = n - 1).
  { rewrite El. apply Z.mod_small. lia. }
  assert (Hin : n - 1 ∈ filter (fun x => x <> p) (ports sw)).
  { rewrite Ep. apply list_elem_of_filter. split; [lia|]. apply elem_of_seqZ. lia. }
  rewrite Ei. split_and!; try done.
  - unfold queue. cbn. by rewrite lookup_delete_ne by lia.
  - unfold queue. cbn. by rewrite lookup_insert_eq.
  - intros Hnd. apply NoDup_app in Hnd as (_ & Hd & _). apply (Hd (n - 1)); [done|]. by apply list_elem_of_singleton.
Qed.

(** ** Three ports *)

Definition three : VirtualSwitch := (add_port (add_port (add_port VirtualSwitch_new).1).1).1.

Lemma three_ok : sw_ok three.
Proof.
  repeat (apply sw_ok_add; [|vm_compute; intros H; repeat (apply elem_of_cons in H as [H|H]; [discriminate|]); by apply elem_of_nil in H]).
  split; [constructor| |].
  - intros p. cbn. rewrite lookup_empty. split; [intros [? ?]; done|intros H; by apply elem_of_nil in H].
  - intros m e. cbn. by rewrite lookup_empty.
Qed.

Definition at_time (t : Z) : readings := mk_readings t t t t.
Definition hello : list Z := [2; 0; 0; 0; 0; 2; 2; 0; 0; 0; 0; 1; 8; 0; 42].
Definition reply : list Z := [2; 0; 0; 0; 0; 1; 2; 0; 0; 0; 0; 2; 8; 0; 43].

Definition after_hello : VirtualSwitch := (process_frame (at_time 5) 0 hello three).1.
Definition after_reply : VirtualSwitch := (process_frame (at_time 9) 1 reply after_hello).1.

Lemma hello_run : process_frame (at_time 5) 0 hello three = (after_hello, Ok tt).
Proof. vm_compute. reflexivity. Qed.
Lemma reply_run : process_frame (at_time 9) 1 reply after_hello = (after_reply, Ok tt).
Proof. vm_compute. reflexivity. Qed.

Lemma three_ports : ports three = [0; 1; 2] /\ ports after_hello = [0; 1; 2].
Proof. split; vm_compute; reflexivity. Qed.

Lemma switch_forwards_witness : queue after_hello 1 = [hello] /\ queue after_hello 0 = [].
Proof.
  destruct (switch_forwards (at_time 5) 0 hello three after_hello (Ok tt) three_ok) as (_ & _ & _ & E0 & Hq).
  - rewrite (proj1 three_ports). left.
  - vm_compute. repeat split.
  - vm_compute. discriminate.
  - exact hello_run.
  - split; [|exact E0]. rewrite (Hq 1); [vm_compute; reflexivity| |lia]. rewrite (proj1 three_ports). right. left.
Defined.

Lemma switch_fdb_bounded_witness : Z.of_nat (size (fdb after_hello)) <= 4096.
Proof.
  apply (switch_fdb_bounded (300 * 10 ^ 9) after_hello). apply rtc_l with (y := (add_port (with_aging_time (300 * 10 ^ 9))).1); [constructor|].
  eapply rtc_l; [apply sws_add|]. eapply rtc_l; [apply sws_add|]. apply rtc_once. apply (sws_frame _ (at_time 5) 0 hello). vm_compute. repeat split.
Defined.

Lemma switch_learned_unicast_witness : queue after_reply 0 = [reply] /\ queue after_reply 2 = [hello].
Proof.
  destruct (switch_learned_unicast (at_time 5) 0 hello (at_time 9) 1 reply three after_hello after_hello after_reply (Ok tt)) as (_ & E0 & Hq).
  - exact three_ok.
  - rewrite (proj1 three_ports). left.
  - vm_compute. repeat split.
  - vm_compute. discriminate.
  - reflexivity.
  - vm_compute. reflexivity.
  - vm_compute. reflexivity.
  - exact hello_run.
  - apply rtc_refl.
  - rewrite (proj2 three_ports). right. left.
  - discriminate.
  - vm_compute. repeat split.
  - vm_compute. discriminate.
  - reflexivity.
  - discriminate.
  - vm_compute. repeat split.
  - exact reply_run.
  - split; [rewrite E0; vm_compute; reflexivity|]. rewrite (Hq 2); [vm_compute; reflexivity| |discriminate].
    rewrite (proj2 three_ports). right. right. left.
Defined.

Lemma switch_port_reuse_witness : (add_port (remove_port 0 after_hello)).2 = 2 /\ queue (add_port (remove_port 0 after_hello)).1 2 = [].
Proof.
  assert (Hok : sw_ok after_hello).
  { destruct (frame_ok (at_time 5) 0 hello three after_hello (Ok tt) three_ok) as (_ & H & _); [|vm_compute; repeat split|vm_compute; discriminate|exact hello_run|exact H].
    rewrite (proj1 three_ports). left. }
  destruct (switch_port_reuse 3 0 after_hello Hok) as (E & _ & _ & Eq & _); [rewrite (proj2 three_ports); reflexivity|lia|lia|].
  split; [exact E|exact Eq].
Defined.
