(* ===== verification/Net.v ===== *)
(** * The virtio network device

    enlil-devices/src/net: the packet header (header.rs), the queues
    (virtqueue.rs), the control queue (control.rs and its handlers in
    device.rs), the backends of backend.rs that need no host, and the device
    (device.rs) with its transmit and receive paths.  Octets are integers; a
    queue is a list; a backend is an instance of [NetBackend].  Names and log
    output have no effect and are left out. *)

From Stdlib Require Import ZArith Lia Bool.
From stdpp Require Import base decidable numbers list gmap.
From S2P Require Import Prelude Rust Storage Switch.

(** The little-endian [u16] at [off]. *)
Definition le16 (d : list Z) (off : Z) : Z := getb d off + 256 * getb d (off + 1).

(** ** The packet header *)

Abbreviation NEEDS_CSUM := (1) (only parsing).
Abbreviation DATA_VALID := (2) (only parsing).
Abbreviation VIRTIO_NET_HDR_SIZE := (10) (only parsing).
Abbreviation VIRTIO_NET_HDR_SIZE_MRG := (12) (only parsing).

Record VirtioNetHeader := mk_VirtioNetHeader {
  hdr_flags : Z; gso_type : Z; hdr_len : Z; gso_size : Z; csum_start : Z; csum_offset : Z; num_buffers : Z;
}.

Definition wire_size (merge_rxbuf : bool) : Z := if merge_rxbuf then VIRTIO_NET_HDR_SIZE_MRG else VIRTIO_NET_HDR_SIZE.

Definition hdr_from_bytes (d : list Z) (merge_rxbuf : bool) : option VirtioNetHeader :=
  let min_len := if merge_rxbuf then VIRTIO_NET_HDR_SIZE_MRG else VIRTIO_NET_HDR_SIZE in
  if len d <? min_len then None
  else Some (mk_VirtioNetHeader (getb d 0) (getb d 1) (le16 d 2) (le16 d 4) (le16 d 6) (le16 d 8)
               (if merge_rxbuf then le16 d 10 else 0)).

Definition hdr_to_bytes (h : VirtioNetHeader) (merge_rxbuf : bool) : list Z :=
  [hdr_flags h; gso_type h] ++ le_bytes 2 (hdr_len h) ++ le_bytes 2 (gso_size h) ++
  le_bytes 2 (csum_start h) ++ le_bytes 2 (csum_offset h) ++ (if merge_rxbuf then le_bytes 2 (num_buffers h) else []).

Abbreviation needs_csum h := (tst (hdr_flags h) NEEDS_CSUM) (only parsing).

(** ** Queues *)

Record VirtqDesc := mk_VirtqDesc { vd_index : Z; vd_data : list Z; vd_writable : bool }.

Inductive VirtqueueError :=
  | QueueFull (capacity : Z)
  | QueueEmpty.

Record Virtqueue := mk_Virtqueue {
  vq_capacity : Z;
  available : list VirtqDesc;
  used : list VirtqDesc;
  next_index : Z;
  enabled : bool;
}.

Definition Virtqueue_new (capacity : Z) : Virtqueue := mk_Virtqueue capacity [] [] 0 false.
Definition vq_enable (q : Virtqueue) : Virtqueue := mk_Virtqueue (vq_capacity q) (available q) (used q) (next_index q) true.
Definition vq_disable (q : Virtqueue) : Virtqueue := mk_Virtqueue (vq_capacity q) (available q) (used q) (next_index q) false.

Definition push_available (data : list Z) (writable : bool) (q : Virtqueue) : Virtqueue * res VirtqueueError Z :=
  if vq_capacity q <=? Z.of_nat (length (available q)) then (q, Err (QueueFull (vq_capacity q)))
  else
    let index := next_index q in
    (mk_Virtqueue (vq_capacity q) (available q ++ [mk_VirtqDesc index data writable]) (used q) (wrap 16 (index + 1)) (enabled q), Ok index).

Definition pop_available (q : Virtqueue) : Virtqueue * res VirtqueueError VirtqDesc :=
  match available q with
  | d :: rest => (mk_Virtqueue (vq_capacity q) rest (used q) (next_index q) (enabled q), Ok d)
  | [] => (q, Err QueueEmpty)
  end.

Definition push_used (d : VirtqDesc) (q : Virtqueue) : Virtqueue :=
  mk_Virtqueue (vq_capacity q) (available q) (used q ++ [d]) (next_index q) (enabled q).

Definition pop_used (q : Virtqueue) : Virtqueue * res VirtqueueError VirtqDesc :=
  match used q with
  | d :: rest => (mk_Virtqueue (vq_capacity q) (available q) rest (next_index q) (enabled q), Ok d)
  | [] => (q, Err QueueEmpty)
  end.

Definition vq_reset (q : Virtqueue) : Virtqueue := mk_Virtqueue (vq_capacity q) [] [] 0 false.

(** ** The control state *)

Record NetControlState := mk_NetControlState {
  rx_mode : Z;
  vlan_filter : gset Z;
  unicast_table : list mac;
  multicast_table : list mac;
  announce_needed : bool;
  vq_pairs : Z;
  active_offloads : Z;
}.

Definition NetControlState_default : NetControlState := mk_NetControlState 0 ∅ [] [] false 0 0.

(** [RxFilterMode] *)
Abbreviation PROMISC := (1 .<< 0) (only parsing).
Abbreviation ALLMULTI := (1 .<< 1) (only parsing).
Abbreviation ALLUNI := (1 .<< 2) (only parsing).
Abbreviation NOMULTI := (1 .<< 3) (only parsing).
Abbreviation NOUNI := (1 .<< 4) (only parsing).
Abbreviation NOBCAST := (1 .<< 5) (only parsing).

Abbreviation VIRTIO_NET_OK := (0) (only parsing).
Abbreviation VIRTIO_NET_ERR := (1) (only parsing).

Definition le32 (d : list Z) (off : Z) : Z := le_value (sub d off 4).

(** One sub-table of addresses from the front of [data], with its length. *)
Definition parse_mac_table (data : list Z) : option (list mac * Z) :=
  if len data <? 4 then None
  else
    let entries := le32 data 0 in
    m ← checked_mul entries 6;
    needed ← checked_add 4 m;
    if len data <? needed then None
    else Some ((fun i => sub data (4 + i * 6) 6) <$> seqZ 0 entries, needed).

(** ** Backends *)

(** An I/O error is [Err tt]; [recv] fills the front of the buffer it is given
    and returns how much. *)
Class NetBackend (B : Type) := {
  nb_send : list Z -> M B unit Z;
  nb_recv : list Z -> B -> B * (list Z * res unit Z);
  nb_has_pending_rx : B -> bool;
}.

Record NullBackend := mk_NullBackend { tx_count : Z; nb_tx_bytes : Z }.

Definition null_send (frame : list Z) : M NullBackend unit Z := fun b =>
  match radd (tx_count b) 1 with
  | Ok n =>
      let b := mk_NullBackend n (nb_tx_bytes b) in
      match radd (nb_tx_bytes b) (len frame) with
      | Ok m => (mk_NullBackend n m, Ok (len frame))
      | Err e => (b, Err e)
      | Panic => (b, Panic)
      end
  | Err e => (b, Err e)
  | Panic => (b, Panic)
  end.

#[export] Instance Null_backend : NetBackend NullBackend := {
  nb_send := null_send;
  nb_recv buf b := (b, (buf, Ok 0));
  nb_has_pending_rx b := false;
}.

(** Frames sent come back as frames received. *)
Definition LoopbackBackend := list (list Z).

Definition loop_send (frame : list Z) : M LoopbackBackend unit Z := fun b => (b ++ [frame], Ok (len frame)).

Definition loop_recv (buf : list Z) (b : LoopbackBackend) : LoopbackBackend * (list Z * res unit Z) :=
  match b with
  | frame :: b' => let n := Z.min (len frame) (len buf) in (b', (splice buf 0 (sub frame 0 n), Ok n))
  | [] => (b, (buf, Ok 0))
  end.

#[export] Instance Loopback_backend : NetBackend LoopbackBackend := {
  nb_send := loop_send;
  nb_recv := loop_recv;
  nb_has_pending_rx b := negb (bool_decide (b = []));
}.

(** ** Features *)

Abbreviation GUEST_CSUM := (1 .<< 1) (only parsing).
Abbreviation MRG_RXBUF := (1 .<< 15) (only parsing).
Abbreviation CTRL_VQ := (1 .<< 17) (only parsing).

(** [GUEST_CSUM], [GUEST_TSO4], [GUEST_TSO6], [GUEST_ECN], [GUEST_UFO] *)
Abbreviation GUEST_OFFLOAD_MASK := (GUEST_CSUM .| (1 .<< 7) .| (1 .<< 8) .| (1 .<< 9) .| (1 .<< 10)) (only parsing).

(** [MAC], [STATUS], [MTU], [MRG_RXBUF], [CSUM], [GUEST_CSUM],
    [CTRL_GUEST_OFFLOADS], [CTRL_VQ], [CTRL_RX], [CTRL_VLAN], [VERSION_1] *)
Abbreviation NET_FEATURES_DEFAULT := ((1 .<< 5) .| (1 .<< 16) .| (1 .<< 3) .| MRG_RXBUF .| (1 .<< 0) .| GUEST_CSUM .| (1 .<< 2) .| CTRL_VQ .| (1 .<< 18) .| (1 .<< 19) .| (1 .<< 32)) (only parsing).

Abbreviation contains bits flag := (bits .& flag =? flag) (only parsing).

(** ** The device *)

Record NetDeviceStats := mk_NetDeviceStats {
  tx_packets : Z; tx_bytes : Z; tx_errors : Z; rx_packets : Z; rx_bytes : Z; rx_drops : Z;
  ctrl_commands : Z; ctrl_errors : Z; tx_csum_offloads : Z;
}.

Record VirtioNetDevice (B : Type) := mk_VirtioNetDevice {
  nd_mac : mac;
  nd_features : Z;
  merge_rxbuf : bool;
  link_up : bool;
  nd_mtu : Z;
  nd_status : Z;
  tx_queue : Virtqueue;
  rx_queue : Virtqueue;
  queue_size : Z;
  nd_backend : B;
  rx_pending : list (list Z);
  control : NetControlState;
  nd_stats : NetDeviceStats;
}.
Arguments mk_VirtioNetDevice {B} _ _ _ _ _ _ _ _ _ _ _ _ _.
Arguments nd_mac {B} _.
Arguments nd_features {B} _.
Arguments merge_rxbuf {B} _.
Arguments link_up {B} _.
Arguments nd_mtu {B} _.
Arguments nd_status {B} _.
Arguments tx_queue {B} _.
Arguments rx_queue {B} _.
Arguments queue_size {B} _.
Arguments nd_backend {B} _.
Arguments rx_pending {B} _.
Arguments control {B} _.
Arguments nd_stats {B} _.

(** The internet checksum (RFC 1071): 16-bit big-endian words, an odd last
    octet padded with zero, carries folded back, complemented. *)
Fixpoint sum_words (d : list Z) (sum : Z) : res Empty_set Z :=
  match d with
  | a :: b :: d' => if sum + (a * 256 + b) <? 2 ^ 32 then sum_words d' (sum + (a * 256 + b)) else Panic
  | [a] => if sum + a * 256 <? 2 ^ 32 then Ok (sum + a * 256) else Panic
  | [] => Ok sum
  end.

(** The folding loop; two rounds are enough for 32 bits. *)
Fixpoint fold_carries (fuel : nat) (sum : Z) : res Empty_set Z :=
  if (sum .>> 16) =? 0 then Ok sum
  else match fuel with
       | O => Panic
       | S fuel => fold_carries fuel ((sum .& 0xFFFF) + (sum .>> 16))
       end.

Definition internet_checksum (d : list Z) : res Empty_set Z :=
  sum ← sum_words d 0;
  folded ← fold_carries 2 sum;
  Ok (0xFFFF - (folded .& 0xFFFF)).

(** [Err] when an offset falls outside the frame. *)
Definition complete_checksum (frame : list Z) (csum_start csum_offset : Z) : res Empty_set (option (list Z)) :=
  let start := csum_start in
  let pos := start + csum_offset in
  if (len frame <? start) || (len frame <? pos + 2) then Ok None
  else
    csum ← internet_checksum (drop (Z.to_nat start) frame);
    Ok (Some (splice frame pos (be_bytes 2 csum))).

Section Device.
Context {B : Type} {NB : NetBackend B}.
Abbreviation dev := (VirtioNetDevice B).
Abbreviation dm A := (M dev Empty_set A).

Definition with_queues_net (d : dev) (tx rx : Virtqueue) (b : B) (pending : list (list Z)) : dev :=
  mk_VirtioNetDevice (nd_mac d) (nd_features d) (merge_rxbuf d) (link_up d) (nd_mtu d) (nd_status d) tx rx (queue_size d) b
    pending (control d) (nd_stats d).
Definition with_tx (d : dev) q : dev := with_queues_net d q (rx_queue d) (nd_backend d) (rx_pending d).
Definition with_rx (d : dev) q : dev := with_queues_net d (tx_queue d) q (nd_backend d) (rx_pending d).
Definition with_net_backend (d : dev) b : dev := with_queues_net d (tx_queue d) (rx_queue d) b (rx_pending d).
Definition with_pending (d : dev) p : dev := with_queues_net d (tx_queue d) (rx_queue d) (nd_backend d) p.
Definition with_control (d : dev) c : dev :=
  mk_VirtioNetDevice (nd_mac d) (nd_features d) (merge_rxbuf d) (link_up d) (nd_mtu d) (nd_status d) (tx_queue d) (rx_queue d)
    (queue_size d) (nd_backend d) (rx_pending d) c (nd_stats d).
Definition with_mac (d : dev) m : dev :=
  mk_VirtioNetDevice m (nd_features d) (merge_rxbuf d) (link_up d) (nd_mtu d) (nd_status d) (tx_queue d) (rx_queue d)
    (queue_size d) (nd_backend d) (rx_pending d) (control d) (nd_stats d).
Definition with_net_stats (d : dev) s : dev :=
  mk_VirtioNetDevice (nd_mac d) (nd_features d) (merge_rxbuf d) (link_up d) (nd_mtu d) (nd_status d) (tx_queue d) (rx_queue d)
    (queue_size d) (nd_backend d) (rx_pending d) (control d) s.

Definition VirtioNetDevice_new (m : mac) (mtu : Z) (b : B) : dev :=
  mk_VirtioNetDevice m NET_FEATURES_DEFAULT false true mtu 0 (Virtqueue_new 256) (Virtqueue_new 256) 256 b []
    (mk_NetControlState 0 ∅ [] [] false 0 (NET_FEATURES_DEFAULT .& GUEST_OFFLOAD_MASK)) (mk_NetDeviceStats 0 0 0 0 0 0 0 0 0).

Definition set_offloads (c : NetControlState) (o : Z) : NetControlState :=
  mk_NetControlState (rx_mode c) (vlan_filter c) (unicast_table c) (multicast_table c) (announce_needed c) (vq_pairs c) o.

(** [DeviceStatus::DriverOk] is 4. *)
Definition activate (f : Z) (d : dev) : dev :=
  mk_VirtioNetDevice (nd_mac d) f (contains f MRG_RXBUF) (link_up d) (nd_mtu d) 4 (vq_enable (tx_queue d)) (vq_enable (rx_queue d))
    (queue_size d) (nd_backend d) (rx_pending d) (set_offloads (control d) (f .& GUEST_OFFLOAD_MASK)) (nd_stats d).

Definition net_reset (d : dev) : dev :=
  mk_VirtioNetDevice (nd_mac d) NET_FEATURES_DEFAULT false true (nd_mtu d) 0 (vq_reset (tx_queue d)) (vq_reset (rx_queue d))
    (queue_size d) (nd_backend d) [] NetControlState_default (mk_NetDeviceStats 0 0 0 0 0 0 0 0 0).

Definition set_link_up (up : bool) (d : dev) : dev :=
  mk_VirtioNetDevice (nd_mac d) (nd_features d) (merge_rxbuf d) up (nd_mtu d) (nd_status d) (tx_queue d) (rx_queue d) (queue_size d)
    (nd_backend d) (rx_pending d) (control d) (nd_stats d).

Definition set_announce (b : bool) (c : NetControlState) : NetControlState :=
  mk_NetControlState (rx_mode c) (vlan_filter c) (unicast_table c) (multicast_table c) b (vq_pairs c) (active_offloads c).

Definition request_announce (d : dev) : dev := with_control d (set_announce true (control d)).

(** *** Configuration space *)

Definition config_status (d : dev) : Z :=
  (if link_up d then 1 else 0) .| (if announce_needed (control d) then 2 else 0).

Definition net_config_as_bytes (d : dev) : list Z :=
  nd_mac d ++ le_bytes 2 (config_status d) ++ le_bytes 2 (Z.max (vq_pairs (control d)) 1) ++ le_bytes 2 (nd_mtu d).

(** A shift by 64 bits or more, from a [size] above 8, panics. *)
Definition net_read_config (d : dev) (offset size : Z) : res Empty_set Z :=
  let bytes := net_config_as_bytes d in
  fold_left (fun acc i =>
    val ← acc;
    k ← radd offset i;
    if k <? len bytes then (if 8 <=? i then Panic else Ok (val .| (getb bytes k .<< (i * 8)))) else Ok val)
    (seqZ 0 size) (Ok 0).

(** *** Counters: [stats.x += n] *)

Definition count_net (f : NetDeviceStats -> res Empty_set NetDeviceStats) : dm unit := fun d =>
  match f (nd_stats d) with Ok s => (with_net_stats d s, Ok tt) | Err e => (d, Err e) | Panic => (d, Panic) end.

Definition count_tx_error : dm unit := count_net (fun s => n ← radd (tx_errors s) 1;
  Ok (mk_NetDeviceStats (tx_packets s) (tx_bytes s) n (rx_packets s) (rx_bytes s) (rx_drops s) (ctrl_commands s) (ctrl_errors s) (tx_csum_offloads s))).
Definition count_csum : dm unit := count_net (fun s => n ← radd (tx_csum_offloads s) 1;
  Ok (mk_NetDeviceStats (tx_packets s) (tx_bytes s) (tx_errors s) (rx_packets s) (rx_bytes s) (rx_drops s) (ctrl_commands s) (ctrl_errors s) n)).
Definition count_tx (b : Z) : dm unit := count_net (fun s => n ← radd (tx_packets s) 1; m ← radd (tx_bytes s) b;
  Ok (mk_NetDeviceStats n m (tx_errors s) (rx_packets s) (rx_bytes s) (rx_drops s) (ctrl_commands s) (ctrl_errors s) (tx_csum_offloads s))).
Definition count_rx_drop : dm unit := count_net (fun s => n ← radd (rx_drops s) 1;
  Ok (mk_NetDeviceStats (tx_packets s) (tx_bytes s) (tx_errors s) (rx_packets s) (rx_bytes s) n (ctrl_commands s) (ctrl_errors s) (tx_csum_offloads s))).
Definition count_rx (b : Z) : dm unit := count_net (fun s => n ← radd (rx_packets s) 1; m ← radd (rx_bytes s) b;
  Ok (mk_NetDeviceStats (tx_packets s) (tx_bytes s) (tx_errors s) n m (rx_drops s) (ctrl_commands s) (ctrl_errors s) (tx_csum_offloads s))).
Definition count_ctrl (ok : bool) : dm unit := count_net (fun s =>
  if ok then n ← radd (ctrl_commands s) 1;
    Ok (mk_NetDeviceStats (tx_packets s) (tx_bytes s) (tx_errors s) (rx_packets s) (rx_bytes s) (rx_drops s) n (ctrl_errors s) (tx_csum_offloads s))
  else n ← radd (ctrl_errors s) 1;
    Ok (mk_NetDeviceStats (tx_packets s) (tx_bytes s) (tx_errors s) (rx_packets s) (rx_bytes s) (rx_drops s) (ctrl_commands s) n (tx_csum_offloads s))).

(** An update of the device. *)
Definition update (f : dev -> dev) : dm unit := fun d => (f d, Ok tt).

(** *** The control queue *)

(** [VIRTIO_NET_CTRL_RX]: commands 0 to 5 toggle the six modes. *)
Definition rx_flag (command : Z) : option Z :=
  match command with
  | 0 => Some PROMISC | 1 => Some ALLMULTI | 2 => Some ALLUNI | 3 => Some NOMULTI | 4 => Some NOUNI | 5 => Some NOBCAST
  | _ => None
  end.

Definition ctrl_rx (command : Z) (data : list Z) (d : dev) : dev * Z :=
  match data with
  | [] => (d, VIRTIO_NET_ERR)
  | on :: _ =>
      match rx_flag command with
      | None => (d, VIRTIO_NET_ERR)
      | Some flag =>
          let c := control d in
          let mode := if on =? 0 then rx_mode c .&~ flag else rx_mode c .| flag in
          (with_control d (mk_NetControlState mode (vlan_filter c) (unicast_table c) (multicast_table c) (announce_needed c)
             (vq_pairs c) (active_offloads c)), VIRTIO_NET_OK)
      end
  end.

(** [MAC_TABLE_SET] is 0, [MAC_ADDR_SET] is 1. *)
Definition ctrl_mac (command : Z) (data : list Z) (d : dev) : dev * Z :=
  if command =? 1 then
    if len data <? 6 then (d, VIRTIO_NET_ERR) else (with_mac d (sub data 0 6), VIRTIO_NET_OK)
  else if command =? 0 then
    match parse_mac_table data with
    | None => (d, VIRTIO_NET_ERR)
    | Some (unicast, used) =>
        match parse_mac_table (drop (Z.to_nat used) data) with
        | None => (d, VIRTIO_NET_ERR)
        | Some (multicast, _) =>
            let c := control d in
            (with_control d (mk_NetControlState (rx_mode c) (vlan_filter c) unicast multicast (announce_needed c) (vq_pairs c)
               (active_offloads c)), VIRTIO_NET_OK)
        end
    end
  else (d, VIRTIO_NET_ERR).

Abbreviation VLAN_VID_MAX := (4096) (only parsing).

(** [VLAN_ADD] is 0, [VLAN_DEL] is 1. *)
Definition ctrl_vlan (command : Z) (data : list Z) (d : dev) : dev * Z :=
  if len data <? 2 then (d, VIRTIO_NET_ERR)
  else
    let vid := le16 data 0 in
    if VLAN_VID_MAX <=? vid then (d, VIRTIO_NET_ERR)
    else
      let c := control d in
      let set f := with_control d (mk_NetControlState (rx_mode c) f (unicast_table c) (multicast_table c) (announce_needed c)
                     (vq_pairs c) (active_offloads c)) in
      if command =? 0 then (set (vlan_filter c ∪ {[vid]}), VIRTIO_NET_OK)
      else if command =? 1 then (set (vlan_filter c ∖ {[vid]}), VIRTIO_NET_OK)
      else (d, VIRTIO_NET_ERR).

Definition ctrl_mq (command : Z) (data : list Z) (d : dev) : dev * Z :=
  if negb (command =? 0) || (len data <? 2) then (d, VIRTIO_NET_ERR)
  else
    let c := control d in
    (with_control d (mk_NetControlState (rx_mode c) (vlan_filter c) (unicast_table c) (multicast_table c) (announce_needed c)
       (le16 data 0) (active_offloads c)), VIRTIO_NET_OK).

Definition ctrl_guest_offloads (command : Z) (data : list Z) (d : dev) : dev * Z :=
  if negb (command =? 0) || (len data <? 8) then (d, VIRTIO_NET_ERR)
  else
    let requested := le_value (sub data 0 8) in
    let supported := nd_features d .& GUEST_OFFLOAD_MASK in
    if negb (requested .&~ supported =? 0) then (d, VIRTIO_NET_ERR)
    else (with_control d (set_offloads (control d) requested), VIRTIO_NET_OK).

Definition ctrl_announce (command : Z) (d : dev) : dev * Z :=
  if command =? 0 then (with_control d (set_announce false (control d)), VIRTIO_NET_OK)
  else (d, VIRTIO_NET_ERR).

(** Classes: 0 receive modes, 1 addresses, 2 VLAN, 3 announce, 4 multiqueue, 5 offloads. *)
Definition ctrl_dispatch (class command : Z) (data : list Z) (d : dev) : dev * Z :=
  match class with
  | 0 => ctrl_rx command data d
  | 1 => ctrl_mac command data d
  | 2 => ctrl_vlan command data d
  | 3 => ctrl_announce command d
  | 4 => ctrl_mq command data d
  | 5 => ctrl_guest_offloads command data d
  | _ => (d, VIRTIO_NET_ERR)
  end.

Definition process_control (buf : list Z) : dm Z :=
  d ← get;
  if negb (contains (nd_features d) CTRL_VQ) || (len buf <? 2) then count_ctrl false ;; mret VIRTIO_NET_ERR
  else
    ack ← (fun d => let '(d', a) := ctrl_dispatch (getb buf 0) (getb buf 1) (drop 2 buf) d in (d', Ok a));
    count_ctrl (ack =? VIRTIO_NET_OK) ;;
    mret ack.

(** *** The receive filter *)

Definition accepts_frame (d : dev) (frame : list Z) : bool :=
  if len frame <? 6 then false
  else
    let dest := sub frame 0 6 in
    let c := control d in
    if contains (rx_mode c) PROMISC then true
    else
      let is_bcast := bool_decide (dest = replicate 6 0xFF) in
      let is_mcast := negb is_bcast && tst (getb dest 0) 0x01 in
      if is_bcast then negb (contains (rx_mode c) NOBCAST)
      else if is_mcast then
        negb (contains (rx_mode c) NOMULTI) && (contains (rx_mode c) ALLMULTI || bool_decide (dest ∈ multicast_table c))
      else
        negb (contains (rx_mode c) NOUNI) &&
        (contains (rx_mode c) ALLUNI || bool_decide (nd_mac d = dest) || bool_decide (dest ∈ unicast_table c)).

(** *** Transmit *)

Definition tx_pop : dm (option VirtqDesc) := fun d =>
  let '(q, r) := pop_available (tx_queue d) in (with_tx d q, Ok (ok r)).
Definition tx_done (desc : VirtqDesc) : dm unit := update (fun d => with_tx d (push_used desc (tx_queue d))).

(** A call of the backend; its I/O errors are values. *)
Definition call_backend {A} (m : M B unit A) : dm (option A) := fun d =>
  let '(b, r) := m (nd_backend d) in
  (with_net_backend d b, match r with Ok a => Ok (Some a) | Err _ => Ok None | Panic => Panic end).

Definition send_counted (frame : list Z) : dm unit :=
  r ← call_backend (nb_send frame);
  match r with Some n => count_tx n | None => count_tx_error end.

(** One descriptor. *)
Definition tx_one (desc : VirtqDesc) : dm unit :=
  d ← get;
  let hdr_size := wire_size (merge_rxbuf d) in
  if len (vd_data desc) <? hdr_size then count_tx_error ;; tx_done desc
  else
    let frame := drop (Z.to_nat hdr_size) (vd_data desc) in
    match hdr_from_bytes (vd_data desc) (merge_rxbuf d) with
    | Some h =>
        if needs_csum h then
          done ← lift (complete_checksum frame (csum_start h) (csum_offset h));
          match done with
          | None => count_tx_error ;; tx_done desc
          | Some frame => count_csum ;; send_counted frame ;; tx_done desc
          end
        else send_counted frame ;; tx_done desc
    | None => send_counted frame ;; tx_done desc
    end.

Fixpoint tx_loop (fuel : nat) : dm unit :=
  d ← get;
  match available (tx_queue d) with
  | [] => mret tt
  | _ =>
      match fuel with
      | O => panic
      | S fuel =>
          desc ← tx_pop;
          match desc with
          | None => mret tt
          | Some desc => tx_one desc ;; tx_loop fuel
          end
      end
  end.

Definition process_tx : dm unit :=
  d ← get;
  if negb (enabled (tx_queue d)) then mret tt else tx_loop (length (available (tx_queue d))).

(** *** Receive *)

Definition rx_header (d : dev) : VirtioNetHeader :=
  let flags := if tst (active_offloads (control d)) GUEST_CSUM then DATA_VALID else 0 in
  mk_VirtioNetHeader flags 0 0 0 0 0 (if merge_rxbuf d then 1 else 0).

Definition inject_rx (frame : list Z) (d : dev) : dev :=
  with_pending d (rx_pending d ++ [hdr_to_bytes (rx_header d) (merge_rxbuf d) ++ frame]).

(** The first loop: frames from the backend, through the filter.  [fuel] bounds
    the rounds; a backend that never runs dry keeps the source's loop going. *)
Fixpoint rx_poll (fuel : nat) (buf : list Z) (received : Z) : dm Z :=
  d ← get;
  if negb (nb_has_pending_rx (nd_backend d)) then mret received
  else
    match fuel with
    | O => panic
    | S fuel =>
        let '(b, (buf, r)) := nb_recv buf (nd_backend d) in
        update (fun d => with_net_backend d b) ;;
        match r with
        | Ok n =>
            if n =? 0 then mret received
            else if len buf <? n then panic
            else
              let frame := sub buf 0 n in
              d ← get;
              if negb (accepts_frame d frame) then count_rx_drop ;; rx_poll fuel buf received
              else
                update (inject_rx frame) ;;
                rx_poll fuel buf (received + 1)
        | Err _ => mret received
        | Panic => panic
        end
    end.

(** The second loop: pending frames into the guest's buffers. *)
Fixpoint rx_deliver (fuel : nat) : dm unit :=
  d ← get;
  match rx_pending d with
  | [] => mret tt
  | frame :: rest =>
      match available (rx_queue d) with
      | [] => mret tt
      | desc :: _ =>
          match fuel with
          | O => panic
          | S fuel =>
              let q := (pop_available (rx_queue d)).1 in
              update (fun d => with_rx d q) ;;
              (if len (vd_data desc) <? len frame then
                 count_rx_drop ;;
                 update (fun d => with_rx d (push_used desc (rx_queue d)))
               else
                 count_rx (len frame) ;;
                 update (fun d => with_rx d (push_used (mk_VirtqDesc (vd_index desc) frame (vd_writable desc)) (rx_queue d)))) ;;
              update (fun d => with_pending d rest) ;;
              rx_deliver fuel
          end
      end
  end.

Definition process_rx (fuel : nat) : dm Z :=
  d ← get;
  if negb (enabled (rx_queue d)) then mret 0
  else
    received ← rx_poll fuel (zeros 65536) 0;
    d ← get;
    rx_deliver (length (rx_pending d)) ;;
    mret received.
End Device.

(** ** The checksum *)

(** The sum of the 16-bit words, an odd last octet in the high half. *)
Fixpoint wsum (d : list Z) : Z :=
  match d with
  | a :: b :: d' => a * 256 + b + wsum d'
  | [a] => a * 256
  | [] => 0
  end.

(** Lists two elements at a time. *)
Lemma pair_ind {A} (P : list A -> Prop) :
  P [] -> (forall a, P [a]) -> (forall a b l, P l -> P (a :: b :: l)) -> forall l, P l.
Proof.
  intros H0 H1 H2 l. enough (H : P l /\ forall a, P (a :: l)) by apply H.
  induction l as [|b l [IH1 IH2]]; [by split|]. split; [by apply IH2|]. intros a. by apply H2.
Qed.

Lemma wsum_range d : Forall (fits 8) d -> 0 <= wsum d /\ 2 * wsum d <= 65535 * (len d + 1).
Proof.
  unfold len, fits. change (2 ^ 8) with 256.
  induction d as [|a|a b d IH] using pair_ind; intros Hd; cbn [wsum length].
  - lia.
  - apply Forall_inv in Hd. lia.
  - apply Forall_cons in Hd as [Ha Hd]. apply Forall_cons in Hd as [Hb Hd]. specialize (IH Hd). lia.
Qed.

Lemma sum_words_ok d : forall s, Forall (fits 8) d -> 0 <= s -> s + wsum d < 2 ^ 32 -> sum_words d s = Ok (s + wsum d).
Proof.
  induction d as [|a|a b d IH] using pair_ind; intros s Hd Hs Hl; cbn [sum_words wsum] in *.
  - f_equal. lia.
  - by rewrite (proj2 (Z.ltb_lt _ _)).
  - apply Forall_cons in Hd as [Ha Hd]. apply Forall_cons in Hd as [Hb Hd]. pose proof (wsum_range d Hd) as [? _].
    unfold fits in Ha, Hb. rewrite (proj2 (Z.ltb_lt _ _)) by lia. rewrite IH by (done || lia). f_equal. lia.
Qed.

(** One fold keeps the value modulo [0xFFFF]. *)
Lemma fold_step s : 0 <= s -> (s .& 0xFFFF) + (s .>> 16) = s - 65535 * (s / 65536).
Proof.
  intros Hs. pose proof (Z.land_ones s 16 ltac:(lia)) as E. change (Z.ones 16) with 0xFFFF in E.
  rewrite E, Z.shiftr_div_pow2 by done. change (2 ^ 16) with 65536.
  pose proof (Z.div_mod s 65536 ltac:(lia)). lia.
Qed.

Lemma no_carry x : 0 <= x < 65536 -> (x .>> 16 =? 0) = true.
Proof. intros Hx. apply Z.eqb_eq. rewrite Z.shiftr_div_pow2 by done. apply Z.div_small. exact Hx. Qed.

Lemma fold_range s : 0 <= s < 2 ^ 32 -> 0 <= s / 65536 < 65536 /\ 0 <= s - 65535 * (s / 65536) <= 131070.
Proof.
  intros Hs. pose proof (Z.div_mod s 65536 ltac:(lia)) as E. pose proof (Z.mod_pos_bound s 65536 ltac:(lia)).
  set (q := s / 65536) in *. set (m := s mod 65536) in *. clearbody q m. lia.
Qed.

Lemma fold_again s : 65536 <= s <= 131070 -> 0 <= s - 65535 * (s / 65536) < 65536.
Proof. intros Hs. replace (s / 65536) with 1 by (apply (Z.div_unique _ _ _ (s - 65536)); lia). lia. Qed.

Lemma fold_carries_ok s : 0 <= s < 2 ^ 32 -> exists r k, fold_carries 2 s = Ok r /\ 0 <= r < 65536 /\ r = s - 65535 * k.
Proof.
  intros Hs. assert (Hgo : forall n x, 65536 <= x -> fold_carries (S n) x = fold_carries n (x - 65535 * (x / 65536))).
  { intros n x Hx. cbn [fold_carries]. rewrite fold_step by lia. destruct (Z.eqb_spec (x .>> 16) 0) as [E|]; [|done].
    rewrite Z.shiftr_div_pow2 in E by done. apply Z.div_small_iff in E; [change (2 ^ 16) with 65536 in E; lia|done]. }
  assert (Hstop : forall n x, 0 <= x < 65536 -> fold_carries n x = Ok x) by (intros n x Hx; destruct n; cbn [fold_carries]; by rewrite no_carry).
  destruct (Z.lt_ge_cases s 65536) as [H|H]; [exists s, 0; split; [apply Hstop; lia|lia]|].
  rewrite Hgo by done. destruct (fold_range s Hs) as [_ H1]. set (s1 := s - 65535 * (s / 65536)) in *.
  destruct (Z.lt_ge_cases s1 65536) as [Hs1|Hs1]; [exists s1, (s / 65536); split; [apply Hstop; lia|split; [lia|done]]|].
  rewrite Hgo by done. pose proof (fold_again s1 ltac:(lia)) as H2.
  exists (s1 - 65535 * (s1 / 65536)), (s / 65536 + s1 / 65536). split; [by apply Hstop|]. split; [done|]. unfold s1. ring.
Qed.

Lemma internet_checksum_ok d :
  Forall (fits 8) d -> len d <= 131072 -> exists c k, internet_checksum d = Ok c /\ 0 <= c < 65536 /\ c + wsum d = 65535 * k.
Proof.
  intros Hd Hl. pose proof (wsum_range d Hd) as [H0 H1]. pose proof (len_nonneg d).
  destruct (fold_carries_ok (wsum d) ltac:(lia)) as (r & k & Er & Hr & Ek).
  exists (65535 - r), (k + 1). unfold internet_checksum. rewrite sum_words_ok by (done || lia). cbn [mbind res_bind].
  rewrite Z.add_0_l, Er. cbn [mbind res_bind]. pose proof (Z.land_ones r 16 ltac:(lia)) as E. change (Z.ones 16) with 0xFFFF in E.
  rewrite E, Z.mod_small by done. split; [done|]. lia.
Qed.

Lemma getb_drop l n k : 0 <= n -> 0 <= k -> getb (drop (Z.to_nat n) l) k = getb l (n + k).
Proof. intros Hn Hk. rewrite !getb_lookup, lookup_drop by lia. do 2 f_equal. lia. Qed.

(** Replacing an aligned word changes the sum by the difference. *)
Lemma wsum_inserts m : forall d x y, (2 * m + 2 <= length d)%nat ->
  wsum (list_inserts (2 * m) [x; y] d) + wsum (take 2 (drop (2 * m) d)) = wsum d + (x * 256 + y).
Proof.
  induction m as [|m IH]; intros d x y Hl; (destruct d as [|a [|b d]]; [cbn in Hl; lia..|]).
  - cbn. rewrite take_0. cbn [wsum]. lia.
  - replace (2 * S m)%nat with (S (S (2 * m))) by lia. cbn [length] in Hl. cbn [drop].
    replace (list_inserts (S (S (2 * m))) [x; y] (a :: b :: d)) with (a :: b :: list_inserts (2 * m) [x; y] d) by reflexivity.
    cbn [wsum]. rewrite <- !Z.add_assoc, IH by lia. lia.
Qed.

Lemma wsum_splice d pos x y :
  0 <= pos -> pos + 2 <= len d -> Z.even pos = true ->
  wsum (splice d pos [x; y]) + be_at d pos 2 = wsum d + (x * 256 + y).
Proof.
  intros Hp Hl He. apply Z.even_spec in He as [m ->]. unfold len in Hl.
  assert (Em : Z.to_nat (2 * m) = (2 * Z.to_nat m)%nat) by lia. unfold splice. rewrite Em, <- (wsum_inserts (Z.to_nat m) d x y) by lia.
  f_equal. unfold be_at. change (seqZ 0 2) with [0; 1]. cbn [fmap list_fmap]. rewrite Z.add_0_r, !getb_lookup, Em by lia.
  replace (Z.to_nat (2 * m + 1)) with (2 * Z.to_nat m + 1)%nat by lia.
  destruct (drop (2 * Z.to_nat m) d) as [|a [|b l]] eqn:E.
  1, 2: apply (f_equal length) in E; rewrite length_drop in E; cbn in E; lia.
  assert (E0 : d !! (2 * Z.to_nat m)%nat = Some a) by (rewrite <- (Nat.add_0_r (2 * _)), <- lookup_drop, E; done).
  assert (E1 : d !! (2 * Z.to_nat m + 1)%nat = Some b) by (rewrite <- lookup_drop, E; done).
  rewrite E0, E1. cbn. rewrite take_0. cbn. lia.
Qed.

(** Completing a checksum request puts into the frame, at the place the
    guest named, the value that makes the internet checksum of the packet come
    out right: with the seed the guest left there (the sum of the
    pseudo-header) the 16-bit words add up to zero modulo [0xFFFF].  No other
    octet changes, the additions do not overflow on frames of up to 128 KiB,
    and offsets outside the frame are refused. *)
Theorem net_checksum_completes frame start off :
  Forall (fits 8) frame -> 0 <= start -> 0 <= off -> Z.even off = true -> len frame - start <= 131072 ->
  (len frame < start + off + 2 -> complete_checksum frame start off = Ok None) /\
  (start + off + 2 <= len frame -> exists frame', complete_checksum frame start off = Ok (Some frame') /\ len frame' = len frame /\
    (forall k, ~ (start + off <= k < start + off + 2) -> getb frame' k = getb frame k) /\
    (wsum (drop (Z.to_nat start) frame') + be_at frame (start + off) 2) mod 0xFFFF = 0).
Proof.
  intros Hb Hs Ho He Hl. unfold complete_checksum. split; intros Hin.
  { rewrite (proj2 (Z.ltb_lt (len frame) (start + off + 2))) by done. by rewrite orb_true_r. }
  rewrite !(proj2 (Z.ltb_ge _ _)) by lia. cbn [orb]. pose proof (len_nonneg frame).
  assert (Hld : len (drop (Z.to_nat start) frame) = len frame - start) by (unfold len in *; rewrite length_drop; lia).
  destruct (internet_checksum_ok (drop (Z.to_nat start) frame)) as (c & k & -> & Hc & Ek); [by apply Forall_drop|lia|]. cbn [mbind res_bind].
  exists (splice frame (start + off) (be_bytes 2 c)). split; [done|]. split; [apply len_splice|]. split.
  { intros x Hx. rewrite getb_splice by (rewrite ?len_be_bytes; lia). rewrite len_be_bytes. zcmp; (done || lia). }
  assert (Ed : drop (Z.to_nat start) (splice frame (start + off) (be_bytes 2 c)) = splice (drop (Z.to_nat start) frame) off (be_bytes 2 c)).
  { apply list_getb_ext; [unfold len; rewrite length_drop; unfold splice; rewrite !length_inserts, length_drop; lia|].
    intros i Hi. rewrite getb_drop, !getb_splice, getb_drop by (rewrite ?len_be_bytes; unfold len in *; rewrite ?length_drop; lia).
    rewrite !len_be_bytes. zcmp; try lia; f_equal; lia. }
  rewrite Ed. change (be_bytes 2 c) with [c / 256 mod 256; c mod 256]. pose proof (wsum_splice (drop (Z.to_nat start) frame) off (c / 256 mod 256) (c mod 256) Ho ltac:(lia) He) as Ew.
  assert (Es : be_at (drop (Z.to_nat start) frame) off 2 = be_at frame (start + off) 2).
  { apply be_at_ext. intros i Hi. rewrite getb_drop by lia. f_equal. lia. }
  rewrite Es in Ew. rewrite Ew. apply Z.mod_divide; [done|]. exists k. rewrite (Z.mod_small (c / 256) 256).
  - pose proof (Z.div_mod c 256 ltac:(lia)). lia.
  - split; [apply Z.div_pos; lia|apply Z.div_lt_upper_bound; lia].
Qed.

(** ** The control queue *)

(** A table of addresses as the guest writes it. *)
Definition encode_table (t : list mac) : list Z := le_bytes 4 (Z.of_nat (length t)) ++ concat t.

Definition table_ok (t : list mac) : Prop := Forall (fun m => length m = 6%nat) t /\ Z.of_nat (length t) < 2 ^ 32.

Lemma chunk_lookup (t : list mac) rest : forall i m, Forall (fun m => length m = 6%nat) t -> t !! i = Some m ->
  take 6 (drop (6 * i) (concat t ++ rest)) = m.
Proof.
  induction t as [|m0 t IH]; intros i m Ht Hi; [done|]. apply Forall_cons in Ht as [H0 Ht]. cbn [concat]. rewrite <- app_assoc.
  destruct i as [|i]; cbn in Hi.
  - simplify_eq. rewrite Nat.mul_0_r, drop_0, take_app_le by lia. rewrite <- H0. apply take_ge. lia.
  - replace (6 * S i)%nat with (length m0 + 6 * i)%nat by lia. rewrite drop_app_add. by apply IH.
Qed.

Lemma length_concat6 (t : list mac) : Forall (fun m => length m = 6%nat) t -> length (concat t) = (6 * length t)%nat.
Proof. induction 1 as [|m t Hm _ IH]; cbn [concat length]; [done|]. rewrite length_app. lia. Qed.

Lemma parse_encoded t rest :
  table_ok t -> parse_mac_table (encode_table t ++ rest) = Some (t, 4 + 6 * Z.of_nat (length t)).
Proof.
  intros [Ht Hn]. unfold parse_mac_table, encode_table. rewrite <- app_assoc. set (n := Z.of_nat (length t)) in *.
  assert (Hlen : len (le_bytes 4 n ++ concat t ++ rest) = 4 + 6 * n + len rest).
  { unfold len. rewrite !length_app, length_le_bytes, length_concat6 by done. lia. }
  pose proof (len_nonneg rest). rewrite Hlen, (proj2 (Z.ltb_ge _ 4)) by lia.
  assert (En : le32 (le_bytes 4 n ++ concat t ++ rest) 0 = n).
  { change (le_value (le_bytes 4 n) = n). rewrite le_value_bytes. apply Z.mod_small. change (256 ^ Z.of_nat 4) with (2 ^ 32). lia. }
  rewrite En. unfold checked_mul, checked_add. rewrite (proj2 (Z.ltb_lt (n * 6) _)) by lia. cbn [mbind option_bind].
  rewrite (proj2 (Z.ltb_lt (4 + n * 6) _)) by lia. cbn [mbind option_bind]. rewrite (proj2 (Z.ltb_ge _ (4 + n * 6))) by lia.
  f_equal. f_equal; [|lia]. apply list_eq. intros i. rewrite list_lookup_fmap.
  destruct (decide (i < length t)%nat) as [Hi|Hi].
  - destruct (lookup_lt_is_Some_2 t i Hi) as [m Hm]. rewrite lookup_seqZ_lt by lia. cbn. rewrite Hm. f_equal. unfold sub.
    replace (Z.to_nat (4 + (0 + Z.of_nat i) * 6)) with (4 + 6 * i)%nat by lia. exact (chunk_lookup t rest i m Ht Hm).
  - rewrite lookup_seqZ_ge by lia. cbn. symmetry. apply lookup_ge_None. lia.
Qed.

Section Control.
Context {B : Type} {NB : NetBackend B}.
Abbreviation dev := (VirtioNetDevice B).

Lemma count_ctrl_ok (d : dev) b :
  ctrl_commands (nd_stats d) + 1 < 2 ^ 64 -> ctrl_errors (nd_stats d) + 1 < 2 ^ 64 ->
  exists s, count_ctrl b d = (with_net_stats d s, Ok tt).
Proof. intros H1%Z.ltb_lt H2%Z.ltb_lt. unfold count_ctrl, count_net, radd. destruct b; [rewrite H1|rewrite H2]; by eexists. Qed.

(** The guest's address filter is set atomically and exactly: a
    well-formed [MAC_TABLE_SET] command installs the two tables it carries and
    changes nothing else. *)
Theorem net_mac_tables_set (d : dev) u m rest :
  contains (nd_features d) CTRL_VQ = true -> table_ok u -> table_ok m ->
  ctrl_commands (nd_stats d) + 1 < 2 ^ 64 -> ctrl_errors (nd_stats d) + 1 < 2 ^ 64 ->
  exists s, process_control ([1; 0] ++ encode_table u ++ encode_table m ++ rest) d =
    (with_net_stats (with_control d (mk_NetControlState (rx_mode (control d)) (vlan_filter (control d)) u m
       (announce_needed (control d)) (vq_pairs (control d)) (active_offloads (control d)))) s, Ok VIRTIO_NET_OK).
Proof.
  intros Hf Hu Hm H1 H2. set (d' := with_control d _). destruct (count_ctrl_ok d' true H1 H2) as [s Es]. exists s.
  unfold process_control. rewrite (bind_run get _ d d d eq_refl), Hf. cbn [negb orb].
  rewrite (proj2 (Z.ltb_ge _ 2)) by (unfold len; cbn [app length]; lia).
  rewrite (bind_run _ _ d d' VIRTIO_NET_OK).
  - change (VIRTIO_NET_OK =? VIRTIO_NET_OK) with true. by rewrite (bind_run _ _ _ _ _ Es).
  - change (ctrl_dispatch _ _ _ d) with (ctrl_mac 0 (encode_table u ++ encode_table m ++ rest) d). unfold ctrl_mac. change (0 =? 1) with false. change (0 =? 0) with true. cbn iota. rewrite parse_encoded by done.
    replace (Z.to_nat (4 + 6 * Z.of_nat (length u))) with (length (encode_table u)).
    + rewrite drop_app_length, parse_encoded by done. done.
    + unfold encode_table. destruct Hu. rewrite length_app, length_le_bytes, length_concat6 by done. lia.
Qed.

(** What a handler answers: it accepts, or refuses and leaves the device. *)
Definition answers (d : dev) (r : dev * Z) : Prop := r.2 = VIRTIO_NET_OK \/ r = (d, VIRTIO_NET_ERR).

Ltac answer := repeat case_match; by (left + right).

Lemma answers_rx command data (d : dev) : answers d (ctrl_rx command data d).
Proof. unfold ctrl_rx. answer. Qed.
Lemma answers_mac command data (d : dev) : answers d (ctrl_mac command data d).
Proof. unfold ctrl_mac. answer. Qed.
Lemma answers_vlan command data (d : dev) : answers d (ctrl_vlan command data d).
Proof. unfold ctrl_vlan. answer. Qed.
Lemma answers_rest command data (d : dev) :
  answers d (ctrl_announce command d) /\ answers d (ctrl_mq command data d) /\ answers d (ctrl_guest_offloads command data d).
Proof. unfold ctrl_announce, ctrl_mq, ctrl_guest_offloads. split_and!; answer. Qed.

Lemma refusals class command data (d : dev) : answers d (ctrl_dispatch class command data d).
Proof.
  destruct (answers_rest command data d) as (H3 & H4 & H5).
  destruct class as [|[[[p|p|]|[p|p|]|]|[[p|p|]|[p|p|]|]|]|]; cbn;
    first [exact H3|exact H4|exact H5|apply answers_rx|apply answers_mac|apply answers_vlan|by right].
Qed.

(** A control command is acknowledged or refused, and a refused one
    (malformed, unknown, or with the control queue not negotiated) changes
    nothing but the error counter. *)
Theorem net_control_refusal (d d' : dev) buf ack :
  process_control buf d = (d', Ok ack) ->
  ack = VIRTIO_NET_OK \/ (ack = VIRTIO_NET_ERR /\ d' = with_net_stats d (nd_stats d')).
Proof.
  unfold process_control. rewrite (bind_run get _ d d d eq_refl).
  assert (Hc : forall b (x y : dev) r, count_ctrl b x = (y, r) -> y = with_net_stats x (nd_stats y)).
  { intros b x y r. unfold count_ctrl, count_net. intros E. destruct x. repeat case_match; by simplify_eq. }
  destruct (negb (contains (nd_features d) CTRL_VQ) || (len buf <? 2)).
  - unfold mbind, M_bind. destruct (count_ctrl false d) as [d1 [[]|e|]] eqn:E; cbn; intros [= -> <-]. right. split; [done|].
    by apply (Hc false d d' (Ok tt)).
  - unfold mbind, M_bind. pose proof (refusals (getb buf 0) (getb buf 1) (drop 2 buf) d) as Hr.
    destruct (ctrl_dispatch _ _ _ d) as [d1 a]. destruct (count_ctrl (a =? VIRTIO_NET_OK) d1) as [d2 [[]|e|]] eqn:E; cbn; intros [= -> <-].
    destruct Hr as [Ha|[= -> ->]]; [by left|right]. split; [done|]. by apply (Hc _ d d' (Ok tt)) in E.
Qed.
End Control.

(** ** Transmit *)

(** The frame a descriptor puts on the wire, if any: what follows the header,
    the checksum completed when the header's flags (octet 0) ask for it, at
    the offsets of octets 6 to 9. *)
Definition wire_frame (merge : bool) (data : list Z) : option (list Z) :=
  let frame := drop (Z.to_nat (wire_size merge)) data in
  if len data <? wire_size merge then None
  else if tst (getb data 0) NEEDS_CSUM then
    match complete_checksum frame (le16 data 6) (le16 data 8) with Ok r => r | _ => None end
  else Some frame.

(** A buffer of the guest: octets, of no more than 128 KiB. *)
Definition guest_buffer (desc : VirtqDesc) : Prop := Forall (fits 8) (vd_data desc) /\ len (vd_data desc) <= 131072.

(** The counters can take [k] more frames of [bytes] octets, [c] of them to
    checksum. *)
Definition tx_room (s : NetDeviceStats) (k c bytes : Z) : Prop :=
  tx_packets s + k < 2 ^ 64 /\ tx_errors s + k < 2 ^ 64 /\ tx_csum_offloads s + c < 2 ^ 64 /\ tx_bytes s + bytes < 2 ^ 64.

Fixpoint total_len (l : list VirtqDesc) : Z := match l with [] => 0 | d :: l => len (vd_data d) + total_len l end.

Lemma complete_checksum_total frame start off :
  Forall (fits 8) frame -> len frame <= 131072 -> 0 <= start ->
  exists r, complete_checksum frame start off = Ok r /\ match r with Some f => len f = len frame | None => True end.
Proof.
  intros Hb Hl Hs. unfold complete_checksum. destruct (_ || _) eqn:E; [by exists None|]. apply orb_false_iff in E as [E1%Z.ltb_ge _].
  destruct (internet_checksum_ok (drop (Z.to_nat start) frame)) as (c & k & -> & _ & _); [by apply Forall_drop|unfold len in *; rewrite length_drop; lia|].
  eexists. split; [done|]. apply len_splice.
Qed.

Lemma le16_nonneg d off : Forall (fits 8) d -> 0 <= le16 d off.
Proof.
  intros Hd. unfold le16. assert (H : forall k, 0 <= getb d k); [|pose proof (H off); pose proof (H (off + 1)); lia].
  intros k. unfold getb. zcmp; [done|]. destruct (d !! _) as [x|] eqn:E; [|done]. by apply (Forall_lookup_1 _ _ _ _ Hd) in E as [? _].
Qed.

Section Transmit.
Context {B : Type} {NB : NetBackend B}.
Abbreviation dev := (VirtioNetDevice B).

(** A transmission ends, well or with an I/O error, and sends no more octets
    than the frame has. *)
Hypothesis send_answers : forall frame b,
  match (nb_send frame b).2 with Ok n => 0 <= n <= len frame | Err _ => True | Panic => False end.

Definition sent (b : B) (f : list Z) : B := (nb_send f b).1.

Section Counters.
(** Room in the counters, the receive counters as in [s0]. *)
Variable s0 : NetDeviceStats.
Definition tx_ready (s : NetDeviceStats) (k c n : Z) : Prop :=
  tx_room s k c n /\ rx_packets s = rx_packets s0 /\ rx_bytes s = rx_bytes s0 /\ rx_drops s = rx_drops s0.

Definition sent_opt (b : B) (f : option (list Z)) : B := match f with Some f => sent b f | None => b end.

(** The device after one descriptor. *)
Definition after_tx (d : dev) (desc : VirtqDesc) (s : NetDeviceStats) : dev :=
  with_net_stats (with_tx (with_net_backend d (sent_opt (nd_backend d) (wire_frame (merge_rxbuf d) (vd_data desc))))
    (push_used desc (tx_queue d))) s.

Lemma count_tx_error_ok (d : dev) k c n : tx_ready (nd_stats d) (k + 1) c n -> 0 <= k ->
  exists s, count_tx_error d = (with_net_stats d s, Ok tt) /\ tx_ready s k c n.
Proof.
  unfold tx_ready, tx_room, count_tx_error, count_net, radd. intros H Hk. rewrite (proj2 (Z.ltb_lt (tx_errors _ + 1) _)) by lia.
  eexists. split; [done|]. cbn. lia.
Qed.

Lemma count_tx_ok (d : dev) k c n m : tx_ready (nd_stats d) (k + 1) c (n + m) -> 0 <= k -> 0 <= m ->
  exists s, count_tx n d = (with_net_stats d s, Ok tt) /\ tx_ready s k c m.
Proof.
  unfold tx_ready, tx_room, count_tx, count_net, radd. intros H Hk Hm. rewrite (proj2 (Z.ltb_lt (tx_packets _ + 1) _)) by lia. cbn [mbind res_bind].
  rewrite (proj2 (Z.ltb_lt (tx_bytes _ + n) _)) by lia. eexists. split; [done|]. cbn. lia.
Qed.

Lemma send_counted_ok (d : dev) frame k c n : tx_ready (nd_stats d) (k + 1) c (len frame + n) -> 0 <= k -> 0 <= n ->
  exists s, send_counted frame d = (with_net_stats (with_net_backend d (sent (nd_backend d) frame)) s, Ok tt) /\ tx_ready s k c n.
Proof.
  intros H Hk Hn. pose proof (send_answers frame (nd_backend d)) as Ha. unfold send_counted, sent. pose proof (len_nonneg frame).
  destruct (nb_send frame (nd_backend d)) as [b r] eqn:E. cbn [fst snd] in *. set (d1 := with_net_backend d b).
  assert (Hc : call_backend (nb_send frame) d = (d1, match r with Ok a => Ok (Some a) | Err _ => Ok None | Panic => Panic end))
    by (unfold call_backend; by rewrite E). destruct r as [m|e|]; [| |done].
  - rewrite (bind_run _ _ _ _ _ Hc). apply (count_tx_ok d1 k c m n); [|done..]. unfold tx_ready, tx_room in *. cbn. lia.
  - rewrite (bind_run _ _ _ _ _ Hc). apply (count_tx_error_ok d1 k c n); [|done]. unfold tx_ready, tx_room in *. cbn. lia.
Qed.

Lemma send_done (d : dev) desc frame k c n : tx_ready (nd_stats d) (k + 1) c (len frame + n) -> 0 <= k -> 0 <= n ->
  exists s, (send_counted frame ;; tx_done desc) d =
    (with_net_stats (with_tx (with_net_backend d (sent (nd_backend d) frame)) (push_used desc (tx_queue d))) s, Ok tt) /\ tx_ready s k c n.
Proof.
  intros H Hk Hn. destruct (send_counted_ok d frame k c n H Hk Hn) as (s & Es & Hs). exists s. split; [|done].
  by rewrite (bind_run _ _ _ _ _ Es).
Qed.

Lemma count_csum_ok (d : dev) k c n : tx_ready (nd_stats d) k (c + 1) n -> 0 <= c ->
  exists s, count_csum d = (with_net_stats d s, Ok tt) /\ tx_ready s k c n.
Proof.
  unfold tx_ready, tx_room, count_csum, count_net, radd. intros H Hk. rewrite (proj2 (Z.ltb_lt (tx_csum_offloads _ + 1) _)) by lia.
  eexists. split; [done|]. cbn. lia.
Qed.

(** A descriptor without a frame for the wire. *)
Lemma fail_done (d : dev) desc k c n : tx_ready (nd_stats d) (k + 1) c n -> 0 <= k ->
  exists s, (count_tx_error ;; tx_done desc) d = (with_net_stats (with_tx d (push_used desc (tx_queue d))) s, Ok tt) /\ tx_ready s k c n.
Proof.
  intros H Hk. destruct (count_tx_error_ok d k c n H Hk) as (s & Es & Hs). exists s. split; [|done]. by rewrite (bind_run _ _ _ _ _ Es).
Qed.

Lemma tx_ready_mono s k c n k' c' n' : tx_ready s k c n -> k' <= k -> c' <= c -> n' <= n -> tx_ready s k' c' n'.
Proof. unfold tx_ready, tx_room. lia. Qed.

Lemma tx_one_ok (d : dev) desc k c n :
  guest_buffer desc -> tx_ready (nd_stats d) (k + 1) (c + 1) (len (vd_data desc) + n) -> 0 <= k -> 0 <= c -> 0 <= n ->
  exists s, tx_one desc d = (after_tx d desc s, Ok tt) /\ tx_ready s k c n.
Proof.
  intros [Hb Hl] H Hk Hc Hn. unfold tx_one, after_tx, wire_frame, hdr_from_bytes. rewrite (bind_run get _ d d d eq_refl).
  change (if merge_rxbuf d then VIRTIO_NET_HDR_SIZE_MRG else _) with (wire_size (merge_rxbuf d)). set (size := wire_size (merge_rxbuf d)).
  pose proof (len_nonneg (vd_data desc)). destruct (Z.ltb_spec (len (vd_data desc)) size) as [|Hsz].
  { destruct d. eapply fail_done; [|done]. eapply tx_ready_mono; [exact H|lia..]. }
  set (frame := drop (Z.to_nat size) (vd_data desc)). assert (Hf : len frame <= len (vd_data desc)) by (unfold frame, len; rewrite length_drop; lia).
  cbn [hdr_flags csum_start csum_offset]. destruct (tst (getb (vd_data desc) 0) NEEDS_CSUM).
  - destruct (complete_checksum_total frame (le16 (vd_data desc) 6) (le16 (vd_data desc) 8)) as (r & Er & Hr);
      [by apply Forall_drop|lia|by apply le16_nonneg|].
    rewrite (bind_run _ _ _ _ _ (lift_run _ _ _ Er)), Er. destruct r as [f|].
    + destruct (count_csum_ok d (k + 1) c (len f + n)) as (s & Es & Hs); [eapply tx_ready_mono; [exact H|lia..]|done|].
      rewrite (bind_run _ _ _ _ _ Es). exact (send_done (with_net_stats d s) desc f k c n Hs Hk Hn).
    + destruct d. eapply fail_done; [|done]. eapply tx_ready_mono; [exact H|lia..].
  - apply send_done; [|done..]. eapply tx_ready_mono; [exact H|lia..].
Qed.

Lemma total_len_nonneg l : 0 <= total_len l.
Proof. induction l as [|x l IH]; cbn; [done|]. pose proof (len_nonneg (vd_data x)). lia. Qed.

(** The frames a list of descriptors puts on the wire. *)
Definition wire_frames (merge : bool) (l : list VirtqDesc) : list (list Z) := omap (fun desc => wire_frame merge (vd_data desc)) l.

Lemma tx_loop_ok l : forall d : dev, available (tx_queue d) = l -> Forall guest_buffer l ->
  tx_ready (nd_stats d) (Z.of_nat (length l)) (Z.of_nat (length l)) (total_len l) ->
  exists s, tx_loop (length l) d =
    (with_net_stats (with_tx (with_net_backend d (foldl sent (nd_backend d) (wire_frames (merge_rxbuf d) l)))
       (mk_Virtqueue (vq_capacity (tx_queue d)) [] (used (tx_queue d) ++ l) (next_index (tx_queue d)) (enabled (tx_queue d)))) s, Ok tt) /\ tx_ready s 0 0 0.
Proof.
  induction l as [|desc l IH]; intros d Hq Hb Hr; cbn [length tx_loop]; rewrite (bind_run get _ d d d eq_refl), Hq.
  { exists (nd_stats d). split; [|exact Hr]. destruct d as [? ? ? ? ? ? q]. cbn in *. rewrite app_nil_r. destruct q. cbn in *. by subst. }
  apply Forall_cons in Hb as [Hb0 Hb]. cbn [length total_len] in Hr. pose proof (total_len_nonneg l).
  set (d1 := with_tx d (pop_available (tx_queue d)).1). rewrite (bind_run tx_pop _ d d1 (Some desc)) by (unfold tx_pop, d1, pop_available; by rewrite Hq).
  destruct (tx_one_ok d1 desc (Z.of_nat (length l)) (Z.of_nat (length l)) (total_len l)) as (s & Es & Hs); [done| |lia..|].
  { eapply tx_ready_mono; [exact Hr|lia..]. }
  rewrite (bind_run _ _ _ _ _ Es). destruct (IH (after_tx d1 desc s)) as (s' & -> & Hs'); [unfold d1, pop_available; by rewrite Hq|done|exact Hs|].
  exists s'. split; [|exact Hs']. unfold d1, pop_available. rewrite Hq. cbn. rewrite <- app_assoc. unfold wire_frames. cbn [omap list_omap].
  by destruct (wire_frame (merge_rxbuf d) (vd_data desc)).
Qed.

End Counters.

(** Transmission loses nothing and invents nothing: every descriptor the
    guest queued comes back in the used ring, once and in order, and the
    backend gets exactly the frames of the well-formed ones, in order,
    whichever of them it fails to send; nothing else but the counters
    changes. *)
Theorem net_tx_sends (d : dev) :
  let l := available (tx_queue d) in
  enabled (tx_queue d) = true -> Forall guest_buffer l ->
  tx_room (nd_stats d) (Z.of_nat (length l)) (Z.of_nat (length l)) (total_len l) ->
  exists s, process_tx d =
    (with_net_stats (with_tx (with_net_backend d (foldl sent (nd_backend d) (wire_frames (merge_rxbuf d) l)))
       (mk_Virtqueue (vq_capacity (tx_queue d)) [] (used (tx_queue d) ++ l) (next_index (tx_queue d)) true)) s, Ok tt).
Proof.
  intros l He Hb Hr. unfold process_tx. rewrite (bind_run get _ d d d eq_refl), He. destruct (tx_loop_ok (nd_stats d) l d eq_refl Hb) as (s & Es & _); [done|].
  exists s. cbn [negb]. fold l. by rewrite Es, He.
Qed.
End Transmit.

(** ** Receive, over the loopback backend *)

(** The counters can take [k] more frames of [bytes] octets. *)
Definition rx_room (s : NetDeviceStats) (k bytes : Z) : Prop :=
  rx_packets s + k < 2 ^ 64 /\ rx_drops s + k < 2 ^ 64 /\ rx_bytes s + bytes < 2 ^ 64.

Fixpoint total (l : list (list Z)) : Z := match l with [] => 0 | f :: l => len f + total l end.

(** What the guest finds in a buffer offered for a frame. *)
Definition fill (desc : VirtqDesc) (frame : list Z) : VirtqDesc :=
  if len (vd_data desc) <? len frame then desc else mk_VirtqDesc (vd_index desc) frame (vd_writable desc).

Section Receive.
Abbreviation dev := (VirtioNetDevice LoopbackBackend).

(** The frames the guest gets of those on the wire, each with its header. *)
Definition received_frames (d : dev) (b : list (list Z)) : list (list Z) :=
  (fun f => hdr_to_bytes (rx_header d) (merge_rxbuf d) ++ f) <$> filter (fun f => accepts_frame d f = true) b.

Definition on_the_wire (f : list Z) : Prop := 0 < len f <= 65536.

Lemma total_nonneg l : 0 <= total l.
Proof. induction l as [|x l IH]; cbn; [done|]. pose proof (len_nonneg x). lia. Qed.

Lemma rx_room_mono s k n k' n' : rx_room s k n -> k' <= k -> n' <= n -> rx_room s k' n'.
Proof. unfold rx_room. lia. Qed.

Lemma count_rx_drop_ok (d : dev) k j n : rx_drops (nd_stats d) + 1 + k < 2 ^ 64 -> rx_packets (nd_stats d) + j < 2 ^ 64 -> 0 <= k ->
  rx_bytes (nd_stats d) + n < 2 ^ 64 ->
  exists s, count_rx_drop d = (with_net_stats d s, Ok tt) /\ rx_drops s + k < 2 ^ 64 /\ rx_packets s + j < 2 ^ 64 /\ rx_bytes s + n < 2 ^ 64.
Proof.
  unfold count_rx_drop, count_net, radd. intros. rewrite (proj2 (Z.ltb_lt (rx_drops _ + 1) _)) by lia.
  eexists. split; [done|]. cbn. lia.
Qed.

Lemma count_rx_ok (d : dev) k n m : rx_room (nd_stats d) (k + 1) (n + m) -> 0 <= k -> 0 <= m ->
  exists s, count_rx n d = (with_net_stats d s, Ok tt) /\ rx_room s k m.
Proof.
  unfold rx_room, count_rx, count_net, radd. intros H Hk Hm. rewrite (proj2 (Z.ltb_lt (rx_packets _ + 1) _)) by lia. cbn [mbind res_bind].
  rewrite (proj2 (Z.ltb_lt (rx_bytes _ + n) _)) by lia. eexists. split; [done|]. cbn. lia.
Qed.

(** The receive buffer holds the frame after [recv]. *)
Lemma loop_recv_frame buf f b : len buf = 65536 -> on_the_wire f ->
  exists buf', loop_recv buf (f :: b) = (b, (buf', Ok (len f))) /\ len buf' = 65536 /\ sub buf' 0 (len f) = f.
Proof.
  intros Hb Hf. unfold loop_recv. rewrite Z.min_l by (destruct Hf; lia). pose proof Hf as [H0 H1].
  assert (E : sub f 0 (len f) = f) by (unfold sub, len; rewrite Nat2Z.id; cbn; rewrite drop_0; by apply take_ge).
  eexists. split; [done|]. rewrite E. split; [by rewrite len_splice|].
  apply list_getb_ext; [rewrite len_sub; rewrite ?len_splice; lia|]. rewrite len_sub by (rewrite ?len_splice; lia).
  intros k Hk. rewrite getb_sub, getb_splice by lia. zcmp; try lia. f_equal. lia.
Qed.

Lemma rx_poll_ok b : forall (d : dev) buf n k m, nd_backend d = b -> len buf = 65536 -> Forall on_the_wire b ->
  rx_packets (nd_stats d) + k < 2 ^ 64 -> rx_drops (nd_stats d) + Z.of_nat (length b) + k < 2 ^ 64 -> rx_bytes (nd_stats d) + m < 2 ^ 64 -> 0 <= k ->
  exists s, rx_poll (length b) buf n d =
    (with_net_stats (with_pending (with_net_backend d []) (rx_pending d ++ received_frames d b)) s,
     Ok (n + Z.of_nat (length (received_frames d b)))) /\ rx_room s k m.
Proof.
  induction b as [|f b IH]; intros d buf n k m Eb Hbuf Hb H1 H2 H3 Hk; cbn [length rx_poll]; rewrite (bind_run get _ d d d eq_refl), Eb.
  { exists (nd_stats d). cbn in H2. rewrite Z.add_0_r. split; [|unfold rx_room; lia].
    destruct d. cbn in *. subst. by rewrite app_nil_r. }
  apply Forall_cons in Hb as [Hf Hb]. destruct (loop_recv_frame buf f b Hbuf Hf) as (buf' & Er & Hb' & Es).
  cbn [nb_has_pending_rx nb_recv Loopback_backend]. rewrite bool_decide_false by done. cbn [negb]. rewrite Er.
  set (d1 := with_net_backend d b). rewrite (bind_run _ _ d d1 tt) by done.
  destruct Hf as [H0 Hf]. rewrite (proj2 (Z.eqb_neq _ _)), (proj2 (Z.ltb_ge _ _)), (bind_run get _ d1 d1 d1 eq_refl), Es by lia.
  unfold received_frames. cbn [length] in H2. change (accepts_frame d1 f) with (accepts_frame d f). destruct (accepts_frame d f) eqn:Ea; cbn [negb].
  - rewrite (bind_run _ _ d1 (inject_rx f d1) tt) by done.
    destruct (IH (inject_rx f d1) buf' (n + 1) k m) as (s & Ep & Hs); [done|done|done|done|cbn; lia|done|done|].
    exists s. split; [|done]. rewrite Ep, filter_cons_True by done. cbn [fmap list_fmap length].
    change (received_frames (inject_rx f d1) b) with (received_frames d b). f_equal.
    + unfold inject_rx at 2. cbn. by rewrite <- app_assoc.
    + f_equal. unfold received_frames. lia.
  - destruct (count_rx_drop_ok d1 (Z.of_nat (length b) + k) k m) as (s1 & E1 & Hs1); [cbn; lia..|].
    rewrite (bind_run _ _ _ _ _ E1). destruct (IH (with_net_stats d1 s1) buf' n k m) as (s & Ep & Hs); [done|done|done|cbn; lia..|done|].
    exists s. split; [|done]. rewrite Ep, filter_cons_False by congruence. done.
Qed.

Lemma rx_deliver_ok p : forall d : dev, rx_pending d = p -> rx_room (nd_stats d) (Z.of_nat (length p)) (total p) ->
  exists s, rx_deliver (length p) d =
    (with_net_stats (with_rx (with_pending d (drop (length (available (rx_queue d))) p))
       (mk_Virtqueue (vq_capacity (rx_queue d)) (drop (length p) (available (rx_queue d)))
          (used (rx_queue d) ++ zip_with fill (available (rx_queue d)) p) (next_index (rx_queue d)) (enabled (rx_queue d)))) s, Ok tt).
Proof.
  induction p as [|f p IH]; intros d Hp Hr; cbn [length rx_deliver]; rewrite (bind_run get _ d d d eq_refl), Hp.
  { exists (nd_stats d). destruct d as [? ? ? ? ? ? ? q]. cbn in *. rewrite drop_nil, drop_0, zip_with_nil_r, app_nil_r. subst. by destruct q. }
  destruct (available (rx_queue d)) as [|desc a] eqn:Ea.
  { exists (nd_stats d). destruct d as [? ? ? ? ? ? ? q]. cbn in *. rewrite app_nil_r. subst. destruct q. cbn in *. by subst. }
  set (d1 := with_rx d (pop_available (rx_queue d)).1). rewrite (bind_run _ _ d d1 tt) by done. cbn [length total] in Hr.
  pose proof (total_nonneg p). pose proof (len_nonneg f).
  assert (Hone : exists s, (if len (vd_data desc) <? len f
     then count_rx_drop ;; update (fun d => with_rx d (push_used desc (rx_queue d)))
     else count_rx (len f) ;; update (fun d => with_rx d (push_used (mk_VirtqDesc (vd_index desc) f (vd_writable desc)) (rx_queue d)))) d1 =
     (with_net_stats (with_rx d1 (push_used (fill desc f) (rx_queue d1))) s, Ok tt) /\ rx_room s (Z.of_nat (length p)) (total p)).
  { unfold fill. destruct (len (vd_data desc) <? len f).
    - destruct (count_rx_drop_ok d1 (Z.of_nat (length p)) (Z.of_nat (length p)) (total p)) as (s & Es & Hs); [unfold rx_room in Hr; cbn; lia..|].
      exists s. rewrite (bind_run _ _ _ _ _ Es). split; [done|unfold rx_room; lia].
    - destruct (count_rx_ok d1 (Z.of_nat (length p)) (len f) (total p)) as (s & Es & Hs); [unfold rx_room in *; cbn; lia|lia|done|].
      exists s. by rewrite (bind_run _ _ _ _ _ Es). }
  destruct Hone as (s & Es & Hs). rewrite (bind_run _ _ _ _ _ Es). set (d2 := with_net_stats _ s).
  rewrite (bind_run _ _ d2 (with_pending d2 p) tt) by done.
  destruct (IH (with_pending d2 p)) as (s' & ->); [done|exact Hs|]. exists s'.
  unfold d2, d1, pop_available. rewrite Ea. cbn. by rewrite <- app_assoc.
Qed.
Lemma loop_answers frame (b : LoopbackBackend) :
  match (nb_send frame b).2 with Ok n => 0 <= n <= len frame | Err _ => True | Panic => False end.
Proof. cbn. pose proof (len_nonneg frame). lia. Qed.

Lemma loop_sends fs : forall b : LoopbackBackend, foldl sent b fs = b ++ fs.
Proof. induction fs as [|f fs IH]; intros b; cbn; [by rewrite app_nil_r|]. rewrite IH. unfold loop_send. cbn. by rewrite <- app_assoc. Qed.

Lemma process_rx_ok (d : dev) b : nd_backend d = b -> Forall on_the_wire b -> enabled (rx_queue d) = true ->
  let fs := rx_pending d ++ received_frames d b in
  rx_room (nd_stats d) (Z.of_nat (length b + length fs)) (total fs) ->
  exists s, process_rx (length b) d =
    (with_net_stats (with_rx (with_pending (with_net_backend d []) (drop (length (available (rx_queue d))) fs))
       (mk_Virtqueue (vq_capacity (rx_queue d)) (drop (length fs) (available (rx_queue d)))
          (used (rx_queue d) ++ zip_with fill (available (rx_queue d)) fs) (next_index (rx_queue d)) true)) s,
     Ok (Z.of_nat (length (received_frames d b)))).
Proof.
  intros Eb Hb He fs Hr. unfold process_rx. rewrite (bind_run get _ d d d eq_refl), He. cbn [negb].
  destruct (rx_poll_ok b d (zeros 65536) 0 (Z.of_nat (length fs)) (total fs) Eb eq_refl Hb) as (s & Ep & Hs); [unfold rx_room in Hr; lia..|].
  rewrite (bind_run _ _ _ _ _ Ep). set (d1 := with_net_stats _ s). rewrite (bind_run get _ d1 d1 d1 eq_refl).
  destruct (rx_deliver_ok fs d1 eq_refl Hs) as (s' & Ed). exists s'. change (rx_pending d1) with fs.
  rewrite (bind_run _ _ _ _ _ Ed). unfold d1. cbn. by rewrite He.
Qed.

(** C28: Over the loopback backend everything the guest sends comes back to it:
    after transmission and reception the guest's receive buffers hold, in
    order, the frames that were still pending, those that were on the wire and
    those just sent, each that the receive filter accepts and each behind its
    header; a frame without a buffer stays pending, one too long for its
    buffer is dropped with it. *)
Theorem net_loopback_roundtrip (d : dev) :
  let l := available (tx_queue d) in
  let wire := nd_backend d ++ wire_frames (merge_rxbuf d) l in
  let fs := rx_pending d ++ received_frames d wire in
  let bufs := available (rx_queue d) in
  enabled (tx_queue d) = true -> enabled (rx_queue d) = true -> Forall guest_buffer l -> Forall on_the_wire wire ->
  tx_room (nd_stats d) (Z.of_nat (length l)) (Z.of_nat (length l)) (total_len l) ->
  rx_room (nd_stats d) (Z.of_nat (length wire + length fs)) (total fs) ->
  exists d', (process_tx ;; process_rx (length wire)) d = (d', Ok (Z.of_nat (length (received_frames d wire)))) /\
    used (tx_queue d') = used (tx_queue d) ++ l /\ available (tx_queue d') = [] /\
    used (rx_queue d') = used (rx_queue d) ++ zip_with fill bufs fs /\ available (rx_queue d') = drop (length fs) bufs /\
    rx_pending d' = drop (length bufs) fs /\ nd_backend d' = [].
Proof.
  intros l wire fs bufs Ht Hrx Hb Hw Htr Hrr.
  destruct (tx_loop_ok (NB := Loopback_backend) loop_answers (nd_stats d) l d eq_refl Hb) as (s & Es & _ & H1 & H2 & H3); [done|]. rewrite loop_sends in Es.
  set (d1 := with_net_stats _ s) in Es.
  destruct (process_rx_ok d1 wire eq_refl Hw Hrx) as (s' & Er).
  { unfold rx_room in *. cbn. rewrite H1, H2, H3. exact Hrr. }
  rewrite (bind_run process_tx _ d d1 tt), Er; [eexists; split; [done|]; by split_and!|].
  unfold process_tx. by rewrite (bind_run get _ d d d eq_refl), Ht.
Qed.
End Receive.

(** ** A device at work *)

Definition guest_mac : mac := [0x52; 0x54; 0; 0x12; 0x34; 0x56].
Definition sample_device : VirtioNetDevice LoopbackBackend :=
  let d := activate NET_FEATURES_DEFAULT (VirtioNetDevice_new guest_mac 1500 []) in
  let send (flags : list Z) f d := with_tx d (push_available (flags ++ f) false (tx_queue d)).1 in
  let offer n d := with_rx d (push_available (zeros n) true (rx_queue d)).1 in
  offer 8 (offer 64 (offer 64 (send (repeat 0 5) [] (send (repeat 0 12) ([1; 2; 3; 4; 5; 6] ++ [9])
    (send ([1] ++ repeat 0 5 ++ [6; 0; 2; 0] ++ [0; 0]) (guest_mac ++ [0x45; 0; 0; 0]) (send (repeat 0 12) (guest_mac ++ [7; 8; 9]) d)))))).

Lemma octets (l : list Z) : forallb (fun x => (0 <=? x) && (x <? 256)) l = true -> Forall (fits 8) l.
Proof.
  intros H. apply Forall_forall. intros x Hx%list_elem_of_In. rewrite forallb_forall in H. specialize (H x Hx).
  unfold fits. change (2 ^ 8) with 256. lia.
Qed.

Lemma net_checksum_completes_witness :
  exists frame', complete_checksum (guest_mac ++ [0x45; 0; 0; 0]) 6 2 = Ok (Some frame') /\
    (wsum (drop 6 frame') + be_at (guest_mac ++ [0x45; 0; 0; 0]) 8 2) mod 0xFFFF = 0.
Proof.
  destruct (net_checksum_completes (guest_mac ++ [0x45; 0; 0; 0]) 6 2) as [_ H]; [by apply octets|done..|].
  destruct H as (f & E & _ & _ & Hs); [done|]. by exists f.
Defined.

Lemma net_mac_tables_set_witness :
  exists s, process_control ([1; 0] ++ encode_table [guest_mac] ++ encode_table [[1; 0; 0x5e; 0; 0; 1]; [1; 0; 0x5e; 0; 0; 2]] ++ []) sample_device =
    (with_net_stats (with_control sample_device
       (mk_NetControlState 0 ∅ [guest_mac] [[1; 0; 0x5e; 0; 0; 1]; [1; 0; 0x5e; 0; 0; 2]] false 0 2)) s, Ok VIRTIO_NET_OK).
Proof. apply (net_mac_tables_set sample_device); [done|split; [by repeat constructor|done]..|done|done]. Defined.

(** A [MAC_TABLE_SET] cut short. *)
Lemma net_control_refusal_witness :
  VIRTIO_NET_ERR = VIRTIO_NET_OK \/ (VIRTIO_NET_ERR = VIRTIO_NET_ERR /\
    (process_control [1; 0; 2; 0; 0; 0; 1; 2] sample_device).1 =
    with_net_stats sample_device (nd_stats (process_control [1; 0; 2; 0; 0; 0; 1; 2] sample_device).1)).
Proof. apply (net_control_refusal sample_device _ [1; 0; 2; 0; 0; 0; 1; 2]). by vm_compute. Defined.

Lemma sample_buffers : Forall guest_buffer (available (tx_queue sample_device)).
Proof. repeat constructor; try done. all: by apply octets. Qed.

Lemma net_tx_sends_witness :
  exists s, process_tx sample_device =
    (with_net_stats (with_tx (with_net_backend sample_device
         (foldl sent [] (wire_frames true (available (tx_queue sample_device)))))
       (mk_Virtqueue 256 [] ([] ++ available (tx_queue sample_device)) 4 true)) s, Ok tt).
Proof. exact (net_tx_sends (NB := Loopback_backend) loop_answers sample_device eq_refl sample_buffers ltac:(unfold tx_room; done)). Defined.

Lemma net_loopback_roundtrip_witness :
  exists d', (process_tx ;; process_rx 3) sample_device = (d', Ok 2) /\
    (vd_data <$> used (rx_queue d')) =
      [[2; 0; 0; 0; 0; 0; 0; 0; 0; 0; 1; 0] ++ guest_mac ++ [7; 8; 9];
       [2; 0; 0; 0; 0; 0; 0; 0; 0; 0; 1; 0] ++ guest_mac ++ [0x45; 0; 186; 255]].
Proof.
  destruct (net_loopback_roundtrip sample_device eq_refl eq_refl sample_buffers) as (d' & E & _ & _ & Hu & _).
  - repeat (apply Forall_cons; split; [split; reflexivity || (intros [=])|]). apply Forall_nil. done.
  - done.
  - done.
  - exists d'. split; [exact E|]. rewrite Hu. reflexivity.
Defined.
