(* ===== verification/MemMap.v ===== *)
(** * The physical memory map: enlil-platform/src/memory/map.rs

    The map the hypervisor carves its regions from, as the source has it: a
    list of regions ordered by base.  Its meaning is the kind of every
    physical address ([kind_at]); the theorems say what carving, reserving,
    coalescing and planning do to that meaning, and that the list stays
    ordered and free of overlaps ([ordered]). *)

From Stdlib Require Import ZArith Lia Bool.
From stdpp Require Import base decidable list numbers sorting.
From S2P Require Import Prelude Rust.

Inductive MemoryKind := Usable | Reserved | AcpiReclaimable | AcpiNvs | Bad | Mmio.

#[export] Instance MemoryKind_eq_dec : EqDecision MemoryKind.
Proof. solve_decision. Defined.

Definition is_allocatable (k : MemoryKind) : bool := match k with Usable => true | _ => false end.

Record MemoryRegion := mk_MemoryRegion { rbase : Z; rsize : Z; rkind : MemoryKind }.

#[export] Instance MemoryRegion_eq_dec : EqDecision MemoryRegion.
Proof. solve_decision. Defined.

(** Methods that can only panic. *)
Abbreviation pure A := (res Empty_set A).

(** [MemoryRegion::end]: a region that reaches past [2^64 - 1] panics. *)
Definition rend (r : MemoryRegion) : pure Z := radd (rbase r) (rsize r).
Abbreviation region_is_empty r := (rsize r =? 0) (only parsing).
Definition rcontains (r : MemoryRegion) (addr : Z) : pure bool :=
  if rbase r <=? addr then e ← rend r; Ok (addr <? e) else Ok false.
Definition overlaps (r o : MemoryRegion) : pure bool :=
  oe ← rend o;
  if rbase r <? oe then e ← rend r; Ok (rbase o <? e) else Ok false.

(** ** Addresses *)


(** [PhysAddr::align_up]: [(self.0 + align - 1) & !(align - 1)]. *)
Definition align_up (a align : Z) : pure Z :=
  if negb (is_power_of_two align) then Panic
  else
    s ← radd a align;
    d ← rsub s 1;
    Ok (d .&~ (align - 1)).

(** ** Firmware maps *)

Record E820Entry := mk_E820Entry { e820_base : Z; e820_length : Z; e820_kind : Z }.

(** Codes 1 usable, 3 reclaimable, 4 NVS, 5 bad; anything else is reserved. *)
Definition e820_memory_kind (k : Z) : MemoryKind :=
  match k with 1 => Usable | 3 => AcpiReclaimable | 4 => AcpiNvs | 5 => Bad | _ => Reserved end.

Record UefiMemoryDescriptor := mk_UefiMemoryDescriptor { d_kind : Z; phys_start : Z; page_count : Z }.

Definition memory_kind (d : UefiMemoryDescriptor) : MemoryKind :=
  match d_kind d with
  | 1 | 2 | 3 | 4 | 7 => Usable
  | 8 => Bad
  | 9 => AcpiReclaimable
  | 10 => AcpiNvs
  | _ => Reserved
  end.

Definition length_bytes (d : UefiMemoryDescriptor) : pure Z := rmul (page_count d) 4096.

(** [iter.map(f)] with an [f] that can panic. *)
Fixpoint rmap {A B} (f : A -> pure B) (l : list A) : pure (list B) :=
  match l with
  | [] => Ok []
  | x :: l' => y ← f x; ys ← rmap f l'; Ok (y :: ys)
  end.

(** The first heap: the largest region of conventional memory (type 7) with
    at least [min_size] bytes. *)
Definition select_bootstrap_heap_region (ds : list UefiMemoryDescriptor) (min_size : Z) : pure (option MemoryRegion) :=
  rs ← rmap (fun d => n ← length_bytes d; Ok (mk_MemoryRegion (phys_start d) n Usable))
         (filter (fun d => page_count d <> 0 /\ d_kind d = 7) ds);
  Ok (max_by_key rsize (filter (fun r => min_size <= rsize r) rs)).

(** ** The map *)

(** The regions, ascending by base. *)
Abbreviation MemoryMap := (list MemoryRegion).

Definition from_regions (rs : list MemoryRegion) : MemoryMap := sort_by_key rbase rs.

Definition from_e820 (es : list E820Entry) : MemoryMap :=
  from_regions ((fun e => mk_MemoryRegion (e820_base e) (e820_length e) (e820_memory_kind (e820_kind e))) <$>
    filter (fun e => e820_length e <> 0) es).

Definition from_uefi (ds : list UefiMemoryDescriptor) : pure MemoryMap :=
  rs ← rmap (fun d => n ← length_bytes d; Ok (mk_MemoryRegion (phys_start d) n (memory_kind d))) (filter (fun d => page_count d <> 0) ds);
  Ok (from_regions rs).

(** [partition_point] of a sorted map is where the first later region is. *)
Fixpoint map_add (r : MemoryRegion) (m : MemoryMap) : MemoryMap :=
  match m with
  | x :: m' => if rbase x <=? rbase r then x :: map_add r m' else r :: m
  | [] => [r]
  end.

Definition usable (m : MemoryMap) : list MemoryRegion := filter (fun r => is_allocatable (rkind r) = true) m.

(** [sum()], with overflow checks. *)
Definition total_usable (m : MemoryMap) : pure Z := foldl (fun acc r => s ← acc; radd s (rsize r)) (Ok 0) (usable m).

Definition largest_usable (m : MemoryMap) : option MemoryRegion := max_by_key rsize (usable m).

(** What a region becomes when [[start, start + size)] of it is reserved. *)
Definition split_pieces (region : MemoryRegion) (start size : Z) : pure (list MemoryRegion) :=
  end_ ← radd start size;
  re ← rend region;
  Ok ((if rbase region <? start then [mk_MemoryRegion (rbase region) (start - rbase region) (rkind region)] else []) ++
      [mk_MemoryRegion start size Reserved] ++
      (if end_ <? re then [mk_MemoryRegion end_ (re - end_) (rkind region)] else [])).

Definition split_reserve (idx : nat) (start size : Z) (m : MemoryMap) : pure MemoryMap :=
  match m !! idx with
  | None => Panic
  | Some region => pieces ← split_pieces region start size; Ok (take idx m ++ pieces ++ drop (S idx) m)
  end.

(** The search of [carve_below] from region [i] on. *)
Fixpoint find_fit (size align limit : Z) (i : nat) (l : list MemoryRegion) : pure (option (nat * Z)) :=
  match l with
  | [] => Ok None
  | region :: l' =>
      if negb (is_allocatable (rkind region)) then find_fit size align limit (S i) l'
      else
        start ← align_up (rbase region) align;
        match checked_add start size with
        | None => find_fit size align limit (S i) l'
        | Some end_ =>
            re ← rend region;
            if (end_ <=? re) && (end_ <=? limit) then Ok (Some (i, start)) else find_fit size align limit (S i) l'
        end
  end.

Definition carve_below (size align limit : Z) : M MemoryMap Empty_set (option Z) := fun m =>
  if negb (is_power_of_two align) then (m, Panic)
  else if size =? 0 then (m, Ok None)
  else
    match find_fit size align limit 0 m with
    | Ok (Some (i, start)) =>
        match split_reserve i start size m with
        | Ok m' => (m', Ok (Some start))
        | Err e => (m, Err e)
        | Panic => (m, Panic)
        end
    | Ok None => (m, Ok None)
    | Err e => (m, Err e)
    | Panic => (m, Panic)
    end.

Definition carve (size align : Z) : M MemoryMap Empty_set (option Z) := carve_below size align (2 ^ 64 - 1).

(** The first usable region that meets [[base, end_)], and their common span. *)
Fixpoint first_usable_overlap (base end_ : Z) (i : nat) (l : list MemoryRegion) : pure (option (nat * (Z * Z))) :=
  match l with
  | [] => Ok None
  | region :: l' =>
      if negb (is_allocatable (rkind region)) then first_usable_overlap base end_ (S i) l'
      else
        let start := Z.max (rbase region) base in
        re ← rend region;
        let stop := Z.min re end_ in
        if start <? stop then Ok (Some (i, (start, stop - start))) else first_usable_overlap base end_ (S i) l'
  end.

(** The loop of [reserve_span]: one usable overlap per round. *)
Fixpoint reserve_loop (fuel : nat) (base end_ : Z) (any : bool) (m : MemoryMap) : MemoryMap * pure bool :=
  match first_usable_overlap base end_ 0 m with
  | Ok None => (m, Ok any)
  | Ok (Some (i, (start, n))) =>
      match fuel with
      | O => (m, Panic)
      | S fuel =>
          match split_reserve i start n m with
          | Ok m' => reserve_loop fuel base end_ true m'
          | Err e => (m, Err e)
          | Panic => (m, Panic)
          end
      end
  | Err e => (m, Err e)
  | Panic => (m, Panic)
  end.

Definition reserve_span (base size : Z) : M MemoryMap Empty_set bool := fun m =>
  if size =? 0 then (m, Ok false)
  else match checked_add base size with
       | None => (m, Ok false)
       | Some end_ => reserve_loop (length m) base end_ false m
       end.

Fixpoint is_consistent (m : MemoryMap) : pure bool :=
  match m with
  | a :: ((b :: _) as m') => e ← rend a; if e <=? rbase b then is_consistent m' else Ok false
  | _ => Ok true
  end.

(** The loop of [coalesce], with [merged] in reverse. *)
Fixpoint coalesce_loop (merged : list MemoryRegion) (m : list MemoryRegion) : pure MemoryMap :=
  match m with
  | [] => Ok (rev merged)
  | region :: m' =>
      match merged with
      | last :: merged' =>
          if decide (rkind last = rkind region) then
            e ← rend last;
            if e =? rbase region then
              s ← radd (rsize last) (rsize region);
              coalesce_loop (mk_MemoryRegion (rbase last) s (rkind last) :: merged') m'
            else coalesce_loop (region :: merged) m'
          else coalesce_loop (region :: merged) m'
      | [] => coalesce_loop [region] m'
      end
  end.

Definition coalesce (m : MemoryMap) : pure MemoryMap := coalesce_loop [] m.

(** ** Planning *)

Record MemoryPlanRequest := mk_MemoryPlanRequest {
  heap_size : Z; dma_size : Z; guest_ram_sizes : list Z; plan_align : Z; preclaimed_heap : option (Z * Z);
}.

Record HypervisorRegions := mk_HypervisorRegions { dma : MemoryRegion; heap : MemoryRegion; guest_ram : list MemoryRegion }.

Fixpoint reserved_scan (cursor end_ : Z) (m : list MemoryRegion) : pure bool :=
  match m with
  | [] => Ok false
  | region :: m' =>
      if decide (rkind region <> Reserved) then reserved_scan cursor end_ m'
      else
        re ← rend region;
        if re <=? cursor then reserved_scan cursor end_ m'
        else if cursor <? rbase region then Ok false
        else if end_ <=? re then Ok true
        else reserved_scan re end_ m'
  end.

Definition span_is_reserved (base size : Z) (m : MemoryMap) : pure bool :=
  match checked_add base size with
  | None => Ok false
  | Some end_ => if size =? 0 then Ok false else reserved_scan base end_ m
  end.

(** [let x = f()?] on the scratch map: no value ends the plan. *)
Definition mtry {S A B} (f : M S Empty_set (option A)) (k : A -> M S Empty_set (option B)) : M S Empty_set (option B) :=
  o ← f; match o with Some a => k a | None => mret None end.

Fixpoint carve_guests (align : Z) (sizes : list Z) : M MemoryMap Empty_set (option (list MemoryRegion)) :=
  match sizes with
  | [] => mret (Some [])
  | size :: sizes' =>
      mtry (carve size align) (fun base =>
      mtry (carve_guests align sizes') (fun rest =>
      mret (Some (mk_MemoryRegion base size Reserved :: rest))))
  end.

Definition plan_heap (req : MemoryPlanRequest) : M MemoryMap Empty_set (option MemoryRegion) :=
  match preclaimed_heap req with
  | Some (base, size) =>
      if size <? heap_size req then mret None
      else
        b ← reads (span_is_reserved base size);
        if negb b then mret None else mret (Some (mk_MemoryRegion base size Reserved))
  | None => mtry (carve (heap_size req) (plan_align req)) (fun base => mret (Some (mk_MemoryRegion base (heap_size req) Reserved)))
  end.

(** The carves on the scratch copy. *)
Definition plan_trial (req : MemoryPlanRequest) : M MemoryMap Empty_set (option HypervisorRegions) :=
  mtry (carve_below (dma_size req) (plan_align req) (1 .<< 32)) (fun dma_base =>
  mtry (plan_heap req) (fun heap =>
  mtry (carve_guests (plan_align req) (guest_ram_sizes req)) (fun guests =>
  mret (Some (mk_HypervisorRegions (mk_MemoryRegion dma_base (dma_size req) Reserved) heap guests))))).

(** The scratch copy is committed only when every carve succeeded. *)
Definition plan_hypervisor_regions (req : MemoryPlanRequest) : M MemoryMap Empty_set (option HypervisorRegions) := fun m =>
  match plan_trial req m with
  | (trial, Ok (Some rs)) => (trial, Ok (Some rs))
  | (_, r) => (m, r)
  end.

(** ** Powers of two and alignment *)

(** [align_up] gives the least aligned address from [a] on. *)
Lemma align_up_spec a align :
  is_power_of_two align = true -> 0 <= a -> a + align < 2 ^ 64 ->
  exists s, align_up a align = Ok s /\ a <= s < a + align /\ s mod align = 0 /\
    forall t, a <= t -> t mod align = 0 -> s <= t.
Proof.
  intros Hp Ha Hb. destruct (power_of_two_spec _ Hp) as (k & Hk & ->). pose proof (Z.pow_pos_nonneg 2 k ltac:(lia) Hk) as Hpos.
  unfold align_up. rewrite Hp. cbn [negb]. unfold radd, rsub. rewrite (proj2 (Z.ltb_lt _ _)) by done. cbn [mbind res_bind].
  rewrite (proj2 (Z.ltb_ge _ _)) by lia. cbn [mbind res_bind]. rewrite ldiff_pow2 by done.
  set (n := 2 ^ k) in *. clearbody n. eexists. split; [done|]. pose proof (Z.div_mod (a + n - 1) n ltac:(lia)).
  pose proof (Z.mod_pos_bound (a + n - 1) n ltac:(lia)). set (q := (a + n - 1) / n) in *. set (r := (a + n - 1) mod n) in *.
  split; [lia|]. split; [rewrite Z.mul_comm; apply Z_mod_mult|]. intros t Ht Hm.
  apply Z.mod_divide in Hm as [u ->]; [|lia]. assert (q < u + 1); [|nia]. unfold q. apply Z.div_lt_upper_bound; nia.
Qed.

(** ** The meaning of a map *)

(** [r] covers address [a]. *)
Definition covers (a : Z) (r : MemoryRegion) : bool := (rbase r <=? a) && (a <? rbase r + rsize r).

Definition kind_at (m : MemoryMap) (a : Z) : option MemoryKind := rkind <$> List.find (covers a) m.
#[global] Arguments kind_at : simpl never.

Section Ordered.
(** The top of the address space the map describes. *)
Variable hi : Z.
Hypothesis hi_64 : hi < 2 ^ 64.

(** Regions from [lo] on, in order, without overlap, up to [hi]. *)
Fixpoint ordered (lo : Z) (m : MemoryMap) : Prop :=
  match m with
  | [] => True
  | r :: m' => lo <= rbase r /\ 0 <= rsize r /\ rbase r + rsize r <= hi /\ ordered (rbase r + rsize r) m'
  end.

Fixpoint end_of (lo : Z) (m : MemoryMap) : Z :=
  match m with [] => lo | r :: m' => end_of (rbase r + rsize r) m' end.

Lemma covers_spec a r : reflect (rbase r <= a < rbase r + rsize r) (covers a r).
Proof. unfold covers. apply iff_reflect. rewrite andb_true_iff, Z.leb_le, Z.ltb_lt. done. Qed.

Lemma ordered_mono lo lo' m : lo' <= lo -> ordered lo m -> ordered lo' m.
Proof. destruct m as [|r m]; cbn; [done|]. intros. split_and!; lia || tauto. Qed.

Lemma end_of_ge lo m : ordered lo m -> lo <= end_of lo m.
Proof. revert lo. induction m as [|r m IH]; intros lo; cbn; [lia|]. intros (? & ? & ? & H). specialize (IH _ H). lia. Qed.

Lemma ordered_app lo m1 m2 : ordered lo (m1 ++ m2) <-> ordered lo m1 /\ ordered (end_of lo m1) m2.
Proof. revert lo. induction m1 as [|r m1 IH]; intros lo; cbn; [tauto|]. rewrite IH. tauto. Qed.

Lemma kind_at_app m1 m2 a : kind_at (m1 ++ m2) a = match kind_at m1 a with Some k => Some k | None => kind_at m2 a end.
Proof. unfold kind_at. induction m1 as [|r m1 IH]; cbn; [done|]. by destruct (covers a r). Qed.

Lemma kind_at_low lo m a : ordered lo m -> a < lo -> kind_at m a = None.
Proof.
  revert lo. induction m as [|r m IH]; intros lo; cbn; [done|]. intros (? & ? & ? & H) Ha. unfold kind_at. cbn.
  destruct (covers_spec a r); [lia|]. eapply IH; [exact H|lia].
Qed.

Lemma kind_at_high lo m a : ordered lo m -> end_of lo m <= a -> kind_at m a = None.
Proof.
  revert lo. induction m as [|r m IH]; intros lo; cbn; [done|]. intros (? & ? & ? & H) Ha. unfold kind_at. cbn.
  pose proof (end_of_ge _ _ H). destruct (covers_spec a r); [lia|]. by eapply IH.
Qed.

Lemma kind_at_cons r m a : kind_at (r :: m) a = if covers a r then Some (rkind r) else kind_at m a.
Proof. unfold kind_at. cbn. by destruct (covers a r). Qed.

(** Where a region is, the map has its kind. *)
Lemma kind_at_elem lo m r a : ordered lo m -> r ∈ m -> covers a r = true -> kind_at m a = Some (rkind r).
Proof.
  intros Ho Hr Hc. apply list_elem_of_split in Hr as (m1 & m2 & ->). apply ordered_app in Ho as [H1 H2]. cbn in H2.
  assert (rbase r <= a < rbase r + rsize r) by (by destruct (covers_spec a r)). rewrite kind_at_app, (kind_at_high lo m1) by (done || lia). by rewrite kind_at_cons, Hc.
Qed.

Lemma kind_at_Some m a k : kind_at m a = Some k -> exists r, r ∈ m /\ covers a r = true /\ rkind r = k.
Proof.
  unfold kind_at. destruct (List.find _ m) as [r|] eqn:E; cbn; [|done]. intros [= <-]. apply find_some in E as [E1%list_elem_of_In E2]. eauto.
Qed.

Lemma ordered_elem lo m r : ordered lo m -> r ∈ m -> lo <= rbase r /\ 0 <= rsize r /\ rbase r + rsize r <= hi.
Proof.
  intros Ho Hr. apply list_elem_of_split in Hr as (m1 & m2 & ->). apply ordered_app in Ho as [H1 (H2 & H3 & H4 & _)].
  pose proof (end_of_ge _ _ H1). lia.
Qed.

Lemma rend_ok lo m r : ordered lo m -> r ∈ m -> rend r = Ok (rbase r + rsize r).
Proof. intros Ho Hr. apply (ordered_elem lo) in Hr as (_ & _ & H); [|done]. unfold rend, radd. by rewrite (proj2 (Z.ltb_lt _ _)) by lia. Qed.

(** ** Splitting a region *)

(** [l] is the map with [[start, start + size)] reserved. *)
Definition reserved_in (m : MemoryMap) (start size : Z) (m' : MemoryMap) : Prop :=
  forall a, kind_at m' a = if (start <=? a) && (a <? start + size) then Some Reserved else kind_at m a.

Lemma split_pieces_ok r start size :
  rbase r <= start -> 0 < size -> start + size <= rbase r + rsize r -> rbase r + rsize r <= hi ->
  exists p, split_pieces r start size = Ok p /\ ordered (rbase r) p /\ end_of (rbase r) p = rbase r + rsize r /\
    forall a, kind_at p a = if (start <=? a) && (a <? start + size) then Some Reserved
                            else if covers a r then Some (rkind r) else None.
Proof.
  intros H1 H2 H3 H4. unfold split_pieces, rend, radd. rewrite !(proj2 (Z.ltb_lt _ (2 ^ 64))) by lia. cbn [mbind res_bind].
  eexists. split; [done|]. destruct (Z.ltb_spec (rbase r) start) as [Hl|Hl], (Z.ltb_spec (start + size) (rbase r + rsize r)) as [Hr|Hr];
    cbn -[Z.ltb Z.leb]; (split; [lia|]; split; [lia|]); intros a; rewrite !kind_at_cons; unfold covers; cbn [rbase rsize rkind];
    repeat (case_match; rewrite ?andb_true_iff, ?andb_false_iff, ?Z.leb_le, ?Z.ltb_lt, ?Z.leb_gt, ?Z.ltb_ge in *; try done); lia.
Qed.

Lemma split_reserve_ok lo m i r start size :
  ordered lo m -> m !! i = Some r -> rbase r <= start -> 0 < size -> start + size <= rbase r + rsize r ->
  exists m', split_reserve i start size m = Ok m' /\ ordered lo m' /\ reserved_in m start size m'.
Proof.
  intros Ho Hi H1 H2 H3. pose proof (ordered_elem lo m r Ho (list_elem_of_lookup_2 _ _ _ Hi)) as (_ & _ & H4).
  destruct (split_pieces_ok r start size) as (p & Ep & Hp & He & Hk); [done..|].
  unfold split_reserve. rewrite Hi, Ep. cbn [mbind res_bind]. eexists. split; [done|].
  rewrite <- (take_drop_middle m i r Hi) in Ho. apply ordered_app in Ho as [Ho1 Ho2]. cbn in Ho2. destruct Ho2 as (Hl & _ & _ & Ho2).
  split.
  - rewrite !ordered_app. split; [done|]. split; [by eapply ordered_mono|]. destruct p as [|x p]; [cbn in He |-*; rewrite <- He in Ho2; by eapply ordered_mono|].
    cbn in He |-*. by rewrite He.
  - intros a. rewrite <- (take_drop_middle m i r Hi) at 3. rewrite !kind_at_app, Hk, kind_at_cons.
    destruct (_ && _) eqn:E; [|by destruct (covers a r)]. rewrite (kind_at_high lo) by (done || lia). done.
Qed.

(** ** Carving *)

(** [[t, t + size)] is an aligned span of one usable region, up to [limit]. *)
Definition fit (m : MemoryMap) (size align limit t : Z) : Prop :=
  t mod align = 0 /\ t + size <= limit /\
  exists r, r ∈ m /\ rkind r = Usable /\ rbase r <= t /\ t + size <= rbase r + rsize r.

Lemma allocatable k : is_allocatable k = true <-> k = Usable.
Proof. by destruct k. Qed.

Lemma fit_cons r m size align limit t :
  fit (r :: m) size align limit t <->
  (t mod align = 0 /\ t + size <= limit /\ rkind r = Usable /\ rbase r <= t /\ t + size <= rbase r + rsize r) \/ fit m size align limit t.
Proof.
  unfold fit. split.
  - intros (H1 & H2 & x & [->|Hx]%elem_of_cons & H3); [left; tauto|right]. eauto 6.
  - intros [(H1 & H2 & H3)|(H1 & H2 & x & Hx & H3)].
    + split_and!; [done..|]. exists r. split; [left|done].
    + split_and!; [done..|]. exists x. split; [by right|done].
Qed.

(** First fit finds the lowest fitting address. *)
Lemma find_fit_ok size align limit : is_power_of_two align = true -> 0 < size -> hi + align < 2 ^ 64 ->
  forall m lo i, ordered lo m -> 0 <= lo ->
  exists o, find_fit size align limit i m = Ok o /\
    match o with
    | Some (j, s) => (exists k r, j = (i + k)%nat /\ m !! k = Some r /\ rkind r = Usable /\ rbase r <= s /\ s + size <= rbase r + rsize r) /\
                     s mod align = 0 /\ s + size <= limit /\ (forall t, fit m size align limit t -> s <= t)
    | None => forall t, ~ fit m size align limit t
    end.
Proof.
  intros Hp Hs Htop. induction m as [|r m IH]; intros lo i Ho Hlo; cbn [find_fit].
  { exists None. split; [done|]. intros t (_ & _ & r & Hr & _). by apply elem_of_nil in Hr. }
  pose proof Ho as (Hl & H0 & Hh & Ho'). destruct (IH (rbase r + rsize r) (S i) Ho' ltac:(lia)) as (o & Eo & Hspec).
  assert (Hskip : (forall t, ~ (t mod align = 0 /\ t + size <= limit /\ rkind r = Usable /\ rbase r <= t /\ t + size <= rbase r + rsize r)) ->
    match o with
    | Some (j, s) => (exists k x, j = (i + k)%nat /\ (r :: m) !! k = Some x /\ rkind x = Usable /\ rbase x <= s /\ s + size <= rbase x + rsize x) /\
                     s mod align = 0 /\ s + size <= limit /\ (forall t, fit (r :: m) size align limit t -> s <= t)
    | None => forall t, ~ fit (r :: m) size align limit t
    end).
  { intros Hno. destruct o as [[j s]|].
    - destruct Hspec as ((k & x & -> & Hk & Hx) & H1 & H2 & H3). split; [exists (S k), x; split; [lia|done]|]. split_and!; [done..|].
      intros t [Hf|Hf]%fit_cons; [by apply Hno in Hf|by apply H3].
    - intros t [Hf|Hf]%fit_cons; [by apply Hno in Hf|by apply (Hspec t)]. }
  destruct (is_allocatable (rkind r)) eqn:Ea; cbn [negb].
  2: { exists o. split; [done|]. apply Hskip. intros t (_ & _ & Hu & _). by rewrite Hu in Ea. }
  apply allocatable in Ea. destruct (align_up_spec (rbase r) align Hp ltac:(lia) ltac:(lia)) as (s & -> & Hs1 & Hs2 & Hs3).
  cbn [mbind res_bind]. unfold checked_add. destruct (Z.ltb_spec (s + size) (2 ^ 64)) as [Hov|Hov].
  2: { exists o. split; [done|]. apply Hskip. intros t (Ht & _ & _ & Hb & He). specialize (Hs3 t Hb Ht). lia. }
  rewrite (rend_ok lo (r :: m)) by (done || left). cbn [mbind res_bind].
  destruct (Z.leb_spec (s + size) (rbase r + rsize r)) as [He|He]; cbn [andb].
  2: { exists o. split; [done|]. apply Hskip. intros t (Ht & _ & _ & Hb & He'). specialize (Hs3 t Hb Ht). lia. }
  destruct (Z.leb_spec (s + size) limit) as [Hlim|Hlim].
  2: { exists o. split; [done|]. apply Hskip. intros t (Ht & Hl' & _ & Hb & _). specialize (Hs3 t Hb Ht). lia. }
  exists (Some (i, s)). split; [done|]. split; [exists 0%nat, r; split; [lia|split_and!; done || lia]|]. split_and!; [done..|].
  intros t [(Ht & _ & _ & Hb & _)|(_ & _ & x & Hx & _ & Hb & _)]%fit_cons; [by apply Hs3|].
  pose proof (ordered_elem _ _ _ Ho' Hx). lia.
Qed.

(** What a carve leaves behind. *)
Definition carved (m : MemoryMap) (size align limit s : Z) (m' : MemoryMap) : Prop :=
  s mod align = 0 /\ 0 <= s /\ s + size <= limit /\ 0 < size /\
  (forall a, s <= a < s + size -> kind_at m a = Some Usable) /\ reserved_in m s size m'.

Lemma carve_below_ok size align limit m :
  is_power_of_two align = true -> 0 <= size -> hi + align < 2 ^ 64 -> ordered 0 m ->
  exists m' o, carve_below size align limit m = (m', Ok o) /\ ordered 0 m' /\
    match o with
    | Some s => carved m size align limit s m' /\ forall t, fit m size align limit t -> s <= t
    | None => m' = m /\ (size = 0 \/ forall t, ~ fit m size align limit t)
    end.
Proof.
  intros Hp Hs Htop Ho. unfold carve_below. rewrite Hp. cbn [negb]. destruct (Z.eqb_spec size 0) as [->|Hnz].
  { exists m, None. split_and!; auto. }
  destruct (find_fit_ok size align limit Hp ltac:(lia) Htop m 0 0%nat Ho ltac:(lia)) as ([[i s]|] & -> & Hf).
  2: { exists m, None. split_and!; auto. }
  destruct Hf as ((k & r & Ek & Hk & Hu & H1 & H2) & H3 & H4 & H5). rewrite Nat.add_0_l in Ek. subst k.
  destruct (split_reserve_ok 0 m i r s size Ho Hk H1 ltac:(lia) H2) as (m' & -> & Ho' & Hres).
  pose proof (ordered_elem 0 m r Ho (list_elem_of_lookup_2 _ _ _ Hk)).
  exists m', (Some s). split; [done|]. split; [done|]. split; [|done]. split_and!; try (done || lia).
  intros a Ha. rewrite (kind_at_elem 0 m r a), Hu; [done|done|by eapply list_elem_of_lookup_2|]. destruct (covers_spec a r); [done|lia].
Qed.

(** ** Reserving a span *)

(** The usable regions that meet [[base, end_)]. *)
Definition meets (base end_ : Z) (r : MemoryRegion) : Prop :=
  rkind r = Usable /\ Z.max (rbase r) base < Z.min (rbase r + rsize r) end_.
#[local] Instance meets_dec base end_ r : Decision (meets base end_ r).
Proof. unfold meets. apply _. Defined.
Definition hits (base end_ : Z) (m : list MemoryRegion) : nat := length (filter (meets base end_) m).

Lemma hits_app base end_ m1 m2 : hits base end_ (m1 ++ m2) = (hits base end_ m1 + hits base end_ m2)%nat.
Proof. unfold hits. by rewrite filter_app, length_app. Qed.

Lemma hits_cons base end_ r m : hits base end_ (r :: m) = ((if decide (meets base end_ r) then 1 else 0) + hits base end_ m)%nat.
Proof. unfold hits. rewrite filter_cons. by destruct (decide _). Qed.

Lemma first_usable_overlap_ok base end_ : forall m lo i, ordered lo m ->
  exists o, first_usable_overlap base end_ i m = Ok o /\
    match o with
    | Some (j, (s, n)) => exists k r, j = (i + k)%nat /\ m !! k = Some r /\ meets base end_ r /\
                          s = Z.max (rbase r) base /\ s + n = Z.min (rbase r + rsize r) end_
    | None => hits base end_ m = 0%nat
    end.
Proof.
  induction m as [|r m IH]; intros lo i Ho; cbn [first_usable_overlap]; [by exists None|].
  pose proof Ho as (Hl & H0 & Hh & Ho'). destruct (IH _ (S i) Ho') as (o & Eo & Hspec).
  assert (Hskip : ~ meets base end_ r -> match o with
    | Some (j, (s, n)) => exists k x, j = (i + k)%nat /\ (r :: m) !! k = Some x /\ meets base end_ x /\
                          s = Z.max (rbase x) base /\ s + n = Z.min (rbase x + rsize x) end_
    | None => hits base end_ (r :: m) = 0%nat
    end).
  { intros Hno. destruct o as [[j [s n]]|].
    - destruct Hspec as (k & x & -> & Hk). exists (S k), x. split; [lia|done].
    - rewrite hits_cons, decide_False by done. done. }
  destruct (is_allocatable (rkind r)) eqn:Ea; cbn [negb].
  2: { exists o. split; [done|]. apply Hskip. intros [Hu _]. by rewrite Hu in Ea. }
  apply allocatable in Ea. rewrite (rend_ok lo (r :: m)) by (done || left). cbn [mbind res_bind].
  destruct (Z.ltb_spec (Z.max (rbase r) base) (Z.min (rbase r + rsize r) end_)) as [Hm|Hm].
  - eexists. split; [done|]. exists 0%nat, r. cbn [lookup list_lookup]. split_and!; [lia|done|done|done|lia].
  - exists o. split; [done|]. apply Hskip. unfold meets. lia.
Qed.

(** The pieces of a region that met the span no longer do. *)
Lemma split_hits base end_ r s n p :
  meets base end_ r -> s = Z.max (rbase r) base -> s + n = Z.min (rbase r + rsize r) end_ -> rbase r + rsize r <= hi ->
  split_pieces r s n = Ok p -> hits base end_ p = 0%nat.
Proof.
  intros [_ Hm] Es En Hh. unfold split_pieces, rend, radd. rewrite !(proj2 (Z.ltb_lt _ (2 ^ 64))) by lia. cbn [mbind res_bind].
  intros [= <-]. rewrite !hits_app. destruct (Z.ltb_spec (rbase r) s), (Z.ltb_spec (s + n) (rbase r + rsize r));
    rewrite ?hits_cons, ?decide_False by (unfold meets; cbn [rkind rbase rsize]; (intros [? ?]; done) || lia); done.
Qed.

(** What reserving a span does to the kind of an address. *)
Definition reserve_kind (base end_ a : Z) (k : option MemoryKind) : option MemoryKind :=
  if (base <=? a) && (a <? end_) && bool_decide (k = Some Usable) then Some Reserved else k.

Lemma reserve_kind_again base end_ s n a :
  base <= s -> s + n <= end_ ->
  reserve_kind base end_ a (if (s <=? a) && (a <? s + n) then Some Reserved else Some Usable) = reserve_kind base end_ a (Some Usable).
Proof.
  intros H1 H2. unfold reserve_kind. rewrite (bool_decide_true (Some Usable = _)) by done.
  destruct ((s <=? a) && (a <? s + n)) eqn:E; [|by rewrite bool_decide_true]. rewrite bool_decide_false, andb_false_r, andb_true_r by done.
  destruct ((base <=? a) && (a <? end_)) eqn:E'; [done|lia].
Qed.

(** One round of the loop. *)
Lemma reserve_round base end_ m k r s n :
  ordered 0 m -> m !! k = Some r -> meets base end_ r -> s = Z.max (rbase r) base -> s + n = Z.min (rbase r + rsize r) end_ ->
  exists m1, split_reserve k s n m = Ok m1 /\ ordered 0 m1 /\ hits base end_ m = S (hits base end_ m1) /\
    forall a, reserve_kind base end_ a (kind_at m1 a) = reserve_kind base end_ a (kind_at m a).
Proof.
  intros Ho Hk Hm Es En. pose proof (ordered_elem 0 m r Ho (list_elem_of_lookup_2 _ _ _ Hk)) as (_ & _ & Hh). pose proof Hm as [Hu Hm'].
  destruct (split_pieces_ok r s n) as (p & Ep & _); [lia..|]. pose proof (split_hits base end_ r s n p Hm Es En Hh Ep) as Hp.
  destruct (split_reserve_ok 0 m k r s n Ho Hk) as (m1 & E1 & Ho1 & Hr1); [lia..|]. exists m1. split; [done|]. split; [done|]. split.
  - unfold split_reserve in E1. rewrite Hk, Ep in E1. injection E1 as <-. rewrite <- (take_drop_middle m k r Hk) at 1.
    rewrite !hits_app, hits_cons, decide_True, Hp by done. lia.
  - intros a. rewrite Hr1. destruct ((s <=? a) && (a <? s + n)) eqn:Ea; [|done].
    rewrite (kind_at_elem 0 m r a), Hu; [|done|by eapply list_elem_of_lookup_2|destruct (covers_spec a r); [done|lia]].
    rewrite <- (reserve_kind_again base end_ s n a) by lia. by rewrite Ea.
Qed.

Lemma no_hits base end_ m a : hits base end_ m = 0%nat -> reserve_kind base end_ a (kind_at m a) = kind_at m a.
Proof.
  intros Hs. unfold reserve_kind. case_match eqn:E; [|done]. exfalso. apply andb_true_iff in E as [E1 E2%bool_decide_eq_true].
  apply kind_at_Some in E2 as (x & Hx & Hc & Hu). assert (Hl : x ∈ filter (meets base end_) m).
  { apply list_elem_of_filter. split; [|done]. split; [done|]. destruct (covers_spec a x); [lia|done]. }
  apply nil_length_inv in Hs. rewrite Hs in Hl. by apply elem_of_nil in Hl.
Qed.

(** One unit of fuel per usable region that meets the span is enough. *)
Lemma reserve_loop_ok base end_ : forall fuel m any, ordered 0 m -> (hits base end_ m <= fuel)%nat ->
  exists m', reserve_loop fuel base end_ any m = (m', Ok (any || negb (hits base end_ m =? 0)%nat)) /\ ordered 0 m' /\
    forall a, kind_at m' a = reserve_kind base end_ a (kind_at m a).
Proof.
  induction fuel as [|fuel IH]; intros m any Ho Hf; cbn [reserve_loop];
    (destruct (first_usable_overlap_ok base end_ m 0 0%nat Ho) as ([[j [s n]]|] & -> & Hs);
     [destruct Hs as (k & r & Ej & Hk & Hm & Es & En); rewrite Nat.add_0_l in Ej; subst j;
      destruct (reserve_round base end_ m k r s n Ho Hk Hm Es En) as (m1 & E1 & Ho1 & Eh & Hk1)|
      exists m; rewrite Hs, orb_false_r; split_and!; [done..|]; intros a; by rewrite no_hits]).
  - lia.
  - rewrite E1. destruct (IH m1 true Ho1 ltac:(lia)) as (m' & -> & Ho' & Hk'). exists m'. rewrite Eh. cbn [Nat.eqb negb orb].
    rewrite orb_true_r. split_and!; [done..|]. intros a. by rewrite Hk', Hk1.
Qed.

Lemma hits_usable base end_ m : ordered 0 m ->
  negb (hits base end_ m =? 0)%nat = true <-> exists a, base <= a < end_ /\ kind_at m a = Some Usable.
Proof.
  intros Ho. split.
  - intros H. unfold hits in H. destruct (filter (meets base end_) m) as [|r l] eqn:E; [done|].
    assert (Hr : r ∈ filter (meets base end_) m) by (rewrite E; left). apply list_elem_of_filter in Hr as [[Hu Hm] Hr].
    exists (Z.max (rbase r) base). split; [lia|]. rewrite (kind_at_elem 0 m r), Hu; [done..|]. destruct (covers_spec (Z.max (rbase r) base) r); [done|lia].
  - intros (a & Ha & Hk). apply negb_true_iff, Nat.eqb_neq. intros H0. pose proof (no_hits base end_ m a H0) as E. revert E.
    unfold reserve_kind. rewrite Hk, bool_decide_true by done. destruct ((base <=? a) && (a <? end_)) eqn:E'; [done|lia].
Qed.

Lemma reserve_span_ok base size m : 0 <= size -> ordered 0 m ->
  exists m' b, reserve_span base size m = (m', Ok b) /\ ordered 0 m' /\
    (size = 0 \/ 2 ^ 64 <= base + size -> m' = m /\ b = false) /\
    (0 < size -> base + size < 2 ^ 64 ->
      (b = true <-> exists a, base <= a < base + size /\ kind_at m a = Some Usable) /\
      forall a, kind_at m' a = reserve_kind base (base + size) a (kind_at m a)).
Proof.
  intros Hs Ho. unfold reserve_span, checked_add. destruct (Z.eqb_spec size 0) as [->|Hnz]; [exists m, false; split_and!; done || lia|].
  destruct (Z.ltb_spec (base + size) (2 ^ 64)) as [Hb|Hb]; [|exists m, false; split_and!; done || lia].
  destruct (reserve_loop_ok base (base + size) (length m) m false Ho) as (m' & E & Ho' & Hk); [apply length_filter|].
  exists m', (negb (hits base (base + size) m =? 0)%nat). split_and!; [done..|lia|]. intros _ _. split; [by apply hits_usable|exact Hk].
Qed.

(** ** Spans that are reserved *)

Lemma reserved_scan_ok end_ : forall m lo cursor, ordered lo m -> cursor < end_ ->
  exists b, reserved_scan cursor end_ m = Ok b /\ (b = true <-> forall a, cursor <= a < end_ -> kind_at m a = Some Reserved).
Proof.
  induction m as [|r m IH]; intros lo cursor Ho Hc; cbn [reserved_scan].
  { exists false. split; [done|]. split; [done|]. intros H. by specialize (H cursor ltac:(lia)). }
  pose proof Ho as (Hl & H0 & Hh & Ho').
  assert (Hskip : forall c, c < end_ -> (forall a, c <= a < end_ -> covers a r = true -> rkind r <> Reserved) ->
    (forall a, c <= a < end_ -> kind_at m a = Some Reserved) <-> (forall a, c <= a < end_ -> kind_at (r :: m) a = Some Reserved)).
  { intros c Hce Hr. split; intros H a Ha; specialize (H a Ha).
    - rewrite kind_at_cons. destruct (covers_spec a r); [|done]. rewrite (kind_at_low _ _ _ Ho') in H by lia. done.
    - rewrite kind_at_cons in H. destruct (covers a r) eqn:E; [|done]. exfalso. apply (Hr a Ha E). congruence. }
  destruct (decide (rkind r <> Reserved)) as [Hn|Hn].
  { destruct (IH _ cursor Ho' Hc) as (b & -> & Hb). exists b. split; [done|]. rewrite Hb. by apply Hskip. }
  assert (Hk : rkind r = Reserved) by (destruct (decide (rkind r = Reserved)); [done|by destruct Hn]).
  rewrite (rend_ok lo (r :: m)) by (done || left). cbn [mbind res_bind]. destruct (Z.leb_spec (rbase r + rsize r) cursor) as [H1|H1].
  { destruct (IH _ cursor Ho' Hc) as (b & -> & Hb). exists b. split; [done|]. rewrite Hb. apply Hskip; [done|].
    intros a Ha Hcov. destruct (covers_spec a r); [lia|done]. }
  destruct (Z.ltb_spec cursor (rbase r)) as [H2|H2].
  { exists false. split; [done|]. split; [done|]. intros H. specialize (H cursor ltac:(lia)).
    rewrite kind_at_cons, (kind_at_low _ _ _ Ho') in H by lia. destruct (covers_spec cursor r); [lia|done]. }
  destruct (Z.leb_spec end_ (rbase r + rsize r)) as [H3|H3].
  { exists true. split; [done|]. split; [|done]. intros _ a Ha. rewrite kind_at_cons, Hk. destruct (covers_spec a r); [done|lia]. }
  destruct (IH _ (rbase r + rsize r) Ho' H3) as (b & -> & Hb). exists b. split; [done|]. rewrite Hb, Hskip; [|done|].
  - split; intros H a Ha; [|apply H; lia]. destruct (Z.lt_ge_cases a (rbase r + rsize r)); [|apply H; lia].
    rewrite kind_at_cons, Hk. destruct (covers_spec a r); [done|lia].
  - intros a Ha Hcov. destruct (covers_spec a r); [lia|done].
Qed.

Lemma span_is_reserved_ok base size m : ordered 0 m -> 0 <= size ->
  exists b, span_is_reserved base size m = Ok b /\
    (b = true <-> 0 < size /\ base + size < 2 ^ 64 /\ forall a, base <= a < base + size -> kind_at m a = Some Reserved).
Proof.
  intros Ho Hs. unfold span_is_reserved, checked_add. destruct (Z.ltb_spec (base + size) (2 ^ 64)) as [Hb|Hb].
  2: { exists false. split; [done|]. split; [done|]. lia. }
  destruct (Z.eqb_spec size 0) as [->|Hnz]; [exists false; split; [done|]; split; [done|]; lia|].
  destruct (reserved_scan_ok (base + size) m 0 base Ho ltac:(lia)) as (b & -> & Hspec). exists b. split; [done|]. rewrite Hspec.
  split; [intros; split_and!; done || lia|tauto].
Qed.

(** ** Several carves *)

Definition apart (x y : MemoryRegion) : Prop := forall a, covers a x = true -> covers a y = true -> False.
Fixpoint pairwise (l : list MemoryRegion) : Prop := match l with [] => True | x :: l' => Forall (apart x) l' /\ pairwise l' end.

(** [m'] is [m] with the regions [l], usable and pairwise apart, taken out. *)
Definition grabs (m : MemoryMap) (l : list MemoryRegion) (m' : MemoryMap) : Prop :=
  ordered 0 m' /\ pairwise l /\ (forall r a, r ∈ l -> covers a r = true -> kind_at m a = Some Usable) /\
  forall a, kind_at m' a = if existsb (covers a) l then Some Reserved else kind_at m a.

Lemma pairwise_app l1 l2 : pairwise (l1 ++ l2) <-> pairwise l1 /\ pairwise l2 /\ forall x y, x ∈ l1 -> y ∈ l2 -> apart x y.
Proof.
  induction l1 as [|z l1 IH]; cbn.
  { split; [intros H; split_and!; [done..|]; intros x y Hx; by apply elem_of_nil in Hx|tauto]. }
  rewrite Forall_app, IH. setoid_rewrite elem_of_cons. rewrite !Forall_forall. split.
  - intros [[H1 H2] (H3 & H4 & H5)]. split_and!; [done..|]. intros x y [->|Hx] Hy; [by apply H2|by apply H5].
  - intros [[H1 H2] [H3 H4]]. split_and!; eauto.
Qed.

Lemma existsb_covers a l : existsb (covers a) l = true <-> exists r, r ∈ l /\ covers a r = true.
Proof. rewrite existsb_exists. by setoid_rewrite <- list_elem_of_In. Qed.

Lemma grabs_nil m : ordered 0 m -> grabs m [] m.
Proof. intros Ho. split_and!; [done..| |done]. intros r a Hr. by apply elem_of_nil in Hr. Qed.

Lemma grabs_trans m l1 m1 l2 m2 : grabs m l1 m1 -> grabs m1 l2 m2 -> grabs m (l1 ++ l2) m2.
Proof.
  intros (Ho1 & Hp1 & Hu1 & Hk1) (Ho2 & Hp2 & Hu2 & Hk2).
  assert (Hfree : forall r a, r ∈ l2 -> covers a r = true -> existsb (covers a) l1 = false /\ kind_at m a = Some Usable).
  { intros r a Hr Hc. specialize (Hu2 r a Hr Hc). rewrite Hk1 in Hu2. by destruct (existsb (covers a) l1). }
  split; [done|]. split.
  - apply pairwise_app. split_and!; [done..|]. intros x y Hx Hy a Hcx Hcy. destruct (Hfree y a Hy Hcy) as [E _].
    rewrite (proj2 (existsb_covers a l1)) in E; [done|eauto].
  - split.
    + intros r a [Hr|Hr]%elem_of_app Hc; [by eapply Hu1|by eapply Hfree].
    + intros a. rewrite Hk2, Hk1, existsb_app. by destruct (existsb (covers a) l1), (existsb (covers a) l2).
Qed.

Lemma carved_grabs m size align limit s m' : ordered 0 m' -> carved m size align limit s m' -> grabs m [mk_MemoryRegion s size Reserved] m'.
Proof.
  intros Ho (_ & _ & _ & _ & Hu & Hr). split_and!; [done|by repeat constructor| |].
  - intros r a ->%list_elem_of_singleton Hc. apply Hu. by destruct (covers_spec a (mk_MemoryRegion s size Reserved)).
  - intros a. rewrite Hr. unfold covers. cbn. by rewrite orb_false_r.
Qed.

(** ** Plans *)

Section Plan.
Variable align : Z.
Hypothesis align_pow2 : is_power_of_two align = true.
Hypothesis align_room : hi + align < 2 ^ 64.

(** A region carved for a request of [n] bytes. *)
Definition cut (n : Z) (r : MemoryRegion) : Prop := 0 < n /\ 0 <= rbase r /\ rsize r = n /\ rbase r mod align = 0 /\ rkind r = Reserved.

Lemma carve_step size limit m : 0 <= size -> ordered 0 m ->
  exists m' o, carve_below size align limit m = (m', Ok o) /\ ordered 0 m' /\
    match o with
    | Some s => let r := mk_MemoryRegion s size Reserved in grabs m [r] m' /\ cut size r /\ s + size <= limit
    | None => True
    end.
Proof.
  intros Hs Ho. destruct (carve_below_ok size align limit m align_pow2 Hs align_room Ho) as (m' & o & E & Ho' & H).
  exists m', o. split_and!; [done..|]. destruct o as [s|]; [|done]. destruct H as [Hc _]. split; [by eapply carved_grabs|].
  destruct Hc as (? & ? & ? & ? & _). by split_and!.
Qed.

Lemma carve_guests_ok sizes : forall m, Forall (Z.le 0) sizes -> ordered 0 m ->
  exists m' o, carve_guests align sizes m = (m', Ok o) /\ ordered 0 m' /\
    match o with Some rs => grabs m rs m' /\ Forall2 cut sizes rs | None => True end.
Proof.
  induction sizes as [|n sizes IH]; intros m Hs Ho; cbn [carve_guests].
  { exists m, (Some []). split_and!; [done..|by apply grabs_nil|constructor]. }
  apply Forall_cons in Hs as [Hn Hs]. destruct (carve_step n (2 ^ 64 - 1) m Hn Ho) as (m1 & o1 & E1 & Ho1 & H1).
  unfold mtry. unfold carve. rewrite (bind_run _ _ _ _ _ E1). destruct o1 as [s|]; [|by exists m1, None].
  destruct (IH m1 Hs Ho1) as (m2 & o2 & E2 & Ho2 & H2). rewrite (bind_run _ _ _ _ _ E2).
  destruct o2 as [rs|]; [|by exists m2, None]. exists m2, (Some (mk_MemoryRegion s n Reserved :: rs)). split_and!; [done..| |].
  - apply (grabs_trans m [mk_MemoryRegion s n Reserved] m1 rs m2); [apply H1|apply H2].
  - constructor; [apply H1|apply H2].
Qed.

(** The regions a plan takes out of the map: not an adopted heap. *)
Definition taken (req : MemoryPlanRequest) (rs : HypervisorRegions) : list MemoryRegion :=
  dma rs :: match preclaimed_heap req with None => [heap rs] | Some _ => [] end ++ guest_ram rs.

Definition heap_spec (req : MemoryPlanRequest) (h : MemoryRegion) : Prop :=
  match preclaimed_heap req with
  | Some (b, n) => h = mk_MemoryRegion b n Reserved /\ heap_size req <= n
  | None => cut (heap_size req) h
  end.

Lemma plan_heap_ok req m : plan_align req = align -> 0 <= heap_size req -> ordered 0 m ->
  exists m' o, plan_heap req m = (m', Ok o) /\ ordered 0 m' /\
    match o with
    | Some h => heap_spec req h /\ grabs m (match preclaimed_heap req with None => [h] | Some _ => [] end) m' /\
                (preclaimed_heap req <> None -> forall a, covers a h = true -> kind_at m a = Some Reserved)
    | None => True
    end.
Proof.
  intros Ea Hs Ho. unfold plan_heap, heap_spec. destruct (preclaimed_heap req) as [[b n]|].
  - destruct (Z.ltb_spec n (heap_size req)) as [|Hn]; [by exists m, None|].
    destruct (span_is_reserved_ok b n m Ho ltac:(lia)) as (r & Er & Hr).
    rewrite (bind_run _ _ m m r) by (unfold reads; by rewrite Er). destruct r; cbn [negb]; [|by exists m, None].
    exists m, (Some (mk_MemoryRegion b n Reserved)). split_and!; [done..|by apply grabs_nil|]. intros _ a Hc. apply Hr; [done|].
    by destruct (covers_spec a (mk_MemoryRegion b n Reserved)).
  - destruct (carve_step (heap_size req) (2 ^ 64 - 1) m Hs Ho) as (m1 & o1 & E1 & Ho1 & H1). unfold mtry, carve.
    rewrite Ea, (bind_run _ _ _ _ _ E1). destruct o1 as [s|]; [|by exists m1, None].
    exists m1, (Some (mk_MemoryRegion s (heap_size req) Reserved)). split_and!; [done..|apply H1|apply H1|done].
Qed.

Lemma plan_trial_ok req m :
  plan_align req = align -> 0 <= dma_size req -> 0 <= heap_size req -> Forall (Z.le 0) (guest_ram_sizes req) -> ordered 0 m ->
  exists m' o, plan_trial req m = (m', Ok o) /\
    match o with
    | Some rs => grabs m (taken req rs) m' /\ cut (dma_size req) (dma rs) /\ rbase (dma rs) + rsize (dma rs) <= 2 ^ 32 /\
                 heap_spec req (heap rs) /\ Forall2 cut (guest_ram_sizes req) (guest_ram rs) /\
                 (preclaimed_heap req <> None -> forall a, covers a (heap rs) = true -> kind_at m a = Some Reserved \/ covers a (dma rs) = true)
    | None => True
    end.
Proof.
  intros Ea Hd Hh Hg Ho. unfold plan_trial, mtry. rewrite Ea.
  destruct (carve_step (dma_size req) (1 .<< 32) m Hd Ho) as (m1 & o1 & E1 & Ho1 & H1). rewrite (bind_run _ _ _ _ _ E1).
  destruct o1 as [s|]; [|by exists m1, None]. destruct H1 as (G1 & C1 & L1).
  destruct (plan_heap_ok req m1 Ea Hh Ho1) as (m2 & o2 & E2 & Ho2 & H2). rewrite (bind_run _ _ _ _ _ E2).
  destruct o2 as [h|]; [|by exists m2, None]. destruct H2 as (S2 & G2 & R2).
  destruct (carve_guests_ok (guest_ram_sizes req) m2 Hg Ho2) as (m3 & o3 & E3 & Ho3 & H3). rewrite (bind_run _ _ _ _ _ E3).
  destruct o3 as [gs|]; [|by exists m3, None]. destruct H3 as [G3 C3].
  eexists m3, (Some _). split; [done|]. cbn [dma heap guest_ram]. split_and!; [|done..|].
  - apply (grabs_trans m [_] m1 _ m3 G1). by apply (grabs_trans m1 _ m2).
  - intros Hp a Hc. specialize (R2 Hp a Hc). destruct G1 as (_ & _ & _ & Hk). rewrite Hk in R2. cbn [existsb] in R2.
    rewrite orb_false_r in R2. destruct (covers a _) eqn:E; [by right|by left].
Qed.
Lemma plan_ok req m :
  plan_align req = align -> 0 <= dma_size req -> 0 <= heap_size req -> Forall (Z.le 0) (guest_ram_sizes req) -> ordered 0 m ->
  (forall b n a, preclaimed_heap req = Some (b, n) -> b <= a < b + n -> kind_at m a = Some Reserved) ->
  exists m' o, plan_hypervisor_regions req m = (m', Ok o) /\
    match o with
    | Some rs => grabs m (taken req rs) m' /\ pairwise (dma rs :: heap rs :: guest_ram rs) /\
                 cut (dma_size req) (dma rs) /\ rbase (dma rs) + rsize (dma rs) <= 2 ^ 32 /\
                 heap_spec req (heap rs) /\ Forall2 cut (guest_ram_sizes req) (guest_ram rs)
    | None => m' = m
    end.
Proof.
  intros Ea Hd Hhs Hg Ho Hpre. destruct (plan_trial_ok req m Ea Hd Hhs Hg Ho) as (m' & o & E & H').
  unfold plan_hypervisor_regions. rewrite E. destruct o as [rs|]; [|by exists m, None].
  exists m', (Some rs). split; [done|]. destruct H' as (G & Cd & Ld & Sh & Cg & _). split_and!; try done.
  destruct G as (_ & Hpw & Hu & _). unfold taken in *. unfold heap_spec in Sh. destruct (preclaimed_heap req) as [[b n]|]; [|exact Hpw].
  cbn in Hpw. destruct Hpw as [P1 P2]. destruct Sh as [Eh _].
  assert (Hap : forall r, r ∈ dma rs :: guest_ram rs -> apart r (heap rs)).
  { intros r Hr a H1 H2. specialize (Hu r a Hr H1). rewrite (Hpre b n a) in Hu; [done|done|].
    rewrite Eh in H2. by destruct (covers_spec a (mk_MemoryRegion b n Reserved)). }
  cbn. split_and!; [constructor; [apply Hap; left|done]| |done]. apply Forall_forall. intros r Hr a H1 H2. apply (Hap r) with a; [by right|done..].
Qed.
End Plan.
End Ordered.

(** Carving refines the choice of the lowest aligned usable span: on an
    ordered map it never panics, takes the lowest fitting address up to the
    limit if there is one and retypes exactly that span as reserved, and
    otherwise leaves the map alone. *)
Theorem memmap_carve_refines hi size align limit m :
  is_power_of_two align = true -> 0 <= size -> hi + align < 2 ^ 64 -> ordered hi 0 m ->
  exists m' o, carve_below size align limit m = (m', Ok o) /\ ordered hi 0 m' /\
    match o with
    | Some s => s mod align = 0 /\ s + size <= limit /\ 0 < size /\ (forall a, s <= a < s + size -> kind_at m a = Some Usable) /\
                (forall a, kind_at m' a = if (s <=? a) && (a <? s + size) then Some Reserved else kind_at m a) /\
                forall t, fit m size align limit t -> s <= t
    | None => m' = m /\ (size = 0 \/ forall t, ~ fit m size align limit t)
    end.
Proof.
  intros Hp Hs Hh Ho. pose proof (power_of_two_spec _ Hp) as (k & Hk & Ea). pose proof (Z.pow_pos_nonneg 2 k ltac:(lia) Hk).
  destruct (carve_below_ok hi ltac:(lia) size align limit m Hp Hs Hh Ho) as (m' & o & E & Ho' & H').
  exists m', o. split_and!; [done..|]. destruct o as [s|]; [|done]. destruct H' as [(? & ? & ? & ? & ? & ?) ?]. by split_and!.
Qed.

(** Reserving a span ends, whatever regions it meets, and changes exactly
    the usable addresses of the span, to reserved; it reports whether there
    was one.  An empty span, or one past the end of the address space, is
    refused without a change. *)
Theorem memmap_reserve_span hi base size m :
  hi < 2 ^ 64 -> 0 <= size -> ordered hi 0 m ->
  exists m' b, reserve_span base size m = (m', Ok b) /\ ordered hi 0 m' /\
    (size = 0 \/ 2 ^ 64 <= base + size -> m' = m /\ b = false) /\
    (0 < size -> base + size < 2 ^ 64 ->
      (b = true <-> exists a, base <= a < base + size /\ kind_at m a = Some Usable) /\
      forall a, kind_at m' a = if (base <=? a) && (a <? base + size) && bool_decide (kind_at m a = Some Usable) then Some Reserved else kind_at m a).
Proof.
  intros Hh Hs Ho. by apply reserve_span_ok.
Qed.

(** C9: A plan is all or nothing and isolates: when it succeeds, the DMA
    window (under 4 GiB), the heap and the RAM of every guest are pairwise
    apart, of the requested sizes and aligned, were usable before and are
    reserved now, and no other address changed; when it fails the map is
    untouched.  A heap claimed earlier is adopted as it is, if it was reserved
    by then. *)
Theorem memmap_plan_isolates hi req m :
  is_power_of_two (plan_align req) = true -> hi + plan_align req < 2 ^ 64 ->
  0 <= dma_size req -> 0 <= heap_size req -> Forall (Z.le 0) (guest_ram_sizes req) -> ordered hi 0 m ->
  (forall b n a, preclaimed_heap req = Some (b, n) -> b <= a < b + n -> kind_at m a = Some Reserved) ->
  exists m' o, plan_hypervisor_regions req m = (m', Ok o) /\
    match o with
    | Some rs => grabs hi m (taken req rs) m' /\ pairwise (dma rs :: heap rs :: guest_ram rs) /\
                 cut (plan_align req) (dma_size req) (dma rs) /\ rbase (dma rs) + rsize (dma rs) <= 2 ^ 32 /\
                 heap_spec (plan_align req) req (heap rs) /\ Forall2 (cut (plan_align req)) (guest_ram_sizes req) (guest_ram rs)
    | None => m' = m
    end.
Proof.
  intros Hp Hh Hd Hhs Hg Ho Hpre. pose proof (power_of_two_spec _ Hp) as (k & Hk & Ea). pose proof (Z.pow_pos_nonneg 2 k ltac:(lia) Hk).
  by apply (plan_ok hi ltac:(lia) (plan_align req)).
Qed.

(** The check that an adopted heap is reserved comes after the DMA carve,
    so it accepts a heap nobody reserved if the DMA window lands on it: the
    planner then hands out one span as both. *)
Theorem memmap_plan_unreserved_heap :
  let m := [mk_MemoryRegion 0x200000 0x2000000 Usable] in
  let req := mk_MemoryPlanRequest 0x100000 0x200000 [0x1000000] 0x200000 (Some (0x200000, 0x200000)) in
  (forall a, 0x200000 <= a < 0x400000 -> kind_at m a = Some Usable) /\
  exists m' rs, plan_hypervisor_regions req m = (m', Ok (Some rs)) /\
    rbase (dma rs) = 0x200000 /\ rsize (dma rs) = 0x200000 /\ rbase (heap rs) = 0x200000 /\ rsize (heap rs) = 0x200000.
Proof.
  split.
  - intros a Ha. rewrite kind_at_cons. destruct (covers_spec a (mk_MemoryRegion 0x200000 0x2000000 Usable)) as [|Hn]; [done|]. cbn in Hn. lia.
  - eexists _, _. split; [vm_compute; reflexivity|]. done.
Qed.

(** ** Coalescing and consistency *)

(** The map's own check is the order the theorems need. *)
Theorem memmap_consistent_ordered hi m :
  hi < 2 ^ 64 -> Forall (fun r => 0 <= rbase r /\ 0 <= rsize r /\ rbase r + rsize r <= hi) m ->
  exists b, is_consistent m = Ok b /\ (b = true <-> ordered hi 0 m).
Proof.
  intros Hh. enough (H : forall lo, Forall (fun r => 0 <= rbase r /\ 0 <= rsize r /\ rbase r + rsize r <= hi) m ->
    (forall r, head m = Some r -> lo <= rbase r) -> exists b, is_consistent m = Ok b /\ (b = true <-> ordered hi lo m)).
  { intros Hf. apply (H 0 Hf). intros r Hr. destruct m; [done|]. cbn in Hr. simplify_eq. by apply Forall_inv in Hf as [? _]. }
  induction m as [|a m IH]; intros lo Hf Hlo; [by exists true|]. apply Forall_cons in Hf as [(H1 & H2 & H3) Hf]. specialize (Hlo a eq_refl).
  destruct m as [|b m]; [exists true; split; [done|]; cbn; tauto|]. change (is_consistent (a :: b :: m)) with (e ← rend a; if e <=? rbase b then is_consistent (b :: m) else Ok false).
  assert (Ee : rend a = Ok (rbase a + rsize a)) by (unfold rend, radd; by rewrite (proj2 (Z.ltb_lt _ _)) by lia).
  rewrite Ee. cbn [mbind res_bind]. destruct (Z.leb_spec (rbase a + rsize a) (rbase b)) as [Hab|Hab].
  - destruct (IH (rbase a + rsize a) Hf) as (c & Ec & Hc); [intros r [= <-]; done|]. exists c. split; [exact Ec|]. rewrite Hc. cbn. tauto.
  - exists false. split; [done|]. cbn. split; [done|lia].
Qed.

(** Two neighbours [coalesce] would merge. *)
Definition mergeable (x y : MemoryRegion) : Prop := rkind x = rkind y /\ rbase x + rsize x = rbase y.
Fixpoint settled (m : MemoryMap) : Prop :=
  match m with
  | x :: ((y :: _) as m') => ~ mergeable x y /\ settled m'
  | _ => True
  end.

Lemma settled_app m x y : settled (m ++ [x]) -> ~ mergeable x y -> settled (m ++ [x; y]).
Proof.
  induction m as [|z m IH]; intros Hs Hn; [done|]. destruct m as [|w m]; cbn in *; [tauto|]. destruct Hs as [H1 H2]. split; [done|]. by apply IH.
Qed.

Lemma settled_grow m x x' : settled (m ++ [x]) -> rbase x' = rbase x -> rkind x' = rkind x -> settled (m ++ [x']).
Proof.
  intros Hs Eb Ek. induction m as [|z m IH]; [done|]. destruct m as [|w m]; cbn in *.
  - destruct Hs as [H1 _]. split; [|done]. unfold mergeable in *. by rewrite Ek, Eb.
  - destruct Hs as [H1 H2]. split; [done|]. by apply IH.
Qed.

Lemma kind_at_merge x y a : mergeable x y -> 0 <= rsize x -> 0 <= rsize y ->
  kind_at [mk_MemoryRegion (rbase x) (rsize x + rsize y) (rkind x)] a = kind_at [x; y] a.
Proof.
  intros [Ek Eb] Hx Hy. rewrite !kind_at_cons, <- Ek.
  destruct (covers_spec a x), (covers_spec a y), (covers_spec a (mk_MemoryRegion (rbase x) (rsize x + rsize y) (rkind x))) as [Hc|Hc];
    cbn in Hc; try done; lia.
Qed.

Lemma coalesce_loop_ok hi : hi < 2 ^ 64 -> forall m merged, ordered hi 0 (rev merged ++ m) -> settled (rev merged) ->
  exists m', coalesce_loop merged m = Ok m' /\ ordered hi 0 m' /\ settled m' /\ forall a, kind_at m' a = kind_at (rev merged ++ m) a.
Proof.
  intros Hh. induction m as [|r m IH]; intros merged Ho Hs; cbn [coalesce_loop].
  { rewrite app_nil_r in *. by eexists. }
  destruct merged as [|last merged]; [by apply (IH [r])|]. cbn [rev] in *. rewrite <- app_assoc in Ho. cbn [app] in Ho.
  assert (Hpush : ~ mergeable last r -> exists m', coalesce_loop (r :: last :: merged) m = Ok m' /\ ordered hi 0 m' /\ settled m' /\
    forall a, kind_at m' a = kind_at ((rev merged ++ [last]) ++ r :: m) a).
  { intros Hn. destruct (IH (r :: last :: merged)) as (m' & E & Ho' & Hs' & Hk).
    - cbn [rev]. rewrite <- !app_assoc. exact Ho.
    - cbn [rev]. rewrite <- app_assoc. by apply settled_app.
    - exists m'. split_and!; [done..|]. intros a. rewrite Hk. cbn [rev]. by rewrite <- !app_assoc. }
  pose proof Ho as [Ho1 (L1 & L2 & L3 & L4 & L5 & L6 & L7)]%ordered_app.
  destruct (decide (rkind last = rkind r)) as [Ek|Ek]; [|apply Hpush; by intros []].
  rewrite (rend_ok hi Hh 0 (rev merged ++ last :: r :: m)) by (done || apply elem_of_app; right; left). cbn [mbind res_bind].
  destruct (Z.eqb_spec (rbase last + rsize last) (rbase r)) as [Eb|Eb]; [|apply Hpush; by intros []].
  pose proof (end_of_ge hi 0 (rev merged) Ho1). unfold radd. rewrite (proj2 (Z.ltb_lt _ _)) by lia. cbn [mbind res_bind].
  destruct (IH (mk_MemoryRegion (rbase last) (rsize last + rsize r) (rkind last) :: merged)) as (m' & E & Ho' & Hs' & Hk).
  - cbn [rev]. rewrite <- app_assoc. apply ordered_app. split; [done|]. cbn. split_and!; try lia. eapply ordered_mono; [|exact L7]. lia.
  - cbn [rev]. by apply (settled_grow _ last).
  - exists m'. split_and!; [done..|]. intros a. rewrite Hk. cbn [rev]. rewrite <- !app_assoc. rewrite !(kind_at_app (rev merged)).
    change ([?x] ++ m) with ([x] ++ m). rewrite (kind_at_app [_] m). rewrite (kind_at_merge last r a (conj Ek Eb)) by done.
    by rewrite <- kind_at_app.
Qed.

(** Coalescing keeps the kind of every address and leaves no two
    neighbours that could be one region. *)
Theorem memmap_coalesce hi m :
  hi < 2 ^ 64 -> ordered hi 0 m ->
  exists m', coalesce m = Ok m' /\ ordered hi 0 m' /\ settled m' /\ forall a, kind_at m' a = kind_at m a.
Proof. intros Hh Ho. by apply (coalesce_loop_ok hi Hh m []). Qed.

(** ** A small map *)

Definition sample_memory : MemoryMap := [mk_MemoryRegion 0x1000 0x9F000 Usable; mk_MemoryRegion 0x100000 0x3000000 Usable; mk_MemoryRegion 0x3100000 0x100000 Reserved].

Lemma sample_ordered : ordered 0x3200000 0 sample_memory.
Proof. repeat split; cbn; lia. Qed.

Lemma memmap_carve_refines_witness : exists m' o, carve_below 0x200000 0x200000 0x100000000 sample_memory = (m', Ok o) /\ ordered 0x3200000 0 m' /\ o = Some 0x200000.
Proof.
  destruct (memmap_carve_refines 0x3200000 0x200000 0x200000 0x100000000 sample_memory eq_refl ltac:(lia) ltac:(lia) sample_ordered) as (m' & o & E & Ho & _).
  exists m', o. split_and!; [exact E|exact Ho|]. vm_compute in E. by injection E as _ <-.
Defined.

Lemma memmap_reserve_span_witness : exists m', reserve_span 0x80000 0x100000 sample_memory = (m', Ok true) /\ kind_at m' 0x100000 = Some Reserved.
Proof.
  destruct (memmap_reserve_span 0x3200000 0x80000 0x100000 sample_memory ltac:(lia) ltac:(lia) sample_ordered) as (m' & b & E & _ & _ & H).
  destruct (H ltac:(lia) ltac:(lia)) as [Hb Hk]. exists m'. split.
  - rewrite E. do 2 f_equal. apply Hb. exists 0x80000. split; [lia|reflexivity].
  - rewrite Hk. reflexivity.
Defined.

Definition sample_plan : MemoryPlanRequest := mk_MemoryPlanRequest 0x200000 0x200000 [0x1000000; 0x400000] 0x200000 None.

Lemma memmap_plan_isolates_witness : exists m' rs, plan_hypervisor_regions sample_plan sample_memory = (m', Ok (Some rs)) /\
  pairwise (dma rs :: heap rs :: guest_ram rs).
Proof.
  destruct (memmap_plan_isolates 0x3200000 sample_plan sample_memory eq_refl ltac:(cbn; lia) ltac:(cbn; lia) ltac:(cbn; lia)
    ltac:(by repeat constructor) sample_ordered ltac:(done)) as (m' & o & E & H).
  destruct o as [rs|]; [|exfalso; by vm_compute in E]. exists m', rs. split; [exact E|apply H].
Defined.

Lemma memmap_coalesce_witness : exists m', coalesce [mk_MemoryRegion 0 0x1000 Usable; mk_MemoryRegion 0x1000 0x1000 Usable] = Ok m' /\ settled m' /\ length m' = 1%nat.
Proof.
  destruct (memmap_coalesce 0x2000 [mk_MemoryRegion 0 0x1000 Usable; mk_MemoryRegion 0x1000 0x1000 Usable] ltac:(lia) ltac:(repeat split; cbn; lia)) as (m' & E & _ & Hs & _).
  exists m'. split_and!; [exact E|exact Hs|]. vm_compute in E. by injection E as <-.
Defined.
