(* ===== verification/Cas.v ===== *)
(** * Compare-and-swap loops

    Two components hand out pieces of memory by bumping an atomic counter in a
    compare-and-exchange loop: [RamWindow::take] (enlil-boot/src/kernel.rs)
    and [BumpPageSource::alloc_pages] (enlil-platform/src/redox/ralloc.rs).
    This file has the loop once, for any loop body: the uncontended run as a
    function, the contended runs of any number of threads as a step relation
    in which loads may be stale and the exchange may fail spuriously, and what
    holds of every interleaving. *)

From Stdlib Require Import ZArith Lia Bool.
From stdpp Require Import base decidable list numbers relations.
From S2P Require Import Prelude Rust.

Section Cas.
(** The body of the loop: from the value seen, the start of the piece and the
    value to store, or nothing when the request does not fit. *)
Context {R : Type} (propose : R -> Z -> res Empty_set (option (Z * Z))).

(** The uncontended loop: the value is read, and the exchange succeeds. *)
Definition cas_run (r : R) : M Z Empty_set (option Z) := fun next =>
  match propose r next with
  | Ok (Some (b, next')) => (next', Ok (Some b))
  | Ok None => (next, Ok None)
  | Err e => (next, Err e)
  | Panic => (next, Panic)
  end.

(** A thread in the loop: before the first load, with the value it holds, or
    back with its result. *)
Inductive thread := Start | Trying (cur : Z) | Done (o : option Z) | Panicked.

(** The counter's values so far, newest first, and the threads with their
    requests. *)
Record shared := mk_shared { past : list Z; threads : list (R * thread) }.

Definition now (s : shared) : option Z := head (past s).

Inductive cas_step (s : shared) : shared -> Prop :=
  | step_load i r v :
      threads s !! i = Some (r, Start) -> v ∈ past s ->
      cas_step s (mk_shared (past s) (<[i := (r, Trying v)]> (threads s)))
  | step_full i r v :
      threads s !! i = Some (r, Trying v) -> propose r v = Ok None ->
      cas_step s (mk_shared (past s) (<[i := (r, Done None)]> (threads s)))
  | step_panic i r v :
      threads s !! i = Some (r, Trying v) -> propose r v = Panic ->
      cas_step s (mk_shared (past s) (<[i := (r, Panicked)]> (threads s)))
  | step_swap i r v b v' :
      threads s !! i = Some (r, Trying v) -> propose r v = Ok (Some (b, v')) -> now s = Some v ->
      cas_step s (mk_shared (v' :: past s) (<[i := (r, Done (Some b))]> (threads s)))
  | step_retry i r v p w :
      threads s !! i = Some (r, Trying v) -> propose r v = Ok (Some p) -> w ∈ past s ->
      cas_step s (mk_shared (past s) (<[i := (r, Trying w)]> (threads s))).

(** All threads before their first load, the counter at [v0]. *)
Definition at_start (v0 : Z) (rs : list R) : shared := mk_shared [v0] ((fun r => (r, Start)) <$> rs).

(** ** What every interleaving keeps *)

Context (size : R -> Z).
Hypothesis size_nonneg : forall r, 0 <= size r.
Hypothesis propose_grows : forall r v b v', propose r v = Ok (Some (b, v')) -> v <= b /\ b + size r <= v'.

(** The piece of a request that was granted. *)
Definition granted (s : shared) (i : nat) (b e : Z) : Prop := exists r, threads s !! i = Some (r, Done (Some b)) /\ e = b + size r.

Record cas_inv (v0 : Z) (s : shared) : Prop := {
  ci_now : exists v, now s = Some v /\ Forall (fun w => w <= v) (past s) /\ v0 <= v;
  ci_in : forall i b e v, granted s i b e -> now s = Some v -> v0 <= b /\ e <= v;
  ci_apart : forall i j b e b' e', i <> j -> granted s i b e -> granted s j b' e' -> e <= b' \/ e' <= b;
  ci_held : forall i r v, threads s !! i = Some (r, Trying v) -> v ∈ past s;
}.

Lemma granted_insert s l i r t j b e :
  granted (mk_shared l (<[i := (r, t)]> (threads s))) j b e ->
  (j = i /\ t = Done (Some b) /\ e = b + size r) \/ (j <> i /\ granted s j b e).
Proof.
  intros (r' & H & ->). cbn in H. apply list_lookup_insert_Some in H as [(-> & E & _)|[Hn H]].
  - injection E as -> ->. by left.
  - right. split; [done|]. by exists r'.
Qed.

Lemma held_insert s i r t (l : list Z) : (forall j r' v, threads s !! j = Some (r', Trying v) -> v ∈ l) -> (forall v, t = Trying v -> v ∈ l) ->
  forall j r' v, <[i := (r, t)]> (threads s) !! j = Some (r', Trying v) -> v ∈ l.
Proof. intros H1 H2 j r' v Hj. apply list_lookup_insert_Some in Hj as [(-> & E & _)|[_ Hj]]; [injection E as _ Ht; by apply H2|by eapply H1]. Qed.

(** A step that stores nothing. *)
Lemma cas_inv_quiet v0 s i r t : cas_inv v0 s -> (forall b, t <> Done (Some b)) -> (forall v, t = Trying v -> v ∈ past s) ->
  cas_inv v0 (mk_shared (past s) (<[i := (r, t)]> (threads s))).
Proof.
  intros [Hn Hi Ha Hh] Ht Hv. split; [exact Hn|..].
  - intros j b e v Hg. apply granted_insert in Hg as [(_ & E & _)|[_ Hg]]; [by apply Ht in E|]. by eapply Hi.
  - intros j k b e b' e' Hjk Hg Hg'. apply granted_insert in Hg as [(_ & E & _)|[_ Hg]]; [by apply Ht in E|].
    apply granted_insert in Hg' as [(_ & E & _)|[_ Hg']]; [by apply Ht in E|]. by eapply Ha.
  - by apply held_insert.
Qed.

Lemma cas_inv_step v0 s s' : cas_inv v0 s -> cas_step s s' -> cas_inv v0 s'.
Proof.
  intros Hinv Hs. destruct Hs as [i r v Hi Hv|i r v Hi Hp|i r v Hi Hp|i r v b v' Hi Hp Hn|i r v p w Hi Hp Hw];
    try (apply cas_inv_quiet; [done|intros ?; discriminate|intros ? E; first [discriminate E|injection E as <-; done]]; fail).
  destruct Hinv as [(v1 & En & Hf & H0) Hin Ha Hh]. rewrite Hn in En. injection En as <-. destruct (propose_grows r v b v' Hp) as [H1 H2].
  pose proof (size_nonneg r). split.
  - exists v'. split; [done|]. split; [|lia]. constructor; [done|]. eapply Forall_impl; [exact Hf|]. cbn. lia.
  - intros j b' e v2 Hg [= <-]. apply granted_insert in Hg as [(_ & E & ->)|[_ Hg]]; [injection E as <-; lia|].
    destruct (Hin j b' e v Hg Hn). lia.
  - intros j k b1 e1 b2 e2 Hjk Hg Hg'. apply granted_insert in Hg as [(-> & E & ->)|[Hj Hg]].
    + injection E as <-. apply granted_insert in Hg' as [(-> & _)|[_ Hg']]; [done|]. destruct (Hin k b2 e2 v Hg' Hn). lia.
    + apply granted_insert in Hg' as [(-> & E & ->)|[_ Hg']]; [|by eapply (Ha j k)]. injection E as <-. destruct (Hin j b1 e1 v Hg Hn). lia.
  - apply (held_insert s); [|done]. intros j r' w Hj. right. by eapply Hh.
Qed.

Lemma cas_inv_start v0 rs : cas_inv v0 (at_start v0 rs).
Proof.
  split.
  - exists v0. split; [done|]. split; [by repeat constructor|lia].
  - intros i b e v (r & H & _). cbn in H. rewrite list_lookup_fmap in H. by destruct (rs !! i).
  - intros i j b e b' e' _ (r & H & _). cbn in H. rewrite list_lookup_fmap in H. by destruct (rs !! i).
  - intros i r v H. cbn in H. rewrite list_lookup_fmap in H. by destruct (rs !! i).
Qed.

Lemma cas_reach_inv v0 rs s : rtc cas_step (at_start v0 rs) s -> cas_inv v0 s.
Proof. revert s. apply rtc_ind_r; [apply cas_inv_start|]. intros s1 s2 _ Hs IH. by eapply cas_inv_step. Qed.

(** Requests are kept. *)
Lemma cas_step_reqs s s' : cas_step s s' -> (threads s').*1 = (threads s).*1.
Proof.
  intros Hs. destruct Hs as [i r v Hi _|i r v Hi _|i r v Hi _|i r v b v' Hi _ _|i r v p w Hi _ _]; cbn;
    rewrite list_fmap_insert; cbn; apply list_insert_id; by rewrite list_lookup_fmap, Hi.
Qed.

Lemma cas_reach_reqs v0 rs s : rtc cas_step (at_start v0 rs) s -> (threads s).*1 = rs.
Proof.
  revert s. apply rtc_ind_r; [cbn; induction rs as [|r rs IHr]; cbn; [done|by rewrite IHr]|].
  intros s1 s2 _ Hs IH. by rewrite (cas_step_reqs _ _ Hs).
Qed.

(** A grant is what the body proposed for some value of the counter, and a
    thread ends in a panic only where the body does. *)
Definition proposed (rt : R * thread) : Prop :=
  match rt.2 with
  | Done (Some b) => exists v v', propose rt.1 v = Ok (Some (b, v'))
  | Panicked => exists v, propose rt.1 v = Panic
  | _ => True
  end.

Lemma cas_proposed v0 rs s : rtc cas_step (at_start v0 rs) s -> Forall proposed (threads s).
Proof.
  revert s. apply rtc_ind_r; [cbn; induction rs; by constructor|].
  intros s1 s2 _ Hs IH. destruct Hs; cbn; apply Forall_insert; cbn; eauto.
Qed.

(** A refusal is for good: the request does not fit now either. *)
Lemma cas_refusal v0 rs s :
  (forall r v w, v <= w -> propose r v = Ok None -> propose r w = Ok None) ->
  rtc cas_step (at_start v0 rs) s ->
  forall i r v, threads s !! i = Some (r, Done None) -> now s = Some v -> propose r v = Ok None.
Proof.
  intros Hmono. revert s. apply (rtc_ind_r (fun s => forall i r v, threads s !! i = Some (r, Done None) -> now s = Some v -> propose r v = Ok None)).
  { intros i r v H. cbn in H. rewrite list_lookup_fmap in H. by destruct (rs !! i). }
  intros s1 s2 Hr Hs IH. destruct (cas_reach_inv v0 rs s1 Hr) as [(v1 & En & Hf & _) _ _ Hh].
  destruct Hs as [i r v Hi Hv|i r v Hi Hp|i r v Hi Hp|i r v b v' Hi Hp Hn|i r v p w Hi Hp Hw]; intros j r' u Hj Hu; cbn in Hj;
    apply list_lookup_insert_Some in Hj as [(-> & E & _)|[_ Hj]]; try discriminate E; try (by eapply IH).
  - injection E as ->. change (now s1 = Some u) in Hu. rewrite En in Hu. injection Hu as <-. apply (Hmono r' v); [|done].
    rewrite Forall_forall in Hf. apply Hf. by eapply Hh.
  - cbn in Hu. injection Hu as <-. destruct (propose_grows _ _ _ _ Hp). pose proof (size_nonneg r). apply (Hmono r' v); [lia|]. by eapply IH.
Qed.

(** ** Termination *)

(** The steps of the loop that get on: loads, answers, stores, and an exchange
    that fails because another thread stored in between and returns the value
    stored. *)
Inductive useful (s : shared) : shared -> Prop :=
  | useful_load i r v :
      threads s !! i = Some (r, Start) -> v ∈ past s ->
      useful s (mk_shared (past s) (<[i := (r, Trying v)]> (threads s)))
  | useful_full i r v :
      threads s !! i = Some (r, Trying v) -> propose r v = Ok None ->
      useful s (mk_shared (past s) (<[i := (r, Done None)]> (threads s)))
  | useful_panic i r v :
      threads s !! i = Some (r, Trying v) -> propose r v = Panic ->
      useful s (mk_shared (past s) (<[i := (r, Panicked)]> (threads s)))
  | useful_swap i r v b v' :
      threads s !! i = Some (r, Trying v) -> propose r v = Ok (Some (b, v')) -> now s = Some v ->
      useful s (mk_shared (v' :: past s) (<[i := (r, Done (Some b))]> (threads s)))
  | useful_retry i r v p w :
      threads s !! i = Some (r, Trying v) -> propose r v = Ok (Some p) -> now s = Some w -> v <> w ->
      useful s (mk_shared (past s) (<[i := (r, Trying w)]> (threads s))).

(** The ones that do not: an exchange that fails although the counter has the
    value expected, or that returns a value that is already old. *)
Inductive wasted (s : shared) : shared -> Prop :=
  | wasted_retry i r v p w :
      threads s !! i = Some (r, Trying v) -> propose r v = Ok (Some p) -> w ∈ past s -> now s = Some v \/ now s <> Some w ->
      wasted s (mk_shared (past s) (<[i := (r, Trying w)]> (threads s))).

(** A run of [k] steps, [j] of them wasted. *)
Inductive cas_runs : nat -> nat -> shared -> shared -> Prop :=
  | runs_nil s : cas_runs 0 0 s s
  | runs_useful k j s s1 s2 : useful s s1 -> cas_runs k j s1 s2 -> cas_runs (S k) j s s2
  | runs_wasted k j s s1 s2 : wasted s s1 -> cas_runs k j s1 s2 -> cas_runs (S k) (S j) s s2.

Lemma now_past s w : now s = Some w -> w ∈ past s.
Proof. unfold now. intros Hw. destruct (past s); [done|]. injection Hw as <-. left. Qed.

(** The two kinds are all the steps there are. *)
Lemma cas_step_kinds s s' : cas_step s s' <-> useful s s' \/ wasted s s'.
Proof.
  split.
  - destruct 1 as [i r v Hi Hv|i r v Hi Hp|i r v Hi Hp|i r v b v' Hi Hp Hn|i r v p w Hi Hp Hw]; [left; by eapply useful_load|left; by eapply useful_full|left; by eapply useful_panic|left; by eapply useful_swap|].
    destruct (decide (now s = Some w)) as [Hnw|Hnw]; [destruct (decide (v = w)) as [->|Hne]|]; [right; eapply wasted_retry; eauto|left; by eapply useful_retry|right; eapply wasted_retry; eauto].
  - intros [H|H]; destruct H; [eapply step_load|eapply step_full|eapply step_panic|eapply step_swap|eapply step_retry|eapply step_retry]; eauto using now_past.
Qed.

Lemma cas_runs_steps k s s' : nsteps cas_step k s s' <-> exists j, cas_runs k j s s'.
Proof.
  split.
  - induction 1 as [s|k s s1 s2 H1 _ (j & IH)]; [by exists 0%nat; constructor|]. apply cas_step_kinds in H1 as [H1|H1]; eexists; [by eapply runs_useful|by eapply runs_wasted].
  - intros (j & H). induction H as [s|k j s s1 s2 H1 _ IH|k j s s1 s2 H1 _ IH]; [constructor|..]; (eapply nsteps_l; [apply cas_step_kinds; eauto|done]).
Qed.

Definition weight (v : Z) (t : R * thread) : Z :=
  match t.2 with Start => 3 | Trying w => if w =? v then 1 else 2 | _ => 0 end.

(** The steps still possible, at most: every store may send the others round
    once more. *)
Definition fuel_left (top : Z) (s : shared) : Z :=
  let v := default 0 (now s) in (top - v) * (Z.of_nat (length (threads s)) + 1) + zsum (weight v <$> threads s).

#[local] Arguments zsum : simpl never.
Lemma zsum_cons x l : zsum (x :: l) = x + zsum l.
Proof. done. Qed.

Lemma zsum_insert {A} (f : A -> Z) (l : list A) i x y : l !! i = Some x -> zsum (f <$> <[i := y]> l) = zsum (f <$> l) - f x + f y.
Proof.
  revert i. induction l as [|a l IH]; intros [|i] H; try done.
  - injection H as ->. change (<[0%nat := y]> (x :: l)) with (y :: l). rewrite !fmap_cons, !zsum_cons. lia.
  - change (<[S i := y]> (a :: l)) with (a :: <[i := y]> l). rewrite !fmap_cons, !zsum_cons, (IH i H). lia.
Qed.

Lemma weight_bound v w t : 0 <= weight v t <= weight w t + 1.
Proof. unfold weight. destruct t.2; cbn; repeat case_match; lia. Qed.

Lemma weight_sum v w ts : 0 <= zsum (weight v <$> ts) <= zsum (weight w <$> ts) + Z.of_nat (length ts).
Proof. induction ts as [|t ts IH]; cbn; [done|]. rewrite !zsum_cons. pose proof (weight_bound v w t). lia. Qed.

Lemma useful_decreases top s s' :
  (forall r v b v', propose r v = Ok (Some (b, v')) -> v < v' <= top) ->
  is_Some (now s) -> useful s s' -> fuel_left top s' < fuel_left top s.
Proof.
  intros Hp [u Hu] Hs. unfold fuel_left.
  destruct Hs as [i r v Hi Hv|i r v Hi Hpr|i r v Hi Hpr|i r v b v' Hi Hpr Hn|i r v p w Hi Hpr Hw Hne]; cbn [threads past now head default]; rewrite ?length_insert;
    try (change (now (mk_shared (past s) _)) with (now s); rewrite Hu; cbn [default id]; rewrite (zsum_insert _ _ _ _ _ Hi)).
  - cbn; case_match; lia.
  - cbn; case_match; lia.
  - cbn; case_match; lia.
  - rewrite Hu in Hn. injection Hn as ->. destruct (Hp _ _ _ _ Hpr).
    pose proof (weight_sum v' v (threads s)). cbn. rewrite (proj2 (Z.eqb_neq v v')) by lia. nia.
  - rewrite Hu in Hw. injection Hw as ->. cbn. rewrite Z.eqb_refl, (proj2 (Z.eqb_neq v w)) by done. lia.
Qed.

Lemma wasted_costs top s s' : is_Some (now s) -> wasted s s' -> fuel_left top s' <= fuel_left top s + 1.
Proof.
  intros [u Hu] Hs. unfold fuel_left. destruct Hs as [i r v p w Hi Hpr Hw Hn]. cbn [threads]. rewrite length_insert. change (now (mk_shared (past s) _)) with (now s). rewrite Hu. cbn [default id].
  rewrite (zsum_insert _ _ _ _ _ Hi). cbn. repeat case_match; lia.
Qed.

Lemma cas_step_now s s' : cas_step s s' -> is_Some (now s) -> is_Some (now s').
Proof. intros Hs Hn. destruct Hs; first [done|by eexists]. Qed.

Lemma cas_step_top top s s' : (forall r v b v', propose r v = Ok (Some (b, v')) -> v < v' <= top) -> cas_step s s' ->
  (forall v, now s = Some v -> v <= top) -> forall v, now s' = Some v -> v <= top.
Proof. intros Hp Hs Ht v Hv. destruct Hs as [| | |i r u b u' Hi Hpr Hnu|]; try (by apply Ht). cbn in Hv. injection Hv as <-. apply Hp in Hpr. lia. Qed.

Lemma cas_runs_fuel top k j s s' :
  (forall r v b v', propose r v = Ok (Some (b, v')) -> v < v' <= top) -> cas_runs k j s s' -> is_Some (now s) -> (forall v, now s = Some v -> v <= top) ->
  fuel_left top s' <= fuel_left top s - Z.of_nat k + 2 * Z.of_nat j /\ 0 <= fuel_left top s'.
Proof.
  intros Hp. induction 1 as [s|k j s s1 s2 H1 _ IH|k j s s1 s2 H1 _ IH]; intros Hn Ht.
  - split; [lia|]. unfold fuel_left. destruct Hn as [v Hv]. rewrite Hv. cbn. specialize (Ht v Hv). pose proof (weight_sum v v (threads s)). nia.
  - pose proof (useful_decreases top s s1 Hp Hn H1). assert (Hs : cas_step s s1) by (apply cas_step_kinds; by left).
    destruct (IH (cas_step_now _ _ Hs Hn) (cas_step_top top _ _ Hp Hs Ht)). lia.
  - pose proof (wasted_costs top s s1 Hn H1). assert (Hs : cas_step s s1) by (apply cas_step_kinds; by right).
    destruct (IH (cas_step_now _ _ Hs Hn) (cas_step_top top _ _ Hp Hs Ht)). lia.
Qed.

(** Every schedule ends, but for the exchanges that are wasted. *)
Lemma cas_terminates top v0 rs k j s :
  (forall r v b v', propose r v = Ok (Some (b, v')) -> v < v' <= top) -> v0 <= top ->
  cas_runs k j (at_start v0 rs) s -> Z.of_nat k <= (top - v0) * (Z.of_nat (length rs) + 1) + 3 * Z.of_nat (length rs) + 2 * Z.of_nat j.
Proof.
  intros Hp H0 Hs. destruct (cas_runs_fuel top k j _ _ Hp Hs) as [H1 H2]; [done|intros v [= <-]; done|].
  revert H1. unfold fuel_left at 2. cbn. rewrite length_fmap.
  assert (E : zsum (weight v0 <$> ((fun r => (r, Start)) <$> rs)) = 3 * Z.of_nat (length rs)) by (clear; induction rs as [|r rs IH]; cbn in *; [done|]; rewrite zsum_cons, IH; cbn; lia).
  rewrite E. lia.
Qed.

(** Where no useful step is left, every thread is back. *)
Lemma cas_quiescent s : is_Some (now s) -> (forall r v e, propose r v <> Err e) ->
  (exists s', useful s s') \/ Forall (fun rt => (exists o, rt.2 = Done o) \/ rt.2 = Panicked) (threads s).
Proof.
  intros [u Hu] He. assert (H : forall i rt, threads s !! i = Some rt -> (exists s', useful s s') \/ (exists o, rt.2 = Done o) \/ rt.2 = Panicked).
  { intros i [r [|v|o|]] Hi; [|left|by eauto..].
    - left. eexists. apply (useful_load s i r u); [done|by apply now_past].
    - destruct (propose r v) as [[[b v']|]|e|] eqn:E; [|eexists; by apply (useful_full s i r v)|by apply He in E|eexists; by apply (useful_panic s i r v)].
      destruct (decide (v = u)) as [->|Hne]; eexists; [by apply (useful_swap s i r u b v')|by apply (useful_retry s i r v (b, v') u)]. }
  revert H. induction (threads s) as [|rt ts IH]; intros H; [by right|]. destruct (H 0%nat rt eq_refl) as [?|Hrt]; [by left|].
  destruct IH as [?|?]; [intros i x Hx; by apply (H (S i) x)|by left|]. right. by constructor.
Qed.
End Cas.
