(* ===== verification/BootMem.v ===== *)
(** * Boot-time memory: enlil-boot/src/kernel.rs

    How the kernel gets from the firmware's memory map to the RAM of its
    guests: the walks over the raw descriptor array, the bootstrap heap, the
    plan with everything live reserved before it, and the windows the guests'
    RAM is taken from.  Console output is left out, and the questions the plan
    asks the handoff about an OS guest are answered by one field. *)

From Stdlib Require Import ZArith Lia Bool.
From stdpp Require Import base decidable list numbers sorting relations.
From S2P Require Import Prelude Rust Storage MemMap Cas.

Definition saturating_mul (a b : Z) : Z := Z.min (a * b) (2 ^ 64 - 1).
Definition saturating_sub (a b : Z) : Z := Z.max 0 (a - b).

(** ** The raw descriptor array *)

Definition read_u32_le (bytes : list Z) (offset : Z) : option Z :=
  if offset + 4 <=? len bytes then Some (le_value (sub bytes offset 4)) else None.
Definition read_u64_le (bytes : list Z) (offset : Z) : option Z :=
  if offset + 8 <=? len bytes then Some (le_value (sub bytes offset 8)) else None.

(** [slice.chunks_exact(n)] *)
Definition chunks_exact (n : Z) (l : list Z) : list (list Z) := (fun i => sub l (i * n) n) <$> seqZ 0 (len l / n).

(** Type at 0, physical start at 8, page count at 24. *)
Definition read_descriptor (desc : list Z) : option UefiMemoryDescriptor :=
  kind ← read_u32_le desc 0;
  start ← read_u64_le desc 8;
  pages ← read_u64_le desc 24;
  Some (mk_UefiMemoryDescriptor kind start pages).

(** The walks stop at a descriptor that cannot be read. *)
Fixpoint read_all (chunks : list (list Z)) : list UefiMemoryDescriptor :=
  match chunks with
  | [] => []
  | c :: cs => match read_descriptor c with Some d => d :: read_all cs | None => [] end
  end.

(** [DESC_MIN_SIZE] is 32. *)
Definition descriptors (bytes : list Z) (descriptor_size : Z) : list UefiMemoryDescriptor :=
  if descriptor_size <? 32 then [] else read_all (chunks_exact descriptor_size bytes).

Record MemorySummary := mk_MemorySummary {
  ms_descriptors : Z; usable_regions : Z; usable_bytes : Z; largest_usable_bytes : Z; highest_usable_end : Z;
  largest_conventional_base : Z; largest_conventional_bytes : Z;
}.

Abbreviation USABLE_EFI_TYPES := ([1; 2; 3; 4; 7]) (only parsing).

Definition summarize_one (s : MemorySummary) (d : UefiMemoryDescriptor) : MemorySummary :=
  let s := mk_MemorySummary (ms_descriptors s + 1) (usable_regions s) (usable_bytes s) (largest_usable_bytes s) (highest_usable_end s)
             (largest_conventional_base s) (largest_conventional_bytes s) in
  if (page_count d =? 0) || negb (bool_decide (d_kind d ∈ USABLE_EFI_TYPES)) then s
  else
    let size := saturating_mul (page_count d) 4096 in
    let bigger := (d_kind d =? 7) && (largest_conventional_bytes s <? size) in
    mk_MemorySummary (ms_descriptors s) (usable_regions s + 1) (saturating_add (usable_bytes s) size)
      (Z.max (largest_usable_bytes s) size) (Z.max (highest_usable_end s) (saturating_add (phys_start d) size))
      (if bigger then phys_start d else largest_conventional_base s) (if bigger then size else largest_conventional_bytes s).

Definition summarize_memory_map (bytes : list Z) (descriptor_size : Z) : MemorySummary :=
  foldl summarize_one (mk_MemorySummary 0 0 0 0 0 0 0) (descriptors bytes descriptor_size).

(** Loader and boot-services memory (types 1 to 4) as [[base, end)] spans. *)
Definition firmware_claimed_spans (bytes : list Z) (descriptor_size : Z) : list (Z * Z) :=
  omap (fun d =>
    if (page_count d =? 0) || negb (bool_decide (d_kind d ∈ [1; 2; 3; 4])) then None
    else
      let size := saturating_mul (page_count d) 4096 in
      if size =? 0 then None else Some (phys_start d, saturating_add (phys_start d) size))
    (descriptors bytes descriptor_size).

(** The page a start-up vector can reach: in [0x1000, 1 MiB), highest first. *)
Definition trampoline_candidate (d : UefiMemoryDescriptor) : option Z :=
  if (page_count d =? 0) || negb (d_kind d =? 7) then None
  else
    let region_end := saturating_add (phys_start d) (saturating_mul (page_count d) 4096) in
    let start := Z.max (phys_start d) 0x1000 in
    let end_ := Z.min region_end 0x100000 in
    if (end_ <=? start) || (end_ - start <? 4096) then None
    else
      let page := (end_ - 4096) .&~ 4095 in
      if start <=? page then Some page else None.

Definition find_ap_trampoline_page (bytes : list Z) (descriptor_size : Z) : option Z :=
  foldl (fun best d => match trampoline_candidate d with
                       | Some page => Some (match best with Some b => Z.max b page | None => page end)
                       | None => best
                       end) None (descriptors bytes descriptor_size).

(** ** The bootstrap heap *)

Abbreviation BOOT_HEAP_MAX_BYTES := (64 * 1024 * 1024) (only parsing).
Abbreviation BOOT_HEAP_MIN_BYTES := (1024 * 1024) (only parsing).

Definition boot_heap_size (region_bytes : Z) : Z :=
  if region_bytes <? BOOT_HEAP_MIN_BYTES then 0
  else if BOOT_HEAP_MAX_BYTES <? region_bytes then BOOT_HEAP_MAX_BYTES else region_bytes.

(** The span the heap is installed in. *)
Definition bring_up_heap (summary : MemorySummary) : option (Z * Z) :=
  let size := boot_heap_size (largest_conventional_bytes summary) in
  if size =? 0 then None else Some (largest_conventional_base summary, size).

(** ** The guest-RAM windows *)

Record RamWindow := mk_RamWindow { wnext : Z; wend : Z }.

Definition RamWindow_new : RamWindow := mk_RamWindow 0 0.
Definition publish (base size : Z) (w : RamWindow) : RamWindow := mk_RamWindow base (saturating_add base size).
Definition remaining (w : RamWindow) : Z := saturating_sub (wend w) (wnext w).

(** [take] below a window that ends at [end_]: the tests before the loop and,
    for the value [cur] of [next], its body.  A request is a size and an
    alignment. *)
Definition take_propose (end_ : Z) (req : Z * Z) (cur : Z) : res Empty_set (option (Z * Z)) :=
  let '(size, align) := req in
  if (end_ =? 0) || (size <=? 0) || negb (is_power_of_two align) then Ok None
  else
    match checked_add cur (align - 1) with
    | None => Ok None
    | Some up =>
        let base := up .&~ (align - 1) in
        match checked_add base size with
        | None => Ok None
        | Some next => if end_ <? next then Ok None else Ok (Some (base, next))
        end
    end.

(** [take] with no other processor in between. *)
Definition take (size align : Z) : M RamWindow Empty_set (option Z) := fun w =>
  let '(n, r) := cas_run (take_propose (wend w)) (size, align) (wnext w) in (mk_RamWindow n (wend w), r).

(** ** The plan *)

Record Framebuffer := mk_Framebuffer { fb_base : Z; stride : Z; height : Z; bytes_per_pixel : Z }.

Definition size_bytes (fb : Framebuffer) : res Empty_set Z := p ← rmul (stride fb) (height fb); rmul p (bytes_per_pixel fb).

(** [os_guest_ram] is the RAM size for an OS guest when there is one to boot. *)
Record BootHandoff := mk_BootHandoff {
  memory_map_base : Z; memory_map_len : Z; framebuffer : option Framebuffer; os_guest_ram : option Z;
}.

Record Windows := mk_Windows { WINDOW : RamWindow; LINUX : RamWindow }.

(** The spans the firmware still owns, as [[base, end)]. *)
Definition claimed_spans (bytes : list Z) (descriptor_size : Z) (h : BootHandoff) : res Empty_set (list (Z * Z)) :=
  let buffer := if negb (memory_map_base h =? 0) && negb (memory_map_len h =? 0)
                then [(memory_map_base h, saturating_add (memory_map_base h) (memory_map_len h))] else [] in
  let image := firmware_claimed_spans bytes descriptor_size in
  match framebuffer h with
  | Some fb => size ← size_bytes fb;
               Ok (buffer ++ image ++ if negb (size =? 0) then [(fb_base fb, saturating_add (fb_base fb) size)] else [])
  | None => Ok (buffer ++ image)
  end.

(** [for (base, end) in claimed { map.reserve_span(base, end - base) }] *)
Definition reserve_claimed (claimed : list (Z * Z)) : M MemoryMap Empty_set unit :=
  mfor claimed (fun be => reserve_span be.1 (saturating_sub be.2 be.1) ;; mret tt).

Definition reserve_heap (heap_span : option (Z * Z)) : M MemoryMap Empty_set unit :=
  match heap_span with
  | Some (b, n) => reserve_span b n ;; lift (radd b n) ;; mret tt
  | None => mret tt
  end.

Abbreviation MIB := (1024 * 1024) (only parsing).

Definition plan_request (heap_span : option (Z * Z)) (h : BootHandoff) : MemoryPlanRequest :=
  mk_MemoryPlanRequest (match heap_span with Some (_, n) => n | None => 8 * MIB end) (2 * MIB)
    (match os_guest_ram h with Some n => [16 * MIB; n] | None => [16 * MIB] end) (2 * MIB) heap_span.

Definition clears (spans : list (Z * Z)) (r : MemoryRegion) : bool :=
  let end_ := saturating_add (rbase r) (rsize r) in
  forallb (fun s => (end_ <=? s.1) || (s.2 <=? rbase r)) spans.

Definition plan_clear (heap_base heap_len : Z) (claimed : list (Z * Z)) (rs : HypervisorRegions) : bool :=
  let spans := (heap_base, saturating_add heap_base heap_len) :: claimed in
  ((rbase (heap rs) =? heap_base) && (rsize (heap rs) =? heap_len)) && clears spans (dma rs) && forallb (clears spans) (guest_ram rs).

(** The windows are published only after the check, and only with a heap. *)
Definition publish_plan (heap_span : option (Z * Z)) (claimed : list (Z * Z)) (h : BootHandoff) (rs : HypervisorRegions) (w : Windows) : Windows :=
  match heap_span with
  | None => w
  | Some (b, n) =>
      if plan_clear b n claimed rs then
        let w := match guest_ram rs with g0 :: _ => mk_Windows (publish (rbase g0) (rsize g0) (WINDOW w)) (LINUX w) | [] => w end in
        match os_guest_ram h, guest_ram rs with
        | Some _, _ :: g1 :: _ => mk_Windows (WINDOW w) (publish (rbase g1) (rsize g1) (LINUX w))
        | _, _ => w
        end
      else w
  end.

(** The map the plan starts from. *)
Definition planned_map (bytes : list Z) (descriptor_size : Z) (heap_span : option (Z * Z)) (claimed : list (Z * Z)) : res Empty_set MemoryMap :=
  m ← from_uefi (descriptors bytes descriptor_size);
  _ ← total_usable m;
  match (reserve_heap heap_span ;; reserve_claimed claimed) m with
  | (m', Ok _) => Ok m'
  | (_, Err e) => Err e
  | (_, Panic) => Panic
  end.

Definition publish_result (heap_span : option (Z * Z)) (claimed : list (Z * Z)) (h : BootHandoff) (r : option HypervisorRegions) : M Windows Empty_set unit :=
  fun w => (match r with Some rs => publish_plan heap_span claimed h rs w | None => w end, Ok tt).

Definition bring_up_memory_plan (bytes : list Z) (descriptor_size : Z) (heap_span : option (Z * Z)) (h : BootHandoff) : M Windows Empty_set unit :=
  claimed ← lift (claimed_spans bytes descriptor_size h);
  map ← lift (planned_map bytes descriptor_size heap_span claimed);
  r ← lift ((plan_hypervisor_regions (plan_request heap_span h) map).2);
  publish_result heap_span claimed h r.

(** What the kernel does with the map: heap first, then the plan. *)
Definition boot_memory (bytes : list Z) (descriptor_size : Z) (h : BootHandoff) : M Windows Empty_set unit :=
  bring_up_memory_plan bytes descriptor_size (bring_up_heap (summarize_memory_map bytes descriptor_size)) h.

(** ** The firmware map *)

Lemma rmap_ok {A B} (f : A -> res Empty_set B) l ys : rmap f l = Ok ys -> Forall2 (fun x y => f x = Ok y) l ys.
Proof.
  revert ys. induction l as [|x l IH]; intros ys; cbn [rmap]; [intros [= <-]; constructor|].
  destruct (f x) as [y|e|] eqn:E; cbn [mbind res_bind]; [|done..]. destruct (rmap f l) as [zs|e|]; cbn [mbind res_bind]; [|done..].
  intros [= <-]. constructor; [done|]. by apply IH.
Qed.

(** Every descriptor with pages is a region of the map. *)
Lemma from_uefi_elem ds m d : from_uefi ds = Ok m -> d ∈ ds -> page_count d <> 0 ->
  mk_MemoryRegion (phys_start d) (page_count d * 4096) (memory_kind d) ∈ m /\ page_count d * 4096 < 2 ^ 64.
Proof.
  unfold from_uefi. intros E Hd Hp. destruct (rmap _ _) as [rs|e|] eqn:Er; cbn [mbind res_bind] in E; [|done..]. injection E as <-.
  apply rmap_ok in Er. assert (Hd' : d ∈ filter (fun d => page_count d <> 0) ds) by (by apply list_elem_of_filter).
  apply list_elem_of_lookup in Hd' as [i Hi]. destruct (Forall2_lookup_l _ _ _ _ _ Er Hi) as (r & Hr & Ef).
  unfold length_bytes, rmul in Ef. destruct (Z.ltb_spec (page_count d * 4096) (2 ^ 64)); cbn [mbind res_bind] in Ef; [|done]. injection Ef as <-.
  split; [|done]. unfold from_regions. rewrite sort_by_key_perm. by eapply list_elem_of_lookup_2.
Qed.

Definition size_sum (l : list MemoryRegion) : Z := foldr (fun r s => rsize r + s) 0 l.

Lemma sum_run l : forall s, Forall (fun r => 0 <= rsize r) l -> 0 <= s -> s + size_sum l < 2 ^ 64 ->
  foldl (fun acc r => s ← acc; radd s (rsize r)) (Ok s : res Empty_set Z) l = Ok (s + size_sum l).
Proof.
  induction l as [|r l IH]; intros s Hf Hs Hb; cbn [foldl]; [f_equal; cbn; lia|]. apply Forall_cons in Hf as [Hr Hf]. cbn [size_sum foldr] in *.
  fold (size_sum l) in *. assert (0 <= size_sum l) by (clear - Hf; induction Hf; cbn; [lia|]; unfold size_sum in *; lia).
  cbn [mbind res_bind]. unfold radd at 2. rewrite (proj2 (Z.ltb_lt _ _)) by lia. rewrite IH by (done || lia). f_equal. lia.
Qed.

(** Regions apart fit in the address space together. *)
Lemma ordered_sum hi lo m : ordered hi lo m -> lo <= hi -> 0 <= size_sum (usable m) <= hi - lo /\ Forall (fun r => 0 <= rsize r) (usable m).
Proof.
  revert lo. induction m as [|r m IH]; intros lo Ho Hlo; [cbn; split; [lia|constructor]|]. destruct Ho as (H1 & H2 & H3 & H4).
  destruct (IH _ H4 H3) as [[IHa IHb] IHc]. unfold usable in *. rewrite filter_cons. destruct (decide _); cbn [size_sum foldr].
  - fold (size_sum (filter (fun r => is_allocatable (rkind r) = true) m)). split; [lia|by constructor].
  - split; [lia|done].
Qed.

Lemma total_usable_ok hi m : hi < 2 ^ 64 -> 0 <= hi -> ordered hi 0 m -> total_usable m = Ok (size_sum (usable m)).
Proof. intros Hh H0 Ho. destruct (ordered_sum hi 0 m Ho H0) as [? Hf]. unfold total_usable. rewrite sum_run by (done || lia). f_equal. Qed.

(** ** The heap *)

Lemma largest_conventional ds : forall s,
  let s' := foldl summarize_one s ds in
  (largest_conventional_base s' = largest_conventional_base s /\ largest_conventional_bytes s' = largest_conventional_bytes s) \/
  exists d, d ∈ ds /\ d_kind d = 7 /\ page_count d <> 0 /\ largest_conventional_base s' = phys_start d /\
    largest_conventional_bytes s' = saturating_mul (page_count d) 4096.
Proof.
  induction ds as [|d ds IH]; intros s; [by left|]. cbn [foldl]. destruct (IH (summarize_one s d)) as [[E1 E2]|(x & Hx & H)].
  2: { right. exists x. split; [by right|done]. }
  cbv zeta. rewrite E1, E2. unfold summarize_one. destruct (_ || _) eqn:E; cbn [largest_conventional_base largest_conventional_bytes]; [by left|].
  destruct ((d_kind d =? 7) && _) eqn:Eb; [|by left]. right. exists d. apply andb_true_iff in Eb as [Ek%Z.eqb_eq _].
  apply orb_false_iff in E as [Ep%Z.eqb_neq _]. split_and!; [left|done..].
Qed.

(** The heap lies in usable memory of the firmware map. *)
Lemma heap_usable hi bytes dsz m b n :
  from_uefi (descriptors bytes dsz) = Ok m -> ordered hi 0 m -> bring_up_heap (summarize_memory_map bytes dsz) = Some (b, n) ->
  0 < n /\ 0 <= b /\ b + n <= hi /\ forall a, b <= a < b + n -> kind_at m a = Some Usable.
Proof.
  intros Em Ho. unfold bring_up_heap, summarize_memory_map.
  destruct (largest_conventional (descriptors bytes dsz) (mk_MemorySummary 0 0 0 0 0 0 0)) as [[_ E]|(d & Hd & Hk & Hp & Eb & Es)]; cbv zeta in *.
  { by rewrite E. }
  rewrite Eb, Es. destruct (from_uefi_elem _ _ d Em Hd Hp) as [Hr Hov]. pose proof (ordered_elem hi 0 m _ Ho Hr) as (H1 & H2 & H3). cbn in H1, H2, H3.
  unfold boot_heap_size, saturating_mul. rewrite Z.min_l by lia.
  destruct (Z.ltb_spec (page_count d * 4096) (1024 * 1024)) as [|Hmin]; [done|].
  set (size := if _ <? page_count d * 4096 then _ else _). assert (Hsz : 0 < size <= page_count d * 4096) by (unfold size; case_match; lia).
  rewrite (proj2 (Z.eqb_neq _ _)) by lia. intros [= <- <-]. split_and!; [lia..|]. intros a Ha. rewrite (kind_at_elem hi 0 m _ a Ho Hr).
  - cbn. unfold memory_kind. by rewrite Hk.
  - destruct (covers_spec a (mk_MemoryRegion (phys_start d) (page_count d * 4096) (memory_kind d))) as [|Hc]; [done|]. cbn in Hc. lia.
Qed.

Lemma heap_min s b n : bring_up_heap s = Some (b, n) -> BOOT_HEAP_MIN_BYTES <= n.
Proof.
  unfold bring_up_heap, boot_heap_size. destruct (Z.ltb_spec (largest_conventional_bytes s) BOOT_HEAP_MIN_BYTES); [done|].
  destruct (Z.ltb_spec BOOT_HEAP_MAX_BYTES (largest_conventional_bytes s)); case_match; try done; intros E; injection E as _ <-; [done|lia].
Qed.

(** ** Reservations before the plan *)

(** [m'] is [m] after usable addresses, all of them in [P] among others, were
    reserved. *)
Definition withheld (hi : Z) (m : MemoryMap) (P : Z -> Prop) (m' : MemoryMap) : Prop :=
  ordered hi 0 m' /\
  (forall a, kind_at m' a = kind_at m a \/ (kind_at m a = Some Usable /\ kind_at m' a = Some Reserved)) /\
  forall a, P a -> kind_at m' a <> Some Usable.

Lemma withheld_trans hi m P m1 Q m2 : withheld hi m P m1 -> withheld hi m1 Q m2 -> withheld hi m (fun a => P a \/ Q a) m2.
Proof.
  intros (_ & H1 & P1) (Ho & H2 & P2). split; [done|]. split.
  - intros a. destruct (H1 a) as [E|[E E']], (H2 a) as [F|[F F']]; rewrite ?E in *; try congruence; auto; right; split; congruence.
  - intros a [Ha|Ha]; [|by apply P2]. specialize (P1 a Ha). destruct (H2 a) as [->|[_ ->]]; done.
Qed.

Lemma reserve_withholds hi b n m : hi < 2 ^ 64 -> 0 <= n -> b + n < 2 ^ 64 -> ordered hi 0 m ->
  exists m' r, reserve_span b n m = (m', Ok r) /\ withheld hi m (fun a => b <= a < b + n) m'.
Proof.
  intros Hh Hn Hb Ho. destruct (reserve_span_ok hi Hh b n m Hn Ho) as (m' & r & E & Ho' & H0 & H1). exists m', r. split; [done|].
  destruct (Z.eq_dec n 0) as [->|Hnz].
  { destruct (H0 (or_introl eq_refl)) as [-> _]. split; [done|]. split; [by left|]. lia. }
  destruct (H1 ltac:(lia) Hb) as [_ Hk]. split; [done|]. unfold reserve_kind in Hk. split.
  - intros a. rewrite Hk. case_match eqn:E'; [|by left]. right. apply andb_true_iff in E' as [_ ->%bool_decide_eq_true]. done.
  - intros a Ha. rewrite Hk. case_match eqn:E'; [done|]. intros Hu. rewrite Hu, bool_decide_true, andb_true_r in E' by done. lia.
Qed.

Definition in_spans (l : list (Z * Z)) (a : Z) : Prop := Exists (fun be => be.1 <= a < be.2) l.

Lemma claimed_withheld hi l : forall m, hi < 2 ^ 64 -> Forall (fun be => be.1 < be.2 < 2 ^ 64) l -> ordered hi 0 m ->
  exists m', reserve_claimed l m = (m', Ok tt) /\ withheld hi m (in_spans l) m'.
Proof.
  unfold reserve_claimed. induction l as [|[b e] l IH]; intros m Hh Hl Ho; cbn [mfor].
  { exists m. split; [done|]. split; [done|]. split; [by left|]. intros a Ha. inversion Ha. }
  apply Forall_cons in Hl as [Hbe Hl]. cbn [fst snd] in *. unfold saturating_sub. rewrite Z.max_r by lia.
  destruct (reserve_withholds hi b (e - b) m Hh ltac:(lia) ltac:(lia) Ho) as (m1 & r & E1 & W1). destruct (IH m1 Hh Hl (proj1 W1)) as (m2 & E2 & W2).
  exists m2. split.
  - rewrite (bind_run _ _ m m1 tt); [exact E2|]. by rewrite (bind_run _ _ _ _ _ E1).
  - destruct (withheld_trans _ _ _ _ _ _ W1 W2) as (H1 & H2 & H3). split; [done|]. split; [done|]. intros a Ha. apply H3.
    apply Exists_cons in Ha as [Ha|Ha]; [left; cbn in Ha; lia|by right].
Qed.

Definition in_heap (hs : option (Z * Z)) (a : Z) : Prop := match hs with Some (b, n) => b <= a < b + n | None => False end.

Lemma planned_map_ok hi bytes dsz hs claimed m :
  hi < 2 ^ 64 -> 0 <= hi -> from_uefi (descriptors bytes dsz) = Ok m -> ordered hi 0 m ->
  (forall b n, hs = Some (b, n) -> 0 <= n /\ b + n < 2 ^ 64) -> Forall (fun be => be.1 < be.2 < 2 ^ 64) claimed ->
  exists m', planned_map bytes dsz hs claimed = Ok m' /\ withheld hi m (fun a => in_heap hs a \/ in_spans claimed a) m'.
Proof.
  intros Hh H0 Em Ho Hhs Hc. unfold planned_map. rewrite Em. cbn [mbind res_bind]. rewrite (total_usable_ok hi) by done. cbn [mbind res_bind].
  assert (H1 : exists m1, reserve_heap hs m = (m1, Ok tt) /\ withheld hi m (in_heap hs) m1).
  { unfold reserve_heap. destruct hs as [[b n]|].
    - destruct (Hhs b n eq_refl) as [Hn Hb]. destruct (reserve_withholds hi b n m Hh Hn Hb Ho) as (m1 & r & E1 & W1). exists m1. split; [|done].
      rewrite (bind_run _ _ _ _ _ E1). unfold radd. by rewrite (proj2 (Z.ltb_lt _ _)).
    - exists m. split; [done|]. split; [done|]. split; [by left|done]. }
  destruct H1 as (m1 & E1 & W1). destruct (claimed_withheld hi claimed m1 Hh Hc (proj1 W1)) as (m2 & E2 & W2).
  exists m2. rewrite (bind_run _ _ _ _ _ E1), E2. split; [done|]. by eapply withheld_trans.
Qed.

(** ** The plan clears what was reserved *)

Lemma clears_ok spans r : 0 < rsize r -> rbase r + rsize r < 2 ^ 64 -> Forall (fun be => be.1 < be.2) spans ->
  (forall a, covers a r = true -> ~ in_spans spans a) -> clears spans r = true.
Proof.
  intros Hr Hb Hs Hd. unfold clears, saturating_add. rewrite Z.min_l by lia. apply forallb_forall. intros [sb se] Hin%list_elem_of_In. cbn [fst snd].
  rewrite Forall_forall in Hs. specialize (Hs _ Hin). cbn in Hs. apply orb_true_iff. rewrite !Z.leb_le.
  destruct (Z.le_gt_cases (rbase r + rsize r) sb) as [|H1]; [by left|]. destruct (Z.le_gt_cases se (rbase r)) as [|H2]; [by right|].
  exfalso. apply (Hd (Z.max (rbase r) sb)).
  - destruct (covers_spec (Z.max (rbase r) sb) r) as [|Hn]; [done|]. lia.
  - apply Exists_exists. exists (sb, se). split; [done|]. cbn. lia.
Qed.

Definition in_window (a : Z) (w : RamWindow) : Prop := wnext w <= a < wend w.

Lemma in_published a r w : 0 <= rbase r -> rbase r + rsize r < 2 ^ 64 -> in_window a (publish (rbase r) (rsize r) w) <-> covers a r = true.
Proof. intros H0 H1. unfold in_window, publish, saturating_add. cbn. rewrite Z.min_l by lia. by destruct (covers_spec a r). Qed.

Lemma in_new a : ~ in_window a RamWindow_new.
Proof. unfold in_window. cbn. lia. Qed.

Abbreviation no_windows := (mk_Windows RamWindow_new RamWindow_new).

Section Boot.
Variables (hi dsz : Z) (bytes : list Z) (h : BootHandoff) (m0 : MemoryMap) (claimed : list (Z * Z)).
(** The firmware's map describes disjoint memory up to [hi], with room for an
    alignment above it. *)
Hypothesis map_read : from_uefi (descriptors bytes dsz) = Ok m0.
Hypothesis map_ordered : ordered hi 0 m0.
Hypothesis map_top : 0 <= hi /\ hi + 2 * MIB < 2 ^ 64.
(** The spans the firmware still owns are non-empty spans of it. *)
Hypothesis claims_read : claimed_spans bytes dsz h = Ok claimed.
Hypothesis claims_ok : Forall (fun be => be.1 < be.2 < 2 ^ 64) claimed.
Hypothesis os_ram_ok : match os_guest_ram h with Some n => 0 <= n | None => True end.

Abbreviation heap_span := (bring_up_heap (summarize_memory_map bytes dsz)).

(** What the plan's regions avoid. *)
Definition private (a : Z) : Prop := kind_at m0 a = Some Usable /\ ~ in_heap heap_span a /\ ~ in_spans claimed a.

Lemma guest_regions m1 m2 rs :
  planned_map bytes dsz heap_span claimed = Ok m1 -> plan_hypervisor_regions (plan_request heap_span h) m1 = (m2, Ok (Some rs)) ->
  withheld hi m0 (fun a => in_heap heap_span a \/ in_spans claimed a) m1 ->
  pairwise (dma rs :: heap rs :: guest_ram rs) /\ Forall2 (cut (2 * MIB)) (guest_ram_sizes (plan_request heap_span h)) (guest_ram rs) /\
  heap_spec (2 * MIB) (plan_request heap_span h) (heap rs) /\ cut (2 * MIB) (2 * MIB) (dma rs) /\
  forall r, r ∈ dma rs :: guest_ram rs -> forall a, covers a r = true -> private a.
Proof.
  intros E1 E2 (Ho & Hk & Hp). destruct map_top as [H0 Ht].
  assert (Hheap : forall b n, heap_span = Some (b, n) -> 0 < n /\ forall a, b <= a < b + n -> kind_at m1 a = Some Reserved).
  { intros b n E. destruct (heap_usable hi bytes dsz m0 b n map_read map_ordered E) as (Hn & _ & _ & Hu). split; [done|]. intros a Ha.
    destruct (Hk a) as [E'|[_ E']]; [|done]. exfalso. apply (Hp a); [left; by rewrite E|]. rewrite E'. by apply Hu. }
  destruct (plan_ok hi ltac:(lia) (2 * MIB) eq_refl ltac:(lia) (plan_request heap_span h) m1) as (m2' & o & E & H); [done|done| | |done| |].
  - cbn. destruct heap_span as [[b n]|] eqn:E; [|done]. destruct (Hheap b n eq_refl). lia.
  - cbn. destruct (os_guest_ram h); by repeat constructor.
  - intros b n a E Ha. cbn in E. by eapply Hheap.
  - rewrite E2 in E. injection E as <- <-. destruct H as ((_ & _ & Hu & _) & Hpw & Cd & _ & Hs & Cg). split_and!; [done..|].
    intros r Hr a Hc. assert (Hu1 : kind_at m1 a = Some Usable).
    { apply (Hu r a); [|done]. unfold taken. apply elem_of_cons in Hr as [->|Hr]; [left|right]. apply elem_of_app. by right. }
    assert (Hnp : ~ (in_heap heap_span a \/ in_spans claimed a)) by (intros Hin; by apply (Hp a Hin)).
    split; [|tauto]. destruct (Hk a) as [E'|[_ E']]; congruence.
Qed.

(** The kernel's own check of the plan never fails. *)
Lemma plan_clear_ok b n rs :
  heap_span = Some (b, n) -> heap_spec (2 * MIB) (plan_request heap_span h) (heap rs) ->
  (forall r, r ∈ dma rs :: guest_ram rs -> 0 < rsize r /\ rbase r + rsize r < 2 ^ 64) ->
  (forall r, r ∈ dma rs :: guest_ram rs -> forall a, covers a r = true -> private a) ->
  plan_clear b n claimed rs = true.
Proof.
  intros Eh Hs Hsz Hpr. destruct (heap_usable hi bytes dsz m0 b n map_read map_ordered Eh) as (Hn & Hb & Hbn & _). destruct map_top as [H0 Ht].
  rewrite Eh in Hs. cbn in Hs. destruct Hs as [Eheap _]. unfold plan_clear. rewrite Eheap. cbn [rbase rsize]. rewrite !Z.eqb_refl. cbn [andb].
  assert (Hc : forall r, r ∈ dma rs :: guest_ram rs -> clears ((b, saturating_add b n) :: claimed) r = true).
  { intros r Hr. destruct (Hsz r Hr) as [H1 H2]. assert (Es : saturating_add b n = b + n) by (unfold saturating_add; lia).
    rewrite Es. apply clears_ok; [done..| |].
    - constructor; [cbn; lia|]. eapply Forall_impl; [exact claims_ok|]. cbn. lia.
    - intros a Hca Hin. destruct (Hpr r Hr a Hca) as (_ & Hnh & Hns). apply Exists_cons in Hin as [Hin|Hin]; [|done].
      apply Hnh. rewrite Eh. exact Hin. }
  rewrite Hc by left. cbn [andb]. apply forallb_forall. intros r Hr%list_elem_of_In. apply Hc. by right.
Qed.

Lemma cut_bounds r n : cut (2 * MIB) n r -> (forall a, covers a r = true -> private a) -> 0 < rsize r /\ 0 <= rbase r /\ rbase r + rsize r <= hi.
Proof.
  intros (H1 & H2 & H3 & _) Hp. split_and!; [lia..|]. destruct (Hp (rbase r + rsize r - 1)) as (Hk & _).
  { destruct (covers_spec (rbase r + rsize r - 1) r); [done|lia]. }
  apply kind_at_Some in Hk as (x & Hx & Hc & _). pose proof (ordered_elem hi 0 m0 x map_ordered Hx).
  destruct (covers_spec (rbase r + rsize r - 1) x); [lia|done].
Qed.

(** The windows after a successful plan are the carved guest regions. *)
Lemma publish_plan_ok b n rs w :
  plan_clear b n claimed rs = true -> Forall2 (cut (2 * MIB)) (guest_ram_sizes (plan_request (Some (b, n)) h)) (guest_ram rs) ->
  exists g0, guest_ram rs !! 0%nat = Some g0 /\ rsize g0 = 16 * MIB /\
    WINDOW (publish_plan (Some (b, n)) claimed h rs w) = publish (rbase g0) (rsize g0) (WINDOW w) /\
    ((os_guest_ram h = None /\ LINUX (publish_plan (Some (b, n)) claimed h rs w) = LINUX w) \/
     exists g1, guest_ram rs !! 1%nat = Some g1 /\ os_guest_ram h = Some (rsize g1) /\
       LINUX (publish_plan (Some (b, n)) claimed h rs w) = publish (rbase g1) (rsize g1) (LINUX w)).
Proof.
  intros Hc Hg. unfold publish_plan. rewrite Hc. cbn in Hg. destruct (os_guest_ram h) as [k|].
  - inversion Hg as [|? g0 ? l C0 Hl E1 E2]; subst. inversion Hl as [|? g1 ? l' C1 Hl' E1 E3]; subst. exists g0.
    destruct C0 as (_ & _ & S0 & _), C1 as (_ & _ & S1 & _). split_and!; [done..|]. right. exists g1. split_and!; [done|by rewrite S1|done].
  - inversion Hg as [|? g0 ? l C0 Hl E1 E2]; subst. inversion Hl; subst. exists g0. destruct C0 as (_ & _ & S0 & _). split_and!; [done..|]. by left.
Qed.

(** What holds of the windows. *)
Definition windows_ok (w : Windows) : Prop :=
  (forall a, in_window a (WINDOW w) \/ in_window a (LINUX w) -> private a) /\
  (forall a, in_window a (WINDOW w) -> in_window a (LINUX w) -> False).

Lemma no_windows_ok : windows_ok no_windows.
Proof. split; [intros a [Ha|Ha]|intros a Ha]; by apply in_new in Ha. Qed.

Lemma region_bounds m1 m2 rs :
  planned_map bytes dsz heap_span claimed = Ok m1 -> plan_hypervisor_regions (plan_request heap_span h) m1 = (m2, Ok (Some rs)) ->
  withheld hi m0 (fun a => in_heap heap_span a \/ in_spans claimed a) m1 ->
  forall r, r ∈ dma rs :: guest_ram rs -> 0 < rsize r /\ 0 <= rbase r /\ rbase r + rsize r <= hi.
Proof.
  intros E1 E2 W1. destruct (guest_regions m1 m2 rs E1 E2 W1) as (_ & Hg & _ & Hd & Hpr).
  intros r Hr. apply elem_of_cons in Hr as [->|Hr]; [by apply (cut_bounds _ (2 * MIB)); [|apply Hpr; left]|].
  apply list_elem_of_lookup in Hr as [i Hi]. destruct (Forall2_lookup_r _ _ _ _ _ Hg Hi) as (k & _ & Hk).
  apply (cut_bounds r k Hk). apply Hpr. right. by eapply list_elem_of_lookup_2.
Qed.

(** A plan that fits is published. *)
Lemma published_ok m1 m2 rs b n :
  planned_map bytes dsz heap_span claimed = Ok m1 -> plan_hypervisor_regions (plan_request heap_span h) m1 = (m2, Ok (Some rs)) ->
  withheld hi m0 (fun a => in_heap heap_span a \/ in_spans claimed a) m1 -> heap_span = Some (b, n) ->
  windows_ok (publish_plan heap_span claimed h rs no_windows) /\
  remaining (WINDOW (publish_plan heap_span claimed h rs no_windows)) = 16 * MIB.
Proof.
  intros E1 E2 W1 Eh. destruct (guest_regions m1 m2 rs E1 E2 W1) as (Hpw & Hg & Hs & Hd & Hpr). pose proof (region_bounds m1 m2 rs E1 E2 W1) as Hsz.
  destruct map_top as [H0 Ht]. rewrite Eh in Hg |-*.
  destruct (publish_plan_ok b n rs no_windows) as (g0 & L0 & S0 & EW & HL); [|done|].
  { apply plan_clear_ok; [done..| |done]. intros r Hr. specialize (Hsz r Hr). lia. }
  assert (Hin : forall i g, guest_ram rs !! i = Some g -> 0 < rsize g /\ 0 <= rbase g /\ (forall a, covers a g = true -> private a) /\
    rbase g + rsize g < 2 ^ 64 /\ forall a w, in_window a (publish (rbase g) (rsize g) w) <-> covers a g = true).
  { intros i g Hi. assert (M : g ∈ dma rs :: guest_ram rs) by (right; by eapply list_elem_of_lookup_2). destruct (Hsz g M) as (? & ? & ?).
    split_and!; [done..|by apply Hpr|lia|]. intros. apply in_published; lia. }
  destruct (Hin _ _ L0) as (_ & B0 & P0 & T0 & I0). unfold windows_ok. rewrite EW. split.
  2: { unfold remaining, publish, saturating_sub, saturating_add in *. cbn. lia. }
  destruct HL as [[_ ->]|(g1 & L1 & _ & ->)]; cbn [WINDOW LINUX].
  - split; [intros a [Ha|Ha]; [apply I0 in Ha; by apply P0|by apply in_new in Ha]|intros a _ Ha; by apply in_new in Ha].
  - destruct (Hin _ _ L1) as (_ & _ & P1 & _ & I1). split; [intros a [Ha%I0|Ha%I1]; auto|].
    intros a Ha%I0 Hb%I1. destruct (guest_ram rs) as [|x [|y l]]; [done..|]. cbn in L0, L1, Hpw. simplify_eq.
    destruct Hpw as (_ & _ & Hx & _). apply Forall_inv in Hx. by apply (Hx a).
Qed.

Lemma boot_memory_ok :
  exists w, boot_memory bytes dsz h no_windows = (w, Ok tt) /\ windows_ok w /\
    (forall m1 m2 rs, heap_span <> None -> planned_map bytes dsz heap_span claimed = Ok m1 ->
      plan_hypervisor_regions (plan_request heap_span h) m1 = (m2, Ok (Some rs)) -> remaining (WINDOW w) = 16 * MIB).
Proof.
  destruct map_top as [H0 Ht]. destruct (planned_map_ok hi bytes dsz heap_span claimed m0) as (m1 & E1 & W1); [lia|done..| |done|].
  { intros b n E. destruct (heap_usable hi bytes dsz m0 b n map_read map_ordered E) as (? & ? & ? & _). lia. }
  unfold boot_memory, bring_up_memory_plan. rewrite (bind_run _ _ _ _ _ (lift_run _ _ _ claims_read)), (bind_run _ _ _ _ _ (lift_run _ _ _ E1)).
  assert (Hpl : exists m2 o, plan_hypervisor_regions (plan_request heap_span h) m1 = (m2, Ok o)).
  { unfold plan_hypervisor_regions. destruct (plan_trial_ok hi ltac:(lia) (2 * MIB) eq_refl ltac:(lia) (plan_request heap_span h) m1) as (m2 & o & -> & _);
      [done|done|cbn|cbn; destruct (os_guest_ram h); by repeat constructor|apply W1|destruct o; eauto].
    destruct heap_span as [[b n]|] eqn:E; [|done]. destruct (heap_usable hi bytes dsz m0 b n map_read map_ordered E). lia. }
  destruct Hpl as (m2 & o & E2). rewrite (bind_run _ _ _ _ _ (lift_run _ _ o (f_equal snd E2))). unfold publish_result.
  eexists. split; [done|]. destruct o as [rs|].
  2: { split; [apply no_windows_ok|]. intros m1' m2' rs _ E1' E2'. congruence. }
  destruct heap_span as [[b n]|] eqn:Eh; [|by split; [apply no_windows_ok|]]. rewrite <- Eh in *.
  destruct (published_ok m1 m2 rs b n E1 E2 W1 Eh) as [Hw Hr]. split; [done|]. by intros.
Qed.
End Boot.

(** ** Taking guest RAM *)

Definition req_size (req : Z * Z) : Z := Z.max 0 req.1.

(** The aligned address from [cur] on that the loop proposes. *)
Definition take_base (align cur : Z) : Z := align * ((cur + (align - 1)) / align).

Lemma take_base_spec align cur : 0 < align ->
  take_base align cur mod align = 0 /\ cur <= take_base align cur < cur + align /\
  forall t, cur <= t -> t mod align = 0 -> take_base align cur <= t.
Proof.
  intros H0. unfold take_base. pose proof (Z.div_mod (cur + (align - 1)) align ltac:(lia)).
  pose proof (Z.mod_pos_bound (cur + (align - 1)) align H0). split_and!; [by rewrite Z.mul_comm, Z.mod_mul by lia|lia|lia|].
  intros t Hc Hm. apply Z.mod_divide in Hm as [q ->]; [|lia]. rewrite Z.mul_comm. apply Z.mul_le_mono_nonneg_r; [lia|].
  apply Z.lt_succ_r, Z.div_lt_upper_bound; lia.
Qed.

Lemma take_base_mono align v w : 0 < align -> v <= w -> take_base align v <= take_base align w.
Proof. intros H0 Hv. unfold take_base. apply Z.mul_le_mono_nonneg_l; [lia|]. apply Z.div_le_mono; lia. Qed.

Lemma take_propose_eq end_ size align cur : take_propose end_ (size, align) cur = Ok (
  if negb (end_ =? 0) && (0 <? size) && is_power_of_two align && (cur + (align - 1) <? 2 ^ 64) &&
     (take_base align cur + size <? 2 ^ 64) && (take_base align cur + size <=? end_)
  then Some (take_base align cur, take_base align cur + size) else None).
Proof.
  unfold take_propose, checked_add. rewrite (Z.leb_antisym 0 size), Z.leb_antisym. destruct (end_ =? 0); [done|].
  destruct (Z.ltb_spec 0 size); [|done]. destruct (is_power_of_two align) eqn:Hp; [|done]. cbn [orb negb andb].
  destruct (cur + (align - 1) <? 2 ^ 64); [|done]. destruct (power_of_two_spec align Hp) as (k & Hk & ->).
  rewrite ldiff_pow2 by done. fold (take_base (2 ^ k) cur). cbn [andb]. destruct (_ + size <? 2 ^ 64); [|done].
  by destruct (end_ <? _).
Qed.

Lemma take_grants end_ r cur b n : take_propose end_ r cur = Ok (Some (b, n)) ->
  cur <= b /\ b mod r.2 = 0 /\ n = b + r.1 /\ 0 < r.1 /\ n <= end_.
Proof.
  destruct r as [size align]. rewrite take_propose_eq. destruct (_ && _) eqn:E; [|done]. intros [= <- <-].
  breflect. destruct (power_of_two_spec align) as (k & Hk & Ea); [done|].
  destruct (take_base_spec align cur) as (Hm & Hb & _); [lia|]. cbn. split_and!; first [done|lia].
Qed.

Lemma take_refuses end_ r v w : v <= w -> take_propose end_ r v = Ok None -> take_propose end_ r w = Ok None.
Proof.
  destruct r as [size align]. intros Hv. rewrite !take_propose_eq. destruct (_ && _) eqn:E; [done|]. intros _.
  destruct (negb (end_ =? 0) && (0 <? size) && is_power_of_two align) eqn:Eg; [|done]. cbn [andb] in *.
  apply andb_true_iff in Eg as [_ Hp]. destruct (power_of_two_spec align Hp) as (k & Hk & Ea).
  pose proof (take_base_mono align v w ltac:(lia) Hv). revert E. zcases; cbn; first [done|lia].
Qed.

Lemma pow2_is_power e : 0 <= e -> is_power_of_two (2 ^ e) = true.
Proof.
  intros He. unfold is_power_of_two. assert (0 < 2 ^ e) by (apply Z.pow_pos_nonneg; lia). rewrite (proj2 (Z.ltb_lt 0 (2 ^ e))) by done.
  replace (2 ^ e - 1) with (Z.ones e) by (rewrite Z.ones_equiv; lia). by rewrite Z.land_ones, Z.mod_same by lia.
Qed.

Lemma pow2_of_power a : is_power_of_two a = true -> (exists e, 0 <= e < 64 /\ a = 2 ^ e) \/ forall e, 0 <= e < 64 -> a <> 2 ^ e.
Proof.
  intros (k & Hk & ->)%power_of_two_spec. destruct (decide (k < 64)); [left; by exists k|right]. intros e He E. apply Z.pow_inj_r in E; lia.
Qed.

(** Rounding up over the end of the address space: no aligned address is left. *)
Lemma pow2_round_over e v b : 0 <= e < 64 -> 2 ^ 64 <= v + (2 ^ e - 1) -> v <= b -> b mod 2 ^ e = 0 -> 2 ^ 64 <= b.
Proof.
  intros He Hv Hb Hm. assert (0 < 2 ^ e) by (apply Z.pow_pos_nonneg; lia). apply Z.mod_divide in Hm as [q ->]; [|lia].
  replace (2 ^ 64) with (2 ^ (64 - e) * 2 ^ e) in * by (rewrite <- Z.pow_add_r by lia; f_equal; lia). apply Z.mul_le_mono_nonneg_r; [lia|]. nia.
Qed.

(** What a refusal means: the request is empty, or not aligned to a power of
    two, or no aligned slice lies in the rest of the window. *)
Lemma take_refused_spec end_ r v : 0 <= v -> end_ < 2 ^ 64 -> take_propose end_ r v = Ok None ->
  r.1 <= 0 \/ (forall e, 0 <= e < 64 -> r.2 <> 2 ^ e) \/ forall b, v <= b -> b mod r.2 = 0 -> end_ < b + r.1.
Proof.
  destruct r as [size align]. cbn [fst snd]. intros H0 Hend. rewrite take_propose_eq. destruct (_ && _) eqn:E; [done|]. intros _.
  destruct (Z.ltb_spec 0 size) as [Hs|]; [right|by left]. destruct (is_power_of_two align) eqn:Hp.
  2: { left. intros e He ->. by rewrite pow2_is_power in Hp by lia. }
  destruct (pow2_of_power align Hp) as [(e & He & ->)|]; [right|by left]. intros b Hb Hm. assert (Ha : 0 < 2 ^ e) by (apply Z.pow_pos_nonneg; lia).
  destruct (take_base_spec (2 ^ e) v Ha) as (_ & _ & Hleast). specialize (Hleast b Hb Hm). destruct (Z.ltb_spec (v + (2 ^ e - 1)) (2 ^ 64)) as [Hv|Hv].
  - revert E. zcases; cbn; first [done|lia].
  - pose proof (pow2_round_over e v b He Hv Hb Hm). lia.
Qed.

Lemma take_size_nonneg r : 0 <= req_size r.
Proof. unfold req_size. lia. Qed.

Lemma take_grows end_ r v b n : take_propose end_ r v = Ok (Some (b, n)) -> v <= b /\ b + req_size r <= n.
Proof. intros H%take_grants. unfold req_size. lia. Qed.

(** The guests' requests against a window, on any number of processors. *)
Abbreviation takes w := (cas_step (take_propose (wend w))).

(** What holds of the slices taken, in every interleaving. *)
Lemma taken_slices w rs s : rtc (takes w) (at_start (wnext w) rs) s ->
  (forall i r b, threads s !! i = Some (r, Done (Some b)) -> rs !! i = Some r /\ 0 < r.1 /\ b mod r.2 = 0 /\ wnext w <= b /\ b + r.1 <= wend w) /\
  (forall i j r b r' b', i <> j -> threads s !! i = Some (r, Done (Some b)) -> threads s !! j = Some (r', Done (Some b')) ->
     b + r.1 <= b' \/ b' + r'.1 <= b).
Proof.
  intros Hr. destruct (cas_reach_inv _ req_size take_size_nonneg (take_grows _) _ _ _ Hr) as [Hn Hi Ha _].
  pose proof (cas_proposed _ _ _ _ Hr) as Hp. pose proof (cas_reach_reqs _ _ _ _ Hr) as Hq.
  assert (Hg : forall i r b, threads s !! i = Some (r, Done (Some b)) -> 0 < r.1 /\ b mod r.2 = 0 /\ b + r.1 <= wend w /\ granted req_size s i b (b + r.1)).
  { intros i r b E. destruct (Forall_lookup_1 _ _ _ _ Hp E) as (v & v' & H%take_grants). cbn in H. split_and!; [lia..|].
    exists r. split; [done|]. unfold req_size. lia. }
  split.
  - intros i r b E. destruct (Hg i r b E) as (H1 & H2 & H3 & H4). destruct Hn as (v & En & _). destruct (Hi _ _ _ _ H4 En) as [H5 _].
    split_and!; [|done..]. rewrite <- Hq, list_lookup_fmap, E. done.
  - intros i j r b r' b' Hij E E'. apply (Ha i j b _ b'); [done|by apply Hg|by apply Hg].
Qed.

(** ** The start-up page *)

(** [p] is a page a start-up vector can reach in conventional memory. *)
Definition startup_page (ds : list UefiMemoryDescriptor) (p : Z) : Prop :=
  p mod 4096 = 0 /\ 0x1000 <= p /\ p + 4096 <= 0x100000 /\
  exists d, d ∈ ds /\ d_kind d = 7 /\ page_count d <> 0 /\ phys_start d <= p /\ p + 4096 <= phys_start d + page_count d * 4096.

(** Spans whose ends are 64-bit addresses. *)
Definition desc_ok (d : UefiMemoryDescriptor) : Prop :=
  0 <= phys_start d /\ 0 <= page_count d /\ phys_start d + page_count d * 4096 < 2 ^ 64.

Lemma trampoline_candidate_spec d : desc_ok d ->
  (forall p, trampoline_candidate d = Some p -> startup_page [d] p) /\
  (forall q, startup_page [d] q -> exists p, trampoline_candidate d = Some p /\ q <= p).
Proof.
  intros (H1 & H2 & H3). unfold trampoline_candidate, saturating_mul, saturating_add. rewrite !(Z.min_l _ (2 ^ 64 - 1)) by lia.
  set (e := Z.min (phys_start d + page_count d * 4096) 0x100000). change 4095 with (2 ^ 12 - 1). rewrite ldiff_pow2 by done.
  change (2 ^ 12) with 4096. set (p := 4096 * ((e - 4096) / 4096)).
  assert (Hp : p mod 4096 = 0) by (unfold p; by rewrite Z.mul_comm, Z.mod_mul). assert (p <= e - 4096 < p + 4096) by (unfold p; Z.to_euclidean_division_equations; lia).
  split.
  - intros q. destruct (Z.eqb_spec (page_count d) 0), (Z.eqb_spec (d_kind d) 7); cbn [orb negb]; try done.
    destruct (_ || _); [done|]. destruct (Z.leb_spec (Z.max (phys_start d) 0x1000) p); [|done]. intros [= <-].
    split_and!; [done|lia..|]. exists d. split_and!; [by left|done|done|lia..].
  - intros q (Hq & Hlo & Hhi & x & ->%list_elem_of_singleton & Hk & Hn & Hs & He).
    assert (q <= p) by (unfold p; Z.to_euclidean_division_equations; lia). exists p. split; [|done].
    rewrite (proj2 (Z.eqb_neq (page_count d) 0)), Hk by done. cbn [orb negb Z.eqb Pos.eqb].
    rewrite (proj2 (Z.leb_gt e _)), (proj2 (Z.ltb_ge (e - _) 4096)) by lia. cbn [orb]. by rewrite (proj2 (Z.leb_le _ p)) by lia.
Qed.

Lemma trampoline_fold ds : Forall desc_ok ds -> forall best,
  let r := foldl (fun best d => match trampoline_candidate d with
                                | Some page => Some (match best with Some b => Z.max b page | None => page end)
                                | None => best end) best ds in
  (forall p, r = Some p -> best = Some p \/ startup_page ds p) /\
  (forall q, best = Some q \/ startup_page ds q -> exists p, r = Some p /\ q <= p).
Proof.
  induction 1 as [|d ds Hd _ IH]; intros best; cbn [foldl].
  { split; [by left|]. intros q [H|(_ & _ & _ & x & Hx & _)]; [by exists q|by apply elem_of_nil in Hx]. }
  destruct (trampoline_candidate_spec d Hd) as [C1 C2]. set (best' := match trampoline_candidate d with Some _ => _ | None => _ end).
  destruct (IH best') as [I1 I2]. cbv zeta. split.
  - intros p Hp. destruct (I1 p Hp) as [Hb|(? & ? & ? & x & Hx & ?)]; [|right; split_and!; [done..|]; exists x; split; [by right|done]].
    unfold best' in Hb. destruct (trampoline_candidate d) as [c|] eqn:Ec; [|by left].
    assert (Hc : startup_page (d :: ds) c).
    { destruct (C1 c eq_refl) as (? & ? & ? & x & ->%list_elem_of_singleton & ?). split_and!; [done..|]. exists d. split; [by left|done]. }
    destruct best as [b|]; injection Hb as <-; [|by right]. destruct (Z.max_spec b c) as [[_ ->]|[_ ->]]; [by right|by left].
  - intros q Hq. assert (Hb : (exists p, best' = Some p /\ q <= p) \/ startup_page ds q).
    { unfold best'. destruct Hq as [->|(? & ? & ? & x & [->|Hx]%elem_of_cons & ?)].
      - left. destruct (trampoline_candidate d) as [c|]; eexists; split; [done|lia|done|lia].
      - left. destruct (C2 q) as (p & -> & Hp); [split_and!; [done..|]; exists d; split; [by left|done]|].
        destruct best as [b|]; eexists; split; [done|lia|done|lia].
      - right. split_and!; [done..|]. by exists x. }
    destruct Hb as [(p & Ep & Hp)|Hs]; [|by apply I2; right]. destruct (I2 p) as (p' & E & ?); [by left|]. exists p'. split; [done|lia].
Qed.

(** ** Theorems *)

(** What the firmware is relied on for: its map can be read and describes
    disjoint memory that ends at [hi], and the spans it still owns are spans
    of 64-bit addresses. *)
Record firmware_ok (hi dsz : Z) (bytes : list Z) (h : BootHandoff) (m0 : MemoryMap) (claimed : list (Z * Z)) : Prop := {
  fw_map : from_uefi (descriptors bytes dsz) = Ok m0;
  fw_ordered : ordered hi 0 m0;
  fw_top : 0 <= hi <= 2 ^ 52;
  fw_claims : claimed_spans bytes dsz h = Ok claimed;
  fw_spans : Forall (fun be => be.1 < be.2 < 2 ^ 64) claimed;
  fw_os_ram : match os_guest_ram h with Some n => 0 <= n | None => True end;
}.

(** What the firmware still owns when the kernel starts: the buffer of the
    memory map, loader and boot-services memory (the kernel's image and stack),
    and the framebuffer. *)
Definition firmware_owned (ds : list UefiMemoryDescriptor) (h : BootHandoff) (a : Z) : Prop :=
  (memory_map_base h <> 0 /\ memory_map_base h <= a < memory_map_base h + memory_map_len h) \/
  (exists d, d ∈ ds /\ d_kind d ∈ [1; 2; 3; 4] /\ phys_start d <= a < phys_start d + page_count d * 4096) \/
  (exists fb, framebuffer h = Some fb /\ fb_base fb <= a < fb_base fb + stride fb * height fb * bytes_per_pixel fb).

Lemma image_cover dsz bytes m0 d a : from_uefi (descriptors bytes dsz) = Ok m0 -> d ∈ descriptors bytes dsz -> d_kind d ∈ [1; 2; 3; 4] ->
  phys_start d <= a < phys_start d + page_count d * 4096 -> a < 2 ^ 64 - 1 -> in_spans (firmware_claimed_spans bytes dsz) a.
Proof.
  intros Em Hd Hk Ha Hb. assert (Hp : page_count d <> 0) by lia. destruct (from_uefi_elem _ _ d Em Hd Hp) as [_ Hov].
  apply Exists_exists. exists (phys_start d, saturating_add (phys_start d) (saturating_mul (page_count d) 4096)). split.
  - unfold firmware_claimed_spans. apply list_elem_of_omap. exists d. split; [done|]. rewrite (proj2 (Z.eqb_neq _ _) Hp), bool_decide_eq_true_2 by done. cbn [orb negb].
    rewrite (proj2 (Z.eqb_neq (saturating_mul _ _) 0)); [done|]. unfold saturating_mul. lia.
  - cbn [fst snd]. unfold saturating_add, saturating_mul. lia.
Qed.

Lemma size_bytes_inv fb n : size_bytes fb = Ok n -> n = stride fb * height fb * bytes_per_pixel fb.
Proof. unfold size_bytes, rmul. destruct (_ <? _); cbn [mbind res_bind]; [|done]. destruct (_ <? _); [|done]. by intros [= <-]. Qed.

(** The claimed spans are everything the firmware owns. *)
Lemma claims_cover hi dsz bytes h m0 claimed a : firmware_ok hi dsz bytes h m0 claimed -> kind_at m0 a = Some Usable ->
  firmware_owned (descriptors bytes dsz) h a -> in_spans claimed a.
Proof.
  intros [Em Ho Ht Ec _ _] Hk Hf. apply kind_at_Some in Hk as (x & Hx & Hc & _). pose proof (ordered_elem hi 0 m0 x Ho Hx) as Hxb.
  assert (Ha : a < 2 ^ 64 - 1) by (destruct (covers_spec a x); [lia|done]). clear Hx Hc Hxb.
  unfold claimed_spans in Ec. set (buf := if negb (memory_map_base h =? 0) && _ then _ else _) in Ec. set (image := firmware_claimed_spans bytes dsz) in Ec.
  assert (Hin : forall rest, in_spans buf a \/ in_spans image a \/ in_spans rest a -> in_spans (buf ++ image ++ rest) a).
  { intros rest. unfold in_spans. rewrite !Exists_app. tauto. }
  assert (Hcl : exists rest, claimed = buf ++ image ++ rest /\ (forall fb n, framebuffer h = Some fb -> size_bytes fb = Ok n -> n <> 0 ->
    rest = [(fb_base fb, saturating_add (fb_base fb) n)]) /\ (forall fb, framebuffer h = Some fb -> exists n, size_bytes fb = Ok n)).
  { destruct (framebuffer h) as [fb|]; [|injection Ec as <-; exists []; rewrite app_nil_r; split_and!; done].
    destruct (size_bytes fb) as [n|e|] eqn:Es; cbn [mbind res_bind] in Ec; [|done..]. injection Ec as <-. eexists. split_and!; [done| |].
    - intros fb' n' [= <-] E Hn. rewrite Es in E. injection E as <-. by rewrite (proj2 (Z.eqb_neq n 0) Hn).
    - intros fb' [= <-]. by exists n. }
  destruct Hcl as (rest & -> & Hrest & Hsz). apply Hin. destruct Hf as [[Hb Hr]|[(d & Hd & Hk & Hr)|(fb & Efb & Hr)]].
  - left. unfold buf. rewrite (proj2 (Z.eqb_neq _ _) Hb), (proj2 (Z.eqb_neq (memory_map_len h) 0)) by lia. cbn [negb andb]. apply Exists_cons. left. cbn [fst snd]. unfold saturating_add. lia.
  - right. left. by apply (image_cover dsz bytes m0 d).
  - right. right. destruct (Hsz fb Efb) as [n En]. pose proof (size_bytes_inv fb n En) as Hn. rewrite (Hrest fb n Efb En) by lia. apply Exists_cons. left. cbn [fst snd]. unfold saturating_add. lia.
Qed.

(** C6: The kernel's memory bring-up never panics.  Every address of the two
    guest-RAM windows is usable memory of the firmware's map, outside the heap
    and outside everything the firmware still owns, and the windows do not
    meet.  When there is a heap and the plan fits, the proof guests' window is
    published with its 16 MiB: the kernel's own check of the plan does not
    refuse it. *)
Theorem boot_windows_isolated hi dsz bytes h m0 claimed : firmware_ok hi dsz bytes h m0 claimed ->
  exists w, boot_memory bytes dsz h no_windows = (w, Ok tt) /\
    (forall a, in_window a (WINDOW w) \/ in_window a (LINUX w) ->
       kind_at m0 a = Some Usable /\ ~ in_heap (bring_up_heap (summarize_memory_map bytes dsz)) a /\ ~ firmware_owned (descriptors bytes dsz) h a) /\
    (forall a, in_window a (WINDOW w) -> ~ in_window a (LINUX w)) /\
    (forall m1 m2 rs, bring_up_heap (summarize_memory_map bytes dsz) <> None ->
       planned_map bytes dsz (bring_up_heap (summarize_memory_map bytes dsz)) claimed = Ok m1 ->
       plan_hypervisor_regions (plan_request (bring_up_heap (summarize_memory_map bytes dsz)) h) m1 = (m2, Ok (Some rs)) ->
       remaining (WINDOW w) = 16 * MIB).
Proof.
  intros Hf. pose proof Hf as [H1 H2 H3 H4 H5 H6]. destruct (boot_memory_ok hi dsz bytes h m0 claimed) as (w & E & [Hp Hd] & Hr); [done || lia..|].
  exists w. split_and!; [done| |intros a Ha Hb; by apply (Hd a)|exact Hr]. intros a Ha. destruct (Hp a Ha) as (H7 & H8 & H9). split_and!; [done..|].
  intros Ho. apply H9. by apply (claims_cover hi dsz bytes h m0).
Qed.

(** C7: Requests for guest RAM against one window, on any number of processors
    and in any interleaving, stale loads and spurious failures of the exchange
    included: every slice granted has the size and alignment asked for and
    lies in the window, two slices never meet, and no request panics.  A request
    that was refused asked for nothing, or for an alignment that is not a power
    of two, or fits no more: no aligned slice of its size lies between the
    window's counter and its end. *)
Theorem ram_take_concurrent w rs s : 0 <= wnext w -> wend w < 2 ^ 64 -> rtc (takes w) (at_start (wnext w) rs) s ->
  (forall i r b, threads s !! i = Some (r, Done (Some b)) -> rs !! i = Some r /\ 0 < r.1 /\ b mod r.2 = 0 /\ wnext w <= b /\ b + r.1 <= wend w) /\
  (forall i j r b r' b', i <> j -> threads s !! i = Some (r, Done (Some b)) -> threads s !! j = Some (r', Done (Some b')) ->
     b + r.1 <= b' \/ b' + r'.1 <= b) /\
  (forall i r, threads s !! i = Some (r, Done None) -> exists v, now s = Some v /\ wnext w <= v /\
     (r.1 <= 0 \/ (forall e, 0 <= e < 64 -> r.2 <> 2 ^ e) \/ forall b, v <= b -> b mod r.2 = 0 -> wend w < b + r.1)) /\
  (forall i r, threads s !! i <> Some (r, Panicked)).
Proof.
  intros H0 Hend Hr. destruct (taken_slices w rs s Hr) as [H1 H2]. split_and!; [done..| |].
  - intros i r E. destruct (cas_reach_inv _ req_size take_size_nonneg (take_grows _) _ _ _ Hr) as [(v & Hv & _ & Hge) _ _ _]. exists v. split; [done|]. split; [done|].
    apply take_refused_spec; [lia|done|]. by apply (cas_refusal _ req_size take_size_nonneg (take_grows _) _ _ _ (take_refuses _) Hr i r v E Hv).
  - intros i r E. pose proof (cas_proposed _ _ _ _ Hr) as Hp. destruct (Forall_lookup_1 _ _ _ _ Hp E) as (v & Hv). cbn in Hv.
    destruct r. by rewrite take_propose_eq in Hv.
Qed.

(** C34: Contended [take] loops end.  The exchange is the weak one: it may fail
    although the counter is as expected, and the value a failure returns may
    already be old; call such an exchange wasted.  Any run of the processors over
    [n] requests, in whatever schedule and with stale first loads, makes at most
    [(wend w - wnext w) * (n + 1) + 3 * n] steps and two more for each exchange
    that was wasted; and until every request has its answer some processor has a
    step that is not wasted.  So a run goes on forever only by wasting exchanges
    forever. *)
Theorem ram_take_terminates w rs k s : wnext w <= wend w -> nsteps (takes w) k (at_start (wnext w) rs) s ->
  (exists j, cas_runs (take_propose (wend w)) k j (at_start (wnext w) rs) s) /\
  (forall j, cas_runs (take_propose (wend w)) k j (at_start (wnext w) rs) s ->
     Z.of_nat k <= (wend w - wnext w) * (Z.of_nat (length rs) + 1) + 3 * Z.of_nat (length rs) + 2 * Z.of_nat j) /\
  ((exists s', useful (take_propose (wend w)) s s') \/ Forall (fun rt => exists o, rt.2 = Done o) (threads s)).
Proof.
  intros Hw Hs. split_and!.
  - by apply cas_runs_steps.
  - intros j Hj. apply (cas_terminates (take_propose (wend w)) (wend w) (wnext w) rs k j s); [|done..]. intros r v b n H%take_grants. lia.
  - assert (Hr : rtc (takes w) (at_start (wnext w) rs) s) by (apply rtc_nsteps; by exists k). pose proof (cas_proposed _ _ _ _ Hr) as Hp.
    destruct (cas_reach_inv _ req_size take_size_nonneg (take_grows _) _ _ _ Hr) as [(v & Hv & _) _ _ _].
    destruct (cas_quiescent (take_propose (wend w)) s) as [?|Hq]; [by eexists|intros r u e; by destruct e|by left|].
    right. apply Forall_forall. intros [r t] Hi. rewrite Forall_forall in Hq, Hp. destruct (Hq _ Hi) as [?|Ht]; [done|]. cbn in Ht. subst t.
    destruct (Hp _ Hi) as (u & Hu). cbn in Hu. destruct r. by rewrite take_propose_eq in Hu.
Qed.

(** The page the application processors start in is the highest page of
    conventional memory in [0x1000, 1 MiB) and there is none exactly when the
    map has no such page.  The kernel does not check the page against the heap;
    the two are apart on a machine whose last byte below 1 MiB, the end of the
    BIOS area, is not usable memory. *)
Theorem boot_trampoline_page hi dsz bytes h m0 claimed : Forall desc_ok (descriptors bytes dsz) -> firmware_ok hi dsz bytes h m0 claimed ->
  match find_ap_trampoline_page bytes dsz with
  | None => forall q, ~ startup_page (descriptors bytes dsz) q
  | Some p =>
      startup_page (descriptors bytes dsz) p /\ (forall q, startup_page (descriptors bytes dsz) q -> q <= p) /\
      (kind_at m0 0xFFFFF <> Some Usable -> forall a, p <= a < p + 4096 -> ~ in_heap (bring_up_heap (summarize_memory_map bytes dsz)) a)
  end.
Proof.
  intros Hd Hf. destruct (trampoline_fold _ Hd None) as [T1 T2]. unfold find_ap_trampoline_page. cbv zeta in T1, T2.
  destruct (foldl _ _ _) as [p|].
  2: { intros q Hq. destruct (T2 q) as (p & E & _); [by right|done]. }
  destruct (T1 p eq_refl) as [|Hp]; [done|]. split; [done|]. split.
  { intros q Hq. destruct (T2 q) as (p' & [= <-] & H); [by right|done]. }
  intros Hrom a Ha Hin. destruct Hf as [Hm Ho _ _ _ _]. destruct (bring_up_heap _) as [[b n]|] eqn:E; [|done].
  destruct (heap_usable _ _ _ _ _ _ Hm Ho E) as (_ & Hb & _ & Hu). apply heap_min in E.
  destruct Hp as (_ & _ & Hp & _). cbn in Hin. apply Hrom, Hu. lia.
Qed.

(** ** A machine *)

(** Conventional memory, the loader's data and a BIOS area. *)
Definition sample_descriptor (kind start pages : Z) : list Z :=
  le_bytes 4 kind ++ le_bytes 4 0 ++ le_bytes 8 start ++ le_bytes 8 0 ++ le_bytes 8 pages.
Definition sample_map : list Z :=
  sample_descriptor 7 0x1000 0x9F ++ sample_descriptor 0 0xA0000 0x60 ++ sample_descriptor 7 0x100000 0x8000 ++ sample_descriptor 2 0x8100000 0x100.
Definition sample_handoff : BootHandoff := mk_BootHandoff 0x8100000 0x80 None (Some (16 * MIB)).
Definition sample_claimed : list (Z * Z) := [(0x8100000, 0x8100080); (0x8100000, 0x8200000)].
Definition sample_regions : MemoryMap :=
  [mk_MemoryRegion 0x1000 0x9F000 Usable; mk_MemoryRegion 0xA0000 0x60000 Reserved; mk_MemoryRegion 0x100000 0x8000000 Usable; mk_MemoryRegion 0x8100000 0x100000 Usable].
Definition sample_windows : Windows := mk_Windows (mk_RamWindow 0x4400000 0x5400000) (mk_RamWindow 0x5400000 0x6400000).

Lemma sample_firmware : firmware_ok 0x8200000 32 sample_map sample_handoff sample_regions sample_claimed.
Proof. split; [by vm_compute|by vm_compute|lia|by vm_compute|by repeat constructor|done]. Qed.

Lemma sample_boot : boot_memory sample_map 32 sample_handoff no_windows = (sample_windows, Ok tt).
Proof. by vm_compute. Qed.

(** Two processors ask for 2 MiB each; the second loses the first exchange. *)
Definition sample_request : Z * Z := (2 * MIB, 2 * MIB).
Definition sample_race : shared := mk_shared [0x4800000; 0x4600000; 0x4400000] [(sample_request, Done (Some 0x4400000)); (sample_request, Done (Some 0x4600000))].

Lemma sample_race_reached : rtc (takes (WINDOW sample_windows)) (at_start 0x4400000 [sample_request; sample_request]) sample_race.
Proof.
  eapply rtc_l; [apply (step_load _ _ 0 sample_request 0x4400000); [done|left]|].
  eapply rtc_l; [apply (step_load _ _ 1 sample_request 0x4400000); [done|left]|].
  eapply rtc_l; [by apply (step_swap _ _ 0 sample_request 0x4400000 0x4400000 0x4600000)|].
  eapply rtc_l; [apply (step_retry _ _ 1 sample_request 0x4400000 (0x4400000, 0x4600000) 0x4600000); [done|by vm_compute|left]|].
  eapply rtc_l; [by apply (step_swap _ _ 1 sample_request 0x4600000 0x4600000 0x4800000)|]. apply rtc_refl.
Qed.

Lemma boot_windows_isolated_witness : exists w, boot_memory sample_map 32 sample_handoff no_windows = (w, Ok tt) /\
  in_window 0x4400000 (WINDOW w) /\ ~ in_heap (bring_up_heap (summarize_memory_map sample_map 32)) 0x4400000 /\ ~ in_window 0x4400000 (LINUX w).
Proof.
  destruct (boot_windows_isolated 0x8200000 32 sample_map sample_handoff sample_regions sample_claimed sample_firmware) as (w & E & Hp & Hd & _).
  exists w. assert (Hin : in_window 0x4400000 (WINDOW w)).
  { rewrite sample_boot in E. injection E as <-. by split. }
  split_and!; [exact E|exact Hin|apply Hp; by left|by apply Hd].
Defined.

Lemma ram_take_concurrent_witness : exists s, rtc (takes (WINDOW sample_windows)) (at_start 0x4400000 [sample_request; sample_request]) s /\
  threads s !! 0%nat = Some (sample_request, Done (Some 0x4400000)) /\ threads s !! 1%nat = Some (sample_request, Done (Some 0x4600000)) /\
  (0x4400000 + 2 * MIB <= 0x4600000 \/ 0x4600000 + 2 * MIB <= 0x4400000).
Proof.
  destruct (ram_take_concurrent (WINDOW sample_windows) [sample_request; sample_request] sample_race ltac:(by cbn) ltac:(by cbn) sample_race_reached) as (_ & H & _).
  exists sample_race. split_and!; [exact sample_race_reached|reflexivity|reflexivity|].
  apply (H 0%nat 1%nat sample_request 0x4400000 sample_request 0x4600000); [done|reflexivity|reflexivity].
Defined.

(** Two processors; the first loses an exchange for no reason, the second
    because the first stored. *)
Lemma sample_contended : cas_runs (take_propose 0x5400000) 6 1 (at_start 0x4400000 [sample_request; sample_request]) sample_race.
Proof.
  eapply runs_useful; [apply (useful_load _ _ 0 sample_request 0x4400000); [done|left]|].
  eapply runs_useful; [apply (useful_load _ _ 1 sample_request 0x4400000); [done|left]|].
  eapply runs_wasted; [apply (wasted_retry _ _ 0 sample_request 0x4400000 (0x4400000, 0x4600000) 0x4400000); [done|by vm_compute|left|by left]|].
  eapply runs_useful; [by apply (useful_swap _ _ 0 sample_request 0x4400000 0x4400000 0x4600000)|].
  eapply runs_useful; [by apply (useful_retry _ _ 1 sample_request 0x4400000 (0x4400000, 0x4600000) 0x4600000)|].
  eapply runs_useful; [by apply (useful_swap _ _ 1 sample_request 0x4600000 0x4600000 0x4800000)|]. apply runs_nil.
Qed.

Lemma ram_take_terminates_witness : nsteps (takes (WINDOW sample_windows)) 6 (at_start 0x4400000 [sample_request; sample_request]) sample_race /\
  6 <= (0x5400000 - 0x4400000) * 3 + 6 + 2.
Proof.
  assert (Hs : nsteps (takes (WINDOW sample_windows)) 6 (at_start 0x4400000 [sample_request; sample_request]) sample_race) by (apply cas_runs_steps; exists 1%nat; exact sample_contended).
  split; [exact Hs|]. exact (proj1 (proj2 (ram_take_terminates (WINDOW sample_windows) [sample_request; sample_request] 6 _ ltac:(cbn; lia) Hs)) 1%nat sample_contended).
Defined.

Lemma sample_descriptors_ok : Forall desc_ok (descriptors sample_map 32).
Proof.
  assert (E : descriptors sample_map 32 = [mk_UefiMemoryDescriptor 7 0x1000 0x9F; mk_UefiMemoryDescriptor 0 0xA0000 0x60;
    mk_UefiMemoryDescriptor 7 0x100000 0x8000; mk_UefiMemoryDescriptor 2 0x8100000 0x100]) by (by vm_compute).
  rewrite E. repeat (apply Forall_cons; split; [unfold desc_ok; cbn [phys_start page_count]; lia|]). constructor.
Qed.

Lemma boot_trampoline_page_witness :
  find_ap_trampoline_page sample_map 32 = Some 0x9F000 /\ ~ in_heap (bring_up_heap (summarize_memory_map sample_map 32)) 0x9F000.
Proof.
  pose proof (boot_trampoline_page 0x8200000 32 sample_map sample_handoff sample_regions sample_claimed sample_descriptors_ok sample_firmware) as H.
  assert (E : find_ap_trampoline_page sample_map 32 = Some 0x9F000) by (by vm_compute). rewrite E in H. split; [exact E|].
  apply H; [by vm_compute|lia].
Defined.
