(* ===== verification/GuestNpt.v ===== *)
(** * The nested tables of a firmware guest: enlil-boot/src/platform.rs and linux_guest.rs

    Where a guest's UEFI flash sits in its address space ([flash_layout]), and
    the nested tables [boot_firmware] makes for the guest: its RAM, then the
    two flash images page by page, and the flash write-protected. *)

From Stdlib Require Import ZArith Lia Bool.
From stdpp Require Import base decidable list numbers.
From S2P Require Import Prelude Rust Npt NptTables NptMapper NptBuild NptEdit.

Abbreviation FLASH_TOP := (2 ^ 32) (only parsing).
Abbreviation MAX_CODE_BYTES := (16 * 2 ^ 20) (only parsing).
Abbreviation LAPIC_BASE := 0xFEE00000 (only parsing).

Record FlashLayout := mk_FlashLayout { vars_gpa : Z; vars_len : Z; code_gpa : Z; code_len : Z }.

(** A length the flash can have: pages, and some. *)
Abbreviation flash_len_ok n := (negb (n =? 0) && (n mod 4096 =? 0)) (only parsing).

Definition flash_layout (code_len vars_len ram_end : Z) : option FlashLayout :=
  if negb (flash_len_ok code_len) || negb (flash_len_ok vars_len) || (MAX_CODE_BYTES <? code_len) || (MAX_CODE_BYTES <? vars_len) then None
  else
    let code_gpa := FLASH_TOP - code_len in
    vars_gpa ← checked_sub code_gpa vars_len;
    if ram_end <=? vars_gpa then Some (mk_FlashLayout vars_gpa vars_len code_gpa code_len) else None.

(** [map_pages]: one [map_range] of 4 KiB per page. *)
Definition map_pages (gpa spa len_ : Z) : mapper unit :=
  mfor (seqZ 0 (len_ / 4096)) (fun i =>
    g ← uadd gpa (i * 4096);
    s ← uadd spa (i * 4096);
    map_range g s 4096 []).

Definition map_guest (ram_spa ram_bytes vars_base code_base : Z) (flash : FlashLayout) : mapper unit :=
  map_range 0 ram_spa ram_bytes [] ;;
  map_pages (vars_gpa flash) vars_base (vars_len flash) ;;
  map_pages (code_gpa flash) code_base (code_len flash).

Definition protect_flash (npt_pa : Z) (flash : FlashLayout) : npt unit :=
  set_npt_range_writable npt_pa (code_gpa flash) (code_len flash) false ;;
  set_npt_range_writable npt_pa (vars_gpa flash) (vars_len flash) false.

(** The tables [boot_firmware] runs the guest on, or the error it gives up with. *)
Definition firmware_tables (ram_spa ram_bytes vars_base code_base : Z) (flash : FlashLayout) (buf : buffer) (npt_pa : Z) : res NptError buffer :=
  m ← mapper_new buf npt_pa;
  match map_guest ram_spa ram_bytes vars_base code_base flash m with
  | (m', Ok _) =>
      match protect_flash npt_pa flash (mp_buf m') with
      | (buf', Ok _) => Ok buf'
      | (_, Err e) => Err e
      | (_, Panic) => Panic
      end
  | (_, Err e) => Err e
  | (_, Panic) => Panic
  end.

(** ** The flash layout *)

Lemma flash_layout_spec c v e f : 0 <= c -> 0 <= v -> flash_layout c v e = Some f ->
  code_len f = c /\ vars_len f = v /\ 0 < c <= 2 ^ 24 /\ 0 < v <= 2 ^ 24 /\ c mod 4096 = 0 /\ v mod 4096 = 0 /\
  code_gpa f + c = FLASH_TOP /\ vars_gpa f + v = code_gpa f /\ e <= vars_gpa f.
Proof.
  intros Hc Hv. unfold flash_layout, checked_sub. destruct (_ || _) eqn:E; [done|]. breflect.
  destruct (Z.ltb_spec (2 ^ 32 - c) v); [done|]. cbn [mbind option_bind]. destruct (Z.leb_spec e (2 ^ 32 - c - v)); [|done].
  intros [= <-]. cbn. lia.
Qed.

(** ** Buffers of bytes *)

Definition mbyte_safe {A} (f : mapper A) : Prop := forall m, bytes_ok (mp_buf m) -> bytes_ok (mp_buf (f m).1).

Lemma mbyte_safe_bind {A B} (f : mapper A) (k : A -> mapper B) : mbyte_safe f -> (forall a, mbyte_safe (k a)) -> mbyte_safe (f ≫= k).
Proof.
  intros Hf Hk s Hs. unfold mbind, M_bind. specialize (Hf s Hs).
  destruct (f s) as [s' [a|e|]]; [by apply Hk|done..].
Qed.

Lemma mbyte_safe_mfor {A} (l : list A) (f : A -> mapper unit) : (forall x, mbyte_safe (f x)) -> mbyte_safe (mfor l f).
Proof. intros Hf. induction l as [|x l IH]; cbn [mfor]; [by intros s|]. by apply mbyte_safe_bind. Qed.

Lemma mbyte_safe_reads {A} (f : NptMapper -> res NptError A) : mbyte_safe (reads f).
Proof. by intros s. Qed.
Lemma mbyte_safe_ret {A} (a : A) : mbyte_safe (mret a).
Proof. by intros s. Qed.
Lemma mbyte_safe_fail {A} e : mbyte_safe (@fail _ _ A e).
Proof. by intros s. Qed.
Lemma mbyte_safe_panic {A} : mbyte_safe (@panic _ _ A).
Proof. by intros s. Qed.
Lemma mbyte_safe_count : mbyte_safe count_table.
Proof. by intros s. Qed.
Lemma mbyte_safe_uadd a b : mbyte_safe (uadd a b).
Proof. intros s Hs. unfold uadd. by destruct (_ <? _). Qed.
Lemma mbyte_safe_on_buf {A} (f : npt A) : byte_safe f -> mbyte_safe (on_buf f).
Proof. intros Hf m Hm. unfold on_buf. specialize (Hf (mp_buf m) Hm). by destruct (f (mp_buf m)). Qed.

#[export] Hint Resolve mbyte_safe_reads mbyte_safe_ret mbyte_safe_fail mbyte_safe_panic mbyte_safe_count mbyte_safe_uadd mbyte_safe_on_buf : bytes.

Ltac mbyte_safe :=
  repeat (intros; match goal with
  | |- mbyte_safe (_ ≫= _) => apply mbyte_safe_bind
  | |- mbyte_safe (if ?b then _ else _) => destruct b
  | |- mbyte_safe (match ?b with _ => _ end) => destruct b
  | |- mbyte_safe _ => solve [auto with bytes] || apply mbyte_safe_mfor
  end).

Lemma alloc_table_safe : mbyte_safe alloc_table.
Proof. unfold alloc_table. mbyte_safe. Qed.
#[export] Hint Resolve alloc_table_safe : bytes.
Lemma child_table_safe t i : mbyte_safe (child_table_off t i).
Proof. unfold child_table_off. mbyte_safe. Qed.
#[export] Hint Resolve child_table_safe : bytes.
Lemma pd_off_safe g : mbyte_safe (pd_off_for g).
Proof. unfold pd_off_for. mbyte_safe. Qed.
#[export] Hint Resolve pd_off_safe : bytes.
Lemma map_huge_safe g s : mbyte_safe (map_huge_leaf g s).
Proof. unfold map_huge_leaf. mbyte_safe. Qed.
Lemma map_small_safe g s : mbyte_safe (map_small_page g s).
Proof. unfold map_small_page, pt_off_for. mbyte_safe. Qed.
#[export] Hint Resolve map_huge_safe map_small_safe : bytes.
Lemma map_chunks_safe n guards : forall g s r, mbyte_safe (map_chunks n guards g s r).
Proof. induction n as [|n IH]; intros; cbn [map_chunks]; cbv zeta; mbyte_safe. Qed.
#[export] Hint Resolve map_chunks_safe : bytes.
Lemma map_range_safe g s n guards : mbyte_safe (map_range g s n guards).
Proof. unfold map_range, range_guard_ok. mbyte_safe. Qed.
#[export] Hint Resolve map_range_safe : bytes.
Lemma map_guest_safe s n vb cb f : mbyte_safe (map_guest s n vb cb f).
Proof. unfold map_guest, map_pages. mbyte_safe. Qed.

(** ** What the tables translate *)

(** [[gpa, gpa + len)], unmapped before, is mapped to [spa] on; nothing else changed. *)
Definition adds (m m' : NptMapper) (gpa spa len_ : Z) : Prop :=
  mapper_inv m' /\ same_frame m m' /\ mapped_upto m m' gpa (gpa + len_) (range_target [] (spa - gpa)).

Lemma map_range_adds m m' gpa spa len_ u :
  mapper_inv m -> 0 <= gpa -> 0 <= spa -> 0 <= len_ -> spa + len_ <= 2 ^ 52 -> map_range gpa spa len_ [] m = (m', Ok u) -> adds m m' gpa spa len_.
Proof.
  intros Hinv Hg Hs Hl Hsl E. pose proof (wp_elim _ _ _ _ _ (map_range_spec m gpa spa len_ [] Hinv Hg Hs Hl Hsl) E) as H. cbn in H.
  destruct (range_valid gpa spa len_ []); [|destruct H as (_ & e & H); done].
  destruct H as (Hinv' & Hfr & mid & _ & Hup & ->). done.
Qed.

Lemma adds_trans m1 m2 m3 gpa spa n1 n2 : 0 <= n1 -> 0 <= n2 ->
  adds m1 m2 gpa spa n1 -> adds m2 m3 (gpa + n1) (spa + n1) n2 -> adds m1 m3 gpa spa (n1 + n2).
Proof.
  intros H1 H2 (_ & [F1 L1] & U1) (I3 & [F2 L2] & U2). split_and!; [done|split; congruence|].
  replace (spa + n1 - (gpa + n1)) with (spa - gpa) in U2 by lia. rewrite Z.add_assoc. eapply (mapped_upto_trans m1 m2); [|done..]. lia.
Qed.

Lemma map_pages_run n : forall gpa spa i m m' u,
  mapper_inv m -> 0 <= gpa -> 0 <= spa -> 0 <= i -> spa + (i + Z.of_nat n) * 4096 <= 2 ^ 52 ->
  mfor (seqZ i (Z.of_nat n)) (fun i => g ← uadd gpa (i * 4096); s ← uadd spa (i * 4096); map_range g s 4096 []) m = (m', Ok u) ->
  adds m m' (gpa + i * 4096) (spa + i * 4096) (Z.of_nat n * 4096).
Proof.
  induction n as [|n IH]; intros gpa spa i m m' u Hinv Hg Hs Hi Hb E.
  - injection E as <- <-. split_and!; [done..|]. change (Z.of_nat 0 * 4096) with 0. rewrite Z.add_0_r. by apply keeps_upto.
  - rewrite Nat2Z.inj_succ, seqZ_cons in E by lia. replace (Z.pred (Z.succ (Z.of_nat n))) with (Z.of_nat n) in E by lia. cbn [mfor] in E.
    apply bind_inv in E as (m1 & u1 & E1 & E). apply bind_inv in E1 as (m2 & g & (-> & -> & _)%uadd_inv & E1).
    apply bind_inv in E1 as (m2 & s & (-> & -> & _)%uadd_inv & E1). apply map_range_adds in E1; [|done|lia..]. apply IH in E; [|apply E1|lia..].
    replace (Z.of_nat (S n) * 4096) with (4096 + Z.of_nat n * 4096) by lia. eapply adds_trans; [lia..|exact E1|].
    by replace (gpa + i * 4096 + 4096) with (gpa + Z.succ i * 4096) by lia; replace (spa + i * 4096 + 4096) with (spa + Z.succ i * 4096) by lia.
Qed.

Lemma map_pages_adds m m' gpa spa len_ u :
  mapper_inv m -> 0 <= gpa -> 0 <= spa -> 0 <= len_ -> len_ mod 4096 = 0 -> spa + len_ <= 2 ^ 52 -> map_pages gpa spa len_ m = (m', Ok u) -> adds m m' gpa spa len_.
Proof.
  intros Hinv Hg Hs Hl Hm Hb E. assert (En : len_ = len_ / 4096 * 4096) by (pose proof (Z.div_mod len_ 4096 ltac:(lia)); lia).
  assert (H0 : 0 <= len_ / 4096) by (by apply Z.div_pos). unfold map_pages in E. rewrite <- (Z2Nat.id (len_ / 4096)) in E by done.
  apply map_pages_run in E; [|done..|lia]. rewrite Z2Nat.id, <- En, !Z.add_0_r in E by done. done.
Qed.

Lemma upto_in m m' a b d g : mapped_upto m m' a b (range_target [] d) -> 0 <= g < 2 ^ 48 -> a <= g < b -> xlate m' g = Some (g + d).
Proof.
  intros U Hg Hr. specialize (U g Hg). rewrite (proj2 (Z.leb_le a g)), (proj2 (Z.ltb_lt g b)) in U by lia. destruct U as [_ ->].
  unfold range_target. by rewrite bool_decide_eq_false_2 by apply not_elem_of_nil.
Qed.

Lemma upto_out m m' a b f g : mapped_upto m m' a b f -> 0 <= g < 2 ^ 48 -> ~ (a <= g < b) -> xlate m' g = xlate m g.
Proof.
  intros U Hg Hr. specialize (U g Hg). destruct (Z.leb_spec a g), (Z.ltb_spec g b); try done. exfalso. lia.
Qed.

(** What the guest sees at [g]. *)
Definition guest_view (ram_spa ram_bytes vars_base code_base : Z) (f : FlashLayout) (g : Z) : option Z :=
  if g <? ram_bytes then Some (ram_spa + g)
  else if g <? vars_gpa f then None
  else if g <? code_gpa f then Some (vars_base + (g - vars_gpa f))
  else if g <? FLASH_TOP then Some (code_base + (g - code_gpa f))
  else None.

Section Firmware.
Variables (ram_spa ram_bytes vars_base code_base : Z) (f : FlashLayout).
Variables (c v : Z).
Hypothesis layout : flash_layout c v ram_bytes = Some f.
Hypothesis lens : 0 <= c /\ 0 <= v.
Hypothesis ram_ok : 0 <= ram_spa /\ 0 <= ram_bytes /\ ram_spa + ram_bytes <= 2 ^ 52.
Hypothesis vars_ok : 0 <= vars_base /\ vars_base + v <= 2 ^ 52.
Hypothesis code_ok : 0 <= code_base /\ code_base + c <= 2 ^ 52.

Lemma map_guest_ok m m' u :
  mapper_inv m -> (forall g, 0 <= g < 2 ^ 48 -> xlate m g = None) -> map_guest ram_spa ram_bytes vars_base code_base f m = (m', Ok u) ->
  mapper_inv m' /\ same_frame m m' /\ forall g, 0 <= g < 2 ^ 48 -> xlate m' g = guest_view ram_spa ram_bytes vars_base code_base f g.
Proof.
  intros Hinv Hn E. destruct (flash_layout_spec c v ram_bytes f) as (Ec & Ev & Hc & Hv & Mc & Mv & Tc & Tv & Hr); [apply lens..|exact layout|].
  unfold map_guest in E. apply bind_inv in E as (m1 & u1 & E1 & E). apply bind_inv in E as (m2 & u2 & E2 & E3).
  apply map_range_adds in E1; [|done|lia..]. destruct E1 as (I1 & [F1 L1] & U1).
  apply map_pages_adds in E2; [|done|rewrite ?Ec, ?Ev; first [done|lia]..]. destruct E2 as (I2 & [F2 L2] & U2).
  apply map_pages_adds in E3; [|done|rewrite ?Ec, ?Ev; first [done|lia]..]. destruct E3 as (I3 & [F3 L3] & U3).
  split_and!; [done|split; congruence|]. intros g Hg. unfold guest_view.
  destruct (Z.ltb_spec g ram_bytes); [|destruct (Z.ltb_spec g (vars_gpa f)); [|destruct (Z.ltb_spec g (code_gpa f)); [|destruct (Z.ltb_spec g (2 ^ 32))]]].
  - rewrite (upto_out _ _ _ _ _ _ U3), (upto_out _ _ _ _ _ _ U2), (upto_in _ _ _ _ _ _ U1) by lia. f_equal. lia.
  - rewrite (upto_out _ _ _ _ _ _ U3), (upto_out _ _ _ _ _ _ U2), (upto_out _ _ _ _ _ _ U1) by lia. by apply Hn.
  - rewrite (upto_out _ _ _ _ _ _ U3), (upto_in _ _ _ _ _ _ U2) by lia. f_equal. lia.
  - rewrite (upto_in _ _ _ _ _ _ U3) by lia. f_equal. lia.
  - rewrite (upto_out _ _ _ _ _ _ U3), (upto_out _ _ _ _ _ _ U2), (upto_out _ _ _ _ _ _ U1) by lia. by apply Hn.
Qed.

Lemma protect_ok pb buf role g n buf' r :
  Tables pb buf role -> bytes_ok buf -> 0 <= g -> g mod 4096 = 0 -> 0 <= n -> g + n <= 2 ^ 48 ->
  set_npt_range_writable pb g n false buf = (buf', Ok r) ->
  Tables pb buf' role /\ bytes_ok buf' /\ range_upd role buf buf' g (g + n) (fun e => set_flag e WRITABLE false) /\
  (forall p, g <= p < g + n -> p mod 4096 = 0 -> accepts role buf' (fun e => Z.testbit e 0) p) /\
  forall a, 0 <= a < 2 ^ 48 -> translate_npt buf' pb a = translate_npt buf pb a.
Proof.
  intros T Hb Hg Ha Hl Hend E.
  pose proof (range_edit_spec pb role _ _ _ buf g n (set_writable_edits pb false) T Hb Hg Ha Hl Hend) as H.
  apply (wp_elim _ _ _ _ _ H) in E. cbv beta in E. destruct E as (T' & Hb' & mid & _ & Hup & Hac & [[_ ->]|[[e He] _]]); [|done].
  split_and!; [done..| |].
  { intros p Hp Hpa. destruct (Hac p Hp Hpa) as (t & Ht & He). exists t. split; [done|]. destruct Hup as [_ Hu].
    rewrite (Hu t 3 _ _ Ht (idx_range 3 p)). case_match; [by rewrite testbit_set_writable by lia|done]. }
  intros a Har. apply (translate_same_leaves pb role buf buf' a T T' Har). intros t l Ht Hll.
  destruct Hup as [_ He]. rewrite (He t l _ _ Ht (idx_range l a)). destruct (_ && _); [|done]. by rewrite testbit_set_writable, set_writable_addr by lia.
Qed.
End Firmware.

(** The flash pages cannot be written. *)
Definition guards_flash (role : roles) (buf : buffer) (f : FlashLayout) : Prop := forall t p i, role t = Some (3, p) -> 0 <= i < 512 ->
  vars_gpa f <= (p * 512 + i) * 4096 < FLASH_TOP -> Z.testbit (ent buf t i) 1 = false.
Definition flash_protected (npt_pa : Z) (buf : buffer) (f : FlashLayout) : Prop := exists role, Tables npt_pa buf role /\ guards_flash role buf f.

(** Every page of the variable store has a leaf of its own. *)
Definition vars_leaves (role : roles) (buf : buffer) (f : FlashLayout) : Prop :=
  forall p, vars_gpa f <= p < vars_gpa f + vars_len f -> p mod 4096 = 0 -> accepts role buf (fun e => Z.testbit e 0) p.

Lemma clear_writable e : Z.testbit (set_flag e WRITABLE false) 1 = false.
Proof. cbn [set_flag]. change WRITABLE with (bit 1). rewrite Z.ldiff_spec, testbit_bit by lia. by rewrite andb_false_r. Qed.

Lemma protect_flash_ok pb buf role f c v e buf' u :
  flash_layout c v e = Some f -> 0 <= c -> 0 <= v -> Tables pb buf role -> bytes_ok buf -> protect_flash pb f buf = (buf', Ok u) ->
  Tables pb buf' role /\ bytes_ok buf' /\ guards_flash role buf' f /\ vars_leaves role buf' f /\
  forall a, 0 <= a < 2 ^ 48 -> translate_npt buf' pb a = translate_npt buf pb a.
Proof.
  intros Hf H0 H1 T Hb E. destruct (flash_layout_spec c v e f H0 H1 Hf) as (Ec & Ev & Hc & Hv & Mc & Mv & Tc & Tv & _).
  unfold protect_flash in E. apply bind_inv in E as (b1 & u1 & E1 & E2).
  assert (Ac : code_gpa f mod 4096 = 0) by (replace (code_gpa f) with (2 ^ 32 - c) by lia; by rewrite Zminus_mod, Mc).
  assert (Av : vars_gpa f mod 4096 = 0) by (replace (vars_gpa f) with (code_gpa f - v) by lia; by rewrite Zminus_mod, Ac, Mv).
  apply (protect_ok pb buf role) in E1 as (T1 & B1 & [L1 U1] & _ & X1); [|done|done|lia|done|lia..].
  apply (protect_ok pb b1 role) in E2 as (T2 & B2 & [L2 U2] & A2 & X2); [|done|done|lia|done|lia..].
  split_and!; [done..| |done|intros a Ha; by rewrite X2, X1]. intros t p i Ht Hi Hr.
  rewrite (U2 t 3 p i Ht Hi), (U1 t 3 p i Ht Hi). cbn [Z.eqb Pos.eqb andb].
  destruct (Z.leb_spec (vars_gpa f) ((p * 512 + i) * 4096)), (Z.ltb_spec ((p * 512 + i) * 4096) (vars_gpa f + vars_len f)); cbn [andb];
    [apply clear_writable| |lia..].
  destruct (Z.leb_spec (code_gpa f) ((p * 512 + i) * 4096)), (Z.ltb_spec ((p * 512 + i) * 4096) (code_gpa f + code_len f)); cbn [andb]; [apply clear_writable|lia..].
Qed.

Lemma firmware_tables_ok ram_spa ram_bytes vars_base code_base f c v buf npt_pa buf' :
  flash_layout c v ram_bytes = Some f -> 0 <= c /\ 0 <= v ->
  0 <= ram_spa /\ 0 <= ram_bytes /\ ram_spa + ram_bytes <= 2 ^ 52 -> 0 <= vars_base /\ vars_base + v <= 2 ^ 52 -> 0 <= code_base /\ code_base + c <= 2 ^ 52 ->
  0 <= npt_pa -> npt_pa + len buf <= 2 ^ 52 -> bytes_ok buf ->
  firmware_tables ram_spa ram_bytes vars_base code_base f buf npt_pa = Ok buf' ->
  (exists role, Tables npt_pa buf' role /\ bytes_ok buf' /\ guards_flash role buf' f /\ vars_leaves role buf' f) /\
  forall g, 0 <= g < 2 ^ 48 -> translate_npt buf' npt_pa g = guest_view ram_spa ram_bytes vars_base code_base f g.
Proof.
  intros Hf Hcv Hr Hv Hc Hb Hp Hby. unfold firmware_tables. destruct (mapper_new buf npt_pa) as [m|e|] eqn:En; [|done..]. cbn [mbind res_bind].
  destruct (mapper_new_inv buf npt_pa m Hb Hp En) as (Hinv & Hn & Epb & Ebuf).
  assert (Hs : bytes_ok (mp_buf m)) by (rewrite Ebuf; by apply bytes_ok_zero).
  pose proof (map_guest_safe ram_spa ram_bytes vars_base code_base f m Hs) as Hs'.
  destruct (map_guest _ _ _ _ f m) as [m' [u|e|]] eqn:Eg; [|done..]. cbn in Hs'.
  destruct (map_guest_ok _ _ _ _ f c v Hf Hcv Hr Hv Hc m m' u Hinv Hn Eg) as ([role [T _]] & [F _] & X).
  rewrite F, Epb in T. destruct (protect_flash npt_pa f (mp_buf m')) as [b [u'|e|]] eqn:Ep; [|done..]. intros [= <-].
  destruct (protect_flash_ok _ _ role f c v ram_bytes b u' Hf (proj1 Hcv) (proj2 Hcv) T Hs' Ep) as (T' & B' & G' & L' & X').
  split; [by exists role|]. intros g Hg. rewrite X', <- X by done. unfold xlate. by rewrite F, Epb.
Qed.

(** C10: The tables a firmware guest runs on.  When the flash layout is
    accepted and the kernel gets through making the tables, the guest sees its
    RAM from address 0, the variable store and the code image just below
    4 GiB, and nothing else; no flash page can be written; and the reset vector
    [0xFFFFFFF0] is in the last 16 bytes of the code image.  The local APIC's
    registers trap only when the flash does not reach down to them, which
    [flash_layout] does not check. *)
Theorem firmware_tables_correct ram_spa ram_bytes vars_base code_base f c v buf npt_pa buf' :
  flash_layout c v ram_bytes = Some f -> 0 <= c /\ 0 <= v ->
  0 <= ram_spa /\ 0 <= ram_bytes /\ ram_spa + ram_bytes <= 2 ^ 52 -> 0 <= vars_base /\ vars_base + v <= 2 ^ 52 -> 0 <= code_base /\ code_base + c <= 2 ^ 52 ->
  0 <= npt_pa -> npt_pa + len buf <= 2 ^ 52 -> bytes_ok buf ->
  firmware_tables ram_spa ram_bytes vars_base code_base f buf npt_pa = Ok buf' ->
  (forall g, 0 <= g < 2 ^ 48 -> translate_npt buf' npt_pa g = guest_view ram_spa ram_bytes vars_base code_base f g) /\
  flash_protected npt_pa buf' f /\
  translate_npt buf' npt_pa 0xFFFFFFF0 = Some (code_base + c - 16) /\
  (translate_npt buf' npt_pa LAPIC_BASE = None <-> ram_bytes <= LAPIC_BASE < vars_gpa f).
Proof.
  intros Hf Hcv Hr Hv Hc Hb Hp Hby E. destruct (firmware_tables_ok _ _ _ _ f c v buf npt_pa buf' Hf Hcv Hr Hv Hc Hb Hp Hby E) as [(role & T & _ & G & _) X].
  assert (P : flash_protected npt_pa buf' f) by (by exists role).
  destruct (flash_layout_spec c v ram_bytes f (proj1 Hcv) (proj2 Hcv) Hf) as (_ & _ & Lc & _ & Mc & _ & Tc & Tv & Hl).
  assert (16 <= c) by (destruct (Z.le_gt_cases 4096 c) as [|Hlt]; [lia|]; rewrite Z.mod_small in Mc by lia; lia).
  split_and!; [done..| |]; rewrite X by lia; unfold guest_view; rewrite ?(proj2 (Z.ltb_lt _ (2 ^ 32))) by lia.
  - rewrite !(proj2 (Z.ltb_ge 0xFFFFFFF0 _)) by lia. f_equal. lia.
  - destruct (Z.ltb_spec 0xFEE00000 ram_bytes), (Z.ltb_spec 0xFEE00000 (vars_gpa f)), (Z.ltb_spec 0xFEE00000 (code_gpa f)); split; intros; try done; lia.
Qed.

(** 2 MiB of RAM and a page for each flash image, in five table pages. *)
Definition sample_flash : FlashLayout := mk_FlashLayout 0xFFFFE000 4096 0xFFFFF000 4096.
Abbreviation sample_tables := (firmware_tables 0x4400000 0x200000 0x8110000 0x8120000 sample_flash (zeros 20480) 0x200000).

Lemma sample_tables_made : exists buf', sample_tables = Ok buf'.
Proof.
  assert (E : match sample_tables with Ok _ => true | _ => false end = true) by (by vm_compute).
  destruct sample_tables as [b|e|]; [by exists b|done..].
Qed.

Lemma firmware_tables_correct_witness : exists buf', sample_tables = Ok buf' /\
  translate_npt buf' 0x200000 0x1234 = Some 0x4401234 /\ translate_npt buf' 0x200000 0xFFFFFFF0 = Some 0x8120FF0 /\
  translate_npt buf' 0x200000 LAPIC_BASE = None.
Proof.
  destruct sample_tables_made as [buf' E]. exists buf'. split; [exact E|].
  destruct (firmware_tables_correct 0x4400000 0x200000 0x8110000 0x8120000 sample_flash 4096 4096 (zeros 20480) 0x200000 buf' eq_refl
    ltac:(lia) ltac:(lia) ltac:(lia) ltac:(lia) ltac:(lia) ltac:(by rewrite len_zeros) (bytes_ok_zeros _) E) as (X & _ & R & L).
  split_and!; [rewrite X by lia; reflexivity|exact R|apply L; cbn; lia].
Defined.
