(* ===== verification/Pflash.v ===== *)
(** * The flash chip: enlil-boot/src/pflash.rs

    A NOR flash chip with the Intel command set, in front of the memory of a
    firmware's variable store: the command state, reads in every mode, and
    writes, which are commands or the data of one.  The theorems say what a
    read returns, and that memory changes by a completed program or erase
    command and by nothing else. *)

From Stdlib Require Import ZArith Lia Bool.
From stdpp Require Import base decidable list numbers.
From S2P Require Import Prelude Rust Storage.

Abbreviation BLOCK_BYTES := 4096 (only parsing).
Abbreviation CMD_READ_ARRAY := 0xFF (only parsing).
Abbreviation CMD_CLEAR_STATUS := 0x50 (only parsing).
Abbreviation CMD_READ_STATUS := 0x70 (only parsing).
Abbreviation CMD_READ_ID := 0x90 (only parsing).
Abbreviation CMD_PROGRAM := 0x10 (only parsing).
Abbreviation CMD_PROGRAM_ALT := 0x40 (only parsing).
Abbreviation CMD_ERASE_SETUP := 0x20 (only parsing).
Abbreviation CMD_ERASE_CONFIRM := 0xD0 (only parsing).
Abbreviation STATUS_READY := 0x80 (only parsing).
Abbreviation STATUS_ERASE_ERROR := 0x20 (only parsing).
Abbreviation STATUS_PROGRAM_ERROR := 0x10 (only parsing).

Inductive Mode := Array | Status | Id | ProgramData | EraseConfirm.

Record Pflash := mk_Pflash { mode : Mode; status : Z; read_only : bool }.

Definition Pflash_new (read_only : bool) : Pflash := mk_Pflash Array STATUS_READY read_only.

Definition array_mode (c : Pflash) : bool := match mode c with Array => true | _ => false end.

(** ** Reads *)

(** The byte of one lane of a read. *)
Definition lane (c : Pflash) (offset i : Z) (mem : list Z) : res Empty_set Z :=
  match mode c with
  | Array => at_ ← radd offset i; Ok (default 0xFF (mem !! Z.to_nat at_))
  | Status | ProgramData | EraseConfirm => Ok (status c)
  | Id => at_ ← radd offset i; Ok (if at_ .& 1 =? 0 then 0x89 else 0x18)
  end.

Definition chip_read (c : Pflash) (offset size : Z) (mem : list Z) : res Empty_set Z :=
  foldl (fun acc i => v ← acc; byte ← lane c offset i mem; Ok (v .| (byte .<< (8 * i)))) (Ok 0) (seqZ 0 (Z.min size 8)).

(** ** Writes *)

(** The loop of a program command's data; a byte past the end is dropped. *)
Definition program (offset size value : Z) (mem : list Z) : res Empty_set (list Z) :=
  foldl (fun acc i => m ← acc; at_ ← radd offset i; Ok (<[Z.to_nat at_ := (value / 256 ^ i) mod 256]> m)) (Ok mem) (seqZ 0 (Z.min size 8)).

(** The block of the address; a block that is not all there is left alone. *)
Definition erase (offset : Z) (mem : list Z) : res Empty_set (list Z) :=
  let start := offset / BLOCK_BYTES * BLOCK_BYTES in
  end_ ← radd start BLOCK_BYTES;
  Ok (if end_ <=? len mem then splice mem start (replicate 4096 0xFF) else mem).

Definition with_mode (c : Pflash) (m : Mode) : Pflash := mk_Pflash m (status c) (read_only c).

Definition command (cmd : Z) (c : Pflash) : Pflash :=
  if cmd =? CMD_READ_ARRAY then with_mode c Array
  else if cmd =? CMD_CLEAR_STATUS then mk_Pflash (mode c) 0 (read_only c)
  else if cmd =? CMD_READ_STATUS then with_mode c Status
  else if cmd =? CMD_READ_ID then with_mode c Id
  else if (cmd =? CMD_PROGRAM) || (cmd =? CMD_PROGRAM_ALT) then with_mode c ProgramData
  else if cmd =? CMD_ERASE_SETUP then with_mode c EraseConfirm
  else c.

(** The command is over: [bits] go into the status register. *)
Definition finish (c : Pflash) (bits : Z) : Pflash := mk_Pflash Status (status c .| bits) (read_only c).

(** The chip and its memory after a write, and whether [array_mode] changed. *)
Definition chip_write (offset size value : Z) (c : Pflash) (mem : list Z) : res Empty_set (Pflash * list Z * bool) :=
  '(c', mem') ← match mode c with
    | ProgramData =>
        if read_only c then Ok (finish c (STATUS_READY .| STATUS_PROGRAM_ERROR), mem)
        else m ← program offset size value mem; Ok (finish c STATUS_READY, m)
    | EraseConfirm =>
        if (value .& 0xFF =? CMD_ERASE_CONFIRM) && negb (read_only c) then m ← erase offset mem; Ok (finish c STATUS_READY, m)
        else Ok (finish c (STATUS_READY .| STATUS_ERASE_ERROR), mem)
    | _ => Ok (command (value .& 0xFF) c, mem)
    end;
  Ok (c', mem', negb (eqb (array_mode c) (array_mode c'))).

(** ** What a read returns *)

Lemma lor_add b r : fits 8 b -> 0 <= r -> b .| (r .<< 8) = b + 256 * r.
Proof.
  intros Hb Hr. rewrite <- Z.add_nocarry_lor; [rewrite Z.shiftl_mul_pow2 by lia; lia|]. apply Z.bits_inj'. intros i Hi.
  rewrite Z.land_spec, Z.shiftl_spec, Z.testbit_0_l by lia. destruct (Z.lt_ge_cases i 8); [by rewrite (Z.testbit_neg_r r), andb_false_r by lia|by rewrite (fits_high 8 b)].
Qed.

(** Lanes from [k] on. *)
Lemma read_lanes (lane_at : Z -> res Empty_set Z) bs : forall k v, 0 <= k -> Forall (fits 8) bs ->
  (forall j b, bs !! j = Some b -> lane_at (k + Z.of_nat j) = Ok b) ->
  foldl (fun acc i => v ← acc; byte ← lane_at i; Ok (v .| (byte .<< (8 * i)))) (Ok v) (seqZ k (Z.of_nat (length bs))) = Ok (v .| (le_value bs .<< (8 * k))).
Proof.
  induction bs as [|b bs IH]; intros k v Hk Hf Hl.
  { cbn. by rewrite Z.shiftl_0_l, Z.lor_0_r. }
  apply Forall_cons_1 in Hf as [Hb Hf]. cbn [length]. rewrite Nat2Z.inj_succ, seqZ_cons by lia. cbn [foldl mbind res_bind].
  pose proof (Hl 0%nat b eq_refl) as H0. rewrite Z.add_0_r in H0. rewrite H0. cbn [mbind res_bind]. rewrite Z.pred_succ.
  rewrite IH; [|lia|done|intros j b' Hj; rewrite <- (Hl (Datatypes.S j) b' Hj); f_equal; lia]. f_equal. rewrite <- Z.lor_assoc. f_equal. cbn [le_value].
  pose proof (le_value_fits bs Hf). rewrite <- lor_add by (done || lia). rewrite Z.shiftl_lor, Z.shiftl_shiftl by lia. do 2 f_equal; lia.
Qed.

Lemma chip_read_array c offset size mem : mode c = Array -> Forall (fits 8) mem -> 0 <= offset -> 0 <= size -> offset + Z.min size 8 <= len mem -> len mem < 2 ^ 64 ->
  chip_read c offset size mem = Ok (le_value (sub mem offset (Z.min size 8))).
Proof.
  intros Hm Hf Ho Hs Hin Hlen. unfold chip_read. set (n := Z.min size 8) in *. assert (Hn : 0 <= n) by lia.
  pose proof (len_sub mem offset n Ho Hn Hin) as Hl. unfold len in Hl. rewrite <- Hl at 1.
  rewrite (read_lanes (fun i => lane c offset i mem)); [by rewrite Z.shiftl_0_r, Z.lor_0_l|done|by apply Forall_take, Forall_drop|].
  intros j b Hj. pose proof (lookup_lt_Some _ _ _ Hj). unfold lane. rewrite Hm, Z.add_0_l. unfold radd. rewrite (proj2 (Z.ltb_lt _ _)) by lia. cbn [mbind res_bind].
  unfold sub in Hj. rewrite lookup_take_Some, lookup_drop in Hj. destruct Hj as [Hj _]. replace (Z.to_nat (offset + Z.of_nat j)) with (Z.to_nat offset + j)%nat by lia. by rewrite Hj.
Qed.

(** ** What a write changes *)

Lemma program_lanes offset value n : forall k mem, 0 <= k -> 0 <= offset -> offset + k + Z.of_nat n < 2 ^ 64 ->
  foldl (fun acc i => m ← acc; at_ ← radd offset i; Ok (<[Z.to_nat at_ := (value / 256 ^ i) mod 256]> m)) (Ok mem : res Empty_set _) (seqZ k (Z.of_nat n))
  = Ok (list_inserts (Z.to_nat (offset + k)) (le_bytes n (value / 256 ^ k)) mem).
Proof.
  induction n as [|n IH]; intros k mem Hk Ho Hov; [done|]. rewrite Nat2Z.inj_succ, seqZ_cons by lia. cbn [foldl mbind res_bind].
  unfold radd at 2. rewrite (proj2 (Z.ltb_lt _ _)) by lia. cbn [mbind res_bind]. rewrite Z.pred_succ. rewrite IH by lia. f_equal. cbn [le_bytes list_inserts].
  rewrite list_insert_inserts_lt by lia. replace (Z.to_nat (offset + Z.succ k)) with (Datatypes.S (Z.to_nat (offset + k))) by lia. do 2 f_equal.
  rewrite Z.div_div, Z.pow_succ_r by (try apply Z.pow_nonneg; lia). f_equal. lia.
Qed.

Lemma program_ok offset size value mem : 0 <= offset -> 0 <= size -> offset + 8 < 2 ^ 64 ->
  program offset size value mem = Ok (splice mem offset (le_bytes (Z.to_nat (Z.min size 8)) value)).
Proof.
  intros Ho Hs Hov. unfold program. rewrite <- (Z2Nat.id (Z.min size 8)) at 1 by lia. rewrite program_lanes by lia. by rewrite Z.add_0_r, Z.pow_0_r, Z.div_1_r.
Qed.

(** The memory after a write, by the chip's mode. *)
Definition written (c : Pflash) (offset size value : Z) (mem : list Z) : list Z :=
  if read_only c then mem
  else match mode c with
       | ProgramData => splice mem offset (le_bytes (Z.to_nat (Z.min size 8)) value)
       | EraseConfirm =>
           let start := offset / 4096 * 4096 in
           if (value .& 0xFF =? CMD_ERASE_CONFIRM) && (start + 4096 <=? len mem) then splice mem start (replicate 4096 0xFF) else mem
       | _ => mem
       end.

Lemma chip_write_ok offset size value c mem : 0 <= offset -> 0 <= size -> offset + 4096 < 2 ^ 64 ->
  exists c', chip_write offset size value c mem = Ok (c', written c offset size value mem, negb (eqb (array_mode c) (array_mode c'))) /\
    read_only c' = read_only c /\ (fits 8 (status c) -> fits 8 (status c')).
Proof.
  intros Ho Hs Hov. assert (Hst : offset / 4096 * 4096 <= offset) by (rewrite Z.mul_comm; apply Z.mul_div_le; lia).
  assert (Hcmd : forall cmd, read_only (command cmd c) = read_only c /\ (fits 8 (status c) -> fits 8 (status (command cmd c)))).
  { intros cmd. unfold command. repeat case_match; split; try done. }
  unfold chip_write, written. destruct (mode c) eqn:Em.
  1-3: destruct (Hcmd (value .& 0xFF)); exists (command (value .& 0xFF) c); split_and!; [by destruct (read_only c)|done..].
  - destruct (read_only c) eqn:Er; [|rewrite program_ok by lia]; cbn [mbind res_bind]; eexists; (split_and!; [done|done|intros ?; cbn; auto with word]).
  - destruct (read_only c) eqn:Er.
    { rewrite andb_false_r. cbn [mbind res_bind]. eexists. split_and!; [done|done|intros ?; cbn; auto with word]. }
    rewrite andb_true_r. destruct (value .& 0xFF =? 0xD0); cbn [andb]; [|cbn [mbind res_bind]; eexists; (split_and!; [done|done|intros ?; cbn; auto with word])].
    unfold erase, radd. rewrite (proj2 (Z.ltb_lt _ (2 ^ 64))) by lia. cbn [mbind res_bind]. eexists. split_and!; [done|done|intros ?; cbn; auto with word].
Qed.

Lemma written_bytes c offset size value mem : Forall (fits 8) mem ->
  Forall (fits 8) (written c offset size value mem) /\ len (written c offset size value mem) = len mem.
Proof.
  intros Hm. unfold written, splice. repeat case_match; split; try done; unfold len; rewrite ?length_inserts; try done; apply inserts_fits; try done;
    [apply le_bytes_fits|by apply Forall_replicate].
Qed.

(** A byte changes only by the data of a program command that reaches it, or
    by the confirmed erasure of its block. *)
Theorem pflash_write_frame c offset size value mem i : 0 <= offset -> 0 <= size -> 0 <= i ->
  written c offset size value mem !! Z.to_nat i <> mem !! Z.to_nat i ->
  read_only c = false /\ ((mode c = ProgramData /\ offset <= i < offset + Z.min size 8) \/
    (mode c = EraseConfirm /\ value .& 0xFF = CMD_ERASE_CONFIRM /\ i / 4096 = offset / 4096)).
Proof.
  intros Ho Hs Hi. unfold written, splice. destruct (read_only c); [done|]. destruct (mode c); try done; intros Hne; split; try done.
  - left. split; [done|]. destruct (decide (offset <= i < offset + Z.min size 8)); [done|]. destruct Hne.
    destruct (Z.lt_ge_cases i offset); [apply list_lookup_inserts_lt; lia|apply list_lookup_inserts_ge; rewrite length_le_bytes; lia].
  - destruct (Z.eqb_spec (value .& 0xFF) 0xD0) as [Ev|]; [|done]. cbn [andb] in Hne. case_match; [|done]. right. split_and!; [done..|].
    pose proof (Z.mod_pos_bound offset 4096 ltac:(lia)). pose proof (Z.div_mod offset 4096 ltac:(lia)).
    destruct (decide (offset / 4096 * 4096 <= i < offset / 4096 * 4096 + 4096)) as [Hr|Hr].
    { symmetry. apply (Z.div_unique_pos i 4096 _ (i - offset / 4096 * 4096)); lia. }
    destruct Hne. destruct (Z.lt_ge_cases i (offset / 4096 * 4096)); [apply list_lookup_inserts_lt; lia|apply list_lookup_inserts_ge; rewrite length_replicate; lia].
Qed.

(** The firmware's probe: with the status cleared the array still reads, the
    status register reads zero once it is selected, and programming the byte
    that is there already changes nothing; the status then shows an error
    exactly on a write-protected chip. *)
Theorem pflash_probe ro mem a b : Forall (fits 8) mem -> 0 <= a -> a + 4096 < 2 ^ 64 -> len mem < 2 ^ 64 -> mem !! Z.to_nat a = Some b ->
  exists c1 c2 c3 c4 c5,
    chip_write a 1 CMD_CLEAR_STATUS (Pflash_new ro) mem = Ok (c1, mem, false) /\ chip_read c1 a 1 mem = Ok b /\
    chip_write a 1 CMD_READ_STATUS c1 mem = Ok (c2, mem, true) /\ chip_read c2 a 1 mem = Ok 0 /\
    chip_write a 1 CMD_PROGRAM c2 mem = Ok (c3, mem, false) /\ chip_write a 1 b c3 mem = Ok (c4, mem, false) /\
    chip_read c4 a 1 mem = Ok (if ro then STATUS_READY .| STATUS_PROGRAM_ERROR else STATUS_READY) /\
    chip_write a 1 CMD_READ_ARRAY c4 mem = Ok (c5, mem, true) /\ array_mode c5 = true.
Proof.
  intros Hf Ha Hov Hlen Hb. pose proof (lookup_lt_Some _ _ _ Hb) as Hlt.
  exists (mk_Pflash Array 0 ro), (mk_Pflash Status 0 ro), (mk_Pflash ProgramData 0 ro),
    (mk_Pflash Status (if ro then STATUS_READY .| STATUS_PROGRAM_ERROR else STATUS_READY) ro),
    (mk_Pflash Array (if ro then STATUS_READY .| STATUS_PROGRAM_ERROR else STATUS_READY) ro).
  split_and!; try done.
  - rewrite chip_read_array by (done || unfold len; lia). f_equal. unfold sub. change (Z.to_nat (Z.min 1 8)) with 1%nat.
    rewrite (drop_S _ b _ Hb), firstn_cons, take_0. cbn [le_value]. lia.
  - unfold chip_write. cbn [mode]. destruct ro; [done|]. cbn [read_only]. rewrite program_ok by lia. cbn [mbind res_bind]. unfold splice. cbn. do 3 f_equal.
    apply list_insert_id. rewrite Hb. f_equal. symmetry. apply Z.mod_small. by apply (Forall_lookup_1 _ _ _ _ Hf Hb).
Qed.
