(* ===== verification/VarsFlash.v ===== *)
(** * The variable store of a firmware guest: enlil-boot/src/linux_guest.rs

    [VarsFlash]: the flash chip in front of the staged variable store, whose
    pages the guest's nested tables map read-only while the chip is in array
    mode and not at all otherwise.  The theorems say that the guest cannot tell
    the mapping from the chip. *)

From Stdlib Require Import ZArith Lia Bool.
From stdpp Require Import base decidable list numbers relations.
From S2P Require Import Prelude Rust Npt NptTables NptMapper NptBuild NptEdit Storage GuestNpt Pflash.

(** The staged image is [vf_mem] and the guest's nested tables are [vf_npt];
    [vf_flush] is the request to flush the guest's translations. *)
Record VarsFlash := mk_VarsFlash {
  vf_gpa : Z; vf_len : Z; vf_mem : list Z; vf_chip : Pflash; vf_npt : buffer; vf_npt_pa : Z; vf_flush : bool;
}.

Definition vf_offset (v : VarsFlash) (gpa : Z) : option Z :=
  off ← checked_sub gpa (vf_gpa v);
  if off <? vf_len v then Some off else None.

Definition vf_read (v : VarsFlash) (off size : Z) : res Empty_set Z := chip_read (vf_chip v) off size (vf_mem v).

(** A failed remapping is not looked at. *)
Definition vf_write (v : VarsFlash) (off size value : Z) : res Empty_set VarsFlash :=
  '(chip, mem, changed) ← chip_write off size value (vf_chip v) (vf_mem v);
  if changed : bool then
    match set_npt_range_present (vf_npt_pa v) (vf_gpa v) (vf_len v) (array_mode chip) (vf_npt v) with
    | (_, Panic) => Panic
    | (npt, _) => Ok (mk_VarsFlash (vf_gpa v) (vf_len v) mem chip npt (vf_npt_pa v) true)
    end
  else Ok (mk_VarsFlash (vf_gpa v) (vf_len v) mem chip (vf_npt v) (vf_npt_pa v) (vf_flush v)).

(** [boot_firmware]'s chip, over the image and the tables it made. *)
Definition vf_new (flash : FlashLayout) (image : list Z) (npt : buffer) (npt_pa : Z) : VarsFlash :=
  mk_VarsFlash (vars_gpa flash) (vars_len flash) image (Pflash_new false) npt npt_pa false.

(** ** Hiding and showing the pages *)

Lemma present_again e b b' : set_flag (set_flag e PRESENT b) PRESENT b' = set_flag e PRESENT b'.
Proof.
  apply Z.bits_inj'. intros i Hi. destruct b, b'; cbn [set_flag]; rewrite ?Z.lor_spec, ?testbit_ldiff_1, ?Z.lor_spec, ?testbit_ldiff_1;
    change PRESENT with (bit 0); rewrite ?testbit_bit, ?(Z.eqb_sym 0 i) by lia; destruct (Z.testbit e i), (i =? 0); done.
Qed.

Lemma present_shown e : Z.testbit e 0 = true -> set_flag e PRESENT true = e.
Proof. intros H. rewrite <- (show_hide e H) at 2. by rewrite present_again. Qed.

Lemma present_other e b i : i <> 0 -> Z.testbit (set_flag e PRESENT b) i = Z.testbit e i.
Proof.
  intros Hi. destruct (Z.lt_ge_cases i 0); [by rewrite !Z.testbit_neg_r by done|]. destruct b; cbn [set_flag].
  - rewrite Z.lor_spec. change PRESENT with (bit 0). rewrite testbit_bit by lia. rewrite (proj2 (Z.eqb_neq 0 i)) by lia. apply orb_false_r.
  - rewrite testbit_ldiff_1, (proj2 (Z.eqb_neq i 0)) by done. apply andb_true_r.
Qed.

Lemma present_keeps e b : set_flag e PRESENT b .&~ PRESENT = e .&~ PRESENT.
Proof. apply Z.bits_inj'. intros i Hi. rewrite !testbit_ldiff_1. destruct (Z.eqb_spec i 0); [by rewrite !andb_false_r|]. by rewrite present_other. Qed.

Section Vars.
Context (npt_pa : Z) (buf0 : buffer) (role : roles) (f : FlashLayout).
Context (T0 : Tables npt_pa buf0 role) (guarded : guards_flash role buf0 f) (leaves : vars_leaves role buf0 f).
Context (aligned : vars_gpa f mod 4096 = 0) (placed : 0 <= vars_gpa f) (sized : 0 <= vars_len f) (paged : vars_len f mod 4096 = 0) (below : vars_gpa f + vars_len f <= 2 ^ 32).
(** The pages are not at address 0. *)
Context (somewhere : forall p t, vars_gpa f <= p < vars_gpa f + vars_len f -> p mod 4096 = 0 -> role t = Some (3, pfx 3 p) ->
  ent buf0 t (idx 3 p) .&~ PRESENT <> 0).

Abbreviation lo := (vars_gpa f).
Abbreviation hi := (vars_gpa f + vars_len f).

(** The tables are those of the boot, with the chip's pages shown or hidden. *)
Record vf_ok (v : VarsFlash) : Prop := {
  vo_place : vf_gpa v = vars_gpa f /\ vf_len v = vars_len f /\ vf_npt_pa v = npt_pa;
  vo_tables : Tables npt_pa (vf_npt v) role /\ bytes_ok (vf_npt v);
  vo_pages : range_upd role buf0 (vf_npt v) lo hi (fun e => set_flag e PRESENT (array_mode (vf_chip v)));
  vo_mem : Forall (fits 8) (vf_mem v) /\ len (vf_mem v) = vars_len f;
  vo_chip : fits 8 (status (vf_chip v)) /\ read_only (vf_chip v) = false;
}.

Lemma page_entry v p t : vf_ok v -> lo <= p < hi -> p mod 4096 = 0 -> role t = Some (3, pfx 3 p) ->
  ent (vf_npt v) t (idx 3 p) = set_flag (ent buf0 t (idx 3 p)) PRESENT (array_mode (vf_chip v)).
Proof.
  intros Hv Hp Ha Ht. destruct (vo_pages v Hv) as [_ He]. rewrite (He t 3 _ _ Ht (idx_range 3 p)), <- (page_addr p Ha). cbn [Z.eqb andb Pos.eqb].
  by rewrite (proj2 (Z.leb_le _ _)), (proj2 (Z.ltb_lt _ _)) by lia.
Qed.

Lemma range_upd_present v buf' b : vf_ok v -> range_upd role (vf_npt v) buf' lo hi (fun e => set_flag e PRESENT b) ->
  range_upd role buf0 buf' lo hi (fun e => set_flag e PRESENT b).
Proof.
  intros Hv [Hl He]. destruct (vo_pages v Hv) as [Hl0 He0]. split; [congruence|]. intros t l p i Ht Hi. rewrite (He t l p i Ht Hi), (He0 t l p i Ht Hi).
  destruct (_ && _); [apply present_again|done].
Qed.

Lemma vf_write_ok v off size value : vf_ok v -> 0 <= off < vars_len f -> 0 <= size ->
  exists v', vf_write v off size value = Ok v' /\ vf_ok v' /\ vf_mem v' = written (vf_chip v) off size value (vf_mem v) /\
    (array_mode (vf_chip v') <> array_mode (vf_chip v) -> vf_flush v' = true).
Proof.
  intros Hv Ho Hs. destruct (vo_place v Hv) as (Eg & El & Ep), (vo_tables v Hv) as [T B], (vo_mem v Hv) as [Mf Ml], (vo_chip v Hv) as [Cs Cr].
  destruct (chip_write_ok off size value (vf_chip v) (vf_mem v)) as (c' & E & Cr' & Cs'); [lia..|].
  destruct (written_bytes (vf_chip v) off size value (vf_mem v) Mf) as [Wf Wl]. unfold vf_write. rewrite E. cbn [mbind res_bind].
  destruct (eqb (array_mode (vf_chip v)) (array_mode c')) eqn:Ec; cbn [negb].
  { apply eqb_prop in Ec. eexists. split_and!; [done| |done|cbn; congruence]. split; cbn; [done|done|rewrite <- Ec; apply Hv|split; [done|congruence]|split; [auto|congruence]]. }
  rewrite Eg, El, Ep. destruct (range_present_ok npt_pa role (array_mode c') (vf_npt v) lo (vars_len f)) as (buf' & Eb & T' & B' & Hu); [done..|lia| |].
  { intros p Hp Ha. destruct (leaves p Hp Ha) as (t & Ht & _). exists t. split; [done|]. rewrite (page_entry v p t Hv Hp Ha Ht), present_keeps.
    by apply negb_true_iff, Z.eqb_neq, (somewhere p). }
  rewrite Eb. eexists. split_and!; [done| |done|done]. split; cbn; [done|done|by apply (range_upd_present v)|split; [done|congruence]|split; [auto|congruence]].
Qed.

Lemma in_vars g : in_pages lo hi g = (lo <=? g) && (g <? hi).
Proof.
  unfold in_pages. pose proof (Z.div_mod g 4096 ltac:(lia)). pose proof (Z.mod_pos_bound g 4096 ltac:(lia)).
  pose proof (Z.div_mod lo 4096 ltac:(lia)). pose proof (Z.div_mod (vars_len f) 4096 ltac:(lia)). f_equal; apply eq_true_iff_eq; rewrite ?Z.leb_le, ?Z.ltb_lt; lia.
Qed.

(** What the guest's translation is. *)
Lemma vf_translate v g : vf_ok v -> 0 <= g < 2 ^ 48 ->
  translate_npt (vf_npt v) npt_pa g = if (lo <=? g) && (g <? hi) && negb (array_mode (vf_chip v)) then None else translate_npt buf0 npt_pa g.
Proof.
  intros Hv Hg. destruct (vo_tables v Hv) as [T _]. pose proof (vo_pages v Hv) as Hu. rewrite <- in_vars. destruct (in_pages lo hi g) eqn:Hin; cbn [andb].
  2: by rewrite (range_upd_outside npt_pa role buf0 (vf_npt v) lo hi _ T0 Hu g Hg Hin).
  pose proof Hin as [?%Z.leb_le ?%Z.ltb_lt]%andb_true_iff. destruct (leaves (g - g mod 4096) ltac:(lia) (page_base_aligned g)) as (t & Ht & He).
  rewrite pfx_page in Ht by lia. rewrite idx_page in He by lia. rewrite (range_upd_inside npt_pa role buf0 (vf_npt v) lo hi _ T0 T Hu g t Hg Hin Ht). cbv zeta.
  destruct (array_mode (vf_chip v)); cbn [negb]; [|by rewrite hide_absent]. rewrite (present_shown _ He), He.
  destruct (translate_cases _ _ _ T0 g Hg) as [(t' & Ht' & E)|[(t' & _ & Hn & _)|(_ & Hn & _)]]; [|by exfalso; apply (Hn t)..].
  rewrite E, (role_eq _ _ _ T0 _ _ _ Ht' Ht). cbv zeta. by rewrite He.
Qed.

Lemma vf_guarded v : vf_ok v -> guards_flash role (vf_npt v) f.
Proof.
  intros Hv t p i Ht Hi Hr. destruct (vo_pages v Hv) as [_ He]. rewrite (He t 3 p i Ht Hi). specialize (guarded t p i Ht Hi Hr).
  destruct (_ && _); [by rewrite present_other|done].
Qed.

(** The guest stores into the chip. *)
Inductive vf_step (v : VarsFlash) : VarsFlash -> Prop :=
  | vf_store gpa off size value v' :
      vf_offset v gpa = Some off -> 0 <= size -> vf_write v off size value = Ok v' -> vf_step v v'.

Lemma vf_offset_spec v gpa off : vf_ok v -> vf_offset v gpa = Some off -> off = gpa - lo /\ 0 <= off < vars_len f.
Proof.
  intros Hv. destruct (vo_place v Hv) as (Eg & El & _). unfold vf_offset, checked_sub. rewrite Eg, El. destruct (Z.ltb_spec gpa lo); cbn [mbind option_bind]; [done|].
  destruct (Z.ltb_spec (gpa - lo) (vars_len f)); [|done]. intros [= <-]. lia.
Qed.

Lemma vf_reach v v' : vf_ok v -> rtc vf_step v v' -> vf_ok v'.
Proof.
  intros Hv. induction 1 as [|v v1 v2 Hs _ IH]; [done|]. apply IH. destruct Hs as [gpa off size value v' Ho Hn E]. apply vf_offset_spec in Ho as [_ Hr]; [|done].
  destruct (vf_write_ok v off size value Hv Hr Hn) as (v'' & E' & Hv' & _). rewrite E in E'. by injection E' as <-.
Qed.
End Vars.

(** ** From the boot on *)

Lemma mapped_somewhere npt_pa buf role p x t : Tables npt_pa buf role -> 0 <= p < 2 ^ 48 -> p mod 4096 = 0 -> role t = Some (3, pfx 3 p) ->
  translate_npt buf npt_pa p = Some x -> x <> 0 -> ent buf t (idx 3 p) .&~ PRESENT <> 0.
Proof.
  intros T Hp Ha Ht Hx Hne E. apply Hne. destruct (translate_cases _ _ _ T p Hp) as [(t' & Ht' & Et)|[(t' & _ & Hn & _)|(_ & Hn & _)]]; [|by exfalso; apply (Hn t)..].
  rewrite Et, (role_eq _ _ _ T _ _ _ Ht' Ht) in Hx. cbv zeta in Hx. destruct (Z.testbit _ 0); [|done]. injection Hx as <-.
  assert (E1 : ent buf t (idx 3 p) .& ADDR_MASK = 0).
  { apply Z.bits_inj'. intros i Hi. rewrite Z.land_spec, testbit_ADDR_MASK, Z.testbit_0_l. destruct (Z.leb_spec 12 i); [|by rewrite andb_false_r].
    apply (f_equal (fun e => Z.testbit e i)) in E. rewrite testbit_ldiff_1, (proj2 (Z.eqb_neq i 0)), Z.testbit_0_l, andb_true_r in E by lia. by rewrite E. }
  rewrite E1, Z.lor_0_l. change (PAGE_SIZE - 1) with (Z.ones 12). by rewrite Z.land_ones by lia.
Qed.

(** The bytes a load of the guest finds where its translations lead: the
    staged image is at [vars_base]. *)
Definition guest_bytes (v : VarsFlash) (vars_base gpa n : Z) : option (list Z) :=
  mapM (fun i => spa ← translate_npt (vf_npt v) (vf_npt_pa v) (gpa + i); vf_mem v !! Z.to_nat (spa - vars_base)) (seqZ 0 n).

Lemma image_bytes (view : Z -> option Z) mem vars_base off gpa n : 0 <= off -> 0 <= n -> off + n <= len mem ->
  (forall i, 0 <= i < n -> view (gpa + i) = Some (vars_base + (off + i))) ->
  mapM (fun i => spa ← view (gpa + i); mem !! Z.to_nat (spa - vars_base)) (seqZ 0 n) = Some (sub mem off n).
Proof.
  intros Ho Hn Hin Hv. apply mapM_Some. apply Forall2_same_length_lookup. split.
  { rewrite length_seqZ. pose proof (len_sub mem off n Ho Hn Hin). unfold len in *. lia. }
  intros j i b [-> Hj]%lookup_seqZ Hb. rewrite Hv by lia. cbn [mbind option_bind]. unfold sub in Hb. rewrite lookup_take_Some, lookup_drop in Hb.
  destruct Hb as [<- _]. f_equal. lia.
Qed.

Section Boot.
Context (ram_spa ram_bytes vars_base code_base c v npt_pa : Z) (f : FlashLayout) (buf buf' : buffer) (image : list Z).
Context (layout : flash_layout c v ram_bytes = Some f) (lens : 0 <= c /\ 0 <= v).
Context (ram_ok : 0 <= ram_spa /\ 0 <= ram_bytes /\ ram_spa + ram_bytes <= 2 ^ 52).
Context (vars_ok : 0 < vars_base /\ vars_base + v <= 2 ^ 52) (code_ok : 0 <= code_base /\ code_base + c <= 2 ^ 52).
Context (table_ok : 0 <= npt_pa /\ npt_pa + len buf <= 2 ^ 52 /\ bytes_ok buf).
Context (made : firmware_tables ram_spa ram_bytes vars_base code_base f buf npt_pa = Ok buf').
Context (staged : len image = v /\ Forall (fits 8) image).

Abbreviation view := (guest_view ram_spa ram_bytes vars_base code_base f).

Lemma view_vars g : vars_gpa f <= g < vars_gpa f + vars_len f -> view g = Some (vars_base + (g - vars_gpa f)).
Proof.
  destruct (flash_layout_spec c v ram_bytes f) as (Ec & Ev & Hc & Hv & _ & _ & Tc & Tv & Hl); [apply lens..|exact layout|]. intros Hg. unfold guest_view.
  by rewrite (proj2 (Z.ltb_ge g ram_bytes)), (proj2 (Z.ltb_ge g (vars_gpa f))), (proj2 (Z.ltb_lt g (code_gpa f))) by lia.
Qed.

Lemma boot_reach s : rtc vf_step (vf_new f image buf' npt_pa) s ->
  exists role, Tables npt_pa buf' role /\ guards_flash role buf' f /\ vars_leaves role buf' f /\ vf_ok npt_pa buf' role f s /\
    (forall p t, vars_gpa f <= p < vars_gpa f + vars_len f -> p mod 4096 = 0 -> role t = Some (3, pfx 3 p) -> ent buf' t (idx 3 p) .&~ PRESENT <> 0).
Proof.
  destruct (flash_layout_spec c v ram_bytes f) as (Ec & Ev & Hc & Hv & Mc & Mv & Tc & Tv & Hl); [apply lens..|exact layout|].
  destruct (firmware_tables_ok ram_spa ram_bytes vars_base code_base f c v buf npt_pa buf') as [(role & T & B & Gd & Lv) X]; [exact layout|exact lens|exact ram_ok|lia|exact code_ok|apply table_ok|apply table_ok|apply table_ok|exact made|].
  assert (Ac : (2 ^ 32 - c) mod 4096 = 0) by (by rewrite Zminus_mod, Mc).
  assert (Av : vars_gpa f mod 4096 = 0) by (replace (vars_gpa f) with (2 ^ 32 - c - v) by lia; by rewrite Zminus_mod, Ac, Mv).
  assert (Sw : forall p t, vars_gpa f <= p < vars_gpa f + vars_len f -> p mod 4096 = 0 -> role t = Some (3, pfx 3 p) -> ent buf' t (idx 3 p) .&~ PRESENT <> 0).
  { intros p t Hp Ha Ht. apply (mapped_somewhere npt_pa buf' role p (vars_base + (p - vars_gpa f)) t T); [lia|done|done| |lia]. rewrite X by lia. by apply view_vars. }
  intros Hr. exists role. split_and!; [done..| |done]. apply (vf_reach npt_pa buf' role f Lv Av ltac:(lia) ltac:(lia) ltac:(lia) Sw (vf_new f image buf' npt_pa)); [|done].
  split; cbn; [done|done| |rewrite Ev; by destruct staged|done]. split; [done|]. intros t l p i Ht Hi. destruct (_ && _) eqn:E; [|done].
  apply andb_true_iff in E as [[->%Z.eqb_eq E1%Z.leb_le]%andb_true_iff E2%Z.ltb_lt].
  set (P := (p * 512 + i) * 4096) in *. assert (HP : P mod 4096 = 0) by (by apply Z.mod_mul). destruct (Lv P ltac:(lia) HP) as (t' & Ht' & He).
  pose proof (page_addr P HP) as EP. pose proof (idx_range 3 P). assert (Epi : pfx 3 P = p /\ idx 3 P = i) by (unfold P in EP at 1; lia). destruct Epi as [Ep Ei].
  rewrite Ep in Ht'. rewrite Ei in He. rewrite (role_eq _ _ _ T _ _ _ Ht Ht'). symmetry. by apply present_shown.
Qed.

Lemma boot_translate s g : rtc vf_step (vf_new f image buf' npt_pa) s -> 0 <= g < 2 ^ 48 ->
  translate_npt (vf_npt s) npt_pa g =
    if (vars_gpa f <=? g) && (g <? vars_gpa f + vars_len f) && negb (array_mode (vf_chip s)) then None else view g.
Proof.
  intros Hr Hg. destruct (flash_layout_spec c v ram_bytes f) as (Ec & Ev & Hc & Hv & Mc & Mv & Tc & Tv & _); [apply lens..|exact layout|].
  destruct (boot_reach s Hr) as (role & T & _ & Lv & Hok & _).
  assert (Ac : (2 ^ 32 - c) mod 4096 = 0) by (by rewrite Zminus_mod, Mc).
  assert (Av : vars_gpa f mod 4096 = 0) by (replace (vars_gpa f) with (2 ^ 32 - c - v) by lia; by rewrite Zminus_mod, Ac, Mv).
  rewrite (vf_translate npt_pa buf' role f T Lv Av ltac:(congruence) s g Hok Hg).
  destruct (firmware_tables_ok ram_spa ram_bytes vars_base code_base f c v buf npt_pa buf') as [_ X];
    [exact layout|exact lens|exact ram_ok|lia|exact code_ok|apply table_ok|apply table_ok|apply table_ok|exact made|]. by rewrite X.
Qed.

(** C16: The guest's view of its variable store, from the tables the kernel
    boots it on and through any sequence of the guest's stores.  Its pages are
    mapped while the chip is in array mode and trap otherwise, are never
    writable, and every other translation stays what the boot made it.  A load
    finds by the mapping the bytes the chip would return, so the guest sees one
    flash chip.  A store never panics, changes the image only as the chip's
    command says, and asks for a flush of the guest's translations whenever
    the mapping changed. *)
Theorem vars_flash_coherent s : rtc vf_step (vf_new f image buf' npt_pa) s ->
  (forall g, 0 <= g < 2 ^ 48 -> translate_npt (vf_npt s) npt_pa g =
     if (vars_gpa f <=? g) && (g <? vars_gpa f + vars_len f) && negb (array_mode (vf_chip s)) then None else view g) /\
  flash_protected npt_pa (vf_npt s) f /\
  (forall gpa off n, vf_offset s gpa = Some off -> 0 <= n <= 8 -> off + n <= vars_len f -> array_mode (vf_chip s) = true ->
     guest_bytes s vars_base gpa n = Some (sub (vf_mem s) off n) /\ vf_read s off n = Ok (le_value (sub (vf_mem s) off n))) /\
  (forall gpa off size value, vf_offset s gpa = Some off -> 0 <= size ->
     exists s', vf_write s off size value = Ok s' /\ vf_mem s' = written (vf_chip s) off size value (vf_mem s) /\
       (array_mode (vf_chip s') <> array_mode (vf_chip s) -> vf_flush s' = true)).
Proof.
  intros Hr. destruct (flash_layout_spec c v ram_bytes f) as (Ec & Ev & Hc & Hv & Mc & Mv & Tc & Tv & Hl); [apply lens..|exact layout|].
  pose proof (boot_translate s) as Hx. destruct (boot_reach s Hr) as (role & T & Gd & Lv & Hok & Sw).
  destruct (vo_place _ _ _ _ s Hok) as (Eg & El & Ep), (vo_mem _ _ _ _ s Hok) as [Mf Ml].
  assert (Ac : (2 ^ 32 - c) mod 4096 = 0) by (by rewrite Zminus_mod, Mc).
  assert (Av : vars_gpa f mod 4096 = 0) by (replace (vars_gpa f) with (2 ^ 32 - c - v) by lia; by rewrite Zminus_mod, Ac, Mv).
  split_and!.
  - intros g Hg. by apply Hx.
  - exists role. split; [apply (vo_tables _ _ _ _ s Hok)|by apply (vf_guarded npt_pa buf' role f Gd)].
  - intros gpa off n Ho Hn Hin Ham. apply (vf_offset_spec npt_pa buf' role f s) in Ho as [-> Hor]; [|done]. split.
    + unfold guest_bytes. apply image_bytes; [lia..|]. intros i Hi. rewrite Ep, Hx by (done || lia). rewrite Ham, andb_false_r.
      rewrite view_vars by lia. f_equal. lia.
    + unfold vf_read. rewrite chip_read_array by (done || lia || (unfold array_mode in Ham; by destruct (mode (vf_chip s)))). by rewrite Z.min_l by lia.
  - intros gpa off size value Ho Hsz. apply (vf_offset_spec npt_pa buf' role f s) in Ho as [-> Hor]; [|done].
    destruct (vf_write_ok npt_pa buf' role f Lv Av ltac:(lia) ltac:(lia) ltac:(lia) Sw s (gpa - vars_gpa f) size value Hok Hor Hsz) as (s' & E & _ & Em & Ef).
    by exists s'.
Qed.
End Boot.

Lemma status_selected v s : vf_chip v = Pflash_new false -> vf_write v 0 1 CMD_READ_STATUS = Ok s -> vf_chip s = mk_Pflash Status STATUS_READY false.
Proof.
  intros Hc. unfold vf_write, chip_write. rewrite Hc. cbn -[set_npt_range_present]. destruct (set_npt_range_present _ _ _ _ _) as [b [u|e|]]; [by intros [= <-]..|done].
Qed.

(** The sample guest reads its store, and selects the status register. *)
Lemma vars_flash_coherent_witness : exists buf' s, sample_tables = Ok buf' /\
  vf_read (vf_new sample_flash (zeros 4096) buf' 0x200000) 4 2 = Ok 0 /\
  guest_bytes (vf_new sample_flash (zeros 4096) buf' 0x200000) 0x8110000 0xFFFFE004 2 = Some [0; 0] /\
  vf_write (vf_new sample_flash (zeros 4096) buf' 0x200000) 0 1 CMD_READ_STATUS = Ok s /\
  translate_npt (vf_npt s) 0x200000 0xFFFFE004 = None /\ translate_npt (vf_npt s) 0x200000 0x1234 = Some 0x4401234 /\ vf_read s 4 2 = Ok 0x8080.
Proof.
  destruct sample_tables_made as [buf' E]. exists buf'.
  assert (Hst : len (zeros 4096) = 4096 /\ Forall (fits 8) (zeros 4096)) by (split; [by rewrite len_zeros|apply bytes_ok_zeros]).
  pose proof (vars_flash_coherent 0x4400000 0x200000 0x8110000 0x8120000 4096 4096 0x200000 sample_flash (zeros 20480) buf' (zeros 4096) eq_refl
    ltac:(lia) ltac:(lia) ltac:(lia) ltac:(lia) ltac:(split_and!; [lia|by rewrite len_zeros|apply bytes_ok_zeros]) E Hst) as H.
  destruct (H _ (rtc_refl _ _)) as (_ & _ & Hload & Hstore).
  destruct (Hload 0xFFFFE004 4 2 eq_refl ltac:(lia) ltac:(cbn; lia) eq_refl) as [Hb Hrd].
  destruct (Hstore 0xFFFFE000 0 1 CMD_READ_STATUS eq_refl ltac:(lia)) as (s & Ew & _). exists s.
  destruct (H s) as (Hx & _). { apply rtc_once. exact (vf_store (vf_new sample_flash (zeros 4096) buf' 0x200000) 0xFFFFE000 0 1 CMD_READ_STATUS s eq_refl ltac:(lia) Ew). }
  split_and!; [exact E|rewrite Hrd; by vm_compute|rewrite Hb; by vm_compute|exact Ew| | |].
  - rewrite Hx by lia. by rewrite (status_selected (vf_new sample_flash (zeros 4096) buf' 0x200000) s eq_refl Ew).
  - rewrite Hx by lia. reflexivity.
  - unfold vf_read. by rewrite (status_selected (vf_new sample_flash (zeros 4096) buf' 0x200000) s eq_refl Ew).
Defined.
