(* ===== verification/ServiceVm.v ===== *)
(** * The privileged service VM: enlil-boot/src/service_vm.rs

    The plan of the domain that owns the hardware: its RAM, the device table
    and the MMIO windows ([assemble]), the move of a device to a guest
    ([transfer_device]) and the nested tables that map the RAM and the windows
    at their own addresses ([build_npt]).  The arrays of fixed size with a
    count are lists. *)

From Stdlib Require Import ZArith Lia Bool String.
From stdpp Require Import base decidable list numbers sorting.
From S2P Require Import Prelude Rust Npt NptTables NptMapper NptBuild NptEdit MemMap Cas BootMem GuestNpt.

Abbreviation SERVICE_VM_RAM_BYTES := (8 * 1024 * 1024) (only parsing).
Abbreviation MIN_SERVICE_VM_RAM_BYTES := (4 * 1024 * 1024) (only parsing).
Abbreviation SERVICE_VM_RAM_ALIGN := (2 * 1024 * 1024) (only parsing).
Abbreviation MAX_SERVICE_VM_DEVICES := 32 (only parsing).
Abbreviation MAX_MMIO_WINDOWS := 32 (only parsing).
Abbreviation MAX_BACKENDS := 4 (only parsing).
Abbreviation MAX_WINDOWS_PER_DEVICE := 4 (only parsing).
Abbreviation PAGE_4KIB := 4096 (only parsing).

Definition count {A} (l : list A) : Z := Z.of_nat (length l).

Record MmioWindow := mk_MmioWindow { wbase : Z; wsize : Z }.

Definition page_aligned (w : MmioWindow) : option MmioWindow :=
  if wsize w =? 0 then None
  else
    let base := wbase w .&~ (PAGE_4KIB - 1) in
    let end_ := saturating_add (wbase w) (wsize w) in
    let end_ := saturating_add end_ (PAGE_4KIB - 1) .&~ (PAGE_4KIB - 1) in
    Some (mk_MmioWindow base (saturating_sub end_ base)).

Definition overlaps (w other : MmioWindow) : bool :=
  (wbase w <? saturating_add (wbase other) (wsize other)) && (wbase other <? saturating_add (wbase w) (wsize w)).

Inductive Owner := OwnerServiceVm | OwnerGuest (id : Z) | OwnerHypervisor.
Inductive DriverKind := Storage | Network | Display | Usb | Other.

#[export] Instance owner_eq_dec : EqDecision Owner.
Proof. solve_decision. Defined.

Definition driver_for_class (class : Z) : DriverKind :=
  if class =? 0x01 then Storage else if class =? 0x02 then Network
  else if class =? 0x03 then Display else if class =? 0x0C then Usb else Other.

Record OwnedDevice := mk_OwnedDevice {
  device : Z; function : Z; class : Z; driver : DriverKind; owner : Owner; windows : list MmioWindow;
}.

Definition from_inventory (device function class : Z) (bars : list (Z * Z)) : option OwnedDevice :=
  if MAX_WINDOWS_PER_DEVICE <? count bars then None
  else Some (mk_OwnedDevice device function class (driver_for_class class) OwnerServiceVm ((fun bar => mk_MmioWindow bar.1 bar.2) <$> bars)).

Inductive BackendKind := BackendBlock | BackendNet | BackendConsole.
Record Backend := mk_Backend { kind : BackendKind; name : string }.

Definition DEFAULT_BACKENDS : list Backend :=
  [mk_Backend BackendBlock "blk0"; mk_Backend BackendNet "net0"; mk_Backend BackendConsole "con0"].

Record ServiceVmSpec := mk_ServiceVmSpec {
  sp_vcpus : Z; ram_base : Z; ram_size : Z; sp_devices : list OwnedDevice; sp_backends : list Backend;
  ecam : option MmioWindow; sp_framebuffer : option MmioWindow; sp_console_serial : bool;
}.

Inductive ServiceVmError :=
  | NoVcpus | RamTooSmall (size : Z) | RamUnaligned (base : Z) | RamOverflow | RamOverlapsMmio (window : MmioWindow)
  | TooManyDevices (count : Z) | TooManyMmioWindows (count : Z) | TooManyBackends (count : Z)
  | DeviceNotServiceVmOwned (device function : Z) | NptRefused (e : NptError).

Record ServiceVmPlan := mk_ServiceVmPlan {
  vcpus : Z; ram : MmioWindow; console_serial : bool; console_framebuffer : bool;
  devices : list OwnedDevice; backends : list Backend; mmio_windows : list MmioWindow; total_mmio_bytes : Z;
}.

(** The closure of [collect_mmio_windows] over the candidates so far. *)
Definition push (candidates : list MmioWindow) (window : MmioWindow) : res ServiceVmError (list MmioWindow) :=
  match page_aligned window with
  | None => Ok candidates
  | Some aligned =>
      if MAX_MMIO_WINDOWS <=? count candidates then Err (TooManyMmioWindows (count candidates + 1))
      else Ok (candidates ++ [aligned])
  end.

Fixpoint push_all (candidates ws : list MmioWindow) : res ServiceVmError (list MmioWindow) :=
  match ws with
  | [] => Ok candidates
  | w :: ws => cs ← push candidates w; push_all cs ws
  end.

Fixpoint push_devices (candidates : list MmioWindow) (ds : list OwnedDevice) : res ServiceVmError (list MmioWindow) :=
  match ds with
  | [] => Ok candidates
  | d :: ds =>
      if bool_decide (owner d = OwnerServiceVm) then
        cs ← push_all candidates (windows d);
        push_devices cs ds
      else Err (DeviceNotServiceVmOwned (device d) (function d))
  end.

Definition collect_mmio_windows (spec : ServiceVmSpec) : res ServiceVmError (list MmioWindow) :=
  cs ← push_devices [] (sp_devices spec);
  cs ← push_all cs (option_list (ecam spec));
  push_all cs (option_list (sp_framebuffer spec)).

(** Insertion sort: the sorted part is kept with its last window first, so that
    each swap to the left is a step along the list. *)
Fixpoint swap_left (w : MmioWindow) (sorted : list MmioWindow) : list MmioWindow :=
  match sorted with
  | p :: rest => if wbase w <? wbase p then p :: swap_left w rest else w :: sorted
  | [] => [w]
  end.

Definition sort_windows_by_base (ws : list MmioWindow) : list MmioWindow :=
  rev (fold_left (fun sorted w => swap_left w sorted) ws []).

(** One turn of the sweep of [merge_windows]; the last merged window is first. *)
Definition merge_step (merged : list MmioWindow) (candidate : MmioWindow) : list MmioWindow :=
  match merged with
  | [] => [candidate]
  | last :: rest =>
      let last_end := saturating_add (wbase last) (wsize last) in
      if wbase candidate <=? last_end then
        let end_ := Z.max (saturating_add (wbase candidate) (wsize candidate)) last_end in
        mk_MmioWindow (wbase last) (saturating_sub end_ (wbase last)) :: rest
      else candidate :: merged
  end.

Definition merge_windows (candidates : list MmioWindow) : list MmioWindow :=
  rev (fold_left merge_step (sort_windows_by_base candidates) []).

Definition assemble (spec : ServiceVmSpec) : res ServiceVmError ServiceVmPlan :=
  if sp_vcpus spec =? 0 then Err NoVcpus
  else if ram_size spec <? MIN_SERVICE_VM_RAM_BYTES then Err (RamTooSmall (ram_size spec))
  else if negb (ram_base spec mod SERVICE_VM_RAM_ALIGN =? 0) then Err (RamUnaligned (ram_base spec))
  else
    _ ← ok_or (checked_add (ram_base spec) (ram_size spec)) RamOverflow;
    let ram := mk_MmioWindow (ram_base spec) (ram_size spec) in
    if MAX_SERVICE_VM_DEVICES <? count (sp_devices spec) then Err (TooManyDevices (count (sp_devices spec)))
    else if MAX_BACKENDS <? count (sp_backends spec) then Err (TooManyBackends (count (sp_backends spec)))
    else
      candidates ← collect_mmio_windows spec;
      let merged := merge_windows candidates in
      match find (fun window => overlaps window ram) merged with
      | Some window => Err (RamOverlapsMmio window)
      | None =>
          Ok (mk_ServiceVmPlan (sp_vcpus spec) ram (sp_console_serial spec)
            (match sp_framebuffer spec with Some fb => negb (wsize fb =? 0) | None => false end)
            (sp_devices spec) (sp_backends spec) merged (fold_left (fun acc w => saturating_add acc (wsize w)) merged 0))
      end.

Inductive TransferError := DeviceNotFound (device function : Z) | NotOwnedByServiceVm (owner : Owner).

(** [iter_mut().find(..)]: the first match of the function is the one that moves. *)
Fixpoint transfer_slot (dev fn guest : Z) (ds : list OwnedDevice) : res TransferError (list OwnedDevice) :=
  match ds with
  | [] => Err (DeviceNotFound dev fn)
  | d :: ds =>
      if (device d =? dev) && (function d =? fn) then
        if bool_decide (owner d = OwnerServiceVm) then
          Ok (mk_OwnedDevice (device d) (function d) (class d) (driver d) (OwnerGuest guest) (windows d) :: ds)
        else Err (NotOwnedByServiceVm (owner d))
      else ds' ← transfer_slot dev fn guest ds; Ok (d :: ds')
  end.

Definition transfer_device (dev fn guest : Z) (plan : ServiceVmPlan) : ServiceVmPlan * res TransferError unit :=
  match transfer_slot dev fn guest (devices plan) with
  | Ok ds => (mk_ServiceVmPlan (vcpus plan) (ram plan) (console_serial plan) (console_framebuffer plan) ds
                (backends plan) (mmio_windows plan) (total_mmio_bytes plan), Ok tt)
  | Err e => (plan, Err e)
  | Panic => (plan, Panic)
  end.

Definition npt_table_pages : Z := 4 + 3 * MAX_MMIO_WINDOWS.

Definition map_plan (plan : ServiceVmPlan) : mapper unit :=
  map_range (wbase (ram plan)) (wbase (ram plan)) (wsize (ram plan)) [] ;;
  mfor (mmio_windows plan) (fun window => map_range (wbase window) (wbase window) (wsize window) []).

(** The tables and the value for [NESTED_CR3]. *)
Definition build_npt (plan : ServiceVmPlan) (buf : buffer) (phys_base : Z) : res ServiceVmError (buffer * Z) :=
  match mapper_new buf phys_base with
  | Ok m =>
      match map_plan plan m with
      | (m', Ok _) => Ok (mp_buf m', NptMapper.phys_base m')
      | (_, Err e) => Err (NptRefused e)
      | (_, Panic) => Panic
      end
  | Err e => Err (NptRefused e)
  | Panic => Panic
  end.

(** ** Windows *)

Definition in_win (w : MmioWindow) (x : Z) : Prop := wbase w <= x < wbase w + wsize w.
Definition in_windows (ws : list MmioWindow) (x : Z) : Prop := Exists (fun w => in_win w x) ws.
Definition win_ok (w : MmioWindow) : Prop := 0 <= wbase w /\ 0 <= wsize w /\ wbase w + wsize w < 2 ^ 64.

(** The windows of the spec, in the order they are collected. *)
Definition spec_windows (spec : ServiceVmSpec) : list MmioWindow :=
  concat (windows <$> sp_devices spec) ++ option_list (ecam spec) ++ option_list (sp_framebuffer spec).

(** A page of a window of the spec. *)
Definition device_page (spec : ServiceVmSpec) (x : Z) : Prop :=
  exists w, w ∈ spec_windows spec /\ 0 < wsize w /\ wbase w / 4096 * 4096 <= x < (wbase w + wsize w + 4095) / 4096 * 4096.

Lemma clear_page a : 0 <= a -> a .&~ (PAGE_4KIB - 1) = a / 4096 * 4096.
Proof.
  intros Ha. change (PAGE_4KIB - 1) with (Z.ones 12). rewrite Z.ldiff_ones_r by lia. by rewrite Z.shiftl_mul_pow2, Z.shiftr_div_pow2 by lia.
Qed.

Lemma page_aligned_ok w w' : fits 64 (wbase w) -> fits 64 (wsize w) -> page_aligned w = Some w' ->
  win_ok w' /\ 0 < wsize w /\ forall x, in_win w' x -> wbase w / 4096 * 4096 <= x < (wbase w + wsize w + 4095) / 4096 * 4096.
Proof.
  unfold fits, page_aligned, saturating_add, saturating_sub. intros Hb Hs. destruct (Z.eqb_spec (wsize w) 0); [done|]. intros [= <-].
  rewrite !clear_page by lia. set (e := Z.min (Z.min (wbase w + wsize w) _ + _) _).
  assert (He : e <= wbase w + wsize w + 4095 /\ 0 <= e < 2 ^ 64) by (unfold e; lia).
  pose proof (Z.div_mod e 4096 ltac:(lia)). pose proof (Z.mod_pos_bound e 4096 ltac:(lia)).
  pose proof (Z.div_le_mono e (wbase w + wsize w + 4095) 4096 ltac:(lia) ltac:(lia)).
  pose proof (Z.div_pos (wbase w) 4096 ltac:(lia) ltac:(lia)). pose proof (Z.mul_div_le (wbase w) 4096 ltac:(lia)).
  unfold win_ok, in_win. cbn. split_and!; lia.
Qed.

(** ** Collecting *)

Definition window_fits (w : MmioWindow) : Prop := fits 64 (wbase w) /\ fits 64 (wsize w).

(** Windows [cs] are good and inside the pages of [ws]. *)
Definition collected (ws cs : list MmioWindow) : Prop :=
  Forall win_ok cs /\ forall x, in_windows cs x ->
    exists w, w ∈ ws /\ 0 < wsize w /\ wbase w / 4096 * 4096 <= x < (wbase w + wsize w + 4095) / 4096 * 4096.

Lemma push_all_ok more : forall ws cs cs', Forall window_fits more -> collected ws cs -> push_all cs more = Ok cs' -> collected (ws ++ more) cs'.
Proof.
  induction more as [|w more IH]; intros ws cs cs' Hf Hc E; [injection E as <-; by rewrite app_nil_r|].
  apply Forall_cons in Hf as [[Hb Hs] Hf]. cbn [push_all] in E. unfold push in E. rewrite cons_middle, app_assoc.
  destruct Hc as [Hok Hin]. assert (Hc : collected (ws ++ [w]) cs).
  { split; [done|]. intros x Hx. destruct (Hin x Hx) as (u & Hu & ?). exists u. split; [by apply elem_of_app; left|done]. }
  destruct (page_aligned w) as [w'|] eqn:Ea; [|by apply (IH _ cs)]. destruct (_ <=? _); [done|]. cbn [mbind res_bind] in E.
  apply (IH _ (cs ++ [w'])); [done| |done]. destruct (page_aligned_ok w w' Hb Hs Ea) as (Hw & Hp & Hr). split; [by apply Forall_app; split; [|constructor]|].
  intros x [Hx|Hx]%Exists_app; [by apply Hc|]. apply Exists_cons in Hx as [Hx|Hx]; [|by apply Exists_nil in Hx].
  exists w. split; [apply elem_of_app; right; by apply list_elem_of_singleton|auto].
Qed.

Lemma push_devices_ok ds : forall ws cs cs', Forall window_fits (concat (windows <$> ds)) -> collected ws cs -> push_devices cs ds = Ok cs' ->
  collected (ws ++ concat (windows <$> ds)) cs'.
Proof.
  induction ds as [|d ds IH]; intros ws cs cs' Hf Hc E; [injection E as <-; cbn; by rewrite app_nil_r|].
  cbn in Hf |- *. apply Forall_app in Hf as [Hf1 Hf2]. cbn [push_devices] in E. destruct (bool_decide _); [|done].
  destruct (push_all cs (windows d)) as [cs1|e|] eqn:E1; [|done..]. cbn [mbind res_bind] in E. rewrite app_assoc.
  apply (IH _ cs1); [done| |done]. by apply (push_all_ok _ _ cs).
Qed.

Lemma collect_ok spec cs : Forall window_fits (spec_windows spec) -> collect_mmio_windows spec = Ok cs -> collected (spec_windows spec) cs.
Proof.
  unfold spec_windows, collect_mmio_windows. intros [Hd [He Hf]%Forall_app]%Forall_app E.
  destruct (push_devices [] _) as [c1|e|] eqn:E1; [|done..]. cbn [mbind res_bind] in E.
  destruct (push_all c1 _) as [c2|e|] eqn:E2; [|done..]. cbn [mbind res_bind] in E. rewrite app_assoc.
  apply (push_all_ok _ _ c2); [done| |done]. apply (push_all_ok _ _ c1); [done| |done].
  apply (push_devices_ok _ [] []); [done| |done]. split; [constructor|]. intros x Hx. by apply Exists_nil in Hx.
Qed.

(** ** Sorting and merging *)

Lemma swap_left_perm w l : swap_left w l ≡ₚ w :: l.
Proof.
  induction l as [|p l IH]; cbn; [done|]. destruct (_ <? _); [|done]. rewrite IH. constructor.
Qed.

Lemma sort_perm ws : sort_windows_by_base ws ≡ₚ ws.
Proof.
  unfold sort_windows_by_base. assert (H : forall acc, fold_left (fun sorted w => swap_left w sorted) ws acc ≡ₚ ws ++ acc).
  { induction ws as [|w ws IH]; intros acc; cbn; [done|]. rewrite IH, swap_left_perm. by rewrite Permutation_middle. }
  specialize (H []). rewrite app_nil_r in H. etransitivity; [symmetry; apply Permutation_rev|exact H].
Qed.

(** Merging adds no address: a window is only extended by one that touches it. *)
Lemma merge_step_ok merged w : Forall win_ok merged -> win_ok w ->
  Forall win_ok (merge_step merged w) /\ forall x, in_windows (merge_step merged w) x -> in_windows merged x \/ in_win w x.
Proof.
  intros Hm Hw. destruct merged as [|last rest]; cbn [merge_step].
  { split; [by constructor|]. intros x Hx. apply Exists_cons in Hx as [|Hx]; [by right|by apply Exists_nil in Hx]. }
  apply Forall_cons in Hm as [(L0 & L1 & L2) Hrest]. pose proof Hw as (W0 & W1 & W2). unfold saturating_add, saturating_sub. rewrite !Z.min_l by lia.
  destruct (Z.leb_spec (wbase w) (wbase last + wsize last)).
  - split; [constructor; [unfold win_ok; cbn; lia|done]|]. intros x [Hx|Hx]%Exists_cons; unfold in_windows; rewrite Exists_cons; [|auto].
    unfold in_win in *. cbn [wbase wsize] in Hx. destruct (Z.lt_ge_cases x (wbase last + wsize last)); [left; left|right]; lia.
  - split; [by repeat constructor|]. intros x [Hx|Hx]%Exists_cons; auto.
Qed.

Lemma merge_ok cs : Forall win_ok cs -> Forall win_ok (merge_windows cs) /\ forall x, in_windows (merge_windows cs) x -> in_windows cs x.
Proof.
  intros Hcs. rewrite <- (sort_perm cs) in Hcs. unfold merge_windows. set (l := sort_windows_by_base cs) in *.
  assert (H : forall acc, Forall win_ok acc -> Forall win_ok (fold_left merge_step l acc) /\
    forall x, in_windows (fold_left merge_step l acc) x -> in_windows acc x \/ in_windows l x).
  { induction l as [|w l IH]; intros acc Ha; cbn [fold_left]; [by split; [|left]|]. apply Forall_cons in Hcs as [Hw Hl].
    destruct (merge_step_ok acc w Ha Hw) as [Ha' Hi]. destruct (IH Hl _ Ha') as [Hok Hin]. split; [done|]. intros x Hx.
    unfold in_windows at 2. rewrite Exists_cons. destruct (Hin x Hx) as [Hx'|]; [|auto]. destruct (Hi x Hx'); auto. }
  destruct (H [] ltac:(constructor)) as [Hok Hin]. split; [by apply Forall_rev|]. intros x Hx. apply Exists_rev in Hx. rewrite rev_involutive in Hx.
  destruct (Hin x Hx) as [Hx'|Hx']; [by apply Exists_nil in Hx'|]. unfold in_windows, l in *. by rewrite (sort_perm cs) in Hx'.
Qed.

(** What [assemble] plans: the RAM as given and windows inside the pages of the devices. *)
Lemma assemble_ok spec plan : Forall window_fits (spec_windows spec) -> assemble spec = Ok plan ->
  ram plan = mk_MmioWindow (ram_base spec) (ram_size spec) /\ Forall win_ok (mmio_windows plan) /\
  forall x, in_windows (mmio_windows plan) x -> device_page spec x.
Proof.
  intros Hf E. unfold assemble in E. destruct (sp_vcpus spec =? 0); [done|]. destruct (ram_size spec <? _); [done|]. destruct (negb _); [done|].
  destruct (ok_or _ _) as [n|e|]; [|done..]. cbn [mbind res_bind] in E. destruct (_ <? _); [done|]. destruct (_ <? _); [done|].
  destruct (collect_mmio_windows spec) as [cs|e|] eqn:Ec; [|done..]. cbn [mbind res_bind] in E. destruct (find _ _); [done|]. injection E as <-. cbn [ram mmio_windows].
  apply collect_ok in Ec as [Hok Hin]; [|done]. destruct (merge_ok cs Hok) as [Hmo Hmi]. split_and!; [done..|]. intros x Hx. by apply Hin, Hmi.
Qed.

(** ** The tables *)

Lemma map_range_end m m' gpa spa n u : 0 <= gpa -> map_range gpa spa n [] m = (m', Ok u) -> gpa + n <= 2 ^ 48.
Proof.
  intros Hg E. unfold map_range in E. destruct (n =? 0); [done|]. destruct (_ || _); [done|].
  apply bind_inv in E as (m1 & e & E1 & E). unfold reads, checked_add in E1. destruct (gpa + n <? 2 ^ 64); [|done]. injection E1 as <- <-.
  destruct (Z.ltb_spec (2 ^ 48) (gpa + n)); [done|lia].
Qed.

(** One identity range: an address it reaches is the address itself. *)
Lemma identity_reach m m' b n u g x : mapper_inv m -> 0 <= b -> 0 <= n -> map_range b b n [] m = (m', Ok u) ->
  mapper_inv m' /\ same_frame m m' /\ (0 <= g < 2 ^ 48 -> xlate m' g = Some x -> xlate m g = Some x \/ (x = g /\ b <= x < b + n)).
Proof.
  intros Hi Hb Hn E. pose proof (map_range_end _ _ _ _ _ _ Hb E). apply map_range_adds in E as (Hi' & Hf & U); [|done|lia..].
  split_and!; [done..|]. intros Hg Hx. destruct (decide (b <= g < b + n)) as [Hin|Hin].
  - rewrite (upto_in _ _ _ _ _ _ U) in Hx by done. injection Hx as <-. right. lia.
  - left. by rewrite (upto_out _ _ _ _ _ _ U) in Hx.
Qed.

Lemma windows_reach ws : forall m m' u g x, Forall win_ok ws -> mapper_inv m -> 0 <= g < 2 ^ 48 ->
  mfor ws (fun window => map_range (wbase window) (wbase window) (wsize window) []) m = (m', Ok u) ->
  mapper_inv m' /\ same_frame m m' /\ (xlate m' g = Some x -> xlate m g = Some x \/ (x = g /\ in_windows ws x)).
Proof.
  induction ws as [|w ws IH]; intros m m' u g x Hw Hi Hg E; cbn [mfor] in E; [injection E as <- <-; by split_and!; [..|left]|].
  apply Forall_cons in Hw as [(H0 & H1 & _) Hw]. apply bind_inv in E as (m1 & u1 & E1 & E2).
  destruct (identity_reach m m1 (wbase w) (wsize w) u1 g x Hi H0 H1 E1) as (Hi1 & [F1 L1] & X1).
  destruct (IH m1 m' u g x Hw Hi1 Hg E2) as (Hi2 & [F2 L2] & X2). split_and!; [done|split; congruence|]. intros Hx. unfold in_windows. rewrite Exists_cons.
  destruct (X2 Hx) as [Hx1|[? ?]]; [|by right; auto]. destruct (X1 Hg Hx1) as [?|[? ?]]; [by left|by right; auto].
Qed.

(** The service VM sees its RAM and its windows, at their own addresses. *)
Lemma build_npt_reach plan buf pa buf' root g x :
  0 <= pa -> pa + len buf <= 2 ^ 52 -> 0 <= wbase (ram plan) -> 0 <= wsize (ram plan) -> Forall win_ok (mmio_windows plan) ->
  build_npt plan buf pa = Ok (buf', root) -> 0 <= g < 2 ^ 48 -> translate_npt buf' pa g = Some x ->
  root = pa /\ x = g /\ (in_win (ram plan) x \/ in_windows (mmio_windows plan) x).
Proof.
  intros Hp Hl H0 H1 Hw E Hg Hx. unfold build_npt in E. destruct (mapper_new buf pa) as [m|e|] eqn:En; [|done..].
  destruct (mapper_new_inv buf pa m Hp Hl En) as (Hi & Hn & Epb & _).
  destruct (map_plan plan m) as [m' [u|e|]] eqn:Em; [|done..]. injection E as <- <-. unfold map_plan in Em. apply bind_inv in Em as (m1 & u1 & E1 & E2).
  destruct (identity_reach m m1 _ _ u1 g x Hi H0 H1 E1) as (Hi1 & [F1 L1] & X1).
  destruct (windows_reach _ m1 m' u g x Hw Hi1 Hg E2) as (Hi2 & [F2 L2] & X2). split; [congruence|].
  assert (Hx' : xlate m' g = Some x) by (unfold xlate; by rewrite F2, F1, Epb).
  destruct (X2 Hx') as [Hx1|[? ?]]; [|auto]. destruct (X1 Hg Hx1) as [Hx0|[? ?]]; [by rewrite Hn in Hx0|auto].
Qed.
