(* ===== verification/Isolation.v ===== *)
(** * Guests apart: from the firmware's map to the nested tables

    The components together: the windows the kernel plans at boot (BootMem),
    the slices the guests take from them on any number of processors (Cas), and
    the nested tables made for the slices and edited while the guests run:
    [build_npt_2mib] and the faults of the proof guests (enlil-boot/src/svm.rs)
    and of a directly booted Linux, the firmware tables of GuestNpt with the
    flash chip of VarsFlash (enlil-boot/src/linux_guest.rs), and the identity
    map of the service VM (ServiceVm).  A guest of the first window that gets
    no slice runs on a block of the kernel's heap, and a fault of a proof guest
    maps a fresh one.  No memory of one guest can be reached by another. *)

From Stdlib Require Import ZArith Lia Bool.
From stdpp Require Import base decidable list numbers relations.
From S2P Require Import Prelude Rust Npt NptTables NptMapper NptBuild NptEdit NptSplit NptDirty MemMap Cas BootMem GuestNpt VarsFlash ServiceVm.

(** ** Faults of a proof guest *)

(** The page of the faulting address in [EXITINFO2]. *)
Definition fault_page (exit_info_2 : Z) : Z := exit_info_2 .&~ (HUGE_2MIB - 1).

(** [.is_ok()] of an edit. *)
Definition succeeds {A} (f : npt A) : npt bool := fun buf =>
  match f buf with (buf', Ok _) => (buf', Ok true) | (buf', Err _) => (buf', Ok false) | (buf', Panic) => (buf', Panic) end.

(** [frame] is what the allocator returned; [ncr3] is the root the guest runs on. *)
Definition demand_map_npf (frame : option Z) (exit_info_2 ncr3 : Z) : npt bool :=
  match frame with
  | None => mret false
  | Some frame_spa => succeeds (map_npt_2mib_leaf ncr3 (fault_page exit_info_2) frame_spa)
  end.

Definition grant_npf_write (exit_info_2 ncr3 : Z) : npt bool :=
  succeeds (set_npt_2mib_leaf_writable ncr3 (fault_page exit_info_2) true).

(** ** Guests *)

(** The guests, by the window they ask for RAM and their place in its requests:
    proof guests and the service VM, and the guests with an operating system. *)
Inductive guest := WindowGuest (i : nat) | OsGuest (i : nat).

(** The pages the tables go to: heap memory, below the physical limit. *)
Definition table_buf (npt_pa : Z) (buf : buffer) : Prop := 0 <= npt_pa /\ npt_pa + len buf <= 2 ^ 52 /\ bytes_ok buf.

Section Boots.
Context (heap : Z -> Prop) (m0 : MemoryMap) (claimed : list (Z * Z)) (s1 s2 : shared (R := Z * Z)).

(** A block of the heap, as the allocator hands it out. *)
Definition heap_block (b n : Z) : Prop := 0 <= b /\ b + n <= 2 ^ 52 /\ forall x, b <= x < b + n -> heap x.

(** The RAM of the [i]-th request to the first window: a slice of it, or a
    block of the heap when the window is exhausted or was not published.  The
    last argument lists the blocks of the heap the guest holds. *)
Inductive window_ram (i : nat) (n align : Z) : Z -> list (Z * Z) -> Prop :=
  | ram_slice spa : threads s1 !! i = Some ((n, align), Done (Some spa)) -> window_ram i n align spa []
  | ram_fallback spa : threads s1 !! i = Some ((n, align), Done None) -> heap_block spa n -> window_ram i n align spa [(spa, spa + n)].

(** One edit of a proof guest's tables while it runs: a missing page is
    mapped to a fresh block, a write-protected leaf is made writable, or the
    dirty log protects a leaf again. *)
Inductive npf_step (ncr3 : Z) : buffer * list (Z * Z) -> buffer * list (Z * Z) -> Prop :=
  | npf_demand exit_info_2 frame buf buf' r blocks :
      0 <= exit_info_2 < 2 ^ 48 -> heap_block frame (2 * MIB) ->
      demand_map_npf (Some frame) exit_info_2 ncr3 buf = (buf', r) ->
      npf_step ncr3 (buf, blocks) (buf', (frame, frame + 2 * MIB) :: blocks)
  | npf_grant exit_info_2 buf buf' r blocks :
      0 <= exit_info_2 < 2 ^ 48 -> grant_npf_write exit_info_2 ncr3 buf = (buf', r) -> npf_step ncr3 (buf, blocks) (buf', blocks)
  | npf_protect gpa buf buf' r blocks :
      0 <= gpa < 2 ^ 48 -> set_npt_2mib_leaf_writable ncr3 gpa false buf = (buf', r) -> npf_step ncr3 (buf, blocks) (buf', blocks).

(** Memory that is not the heap's and that no window is made of: not usable by
    the firmware's map, or claimed. *)
Definition outside (x : Z) : Prop := ~ heap x /\ (kind_at m0 x = Some Usable -> in_spans claimed x).

(** [runs g npt_pa buf shown blocks]: with [s1] and [s2] the state of the two
    windows' requests, guest [g] runs on the tables in [buf].  [shown] is the
    memory it is given besides its RAM: the flash images the loader staged, or
    the device windows of the service VM, which lie outside the RAM the kernel
    plans with; [blocks] are the blocks of the heap it was given. *)
Inductive runs : guest -> Z -> buffer -> (Z -> Prop) -> list (Z * Z) -> Prop :=
  | runs_proof i spa npt_pa buf buf0 buf' l blocks0 blocks :
      window_ram i (2 * MIB) (2 * MIB) spa blocks0 -> table_buf npt_pa buf -> len buf = 3 * 4096 ->
      build_npt_2mib npt_pa spa (2 * MIB) buf = (buf0, Ok l) ->
      rtc (npf_step npt_pa) (buf0, blocks0) (buf', blocks) ->
      runs (WindowGuest i) npt_pa buf' (fun _ => False) blocks
  | runs_service i spec plan npt_pa buf buf' root blocks :
      window_ram i SERVICE_VM_RAM_BYTES SERVICE_VM_RAM_ALIGN (ram_base spec) blocks -> table_buf npt_pa buf ->
      ram_size spec = SERVICE_VM_RAM_BYTES -> Forall window_fits (spec_windows spec) -> (forall x, device_page spec x -> outside x) ->
      assemble spec = Ok plan -> build_npt plan buf npt_pa = Ok (buf', root) ->
      runs (WindowGuest i) npt_pa buf' (device_page spec) blocks
  | runs_linux i spa npt_pa buf buf' l :
      threads s2 !! i = Some ((256 * MIB, 2 * MIB), Done (Some spa)) -> table_buf npt_pa buf ->
      build_npt_2mib npt_pa spa (256 * MIB) buf = (buf', Ok l) ->
      runs (OsGuest i) npt_pa buf' (fun _ => False) []
  | runs_firmware i spa n vars_base v code_base c f npt_pa buf buf' image chip :
      threads s2 !! i = Some ((n, 2 * MIB), Done (Some spa)) -> table_buf npt_pa buf ->
      flash_layout c v n = Some f -> 0 <= c -> 0 <= v ->
      0 < vars_base /\ vars_base + v <= 2 ^ 52 -> 0 <= code_base /\ code_base + c <= 2 ^ 52 ->
      (forall x, vars_base <= x < vars_base + v \/ code_base <= x < code_base + c -> outside x) ->
      firmware_tables spa n vars_base code_base f buf npt_pa = Ok buf' ->
      len image = v /\ Forall (fits 8) image -> rtc vf_step (vf_new f image buf' npt_pa) chip ->
      runs (OsGuest i) npt_pa (vf_npt chip) (fun x => vars_base <= x < vars_base + v \/ code_base <= x < code_base + c) [].

(** The slice of a window a guest took. *)
Definition owns (g : guest) (lo n : Z) : Prop :=
  match g with
  | WindowGuest i => exists a, threads s1 !! i = Some ((n, a), Done (Some lo))
  | OsGuest i => exists a, threads s2 !! i = Some ((n, a), Done (Some lo))
  end.

(** ** One guest *)

(** The memory a proof guest's tables lead to, and that they stay tables. *)
Definition leads (npt_pa : Z) (buf : buffer) (P : Z -> Prop) : Prop :=
  npt_wf npt_pa buf /\ bytes_ok buf /\ forall a x, 0 <= a < 2 ^ 48 -> translate_npt buf npt_pa a = Some x -> P x.

Lemma leads_mono npt_pa buf (P Q : Z -> Prop) : (forall x, P x -> Q x) -> leads npt_pa buf P -> leads npt_pa buf Q.
Proof. intros H (W & B & X). split_and!; [done..|]. eauto. Qed.

Lemma build_2mib_leads npt_pa spa k buf buf' l :
  table_buf npt_pa buf -> 0 <= spa -> 0 <= k -> spa + k * (2 * MIB) <= 2 ^ 52 -> build_npt_2mib npt_pa spa (k * (2 * MIB)) buf = (buf', Ok l) ->
  leads npt_pa buf' (fun x => spa <= x < spa + k * (2 * MIB)).
Proof.
  intros (H0 & H1 & Hby) Hs Hk Hb E. set (n := k * (2 * MIB)) in *.
  assert (Ed : div_ceil n HUGE_2MIB * 2 ^ 21 = n).
  { unfold div_ceil, n. change HUGE_2MIB with (2 ^ 21). change (2 * (1024 * 1024)) with (2 ^ 21).
    replace (k * 2 ^ 21 + 2 ^ 21 - 1) with (2 ^ 21 - 1 + k * 2 ^ 21) by lia. rewrite Z.div_add by done. rewrite Z.div_small by lia. lia. }
  assert (Hn : 0 <= n) by (unfold n; lia). pose proof (build_2mib_byte_safe npt_pa spa n buf Hby) as Hby'. rewrite E in Hby'.
  destruct (build_2mib_valid npt_pa spa n (len buf)) eqn:Hv.
  2: { destruct (build_2mib_rejects npt_pa spa n buf Hn Hv) as [e E']. congruence. }
  pose proof (build_2mib_run npt_pa spa n buf H0 H1 Hs Hn ltac:(rewrite Ed; lia) Hv) as Hrun. unfold wp in Hrun. rewrite E in Hrun. cbn in Hrun.
  destruct Hrun as (_ & Hl & Hw). destruct (build_2mib_translate npt_pa spa n buf buf') as (T & _ & X); [done|by rewrite Hl|done..|rewrite Ed; lia|by rewrite Hl|done|].
  split; [by eexists|]. split; [done|]. intros a x Ha Hx. rewrite X, Ed in Hx by done. destruct (Z.ltb_spec a n); [|done]. injection Hx as <-. lia.
Qed.

Lemma fault_page_ok a : 0 <= a < 2 ^ 48 -> 0 <= fault_page a < 2 ^ 48 /\ fault_page a mod 2 ^ 21 = 0.
Proof.
  intros Ha. unfold fault_page. change (HUGE_2MIB - 1) with (Z.ones 21). rewrite Z.ldiff_ones_r, Z.shiftl_mul_pow2, Z.shiftr_div_pow2 by lia.
  pose proof (Z.div_mod a (2 ^ 21) ltac:(lia)). pose proof (Z.mod_pos_bound a (2 ^ 21) ltac:(lia)). pose proof (Z.div_pos a (2 ^ 21) ltac:(lia) ltac:(lia)).
  split; [lia|]. by apply Z.mod_mul.
Qed.

(** A demand-mapped page leads to its frame. *)
Lemma demand_leads npt_pa buf buf' gpa frame r P : leads npt_pa buf P -> 0 <= gpa < 2 ^ 48 -> 0 <= frame /\ frame + 2 * MIB <= 2 ^ 52 ->
  demand_map_npf (Some frame) gpa npt_pa buf = (buf', r) -> leads npt_pa buf' (fun x => P x \/ frame <= x < frame + 2 * MIB).
Proof.
  intros ([role T] & B & X) Hg Hf E. destruct (fault_page_ok gpa Hg) as [Hp _].
  assert (S : byte_safe (map_npt_2mib_leaf npt_pa (fault_page gpa) frame)) by (unfold map_npt_2mib_leaf; byte_safe). specialize (S buf B).
  pose proof (map_huge_run npt_pa buf role (fault_page gpa) frame T Hp ltac:(unfold fits; lia)) as H. unfold wp in H.
  assert (Eb : (map_npt_2mib_leaf npt_pa (fault_page gpa) frame buf).1 = buf').
  { unfold demand_map_npf, succeeds in E. destruct (map_npt_2mib_leaf _ _ _ buf) as [b [?|?|]]; by injection E as <- <-. }
  rewrite Eb in S, H. destruct H as [(_ & _ & _ & W & _ & Ht)|(-> & _)].
  - split_and!; [done..|]. intros a x Ha Hx. rewrite Ht in Hx by done. case_match; [|left; by eapply X]. injection Hx as <-. right.
    pose proof (Z.mod_pos_bound a (2 ^ 21) ltac:(lia)). lia.
  - split_and!; [by eexists|done|]. intros a x Ha Hx. left. by eapply X.
Qed.

(** Write permission leads nowhere else. *)
Lemma writable_leads npt_pa buf buf' gpa w r P : leads npt_pa buf P -> 0 <= gpa < 2 ^ 48 ->
  set_npt_2mib_leaf_writable npt_pa gpa w buf = (buf', r) -> leads npt_pa buf' P.
Proof.
  intros L Hg E. pose proof L as ([role T] & B & X).
  assert (H : wp (set_npt_2mib_leaf_writable npt_pa gpa w) (fun buf' _ => buf' = buf \/ (gpa mod 2 ^ 21 = 0 /\ huge_leaf role buf gpa)) buf).
  { unfold set_npt_2mib_leaf_writable. rewrite tst_huge. destruct (Z.eqb_spec (gpa mod 2 ^ 21) 0) as [Ha|]; cbn [negb]; [|by left].
    apply (wp_walk_pd npt_pa buf role T gpa Hg); [|by left]. intros t Ht. destruct (tb_in _ _ _ T _ _ _ Ht) as (Hin & _). pose proof (idx_range 2 gpa).
    rewrite pd_i_idx. apply wp_bind. eapply wp_eq; [unfold reads; by rewrite read_entry_ent|]. cbv beta iota. rewrite tst_PRESENT, tst_HUGE.
    destruct (Z.testbit _ 0) eqn:E0; [|by left]. destruct (Z.testbit _ 7) eqn:E7; [|by left]. cbn [negb orb]. unfold wp. right. split; [done|]. by exists t. }
  unfold wp in H. rewrite E in H. cbn in H. destruct H as [->|[Ha Hh]]; [done|].
  pose proof (protect_spec npt_pa buf role gpa w T B Hg Ha Hh) as H. unfold wp in H. rewrite E in H. cbn in H. destruct H as (_ & B' & T' & t & Ht & _ & He).
  split_and!; [by eexists|done|]. intros a x Hax Hx. apply (X a x Hax). rewrite <- Hx. symmetry. apply (translate_same_leaves npt_pa role buf buf' a T T' Hax).
  intros t' l Ht' _. rewrite He by (congruence || apply idx_range). case_bool_decide as Et; [|done]. injection Et as -> Ei. rewrite Ei.
  by rewrite testbit_set_writable, set_writable_addr by lia.
Qed.

Lemma in_spans_cons b e l x : in_spans ((b, e) :: l) x <-> b <= x < e \/ in_spans l x.
Proof. apply Exists_cons. Qed.

Lemma npf_leads ncr3 P s s' : rtc (npf_step ncr3) s s' ->
  (forall x, in_spans s.2 x -> heap x) -> leads ncr3 s.1 (fun x => P x \/ in_spans s.2 x) ->
  (forall x, in_spans s'.2 x -> heap x) /\ leads ncr3 s'.1 (fun x => P x \/ in_spans s'.2 x).
Proof.
  induction 1 as [|s s1' s' Hs _ IH]; [done|]. intros Hh L. apply IH; clear IH; destruct Hs as [gpa fr b b' r bl Hg (F0 & F1 & F2) E|gpa b b' r bl Hg E|gpa b b' r bl Hg E]; cbn [fst snd] in *; try done.
  - intros x [Hx|Hx]%in_spans_cons; auto.
  - eapply leads_mono; [|by eapply (demand_leads ncr3 b b' gpa fr r)]. intros x. cbn beta. rewrite in_spans_cons. tauto.
  - assert (E' : (set_npt_2mib_leaf_writable ncr3 (fault_page gpa) true b).1 = b').
    { unfold grant_npf_write, succeeds in E. destruct (set_npt_2mib_leaf_writable _ _ _ b) as [? [?|?|]]; by injection E as <- <-. }
    eapply (writable_leads ncr3 b b' (fault_page gpa) true); [done|by apply fault_page_ok|]. rewrite <- E'. apply surjective_pairing.
  - by eapply (writable_leads ncr3 b b' gpa false r).
Qed.

Lemma guest_view_reach spa n vb cb f c v x a : flash_layout c v n = Some f -> 0 <= c -> 0 <= v -> 0 <= a ->
  guest_view spa n vb cb f a = Some x -> spa <= x < spa + n \/ (vb <= x < vb + v \/ cb <= x < cb + c).
Proof.
  intros Hf Hc Hv Ha. destruct (flash_layout_spec c v n f Hc Hv Hf) as (_ & _ & _ & _ & _ & _ & Tc & Tv & _). unfold guest_view.
  destruct (Z.ltb_spec a n); [intros [= <-]; lia|]. destruct (Z.ltb_spec a (vars_gpa f)); [done|].
  destruct (Z.ltb_spec a (code_gpa f)); [intros [= <-]; lia|]. destruct (Z.ltb_spec a (2 ^ 32)); [intros [= <-]; lia|done].
Qed.

(** The slice of [g] holds [x]. *)
Definition in_slice (g : guest) (x : Z) : Prop := exists lo n, owns g lo n /\ lo <= x < lo + n.

Context (bounded : forall g lo n, owns g lo n -> 0 <= lo /\ 0 < n /\ lo + n <= 2 ^ 52).

Lemma window_ram_ok i n align spa blocks : window_ram i n align spa blocks ->
  0 <= spa /\ spa + n <= 2 ^ 52 /\ (forall x, in_spans blocks x -> heap x) /\
  forall x, spa <= x < spa + n -> in_slice (WindowGuest i) x \/ in_spans blocks x.
Proof.
  intros [b Hi|b Hi (H0 & H1 & H2)].
  - assert (Ho : owns (WindowGuest i) b n) by (by exists align). destruct (bounded _ _ _ Ho) as (H0 & _ & H1). split_and!; [done..| |].
    + intros x Hx. by apply Exists_nil in Hx.
    + intros x Hx. left. by exists b, n.
  - split_and!; [done..| |]; intros x Hx; [apply in_spans_cons in Hx as [Hx|Hx]; [auto|by apply Exists_nil in Hx]|]. right. apply in_spans_cons. by left.
Qed.

(** A guest reaches its slice, what it is shown and its blocks of the heap. *)
Lemma runs_reach g npt_pa buf shown blocks : runs g npt_pa buf shown blocks ->
  (forall x, shown x -> outside x) /\ (forall x, in_spans blocks x -> heap x) /\
  forall a x, 0 <= a < 2 ^ 48 -> translate_npt buf npt_pa a = Some x -> in_slice g x \/ shown x \/ in_spans blocks x.
Proof.
  intros [i spa pa b b0 b' l bl0 bl Hr Ht Hl E Hs|i spec plan pa b b' root bl Hr Ht Hsz Hf Ho Ea E|i spa pa b b' l Hi Ht E|i spa n vb v cb c f pa b b' im ch Hi Ht Hf Hc Hv Hvb Hcb Ho E Him Hch].
  - destruct (window_ram_ok _ _ _ _ _ Hr) as (H0 & H1 & Hh & Hin). pose proof (build_2mib_leads pa spa 1 b b0 l Ht H0 ltac:(lia) ltac:(lia) E) as L.
    destruct (npf_leads pa (in_slice (WindowGuest i)) _ _ Hs Hh) as (Hh' & _ & _ & X); [|by split_and!; [..|intros a x Ha Hx; destruct (X a x Ha Hx); auto]].
    eapply leads_mono; [|exact L]. intros x Hx. apply Hin. cbn beta in Hx. lia.
  - destruct (window_ram_ok _ _ _ _ _ Hr) as (H0 & H1 & Hh & Hin). destruct (assemble_ok spec plan Hf Ea) as (Er & Hw & Hd). split_and!; [done..|].
    intros a x Ha Hx. destruct (build_npt_reach plan b pa b' root a x) as (_ & _ & Hx'); [apply Ht|apply Ht|rewrite Er; done || (cbn; lia)..|done|done|done|done|].
    destruct Hx' as [Hx'|Hx']; [|by right; left; apply Hd]. rewrite Er in Hx'. unfold in_win in Hx'. cbn [wbase wsize] in Hx'. rewrite Hsz in Hx'. destruct (Hin x Hx'); auto.
  - assert (Hw : owns (OsGuest i) spa (256 * MIB)) by (by eexists). destruct (bounded _ _ _ Hw) as (H0 & _ & H1).
    split_and!; [done|intros x Hx; by apply Exists_nil in Hx|]. intros a x Ha Hx. left. exists spa, (256 * MIB). split; [done|].
    destruct (build_2mib_leads pa spa 128 b b' l Ht H0 ltac:(lia) H1 E) as (_ & _ & X). by apply (X a x).
  - assert (Hw : owns (OsGuest i) spa n) by (by eexists). destruct (bounded _ _ _ Hw) as (H0 & H1 & H2).
    split_and!; [done|intros x Hx; by apply Exists_nil in Hx|]. intros a x Ha Hx.
    rewrite (boot_translate spa n vb cb c v pa f b b' im) in Hx; [|done|done|lia|done|done|done|done|done|done|done]. case_match; [done|].
    apply (guest_view_reach spa n vb cb f c v x a) in Hx as [Hx|Hx]; [left|by right; left|done|done|done|lia]. by exists spa, n.
Qed.
End Boots.

(** ** All guests *)

Section Guests.
Variables (hi dsz : Z) (bytes : list Z) (h : BootHandoff) (m0 : MemoryMap) (claimed : list (Z * Z)) (w : Windows).
Hypothesis firmware : firmware_ok hi dsz bytes h m0 claimed.
Hypothesis planned : windows_ok dsz bytes m0 claimed w.
Variables (rs1 rs2 : list (Z * Z)) (s1 s2 : shared (R := Z * Z)).
Hypothesis reach1 : rtc (takes (WINDOW w)) (at_start (wnext (WINDOW w)) rs1) s1.
Hypothesis reach2 : rtc (takes (LINUX w)) (at_start (wnext (LINUX w)) rs2) s2.

(** The window a guest takes its RAM from. *)
Definition window_of (g : guest) : RamWindow := match g with WindowGuest _ => WINDOW w | OsGuest _ => LINUX w end.

Lemma owns_window g lo n : owns s1 s2 g lo n -> 0 < n /\ forall x, lo <= x < lo + n -> in_window x (window_of g).
Proof.
  destruct g as [i|i]; intros [a E]; [destruct (taken_slices _ _ _ reach1) as [H _]|destruct (taken_slices _ _ _ reach2) as [H _]];
    destruct (H _ _ _ E) as (_ & Hn & _ & Hl & Hu); cbn in Hn, Hu; (split; [done|]); intros x Hx; unfold in_window; cbn [window_of]; lia.
Qed.

Lemma owns_private g lo n x : owns s1 s2 g lo n -> lo <= x < lo + n -> private dsz bytes m0 claimed x.
Proof.
  intros Ho Hx. destruct (owns_window g lo n Ho) as [_ Hw]. destruct planned as [Hp _]. apply Hp. destruct g; [left|right]; by apply Hw.
Qed.

Lemma private_bounds x : private dsz bytes m0 claimed x -> 0 <= x < hi.
Proof.
  intros (Hk & _). apply kind_at_Some in Hk as (r & Hr & Hc & _). pose proof (ordered_elem hi 0 m0 r (fw_ordered _ _ _ _ _ _ firmware) Hr).
  destruct (covers_spec x r); [lia|done].
Qed.

Lemma owns_bounds g lo n : owns s1 s2 g lo n -> 0 <= lo /\ 0 < n /\ lo + n <= 2 ^ 52.
Proof.
  intros Ho. destruct (owns_window g lo n Ho) as [Hn _]. pose proof (fw_top _ _ _ _ _ _ firmware).
  pose proof (private_bounds lo (owns_private g lo n lo Ho ltac:(lia))).
  pose proof (private_bounds (lo + n - 1) (owns_private g lo n (lo + n - 1) Ho ltac:(lia))). lia.
Qed.

Lemma slice_private g x : in_slice s1 s2 g x -> private dsz bytes m0 claimed x.
Proof. intros (lo & n & Ho & Hx). by eapply owns_private. Qed.

(** Slices of different guests are apart. *)
Lemma slices_apart g g' x : g <> g' -> in_slice s1 s2 g x -> in_slice s1 s2 g' x -> False.
Proof.
  intros Hne (lo & n & Ho & Hx) (lo' & n' & Ho' & Hx'). destruct (owns_window _ _ _ Ho) as [_ Hw]. destruct (owns_window _ _ _ Ho') as [_ Hw'].
  specialize (Hw x Hx). specialize (Hw' x Hx'). destruct planned as [_ Hd].
  destruct g as [i|i], g' as [j|j]; cbn [window_of] in *; [|by apply (Hd x)..|]; destruct Ho as [a E], Ho' as [a' E'].
  - destruct (taken_slices _ _ _ reach1) as [_ H]. destruct (H i j _ _ _ _ ltac:(congruence) E E'); cbn in *; lia.
  - destruct (taken_slices _ _ _ reach2) as [_ H]. destruct (H i j _ _ _ _ ltac:(congruence) E E'); cbn in *; lia.
Qed.
End Guests.

(** The allocator gives two guests different memory. *)
Definition apart (blocks blocks' : list (Z * Z)) : Prop := forall x, in_spans blocks x -> in_spans blocks' x -> False.

(** C1: Isolation of guests, end to end.  The kernel boots on the firmware's
    map and plans its windows without a panic; then proof guests, the service
    VM and OS guests take their RAM on any number of processors, in any
    interleaving, and run on the nested tables the kernel makes for them and
    edits: demand-mapped pages, write protection, hidden flash.  Whatever
    guest-physical address a guest uses, it reaches usable memory outside the
    kernel's heap and outside what the firmware owns; or what it is shown, its
    flash images or the service VM's device windows; or a block of the heap
    that was allocated for it, as RAM when its window had none or as a page it
    faulted on.  Memory that two different guests both reach is shown to both,
    when the allocator gave them different blocks. *)
Theorem guests_isolated hi dsz bytes h m0 claimed : firmware_ok hi dsz bytes h m0 claimed ->
  let heap := in_heap (bring_up_heap (summarize_memory_map bytes dsz)) in
  exists w, boot_memory bytes dsz h no_windows = (w, Ok tt) /\
  forall rs1 rs2 s1 s2,
    rtc (takes (WINDOW w)) (at_start (wnext (WINDOW w)) rs1) s1 -> rtc (takes (LINUX w)) (at_start (wnext (LINUX w)) rs2) s2 ->
    forall g npt_pa buf shown blocks, runs heap m0 claimed s1 s2 g npt_pa buf shown blocks ->
    forall a x, 0 <= a < 2 ^ 48 -> translate_npt buf npt_pa a = Some x ->
      ((kind_at m0 x = Some Usable /\ ~ heap x /\ ~ firmware_owned (descriptors bytes dsz) h x) \/ shown x \/ (heap x /\ in_spans blocks x)) /\
      forall g' npt_pa' buf' shown' blocks' a', g' <> g -> runs heap m0 claimed s1 s2 g' npt_pa' buf' shown' blocks' -> apart blocks blocks' ->
        0 <= a' < 2 ^ 48 -> translate_npt buf' npt_pa' a' = Some x -> shown x /\ shown' x.
Proof.
  intros Hf heap. pose proof Hf as [H1 H2 H3 H4 H5 H6]. destruct (boot_memory_ok hi dsz bytes h m0 claimed) as (w & E & Hw & _); [done || lia..|].
  exists w. split; [done|]. intros rs1 rs2 s1 s2 R1 R2 g pa buf shown blocks Hr a x Ha Hx.
  pose proof (owns_bounds hi dsz bytes h m0 claimed w Hf Hw rs1 rs2 s1 s2 R1 R2) as Hb.
  pose proof (fun g x => slice_private dsz bytes m0 claimed w Hw rs1 rs2 s1 s2 R1 R2 g x) as Hp.
  destruct (runs_reach heap m0 claimed s1 s2 Hb _ _ _ _ _ Hr) as (Hs & Hh & X). destruct (X a x Ha Hx) as [Hin|Hin].
  - destruct (Hp g x Hin) as (Hk & Hnh & Hc). split; [left; split_and!; [done..|]; intros Hfo; apply Hc; by apply (claims_cover hi dsz bytes h m0)|].
    intros g' pa' buf' shown' blocks' a' Hne Hr' Hap Ha' Hx'. exfalso.
    destruct (runs_reach heap m0 claimed s1 s2 Hb _ _ _ _ _ Hr') as (Hs' & Hh' & X'). destruct (X' a' x Ha' Hx') as [Hin'|[[_ Hin']%Hs'|Hin'%Hh']]; [|auto..].
    by apply (slices_apart dsz bytes m0 claimed w Hw rs1 rs2 s1 s2 R1 R2 g g' x).
  - split; [right; destruct Hin; [by left|right; auto]|]. intros g' pa' buf' shown' blocks' a' Hne Hr' Hap Ha' Hx'.
    destruct (runs_reach heap m0 claimed s1 s2 Hb _ _ _ _ _ Hr') as (Hs' & Hh' & X'). destruct (X' a' x Ha' Hx') as [Hin'|Hin'].
    + destruct (Hp g' x Hin') as (Hk & Hnh & Hc). exfalso. destruct Hin as [[_ Hin]%Hs|Hin%Hh]; auto.
    + destruct Hin as [Hin|Hin], Hin' as [Hin'|Hin']; [done|exfalso; by apply (proj1 (Hs x Hin)), Hh'|exfalso; by apply (proj1 (Hs' x Hin')), Hh|by destruct (Hap x)].
Qed.

(** ** A proof guest beside the service VM

    The proof guest has faulted on its second page; the service VM owns one
    device with a 2 KiB register window. *)

Abbreviation sample_heap := (in_heap (bring_up_heap (summarize_memory_map sample_map 32))).
Definition sample_requests : list (Z * Z) := [sample_request; (SERVICE_VM_RAM_BYTES, SERVICE_VM_RAM_ALIGN)].
Definition sample_taken : shared :=
  mk_shared [0x4E00000; 0x4600000; 0x4400000] [(sample_request, Done (Some 0x4400000)); ((SERVICE_VM_RAM_BYTES, SERVICE_VM_RAM_ALIGN), Done (Some 0x4600000))].

Lemma sample_taken_reached : rtc (takes (WINDOW sample_windows)) (at_start 0x4400000 sample_requests) sample_taken.
Proof.
  eapply rtc_l; [apply (step_load _ _ 0 sample_request 0x4400000); [done|left]|].
  eapply rtc_l; [by apply (step_swap _ _ 0 sample_request 0x4400000 0x4400000 0x4600000)|].
  eapply rtc_l; [apply (step_load _ _ 1 (SERVICE_VM_RAM_BYTES, SERVICE_VM_RAM_ALIGN) 0x4600000); [done|left]|].
  eapply rtc_l; [by apply (step_swap _ _ 1 (SERVICE_VM_RAM_BYTES, SERVICE_VM_RAM_ALIGN) 0x4600000 0x4600000 0x4E00000)|]. apply rtc_refl.
Qed.

Definition sample_proof : buffer := (build_npt_2mib 0x200000 0x4400000 (2 * MIB) (zeros 12288)).1.
Definition sample_faulted : buffer := (demand_map_npf (Some 0x400000) 0x212345 0x200000 sample_proof).1.

Definition sample_device : OwnedDevice := mk_OwnedDevice 3 0 0x02 Network OwnerServiceVm [mk_MmioWindow 0xFEB00400 0x800].
Definition sample_spec : ServiceVmSpec := mk_ServiceVmSpec 1 0x4600000 SERVICE_VM_RAM_BYTES [sample_device] DEFAULT_BACKENDS None None true.
Definition sample_service_plan : ServiceVmPlan :=
  mk_ServiceVmPlan 1 (mk_MmioWindow 0x4600000 SERVICE_VM_RAM_BYTES) true false [sample_device] DEFAULT_BACKENDS [mk_MmioWindow 0xFEB00000 0x1000] 0x1000.
Definition sample_service : buffer := match build_npt sample_service_plan (zeros 24576) 0x300000 with Ok (buf, _) => buf | _ => [] end.

Lemma sample_block b n : 0x100000 <= b -> b + n <= 0x800000 -> heap_block sample_heap b n.
Proof.
  intros Hb Hn. split_and!; [lia..|]. intros x Hx. assert (E : bring_up_heap (summarize_memory_map sample_map 32) = Some (0x100000, 0x4000000)) by (by vm_compute).
  rewrite E. cbn. lia.
Qed.

Lemma sample_proof_runs s2 : runs sample_heap sample_regions sample_claimed sample_taken s2 (WindowGuest 0) 0x200000 sample_faulted (fun _ => False) [(0x400000, 0x400000 + 2 * MIB)].
Proof.
  assert (Ok1 : exists l, build_npt_2mib 0x200000 0x4400000 (2 * MIB) (zeros 12288) = (sample_proof, Ok l)).
  { assert (E : is_ok (build_npt_2mib 0x200000 0x4400000 (2 * MIB) (zeros 12288)).2 = true) by (by vm_compute). unfold sample_proof.
    destruct (build_npt_2mib _ _ _ _) as [b [l|e|]]; [by exists l|done..]. }
  destruct Ok1 as [l El]. eapply runs_proof; [by apply ram_slice| | |exact El|].
  - split_and!; [done|by rewrite len_zeros|apply bytes_ok_zeros].
  - by rewrite len_zeros.
  - eapply rtc_once, (npf_demand _ _ 0x212345 0x400000); [lia|apply sample_block; lia|]. apply surjective_pairing.
Qed.

Lemma sample_service_runs s2 : runs sample_heap sample_regions sample_claimed sample_taken s2 (WindowGuest 1) 0x300000 sample_service (device_page sample_spec) [].
Proof.
  eapply (runs_service _ _ _ _ _ 1 sample_spec sample_service_plan _ (zeros 24576) _ 0x300000); [by apply ram_slice| |done| | |by vm_compute|].
  - split_and!; [done|by rewrite len_zeros|apply bytes_ok_zeros].
  - by repeat constructor.
  - intros x (w & Hw & _ & Hx). apply list_elem_of_singleton in Hw as ->. cbn [wbase wsize] in Hx.
    change (0xFEB00400 / 4096 * 4096) with 0xFEB00000 in Hx. split.
    + assert (E : bring_up_heap (summarize_memory_map sample_map 32) = Some (0x100000, 0x4000000)) by (by vm_compute). rewrite E. cbn. lia.
    + intros (r & Hr & Hc & _)%kind_at_Some. destruct (covers_spec x r); [|done]. exfalso. unfold sample_regions in Hr.
      rewrite !elem_of_cons in Hr. destruct Hr as [->|[->|[->|[->|Hr]]]]; [cbn in *; lia..|by apply not_elem_of_nil in Hr].
  - assert (E : match build_npt sample_service_plan (zeros 24576) 0x300000 with Ok (_, root) => root =? 0x300000 | _ => false end = true) by (by vm_compute).
    unfold sample_service. destruct (build_npt _ _ _) as [[b root]|e|]; [|done..]. by apply Z.eqb_eq in E as ->.
Qed.

Lemma guests_isolated_witness : exists w, boot_memory sample_map 32 sample_handoff no_windows = (w, Ok tt) /\
  translate_npt sample_faulted 0x200000 0x212345 = Some 0x412345 /\ translate_npt sample_service 0x300000 0xFEB00123 = Some 0xFEB00123 /\
  forall a, 0 <= a < 2 ^ 48 -> translate_npt sample_service 0x300000 a <> Some 0x412345.
Proof.
  destruct (guests_isolated 0x8200000 32 sample_map sample_handoff sample_regions sample_claimed sample_firmware) as (w & E & H).
  exists w. rewrite sample_boot in E. injection E as <-. assert (T : translate_npt sample_faulted 0x200000 0x212345 = Some 0x412345) by (by vm_compute).
  split_and!; [exact sample_boot|exact T|by vm_compute|]. intros a Ha Ht.
  destruct (H sample_requests [] sample_taken (at_start 0x5400000 []) sample_taken_reached (rtc_refl _ _)
    _ _ _ _ _ (sample_proof_runs _) 0x212345 0x412345 ltac:(lia) T) as [_ Hx].
  destruct (Hx (WindowGuest 1) 0x300000 sample_service _ _ a ltac:(congruence) (sample_service_runs _)) as [[] _]; [|exact Ha|exact Ht].
  intros x _ Hn. by apply Exists_nil in Hn.
Defined.
