(* ===== verification/Mgmt.v ===== *)
(** * The management protocol's frames: enlil-mgmt-proto/src/lib.rs

    A message travels as its JSON text behind a four-byte little-endian length;
    the receiver gathers bytes as they arrive and takes complete frames off the
    front.  JSON itself is serde's: a serializer and a parser given as
    arguments. *)

From Stdlib Require Import ZArith Lia Bool.
From stdpp Require Import base decidable list numbers.
From S2P Require Import Prelude Rust Storage.

Abbreviation MAX_FRAME := (16 * 1024 * 1024) (only parsing).

(** Without the payload of the foreign errors. *)
Inductive ProtocolError := Io | Json | FrameTooLarge (n : Z) | Disconnected.

Record FrameDecoder := mk_FrameDecoder { fd_buf : list Z }.

Definition FrameDecoder_new : FrameDecoder := mk_FrameDecoder [].

Definition push (data : list Z) (d : FrameDecoder) : FrameDecoder := mk_FrameDecoder (fd_buf d ++ data).

Section Codec.
(** [serde_json::to_vec] and [serde_json::from_slice] at a message type. *)
Context {T : Type} (to_vec : T -> option (list Z)) (from_slice : list Z -> option T).

Definition encode (msg : T) : res ProtocolError (list Z) :=
  match to_vec msg with
  | None => Err Json
  | Some json => if len json <? 2 ^ 32 then Ok (le_bytes 4 (len json) ++ json) else Err (FrameTooLarge (len json))
  end.

Definition decode : M FrameDecoder ProtocolError (option T) := fun d =>
  let buf := fd_buf d in
  if len buf <? 4 then (d, Ok None)
  else
    let n := le_value (take 4 buf) in
    if MAX_FRAME <? n then (d, Err (FrameTooLarge n))
    else if len buf <? 4 + n then (d, Ok None)
    else
      (mk_FrameDecoder (drop (Z.to_nat (4 + n)) buf),
       match from_slice (sub buf 4 n) with Some msg => Ok (Some msg) | None => Err Json end).

(** ** One frame *)

Definition frame (json : list Z) : list Z := le_bytes 4 (len json) ++ json.

Lemma frame_head json rest : len json < 2 ^ 32 -> le_value (take 4 (frame json ++ rest)) = len json.
Proof.
  intros Hl. unfold frame. rewrite <- app_assoc, take_app_length' by (by rewrite length_le_bytes). rewrite le_value_bytes. apply Z.mod_small.
  pose proof (len_nonneg json). change (256 ^ Z.of_nat 4) with (2 ^ 32). lia.
Qed.

Lemma len_frame json : len (frame json) = 4 + len json.
Proof. unfold frame. rewrite len_app. unfold len at 1. rewrite length_le_bytes. lia. Qed.

(** A complete frame at the front comes off, whatever it parses to. *)
Lemma decode_frame json rest : len json <= MAX_FRAME ->
  decode (mk_FrameDecoder (frame json ++ rest)) =
    (mk_FrameDecoder rest, match from_slice json with Some msg => Ok (Some msg) | None => Err Json end).
Proof.
  intros Hl. unfold decode. cbn [fd_buf]. pose proof (len_nonneg json). pose proof (len_nonneg rest). rewrite len_app, len_frame, frame_head by lia.
  rewrite (proj2 (Z.ltb_ge (4 + len json + len rest) 4)), (proj2 (Z.ltb_ge MAX_FRAME _)), (proj2 (Z.ltb_ge _ (4 + len json))) by lia.
  assert (El : Z.to_nat (4 + len json) = length (frame json)) by (pose proof (len_frame json) as Hf; unfold len in *; lia). f_equal.
  - f_equal. rewrite El. apply drop_app_length.
  - unfold sub, frame. rewrite <- app_assoc, drop_app_length' by (by rewrite length_le_bytes). by rewrite take_app_length' by (unfold len; lia).
Qed.

(** Part of a frame waits. *)
Lemma decode_part json buf rest : len json <= MAX_FRAME -> rest <> [] -> buf ++ rest = frame json -> decode (mk_FrameDecoder buf) = (mk_FrameDecoder buf, Ok None).
Proof.
  intros Hl Hr E. unfold decode. cbn [fd_buf]. destruct (Z.ltb_spec (len buf) 4) as [|H4]; [done|].
  assert (Hlen : len buf < 4 + len json).
  { rewrite <- len_frame, <- E, len_app. destruct rest; [done|]. unfold len. cbn [length]. lia. }
  assert (Eh : take 4 buf = take 4 (frame json ++ [])) by (rewrite app_nil_r, <- E; symmetry; apply take_app_le; unfold len in *; lia).
  rewrite Eh, frame_head by lia. by rewrite (proj2 (Z.ltb_ge MAX_FRAME _)), (proj2 (Z.ltb_lt _ _)) by lia.
Qed.

(** ** Streams *)

(** What the receiver does: bytes arrive, or it asks for a message. *)
Inductive op := Push (data : list Z) | Decode.

Fixpoint run_ops (ops : list op) (d : FrameDecoder) : FrameDecoder * list (res ProtocolError (option T)) :=
  match ops with
  | [] => (d, [])
  | Push data :: ops' => run_ops ops' (push data d)
  | Decode :: ops' => let '(d1, r) := decode d in let '(d2, rs) := run_ops ops' d1 in (d2, r :: rs)
  end.

Definition pushed (ops : list op) : list Z := concat ((fun o => match o with Push data => data | Decode => [] end) <$> ops).

(** The answers of a receiver that gets the texts [js] in order. *)
Definition answer (json : list Z) : res ProtocolError (option T) := match from_slice json with Some msg => Ok (Some msg) | None => Err Json end.
Definition answers (rs : list (res ProtocolError (option T))) : list (res ProtocolError (option T)) :=
  omap (fun r => match r with Ok None => None | _ => Some r end) rs.

Lemma decode_stream js buf rest : Forall (fun j => len j <= MAX_FRAME) js -> buf ++ rest = concat (frame <$> js) ->
  (decode (mk_FrameDecoder buf) = (mk_FrameDecoder buf, Ok None)) \/
  exists j js' buf', js = j :: js' /\ buf = frame j ++ buf' /\ buf' ++ rest = concat (frame <$> js') /\ decode (mk_FrameDecoder buf) = (mk_FrameDecoder buf', answer j).
Proof.
  intros Hf E. destruct js as [|j js]; cbn [fmap list_fmap concat] in E.
  { apply app_eq_nil in E as [-> _]. by left. }
  apply Forall_cons_1 in Hf as [Hj _]. destruct (decide (length (frame j) <= length buf)%nat) as [Hle|Hgt].
  - right. exists j, js, (drop (length (frame j)) buf).
    assert (Eb : buf = frame j ++ drop (length (frame j)) buf).
    { rewrite <- (take_drop (length (frame j)) buf) at 1. f_equal. apply (f_equal (take (length (frame j)))) in E. rewrite take_app_length, take_app_le in E by done. done. }
    split_and!; [done|done| |rewrite Eb at 1; by apply decode_frame]. rewrite Eb, <- app_assoc in E. by apply app_inv_head in E.
  - left. apply (decode_part j buf (drop (length buf) (frame j)) Hj).
    + intros Hn. apply (f_equal length) in Hn. rewrite length_drop in Hn. cbn [length] in Hn. lia.
    + apply (f_equal (take (length buf))) in E. rewrite take_app_length, take_app_le in E by lia. rewrite E at 1. by rewrite take_drop.
Qed.

Lemma run_stream ops : forall js buf rest d rs, Forall (fun j => len j <= MAX_FRAME) js -> buf ++ pushed ops ++ rest = concat (frame <$> js) ->
  run_ops ops (mk_FrameDecoder buf) = (d, rs) ->
  exists k, answers rs = answer <$> take k js /\ fd_buf d ++ rest = concat (frame <$> drop k js).
Proof.
  induction ops as [|[data|] ops IH]; intros js buf rest d rs Hf E; cbn [run_ops].
  - intros [= <- <-]. exists 0%nat. split; [done|]. exact E.
  - intros Hr. apply (IH js (buf ++ data) rest d rs Hf); [|done]. unfold pushed in *. cbn [fmap list_fmap concat] in E. by rewrite <- !app_assoc in *.
  - destruct (decode_stream js buf (pushed ops ++ rest) Hf E) as [Ed|(j & js' & buf' & -> & -> & E' & Ed)]; rewrite Ed.
    + destruct (run_ops ops (mk_FrameDecoder buf)) as [d2 rs2] eqn:Er. intros [= <- <-]. apply (IH js buf rest d2 rs2 Hf E Er).
    + destruct (run_ops ops (mk_FrameDecoder buf')) as [d2 rs2] eqn:Er. intros [= <- <-]. apply Forall_cons_1 in Hf as [_ Hf].
      destruct (IH js' buf' rest d2 rs2 Hf E' Er) as (k & Ha & Hb). exists (S k). split; [|done]. cbn [take fmap list_fmap]. rewrite <- Ha. unfold answers, answer.
      cbn [omap list_omap]. by destruct (from_slice j).
Qed.

(** All that arrived can be taken. *)
Lemma run_drain js : Forall (fun j => len j <= MAX_FRAME) js ->
  run_ops (replicate (length js) Decode) (mk_FrameDecoder (concat (frame <$> js))) = (FrameDecoder_new, answer <$> js).
Proof.
  induction js as [|j js IH]; intros Hf; [done|]. apply Forall_cons_1 in Hf as [Hj Hf]. cbn [length replicate run_ops fmap list_fmap concat].
  rewrite decode_frame by done. by rewrite IH.
Qed.

(** A frame that is too large stays. *)
Lemma oversized_stays buf : 4 <= len buf -> MAX_FRAME < le_value (take 4 buf) ->
  forall ops data, run_ops ops (mk_FrameDecoder (buf ++ data)) =
    (mk_FrameDecoder (buf ++ data ++ pushed ops),
     omap (fun o => match o with Push _ => None | Decode => Some (Err (FrameTooLarge (le_value (take 4 buf)))) end) ops).
Proof.
  intros H4 Hm. induction ops as [|[more|] ops IH]; intros data; cbn [run_ops].
  - by rewrite app_nil_r.
  - unfold push. cbn [fd_buf]. rewrite <- app_assoc, IH. unfold pushed. cbn [fmap list_fmap concat omap list_omap]. by rewrite <- app_assoc.
  - unfold decode. cbn [fd_buf]. rewrite take_app_le by (unfold len in *; lia). pose proof (len_nonneg data).
    rewrite len_app, (proj2 (Z.ltb_ge (len buf + len data) 4)), (proj2 (Z.ltb_lt MAX_FRAME _)) by lia. by rewrite IH.
Qed.

Lemma encode_frame m fr : encode m = Ok fr -> exists j, to_vec m = Some j /\ fr = frame j /\ len j < 2 ^ 32.
Proof. unfold encode. destruct (to_vec m) as [j|]; [|done]. destruct (Z.ltb_spec (len j) (2 ^ 32)); [|done]. intros [= <-]. by exists j. Qed.

(** What the receiver should get for a message: what the parser makes of the
    message's own text, which is the message whenever it survives JSON. *)
Definition reply (m : T) : res ProtocolError (option T) := match to_vec m with Some json => answer json | None => Err Json end.

Lemma encode_frames msgs frames : Forall2 (fun m fr => encode m = Ok fr /\ len fr <= 4 + MAX_FRAME) msgs frames ->
  exists js, frames = frame <$> js /\ Forall (fun j => len j <= MAX_FRAME) js /\ answer <$> js = reply <$> msgs.
Proof.
  induction 1 as [|m fr msgs frames [E Hl] _ (js & -> & Hf & Ha)]; [by exists []|]. apply encode_frame in E as (j & Ej & -> & _). rewrite len_frame in Hl.
  exists (j :: js). split_and!; [done|constructor; [lia|done]|]. cbn [fmap list_fmap]. rewrite Ha. unfold reply. by rewrite Ej.
Qed.

(** C29: Messages survive the stream.  Take any sequence of messages whose frames
    are within the decoder's limit of 16 MiB.  However their bytes are cut into
    pieces, and whenever the receiver asks in between, its answers are those of
    the messages in order, none twice, none lost and none out of thin air: each
    is what the JSON parser makes of that message's own text, and a text it
    rejects spoils no other message.  What has not been answered yet is exactly
    the rest of the stream; once all bytes have arrived the receiver gets the
    answers of every message that is left. *)
Theorem mgmt_stream_roundtrip msgs frames ops rest d rs :
  Forall2 (fun m fr => encode m = Ok fr /\ len fr <= 4 + MAX_FRAME) msgs frames ->
  pushed ops ++ rest = concat frames -> run_ops ops FrameDecoder_new = (d, rs) ->
  exists k, answers rs = reply <$> take k msgs /\ fd_buf d ++ rest = concat (drop k frames) /\
    (rest = [] -> run_ops (replicate (length (drop k msgs)) Decode) d = (FrameDecoder_new, reply <$> drop k msgs)).
Proof.
  intros Hm E Hr. destruct (encode_frames msgs frames Hm) as (js & -> & Hf & Ha).
  destruct (run_stream ops js [] rest d rs Hf E Hr) as (k & Hk & Hb). exists k. rewrite <- fmap_drop. split_and!; [|done|].
  - by rewrite Hk, fmap_take, Ha, fmap_take.
  - intros ->. rewrite app_nil_r in Hb. destruct d as [b]. cbn [fd_buf] in Hb. subst b.
    assert (El : length (drop k msgs) = length (drop k js)) by (apply (f_equal length) in Ha; rewrite !length_fmap in Ha; rewrite !length_drop; lia).
    rewrite El, run_drain by (by apply Forall_drop). f_equal. by rewrite !fmap_drop, Ha.
Qed.
End Codec.

(** The encoder's limit is not the decoder's: a message whose text is longer
    than 16 MiB and shorter than 4 GiB is encoded, and the receiver is stuck on
    it, whatever arrives afterwards. *)
Theorem mgmt_oversized_sticks {T} (to_vec : T -> option (list Z)) (from_slice : list Z -> option T) m j ops data :
  to_vec m = Some j -> MAX_FRAME < len j < 2 ^ 32 ->
  exists fr, encode to_vec m = Ok fr /\
    Forall (fun r => r = Err (FrameTooLarge (len j))) (run_ops from_slice ops (mk_FrameDecoder (fr ++ data))).2.
Proof.
  intros Ej Hl. exists (frame j). split; [unfold encode; by rewrite Ej, (proj2 (Z.ltb_lt _ _)) by lia|].
  pose proof (frame_head j [] ltac:(lia)) as Hh. rewrite app_nil_r in Hh. pose proof (len_frame j).
  rewrite oversized_stays, Hh by lia. cbn [snd]. apply Forall_forall. intros r Hin%list_elem_of_In. apply list_elem_of_omap in Hin as ([x|] & _ & Hx); [done|]. by injection Hx.
Qed.

(** ** A small protocol *)

(** Messages that are their own text; the parser rejects the empty text and
    reads 255 as 0, as a lossy one does. *)
Abbreviation sample_to_vec := (fun m : list Z => Some m).
Abbreviation sample_from_slice := (fun j : list Z => if decide (j = []) then None else Some ((fun b => if b =? 255 then 0 else b) <$> j)).
(** Three messages arrive in three pieces, with questions in between. *)
Abbreviation sample_ops := [Push [2; 0]; Decode; Push [0; 0; 7; 255; 0; 0; 0; 0; 1]; Decode; Decode; Decode; Push [0; 0; 0; 9]].

Lemma mgmt_stream_roundtrip_witness : exists d, run_ops sample_from_slice sample_ops FrameDecoder_new = (d, [Ok None; Ok (Some [7; 0]); Err Json; Ok None]) /\
  run_ops sample_from_slice [Decode] d = (FrameDecoder_new, [Ok (Some [9])]).
Proof.
  assert (Hm : Forall2 (fun m fr => encode sample_to_vec m = Ok fr /\ len fr <= 4 + MAX_FRAME) [[7; 255]; []; [9]] [[2; 0; 0; 0; 7; 255]; [0; 0; 0; 0]; [1; 0; 0; 0; 9]])
    by (repeat constructor; by vm_compute).
  destruct (mgmt_stream_roundtrip sample_to_vec sample_from_slice [[7; 255]; []; [9]] [[2; 0; 0; 0; 7; 255]; [0; 0; 0; 0]; [1; 0; 0; 0; 9]] sample_ops []
    _ _ Hm eq_refl eq_refl) as (k & Hk & _ & Hd). specialize (Hd eq_refl). eexists. split; [reflexivity|].
  destruct k as [|[|[|k]]]; [discriminate Hk|discriminate Hk|exact Hd|discriminate Hk].
Defined.
