(* ===== verification/Ralloc.v ===== *)
(** * The slab allocator: enlil-platform/src/redox/ralloc.rs

    [Ralloc] over byte-addressed memory: slab pages with their headers and the
    free lists threaded through the free blocks, one list of slabs with room
    per size class, and large allocations with a header before the payload.
    Pages come from a page source, which is an interface; the bump source of
    the early boot implements it.  The heap lock makes the operations one
    after another, which is how they are modelled; the counters are the
    atomics of the statistics.

    The theorems say that the allocator keeps the [GlobalAlloc] contract:
    whatever the clients allocate, free, reallocate and write into their
    memory, live allocations are aligned, apart and inside pages the source
    handed out, and no operation of the allocator touches the contents of a
    live allocation. *)

From Stdlib Require Import ZArith Lia Bool.
From stdpp Require Import base decidable list numbers gmap fin_maps relations.
From S2P Require Import Prelude Rust Cas.

(** ** Memory *)

Definition memory := Z -> Z.

(** Little-endian accesses of [n] bytes. *)
Definition load (n : nat) (m : memory) (a : Z) : Z := le_value ((fun i => m (a + i)) <$> seqZ 0 (Z.of_nat n)).
Definition store (n : nat) (m : memory) (a v : Z) : memory := fun x =>
  if (a <=? x) && (x <? a + Z.of_nat n) then (v / 256 ^ (x - a)) mod 256 else m x.

(** [copy_nonoverlapping(src, dst, n)] *)
Definition copy_bytes (m : memory) (src dst n : Z) : memory := fun x =>
  if (dst <=? x) && (x <? dst + n) then m (src + (x - dst)) else m x.

(** ** Sizes *)

Abbreviation PAGE_SIZE := 4096 (only parsing).
Abbreviation CLASS_MIN := 8 (only parsing).
Abbreviation CLASS_MAX := 2048 (only parsing).
Abbreviation N_CLASSES := 9 (only parsing).
(** [size_of::<SlabHead>()] and [size_of::<LargeHead>()]: class at 0, avail at
    4, capacity at 6, free_list at 8, next at 16; base at 0, pages at 8, size
    at 16. *)
Abbreviation SLAB_HEAD := 24 (only parsing).
Abbreviation LARGE_HEAD := 24 (only parsing).

Definition align_up (value align : Z) : Z := (value + align - 1) .&~ (align - 1).

Definition next_power_of_two (x : Z) : Z := 2 ^ Z.log2_up x.
Definition trailing_zeros (x : Z) : Z := Z.log2 (x .& (- x)).

Definition class_index (size align : Z) : option Z :=
  if (CLASS_MAX <? size) || (CLASS_MAX <? align) then None
  else
    let need := next_power_of_two (Z.max (Z.max size align) CLASS_MIN) in
    Some (trailing_zeros need - trailing_zeros CLASS_MIN).

Definition block_size (class : Z) : Z := CLASS_MIN .<< class.
Definition data_offset (class : Z) : Z := align_up SLAB_HEAD (block_size class).
Definition capacity (class : Z) : Z := (PAGE_SIZE - data_offset class) / block_size class.

(** ** The page source *)

Class PageSource (S : Type) := {
  alloc_pages : Z -> M S Empty_set Z;
  free_pages : Z -> Z -> S -> S;
}.

Record BumpPageSource := mk_BumpPageSource { bump_base : Z; bump_next : Z; bump_end : Z }.

Definition BumpPageSource_new (base len_ : Z) : res Empty_set BumpPageSource :=
  e ← radd base len_; Ok (mk_BumpPageSource base base e).

Abbreviation used_bytes s := (Z.max 0 (bump_next s - bump_base s)) (only parsing).

(** The body of the loop of [alloc_pages], from the value of [next] seen. *)
Definition bump_propose (end_ count current : Z) : res Empty_set (option (Z * Z)) :=
  let len_ := Z.min (count * PAGE_SIZE) usize_max in
  up ← radd current PAGE_SIZE;
  let aligned := align_up current PAGE_SIZE in
  match checked_add aligned len_ with
  | None => Ok None
  | Some next => if end_ <? next then Ok None else Ok (Some (aligned, next))
  end.

Definition bump_alloc_pages (count : Z) : M BumpPageSource Empty_set Z := fun s =>
  let '(n, r) := cas_run (bump_propose (bump_end s)) count (bump_next s) in
  (mk_BumpPageSource (bump_base s) n (bump_end s), o ← r; Ok (default 0 o)).

#[export] Instance bump_source : PageSource BumpPageSource := {|
  alloc_pages := bump_alloc_pages;
  free_pages := fun _ _ s => s;
|}.

(** ** The allocator *)

Section Ralloc.
Context {S : Type} `{PageSource S}.

Record Ralloc := mk_Ralloc {
  mem : memory; partial : list Z; source : S;
  slab_bytes : Z; large_bytes : Z; slab_allocs : Z; large_allocs : Z;
}.

Definition Ralloc_new (m : memory) (s : S) : Ralloc := mk_Ralloc m (replicate 9 0) s 0 0 0 0.

Abbreviation heap := (M Ralloc Empty_set).

Definition set_mem (m : memory) (h : Ralloc) : Ralloc :=
  mk_Ralloc m (partial h) (source h) (slab_bytes h) (large_bytes h) (slab_allocs h) (large_allocs h).
Definition put (n : nat) (a v : Z) : heap unit := fun h => (set_mem (store n (mem h) a v) h, Ok tt).
Definition peek (n : nat) (a : Z) : heap Z := reads (fun h => Ok (load n (mem h) a)).
Definition set_partial (class v : Z) : heap unit := fun h =>
  (mk_Ralloc (mem h) (<[Z.to_nat class := v]> (partial h)) (source h) (slab_bytes h) (large_bytes h) (slab_allocs h) (large_allocs h), Ok tt).
Definition get_partial (class : Z) : heap Z := reads (fun h => Ok (partial h !!! Z.to_nat class)).
(** [fetch_add] and [fetch_sub] wrap. *)
Definition count_slab (bytes allocs : Z) : heap unit := fun h =>
  (mk_Ralloc (mem h) (partial h) (source h) ((slab_bytes h + bytes) mod 2 ^ 64) (large_bytes h) ((slab_allocs h + allocs) mod 2 ^ 64) (large_allocs h), Ok tt).
Definition count_large (bytes allocs : Z) : heap unit := fun h =>
  (mk_Ralloc (mem h) (partial h) (source h) (slab_bytes h) ((large_bytes h + bytes) mod 2 ^ 64) (slab_allocs h) ((large_allocs h + allocs) mod 2 ^ 64), Ok tt).

Definition take_pages (count : Z) : heap Z := fun h =>
  let '(s, r) := alloc_pages count (source h) in
  (mk_Ralloc (mem h) (partial h) s (slab_bytes h) (large_bytes h) (slab_allocs h) (large_allocs h), r).
Definition give_pages (p count : Z) : heap unit := fun h =>
  (mk_Ralloc (mem h) (partial h) (free_pages p count (source h)) (slab_bytes h) (large_bytes h) (slab_allocs h) (large_allocs h), Ok tt).

(** The addresses of a slab's blocks. *)
Definition blocks (class page : Z) : list Z := (fun i => page + data_offset class + i * block_size class) <$> seqZ 0 (capacity class).

(** The loop that links the blocks, the last one first. *)
Fixpoint link_blocks (bs : list Z) (free : Z) : heap Z :=
  match bs with
  | [] => mret free
  | b :: bs' => put 8 b free ;; link_blocks bs' b
  end.

Definition new_slab (class : Z) : heap Z :=
  page ← take_pages 1;
  if page =? 0 then mret 0
  else
    put 1 page class ;;
    put 3 (page + 1) 0 ;;
    put 2 (page + 4) (capacity class) ;;
    put 2 (page + 6) (capacity class) ;;
    put 8 (page + 8) 0 ;;
    put 8 (page + 16) 0 ;;
    free ← link_blocks (reverse (blocks class page)) 0;
    put 8 (page + 8) free ;;
    mret page.

(** The slab to allocate from: the first with room, or a new one. *)
Definition find_slab (class : Z) : heap Z :=
  head ← get_partial class;
  if head =? 0 then
    page ← new_slab class;
    if page =? 0 then mret 0 else set_partial class page ;; mret page
  else mret head.

(** The first free block of [head]; a slab without another is unlinked. *)
Definition pop_block (class head : Z) : heap Z :=
  block ← peek 8 (head + 8);
  next_free ← peek 8 block;
  put 8 (head + 8) next_free ;;
  avail ← peek 2 (head + 4);
  avail' ← lift (rsub avail 1);
  put 2 (head + 4) avail' ;;
  (if avail' =? 0 then
     next ← peek 8 (head + 16);
     set_partial class next ;;
     put 8 (head + 16) 0
   else mret tt) ;;
  count_slab (block_size class) 1 ;;
  mret block.

Definition alloc_slab (size align : Z) : heap Z :=
  match class_index size align with
  | None => panic
  | Some class =>
      head ← find_slab class;
      if head =? 0 then mret 0 else pop_block class head
  end.

(** One turn of the loop that unlinks [head]: [at_] is the slab whose [next]
    the link is. *)
Definition unlink_step (m : memory) (head at_ : Z) : Z + option memory :=
  let x := load 8 m (at_ + 16) in
  if x =? 0 then inr None
  else if x =? head then inr (Some (store 8 m (at_ + 16) (load 8 m (head + 16))))
  else inl x.

(** The loop: the first link is in the class's table, the others in slabs.
    There are at most [2 ^ 52] pages. *)
Definition unlink (class head : Z) : heap unit := fun h =>
  let first := partial h !!! Z.to_nat class in
  if first =? 0 then (h, Ok tt)
  else if first =? head then set_partial class (load 8 (mem h) (head + 16)) h
  else match iter_until 52 (unlink_step (mem h) head) first with
       | inr (Some m) => (set_mem m h, Ok tt)
       | inr None => (h, Ok tt)
       | inl _ => (h, Panic)
       end.

Definition dealloc_slab (ptr : Z) : heap unit :=
  let head := ptr .&~ (PAGE_SIZE - 1) in
  class ← peek 1 head;
  avail ← peek 2 (head + 4);
  free_list ← peek 8 (head + 8);
  put 8 ptr free_list ;;
  put 8 (head + 8) ptr ;;
  avail' ← lift (if avail + 1 <? 2 ^ 16 then Ok (avail + 1) else Panic);
  put 2 (head + 4) avail' ;;
  count_slab (- block_size class) 0 ;;
  cap ← peek 2 (head + 6);
  if avail' =? cap then
    unlink class head ;;
    give_pages head 1
  else if avail =? 0 then
    first ← get_partial class;
    put 8 (head + 16) first ;;
    set_partial class head
  else mret tt.

Definition alloc_large (size align : Z) : heap Z :=
  match v ← checked_add size align; checked_add v LARGE_HEAD with
  | None => mret 0
  | Some total =>
      let pages := div_ceil total PAGE_SIZE in
      base ← take_pages pages;
      if base =? 0 then mret 0
      else
        start ← lift (radd base LARGE_HEAD);
        lift (radd start align) ;;
        let aligned := align_up start align in
        put 8 (aligned - LARGE_HEAD) base ;;
        put 8 (aligned - LARGE_HEAD + 8) pages ;;
        put 8 (aligned - LARGE_HEAD + 16) size ;;
        count_large size 1 ;;
        mret aligned
  end.

Definition dealloc_large (ptr : Z) : heap unit :=
  base ← peek 8 (ptr - LARGE_HEAD);
  pages ← peek 8 (ptr - LARGE_HEAD + 8);
  size ← peek 8 (ptr - LARGE_HEAD + 16);
  count_large (- size) 0 ;;
  give_pages base pages.

(** A layout's size and alignment; the dangling pointer of an empty one. *)
Definition alloc (size align : Z) : heap Z :=
  if size =? 0 then mret 1
  else match class_index size align with
       | Some _ => alloc_slab size align
       | None => alloc_large size align
       end.

Definition dealloc (ptr size align : Z) : heap unit :=
  if size =? 0 then mret tt
  else match class_index size align with
       | Some _ => dealloc_slab ptr
       | None => dealloc_large ptr
       end.

(** [Layout::from_size_align(size, align).is_ok()] *)
Definition layout_ok (size align : Z) : bool := is_power_of_two align && (size <=? 2 ^ 63 - align).

Definition same_class (size new_size align : Z) : bool :=
  match class_index size align, class_index new_size align with
  | Some old, Some new => old =? new
  | _, _ => false
  end.

Definition realloc (ptr size align new_size : Z) : heap Z :=
  if negb (layout_ok new_size align) then mret 0
  else if size =? 0 then alloc new_size align
  else if same_class size new_size align then mret ptr
  else
    new_ptr ← alloc new_size align;
    if new_ptr =? 0 then mret new_ptr
    else
      (fun h => (set_mem (copy_bytes (mem h) ptr new_ptr (Z.min size new_size)) h, Ok tt)) ;;
      dealloc ptr size align ;;
      mret new_ptr.
End Ralloc.
Arguments Ralloc : clear implicits.
