(* ===== verification/RallocInv.v ===== *)
(** * The slab allocator's invariant

    What memory looks like between the operations of Ralloc.v: the slabs with
    their free lists, the lists of slabs with room, and the large
    allocations, each in pages of its own. *)

From Stdlib Require Import ZArith Lia Bool.
From stdpp Require Import base decidable list numbers gmap fin_maps relations.
From S2P Require Import Prelude Rust Cas Ralloc.

(** ** Memory *)

Lemma le_bytes_digits n : forall v, le_bytes n v = (fun i => (v / 256 ^ i) mod 256) <$> seqZ 0 (Z.of_nat n).
Proof.
  induction n as [|n IH]; intros v; [done|]. rewrite Nat2Z.inj_succ, seqZ_cons by lia. cbn [le_bytes fmap list_fmap]. f_equal.
  - by rewrite Z.pow_0_r, Z.div_1_r.
  - rewrite IH, <- (fmap_add_seqZ 1 0), <- list_fmap_compose, Z.pred_succ. apply list_fmap_ext. intros k i Hi. cbn.
    apply lookup_seqZ in Hi as [-> Hk]. assert (0 < 256 ^ (0 + Z.of_nat k)) by (apply Z.pow_pos_nonneg; lia). rewrite Z.div_div by lia. f_equal. f_equal.
    by rewrite (Z.pow_add_r 256 1) by lia.
Qed.

Lemma load_ext n m m' a : (forall x, a <= x < a + Z.of_nat n -> m' x = m x) -> load n m' a = load n m a.
Proof. intros He. unfold load. f_equal. apply list_fmap_ext. intros k i [-> Hk]%lookup_seqZ. apply He. lia. Qed.

Lemma load_store n m a v : load n (store n m a v) a = v mod 256 ^ Z.of_nat n.
Proof.
  rewrite <- le_value_bytes, le_bytes_digits. unfold load, store. f_equal. apply list_fmap_ext. intros k i [-> Hk]%lookup_seqZ.
  rewrite (proj2 (Z.leb_le a _)), (proj2 (Z.ltb_lt _ (a + Z.of_nat n))) by lia. cbn [andb]. do 3 f_equal. lia.
Qed.

Lemma load_store_same n m a v : 0 <= v < 256 ^ Z.of_nat n -> load n (store n m a v) a = v.
Proof. intros Hv. rewrite load_store. by apply Z.mod_small. Qed.

Lemma store_out n m a v x : x < a \/ a + Z.of_nat n <= x -> store n m a v x = m x.
Proof. intros Hx. unfold store. destruct (Z.leb_spec a x), (Z.ltb_spec x (a + Z.of_nat n)); cbn; try done; lia. Qed.

Lemma load_store_ne n k m a b v : b + Z.of_nat n <= a \/ a + Z.of_nat k <= b -> load n (store k m a v) b = load n m b.
Proof. intros Hd. apply load_ext. intros x Hx. apply store_out. lia. Qed.

(** ** Size classes *)

Lemma class_cases (P : Z -> Prop) c : 0 <= c < 9 -> P 0 -> P 1 -> P 2 -> P 3 -> P 4 -> P 5 -> P 6 -> P 7 -> P 8 -> P c.
Proof. intros Hc. intros. assert (c = 0 \/ c = 1 \/ c = 2 \/ c = 3 \/ c = 4 \/ c = 5 \/ c = 6 \/ c = 7 \/ c = 8) as H9 by lia. by destruct_or! H9; subst. Qed.

Lemma class_facts c : 0 <= c < 9 ->
  block_size c = 2 ^ (c + 3) /\ 8 <= block_size c <= 2048 /\ 24 <= data_offset c /\ data_offset c mod block_size c = 0 /\
  0 < capacity c < 512 /\ data_offset c + capacity c * block_size c <= 4096 /\ 4096 mod block_size c = 0.
Proof. intros Hc. pattern c. apply (class_cases _ c Hc); vm_compute; repeat split; discriminate. Qed.

Lemma class_index_spec size align c : class_index size align = Some c -> is_power_of_two align = true ->
  0 <= c < 9 /\ size <= block_size c /\ align <= block_size c /\ block_size c mod align = 0 /\
  (0 < c -> block_size (c - 1) < Z.max size align).
Proof.
  unfold class_index. intros Hc Hp. destruct (power_of_two_spec align Hp) as (k & Hk & Ea).
  destruct (Z.ltb_spec 2048 size), (Z.ltb_spec 2048 align); try done. cbn [orb] in Hc. injection Hc as <-.
  set (x := Z.max (Z.max size align) 8). assert (Hx : 8 <= x <= 2048) by (unfold x; lia).
  assert (Hl : 3 <= Z.log2_up x <= 11).
  { split; [change 3 with (Z.log2_up 8)|change 11 with (Z.log2_up 2048)]; apply Z.log2_up_le_mono; lia. }
  assert (Et : trailing_zeros (next_power_of_two x) - trailing_zeros 8 = Z.log2_up x - 3).
  { unfold next_power_of_two. replace (Z.log2_up x) with (Z.log2_up x - 3 + 3) by lia. set (j := Z.log2_up x - 3).
    apply (class_cases (fun j => trailing_zeros (2 ^ (j + 3)) - trailing_zeros 8 = j + 3 - 3) j); [unfold j; lia|reflexivity..]. }
  rewrite Et. pose proof (Z.log2_up_spec x ltac:(lia)) as [Hlo Hhi]. set (l := Z.log2_up x) in *.
  destruct (class_facts (l - 3)) as (Eb & _); [lia|]. assert (Eb' : block_size (l - 3) = 2 ^ l) by (rewrite Eb; f_equal; lia).
  rewrite !Eb'. split_and!; [lia..| |].
  - rewrite Ea. replace l with (l - k + k) by lia. assert (k <= l) by (apply (Z.pow_le_mono_r_iff 2); lia).
    rewrite Z.pow_add_r by lia. apply Z.mod_mul. lia.
  - intros Hl0. destruct (class_facts (l - 3 - 1)) as (Ec & _); [lia|]. rewrite Ec. replace (l - 3 - 1 + 3) with (Z.pred l) by lia.
    unfold x in Hlo. destruct (Z.max_spec (Z.max size align) 8) as [[? Em]|[? Em]]; rewrite Em in Hlo; [|done].
    exfalso. assert (8 <= 2 ^ Z.pred l); [|lia]. change 8 with (2 ^ 3). apply Z.pow_le_mono_r; lia.
Qed.

(** ** Linked lists *)

(** From [hd], through the links at offset [off], the elements of [l]. *)
Fixpoint chain (m : memory) (off hd : Z) (l : list Z) : Prop :=
  match l with
  | [] => hd = 0
  | x :: l' => hd = x /\ 0 < x /\ chain m off (load 8 m (x + off)) l'
  end.

Lemma chain_ext m m' off l : forall hd, (forall x, x ∈ l -> load 8 m' (x + off) = load 8 m (x + off)) -> chain m off hd l -> chain m' off hd l.
Proof.
  induction l as [|x l IH]; intros hd He Hc; [done|]. destruct Hc as (-> & Hx & Hc). cbn. split_and!; [done..|].
  rewrite He by left. apply IH; [|done]. intros y Hy. apply He. by right.
Qed.

Lemma chain_nil m off l : chain m off 0 l -> l = [].
Proof. destruct l; [done|]. intros (<- & ? & _). lia. Qed.

Lemma chain_cons m off hd l : chain m off hd l -> hd <> 0 -> exists l', l = hd :: l' /\ 0 < hd /\ chain m off (load 8 m (hd + off)) l'.
Proof. destruct l as [|x l]; [done|]. intros (-> & Hx & Hc) _. by exists l. Qed.

(** ** Pages *)

Definition page_ok (p : Z) : Prop := p mod 4096 = 0 /\ 0 < p /\ p + 4096 < 2 ^ 64.

Lemma page_apart p q : p mod 4096 = 0 -> q mod 4096 = 0 -> p <> q -> p + 4096 <= q \/ q + 4096 <= p.
Proof. intros Hp Hq Hn. pose proof (Z.div_mod p 4096). pose proof (Z.div_mod q 4096). lia. Qed.

(** The page an address lies in. *)
Lemma slab_page_of p a : page_ok p -> p <= a < p + 4096 -> a .&~ 4095 = p.
Proof.
  intros (Hm & _) Ha. change 4095 with (2 ^ 12 - 1). rewrite ldiff_pow2 by done. change (2 ^ 12) with 4096.
  pose proof (Z.div_mod p 4096 ltac:(lia)). replace (a / 4096) with (p / 4096); [lia|]. apply Z.div_unique with (a - p); lia.
Qed.

(** ** Slabs *)

Record slab := mk_slab { scl : Z; sfree : list Z }.

Lemma blocks_elem c p b : 0 <= c < 9 -> b ∈ blocks c p ->
  p + 24 <= b /\ b + block_size c <= p + 4096 /\ exists i, 0 <= i < capacity c /\ b = p + data_offset c + i * block_size c.
Proof.
  intros Hc Hb. destruct (class_facts c Hc) as (_ & H1 & H2 & _ & H3 & H4 & _). unfold blocks in Hb.
  apply list_elem_of_fmap in Hb as (i & -> & Hi). apply elem_of_seqZ in Hi. split_and!; [nia..|]. exists i. split; [lia|done].
Qed.

Lemma blocks_length c p : 0 <= c < 9 -> length (blocks c p) = Z.to_nat (capacity c).
Proof. intros Hc. unfold blocks. by rewrite length_fmap, length_seqZ. Qed.

Lemma blocks_NoDup c p : 0 <= c < 9 -> NoDup (blocks c p).
Proof.
  intros Hc. destruct (class_facts c Hc) as (_ & H1 & _). apply NoDup_fmap_2_strong; [|apply NoDup_seqZ]. intros i j _ _ E. nia.
Qed.

Lemma blocks_apart c p b b' : 0 <= c < 9 -> b ∈ blocks c p -> b' ∈ blocks c p -> b <> b' -> b + block_size c <= b' \/ b' + block_size c <= b.
Proof.
  intros Hc Hb Hb' Hn. destruct (class_facts c Hc) as (_ & H1 & _). destruct (blocks_elem c p b Hc Hb) as (_ & _ & i & _ & ->).
  destruct (blocks_elem c p b' Hc Hb') as (_ & _ & j & _ & ->). assert (i <> j) by congruence. nia.
Qed.

Record slab_ok (m : memory) (p : Z) (s : slab) : Prop := {
  so_page : page_ok p;
  so_class : 0 <= scl s < 9;
  so_cl : load 1 m p = scl s;
  so_avail : load 2 m (p + 4) = Z.of_nat (length (sfree s));
  so_cap : load 2 m (p + 6) = capacity (scl s);
  so_sub : sfree s ⊆ blocks (scl s) p;
  so_nodup : NoDup (sfree s);
  so_chain : chain m 0 (load 8 m (p + 8)) (sfree s);
}.

(** A slab depends on the first 16 bytes of its header and on its free blocks. *)
Lemma slab_ok_ext m m' p s :
  (forall x, p <= x < p + 16 -> m' x = m x) -> (forall b x, b ∈ sfree s -> b <= x < b + 8 -> m' x = m x) -> slab_ok m p s -> slab_ok m' p s.
Proof.
  intros Hh Hf [? ? Hcl Hav Hcap ? ? Hch]. split; try done.
  - rewrite (load_ext 1 m); [done|]. intros x Hx. apply Hh. lia.
  - rewrite (load_ext 2 m); [done|]. intros x Hx. apply Hh. lia.
  - rewrite (load_ext 2 m); [done|]. intros x Hx. apply Hh. lia.
  - rewrite (load_ext 8 m) by (intros x Hx; apply Hh; lia). apply (chain_ext m); [|done]. intros b Hb. apply load_ext. intros x Hx.
    apply (Hf b); [done|lia].
Qed.

(** ** Large allocations *)

Record large := mk_large { lbase : Z; lpages : Z; lsize : Z }.
Abbreviation lend x := (lbase x + lpages x * 4096).

Record large_ok (m : memory) (a : Z) (x : large) : Prop := {
  lo_base : lbase x mod 4096 = 0 /\ 0 < lbase x;
  lo_end : lend x < 2 ^ 64;
  lo_in : lbase x + 24 <= a /\ a + lsize x <= lend x /\ 0 < lsize x;
  lo_head : load 8 m (a - 24) = lbase x /\ load 8 m (a - 16) = lpages x /\ load 8 m (a - 8) = lsize x;
}.

Lemma large_ok_ext m m' a x : (forall y, a - 24 <= y < a -> m' y = m y) -> large_ok m a x -> large_ok m' a x.
Proof. intros He [? ? ? (H1 & H2 & H3)]. split; try done. rewrite (load_ext 8 m m' (a - 24)), (load_ext 8 m m' (a - 16)), (load_ext 8 m m' (a - 8)) by (intros y Hy; apply He; lia). done. Qed.

(** ** The heap *)

Class PageSourceLaws (S : Type) `{PageSource S} := {
  (** the addresses handed out and not taken back *)
  held : S -> Z -> Prop;
  source_ok : S -> Prop;
  (** [taken s0 s m]: since [s0] the spans [m], a base and a number of pages each,
      were handed out and not given back.  A source that keeps no account may
      have any. *)
  taken : S -> S -> gmap Z Z -> Prop;
  taken_start s : taken s s ∅;
  alloc_law n s : source_ok s -> 0 < n < 2 ^ 52 ->
    exists s' p, alloc_pages n s = (s', Ok p) /\ source_ok s' /\ (forall a, held s a -> held s' a) /\
      (forall s0 m, taken s0 s m -> taken s0 s' (if p =? 0 then m else <[p := n]> m)) /\
      (p = 0 \/ (0 < p /\ p mod 4096 = 0 /\ p + n * 4096 < 2 ^ 64 /\ forall a, p <= a < p + n * 4096 -> ~ held s a /\ held s' a));
  free_law p n s : source_ok s ->
    source_ok (free_pages p n s) /\ (forall a, held s a -> ~ (p <= a < p + n * 4096) -> held (free_pages p n s) a) /\
    (forall s0 m, taken s0 s m -> m !! p = Some n -> taken s0 (free_pages p n s) (delete p m));
}.

(** The source the account starts from. *)
Class Start (S : Type) := start : S.

(** Memory in use: a block of a class, or a large allocation of a size. *)
Inductive use := InSlab (class : Z) | InLarge (size : Z).
Definition usize (u : use) : Z := match u with InSlab c => block_size c | InLarge n => n end.

(** The slabs with room in a class. *)
Definition has_room (G : gmap Z slab) (c p : Z) : Prop := exists s, G !! p = Some s /\ scl s = c /\ sfree s <> [].

Definition lists_ok (m : memory) (par : list Z) (G : gmap Z slab) : Prop :=
  length par = 9%nat /\
  forall c, 0 <= c < 9 -> exists l, chain m 16 (par !!! Z.to_nat c) l /\ NoDup l /\ forall p, p ∈ l <-> has_room G c p.

(** Slabs and large allocations are in pages of their own. *)
Definition pages_apart (G : gmap Z slab) (L : gmap Z large) : Prop :=
  (forall p s a x, G !! p = Some s -> L !! a = Some x -> p + 4096 <= lbase x \/ lend x <= p) /\
  (forall a x b y, a <> b -> L !! a = Some x -> L !! b = Some y -> lend x <= lbase y \/ lend y <= lbase x).

(** The spans of an account are the pages of the slabs and of the large
    allocations. *)
Definition accounts (m : gmap Z Z) (G : gmap Z slab) (L : gmap Z large) : Prop :=
  forall p n, m !! p = Some n <-> (n = 1 /\ is_Some (G !! p)) \/ (exists a x, L !! a = Some x /\ lbase x = p /\ lpages x = n).

Lemma accounts_change m G L p s s' : G !! p = Some s -> accounts m G L -> accounts m (<[p := s']> G) L.
Proof.
  unfold accounts. intros Hs Ha q n. rewrite Ha. assert (E : is_Some (<[p := s']> G !! q) <-> is_Some (G !! q)); [|by rewrite E].
  destruct (decide (p = q)) as [<-|Hne]; [rewrite lookup_insert_eq, Hs; split; eauto|by rewrite lookup_insert_ne].
Qed.

Lemma accounts_add_slab m G L p s : (forall a x, L !! a = Some x -> lbase x <> p) -> accounts m G L -> accounts (<[p := 1]> m) (<[p := s]> G) L.
Proof.
  unfold accounts. intros Hb Ha q n. destruct (decide (p = q)) as [<-|Hne]; [|by rewrite !lookup_insert_ne]. rewrite !lookup_insert_eq. split; [intros [= <-]; left; eauto|].
  intros [[-> _]|(a & x & Hx & E & _)]; [done|by apply Hb in Hx].
Qed.

Lemma accounts_del_slab m G L p : (forall a x, L !! a = Some x -> lbase x <> p) -> accounts m G L -> accounts (delete p m) (delete p G) L.
Proof.
  unfold accounts. intros Hb Ha q n. destruct (decide (p = q)) as [<-|Hne]; [|by rewrite !lookup_delete_ne]. rewrite !lookup_delete_eq. split; [done|].
  intros [[_ [? ?]]|(a & x & Hx & E & _)]; [done|by apply Hb in Hx].
Qed.

Lemma accounts_add_large m G L a x : L !! a = None -> G !! lbase x = None -> (forall b y, L !! b = Some y -> lbase y <> lbase x) -> accounts m G L ->
  accounts (<[lbase x := lpages x]> m) G (<[a := x]> L).
Proof.
  unfold accounts. intros HL HG Hb Ha q n. destruct (decide (lbase x = q)) as [<-|Hne].
  - rewrite lookup_insert_eq. split; [intros [= <-]; right; exists a, x; by rewrite lookup_insert_eq|]. rewrite HG. intros [[_ [? ?]]|(b & y & Hy & E & <-)]; [done|].
    apply lookup_insert_Some in Hy as [[<- <-]|[_ Hy]]; [done|by apply Hb in Hy].
  - rewrite lookup_insert_ne, Ha by done. split; (intros [?|(b & y & Hy & E & En)]; [by left|right; exists b, y]).
    + rewrite lookup_insert_ne; [done|]. intros <-. congruence.
    + apply lookup_insert_Some in Hy as [[<- <-]|[_ Hy]]; [by destruct Hne|done].
Qed.

Lemma accounts_del_large m G L a x : L !! a = Some x -> G !! lbase x = None -> (forall b y, b <> a -> L !! b = Some y -> lbase y <> lbase x) -> accounts m G L ->
  accounts (delete (lbase x) m) G (delete a L).
Proof.
  unfold accounts. intros HL HG Hb Ha q n. destruct (decide (lbase x = q)) as [<-|Hne].
  - rewrite lookup_delete_eq. split; [done|]. rewrite HG. intros [[_ [? ?]]|(b & y & Hy & E & <-)]; [done|]. apply lookup_delete_Some in Hy as [Hn Hy]. by apply Hb in Hy; [|congruence].
  - rewrite lookup_delete_ne, Ha by done. split; (intros [?|(b & y & Hy & E & En)]; [by left|right; exists b, y]).
    + rewrite lookup_delete_ne; [done|]. intros <-. congruence.
    + by apply lookup_delete_Some in Hy as [_ Hy].
Qed.

Abbreviation with_source h m s' := (mk_Ralloc m (partial h) s' (slab_bytes h) (large_bytes h) (slab_allocs h) (large_allocs h)).

(** Run the computation as far as it goes. *)
Ltac mrun := repeat (erewrite bind_run; [|reflexivity]); cbn [mem partial source slab_bytes large_bytes slab_allocs large_allocs set_mem].

(** Rewrite loads over stores elsewhere. *)
Ltac skip_stores := repeat (rewrite load_store_ne by lia).

Section Inv.
Context {S : Type} {PS : PageSource S} {PL : PageSourceLaws S} {St : Start S}.

Record heap_inv (h : Ralloc S) (G : gmap Z slab) (L : gmap Z large) : Prop := {
  hi_slabs : forall p s, G !! p = Some s -> slab_ok (mem h) p s;
  hi_lists : lists_ok (mem h) (partial h) G;
  hi_large : forall a x, L !! a = Some x -> large_ok (mem h) a x;
  hi_apart : pages_apart G L;
  hi_held : (forall p s a, G !! p = Some s -> p <= a < p + 4096 -> held (source h) a) /\
            (forall a x y, L !! a = Some x -> lbase x <= y < lend x -> held (source h) y);
  hi_source : source_ok (source h);
  hi_taken : exists m, taken start (source h) m /\ accounts m G L;
}.

(** ** What the clients own *)

(** [live G L a u]: the clients own the memory at [a], a block or a large
    allocation. *)
Definition live (G : gmap Z slab) (L : gmap Z large) (a : Z) (u : use) : Prop :=
  (exists p s, G !! p = Some s /\ a ∈ blocks (scl s) p /\ (a ∉ sfree s) /\ u = InSlab (scl s)) \/
  (exists x, L !! a = Some x /\ u = InLarge (lsize x)).

(** The operation left the clients' bytes alone. *)
Definition keeps_live (G : gmap Z slab) (L : gmap Z large) (m m' : memory) : Prop :=
  forall a u x, live G L a u -> a <= x < a + usize u -> m' x = m x.

(** Every slab has a block in use. *)
Definition loaded (G : gmap Z slab) : Prop := forall p s, G !! p = Some s -> Z.of_nat (length (sfree s)) < capacity (scl s).

(** ** Frames *)

Lemma lists_change m m' par par' G G' c p l' :
  lists_ok m par G -> 0 <= c < 9 ->
  (forall q s, q <> p -> G !! q = Some s -> scl s <> c -> load 8 m' (q + 16) = load 8 m (q + 16)) ->
  length par' = 9%nat -> (forall c', 0 <= c' < 9 -> c' <> c -> par' !!! Z.to_nat c' = par !!! Z.to_nat c') ->
  (forall q, q <> p -> G' !! q = G !! q) -> (forall s, G !! p = Some s -> scl s = c) -> (forall s, G' !! p = Some s -> scl s = c) ->
  chain m' 16 (par' !!! Z.to_nat c) l' -> NoDup l' -> (forall q, q ∈ l' <-> has_room G' c q) ->
  lists_ok m' par' G'.
Proof.
  intros [Hlen Hl] Hc Hm Hlen' Hp Hq H0 H1 Hch Hnd Hin. split; [done|]. intros c' Hc'. destruct (decide (c' = c)) as [->|Hne]; [by exists l'|].
  destruct (Hl c' Hc') as (l & Hl1 & Hl2 & Hl3). exists l. rewrite Hp by done.
  assert (Hr : forall q, has_room G' c' q <-> has_room G c' q).
  { intros q. destruct (decide (q = p)) as [->|Hqp]; [|unfold has_room; by rewrite Hq].
    split; intros (s & Hs & Hs1 & _); [specialize (H1 s Hs)|specialize (H0 s Hs)]; congruence. }
  split_and!; [|done|intros q; by rewrite Hr]. apply (chain_ext m); [|done]. intros q Hql. apply Hl3 in Hql as (s & Hs & Hs1 & _).
  apply (Hm q s); [|done|congruence]. intros ->. specialize (H0 s Hs). congruence.
Qed.

Lemma slab_elem h G L p s : heap_inv h G L -> G !! p = Some s -> page_ok p /\ 0 <= scl s < 9.
Proof. intros Hi Hs. destruct (hi_slabs _ _ _ Hi p s Hs). done. Qed.

(** Pages of different slabs. *)
Lemma slabs_apart h G L p q s s' : heap_inv h G L -> G !! p = Some s -> G !! q = Some s' -> p <> q -> p + 4096 <= q \/ q + 4096 <= p.
Proof. intros Hi Hs Hs' Hn. destruct (slab_elem _ _ _ _ _ Hi Hs) as [[? _] _], (slab_elem _ _ _ _ _ Hi Hs') as [[? _] _]. by apply page_apart. Qed.

(** A live allocation is in its slab past the header, or in its large pages past the header. *)
Lemma live_where h G L a n : heap_inv h G L -> live G L a n ->
  (exists p s, G !! p = Some s /\ p + 24 <= a /\ a + usize n <= p + 4096) \/ (exists x, L !! a = Some x /\ lbase x + 24 <= a /\ a + usize n <= lend x).
Proof.
  intros Hi [(p & s & Hs & Hb & _ & ->)|(x & Hx & ->)].
  - left. exists p, s. destruct (slab_elem _ _ _ _ _ Hi Hs) as [_ Hc]. destruct (blocks_elem _ _ _ Hc Hb) as (H1 & H2 & _). done.
  - right. exists x. destruct (hi_large _ _ _ Hi a x Hx) as [_ _ (? & ? & ?) _]. done.
Qed.

(** A step within the page of one slab. *)
Lemma inv_slab_change h h' G L p s s' l' :
  heap_inv h G L -> G !! p = Some s -> scl s' = scl s ->
  (forall x, ~ (p <= x < p + 4096) -> mem h' x = mem h x) -> slab_ok (mem h') p s' -> source h' = source h ->
  length (partial h') = 9%nat -> (forall c', 0 <= c' < 9 -> c' <> scl s -> partial h' !!! Z.to_nat c' = partial h !!! Z.to_nat c') ->
  chain (mem h') 16 (partial h' !!! Z.to_nat (scl s)) l' -> NoDup l' -> (forall q, q ∈ l' <-> has_room (<[p := s']> G) (scl s) q) ->
  heap_inv h' (<[p := s']> G) L.
Proof.
  intros Hi Hs Hc Hm Hok Hsrc Hlen Hpar Hch Hnd Hin. pose proof (slab_elem _ _ _ _ _ Hi Hs) as [_ Hcl]. destruct (hi_apart _ _ _ Hi) as [HA1 HA2]. split.
  - intros q t Ht. apply lookup_insert_Some in Ht as [[<- <-]|[Hne Ht]]; [done|]. pose proof (slabs_apart _ _ _ _ _ _ _ Hi Hs Ht Hne) as Hap.
    pose proof (hi_slabs _ _ _ Hi q t Ht) as Hq. destruct (slab_elem _ _ _ _ _ Hi Ht) as [_ Hct].
    apply (slab_ok_ext (mem h)); [intros x Hx; apply Hm; lia| |done]. intros b x Hb Hx. apply Hm.
    apply (so_sub _ _ _ Hq), (blocks_elem _ _ _ Hct) in Hb as (Hb1 & Hb2 & _). destruct (class_facts _ Hct) as (_ & Hbs & _). lia.
  - apply (lists_change (mem h) (mem h') (partial h) (partial h') G _ (scl s) p l'); try done; [apply Hi|..].
    + intros q t Hqp Ht _. pose proof (slabs_apart _ _ _ _ _ _ _ Hi Hs Ht ltac:(congruence)). apply load_ext. intros x Hx. apply Hm. lia.
    + intros q Hq. by rewrite lookup_insert_ne.
    + intros t Ht. congruence.
    + intros t Ht. rewrite lookup_insert_eq in Ht. by injection Ht as <-.
  - intros a x Hx. pose proof (hi_large _ _ _ Hi a x Hx) as Ho. apply (large_ok_ext (mem h)); [|done]. intros y Hy. apply Hm.
    destruct Ho as [_ _ Hin' _]. specialize (HA1 p s a x Hs Hx). lia.
  - split; [|done]. intros q t a x Ht Hx. apply lookup_insert_Some in Ht as [[<- _]|[_ Ht]]; [by apply (HA1 p s a x)|by apply (HA1 q t a x)].
  - rewrite Hsrc. destruct (hi_held _ _ _ Hi) as [HH1 HH2]. split; [|done]. intros q t a Ht Ha.
    apply lookup_insert_Some in Ht as [[<- _]|[_ Ht]]; [by apply (HH1 p s)|by apply (HH1 q t)].
  - rewrite Hsrc. apply Hi.
  - rewrite Hsrc. destruct (hi_taken _ _ _ Hi) as (mm & Ht & Ha). exists mm. split; [done|]. by apply (accounts_change _ _ _ p s).
Qed.

(** Changes to a slab's header leave the clients alone. *)
Lemma header_keeps h G L p s m' : heap_inv h G L -> G !! p = Some s -> (forall x, ~ (p <= x < p + 24) -> m' x = mem h x) -> keeps_live G L (mem h) m'.
Proof.
  intros Hi Hs Hm a n x Hl Hx. apply Hm. destruct (live_where _ _ _ _ _ Hi Hl) as [(q & t & Ht & H1 & H2)|(y & Hy & H1 & H2)].
  - destruct (decide (p = q)) as [->|Hne]; [lia|]. pose proof (slabs_apart _ _ _ _ _ _ _ Hi Hs Ht Hne). lia.
  - destruct (hi_apart _ _ _ Hi) as [HA _]. specialize (HA p s a y Hs Hy). lia.
Qed.

(** ** Taking a block *)

Lemma free_bounds h G L p s b : heap_inv h G L -> G !! p = Some s -> b ∈ sfree s -> p + 24 <= b /\ b + 8 <= p + 4096 /\ 0 < b < 2 ^ 64.
Proof.
  intros Hi Hs Hb. pose proof (hi_slabs _ _ _ Hi p s Hs) as Ho. destruct (slab_elem _ _ _ _ _ Hi Hs) as [(_ & H0 & H1) Hc].
  apply (so_sub _ _ _ Ho), (blocks_elem _ _ _ Hc) in Hb as (Hb1 & Hb2 & _). destruct (class_facts _ Hc) as (_ & Hbs & _). lia.
Qed.

Lemma pop_memory h G L p s b fl : heap_inv h G L -> G !! p = Some s -> sfree s = b :: fl ->
  let m := mem h in
  load 8 m (p + 8) = b /\ 0 <= load 8 m b < 2 ^ 64 /\ chain m 0 (load 8 m b) fl /\ load 2 m (p + 4) = Z.of_nat (length fl) + 1 /\ Z.of_nat (length fl) < 2 ^ 16.
Proof.
  intros Hi Hs Ef. pose proof (hi_slabs _ _ _ Hi p s Hs) as Ho. pose proof (so_chain _ _ _ Ho) as Hch. rewrite Ef in Hch. destruct Hch as (E & Hb & Hch).
  rewrite Z.add_0_r in Hch. pose proof (so_avail _ _ _ Ho) as Hav. rewrite Ef in Hav. cbn in Hav. split_and!; [done|..|done|lia|].
  1, 2: destruct fl as [|x fl']; [cbn in Hch; lia|]; destruct Hch as (-> & Hx & _); pose proof (free_bounds _ _ _ _ _ x Hi Hs ltac:(rewrite Ef; right; left)); lia.
  assert (Hle : (length (sfree s) <= length (blocks (scl s) p))%nat) by (apply submseteq_length, NoDup_submseteq; apply Ho).
  destruct (slab_elem _ _ _ _ _ Hi Hs) as [_ Hc]. destruct (class_facts _ Hc) as (_ & _ & _ & _ & Hcap & _).
  rewrite blocks_length, Ef in Hle by done. cbn in Hle. lia.
Qed.

(** The list of a class's other slabs does not notice a change in the page [p]. *)
Lemma chain_elsewhere h G L p c m' hd l :
  heap_inv h G L -> p mod 4096 = 0 -> (forall x, ~ (p <= x < p + 4096) -> m' x = mem h x) -> (forall q, q ∈ l -> has_room G c q /\ q <> p) ->
  chain (mem h) 16 hd l -> chain m' 16 hd l.
Proof.
  intros Hi Hp Hm Hl Hch. apply (chain_ext (mem h)); [|done]. intros q Hq. destruct (Hl q Hq) as [(t & Ht & _) Hne].
  destruct (slab_elem _ _ _ _ _ Hi Ht) as [[Hq0 _] _]. pose proof (page_apart q p Hq0 Hp Hne). apply load_ext. intros x Hx. apply Hm. lia.
Qed.

Lemma pop_slab_ok h G L p s b fl : heap_inv h G L -> G !! p = Some s -> sfree s = b :: fl ->
  slab_ok (store 2 (store 8 (mem h) (p + 8) (load 8 (mem h) b)) (p + 4) (Z.of_nat (length fl))) p (mk_slab (scl s) fl).
Proof.
  intros Hi Hs Ef. destruct (pop_memory _ _ _ _ _ _ _ Hi Hs Ef) as (E1 & R1 & C1 & E2 & R2). cbv zeta in *.
  pose proof (hi_slabs _ _ _ Hi p s Hs) as Ho. pose proof (so_sub _ _ _ Ho) as Hsub. pose proof (so_nodup _ _ _ Ho) as Hnd. rewrite Ef in Hsub, Hnd.
  split; cbn [scl sfree]; try apply Ho.
  - skip_stores. apply Ho.
  - apply load_store_same. change (256 ^ Z.of_nat 2) with (2 ^ 16). lia.
  - skip_stores. apply Ho.
  - intros x Hx. apply Hsub. by right.
  - by apply NoDup_cons in Hnd as [_ ?].
  - rewrite load_store_ne by lia. rewrite load_store_same by (change (256 ^ Z.of_nat 8) with (2 ^ 64); lia).
    apply (chain_ext (mem h)); [|done]. intros x Hx. rewrite Z.add_0_r.
    pose proof (free_bounds _ _ _ _ _ x Hi Hs ltac:(rewrite Ef; by right)). by skip_stores.
Qed.

Lemma pop_block_ok h G L p s b fl :
  heap_inv h G L -> G !! p = Some s -> sfree s = b :: fl -> partial h !!! Z.to_nat (scl s) = p ->
  exists h', pop_block (scl s) p h = (h', Ok b) /\ heap_inv h' (<[p := mk_slab (scl s) fl]> G) L /\
    (forall x, ~ (p <= x < p + 24) -> mem h' x = mem h x) /\
    slab_bytes h' = (slab_bytes h + block_size (scl s)) mod 2 ^ 64 /\ large_bytes h' = large_bytes h.
Proof.
  intros Hi Hs Ef Hp. destruct (pop_memory _ _ _ _ _ _ _ Hi Hs Ef) as (E1 & R1 & C1 & E2 & R2). cbv zeta in *.
  pose proof (pop_slab_ok _ _ _ _ _ _ _ Hi Hs Ef) as Hok. destruct (slab_elem _ _ _ _ _ Hi Hs) as [_ Hc].
  destruct (hi_lists _ _ _ Hi) as [Hlen Hl]. destruct (Hl _ Hc) as (l & Hch & Hnd & Hin). rewrite Hp in Hch.
  destruct (chain_cons _ _ _ _ Hch) as (l' & -> & Hp0 & Hch'); [destruct (slab_elem _ _ _ _ _ Hi Hs) as [(_ & ? & _) _]; lia|].
  apply NoDup_cons in Hnd as [Hnp Hnd]. assert (Hpm : p mod 4096 = 0) by (by destruct (slab_elem _ _ _ _ _ Hi Hs) as [[? _] _]).
  assert (Hothers : forall q, q ∈ l' -> has_room G (scl s) q /\ q <> p) by (intros q Hq; split; [apply Hin; by right|intros ->; done]).
  unfold pop_block. mrun. rewrite E1.
  match goal with |- context [rsub ?x 1] => assert (E3 : x = Z.of_nat (length fl) + 1) by (rewrite <- E2; apply load_store_ne; lia); rewrite E3 end.
  assert (E4 : rsub (Z.of_nat (length fl) + 1) 1 = (Ok (Z.of_nat (length fl)) : res Empty_set Z)) by (unfold rsub; rewrite (proj2 (Z.ltb_ge _ _)) by lia; f_equal; lia).
  rewrite (bind_run _ _ _ _ _ (lift_run _ _ _ E4)). mrun.
  set (m2 := store 2 _ _ _) in *. assert (Hm2 : forall x, ~ (p <= x < p + 16) -> m2 x = mem h x) by (intros x Hx; unfold m2; rewrite !store_out by lia; done).
  assert (Hroom : forall q, q <> p -> has_room (<[p := mk_slab (scl s) fl]> G) (scl s) q <-> has_room G (scl s) q) by (intros q Hq; unfold has_room; by rewrite lookup_insert_ne).
  destruct fl as [|y fl'].
  - cbn [length Z.of_nat Z.eqb]. mrun. eexists. split; [reflexivity|]. cbn [mem partial source slab_bytes large_bytes set_mem].
    split_and!; [|intros x Hx; rewrite store_out by lia; apply Hm2; lia|done|done].
    eapply (inv_slab_change h _ G L p s _ l' Hi Hs); cbn [mem partial source]; try done.
    + intros x Hx. rewrite store_out by lia. apply Hm2. lia.
    + apply (slab_ok_ext m2); [intros x Hx; apply store_out; lia|by intros ? ? ?%elem_of_nil|exact Hok].
    + by rewrite length_insert.
    + intros c' Hc' Hne. rewrite list_lookup_total_insert_ne; [done|lia].
    + rewrite list_lookup_total_insert_eq by lia. rewrite (load_ext 8 (mem h) m2) by (intros x Hx; apply Hm2; lia).
      apply (chain_elsewhere h G L p (scl s)); [done..|intros x Hx; rewrite store_out by lia; apply Hm2; lia|exact Hothers|done].
    + intros q. destruct (decide (q = p)) as [->|Hq]; [split; [done|]|rewrite Hroom, <- Hin by done; split; [by right|by intros [|]%elem_of_cons]].
      intros (t & Ht & _ & Hf). rewrite lookup_insert_eq in Ht. by injection Ht as <-.
  - rewrite (proj2 (Z.eqb_neq _ 0)) by (cbn; lia). mrun. eexists. split; [reflexivity|]. cbn [mem partial source slab_bytes large_bytes set_mem].
    split_and!; [|intros x Hx; apply Hm2; lia|done|done].
    eapply (inv_slab_change h _ G L p s _ (p :: l') Hi Hs); cbn [mem partial source]; try done.
    + intros x Hx. apply Hm2. lia.
    + rewrite Hp. cbn. split_and!; [done..|]. rewrite (load_ext 8 (mem h) m2) by (intros x Hx; apply Hm2; lia).
      apply (chain_elsewhere h G L p (scl s)); [done..|intros x Hx; apply Hm2; lia|exact Hothers|done].
    + by constructor.
    + intros q. destruct (decide (q = p)) as [->|Hq]; [|by rewrite Hroom, <- Hin by done]. split; [intros _|by left].
      exists (mk_slab (scl s) (y :: fl')). by rewrite lookup_insert_eq.
Qed.

(** ** A new slab *)

Lemma link_blocks_ok l : forall rest free (h : Ralloc S),
  (forall x, x ∈ l -> 0 < x < 2 ^ 64) -> NoDup (l ++ rest) -> (forall x y, x ∈ l ++ rest -> y ∈ l ++ rest -> x <> y -> x + 8 <= y \/ y + 8 <= x) ->
  0 <= free < 2 ^ 64 -> chain (mem h) 0 free rest ->
  exists m' hd, link_blocks l free h = (set_mem m' h, Ok hd) /\ 0 <= hd < 2 ^ 64 /\ chain m' 0 hd (reverse l ++ rest) /\
    forall x, (forall b, b ∈ l -> ~ (b <= x < b + 8)) -> m' x = mem h x.
Proof.
  induction l as [|b l IH]; intros rest free h Hr Hnd Hsp Hf Hch.
  - exists (mem h), free. split; [by destruct h|]. done.
  - cbn [link_blocks]. mrun. cbn in Hnd. apply NoDup_cons in Hnd as [Hb Hnd].
    assert (Hmv : forall z, z ∈ l ++ b :: rest -> z ∈ (b :: l) ++ rest) by (intros z; cbn; rewrite elem_of_app, !elem_of_cons, elem_of_app; tauto).
    destruct (IH (b :: rest) b (set_mem (store 8 (mem h) b free) h)) as (m' & hd & E & Hhd & Hc & Hfr).
    + intros x Hx. apply Hr. by right.
    + rewrite <- Permutation_middle. by constructor.
    + intros x y Hx%Hmv Hy%Hmv. by apply Hsp.
    + pose proof (Hr b ltac:(left)). lia.
    + cbn. split_and!; [done|apply Hr; left|]. rewrite Z.add_0_r, load_store_same by (change (256 ^ Z.of_nat 8) with (2 ^ 64); lia).
      apply (chain_ext (mem h)); [|done]. intros y Hy. rewrite Z.add_0_r. apply load_store_ne.
      assert (Hyl : y ∈ l ++ rest) by (apply elem_of_app; by right).
      destruct (Hsp b y) as [|]; [left|by right|intros ->; done|lia..].
    + exists m', hd. rewrite E. split; [by destruct h|]. split_and!; [lia..|by rewrite reverse_cons, <- app_assoc|].
      intros x Hx. rewrite Hfr by (intros y Hy; apply Hx; by right). cbn. apply store_out. specialize (Hx b ltac:(left)). lia.
Qed.

(** The header [new_slab] writes. *)
Definition head_memory (m : memory) (c p : Z) : memory :=
  store 8 (store 8 (store 2 (store 2 (store 3 (store 1 m p c) (p + 1) 0) (p + 4) (capacity c)) (p + 6) (capacity c)) (p + 8) 0) (p + 16) 0.

Lemma new_slab_memory c p (h : Ralloc S) : 0 <= c < 9 -> page_ok p ->
  exists m' free, link_blocks (reverse (blocks c p)) 0 (set_mem (head_memory (mem h) c p) h) = (set_mem m' h, Ok free) /\
    slab_ok (store 8 m' (p + 8) free) p (mk_slab c (blocks c p)) /\ load 8 (store 8 m' (p + 8) free) (p + 16) = 0 /\
    forall x, ~ (p <= x < p + 4096) -> store 8 m' (p + 8) free x = mem h x.
Proof.
  intros Hc Hp. destruct (class_facts c Hc) as (_ & Hbs & _ & _ & Hcap & _). pose proof Hp as (_ & Hp0 & Hp1).
  assert (Hb : forall b, b ∈ reverse (blocks c p) -> p + 24 <= b /\ b + 8 <= p + 4096).
  { intros b Hb. rewrite elem_of_reverse in Hb. destruct (blocks_elem c p b Hc Hb) as (? & ? & _). lia. }
  destruct (link_blocks_ok (reverse (blocks c p)) [] 0 (set_mem (head_memory (mem h) c p) h)) as (m' & free & E & Hfr & Hch & Hm); rewrite ?app_nil_r.
  - intros x Hx. specialize (Hb x Hx). lia.
  - rewrite reverse_Permutation. by apply blocks_NoDup.
  - intros x y Hx Hy Hne. rewrite elem_of_reverse in Hx, Hy. destruct (blocks_apart c p x y Hc Hx Hy Hne); lia.
  - lia.
  - done.
  - rewrite reverse_involutive, app_nil_r in Hch. exists m', free. split; [by rewrite E; destruct h|].
    assert (Hh : forall x, p <= x < p + 24 -> m' x = head_memory (mem h) c p x) by (intros x Hx; apply Hm; intros b Hbx; specialize (Hb b Hbx); lia).
    assert (Hl : forall n a, p <= a -> a + Z.of_nat n <= p + 24 -> load n m' a = load n (head_memory (mem h) c p) a) by (intros n a H1 H2; apply load_ext; intros x Hx; apply Hh; lia).
    split_and!.
    + split; cbn [scl sfree]; try done.
      * rewrite load_store_ne, Hl by lia. unfold head_memory. skip_stores. apply load_store_same. cbn. lia.
      * rewrite load_store_ne, Hl by lia. unfold head_memory. skip_stores. rewrite load_store_same by (cbn; lia). rewrite blocks_length by done. lia.
      * rewrite load_store_ne, Hl by lia. unfold head_memory. skip_stores. rewrite load_store_same by (cbn; lia). done.
      * by apply blocks_NoDup.
      * rewrite load_store_same by (change (256 ^ Z.of_nat 8) with (2 ^ 64); lia). apply (chain_ext m'); [|done]. intros b Hbl. rewrite Z.add_0_r.
        apply load_store_ne. specialize (Hb b ltac:(by apply elem_of_reverse)). lia.
    + rewrite load_store_ne, Hl by lia. unfold head_memory. by rewrite load_store_same.
    + intros x Hx. rewrite store_out by lia. rewrite Hm by (intros b Hbl; specialize (Hb b Hbl); lia). cbn. unfold head_memory. by rewrite !store_out by lia.
Qed.

(** Fresh pages are apart from everything in use. *)
Lemma fresh_apart h G L p n : heap_inv h G L -> 0 < n -> (forall a, p <= a < p + n * 4096 -> ~ held (source h) a) ->
  (forall q s, G !! q = Some s -> p + n * 4096 <= q \/ q + 4096 <= p) /\ (forall a x, L !! a = Some x -> p + n * 4096 <= lbase x \/ lend x <= p).
Proof.
  intros Hi Hn Hf. destruct (hi_held _ _ _ Hi) as [H1 H2]. split.
  - intros q s Hs. destruct (Z.le_gt_cases (p + n * 4096) q) as [|Hlt]; [by left|]. destruct (Z.le_gt_cases (q + 4096) p) as [|Hlt']; [by right|].
    exfalso. apply (Hf (Z.max p q)); [lia|]. apply (H1 q s); [done|lia].
  - intros a x Hx. destruct (Z.le_gt_cases (p + n * 4096) (lbase x)) as [|Hlt]; [by left|]. destruct (Z.le_gt_cases (lend x) p) as [|Hlt']; [by right|].
    exfalso. destruct (hi_large _ _ _ Hi a x Hx) as [_ _ Hin _]. apply (Hf (Z.max p (lbase x))); [lia|]. apply (H2 a x); [done|lia].
Qed.

(** The heap after the source handed out pages nobody uses yet. *)
Lemma inv_source h G L s' : heap_inv h G L -> source_ok s' -> (forall a, held (source h) a -> held s' a) -> (forall m, taken start (source h) m -> taken start s' m) ->
  heap_inv (mk_Ralloc (mem h) (partial h) s' (slab_bytes h) (large_bytes h) (slab_allocs h) (large_allocs h)) G L.
Proof.
  intros [? ? ? ? [H1 H2] ? (mm & Ht & Hacc)] Hs Hm Htk. split; cbn; try done; [|exists mm; auto]. split; [intros p s a Hs' Ha; apply Hm; by eapply H1|intros a x y Hx Hy; apply Hm; by eapply H2].
Qed.

Lemma inv_add_slab h h' G L c p s0 :
  heap_inv h G L -> page_ok p -> (forall a, p <= a < p + 4096 -> ~ held (source h) a) -> (forall a, p <= a < p + 4096 -> held (source h') a) ->
  source_ok (source h') -> (forall a, held (source h) a -> held (source h') a) -> (forall m, taken start (source h) m -> taken start (source h') (<[p := 1]> m)) ->
  (forall x, ~ (p <= x < p + 4096) -> mem h' x = mem h x) -> slab_ok (mem h') p s0 -> scl s0 = c -> sfree s0 <> [] ->
  partial h !!! Z.to_nat c = 0 -> partial h' = <[Z.to_nat c := p]> (partial h) -> load 8 (mem h') (p + 16) = 0 ->
  G !! p = None /\ heap_inv h' (<[p := s0]> G) L.
Proof.
  intros Hi Hp Hf Hh Hok Hmono Htk Hm Hs0 Hc Hne Hpar Hpar' Hnext. destruct (fresh_apart h G L p 1 Hi ltac:(lia)) as [A1 A2]; [by rewrite Z.mul_1_l|].
  rewrite Z.mul_1_l in A1, A2. assert (HG : G !! p = None) by (destruct (G !! p) as [s|] eqn:E; [destruct (A1 p s E); lia|done]). split; [done|].
  pose proof (so_class _ _ _ Hs0) as Hcl. rewrite Hc in Hcl. destruct (hi_lists _ _ _ Hi) as [Hlen Hl]. destruct (Hl c Hcl) as (l & Hch & _ & Hin).
  rewrite Hpar in Hch. apply chain_nil in Hch as ->. destruct Hp as (Hpm & Hp0 & Hp1). split.
  - intros q t Ht. apply lookup_insert_Some in Ht as [[<- <-]|[Hneq Ht]]; [done|]. specialize (A1 q t Ht).
    pose proof (hi_slabs _ _ _ Hi q t Ht) as Hq. destruct (slab_elem _ _ _ _ _ Hi Ht) as [_ Hct].
    apply (slab_ok_ext (mem h)); [intros x Hx; apply Hm; lia| |done]. intros b x Hb Hx. apply Hm. pose proof (free_bounds _ _ _ _ _ _ Hi Ht Hb). lia.
  - rewrite Hpar'. apply (lists_change (mem h) (mem h') (partial h) _ G _ c p [p]); try done.
    + intros q t Hq Ht _. specialize (A1 q t Ht). apply load_ext. intros x Hx. apply Hm. lia.
    + by rewrite length_insert.
    + intros c' Hc' Hne'. apply list_lookup_total_insert_ne. lia.
    + intros q Hq. by rewrite lookup_insert_ne.
    + intros t Ht. congruence.
    + intros t Ht. rewrite lookup_insert_eq in Ht. by injection Ht as <-.
    + rewrite list_lookup_total_insert_eq by lia. cbn. split_and!; [done|lia|done].
    + apply NoDup_singleton.
    + intros q. rewrite list_elem_of_singleton. split; [intros ->; exists s0; by rewrite lookup_insert_eq|].
      intros (t & Ht & Ht1 & Ht2). apply lookup_insert_Some in Ht as [[-> _]|[_ Ht]]; [done|].
      assert (Hr : q ∈ []) by (apply Hin; by exists t). by apply elem_of_nil in Hr.
  - intros a x Hx. apply (large_ok_ext (mem h)); [|by apply Hi]. intros y Hy. apply Hm. destruct (hi_large _ _ _ Hi a x Hx) as [_ _ Hin' _].
    specialize (A2 a x Hx). lia.
  - destruct (hi_apart _ _ _ Hi) as [HA1 HA2]. split; [|done]. intros q t a x Ht Hx. apply lookup_insert_Some in Ht as [[<- _]|[_ Ht]]; [by apply (A2 a x)|by apply (HA1 q t a x)].
  - destruct (hi_held _ _ _ Hi) as [H1 H2]. split; [|intros a x y Hx Hy; apply Hmono; by eapply H2]. intros q t a Ht Ha.
    apply lookup_insert_Some in Ht as [[<- _]|[_ Ht]]; [by apply Hh|apply Hmono; by eapply H1].
  - done.
  - destruct (hi_taken _ _ _ Hi) as (mm & Ht & Ha). exists (<[p := 1]> mm). split; [by apply Htk|]. apply accounts_add_slab; [|done].
    intros a x Hx E. destruct (hi_large _ _ _ Hi a x Hx) as [_ _ Hin' _]. specialize (A2 a x Hx). lia.
Qed.

Lemma new_slab_run h s' p c : 0 <= c < 9 -> alloc_pages 1 (source h) = (s', Ok p) -> p = 0 \/ page_ok p ->
  exists m', new_slab c h = (with_source h m' s', Ok p) /\
    if p =? 0 then m' = mem h
    else slab_ok m' p (mk_slab c (blocks c p)) /\ load 8 m' (p + 16) = 0 /\ forall x, ~ (p <= x < p + 4096) -> m' x = mem h x.
Proof.
  intros Hc Ea Hp. assert (Et : take_pages 1 h = (with_source h (mem h) s', Ok p)) by (unfold take_pages; by rewrite Ea).
  unfold new_slab. rewrite (bind_run _ _ _ _ _ Et). destruct (Z.eqb_spec p 0) as [->|Hp0]; [by exists (mem h)|].
  destruct Hp as [|Hpo]; [done|]. destruct (new_slab_memory c p (with_source h (mem h) s') Hc Hpo) as (m' & free & El & Hok & Hn & Hm).
  exists (store 8 m' (p + 8) free). mrun. rewrite (bind_run _ _ _ _ _ El). mrun. done.
Qed.

(** The slab to allocate from: one with room, the first of its list. *)
Lemma find_slab_ok h G L c : heap_inv h G L -> 0 <= c < 9 ->
  exists h' p, find_slab c h = (h', Ok p) /\ slab_bytes h' = slab_bytes h /\ large_bytes h' = large_bytes h /\
    ((p = 0 /\ heap_inv h' G L /\ mem h' = mem h) \/
     (exists G' s, p <> 0 /\ heap_inv h' G' L /\ G' !! p = Some s /\ scl s = c /\ sfree s <> [] /\ partial h' !!! Z.to_nat c = p /\
        ((G' = G /\ mem h' = mem h) \/
         (G !! p = None /\ G' = <[p := s]> G /\ sfree s = blocks c p /\ forall x, ~ (p <= x < p + 4096) -> mem h' x = mem h x)))).
Proof.
  intros Hi Hc. destruct (hi_lists _ _ _ Hi) as [Hlen Hl]. unfold find_slab. mrun. destruct (Z.eqb_spec (partial h !!! Z.to_nat c) 0) as [E0|Hne].
  2: { exists h, (partial h !!! Z.to_nat c). split_and!; [done..|]. right. destruct (Hl c Hc) as (l & Hch & _ & Hin).
       destruct (chain_cons _ _ _ _ Hch Hne) as (l' & -> & _). destruct (proj1 (Hin _) (list_elem_of_here _ _)) as (s & Hs & Hs1 & Hs2).
       exists G, s. split_and!; [done..|]. by left. }
  destruct (alloc_law 1 (source h)) as (s' & p & Ea & Hok & Hmono & Htk & Hp); [apply Hi|lia|]. rewrite Z.mul_1_l in Hp.
  destruct (new_slab_run h s' p c Hc Ea) as (m' & En & Hm); [destruct Hp as [|(? & ? & ? & _)]; [by left|right; by split_and!]|].
  rewrite (bind_run _ _ _ _ _ En). destruct (Z.eqb_spec p 0) as [->|Hp0].
  { subst m'. eexists _, 0. split; [reflexivity|]. split_and!; [done..|]. left. split_and!; [done|apply inv_source; auto|done]. }
  destruct Hm as (Hsl & Hnx & Hm). destruct Hp as [|(Hpp & Hpm & Hpe & Hfr)]; [done|]. mrun. eexists _, p. split; [reflexivity|]. split_and!; [done..|]. right.
  exists (<[p := mk_slab c (blocks c p)]> G), (mk_slab c (blocks c p)).
  assert (Hb0 : blocks c p <> []).
  { destruct (class_facts c Hc) as (_ & _ & _ & _ & Hcap & _). intros E. pose proof (blocks_length c p Hc) as El. rewrite E in El. cbn in El. lia. }
  destruct (inv_add_slab h (mk_Ralloc m' (<[Z.to_nat c := p]> (partial h)) s' (slab_bytes h) (large_bytes h) (slab_allocs h) (large_allocs h)) G L c p (mk_slab c (blocks c p)))
    as [HG Hi']; try done; [intros a Ha; by apply Hfr..|intros mm Hmm; exact (Htk _ _ Hmm)|].
  split_and!; [done|exact Hi'|by rewrite lookup_insert_eq|done|done|cbn; by rewrite list_lookup_total_insert_eq by lia|]. right. done.
Qed.

(** ** What is in use *)

Definition slab_used (s : slab) : Z := (capacity (scl s) - Z.of_nat (length (sfree s))) * block_size (scl s).
Definition used (G : gmap Z slab) : Z := map_fold (fun _ s n => slab_used s + n) 0 G.
Definition large_used (L : gmap Z large) : Z := map_fold (fun _ x n => lsize x + n) 0 L.

Lemma used_insert G p s : G !! p = None -> used (<[p := s]> G) = slab_used s + used G.
Proof. intros Hp. unfold used. rewrite map_fold_insert_L; [done|intros; lia|done]. Qed.

Lemma used_lookup G p s : G !! p = Some s -> used G = slab_used s + used (delete p G).
Proof. intros Hp. unfold used. rewrite (map_fold_delete_L _ _ p s); [done|intros; lia|done]. Qed.

Lemma used_update G p s s' : G !! p = Some s -> used (<[p := s']> G) = used G - slab_used s + slab_used s'.
Proof. intros Hp. rewrite <- insert_delete_eq, used_insert, (used_lookup G p s Hp) by apply lookup_delete_eq. lia. Qed.

Lemma large_used_insert L a x : L !! a = None -> large_used (<[a := x]> L) = lsize x + large_used L.
Proof. intros Hp. unfold large_used. rewrite map_fold_insert_L; [done|intros; lia|done]. Qed.

Lemma large_used_lookup L a x : L !! a = Some x -> large_used L = lsize x + large_used (delete a L).
Proof. intros Hp. unfold large_used. rewrite (map_fold_delete_L _ _ a x); [done|intros; lia|done]. Qed.

Definition stats_ok (h : Ralloc S) (G : gmap Z slab) (L : gmap Z large) : Prop :=
  slab_bytes h = used G mod 2 ^ 64 /\ large_bytes h = large_used L mod 2 ^ 64.

Record inv (h : Ralloc S) (G : gmap Z slab) (L : gmap Z large) : Prop := {
  inv_heap : heap_inv h G L;
  inv_loaded : loaded G;
  inv_stats : stats_ok h G L;
}.

(** A free block is nobody's. *)
Lemma free_not_live h G L p s b n : heap_inv h G L -> G !! p = Some s -> b ∈ sfree s -> ~ live G L b n.
Proof.
  intros Hi Hs Hb Hl. destruct (free_bounds _ _ _ _ _ _ Hi Hs Hb) as (B1 & B2 & _).
  destruct Hl as [(q & t & Ht & Hq & Hnf & _)|(x & Hx & _)].
  - destruct (decide (p = q)) as [->|Hne]; [congruence|]. destruct (slab_elem _ _ _ _ _ Hi Ht) as [_ Hc].
    destruct (blocks_elem _ _ _ Hc Hq) as (Q1 & Q2 & _). destruct (class_facts _ Hc) as (_ & ? & _). pose proof (slabs_apart _ _ _ _ _ _ _ Hi Hs Ht Hne). lia.
  - destruct (hi_large _ _ _ Hi b x Hx) as [_ _ Hin _]. destruct (hi_apart _ _ _ Hi) as [HA _]. specialize (HA p s b x Hs Hx). lia.
Qed.

(** Taking the first free block makes it live and nothing else. *)
Lemma live_pop G L p s b fl a n : G !! p = Some s -> sfree s = b :: fl -> NoDup (sfree s) -> b ∈ blocks (scl s) p ->
  live (<[p := mk_slab (scl s) fl]> G) L a n <-> live G L a n \/ (a = b /\ n = InSlab (scl s)).
Proof.
  intros Hs Ef Hnd Hb. rewrite Ef in Hnd. apply NoDup_cons in Hnd as [Hbf _]. split.
  - intros [(q & t & Ht & Ha & Hf & ->)|Hl]; [|left; by right]. apply lookup_insert_Some in Ht as [[<- <-]|[Hne Ht]]; cbn in *.
    + destruct (decide (a = b)) as [->|Hne]; [by right|]. left. left. exists p, s. split_and!; [done..| |done]. rewrite Ef. by intros [|]%elem_of_cons.
    + left. left. by exists q, t.
  - intros [[(q & t & Ht & Ha & Hf & ->)|Hl]|[-> ->]]; [|by right|].
    + left. destruct (decide (p = q)) as [->|Hne]; [|exists q, t; by rewrite lookup_insert_ne]. rewrite Hs in Ht. injection Ht as <-.
      exists q, (mk_slab (scl s) fl). rewrite lookup_insert_eq. split_and!; [done..| |done]. cbn. intros Hin. apply Hf. rewrite Ef. by right.
    + left. exists p, (mk_slab (scl s) fl). rewrite lookup_insert_eq. by split_and!.
Qed.

(** A slab all of whose blocks are free has no live block. *)
Lemma live_new_slab G L p c a n : G !! p = None -> live (<[p := mk_slab c (blocks c p)]> G) L a n <-> live G L a n.
Proof.
  intros Hp. split; intros [(q & t & Ht & H)|Hl]; try (by right); left.
  - apply lookup_insert_Some in Ht as [[<- <-]|[Hne Ht]]; [|by exists q, t]. cbn in H. destruct H as (H1 & H2 & _). done.
  - exists q, t. rewrite lookup_insert_ne; [done|]. intros ->. congruence.
Qed.
End Inv.
