(* ===== verification/RallocOps.v ===== *)
(** * The slab allocator's operations

    What each operation of Ralloc.v does to the invariant of RallocInv.v and
    to the clients' memory, and the allocator's contract with its clients. *)

From Stdlib Require Import ZArith Lia Bool.
From stdpp Require Import base decidable list numbers gmap fin_maps relations.
From S2P Require Import Prelude Rust Cas Ralloc RallocInv.

Section Ops.
Context {S : Type} {PS : PageSource S} {PL : PageSourceLaws S} {St : Start S}.
Implicit Types (h : Ralloc S) (G : gmap Z slab) (L : gmap Z large).

(** The clients' view of an allocation that returned [r]. *)
Definition allocated h h' G L (r : Z) (u : use) (align : Z) : Prop :=
  (r = 0 /\ inv h' G L /\ mem h' = mem h) \/
  (exists G' L', inv h' G' L' /\ 0 < r /\ r mod align = 0 /\ (forall k, ~ live G L r k) /\
     (forall a k, live G' L' a k <-> live G L a k \/ (a = r /\ k = u)) /\ keeps_live G L (mem h) (mem h')).

Lemma block_aligned c p b align : 0 <= c < 9 -> page_ok p -> b ∈ blocks c p -> 0 < align -> block_size c mod align = 0 -> b mod align = 0.
Proof.
  intros Hc (Hp & _) Hb Ha Hd. destruct (class_facts c Hc) as (_ & Hbs & _ & Hdo & _ & _ & H4). destruct (blocks_elem c p b Hc Hb) as (_ & _ & i & _ & ->).
  apply Z.mod_divide in Hd, Hp, Hdo, H4; try lia. apply Z.mod_divide; [lia|]. apply (Z.divide_trans _ (block_size c)); [done|].
  repeat apply Z.divide_add_r; [by apply (Z.divide_trans _ 4096)|done|apply Z.divide_factor_r].
Qed.

Lemma popped_loaded G p s b fl : (forall q t, q <> p -> G !! q = Some t -> Z.of_nat (length (sfree t)) < capacity (scl t)) ->
  Z.of_nat (length (sfree s)) <= capacity (scl s) -> sfree s = b :: fl -> loaded (<[p := mk_slab (scl s) fl]> G).
Proof.
  intros Hl Hs Ef q t Ht. apply lookup_insert_Some in Ht as [[<- <-]|[Hne Ht]]; [|by apply (Hl q t)]. cbn. rewrite Ef in Hs. cbn in Hs. lia.
Qed.

Lemma free_length h G L p s : heap_inv h G L -> G !! p = Some s -> Z.of_nat (length (sfree s)) <= capacity (scl s).
Proof.
  intros Hi Hs. pose proof (hi_slabs _ _ _ Hi p s Hs) as Ho. destruct (slab_elem _ _ _ _ _ Hi Hs) as [_ Hc].
  assert (Hle : (length (sfree s) <= length (blocks (scl s) p))%nat) by (apply submseteq_length, NoDup_submseteq; apply Ho).
  rewrite blocks_length in Hle by done. destruct (class_facts _ Hc) as (_ & _ & _ & _ & ? & _). lia.
Qed.

Lemma mod_add_eq a b c : a = b mod 2 ^ 64 -> (a + c) mod 2 ^ 64 = (b + c) mod 2 ^ 64.
Proof. intros ->. by rewrite Z.add_mod_idemp_l. Qed.

(** A change in a page that was not in use. *)
Lemma other_page_keeps h h' G G' L p s :
  heap_inv h G L -> heap_inv h' G' L -> G !! p = None -> G' = <[p := s]> G -> (forall x, ~ (p <= x < p + 4096) -> mem h' x = mem h x) ->
  keeps_live G L (mem h) (mem h').
Proof.
  intros Hi Hi' Hp -> Hm a n x Hlv Hx. apply Hm. assert (Hs : <[p := s]> G !! p = Some s) by apply lookup_insert_eq.
  destruct (live_where _ _ _ _ _ Hi Hlv) as [(q & t & Ht & H1 & H2)|(y & Hy & H1 & H2)].
  - assert (Hne : p <> q) by congruence. assert (Ht' : <[p := s]> G !! q = Some t) by (by rewrite lookup_insert_ne).
    pose proof (slabs_apart _ _ _ _ _ _ _ Hi' Hs Ht' Hne). lia.
  - destruct (hi_apart _ _ _ Hi') as [HA _]. specialize (HA p s a y Hs Hy). lia.
Qed.

(** Taking a block from the slab [find_slab] found. *)
Lemma pop_found h G L p s align :
  heap_inv h G L -> (forall q t, q <> p -> G !! q = Some t -> Z.of_nat (length (sfree t)) < capacity (scl t)) -> stats_ok h G L ->
  G !! p = Some s -> sfree s <> [] -> partial h !!! Z.to_nat (scl s) = p -> 0 < align -> block_size (scl s) mod align = 0 ->
  exists h' b G', pop_block (scl s) p h = (h', Ok b) /\ inv h' G' L /\ 0 < b /\ b mod align = 0 /\ p + 24 <= b < p + 4096 /\ (forall k, ~ live G L b k) /\
    (forall a k, live G' L a k <-> live G L a k \/ (a = b /\ k = InSlab (scl s))) /\ (forall x, ~ (p <= x < p + 24) -> mem h' x = mem h x).
Proof.
  intros Hi Hl Hst Hs Hne Hp Ha Hal. destruct (sfree s) as [|b fl] eqn:Ef; [done|]. destruct (slab_elem _ _ _ _ _ Hi Hs) as [Hpo Hc].
  assert (Hb : b ∈ sfree s) by (rewrite Ef; left). pose proof (hi_slabs _ _ _ Hi p s Hs) as Ho. pose proof (so_sub _ _ _ Ho b Hb) as Hbb.
  destruct (free_bounds _ _ _ _ _ _ Hi Hs Hb) as (B1 & B2 & B3). destruct (pop_block_ok h G L p s b fl Hi Hs Ef Hp) as (h' & E & Hi' & Hm & Es & El).
  exists h', b, (<[p := mk_slab (scl s) fl]> G). split; [done|]. split_and!; try done; try lia.
  - split; [done|by apply (popped_loaded _ _ _ b); [|apply (free_length h G L p)|]|]. destruct Hst as [H1 H2]. split; [|by rewrite El].
    rewrite Es, (mod_add_eq _ _ _ H1), (used_update G p s _ Hs). unfold slab_used. cbn. rewrite Ef. cbn. f_equal. lia.
  - by apply (block_aligned (scl s) p).
  - intros k. by apply (free_not_live h G L p s).
  - intros a k. apply live_pop; [done..|apply Ho|done].
Qed.

Lemma alloc_slab_ok h G L size align c :
  inv h G L -> class_index size align = Some c -> is_power_of_two align = true -> 0 < align ->
  exists h' r, alloc_slab size align h = (h', Ok r) /\ allocated h h' G L r (InSlab c) align.
Proof.
  intros [Hi Hl Hst] Ec Hp Ha. destruct (class_index_spec size align c Ec Hp) as (Hc & _ & _ & Hal & _). unfold alloc_slab. rewrite Ec.
  destruct (find_slab_ok h G L c Hi Hc) as (h1 & p & E & Es & El & Hf). rewrite (bind_run _ _ _ _ _ E).
  destruct Hf as [(-> & Hi1 & Hm)|(G1 & s & Hp0 & Hi1 & Hs & <- & Hne & Hpar & Hf)].
  { exists h1, 0. split; [done|]. left. split_and!; [done| |done]. split; [done..|]. destruct Hst. split; congruence. }
  rewrite (proj2 (Z.eqb_neq p 0)) by done.
  assert (H1 : (forall q t, q <> p -> G1 !! q = Some t -> Z.of_nat (length (sfree t)) < capacity (scl t)) /\ stats_ok h1 G1 L /\
    (forall a k, live G1 L a k <-> live G L a k) /\ keeps_live G L (mem h) (mem h1)).
  { destruct Hf as [[-> Hm]|(HGp & -> & Ef & Hm)].
    - split_and!; [by intros; eapply Hl|destruct Hst; split; congruence|done|intros a n x _ _; by rewrite Hm].
    - split_and!; [|destruct Hst as [S1 S2]; split|intros a k; destruct s as [sc sf]; cbn in Ef; subst sf; by apply live_new_slab|].
      + intros q t Hq Ht. rewrite lookup_insert_ne in Ht by done. by eapply Hl.
      + rewrite Es, S1, used_insert by done. unfold slab_used. rewrite Ef, blocks_length by done. destruct (class_facts _ Hc) as (_ & _ & _ & _ & ? & _). f_equal. nia.
      + congruence.
      + by apply (other_page_keeps h h1 G (<[p := s]> G) L p s). }
  destruct H1 as (Hl1 & Hst1 & Hlive & Hm1).
  destruct (pop_found h1 G1 L p s align Hi1 Hl1 Hst1 Hs Hne Hpar Ha Hal) as (h2 & b & G2 & E2 & Hi2 & Hb0 & Hb1 & Hbp & Hbf & Hb2 & Hm2).
  exists h2, b. split; [done|]. right. exists G2, L. split_and!; try done.
  - intros k Hk. apply (Hbf k). by apply Hlive.
  - intros a k. by rewrite Hb2, Hlive.
  - intros a n x Hlv Hx. rewrite (header_keeps h1 G1 L p s (mem h2) Hi1 Hs Hm2 a n x); [by apply (Hm1 a n)|by apply Hlive|done].
Qed.

(** ** Unlinking a slab *)

Lemma unlink_turns m p l : forall at_, chain m 16 (load 8 m (at_ + 16)) l ->
  (p ∉ l -> turns (Datatypes.S (length l)) (unlink_step m p) at_ = inr None) /\
  (p ∈ l -> exists y l1 l2, at_ :: l = l1 ++ y :: p :: l2 /\
     turns (Datatypes.S (length l)) (unlink_step m p) at_ = inr (Some (store 8 m (y + 16) (load 8 m (p + 16))))).
Proof.
  induction l as [|x l IH]; intros at_ Hch; cbn [turns length].
  - assert (Es : unlink_step m p at_ = inr None) by (unfold unlink_step; cbn in Hch; by rewrite Hch). rewrite Es. split; [done|by intros ?%elem_of_nil].
  - destruct Hch as (Ex & Hx & Hch).
    assert (Es : unlink_step m p at_ = if x =? p then inr (Some (store 8 m (at_ + 16) (load 8 m (p + 16)))) else inl x)
      by (unfold unlink_step; rewrite Ex, (proj2 (Z.eqb_neq x 0)) by lia; done).
    rewrite Es. destruct (Z.eqb_spec x p) as [->|Hne].
    + split; [intros Hn; exfalso; apply Hn; left|]. intros _. by exists at_, [], l.
    + destruct (IH x Hch) as [I1 I2]. split.
      * intros Hn. apply I1. intros Hin. apply Hn. by right.
      * intros [|Hin]%elem_of_cons; [congruence|]. destruct (I2 Hin) as (y & l1 & l2 & E & Et). exists y, (at_ :: l1), l2. cbn. by rewrite E.
Qed.

Lemma chain_unlink m l1 : forall hd y p l2,
  chain m 16 hd (l1 ++ y :: p :: l2) -> NoDup (l1 ++ y :: p :: l2) -> (forall x, x ∈ l1 ++ y :: p :: l2 -> page_ok x) ->
  chain (store 8 m (y + 16) (load 8 m (p + 16))) 16 hd (l1 ++ y :: l2).
Proof.
  induction l1 as [|x l1 IH]; intros hd y p l2 Hch Hnd Hpo.
  - cbn in *. destruct Hch as (-> & Hy & _ & Hp & Hch). split_and!; [done..|]. apply NoDup_cons in Hnd as [Hny Hnd].
    assert (Hr : 0 <= load 8 m (p + 16) < 2 ^ 64).
    { destruct l2 as [|z l2']; [cbn in Hch; lia|]. destruct Hch as (-> & Hz & _). destruct (Hpo z) as (_ & _ & ?); [do 2 right; left|lia]. }
    rewrite load_store_same by (change (256 ^ Z.of_nat 8) with (2 ^ 64); lia). apply (chain_ext m); [|done]. intros x Hx. apply load_store_ne.
    assert (Hxy : x <> y) by (intros ->; apply Hny; by right). destruct (Hpo x) as [Hxm _]; [by do 2 right|]. destruct (Hpo y) as [Hym _]; [left|].
    pose proof (page_apart x y Hxm Hym Hxy). lia.
  - cbn in *. destruct Hch as (-> & Hx & Hch). split_and!; [done..|]. apply NoDup_cons in Hnd as [Hnx Hnd].
    assert (Hxy : x <> y) by (intros ->; apply Hnx; apply elem_of_app; right; left). destruct (Hpo x) as [Hxm _]; [left|].
    destruct (Hpo y) as [Hym _]; [right; apply elem_of_app; right; left|]. pose proof (page_apart x y Hxm Hym Hxy).
    rewrite load_store_ne by lia. apply IH; [done..|]. intros z Hz. apply Hpo. by right.
Qed.

(** There are fewer slabs than pages. *)
Lemma pages_count l : NoDup l -> (forall x, x ∈ l -> page_ok x) -> Z.of_nat (length l) < 2 ^ 52.
Proof.
  intros Hnd Hpo. assert (Hs : l ⊆+ (fun k => 4096 * k) <$> seqZ 1 (2 ^ 52 - 1)).
  { apply NoDup_submseteq; [done|]. intros x Hx. destruct (Hpo x Hx) as (Hm & H0 & H1). apply list_elem_of_fmap. exists (x / 4096).
    pose proof (Z.div_mod x 4096 ltac:(lia)). split; [lia|]. apply elem_of_seqZ. lia. }
  apply submseteq_length in Hs. rewrite length_fmap, length_seqZ in Hs. lia.
Qed.

Abbreviation with_lists h m par := (mk_Ralloc m par (source h) (slab_bytes h) (large_bytes h) (slab_allocs h) (large_allocs h)).

Lemma unlink_ok h c p l : 0 <= c < 9 -> length (partial h) = 9%nat ->
  chain (mem h) 16 (partial h !!! Z.to_nat c) l -> NoDup l -> (forall x, x ∈ l -> page_ok x) ->
  exists m' par' l', unlink c p h = (with_lists h m' par', Ok tt) /\ chain m' 16 (par' !!! Z.to_nat c) l' /\ NoDup l' /\
    (forall q, q ∈ l' <-> q ∈ l /\ q <> p) /\ length par' = 9%nat /\
    (forall c', 0 <= c' < 9 -> c' <> c -> par' !!! Z.to_nat c' = partial h !!! Z.to_nat c') /\
    (forall x, (forall q, q ∈ l -> q <> p -> ~ (q + 16 <= x < q + 24)) -> m' x = mem h x).
Proof.
  intros Hc Hlen Hch Hnd Hpo. unfold unlink. destruct (Z.eqb_spec (partial h !!! Z.to_nat c) 0) as [E0|Hn0].
  { exists (mem h), (partial h), l. split; [by destruct h|]. split_and!; try done. intros q. rewrite E0 in Hch. apply chain_nil in Hch as ->.
    split; [by intros ?%elem_of_nil|by intros [?%elem_of_nil _]]. }
  destruct (chain_cons _ _ _ _ Hch Hn0) as (l0 & El & Hf0 & Hch0).
  destruct (Z.eqb_spec (partial h !!! Z.to_nat c) p) as [Ep|Hnp].
  { rewrite Ep in El, Hch0. subst l. apply NoDup_cons in Hnd as [Hn Hnd].
    exists (mem h), (<[Z.to_nat c := load 8 (mem h) (p + 16)]> (partial h)), l0. split; [done|]. split_and!; try done.
    - by rewrite list_lookup_total_insert_eq by lia.
    - intros q. rewrite elem_of_cons. split; [intros Hq; split; [by right|congruence]|intros [[->|Hq] Hne]; done].
    - by rewrite length_insert.
    - intros c' Hc' Hne. apply list_lookup_total_insert_ne. lia. }
  assert (Hcnt : Z.of_nat (Datatypes.S (length l0)) <= 2 ^ Z.of_nat 52).
  { pose proof (pages_count l Hnd Hpo) as Hlt. rewrite El in Hlt. cbn [length] in Hlt. change (2 ^ Z.of_nat 52) with (2 ^ 52). lia. }
  destruct (unlink_turns (mem h) p l0 (partial h !!! Z.to_nat c) Hch0) as [T1 T2]. destruct (decide (p ∈ l0)) as [Hin|Hnin].
  - destruct (T2 Hin) as (y & l1 & l2 & E & Et). rewrite (iter_until_enough 52 _ _ _ _ Et Hcnt). rewrite <- El in E. rewrite E in Hch, Hnd, Hpo.
    exists (store 8 (mem h) (y + 16) (load 8 (mem h) (p + 16))), (partial h), (l1 ++ y :: l2). split; [done|].
    assert (Hyp : y <> p). { intros ->. apply NoDup_app in Hnd as (_ & _ & Hnd). apply NoDup_cons in Hnd as [Hnn _]. apply Hnn. left. }
    split_and!; try done.
    + by apply chain_unlink.
    + apply (sublist_NoDup _ (l1 ++ y :: p :: l2)); [done|]. apply sublist_app; [done|]. constructor. by constructor.
    + intros q. rewrite E, !elem_of_app, !elem_of_cons. apply NoDup_app in Hnd as (_ & Hd & Hnd). apply NoDup_cons in Hnd as [_ Hnd]. apply NoDup_cons in Hnd as [Hn2 _].
      assert (Hn1 : p ∉ l1) by (intros Hp1; apply (Hd p Hp1); right; left). split; [|tauto]. intros [Hq|[->|Hq]]; split; try tauto; intros ->; done.
    + intros x Hx. apply store_out. specialize (Hx y). rewrite E in Hx. specialize (Hx ltac:(apply elem_of_app; right; left) Hyp). lia.
  - rewrite (iter_until_enough 52 _ _ _ _ (T1 Hnin) Hcnt). exists (mem h), (partial h), l. split; [by destruct h|]. split_and!; try done.
    intros q. split; [|by intros [? _]]. intros Hq. split; [done|]. intros ->. rewrite El in Hq. apply elem_of_cons in Hq as [?|?]; congruence.
Qed.

(** ** Giving a block back *)

(** The memory after the block is back on its slab's list. *)
Definition push_memory (m : memory) (p b avail : Z) : memory :=
  store 2 (store 8 (store 8 m b (load 8 m (p + 8))) (p + 8) b) (p + 4) (avail + 1).

Lemma block_bounds h G L p s b : heap_inv h G L -> G !! p = Some s -> b ∈ blocks (scl s) p -> p + 24 <= b /\ b + 8 <= p + 4096 /\ b + block_size (scl s) <= p + 4096 /\ 0 < b < 2 ^ 64.
Proof.
  intros Hi Hs Hb. destruct (slab_elem _ _ _ _ _ Hi Hs) as [(_ & H0 & H1) Hc]. destruct (blocks_elem _ _ _ Hc Hb) as (Hb1 & Hb2 & _).
  destruct (class_facts _ Hc) as (_ & Hbs & _). lia.
Qed.

(** A block in use leaves room on the free list. *)
Lemma used_length h G L p s b : heap_inv h G L -> G !! p = Some s -> b ∈ blocks (scl s) p -> b ∉ sfree s -> Z.of_nat (length (sfree s)) < capacity (scl s).
Proof.
  intros Hi Hs Hb Hn. pose proof (hi_slabs _ _ _ Hi p s Hs) as Ho. destruct (slab_elem _ _ _ _ _ Hi Hs) as [_ Hc].
  assert (Hle : (length (b :: sfree s) <= length (blocks (scl s) p))%nat).
  { apply submseteq_length, NoDup_submseteq; [constructor; [done|apply Ho]|]. intros x [->|Hx]%elem_of_cons; [done|]. by apply (so_sub _ _ _ Ho). }
  rewrite blocks_length in Hle by done. destruct (class_facts _ Hc) as (_ & _ & _ & _ & ? & _). cbn in Hle. lia.
Qed.

Lemma push_slab_ok h G L p s b : heap_inv h G L -> G !! p = Some s -> b ∈ blocks (scl s) p -> b ∉ sfree s ->
  slab_ok (push_memory (mem h) p b (Z.of_nat (length (sfree s)))) p (mk_slab (scl s) (b :: sfree s)).
Proof.
  intros Hi Hs Hb Hn. pose proof (hi_slabs _ _ _ Hi p s Hs) as Ho. destruct (slab_elem _ _ _ _ _ Hi Hs) as [Hpo Hc].
  destruct (block_bounds _ _ _ _ _ _ Hi Hs Hb) as (B1 & B2 & _ & B3). pose proof (used_length _ _ _ _ _ _ Hi Hs Hb Hn) as Hlen.
  destruct (class_facts _ Hc) as (_ & Hbs & _ & _ & Hcap & _). unfold push_memory.
  assert (Hr : 0 <= load 8 (mem h) (p + 8) < 2 ^ 64).
  { pose proof (so_chain _ _ _ Ho) as Hch. destruct (sfree s) as [|y fl] eqn:Ef; [cbn in Hch; lia|]. destruct Hch as (-> & _).
    pose proof (free_bounds _ _ _ _ _ y Hi Hs ltac:(rewrite Ef; left)). lia. }
  split; cbn [scl sfree length]; try apply Ho.
  - skip_stores. apply Ho.
  - rewrite load_store_same by (change (256 ^ Z.of_nat 2) with (2 ^ 16); lia). lia.
  - skip_stores. apply Ho.
  - intros x [->|Hx]%elem_of_cons; [done|]. by apply (so_sub _ _ _ Ho).
  - constructor; [done|apply Ho].
  - rewrite load_store_ne, load_store_same by (rewrite ?Z2Nat.id; change (256 ^ Z.of_nat 8) with (2 ^ 64); lia). cbn. split_and!; [done|lia|].
    rewrite Z.add_0_r. skip_stores. rewrite load_store_same by (change (256 ^ Z.of_nat 8) with (2 ^ 64); lia).
    apply (chain_ext (mem h)); [|apply Ho]. intros x Hx. rewrite Z.add_0_r. pose proof (free_bounds _ _ _ _ _ _ Hi Hs Hx).
    pose proof (blocks_apart _ p x b Hc (so_sub _ _ _ Ho x Hx) Hb ltac:(intros ->; done)). by skip_stores.
Qed.

Lemma live_push G L p s b a n : G !! p = Some s -> b ∈ blocks (scl s) p -> b ∉ sfree s -> L !! b = None ->
  (forall q t, q <> p -> G !! q = Some t -> b ∉ blocks (scl t) q) ->
  live (<[p := mk_slab (scl s) (b :: sfree s)]> G) L a n <-> live G L a n /\ a <> b.
Proof.
  intros Hs Hb Hn HL HG. split.
  - intros [(q & t & Ht & Ha & Hf & ->)|(x & Hx & ->)]; [|split; [right; by exists x|congruence]].
    apply lookup_insert_Some in Ht as [[<- <-]|[Hne Ht]]; cbn in *.
    + apply not_elem_of_cons in Hf as [Hab Hf]. split; [|done]. left. by exists p, s.
    + split; [left; by exists q, t|]. intros ->. by apply (HG q t).
  - intros [[(q & t & Ht & Ha & Hf & ->)|Hl] Hab]; [|by right]. left. destruct (decide (p = q)) as [->|Hne]; [|exists q, t; by rewrite lookup_insert_ne].
    rewrite Hs in Ht. injection Ht as <-. exists q, (mk_slab (scl s) (b :: sfree s)). rewrite lookup_insert_eq. split_and!; [done..| |done].
    cbn. by apply not_elem_of_cons.
Qed.

(** The clients after the block [b] is free. *)
Definition freed h h' G L (b : Z) : Prop :=
  exists G' L', inv h' G' L' /\ (forall a n, live G' L' a n <-> live G L a n /\ a <> b) /\
    forall a n x, live G L a n -> a <> b -> a <= x < a + usize n -> mem h' x = mem h x.

Lemma push_frame m p b avail x : ~ (p <= x < p + 24) -> ~ (b <= x < b + 8) -> push_memory m p b avail x = m x.
Proof. intros H1 H2. unfold push_memory. by rewrite !store_out by lia. Qed.

(** Live allocations other than [b] do not notice. *)
Lemma push_keeps h G L p s b a n x : heap_inv h G L -> G !! p = Some s -> b ∈ blocks (scl s) p -> b ∉ sfree s ->
  live G L a n -> a <> b -> a <= x < a + usize n -> ~ (p <= x < p + 24) /\ ~ (b <= x < b + 8).
Proof.
  intros Hi Hs Hb Hn Hl Hab Hx. destruct (block_bounds _ _ _ _ _ _ Hi Hs Hb) as (B1 & B2 & B3 & _). destruct (slab_elem _ _ _ _ _ Hi Hs) as [Hpo Hc].
  destruct (class_facts _ Hc) as (_ & Hbs & _).
  destruct Hl as [(q & t & Ht & Ha & Hf & ->)|(y & Hy & ->)]; cbn [usize] in Hx.
  - destruct (block_bounds _ _ _ _ _ _ Hi Ht Ha) as (Q1 & _ & Q2 & _). destruct (decide (p = q)) as [->|Hne].
    + rewrite Hs in Ht. injection Ht as <-. pose proof (blocks_apart _ _ _ _ Hc Ha Hb Hab). lia.
    + pose proof (slabs_apart _ _ _ _ _ _ _ Hi Hs Ht Hne). lia.
  - destruct (hi_large _ _ _ Hi a y Hy) as [_ _ Hin _]. destruct (hi_apart _ _ _ Hi) as [HA _]. specialize (HA p s a y Hs Hy). lia.
Qed.

(** The block is in no other slab and no large allocation. *)
Lemma block_only h G L p s b : heap_inv h G L -> G !! p = Some s -> b ∈ blocks (scl s) p ->
  L !! b = None /\ (forall q t, q <> p -> G !! q = Some t -> b ∉ blocks (scl t) q).
Proof.
  intros Hi Hs Hb. destruct (block_bounds _ _ _ _ _ _ Hi Hs Hb) as (B1 & B2 & _). split.
  - destruct (L !! b) as [x|] eqn:Hx; [|done]. exfalso. destruct (hi_large _ _ _ Hi b x Hx) as [_ _ Hin _]. destruct (hi_apart _ _ _ Hi) as [HA _]. specialize (HA p s b x Hs Hx). lia.
  - intros q t Hq Ht Hbq. destruct (block_bounds _ _ _ _ _ _ Hi Ht Hbq) as (Q1 & Q2 & _). pose proof (slabs_apart _ _ _ _ _ _ _ Hi Hs Ht ltac:(congruence)). lia.
Qed.

(** The common part of [dealloc_slab]. *)
Lemma dealloc_slab_run h G L p s b : heap_inv h G L -> G !! p = Some s -> b ∈ blocks (scl s) p -> b ∉ sfree s ->
  let n := Z.of_nat (length (sfree s)) in
  let h1 := mk_Ralloc (push_memory (mem h) p b n) (partial h) (source h) ((slab_bytes h + - block_size (scl s)) mod 2 ^ 64) (large_bytes h)
              ((slab_allocs h + 0) mod 2 ^ 64) (large_allocs h) in
  dealloc_slab b h =
    (if n + 1 =? capacity (scl s) then (unlink (scl s) p ;; give_pages p 1) h1
     else if n =? 0 then (first ← get_partial (scl s); put 8 (p + 16) first ;; set_partial (scl s) p) h1 else (h1, Ok tt)).
Proof.
  intros Hi Hs Hb Hn. cbv zeta. pose proof (hi_slabs _ _ _ Hi p s Hs) as Ho. destruct (slab_elem _ _ _ _ _ Hi Hs) as [Hpo Hc].
  destruct (block_bounds _ _ _ _ _ _ Hi Hs Hb) as (B1 & B2 & _ & B3). pose proof (used_length _ _ _ _ _ _ Hi Hs Hb Hn) as Hlen.
  destruct (class_facts _ Hc) as (_ & _ & _ & _ & Hcap & _). unfold dealloc_slab. change (4096 - 1) with 4095. rewrite (slab_page_of p b) by (done || lia).
  mrun. rewrite (so_avail _ _ _ Ho), (so_cl _ _ _ Ho). rewrite (proj2 (Z.ltb_lt _ (2 ^ 16))) by lia.
  rewrite (bind_run _ _ _ _ _ (lift_run _ _ _ eq_refl)). mrun. fold (push_memory (mem h) p b (Z.of_nat (length (sfree s)))).
  rewrite (so_cap _ _ _ (push_slab_ok _ _ _ _ _ _ Hi Hs Hb Hn)). cbn [scl].
  destruct (Z.of_nat (length (sfree s)) + 1 =? capacity (scl s)); [done|]. by destruct (Z.of_nat (length (sfree s)) =? 0).
Qed.

Lemma push_stats h G L p s b : stats_ok h G L -> G !! p = Some s ->
  (slab_bytes h + - block_size (scl s)) mod 2 ^ 64 = used (<[p := mk_slab (scl s) (b :: sfree s)]> G) mod 2 ^ 64.
Proof.
  intros [H1 _] Hs. rewrite (mod_add_eq _ _ _ H1), (used_update G p s _ Hs). unfold slab_used. cbn [scl sfree length]. f_equal. lia.
Qed.

Lemma pushed_loaded G p s b : loaded G -> Z.of_nat (length (sfree s)) + 1 < capacity (scl s) -> loaded (<[p := mk_slab (scl s) (b :: sfree s)]> G).
Proof. intros Hl Hc q t Ht. apply lookup_insert_Some in Ht as [[<- <-]|[_ Ht]]; [cbn; lia|by apply (Hl q t)]. Qed.

(** The slab had room before and has more now. *)
Lemma dealloc_partial h h1 G L p s b :
  inv h G L -> G !! p = Some s -> b ∈ blocks (scl s) p -> b ∉ sfree s -> Z.of_nat (length (sfree s)) + 1 <> capacity (scl s) ->
  mem h1 = push_memory (mem h) p b (Z.of_nat (length (sfree s))) -> partial h1 = partial h -> source h1 = source h ->
  slab_bytes h1 = (slab_bytes h + - block_size (scl s)) mod 2 ^ 64 -> large_bytes h1 = large_bytes h ->
  sfree s <> [] -> inv h1 (<[p := mk_slab (scl s) (b :: sfree s)]> G) L.
Proof.
  intros [Hi Hl Hst] Hs Hb Hn Hcap Hm Hp Hsrc Hsb Hlb Hne. destruct (slab_elem _ _ _ _ _ Hi Hs) as [[Hpm _] Hc]. pose proof (used_length _ _ _ _ _ _ Hi Hs Hb Hn) as Hlen.
  destruct (block_bounds _ _ _ _ _ _ Hi Hs Hb) as (B1 & B2 & _). destruct (hi_lists _ _ _ Hi) as [Hpl Hls]. destruct (Hls _ Hc) as (l & Hch & Hnd & Hin).
  assert (Hfr : forall x, ~ (p <= x < p + 16) -> ~ (b <= x < b + 8) -> mem h1 x = mem h x) by (intros x X1 X2; rewrite Hm; unfold push_memory; by rewrite !store_out by lia).
  split; [|by apply pushed_loaded; [|lia]|split; [by rewrite Hsb; apply (push_stats h G L)|by rewrite Hlb; apply Hst]].
  apply (inv_slab_change h h1 G L p s _ l Hi Hs); try done.
  - intros x Hx. apply Hfr; lia.
  - rewrite Hm. by apply (push_slab_ok h G L).
  - by rewrite Hp.
  - intros. by rewrite Hp.
  - rewrite Hp. apply (chain_ext (mem h)); [|done]. intros q Hq. apply Hin in Hq as (t & Ht & _). apply load_ext. intros x Hx.
    destruct (decide (p = q)) as [->|Hpq]; [apply Hfr; lia|]. pose proof (slabs_apart _ _ _ _ _ _ _ Hi Hs Ht Hpq). apply Hfr; lia.
  - intros q. rewrite Hin. unfold has_room. destruct (decide (p = q)) as [->|Hpq]; [|by rewrite lookup_insert_ne].
    rewrite lookup_insert_eq. split; intros _; [by exists (mk_slab (scl s) (b :: sfree s))|by exists s].
Qed.

(** The slab was full and is the first with room now. *)
Lemma dealloc_full h h1 G L p s b :
  inv h G L -> G !! p = Some s -> b ∈ blocks (scl s) p -> b ∉ sfree s -> Z.of_nat (length (sfree s)) + 1 <> capacity (scl s) ->
  mem h1 = store 8 (push_memory (mem h) p b (Z.of_nat (length (sfree s)))) (p + 16) (partial h !!! Z.to_nat (scl s)) ->
  partial h1 = <[Z.to_nat (scl s) := p]> (partial h) -> source h1 = source h ->
  slab_bytes h1 = (slab_bytes h + - block_size (scl s)) mod 2 ^ 64 -> large_bytes h1 = large_bytes h ->
  sfree s = [] -> inv h1 (<[p := mk_slab (scl s) (b :: sfree s)]> G) L.
Proof.
  intros [Hi Hl Hst] Hs Hb Hn Hcap Hm Hp Hsrc Hsb Hlb He. destruct (slab_elem _ _ _ _ _ Hi Hs) as [(Hpm & Hp0 & _) Hc]. pose proof (used_length _ _ _ _ _ _ Hi Hs Hb Hn) as Hlen.
  destruct (block_bounds _ _ _ _ _ _ Hi Hs Hb) as (B1 & B2 & _). destruct (hi_lists _ _ _ Hi) as [Hpl Hls]. destruct (Hls _ Hc) as (l & Hch & Hnd & Hin).
  assert (Hnp : p ∉ l) by (intros Hpl'; apply Hin in Hpl' as (t & Ht & _ & Hf); congruence).
  assert (Hfr : forall x, ~ (p <= x < p + 4096) -> mem h1 x = mem h x) by (intros x X1; rewrite Hm; unfold push_memory; by rewrite !store_out by lia).
  split; [|by apply pushed_loaded; [|lia]|split; [by rewrite Hsb; apply (push_stats h G L)|by rewrite Hlb; apply Hst]].
  apply (inv_slab_change h h1 G L p s _ (p :: l) Hi Hs); try done.
  - rewrite Hm. apply (slab_ok_ext (push_memory (mem h) p b (Z.of_nat (length (sfree s))))); [intros x Hx; apply store_out; lia| |by apply (push_slab_ok h G L)].
    intros y x Hy Hx. apply store_out. cbn in Hy. rewrite He in Hy. apply list_elem_of_singleton in Hy as ->. lia.
  - by rewrite Hp, length_insert.
  - intros c' Hc' Hne. rewrite Hp. apply list_lookup_total_insert_ne. lia.
  - rewrite Hp, list_lookup_total_insert_eq by lia. cbn. split_and!; [done..|]. rewrite Hm, load_store_same.
    + rewrite <- Hm. apply (chain_elsewhere h G L p (scl s)); [done..| |done]. intros q Hq. split; [by apply Hin|intros ->; done].
    + change (256 ^ Z.of_nat 8) with (2 ^ 64). destruct l as [|q l']; [cbn in Hch; lia|]. destruct Hch as (-> & Hq & _).
      destruct (proj1 (Hin q) (list_elem_of_here _ _)) as (t & Ht & _). destruct (slab_elem _ _ _ _ _ Hi Ht) as [(_ & ? & ?) _]. lia.
  - by constructor.
  - intros q. rewrite elem_of_cons, Hin. unfold has_room. destruct (decide (p = q)) as [->|Hpq].
    + rewrite lookup_insert_eq. split; [intros _; by exists (mk_slab (scl s) (b :: sfree s))|by left].
    + rewrite lookup_insert_ne by done. split; [intros [->|?]; done|by right].
Qed.

(** A slab leaves the heap: only its page and the links of other slabs change. *)
Lemma inv_remove_slab h h' G L p s l' :
  heap_inv h G L -> G !! p = Some s ->
  (forall x, ~ (p <= x < p + 4096) -> (forall q t, G !! q = Some t -> q <> p -> ~ (q + 16 <= x < q + 24)) -> mem h' x = mem h x) ->
  (forall q t, G !! q = Some t -> q <> p -> scl t <> scl s -> load 8 (mem h') (q + 16) = load 8 (mem h) (q + 16)) ->
  source h' = free_pages p 1 (source h) -> length (partial h') = 9%nat ->
  (forall c', 0 <= c' < 9 -> c' <> scl s -> partial h' !!! Z.to_nat c' = partial h !!! Z.to_nat c') ->
  chain (mem h') 16 (partial h' !!! Z.to_nat (scl s)) l' -> NoDup l' -> (forall q, q ∈ l' <-> has_room G (scl s) q /\ q <> p) ->
  heap_inv h' (delete p G) L.
Proof.
  intros Hi Hs Hm Hnx Hsrc Hlen Hpar Hch Hnd Hin. destruct (slab_elem _ _ _ _ _ Hi Hs) as [Hpo Hc]. destruct (hi_apart _ _ _ Hi) as [HA1 HA2].
  assert (Hother : forall q t x, G !! q = Some t -> q <> p -> q <= x < q + 4096 -> ~ (q + 16 <= x < q + 24) -> mem h' x = mem h x).
  { intros q t x Ht Hq Hx Hnn. apply Hm; [pose proof (slabs_apart _ _ _ _ _ _ _ Hi Hs Ht ltac:(congruence)); lia|].
    intros q' t' Ht' _. destruct (decide (q = q')) as [<-|Hqq]; [done|]. pose proof (slabs_apart _ _ _ _ _ _ _ Hi Ht Ht' Hqq). lia. }
  destruct (free_law p 1 (source h)) as (Hok & Hheld & Htk); [apply Hi|]. rewrite Z.mul_1_l in Hheld. split.
  - intros q t Ht. apply lookup_delete_Some in Ht as [Hpq Ht]. pose proof (hi_slabs _ _ _ Hi q t Ht) as Hq. apply (slab_ok_ext (mem h)); [| |done].
    + intros x Hx. apply (Hother q t); [done|congruence|lia..].
    + intros y x Hy Hx. pose proof (free_bounds _ _ _ _ _ _ Hi Ht Hy). apply (Hother q t); [done|congruence|lia..].
  - apply (lists_change (mem h) (mem h') (partial h) (partial h') G _ (scl s) p l'); try done; [apply Hi|..].
    + intros q t Hq Ht Hne. by apply (Hnx q t).
    + intros q Hq. by rewrite lookup_delete_ne.
    + intros t Ht. congruence.
    + intros t Ht. by rewrite lookup_delete_eq in Ht.
    + intros q. rewrite Hin. unfold has_room. destruct (decide (p = q)) as [->|Hpq]; [rewrite lookup_delete_eq|rewrite lookup_delete_ne by done].
      * split; [by intros [_ ?]|by intros (? & ? & _)].
      * split; [by intros [? _]|intros ?; split; [done|congruence]].
  - intros a x Hx. pose proof (hi_large _ _ _ Hi a x Hx) as Ho. apply (large_ok_ext (mem h)); [|done]. intros y Hy. destruct Ho as [_ _ Hi' _]. apply Hm.
    + specialize (HA1 p s a x Hs Hx). lia.
    + intros q t Ht _. specialize (HA1 q t a x Ht Hx). lia.
  - split; [|done]. intros q t a x Ht Hx. apply lookup_delete_Some in Ht as [_ Ht]. by apply (HA1 q t a x).
  - rewrite Hsrc. destruct (hi_held _ _ _ Hi) as [H1 H2]. split.
    + intros q t a Ht Ha. apply lookup_delete_Some in Ht as [Hpq Ht]. apply Hheld; [by apply (H1 q t)|]. pose proof (slabs_apart _ _ _ _ _ _ _ Hi Hs Ht Hpq). lia.
    + intros a x y Hx Hy. apply Hheld; [by apply (H2 a x)|]. specialize (HA1 p s a x Hs Hx). lia.
  - by rewrite Hsrc.
  - rewrite Hsrc. destruct (hi_taken _ _ _ Hi) as (mm & Ht & Ha). exists (delete p mm). split; [apply Htk; [done|]; apply Ha; left; split; [done|by exists s]|].
    apply accounts_del_slab; [|done]. intros a x Hx E. destruct (hi_large _ _ _ Hi a x Hx) as [_ _ Hin' _]. specialize (HA1 p s a x Hs Hx). lia.
Qed.

(** All blocks free: nothing live in the slab. *)
Lemma live_drained G L p s b a n : G !! p = Some s -> b ∈ blocks (scl s) p -> b ∉ sfree s -> NoDup (sfree s) -> sfree s ⊆ blocks (scl s) p -> 0 <= scl s < 9 ->
  Z.of_nat (length (sfree s)) + 1 = capacity (scl s) ->
  live (delete p G) L a n <-> live (<[p := mk_slab (scl s) (b :: sfree s)]> G) L a n.
Proof.
  intros Hs Hb Hn Hnd Hsub Hc Hlen. assert (Hall : forall x, x ∈ blocks (scl s) p -> x ∈ b :: sfree s).
  { assert (Hp : b :: sfree s ≡ₚ blocks (scl s) p); [|intros x Hx; by rewrite Hp]. apply submseteq_length_Permutation.
    - apply NoDup_submseteq; [by constructor|]. intros x [->|Hx]%elem_of_cons; [done|by apply Hsub].
    - rewrite blocks_length by done. cbn. lia. }
  split; intros [(q & t & Ht & Ha & Hf & ->)|Hl]; try (by right); left.
  - apply lookup_delete_Some in Ht as [Hpq Ht]. exists q, t. by rewrite lookup_insert_ne.
  - apply lookup_insert_Some in Ht as [[<- <-]|[Hpq Ht]]; [cbn in *; exfalso; by apply Hf, Hall|]. exists q, t. by rewrite lookup_delete_ne.
Qed.

Lemma dealloc_drained h h1 G L p s b :
  inv h G L -> G !! p = Some s -> b ∈ blocks (scl s) p -> b ∉ sfree s -> Z.of_nat (length (sfree s)) + 1 = capacity (scl s) ->
  mem h1 = push_memory (mem h) p b (Z.of_nat (length (sfree s))) -> partial h1 = partial h -> source h1 = source h ->
  slab_bytes h1 = (slab_bytes h + - block_size (scl s)) mod 2 ^ 64 -> large_bytes h1 = large_bytes h ->
  exists h2, (unlink (scl s) p ;; give_pages p 1) h1 = (h2, Ok tt) /\ inv h2 (delete p G) L /\
    forall x, ~ (p <= x < p + 4096) -> (forall q t, G !! q = Some t -> q <> p -> ~ (q + 16 <= x < q + 24)) -> mem h2 x = mem h x.
Proof.
  intros [Hi Hl Hst] Hs Hb Hn Hcap Hm Hp Hsrc Hsb Hlb. destruct (slab_elem _ _ _ _ _ Hi Hs) as [(Hpm & Hp0 & _) Hc].
  destruct (block_bounds _ _ _ _ _ _ Hi Hs Hb) as (B1 & B2 & _). destruct (hi_lists _ _ _ Hi) as [Hpl Hls]. destruct (Hls _ Hc) as (l & Hch & Hnd & Hin).
  assert (Hfr : forall x, ~ (p <= x < p + 16) -> ~ (b <= x < b + 8) -> mem h1 x = mem h x) by (intros x X1 X2; rewrite Hm; unfold push_memory; by rewrite !store_out by lia).
  assert (Hnext : forall q t, G !! q = Some t -> load 8 (mem h1) (q + 16) = load 8 (mem h) (q + 16)).
  { intros q t Ht. apply load_ext. intros x Hx. destruct (decide (p = q)) as [->|Hpq]; [apply Hfr; lia|]. pose proof (slabs_apart _ _ _ _ _ _ _ Hi Hs Ht Hpq). apply Hfr; lia. }
  destruct (unlink_ok h1 (scl s) p l Hc) as (m' & par' & l' & E & Hch' & Hnd' & Hin' & Hlen' & Hpar' & Hm').
  { by rewrite Hp. }
  { rewrite Hp. apply (chain_ext (mem h)); [|done]. intros q Hq. apply Hin in Hq as (t & Ht & _). by apply (Hnext q t). }
  { done. }
  { intros q Hq. apply Hin in Hq as (t & Ht & _). by destruct (slab_elem _ _ _ _ _ Hi Ht). }
  rewrite (bind_run _ _ _ _ _ E). eexists. split; [reflexivity|]. cbn [mem partial source slab_bytes large_bytes slab_allocs large_allocs].
  assert (Hframe : forall x, ~ (p <= x < p + 4096) -> (forall q t, G !! q = Some t -> q <> p -> ~ (q + 16 <= x < q + 24)) -> m' x = mem h x).
  { intros x X1 X2. rewrite Hm' by (intros q Hq Hqp; apply Hin in Hq as (t & Ht & _); by apply (X2 q t)). apply Hfr; lia. }
  split; [|exact Hframe]. split; cbn [mem partial source slab_bytes large_bytes slab_allocs large_allocs].
  - eapply (inv_remove_slab h _ G L p s l' Hi Hs); cbn [mem partial source]; try done.
    + intros q t Ht Hqp Hne. rewrite <- (Hnext q t Ht). apply load_ext. intros x Hx. apply Hm'. intros q' Hq' _. apply Hin in Hq' as (t' & Ht' & Hc' & _).
      assert (Hqq : q <> q') by (intros ->; congruence). pose proof (slabs_apart _ _ _ _ _ _ _ Hi Ht Ht' Hqq). lia.
    + by rewrite Hsrc.
    + intros c' Hc' Hne. by rewrite Hpar', Hp.
    + intros q. by rewrite Hin', Hin.
  - intros q t Ht. apply lookup_delete_Some in Ht as [_ Ht]. by apply (Hl q t).
  - destruct Hst as [S1 S2]. split; cbn; [|by rewrite Hlb]. rewrite Hsb, (mod_add_eq _ _ _ S1), (used_lookup G p s Hs). unfold slab_used. f_equal. nia.
Qed.

Lemma dealloc_slab_ok h G L p s b : inv h G L -> G !! p = Some s -> b ∈ blocks (scl s) p -> b ∉ sfree s ->
  exists h', dealloc_slab b h = (h', Ok tt) /\ freed h h' G L b.
Proof.
  intros I Hs Hb Hn. pose proof I as [Hi _ _]. rewrite (dealloc_slab_run h G L p s b Hi Hs Hb Hn). cbv zeta.
  set (h1 := mk_Ralloc (push_memory _ _ _ _) _ _ _ _ _ _).
  destruct (block_only _ _ _ _ _ _ Hi Hs Hb) as [HL HG]. pose proof (hi_slabs _ _ _ Hi p s Hs) as Ho. destruct (slab_elem _ _ _ _ _ Hi Hs) as [Hpo Hc].
  destruct (block_bounds _ _ _ _ _ _ Hi Hs Hb) as (B1 & B2 & _).
  assert (Hlv : forall a n, live (<[p := mk_slab (scl s) (b :: sfree s)]> G) L a n <-> live G L a n /\ a <> b) by (intros a n; by apply live_push).
  pose proof (fun a n x => push_keeps h G L p s b a n x Hi Hs Hb Hn) as Hk.
  destruct (Z.eqb_spec (Z.of_nat (length (sfree s)) + 1) (capacity (scl s))) as [Ec|Ec].
  - destruct (dealloc_drained h h1 G L p s b I Hs Hb Hn Ec) as (h2 & E & I2 & Hm); [reflexivity..|]. exists h2. split; [exact E|].
    exists (delete p G), L. split; [done|]. split.
    + intros a n. rewrite <- Hlv. apply live_drained; try done; apply Ho.
    + intros a n x Hl Hab Hx. assert (Hla : live (delete p G) L a n) by (apply (live_drained G L p s b); try done; [apply Ho..|by apply Hlv]).
      destruct (live_where _ _ _ _ _ (inv_heap _ _ _ I2) Hla) as [(q & t & Ht & Q1 & Q2)|(y & Hy & Y1 & Y2)].
      * apply lookup_delete_Some in Ht as [Hpq Ht]. apply Hm; [pose proof (slabs_apart _ _ _ _ _ _ _ Hi Hs Ht Hpq); lia|].
        intros q' t' Ht' _. destruct (decide (q = q')) as [<-|Hqq]; [lia|]. pose proof (slabs_apart _ _ _ _ _ _ _ Hi Ht Ht' Hqq). lia.
      * destruct (hi_apart _ _ _ Hi) as [HA _]. apply Hm; [specialize (HA p s a y Hs Hy); lia|]. intros q t Ht _. specialize (HA q t a y Ht Hy). lia.
  - destruct (Z.eqb_spec (Z.of_nat (length (sfree s))) 0) as [E0|E0].
    + mrun. eexists. split; [reflexivity|]. exists (<[p := mk_slab (scl s) (b :: sfree s)]> G), L. split_and!; [|done|].
      * apply (dealloc_full h _ G L p s b I Hs Hb Hn Ec); try reflexivity. by destruct (sfree s).
      * intros a n x Hl Hab Hx. destruct (Hk a n x Hl Hab Hx).
        change (store 8 (push_memory (mem h) p b (Z.of_nat (length (sfree s)))) (p + 16) (partial h !!! Z.to_nat (scl s)) x = mem h x).
        rewrite store_out by lia. by apply push_frame.
    + exists h1. split; [reflexivity|]. exists (<[p := mk_slab (scl s) (b :: sfree s)]> G), L. split_and!; [|done|].
      * apply (dealloc_partial h h1 G L p s b I Hs Hb Hn Ec); try reflexivity. intros Ef. by rewrite Ef in E0.
      * intros a n x Hl Hab Hx. destruct (Hk a n x Hl Hab Hx). by apply push_frame.
Qed.

(** ** Large allocations *)

Lemma ralloc_align_up a align : is_power_of_two align = true -> a <= align_up a align < a + align /\ align_up a align mod align = 0.
Proof.
  intros Hp. destruct (power_of_two_spec align Hp) as (k & Hk & ->). unfold align_up. rewrite ldiff_pow2 by done.
  pose proof (Z.pow_pos_nonneg 2 k ltac:(lia) Hk). pose proof (Z.div_mod (a + 2 ^ k - 1) (2 ^ k) ltac:(lia)). pose proof (Z.mod_pos_bound (a + 2 ^ k - 1) (2 ^ k) ltac:(lia)).
  split; [lia|]. rewrite Z.mul_comm. by apply Z.mod_mul, Z.pow_nonzero.
Qed.

(** The heap with one more large allocation. *)
Lemma inv_add_large h h' G L a x :
  heap_inv h G L -> (forall y, lbase x <= y < lend x -> ~ held (source h) y) -> (forall y, lbase x <= y < lend x -> held (source h') y) ->
  source_ok (source h') -> (forall y, held (source h) y -> held (source h') y) -> (forall m, taken start (source h) m -> taken start (source h') (<[lbase x := lpages x]> m)) -> 0 < lpages x ->
  (forall y, ~ (lbase x <= y < lend x) -> mem h' y = mem h y) -> large_ok (mem h') a x -> partial h' = partial h ->
  heap_inv h' G (<[a := x]> L) /\ L !! a = None /\ (forall k, ~ live G L a k) /\ keeps_live G L (mem h) (mem h').
Proof.
  intros Hi Hf Hh Hok Hmono Htk Hn Hm Hx Hpar. destruct (fresh_apart h G L (lbase x) (lpages x) Hi Hn Hf) as [A1 A2]. destruct (hi_apart _ _ _ Hi) as [HA1 HA2].
  pose proof Hx as [_ _ Hin _]. assert (Hkeep : keeps_live G L (mem h) (mem h')).
  { intros b n y Hl Hy. apply Hm. destruct (live_where _ _ _ _ _ Hi Hl) as [(q & t & Ht & Q1 & Q2)|(z & Hz & Z1 & Z2)]; [specialize (A1 q t Ht)|specialize (A2 b z Hz)]; lia. }
  assert (HL : L !! a = None).
  { destruct (L !! a) as [z|] eqn:E; [|done]. destruct (hi_large _ _ _ Hi a z E) as [_ _ Hz _]. specialize (A2 a z E). lia. }
  split_and!; [|done| |done].
  - split.
    + intros q t Ht. specialize (A1 q t Ht). apply (slab_ok_ext (mem h)); [intros y Hy; apply Hm; lia| |by apply Hi].
      intros b y Hb Hy. apply Hm. pose proof (free_bounds _ _ _ _ _ _ Hi Ht Hb). lia.
    + destruct (hi_lists _ _ _ Hi) as [Hlen Hl]. rewrite Hpar. split; [done|]. intros c Hc. destruct (Hl c Hc) as (l & Hch & Hnd & Hin'). exists l. split_and!; [|done..].
      apply (chain_ext (mem h)); [|done]. intros q Hq. apply Hin' in Hq as (t & Ht & _). apply load_ext. intros y Hy. apply Hm. specialize (A1 q t Ht). lia.
    + intros b z Hz. apply lookup_insert_Some in Hz as [[<- <-]|[Hne Hz]]; [done|]. pose proof (hi_large _ _ _ Hi b z Hz) as Hzo. apply (large_ok_ext (mem h)); [|done].
      intros y Hy. apply Hm. destruct Hzo as [_ _ Hz' _]. specialize (A2 b z Hz). lia.
    + split; [intros q t b z Ht Hz|intros b z b' z' Hne Hz Hz'].
      * apply lookup_insert_Some in Hz as [[<- <-]|[_ Hz]]; [specialize (A1 q t Ht); lia|by apply (HA1 q t b z)].
      * apply lookup_insert_Some in Hz as [[<- <-]|[_ Hz]], Hz' as [[<- <-]|[_ Hz']];
          first [done|by apply (HA2 b z b' z')|specialize (A2 _ _ Hz'); lia|specialize (A2 _ _ Hz); lia].
    + destruct (hi_held _ _ _ Hi) as [H1 H2]. split; [intros q t y Ht Hy; apply Hmono; by apply (H1 q t)|]. intros b z y Hz Hy.
      apply lookup_insert_Some in Hz as [[<- <-]|[_ Hz]]; [by apply Hh|apply Hmono; by apply (H2 b z)].
    + done.
    + destruct (hi_taken _ _ _ Hi) as (mm & Ht & Hacc). exists (<[lbase x := lpages x]> mm). split; [by apply Htk|]. apply accounts_add_large; [done| | |done].
      * destruct (G !! lbase x) as [t|] eqn:E; [|done]. specialize (A1 _ t E). lia.
      * intros b z Hz E. destruct (hi_large _ _ _ Hi b z Hz) as [_ _ Hz' _]. specialize (A2 b z Hz). lia.
  - intros k Hl. destruct (live_where _ _ _ _ _ Hi Hl) as [(q & t & Ht & Q1 & Q2)|(z & Hz & _)]; [|congruence].
    destruct Hl as [(q' & t' & Ht' & Hb & _ & ->)|(z & Hz & _)]; [|congruence]. destruct (block_bounds _ _ _ _ _ _ Hi Ht' Hb) as (? & ? & _). specialize (A1 q' t' Ht'). lia.
Qed.

Lemma live_add_large G L a x b k : L !! a = None -> live G (<[a := x]> L) b k <-> live G L b k \/ (b = a /\ k = InLarge (lsize x)).
Proof.
  intros Ha. split.
  - intros [Hl|(z & Hz & ->)]; [left; by left|]. apply lookup_insert_Some in Hz as [[<- <-]|[_ Hz]]; [by right|]. left. right. by exists z.
  - intros [[Hl|(z & Hz & ->)]|[-> ->]]; [by left|right; exists z|right; exists x].
    + rewrite lookup_insert_ne; [done|congruence].
    + by rewrite lookup_insert_eq.
Qed.

Lemma alloc_large_ok h G L size align :
  inv h G L -> layout_ok size align = true -> 0 < size ->
  exists h' r, alloc_large size align h = (h', Ok r) /\ allocated h h' G L r (InLarge size) align.
Proof.
  intros [Hi Hl Hst] Hlay Hs. unfold layout_ok in Hlay. apply andb_true_iff in Hlay as [Hp Hsz%Z.leb_le].
  assert (Ha : 0 < align) by (destruct (power_of_two_spec align Hp) as (k & Hk & ->); lia).
  unfold alloc_large, checked_add. rewrite (proj2 (Z.ltb_lt (size + align) _)) by lia. cbn [mbind option_bind]. rewrite (proj2 (Z.ltb_lt (size + align + 24) _)) by lia.
  set (n := div_ceil (size + align + 24) 4096). assert (Hn : size + align + 24 <= n * 4096 < size + align + 24 + 4096).
  { unfold n, div_ceil. pose proof (Z.div_mod (size + align + 24 + 4096 - 1) 4096 ltac:(lia)). pose proof (Z.mod_pos_bound (size + align + 24 + 4096 - 1) 4096 ltac:(lia)). lia. }
  destruct (alloc_law n (source h)) as (s' & base & Ea & Hok & Hmono & Htk & Hb); [apply Hi|lia|].
  assert (Et : take_pages n h = (with_source h (mem h) s', Ok base)) by (unfold take_pages; by rewrite Ea). rewrite (bind_run _ _ _ _ _ Et).
  destruct (Z.eqb_spec base 0) as [->|Hb0].
  { eexists _, 0. split; [reflexivity|]. left. split_and!; [done| |done]. split; [apply inv_source; auto|done|done]. }
  destruct Hb as [|(Hbp & Hbm & Hbe & Hbf)]; [done|].
  assert (E1 : radd base 24 = (Ok (base + 24) : res Empty_set Z)) by (unfold radd; rewrite (proj2 (Z.ltb_lt _ _)) by lia; done).
  assert (E2 : radd (base + 24) align = (Ok (base + 24 + align) : res Empty_set Z)) by (unfold radd; rewrite (proj2 (Z.ltb_lt _ _)) by lia; done).
  rewrite (bind_run _ _ _ _ _ (lift_run _ _ _ E1)), (bind_run _ _ _ _ _ (lift_run _ _ _ E2)).
  destruct (ralloc_align_up (base + 24) align Hp) as [Hu Hum]. set (a := align_up (base + 24) align) in *. mrun.
  set (m' := store 8 _ _ _). set (h' := mk_Ralloc _ _ _ _ _ _ _). exists h', a. split; [reflexivity|]. right.
  assert (Hlo : large_ok m' a (mk_large base n size)).
  { split; cbn [lbase lpages lsize]; [by split|lia|lia|]. replace (a - 16) with (a - 24 + 8) by lia. replace (a - 8) with (a - 24 + 16) by lia.
    unfold m'. split_and!; skip_stores; apply load_store_same; change (256 ^ Z.of_nat 8) with (2 ^ 64); lia. }
  destruct (inv_add_large h h' G L a (mk_large base n size) Hi) as (Hi' & HL & Hfr & Hk); cbn [lbase lpages lsize]; try done.
  { intros y Hy. by apply Hbf. } { intros y Hy. by apply Hbf. } { intros mm Hmm. exact (Htk _ _ Hmm). } { lia. }
  { intros y Hy. unfold h'. cbn [mem]. unfold m'. by rewrite !store_out by lia. }
  exists G, (<[a := mk_large base n size]> L). split_and!; [|lia|done|done| |done].
  - split; [done..|]. destruct Hst as [S1 S2]. split; [done|]. unfold h'. cbn [large_bytes]. rewrite (mod_add_eq _ _ _ S2), large_used_insert by done. cbn. f_equal. lia.
  - intros b k. by apply live_add_large.
Qed.

Lemma dealloc_large_ok h G L a x : inv h G L -> L !! a = Some x -> exists h', dealloc_large a h = (h', Ok tt) /\ freed h h' G L a.
Proof.
  intros [Hi Hl Hst] Hx. pose proof (hi_large _ _ _ Hi a x Hx) as [Hb He Hin (L1 & L2 & L3)]. unfold dealloc_large. mrun.
  replace (a - 24 + 8) with (a - 16) by lia. replace (a - 24 + 16) with (a - 8) by lia. rewrite L1, L2, L3. eexists. split; [reflexivity|].
  cbn [mem partial source slab_bytes large_bytes slab_allocs large_allocs]. exists G, (delete a L). split_and!.
  - destruct (free_law (lbase x) (lpages x) (source h)) as (Hok & Hheld & Htk); [apply Hi|]. destruct (hi_apart _ _ _ Hi) as [HA1 HA2]. destruct (hi_held _ _ _ Hi) as [H1 H2].
    split; [|done|].
    + split; cbn [mem partial source]; try apply Hi; [| | |done|].
      * intros b y Hy. apply lookup_delete_Some in Hy as [_ Hy]. by apply Hi.
      * split; [intros q t b y Ht Hy|intros b y b' y' Hne Hy Hy']; [|apply lookup_delete_Some in Hy' as [_ Hy']]; apply lookup_delete_Some in Hy as [_ Hy]; eauto.
      * split; [intros q t y Ht Hy|intros b z y Hz Hy].
        -- apply Hheld; [by apply (H1 q t)|]. specialize (HA1 q t a x Ht Hx). lia.
        -- apply lookup_delete_Some in Hz as [Hne Hz]. apply Hheld; [by apply (H2 b z)|]. specialize (HA2 a x b z Hne Hx Hz). lia.
      * destruct (hi_taken _ _ _ Hi) as (mm & Ht & Hacc). exists (delete (lbase x) mm). split; [apply Htk; [done|]; apply Hacc; right; by exists a, x|].
        apply accounts_del_large; [done| | |done].
        -- destruct (G !! lbase x) as [t|] eqn:E; [|done]. specialize (HA1 _ t a x E Hx). lia.
        -- intros b z Hne Hz E. destruct (hi_large _ _ _ Hi b z Hz) as [_ _ Hz' _]. specialize (HA2 a x b z ltac:(congruence) Hx Hz). lia.
    + destruct Hst as [S1 S2]. split; [done|]. cbn [large_bytes]. rewrite (mod_add_eq _ _ _ S2), (large_used_lookup L a x Hx). f_equal. lia.
  - intros b k. split.
    + intros [Hlv|(z & Hz & ->)]; [|apply lookup_delete_Some in Hz as [Hne Hz]; split; [right; by exists z|congruence]]. split; [by left|]. intros ->.
      destruct Hlv as (q & t & Ht & Hbk & _). destruct (block_only _ _ _ _ _ _ Hi Ht Hbk) as [HL _]. congruence.
    + intros [[Hlv|(z & Hz & ->)] Hne]; [by left|]. right. exists z. by rewrite lookup_delete_ne.
  - done.
Qed.
End Ops.
