(* ===== verification/RallocSpec.v ===== *)
(** * The slab allocator's contract

    The allocator as its clients see it: objects with a layout and contents,
    each in memory of its own.  The operations of Ralloc.v refine this view
    over any page source that keeps its laws, in any sequence, and the bump
    source keeps them. *)

From Stdlib Require Import ZArith Lia Bool.
From stdpp Require Import base decidable list numbers gmap fin_maps relations.
From S2P Require Import Prelude Rust Cas Ralloc RallocInv RallocOps.

(** ** Objects *)

Record obj := mk_obj { osize : Z; oalign : Z; obytes : list Z }.

Definition bytes_at (m : memory) (a n : Z) : list Z := (fun i => m (a + i)) <$> seqZ 0 n.

Lemma bytes_at_ext m m' a n : (forall x, a <= x < a + n -> m' x = m x) -> bytes_at m' a n = bytes_at m a n.
Proof. intros He. apply list_fmap_ext. intros k i [-> Hk]%lookup_seqZ. apply He. lia. Qed.

Lemma bytes_at_take m a n k : 0 <= k <= n -> take (Z.to_nat k) (bytes_at m a n) = bytes_at m a k.
Proof.
  intros Hk. unfold bytes_at. rewrite <- fmap_take. f_equal. replace n with (k + (n - k)) by lia. rewrite seqZ_app by lia.
  rewrite take_app_length'; [done|]. by rewrite length_seqZ.
Qed.

Section Spec.
Context {S : Type} {PS : PageSource S} {PL : PageSourceLaws S} {St : Start S}.
Implicit Types (h : Ralloc S) (G : gmap Z slab) (L : gmap Z large) (A : gmap Z obj).

(** The memory an object takes. *)
Definition use_of (o : obj) : use := match class_index (osize o) (oalign o) with Some c => InSlab c | None => InLarge (osize o) end.

Definition placed G L (a : Z) (o : obj) : Prop :=
  0 < osize o /\ layout_ok (osize o) (oalign o) = true /\ a mod oalign o = 0 /\ live G L a (use_of o).

(** The objects, and no other memory, are in use, with their contents. *)
Definition tracks h A G L : Prop :=
  (forall a o, A !! a = Some o -> placed G L a o /\ obytes o = bytes_at (mem h) a (osize o)) /\
  (forall a n, live G L a n -> is_Some (A !! a)).

Definition safe h A : Prop := exists G L, inv h G L /\ tracks h A G L.

(** ** Consequences *)

Lemma layout_pow2 n a : layout_ok n a = true -> is_power_of_two a = true /\ 0 < a.
Proof. unfold layout_ok. intros [Hp _]%andb_true_iff. split; [done|]. destruct (power_of_two_spec a Hp) as (k & Hk & ->). lia. Qed.

Lemma use_size o : layout_ok (osize o) (oalign o) = true -> osize o <= usize (use_of o).
Proof.
  intros [Hp _]%layout_pow2. unfold use_of. destruct (class_index (osize o) (oalign o)) as [c|] eqn:E; [|done].
  by destruct (class_index_spec _ _ _ E Hp) as (_ & ? & _).
Qed.

Lemma live_apart h G L a n b k : heap_inv h G L -> live G L a n -> live G L b k -> a <> b -> a + usize n <= b \/ b + usize k <= a.
Proof.
  intros Hi Ha Hb Hne. destruct (hi_apart _ _ _ Hi) as [HA1 HA2].
  destruct Ha as [(p & s & Hs & Hap & _ & ->)|(x & Hx & ->)], Hb as [(q & t & Ht & Hbq & _ & ->)|(y & Hy & ->)]; cbn [usize].
  - destruct (block_bounds _ _ _ _ _ _ Hi Hs Hap) as (P1 & _ & P2 & _), (block_bounds _ _ _ _ _ _ Hi Ht Hbq) as (Q1 & _ & Q2 & _).
    destruct (decide (p = q)) as [->|Hpq]; [|pose proof (slabs_apart _ _ _ _ _ _ _ Hi Hs Ht Hpq); lia].
    rewrite Hs in Ht. injection Ht as <-. destruct (slab_elem _ _ _ _ _ Hi Hs) as [_ Hc]. by apply (blocks_apart (scl s) q).
  - destruct (block_bounds _ _ _ _ _ _ Hi Hs Hap) as (P1 & _ & P2 & _). destruct (hi_large _ _ _ Hi b y Hy) as [_ _ ? _]. specialize (HA1 p s b y Hs Hy). lia.
  - destruct (block_bounds _ _ _ _ _ _ Hi Ht Hbq) as (Q1 & _ & Q2 & _). destruct (hi_large _ _ _ Hi a x Hx) as [_ _ ? _]. specialize (HA1 q t a x Ht Hx). lia.
  - destruct (hi_large _ _ _ Hi a x Hx) as [_ _ ? _], (hi_large _ _ _ Hi b y Hy) as [_ _ ? _]. specialize (HA2 a x b y Hne Hx Hy). lia.
Qed.

Lemma live_held h G L a n x : heap_inv h G L -> live G L a n -> a <= x < a + usize n -> held (source h) x /\ 0 < a.
Proof.
  intros Hi Hl Hx. destruct (hi_held _ _ _ Hi) as [H1 H2]. destruct (live_where _ _ _ _ _ Hi Hl) as [(p & s & Hs & P1 & P2)|(y & Hy & Y1 & Y2)].
  - destruct (slab_elem _ _ _ _ _ Hi Hs) as [(_ & ? & _) _]. split; [apply (H1 p s); [done|lia]|lia].
  - destruct (hi_large _ _ _ Hi a y Hy) as [[_ ?] _ _ _]. split; [apply (H2 a y); [done|lia]|lia].
Qed.

(** ** The clients write their memory *)

(** The allocator's own memory is not the clients'. *)
Lemma inv_client h G L m' a u : inv h G L -> live G L a u -> (forall x, ~ (a <= x < a + usize u) -> m' x = mem h x) -> inv (set_mem m' h) G L.
Proof.
  intros [Hi Hl Hst] Hlv Hm. split; [|done..]. destruct (hi_apart _ _ _ Hi) as [HA1 HA2]. pose proof (live_where _ _ _ _ _ Hi Hlv) as Hw.
  assert (Hhd : forall q t x, G !! q = Some t -> q <= x < q + 24 -> m' x = mem h x).
  { intros q t x Ht Hx. apply Hm. destruct Hw as [(p & s & Hs & P1 & P2)|(y & Hy & Y1 & Y2)].
    - destruct (decide (p = q)) as [->|Hpq]; [lia|]. pose proof (slabs_apart _ _ _ _ _ _ _ Hi Hs Ht Hpq). lia.
    - specialize (HA1 q t a y Ht Hy). lia. }
  split; cbn [mem partial source set_mem]; try apply Hi.
  - intros q t Ht. pose proof (hi_slabs _ _ _ Hi q t Ht) as Ho. apply (slab_ok_ext (mem h)); [intros x Hx; apply (Hhd q t); [done|lia]| |done].
    intros b x Hb Hx. apply Hm. pose proof (free_bounds _ _ _ _ _ _ Hi Ht Hb) as (F1 & F2 & _). destruct Hlv as [(p & s & Hs & Hap & Hf & ->)|(y & Hy & ->)]; cbn [usize].
    + destruct (block_bounds _ _ _ _ _ _ Hi Hs Hap) as (P1 & _ & P2 & _). destruct (decide (p = q)) as [->|Hpq]; [|pose proof (slabs_apart _ _ _ _ _ _ _ Hi Hs Ht Hpq); lia].
      rewrite Hs in Ht. injection Ht as <-. destruct (slab_elem _ _ _ _ _ Hi Hs) as [_ Hc]. destruct (class_facts _ Hc) as (_ & ? & _).
      pose proof (blocks_apart _ _ _ _ Hc Hap (so_sub _ _ _ Ho b Hb) ltac:(congruence)). lia.
    + destruct (hi_large _ _ _ Hi a y Hy) as [_ _ ? _]. specialize (HA1 q t a y Ht Hy). lia.
  - destruct (hi_lists _ _ _ Hi) as [Hlen Hls]. split; [done|]. intros c Hc. destruct (Hls c Hc) as (l & Hch & Hnd & Hin). exists l. split_and!; [|done..].
    apply (chain_ext (mem h)); [|done]. intros q Hq. apply Hin in Hq as (t & Ht & _). apply load_ext. intros x Hx. apply (Hhd q t); [done|lia].
  - intros b y Hy. pose proof (hi_large _ _ _ Hi b y Hy) as Ho. apply (large_ok_ext (mem h)); [|done]. intros x Hx. apply Hm. destruct Ho as [_ _ Hb _].
    destruct Hw as [(p & s & Hs & P1 & P2)|(z & Hz & Z1 & Z2)]; [specialize (HA1 p s b y Hs Hy); lia|].
    destruct (decide (a = b)) as [->|Hab]; [lia|]. specialize (HA2 a z b y Hab Hz Hy). lia.
Qed.

Lemma tracks_other h h' A G L a o : tracks h A G L -> A !! a = Some o -> (forall u x, live G L a u -> a <= x < a + usize u -> mem h' x = mem h x) ->
  obytes o = bytes_at (mem h') a (osize o).
Proof.
  intros [Ht _] Ha Hm. destruct (Ht a o Ha) as [(_ & Hl & _ & Hlv) ->]. symmetry. apply bytes_at_ext. intros x Hx. apply (Hm (use_of o)); [done|].
  pose proof (use_size o Hl). lia.
Qed.

(** A client writes into its object. *)
Lemma write_safe h A a o m' : safe h A -> A !! a = Some o -> (forall x, ~ (a <= x < a + osize o) -> m' x = mem h x) ->
  safe (set_mem m' h) (<[a := mk_obj (osize o) (oalign o) (bytes_at m' a (osize o))]> A).
Proof.
  intros (G & L & I & Htr) Ha Hm. exists G, L. pose proof Htr as [Ht Hlv]. destruct (Ht a o Ha) as [(Hs & Hl & Hal & Hu) _]. pose proof (use_size o Hl) as Hle.
  split; [apply (inv_client h G L m' a (use_of o) I Hu); intros x Hx; apply Hm; lia|]. split.
  - intros b o' Hb. apply lookup_insert_Some in Hb as [[<- <-]|[Hne Hb]]; [done|]. split; [by apply Ht|].
    apply (tracks_other h (set_mem m' h) A G L b o' Htr Hb). intros u x Hub Hx. apply Hm. pose proof (live_apart h G L a _ b u (inv_heap _ _ _ I) Hu Hub Hne). lia.
  - intros b u Hb. destruct (decide (a = b)) as [->|Hne]; [by rewrite lookup_insert_eq|]. rewrite lookup_insert_ne by done. by apply (Hlv b u).
Qed.

(** ** The operations *)

(** The objects after an allocation that returned [r]. *)
Definition with_obj A (m : memory) (r size align : Z) : gmap Z obj :=
  if r =? 0 then A else <[r := mk_obj size align (bytes_at m r size)]> A.

Lemma allocated_safe h h' G L A r o :
  inv h G L -> tracks h A G L -> allocated h h' G L r (use_of o) (oalign o) -> layout_ok (osize o) (oalign o) = true -> 0 < osize o ->
  safe h' (with_obj A (mem h') r (osize o) (oalign o)) /\ (r <> 0 -> A !! r = None /\ 0 < r /\ r mod oalign o = 0) /\
  (forall a o', A !! a = Some o' -> bytes_at (mem h') a (osize o') = obytes o').
Proof.
  intros I Htr Hal Hlay Hs. pose proof Htr as [Ht Hlv]. unfold with_obj. destruct Hal as [(-> & I' & Em)|(G' & L' & I' & Hr & Hm & Hfr & Hu & Hk)].
  { split_and!; [|done|].
    - exists G, L. split; [done|]. split; [|done]. intros a o' Ha. rewrite Em. by apply Ht.
    - intros a o' Ha. rewrite Em. symmetry. by apply Ht. }
  assert (Hby : forall a o', A !! a = Some o' -> obytes o' = bytes_at (mem h') a (osize o')).
  { intros a o' Ha. apply (tracks_other h h' A G L a o' Htr Ha). intros u x Hl Hx. by apply (Hk a u). }
  assert (Hnone : A !! r = None). { destruct (A !! r) as [o'|] eqn:E; [|done]. destruct (Ht r o' E) as [(_ & _ & _ & Hl) _]. by apply Hfr in Hl. }
  rewrite (proj2 (Z.eqb_neq r 0)) by lia. split_and!; [|by intros _|by intros; symmetry; apply Hby].
  exists G', L'. split; [done|]. split.
  - intros a o' Ha. apply lookup_insert_Some in Ha as [[<- <-]|[_ Ha]].
    + split; [|done]. split_and!; [done..|]. apply Hu. by right.
    + split; [|by apply Hby]. destruct (Ht a o' Ha) as [(? & ? & ? & Hl) _]. split_and!; [done..|]. apply Hu. by left.
  - intros a u Hl. apply Hu in Hl as [Hl|[-> _]]; [|by rewrite lookup_insert_eq]. destruct (decide (r = a)) as [->|Hne]; [by rewrite lookup_insert_eq|].
    rewrite lookup_insert_ne by done. by apply (Hlv a u).
Qed.

Lemma alloc_safe h A size align : safe h A -> layout_ok size align = true -> 0 < size ->
  exists h' r, alloc size align h = (h', Ok r) /\ safe h' (with_obj A (mem h') r size align) /\ (r <> 0 -> A !! r = None /\ 0 < r /\ r mod align = 0) /\
    (forall a o, A !! a = Some o -> bytes_at (mem h') a (osize o) = obytes o).
Proof.
  intros (G & L & I & Htr) Hlay Hs. destruct (layout_pow2 _ _ Hlay) as [Hp Ha]. set (o := mk_obj size align []). unfold alloc. rewrite (proj2 (Z.eqb_neq size 0)) by lia.
  assert (Hx : exists h' r, alloc size align h = (h', Ok r) /\ allocated h h' G L r (use_of o) align).
  { unfold alloc. rewrite (proj2 (Z.eqb_neq size 0)) by lia. unfold use_of. cbn [osize oalign o]. destruct (class_index size align) as [c|] eqn:Ec; [by apply alloc_slab_ok|by apply alloc_large_ok]. }
  destruct Hx as (h' & r & E & Hal). unfold alloc in E. rewrite (proj2 (Z.eqb_neq size 0)) in E by lia. exists h', r. split; [done|].
  apply (allocated_safe h h' G L A r o I Htr Hal Hlay Hs).
Qed.

Lemma dealloc_safe h A a o : safe h A -> A !! a = Some o ->
  exists h', dealloc a (osize o) (oalign o) h = (h', Ok tt) /\ safe h' (delete a A).
Proof.
  intros (G & L & I & Htr) Ha. pose proof Htr as [Ht Hlv]. destruct (Ht a o Ha) as [(Hs & Hl & Hal & Hu) _].
  assert (Hd : exists h', dealloc a (osize o) (oalign o) h = (h', Ok tt) /\ freed h h' G L a).
  { unfold dealloc. rewrite (proj2 (Z.eqb_neq (osize o) 0)) by lia. unfold use_of in Hu. destruct (class_index (osize o) (oalign o)) as [c|]; destruct Hu as [(p & s & Hp & Hb & Hf & Eu)|(x & Hx & Eu)]; try done.
    - by apply (dealloc_slab_ok h G L p s).
    - by apply (dealloc_large_ok h G L a x). }
  destruct Hd as (h' & E & G' & L' & I' & Hu' & Hm). exists h'. split; [done|]. exists G', L'. split; [done|]. split.
  - intros b o' Hb. apply lookup_delete_Some in Hb as [Hne Hb]. destruct (Ht b o' Hb) as [(? & ? & ? & Hlb) _]. split.
    + split_and!; [done..|]. apply Hu'. split; [done|congruence].
    + apply (tracks_other h h' A G L b o' Htr Hb). intros u x Hlu Hx. apply (Hm b u); [done|congruence|done].
  - intros b u Hb. apply Hu' in Hb as [Hb Hne]. rewrite lookup_delete_ne by congruence. by apply (Hlv b u).
Qed.

(** The clients' bytes of the object survive in the first bytes of the new one. *)
Definition same_prefix (m : memory) (a n : Z) (o : obj) : Prop := bytes_at m a (Z.min (osize o) n) = take (Z.to_nat (Z.min (osize o) n)) (obytes o).

Lemma safe_bytes h A a o : safe h A -> A !! a = Some o -> obytes o = bytes_at (mem h) a (osize o) /\ 0 < osize o /\ layout_ok (osize o) (oalign o) = true /\ 0 < a /\ a mod oalign o = 0.
Proof.
  intros (G & L & I & Ht & _) Ha. destruct (Ht a o Ha) as [(Hs & Hl & Hal & Hu) Hb]. split_and!; [done..| |done].
  pose proof (use_size o Hl). apply (live_held h G L a (use_of o) a (inv_heap _ _ _ I) Hu). lia.
Qed.

Lemma same_class_safe h A a o n : safe h A -> A !! a = Some o -> same_class (osize o) n (oalign o) = true -> layout_ok n (oalign o) = true -> 0 < n ->
  safe h (<[a := mk_obj n (oalign o) (bytes_at (mem h) a n)]> A).
Proof.
  intros (G & L & I & Htr) Ha Hsc Hl Hn. pose proof Htr as [Ht Hlv]. destruct (Ht a o Ha) as [(_ & _ & Hal & Hu) _]. exists G, L. split; [done|]. split.
  - intros b o' Hb. apply lookup_insert_Some in Hb as [[<- <-]|[_ Hb]]; [|by apply Ht]. split; [|done]. split_and!; [done..|].
    unfold same_class in Hsc. unfold use_of in *. cbn [osize oalign]. destruct (class_index (osize o) (oalign o)) as [c|]; [|done].
    destruct (class_index n (oalign o)) as [c'|]; [|done]. apply Z.eqb_eq in Hsc as ->. done.
  - intros b u Hb. destruct (decide (a = b)) as [->|Hne]; [by rewrite lookup_insert_eq|]. rewrite lookup_insert_ne by done. by apply (Hlv b u).
Qed.

(** The objects after a reallocation of [a] that returned [r]. *)
Definition moved A (m : memory) (a r n : Z) (o : obj) : gmap Z obj :=
  if r =? 0 then A else <[r := mk_obj n (oalign o) (bytes_at m r n)]> (delete a A).

Lemma bytes_copied m a r n : bytes_at (copy_bytes m a r n) r n = bytes_at m a n.
Proof.
  apply list_fmap_ext. intros k i [-> Hk]%lookup_seqZ. unfold copy_bytes. rewrite (proj2 (Z.leb_le _ _)), (proj2 (Z.ltb_lt _ _)) by lia. f_equal. lia.
Qed.

(** The part of [realloc] that moves the object to [r]. *)
Lemma move_safe h A a o r n : safe h (<[r := mk_obj n (oalign o) (bytes_at (mem h) r n)]> A) -> A !! a = Some o -> A !! r = None -> 0 < n ->
  exists h', dealloc a (osize o) (oalign o) (set_mem (copy_bytes (mem h) a r (Z.min (osize o) n)) h) = (h', Ok tt) /\
    safe h' (moved A (mem h') a r n o) /\ 0 < r /\ r mod oalign o = 0 /\ same_prefix (mem h') r n o.
Proof.
  intros Hs Ha Hr Hn. set (k := Z.min (osize o) n). set (m' := copy_bytes (mem h) a r k). assert (Hne : a <> r) by congruence.
  destruct (safe_bytes _ _ a o Hs) as (Hb & Ho & _); [by rewrite lookup_insert_ne|].
  pose proof (write_safe h _ r _ m' Hs (lookup_insert_eq _ _ _)) as Hs2. cbn [osize oalign] in Hs2. rewrite insert_insert_eq in Hs2.
  specialize (Hs2 ltac:(intros x Hx; unfold m', copy_bytes; destruct ((r <=? x) && (x <? r + k)) eqn:E; [lia|done])).
  destruct (dealloc_safe _ _ a o Hs2) as (h' & E & Hs3); [by rewrite lookup_insert_ne|]. exists h'. split; [done|].
  rewrite delete_insert_ne in Hs3 by done. destruct (safe_bytes _ _ r _ Hs3 (lookup_insert_eq _ _ _)) as (Hb3 & _ & _ & Hr0 & Hal). cbn [osize oalign obytes] in *.
  unfold moved. rewrite (proj2 (Z.eqb_neq r 0)) by lia. split_and!; [by rewrite <- Hb3|done..|].
  unfold same_prefix. fold k. rewrite Hb, <- (bytes_at_take (mem h') r n k), <- Hb3, !bytes_at_take by lia. apply bytes_copied.
Qed.

Lemma realloc_safe h A a o n : safe h A -> A !! a = Some o -> 0 < n ->
  exists h' r, realloc a (osize o) (oalign o) n h = (h', Ok r) /\ safe h' (moved A (mem h') a r n o) /\
    (layout_ok n (oalign o) = false -> r = 0 /\ h' = h) /\
    (r <> 0 -> (r = a \/ A !! r = None) /\ r mod oalign o = 0 /\ same_prefix (mem h') r n o).
Proof.
  intros Hs Ha Hn. destruct (safe_bytes _ _ _ _ Hs Ha) as (Hb & Ho & Hlo & Ha0 & Hal). unfold realloc. destruct (layout_ok n (oalign o)) eqn:Hl; cbn [negb].
  2:{ exists h, 0. split_and!; [done| |done|done]. by unfold moved. }
  rewrite (proj2 (Z.eqb_neq (osize o) 0)) by lia. destruct (same_class (osize o) n (oalign o)) eqn:Hsc.
  { exists h, a. split; [done|]. unfold moved. rewrite (proj2 (Z.eqb_neq a 0)) by lia. rewrite insert_delete_eq. split_and!; [by apply (same_class_safe h A a o n)|done|].
    intros _. split_and!; [by left|done|]. unfold same_prefix. rewrite Hb. by rewrite bytes_at_take by lia. }
  destruct (alloc_safe h A n (oalign o) Hs Hl Hn) as (h1 & r & E & Hs1 & Hr & Hk). erewrite bind_run by exact E. unfold with_obj in Hs1. destruct (Z.eqb_spec r 0) as [->|Hr0].
  { exists h1, 0. split_and!; [done| |done|done]. by unfold moved. }
  destruct (Hr Hr0) as (Hnone & _). destruct (move_safe h1 A a o r n Hs1 Ha Hnone Hn) as (h' & E' & Hs' & Hpos & Hmod & Hpre).
  exists h', r. split_and!; [|done|done|intros _; split_and!; [by right|done..]]. erewrite bind_run by reflexivity. erewrite bind_run by exact E'. done.
Qed.

(** ** Runs *)

(** What the clients do: the [GlobalAlloc] calls within their contract (the
    layouts are layouts, sizes are not zero, a free or a reallocation names an
    object and its layout), and writes into their objects. *)
Inductive client_step : Ralloc S * gmap Z obj -> Ralloc S * gmap Z obj -> Prop :=
  | client_alloc h A size align h' r :
      layout_ok size align = true -> 0 < size -> alloc size align h = (h', Ok r) ->
      client_step (h, A) (h', with_obj A (mem h') r size align)
  | client_free h A a o h' :
      A !! a = Some o -> dealloc a (osize o) (oalign o) h = (h', Ok tt) ->
      client_step (h, A) (h', delete a A)
  | client_realloc h A a o n h' r :
      A !! a = Some o -> 0 < n -> realloc a (osize o) (oalign o) n h = (h', Ok r) ->
      client_step (h, A) (h', moved A (mem h') a r n o)
  | client_write h A a o m' :
      A !! a = Some o -> (forall x, ~ (a <= x < a + osize o) -> m' x = mem h x) ->
      client_step (h, A) (set_mem m' h, <[a := mk_obj (osize o) (oalign o) (bytes_at m' a (osize o))]> A).

Lemma client_step_safe x y : client_step x y -> safe x.1 x.2 -> safe y.1 y.2.
Proof.
  intros Hst Hs. destruct Hst as [h A size align h' r Hl Hn E|h A a o h' Ha E|h A a o n h' r Ha Hn E|h A a o m' Ha Hm]; cbn [fst snd] in *.
  - destruct (alloc_safe h A size align Hs Hl Hn) as (h1 & r1 & E1 & Hs1 & _). by rewrite E in E1; injection E1 as <- <-.
  - destruct (dealloc_safe h A a o Hs Ha) as (h1 & E1 & Hs1). by rewrite E in E1; injection E1 as <-.
  - destruct (realloc_safe h A a o n Hs Ha Hn) as (h1 & r1 & E1 & Hs1 & _). by rewrite E in E1; injection E1 as <- <-.
  - by apply write_safe.
Qed.

Lemma new_safe m : source_ok start -> safe (Ralloc_new m start) ∅.
Proof.
  intros Hs. exists ∅, ∅. split; [split|split].
  - split; cbn [Ralloc_new mem partial source]; try (intros ? ? E; by rewrite lookup_empty in E); [| | |done|].
    + split; [done|]. intros c Hc. exists []. split_and!; [|constructor|].
      * change (replicate 9 0 !!! Z.to_nat c = 0). by apply lookup_total_replicate_2; lia.
      * intros p. split; [by intros ?%elem_of_nil|]. intros (s' & E & _). by rewrite lookup_empty in E.
    + split; intros *; by rewrite lookup_empty.
    + split; intros *; by rewrite lookup_empty.
    + exists ∅. split; [apply taken_start|]. intros p n. rewrite !lookup_empty. split; [done|]. intros [[_ [? ?]]|(a & x & Hx & _)]; [done|by rewrite lookup_empty in Hx].
  - intros ? ? E. by rewrite lookup_empty in E.
  - done.
  - intros ? ? E. by rewrite lookup_empty in E.
  - intros a u [(p & s' & E & _)|(x & E & _)]; by rewrite lookup_empty in E.
Qed.

Lemma reach_safe m h A : source_ok start -> rtc client_step (Ralloc_new m start, ∅) (h, A) -> safe h A.
Proof.
  intros Hs Hr. apply (rtc_ind_r (fun x => safe x.1 x.2) (Ralloc_new m start, ∅)) in Hr; [done|by apply new_safe|]. intros y z _ Hyz Hy. by apply (client_step_safe y).
Qed.

(** A slab has a block in use. *)
Lemma loaded_live h G L p s : inv h G L -> G !! p = Some s -> exists a, live G L a (InSlab (scl s)).
Proof.
  intros [Hi Hl _] Hs. specialize (Hl p s Hs). destruct (slab_elem _ _ _ _ _ Hi Hs) as [_ Hc].
  destruct (decide (Forall (fun b => b ∈ sfree s) (blocks (scl s) p))) as [Hall|Hex].
  - exfalso. pose proof (NoDup_submseteq _ (sfree s) (blocks_NoDup (scl s) p Hc) ltac:(intros b Hb; rewrite Forall_forall in Hall; by apply Hall)) as Hsub%submseteq_length.
    unfold blocks in Hsub. rewrite length_fmap, length_seqZ in Hsub. lia.
  - apply not_Forall_Exists in Hex; [|intros b; apply _]. apply Exists_exists in Hex as (b & Hb & Hf). exists b. left. by exists p, s.
Qed.

Lemma safe_drained h : safe h ∅ -> partial h = replicate 9 0 /\ slab_bytes h = 0 /\ large_bytes h = 0 /\ taken start (source h) ∅.
Proof.
  intros (G & L & I & _ & Hlv). assert (HG : G = ∅).
  { apply map_empty. intros p. destruct (G !! p) as [s|] eqn:E; [|done]. destruct (loaded_live h G L p s I E) as [a Ha]. apply Hlv in Ha as [? Ha]. by rewrite lookup_empty in Ha. }
  assert (HL : L = ∅). { apply map_empty. intros a. destruct (L !! a) as [x|] eqn:E; [|done]. destruct (Hlv a (InLarge (lsize x))) as [? Ha]; [right; by exists x|]. by rewrite lookup_empty in Ha. }
  destruct I as [Hi _ [Hsb Hlb]]. rewrite HG, HL in *. split_and!; [|done..|].
  2: { destruct (hi_taken _ _ _ Hi) as (mm & Ht & Ha). replace ∅ with mm; [done|]. apply map_empty. intros p. destruct (mm !! p) as [n|] eqn:E; [|done].
       apply Ha in E as [[_ [? E]]|(a & x & E & _)]; by rewrite lookup_empty in E. }
  destruct (hi_lists _ _ _ Hi) as [Hlen Hls]. apply list_eq. intros i.
  destruct (decide (i < 9)%nat) as [Hlt|Hge]; [|rewrite !lookup_ge_None_2; [done|rewrite ?length_replicate; lia..]]. rewrite lookup_replicate_2 by lia.
  destruct (Hls (Z.of_nat i) ltac:(lia)) as (l & Hch & _ & Hin). rewrite Nat2Z.id in Hch.
  assert (l = []) as ->. { destruct l as [|p l]; [done|]. destruct (proj1 (Hin p) ltac:(left)) as (s & E & _). by rewrite lookup_empty in E. }
  destruct (lookup_lt_is_Some_2 (partial h) i ltac:(lia)) as [v Hv]. rewrite Hv. f_equal. rewrite (list_lookup_total_correct _ _ _ Hv) in Hch. done.
Qed.

(** The account of a reachable heap. *)
Lemma safe_taken h A : safe h A -> exists mm, taken start (source h) mm.
Proof. intros (G & L & I & _). destruct (hi_taken _ _ _ (inv_heap _ _ _ I)) as (mm & Ht & _). by exists mm. Qed.
End Spec.

(** ** The contract *)

Section Contract.
Context {S : Type} {PS : PageSource S} {PL : PageSourceLaws S}.
Implicit Types (h : Ralloc S) (A : gmap Z obj).

(** C8: The allocator keeps the [GlobalAlloc] contract in every run of clients
    that keep theirs, over any page source with the laws of one.  Live objects
    are aligned as asked, in memory the source handed out, apart from each
    other, and hold what their clients last wrote whatever else was allocated,
    freed or reallocated in between; and no further call can panic. *)
Theorem ralloc_reachable_safe m s h A : source_ok s -> rtc client_step (Ralloc_new m s, ∅) (h, A) ->
  (forall a o, A !! a = Some o ->
     0 < a /\ a mod oalign o = 0 /\ obytes o = bytes_at (mem h) a (osize o) /\ forall x, a <= x < a + osize o -> held (source h) x) /\
  (forall a o b o', A !! a = Some o -> A !! b = Some o' -> a <> b -> a + osize o <= b \/ b + osize o' <= a) /\
  (forall size align, layout_ok size align = true -> 0 < size -> exists h' r, alloc size align h = (h', Ok r) /\
     (r <> 0 -> A !! r = None /\ r mod align = 0)) /\
  (forall a o, A !! a = Some o -> exists h', dealloc a (osize o) (oalign o) h = (h', Ok tt)) /\
  (forall a o n, A !! a = Some o -> 0 < n -> exists h' r, realloc a (osize o) (oalign o) n h = (h', Ok r)).
Proof.
  intros Hs Hr. pose proof (reach_safe (St := s) m h A Hs Hr) as Hsafe. pose proof Hsafe as (G & L & I & Ht & _).
  assert (Hu : forall a o, A !! a = Some o -> live G L a (use_of o) /\ osize o <= usize (use_of o)).
  { intros a o Ha. destruct (Ht a o Ha) as [(_ & Hl & _ & Hlv) _]. split; [done|by apply use_size]. }
  split_and!.
  - intros a o Ha. destruct (safe_bytes h A a o Hsafe Ha) as (? & _ & _ & ? & ?). destruct (Hu a o Ha). split_and!; [done..|].
    intros x Hx. apply (live_held h G L a (use_of o) x (inv_heap _ _ _ I)); [done|lia].
  - intros a o b o' Ha Hb Hne. destruct (Hu a o Ha), (Hu b o' Hb). pose proof (live_apart h G L a (use_of o) b (use_of o') (inv_heap _ _ _ I) ltac:(done) ltac:(done) Hne). lia.
  - intros size align Hl Hn. destruct (alloc_safe h A size align Hsafe Hl Hn) as (h' & r & E & _ & Hf & _). exists h', r. split; [done|]. intros Hr0. by destruct (Hf Hr0) as (? & _ & ?).
  - intros a o Ha. destruct (dealloc_safe h A a o Hsafe Ha) as (h' & E & _). by exists h'.
  - intros a o n Ha Hn. destruct (realloc_safe h A a o n Hsafe Ha Hn) as (h' & r & E & _). by exists h', r.
Qed.

(** C32: [realloc] in any reachable state: a size no layout has is refused and
    nothing changes; a failed reallocation leaves every object as it was; one
    that succeeds gives an aligned object, the old place or a place no object
    has, that starts with the first [min size new_size] bytes of the old one,
    and every other object keeps its bytes. *)
Theorem ralloc_realloc_preserves m s h A a o n : source_ok s -> rtc client_step (Ralloc_new m s, ∅) (h, A) -> A !! a = Some o -> 0 < n ->
  exists h' r, realloc a (osize o) (oalign o) n h = (h', Ok r) /\
    (layout_ok n (oalign o) = false -> r = 0 /\ h' = h) /\
    (same_class (osize o) n (oalign o) = true -> layout_ok n (oalign o) = true -> r = a /\ h' = h) /\
    (r = 0 -> obytes o = bytes_at (mem h') a (osize o)) /\
    (r <> 0 -> (r = a \/ A !! r = None) /\ r mod oalign o = 0 /\
       bytes_at (mem h') r (Z.min (osize o) n) = take (Z.to_nat (Z.min (osize o) n)) (obytes o)) /\
    (forall b o', b <> a -> A !! b = Some o' -> obytes o' = bytes_at (mem h') b (osize o')).
Proof.
  intros Hs Hr Ha Hn. pose proof (reach_safe (St := s) m h A Hs Hr) as Hsafe. destruct (safe_bytes h A a o Hsafe Ha) as (_ & Ho & _).
  destruct (realloc_safe h A a o n Hsafe Ha Hn) as (h' & r & E & Hs' & Hf & Hok). exists h', r. unfold moved in Hs'. split_and!; [done..| | |done|].
  - intros Hsc Hl. unfold realloc in E. rewrite Hl, Hsc, (proj2 (Z.eqb_neq _ _)) in E by lia. by injection E as <- <-.
  - intros ->. by apply (safe_bytes h' A a o Hs').
  - intros b o' Hb Hbo. destruct (Z.eqb_spec r 0) as [->|Hr0]; [by apply (safe_bytes h' A b o' Hs')|].
    destruct (Hok Hr0) as (Hra & _). apply (safe_bytes _ _ b o' Hs'). rewrite lookup_insert_ne; [by rewrite lookup_delete_ne|]. destruct Hra; congruence.
Qed.

End Contract.

(** ** Pages *)

(** A page source with a meter: the calls go to the source inside, [ledger] is
    what it handed out and was not given back, and [strays] are the pages given
    back that are not in it as one span. *)
Record Metered (S : Type) := mk_Metered { inner : S; ledger : gmap Z Z; strays : list (Z * Z) }.
Arguments mk_Metered {S}.
Arguments inner {S}.
Arguments ledger {S}.
Arguments strays {S}.

#[export] Instance metered_source {S} `{PageSource S} : PageSource (Metered S) := {|
  alloc_pages := fun n s => let '(i, r) := alloc_pages n (inner s) in
    (mk_Metered i (match r with Ok p => if p =? 0 then ledger s else <[p := n]> (ledger s) | _ => ledger s end) (strays s), r);
  free_pages := fun p n s =>
    if decide (ledger s !! p = Some n) then mk_Metered (free_pages p n (inner s)) (delete p (ledger s)) (strays s)
    else mk_Metered (free_pages p n (inner s)) (ledger s) (strays s ++ [(p, n)]);
|}.

#[export] Instance metered_laws {S} `{PageSourceLaws S} : PageSourceLaws (Metered S).
Proof.
  refine {| held := fun s => held (inner s); source_ok := fun s => source_ok (inner s);
            taken := fun s0 s m => ledger s0 = ∅ -> strays s = strays s0 /\ ledger s = m |}; [done|..].
  - intros n s Hs Hn. destruct (alloc_law n (inner s) Hs Hn) as (s' & p & E & Hok & Hm & _ & Hp). eexists _, p. cbn [alloc_pages metered_source]. rewrite E. split; [done|]. cbn [inner].
    split_and!; [done..| |done]. intros s0 m Ht He. cbn. destruct (Ht He) as [-> <-]. done.
  - intros p n s Hs. destruct (free_law p n (inner s) Hs) as (Hok & Hh & _). cbn [free_pages metered_source]. split_and!.
    + by case_decide.
    + intros a Ha Hn. case_decide; by apply Hh.
    + intros s0 m Ht Hm He. destruct (Ht He) as [Hst <-]. by rewrite decide_True.
Defined.

(** C33: Nothing leaks.  Over any lawful page source, with its calls metered: in
    every run of the clients the allocator gives back only spans of pages it was
    handed, each as it got it and once; and when the clients have freed all they
    allocated, in whatever order, every page is back with the source, no slab is
    left in the lists, and the counters of live bytes are zero. *)
Theorem ralloc_drained {S} `{PageSourceLaws S} m (s : S) h A : source_ok s -> rtc client_step (Ralloc_new m (mk_Metered s ∅ []), ∅) (h, A) ->
  strays (source h) = [] /\
  (A = ∅ -> ledger (source h) = ∅ /\ partial h = replicate 9 0 /\ slab_bytes h = 0 /\ large_bytes h = 0).
Proof.
  intros Hs Hr. pose proof (reach_safe (St := mk_Metered s ∅ []) m h A Hs Hr) as Hsafe. split.
  - destruct (safe_taken h A Hsafe) as (mm & Ht). by destruct (Ht eq_refl).
  - intros ->. destruct (safe_drained h Hsafe) as (H1 & H2 & H3 & Ht). by destruct (Ht eq_refl).
Qed.

(** ** The bump source *)

Record bump_ok (s : BumpPageSource) : Prop := {
  bo_base : 0 < bump_base s;
  bo_next : bump_base s <= bump_next s <= bump_end s;
  bo_end : bump_end s + 4096 < 2 ^ 64;
}.
Definition bump_held (s : BumpPageSource) (a : Z) : Prop := bump_base s <= a < bump_next s.

Lemma bump_propose_ok e n v : 0 < n < 2 ^ 52 -> 0 <= v -> v + 4096 < 2 ^ 64 -> e + 4096 < 2 ^ 64 ->
  bump_propose e n v = Ok None \/
  exists p, bump_propose e n v = Ok (Some (p, p + n * 4096)) /\ v <= p /\ p mod 4096 = 0 /\ p + n * 4096 <= e.
Proof.
  intros Hn Hv Hov He. unfold bump_propose. rewrite Z.min_l by (unfold usize_max; lia). unfold radd. rewrite (proj2 (Z.ltb_lt _ _)) by lia. cbn [mbind res_bind].
  destruct (ralloc_align_up v 4096 eq_refl) as [H1 H2]. unfold checked_add. destruct (_ <? _) eqn:E; [|by left]. destruct (Z.ltb_spec e (align_up v 4096 + n * 4096)); [by left|].
  right. exists (align_up v 4096). split_and!; [done|lia|done|lia].
Qed.

#[export] Instance bump_laws : PageSourceLaws BumpPageSource.
Proof.
  refine {| held := bump_held; source_ok := bump_ok; taken := fun _ _ _ => True |}; [done|..].
  - intros n s [Hb Hn He] Hc. unfold alloc_pages, bump_source, bump_alloc_pages, cas_run.
    destruct (bump_propose_ok (bump_end s) n (bump_next s) Hc ltac:(lia) ltac:(lia) He) as [->|(p & -> & H1 & H2 & H3)].
    + eexists _, 0. split_and!; [done|by split|done|done|by left].
    + eexists _, p. split_and!; [done|split; cbn; lia|unfold bump_held; cbn; lia|done|]. right. unfold bump_held. cbn. split_and!; [lia|done|lia|lia].
  - intros p n s Hs. split; [done|]. by intros.
Defined.

(** ** Samples *)

Abbreviation sample_source := (mk_BumpPageSource 0x10000 0x10000 0x20000).
Abbreviation sample_heap := (Ralloc_new (fun a => a mod 251) sample_source).
(** A block of 16 bytes, then an allocation of 3000 bytes in pages of its own. *)
Abbreviation sample_heap1 := (alloc 16 8 sample_heap).1.
Abbreviation sample_objs1 := (with_obj ∅ (mem sample_heap1) 0x10020 16 8).
Abbreviation sample_heap2 := (alloc 3000 64 sample_heap1).1.
Abbreviation sample_objs2 := (with_obj sample_objs1 (mem sample_heap2) 0x11040 3000 64).

Lemma sample_source_ok : source_ok sample_source.
Proof. by split. Qed.

Lemma ran {S A} (p : Ralloc S * res Empty_set A) r : p.2 = r -> p = (p.1, r).
Proof. destruct p. by intros <-. Qed.

Lemma sample_run1 : rtc client_step (sample_heap, ∅) (sample_heap1, sample_objs1).
Proof. apply rtc_once, client_alloc; [done..|]. apply ran. by vm_compute. Qed.

Lemma sample_run2 : rtc client_step (sample_heap, ∅) (sample_heap2, sample_objs2).
Proof. eapply rtc_r; [exact sample_run1|]. apply client_alloc; [done..|]. apply ran. by vm_compute. Qed.

Lemma ralloc_reachable_safe_witness : exists o o', sample_objs2 !! 0x10020 = Some o /\ sample_objs2 !! 0x11040 = Some o' /\
  obytes o = bytes_at (mem sample_heap2) 0x10020 16 /\ 0x11040 mod 64 = 0 /\ (0x10020 + 16 <= 0x11040 \/ 0x11040 + 3000 <= 0x10020).
Proof.
  destruct (ralloc_reachable_safe (fun a => a mod 251) sample_source sample_heap2 sample_objs2 sample_source_ok sample_run2) as (H1 & H2 & _).
  set (o := mk_obj 16 8 (bytes_at (mem sample_heap1) 0x10020 16)). set (o' := mk_obj 3000 64 (bytes_at (mem sample_heap2) 0x11040 3000)).
  assert (E : sample_objs2 !! 0x10020 = Some o) by (unfold with_obj; cbn [Z.eqb]; rewrite lookup_insert_ne by done; apply lookup_insert_eq).
  assert (E' : sample_objs2 !! 0x11040 = Some o') by apply lookup_insert_eq.
  exists o, o'. split_and!; [exact E|exact E'|apply (H1 _ _ E)|apply (H1 _ _ E')|apply (H2 _ _ _ _ E E'); done].
Defined.

Lemma ralloc_realloc_preserves_witness : exists h', realloc 0x10020 16 8 2000 sample_heap1 = (h', Ok 0x11800) /\
  bytes_at (mem h') 0x11800 16 = take 16 (bytes_at (mem sample_heap1) 0x10020 16).
Proof.
  destruct (ralloc_realloc_preserves (fun a => a mod 251) sample_source sample_heap1 sample_objs1 0x10020 (mk_obj 16 8 (bytes_at (mem sample_heap1) 0x10020 16)) 2000
    sample_source_ok sample_run1 (lookup_insert_eq _ _ _) eq_refl) as (h' & r & E & _ & _ & _ & H & _). cbn [osize oalign obytes] in *.
  assert (Er : (realloc 0x10020 16 8 2000 sample_heap1).2 = Ok 0x11800) by (by vm_compute). rewrite E in Er. cbn [snd] in Er. injection Er as ->.
  exists h'. split; [exact E|]. by apply H.
Defined.

(** An allocation of 3000 bytes over a metered source. *)
Abbreviation metered_heap := (Ralloc_new (fun a => a mod 251) (mk_Metered sample_source ∅ [])).
Abbreviation metered_heap1 := (alloc 3000 64 metered_heap).1.
Abbreviation metered_objs1 := (with_obj ∅ (mem metered_heap1) 0x10040 3000 64).

Lemma ralloc_drained_witness : exists h, dealloc 0x10040 3000 64 metered_heap1 = (h, Ok tt) /\ ledger (source metered_heap1) = {[0x10000 := 1]} /\ ledger (source h) = ∅ /\ strays (source h) = [].
Proof.
  assert (E1 : alloc 3000 64 metered_heap = (metered_heap1, Ok 0x10040)) by (apply ran; by vm_compute).
  assert (E : dealloc 0x10040 3000 64 metered_heap1 = ((dealloc 0x10040 3000 64 metered_heap1).1, Ok tt)) by (apply ran; by vm_compute).
  assert (Hr : rtc client_step (metered_heap, ∅) ((dealloc 0x10040 3000 64 metered_heap1).1, ∅)).
  { eapply rtc_l; [exact (client_alloc metered_heap ∅ 3000 64 metered_heap1 0x10040 eq_refl eq_refl E1)|].
    pose proof (client_free metered_heap1 metered_objs1 0x10040 (mk_obj 3000 64 (bytes_at (mem metered_heap1) 0x10040 3000)) _ (lookup_insert_eq _ _ _) E) as Hf.
    replace (delete 0x10040 metered_objs1) with (∅ : gmap Z obj) in Hf; [by apply rtc_once|]. unfold with_obj. cbn [Z.eqb]. by rewrite delete_insert_id. }
  destruct (ralloc_drained (fun a => a mod 251) sample_source _ _ sample_source_ok Hr) as (H1 & H2). destruct (H2 eq_refl) as (H3 & _). eexists. split; [exact E|]. split_and!; [by vm_compute|exact H3|exact H1].
Defined.
