(* ===== verification/Str.v ===== *)
(** * Strings of the standard library

    A [&str] is the list of its characters, a character its code point.  Here
    are the methods the configuration code calls, with what the theorems need
    of them. *)

From Stdlib Require Import ZArith Lia Bool Ascii String.
From stdpp Require Import base decidable list numbers sets gmap.
From S2P Require Import Prelude Rust.

Abbreviation str := (list Z).

(** A literal. *)
Definition lit (s : string) : str := (fun c => Z.of_N (N_of_ascii c)) <$> list_ascii_of_string s.

(** [char::is_whitespace] *)
Definition is_whitespace (c : Z) : bool :=
  ((9 <=? c) && (c <=? 13)) || (c =? 32) || (c =? 0x85) || (c =? 0xA0) || (c =? 0x1680) || ((0x2000 <=? c) && (c <=? 0x200A)) ||
  (c =? 0x2028) || (c =? 0x2029) || (c =? 0x202F) || (c =? 0x205F) || (c =? 0x3000).

Fixpoint trim_start (s : str) : str :=
  match s with
  | c :: s' => if is_whitespace c then trim_start s' else s
  | [] => []
  end.
Definition trim (s : str) : str := reverse (trim_start (reverse (trim_start s))).

(** [str::len]: the bytes of the UTF-8 encoding. *)
Definition char_len (c : Z) : Z := if c <? 0x80 then 1 else if c <? 0x800 then 2 else if c <? 0x10000 then 3 else 4.
Definition str_len (s : str) : Z := zsum (char_len <$> s).

Fixpoint split_once (sep : Z) (s : str) : option (str * str) :=
  match s with
  | [] => None
  | c :: s' => if c =? sep then Some ([], s') else '(a, b) ← split_once sep s'; Some (c :: a, b)
  end.

(** [s.split(sep)], as the first piece and the others. *)
Fixpoint split_from (sep : Z) (s : str) : str * list str :=
  match s with
  | [] => ([], [])
  | c :: s' => let '(p, ps) := split_from sep s' in if c =? sep then ([], p :: ps) else (c :: p, ps)
  end.
Definition split (sep : Z) (s : str) : list str := let '(p, ps) := split_from sep s in p :: ps.

(** [s.lines()]: a newline ends a line, and a carriage return before it goes. *)
Definition line_text (s : str) : str := match reverse s with 13 :: s' => reverse s' | _ => s end.
Definition lines (s : str) : list str :=
  let ps := split 10 s in
  match reverse ps with
  | [] => []
  | last :: front => (line_text <$> reverse front) ++ (if bool_decide (last = []) then [] else [last])
  end.

(** [s.split_whitespace()] *)
Fixpoint words_from (s : str) : str * list str :=
  match s with
  | [] => ([], [])
  | c :: s' =>
      let '(w, ws) := words_from s' in
      if is_whitespace c then ([], if bool_decide (w = []) then ws else w :: ws) else (c :: w, ws)
  end.
Definition split_whitespace (s : str) : list str := let '(w, ws) := words_from s in if bool_decide (w = []) then ws else w :: ws.

(** [pieces.join(sep)] for a separator of one character. *)
Fixpoint join (sep : Z) (ps : list str) : str :=
  match ps with
  | [] => []
  | [p] => p
  | p :: ps' => p ++ sep :: join sep ps'
  end.

Fixpoint strip_prefix (p s : str) : option str :=
  match p, s with
  | [], _ => Some s
  | a :: p', b :: s' => if a =? b then strip_prefix p' s' else None
  | _ :: _, [] => None
  end.

Definition to_ascii_lowercase (s : str) : str := (fun c => if (65 <=? c) && (c <=? 90) then c + 32 else c) <$> s.
Definition eq_ignore_ascii_case (a b : str) : bool := bool_decide (to_ascii_lowercase a = to_ascii_lowercase b).

(** [char::to_digit(16)] of an ASCII character. *)
Definition hex_digit (c : Z) : option Z :=
  if (48 <=? c) && (c <=? 57) then Some (c - 48)
  else if (97 <=? c) && (c <=? 102) then Some (c - 87)
  else if (65 <=? c) && (c <=? 70) then Some (c - 55)
  else None.
Definition is_ascii_hexdigit (c : Z) : bool := bool_decide (is_Some (hex_digit c)).

(** The digit of a value below 16, as [{:x}] prints it. *)
Definition hex_char (v : Z) : Z := if v <? 10 then 48 + v else 87 + v.

(** The digits of [from_str_radix]: no value above [max] on the way. *)
Fixpoint digits_value (radix max acc : Z) (s : str) : option Z :=
  match s with
  | [] => Some acc
  | c :: s' =>
      d ← hex_digit c;
      if d <? radix then let acc := acc * radix + d in if max <? acc then None else digits_value radix max acc s' else None
  end.

(** [u8::from_str_radix] and its kin, for an unsigned type with the largest
    value [max]: a leading [+] is taken, a sign alone is not a number. *)
Definition from_str_radix (radix max : Z) (s : str) : option Z :=
  match s with
  | [] => None
  | c :: s' => if c =? 43 then if bool_decide (s' = []) then None else digits_value radix max 0 s' else digits_value radix max 0 s
  end.

(** The order of strings: UTF-8 keeps the order of the code points. *)
Fixpoint str_leb (a b : str) : bool :=
  match a, b with
  | [], _ => true
  | _ :: _, [] => false
  | x :: a', y :: b' => (x <? y) || (x =? y) && str_leb a' b'
  end.
Fixpoint insert_str (x : str) (l : list str) : list str :=
  match l with
  | [] => [x]
  | y :: l' => if str_leb x y then x :: l else y :: insert_str x l'
  end.
(** [sort] of a vector of strings. *)
Definition sort_strs (l : list str) : list str := foldr insert_str [] l.

(** A [HashMap] filled with [entry(k).or_insert(d)], each pair of the iterator
    updating the entry of its key. *)
Definition accumulate {K V A} `{Countable K} (step : A -> V -> A) (d : A) (l : list (K * V)) : gmap K A :=
  foldl (fun m kv => <[kv.1 := step (default d (m !! kv.1)) kv.2]> m) ∅ l.

(** ** Lemmas *)

Lemma join_split sep s : join sep (split sep s) = s.
Proof.
  unfold split. induction s as [|c s IH]; [done|]. cbn [split_from]. destruct (split_from sep s) as [p ps]. destruct (Z.eqb_spec c sep) as [->|].
  - change (sep :: join sep (p :: ps) = sep :: s). by rewrite IH.
  - destruct ps; cbn [join app] in *; by rewrite IH.
Qed.

Lemma split_join sep ps : ps <> [] -> Forall (fun p => sep ∉ p) ps -> split sep (join sep ps) = ps.
Proof.
  intros Hne Hf. induction Hf as [|p ps Hp Hf IH]; [done|]. clear Hne.
  assert (Hone : forall q tl, sep ∉ q -> (forall r rs, split_from sep tl = (r, rs) -> r = []) -> split_from sep (q ++ tl) = (q, (split_from sep tl).2)).
  { intros q tl Hq Hr. induction q as [|c q IHq]; cbn [app].
    - destruct (split_from sep tl) as [r rs] eqn:E. by rewrite (Hr r rs eq_refl).
    - cbn [split_from]. rewrite IHq by set_solver. rewrite (proj2 (Z.eqb_neq c sep)) by set_solver. done. }
  unfold split in *. destruct ps as [|q ps].
  - cbn [join]. rewrite <- (app_nil_r p). rewrite Hone; [by rewrite app_nil_r|done|by intros ? ? [= <- _]].
  - cbn [join]. rewrite Hone; [|done|].
    + cbn [split_from]. specialize (IH ltac:(done)). cbn [join] in IH. destruct (split_from sep _) as [r rs]. rewrite Z.eqb_refl. cbn [snd]. by rewrite IH.
    + intros r rs. cbn [split_from]. destruct (split_from sep _) as [r' rs']. rewrite Z.eqb_refl. by intros [= <- _].
Qed.

Lemma split_free sep s : Forall (fun p => sep ∉ p) (split sep s).
Proof.
  unfold split. induction s as [|c s IH]; [repeat constructor; by apply not_elem_of_nil|]. cbn [split_from]. destruct (split_from sep s) as [p ps].
  apply Forall_cons_1 in IH as [H1 H2]. destruct (Z.eqb_spec c sep); repeat constructor; try done; set_solver.
Qed.

Lemma hex_digit_range c d : hex_digit c = Some d -> 0 <= d < 16 /\ 48 <= c <= 102.
Proof. unfold hex_digit. repeat case_match; try done; intros [= <-]; breflect; lia. Qed.

(** A number of at most two digits. *)
Lemma radix_two a b : a <> 43 ->
  from_str_radix 16 255 [a; b] = match hex_digit a, hex_digit b with Some x, Some y => Some (x * 16 + y) | _, _ => None end.
Proof.
  intros Ha. unfold from_str_radix. rewrite (proj2 (Z.eqb_neq a 43) Ha). cbn [digits_value]. destruct (hex_digit a) as [x|] eqn:Ea; cbn [mbind option_bind]; [|by destruct (hex_digit b)].
  apply hex_digit_range in Ea. rewrite (proj2 (Z.ltb_lt x 16)), (proj2 (Z.ltb_ge 255 _)) by lia. destruct (hex_digit b) as [y|] eqn:Eb; cbn [mbind option_bind]; [|done].
  apply hex_digit_range in Eb. rewrite (proj2 (Z.ltb_lt y 16)), (proj2 (Z.ltb_ge 255 _)) by lia. f_equal; lia.
Qed.

Lemma radix_plus b : from_str_radix 16 255 [43; b] = hex_digit b.
Proof.
  unfold from_str_radix. cbn -[hex_digit]. destruct (hex_digit b) as [y|] eqn:Eb; cbn [mbind option_bind]; [|done]. apply hex_digit_range in Eb.
  by rewrite (proj2 (Z.ltb_lt y 16)), (proj2 (Z.ltb_ge 255 _)) by lia.
Qed.

Lemma split_once_spec sep s a b : split_once sep s = Some (a, b) <-> s = a ++ sep :: b /\ sep ∉ a.
Proof.
  revert a. induction s as [|c s IH]; intros a; cbn [split_once]; [split; [done|intros [Hs _]; by destruct a]|].
  destruct (Z.eqb_spec c sep) as [->|Hc].
  - split; [intros [= <- <-]; split; [done|apply not_elem_of_nil]|]. intros [Hs Ha]. destruct a as [|x a]; cbn in Hs; simplify_eq; [done|]. set_solver.
  - split.
    + destruct (split_once sep s) as [[a' b']|] eqn:E; [|done]. intros [= <- <-]. destruct (proj1 (IH a') eq_refl) as [-> Hn]. split; [done|set_solver].
    + intros [Hs Ha]. destruct a as [|x a]; cbn in Hs; simplify_eq. rewrite (proj2 (IH a)); [done|]. split; [done|set_solver].
Qed.

Lemma strip_prefix_spec p s r : strip_prefix p s = Some r <-> s = p ++ r.
Proof.
  revert s. induction p as [|x p IH]; intros [|y s]; cbn [strip_prefix app]; [split; congruence..|split; [done|intros [=]]|].
  destruct (Z.eqb_spec x y) as [->|]; [rewrite IH; split; [by intros ->|by intros [= ->]]|split; [done|intros [=]; congruence]].
Qed.

Lemma insert_str_perm x l : insert_str x l ≡ₚ x :: l.
Proof. induction l as [|y l IH]; cbn; [done|]. destruct (str_leb x y); [done|]. rewrite IH. apply Permutation_swap. Qed.

Lemma sort_strs_perm l : sort_strs l ≡ₚ l.
Proof. induction l as [|x l IH]; cbn; [done|]. by rewrite insert_str_perm, IH. Qed.

(** The values a key received, in order. *)
Definition values_of {K V} `{EqDecision K} (k : K) (l : list (K * V)) : list V := (filter (fun kv => kv.1 = k) l).*2.

Lemma lookup_accumulate {K V A} `{Countable K} (step : A -> V -> A) d (l : list (K * V)) k :
  accumulate step d l !! k = if decide (values_of k l = []) then None else Some (foldl step d (values_of k l)).
Proof.
  unfold accumulate, values_of. induction l as [|[k' v] l IH] using rev_ind; [done|]. rewrite foldl_app, filter_app, fmap_app. cbn [foldl]. rewrite filter_cons, filter_nil. cbn [fst snd].
  destruct (decide (k' = k)) as [->|Hk].
  - rewrite lookup_insert_eq, IH. cbn [fmap list_fmap]. rewrite foldl_app. destruct ((filter _ l).*2); repeat case_decide; done.
  - rewrite lookup_insert_ne by done. cbn [fmap list_fmap]. by rewrite app_nil_r.
Qed.

Lemma values_of_elem {K V} `{EqDecision K} (k : K) (v : V) l : v ∈ values_of k l <-> (k, v) ∈ l.
Proof.
  unfold values_of. rewrite list_elem_of_fmap. split.
  - intros ([k' v'] & -> & [Hk Hl]%list_elem_of_filter). cbn in *. by subst.
  - intros Hl. exists (k, v). rewrite list_elem_of_filter. done.
Qed.

(** Pushing the values of a key. *)
Lemma foldl_push {V} (l acc : list V) : foldl (fun a v => a ++ [v]) acc l = acc ++ l.
Proof. revert acc. induction l as [|x l IH]; intros acc; cbn; [by rewrite app_nil_r|]. by rewrite IH, <- app_assoc. Qed.

(** No two pairs with the same key. *)
Lemma values_of_unique {K V} `{EqDecision K} (l : list (K * V)) : (forall k, (length (values_of k l) < 2)%nat) <-> NoDup l.*1.
Proof.
  induction l as [|[k v] l IH]; [split; [constructor|cbn; lia]|]. cbn [fmap list_fmap fst]. rewrite NoDup_cons, <- IH. unfold values_of. split.
  - intros Hl. assert (Hk := Hl k). rewrite filter_cons_True in Hk by done. cbn in Hk. split.
    + intros ([k' w] & Hkk & Hin)%list_elem_of_fmap. cbn in Hkk. subst k'. assert (Hm : w ∈ values_of k l) by by apply values_of_elem. unfold values_of in Hm. destruct (_.*2); [set_solver|cbn in Hk; lia].
    + intros k'. specialize (Hl k'). rewrite filter_cons in Hl. case_decide; [|done]. cbn in Hl. lia.
  - intros [Hn Hl] k'. rewrite filter_cons. cbn [fst]. case_decide as Hd; [|by apply Hl]. subst k'. destruct (values_of k l) as [|w ws] eqn:E; unfold values_of in E; cbn [fmap list_fmap]; rewrite E; cbn; [lia|].
    exfalso. apply Hn. apply list_elem_of_fmap. exists (k, w). split; [done|]. apply values_of_elem. unfold values_of. rewrite E. set_solver.
Qed.
