(* ===== verification/Config.v ===== *)
(** * The configuration and its validation

    [enlil-config]: the data of [types.rs], the match specifications of the USB
    rules, the MAC addresses of [mac.rs] and every check of [validate.rs], with
    [load_config] over the file system and the TOML parser it calls.  A
    [HashMap] is iterated in an order of its own: [guest] is the list of its
    entries in that order, with each key once ([config_wf]).  A message is a
    constructor of [config_error] with the values it prints. *)

From Stdlib Require Import ZArith Lia Bool String.
From stdpp Require Import base decidable list numbers sets gmap.
From S2P Require Import Prelude Rust Str.

(** ** types.rs *)

Inductive GpuStrategy := GpuAuto | GpuPassthrough | GpuSrIov | GpuVirtioGpu | GpuMediated | GpuTimeSliced | GpuNone.
#[export] Instance GpuStrategy_eq_dec : EqDecision GpuStrategy := ltac:(solve_decision).

Record GpuPassthroughConfig := mkGpuPassthrough { pin_device : str; pin_target_guest : str; pin_iommu_group : option Z }.
Record GpuTimesliceShare := mkTimesliceShare { share_guest : str; share_priority : Z }.
Record GpuTimesliceConfig := mkGpuTimeslice { quantum_ms : Z; shares : list GpuTimesliceShare }.
Record GpuMediatedConfig := mkGpuMediated { med_device : str; vram_split_mb : list Z }.
Record GpuConfig := mkGpu {
  strategy : option GpuStrategy;
  passthrough : option GpuPassthroughConfig;
  timeslice : option GpuTimesliceConfig;
  mediated : option GpuMediatedConfig }.

Record UsbVfioFallback := mkVfio { vf_enabled : bool; vf_bdf : str; vf_target_guest : str; vf_allow_unstable_flr : bool }.
Record UsbRoutingRule := mkUsbRule { match_spec : str; ur_target : str; ur_priority : Z }.
Record UsbConfig := mkUsb { default_guest : option str; routing : list UsbRoutingRule; vfio_fallback : option UsbVfioFallback }.

Record HypervisorConfig := mkHypervisor { reserved_memory_mb : Z; total_memory_mb : Z; log_level : str; management_port : Z }.

Inductive SchedulingMode := Dedicated | Timeslice | Auto.
#[export] Instance SchedulingMode_eq_dec : EqDecision SchedulingMode := ltac:(solve_decision).

Record FirmwareConfig := mkFirmware { fw_code : str; fw_vars : str }.
Record DiskConfig := mkDisk { disk_path : str; readonly : bool }.
Record SerialPortConfig := mkSerial { ser_enabled : bool; ser_output : str }.
Record GuestConfig := mkGuest {
  g_name : str;
  cpus : list Z;
  memory_mb : Z;
  kernel : option str;
  initrd : option str;
  cmdline : str;
  scheduling : SchedulingMode;
  disks : list DiskConfig;
  serial : SerialPortConfig;
  mac : option str;
  firmware : option FirmwareConfig }.
Record EnlilConfig := mkConfig { hypervisor : HypervisorConfig; guest : list (str * GuestConfig); usb : UsbConfig; gpu : GpuConfig }.

(** What a field left out of the file is. *)
Definition HypervisorConfig_default : HypervisorConfig := mkHypervisor 512 0 (lit "info") 9100.
Definition SerialPortConfig_default : SerialPortConfig := mkSerial true (lit "stdout").

Inductive UsbMatchKind :=
  | KVidPid (vendor_id product_id : Z)
  | KVendorOnly (vendor_id : Z)
  | KPortPath (path : str)
  | KSerial (serial : str)
  | KDeviceClass (class : str)
  | KAny.

Inductive usb_match_error := EmptyPort | EmptySerial | EmptyClass | BadVendor (vid : str) | BadProduct (pid : str) | Unrecognized (spec : str).

Definition parse_usb_match (spec : str) : res usb_match_error UsbMatchKind :=
  let spec := trim spec in
  if bool_decide (spec = lit "*") then Ok KAny else
  match strip_prefix (lit "port:") spec with
  | Some path => let path := trim path in if bool_decide (path = []) then Err EmptyPort else Ok (KPortPath path)
  | None =>
  match strip_prefix (lit "serial:") spec with
  | Some serial => let serial := trim serial in if bool_decide (serial = []) then Err EmptySerial else Ok (KSerial serial)
  | None =>
  match strip_prefix (lit "class:") spec with
  | Some class => let class := trim class in if bool_decide (class = []) then Err EmptyClass else Ok (KDeviceClass class)
  | None =>
  match split_once 58 spec with
  | Some (vid, pid) =>
      vendor_id ← ok_or (from_str_radix 16 65535 (trim vid)) (BadVendor vid);
      if bool_decide (trim pid = lit "*") then Ok (KVendorOnly vendor_id) else
      product_id ← ok_or (from_str_radix 16 65535 (trim pid)) (BadProduct pid);
      Ok (KVidPid vendor_id product_id)
  | None => Err (Unrecognized spec)
  end end end end.

(** ** mac.rs *)

Definition HYPERVISOR_OUIS : list (list Z) :=
  [[0x52; 0x54; 0x00]; [0x00; 0x16; 0x3E]; [0x00; 0x15; 0x5D]; [0x00; 0x1C; 0x42]; [0x08; 0x00; 0x27];
   [0x0A; 0x00; 0x27]; [0x00; 0x05; 0x69]; [0x00; 0x0C; 0x29]; [0x00; 0x1C; 0x14]; [0x00; 0x50; 0x56]].

Inductive mac_error :=
  | NoSeparator
  | OctetCount (n : Z)
  | OctetLength (part : str)
  | OctetHex (part : str)
  | Multicast
  | VendorOui (oui : list Z).

Definition parse_octet (part : str) : res mac_error Z :=
  if negb (str_len part =? 2) then Err (OctetLength part) else ok_or (from_str_radix 16 255 part) (OctetHex part).
Fixpoint parse_octets (parts : list str) : res mac_error (list Z) :=
  match parts with
  | [] => Ok []
  | part :: parts' => b ← parse_octet part; bs ← parse_octets parts'; Ok (b :: bs)
  end.
Definition parse_mac (s : str) : res mac_error (list Z) :=
  sep ← (if bool_decide (58 ∈ s) then Ok 58 else if bool_decide (45 ∈ s) then Ok 45 else Err NoSeparator);
  let parts := split sep s in
  if negb (Z.of_nat (length parts) =? 6) then Err (OctetCount (Z.of_nat (length parts))) else parse_octets parts.

Definition is_hypervisor_oui (mac : list Z) : bool := bool_decide (take 3 mac ∈ HYPERVISOR_OUIS).

Definition mac_rejection_reason (s : str) : option mac_error :=
  match parse_mac s with
  | Ok mac =>
      if negb ((mac !!! 0%nat) .& 1 =? 0) then Some Multicast
      else if is_hypervisor_oui mac then Some (VendorOui (take 3 mac))
      else None
  | Err e => Some e
  | Panic => None
  end.

(** ** validate.rs *)

Inductive config_error :=
  | NoCpus (id : str)
  | DuplicateCpu (id : str) (cpu : Z)
  | CpuTaken (id : str) (cpu : Z)
  | CpuDedicated (id : str) (cpu : Z) (owner : str)
  | UsbDefaultUndefined (guest : str)
  | UsbRuleMatch (i : nat) (spec : str) (e : usb_match_error)
  | UsbRuleTarget (i : nat) (target : str)
  | VfioBdfEmpty
  | VfioBdfInvalid (bdf : str)
  | VfioTargetEmpty
  | VfioTargetUndefined (target : str)
  | GpuStrategyMediated
  | GpuStrategyTimeSliced
  | GpuTimesliceBlock
  | GpuMediatedBlock
  | GpuDeviceEmpty
  | GpuDeviceInvalid (bdf : str)
  | GpuTargetEmpty
  | GpuTargetUndefined (target : str)
  | GpuPinWithout (s : option GpuStrategy)
  | GpuPinMissing
  | MemorySanity (total : Z)
  | MemoryHost (total guests reserve host : Z)
  | MemoryZero (id : str)
  | MemoryMinimum (id : str) (mb : Z)
  | NameEmpty (id : str)
  | NameShared (name : str) (ids : list str)
  | LogLevel (level : str)
  | SerialOutput (id out : str)
  | MacRejected (id : str) (reason : mac_error)
  | MacShared (mac : str) (ids : list str)
  | DiskShared (path : bool * list str) (count : Z) (ids : list str)
  | PortZero
  | NoGuests
  | FirmwareCode (id : str)
  | FirmwareVars (id : str)
  | FirmwareSame (id : str).

(** [if c { errors.push(e) }] *)
Abbreviation push_if c e := (if c then [e] else []) (only parsing).

Definition contains_key (gs : list (str * GuestConfig)) (id : str) : bool := bool_decide (id ∈ gs.*1).

(** The three loops of [validate_cpu_isolation]: the duplicates of one guest,
    the claims of one guest, and the first pass over the guests. *)
Fixpoint duplicate_cpus (id : str) (local : gset Z) (cs : list Z) : list config_error :=
  match cs with
  | [] => []
  | cpu :: cs' => push_if (bool_decide (cpu ∈ local)) (DuplicateCpu id cpu) ++ duplicate_cpus id ({[cpu]} ∪ local) cs'
  end.
Fixpoint claim_cpus (id : str) (owner : gmap Z str) (cs : list Z) : list config_error * gmap Z str :=
  match cs with
  | [] => ([], owner)
  | cpu :: cs' =>
      let '(errors, owner') := claim_cpus id (<[cpu := id]> owner) cs' in
      (push_if (bool_decide (is_Some (owner !! cpu))) (CpuTaken id cpu) ++ errors, owner')
  end.
Fixpoint claim_guests (owner : gmap Z str) (gs : list (str * GuestConfig)) : list config_error * gmap Z str :=
  match gs with
  | [] => ([], owner)
  | (id, g) :: gs' =>
      let '(claims, owner') := if bool_decide (scheduling g = Dedicated \/ scheduling g = Auto) then claim_cpus id owner (cpus g) else ([], owner) in
      let '(errors, owner'') := claim_guests owner' gs' in
      (push_if (bool_decide (cpus g = [])) (NoCpus id) ++ duplicate_cpus id ∅ (cpus g) ++ claims ++ errors, owner'')
  end.
Definition validate_cpu_isolation (config : EnlilConfig) : list config_error :=
  let '(errors, dedicated_owner) := claim_guests ∅ (guest config) in
  errors ++
  (guest config ≫= fun '(id, g) =>
     if negb (bool_decide (scheduling g = Timeslice)) then [] else
     cpus g ≫= fun cpu =>
       match dedicated_owner !! cpu with
       | Some owner => push_if (negb (bool_decide (owner = id))) (CpuDedicated id cpu owner)
       | None => []
       end).

Definition validate_usb_routing (config : EnlilConfig) : list config_error :=
  match default_guest (usb config) with
  | Some g => push_if (negb (contains_key (guest config) g)) (UsbDefaultUndefined g)
  | None => []
  end ++
  concat (imap (fun i rule =>
    match parse_usb_match (match_spec rule) with Err e => [UsbRuleMatch i (match_spec rule) e] | _ => [] end ++
    push_if (negb (contains_key (guest config) (ur_target rule))) (UsbRuleTarget i (ur_target rule))) (routing (usb config))).

Definition is_valid_bdf (bdf : str) : bool :=
  match split_once 58 bdf with
  | None => false
  | Some (domain, rest) =>
  match split_once 58 rest with
  | None => false
  | Some (bus, rest) =>
  match split_once 46 rest with
  | None => false
  | Some (device, function) =>
      forallb (fun '(field, width) => (str_len field =? width) && forallb is_ascii_hexdigit field)
        [(domain, 4); (bus, 2); (device, 2); (function, 1)]
  end end end.

Definition validate_usb_vfio_fallback (config : EnlilConfig) : list config_error :=
  match vfio_fallback (usb config) with
  | None => []
  | Some fallback =>
      if negb (vf_enabled fallback) then [] else
      (if bool_decide (trim (vf_bdf fallback) = []) then [VfioBdfEmpty]
       else push_if (negb (is_valid_bdf (trim (vf_bdf fallback)))) (VfioBdfInvalid (vf_bdf fallback))) ++
      (if bool_decide (trim (vf_target_guest fallback) = []) then [VfioTargetEmpty]
       else push_if (negb (contains_key (guest config) (trim (vf_target_guest fallback)))) (VfioTargetUndefined (vf_target_guest fallback)))
  end.

Definition validate_gpu (config : EnlilConfig) : list config_error :=
  let gpu := gpu config in
  match strategy gpu with
  | Some GpuMediated => [GpuStrategyMediated]
  | Some GpuTimeSliced => [GpuStrategyTimeSliced]
  | _ => []
  end ++
  push_if (bool_decide (is_Some (timeslice gpu))) GpuTimesliceBlock ++
  push_if (bool_decide (is_Some (mediated gpu))) GpuMediatedBlock ++
  match passthrough gpu, strategy gpu with
  | Some pin, Some GpuPassthrough =>
      let bdf := trim (pin_device pin) in
      let target := trim (pin_target_guest pin) in
      (if bool_decide (bdf = []) then [GpuDeviceEmpty] else push_if (negb (is_valid_bdf bdf)) (GpuDeviceInvalid bdf)) ++
      (if bool_decide (target = []) then [GpuTargetEmpty] else push_if (negb (contains_key (guest config) target)) (GpuTargetUndefined target))
  | Some _, strategy => [GpuPinWithout strategy]
  | None, Some GpuPassthrough => [GpuPinMissing]
  | None, _ => []
  end.

(** [{b:02x}] of each byte, joined with [:]. *)
Definition format_mac (bytes : list Z) : str := join 58 ((fun b => [hex_char (b / 16); hex_char (b mod 16)]) <$> bytes).

Definition validate_guest_macs (config : EnlilConfig) : list config_error :=
  let mac_owners := accumulate (fun ids id => ids ++ [id]) []
    (omap (fun '(id, g) => m ← mac g; bytes ← ok (parse_mac m); Some (bytes, id)) (guest config)) in
  (guest config ≫= fun '(id, g) =>
     match mac g with
     | None => []
     | Some m => match mac_rejection_reason m with Some reason => [MacRejected id reason] | None => [] end
     end) ++
  (map_to_list mac_owners ≫= fun '(bytes, ids) => push_if (2 <=? Z.of_nat (length ids)) (MacShared (format_mac bytes) (sort_strs ids))).

Definition validate_guest_names (config : EnlilConfig) : list config_error :=
  let name_owners := accumulate (fun ids id => ids ++ [id]) []
    (omap (fun '(id, g) => if bool_decide (trim (g_name g) = []) then None else Some (trim (g_name g), id)) (guest config)) in
  (guest config ≫= fun '(id, g) => push_if (bool_decide (trim (g_name g) = [])) (NameEmpty id)) ++
  (map_to_list name_owners ≫= fun '(name, ids) => push_if (2 <=? Z.of_nat (length ids)) (NameShared name (sort_strs ids))).

(** [Path] equality is that of the components: empty segments and a [.] that
    does not lead are skipped. *)
Definition components (p : str) : bool * list str :=
  let rooted := bool_decide (head p = Some 47) in
  let segs := split 47 p in
  let keep := filter (fun s => s <> [] /\ s <> lit ".") segs in
  (rooted, if bool_decide (head segs = Some (lit ".")) then lit "." :: keep else keep).

Definition validate_guest_firmware (config : EnlilConfig) : list config_error :=
  guest config ≫= fun '(id, g) =>
    match firmware g with
    | None => []
    | Some fw =>
        push_if (bool_decide (fw_code fw = [])) (FirmwareCode id) ++
        push_if (bool_decide (fw_vars fw = [])) (FirmwareVars id) ++
        push_if (negb (bool_decide (fw_code fw = [])) && bool_decide (components (fw_code fw) = components (fw_vars fw))) (FirmwareSame id)
    end.

Definition VALID_LOG_LEVELS : list str := [lit "trace"; lit "debug"; lit "info"; lit "warn"; lit "error"].

(** The checks [validate_config] makes in its own body, in order. *)
Definition validate_memory (config : EnlilConfig) : res Empty_set (list config_error) :=
  total_guest_memory ← foldl (fun acc g => a ← acc; radd a (memory_mb g.2)) (Ok 0) (guest config);
  total_with_hypervisor ← radd total_guest_memory (reserved_memory_mb (hypervisor config));
  let host_total := total_memory_mb (hypervisor config) in
  Ok (push_if (256 * 1024 <? total_with_hypervisor) (MemorySanity total_with_hypervisor) ++
      push_if ((0 <? host_total) && (host_total <? total_with_hypervisor))
        (MemoryHost total_with_hypervisor total_guest_memory (reserved_memory_mb (hypervisor config)) host_total) ++
      (guest config ≫= fun '(id, g) =>
         push_if (memory_mb g =? 0) (MemoryZero id) ++ push_if (memory_mb g <? 64) (MemoryMinimum id (memory_mb g)))).
Definition validate_log_level (config : EnlilConfig) : list config_error :=
  let level := trim (log_level (hypervisor config)) in
  push_if (negb (existsb (eq_ignore_ascii_case level) VALID_LOG_LEVELS)) (LogLevel level).
Definition validate_serial (config : EnlilConfig) : list config_error :=
  guest config ≫= fun '(id, g) =>
    let out := trim (ser_output (serial g)) in
    let valid := bool_decide (out ∈ [lit "stdout"; lit "pty"; lit "null"]) ||
                 match strip_prefix (lit "file:") out with Some path => negb (bool_decide (trim path = [])) | None => false end in
    push_if (negb valid) (SerialOutput id out).
Definition validate_shared_disks (config : EnlilConfig) : list config_error :=
  let mounts := accumulate (fun '(count, writable, ids) '(ro, id) => (count + 1, writable || negb ro, ids ++ [id])) (0, false, [])
    (guest config ≫= fun '(id, g) => (fun disk => (components (disk_path disk), (readonly disk, id))) <$> disks g) in
  map_to_list mounts ≫= fun '(path, (count, writable, ids)) => push_if ((2 <=? count) && writable) (DiskShared path count (sort_strs ids)).
Definition validate_config (config : EnlilConfig) : res Empty_set (list config_error) :=
  let before := validate_cpu_isolation config ++ validate_usb_routing config ++ validate_usb_vfio_fallback config ++ validate_gpu config in
  memory ← validate_memory config;
  Ok (before ++ memory ++ validate_guest_names config ++ validate_log_level config ++ validate_serial config ++ validate_guest_macs config ++
      validate_shared_disks config ++ push_if (management_port (hypervisor config) =? 0) PortZero ++
      push_if (bool_decide (guest config = [])) NoGuests ++ validate_guest_firmware config).

Inductive load_error := ReadFailed | TomlInvalid | Invalid (errors : list config_error).

(** ** lib.rs *)

(** [load_config], over the file system ([read_to_string]) and the TOML parser
    ([toml::from_str]). *)
Definition load_config (read_to_string : str -> option str) (from_str : str -> option EnlilConfig) (path : str) : res load_error EnlilConfig :=
  content ← ok_or (read_to_string path) ReadFailed;
  config ← ok_or (from_str content) TomlInvalid;
  match validate_config config with
  | Ok errors => if bool_decide (errors = []) then Ok config else Err (Invalid errors)
  | _ => Panic
  end.
