(* ===== verification/ConfigValid.v ===== *)
(** * What a validated configuration satisfies

    [valid_config] states the rules of a configuration without the order, the
    maps and the loops of the checks; [validate_config] reports nothing exactly
    for the configurations that satisfy it.  A MAC address is read back from the
    form the messages print it in. *)

From Stdlib Require Import ZArith Lia Bool String.
From stdpp Require Import base decidable list numbers sets gmap.
From S2P Require Import Prelude Rust Str Config.

(** ** Lists of errors *)

Lemma push_if_nil {E} (b : bool) (e : E) : (if b then [e] else []) = [] <-> b = false.
Proof. by destruct b. Qed.

Lemma bind_nil {A B} (l : list A) (f : A -> list B) : l ≫= f = [] <-> forall x, x ∈ l -> f x = [].
Proof.
  induction l as [|x l IH]; [split; [intros _ x Hx%not_elem_of_nil|]; done|]. change ((x :: l) ≫= f) with (f x ++ (l ≫= f)). rewrite app_nil, IH. split.
  - intros [H1 H2] y [->|Hy]%elem_of_cons; auto.
  - intros Hl. split; [|intros y Hy]; apply Hl; set_solver.
Qed.

Lemma NoDup_bind_iff {A B} (l : list A) (f : A -> list B) : NoDup l ->
  NoDup (l ≫= f) <-> (forall x, x ∈ l -> NoDup (f x)) /\ (forall x y b, x ∈ l -> y ∈ l -> b ∈ f x -> b ∈ f y -> x = y).
Proof.
  intros Hl. split; [|intros [H1 H2]; apply NoDup_bind; eauto]. induction Hl as [|x l Hx Hl IH]; [intros _; split; set_solver|].
  change ((x :: l) ≫= f) with (f x ++ (l ≫= f)). rewrite NoDup_app. intros (H1 & H2 & H3). destruct (IH H3) as [I1 I2].
  assert (Hno : forall y b, y ∈ l -> b ∈ f x -> b ∈ f y -> False).
  { intros y b Hy Hb1 Hb2. apply (H2 b Hb1). apply list_elem_of_bind. eauto. }
  split; [intros y [->|Hy]%elem_of_cons; auto|]. intros y z b [->|Hy]%elem_of_cons [->|Hz]%elem_of_cons Hb1 Hb2; [done|exfalso; eauto..|eauto].
Qed.

Lemma NoDup_omap_iff {A B} (l : list A) (f : A -> option B) : NoDup l ->
  NoDup (omap f l) <-> (forall x y b, x ∈ l -> y ∈ l -> f x = Some b -> f y = Some b -> x = y).
Proof.
  intros Hl. induction Hl as [|x l Hx Hl IH]; [split; [intros _; set_solver|constructor]|]. cbn [omap list_omap]. destruct (f x) as [b|] eqn:E.
  - rewrite NoDup_cons, IH. split.
    + intros [Hb Hi] y z c [->|Hy]%elem_of_cons [->|Hz]%elem_of_cons Hc1 Hc2; simplify_eq; [done|exfalso; apply Hb, list_elem_of_omap; eauto..|eauto].
    + intros Hi. split; [|intros y z c Hy Hz; apply Hi; set_solver]. intros (y & Hy & Hfy)%list_elem_of_omap. apply Hx. rewrite (Hi x y b); [done|set_solver..|done|done].
  - rewrite IH. split; [|intros Hi y z c Hy Hz; apply Hi; set_solver]. intros Hi y z c [->|Hy]%elem_of_cons [->|Hz]%elem_of_cons Hc1 Hc2; simplify_eq; eauto.
Qed.

Lemma concat_imap_nil {A B} (f : nat -> A -> list B) l : concat (imap f l) = [] <-> forall i x, l !! i = Some x -> f i x = [].
Proof.
  revert f. induction l as [|x l IH]; intros f; [split; done|]. cbn [imap concat]. rewrite app_nil, IH. split.
  - intros [H1 H2] [|i] y Hy; cbn in Hy; simplify_eq; [done|]. by apply (H2 i).
  - intros Hl. split; [by apply (Hl 0%nat)|]. intros i y Hy. by apply (Hl (S i)).
Qed.

Lemma bool_decide_negb_false (P : Prop) `{Decision P} : negb (bool_decide P) = false <-> P.
Proof. by rewrite negb_false_iff, bool_decide_eq_true. Qed.

(** ** The specification *)

(** Each key of [guest] once, and the fields in the range of their types. *)
Record config_wf (c : EnlilConfig) : Prop := {
  cw_keys : NoDup (guest c).*1;
  cw_memory : forall id g, (id, g) ∈ guest c -> fits 64 (memory_mb g);
  cw_reserved : fits 64 (reserved_memory_mb (hypervisor c)) }.

(** [dddd:bb:dd.f] *)
Definition bdf_form (s : str) : Prop :=
  exists domain bus device function, s = domain ++ 58 :: bus ++ 58 :: device ++ 46 :: function /\
    length domain = 4%nat /\ length bus = 2%nat /\ length device = 2%nat /\ length function = 1%nat /\
    Forall (fun ch => is_Some (hex_digit ch)) (domain ++ bus ++ device ++ function).

(** An octet: two hexadecimal digits, or a sign and one of them. *)
Definition octet_form (p : str) (b : Z) : Prop :=
  exists h l, p = [h; l] /\ ((exists x y, hex_digit h = Some x /\ hex_digit l = Some y /\ b = x * 16 + y) \/ (h = 43 /\ hex_digit l = Some b)).
Definition mac_form (s : str) (bytes : list Z) : Prop :=
  exists sep parts, (sep = 58 \/ sep = 45) /\ s = join sep parts /\ length parts = 6%nat /\ Forall2 octet_form parts bytes.

Definition defined (c : EnlilConfig) (id : str) : Prop := id ∈ (guest c).*1.
Definition guest_memory (c : EnlilConfig) : Z := zsum ((fun g => memory_mb g.2) <$> guest c).
Definition all_disks (c : EnlilConfig) : list DiskConfig := guest c ≫= fun g => disks g.2.

Record valid_config (c : EnlilConfig) : Prop := {
  (** Every guest has cores, each once, and a core of a guest that is not
      time-sliced is no other guest's. *)
  vc_cpus : forall id g, (id, g) ∈ guest c -> cpus g <> [] /\ NoDup (cpus g);
  vc_exclusive : forall id g id' g' cpu, (id, g) ∈ guest c -> (id', g') ∈ guest c -> id <> id' ->
    scheduling g <> Timeslice -> cpu ∈ cpus g -> cpu ∉ cpus g';
  vc_usb_default : forall id, default_guest (usb c) = Some id -> defined c id;
  vc_usb_rules : forall rule, rule ∈ routing (usb c) -> (exists kind, parse_usb_match (match_spec rule) = Ok kind) /\ defined c (ur_target rule);
  vc_vfio : forall f, vfio_fallback (usb c) = Some f -> vf_enabled f = true -> bdf_form (trim (vf_bdf f)) /\ trim (vf_target_guest f) <> [] /\ defined c (trim (vf_target_guest f));
  vc_gpu_blocks : timeslice (gpu c) = None /\ mediated (gpu c) = None /\ strategy (gpu c) <> Some GpuMediated /\ strategy (gpu c) <> Some GpuTimeSliced;
  vc_gpu_pin : is_Some (passthrough (gpu c)) <-> strategy (gpu c) = Some GpuPassthrough;
  vc_gpu_target : forall pin, passthrough (gpu c) = Some pin -> bdf_form (trim (pin_device pin)) /\ trim (pin_target_guest pin) <> [] /\ defined c (trim (pin_target_guest pin));
  (** The memory fits the host, and every guest has the least it needs. *)
  vc_memory : guest_memory c + reserved_memory_mb (hypervisor c) <= 262144;
  vc_host : 0 < total_memory_mb (hypervisor c) -> guest_memory c + reserved_memory_mb (hypervisor c) <= total_memory_mb (hypervisor c);
  vc_guest_memory : forall id g, (id, g) ∈ guest c -> 64 <= memory_mb g;
  vc_names : forall id g, (id, g) ∈ guest c -> trim (g_name g) <> [];
  vc_names_unique : forall id g id' g', (id, g) ∈ guest c -> (id', g') ∈ guest c -> trim (g_name g) = trim (g_name g') -> id = id';
  vc_log : exists level, level ∈ VALID_LOG_LEVELS /\ eq_ignore_ascii_case (trim (log_level (hypervisor c))) level = true;
  vc_serial : forall id g, (id, g) ∈ guest c -> trim (ser_output (serial g)) ∈ [lit "stdout"; lit "pty"; lit "null"] \/
    exists path, trim (ser_output (serial g)) = lit "file:" ++ path /\ trim path <> [];
  (** Every MAC is a unicast address of no hypervisor vendor, and no two guests share one. *)
  vc_macs : forall id g m, (id, g) ∈ guest c -> mac g = Some m -> exists bytes, mac_form m bytes /\ (bytes !!! 0%nat) .& 1 = 0 /\ take 3 bytes ∉ HYPERVISOR_OUIS;
  vc_macs_unique : forall id g m id' g' m' bytes, (id, g) ∈ guest c -> (id', g') ∈ guest c -> mac g = Some m -> mac g' = Some m' ->
    mac_form m bytes -> mac_form m' bytes -> id = id';
  (** An image mounted twice is mounted read-only. *)
  vc_disks : forall i j d d', all_disks c !! i = Some d -> all_disks c !! j = Some d' -> i <> j -> components (disk_path d) = components (disk_path d') -> readonly d = true;
  vc_port : management_port (hypervisor c) <> 0;
  vc_some : guest c <> [];
  vc_firmware : forall id g f, (id, g) ∈ guest c -> firmware g = Some f -> fw_code f <> [] /\ fw_vars f <> [] /\ components (fw_code f) <> components (fw_vars f) }.

(** ** Cores *)

Lemma not_timeslice m : m = Dedicated \/ m = Auto <-> m <> Timeslice.
Proof. destruct m; naive_solver. Qed.

Lemma duplicate_cpus_nil id local cs : duplicate_cpus id local cs = [] <-> NoDup cs /\ (forall cpu, cpu ∈ cs -> cpu ∉ local).
Proof.
  revert local. induction cs as [|cpu cs IH]; intros local; cbn [duplicate_cpus]; [split; [intros _; split; [constructor|set_solver]|done]|].
  rewrite app_nil, push_if_nil, bool_decide_eq_false, IH, NoDup_cons. set_solver.
Qed.

Lemma claim_cpus_spec id owner cs :
  ((claim_cpus id owner cs).1 = [] <-> NoDup cs /\ (forall cpu, cpu ∈ cs -> owner !! cpu = None)) /\
  (forall cpu, (claim_cpus id owner cs).2 !! cpu = if bool_decide (cpu ∈ cs) then Some id else owner !! cpu).
Proof.
  revert owner. induction cs as [|cpu cs IH]; intros owner; cbn [claim_cpus]; [split; [split; [intros _; split; [constructor|set_solver]|done]|done]|].
  destruct (IH (<[cpu:=id]> owner)) as [I1 I2]. destruct (claim_cpus _ _ _) as [errors owner'] eqn:E. cbn [fst snd] in *. split.
  - rewrite app_nil, push_if_nil, bool_decide_eq_false, I1, NoDup_cons, <- eq_None_not_Some. split.
    + intros (Hn & Hd & Ho). assert (Hc : forall c, c ∈ cs -> c <> cpu /\ owner !! c = None) by (intros c Hc; specialize (Ho c Hc); apply lookup_insert_None in Ho; naive_solver).
      split; [split; [|done]|]; [intros Hin; by destruct (Hc _ Hin)|]. intros c [->|Hin]%elem_of_cons; [done|by apply Hc].
    + intros [[Hni Hd] Ho]. split; [apply Ho; set_solver|]. split; [done|]. intros c Hc. rewrite lookup_insert_ne by set_solver. apply Ho. set_solver.
  - intros c. rewrite I2. destruct (decide (c = cpu)) as [->|Hc].
    + rewrite lookup_insert_eq. rewrite (bool_decide_eq_true_2 (cpu ∈ cpu :: cs)) by set_solver. by destruct (bool_decide _).
    + rewrite lookup_insert_ne by done. by rewrite (bool_decide_ext (c ∈ cpu :: cs) (c ∈ cs)) by set_solver.
Qed.

(** The cores the guests of the list hold for themselves. *)
Definition dedicated_cpus (gs : list (str * GuestConfig)) : list Z :=
  gs ≫= fun g => if bool_decide (scheduling g.2 = Dedicated \/ scheduling g.2 = Auto) then cpus g.2 else [].

Lemma claim_guests_spec owner gs :
  ((claim_guests owner gs).1 = [] <->
     (forall g, g ∈ gs -> cpus g.2 <> [] /\ NoDup (cpus g.2)) /\ NoDup (dedicated_cpus gs) /\ (forall cpu, cpu ∈ dedicated_cpus gs -> owner !! cpu = None)) /\
  (forall cpu, cpu ∉ dedicated_cpus gs -> (claim_guests owner gs).2 !! cpu = owner !! cpu) /\
  (forall cpu, cpu ∈ dedicated_cpus gs -> exists g, g ∈ gs /\ (scheduling g.2 = Dedicated \/ scheduling g.2 = Auto) /\ cpu ∈ cpus g.2 /\ (claim_guests owner gs).2 !! cpu = Some g.1).
Proof.
  revert owner. induction gs as [|[id g] gs IH]; intros owner; [cbn; split; [split; [intros _; split; [set_solver|split; [constructor|set_solver]]|done]|set_solver]|].
  change (dedicated_cpus ((id, g) :: gs)) with ((if bool_decide (scheduling g = Dedicated \/ scheduling g = Auto) then cpus g else []) ++ dedicated_cpus gs).
  cbn [claim_guests]. set (P := scheduling g = Dedicated \/ scheduling g = Auto).
  set (r := if bool_decide P then claim_cpus id owner (cpus g) else ([], owner)). set (own := if bool_decide P then cpus g else []).
  assert (Hr : (r.1 = [] <-> NoDup own /\ (forall cpu, cpu ∈ own -> owner !! cpu = None)) /\
               (forall cpu, r.2 !! cpu = if bool_decide (cpu ∈ own) then Some id else owner !! cpu)).
  { unfold r, own. destruct (bool_decide P); [apply claim_cpus_spec|]. split; [split; [intros _; split; [constructor|set_solver]|done]|done]. }
  destruct Hr as [R1 R2]. destruct r as [claims owner'] eqn:Er. cbn [fst snd] in *.
  destruct (IH owner') as (I1 & I2 & I3). destruct (claim_guests owner' gs) as [errors owner''] eqn:Ec. cbn [fst snd] in *. split_and!.
  - rewrite !app_nil, push_if_nil, bool_decide_eq_false, duplicate_cpus_nil, R1, I1, NoDup_app. split.
    + intros (Hne & [Hd _] & [Hno Hoo] & Hgs & Hnd & Hfree). split_and!; try done.
      * intros [id' g'] [[= -> ->]|Hg]%elem_of_cons; [done|by apply (Hgs (id', g'))].
      * intros cpu Hc1 Hc2. specialize (Hfree cpu Hc2). rewrite R2, bool_decide_eq_true_2 in Hfree; done.
      * intros cpu [Hc|Hc]%elem_of_app; [by apply Hoo|]. specialize (Hfree cpu Hc). rewrite R2 in Hfree. by case_bool_decide.
    + intros (Hgs & (Hno & Hdis & Hnd) & Hfree). destruct (Hgs (id, g)) as [Hne Hd]; [set_solver|]. split_and!; try done.
      * intros cpu Hc. apply Hfree. set_solver.
      * intros g' Hg'. apply Hgs. set_solver.
      * intros cpu Hc. rewrite R2, bool_decide_eq_false_2; [apply Hfree; set_solver|]. intros Hin. by apply (Hdis cpu).
  - intros cpu [Hc1 Hc2]%not_elem_of_app. rewrite I2 by done. by rewrite R2, bool_decide_eq_false_2.
  - intros cpu Hc. destruct (decide (cpu ∈ dedicated_cpus gs)) as [Hin|Hnin]; [destruct (I3 cpu Hin) as (g' & ? & ?); exists g'; set_solver|].
    apply elem_of_app in Hc as [Hc|]; [|done]. exists (id, g). rewrite I2, R2, bool_decide_eq_true_2 by done. unfold own in Hc. case_bool_decide as HP; [set_solver|set_solver].
Qed.

Lemma keys_unique {A} (l : list (str * A)) x y : NoDup l.*1 -> x ∈ l -> y ∈ l -> x.1 = y.1 -> x = y.
Proof.
  intros Hn [i Hi]%list_elem_of_lookup [j Hj]%list_elem_of_lookup Hk. assert (i = j) as ->; [|by simplify_eq].
  apply (NoDup_lookup _ _ _ x.1 Hn); rewrite list_lookup_fmap; [by rewrite Hi|by rewrite Hj, Hk].
Qed.

Lemma dedicated_cpus_spec gs cpu :
  cpu ∈ dedicated_cpus gs <-> exists g, g ∈ gs /\ scheduling g.2 <> Timeslice /\ cpu ∈ cpus g.2.
Proof.
  unfold dedicated_cpus. rewrite list_elem_of_bind. split; intros (g & H1 & H2).
  - case_bool_decide as Hs; [|by apply not_elem_of_nil in H1]. exists g. split_and!; [done| |done]. by apply not_timeslice.
  - destruct H2 as [Hs Hc]. exists g. rewrite bool_decide_eq_true_2; [done|by apply not_timeslice].
Qed.

Lemma cpu_isolation_nil c : NoDup (guest c).*1 ->
  validate_cpu_isolation c = [] <->
  (forall id g, (id, g) ∈ guest c -> cpus g <> [] /\ NoDup (cpus g)) /\
  (forall id g id' g' cpu, (id, g) ∈ guest c -> (id', g') ∈ guest c -> id <> id' -> scheduling g <> Timeslice -> cpu ∈ cpus g -> cpu ∉ cpus g').
Proof.
  intros Hk. assert (Hl : NoDup (guest c)) by by apply NoDup_fmap_1 in Hk. unfold validate_cpu_isolation.
  destruct (claim_guests_spec ∅ (guest c)) as (C1 & C2 & C3). destruct (claim_guests ∅ (guest c)) as [errors owner]. cbn [fst snd] in *.
  rewrite app_nil, C1, bind_nil. unfold dedicated_cpus in C1. unfold dedicated_cpus at 1. rewrite NoDup_bind_iff by done. split.
  - intros ((Hg & [_ Hd] & _) & Hts). split; [by intros id g Hin; apply (Hg (id, g))|].
    intros id g id' g' cpu Hin Hin' Hne Hs Hc Hc'. assert (Hded : cpu ∈ dedicated_cpus (guest c)) by (apply dedicated_cpus_spec; eauto).
    destruct (decide (scheduling g' = Timeslice)) as [Ht|Ht].
    + specialize (Hts _ Hin'). cbn in Hts. rewrite Ht in Hts. cbn [bool_decide negb] in Hts. rewrite bool_decide_eq_true_2 in Hts by done. cbn [negb] in Hts.
      rewrite bind_nil in Hts. specialize (Hts cpu Hc'). destruct (C3 cpu Hded) as ([o go] & Ho & Hso & Hco & Ho2). cbn in *. rewrite Ho2, push_if_nil, bool_decide_negb_false in Hts. subst o.
      assert ((id', go) = (id', g')) as [= ->] by by apply (keys_unique (guest c)). by apply not_timeslice in Hso.
    + apply Hne. assert ((id, g) = (id', g')) as [= -> _]; [|done]. apply (Hd _ _ cpu); cbn; try done; rewrite bool_decide_eq_true_2 by (by apply not_timeslice); done.
  - intros [Hg He]. split; [split; [by intros [id g]; apply Hg|split; [split|]]|].
    + intros [id g] Hin. cbn. case_bool_decide; [by apply (Hg id g)|constructor].
    + intros [id g] [id' g'] cpu Hin Hin' Hc Hc'. cbn in *. repeat case_bool_decide; try by apply not_elem_of_nil in Hc. 2: by apply not_elem_of_nil in Hc'.
      apply (keys_unique (guest c)); [done..|]. cbn. destruct (decide (id = id')); [done|]. exfalso. apply (He id g id' g' cpu); try done. by apply not_timeslice.
    + done.
    + intros [id g] Hin. case_bool_decide as Hs; [|done]. cbn. apply bind_nil. intros cpu Hc. destruct (decide (cpu ∈ dedicated_cpus (guest c))) as [Hd|Hd]; [|by rewrite C2].
      destruct (C3 cpu Hd) as ([o go] & Ho & Hso & Hco & ->). cbn in *. rewrite push_if_nil, bool_decide_negb_false.
      destruct (decide (o = id)); [done|]. exfalso. apply (He o go id g cpu); try done. by apply not_timeslice.
Qed.

(** ** Devices *)

Lemma contains_key_spec c id : contains_key (guest c) id = true <-> defined c id.
Proof. apply bool_decide_eq_true. Qed.

Lemma parse_usb_match_no_panic s : parse_usb_match s <> Panic.
Proof.
  unfold parse_usb_match. destruct (bool_decide _); [done|]. do 3 (destruct (strip_prefix _ _); [by destruct (bool_decide _)|]).
  destruct (split_once _ _) as [[vid pid]|]; [|done]. destruct (from_str_radix 16 65535 (trim vid)); [|done]. cbn [ok_or mbind res_bind].
  destruct (bool_decide _); [done|]. by destruct (from_str_radix 16 65535 (trim pid)).
Qed.

Lemma usb_routing_nil c :
  validate_usb_routing c = [] <->
  (forall id, default_guest (usb c) = Some id -> defined c id) /\
  (forall rule, rule ∈ routing (usb c) -> (exists kind, parse_usb_match (match_spec rule) = Ok kind) /\ defined c (ur_target rule)).
Proof.
  unfold validate_usb_routing. rewrite app_nil, concat_imap_nil. f_equiv.
  - destruct (default_guest (usb c)); [|naive_solver]. rewrite push_if_nil, negb_false_iff, contains_key_spec. naive_solver.
  - assert (He : forall i rule, (match parse_usb_match (match_spec rule) with Err e => [UsbRuleMatch i (match_spec rule) e] | _ => [] end ++
        (if negb (contains_key (guest c) (ur_target rule)) then [UsbRuleTarget i (ur_target rule)] else []) = []) <->
        (exists kind, parse_usb_match (match_spec rule) = Ok kind) /\ defined c (ur_target rule)).
    { intros i rule. rewrite app_nil, push_if_nil, negb_false_iff, contains_key_spec. pose proof (parse_usb_match_no_panic (match_spec rule)). destruct (parse_usb_match _); naive_solver. }
    split; [intros Hr rule [i Hi]%list_elem_of_lookup; by apply (He i), Hr|]. intros Hr i rule Hi. apply He, Hr, list_elem_of_lookup. eauto.
Qed.

Lemma str_len_hex s : Forall (fun ch => is_Some (hex_digit ch)) s -> str_len s = Z.of_nat (length s).
Proof.
  unfold str_len. induction 1 as [|ch s [d Hd] Hs IH]; [done|]. cbn [fmap list_fmap zsum foldr length]. fold (zsum (char_len <$> s)). rewrite IH.
  apply hex_digit_range in Hd. unfold char_len. rewrite (proj2 (Z.ltb_lt ch 128)) by lia. lia.
Qed.

Lemma field_spec s w : (str_len s =? Z.of_nat w) && forallb is_ascii_hexdigit s = true <-> length s = w /\ Forall (fun ch => is_Some (hex_digit ch)) s.
Proof.
  rewrite andb_true_iff, Z.eqb_eq, forallb_forall. assert (Hf : (forall x, In x s -> is_ascii_hexdigit x = true) <-> Forall (fun ch => is_Some (hex_digit ch)) s).
  { rewrite Forall_forall. unfold is_ascii_hexdigit. setoid_rewrite bool_decide_eq_true. by setoid_rewrite list_elem_of_In. }
  rewrite Hf. split; intros [H1 H2]; (split; [|done]); rewrite str_len_hex in * by done; lia.
Qed.

Lemma hex_free s sep : Forall (fun ch => is_Some (hex_digit ch)) s -> hex_digit sep = None -> sep ∉ s.
Proof. intros Hs Hsep Hin. rewrite Forall_forall in Hs. destruct (Hs _ Hin). congruence. Qed.

Lemma is_valid_bdf_spec s : is_valid_bdf s = true <-> bdf_form s.
Proof.
  unfold is_valid_bdf, bdf_form. split.
  - intros H. repeat (case_match; try done). repeat match goal with E : split_once _ _ = Some _ |- _ => apply split_once_spec in E as [-> ?] end.
    cbn [forallb] in H. rewrite !andb_true_r in H. apply andb_true_iff in H as [F1 H]. apply andb_true_iff in H as [F2 H]. apply andb_true_iff in H as [F3 F4].
    apply (field_spec _ 4) in F1 as [? ?]. apply (field_spec _ 2) in F2 as [? ?]. apply (field_spec _ 2) in F3 as [? ?]. apply (field_spec _ 1) in F4 as [? ?].
    do 4 eexists. split; [done|]. split_and!; try done. by rewrite !Forall_app.
  - intros (d & b & v & f & -> & L1 & L2 & L3 & L4 & HF). rewrite !Forall_app in HF. destruct HF as (F1 & F2 & F3 & F4).
    rewrite (proj2 (split_once_spec 58 _ d _)) by (split; [done|by apply hex_free]). rewrite (proj2 (split_once_spec 58 _ b _)) by (split; [done|by apply hex_free]).
    rewrite (proj2 (split_once_spec 46 _ v f)) by (split; [done|by apply hex_free]). cbn [forallb]. rewrite !andb_true_r.
    apply andb_true_iff; split; [by apply (field_spec d 4)|]. apply andb_true_iff; split; [by apply (field_spec b 2)|].
    apply andb_true_iff; split; [by apply (field_spec v 2)|by apply (field_spec f 1)].
Qed.

(** A device address and the guest it goes to. *)
Lemma pin_nil {E} c bdf target (e1 e2 e3 e4 : E) :
  (if bool_decide (bdf = []) then [e1] else if negb (is_valid_bdf bdf) then [e2] else []) ++
  (if bool_decide (target = []) then [e3] else if negb (contains_key (guest c) target) then [e4] else []) = [] <->
  bdf_form bdf /\ target <> [] /\ defined c target.
Proof.
  rewrite app_nil, <- is_valid_bdf_spec, <- contains_key_spec. destruct (decide (bdf = [])) as [->|]; [cbn; naive_solver|]. destruct (decide (target = [])) as [->|]; [cbn; naive_solver|].
  rewrite !bool_decide_eq_false_2, !push_if_nil, !negb_false_iff by done. naive_solver.
Qed.

Lemma usb_vfio_nil c : validate_usb_vfio_fallback c = [] <->
  forall f, vfio_fallback (usb c) = Some f -> vf_enabled f = true -> bdf_form (trim (vf_bdf f)) /\ trim (vf_target_guest f) <> [] /\ defined c (trim (vf_target_guest f)).
Proof.
  unfold validate_usb_vfio_fallback. destruct (vfio_fallback (usb c)) as [f|]; [|by split; [intros _ f|]]. destruct (vf_enabled f) eqn:E; cbn [negb].
  - rewrite pin_nil. split; [by intros H f' [= <-] _|]. intros H. by apply H.
  - split; [|done]. intros _ f' [= <-]. congruence.
Qed.

Lemma gpu_nil c : validate_gpu c = [] <->
  (timeslice (gpu c) = None /\ mediated (gpu c) = None /\ strategy (gpu c) <> Some GpuMediated /\ strategy (gpu c) <> Some GpuTimeSliced) /\
  (is_Some (passthrough (gpu c)) <-> strategy (gpu c) = Some GpuPassthrough) /\
  (forall pin, passthrough (gpu c) = Some pin -> bdf_form (trim (pin_device pin)) /\ trim (pin_target_guest pin) <> [] /\ defined c (trim (pin_target_guest pin))).
Proof.
  unfold validate_gpu. destruct (gpu c) as [s p t m]. cbn [strategy passthrough timeslice mediated].
  rewrite !app_nil, !push_if_nil, !bool_decide_eq_false, <- !eq_None_not_Some.
  destruct p as [pin|].
  - destruct s as [[]|]; rewrite ?pin_nil; unfold is_Some; naive_solver.
  - destruct s as [[]|]; unfold is_Some; naive_solver.
Qed.

(** ** Memory *)

Lemma sum_memory gs a : 0 <= a < 2 ^ 64 -> (forall g, g ∈ gs -> 0 <= memory_mb g.2) ->
  foldl (fun acc g => x ← acc; radd x (memory_mb g.2)) (Ok a : res Empty_set Z) gs =
  if a + zsum ((fun g : str * GuestConfig => memory_mb g.2) <$> gs) <? 2 ^ 64 then Ok (a + zsum ((fun g => memory_mb g.2) <$> gs)) else Panic.
Proof.
  intros Ha Hm. assert (Hp : forall gs', foldl (fun acc (g : str * GuestConfig) => x ← acc; radd x (memory_mb g.2)) (Panic : res Empty_set Z) gs' = Panic) by (intros gs'; by induction gs').
  revert a Ha. induction gs as [|g gs IH]; intros a Ha; cbn [foldl fmap list_fmap zsum foldr]; [by rewrite Z.add_0_r, (proj2 (Z.ltb_lt a _)) by lia|].
  fold (zsum ((fun g : str * GuestConfig => memory_mb g.2) <$> gs)). cbn [mbind res_bind]. unfold radd at 2.
  assert (Hg : 0 <= memory_mb g.2) by (apply Hm; set_solver).
  assert (Hz : 0 <= zsum ((fun g : str * GuestConfig => memory_mb g.2) <$> gs)) by (apply zsum_nonneg, Forall_fmap, Forall_forall; intros x Hx; apply Hm; set_solver).
  destruct (Z.ltb_spec (a + memory_mb g.2) (2 ^ 64)).
  - rewrite IH by (try (intros; apply Hm; set_solver); lia). by rewrite <- Z.add_assoc.
  - rewrite Hp, (proj2 (Z.ltb_ge _ (2 ^ 64))) by lia. done.
Qed.

Lemma guest_memory_nonneg c : config_wf c -> 0 <= guest_memory c.
Proof. intros [_ Hm _]. apply zsum_nonneg, Forall_fmap, Forall_forall. intros [id g] Hg. cbn. apply (Hm id g) in Hg. unfold fits in Hg. lia. Qed.

Lemma total_memory c : config_wf c ->
  (t ← foldl (fun acc g => x ← acc; radd x (memory_mb g.2)) (Ok 0 : res Empty_set Z) (guest c); w ← radd t (reserved_memory_mb (hypervisor c)); Ok (t, w)) =
  if guest_memory c + reserved_memory_mb (hypervisor c) <? 2 ^ 64 then Ok (guest_memory c, guest_memory c + reserved_memory_mb (hypervisor c)) else Panic.
Proof.
  intros Hw. pose proof (guest_memory_nonneg c Hw). destruct Hw as [_ Hm Hr]. unfold fits in Hr. rewrite sum_memory by (try lia; intros [id g] Hg; apply (Hm id g) in Hg; unfold fits in Hg; cbn; lia).
  fold (guest_memory c). rewrite Z.add_0_l. destruct (Z.ltb_spec (guest_memory c) (2 ^ 64)); cbn [mbind res_bind].
  - unfold radd. by destruct (_ <? _).
  - rewrite (proj2 (Z.ltb_ge _ _)) by lia. done.
Qed.

Lemma validate_memory_run c : config_wf c ->
  validate_memory c =
  if guest_memory c + reserved_memory_mb (hypervisor c) <? 2 ^ 64 then
    let total := guest_memory c + reserved_memory_mb (hypervisor c) in let host := total_memory_mb (hypervisor c) in
    Ok ((if 256 * 1024 <? total then [MemorySanity total] else []) ++
        (if (0 <? host) && (host <? total) then [MemoryHost total (guest_memory c) (reserved_memory_mb (hypervisor c)) host] else []) ++
        (guest c ≫= fun '(id, g) => (if memory_mb g =? 0 then [MemoryZero id] else []) ++ (if memory_mb g <? 64 then [MemoryMinimum id (memory_mb g)] else [])))
  else Panic.
Proof.
  intros Hw. pose proof (total_memory c Hw) as Ht. unfold validate_memory. destruct (foldl _ _ _) as [t| |]; cbn [mbind res_bind] in *; [|by destruct (_ <? _)..].
  destruct (radd t _) as [w| |]; cbn [mbind res_bind] in *; [|by destruct (_ <? _)..]. destruct (_ + _ <? 2 ^ 64); by simplify_eq.
Qed.

Lemma memory_nil c : config_wf c -> validate_memory c = Ok [] <->
  guest_memory c + reserved_memory_mb (hypervisor c) <= 262144 /\
  (0 < total_memory_mb (hypervisor c) -> guest_memory c + reserved_memory_mb (hypervisor c) <= total_memory_mb (hypervisor c)) /\
  (forall id g, (id, g) ∈ guest c -> 64 <= memory_mb g).
Proof.
  intros Hw. rewrite validate_memory_run by done. set (total := guest_memory c + _).
  assert (Hn : forall l : list config_error, (Ok l : res Empty_set _) = Ok [] <-> l = []) by (intros l; split; congruence).
  destruct (Z.ltb_spec total (2 ^ 64)); [|split; [done|lia]]. cbv zeta. rewrite Hn, !app_nil, !push_if_nil, bind_nil, andb_false_iff, !Z.ltb_ge.
  assert (Hg : (forall x, x ∈ guest c -> (let '(id, g) := x in (if memory_mb g =? 0 then [MemoryZero id] else []) ++ (if memory_mb g <? 64 then [MemoryMinimum id (memory_mb g)] else [])) = []) <->
          (forall id g, (id, g) ∈ guest c -> 64 <= memory_mb g)).
  { split; [intros Hx id g Hg; specialize (Hx _ Hg); cbn in Hx; rewrite app_nil, !push_if_nil, Z.ltb_ge in Hx; lia|].
    intros Hx [id g] Hg. rewrite app_nil, !push_if_nil, Z.ltb_ge, Z.eqb_neq. specialize (Hx id g Hg). lia. }
  rewrite Hg. change (256 * 1024) with 262144. intuition lia.
Qed.

(** ** Names and addresses *)

Lemma shared_nil {K E} `{Countable K} (l : list (K * str)) (e : K -> list str -> E) :
  map_to_list (accumulate (fun ids id => ids ++ [id]) [] l) ≫= (fun '(k, ids) => if 2 <=? Z.of_nat (length ids) then [e k ids] else []) = [] <-> NoDup l.*1.
Proof.
  rewrite bind_nil, <- values_of_unique. split.
  - intros Hm k. destruct (decide (values_of k l = [])) as [->|Hv]; [cbn; lia|]. specialize (Hm (k, values_of k l)). rewrite elem_of_map_to_list, lookup_accumulate, decide_False in Hm by done.
    rewrite foldl_push in Hm. specialize (Hm eq_refl). rewrite push_if_nil, Z.leb_gt in Hm. lia.
  - intros Hl [k ids]. rewrite elem_of_map_to_list, lookup_accumulate. case_decide; [done|]. rewrite foldl_push. intros [= <-]. rewrite push_if_nil, Z.leb_gt. specialize (Hl k). cbn. lia.
Qed.

(** Keys of the guests that have one are distinct. *)
Lemma keyed_unique {K} (key : GuestConfig -> option K) (gs : list (str * GuestConfig)) : NoDup gs.*1 ->
  NoDup (omap (fun g => k ← key g.2; Some (k, g.1)) gs).*1 <-> (forall id g id' g' k, (id, g) ∈ gs -> (id', g') ∈ gs -> key g = Some k -> key g' = Some k -> id = id').
Proof.
  intros Hk. assert (Hl : NoDup gs) by by apply NoDup_fmap_1 in Hk. assert (He : (omap (fun g => k ← key g.2; Some (k, g.1)) gs).*1 = omap (fun g => key g.2) gs).
  { clear. induction gs as [|g gs IH]; [done|]. cbn. destruct (key g.2); cbn; by rewrite <- IH. }
  rewrite He, NoDup_omap_iff by done. split.
  - intros Hu id g id' g' k Hg Hg' K1 K2. assert ((id, g) = (id', g')) as [= -> _]; [by apply (Hu _ _ k)|done].
  - intros Hu [id g] [id' g'] k Hg Hg' K1 K2. apply (keys_unique gs); [done..|]. by apply (Hu id g id' g' k).
Qed.

Lemma omap_ext' {A B} (f g : A -> option B) (l : list A) : (forall x, f x = g x) -> omap f l = omap g l.
Proof. intros Hf. induction l as [|x l IH]; [done|]. cbn. rewrite Hf. destruct (g x); by rewrite IH. Qed.

Lemma guest_names_nil c : NoDup (guest c).*1 -> validate_guest_names c = [] <->
  (forall id g, (id, g) ∈ guest c -> trim (g_name g) <> []) /\
  (forall id g id' g', (id, g) ∈ guest c -> (id', g') ∈ guest c -> trim (g_name g) = trim (g_name g') -> id = id').
Proof.
  intros Hk. unfold validate_guest_names. rewrite app_nil, (shared_nil _ (fun name ids => NameShared name (sort_strs ids))), bind_nil.
  set (key := fun g => if bool_decide (trim (g_name g) = []) then None else Some (trim (g_name g))).
  rewrite (omap_ext' _ (fun g => k ← key g.2; Some (k, g.1))) by (intros [id g]; unfold key; cbn; by destruct (bool_decide _)). rewrite keyed_unique by done.
  assert (H1 : (forall x, x ∈ guest c -> (let '(id, g) := x in if bool_decide (trim (g_name g) = []) then [NameEmpty id] else []) = []) <-> (forall id g, (id, g) ∈ guest c -> trim (g_name g) <> [])).
  { split; [intros Hx id g Hg; specialize (Hx _ Hg); cbn in Hx; by rewrite push_if_nil, bool_decide_eq_false in Hx|]. intros Hx [id g] Hg. rewrite push_if_nil, bool_decide_eq_false. by apply (Hx id g). }
  rewrite H1. split; intros [Hn Hu]; (split; [done|]); intros id g id' g'.
  - intros Hg Hg' He. apply (Hu id g id' g' (trim (g_name g))); try done; unfold key; rewrite bool_decide_eq_false_2 by (eapply Hn; eauto); by rewrite ?He.
  - unfold key. intros k Hg Hg' K1 K2. repeat case_bool_decide; simplify_eq. by apply (Hu id g id' g').
Qed.

Lemma elem_of_join x sep ps : x ∈ join sep ps <-> (exists p, p ∈ ps /\ x ∈ p) \/ (x = sep /\ (2 <= length ps)%nat).
Proof.
  induction ps as [|p [|q ps] IH]; [cbn; split; [set_solver|intros [(p & Hp & _)|[_ Hl]]; [set_solver|lia]]|cbn; split; [intros Hx; left; exists p; set_solver|intros [(q & Hq & Hx)|[_ Hl]]; [set_solver|lia]]|].
  change (join sep (p :: q :: ps)) with (p ++ sep :: join sep (q :: ps)). rewrite elem_of_app, elem_of_cons, IH. cbn [length]. split.
  - intros [Hx|[->|[(r & Hr & Hx)|[-> Hl]]]]; [left; exists p; set_solver|right; split; [done|lia]|left; exists r; set_solver|right; split; [done|lia]].
  - intros [(r & [->|Hr]%elem_of_cons & Hx)|[-> Hl]]; [by left|right; right; left; eauto|by right; left].
Qed.

Lemma char_len_pos ch : 1 <= char_len ch <= 4.
Proof. unfold char_len. repeat case_match; lia. Qed.

Lemma parse_octet_spec p b : parse_octet p = Ok b <-> octet_form p b.
Proof.
  unfold parse_octet, octet_form, str_len. split.
  - destruct p as [|h [|l [|x p]]]; cbn [fmap list_fmap zsum foldr].
    + done.
    + intros H. destruct (char_len h + 0 =? 2) eqn:E; [|done]. cbn [negb] in H. unfold from_str_radix in H. unfold char_len in E.
      destruct (hex_digit h) as [v|] eqn:Ev; [apply hex_digit_range in Ev; rewrite (proj2 (Z.ltb_lt h 128)) in E by lia; done|].
      destruct (h =? 43); cbn in H; [done|]. by rewrite Ev in H.
    + intros H. destruct (negb _); [done|]. exists h, l. split; [done|]. destruct (decide (h = 43)) as [->|Hh].
      * rewrite radix_plus in H. right. split; [done|]. destruct (hex_digit l); cbn in H; by simplify_eq.
      * rewrite radix_two in H by done. destruct (hex_digit h) as [vh|]; [|done]. destruct (hex_digit l) as [vl|]; [|done]. cbn in H. simplify_eq. left. eauto.
    + pose proof (char_len_pos h). pose proof (char_len_pos l). pose proof (char_len_pos x). fold (zsum (char_len <$> p)).
      assert (0 <= zsum (char_len <$> p)) by (apply zsum_nonneg, Forall_fmap, Forall_forall; intros y _; cbn; pose proof (char_len_pos y); lia).
      destruct (Z.eqb_spec (char_len h + (char_len l + (char_len x + zsum (char_len <$> p)))) 2); [lia|done].
  - intros (h & l & -> & Hb). cbn [fmap list_fmap zsum foldr]. unfold char_len.
    assert (Hr : 43 <= h <= 102 /\ 43 <= l <= 102) by (destruct Hb as [(x & y & Hx%hex_digit_range & Hy%hex_digit_range & _)|[-> Hl%hex_digit_range]]; lia).
    rewrite (proj2 (Z.ltb_lt h 128)), (proj2 (Z.ltb_lt l 128)) by lia. cbn [Z.add Pos.add Z.eqb Pos.eqb negb].
    destruct Hb as [(x & y & Hx & Hy & ->)|[-> Hl]]; [|by rewrite radix_plus, Hl].
    rewrite radix_two, Hx, Hy by (intros ->; by vm_compute in Hx). done.
Qed.

Lemma parse_octets_spec ps bs : parse_octets ps = Ok bs <-> Forall2 octet_form ps bs.
Proof.
  revert bs. induction ps as [|p ps IH]; intros bs; cbn [parse_octets]; [split; [intros [= <-]; constructor|intros H; by inversion H]|]. split.
  - destruct (parse_octet p) as [b| |] eqn:Eb; [|done..]. apply parse_octet_spec in Eb. cbn [mbind res_bind]. destruct (parse_octets ps) as [bs'| |] eqn:E; [|done..].
    intros [= <-]. constructor; [done|]. by apply IH.
  - intros H. inversion H as [|? b ? bs' Hb Hbs]; subst. apply parse_octet_spec in Hb. apply IH in Hbs. by rewrite Hb; cbn; rewrite Hbs.
Qed.

Lemma octets_free ps bs sep : Forall2 octet_form ps bs -> hex_digit sep = None -> sep <> 43 -> Forall (fun p => sep ∉ p) ps.
Proof.
  intros Hf Hs Hp. induction Hf as [|p b ps bs (h & l & -> & Hb) Hf IH]; constructor; [|done].
  rewrite !elem_of_cons. intros [->|[->|[]%not_elem_of_nil]]; destruct Hb as [(x & y & ? & ? & _)|[? ?]]; congruence.
Qed.

Lemma parse_mac_spec s bytes : parse_mac s = Ok bytes <-> mac_form s bytes.
Proof.
  unfold parse_mac, mac_form. split.
  - intros H. assert (Hsep : exists sep, (sep = 58 \/ sep = 45) /\ (if negb (Z.of_nat (length (split sep s)) =? 6) then Err (OctetCount (Z.of_nat (length (split sep s)))) else parse_octets (split sep s)) = Ok bytes)
      by (repeat case_bool_decide; cbn [mbind res_bind] in H; [exists 58; auto|exists 45; auto|done]).
    destruct Hsep as (sep & Hs & Hp). destruct (Z.eqb_spec (Z.of_nat (length (split sep s))) 6); cbn [negb] in Hp; [|done].
    exists sep, (split sep s). split_and!; [done|by rewrite join_split|lia|by apply parse_octets_spec].
  - intros (sep & parts & Hsep & -> & Hl & Hf).
    assert (Hin : sep ∈ join sep parts) by (apply elem_of_join; right; split; [done|lia]).
    assert (Hfree : forall x, x = 58 \/ x = 45 -> Forall (fun p => x ∉ p) parts) by (intros x Hx; apply (octets_free parts bytes); [done|destruct Hx as [-> | ->]; done|destruct Hx; lia]).
    assert (Hsel : (if bool_decide (58 ∈ join sep parts) then Ok 58 else if bool_decide (45 ∈ join sep parts) then Ok 45 else Err NoSeparator) = (Ok sep : res mac_error Z)).
    { destruct Hsep as [-> | ->]; [by rewrite bool_decide_eq_true_2|]. rewrite bool_decide_eq_false_2, bool_decide_eq_true_2; [done|done|].
      intros [(p & Hp & Hx)|[? _]]%elem_of_join; [|done]. specialize (Hfree 58 (or_introl eq_refl)). rewrite Forall_forall in Hfree. by apply (Hfree p). }
    rewrite Hsel. cbn [mbind res_bind]. rewrite split_join by (auto; by intros ->). rewrite Hl. cbn [Z.of_nat negb]. by apply parse_octets_spec.
Qed.

Lemma parse_mac_no_panic s : parse_mac s <> Panic.
Proof.
  unfold parse_mac. assert (Ho : forall ps, parse_octets ps <> Panic).
  { induction ps as [|p ps IH]; [done|]. cbn. unfold parse_octet. destruct (negb _); [done|]. destruct (from_str_radix 16 255 p); [|done]. cbn. by destruct (parse_octets ps). }
  repeat case_bool_decide; cbn [mbind res_bind]; [destruct (negb _); [done|apply Ho]..|done].
Qed.

Lemma guest_macs_nil c : NoDup (guest c).*1 -> validate_guest_macs c = [] <->
  (forall id g m, (id, g) ∈ guest c -> mac g = Some m -> exists bytes, mac_form m bytes /\ (bytes !!! 0%nat) .& 1 = 0 /\ take 3 bytes ∉ HYPERVISOR_OUIS) /\
  (forall id g m id' g' m' bytes, (id, g) ∈ guest c -> (id', g') ∈ guest c -> mac g = Some m -> mac g' = Some m' -> mac_form m bytes -> mac_form m' bytes -> id = id').
Proof.
  intros Hk. unfold validate_guest_macs. rewrite app_nil, (shared_nil _ (fun bytes ids => MacShared (format_mac bytes) (sort_strs ids))), bind_nil.
  set (key := fun g => m ← mac g; ok (parse_mac m)).
  rewrite (omap_ext' _ (fun g => k ← key g.2; Some (k, g.1))) by (intros [id g]; unfold key; cbn; by destruct (mac g)). rewrite keyed_unique by done. f_equiv.
  - assert (Hr : forall m, mac_rejection_reason m = None <-> exists bytes, mac_form m bytes /\ (bytes !!! 0%nat) .& 1 = 0 /\ take 3 bytes ∉ HYPERVISOR_OUIS).
    { intros m. unfold mac_rejection_reason, is_hypervisor_oui. setoid_rewrite <- parse_mac_spec. destruct (parse_mac m) as [bytes|e|] eqn:E.
      - destruct (Z.eqb_spec ((bytes !!! 0%nat) .& 1) 0); cbn [negb]; [case_bool_decide|]; naive_solver.
      - naive_solver.
      - by apply parse_mac_no_panic in E. }
    split.
    + intros Hx id g m Hg Hm. specialize (Hx _ Hg). cbn in Hx. rewrite Hm in Hx. apply Hr. by destruct (mac_rejection_reason m).
    + intros Hx [id g] Hg. destruct (mac g) as [m|] eqn:Hm; [|done]. by rewrite (proj2 (Hr m)) by eauto.
  - unfold key. split.
    + intros Hu id g m id' g' m' bytes Hg Hg' Hm Hm' F1%parse_mac_spec F2%parse_mac_spec. apply (Hu id g id' g' bytes); [done..|by rewrite Hm; cbn; rewrite F1|by rewrite Hm'; cbn; rewrite F2].
    + intros Hu id g id' g' bytes Hg Hg' K1 K2. destruct (mac g) as [m|] eqn:Hm; [|done]. destruct (mac g') as [m'|] eqn:Hm'; [|done]. cbn in K1, K2.
      apply (Hu id g m id' g' m' bytes); try done; apply parse_mac_spec; [destruct (parse_mac m)|destruct (parse_mac m')]; cbn in *; congruence.
Qed.

(** ** The rest of the checks *)

(** Another element of the list satisfies [P], besides the one at [i]. *)
Lemma filter_two {A} (P : A -> Prop) `{forall x, Decision (P x)} (l : list A) i x : l !! i = Some x -> P x ->
  (2 <= length (filter P l))%nat <-> exists j y, j <> i /\ l !! j = Some y /\ P y.
Proof.
  intros Hi Hx. pose proof (take_drop_middle l i x Hi) as Hl. rewrite <- Hl at 1. rewrite filter_app, filter_cons_True, length_app by done. cbn [length].
  assert (Hp : (2 <= length (filter P (take i l)) + S (length (filter P (drop (S i) l))))%nat <-> (exists y, y ∈ filter P (take i l)) \/ (exists y, y ∈ filter P (drop (S i) l))).
  { destruct (filter P (take i l)) as [|a la] eqn:E1; destruct (filter P (drop (S i) l)) as [|b lb] eqn:E2; cbn; split; try lia; [intros [[y Hy]|[y Hy]]; by apply not_elem_of_nil in Hy|intros _; right; exists b; set_solver|intros _; left; exists a; set_solver|intros _; left; exists a; set_solver]. }
  rewrite Hp. setoid_rewrite list_elem_of_filter. split.
  - intros [(y & Py & [j Hj]%list_elem_of_lookup)|(y & Py & [j Hj]%list_elem_of_lookup)].
    + apply lookup_take_Some in Hj as [Hj ?]. exists j, y. split_and!; [lia|done|done].
    + rewrite lookup_drop in Hj. exists (S i + j)%nat, y. split_and!; [lia|done|done].
  - intros (j & y & Hji & Hj & Py). destruct (decide (j < i)%nat).
    + left. exists y. split; [done|]. apply list_elem_of_lookup. exists j. by apply lookup_take_Some.
    + right. exists y. split; [done|]. apply list_elem_of_lookup. exists (j - S i)%nat. rewrite lookup_drop. by replace (S i + (j - S i))%nat with j by lia.
Qed.

Abbreviation mount := (fun '(count, writable, ids) '(ro, id) => (count + 1, writable || negb ro, ids ++ [id])) (only parsing).

Lemma mount_fold (l : list (bool * str)) (n : Z) w (ids : list str) :
  foldl mount (n, w, ids) l = (n + Z.of_nat (length l), w || existsb (fun x => negb x.1) l, ids ++ l.*2).
Proof.
  revert n w ids. induction l as [|[ro id] l IH]; intros n w ids; cbn [foldl length existsb fmap list_fmap fst snd]; [by rewrite Z.add_0_r, orb_false_r, app_nil_r|].
  rewrite IH, <- orb_assoc, <- app_assoc. cbn. do 2 f_equal. lia.
Qed.

Lemma shared_disks_nil c : validate_shared_disks c = [] <->
  forall i j d d', all_disks c !! i = Some d -> all_disks c !! j = Some d' -> i <> j -> components (disk_path d) = components (disk_path d') -> readonly d = true.
Proof.
  unfold validate_shared_disks. rewrite bind_nil. set (L := guest c ≫= _). set (key := fun d => components (disk_path d)).
  assert (HL : forall k, length (values_of k L) = length (filter (fun d => key d = k) (all_disks c)) /\
                         (existsb (fun x => negb x.1) (values_of k L) = true <-> exists d, d ∈ all_disks c /\ key d = k /\ readonly d = false)).
  { intros k. assert (Hm : (values_of k L).*1 = readonly <$> filter (fun d => key d = k) (all_disks c)).
    { unfold L, values_of, all_disks. induction (guest c) as [|[id g] gs IH]; [done|]. change (((id, g) :: gs) ≫= (fun g => disks g.2)) with (disks g ++ (gs ≫= fun g => disks g.2)).
      cbn [mbind list_bind]. rewrite !filter_app, !fmap_app. f_equal; [|apply IH]. clear. induction (disks g) as [|d ds IH]; [done|]. cbn [fmap list_fmap]. rewrite !filter_cons. cbn [fst]. fold (key d).
      case_decide; cbn [fmap list_fmap]; [f_equal|]; apply IH. }
    split; [by rewrite <- (length_fmap fst (values_of k L)), Hm, length_fmap|]. rewrite existsb_exists. split.
    - intros (x & Hx%list_elem_of_In & Hn). assert (Hin : x.1 ∈ (values_of k L).*1) by by apply list_elem_of_fmap_2. rewrite Hm in Hin. apply list_elem_of_fmap in Hin as (d & Hd & [Hkd Hin]%list_elem_of_filter).
      exists d. split_and!; [done..|]. destruct x.1; [done|by rewrite Hd].
    - intros (d & Hd & Hkd & Hr). assert (Hin : readonly d ∈ (values_of k L).*1) by (rewrite Hm; apply list_elem_of_fmap_2, list_elem_of_filter; done).
      apply list_elem_of_fmap in Hin as (x & Hx & Hin). exists x. split; [by apply list_elem_of_In|]. by rewrite <- Hx, Hr. }
  split.
  - intros Hm i j d d' Hi Hj Hij Hk. destruct (readonly d) eqn:Hr; [done|]. exfalso. specialize (HL (key d)) as [HL1 HL2].
    assert (H2 : (2 <= length (values_of (key d) L))%nat) by (rewrite HL1; apply (filter_two _ _ i d); [done..|]; exists j, d'; done).
    specialize (Hm (key d, foldl mount (0, false, []) (values_of (key d) L))). rewrite elem_of_map_to_list, lookup_accumulate, decide_False in Hm by (intros E; rewrite E in H2; cbn in H2; lia).
    specialize (Hm eq_refl). rewrite mount_fold, push_if_nil, andb_false_iff, Z.leb_gt in Hm. destruct Hm as [Hm|Hm]; [lia|]. cbn [orb] in Hm.
    rewrite (proj2 HL2) in Hm; [done|]. exists d. split_and!; [|done..]. apply list_elem_of_lookup. eauto.
  - intros Hu [k [[n w] ids]]. rewrite elem_of_map_to_list, lookup_accumulate. case_decide as Hv; [done|]. rewrite mount_fold. intros [= <- <- _]. cbn [orb].
    rewrite push_if_nil. apply andb_false_iff. destruct (HL k) as [HL1 HL2]. destruct (existsb _ _) eqn:E; [|by right]. left. apply Z.leb_gt.
    destruct (proj1 HL2 eq_refl) as (d & [i Hi]%list_elem_of_lookup & Hkd & Hr). destruct (decide (2 <= length (values_of k L))%nat) as [H2|]; [|lia]. exfalso.
    rewrite HL1 in H2. destruct (proj1 (filter_two _ _ i d Hi Hkd) H2) as (j & d' & Hji & Hj & Hk'). rewrite (Hu i j d d') in Hr; try done. unfold key in *. congruence.
Qed.

Lemma log_level_nil c : validate_log_level c = [] <-> exists level, level ∈ VALID_LOG_LEVELS /\ eq_ignore_ascii_case (trim (log_level (hypervisor c))) level = true.
Proof. unfold validate_log_level. cbv zeta. rewrite push_if_nil, negb_false_iff, existsb_exists. by setoid_rewrite <- list_elem_of_In. Qed.

Lemma serial_nil c : validate_serial c = [] <-> forall id g, (id, g) ∈ guest c ->
  trim (ser_output (serial g)) ∈ [lit "stdout"; lit "pty"; lit "null"] \/ exists path, trim (ser_output (serial g)) = lit "file:" ++ path /\ trim path <> [].
Proof.
  unfold validate_serial. rewrite bind_nil.
  assert (Hv : forall id out, (if negb (bool_decide (out ∈ [lit "stdout"; lit "pty"; lit "null"]) || match strip_prefix (lit "file:") out with Some path => negb (bool_decide (trim path = [])) | None => false end) then [SerialOutput id out] else []) = [] <->
            out ∈ [lit "stdout"; lit "pty"; lit "null"] \/ exists path, out = lit "file:" ++ path /\ trim path <> []).
  { intros id out. rewrite push_if_nil, negb_false_iff, orb_true_iff, bool_decide_eq_true. f_equiv. setoid_rewrite <- strip_prefix_spec. destruct (strip_prefix _ out) as [path|].
    - rewrite negb_true_iff, bool_decide_eq_false. split; [eauto|]. by intros (? & [= <-] & ?).
    - split; [done|]. by intros (? & ? & _). }
  split; [intros Hx id g Hg; by apply (Hv id), (Hx (id, g))|]. intros Hx [id g] Hg. by apply Hv, (Hx id g).
Qed.

Lemma firmware_nil c : validate_guest_firmware c = [] <-> forall id g f, (id, g) ∈ guest c -> firmware g = Some f ->
  fw_code f <> [] /\ fw_vars f <> [] /\ components (fw_code f) <> components (fw_vars f).
Proof.
  unfold validate_guest_firmware. rewrite bind_nil. split.
  - intros Hx id g f Hg Hf. specialize (Hx _ Hg). cbn in Hx. rewrite Hf, !app_nil, !push_if_nil, andb_false_iff, negb_false_iff, !bool_decide_eq_false, bool_decide_eq_true in Hx.
    destruct Hx as (H1 & H2 & [H3|H3]); done.
  - intros Hx [id g] Hg. destruct (firmware g) as [f|] eqn:Hf; [|done]. destruct (Hx id g f Hg Hf) as (H1 & H2 & H3).
    by rewrite !app_nil, !push_if_nil, andb_false_iff, negb_false_iff, !bool_decide_eq_false, bool_decide_eq_true; auto.
Qed.

(** ** The theorems *)

Lemma validate_config_nil c : config_wf c -> validate_config c = Ok [] <-> valid_config c.
Proof.
  intros Hw. pose proof (cw_keys c Hw) as Hk. unfold validate_config.
  assert (Hm : forall before after, (memory ← validate_memory c; Ok (before ++ memory ++ after)) = (Ok [] : res Empty_set (list config_error)) <-> before = [] /\ validate_memory c = Ok [] /\ after = []).
  { intros before after. destruct (validate_memory c) as [m| |]; cbn; [|naive_solver..]. split.
    - intros [= H]. rewrite !app_nil in H. destruct H as (-> & -> & ->). done.
    - intros (-> & [= ->] & ->). done. }
  cbv zeta. rewrite Hm, !app_nil, cpu_isolation_nil, usb_routing_nil, usb_vfio_nil, gpu_nil, memory_nil, guest_names_nil, log_level_nil, serial_nil, guest_macs_nil, shared_disks_nil, firmware_nil, !push_if_nil, Z.eqb_neq, bool_decide_eq_false by done.
  split; [intros H; decompose [and] H; by constructor|]. intros [Hc He Hd Hr Hv (G1 & G2 & G3 & G4) Hp Ht Hme Hh Hgm Hn Hnu Hl Hs Hma Hmu Hdi Hpo Hso Hf].
  repeat match goal with |- _ /\ _ => split end; assumption.
Qed.

(** A host of two guests: one with cores and an image of its own, one that is
    time-sliced; both read the same firmware and carry MAC addresses. *)
Definition sample_guest (name : string) (cs : list Z) (mode : SchedulingMode) (ds : list DiskConfig) (m : option str) : GuestConfig :=
  mkGuest (lit name) cs 2048 None None (lit "console=ttyS0") mode ds SerialPortConfig_default m (Some (mkFirmware (lit "OVMF_CODE.fd") (lit "OVMF_VARS.fd"))).
Definition sample_config : EnlilConfig :=
  mkConfig (mkHypervisor 512 16384 (lit " Info") 9100)
    [(lit "vm1", sample_guest "desk" [0; 1] Dedicated [mkDisk (lit "/img/a.img") false; mkDisk (lit "/img/iso") true] (Some (lit "de:ad:be:ef:00:01")));
     (lit "vm2", sample_guest "lab" [2] Timeslice [mkDisk (lit "/img//iso") true] (Some (lit "DE-AD-BE-EF-00-02")))]
    (mkUsb (Some (lit "vm1")) [mkUsbRule (lit "046d:c52b") (lit "vm2") 10; mkUsbRule (lit "class:hid") (lit "vm1") 1000]
       (Some (mkVfio true (lit " 0000:03:00.0") (lit "vm1") false)))
    (mkGpu (Some GpuPassthrough) (Some (mkGpuPassthrough (lit "0000:01:00.0") (lit "vm2") None)) None None).

Lemma sample_config_wf : config_wf sample_config.
Proof.
  split; [apply (bool_decide_unpack _); by vm_compute| |done]. intros id g Hg. cbn in Hg. repeat (apply elem_of_cons in Hg as [[= -> ->]|Hg]; [done|]). by apply not_elem_of_nil in Hg.
Qed.

(** C13: [load_config] returns the configuration the file describes exactly when
    it is valid, for any file system and any TOML parser: the maps the checks
    fill, the two passes over the cores and the order of the checks amount to
    the rules of [valid_config], among them that a core of a guest that is not
    time-sliced is no other guest's, that the memory of the guests fits the
    host, that names and MAC addresses are distinct, and that an image mounted
    twice is mounted read-only. *)
Theorem config_loaded read_to_string from_str path c : config_wf c ->
  load_config read_to_string from_str path = Ok c <->
  exists content, read_to_string path = Some content /\ from_str content = Some c /\ valid_config c.
Proof.
  intros Hw. unfold load_config. destruct (read_to_string path) as [content|]; cbn; [|split; [done|naive_solver]]. destruct (from_str content) as [c'|] eqn:Ef; cbn; [|split; [done|naive_solver]].
  split.
  - destruct (validate_config c') as [errors|e|] eqn:Ev; [|done..]. case_bool_decide; [|done]. intros [= ->]. subst errors. exists content. split_and!; [done..|]. by apply validate_config_nil.
  - intros (content' & [= <-] & Hf & Hv). rewrite Ef in Hf. injection Hf as ->. apply (validate_config_nil c Hw) in Hv. by rewrite Hv.
Qed.

Lemma config_loaded_witness : config_wf sample_config /\ valid_config sample_config.
Proof.
  split; [apply sample_config_wf|].
  destruct (proj1 (config_loaded (fun _ => Some []) (fun _ => Some sample_config) (lit "enlil.toml") sample_config sample_config_wf)) as (content & _ & _ & Hv); [by vm_compute|exact Hv].
Defined.

(** C39: On a configuration whose memory sizes add up past [u64] the validation
    does not report the excess, it panics; it panics on no other. *)
Theorem config_memory_overflow c : config_wf c -> validate_config c = Panic <-> 2 ^ 64 <= guest_memory c + reserved_memory_mb (hypervisor c).
Proof.
  intros Hw. unfold validate_config. cbv zeta. rewrite validate_memory_run by done. destruct (Z.ltb_spec (guest_memory c + reserved_memory_mb (hypervisor c)) (2 ^ 64)); cbn; split; try done; lia.
Qed.

Definition overflow_config : EnlilConfig :=
  mkConfig HypervisorConfig_default
    [(lit "vm1", mkGuest (lit "desk") [0] (2 ^ 64 - 512) None None [] Auto [] SerialPortConfig_default None None)]
    (mkUsb None [] None) (mkGpu None None None None).

Lemma config_memory_overflow_witness : config_wf overflow_config /\ validate_config overflow_config = Panic.
Proof.
  assert (Hw : config_wf overflow_config).
  { split; [apply (bool_decide_unpack _); by vm_compute| |done]. intros id g [[= -> ->]|Hg]%elem_of_cons; [done|by apply not_elem_of_nil in Hg]. }
  split; [done|]. apply (config_memory_overflow overflow_config Hw). by vm_compute.
Defined.

Lemma hex_char_digit v : 0 <= v < 16 -> hex_digit (hex_char v) = Some v.
Proof. intros Hv. unfold hex_digit, hex_char. destruct (Z.ltb_spec v 10); repeat (case_match; breflect; try lia); f_equal; lia. Qed.

(** A MAC address is read back from the form the messages print it in, and
    what is read is a text of six octets with one separator, each octet two
    hexadecimal digits or a plus sign and one of them. *)
Theorem mac_roundtrip bytes : length bytes = 6%nat -> Forall (fits 8) bytes ->
  parse_mac (format_mac bytes) = Ok bytes /\ (forall s, parse_mac s = Ok bytes <-> mac_form s bytes).
Proof.
  intros Hl Hb. split; [|intros s; apply parse_mac_spec]. apply parse_mac_spec. exists 58. eexists. split_and!; [by left|done|by rewrite length_fmap|].
  clear Hl. induction Hb as [|b bytes Hb Hbs IH]; [constructor|]. cbn [fmap list_fmap]. constructor; [|done]. unfold fits in Hb.
  exists (hex_char (b / 16)), (hex_char (b mod 16)). split; [done|]. left. exists (b / 16), (b mod 16).
  split_and!; [apply hex_char_digit; split; [apply Z.div_pos; lia|apply Z.div_lt_upper_bound; lia]|apply hex_char_digit, Z.mod_pos_bound; lia|].
  rewrite Z.mul_comm. apply Z.div_mod. lia.
Qed.

Lemma mac_roundtrip_witness :
  parse_mac (lit "de:ad:be:ef:00:01") = Ok [0xDE; 0xAD; 0xBE; 0xEF; 0; 1] /\ mac_form (lit "DE-AD-BE-EF-00-+1") [0xDE; 0xAD; 0xBE; 0xEF; 0; 1].
Proof.
  assert (Hb : Forall (fits 8) [0xDE; 0xAD; 0xBE; 0xEF; 0; 1]) by (repeat (apply Forall_cons_2; [done|]); constructor).
  destruct (mac_roundtrip [0xDE; 0xAD; 0xBE; 0xEF; 0; 1] eq_refl Hb) as [H1 H2]. split; [exact H1|]. apply H2. by vm_compute.
Defined.
