(* ===== verification/UsbRouting.v ===== *)
(** * USB routing

    The routing engine of [enlil-devices/src/usb/routing.rs] over the device
    identities of [usb/types.rs], and the adapter of [enlil-core/src/usb_routing.rs]
    that builds its table from the configuration: rules in the order of their
    priority, the first enabled match decides, and a validated configuration
    routes to no guest it does not define. *)

From Stdlib Require Import ZArith Lia Bool String.
From stdpp Require Import base decidable list numbers sets gmap sorting.
From S2P Require Import Prelude Rust Str Config ConfigValid.

(** ** types.rs *)

Inductive DeviceSpeed := Low | Full | High | Super | SuperPlus.
#[export] Instance DeviceSpeed_eq_dec : EqDecision DeviceSpeed := ltac:(solve_decision).

Definition xhci_speed_id (s : DeviceSpeed) : Z :=
  match s with Full => 1 | Low => 2 | High => 3 | Super => 4 | SuperPlus => 5 end.
Definition is_superspeed (s : DeviceSpeed) : bool := match s with Super | SuperPlus => true | _ => false end.

Inductive UsbDeviceClass := PerInterface | Audio | Cdc | Hid | Physical | Image | Printer | MassStorage | Hub | VendorSpecific | Other (code : Z).
#[export] Instance UsbDeviceClass_eq_dec : EqDecision UsbDeviceClass := ltac:(solve_decision).

Definition from_code (code : Z) : UsbDeviceClass :=
  if code =? 0 then PerInterface else if code =? 1 then Audio else if code =? 2 then Cdc else if code =? 3 then Hid
  else if code =? 5 then Physical else if code =? 6 then Image else if code =? 7 then Printer else if code =? 8 then MassStorage
  else if code =? 9 then Hub else if code =? 0xFF then VendorSpecific else Other code.
Definition class_code (c : UsbDeviceClass) : Z :=
  match c with
  | PerInterface => 0 | Audio => 1 | Cdc => 2 | Hid => 3 | Physical => 5 | Image => 6 | Printer => 7 | MassStorage => 8
  | Hub => 9 | VendorSpecific => 0xFF | Other c => c
  end.

Record UsbDeviceId := mkDeviceId {
  vendor_id : Z;
  product_id : Z;
  dev_serial : option str;
  port_path : option str;
  class : UsbDeviceClass;
  speed : DeviceSpeed;
  manufacturer : option str;
  product : option str }.

(** ** routing.rs *)

Inductive DeviceMatcher :=
  | VidPid (vendor product : Z)
  | VendorOnly (vendor : Z)
  | PortPath (path : str)
  | Serial (serial : str)
  | DeviceClass (c : UsbDeviceClass)
  | AnyDevice.

Definition matches (m : DeviceMatcher) (device : UsbDeviceId) : bool :=
  match m with
  | VidPid vendor product => (vendor_id device =? vendor) && (product_id device =? product)
  | VendorOnly vendor => vendor_id device =? vendor
  | PortPath path => bool_decide (port_path device = Some path)
  | Serial serial => bool_decide (dev_serial device = Some serial)
  | DeviceClass c => bool_decide (class device = c)
  | AnyDevice => true
  end.

Record RoutingRule := mkRule { rule_id : Z; priority : Z; matcher : DeviceMatcher; target : str; enabled : bool }.
Inductive RoutingDecision := RouteToGuest (guest : str) | Unassigned.
Record RoutingTable := mkTable { rules : list RoutingRule; table_default : option str; next_id : Z }.

Definition RoutingTable_new : RoutingTable := mkTable [] None 1.
Definition set_default_guest (t : RoutingTable) (guest : option str) : RoutingTable := mkTable (rules t) guest (next_id t).

Inductive RoutingError := RuleNotFound (id : Z) | DeviceNotAssigned (bus_addr : Z).

(** [partition_point] of a list the predicate splits, and [insert] there. *)
Fixpoint partition_point {A} (p : A -> bool) (l : list A) : nat :=
  match l with
  | x :: l' => if p x then S (partition_point p l') else O
  | [] => O
  end.
Definition insert_at {A} (i : nat) (x : A) (l : list A) : list A := take i l ++ x :: drop i l.

(** [self.next_id += 1] overflows after [u32::MAX] rules. *)
Definition add_rule (t : RoutingTable) (prio : Z) (m : DeviceMatcher) (tgt : str) : res RoutingError (RoutingTable * Z) :=
  let id := next_id t in
  if 2 ^ 32 <=? id + 1 then Panic else
  let rule := mkRule id prio m tgt true in
  let pos := partition_point (fun r => priority r <? prio) (rules t) in
  Ok (mkTable (insert_at pos rule (rules t)) (table_default t) (id + 1), id).

Definition remove_rule (t : RoutingTable) (id : Z) : RoutingTable * option RoutingRule :=
  match list_find (fun r => rule_id r = id) (rules t) with
  | Some (pos, r) => (mkTable (delete pos (rules t)) (table_default t) (next_id t), Some r)
  | None => (t, None)
  end.

Definition set_rule_enabled (t : RoutingTable) (id : Z) (on : bool) : RoutingTable * res RoutingError unit :=
  match list_find (fun r => rule_id r = id) (rules t) with
  | Some (pos, r) => (mkTable (<[pos := mkRule (rule_id r) (priority r) (matcher r) (target r) on]> (rules t)) (table_default t) (next_id t), Ok tt)
  | None => (t, Err (RuleNotFound id))
  end.

Fixpoint route_rules (rs : list RoutingRule) (device : UsbDeviceId) : option str :=
  match rs with
  | [] => None
  | rule :: rs' => if enabled rule && matches (matcher rule) device then Some (target rule) else route_rules rs' device
  end.
Definition route (t : RoutingTable) (device : UsbDeviceId) : RoutingDecision :=
  match route_rules (rules t) device with
  | Some guest => RouteToGuest guest
  | None => match table_default t with Some guest => RouteToGuest guest | None => Unassigned end
  end.

(** The state behind the lock of [RoutingState]. *)
Record RoutingState := mkRouting { assignments : gmap Z str; table : RoutingTable }.
Definition RoutingState_new (t : RoutingTable) : RoutingState := mkRouting ∅ t.

Definition assign_device (s : RoutingState) (bus_addr : Z) (device : UsbDeviceId) : RoutingState * RoutingDecision :=
  let decision := route (table s) device in
  match decision with
  | RouteToGuest guest => (mkRouting (<[bus_addr := guest]> (assignments s)) (table s), decision)
  | Unassigned => (s, decision)
  end.
Definition reassign_device (s : RoutingState) (bus_addr : Z) (new_guest : str) : RoutingState * res RoutingError str :=
  (mkRouting (<[bus_addr := new_guest]> (assignments s)) (table s), ok_or (assignments s !! bus_addr) (DeviceNotAssigned bus_addr)).
Definition unassign_device (s : RoutingState) (bus_addr : Z) : RoutingState * option str :=
  (mkRouting (delete bus_addr (assignments s)) (table s), assignments s !! bus_addr).

Definition parse_vid_pid (s : str) : option (Z * Z) :=
  match split 58 s with
  | [a; b] => vid ← from_str_radix 16 65535 a; pid ← from_str_radix 16 65535 b; Some (vid, pid)
  | _ => None
  end.

(** ** The adapter of enlil-core *)

Inductive adapter_error :=
  | RuleMatch (i : nat) (e : usb_match_error)
  | RuleClass (i : nat) (token : str)
  | MissingControllers (guests : list str).

Definition device_class_from_token (token : str) : option UsbDeviceClass :=
  let normalized := to_ascii_lowercase (trim token) in
  let named s := bool_decide (normalized = s) in
  if named (lit "per-interface") || named (lit "perinterface") then Some PerInterface
  else if named (lit "audio") then Some Audio
  else if named (lit "cdc") || named (lit "comm") || named (lit "communications") then Some Cdc
  else if named (lit "hid") then Some Hid
  else if named (lit "physical") then Some Physical
  else if named (lit "image") then Some Image
  else if named (lit "printer") then Some Printer
  else if named (lit "mass-storage") || named (lit "massstorage") || named (lit "storage") || named (lit "msc") then Some MassStorage
  else if named (lit "hub") then Some Hub
  else if named (lit "vendor") || named (lit "vendor-specific") || named (lit "vendorspecific") then Some VendorSpecific
  else
    code ← match (hex ← strip_prefix (lit "0x") normalized; from_str_radix 16 255 hex) with
           | Some code => Some code
           | None => from_str_radix 10 255 normalized
           end;
    Some (from_code code).

Definition matcher_from_kind (i : nat) (kind : UsbMatchKind) : res adapter_error DeviceMatcher :=
  match kind with
  | KVidPid vendor product => Ok (VidPid vendor product)
  | KVendorOnly vendor => Ok (VendorOnly vendor)
  | KPortPath path => Ok (PortPath path)
  | KSerial serial => Ok (Serial serial)
  | KDeviceClass name => c ← ok_or (device_class_from_token name) (RuleClass i name); Ok (DeviceClass c)
  | KAny => Ok AnyDevice
  end.

Fixpoint add_rules (i : nat) (rs : list UsbRoutingRule) (t : RoutingTable) : res adapter_error RoutingTable :=
  match rs with
  | [] => Ok t
  | rule :: rs' =>
      match parse_usb_match (match_spec rule) with
      | Ok kind =>
          m ← matcher_from_kind i kind;
          match add_rule t (ur_priority rule) m (ur_target rule) with
          | Ok (t', _) => add_rules (S i) rs' t'
          | _ => Panic
          end
      | Err e => Err (RuleMatch i e)
      | Panic => Panic
      end
  end.
Definition routing_table_from_config (u : UsbConfig) : res adapter_error RoutingTable :=
  add_rules 0 (routing u) (set_default_guest RoutingTable_new (default_guest u)).

(** [dedup] of a sorted vector: of equal neighbours the first stays. *)
Fixpoint dedup (l : list str) : list str :=
  match l with
  | x :: ((y :: _) as l') => if bool_decide (x = y) then dedup l' else x :: dedup l'
  | _ => l
  end.
Definition routing_targets (u : UsbConfig) : res adapter_error (list str) :=
  t ← routing_table_from_config u;
  Ok (dedup (sort_strs ((target <$> rules t) ++ option_list (table_default t)))).

Record VfioFallbackPolicy := mkPolicy { po_bdf : str; po_target_guest : str; po_allow_unstable_flr : bool }.
Definition vfio_fallback_policy_from_config (u : UsbConfig) : option VfioFallbackPolicy :=
  f ← vfio_fallback u;
  if negb (vf_enabled f) then None else Some (mkPolicy (vf_bdf f) (vf_target_guest f) (vf_allow_unstable_flr f)).

(** ** Rules in order *)

(** A rule comes before another when its priority is less, or equal and the
    rule is the later one. *)
Definition before (r r' : RoutingRule) : Prop := priority r < priority r' \/ (priority r = priority r' /\ rule_id r' < rule_id r).

Record table_wf (t : RoutingTable) : Prop := {
  tw_sorted : StronglySorted before (rules t);
  tw_ids : forall r, r ∈ rules t -> 1 <= rule_id r < next_id t;
  tw_next : 1 <= next_id t < 2 ^ 32 }.

Lemma partition_point_before t prio m tgt : StronglySorted before (rules t) -> (forall r, r ∈ rules t -> rule_id r < next_id t) ->
  StronglySorted before (insert_at (partition_point (fun r => priority r <? prio) (rules t)) (mkRule (next_id t) prio m tgt true) (rules t)).
Proof.
  set (n := next_id t). generalize (rules t). intros l Hs Hid. unfold insert_at. induction Hs as [|r l Hs IH Hr]; cbn [partition_point].
  - repeat constructor.
  - destruct (Z.ltb_spec (priority r) prio); cbn [take drop app].
    + constructor; [apply IH; intros; apply Hid; set_solver|]. apply Forall_app. rewrite Forall_cons. split_and!.
      * by apply Forall_take.
      * left. cbn. lia.
      * by apply Forall_drop.
    + assert (Hle : forall r', r' ∈ r :: l -> before (mkRule n prio m tgt true) r').
      { rewrite Forall_forall in Hr. intros r' Hr'. specialize (Hid r' Hr'). unfold before. cbn. apply elem_of_cons in Hr' as [->|Hr']; [lia|]. specialize (Hr r' Hr'). unfold before in Hr. lia. }
      constructor; [by constructor|by apply Forall_forall].
Qed.

Lemma insert_at_perm {A} i (x : A) l : insert_at i x l ≡ₚ x :: l.
Proof. unfold insert_at. rewrite <- Permutation_middle. by rewrite take_drop. Qed.

Lemma add_rule_wf t prio m tgt t' id : table_wf t -> add_rule t prio m tgt = Ok (t', id) -> table_wf t'.
Proof.
  intros [Hs Hi Hn]. unfold add_rule. destruct (Z.leb_spec (2 ^ 32) (next_id t + 1)); [done|]. intros [= <- <-]. constructor; cbn [rules next_id]; [|..|lia].
  - apply partition_point_before; [done|]. intros r Hr. by apply Hi.
  - intros r. rewrite insert_at_perm. intros [->|Hr]%elem_of_cons; [cbn; lia|]. specialize (Hi r Hr). lia.
Qed.

Lemma sorted_sub {A} (R : A -> A -> Prop) l1 x l2 : StronglySorted R (l1 ++ x :: l2) -> StronglySorted R (l1 ++ l2).
Proof.
  induction l1 as [|y l1 IH]; cbn; intros Hs; inversion Hs as [|? ? Hs' Hf]; subst; [done|]. constructor; [by apply IH|]. rewrite Forall_app, Forall_cons in Hf. apply Forall_app. tauto.
Qed.

Lemma remove_rule_wf t id : table_wf t -> table_wf (remove_rule t id).1.
Proof.
  intros [Hs Hi Hn]. unfold remove_rule. destruct (list_find _ _) as [[pos r]|] eqn:E; [|done]. apply list_find_Some in E as (Hp & _ & _). constructor; cbn; [|..|done].
  - rewrite delete_take_drop. rewrite <- (take_drop_middle _ _ _ Hp) in Hs. by apply sorted_sub in Hs.
  - intros r' Hr'. apply Hi. rewrite delete_take_drop in Hr'. rewrite <- (take_drop_middle _ _ _ Hp). set_solver.
Qed.

Lemma sorted_map_same {A B} (R : A -> A -> Prop) (f : A -> B) (l l' : list A) :
  f <$> l = f <$> l' -> (forall x x' y y', f x = f y -> f x' = f y' -> R x x' -> R y y') -> StronglySorted R l -> StronglySorted R l'.
Proof.
  intros Hf HR Hs. revert l' Hf. induction Hs as [|x l Hs IH Hx]; intros [|y l'] Hf; try done; [constructor|]. cbn in Hf. injection Hf as Hxy Hl. constructor; [by apply IH|].
  apply Forall_forall. intros y' Hy'. assert (Hin : f y' ∈ f <$> l) by (rewrite Hl; by apply list_elem_of_fmap_2). apply list_elem_of_fmap in Hin as (x' & Hx' & Hin).
  rewrite Forall_forall in Hx. by apply (HR x x'), Hx.
Qed.

Lemma set_rule_enabled_wf t id on : table_wf t -> table_wf (set_rule_enabled t id on).1.
Proof.
  intros [Hs Hi Hn]. unfold set_rule_enabled. destruct (list_find _ _) as [[pos r]|] eqn:E; [|done]. apply list_find_Some in E as (Hp & _ & _). cbn [fst].
  assert (Hm : (fun r => (priority r, rule_id r)) <$> rules t = (fun r => (priority r, rule_id r)) <$> <[pos := mkRule (rule_id r) (priority r) (matcher r) (target r) on]> (rules t)).
  { rewrite list_fmap_insert. cbn. symmetry. apply list_insert_id. by rewrite list_lookup_fmap, Hp. }
  constructor; cbn [rules next_id]; [|..|done].
  - refine (sorted_map_same _ _ _ _ Hm _ Hs). intros x x' y y' [= ? ?] [= ? ?]. unfold before. lia.
  - intros r' Hr'. assert (Hin : (priority r', rule_id r') ∈ (fun r => (priority r, rule_id r)) <$> rules t) by (rewrite Hm; by apply (list_elem_of_fmap_2 (fun r => (priority r, rule_id r)))).
    apply list_elem_of_fmap in Hin as (r'' & [= _ Hid] & Hin). rewrite Hid. by apply Hi.
Qed.

(** The rule that decides: no other enabled match comes before it. *)
Definition decides (rs : list RoutingRule) (device : UsbDeviceId) (r : RoutingRule) : Prop :=
  r ∈ rs /\ enabled r = true /\ matches (matcher r) device = true /\
  forall r', r' ∈ rs -> enabled r' = true -> matches (matcher r') device = true -> r' = r \/ before r r'.

Lemma route_rules_spec rs device : StronglySorted before rs ->
  match route_rules rs device with
  | Some g => exists r, decides rs device r /\ target r = g
  | None => forall r, r ∈ rs -> enabled r && matches (matcher r) device = false
  end.
Proof.
  induction 1 as [|r rs Hs IH Hr]; cbn [route_rules]; [set_solver|]. destruct (enabled r && matches (matcher r) device) eqn:E.
  - apply andb_true_iff in E as [E1 E2]. exists r. split; [|done]. split_and!; [set_solver|done|done|]. intros r' [->|Hr']%elem_of_cons _ _; [by left|]. right. rewrite Forall_forall in Hr. by apply Hr.
  - destruct (route_rules rs device) as [g|].
    + destruct IH as (r0 & (Hin & He & Hm & Hall) & Ht). exists r0. split; [|done]. split_and!; [set_solver|done|done|]. intros r' [->|Hr']%elem_of_cons He' Hm'; [rewrite He', Hm' in E; done|by apply Hall].
    + intros r' [->|Hr']%elem_of_cons; [done|by apply IH].
Qed.

(** ** The table of a configuration *)

(** What a rule of the configuration matches. *)
Definition spec_matcher (rule : UsbRoutingRule) : option DeviceMatcher := kind ← ok (parse_usb_match (match_spec rule)); ok (matcher_from_kind 0 kind).

Lemma matcher_from_kind_index i kind m : matcher_from_kind i kind = Ok m -> ok (matcher_from_kind 0 kind) = Some m.
Proof. destruct kind; cbn; try congruence. destruct (device_class_from_token class0); cbn; congruence. Qed.

Record built (prefix : list UsbRoutingRule) (d : option str) (t : RoutingTable) : Prop := {
  bt_wf : table_wf t;
  bt_rules : forall r, r ∈ rules t <-> exists j rule m, prefix !! j = Some rule /\ spec_matcher rule = Some m /\ r = mkRule (Z.of_nat j + 1) (ur_priority rule) m (ur_target rule) true;
  bt_all : forall rule, rule ∈ prefix -> is_Some (spec_matcher rule);
  bt_next : next_id t = Z.of_nat (length prefix) + 1;
  bt_default : table_default t = d }.

Lemma add_rule_built prefix d t rule m t' id : built prefix d t -> spec_matcher rule = Some m ->
  add_rule t (ur_priority rule) m (ur_target rule) = Ok (t', id) -> built (prefix ++ [rule]) d t'.
Proof.
  intros [Hw Hr Ha Hn Hd] Hm Hadd. pose proof (add_rule_wf _ _ _ _ _ _ Hw Hadd) as Hw'. unfold add_rule in Hadd. destruct (_ <=? _); [done|]. injection Hadd as <- <-.
  constructor; cbn [rules next_id table_default] in *; [done| | |rewrite length_app; cbn; lia|done].
  - intros r. rewrite insert_at_perm, elem_of_cons, Hr. split.
    + intros [->|(j & cr & m' & Hj & Hm' & ->)]; [|exists j, cr, m'; split_and!; [by apply lookup_app_l_Some|done|done]].
      exists (length prefix), rule, m. split_and!; [by rewrite lookup_app_r, Nat.sub_diag|done|]. f_equal. lia.
    + intros (j & cr & m' & Hj & Hm' & ->). apply lookup_app_Some in Hj as [Hj|[Hj1 Hj2]]; [right; eauto 10|]. left. assert (j = length prefix) as -> by (apply lookup_lt_Some in Hj2; cbn in Hj2; lia).
      rewrite Nat.sub_diag in Hj2. injection Hj2 as <-. simplify_eq. f_equal. lia.
  - intros cr [Hc|[->|[]%not_elem_of_nil]%elem_of_cons]%elem_of_app; [by apply Ha|by exists m].
Qed.

Lemma add_rules_built prefix d rs t t' : built prefix d t -> add_rules (length prefix) rs t = Ok t' -> built (prefix ++ rs) d t'.
Proof.
  revert prefix t. induction rs as [|rule rs IH]; intros prefix t Hb; cbn [add_rules]; [intros [= <-]; by rewrite app_nil_r|].
  destruct (parse_usb_match (match_spec rule)) as [kind| |] eqn:Ek; [|done..]. destruct (matcher_from_kind (length prefix) kind) as [m| |] eqn:Em; [|done..]. cbn [mbind res_bind].
  destruct (add_rule t (ur_priority rule) m (ur_target rule)) as [[t1 id]| |] eqn:Eadd; [|done..]. intros Hrs. change (rule :: rs) with ([rule] ++ rs). rewrite app_assoc. apply (IH _ t1).
  - eapply add_rule_built; [done| |done]. unfold spec_matcher. rewrite Ek. cbn. by apply (matcher_from_kind_index (length prefix)).
  - rewrite length_app. cbn [length]. by replace (length prefix + 1)%nat with (S (length prefix)) by lia.
Qed.

Lemma config_built u t : routing_table_from_config u = Ok t -> built (routing u) (default_guest u) t.
Proof.
  intros H. apply (add_rules_built [] _ _ (set_default_guest RoutingTable_new (default_guest u))); [|done]. constructor; cbn; try done.
  - constructor; cbn; [constructor|set_solver|done].
  - intros r. split; [intros []%not_elem_of_nil|]. by intros (j & rule & m & Hj & _).
  - set_solver.
Qed.

(** ** What a configuration routes *)

(** Rule [i] of the configuration takes the device: it matches, and no other
    match has a lesser priority, or the same priority and a later place. *)
Definition takes (u : UsbConfig) (device : UsbDeviceId) (i : nat) (rule : UsbRoutingRule) : Prop :=
  routing u !! i = Some rule /\ (exists m, spec_matcher rule = Some m /\ matches m device = true) /\
  forall j rule' m', routing u !! j = Some rule' -> spec_matcher rule' = Some m' -> matches m' device = true ->
    ur_priority rule < ur_priority rule' \/ (ur_priority rule = ur_priority rule' /\ (j <= i)%nat).

(** Where the configuration sends a device. *)
Definition spec_route (u : UsbConfig) (device : UsbDeviceId) (d : RoutingDecision) : Prop :=
  (exists i rule, takes u device i rule /\ d = RouteToGuest (ur_target rule)) \/
  ((forall rule m, rule ∈ routing u -> spec_matcher rule = Some m -> matches m device = false) /\
   d = match default_guest u with Some g => RouteToGuest g | None => Unassigned end).

Lemma built_route u t device : built (routing u) (default_guest u) t -> spec_route u device (route t device).
Proof.
  intros [Hw Hr Ha Hn Hd]. pose proof (route_rules_spec (rules t) device (tw_sorted t Hw)) as Hs. unfold route. destruct (route_rules (rules t) device) as [g|].
  - destruct Hs as (r & (Hin & _ & Hm & Hall) & <-). apply Hr in Hin as (j & rule & m & Hj & Hsm & ->). left. exists j, rule. split; [|done]. split_and!; [done|by exists m|].
    intros j' rule' m' Hj' Hsm' Hm'. assert (Hin' : mkRule (Z.of_nat j' + 1) (ur_priority rule') m' (ur_target rule') true ∈ rules t) by (apply Hr; eauto 10).
    destruct (Hall _ Hin' eq_refl Hm') as [[= Heq Hp _ _]|Hb]; [right; lia|]. unfold before in Hb. cbn in Hb. lia.
  - right. rewrite Hd. split; [|done]. intros rule m [j Hj]%list_elem_of_lookup Hm.
    assert (Hin' : mkRule (Z.of_nat j + 1) (ur_priority rule) m (ur_target rule) true ∈ rules t) by (apply Hr; eauto 10). apply Hs in Hin'. cbn in Hin'. done.
Qed.

Lemma spec_route_defined c device g : valid_config c -> spec_route (usb c) device (RouteToGuest g) -> defined c g.
Proof.
  intros Hv [(i & rule & (Hi & _) & [= ->])|[_ Hd]].
  - apply (vc_usb_rules c Hv). apply list_elem_of_lookup. eauto.
  - destruct (default_guest (usb c)) as [g'|] eqn:E; [|done]. injection Hd as ->. by apply (vc_usb_default c Hv).
Qed.

(** The table of rules that parse: only a class token can be unknown, and only
    [u32::MAX] rules overflow the counter. *)
Lemma add_rules_total rs i t : (forall rule, rule ∈ rs -> exists kind, parse_usb_match (match_spec rule) = Ok kind) ->
  next_id t + Z.of_nat (length rs) < 2 ^ 32 ->
  (exists t', add_rules i rs t = Ok t') \/
  (exists j token, add_rules i rs t = Err (RuleClass j token) /\ device_class_from_token token = None).
Proof.
  revert i t. induction rs as [|rule rs IH]; intros i t Hp Hn; cbn [add_rules length] in *; [eauto|]. destruct (Hp rule) as [kind Hk]; [set_solver|]. rewrite Hk.
  assert (Hm : (exists m, matcher_from_kind i kind = Ok m) \/ exists token, matcher_from_kind i kind = Err (RuleClass i token) /\ device_class_from_token token = None).
  { destruct kind; cbn; eauto. destruct (device_class_from_token class0) eqn:E; cbn; eauto. }
  destruct Hm as [[m ->]|(token & -> & Ht)]; cbn [mbind res_bind]; [|by right; exists i, token]. unfold add_rule at 1 2. rewrite (proj2 (Z.leb_gt (2 ^ 32) (next_id t + 1))) by lia.
  apply IH; [intros; apply Hp; set_solver|cbn; lia].
Qed.

(** C23: The routing table of a validated configuration exists unless a rule names
    an unknown device class, it sends every device where the configuration says
    (to the match of least priority, the later of two with the same), and never
    to a guest the configuration does not define. *)
Theorem usb_routes_as_configured c : config_wf c -> validate_config c = Ok [] -> Z.of_nat (length (routing (usb c))) < 2 ^ 32 - 1 ->
  (exists t, routing_table_from_config (usb c) = Ok t /\
     forall device, spec_route (usb c) device (route t device) /\ (forall g, route t device = RouteToGuest g -> defined c g)) \/
  (exists i token, routing_table_from_config (usb c) = Err (RuleClass i token) /\ device_class_from_token token = None).
Proof.
  intros Hw Hv%validate_config_nil Hn; [|done]. destruct (add_rules_total (routing (usb c)) 0 (set_default_guest RoutingTable_new (default_guest (usb c)))) as [[t Ht]|He]; [| |left|by right].
  - intros rule Hr. by apply (vc_usb_rules c Hv).
  - cbn. lia.
  - exists t. split; [done|]. intros device. pose proof (built_route (usb c) t device (config_built _ _ Ht)) as Hs. split; [done|]. intros g Hg. rewrite Hg in Hs. by apply (spec_route_defined c device).
Qed.

Lemma usb_routes_as_configured_witness : exists t, routing_table_from_config (usb sample_config) = Ok t /\
  (forall device g, route t device = RouteToGuest g -> defined sample_config g) /\
  route t (mkDeviceId 0x046d 0xc52b None None Hid Low None None) = RouteToGuest (lit "vm2").
Proof.
  destruct (usb_routes_as_configured sample_config sample_config_wf) as [(t & Ht & Hr)|(i & token & Ht & _)]; [by vm_compute|by vm_compute| |by vm_compute in Ht].
  exists t. split; [exact Ht|]. split; [intros device g; apply Hr|]. vm_compute in Ht. injection Ht as <-. by vm_compute.
Defined.
