(* ===== verification/XhciRing.v ===== *)
(** * TRB rings in guest memory

    The transfer request blocks of [enlil-devices/src/usb/xhci/trb.rs], the
    typed transfer TRBs and the guest-memory seam of [transfer.rs], and the
    consumer cursor of [ring.rs] with the gathering of a transfer descriptor.
    [DmaMemory] is the interface of guest memory: the theorems hold for every
    implementation that satisfies [DmaLaws], and [VecDmaMemory] is one. *)

From Stdlib Require Import ZArith Lia Bool.
From stdpp Require Import base decidable list numbers.
From S2P Require Import Prelude Rust Storage.

(** ** trb.rs *)

Record Trb := mkTrb { parameter : Z; status : Z; control : Z }.
#[export] Instance Trb_eq_dec : EqDecision Trb := ltac:(solve_decision).

Inductive TrbType :=
  | TNormal | TSetupStage | TDataStage | TStatusStage | TIsoch | TLink | TEventData | TNoOp
  | TEnableSlotCommand | TDisableSlotCommand | TAddressDeviceCommand | TConfigureEndpointCommand | TEvaluateContextCommand
  | TResetEndpointCommand | TStopEndpointCommand | TSetTrDequeuePointerCommand | TResetDeviceCommand | TNoOpCommand
  | TTransferEvent | TCommandCompletionEvent | TPortStatusChangeEvent | THostControllerEvent | TUnknown.
#[export] Instance TrbType_eq_dec : EqDecision TrbType := ltac:(solve_decision).

(** [ty as u32] *)
Definition type_code (ty : TrbType) : Z :=
  match ty with
  | TNormal => 1 | TSetupStage => 2 | TDataStage => 3 | TStatusStage => 4 | TIsoch => 5 | TLink => 6 | TEventData => 7 | TNoOp => 8
  | TEnableSlotCommand => 9 | TDisableSlotCommand => 10 | TAddressDeviceCommand => 11 | TConfigureEndpointCommand => 12
  | TEvaluateContextCommand => 13 | TResetEndpointCommand => 14 | TStopEndpointCommand => 15 | TSetTrDequeuePointerCommand => 16
  | TResetDeviceCommand => 17 | TNoOpCommand => 23 | TTransferEvent => 32 | TCommandCompletionEvent => 33 | TPortStatusChangeEvent => 34
  | THostControllerEvent => 37 | TUnknown => 0
  end.
Definition from_raw (raw : Z) : TrbType :=
  match raw with
  | 1 => TNormal | 2 => TSetupStage | 3 => TDataStage | 4 => TStatusStage | 5 => TIsoch | 6 => TLink | 7 => TEventData | 8 => TNoOp
  | 9 => TEnableSlotCommand | 10 => TDisableSlotCommand | 11 => TAddressDeviceCommand | 12 => TConfigureEndpointCommand
  | 13 => TEvaluateContextCommand | 14 => TResetEndpointCommand | 15 => TStopEndpointCommand | 16 => TSetTrDequeuePointerCommand
  | 17 => TResetDeviceCommand | 23 => TNoOpCommand | 32 => TTransferEvent | 33 => TCommandCompletionEvent | 34 => TPortStatusChangeEvent
  | 37 => THostControllerEvent | _ => TUnknown
  end.

Abbreviation zeroed := (mkTrb 0 0 0) (only parsing).
Definition cycle_bit (t : Trb) : bool := negb (control t .& 1 =? 0).
Definition set_cycle_bit (t : Trb) (cycle : bool) : Trb :=
  mkTrb (parameter t) (status t) (if cycle then control t .| 1 else control t .&~ 1).
Definition set_trb_type (t : Trb) (ty : TrbType) : Trb :=
  mkTrb (parameter t) (status t) ((control t .&~ (0x3F .<< 10)) .| (type_code ty .<< 10)).
Definition decoded_type (t : Trb) : TrbType := from_raw ((control t .>> 10) .& 0x3F).
Definition to_bytes (t : Trb) : list Z := le_bytes 8 (parameter t) ++ le_bytes 4 (status t) ++ le_bytes 4 (control t).
Definition from_bytes (buf : list Z) : Trb := mkTrb (le_value (sub buf 0 8)) (le_value (sub buf 8 4)) (le_value (sub buf 12 4)).

(** ** Guest memory *)

Class DmaMemory (Mem : Type) := {
  dma_read : Mem -> Z -> Z -> option (list Z);
  dma_write : Mem -> Z -> list Z -> option Mem }.

(** What a memory promises: a write is read back, and changes nothing else. *)
Class DmaLaws (Mem : Type) `{DmaMemory Mem} : Prop := {
  dma_read_len : forall m a n d, dma_read m a n = Some d -> 0 <= n -> len d = n;
  dma_read_same : forall m a d m', 0 <= a -> dma_write m a d = Some m' -> dma_read m' a (len d) = Some d;
  dma_read_other : forall m a d m' b n, 0 <= a -> 0 <= b -> 0 <= n -> dma_write m a d = Some m' -> b + n <= a \/ a + len d <= b -> dma_read m' b n = dma_read m b n }.

Record VecDmaMemory := mkVecDma { vd_base : Z; vd_bytes : list Z }.
Definition offset_of (m : VecDmaMemory) (addr count : Z) : option Z :=
  offset ← checked_sub addr (vd_base m);
  e ← checked_add offset count;
  if e <=? len (vd_bytes m) then Some offset else None.
#[export] Instance VecDmaMemory_dma : DmaMemory VecDmaMemory := {|
  dma_read m addr n := offset ← offset_of m addr n; Some (sub (vd_bytes m) offset n);
  dma_write m addr data := offset ← offset_of m addr (len data); Some (mkVecDma (vd_base m) (splice (vd_bytes m) offset data)) |}.

(** ** ring.rs: the consumer cursor *)

Record GuestRingCursor := mkCursor { dequeue : Z; cycle : bool }.

Section cursor.
Context {Mem : Type} `{DmaMemory Mem}.

(** [fetch]: at most [hops] TRBs are looked at; a Link TRB moves the cursor. *)
Fixpoint fetch (hops : nat) (c : GuestRingCursor) (mem : Mem) : GuestRingCursor * res Empty_set (option (Z * Trb)) :=
  match hops with
  | O => (c, Ok None)
  | S hops' =>
      match dma_read mem (dequeue c) 16 with
      | None => (c, Ok None)
      | Some bytes =>
          let trb := from_bytes bytes in
          if negb (Bool.eqb (cycle_bit trb) (cycle c)) then (c, Ok None)
          else if bool_decide (decoded_type trb = TLink) then
            let cycle' := if control trb .& 2 =? 0 then cycle c else negb (cycle c) in
            fetch hops' (mkCursor (parameter trb .&~ 0xF) cycle') mem
          else if dequeue c + 16 <? 2 ^ 64 then (mkCursor (dequeue c + 16) (cycle c), Ok (Some (dequeue c, trb)))
          else (c, Panic)
      end
  end.
End cursor.
Abbreviation LINK_HOP_LIMIT := 8%nat (only parsing).

(** ** transfer.rs *)

Record SetupPacket := mkSetup { request_type : Z; request : Z; s_value : Z; s_index : Z; s_length : Z }.
#[export] Instance SetupPacket_eq_dec : EqDecision SetupPacket := ltac:(solve_decision).
Definition to_le_u64 (p : SetupPacket) : Z :=
  request_type p .| (request p .<< 8) .| (s_value p .<< 16) .| (s_index p .<< 32) .| (s_length p .<< 48).
Definition from_le_u64 (raw : Z) : SetupPacket :=
  let b := le_bytes 8 raw in
  mkSetup (le_value (sub b 0 1)) (le_value (sub b 1 1)) (le_value (sub b 2 2)) (le_value (sub b 4 2)) (le_value (sub b 6 2)).

Inductive TransferType := NoData | OutData | InData.
#[export] Instance TransferType_eq_dec : EqDecision TransferType := ltac:(solve_decision).
Definition transfer_code (ty : TransferType) : Z := match ty with NoData => 0 | OutData => 2 | InData => 3 end.
Definition transfer_from_raw (raw : Z) : option TransferType :=
  if raw =? 0 then Some NoData else if raw =? 2 then Some OutData else if raw =? 3 then Some InData else None.

Inductive TransferTrb :=
  | Setup (packet : SetupPacket) (transfer_type : TransferType) (ioc : bool)
  | Data (buffer len : Z) (dir_in chain ioc : bool)
  | Status (dir_in ioc : bool)
  | Normal (buffer len : Z) (chain ioc isp : bool)
  | NoOp (ioc : bool).
#[export] Instance TransferTrb_eq_dec : EqDecision TransferTrb := ltac:(solve_decision).

Abbreviation BIT_ISP := (1 .<< 2) (only parsing).
Abbreviation BIT_CHAIN := (1 .<< 4) (only parsing).
Abbreviation BIT_IOC := (1 .<< 5) (only parsing).
Abbreviation BIT_IDT := (1 .<< 6) (only parsing).
Abbreviation BIT_DIR := (1 .<< 16) (only parsing).
Abbreviation TRB_LEN_MASK := 0x1FFFF (only parsing).

Abbreviation flag c b := (negb (Z.land c b =? 0)) (only parsing).

Definition from_trb (trb : Trb) : option TransferTrb :=
  let c := control trb in
  match decoded_type trb with
  | TSetupStage =>
      if c .& BIT_IDT =? 0 then None else
      ty ← transfer_from_raw ((c .>> 16) .& 3);
      Some (Setup (from_le_u64 (parameter trb)) ty (flag c BIT_IOC))
  | TDataStage => Some (Data (parameter trb) (status trb .& TRB_LEN_MASK) (flag c BIT_DIR) (flag c BIT_CHAIN) (flag c BIT_IOC))
  | TStatusStage => Some (Status (flag c BIT_DIR) (flag c BIT_IOC))
  | TNormal => Some (Normal (parameter trb) (status trb .& TRB_LEN_MASK) (flag c BIT_CHAIN) (flag c BIT_IOC) (flag c BIT_ISP))
  | TNoOp => Some (NoOp (flag c BIT_IOC))
  | _ => None
  end.

(** [if b { trb.control |= bit }] *)
Abbreviation or_if b m c := (if b then Z.lor c m else c) (only parsing).
Definition to_trb (t : TransferTrb) (cycle : bool) : Trb :=
  let start ty := control (set_trb_type (set_cycle_bit zeroed cycle) ty) in
  match t with
  | Setup packet ty ioc => mkTrb (to_le_u64 packet) 8 (or_if ioc BIT_IOC (start TSetupStage .| (BIT_IDT .| (transfer_code ty .<< 16))))
  | Data buffer n dir_in chain ioc => mkTrb buffer (n .& TRB_LEN_MASK) (or_if ioc BIT_IOC (or_if chain BIT_CHAIN (or_if dir_in BIT_DIR (start TDataStage))))
  | Status dir_in ioc => mkTrb 0 0 (or_if ioc BIT_IOC (or_if dir_in BIT_DIR (start TStatusStage)))
  | Normal buffer n chain ioc isp => mkTrb buffer (n .& TRB_LEN_MASK) (or_if isp BIT_ISP (or_if ioc BIT_IOC (or_if chain BIT_CHAIN (start TNormal))))
  | NoOp ioc => mkTrb 0 0 (or_if ioc BIT_IOC (start TNoOp))
  end.

Definition chains (t : TransferTrb) : bool :=
  match t with Data _ _ _ chain _ | Normal _ _ chain _ _ => chain | _ => false end.

(** [gather_transfer_td], for at most [fuel] turns of its loop; [None] when it
    has not returned by then. *)
Fixpoint gather_loop {Mem} `{DmaMemory Mem} (fuel : nat) (cursor : GuestRingCursor) (mem : Mem) (td : list (Z * TransferTrb)) :
    option (GuestRingCursor * res Z (list (Z * TransferTrb))) :=
  match fuel with
  | O => None
  | S fuel' =>
      match fetch LINK_HOP_LIMIT cursor mem with
      | (cursor', Ok (Some (address, raw))) =>
          match from_trb raw with
          | Some trb => if chains trb then gather_loop fuel' cursor' mem (td ++ [(address, trb)]) else Some (cursor', Ok (td ++ [(address, trb)]))
          | None => Some (cursor', Err address)
          end
      | (cursor', Ok None) => Some (cursor', Ok td)
      | (cursor', _) => Some (cursor', Panic)
      end
  end.
Abbreviation gather_transfer_td fuel cursor mem := (gather_loop fuel cursor mem []) (only parsing).

(** ** Bytes *)

Lemma drop_le_bytes k : forall n z, drop k (le_bytes n z) = le_bytes (n - k) (z / 256 ^ Z.of_nat k).
Proof.
  induction k as [|k IH]; intros n z; [by rewrite drop_0, Nat.sub_0_r, Z.div_1_r|]. destruct n as [|n]; [done|]. cbn [le_bytes drop Nat.sub]. rewrite IH. f_equal.
  rewrite Nat2Z.inj_succ, Z.pow_succ_r, Z.div_div by lia. done.
Qed.

Lemma take_le_bytes k : forall n z, (k <= n)%nat -> take k (le_bytes n z) = le_bytes k z.
Proof. induction k as [|k IH]; intros [|n] z Hk; try done; [lia|]. cbn [le_bytes take]. by rewrite IH by lia. Qed.

Lemma sub_le_bytes n z off k : 0 <= off -> 0 <= k -> off + k <= Z.of_nat n -> le_value (sub (le_bytes n z) off k) = (z / 256 ^ off) mod 256 ^ k.
Proof. intros Ho Hk Hn. unfold sub. rewrite drop_le_bytes, take_le_bytes, le_value_bytes, !Z2Nat.id by lia. done. Qed.

Definition trb_fits (t : Trb) : Prop := fits 64 (parameter t) /\ fits 32 (status t) /\ fits 32 (control t).

Lemma len_le_bytes n z : len (le_bytes n z) = Z.of_nat n.
Proof. unfold len. by rewrite length_le_bytes. Qed.

Lemma to_bytes_len t : len (to_bytes t) = 16.
Proof. unfold to_bytes. by rewrite !len_app, !len_le_bytes. Qed.

Lemma from_to_bytes t : trb_fits t -> from_bytes (to_bytes t) = t.
Proof.
  destruct t as [p s c]. intros (Hp & Hs & Hc). cbn [parameter status control] in *. unfold fits in *. set (b := to_bytes (mkTrb p s c)).
  assert (E1 : sub b 0 8 = le_bytes 8 p) by reflexivity. assert (E2 : sub b 8 4 = le_bytes 4 s) by reflexivity. assert (E3 : sub b 12 4 = le_bytes 4 c) by reflexivity.
  unfold from_bytes. rewrite E1, E2, E3, !le_value_bytes, !Z.mod_small; [done|..]; lia.
Qed.

(** ** Typed transfer TRBs *)

Lemma lor_shift a b k : 0 <= k -> 0 <= a < 2 ^ k -> a .| (b .<< k) = a + b * 2 ^ k.
Proof.
  intros Hk Ha. rewrite Z.shiftl_mul_pow2 by done. symmetry. apply Z.add_nocarry_lor. apply Z.bits_inj'. intros i Hi. rewrite Z.land_spec, Z.testbit_0_l.
  destruct (Z.lt_ge_cases i k); [by rewrite Z.mul_pow2_bits_low, andb_false_r|]. rewrite (fits_high k a i); done.
Qed.

Definition packet_fits (p : SetupPacket) : Prop :=
  fits 8 (request_type p) /\ fits 8 (request p) /\ fits 16 (s_value p) /\ fits 16 (s_index p) /\ fits 16 (s_length p).

Lemma packet_roundtrip p : packet_fits p -> from_le_u64 (to_le_u64 p) = p /\ fits 64 (to_le_u64 p).
Proof.
  destruct p as [a b v i l]. unfold packet_fits, fits, from_le_u64, to_le_u64. cbn [request_type request s_value s_index s_length]. intros (Ha & Hb & Hv & Hi & Hl).
  rewrite (lor_shift a b 8), (lor_shift _ v 16), (lor_shift _ i 32), (lor_shift _ l 48) by lia. split; [|lia]. rewrite !sub_le_bytes by lia. f_equal; Z.to_euclidean_division_equations; lia.
Qed.

Definition transfer_fits (t : TransferTrb) : Prop :=
  match t with
  | Setup p _ _ => packet_fits p
  | Data buffer n _ _ _ | Normal buffer n _ _ _ => fits 64 buffer /\ fits 17 n
  | Status _ _ | NoOp _ => True
  end.

Lemma len_mask n : fits 17 n -> n .& 0x1FFFF = n.
Proof. intros Hn. change 0x1FFFF with (Z.ones 17). rewrite Z.land_ones by lia. apply Z.mod_small. exact Hn. Qed.

Lemma transfer_roundtrip t c : transfer_fits t -> from_trb (to_trb t c) = Some t /\ cycle_bit (to_trb t c) = c /\ trb_fits (to_trb t c).
Proof.
  destruct t as [p ty ioc|b n d ch ioc|d ioc|b n ch ioc isp|ioc]; cbn [transfer_fits]; intros Hf.
  - apply packet_roundtrip in Hf as [Hp Hl]. unfold from_trb, to_trb. destruct ty, ioc, c; (split_and!; [|done|split_and!; done]); cbn -[from_le_u64 to_le_u64]; by rewrite Hp.
  - destruct Hf as [Hb Hn]. assert (H32 : fits 32 n) by (unfold fits in *; lia). assert (E : from_trb (to_trb (Data b n d ch ioc) c) = Some (Data b ((n .& 0x1FFFF) .& 0x1FFFF) d ch ioc)) by (by destruct d, ch, ioc, c).
    rewrite E, (len_mask n Hn), (len_mask n Hn). split_and!; [done|by destruct d, ch, ioc, c|]. unfold trb_fits, to_trb. cbn [parameter status]. rewrite len_mask by done. split_and!; [done|done|by destruct d, ch, ioc, c].
  - destruct d, ioc, c; split_and!; done.
  - destruct Hf as [Hb Hn]. assert (H32 : fits 32 n) by (unfold fits in *; lia). assert (E : from_trb (to_trb (Normal b n ch ioc isp) c) = Some (Normal b ((n .& 0x1FFFF) .& 0x1FFFF) ch ioc isp)) by (by destruct ch, ioc, isp, c).
    rewrite E, (len_mask n Hn), (len_mask n Hn). split_and!; [done|by destruct ch, ioc, isp, c|]. unfold trb_fits, to_trb. cbn [parameter status]. rewrite len_mask by done. split_and!; [done|done|by destruct ch, ioc, isp, c].
  - destruct ioc, c; split_and!; done.
Qed.

(** ** Memories *)

Lemma offset_of_spec m addr n off : 0 <= n -> offset_of m addr n = Some off -> 0 <= off /\ off = addr - vd_base m /\ off + n <= len (vd_bytes m).
Proof.
  unfold offset_of, checked_sub, checked_add. intros Hn. destruct (Z.ltb_spec addr (vd_base m)); [done|]. cbn [mbind option_bind].
  destruct (Z.ltb_spec (addr - vd_base m + n) (2 ^ 64)); [|done]. cbn [mbind option_bind]. destruct (Z.leb_spec (addr - vd_base m + n) (len (vd_bytes m))); [|done]. intros [= <-]. lia.
Qed.

Lemma sub_splice_same d off s : 0 <= off -> off + len s <= len d -> sub (splice d off s) off (len s) = s.
Proof.
  intros Ho Hl. pose proof (len_nonneg s). assert (Hs : len (sub (splice d off s) off (len s)) = len s) by (apply len_sub; rewrite ?len_splice; lia). apply list_getb_ext; [done|].
  intros k Hk. rewrite Hs in Hk. rewrite getb_sub, getb_splice by lia. rewrite (proj2 (Z.leb_le off (off + k))), (proj2 (Z.ltb_lt (off + k) (off + len s))) by lia. cbn. f_equal. lia.
Qed.

Lemma sub_splice_other d off s b n : 0 <= off -> off + len s <= len d -> 0 <= b -> 0 <= n -> b + n <= len d -> b + n <= off \/ off + len s <= b ->
  sub (splice d off s) b n = sub d b n.
Proof.
  intros Ho Hl Hb Hn Hd Hdis. assert (E1 : len (sub (splice d off s) b n) = n) by (apply len_sub; rewrite ?len_splice; lia). assert (E2 : len (sub d b n) = n) by (by apply len_sub).
  apply list_getb_ext; [congruence|]. intros k Hk. rewrite E1 in Hk. rewrite !getb_sub, getb_splice by lia.
  destruct (Z.leb_spec off (b + k)), (Z.ltb_spec (b + k) (off + len s)); cbn; try done. lia.
Qed.

#[export] Instance VecDmaMemory_laws : DmaLaws VecDmaMemory.
Proof.
  constructor; cbn.
  - intros m a n d. destruct (offset_of m a n) as [off|] eqn:E; [|done]. cbn. intros [= <-] Hn. apply offset_of_spec in E; [|done]. apply len_sub; lia.
  - intros m a d m' Ha. pose proof (len_nonneg d). destruct (offset_of m a (len d)) as [off|] eqn:E; [|done]. cbn. intros [= <-].
    assert (E' : offset_of (mkVecDma (vd_base m) (splice (vd_bytes m) off d)) a (len d) = Some off) by (revert E; unfold offset_of; cbn; by rewrite len_splice).
    apply offset_of_spec in E; [|done]. rewrite E'. cbn. by rewrite sub_splice_same by lia.
  - intros m a d m' b n Ha Hb Hn. pose proof (len_nonneg d). destruct (offset_of m a (len d)) as [off|] eqn:E; [|done]. cbn. intros [= <-] Hdis.
    assert (E' : offset_of (mkVecDma (vd_base m) (splice (vd_bytes m) off d)) b n = offset_of m b n) by (unfold offset_of; cbn; by rewrite len_splice).
    rewrite E'. destruct (offset_of m b n) as [off'|] eqn:E2; [|done]. cbn. apply offset_of_spec in E; [|done]. apply offset_of_spec in E2; [|done].
    f_equal. apply sub_splice_other; lia.
Qed.

(** ** Gathering a descriptor *)

(** The sixteen bytes of a TRB with these words, and the bits [lo], ...,
    [lo + n - 1] of a word. *)
Definition trb_bytes (p s c : Z) : list Z := le_bytes 8 p ++ le_bytes 4 s ++ le_bytes 4 c.
Definition field (w lo n : Z) : Z := (w / 2 ^ lo) mod 2 ^ n.

(** What the words mean (xHCI 6.4.1), whatever the other bits: TD size,
    interrupter target, evaluate next, no snoop and the reserved ones. *)
Inductive denotes (p s c : Z) : TransferTrb -> Prop :=
  | den_normal : field c 10 6 = 1 -> denotes p s c (Normal p (field s 0 17) (Z.testbit c 4) (Z.testbit c 5) (Z.testbit c 2))
  | den_setup ty : field c 10 6 = 2 -> Z.testbit c 6 = true -> field c 16 2 = match ty with NoData => 0 | OutData => 2 | InData => 3 end ->
      denotes p s c (Setup (mkSetup (field p 0 8) (field p 8 8) (field p 16 16) (field p 32 16) (field p 48 16)) ty (Z.testbit c 5))
  | den_data : field c 10 6 = 3 -> denotes p s c (Data p (field s 0 17) (Z.testbit c 16) (Z.testbit c 4) (Z.testbit c 5))
  | den_status : field c 10 6 = 4 -> denotes p s c (Status (Z.testbit c 16) (Z.testbit c 5))
  | den_noop : field c 10 6 = 8 -> denotes p s c (NoOp (Z.testbit c 5)).
(** The chain bit, of the stages that move data. *)
Definition extends (c : Z) (t : TransferTrb) : bool := match t with Data _ _ _ _ _ | Normal _ _ _ _ _ => Z.testbit c 4 | _ => false end.

Lemma flag_testbit c k : 0 <= k -> flag c (1 .<< k) = Z.testbit c k.
Proof. apply tst_bit. Qed.

Lemma land_field w lo n : 0 <= lo -> 0 <= n -> (w .>> lo) .& Z.ones n = field w lo n.
Proof. intros Hl Hn. unfold field. by rewrite Z.land_ones, Z.shiftr_div_pow2. Qed.

Lemma type_field p s c : decoded_type (mkTrb p s c) = from_raw (field c 10 6).
Proof. unfold decoded_type. cbn [control]. change 0x3F with (Z.ones 6). by rewrite land_field. Qed.

Lemma from_trb_denotes p s c t : fits 64 p -> denotes p s c t -> from_trb (mkTrb p s c) = Some t /\ decoded_type (mkTrb p s c) <> TLink /\ chains t = extends c t.
Proof.
  intros Hp Hd. unfold from_trb. rewrite type_field. cbn [control parameter status].
  assert (El : s .& 0x1FFFF = field s 0 17) by (rewrite <- (land_field s 0 17) by lia; by rewrite Z.shiftr_0_r). rewrite El.
  pose proof (flag_testbit c 5 ltac:(lia)) as F5. pose proof (flag_testbit c 4 ltac:(lia)) as F4. pose proof (flag_testbit c 16 ltac:(lia)) as F16. pose proof (flag_testbit c 2 ltac:(lia)) as F2. pose proof (flag_testbit c 6 ltac:(lia)) as F6.
  destruct Hd as [Ht|ty Ht H6 Hty|Ht|Ht|Ht]; rewrite Ht; cbn [from_raw]; rewrite ?F5, ?F4, ?F16, ?F2; try done. split_and!; [|done|done].
  rewrite H6 in F6. apply negb_true_iff in F6. rewrite F6. change ((c .>> 16) .& 3) with ((c .>> 16) .& Z.ones 2). rewrite land_field, Hty by lia. unfold from_le_u64. rewrite !sub_le_bytes by lia.
  by destruct ty.
Qed.

Lemma trb_bytes_read p s c : fits 64 p -> fits 32 s -> fits 32 c -> from_bytes (trb_bytes p s c) = mkTrb p s c.
Proof. intros Hp Hs Hc. by apply (from_to_bytes (mkTrb p s c)). Qed.

Section gather.
Context {Mem : Type} `{DmaMemory Mem} (mem : Mem).

(** The words of the TRB at [a], which has the cycle bit of the lap. *)
Definition trb_at (a : Z) (lap : bool) (p s c : Z) : Prop :=
  dma_read mem a 16 = Some (trb_bytes p s c) /\ fits 64 p /\ fits 32 s /\ fits 32 c /\ Z.testbit c 0 = lap.

(** A descriptor in guest memory from the cursor on: its TRBs chain but for the
    last, each with the cycle bit of the lap, and at most [hops - 1] Link TRBs
    come before the first and fewer than [LINK_HOP_LIMIT] before each other one.
    The low four bits of a Link TRB's pointer are reserved. *)
Inductive td_at : nat -> GuestRingCursor -> list (Z * TransferTrb) -> GuestRingCursor -> Prop :=
  | td_last hops a lap p s c t : trb_at a lap p s c -> denotes p s c t -> extends c t = false -> a + 16 < 2 ^ 64 ->
      td_at (S hops) (mkCursor a lap) [(a, t)] (mkCursor (a + 16) lap)
  | td_chain hops a lap p s c t td c' : trb_at a lap p s c -> denotes p s c t -> extends c t = true -> a + 16 < 2 ^ 64 ->
      td_at LINK_HOP_LIMIT (mkCursor (a + 16) lap) td c' -> td_at (S hops) (mkCursor a lap) ((a, t) :: td) c'
  | td_link hops a lap p s c td c' : trb_at a lap p s c -> field c 10 6 = 6 ->
      td_at hops (mkCursor (16 * (p / 16)) (xorb lap (Z.testbit c 1))) td c' -> td_at (S hops) (mkCursor a lap) td c'.

Lemma fetch_head hops a lap p s c : trb_at a lap p s c ->
  fetch (S hops) (mkCursor a lap) mem =
    if bool_decide (decoded_type (mkTrb p s c) = TLink) then fetch hops (mkCursor (16 * (p / 16)) (xorb lap (Z.testbit c 1))) mem
    else if a + 16 <? 2 ^ 64 then (mkCursor (a + 16) lap, Ok (Some (a, mkTrb p s c))) else (mkCursor a lap, Panic).
Proof.
  intros (Hr & Hp & Hs & Hc & Hl). cbn [fetch dequeue cycle]. rewrite Hr, trb_bytes_read by done.
  assert (Hcyc : cycle_bit (mkTrb p s c) = lap) by (rewrite <- Hl; apply (flag_testbit c 0); lia). rewrite Hcyc, Bool.eqb_reflx. cbn [negb].
  replace (parameter (mkTrb p s c) .&~ 0xF) with (16 * (p / 16)).
  2: { cbn [parameter]. change 0xF with (Z.ones 4). rewrite Z.ldiff_ones_r by lia. rewrite Z.shiftl_mul_pow2, Z.shiftr_div_pow2 by lia. change (2 ^ 4) with 16. lia. }
  pose proof (flag_testbit c 1 ltac:(lia)) as F1. cbn [control] in *. change (1 .<< 1) with 2 in F1. destruct (c .& 2 =? 0), (Z.testbit c 1); try done. by rewrite xorb_false_r.
Qed.

Lemma fetch_trb hops a lap p s c t : trb_at a lap p s c -> denotes p s c t -> a + 16 < 2 ^ 64 ->
  fetch (S hops) (mkCursor a lap) mem = (mkCursor (a + 16) lap, Ok (Some (a, mkTrb p s c))).
Proof.
  intros Ht Hd Ha. rewrite (fetch_head _ _ _ _ _ _ Ht). destruct (from_trb_denotes p s c t ltac:(apply Ht) Hd) as (_ & Hl & _).
  rewrite bool_decide_eq_false_2 by done. by rewrite (proj2 (Z.ltb_lt _ _)).
Qed.

Lemma td_at_nonempty hops c td c' : td_at hops c td c' -> (1 <= length td)%nat.
Proof. induction 1; cbn; lia. Qed.

Lemma gather_td_run hops c td c' acc : (hops <= LINK_HOP_LIMIT)%nat -> td_at hops c td c' -> forall fuel, (length td <= fuel)%nat ->
  match fetch hops c mem with
  | (c1, Ok (Some (address, raw))) =>
      match from_trb raw with
      | Some trb => if chains trb then gather_loop (pred fuel) c1 mem (acc ++ [(address, trb)]) else Some (c1, Ok (acc ++ [(address, trb)]))
      | None => Some (c1, Err address)
      end
  | (c1, Ok None) => Some (c1, Ok acc)
  | (c1, _) => Some (c1, Panic)
  end = Some (c', Ok (acc ++ td)).
Proof.
  intros Hh Htd. revert acc Hh. induction Htd as [hops a lap p s c t Hr Ht Hc Ha|hops a lap p s c t td c' Hr Ht Hc Ha Htd IH|hops a lap p s c td c' Hr Hl Htd IH]; intros acc Hh fuel Hf.
  - rewrite (fetch_trb hops a lap p s c t) by done. destruct (from_trb_denotes p s c t ltac:(apply Hr) Ht) as (-> & _ & ->). by rewrite Hc.
  - rewrite (fetch_trb hops a lap p s c t) by done. destruct (from_trb_denotes p s c t ltac:(apply Hr) Ht) as (-> & _ & ->). rewrite Hc. cbn [length] in Hf. apply td_at_nonempty in Htd as Hne. destruct fuel as [|[|fuel]]; [lia|lia|].
    cbn [pred gather_loop]. change ((a, t) :: td) with ([(a, t)] ++ td). rewrite app_assoc. apply (IH (acc ++ [(a, t)]) ltac:(lia) (S fuel)). lia.
  - rewrite (fetch_head _ _ _ _ _ _ Hr), bool_decide_eq_true_2 by (by rewrite type_field, Hl). apply IH; [lia|done].
Qed.

End gather.

(** C25: A transfer descriptor a driver lays out in guest memory is gathered as
    it is.  Its TRBs have the words of the xHCI layout with any values in the
    fields the controller does not use, and fewer than eight Link TRBs in a row
    stand before each, with any toggles; the loop takes as many turns as the
    descriptor has TRBs, reads each field from its own bits, and leaves the cursor
    behind the descriptor. *)
Theorem xhci_gathers_td {Mem} `{DmaMemory Mem} (mem : Mem) c td c' fuel : td_at mem LINK_HOP_LIMIT c td c' -> (length td <= fuel)%nat ->
  gather_transfer_td fuel c mem = Some (c', Ok td).
Proof.
  intros Htd Hf. pose proof (td_at_nonempty mem _ _ _ _ Htd). destruct fuel as [|fuel]; [lia|]. apply (gather_td_run mem _ _ _ _ [] (le_n _) Htd (S fuel) Hf).
Qed.

(** Two Normal TRBs with TD sizes and interrupter targets, the second behind a
    Link TRB, with reserved bits set, that starts the next lap. *)
Definition sample_ring : VecDmaMemory := mkVecDma 0x1000 (trb_bytes 0x5000 0x00400040 0x0424 ++ trb_bytes 0x4000 0x00420200 0x411 ++ trb_bytes 0x100F 0x00400000 0x1803).

Lemma xhci_gathers_td_witness : gather_transfer_td 2 (mkCursor 0x1010 true) sample_ring =
  Some (mkCursor 0x1010 false, Ok [(0x1010, Normal 0x4000 512 true false false); (0x1000, Normal 0x5000 64 false true true)]).
Proof.
  assert (H0 : trb_at sample_ring 0x1000 false 0x5000 0x00400040 0x0424) by (split_and!; by vm_compute).
  assert (H1 : trb_at sample_ring 0x1010 true 0x4000 0x00420200 0x411) by (split_and!; by vm_compute).
  assert (H2 : trb_at sample_ring 0x1020 true 0x100F 0x00400000 0x1803) by (split_and!; by vm_compute).
  apply (xhci_gathers_td sample_ring); [|cbn; lia]. apply (td_chain sample_ring 7 0x1010 true 0x4000 0x00420200 0x411 _ _ _ H1 (den_normal 0x4000 0x00420200 0x411 eq_refl)); [done|done|].
  apply (td_link sample_ring 7 0x1020 true _ _ _ _ _ H2); [done|]. apply (td_last sample_ring 6 0x1000 false 0x5000 0x00400040 0x0424 _ H0 (den_normal 0x5000 0x00400040 0x0424 eq_refl)); done.
Defined.

(** A Link TRB, as a driver writes it. *)
Definition link_trb (target : Z) (toggle c : bool) : Trb := mkTrb target 0 ((6 .<< 10) .| Z.b2z toggle * 2 .| Z.b2z c).

(** A ring of one Normal TRB with its chain bit set and a Link TRB back to it. *)
Definition self_linked : VecDmaMemory :=
  mkVecDma 0x1000 (to_bytes (to_trb (Normal 0x4000 512 true false false) true) ++ to_bytes (link_trb 0x1000 false true)).

(** C27: On a ring whose one TRB chains into a Link TRB back to itself the loop of
    [gather_transfer_td] never returns: the bounds on the Link TRBs of one fetch
    and on the descriptors of one doorbell do not bound the TRBs of one
    descriptor. *)
Theorem xhci_gather_wedges : forall fuel, gather_transfer_td fuel (mkCursor 0x1000 true) self_linked = None.
Proof.
  assert (Hg : forall fuel td, gather_loop fuel (mkCursor 0x1000 true) self_linked td = None /\ gather_loop fuel (mkCursor 0x1010 true) self_linked td = None); [|intros fuel; apply Hg].
  assert (F1 : fetch LINK_HOP_LIMIT (mkCursor 0x1000 true) self_linked = (mkCursor 0x1010 true, Ok (Some (0x1000, to_trb (Normal 0x4000 512 true false false) true)))) by by vm_compute.
  assert (F2 : fetch LINK_HOP_LIMIT (mkCursor 0x1010 true) self_linked = (mkCursor 0x1010 true, Ok (Some (0x1000, to_trb (Normal 0x4000 512 true false false) true)))) by by vm_compute.
  induction fuel as [|fuel IH]; intros td; [done|]. cbn [gather_loop]. rewrite F1, F2. by split; apply IH.
Qed.

(** A transfer TRB is read back from its encoding, through the sixteen bytes
    of guest memory, with the cycle bit it was written with. *)
Theorem xhci_trb_roundtrip t c : transfer_fits t ->
  from_trb (from_bytes (to_bytes (to_trb t c))) = Some t /\ cycle_bit (from_bytes (to_bytes (to_trb t c))) = c.
Proof. intros Ht. destruct (transfer_roundtrip t c Ht) as (H1 & H2 & H3). by rewrite (from_to_bytes _ H3). Qed.

Lemma xhci_trb_roundtrip_witness :
  from_trb (from_bytes (to_bytes (to_trb (Setup (mkSetup 0x80 6 0x100 0 18) InData true) false))) = Some (Setup (mkSetup 0x80 6 0x100 0 18) InData true).
Proof. apply (xhci_trb_roundtrip (Setup (mkSetup 0x80 6 0x100 0 18) InData true) false). by vm_compute. Defined.
