(* ===== verification/XhciEvent.v ===== *)
(** * Event rings

    [enlil-devices/src/usb/xhci/event.rs]: the queue the controller posts its
    events to, the writer of the event ring a driver has set up in guest memory,
    and the interrupter that drains the one into the other.  The queue is a
    bounded FIFO; a flush writes a prefix of it where a driver that follows the
    cycle bits reads it, in order, and never over an event the driver has not
    consumed. *)

From Stdlib Require Import ZArith Lia Bool.
From stdpp Require Import base decidable list numbers.
From S2P Require Import Prelude Rust Storage XhciRing.

#[export] Instance Trb_inhabited : Inhabited Trb := populate (mkTrb 0 0 0).

(** ** The queue of the controller *)

Record EventRingSegment := mkSeg { base_address : Z; size : Z }.
Record EventRing := mkRing { segments : list EventRingSegment; entries : list Trb; enqueue_idx : Z; dequeue_idx : Z; cycle_state : bool; capacity : Z }.

Definition EventRing_new (segment_size : Z) : EventRing :=
  mkRing [mkSeg 0 (wrap 16 segment_size)] (replicate (Z.to_nat segment_size) (mkTrb 0 0 0)) 0 0 true segment_size.

Definition advance_enqueue (r : EventRing) : EventRing :=
  let idx := enqueue_idx r + 1 in
  if capacity r <=? idx then mkRing (segments r) (entries r) 0 (dequeue_idx r) (negb (cycle_state r)) (capacity r)
  else mkRing (segments r) (entries r) idx (dequeue_idx r) (cycle_state r) (capacity r).
Definition is_full (r : EventRing) : bool :=
  (if capacity r <=? enqueue_idx r + 1 then 0 else enqueue_idx r + 1) =? dequeue_idx r.
Definition pending_count (r : EventRing) : Z :=
  if dequeue_idx r <=? enqueue_idx r then enqueue_idx r - dequeue_idx r else capacity r - dequeue_idx r + enqueue_idx r.
Definition set_dequeue_index (r : EventRing) (idx : Z) : EventRing :=
  if idx <? capacity r then mkRing (segments r) (entries r) (enqueue_idx r) idx (cycle_state r) (capacity r) else r.
Definition ring_reset (r : EventRing) : EventRing :=
  mkRing (segments r) ((fun _ => mkTrb 0 0 0) <$> entries r) 0 0 true (capacity r).

Definition post_event (r : EventRing) (trb : Trb) : res Empty_set (EventRing * bool) :=
  if is_full r then Ok (r, false) else
  let trb := set_cycle_bit trb (cycle_state r) in
  if Z.of_nat (length (entries r)) <=? enqueue_idx r then Panic else
  Ok (advance_enqueue (mkRing (segments r) (<[Z.to_nat (enqueue_idx r) := trb]> (entries r)) (enqueue_idx r) (dequeue_idx r) (cycle_state r) (capacity r)), true).

(** The events, with the completion code in the top byte of the status. *)
Definition post_transfer_event (r : EventRing) (trb_pointer transfer_length completion_code slot_id endpoint_id : Z) : res Empty_set (EventRing * bool) :=
  post_event r (mkTrb trb_pointer ((transfer_length .& 0xFFFFFF) .| (completion_code .<< 24))
    ((slot_id .<< 24) .| (endpoint_id .<< 16) .| (type_code TTransferEvent .<< 10))).
Definition post_command_completion (r : EventRing) (trb_pointer completion_code slot_id : Z) : res Empty_set (EventRing * bool) :=
  post_event r (mkTrb trb_pointer (completion_code .<< 24) ((slot_id .<< 24) .| (type_code TCommandCompletionEvent .<< 10))).
Definition post_port_status_change (r : EventRing) (port_id completion_code : Z) : res Empty_set (EventRing * bool) :=
  post_event r (mkTrb (port_id .<< 24) (completion_code .<< 24) (type_code TPortStatusChangeEvent .<< 10)).

(** ** The event ring of the driver *)

Record GuestEventRing := mkGuestRing { ge_erstba : Z; ge_erstsz : Z; ge_segments : list EventRingSegment; segment_index : nat; trb_index : nat; ge_cycle : bool }.

(** The interrupter, with the ring it has loaded. *)
Record InterrupterRegisterSet := mkInterrupter {
  iman : Z;
  imod : Z;
  erstsz : Z;
  erstba : Z;
  erdp : Z;
  event_ring : EventRing;
  guest_ring : option GuestEventRing }.

Section guest.
Context {Mem : Type} `{DmaMemory Mem}.

(** The entries [i], ..., [i + n - 1] of the segment table. *)
Fixpoint load_segments (mem : Mem) (erstba i : Z) (n : nat) : res Empty_set (option (list EventRingSegment)) :=
  match n with
  | O => Ok (Some [])
  | S n' =>
      a ← radd erstba (i * 16);
      match dma_read mem a 16 with
      | None => Ok None
      | Some entry =>
          let base := le_value (sub entry 0 8) .&~ 0x3F in
          let sz := le_value (sub entry 8 2) in
          if negb ((16 <=? sz) && (sz <=? 4096)) then Ok None else
          rest ← load_segments mem erstba (i + 1) n';
          Ok (segs ← rest; Some (mkSeg base sz :: segs))
      end
  end.
Definition load (mem : Mem) (erstba erstsz : Z) : res Empty_set (option GuestEventRing) :=
  if erstsz =? 0 then Ok None else
  segs ← load_segments mem erstba 0 (Z.to_nat erstsz);
  Ok (segs ← segs; Some (mkGuestRing erstba erstsz segs 0 0 true)).

Definition address_of (g : GuestEventRing) (pos : nat * nat) : res Empty_set Z :=
  match ge_segments g !! pos.1 with
  | Some seg => radd (base_address seg) (Z.of_nat pos.2 * 16)
  | None => Panic
  end.
Definition position_after (g : GuestEventRing) (pos : nat * nat) : res Empty_set (nat * nat) :=
  match ge_segments g !! pos.1 with
  | Some seg =>
      Ok (if Z.of_nat pos.2 + 1 <? size seg then (pos.1, S pos.2)
          else if (pos.1 + 1 <? length (ge_segments g))%nat then (S pos.1, O)
          else (O, O))
  | None => Panic
  end.

Definition write_event (g : GuestEventRing) (mem : Mem) (trb : Trb) (erdp : Z) : res Empty_set (GuestEventRing * Mem * bool) :=
  next ← position_after g (segment_index g, trb_index g);
  next_addr ← address_of g next;
  if next_addr =? erdp .&~ 0xF then Ok (g, mem, false) else
  addr ← address_of g (segment_index g, trb_index g);
  match dma_write mem addr (to_bytes (set_cycle_bit trb (ge_cycle g))) with
  | None => Ok (g, mem, false)
  | Some mem' =>
      let cycle := if bool_decide (next = (O, O)) then negb (ge_cycle g) else ge_cycle g in
      Ok (mkGuestRing (ge_erstba g) (ge_erstsz g) (ge_segments g) next.1 next.2 cycle, mem', true)
  end.

(** The loop of [flush_to_guest]: at most [fuel] turns, which the number of
    queued events bounds. *)
Fixpoint drain (fuel : nat) (r : EventRing) (g : GuestEventRing) (mem : Mem) (erdp delivered : Z) : res Empty_set (EventRing * GuestEventRing * Mem * Z) :=
  match fuel with
  | O => Ok (r, g, mem, delivered)
  | S fuel' =>
      if enqueue_idx r =? dequeue_idx r then Ok (r, g, mem, delivered) else
      match entries r !! Z.to_nat (dequeue_idx r) with
      | None => Ok (r, g, mem, delivered)
      | Some trb =>
          w ← write_event g mem trb erdp;
          let '(g', mem', written) := w in
          if (written : bool) then drain fuel' (set_dequeue_index r ((dequeue_idx r + 1) mod capacity r)) g' mem' erdp (delivered + 1)
          else Ok (r, g', mem', delivered)
      end
  end.
(** The ring of the segment table the driver has programmed: the one in use, or
    a new one. *)
Definition ring_for (i : InterrupterRegisterSet) (mem : Mem) : res Empty_set (option GuestEventRing) :=
  match guest_ring i with
  | Some g => if (ge_erstba g =? erstba i) && (ge_erstsz g =? erstsz i) then Ok (Some g) else load mem (erstba i) (erstsz i)
  | None => load mem (erstba i) (erstsz i)
  end.
Definition flush_to_guest (i : InterrupterRegisterSet) (mem : Mem) : res Empty_set (InterrupterRegisterSet * Mem * Z) :=
  if erstba i =? 0 then Ok (i, mem, 0) else
  ring ← ring_for i mem;
  match ring with
  | None => Ok (mkInterrupter (iman i) (imod i) (erstsz i) (erstba i) (erdp i) (event_ring i) None, mem, 0)
  | Some g =>
      d ← drain (Z.to_nat (pending_count (event_ring i))) (event_ring i) g mem (erdp i) 0;
      let '(r, g', mem', n) := d in
      Ok (mkInterrupter (iman i) (imod i) (erstsz i) (erstba i) (erdp i) r (Some g'), mem', n)
  end.
End guest.

Definition Interrupter_new : InterrupterRegisterSet := mkInterrupter 0 0xFA0 1 0 0 (EventRing_new 256) None.
Definition set_pending (i : InterrupterRegisterSet) (pending : bool) : InterrupterRegisterSet :=
  mkInterrupter (if pending then iman i .| 1 else iman i .&~ 1) (imod i) (erstsz i) (erstba i) (erdp i) (event_ring i) (guest_ring i).
Definition write_iman (i : InterrupterRegisterSet) (value : Z) : InterrupterRegisterSet :=
  let im := if value .& 1 =? 0 then iman i else iman i .&~ 1 in
  mkInterrupter ((im .& 1) .| (value .& 2)) (imod i) (erstsz i) (erstba i) (erdp i) (event_ring i) (guest_ring i).
Definition write_erstsz (i : InterrupterRegisterSet) (value : Z) : InterrupterRegisterSet :=
  mkInterrupter (iman i) (imod i) (value .& 0xFFFF) (erstba i) (erdp i) (event_ring i) (guest_ring i).
Definition write_erdp (i : InterrupterRegisterSet) (value : Z) : InterrupterRegisterSet :=
  mkInterrupter (iman i) (imod i) (erstsz i) (erstba i) (value .&~ 0xF) (event_ring i) (guest_ring i).
Definition interrupter_reset (i : InterrupterRegisterSet) : InterrupterRegisterSet :=
  mkInterrupter 0 0xFA0 1 0 0 (ring_reset (event_ring i)) None.

(** ** The queue is a bounded FIFO *)

Record ring_wf (r : EventRing) : Prop := {
  rw_cap : 1 < capacity r;
  rw_len : Z.of_nat (length (entries r)) = capacity r;
  rw_enq : 0 <= enqueue_idx r < capacity r;
  rw_deq : 0 <= dequeue_idx r < capacity r }.

(** The pending events, oldest first. *)
Definition queue (r : EventRing) : list Trb :=
  (fun k => entries r !!! Z.to_nat ((dequeue_idx r + k) mod capacity r)) <$> seqZ 0 (pending_count r).

Lemma pending_range r : ring_wf r -> 0 <= pending_count r < capacity r.
Proof. intros [? ? ? ?]. unfold pending_count. destruct (Z.leb_spec (dequeue_idx r) (enqueue_idx r)); lia. Qed.

Lemma pending_enqueue r : ring_wf r -> (dequeue_idx r + pending_count r) mod capacity r = enqueue_idx r.
Proof.
  intros [? ? ? ?]. unfold pending_count. destruct (Z.leb_spec (dequeue_idx r) (enqueue_idx r)).
  - replace (dequeue_idx r + (enqueue_idx r - dequeue_idx r)) with (enqueue_idx r) by lia. by apply Z.mod_small.
  - replace (dequeue_idx r + _) with (enqueue_idx r + 1 * capacity r) by lia. rewrite Z.mod_add, Z.mod_small by lia. done.
Qed.

Lemma length_queue r : ring_wf r -> Z.of_nat (length (queue r)) = pending_count r.
Proof. intros Hw. pose proof (pending_range r Hw). unfold queue. rewrite length_fmap, length_seqZ. lia. Qed.

Lemma is_full_spec r : ring_wf r -> is_full r = (pending_count r =? capacity r - 1).
Proof.
  intros [? ? ? ?]. unfold is_full, pending_count. apply Bool.eq_iff_eq_true. rewrite !Z.eqb_eq.
  destruct (Z.leb_spec (capacity r) (enqueue_idx r + 1)), (Z.leb_spec (dequeue_idx r) (enqueue_idx r)); lia.
Qed.

Lemma seqZ_snoc m n : 0 <= n -> seqZ m (n + 1) = seqZ m n ++ [m + n].
Proof. intros Hn. rewrite seqZ_app by lia. done. Qed.

Lemma post_event_spec r trb : ring_wf r ->
  if pending_count r <? capacity r - 1 then
    exists r', post_event r trb = Ok (r', true) /\ ring_wf r' /\ queue r' = queue r ++ [set_cycle_bit trb (cycle_state r)] /\ capacity r' = capacity r
  else post_event r trb = Ok (r, false).
Proof.
  intros Hw. pose proof (pending_range r Hw) as Hp. pose proof (pending_enqueue r Hw) as He. unfold post_event. rewrite is_full_spec by done.
  destruct (Z.ltb_spec (pending_count r) (capacity r - 1)); [rewrite (proj2 (Z.eqb_neq _ _)) by lia|by rewrite (proj2 (Z.eqb_eq _ _)) by lia]. destruct Hw as [Hc Hl Hen Hd].
  rewrite (proj2 (Z.leb_gt _ _)) by lia. eexists. split; [done|]. set (t := set_cycle_bit trb _). set (es := <[_ := t]> _).
  assert (Hlen : Z.of_nat (length es) = capacity r) by (unfold es; by rewrite length_insert).
  set (r' := advance_enqueue _).
  assert (Hr' : entries r' = es /\ capacity r' = capacity r /\ dequeue_idx r' = dequeue_idx r /\ enqueue_idx r' = (if capacity r <=? enqueue_idx r + 1 then 0 else enqueue_idx r + 1))
    by (unfold r', advance_enqueue; cbn; by destruct (capacity r <=? enqueue_idx r + 1)).
  destruct Hr' as (E1 & E2 & E3 & E4). assert (Hw' : ring_wf r') by (constructor; rewrite ?E1, ?E2, ?E3, ?E4; try lia; destruct (Z.leb_spec (capacity r) (enqueue_idx r + 1)); lia).
  assert (Hpc : pending_count r' = pending_count r + 1).
  { unfold pending_count in *. rewrite E2, E3, E4. destruct (Z.leb_spec (capacity r) (enqueue_idx r + 1)); repeat (case_match; breflect); lia. }
  split_and!; [done| |done]. unfold queue. rewrite Hpc, seqZ_snoc, fmap_app by lia. cbn [fmap list_fmap]. replace (0 + pending_count r) with (pending_count r) by lia. rewrite E1, E2, E3, He. f_equal.
  - apply list_fmap_ext. intros i k Hk. apply lookup_seqZ in Hk as [-> Hk]. unfold es. rewrite list_lookup_total_insert_ne; [done|].
    intros Heq. apply Z2Nat.inj in Heq; [|lia|apply Z.mod_pos_bound; lia]. rewrite <- He in Heq.
    assert (Hdiv : (pending_count r - (0 + Z.of_nat i)) mod capacity r = 0).
    { rewrite (Z.add_mod (dequeue_idx r)), (Z.add_mod (dequeue_idx r) (0 + Z.of_nat i)) in Heq by lia. 
      replace (pending_count r - (0 + Z.of_nat i)) with ((dequeue_idx r + pending_count r) - (dequeue_idx r + (0 + Z.of_nat i))) by lia.
      rewrite Zminus_mod, (Z.add_mod (dequeue_idx r)), Heq, <- (Z.add_mod (dequeue_idx r) (0 + Z.of_nat i)), Z.sub_diag by lia. done. }
    rewrite Z.mod_small in Hdiv by lia. lia.
  - unfold es. rewrite list_lookup_total_insert_eq by lia. done.
Qed.

Lemma queue_nil r : ring_wf r -> (enqueue_idx r =? dequeue_idx r) = true <-> queue r = [].
Proof.
  intros Hw. pose proof (length_queue r Hw) as Hl. rewrite Z.eqb_eq. destruct Hw as [? ? ? ?]. unfold pending_count in Hl. split; intros He.
  - destruct (queue r); [done|]. cbn in Hl. destruct (Z.leb_spec (dequeue_idx r) (enqueue_idx r)); lia.
  - rewrite He in Hl. cbn in Hl. destruct (Z.leb_spec (dequeue_idx r) (enqueue_idx r)); lia.
Qed.

Lemma queue_pop r : ring_wf r -> (enqueue_idx r =? dequeue_idx r) = false ->
  exists trb, entries r !! Z.to_nat (dequeue_idx r) = Some trb /\
    let r' := set_dequeue_index r ((dequeue_idx r + 1) mod capacity r) in
    queue r = trb :: queue r' /\ ring_wf r' /\ capacity r' = capacity r.
Proof.
  intros Hw Hne%Z.eqb_neq. pose proof (pending_range r Hw) as Hp. destruct Hw as [Hc Hl He Hd]. destruct (lookup_lt_is_Some_2 (entries r) (Z.to_nat (dequeue_idx r))) as [trb Ht]; [lia|].
  exists trb. split; [done|]. cbv zeta. set (d' := (dequeue_idx r + 1) mod capacity r). assert (Hd' : 0 <= d' < capacity r) by (apply Z.mod_pos_bound; lia).
  unfold set_dequeue_index. rewrite (proj2 (Z.ltb_lt _ _)) by lia. set (r' := mkRing _ _ _ _ _ _).
  assert (Hdv : d' = dequeue_idx r + 1 \/ (d' = 0 /\ dequeue_idx r + 1 = capacity r)).
  { unfold d'. destruct (Z.eq_dec (dequeue_idx r + 1) (capacity r)) as [E|E]; [right; rewrite E, Z.mod_same; lia|left; apply Z.mod_small; lia]. }
  assert (Hpc : pending_count r' + 1 = pending_count r) by (unfold pending_count; cbn; repeat (case_match; breflect); lia).
  split_and!; [|by constructor; cbn; lia|done]. unfold queue. assert (Hpos : 0 < pending_count r) by (unfold pending_count in *; cbn in Hpc; repeat (case_match; breflect); lia).
  rewrite seqZ_cons by lia. cbn [fmap list_fmap]. f_equal; [rewrite Z.add_0_r, Z.mod_small by lia; by apply list_lookup_total_correct|].
  replace (Z.pred (pending_count r)) with (pending_count r') by lia. apply list_eq. intros i. rewrite !list_lookup_fmap.
  destruct (decide (Z.of_nat i < pending_count r')) as [Hi|Hi]; [|rewrite !lookup_seqZ_ge by lia; done]. rewrite !lookup_seqZ_lt by lia. cbn. do 3 f_equal.
  unfold d'. rewrite Z.add_mod_idemp_l by lia. f_equal. lia.
Qed.

(** ** The slots of the driver's ring *)

(** The addresses of the TRBs of the ring, in the order they are used. *)
Definition slots (segs : list EventRingSegment) : list Z := segs ≫= fun seg => (fun i => base_address seg + i * 16) <$> seqZ 0 (size seg).
Fixpoint lin (segs : list EventRingSegment) (s i : nat) {struct s} : nat :=
  match s, segs with
  | S s', seg :: segs' => (Z.to_nat (size seg) + lin segs' s' i)%nat
  | _, _ => i
  end.

Definition segs_ok (segs : list EventRingSegment) : Prop := segs <> [] /\ Forall (fun seg => 1 <= size seg) segs.
Definition pos_ok (segs : list EventRingSegment) (pos : nat * nat) : Prop := exists seg, segs !! pos.1 = Some seg /\ Z.of_nat pos.2 < size seg.

Lemma slots_cons seg segs : slots (seg :: segs) = ((fun i => base_address seg + i * 16) <$> seqZ 0 (size seg)) ++ slots segs.
Proof. done. Qed.

Lemma slots_lin segs s i seg : Forall (fun seg => 1 <= size seg) segs -> segs !! s = Some seg -> Z.of_nat i < size seg -> slots segs !! lin segs s i = Some (base_address seg + Z.of_nat i * 16).
Proof.
  revert s. induction segs as [|seg' segs IH]; intros s Hok Hs Hi; [done|]. apply Forall_cons_1 in Hok as [H1 Hok]. rewrite slots_cons. destruct s as [|s]; cbn [lin lookup list_lookup] in *.
  - injection Hs as ->. rewrite lookup_app_l by (rewrite length_fmap, length_seqZ; lia). rewrite list_lookup_fmap, lookup_seqZ_lt by lia. cbn. f_equal.
  - rewrite lookup_app_r by (rewrite length_fmap, length_seqZ; lia). rewrite length_fmap, length_seqZ. replace (_ + _ - _)%nat with (lin segs s i) by lia. by apply IH.
Qed.

Lemma length_slots_cons seg segs : length (slots (seg :: segs)) = (Z.to_nat (size seg) + length (slots segs))%nat.
Proof. by rewrite slots_cons, length_app, length_fmap, length_seqZ. Qed.

(** The next position is the next slot, and the first after the last. *)
Lemma position_after_lin g pos : segs_ok (ge_segments g) -> pos_ok (ge_segments g) pos ->
  exists next, position_after g pos = Ok next /\ pos_ok (ge_segments g) next /\
    (lin (ge_segments g) pos.1 pos.2 < length (slots (ge_segments g)))%nat /\
    lin (ge_segments g) next.1 next.2 = (if (S (lin (ge_segments g) pos.1 pos.2) <? length (slots (ge_segments g)))%nat then S (lin (ge_segments g) pos.1 pos.2) else O) /\
    (next = (O, O) <-> lin (ge_segments g) next.1 next.2 = O).
Proof.
  intros [Hne Hok] (seg & Hs & Hi). destruct pos as [s i]. cbn [fst snd] in *. unfold position_after. cbn [fst snd]. rewrite Hs. eexists. split; [done|].
  assert (Hlin : forall segs s seg, Forall (fun seg => 1 <= size seg) segs -> segs !! s = Some seg -> Z.of_nat i < size seg ->
     (lin segs s i < length (slots segs))%nat /\
     (Z.of_nat i + 1 = size seg -> lin segs (S s) 0 = S (lin segs s i) /\ ((s + 1 = length segs)%nat -> S (lin segs s i) = length (slots segs)) /\ ((s + 1 < length segs)%nat -> (S (lin segs s i) < length (slots segs))%nat)) /\
     (Z.of_nat i + 1 < size seg -> (S (lin segs s i) < length (slots segs))%nat /\ lin segs s (S i) = S (lin segs s i))).
  { clear. induction segs as [|seg' segs IH]; intros s seg Hok Hs Hi; [done|]. apply Forall_cons_1 in Hok as [H1 Hok]. rewrite length_slots_cons. destruct s as [|s]; cbn [lin lookup list_lookup length] in *.
    - injection Hs as ->. split_and!; [lia|intros He; split_and!|intros He; lia]; [destruct segs; cbn; lia|intros Hl; destruct segs; [cbn; lia|cbn in Hl; lia]|].
      intros Hl. destruct segs as [|seg2 segs]; [cbn in Hl; lia|]. apply Forall_cons_1 in Hok as [H2 _]. rewrite length_slots_cons. lia.
    - destruct (IH s seg Hok Hs Hi) as (I1 & I2 & I3). split_and!; [lia| |intros He; destruct (I3 He); lia]. intros He. destruct (I2 He) as (J1 & J2 & J3). cbn [lin] in J1. split_and!; [|intros; lia|intros; lia]. destruct s; cbn [lin] in *; lia. }
  destruct (Hlin (ge_segments g) s seg Hok Hs Hi) as (L1 & L2 & L3).
  assert (Hzero : forall segs s' i', Forall (fun seg => 1 <= size seg) segs -> (s' < length segs)%nat -> lin segs s' i' = O <-> (s', i') = (O, O)).
  { clear. intros segs s' i' Hok Hl. destruct s' as [|s']; [cbn; split; [by intros ->|congruence]|]. destruct segs as [|seg segs]; [cbn in Hl; lia|]. apply Forall_cons_1 in Hok as [H1 _]. cbn [lin]. split; [lia|done]. }
  pose proof (lookup_lt_Some _ _ _ Hs) as Hsl. destruct (Z.ltb_spec (Z.of_nat i + 1) (size seg)) as [Hlt|Hge].
  - destruct (L3 Hlt) as [M1 M2]. cbn [fst snd]. split_and!; [exists seg; cbn; split; [done|lia]|done|by rewrite M2, (proj2 (Nat.ltb_lt _ _))|symmetry; by apply Hzero].
  - destruct (L2 ltac:(lia)) as (M1 & M2 & M3). destruct (Nat.ltb_spec (s + 1) (length (ge_segments g))) as [Hn|Hn]; cbn [fst snd].
    + destruct (lookup_lt_is_Some_2 (ge_segments g) (S s)) as [seg' Hs']; [lia|]. split_and!.
      * exists seg'. split; [done|]. cbn. pose proof (Forall_lookup_1 _ _ _ _ Hok Hs') as H1. cbn in H1. lia.
      * done.
      * by rewrite M1, (proj2 (Nat.ltb_lt _ _)) by (by apply M3).
      * symmetry. apply Hzero; [done|lia].
    + split_and!; [|done| |done].
      * destruct (ge_segments g) as [|seg0 segs0]; [done|]. exists seg0. split; [done|]. apply Forall_cons_1 in Hok as [? _]. cbn. lia.
      * rewrite (proj2 (Nat.ltb_ge _ _)); [done|]. rewrite M2; lia.
Qed.

(** ** Draining *)

(** The slot after [p], and the cycle state there. *)
Definition next_slot (T p : nat) : nat := if (S p <? T)%nat then S p else O.
Definition next_cycle (T p : nat) (c : bool) : bool := if bool_decide (next_slot T p = O) then negb c else c.

(** The events as they are written from slot [p] on. *)
Fixpoint stamp (T p : nat) (c : bool) (l : list Trb) : list Trb :=
  match l with
  | [] => []
  | t :: l' => set_cycle_bit t c :: stamp T (next_slot T p) (next_cycle T p c) l'
  end.

Lemma next_slot_mod T p : (p < T)%nat -> next_slot T p = ((p + 1) mod T)%nat.
Proof.
  intros Hp. unfold next_slot. destruct (Nat.ltb_spec (S p) T); [rewrite Nat.mod_small; lia|]. replace (p + 1)%nat with T by lia. by rewrite Nat.Div0.mod_same.
Qed.

Section drain.
Context {Mem : Type} `{DmaLaws Mem}.

(** A driver that reads [n] events from slot [p] on, each with the cycle bit it
    expects there. *)
Fixpoint driver_reads (sl : list Z) (mem : Mem) (n p : nat) (c : bool) : option (list Trb) :=
  match n with
  | O => Some []
  | S n' =>
      a ← sl !! p;
      bytes ← dma_read mem a 16;
      if Bool.eqb (cycle_bit (from_bytes bytes)) c then
        rest ← driver_reads sl mem n' (next_slot (length sl) p) (next_cycle (length sl) p c);
        Some (from_bytes bytes :: rest)
      else None
  end.

(** The slots do not overlap, and lie in the address space. *)
Definition slots_ok (sl : list Z) : Prop :=
  Forall (fun a => 0 <= a /\ a + 16 <= 2 ^ 64) sl /\
  forall i j a b, sl !! i = Some a -> sl !! j = Some b -> i <> j -> a + 16 <= b \/ b + 16 <= a.

Definition guest_ok (g : GuestEventRing) : Prop :=
  segs_ok (ge_segments g) /\ pos_ok (ge_segments g) (segment_index g, trb_index g) /\ slots_ok (slots (ge_segments g)).
Definition slot_of (g : GuestEventRing) : nat := lin (ge_segments g) (segment_index g) (trb_index g).

Lemma address_of_slot g pos : segs_ok (ge_segments g) -> slots_ok (slots (ge_segments g)) -> pos_ok (ge_segments g) pos ->
  exists a, address_of g pos = Ok a /\ slots (ge_segments g) !! lin (ge_segments g) pos.1 pos.2 = Some a.
Proof.
  intros [_ Hok] [Hr _] (seg & Hs & Hi). pose proof (slots_lin _ _ _ _ Hok Hs Hi) as Hl. exists (base_address seg + Z.of_nat pos.2 * 16). split; [|done].
  unfold address_of. rewrite Hs. pose proof (Forall_lookup_1 _ _ _ _ Hr Hl) as Hb. cbn in Hb. unfold radd. by rewrite (proj2 (Z.ltb_lt _ _)) by lia.
Qed.

Lemma write_event_slot g mem trb erdp : guest_ok g ->
  let sl := slots (ge_segments g) in let T := length sl in
  exists a b, sl !! slot_of g = Some a /\ sl !! next_slot T (slot_of g) = Some b /\
    if b =? erdp .&~ 0xF then write_event g mem trb erdp = Ok (g, mem, false)
    else match dma_write mem a (to_bytes (set_cycle_bit trb (ge_cycle g))) with
         | None => write_event g mem trb erdp = Ok (g, mem, false)
         | Some mem' => exists g', write_event g mem trb erdp = Ok (g', mem', true) /\ guest_ok g' /\ ge_segments g' = ge_segments g /\
             slot_of g' = next_slot T (slot_of g) /\ ge_cycle g' = next_cycle T (slot_of g) (ge_cycle g)
         end.
Proof.
  intros (Hs & Hp & Hl). cbv zeta. destruct (position_after_lin g _ Hs Hp) as (next & Hn & Hnp & _ & Hlin & Hz). destruct (address_of_slot g _ Hs Hl Hp) as (a & Ha & Hsa).
  destruct (address_of_slot g next Hs Hl Hnp) as (b & Hb & Hsb). exists a, b. cbn [fst snd] in *. fold (slot_of g) in Hsa, Hlin. fold (next_slot (length (slots (ge_segments g))) (slot_of g)) in Hlin.
  rewrite Hlin in Hsb. split_and!; [done|done|]. unfold write_event. rewrite Hn. cbn [mbind res_bind]. rewrite Hb. cbn [mbind res_bind]. destruct (b =? _); [done|]. rewrite Ha. cbn [mbind res_bind].
  destruct (dma_write _ _ _) as [mem'|]; [|done]. eexists. split; [done|]. split_and!; [split_and!; [done|by destruct next|done]|done|done|]. cbn. unfold next_cycle. rewrite Hlin in Hz.
  by rewrite (bool_decide_ext _ _ Hz).
Qed.

Lemma set_cycle_fits t c : trb_fits t -> trb_fits (set_cycle_bit t c) /\ cycle_bit (set_cycle_bit t c) = c.
Proof.
  intros (H1 & H2 & H3). unfold trb_fits, set_cycle_bit, cycle_bit. cbn [parameter status control]. split.
  - split_and!; [done|done|]. destruct c; [by apply fits_lor|by apply fits_ldiff].
  - destruct c.
    + rewrite Z.land_lor_distr_l. destruct (Z.eqb_spec ((control t .& 1) .| (1 .& 1)) 0) as [E|]; [|done]. apply Z.lor_eq_0_iff in E as [_ E]. done.
    + by rewrite Z.land_ldiff.
Qed.

(** What one flush writes: a driver finds the first [n] events of the queue from
    the slot of the ring on; nothing outside their slots has changed; and it
    stops at the end of the queue, in front of the slot [room] slots away, or
    where memory is not backed. *)
Definition drained (sl : list Z) (room : nat) (r : EventRing) (g : GuestEventRing) (mem : Mem) (n : nat) (r' : EventRing) (g' : GuestEventRing) (mem' : Mem) : Prop :=
  (n <= room)%nat /\ (n <= length (queue r))%nat /\
  ring_wf r' /\ queue r' = drop n (queue r) /\
  guest_ok g' /\ slots (ge_segments g') = sl /\ slot_of g' = ((slot_of g + n) mod length sl)%nat /\
  driver_reads sl mem' n (slot_of g) (ge_cycle g) = Some (stamp (length sl) (slot_of g) (ge_cycle g) (take n (queue r))) /\
  (forall b m, 0 <= b -> 0 <= m -> (forall k a, (k < n)%nat -> sl !! ((slot_of g + k) mod length sl)%nat = Some a -> b + m <= a \/ a + 16 <= b) -> dma_read mem' b m = dma_read mem b m) /\
  (n = length (queue r) \/ n = room \/ exists a bytes, sl !! slot_of g' = Some a /\ len bytes = 16 /\ dma_write mem' a bytes = None).

Lemma slot_lt g : guest_ok g -> (slot_of g < length (slots (ge_segments g)))%nat.
Proof. intros (Hs & Hp & _). by destruct (position_after_lin g _ Hs Hp) as (next & _ & _ & Hlt & _). Qed.

Lemma mod_shift_ne (T p d : nat) : (p < T)%nat -> (0 < d < T)%nat -> ((p + d) mod T)%nat <> p.
Proof.
  intros Hp Hd He. destruct (Nat.lt_ge_cases (p + d) T); [rewrite Nat.mod_small in He; lia|].
  replace (p + d)%nat with ((p + d - T) + 1 * T)%nat in He by lia. rewrite Nat.Div0.mod_add, Nat.mod_small in He; lia.
Qed.

Lemma mod_add_step (T p k : nat) : ((((p + 1) mod T) + k) mod T)%nat = ((p + S k) mod T)%nat.
Proof. rewrite Nat.Div0.add_mod_idemp_l. f_equal. lia. Qed.

Lemma drained_none r g mem room : ring_wf r -> guest_ok g -> 
  (queue r = [] \/ room = O \/ exists a bytes, slots (ge_segments g) !! slot_of g = Some a /\ len bytes = 16 /\ dma_write mem a bytes = None) ->
  drained (slots (ge_segments g)) room r g mem 0 r g mem.
Proof.
  intros Hw Hg Hstop. pose proof (slot_lt g Hg). split_and!; try done; [lia|lia|by rewrite Nat.add_0_r, Nat.mod_small|]. destruct Hstop as [->|[->|Hs]]; auto.
Qed.

Lemma drained_step r g mem room trb r1 g1 mem1 a n r' g' mem' : guest_ok g -> trb_fits trb -> slots (ge_segments g) !! slot_of g = Some a -> (S room < length (slots (ge_segments g)))%nat ->
  queue r = trb :: queue r1 -> dma_write mem a (to_bytes (set_cycle_bit trb (ge_cycle g))) = Some mem1 ->
  slot_of g1 = next_slot (length (slots (ge_segments g))) (slot_of g) -> ge_cycle g1 = next_cycle (length (slots (ge_segments g))) (slot_of g) (ge_cycle g) ->
  drained (slots (ge_segments g)) room r1 g1 mem1 n r' g' mem' -> drained (slots (ge_segments g)) (S room) r g mem (S n) r' g' mem'.
Proof.
  intros Hg Hfit Ha Hroom Hq Hwr Hs1 Hc1 (D1 & D2 & D3 & D4 & D5 & D6 & D7 & D8 & D9 & D10). set (sl := slots (ge_segments g)) in *. set (T := length sl) in *.
  pose proof (slot_lt g Hg) as Hp. fold sl T in Hp. rewrite next_slot_mod in Hs1 by done. destruct Hg as (_ & _ & [Hrange Hdis]). fold sl in Hrange, Hdis.
  pose proof (Forall_lookup_1 _ _ _ _ Hrange Ha) as Har. cbn in Har. pose proof (to_bytes_len (set_cycle_bit trb (ge_cycle g))) as H16.
  destruct (set_cycle_fits trb (ge_cycle g) Hfit) as [Hfit' Hcyc].
  assert (Hread : dma_read mem' a 16 = Some (to_bytes (set_cycle_bit trb (ge_cycle g)))).
  { pose proof (dma_read_same mem a _ mem1 ltac:(lia) Hwr) as Hrs. rewrite H16 in Hrs. rewrite D9; [done|lia|lia|]. intros k a' Hk Ha'. rewrite Hs1, mod_add_step in Ha'. apply (Hdis (slot_of g) _ a a' Ha Ha'). intros E. symmetry in E. revert E. apply mod_shift_ne; lia. }
  split_and!; try done.
  - lia.
  - rewrite Hq. cbn. lia.
  - by rewrite Hq.
  - by rewrite D7, Hs1, mod_add_step.
  - cbn [driver_reads]. rewrite Ha. cbn [mbind option_bind]. rewrite Hread. cbn [mbind option_bind]. rewrite (from_to_bytes _ Hfit'), Hcyc, Bool.eqb_reflx. fold T.
    rewrite <- Hc1, (next_slot_mod T) by done. rewrite <- Hs1, D8. cbn [mbind option_bind]. rewrite Hq. cbn [take stamp]. by rewrite (next_slot_mod T), <- Hs1, <- Hc1 by done.
  - intros b m Hb Hm Hd. rewrite D9; [|done|done|].
    + apply (dma_read_other mem a (to_bytes (set_cycle_bit trb (ge_cycle g))) mem1); [lia|done|done|done|]. rewrite H16. apply (Hd O a); [lia|by rewrite Nat.add_0_r, Nat.mod_small].
    + intros k a' Hk Ha'. rewrite Hs1, mod_add_step in Ha'. apply (Hd (S k)); [lia|done].
  - destruct D10 as [->|[->|D10]]; [left; by rewrite Hq|auto..].
Qed.

Lemma drain_spec e erdp : forall fuel r g mem delivered room,
  ring_wf r -> Forall trb_fits (queue r) -> guest_ok g -> slots (ge_segments g) !! e = Some (erdp .&~ 0xF) -> (length (queue r) <= fuel)%nat ->
  (room < length (slots (ge_segments g)))%nat -> ((slot_of g + room + 1) mod length (slots (ge_segments g)))%nat = e ->
  exists n r' g' mem', drain fuel r g mem erdp delivered = Ok (r', g', mem', delivered + Z.of_nat n) /\ drained (slots (ge_segments g)) room r g mem n r' g' mem'.
Proof.
  induction fuel as [|fuel IH]; intros r g mem delivered room Hw Hfit Hg He Hlen Hroom Hre.
  - exists O, r, g, mem. split; [cbn; by rewrite Z.add_0_r|]. apply drained_none; [done..|]. left. by apply length_zero_iff_nil; lia.
  - cbn [drain]. destruct (enqueue_idx r =? dequeue_idx r) eqn:Eq.
    { exists O, r, g, mem. split; [by rewrite Z.add_0_r|]. apply drained_none; [done..|]. left. by apply queue_nil. }
    destruct (queue_pop r Hw Eq) as (trb & -> & Hq & Hw1 & _). set (r1 := set_dequeue_index _ _) in *.
    destruct (write_event_slot g mem trb erdp Hg) as (a & b & Ha & Hb & Hwr). pose proof (slot_lt g Hg) as Hp. destruct (Z.eqb_spec b (erdp .&~ 0xF)) as [->|Hbe].
    { exists O, r, g, mem. rewrite Hwr. split; [cbn; by rewrite Z.add_0_r|]. apply drained_none; [done..|]. right. left. destruct Hg as (_ & _ & [_ Hdis]).
      destruct (decide (next_slot (length (slots (ge_segments g))) (slot_of g) = e)) as [Hne|Hne]; [|destruct (Hdis _ _ _ _ Hb He Hne); lia].
      rewrite next_slot_mod in Hne by done. destruct room as [|room]; [done|]. exfalso. rewrite <- Hre in Hne. replace (slot_of g + S room + 1)%nat with ((slot_of g + 1) + S room)%nat in Hne by lia.
      pose proof (mod_shift_ne (length (slots (ge_segments g))) ((slot_of g + 1) mod length (slots (ge_segments g))) (S room)) as Hx.
      rewrite Nat.Div0.add_mod_idemp_l in Hx. apply Hx; [apply Nat.mod_upper_bound; lia|lia|done]. }
    destruct (dma_write mem a _) as [mem1|] eqn:Ewr; [|exists O, r, g, mem; rewrite Hwr; split; [cbn; by rewrite Z.add_0_r|]; apply drained_none; [done..|]; right; right; eauto using to_bytes_len].
    destruct Hwr as (g1 & -> & Hg1 & Hs1 & Hsl1 & Hc1). cbn [mbind res_bind]. rewrite Hq in Hlen, Hfit. cbn [length] in Hlen. apply Forall_cons_1 in Hfit as [Hft Hfit].
    destruct room as [|room].
    { exfalso. rewrite Nat.add_0_r, <- next_slot_mod in Hre by done. congruence. }
    destruct (IH r1 g1 mem1 (delivered + 1) room) as (n & r' & g' & mem' & Hd & Hdr); [done|done|done|by rewrite Hs1|lia|rewrite Hs1; lia| |].
    { rewrite Hs1, Hsl1, next_slot_mod by done. rewrite <- Hre, <- Nat.add_assoc, mod_add_step. f_equal. lia. }
    exists (S n), r', g', mem'. split; [rewrite Hd; do 2 f_equal; lia|]. rewrite Hs1 in Hdr. by apply (drained_step r g mem room trb r1 g1 mem1 a).
Qed.

End drain.

(** C14: A flush hands a prefix of the queued events to the driver: a driver that
    follows the cycle bits of its ring from the slot of the writer reads exactly
    those events, in order; they leave the queue; no slot from the one its
    dequeue pointer names up to the writer's, and nothing else of guest memory,
    has changed; and events stay queued only if the ring has no room for them or
    is not backed by memory. *)
Theorem xhci_flush_delivers {Mem} `{DmaLaws Mem} i (mem : Mem) g e room :
  ring_wf (event_ring i) -> Forall trb_fits (queue (event_ring i)) -> erstba i <> 0 -> ring_for i mem = Ok (Some g) -> guest_ok g ->
  slots (ge_segments g) !! e = Some (erdp i .&~ 0xF) -> (room < length (slots (ge_segments g)))%nat -> ((slot_of g + room + 1) mod length (slots (ge_segments g)))%nat = e ->
  exists n r' g' mem',
    flush_to_guest i mem = Ok (mkInterrupter (iman i) (imod i) (erstsz i) (erstba i) (erdp i) r' (Some g'), mem', Z.of_nat n) /\
    drained (slots (ge_segments g)) room (event_ring i) g mem n r' g' mem'.
Proof.
  intros Hw Hfit Hb Hring Hg He Hroom Hre. unfold flush_to_guest. rewrite (proj2 (Z.eqb_neq _ _) Hb), Hring. cbn [mbind res_bind].
  destruct (drain_spec e (erdp i) (Z.to_nat (pending_count (event_ring i))) (event_ring i) g mem 0 room) as (n & r' & g' & mem' & Hd & Hdr); try done.
  - rewrite <- (length_queue _ Hw). lia.
  - exists n, r', g', mem'. by rewrite Hd.
Qed.

Lemma slots_single base n : 0 <= base -> 0 <= n -> base + n * 16 <= 2 ^ 64 -> slots_ok (slots [mkSeg base n]).
Proof.
  intros Hb Hn He. assert (Hs : slots [mkSeg base n] = (fun i => base + i * 16) <$> seqZ 0 n) by (by rewrite slots_cons, app_nil_r). rewrite Hs. split.
  - apply Forall_forall. intros a (i & -> & Hi%elem_of_seqZ)%list_elem_of_In%list_elem_of_fmap. lia.
  - intros i j a b Ha Hbb Hij. rewrite list_lookup_fmap in Ha, Hbb. apply fmap_Some in Ha as (x & [-> ?]%lookup_seqZ & ->). apply fmap_Some in Hbb as (y & [-> ?]%lookup_seqZ & ->). lia.
Qed.

(** A segment table of one entry, the segment behind it, and a queued event. *)
Definition sample_memory : VecDmaMemory := mkVecDma 0x1000 (le_bytes 8 0x1040 ++ le_bytes 8 16 ++ zeros 304).
Definition sample_interrupter : InterrupterRegisterSet :=
  mkInterrupter 2 0xFA0 1 0x1000 0x1040 (mkRing [mkSeg 0 4] [mkTrb 0x1000000 0x1000000 0x8801; mkTrb 0 0 0; mkTrb 0 0 0; mkTrb 0 0 0] 1 0 true 4) None.

Lemma xhci_flush_delivers_witness : exists n r' g' mem', flush_to_guest sample_interrupter sample_memory = Ok (mkInterrupter 2 0xFA0 1 0x1000 0x1040 r' (Some g'), mem', Z.of_nat n) /\
  driver_reads (slots [mkSeg 0x1040 16]) mem' n 0 true = Some [mkTrb 0x1000000 0x1000000 0x8801].
Proof.
  assert (Hg : guest_ok (mkGuestRing 0x1000 1 [mkSeg 0x1040 16] 0 0 true)).
  { split_and!; [split; [done|by repeat constructor]|by exists (mkSeg 0x1040 16)|by apply slots_single]. }
  destruct (xhci_flush_delivers sample_interrupter sample_memory (mkGuestRing 0x1000 1 [mkSeg 0x1040 16] 0 0 true) 0 15) as (n & r' & g' & mem' & Hf & Hd); [by constructor|apply Forall_singleton; by vm_compute|done|by vm_compute|exact Hg|by vm_compute|apply Nat.ltb_lt; by vm_compute|by vm_compute|].
  exists n, r', g', mem'. split; [exact Hf|]. destruct Hd as (_ & _ & _ & _ & _ & _ & _ & Hr & _).
  assert (Hn : (match flush_to_guest sample_interrupter sample_memory with Ok (_, _, k) => k | _ => 0 end) = 1) by by vm_compute.
  rewrite Hf in Hn. assert (n = 1%nat) as -> by lia. exact Hr.
Defined.
