(* ===== verification/XhciPorts.v ===== *)
(** * The root-hub ports of the virtual xHCI controller

    The operational and port registers of
    [enlil-devices/src/usb/xhci/registers.rs] with the guest driver's writes to
    them, and the part of [usb/controller.rs] that plugs devices: attaching to
    the lowest free port of the device's protocol, disconnecting, and the Port
    Status Change event of both.  A device model is a trait object, any type
    here. *)

From Stdlib Require Import ZArith Lia Bool.
From stdpp Require Import base decidable list numbers gmap.
From S2P Require Import Prelude Rust UsbRouting XhciRing XhciEvent.

(** ** Port registers *)

Inductive PortState := Disconnected | Disabled | Resetting | Enabled | Suspended | Compliance.
Record PortRegisterSet := mkPort { portsc : Z; portpmsc : Z; portli : Z; porthlpmc : Z; port_state : PortState; port_speed : Z }.

Abbreviation is_connected p := (negb (Z.land (portsc p) 1 =? 0)) (only parsing).
Definition connect_port (p : PortRegisterSet) (speed : Z) : PortRegisterSet :=
  mkPort (1 .| (speed .<< 10) .| (1 .<< 9) .| (1 .<< 17)) (portpmsc p) (portli p) (porthlpmc p) Disabled speed.
Definition disconnect_port (p : PortRegisterSet) : PortRegisterSet :=
  mkPort ((1 .<< 9) .| (1 .<< 17)) (portpmsc p) (portli p) (porthlpmc p) Disconnected 0.

Definition PortRegisterSet_new : PortRegisterSet := mkPort 0 0 0 0 Disconnected 0.
Definition complete_reset (p : PortRegisterSet) : PortRegisterSet :=
  if is_connected p
  then mkPort (1 .| (1 .<< 1) .| (port_speed p .<< 10) .| (1 .<< 9) .| (1 .<< 21)) (portpmsc p) (portli p) (porthlpmc p) Enabled (port_speed p)
  else p.
Definition with_portsc (p : PortRegisterSet) (v : Z) : PortRegisterSet := mkPort v (portpmsc p) (portli p) (porthlpmc p) (port_state p) (port_speed p).
Definition with_state (p : PortRegisterSet) (st : PortState) : PortRegisterSet := mkPort (portsc p) (portpmsc p) (portli p) (porthlpmc p) st (port_speed p).
(** The driver writes [PORTSC]: change bits clear, [PED] disables, [PR] resets
    the port, [LWS] moves the link, [PP] and the wake enables are stored. *)
Definition write_portsc (p : PortRegisterSet) (value : Z) : PortRegisterSet :=
  let p := with_portsc p (portsc p .&~ (value .& 0x00FE0000)) in
  let p := if tst value (1 .<< 1) then with_state (with_portsc p (portsc p .&~ (1 .<< 1))) Disabled else p in
  let p := if tst value (1 .<< 4) then complete_reset (with_state p Resetting) else p in
  let p := if tst value (1 .<< 16)
           then let new_pls := (value .>> 5) .& 0xF in
                let old_pls := (portsc p .>> 5) .& 0xF in
                let v := (portsc p .&~ (0xF .<< 5)) .| (new_pls .<< 5) in
                with_portsc p (if (new_pls =? 0) && (old_pls =? 3) then v .| (1 .<< 22) else v)
           else p in
  let p := with_portsc p (if tst value (1 .<< 9) then portsc p .| (1 .<< 9) else portsc p .&~ (1 .<< 9)) in
  with_portsc p ((portsc p .&~ 0x0E000000) .| (value .& 0x0E000000)).

(** ** Operational registers *)

Record OperationalRegisters := mkOp {
  usbcmd : Z; usbsts : Z; pagesize : Z; dnctrl : Z; crcr : Z; dcbaap : Z; config : Z; op_ports : list PortRegisterSet }.

Definition op_reset (o : OperationalRegisters) : OperationalRegisters := mkOp 0 1 (pagesize o) 0 0 0 0 ((fun _ => PortRegisterSet_new) <$> op_ports o).
Definition with_usbsts (o : OperationalRegisters) (v : Z) : OperationalRegisters := mkOp (usbcmd o) v (pagesize o) (dnctrl o) (crcr o) (dcbaap o) (config o) (op_ports o).
Definition with_ports (o : OperationalRegisters) (ps : list PortRegisterSet) : OperationalRegisters := mkOp (usbcmd o) (usbsts o) (pagesize o) (dnctrl o) (crcr o) (dcbaap o) (config o) ps.
Definition write_usbcmd (o : OperationalRegisters) (value : Z) : OperationalRegisters :=
  let was_running := tst (usbcmd o) 1 in
  let o := mkOp (value .& 0x2C0D) (usbsts o) (pagesize o) (dnctrl o) (crcr o) (dcbaap o) (config o) (op_ports o) in
  if tst value 2 then op_reset o
  else if tst value 1 && negb was_running then with_usbsts o (usbsts o .&~ 1)
  else if negb (tst value 1) && was_running then with_usbsts o (usbsts o .| 1)
  else o.
(** What [write_operational] does to the registers; the cursor of the command
    ring, which a write of [CRCR] also drops, is not part of them. *)
Definition write_operational (o : OperationalRegisters) (offset value : Z) : OperationalRegisters :=
  let lo v := (v .&~ 0xFFFFFFFF) .| value in
  let hi v := (v .& 0xFFFFFFFF) .| (value .<< 32) in
  if offset =? 0x00 then write_usbcmd o value
  else if offset =? 0x04 then with_usbsts o (usbsts o .&~ (value .& 0x1C))
  else if offset =? 0x14 then mkOp (usbcmd o) (usbsts o) (pagesize o) (value .& 0xFFFF) (crcr o) (dcbaap o) (config o) (op_ports o)
  else if offset =? 0x18 then mkOp (usbcmd o) (usbsts o) (pagesize o) (dnctrl o) (lo (crcr o)) (dcbaap o) (config o) (op_ports o)
  else if offset =? 0x1C then mkOp (usbcmd o) (usbsts o) (pagesize o) (dnctrl o) (hi (crcr o)) (dcbaap o) (config o) (op_ports o)
  else if offset =? 0x30 then mkOp (usbcmd o) (usbsts o) (pagesize o) (dnctrl o) (crcr o) (lo (dcbaap o)) (config o) (op_ports o)
  else if offset =? 0x34 then mkOp (usbcmd o) (usbsts o) (pagesize o) (dnctrl o) (crcr o) (hi (dcbaap o)) (config o) (op_ports o)
  else if offset =? 0x38 then mkOp (usbcmd o) (usbsts o) (pagesize o) (dnctrl o) (crcr o) (dcbaap o) (value .& 0xFF) (op_ports o)
  else if 0x400 <=? offset then
    if (offset - 0x400) mod 16 =? 0 then
      match op_ports o !! Z.to_nat ((offset - 0x400) / 16) with
      | Some p => with_ports o (<[Z.to_nat ((offset - 0x400) / 16) := write_portsc p value]> (op_ports o))
      | None => o
      end
    else o
  else o.

(** ** The controller *)

Section controller.
Context {Model : Type}.

(** The ports of [VirtualXhciController] and what plugging touches: the number
    of ports the capabilities advertise, the operational registers, the
    interrupter, the models parked at ports and bound to slots. *)
Record VirtualXhciController := mkController {
  max_ports : Z;
  op : OperationalRegisters;
  interrupter : InterrupterRegisterSet;
  port_models : list (option Model);
  slot_ports : list (Z * nat);
  device_models : gmap Z Model }.
Abbreviation ports c := (op_ports (op c)).

Definition usb2_port_count (c : VirtualXhciController) : nat := Z.to_nat ((max_ports c + 1) / 2).

(** [post_event_trb] for the Port Status Change event of a port. *)
Definition signal_port_change (c : VirtualXhciController) (port : nat) : res Empty_set (VirtualXhciController * bool) :=
  let sts := usbsts (op c) .| (1 .<< 4) in
  let port_id := if Z.of_nat port + 1 <? 256 then Z.of_nat port + 1 else 255 in
  p ← post_port_status_change (event_ring (interrupter c)) port_id 1;
  let i := interrupter c in
  let i' := mkInterrupter (iman i) (imod i) (erstsz i) (erstba i) (erdp i) p.1 (guest_ring i) in
  Ok (if (p.2 : bool)
      then (mkController (max_ports c) (with_usbsts (op c) (sts .| (1 .<< 3))) (set_pending i' true) (port_models c) (slot_ports c) (device_models c), true)
      else (mkController (max_ports c) (with_usbsts (op c) sts) i' (port_models c) (slot_ports c) (device_models c), false)).

Definition connect_device (c : VirtualXhciController) (port : nat) (speed : Z) : res Empty_set (VirtualXhciController * bool) :=
  match ports c !! port with
  | None => Ok (c, false)
  | Some p => signal_port_change (mkController (max_ports c) (with_ports (op c) (<[port := connect_port p speed]> (ports c))) (interrupter c) (port_models c) (slot_ports c) (device_models c)) port
  end.

Definition disconnect_device (c : VirtualXhciController) (port : nat) : res Empty_set (VirtualXhciController * bool) :=
  match ports c !! port with
  | None => Ok (c, false)
  | Some p =>
      let '(sp, dm) := match list_find (fun sp => sp.2 = port) (slot_ports c) with
                       | Some (_, (slot_id, _)) => (filter (fun sp => sp.1 <> slot_id) (slot_ports c), delete slot_id (device_models c))
                       | None => (slot_ports c, device_models c)
                       end in
      signal_port_change (mkController (max_ports c) (with_ports (op c) (<[port := disconnect_port p]> (ports c))) (interrupter c) (<[port := None]> (port_models c)) sp dm) port
  end.

(** The first of the ports [i], ..., [i + n - 1] with nothing connected. *)
Fixpoint find_free (ps : list PortRegisterSet) (i n : nat) : res Empty_set (option nat) :=
  match n with
  | O => Ok None
  | S n' => match ps !! i with
            | None => Panic
            | Some p => if is_connected p then find_free ps (S i) n' else Ok (Some i)
            end
  end.
Definition attach_device (c : VirtualXhciController) (speed : DeviceSpeed) : res Empty_set (VirtualXhciController * option nat) :=
  let usb2 := usb2_port_count c in
  free ← (if is_superspeed speed then find_free (ports c) usb2 (length (ports c) - usb2) else find_free (ports c) 0 usb2);
  match free with
  | None => Ok (c, None)
  | Some port =>
      r ← connect_device c port (xhci_speed_id speed);
      Ok (r.1, if (r.2 : bool) then Some port else None)
  end.
Definition attach_device_with_model (c : VirtualXhciController) (speed : DeviceSpeed) (model : Model) : res Empty_set (VirtualXhciController * option nat) :=
  r ← attach_device c speed;
  match r.2 with
  | None => Ok r
  | Some port => Ok (mkController (max_ports r.1) (op r.1) (interrupter r.1) (<[port := Some model]> (port_models r.1)) (slot_ports r.1) (device_models r.1), Some port)
  end.
Definition take_port_model (c : VirtualXhciController) (port : nat) : VirtualXhciController * option Model :=
  (mkController (max_ports c) (op c) (interrupter c) (<[port := None]> (port_models c)) (slot_ports c) (device_models c), m ← port_models c !! port; m).

Record controller_wf (c : VirtualXhciController) : Prop := {
  cw_ports : Z.of_nat (length (ports c)) = max_ports c;
  cw_count : 0 <= max_ports c < 256;
  cw_ring : ring_wf (event_ring (interrupter c)) }.

(** The ports a device of that speed may use. *)
Definition compatible (c : VirtualXhciController) (speed : DeviceSpeed) (p : nat) : Prop :=
  (p < length (ports c))%nat /\ if is_superspeed speed then (usb2_port_count c <= p)%nat else (p < usb2_port_count c)%nat.
Definition plugged (c : VirtualXhciController) (p : nat) : Prop := exists r, ports c !! p = Some r /\ is_connected r = true.
(** The event ring takes [n] more events. *)
Definition accepts (c : VirtualXhciController) (n : Z) : Prop := pending_count (event_ring (interrupter c)) + n < capacity (event_ring (interrupter c)).

Lemma usb2_le c : controller_wf c -> (usb2_port_count c <= length (ports c))%nat.
Proof.
  intros [Hp Hc _]. unfold usb2_port_count. apply Nat2Z.inj_le. rewrite Z2Nat.id by (apply Z.div_pos; lia). rewrite Hp.
  destruct (Z.eq_dec (max_ports c) 0) as [->|]; [done|]. apply Z.div_le_upper_bound; lia.
Qed.

Lemma connected_after p speed : is_connected (connect_port p speed) = true.
Proof.
  cbn [portsc connect_port]. rewrite !Z.land_lor_distr_l. destruct (Z.eqb_spec ((1 .& 1) .| ((speed .<< 10) .& 1) .| ((1 .<< 9) .& 1) .| ((1 .<< 17) .& 1)) 0) as [E|]; [|done].
  apply Z.lor_eq_0_iff in E as [E _]. apply Z.lor_eq_0_iff in E as [E _]. by apply Z.lor_eq_0_iff in E as [E _].
Qed.

Lemma find_free_spec ps i n : (i + n <= length ps)%nat ->
  match find_free ps i n with
  | Ok (Some k) => (i <= k < i + n)%nat /\ (exists r, ps !! k = Some r /\ is_connected r = false) /\ forall j, (i <= j < k)%nat -> exists r, ps !! j = Some r /\ is_connected r = true
  | Ok None => forall j, (i <= j < i + n)%nat -> exists r, ps !! j = Some r /\ is_connected r = true
  | _ => False
  end.
Proof.
  revert i. induction n as [|n IH]; intros i Hl; cbn [find_free]; [intros j Hj; lia|]. destruct (lookup_lt_is_Some_2 ps i) as [p Hp]; [lia|]. rewrite Hp. destruct (is_connected p) eqn:Ec.
  - specialize (IH (S i) ltac:(lia)). destruct (find_free ps (S i) n) as [[k|]| |]; [|..|done].
    + destruct IH as (Hk & Hr & Hb). split_and!; [lia|lia|done|]. intros j Hj. destruct (decide (j = i)) as [->|]; [eauto|apply Hb; lia].
    + intros j Hj. destruct (decide (j = i)) as [->|]; [eauto|apply IH; lia].
    + done.
  - split_and!; [lia|lia|eauto|intros j Hj; lia].
Qed.

Lemma signal_spec c port : ring_wf (event_ring (interrupter c)) -> exists c' posted, signal_port_change c port = Ok (c', posted) /\
  max_ports c' = max_ports c /\ ports c' = ports c /\ ring_wf (event_ring (interrupter c')) /\ port_models c' = port_models c /\
  capacity (event_ring (interrupter c')) = capacity (event_ring (interrupter c)) /\
  (accepts c 1 -> posted = true) /\ pending_count (event_ring (interrupter c')) = pending_count (event_ring (interrupter c)) + (if posted then 1 else 0).
Proof.
  intros Hw. unfold signal_port_change, post_port_status_change. pose proof (pending_range _ Hw) as Hr.
  match goal with |- context [post_event ?r ?t] => pose proof (post_event_spec r t Hw) as Hp end. unfold accepts. destruct (Z.ltb_spec (pending_count (event_ring (interrupter c))) (capacity (event_ring (interrupter c)) - 1)).
  - destruct Hp as (r' & -> & Hw' & Hq & Hcap). cbn. eexists _, true. split; [done|]. cbn. split_and!; try done.
    rewrite <- (length_queue _ Hw'), <- (length_queue _ Hw), Hq, length_app. cbn. lia.
  - rewrite Hp. cbn. eexists _, false. split; [done|]. cbn. split_and!; try done; lia.
Qed.

(** ** What the driver's writes do *)

Lemma connected_odd v : negb (v .& 1 =? 0) = Z.testbit v 0.
Proof.
  rewrite Z.bit0_odd. change 1 with (Z.ones 1). rewrite Z.land_ones by lia. change (2 ^ 1) with 2. pose proof (Zmod_odd v) as E. rewrite E. by destruct (Z.odd v).
Qed.

(** A write of [PORTSC] neither plugs nor unplugs. *)
Lemma write_portsc_connected p v : is_connected (write_portsc p v) = is_connected p.
Proof.
  rewrite !connected_odd. unfold write_portsc. cbv zeta.
  set (p0 := with_portsc p _). assert (H0 : Z.testbit (portsc p0) 0 = Z.testbit (portsc p) 0) by (unfold p0; cbn [portsc with_portsc]; rewrite Z.ldiff_spec, Z.land_spec; cbn; by rewrite andb_false_r, andb_true_r).
  set (p1 := if tst v (1 .<< 1) then _ else p0). assert (H1 : Z.testbit (portsc p1) 0 = Z.testbit (portsc p0) 0) by (unfold p1; destruct (tst v (1 .<< 1)); [|done]; cbn [portsc with_portsc with_state]; rewrite Z.ldiff_spec; cbn; by rewrite andb_true_r).
  set (p2 := if tst v (1 .<< 4) then _ else p1). assert (H2 : Z.testbit (portsc p2) 0 = Z.testbit (portsc p1) 0).
  { unfold p2. clearbody p1. destruct (tst v (1 .<< 4)); [|done]. unfold complete_reset. rewrite connected_odd. cbn [portsc with_state]. destruct (Z.testbit (portsc p1) 0) eqn:E; [|by cbn]. cbn [portsc]. rewrite !Z.lor_spec. done. }
  set (p3 := if tst v (1 .<< 16) then _ else p2). assert (H3 : Z.testbit (portsc p3) 0 = Z.testbit (portsc p2) 0).
  { unfold p3. clearbody p2. destruct (tst v (1 .<< 16)); [|done]. cbn [portsc with_portsc]. destruct (_ && _); rewrite ?Z.lor_spec, Z.ldiff_spec, !Z.shiftl_spec_low by lia; by rewrite andb_true_r, ?orb_false_r. }
  set (p4 := with_portsc p3 _). assert (H4 : Z.testbit (portsc p4) 0 = Z.testbit (portsc p3) 0) by (unfold p4; clearbody p3; cbn [portsc with_portsc]; destruct (tst v (1 .<< 9)); [rewrite Z.lor_spec; cbn; by rewrite orb_false_r|rewrite Z.ldiff_spec; cbn; by rewrite andb_true_r]).
  cbn [portsc with_portsc]. rewrite Z.lor_spec, Z.ldiff_spec, Z.land_spec. change (Z.testbit 0x0E000000 0) with false. cbn [negb]. rewrite andb_false_r, orb_false_r, andb_true_r. congruence.
Qed.

(** The write that resets the controller: [HCRST] of [USBCMD]. *)
Definition hcrst (offset value : Z) : bool := (offset =? 0) && tst value 2.
Definition with_op (c : VirtualXhciController) (o : OperationalRegisters) : VirtualXhciController := mkController (max_ports c) o (interrupter c) (port_models c) (slot_ports c) (device_models c).

Lemma write_operational_ports o offset v : hcrst offset v = false ->
  length (op_ports (write_operational o offset v)) = length (op_ports o) /\
  forall p, ((fun r => is_connected r) <$> op_ports (write_operational o offset v) !! p) = ((fun r => is_connected r) <$> op_ports o !! p).
Proof.
  unfold hcrst, write_operational. cbv zeta. destruct (offset =? 0); [|clear].
  - intros Hr. unfold write_usbcmd. cbv zeta. cbn in Hr. rewrite Hr. by repeat case_match.
  - repeat (case_match; [done|]). case_match; [|done]. case_match; [|done]. set (i := Z.to_nat _) in *. destruct (op_ports o !! i) as [p|] eqn:Ep; [|done].
    cbn [op_ports with_ports]. split; [apply length_insert|]. intros q. destruct (decide (q = i)) as [->|Hq]; [|by rewrite list_lookup_insert_ne].
    rewrite list_lookup_insert_eq by (by eapply lookup_lt_Some). rewrite Ep. apply (f_equal Some). apply write_portsc_connected.
Qed.

(** No other write plugs or unplugs. *)
Lemma write_operational_keeps c offset v : hcrst offset v = false -> controller_wf c ->
  let c' := with_op c (write_operational (op c) offset v) in controller_wf c' /\ forall p, plugged c' p <-> plugged c p.
Proof.
  intros Hr Hw c'. destruct (write_operational_ports (op c) offset v Hr) as [Hl Hp]. split; [destruct Hw; constructor; cbn; [by rewrite Hl|done|done]|].
  intros p. specialize (Hp p). unfold plugged. cbn [op c' with_op]. split; intros (r & Hr' & Hc); rewrite Hr' in Hp; cbn in Hp; rewrite Hc in Hp.
  - destruct (op_ports (op c) !! p) as [r'|]; [|done]. exists r'. split; [done|]. cbn in Hp. congruence.
  - destruct (op_ports (write_operational (op c) offset v) !! p) as [r'|]; [|done]. exists r'. split; [done|]. cbn in Hp. congruence.
Qed.

(** A controller reset leaves every port unplugged. *)
Lemma write_operational_reset c offset v : hcrst offset v = true -> controller_wf c ->
  let c' := with_op c (write_operational (op c) offset v) in controller_wf c' /\ forall p, ~ plugged c' p.
Proof.
  intros Hr Hw c'. apply andb_prop in Hr as [Ho Hv]. assert (E : op_ports (op c') = (fun _ => PortRegisterSet_new) <$> ports c).
  { unfold c', write_operational, write_usbcmd. cbv zeta. by rewrite Ho, Hv. }
  split; [destruct Hw; constructor; [rewrite E, length_fmap|..]; done|]. intros p (r & Hr & Hc). rewrite E in Hr. apply list_lookup_fmap_Some in Hr as (r' & -> & _). done.
Qed.

(** ** What plugging does *)

(** Attaching: the port is a free one of the protocol, the others keep their
    state, and with room for the event the attach succeeds unless there is none. *)
Lemma attach_device_spec c speed : controller_wf c -> exists c' o, attach_device c speed = Ok (c', o) /\ controller_wf c' /\ max_ports c' = max_ports c /\
  capacity (event_ring (interrupter c')) = capacity (event_ring (interrupter c)) /\
  pending_count (event_ring (interrupter c')) <= pending_count (event_ring (interrupter c)) + 1 /\
  (forall p, plugged c p -> plugged c' p) /\
  match o with
  | Some p => compatible c speed p /\ ~ plugged c p /\ plugged c' p /\ (forall q, q <> p -> ports c' !! q = ports c !! q)
  | None => accepts c 1 -> c' = c /\ forall p, compatible c speed p -> plugged c p
  end.
Proof.
  intros Hw. pose proof (usb2_le c Hw) as Hu. unfold attach_device. cbv zeta.
  set (lo := if is_superspeed speed then usb2_port_count c else O). set (n := if is_superspeed speed then (length (ports c) - usb2_port_count c)%nat else usb2_port_count c).
  assert (Hf : (if is_superspeed speed then find_free (ports c) (usb2_port_count c) (length (ports c) - usb2_port_count c) else find_free (ports c) 0 (usb2_port_count c)) = find_free (ports c) lo n) by (unfold lo, n; by destruct (is_superspeed speed)).
  assert (Hrange : forall p, compatible c speed p <-> (lo <= p < lo + n)%nat) by (intros p; unfold compatible, lo, n; destruct (is_superspeed speed); lia).
  rewrite Hf. pose proof (find_free_spec (ports c) lo n) as Hs. specialize (Hs ltac:(unfold lo, n; destruct (is_superspeed speed); lia)).
  destruct (find_free (ports c) lo n) as [[p|]| |]; cbn [mbind res_bind]; [| |done..].
  - destruct Hs as (Hp & (r & Hr & Hc) & _). unfold connect_device. rewrite Hr. set (c1 := mkController _ _ _ _ _ _).
    destruct (signal_spec c1 p (cw_ring c Hw)) as (c' & posted & -> & E1 & E2 & E3 & _ & E4 & E5 & E6). cbn [mbind res_bind fst snd].
    assert (Hw' : controller_wf c') by (destruct Hw; constructor; rewrite ?E1, ?E2; unfold c1; cbn; rewrite ?length_insert; done).
    assert (Hsame : forall q, q <> p -> ports c' !! q = ports c !! q) by (intros q Hq; rewrite E2; unfold c1; cbn; by rewrite list_lookup_insert_ne).
    assert (Hpl : plugged c' p) by (eexists; rewrite E2; unfold c1; cbn; rewrite list_lookup_insert_eq by (by eapply lookup_lt_Some); split; [done|apply connected_after]).
    assert (Hkeep : forall q, plugged c q -> plugged c' q) by (intros q Hq; destruct (decide (q = p)) as [->|Hqp]; [done|]; unfold plugged; by rewrite Hsame).
    eexists c', _. split; [done|]. split_and!; [done|by rewrite E1|by rewrite E4|rewrite E6; unfold c1; cbn; destruct posted; lia|done|]. destruct posted.
    + split_and!; [by apply Hrange|intros (r' & Hr' & Hc'); simplify_eq; congruence|done|done].
    + intros Ha. by specialize (E5 Ha).
  - exists c, None. split; [done|]. split_and!; [done|done|done|lia|done|]. intros _. split; [done|]. intros p Hp. apply Hs, Hrange, Hp.
Qed.

Lemma disconnect_device_spec c port : controller_wf c -> exists c' b, disconnect_device c port = Ok (c', b) /\ controller_wf c' /\ max_ports c' = max_ports c /\
  capacity (event_ring (interrupter c')) = capacity (event_ring (interrupter c)) /\
  pending_count (event_ring (interrupter c')) <= pending_count (event_ring (interrupter c)) + 1 /\
  ~ plugged c' port /\ (forall q, q <> port -> ports c' !! q = ports c !! q) /\ length (ports c') = length (ports c).
Proof.
  intros Hw. unfold disconnect_device. destruct (ports c !! port) as [p|] eqn:Ep.
  - destruct (match list_find _ _ with Some _ => _ | None => _ end) as [sp dm]. set (c1 := mkController _ _ _ _ _ _).
    destruct (signal_spec c1 port (cw_ring c Hw)) as (c' & posted & -> & E1 & E2 & E3 & _ & E4 & _ & E6). exists c', posted. split; [done|].
    assert (Hlen : length (ports c') = length (ports c)) by (rewrite E2; unfold c1; cbn; by rewrite length_insert).
    split_and!; [destruct Hw; constructor; rewrite ?E1, ?Hlen; done|by rewrite E1|by rewrite E4|rewrite E6; unfold c1; cbn; destruct posted; lia| | |done].
    + intros (r & Hr & Hc). rewrite E2 in Hr. unfold c1 in Hr. cbn in Hr. rewrite list_lookup_insert_eq in Hr by (by eapply lookup_lt_Some). by simplify_eq.
    + intros q Hq. rewrite E2. unfold c1. cbn. by rewrite list_lookup_insert_ne.
  - exists c, false. split; [done|]. split_and!; [done|done|done|lia| |done|done]. intros (r & Hr & _). congruence.
Qed.

(** With no room for the event a free port is taken and the attach reports that
    there was none. *)
Lemma attach_full_leaks c speed p : controller_wf c -> ~ accepts c 1 -> compatible c speed p -> ~ plugged c p ->
  exists c' q, attach_device c speed = Ok (c', None) /\ ~ plugged c q /\ plugged c' q.
Proof.
  intros Hw Hfull [Hlt Hcomp] Hfree. pose proof (usb2_le c Hw) as Hu. unfold attach_device. cbv zeta.
  assert (Hf : exists q r, (if is_superspeed speed then find_free (ports c) (usb2_port_count c) (length (ports c) - usb2_port_count c) else find_free (ports c) 0 (usb2_port_count c)) = Ok (Some q) /\ ports c !! q = Some r /\ is_connected r = false).
  { destruct (is_superspeed speed); match goal with |- context [find_free ?ps ?i ?n] => pose proof (find_free_spec ps i n ltac:(lia)) as Hs; destruct (find_free ps i n) as [[q|]| |] end; try done;
    try (destruct Hs as (_ & (r & Hr & Hc) & _); by exists q, r); destruct (Hs p ltac:(lia)) as (r & Hr & Hc); exfalso; apply Hfree; by exists r. }
  destruct Hf as (q & r & -> & Hr & Hc). cbn [mbind res_bind]. unfold connect_device. rewrite Hr. set (c1 := mkController _ _ _ _ _ _).
  destruct (signal_spec c1 q (cw_ring c Hw)) as (c' & posted & -> & _ & E2 & Hrw & _ & E4 & _ & E6). pose proof (pending_range _ Hrw). cbn [mbind res_bind fst snd].
  assert (posted = false) as -> by (destruct posted; [|done]; unfold accepts in Hfull; rewrite E4, E6 in *; unfold c1 in *; cbn in *; lia).
  exists c', q. split_and!; [done|intros (r' & Hr' & Hc'); simplify_eq; congruence|]. eexists. rewrite E2. unfold c1. cbn. rewrite list_lookup_insert_eq by (by eapply lookup_lt_Some). split; [done|apply connected_after].
Qed.

(** Parking a model changes no port. *)
Lemma attach_model_ports c speed m : 
  match attach_device c speed, attach_device_with_model c speed m with
  | Ok (c1, o1), Ok (c2, o2) => o1 = o2 /\ max_ports c2 = max_ports c1 /\ ports c2 = ports c1 /\ interrupter c2 = interrupter c1 /\ (o1 = None -> c2 = c1)
  | Ok _, _ => False
  | _, _ => True
  end.
Proof. unfold attach_device_with_model. destruct (attach_device c speed) as [[c1 [port|]]| |]; cbn; try done; by split_and!. Qed.

End controller.
Arguments VirtualXhciController : clear implicits.
Abbreviation ports c := (op_ports (op c)).
