(* ===== verification/UsbHotplug.v ===== *)
(** * USB hot-plug

    The monitor of the host's devices ([enlil-devices/src/usb/monitor.rs]), the
    registry of the guests' controllers ([registry.rs]), the dispatcher between
    them ([hotplug.rs]) and the assembly of a registry from the configuration
    ([enlil-core/src/usb_routing.rs]).  A [SharedXhci] is a handle into [heap],
    the controllers the guests' register windows share with the registry. *)

From Stdlib Require Import ZArith Lia Bool String.
From stdpp Require Import base decidable list numbers sets gmap relations.
From S2P Require Import Prelude Rust Str Config ConfigValid UsbRouting XhciRing XhciEvent XhciPorts.

(** ** types.rs: what the host reports *)

Record UsbPortPath := mkPath { bus : Z; chain : list Z }.
#[export] Instance UsbPortPath_eq_dec : EqDecision UsbPortPath := ltac:(solve_decision).
#[export] Instance UsbPortPath_countable : Countable UsbPortPath.
Proof. by refine (inj_countable' (fun p => (bus p, chain p)) (fun '(b, c) => mkPath b c) _); intros []. Defined.

(** A byte in decimal. *)
Definition decimal (b : Z) : str :=
  if b <? 10 then [48 + b] else if b <? 100 then [48 + b / 10; 48 + b mod 10] else [48 + b / 100; 48 + b / 10 mod 10; 48 + b mod 10].
Definition path_string (p : UsbPortPath) : str := decimal (bus p) ++ concat (imap (fun i port => (if (i =? 0)%nat then 45 else 46) :: decimal port) (chain p)).

Record UsbDeviceDescriptor := mkDescriptor {
  d_vendor_id : Z; d_product_id : Z; device_class : UsbDeviceClass; device_subclass : Z; device_protocol : Z;
  d_manufacturer : option str; d_product : option str; serial_number : option str;
  max_packet_size_0 : Z; num_configurations : Z; usb_version : Z * Z; device_version : Z * Z }.
Record UsbDeviceInfo := mkInfo { address : Z; info_path : UsbPortPath; descriptor : UsbDeviceDescriptor; info_speed : DeviceSpeed }.

(** [UsbDevice::new]: the identity and the bus address of an enumerated device. *)
Definition UsbDevice_new (info : UsbDeviceInfo) : UsbDeviceId * Z :=
  let d := descriptor info in
  (mkDeviceId (d_vendor_id d) (d_product_id d) (serial_number d) (Some (path_string (info_path info))) (device_class d) (info_speed info) (d_manufacturer d) (d_product d), address info).

(** ** monitor.rs *)

Inductive UsbHotplugEvent := Connected (info : UsbDeviceInfo) | Disconnected (path : UsbPortPath).
Inductive UsbError := AddressExhausted | DeviceNotFound.
Record UsbMonitor := mkMonitor { devices : gmap UsbPortPath UsbDeviceInfo; next_address : Z }.
Definition UsbMonitor_new : UsbMonitor := mkMonitor ∅ 1.

Definition allocate_address (m : UsbMonitor) : UsbMonitor * res UsbError Z :=
  if 127 <=? next_address m then (m, Err AddressExhausted) else (mkMonitor (devices m) (next_address m + 1), Ok (next_address m)).
(** [report_connect] and [report_disconnect], with the event the listeners are
    notified of. *)
Definition report_connect (m : UsbMonitor) (path : UsbPortPath) (d : UsbDeviceDescriptor) (speed : DeviceSpeed) : UsbMonitor * res UsbError UsbDeviceInfo * list UsbHotplugEvent :=
  match allocate_address m with
  | (m', Ok addr) =>
      let info := mkInfo addr path d speed in
      (mkMonitor (<[path := info]> (devices m')) (next_address m'), Ok info, [Connected info])
  | (m', Err e) => (m', Err e, [])
  | (m', Panic) => (m', Panic, [])
  end.
Definition report_disconnect (m : UsbMonitor) (path : UsbPortPath) : UsbMonitor * res UsbError unit * list UsbHotplugEvent :=
  match devices m !! path with
  | Some _ => (mkMonitor (delete path (devices m)) (next_address m), Ok tt, [Disconnected path])
  | None => (m, Err DeviceNotFound, [])
  end.

(** ** registry.rs *)

Record DevicePlacement := mkPlacement { pl_guest : str; pl_port : nat }.
Inductive AttachOutcome := Attached (p : DevicePlacement) | StaysUnassigned.
Inductive RegistryError := NoController (guest : str) | NoFreePort (guest : str) | NotAttached (bus_addr : Z).

Section registry.
Context {Model : Type}.
Abbreviation controller := (VirtualXhciController Model).

Record XhciRegistry := mkRegistry {
  controllers : gmap str Z;
  placements : gmap Z DevicePlacement;
  routing_state : RoutingState;
  heap : gmap Z controller }.

Definition with_heap (r : XhciRegistry) (h : gmap Z controller) : XhciRegistry := mkRegistry (controllers r) (placements r) (routing_state r) h.
Definition with_placements (r : XhciRegistry) (p : gmap Z DevicePlacement) : XhciRegistry := mkRegistry (controllers r) p (routing_state r) (heap r).
Definition with_routing (r : XhciRegistry) (s : RoutingState) : XhciRegistry := mkRegistry (controllers r) (placements r) s (heap r).

Definition registry_new (routing : RoutingState) (h : gmap Z controller) : XhciRegistry := mkRegistry ∅ ∅ routing h.
Definition register_controller (r : XhciRegistry) (guest : str) (handle : Z) : XhciRegistry :=
  mkRegistry (<[guest := handle]> (controllers r)) (placements r) (routing_state r) (heap r).

Definition connect_to_guest (r : XhciRegistry) (guest : str) (device : UsbDeviceId) (model : option Model) : XhciRegistry * res RegistryError nat :=
  match controllers r !! guest with
  | None => (r, Err (NoController guest))
  | Some h =>
      match heap r !! h with
      | None => (r, Panic)
      | Some c =>
          match (match model with Some m => attach_device_with_model c (speed device) m | None => attach_device c (speed device) end) with
          | Ok (c', o) => (with_heap r (<[h := c']> (heap r)), ok_or o (NoFreePort guest))
          | _ => (r, Panic)
          end
      end
  end.

Definition unplug (r : XhciRegistry) (p : DevicePlacement) : XhciRegistry * option Model :=
  match controllers r !! pl_guest p with
  | None => (r, None)
  | Some h =>
      match heap r !! h with
      | None => (r, None)
      | Some c =>
          let '(c1, model) := take_port_model c (pl_port p) in
          match disconnect_device c1 (pl_port p) with
          | Ok (c2, _) => (with_heap r (<[h := c2]> (heap r)), model)
          | _ => (r, model)
          end
      end
  end.

Definition attach_with_model (r : XhciRegistry) (bus_addr : Z) (device : UsbDeviceId) (model : option Model) : XhciRegistry * res RegistryError AttachOutcome :=
  let '(rs, decision) := assign_device (routing_state r) bus_addr device in
  let r := with_routing r rs in
  match decision with
  | Unassigned => (r, Ok StaysUnassigned)
  | RouteToGuest guest =>
      match connect_to_guest r guest device model with
      | (r', Ok port) =>
          let placement := mkPlacement guest port in
          (with_placements r' (<[bus_addr := placement]> (placements r')), Ok (Attached placement))
      | (r', Err err) => (with_routing r' (unassign_device (routing_state r') bus_addr).1, Err err)
      | (r', Panic) => (r', Panic)
      end
  end.

Definition detach (r : XhciRegistry) (bus_addr : Z) : XhciRegistry * res RegistryError DevicePlacement :=
  match placements r !! bus_addr with
  | None => (r, Err (NotAttached bus_addr))
  | Some placement =>
      let r1 := with_placements r (delete bus_addr (placements r)) in
      let r2 := (unplug r1 placement).1 in
      (with_routing r2 (unassign_device (routing_state r2) bus_addr).1, Ok placement)
  end.

Definition reassign (r : XhciRegistry) (bus_addr : Z) (new_guest : str) (device : UsbDeviceId) : XhciRegistry * res RegistryError DevicePlacement :=
  match placements r !! bus_addr with
  | None => (r, Err (NotAttached bus_addr))
  | Some old =>
      let '(r1, model) := unplug r old in
      match connect_to_guest r1 new_guest device model with
      | (r2, Ok port) =>
          let placement := mkPlacement new_guest port in
          let r3 := with_placements r2 (<[bus_addr := placement]> (placements r2)) in
          (with_routing r3 (reassign_device (routing_state r3) bus_addr new_guest).1, Ok placement)
      | (r2, Err err) =>
          match connect_to_guest r2 (pl_guest old) device None with
          | (r3, Ok port) => (with_placements r3 (<[bus_addr := mkPlacement (pl_guest old) port]> (placements r3)), Err err)
          | (r3, Err _) => (r3, Err err)
          | (r3, Panic) => (r3, Panic)
          end
      | (r2, Panic) => (r2, Panic)
      end
  end.

(** ** The assembly of enlil-core *)

Definition usb_registry_from_config (u : UsbConfig) (given : list (str * Z)) (h : gmap Z controller) : res adapter_error XhciRegistry :=
  t ← routing_table_from_config u;
  let registry := foldl (fun r gh => register_controller r gh.1 gh.2) (registry_new (RoutingState_new t) h) given in
  targets ← routing_targets u;
  let missing := filter (fun g => controllers registry !! g = None) targets in
  if bool_decide (missing = []) then Ok registry else Err (MissingControllers missing).

(** ** hotplug.rs *)

Inductive HotplugOutcome :=
  | OAttached (bus_addr : Z) (guest : str) (port : nat)
  | OUnassigned (bus_addr : Z)
  | OAttachFailed (bus_addr : Z) (error : RegistryError)
  | OVfioFallbackRecommended (bus_addr : Z) (guest bdf : str) (reason : RegistryError)
  | ODetached (bus_addr : Z) (guest : str)
  | OUnknownDisconnect (path : UsbPortPath).

Record HotplugDispatcher := mkDispatcher { events : list UsbHotplugEvent; by_port : gmap UsbPortPath Z; fallback : option VfioFallbackPolicy }.

(** One event: the new map of ports, the registry and the outcomes pushed. *)
Definition service_event (fb : option VfioFallbackPolicy) (ports : gmap UsbPortPath Z) (r : XhciRegistry) (e : UsbHotplugEvent) : res Empty_set (gmap UsbPortPath Z * XhciRegistry * list HotplugOutcome) :=
  match e with
  | Connected info =>
      let '(id, addr) := UsbDevice_new info in
      let ports' := <[info_path info := addr]> ports in
      match attach_with_model r addr id None with
      | (r', Ok (Attached p)) => Ok (ports', r', [OAttached addr (pl_guest p) (pl_port p)])
      | (r', Ok StaysUnassigned) => Ok (ports', r', [OUnassigned addr])
      | (r', Err error) =>
          Ok (ports', r', OAttachFailed addr error ::
            match fb with Some policy => [OVfioFallbackRecommended addr (po_target_guest policy) (po_bdf policy) error] | None => [] end)
      | (_, Panic) => Panic
      end
  | Disconnected path =>
      match ports !! path with
      | None => Ok (ports, r, [OUnknownDisconnect path])
      | Some addr =>
          match detach r addr with
          | (r', Ok p) => Ok (delete path ports, r', [ODetached addr (pl_guest p)])
          | (r', Err _) => Ok (delete path ports, r', [OUnassigned addr])
          | (_, Panic) => Panic
          end
      end
  end.
Fixpoint service_events (fb : option VfioFallbackPolicy) (es : list UsbHotplugEvent) (ports : gmap UsbPortPath Z) (r : XhciRegistry) : res Empty_set (gmap UsbPortPath Z * XhciRegistry * list HotplugOutcome) :=
  match es with
  | [] => Ok (ports, r, [])
  | e :: es' =>
      s ← service_event fb ports r e;
      s' ← service_events fb es' s.1.1 s.1.2;
      Ok (s'.1.1, s'.1.2, s.2 ++ s'.2)
  end.
Definition service (d : HotplugDispatcher) (r : XhciRegistry) : res Empty_set (HotplugDispatcher * XhciRegistry * list HotplugOutcome) :=
  s ← service_events (fallback d) (events d) (by_port d) r;
  Ok (mkDispatcher [] s.1.1 (fallback d), s.1.2, s.2).
Definition set_vfio_fallback (d : HotplugDispatcher) (policy : VfioFallbackPolicy) : HotplugDispatcher := mkDispatcher (events d) (by_port d) (Some policy).
Definition clear_vfio_fallback (d : HotplugDispatcher) : HotplugDispatcher := mkDispatcher (events d) (by_port d) None.

(** ** Routing and ports in lockstep *)

Record hub_ok (r : XhciRegistry) : Prop := {
  ho_handles : forall g1 g2 h, controllers r !! g1 = Some h -> controllers r !! g2 = Some h -> g1 = g2;
  ho_heap : forall g h, controllers r !! g = Some h -> exists c, heap r !! h = Some c /\ controller_wf c }.

Definition plugged_at (r : XhciRegistry) (g : str) (p : nat) : Prop :=
  exists h c, controllers r !! g = Some h /\ heap r !! h = Some c /\ plugged c p.
(** Every event ring takes [n] more events. *)
Definition roomy (r : XhciRegistry) (n : Z) : Prop := forall g h c, controllers r !! g = Some h -> heap r !! h = Some c -> accepts c n.
Definition fits_port (r : XhciRegistry) (g : str) (device : UsbDeviceId) (p : nat) : Prop :=
  exists h c, controllers r !! g = Some h /\ heap r !! h = Some c /\ compatible c (speed device) p.

(** What [connect_to_guest] and [unplug] leave alone. *)
Definition same_frame (r r' : XhciRegistry) : Prop :=
  controllers r' = controllers r /\ placements r' = placements r /\ routing_state r' = routing_state r.

(** Replacing a controller by one with as many ports. *)
Lemma heap_frame r g h c c' : hub_ok r -> controllers r !! g = Some h -> heap r !! h = Some c -> controller_wf c' -> max_ports c' = max_ports c ->
  let r' := with_heap r (<[h := c']> (heap r)) in
  hub_ok r' /\
  (forall g' p, g' <> g -> plugged_at r' g' p <-> plugged_at r g' p) /\ (forall p, plugged_at r' g p <-> plugged c' p) /\
  (forall g' d p, fits_port r g' d p -> fits_port r' g' d p) /\
  (forall n, roomy r (n + 1) -> capacity (event_ring (interrupter c')) = capacity (event_ring (interrupter c)) ->
     pending_count (event_ring (interrupter c')) <= pending_count (event_ring (interrupter c)) + 1 -> roomy r' n).
Proof.
  intros [Hh Hp] Hg Hc Hw Hm r'. assert (Hother : forall g' h', g' <> g -> controllers r !! g' = Some h' -> <[h := c']> (heap r) !! h' = heap r !! h').
  { intros g' h' Hne Hg'. apply lookup_insert_ne. intros <-. by apply Hne, (Hh g' g h). }
  split_and!.
  - constructor; [done|]. intros g' h' Hg'. cbn in *. destruct (decide (h' = h)) as [->|Hne]; [rewrite lookup_insert_eq; eauto|]. rewrite lookup_insert_ne by done. by apply (Hp g').
  - intros g' p Hne. unfold plugged_at. cbn. split; intros (h' & c0 & Hg' & Hc0 & Hpl); exists h', c0; (split; [done|]); (split; [|done]); [by rewrite (Hother g') in Hc0|by rewrite (Hother g')].
  - intros p. unfold plugged_at. cbn. split; [intros (h' & c0 & Hg' & Hc0 & Hpl); simplify_eq; rewrite lookup_insert_eq in Hc0; by simplify_eq|]. intros Hpl. exists h, c'. by rewrite lookup_insert_eq.
  - intros g' d p (h' & c0 & Hg' & Hc0 & Hcomp). exists h'. cbn. destruct (decide (h' = h)) as [->|Hne]; [|exists c0; by rewrite lookup_insert_ne].
    exists c'. rewrite lookup_insert_eq. split_and!; [done|done|]. simplify_eq. unfold compatible, usb2_port_count in *. rewrite Hm.
    assert (Hlen : length (ports c') = length (ports c)) by (destruct (Hp g' h Hg') as (c1 & Hc1 & [Hl _ _]); simplify_eq; destruct Hw as [Hl' _ _]; lia). by rewrite Hlen.
  - intros n Hr Hcap Hpend g' h' c0 Hg' Hc0. cbn in *. destruct (decide (h' = h)) as [->|Hne].
    + rewrite lookup_insert_eq in Hc0. simplify_eq. specialize (Hr g h c Hg Hc). unfold accepts in *. lia.
    + rewrite lookup_insert_ne in Hc0 by done. specialize (Hr g' h' c0 Hg' Hc0). unfold accepts in *. lia.
Qed.

Lemma connect_spec r g d m r' o : hub_ok r -> connect_to_guest r g d m = (r', o) ->
  same_frame r r' /\ hub_ok r' /\ (forall g' p, plugged_at r g' p -> plugged_at r' g' p) /\ (forall g' d' p, fits_port r g' d' p -> fits_port r' g' d' p) /\ (forall n, roomy r (n + 1) -> roomy r' n) /\
  match o with
  | Ok p => plugged_at r' g p /\ ~ plugged_at r g p /\ fits_port r g d p
  | Err (NoController g') => g' = g /\ controllers r !! g = None /\ r' = r
  | Err (NoFreePort g') => g' = g /\ (roomy r 1 -> (forall p, fits_port r g d p -> plugged_at r g p) /\ forall g' p, plugged_at r' g' p <-> plugged_at r g' p)
  | _ => False
  end.
Proof.
  intros Hok. unfold connect_to_guest. destruct (controllers r !! g) as [h|] eqn:Eg.
  2: { intros [= <- <-]. split_and!; try done. intros n Hr g' h c Hg Hc. specialize (Hr g' h c Hg Hc). unfold accepts in *. lia. }
  destruct (ho_heap r Hok g h Eg) as (c & Hc & Hw). rewrite Hc.
  assert (Ha : exists c' o', (match m with Some m => attach_device_with_model c (speed d) m | None => attach_device c (speed d) end) = Ok (c', o') /\ controller_wf c' /\ max_ports c' = max_ports c /\
     capacity (event_ring (interrupter c')) = capacity (event_ring (interrupter c)) /\ pending_count (event_ring (interrupter c')) <= pending_count (event_ring (interrupter c)) + 1 /\
     (forall p, plugged c p -> plugged c' p) /\
     match o' with
     | Some p => compatible c (speed d) p /\ ~ plugged c p /\ plugged c' p
     | None => accepts c 1 -> c' = c /\ forall p, compatible c (speed d) p -> plugged c p
     end).
  { destruct (attach_device_spec c (speed d) Hw) as (c1 & o1 & E & W1 & W2 & W3 & W4 & W5 & W6). destruct m as [m|]; [|exists c1, o1; split_and!; try done; destruct o1; [by destruct W6 as (? & ? & ? & _)|done]].
    pose proof (attach_model_ports c (speed d) m) as Hm. rewrite E in Hm. destruct (attach_device_with_model c (speed d) m) as [[c2 o2]| |]; [|done..]. destruct Hm as (-> & M1 & M2 & M3 & M4).
    exists c2, o2. split; [done|]. assert (Hpl : forall p, plugged c2 p <-> plugged c1 p) by (intros p; unfold plugged; by rewrite M2). rewrite M1, M3. split_and!; try done.
    - destruct W1; constructor; rewrite ?M1, ?M2, ?M3; done.
    - intros p Hp. by apply Hpl, W5.
    - destruct o2; [|by rewrite (M4 eq_refl)]. rewrite Hpl. by destruct W6 as (? & ? & ? & _). }
  destruct Ha as (c' & o' & -> & W1 & W2 & W3 & W4 & W5 & W6). intros [= <- <-]. destruct (heap_frame r g h c c' Hok Eg Hc W1 W2) as (F1 & F2 & F3 & F4 & F5).
  assert (Hpg : forall p, plugged_at r g p <-> plugged c p) by (intros p; unfold plugged_at; split; [intros (h' & c0 & ? & ? & ?); by simplify_eq|eauto]).
  assert (Hfit : forall p, fits_port r g d p <-> compatible c (speed d) p) by (intros p; unfold fits_port; split; [intros (h' & c0 & ? & ? & ?); by simplify_eq|eauto]).
  split_and!; [done|done| |done|intros n Hr; by apply F5|].
  - intros g' p Hp. destruct (decide (g' = g)) as [->|Hne]; [by apply F3, W5, Hpg|by apply F2].
  - destruct o' as [p|]; cbn; [rewrite F3, Hpg, Hfit; by destruct W6 as (? & ? & ?)|]. split; [done|]. intros Hr. destruct (W6 (Hr g h c Eg Hc)) as [-> Hall]. split.
    + intros p Hp. by apply Hpg, Hall, Hfit.
    + intros g' p. destruct (decide (g' = g)) as [->|Hne]; [by rewrite F3, Hpg|by apply F2].
Qed.

Lemma unplug_spec r pl r' m : hub_ok r -> unplug r pl = (r', m) ->
  same_frame r r' /\ hub_ok r' /\ ~ plugged_at r' (pl_guest pl) (pl_port pl) /\
  (forall g p, mkPlacement g p <> pl -> plugged_at r' g p <-> plugged_at r g p) /\ (forall g d p, fits_port r g d p -> fits_port r' g d p) /\ (forall n, roomy r (n + 1) -> roomy r' n).
Proof.
  intros Hok. unfold unplug. destruct (controllers r !! pl_guest pl) as [h|] eqn:Hg.
  2: { intros [= <- <-]. split_and!; try done; [intros (h & c & Hg' & _); congruence|]. intros n Hr g h c Hg' Hc. specialize (Hr g h c Hg' Hc). unfold accepts in *. lia. }
  destruct (ho_heap r Hok _ h Hg) as (c & Hc & Hw). rewrite Hc. unfold take_port_model at 1.
  set (c1 := mkController _ _ _ _ _ _). assert (Hw1 : controller_wf c1) by (destruct Hw; by constructor).
  destruct (disconnect_device_spec c1 (pl_port pl) Hw1) as (c2 & b & -> & W1 & W2 & W3 & W4 & W5 & W6 & W7). intros [= <- <-].
  destruct (heap_frame r (pl_guest pl) h c c2 Hok Hg Hc W1 W2) as (F1 & F2 & F3 & F4 & F5). split_and!; [done|done|by rewrite F3| |done|intros n Hr; by apply F5].
  intros g p Hne. destruct (decide (g = pl_guest pl)) as [->|Hg']; [|by apply F2]. rewrite F3. assert (Hp : p <> pl_port pl) by (intros ->; apply Hne; by destruct pl).
  unfold plugged. rewrite (W6 p Hp). unfold plugged_at. cbn. split; [intros Hx; by exists h, c|]. intros (h' & c' & ? & ? & Hx). by simplify_eq.
Qed.

(** [lost]: the guests whose placements the ports no longer follow. *)
Section Lockstep.
Variable lost : list str.

Record lockstep (r : XhciRegistry) : Prop := {
  ls_hub : hub_ok r;
  ls_plugged : forall b pl, placements r !! b = Some pl -> pl_guest pl ∉ lost -> plugged_at r (pl_guest pl) (pl_port pl);
  ls_inj : forall b b' pl, placements r !! b = Some pl -> placements r !! b' = Some pl -> pl_guest pl ∉ lost -> b = b';
  ls_assign : forall b, assignments (routing_state r) !! b = pl_guest <$> placements r !! b }.

(** A device that is placed nowhere. *)
Lemma attach_lockstep r b d r' o : lockstep r -> placements r !! b = None -> attach_with_model r b d None = (r', o) ->
  lockstep r' /\ controllers r' = controllers r /\ table (routing_state r') = table (routing_state r) /\ (forall n, roomy r (n + 1) -> roomy r' n) /\
  (forall b', b' <> b -> placements r' !! b' = placements r !! b') /\ o <> Panic /\
  (forall pl, o = Ok (Attached pl) -> route (table (routing_state r)) d = RouteToGuest (pl_guest pl) /\ placements r' !! b = Some pl) /\
  (forall g, o = Err (NoController g) -> route (table (routing_state r)) d = RouteToGuest g /\ controllers r !! g = None).
Proof.
  intros [Hh Hp Hi Ha] Hb. unfold attach_with_model, assign_device. destruct (route (table (routing_state r)) d) as [g|] eqn:Er.
  - set (r1 := with_routing r _). assert (Hok1 : hub_ok r1) by (destruct Hh; by constructor).
    destruct (connect_to_guest r1 g d None) as [r2 o2] eqn:Ec. destruct (connect_spec r1 g d None r2 o2 Hok1 Ec) as ((F1 & F2 & F3) & Hok2 & Hk & _ & Hroom & Ho).
    assert (Hbad : forall e, lockstep (with_routing r2 (unassign_device (routing_state r2) b).1) /\ (r', o) = (with_routing r2 (unassign_device (routing_state r2) b).1, Err e : res RegistryError AttachOutcome) ->
       lockstep r' /\ controllers r' = controllers r /\ table (routing_state r') = table (routing_state r) /\ (forall n, roomy r (n + 1) -> roomy r' n) /\ (forall b', b' <> b -> placements r' !! b' = placements r !! b') /\ o <> Panic).
    { intros e [Hl [= -> ->]]. split_and!; [done|done|by cbn; rewrite F3|intros n Hr; by apply Hroom|intros b' _; cbn; by rewrite F2|done]. }
    assert (Hl : lockstep (with_routing r2 (unassign_device (routing_state r2) b).1)).
    { constructor; cbn.
      - destruct Hok2; by constructor.
      - intros b' pl Hpl Hnl. rewrite F2 in Hpl. by apply Hk, (Hp b').
      - intros b1 b2 pl H1 H2. rewrite F2 in H1, H2. by apply (Hi b1 b2 pl).
      - intros b'. rewrite F2, F3. cbn. destruct (decide (b' = b)) as [->|Hne]; [by rewrite lookup_delete_eq, Hb|]. rewrite lookup_delete_ne, lookup_insert_ne by done. apply Ha. }
    destruct o2 as [p|e|]; [|intros Heq; destruct (Hbad e (conj Hl (eq_sym Heq))) as (B1 & B2 & B3 & B4 & B5 & B6); injection Heq as <- <-; split_and!; try done; intros g' [= ->]; by destruct Ho as (-> & ? & _)|done].
    destruct Ho as (Hpl & Hnp & _). intros [= <- <-]. split_and!; [|done|by cbn; rewrite F3|intros n Hr; by apply Hroom|intros b' Hne; cbn; by rewrite lookup_insert_ne, F2|done|intros pl [= <-]; cbn; by rewrite lookup_insert_eq|done]. constructor; cbn.
    + destruct Hok2; by constructor.
    + intros b' pl. rewrite lookup_insert_Some, F2. intros [[<- <-]|[Hne Hpl']] Hnl; [done|]. by apply Hk, (Hp b').
    + assert (Hnew : forall b' pl, placements r !! b' = Some pl -> pl_guest pl ∉ lost -> pl <> mkPlacement g p) by (intros b' pl Hpl' Hnl ->; exact (Hnp (Hp b' _ Hpl' Hnl))).
      intros b1 b2 pl. rewrite !lookup_insert_Some, F2. intros [[<- <-]|[Hn1 H1]] [[<- E]|[Hn2 H2]] Hnl; try done; [by apply Hnew in H2|subst pl; by apply Hnew in H1|by apply (Hi b1 b2 pl)].
    + intros b'. rewrite F2, F3. cbn. destruct (decide (b' = b)) as [->|Hne]; [by rewrite !lookup_insert_eq|]. rewrite !lookup_insert_ne by done. apply Ha.
  - intros [= <- <-]. split_and!; try done; [by constructor; [destruct Hh; constructor|..]|]. intros n Hr g h c Hg Hc. specialize (Hr g h c Hg Hc). unfold accepts in *. lia.
Qed.

Lemma detach_lockstep r b r' o : lockstep r -> detach r b = (r', o) ->
  lockstep r' /\ controllers r' = controllers r /\ table (routing_state r') = table (routing_state r) /\ (forall n, roomy r (n + 1) -> roomy r' n) /\
  placements r' = delete b (placements r) /\ o <> Panic /\
  (forall pl, placements r !! b = Some pl -> o = Ok pl /\ ~ plugged_at r' (pl_guest pl) (pl_port pl)).
Proof.
  intros [Hh Hp Hi Ha]. unfold detach. destruct (placements r !! b) as [pl|] eqn:Eb.
  - set (r1 := with_placements r _). destruct (unplug r1 pl) as [r2 m] eqn:Eu. assert (Hok1 : hub_ok r1) by (destruct Hh; by constructor).
    destruct (unplug_spec r1 pl r2 m Hok1 Eu) as ((F1 & F2 & F3) & Hok2 & Hn & Hk & _ & Hroom). intros [= <- <-]. split_and!; [|done|by cbn; rewrite F3|intros n Hr; by apply Hroom|by cbn; rewrite F2|done|by intros pl' [= <-]].
    constructor; cbn.
    + destruct Hok2; by constructor.
    + intros b' pl'. rewrite F2. cbn. intros [Hne Hpl']%lookup_delete_Some Hnl. apply (Hk (pl_guest pl') (pl_port pl')); [|by apply (Hp b')]. intros E. apply Hne, (Hi b b' pl); [done|by rewrite <- E; destruct pl'|by rewrite <- E].
    + intros b1 b2 pl'. rewrite F2. cbn. intros [_ H1]%lookup_delete_Some [_ H2]%lookup_delete_Some. by apply (Hi b1 b2 pl').
    + intros b'. rewrite F2, F3. cbn. destruct (decide (b' = b)) as [->|Hne]; [by rewrite !lookup_delete_eq|]. rewrite !lookup_delete_ne by done. apply Ha.
  - intros [= <- <-]. split_and!; try done; [intros n Hr g h c Hg Hc; specialize (Hr g h c Hg Hc); unfold accepts in *; lia|by rewrite delete_id].
Qed.

(** Moving a device, with its own identity, while the rings have room for the
    events: either it is on a port of the new guest, or it is still on a port of
    the old one. *)
Lemma reassign_lockstep r b g d r' o : lockstep r -> roomy r 3 -> (forall pl, placements r !! b = Some pl -> fits_port r (pl_guest pl) d (pl_port pl)) -> reassign r b g d = (r', o) ->
  lockstep r' /\ controllers r' = controllers r /\ table (routing_state r') = table (routing_state r) /\ o <> Panic /\ (forall b', is_Some (placements r' !! b') <-> is_Some (placements r !! b')) /\
  match o with
  | Ok pl => pl_guest pl = g /\ placements r' !! b = Some pl
  | _ => pl_guest <$> placements r' !! b = pl_guest <$> placements r !! b
  end.
Proof.
  intros [Hh Hp Hi Ha] Hroom Hfit. unfold reassign. destruct (placements r !! b) as [old|] eqn:Eb; [|intros [= <- <-]; rewrite Eb; by split_and!].
  destruct (unplug r old) as [r1 m] eqn:Eu. destruct (unplug_spec r old r1 m Hh Eu) as ((F1 & F2 & F3) & Hok1 & Hn & Hk & Hf1 & Hr1). specialize (Hr1 2 Hroom).
  (* The new placement of the device, on a port free after the unplug. *)
  assert (Hplace : forall r2 g' p rs, controllers r2 = controllers r -> placements r2 = placements r -> hub_ok r2 -> (forall g p, plugged_at r1 g p -> plugged_at r2 g p) -> plugged_at r2 g' p -> ~ plugged_at r1 g' p ->
     assignments rs = <[b := g']> (assignments (routing_state r)) -> lockstep (mkRegistry (controllers r2) (<[b := mkPlacement g' p]> (placements r2)) rs (heap r2)) /\
     (forall b', is_Some (<[b := mkPlacement g' p]> (placements r2) !! b') <-> is_Some (placements r !! b'))).
  { intros r2 g' p rs G1 G2 Hok2 Hkk Hpl Hnp Hrs. split; [constructor; cbn|].
    - destruct Hok2; by constructor.
    - intros b' pl. rewrite lookup_insert_Some, G2. intros [[<- <-]|[Hne Hpl']] Hnl; [done|]. apply Hkk, (Hk (pl_guest pl) (pl_port pl)); [|by apply (Hp b')]. intros E. apply Hne, (Hi b b' old); [done|by rewrite <- E; destruct pl|by rewrite <- E].
    - assert (Hnew : forall b' pl, b <> b' -> placements r !! b' = Some pl -> pl_guest pl ∉ lost -> pl <> mkPlacement g' p).
      { intros b' pl Hne Hpl' Hnl ->. apply Hnp, (Hk g' p); [|by apply (Hp b' _ Hpl')]. intros E. apply Hne, (Hi b b' old); [done|by rewrite <- E|by rewrite <- E]. }
      intros b1 b2 pl. rewrite !lookup_insert_Some, G2. intros [[<- <-]|[Hn1 H1]] [[<- E]|[Hn2 H2]] Hnl; try done; [by apply Hnew in H2|subst pl; by apply Hnew in H1|by apply (Hi b1 b2 pl)].
    - intros b'. rewrite Hrs, G2. destruct (decide (b' = b)) as [->|Hne]; [by rewrite !lookup_insert_eq|]. rewrite !lookup_insert_ne by done. apply Ha.
    - intros b'. rewrite G2. destruct (decide (b' = b)) as [->|Hne]; [rewrite lookup_insert_eq, Eb; split; eauto|by rewrite lookup_insert_ne]. }
  destruct (connect_to_guest r1 g d m) as [r2 o2] eqn:Ec. destruct (connect_spec r1 g d m r2 o2 Hok1 Ec) as ((G1 & G2 & G3) & Hok2 & Hk2 & Hf2 & Hr2 & Ho). specialize (Hr2 1 Hr1).
  destruct o2 as [p|err|]; [| |done].
  - destruct Ho as (Hpl & Hnp & _). destruct (Hplace r2 g p (reassign_device (routing_state r2) b g).1) as [Hl Hd]; [congruence|congruence|done|done|done|done|by cbn; rewrite G3, F3|].
    intros [= <- <-]. split_and!; [done|cbn; congruence|cbn; by rewrite G3, F3|done|done|done|cbn; by rewrite lookup_insert_eq].
  - assert (Hsame : (forall g p, plugged_at r2 g p <-> plugged_at r1 g p)) by (destruct err; [destruct Ho as (_ & _ & ->); done|apply Ho; intros ? ? c0 ? ?; specialize (Hr1 _ _ c0 ltac:(done) ltac:(done)); unfold accepts in *; lia|done]).
    destruct (connect_to_guest r2 (pl_guest old) d None) as [r3 o3] eqn:Ec3. destruct (connect_spec r2 (pl_guest old) d None r3 o3 Hok2 Ec3) as ((I1 & I2 & I3) & Hok3 & Hk3 & _ & _ & Ho3).
    assert (Hport : fits_port r2 (pl_guest old) d (pl_port old)) by (apply Hf2, Hf1; by apply Hfit). destruct o3 as [p|err3|]; [| |done].
    + destruct Ho3 as (Hpl & Hnp & _). destruct (Hplace r3 (pl_guest old) p (routing_state r3)) as [Hl Hd]; [congruence|congruence|done|intros; apply Hk3, Hsame; done|done|by rewrite <- Hsame| |].
      { rewrite I3, G3, F3. symmetry. apply insert_id. by rewrite Ha, Eb. }
      intros [= <- <-]. split_and!; [done|cbn; congruence|cbn; by rewrite I3, G3, F3|done|done|cbn; by rewrite lookup_insert_eq].
    + exfalso. destruct err3 as [g'|g'|]; [|destruct Ho3 as [_ Ho3]|done].
      * destruct Ho3 as (_ & Hnone & _). destruct Hport as (h & c & Hg & _). congruence.
      * destruct (Ho3 Hr2) as [Hall _]. by apply Hn, Hsame, Hall.
Qed.

(** ** The dispatcher *)

Definition connect_addr (e : UsbHotplugEvent) : option Z := match e with Connected info => Some (address info) | _ => None end.

Lemma roomy_mono r n n' : roomy r n -> n' <= n -> roomy r n'.
Proof. intros Hr Hn g h c Hg Hc. specialize (Hr g h c Hg Hc). unfold accepts in *. lia. Qed.

(** An outcome the routing table and the controllers allow. *)
Definition outcome_ok (t : RoutingTable) (cs : gmap str Z) (o : HotplugOutcome) : Prop :=
  match o with
  | OAttached _ g _ => exists d, route t d = RouteToGuest g
  | OAttachFailed _ (NoController g) => exists d, route t d = RouteToGuest g /\ cs !! g = None
  | _ => True
  end.

Lemma service_event_lockstep fb ps r e : lockstep r -> (forall a, connect_addr e = Some a -> placements r !! a = None) ->
  exists ps' r' out, service_event fb ps r e = Ok (ps', r', out) /\ lockstep r' /\ controllers r' = controllers r /\ table (routing_state r') = table (routing_state r) /\
    (forall n, roomy r (n + 1) -> roomy r' n) /\ (forall b, is_Some (placements r' !! b) -> is_Some (placements r !! b) \/ connect_addr e = Some b) /\
    Forall (outcome_ok (table (routing_state r)) (controllers r)) out.
Proof.
  intros Hl Hfree. destruct e as [info|path]; cbn [service_event connect_addr UsbDevice_new] in *.
  - set (id := mkDeviceId _ _ _ _ _ _ _ _). destruct (attach_with_model r (address info) id None) as [r' o] eqn:Ea.
    destruct (attach_lockstep r (address info) id r' o Hl (Hfree _ eq_refl) Ea) as (L1 & L2 & L3 & L4 & L5 & L6 & L7 & L8).
    assert (Hpl : forall b, is_Some (placements r' !! b) -> is_Some (placements r !! b) \/ Some (address info) = Some b).
    { intros b Hb. destruct (decide (b = address info)) as [->|Hne]; [by right|]. left. by rewrite <- (L5 b Hne). }
    destruct o as [[pl|]|err|]; [| | |done]; eexists _, _, _; (split; [done|]); split_and!; try done.
    + apply Forall_singleton. exists id. by apply L7.
    + by apply Forall_singleton.
    + apply Forall_cons_2; [destruct err; cbn; [exists id; by apply L8|done|done]|]. destruct fb; [by apply Forall_singleton|done].
  - destruct (ps !! path) as [b|]; [|eexists _, _, _; split; [done|]; split_and!; try done; [intros n Hr; by apply (roomy_mono r (n + 1)); [|lia]|by left|by apply Forall_singleton]].
    destruct (detach r b) as [r' o] eqn:Ed. destruct (detach_lockstep r b r' o Hl Ed) as (L1 & L2 & L3 & L4 & L5 & L6 & _).
    assert (Hpl : forall b', is_Some (placements r' !! b') -> is_Some (placements r !! b') \/ @None Z = Some b') by (intros b' [pl Hb']; rewrite L5 in Hb'; apply lookup_delete_Some in Hb' as [_ Hb']; left; by exists pl).
    destruct o as [pl|err|]; [| |done]; eexists _, _, _; (split; [done|]); split_and!; try done; by apply Forall_singleton.
Qed.

Lemma service_events_lockstep fb es ps r : lockstep r -> NoDup (omap connect_addr es) -> (forall a, a ∈ omap connect_addr es -> placements r !! a = None) ->
  exists ps' r' out, service_events fb es ps r = Ok (ps', r', out) /\ lockstep r' /\ controllers r' = controllers r /\ table (routing_state r') = table (routing_state r) /\
    (forall b, is_Some (placements r' !! b) -> is_Some (placements r !! b) \/ b ∈ omap connect_addr es) /\
    Forall (outcome_ok (table (routing_state r)) (controllers r)) out.
Proof.
  revert ps r. induction es as [|e es IH]; intros ps r Hl Hnd Hfree; cbn [service_events]; [eexists _, _, _; split; [done|]; split_and!; try done; by left|].
  assert (Hfree1 : forall a, connect_addr e = Some a -> placements r !! a = None) by (intros a Ha; apply Hfree; cbn; rewrite Ha; set_solver).
  destruct (service_event_lockstep fb ps r e Hl Hfree1) as (ps1 & r1 & out1 & -> & L1 & L2 & L3 & _ & L5 & L6). cbn [mbind res_bind fst snd].
  assert (Hnd' : NoDup (omap connect_addr es) /\ forall a, connect_addr e = Some a -> a ∉ omap connect_addr es) by (cbn in Hnd; destruct (connect_addr e); [apply NoDup_cons in Hnd as [? ?]; split; [done|by intros ? [= <-]]|done]).
  assert (Hin : forall a, a ∈ omap connect_addr (e :: es) <-> connect_addr e = Some a \/ a ∈ omap connect_addr es) by (intros a; cbn; destruct (connect_addr e); [rewrite elem_of_cons|]; naive_solver).
  destruct (IH ps1 r1 L1 (proj1 Hnd')) as (ps2 & r2 & out2 & -> & M1 & M2 & M3 & M4 & M5).
  { intros a Ha. destruct (placements r1 !! a) as [pl|] eqn:E; [|done]. exfalso. destruct (L5 a ltac:(by exists pl)) as [[pl' Hpl']|Hc]; [|by apply (proj2 Hnd' a)]. rewrite Hfree in Hpl'; [done|]. apply Hin. by right. }
  eexists _, _, _. split; [done|]. cbn [fst snd]. split_and!; [done|congruence|congruence| |].
  - intros b Hb. rewrite Hin. destruct (M4 b Hb) as [Hb1|]; [destruct (L5 b Hb1); auto|auto].
  - apply Forall_app. split; [done|]. by rewrite <- L2, <- L3.
Qed.

End Lockstep.

(** ** The system *)

(** The parts, and the guests that reset their controller with devices on it. *)
Record Usb := mkUsbSystem { monitor : UsbMonitor; dispatcher : HotplugDispatcher; registry : XhciRegistry; lost : list str }.
Definition enqueue (d : HotplugDispatcher) (es : list UsbHotplugEvent) : HotplugDispatcher := mkDispatcher (events d ++ es) (by_port d) (fallback d).

(** What a guest makes its controller do other than by writing the operational
    registers (doorbells, the event ring, slots): the port registers stay. *)
Definition driver_acts (h h' : gmap Z controller) : Prop :=
  forall k, match h !! k, h' !! k with
            | Some c, Some c' => max_ports c' = max_ports c /\ (controller_wf c -> controller_wf c') /\ op_ports (op c') = op_ports (op c)
            | None, None => True
            | _, _ => False
            end.

(** The driver of guest [g] writes an operational register of its controller. *)
Definition driver_writes (r : XhciRegistry) (g : str) (offset value : Z) (r' : XhciRegistry) : Prop :=
  exists h c, controllers r !! g = Some h /\ heap r !! h = Some c /\ r' = with_heap r (<[h := with_op c (write_operational (op c) offset value)]> (heap r)).
Definition placed_on (r : XhciRegistry) (g : str) : Prop := exists b pl, placements r !! b = Some pl /\ pl_guest pl = g.

(** The steps: the host reports a device, the run loop services the events, the
    management console moves a device while the event rings have room, a guest
    driver acts.  A driver that resets its controller with devices placed on it
    is recorded. *)
Inductive usb_step : Usb -> Usb -> Prop :=
  | us_connect s path d sp m' o es : report_connect (monitor s) path d sp = (m', o, es) -> usb_step s (mkUsbSystem m' (enqueue (dispatcher s) es) (registry s) (lost s))
  | us_disconnect s path m' o es : report_disconnect (monitor s) path = (m', o, es) -> usb_step s (mkUsbSystem m' (enqueue (dispatcher s) es) (registry s) (lost s))
  | us_service s d' r' out : service (dispatcher s) (registry s) = Ok (d', r', out) -> usb_step s (mkUsbSystem (monitor s) d' r' (lost s))
  | us_move s b g d r' o : roomy (registry s) 3 -> (forall pl, placements (registry s) !! b = Some pl -> fits_port (registry s) (pl_guest pl) d (pl_port pl)) ->
      reassign (registry s) b g d = (r', o) -> usb_step s (mkUsbSystem (monitor s) (dispatcher s) r' (lost s))
  | us_fallback s fb : usb_step s (mkUsbSystem (monitor s) (mkDispatcher (events (dispatcher s)) (by_port (dispatcher s)) fb) (registry s) (lost s))
  | us_driver s h : driver_acts (heap (registry s)) h -> usb_step s (mkUsbSystem (monitor s) (dispatcher s) (with_heap (registry s) h) (lost s))
  | us_write s g offset value r' : driver_writes (registry s) g offset value r' -> ~ (hcrst offset value = true /\ placed_on (registry s) g) ->
      usb_step s (mkUsbSystem (monitor s) (dispatcher s) r' (lost s))
  | us_reset s g offset value r' : driver_writes (registry s) g offset value r' -> hcrst offset value = true -> placed_on (registry s) g ->
      usb_step s (mkUsbSystem (monitor s) (dispatcher s) r' (g :: lost s)).

Record usb_inv (s : Usb) : Prop := {
  ui_lockstep : lockstep (lost s) (registry s);
  ui_placed : forall b, is_Some (placements (registry s) !! b) -> b < next_address (monitor s);
  ui_queued : forall a, a ∈ omap connect_addr (events (dispatcher s)) -> a < next_address (monitor s) /\ placements (registry s) !! a = None;
  ui_distinct : NoDup (omap connect_addr (events (dispatcher s))) }.

Lemma driver_lockstep l r h : lockstep l r -> driver_acts (heap r) h -> lockstep l (with_heap r h).
Proof.
  intros [[Hh Hp] Hpl Hi Ha] Hd. assert (Hsame : forall g p, plugged_at r g p -> plugged_at (with_heap r h) g p).
  { intros g p (k & c & Hg & Hc & Hplug). exists k. specialize (Hd k). rewrite Hc in Hd. cbn. destruct (h !! k) as [c'|]; [|done]. exists c'. split_and!; [done|done|]. destruct Hd as (_ & _ & E). unfold plugged. by rewrite E. }
  constructor; [constructor; [done|]|..]; cbn; [|intros b pl Hb Hnl; by apply Hsame, (Hpl b)|done|done].
  intros g k Hg. destruct (Hp g k Hg) as (c & Hc & Hw). specialize (Hd k). rewrite Hc in Hd. destruct (h !! k) as [c'|]; [|done]. exists c'. split; [done|]. by apply Hd.
Qed.

(** A register write keeps lockstep, except on the writer's own ports when it
    resets them. *)
Lemma write_lockstep l r g offset value r' : lockstep l r -> driver_writes r g offset value r' ->
  same_frame r r' /\ lockstep (g :: l) r' /\ (~ (hcrst offset value = true /\ placed_on r g) -> lockstep l r').
Proof.
  intros [Hok Hpl Hi Ha] (h & c & Hg & Hc & ->). set (c' := with_op c _). destruct (ho_heap r Hok g h Hg) as (c0 & Hc0 & Hw). simplify_eq.
  assert (Hw' : controller_wf c') by (destruct (hcrst offset value) eqn:E; [by apply write_operational_reset|by apply write_operational_keeps]).
  destruct (heap_frame r g h c c' Hok Hg Hc Hw' eq_refl) as (F1 & F2 & F3 & _). split; [done|].
  assert (Hother : forall b pl, placements r !! b = Some pl -> pl_guest pl ∉ l -> pl_guest pl <> g -> plugged_at (with_heap r (<[h := c']> (heap r))) (pl_guest pl) (pl_port pl)) by (intros b pl Hb Hnl Hne; by apply F2, (Hpl b)).
  split; [|intros Hn]; (constructor; [done| | |done]).
  - intros b pl Hb [Hne Hnl]%not_elem_of_cons. by apply (Hother b).
  - intros b b' pl Hb Hb' [_ Hnl]%not_elem_of_cons. by apply (Hi b b' pl).
  - intros b pl Hb Hnl. destruct (decide (pl_guest pl = g)) as [E|Hne]; [|by apply (Hother b)]. rewrite E. apply F3. destruct (hcrst offset value) eqn:Er; [exfalso; apply Hn; split; [done|by exists b, pl]|].
    apply (write_operational_keeps c offset value Er Hw). destruct (Hpl b pl Hb Hnl) as (h1 & c1 & Hg1 & Hc1 & Hp). rewrite E in Hg1. by simplify_eq.
  - done.
Qed.

Lemma usb_step_inv s s' : usb_inv s -> usb_step s s' -> usb_inv s' /\ controllers (registry s') = controllers (registry s) /\ table (routing_state (registry s')) = table (routing_state (registry s)).
Proof.
  intros [Hl Hp Hq Hd]. destruct 1 as [s path d sp m' o es Hr|s path m' o es Hr|s d' r' out Hs|s b g d r' o Hroom Hfit Hr|s fb|s h Hh|s g off v r' Hw Hn|s g off v r' Hw Hv Hpo].
  - unfold report_connect, allocate_address in Hr. destruct (Z.leb_spec 127 (next_address (monitor s))); injection Hr as <- <- <-; (split; [|done]); constructor; cbn; try rewrite app_nil_r; try done.
    + intros b Hb. specialize (Hp b Hb). lia.
    + intros a. rewrite omap_app. cbn. intros [Ha|[->|[]%not_elem_of_nil]%elem_of_cons]%elem_of_app; [specialize (Hq a Ha); split; [lia|by apply Hq]|]. split; [lia|]. apply eq_None_not_Some. intros Hs. specialize (Hp _ Hs). lia.
    + rewrite omap_app. cbn. apply NoDup_app. split_and!; [done|intros a Ha [->|[]%not_elem_of_nil]%elem_of_cons; apply Hq in Ha; lia|apply NoDup_singleton].
  - unfold report_disconnect in Hr. destruct (devices (monitor s) !! path); injection Hr as <- <- <-; (split; [|done]); constructor; cbn; rewrite ?omap_app; cbn; rewrite ?app_nil_r; done.
  - unfold service in Hs. destruct (service_events_lockstep (lost s) (fallback (dispatcher s)) _ (by_port (dispatcher s)) _ Hl Hd (fun a Ha => proj2 (Hq a Ha))) as (ps' & r1 & out1 & E & L1 & L2 & L3 & L4 & _).
    rewrite E in Hs. cbn in Hs. injection Hs as <- <- <-. split; [|done]. constructor; cbn; [done| |intros a []%not_elem_of_nil|constructor].
    intros b Hb. destruct (L4 b Hb) as [Hb1|Hb1]; [by apply Hp|by apply Hq].
  - destruct (reassign_lockstep (lost s) _ b g d r' o Hl Hroom Hfit Hr) as (L1 & L2 & L3 & _ & L5 & _). split; [|done]. constructor; cbn; [done|intros b' Hb'; by apply Hp, L5| |done].
    intros a Ha. destruct (Hq a Ha) as [H1 H2]. split; [done|]. apply eq_None_not_Some. rewrite L5. by apply eq_None_not_Some.
  - by split; [constructor|].
  - split; [|done]. constructor; cbn; [by apply driver_lockstep|done..].
  - destruct (write_lockstep _ _ _ _ _ _ Hl Hw) as ((F1 & F2 & F3) & _ & L). split; [|by cbn; rewrite F1, F3]. constructor; cbn; rewrite ?F2; [by apply L|done..].
  - destruct (write_lockstep _ _ _ _ _ _ Hl Hw) as ((F1 & F2 & F3) & L & _). split; [|by cbn; rewrite F1, F3]. constructor; cbn; rewrite ?F2; done.
Qed.

Lemma usb_reachable_inv s s' : usb_inv s -> rtc usb_step s s' -> usb_inv s' /\ controllers (registry s') = controllers (registry s) /\ table (routing_state (registry s')) = table (routing_state (registry s)).
Proof.
  intros Hi Hs. revert Hi. induction Hs as [s|s s1 s' H1 Hs IH]; intros Hi; [done|]. destruct (usb_step_inv s s1 Hi H1) as (I1 & C1 & T1). destruct (IH I1) as (I2 & C2 & T2). split_and!; [done|congruence..].
Qed.

(** ** The theorems *)

Lemma elem_of_dedup x l : x ∈ dedup l <-> x ∈ l.
Proof.
  induction l as [|y [|z l] IH]; [done|done|]. change (dedup (y :: z :: l)) with (if bool_decide (y = z) then dedup (z :: l) else y :: dedup (z :: l)).
  case_bool_decide as Hy; [subst y; rewrite IH; set_solver|]. rewrite elem_of_cons, IH. set_solver.
Qed.

Lemma route_target t d g : route t d = RouteToGuest g -> g ∈ (target <$> rules t) ++ option_list (table_default t).
Proof.
  unfold route. rewrite elem_of_app. destruct (route_rules (rules t) d) as [g'|] eqn:E.
  - intros [= ->]. left. revert E. induction (rules t) as [|r rs IH]; [done|]. cbn. destruct (_ && _); [intros [= <-]; set_solver|]. intros E. apply elem_of_cons. right. by apply IH.
  - destruct (table_default t) as [g'|]; [|done]. intros [= ->]. right. set_solver.
Qed.

Lemma registry_from_config u given h r : usb_registry_from_config u given h = Ok r ->
  placements r = ∅ /\ (exists t, routing_table_from_config u = Ok t /\ routing_state r = RoutingState_new t /\ forall d g, route t d = RouteToGuest g -> is_Some (controllers r !! g)).
Proof.
  unfold usb_registry_from_config, routing_targets. destruct (routing_table_from_config u) as [t| |]; [|done..]. cbn [mbind res_bind].
  set (reg := foldl _ _ _). assert (Hreg : placements reg = ∅ /\ routing_state reg = RoutingState_new t).
  { unfold reg. clear. induction given as [|gh given IH] using rev_ind; [done|]. rewrite foldl_app. cbn. apply IH. }
  case_bool_decide as Hm; [|done]. intros [= <-]. destruct Hreg as [H1 H2]. split; [done|]. exists t. split_and!; [done|done|]. intros d g Hg. apply route_target in Hg.
  destruct (controllers reg !! g) as [k|] eqn:E; [eauto|]. exfalso. assert (Hin : g ∈ filter (fun g => controllers reg !! g = None) (dedup (sort_strs ((target <$> rules t) ++ option_list (table_default t))))).
  { apply list_elem_of_filter. split; [done|]. apply elem_of_dedup. by rewrite sort_strs_perm. }
  rewrite Hm in Hin. by apply not_elem_of_nil in Hin.
Qed.

Definition usb_boot (r : XhciRegistry) : Usb := mkUsbSystem UsbMonitor_new (mkDispatcher [] ∅ None) r [].

Lemma usb_boot_inv u given h r : usb_registry_from_config u given h = Ok r -> hub_ok r -> usb_inv (usb_boot r).
Proof.
  intros Hr Hh. destruct (registry_from_config u given h r Hr) as (Hp & t & _ & Hs & _). assert (Hn : forall b, ~ is_Some (placements r !! b)) by (intros b [pl Hb]; by rewrite Hp, lookup_empty in Hb).
  constructor; cbn; [|intros b Hb; by apply Hn in Hb|intros a []%not_elem_of_nil|constructor]. constructor; [done|intros b pl Hb; by destruct (Hn b ltac:(eauto))|intros b b' pl Hb; by destruct (Hn b ltac:(eauto))|].
  intros b. by rewrite Hp, Hs, lookup_empty.
Qed.

(** C12: From a registry built out of a validated configuration, whatever the host
    reports, the run loop services, the console moves while the event queues
    have room for the events of the move, and the guests' drivers do and write
    to their operational registers, the routing state assigns each placed
    device, and no other, to the guest it is placed on; each device placed on a
    guest that has not reset its controller with devices on it is on a plugged
    port of that guest's controller, and no two share a port, so that a reset
    by one guest disturbs no other; and servicing the queued events never panics,
    never finds a routed guest without a controller, and attaches devices only
    to guests the configuration defines. *)
Theorem usb_hotplug_safe c given h r s : config_wf c -> validate_config c = Ok [] -> usb_registry_from_config (usb c) given h = Ok r -> hub_ok r ->
  rtc usb_step (usb_boot r) s ->
  lockstep (lost s) (registry s) /\
  exists d' r' out, service (dispatcher s) (registry s) = Ok (d', r', out) /\
    (forall b g, OAttachFailed b (NoController g) ∉ out) /\ (forall b g p, OAttached b g p ∈ out -> defined c g).
Proof.
  intros Hw Hv Hr Hh Hs. destruct (usb_reachable_inv _ _ (usb_boot_inv _ _ _ _ Hr Hh) Hs) as ([Hl Hp Hq Hd] & Hc & Ht). split; [done|]. cbn in Hc, Ht.
  destruct (registry_from_config _ _ _ _ Hr) as (_ & t & Htab & Hst & Hctl). rewrite Hst in Ht. cbn in Ht. apply (validate_config_nil c Hw) in Hv.
  destruct (service_events_lockstep (lost s) (fallback (dispatcher s)) _ (by_port (dispatcher s)) _ Hl Hd (fun a Ha => proj2 (Hq a Ha))) as (ps' & r1 & out & E & _ & _ & _ & _ & Ho).
  unfold service. rewrite E. cbn. eexists _, _, _. split; [done|]. rewrite Hc, Ht in Ho. rewrite Forall_forall in Ho. split.
  - intros b g Hin. destruct (Ho _ Hin) as (d & Hg & Hnone). destruct (Hctl d g Hg). congruence.
  - intros b g p Hin. destruct (Ho _ Hin) as (d & Hg). pose proof (built_route (usb c) t d (config_built _ _ Htab)) as Hsr. rewrite Hg in Hsr. by apply (spec_route_defined c d).
Qed.

End registry.
Arguments XhciRegistry : clear implicits.

(** ** A host with two guests *)

Definition sample_controller : VirtualXhciController unit :=
  mkController 4 (mkOp 0 1 1 0 0 0 0 (replicate 4 PortRegisterSet_new)) (mkInterrupter 2 0xFA0 1 0 0 (EventRing_new 16) None) (replicate 4 None) [] ∅.
Definition sample_given : list (str * Z) := [(lit "vm1", 1); (lit "vm2", 2)].
Definition sample_registry : XhciRegistry unit :=
  mkRegistry (<[lit "vm2" := 2]> {[lit "vm1" := 1]}) ∅
    (RoutingState_new (default RoutingTable_new (ok (routing_table_from_config (usb sample_config))))) (<[2 := sample_controller]> {[1 := sample_controller]}).
Definition sample_descriptor : UsbDeviceDescriptor := mkDescriptor 0x046d 0xc52b Hid 0 0 None None None 64 1 (2, 0) (1, 0).

Lemma sample_hub_ok : hub_ok sample_registry.
Proof.
  assert (Hw : controller_wf sample_controller) by (constructor; [done|done|by constructor]).
  assert (Hc : forall g h, controllers sample_registry !! g = Some h -> (g = lit "vm2" /\ h = 2) \/ (g = lit "vm1" /\ h = 1)).
  { intros g h Hg. cbn [controllers sample_registry] in Hg. apply lookup_insert_Some in Hg as [[<- <-]|[_ Hg]]; [by left|]. apply lookup_singleton_Some in Hg as [<- <-]. by right. }
  constructor.
  - intros g1 g2 h H1 H2. destruct (Hc _ _ H1) as [[-> ->]|[-> ->]], (Hc _ _ H2) as [[-> E]|[-> E]]; done.
  - intros g h Hg. exists sample_controller. split; [|done]. cbn [heap sample_registry]. by destruct (Hc _ _ Hg) as [[-> ->]|[-> ->]].
Qed.

Lemma usb_hotplug_safe_witness :
  let info := mkInfo 1 (mkPath 1 [2; 3]) sample_descriptor Low in
  exists d' r' out, service (mkDispatcher [Connected info] ∅ None) sample_registry = Ok (d', r', out) /\ (forall b g p, OAttached b g p ∈ out -> defined sample_config g) /\ OAttached 1 (lit "vm2") 0 ∈ out.
Proof.
  intros info. assert (Hr : usb_registry_from_config (usb sample_config) sample_given (<[2 := sample_controller]> {[1 := sample_controller]}) = Ok sample_registry) by by vm_compute.
  destruct (usb_hotplug_safe sample_config sample_given _ sample_registry (mkUsbSystem (mkMonitor {[mkPath 1 [2; 3] := info]} 2) (mkDispatcher [Connected info] ∅ None) sample_registry [])
    sample_config_wf ltac:(by vm_compute) Hr sample_hub_ok) as (_ & d' & r' & out & Hs & _ & Hd).
  { eapply rtc_once, (us_connect (usb_boot sample_registry) (mkPath 1 [2; 3]) sample_descriptor Low). by vm_compute. }
  exists d', r', out. split; [exact Hs|]. split; [exact Hd|]. cbn [dispatcher registry] in Hs.
  assert (Ho : (match service (mkDispatcher [Connected info] ∅ None) sample_registry with Ok (_, _, out) => out | _ => [] end) = [OAttached 1 (lit "vm2") 0]) by by vm_compute.
  rewrite Hs in Ho. rewrite Ho. by apply list_elem_of_singleton.
Defined.

(** ** A controller reset *)

(** [HCRST] clears every port and tells the registry nothing: a device placed
    there stays placed and assigned on a port that is no longer plugged, and no
    device of the guest is left on any port. *)
Lemma usb_reset_unplugs {Model} (r : XhciRegistry Model) l g offset value r' b pl : lockstep l r -> driver_writes r g offset value r' -> hcrst offset value = true ->
  placements r !! b = Some pl -> pl_guest pl = g ->
  placements r' !! b = Some pl /\ assignments (routing_state r') !! b = Some g /\ forall p, ~ plugged_at r' g p.
Proof.
  intros [Hok _ _ Ha] (h & c & Hg & Hc & ->) Hv Hb Hpl. destruct (ho_heap r Hok g h Hg) as (c0 & Hc0 & Hw). simplify_eq.
  destruct (write_operational_reset c offset value Hv Hw) as [Hw' Hn]. destruct (heap_frame r (pl_guest pl) h c _ Hok Hg Hc Hw' eq_refl) as (_ & _ & F3 & _).
  split_and!; [done|cbn; by rewrite Ha, Hb|]. intros p Hp. by apply (Hn p), F3.
Qed.

(** The next device routed to the guest then takes the same port. *)
Definition sample_id : UsbDeviceId := (UsbDevice_new (mkInfo 1 (mkPath 1 [2; 3]) sample_descriptor Low)).1.
Definition reset_registry (r : XhciRegistry unit) (h : Z) : XhciRegistry unit :=
  match heap r !! h with Some c => with_heap r (<[h := with_op c (write_operational (op c) 0 2)]> (heap r)) | None => r end.
Lemma usb_reset_collides :
  let r1 := (attach_with_model sample_registry 1 sample_id None).1 in
  let r2 := (attach_with_model (reset_registry r1 2) 2 sample_id None).1 in
  placements r2 !! 1 = Some (mkPlacement (lit "vm2") 0) /\ placements r2 !! 2 = Some (mkPlacement (lit "vm2") 0).
Proof. split; vm_compute; reflexivity. Qed.

(** ** Bus addresses *)

Inductive report := RConnect (path : UsbPortPath) (d : UsbDeviceDescriptor) (sp : DeviceSpeed) | RDisconnect (path : UsbPortPath).
Definition report_one (m : UsbMonitor) (e : report) : UsbMonitor :=
  match e with RConnect path d sp => (report_connect m path d sp).1.1 | RDisconnect path => (report_disconnect m path).1.1 end.

(** The connects reported, and the device at a path after the reports, told from
    them alone: the [n]-th connect has address [n], and past the 126th there are
    no devices. *)
Fixpoint connects (rs : list report) : Z := match rs with [] => 0 | RConnect _ _ _ :: rs => 1 + connects rs | RDisconnect _ :: rs => connects rs end.
Fixpoint device_at (n : Z) (cur : option UsbDeviceInfo) (q : UsbPortPath) (rs : list report) : option UsbDeviceInfo :=
  match rs with
  | [] => cur
  | RConnect p d sp :: rs => device_at (n + 1) (if bool_decide (p = q) && (n <=? 126) then Some (mkInfo n p d sp) else cur) q rs
  | RDisconnect p :: rs => device_at n (if bool_decide (p = q) then None else cur) q rs
  end.

Lemma connects_nonneg rs : 0 <= connects rs.
Proof. induction rs as [|[] rs IH]; cbn; lia. Qed.

Lemma reports_spec rs m n : next_address m = Z.min n 127 -> 1 <= n ->
  next_address (foldl report_one m rs) = Z.min (n + connects rs) 127 /\
  forall q, devices (foldl report_one m rs) !! q = device_at n (devices m !! q) q rs.
Proof.
  revert m n. induction rs as [|[p d sp|p] rs IH]; intros m n Hm Hn; cbn [foldl connects device_at report_one].
  - split; [by rewrite Z.add_0_r|done].
  - unfold report_connect, allocate_address. destruct (Z.leb_spec 127 (next_address m)) as [Hfull|Hroom]; cbn [fst].
    + destruct (IH m (n + 1)) as [I1 I2]; [lia..|]. split; [rewrite I1; f_equal; lia|]. intros q. rewrite I2. rewrite (proj2 (Z.leb_gt n 126)) by lia. by rewrite andb_false_r.
    + rewrite (proj2 (Z.leb_le n 126)) by lia. replace (next_address m) with n by lia. destruct (IH (mkMonitor (<[p := mkInfo n p d sp]> (devices m)) (n + 1)) (n + 1)) as [I1 I2]; [cbn; lia..|].
      split; [cbn [devices next_address] in *; rewrite I1; f_equal; lia|]. intros q. cbn [devices next_address] in *. rewrite I2. f_equal. rewrite andb_true_r. case_bool_decide as E; [subst q; by rewrite lookup_insert_eq|by rewrite lookup_insert_ne].
  - unfold report_disconnect. destruct (devices m !! p) as [i|] eqn:Ep; cbn [fst].
    + destruct (IH (mkMonitor (delete p (devices m)) (next_address m)) n) as [I1 I2]; [done..|]. split; [done|]. intros q. rewrite I2. cbn [devices]. f_equal. case_bool_decide as E; [subst q; by rewrite lookup_delete_eq|by rewrite lookup_delete_ne].
    + destruct (IH m n) as [I1 I2]; [done..|]. split; [done|]. intros q. rewrite I2. f_equal. case_bool_decide as E; [by subst q|done].
Qed.

(** C40: Bus addresses are never given back.  After any sequence of connects and
    disconnects, of any devices on any ports, the devices the monitor knows are
    those of the first 126 connects, less the ones disconnected or replaced since, and the next
    connect is given the number of connects so far plus one as its address; from
    the 127th connect on it is refused with [AddressExhausted], the monitor
    unchanged and nobody told, whatever is still connected. *)
Theorem usb_addresses_run_out rs path d sp :
  let m := foldl report_one UsbMonitor_new rs in
  (forall q, devices m !! q = device_at 1 None q rs) /\
  report_connect m path d sp =
    if connects rs <? 126
    then let info := mkInfo (connects rs + 1) path d sp in (mkMonitor (<[path := info]> (devices m)) (connects rs + 2), Ok info, [Connected info])
    else (m, Err AddressExhausted, []).
Proof.
  intros m. destruct (reports_spec rs UsbMonitor_new 1 eq_refl ltac:(lia)) as [H1 H2]. fold m in H1, H2. pose proof (connects_nonneg rs). split; [done|].
  unfold report_connect, allocate_address. destruct (Z.ltb_spec (connects rs) 126).
  - rewrite (proj2 (Z.leb_gt 127 (next_address m))) by lia. cbn [devices next_address]. replace (next_address m) with (connects rs + 1) by lia. by replace (connects rs + 1 + 1) with (connects rs + 2) by lia.
  - by rewrite (proj2 (Z.leb_le 127 (next_address m))) by lia.
Qed.

(** 126 replugs of one device: nothing is connected and nothing can be. *)
Lemma usb_replugged_out d sp : let rs := concat (replicate 126 [RConnect (mkPath 1 [1]) d sp; RDisconnect (mkPath 1 [1])]) in
  connects rs = 126 /\ forall q, device_at 1 None q rs = None.
Proof.
  split; [reflexivity|]. intros q. cbn. by destruct (bool_decide_reflect (mkPath 1 [1] = q)).
Qed.
