(* ===== verification/Insn.v ===== *)
(** * The MMIO instruction decoder: enlil-boot/src/insn.rs, linux_guest.rs

    A guest's access to a device register faults without saying what the
    instruction was: [fetch_insn] reads its bytes through the guest's own page
    tables and [decode_mem_access] recovers the size, the direction, the
    operands and the length.  The theorems say that the decoder accepts the
    encodings of the instructions it documents, and with the right meaning, and
    no other complete instruction; that the fetch reads the bytes the processor
    reads; and that a load leaves the register as the processor does. *)

From Stdlib Require Import ZArith Lia Bool.
From stdpp Require Import base decidable list numbers.
From S2P Require Import Prelude Rust.

Inductive AccessKind :=
  | AkLoad (reg : Z) (high8 sign_extend : bool) (dest_size : Z)
  | AkStore (reg : Z) (high8 : bool)
  | AkStoreImm (value : Z).

Record MemAccess := mkMemAccess { ma_len : nat; ma_size : Z; ma_kind : AccessKind }.

(** ** Decoding *)

Record Prefixes := mkPrefixes { opsize16 : bool; rex : Z }.

Definition rex_w (p : Prefixes) : bool := tst (rex p) 8.

Definition rex_r (p : Prefixes) : Z := (rex p .& 4) .<< 1.

Definition operand_size (p : Prefixes) : Z := if rex_w p then 8 else if opsize16 p then 2 else 4.

(** The other legacy prefixes: address size, segments, lock and repeat. *)
Definition skipped (b : Z) : bool :=
  existsb (Z.eqb b) [0x67; 0x2E; 0x36; 0x3E; 0x26; 0x64; 0x65; 0xF0; 0xF2; 0xF3].

Fixpoint legacy_prefixes (bytes : list Z) (i : nat) (opsize16 : bool) : nat * bool :=
  match bytes with
  | b :: bytes =>
    if b =? 0x66 then legacy_prefixes bytes (S i) true
    else if skipped b then legacy_prefixes bytes (S i) opsize16
    else (i, opsize16)
  | [] => (i, opsize16)
  end.

Definition parse_prefixes (bytes : list Z) : Prefixes * nat :=
  let '(i, opsize16) := legacy_prefixes bytes 0 false in
  match bytes !! i with
  | Some b => if b .& 0xF0 =? 0x40 then (mkPrefixes opsize16 b, S i) else (mkPrefixes opsize16 0, i)
  | None => (mkPrefixes opsize16 0, i)
  end.

Inductive Shape := ShStore | ShLoad (dest : Z) (sign : bool) | ShImm (imm_len : nat).

Definition parse_opcode (bytes : list Z) (i : nat) (opsize : Z) : option (Z * Shape * nat) :=
  opcode ← bytes !! i;
  if opcode =? 0x88 then Some (1, ShStore, S i)
  else if opcode =? 0x89 then Some (opsize, ShStore, S i)
  else if opcode =? 0x8A then Some (1, ShLoad 1 false, S i)
  else if opcode =? 0x8B then Some (opsize, ShLoad opsize false, S i)
  else if opcode =? 0xC6 then Some (1, ShImm 1, S i)
  else if opcode =? 0xC7 then Some (opsize, ShImm (if opsize =? 2 then 2 else 4), S i)
  else if opcode =? 0x0F then
    op2 ← bytes !! S i;
    if op2 =? 0xB6 then Some (1, ShLoad opsize false, S (S i))
    else if op2 =? 0xB7 then Some (2, ShLoad opsize false, S (S i))
    else if op2 =? 0xBE then Some (1, ShLoad opsize true, S (S i))
    else if op2 =? 0xBF then Some (2, ShLoad opsize true, S (S i))
    else None
  else None.

Definition parse_modrm (bytes : list Z) (i : nat) : option (nat * Z) :=
  modrm ← bytes !! i;
  let i := S i in
  let md := modrm .>> 6 in
  let rm := modrm .& 7 in
  if md =? 3 then None
  else
    '(i, disp) ← (if rm =? 4 then
                    sib ← bytes !! i;
                    Some (S i, if (md =? 0) && (sib .& 7 =? 5) then 4%nat else 0%nat)
                  else if (md =? 0) && (rm =? 5) then Some (i, 4%nat)
                  else Some (i, 0%nat));
    let disp := if md =? 1 then 1%nat else if md =? 2 then 4%nat else disp in
    Some ((i + disp)%nat, (modrm .>> 3) .& 7).

Definition parse_imm (bytes : list Z) (i imm_len : nat) (rex_w : bool) : option (Z * nat) :=
  if (i + imm_len <=? length bytes)%nat then
    let raw := take imm_len (drop i bytes) in
    let value := if rex_w && (imm_len =? 4)%nat
                 then wrap 64 (if le_value raw <? 2 ^ 31 then le_value raw else le_value raw - 2 ^ 32)
                 else le_value raw in
    Some (value, (i + imm_len)%nat)
  else None.

Definition decode_mem_access (bytes : list Z) : option MemAccess :=
  let '(pfx, i) := parse_prefixes bytes in
  let opcode_at := i in
  '(size, shape, i) ← parse_opcode bytes i (operand_size pfx);
  '(i, reg_field) ← parse_modrm bytes i;
  let reg := reg_field .| rex_r pfx in
  let byte_regs_high := (rex pfx =? 0) && (4 <=? reg) && (reg <? 8) in
  let is_plain_byte_load := bool_decide (bytes !! opcode_at = Some 0x8A) in
  match shape with
  | ShStore => Some (mkMemAccess i size (AkStore reg ((size =? 1) && byte_regs_high)))
  | ShLoad dest sign => Some (mkMemAccess i size (AkLoad reg (is_plain_byte_load && byte_regs_high) sign dest))
  | ShImm imm_len =>
    if negb (reg_field =? 0) then None
    else
      '(value, end_) ← parse_imm bytes i imm_len (rex_w pfx);
      Some (mkMemAccess end_ size (AkStoreImm value))
  end.

(** ** Performing the access *)

Definition mask_to (value size : Z) : Z :=
  if size =? 1 then value .& 0xFF
  else if size =? 2 then value .& 0xFFFF
  else if size =? 4 then value .& 0xFFFFFFFF
  else value.

Definition extend (value size dest_size : Z) (sign : bool) : Z :=
  let v := mask_to value size in
  let v := if sign && (size <? 8) && tst v (1 .<< (size * 8 - 1))
           then v .| ((2 ^ 64 - 1) .&~ ((1 .<< (size * 8)) - 1))
           else v in
  mask_to v dest_size.

Definition merge_reg (old value dest_size : Z) (high8 : bool) : Z :=
  if (dest_size =? 1) && high8 then (old .&~ 0xFF00) .| ((value .& 0xFF) .<< 8)
  else if dest_size =? 1 then (old .&~ 0xFF) .| (value .& 0xFF)
  else if dest_size =? 2 then (old .&~ 0xFFFF) .| (value .& 0xFFFF)
  else if dest_size =? 4 then value .& 0xFFFFFFFF
  else value.

(** ** Fetching *)

Definition translate_gva (cr3 gva : Z) (read_u64 : Z -> option Z) : option Z :=
  let ADDR := 0x000FFFFFFFFFF000 in
  let PRESENT := 1 in
  let PS := 1 .<< 7 in
  let idx shift := (gva .>> shift) .& 0x1FF in
  pml4e ← read_u64 ((cr3 .& ADDR) + idx 39 * 8);
  if pml4e .& PRESENT =? 0 then None else
  pdpte ← read_u64 ((pml4e .& ADDR) + idx 30 * 8);
  if pdpte .& PRESENT =? 0 then None else
  if tst pdpte PS then Some ((pdpte .& 0x000FFFFFC0000000) .| (gva .& 0x3FFFFFFF)) else
  pde ← read_u64 ((pdpte .& ADDR) + idx 21 * 8);
  if pde .& PRESENT =? 0 then None else
  if tst pde PS then Some ((pde .& 0x000FFFFFFFE00000) .| (gva .& 0x1FFFFF)) else
  pte ← read_u64 ((pde .& ADDR) + idx 12 * 8);
  if pte .& PRESENT =? 0 then None else
  Some ((pte .& ADDR) .| (gva .& 0xFFF)).

(** A staged flash image, with the guest address it appears at. *)
Record FlashSpan := mkFlashSpan { sf_gpa : Z; sf_bytes : list Z }.

Record GuestMem := mkGuestMem { gm_ram : list Z; gm_flash : list FlashSpan }.

Fixpoint flash_byte (flash : list FlashSpan) (gpa : Z) : option Z :=
  match flash with
  | [] => None
  | f :: flash =>
    match (off ← checked_sub gpa (sf_gpa f); if off <? len (sf_bytes f) then sf_bytes f !! Z.to_nat off else None) with
    | Some b => Some b
    | None => flash_byte flash gpa
    end
  end.

Definition read_u8 (mem : GuestMem) (gpa : Z) : option Z :=
  if gpa <? len (gm_ram mem) then gm_ram mem !! Z.to_nat gpa else flash_byte (gm_flash mem) gpa.

Definition read_u64 (mem : GuestMem) (gpa : Z) : option Z :=
  if (gpa + 8 <=? len (gm_ram mem)) && (gpa mod 8 =? 0) then Some (get_u64 (gm_ram mem) gpa) else None.

(** The loop of [fetch_insn] with [todo] bytes of the buffer to go. *)
Fixpoint fetch_loop (todo : nat) (mem : GuestMem) (paging : bool) (cr3 cs_base rip n : Z) (page_gpa : option Z) : list Z :=
  match todo with
  | O => []
  | S todo =>
    let gva := wrap 64 (rip + n) in
    let page_gpa := if paging && ((n =? 0) || (12 <=? ctz 64 gva)) then translate_gva cr3 (gva .&~ 0xFFF) (read_u64 mem) else page_gpa in
    let byte := if paging then page ← page_gpa; read_u8 mem (page + (gva .& 0xFFF))
                else read_u8 mem (wrap 64 (cs_base + gva) .& 0xFFFFFFFF) in
    match byte with
    | Some b => b :: fetch_loop todo mem paging cr3 cs_base rip (n + 1) page_gpa
    | None => []
    end
  end.

Definition fetch_insn (mem : GuestMem) (paging : bool) (cr3 cs_base rip : Z) : list Z :=
  fetch_loop 15 mem paging cr3 cs_base rip 0 None.

(** ** The instructions *)

(** The forms of the table at the top of insn.rs. *)
Inductive form := Mov_mr8 | Mov_mr | Mov_rm8 | Mov_rm | Mov_mi8 | Mov_mi | Movzx8 | Movzx16 | Movsx8 | Movsx16.

#[export] Instance form_eq_dec : EqDecision form.
Proof. solve_decision. Defined.

Definition opcode_of (f : form) : list Z :=
  match f with
  | Mov_mr8 => [0x88] | Mov_mr => [0x89] | Mov_rm8 => [0x8A] | Mov_rm => [0x8B] | Mov_mi8 => [0xC6] | Mov_mi => [0xC7]
  | Movzx8 => [0x0F; 0xB6] | Movzx16 => [0x0F; 0xB7] | Movsx8 => [0x0F; 0xBE] | Movsx16 => [0x0F; 0xBF]
  end.

Record insn := mkInsn {
  i_legacy : list Z; i_rex : option Z; i_form : form;
  i_mod : Z; i_reg : Z; i_rm : Z; i_sib : option Z; i_disp : list Z; i_imm : list Z;
}.

Definition encode (i : insn) : list Z :=
  i_legacy i ++ option_list (i_rex i) ++ opcode_of (i_form i) ++
  (i_mod i * 64 + i_reg i * 8 + i_rm i) :: option_list (i_sib i) ++ i_disp i ++ i_imm i.

(** The displacement: an octet, four, or none but for the two forms without a
    base register. *)
Definition disp_size (md rm : Z) (sib : option Z) : nat :=
  if md =? 1 then 1 else if md =? 2 then 4
  else if (rm =? 5) || match sib with Some s => s mod 8 =? 5 | None => false end then 4 else 0.

Definition rex_bit (i : insn) (k : Z) : bool := match i_rex i with Some r => Z.testbit r k | None => false end.

Definition osize (i : insn) : Z := if rex_bit i 3 then 8 else if bool_decide (0x66 ∈ i_legacy i) then 2 else 4.

Definition imm_size (i : insn) : nat :=
  match i_form i with Mov_mi8 => 1 | Mov_mi => if osize i =? 2 then 2 else 4 | _ => 0 end.

(** What the octets before the displacement must be, and the whole. *)
Record front_wf (i : insn) : Prop := {
  fw_legacy : Forall (fun b => b = 0x66 \/ skipped b = true) (i_legacy i);
  fw_rex : match i_rex i with Some r => 0x40 <= r < 0x50 | None => True end;
  fw_mod : 0 <= i_mod i < 3;
  fw_reg : 0 <= i_reg i < 8;
  fw_rm : 0 <= i_rm i < 8;
  fw_sib : is_Some (i_sib i) <-> i_rm i = 4;
}.

Record insn_wf (i : insn) : Prop := {
  iw_front : front_wf i;
  iw_disp : length (i_disp i) = disp_size (i_mod i) (i_rm i) (i_sib i);
  iw_imm : length (i_imm i) = imm_size i;
  iw_group : match i_form i with Mov_mi8 | Mov_mi => i_reg i = 0 | _ => True end;
}.

(** The register the instruction names: with no REX, 4 to 7 of a byte operand
    are the high halves of the first four. *)
Definition reg_no (i : insn) : Z := i_reg i + if rex_bit i 2 then 8 else 0.

Definition high_half (i : insn) : bool := bool_decide (i_rex i = None) && (4 <=? i_reg i).

(** An [n]-bit value as a signed number. *)
Definition signed (n v : Z) : Z := if v <? 2 ^ (n - 1) then v else v - 2 ^ n.

Definition meaning (i : insn) : MemAccess :=
  let load size high sign dest := mkMemAccess (length (encode i)) size (AkLoad (reg_no i) high sign dest) in
  match i_form i with
  | Mov_mr8 => mkMemAccess (length (encode i)) 1 (AkStore (reg_no i) (high_half i))
  | Mov_mr => mkMemAccess (length (encode i)) (osize i) (AkStore (reg_no i) false)
  | Mov_rm8 => load 1 (high_half i) false 1
  | Mov_rm => load (osize i) false false (osize i)
  | Mov_mi8 => mkMemAccess (length (encode i)) 1 (AkStoreImm (le_value (i_imm i)))
  | Mov_mi => mkMemAccess (length (encode i)) (osize i)
                (AkStoreImm (if rex_bit i 3 then wrap 64 (signed 32 (le_value (i_imm i))) else le_value (i_imm i)))
  | Movzx8 => load 1 false false (osize i)
  | Movzx16 => load 2 false false (osize i)
  | Movsx8 => load 1 false true (osize i)
  | Movsx16 => load 2 false true (osize i)
  end.

(** ** The stages of the decoder *)

Lemma byte_forall (P : Z -> bool) b : forallb P (seqZ 0 256) = true -> fits 8 b -> P b = true.
Proof. intros H Hb. rewrite forallb_forall in H. apply H, list_elem_of_In, elem_of_seqZ. destruct Hb. lia. Qed.

Lemma rex_byte b : fits 8 b -> (b .& 0xF0 =? 0x40) = (0x40 <=? b) && (b <? 0x50).
Proof. intros Hb. apply eqb_prop. by apply (byte_forall (fun b => eqb (b .& 0xF0 =? 0x40) ((0x40 <=? b) && (b <? 0x50)))). Qed.

Lemma lookup_behind {A} (pre suf : list A) k : (pre ++ suf) !! (length pre + k)%nat = suf !! k.
Proof. rewrite lookup_app_r by lia. f_equal. lia. Qed.

Lemma lookup_at {A} (pre suf : list A) : (pre ++ suf) !! length pre = head suf.
Proof. rewrite <- (Nat.add_0_r (length pre)), lookup_behind. by destruct suf. Qed.

Definition not_legacy (b : Z) : Prop := b <> 0x66 /\ skipped b = false.

Lemma legacy_app l rest i o : Forall (fun b => b = 0x66 \/ skipped b = true) l -> (forall b, head rest = Some b -> not_legacy b) ->
  legacy_prefixes (l ++ rest) i o = ((i + length l)%nat, o || bool_decide (0x66 ∈ l)).
Proof.
  intros Hl Hr. revert i o. induction Hl as [|b l Hb _ IH]; intros i o.
  - rewrite Nat.add_0_r, bool_decide_false, orb_false_r by apply not_elem_of_nil. destruct rest as [|b rest]; cbn [app legacy_prefixes]; [done|].
    destruct (Hr b eq_refl) as [H66 Hs]. by rewrite (proj2 (Z.eqb_neq _ _) H66), Hs.
  - cbn [app legacy_prefixes length]. replace (i + S (length l))%nat with (S i + length l)%nat by lia. destruct (Z.eqb_spec b 0x66) as [->|H66].
    + rewrite IH. f_equal. rewrite orb_true_l. rewrite (bool_decide_true (0x66 ∈ 0x66 :: l)) by left. by rewrite orb_true_r.
    + destruct Hb as [|Hb]; [done|]. rewrite Hb, IH. f_equal. f_equal. apply bool_decide_ext. rewrite elem_of_cons. naive_solver.
Qed.

Lemma legacy_split bytes : exists l rest, bytes = l ++ rest /\ Forall (fun b => b = 0x66 \/ skipped b = true) l /\ (forall b, head rest = Some b -> not_legacy b).
Proof.
  induction bytes as [|b bytes (l & rest & -> & Hl & Hr)]; [by exists [], []|].
  destruct (Z.eqb_spec b 0x66) as [->|H66]; [|destruct (skipped b) eqn:Hs].
  - exists (0x66 :: l), rest. split_and!; [done| |done]. constructor; auto.
  - exists (b :: l), rest. split_and!; [done| |done]. constructor; auto.
  - exists [], (b :: l ++ rest). split_and!; [done|constructor|]. by intros ? [= <-].
Qed.

Lemma rex_not_legacy r : 0x40 <= r < 0x50 -> not_legacy r.
Proof. intros Hr. unfold not_legacy, skipped. cbn [existsb]. rewrite !(proj2 (Z.eqb_neq _ _)) by lia. split; [lia|done]. Qed.

Lemma prefixes_app l r rest : Forall (fun b => b = 0x66 \/ skipped b = true) l -> match r with Some r => 0x40 <= r < 0x50 | None => True end ->
  (forall b, head rest = Some b -> not_legacy b /\ (b .& 0xF0 =? 0x40) = false) ->
  parse_prefixes (l ++ option_list r ++ rest) = (mkPrefixes (bool_decide (0x66 ∈ l)) (default 0 r), (length l + length (option_list r))%nat).
Proof.
  intros Hl Hr Hb. unfold parse_prefixes. rewrite legacy_app, Nat.add_0_l, lookup_at; [|done|].
  - destruct r as [r|].
    + change (head (option_list (Some r) ++ rest)) with (Some r). cbv beta iota. rewrite rex_byte by (split; lia). rewrite (proj2 (Z.leb_le _ _)), (proj2 (Z.ltb_lt _ _)) by lia. cbn. by rewrite Nat.add_1_r.
    + change (option_list None ++ rest) with rest. cbn [option_list length default from_option id]. rewrite Nat.add_0_r. destruct (head rest) as [b|]; [|done]. by destruct (Hb b eq_refl) as [_ ->].
  - intros b. destruct r as [r|]; [intros [= <-]; by apply rex_not_legacy|]. intros E. by apply Hb.
Qed.

Lemma prefixes_split bytes : Forall (fits 8) bytes -> exists l r rest, bytes = l ++ option_list r ++ rest /\
  Forall (fun b => b = 0x66 \/ skipped b = true) l /\ match r with Some r => 0x40 <= r < 0x50 | None => True end /\
  parse_prefixes bytes = (mkPrefixes (bool_decide (0x66 ∈ l)) (default 0 r), (length l + length (option_list r))%nat).
Proof.
  intros Hf. destruct (legacy_split bytes) as (l & rest & -> & Hl & Hr). apply Forall_app in Hf as [_ Hf]. destruct rest as [|b rest].
  - exists l, None, []. split_and!; [done..|]. apply (prefixes_app l None []); [done..|]. by intros ? [=].
  - apply Forall_cons_1 in Hf as [Hb _]. destruct (b .& 0xF0 =? 0x40) eqn:E.
    + pose proof E as E'. rewrite rex_byte in E' by done. apply andb_true_iff in E' as [?%Z.leb_le ?%Z.ltb_lt]. exists l, (Some b), rest.
      split_and!; [done..|]. unfold parse_prefixes. rewrite legacy_app, Nat.add_0_l, lookup_at by done. cbn. by rewrite E, Nat.add_1_r.
    + exists l, None, (b :: rest). split_and!; [done..|]. apply (prefixes_app l None); [done..|]. intros ? [= <-]. split; [by apply Hr|done].
Qed.

Definition shape_of (f : form) (osz : Z) : Z * Shape :=
  match f with
  | Mov_mr8 => (1, ShStore) | Mov_mr => (osz, ShStore) | Mov_rm8 => (1, ShLoad 1 false) | Mov_rm => (osz, ShLoad osz false)
  | Mov_mi8 => (1, ShImm 1) | Mov_mi => (osz, ShImm (if osz =? 2 then 2 else 4))
  | Movzx8 => (1, ShLoad osz false) | Movzx16 => (2, ShLoad osz false) | Movsx8 => (1, ShLoad osz true) | Movsx16 => (2, ShLoad osz true)
  end.

Lemma lookup_next {A} (pre suf : list A) : (pre ++ suf) !! S (length pre) = head (tail suf).
Proof. rewrite <- Nat.add_1_r, lookup_behind. by destruct suf as [|? []]. Qed.

Lemma opcode_app pre f suf osz :
  parse_opcode (pre ++ opcode_of f ++ suf) (length pre) osz = Some (shape_of f osz, (length pre + length (opcode_of f))%nat).
Proof. unfold parse_opcode. rewrite lookup_at, lookup_next. destruct f; cbn; by rewrite ?Nat.add_1_r, ?Nat.add_succ_r, ?Nat.add_0_r. Qed.

Lemma opcode_split pre suf osz x : parse_opcode (pre ++ suf) (length pre) osz = Some x ->
  exists f suf', suf = opcode_of f ++ suf' /\ x = (shape_of f osz, (length pre + length (opcode_of f))%nat).
Proof.
  intros E. enough (exists f suf', suf = opcode_of f ++ suf') as (f & suf' & ->).
  { exists f, suf'. split; [done|]. rewrite opcode_app in E. by injection E. }
  unfold parse_opcode in E. rewrite lookup_at, lookup_next in E. destruct suf as [|b suf]; cbn [head tail mbind option_bind] in E; [done|].
  destruct (Z.eqb_spec b 0x88) as [->|]; [by exists Mov_mr8, suf|]. destruct (Z.eqb_spec b 0x89) as [->|]; [by exists Mov_mr, suf|].
  destruct (Z.eqb_spec b 0x8A) as [->|]; [by exists Mov_rm8, suf|]. destruct (Z.eqb_spec b 0x8B) as [->|]; [by exists Mov_rm, suf|].
  destruct (Z.eqb_spec b 0xC6) as [->|]; [by exists Mov_mi8, suf|]. destruct (Z.eqb_spec b 0xC7) as [->|]; [by exists Mov_mi, suf|].
  destruct (Z.eqb_spec b 0x0F) as [->|]; [|done]. destruct suf as [|b suf]; cbn [head mbind option_bind] in E; [done|].
  destruct (Z.eqb_spec b 0xB6) as [->|]; [by exists Movzx8, suf|]. destruct (Z.eqb_spec b 0xB7) as [->|]; [by exists Movzx16, suf|].
  destruct (Z.eqb_spec b 0xBE) as [->|]; [by exists Movsx8, suf|]. destruct (Z.eqb_spec b 0xBF) as [->|]; [by exists Movsx16, suf|done].
Qed.

(** The fields of a ModRM octet. *)
Lemma modrm_fields md reg rm : 0 <= md < 4 -> 0 <= reg < 8 -> 0 <= rm < 8 ->
  let b := md * 64 + reg * 8 + rm in b .>> 6 = md /\ (b .>> 3) .& 7 = reg /\ b .& 7 = rm.
Proof.
  intros Hm Hr Hrm b. subst b. rewrite !Z.shiftr_div_pow2 by lia. change 7 with (Z.ones 3). rewrite !Z.land_ones by lia. change (2 ^ 6) with 64. change (2 ^ 3) with 8.
  split_and!.
  - symmetry. apply (Z.div_unique _ _ _ (reg * 8 + rm)); lia.
  - replace ((md * 64 + reg * 8 + rm) / 8) with (md * 8 + reg); [|apply (Z.div_unique _ _ _ rm); lia].
    symmetry. apply (Z.mod_unique _ _ md); lia.
  - symmetry. apply (Z.mod_unique _ _ (md * 8 + reg)); lia.
Qed.

Lemma modrm_split b : fits 8 b -> exists md reg rm, b = md * 64 + reg * 8 + rm /\ 0 <= md < 4 /\ 0 <= reg < 8 /\ 0 <= rm < 8.
Proof.
  intros [H0 H1]. exists (b / 64), (b / 8 mod 8), (b mod 8). change (2 ^ 8) with 256 in H1.
  pose proof (Z.div_mod b 8 ltac:(lia)). pose proof (Z.div_mod (b / 8) 8 ltac:(lia)). rewrite (Z.div_div b 8 8) in * by lia. change (8 * 8) with 64 in *.
  pose proof (Z.mod_pos_bound b 8 ltac:(lia)). pose proof (Z.mod_pos_bound (b / 8) 8 ltac:(lia)).
  pose proof (Z.div_lt_upper_bound b 64 4 ltac:(lia) ltac:(lia)). pose proof (Z.div_pos b 64 ltac:(lia) ltac:(lia)). split_and!; lia.
Qed.

Lemma low3 s : s .& 7 = s mod 8.
Proof. by apply (Z.land_ones s 3). Qed.

Lemma modrm_app pre md reg rm sib suf : 0 <= md < 3 -> 0 <= reg < 8 -> 0 <= rm < 8 -> (is_Some sib <-> rm = 4) ->
  parse_modrm (pre ++ (md * 64 + reg * 8 + rm) :: option_list sib ++ suf) (length pre) =
  Some ((length pre + 1 + length (option_list sib) + disp_size md rm sib)%nat, reg).
Proof.
  intros Hm Hr Hrm Hs. unfold parse_modrm. rewrite lookup_at, lookup_next. cbn [head tail mbind option_bind].
  destruct (modrm_fields md reg rm) as (-> & -> & ->); [lia..|]. rewrite (proj2 (Z.eqb_neq md 3)) by lia. destruct sib as [s|].
  - rewrite (proj1 Hs) by done. cbn. rewrite low3. unfold disp_size. f_equal. f_equal.
    destruct (Z.eqb_spec md 1), (Z.eqb_spec md 2), (Z.eqb_spec md 0), (s mod 8 =? 5); cbn; lia.
  - assert (rm <> 4) by (intros E; destruct (proj2 Hs E); done). rewrite (proj2 (Z.eqb_neq rm 4)) by done. unfold disp_size.
    destruct (Z.eqb_spec md 1), (Z.eqb_spec md 2), (Z.eqb_spec md 0), (rm =? 5); cbn; try (f_equal; f_equal; lia); lia.
Qed.

Lemma modrm_inv pre suf i reg : Forall (fits 8) suf -> parse_modrm (pre ++ suf) (length pre) = Some (i, reg) ->
  exists md rm sib suf', suf = (md * 64 + reg * 8 + rm) :: option_list sib ++ suf' /\ 0 <= md < 3 /\ 0 <= reg < 8 /\ 0 <= rm < 8 /\ (is_Some sib <-> rm = 4) /\
    i = (length pre + 1 + length (option_list sib) + disp_size md rm sib)%nat.
Proof.
  intros Hf E. destruct suf as [|b suf]. { unfold parse_modrm in E. by rewrite lookup_at in E. }
  apply Forall_cons_1 in Hf as [Hb _]. destruct (modrm_split b Hb) as (md & reg' & rm & -> & Hm & Hr & Hrm).
  assert (Hm3 : md <> 3).
  { intros ->. unfold parse_modrm in E. rewrite lookup_at in E. cbn [head mbind option_bind] in E. by destruct (modrm_fields 3 reg' rm) as (Ef & _); [lia..|rewrite Ef in E]. }
  assert (exists sib suf', suf = option_list sib ++ suf' /\ (is_Some sib <-> rm = 4)) as (sib & suf' & -> & Hs).
  { destruct (Z.eq_dec rm 4) as [->|]; [|exists None, suf; split; [done|]; split; [intros [? [=]]|done]]. destruct suf as [|s suf]; [|by exists (Some s), suf; split; [|split]].
    unfold parse_modrm in E. rewrite lookup_at, lookup_next in E. cbn [head tail mbind option_bind] in E.
    destruct (modrm_fields md reg' 4) as (Ef & _ & El); [lia..|]. rewrite Ef, El, (proj2 (Z.eqb_neq md 3)) in E by done. done. }
  rewrite modrm_app in E by (lia || done). injection E as <- <-. exists md, rm, sib, suf'. split_and!; lia || done.
Qed.

(** ** The decoder *)

Lemma land4 r : r .& 4 = if Z.testbit r 2 then 4 else 0.
Proof.
  apply Z.bits_inj'. intros k Hk. rewrite Z.land_spec. change 4 with (bit 2). rewrite testbit_bit by lia.
  destruct (Z.eqb_spec 2 k) as [<-|]; destruct (Z.testbit r 2) eqn:E; rewrite ?andb_true_r, ?andb_false_r, ?E; try done.
  - by rewrite testbit_bit, (proj2 (Z.eqb_neq 2 k)) by lia.
  - by rewrite Z.testbit_0_l.
Qed.

Lemma reg_number i : front_wf i -> i_reg i .| rex_r (mkPrefixes (bool_decide (0x66 ∈ i_legacy i)) (default 0 (i_rex i))) = reg_no i.
Proof.
  intros W. pose proof (fw_reg i W). unfold rex_r, reg_no, rex_bit. cbn [rex]. rewrite land4.
  assert (Hl : i_reg i .| 8 = i_reg i + 8).
  { apply Z.eqb_eq. pose proof (byte_forall (fun b => (8 <=? b) || (b .| 8 =? b + 8)) (i_reg i) eq_refl ltac:(split; lia)) as Hb.
    cbv beta in Hb. by rewrite (proj2 (Z.leb_gt _ _)) in Hb by lia. }
  destruct (i_rex i) as [r|]; cbn [default from_option id]; [destruct (Z.testbit r 2)|]; [exact Hl| |]; change (0 .<< 1) with 0; rewrite ?Z.testbit_0_l; change (0 .<< 1) with 0; rewrite Z.lor_0_r; lia.
Qed.

Lemma rex_w_bit i : rex_w (mkPrefixes (bool_decide (0x66 ∈ i_legacy i)) (default 0 (i_rex i))) = rex_bit i 3.
Proof. unfold rex_w, rex_bit. cbn [rex]. rewrite (tst_pow _ _ 3) by done. destruct (i_rex i); [done|]. apply Z.testbit_0_l. Qed.

Lemma high_regs i : front_wf i -> (default 0 (i_rex i) =? 0) && (4 <=? reg_no i) && (reg_no i <? 8) = high_half i.
Proof.
  intros W. pose proof (fw_reg i W). pose proof (fw_rex i W) as Hr. unfold high_half, reg_no, rex_bit. destruct (i_rex i) as [r|]; cbn [default from_option id].
  - by rewrite (proj2 (Z.eqb_neq r 0)), bool_decide_false by (done || lia).
  - rewrite bool_decide_true, Z.add_0_r, (proj2 (Z.ltb_lt _ 8)) by (done || lia). by rewrite andb_true_r.
Qed.

(** The octets before the displacement, and what the decoder makes of them. *)
Definition front (i : insn) : list Z :=
  i_legacy i ++ option_list (i_rex i) ++ opcode_of (i_form i) ++ (i_mod i * 64 + i_reg i * 8 + i_rm i) :: option_list (i_sib i).

Lemma encode_front i : encode i = front i ++ i_disp i ++ i_imm i.
Proof. unfold encode, front. rewrite <- !app_assoc. cbn [app]. by rewrite <- ?app_assoc. Qed.

Lemma form_not_prefix f suf b : head (opcode_of f ++ suf) = Some b -> not_legacy b /\ (b .& 0xF0 =? 0x40) = false.
Proof. destruct f; intros [= <-]; (split; [split|]; done). Qed.

Lemma plain_byte_load l r f suf : bool_decide ((l ++ option_list r ++ opcode_of f ++ suf) !! (length l + length (option_list r))%nat = Some 0x8A) = bool_decide (f = Mov_rm8).
Proof.
  rewrite app_assoc, <- length_app, lookup_at. destruct f; cbn; first [by rewrite !bool_decide_true by done|by rewrite !bool_decide_false by done].
Qed.

Definition decoded (i : insn) (bytes : list Z) : option MemAccess :=
  let n := (length (front i) + disp_size (i_mod i) (i_rm i) (i_sib i))%nat in
  match snd (shape_of (i_form i) (osize i)) with
  | ShStore => Some (mkMemAccess n (fst (shape_of (i_form i) (osize i))) (AkStore (reg_no i) ((fst (shape_of (i_form i) (osize i)) =? 1) && high_half i)))
  | ShLoad dest sign => Some (mkMemAccess n (fst (shape_of (i_form i) (osize i))) (AkLoad (reg_no i) (bool_decide (i_form i = Mov_rm8) && high_half i) sign dest))
  | ShImm k =>
    if negb (i_reg i =? 0) then None
    else '(value, end_) ← parse_imm bytes n k (rex_bit i 3); Some (mkMemAccess end_ (fst (shape_of (i_form i) (osize i))) (AkStoreImm value))
  end.

Section Front.
Context (i : insn) (suf : list Z) (W : front_wf i).

Abbreviation bytes := (front i ++ suf).
Abbreviation pfx := (mkPrefixes (bool_decide (0x66 ∈ i_legacy i)) (default 0 (i_rex i))).
Abbreviation opcode_at := (length (i_legacy i) + length (option_list (i_rex i)))%nat.

Lemma front_bytes : bytes = i_legacy i ++ option_list (i_rex i) ++ opcode_of (i_form i) ++ (i_mod i * 64 + i_reg i * 8 + i_rm i) :: option_list (i_sib i) ++ suf.
Proof. unfold front. rewrite <- !app_assoc. cbn [app]. by rewrite <- ?app_assoc. Qed.

Lemma front_prefixes : parse_prefixes bytes = (pfx, opcode_at).
Proof. rewrite front_bytes. apply prefixes_app; [apply W..|]. apply form_not_prefix. Qed.

Lemma front_osize : operand_size pfx = osize i.
Proof. unfold operand_size. by rewrite rex_w_bit. Qed.

Lemma front_opcode : parse_opcode bytes opcode_at (osize i) = Some (shape_of (i_form i) (osize i), (opcode_at + length (opcode_of (i_form i)))%nat).
Proof. rewrite front_bytes, app_assoc, <- length_app. apply opcode_app. Qed.

Lemma front_modrm : parse_modrm bytes (opcode_at + length (opcode_of (i_form i))) = Some ((length (front i) + disp_size (i_mod i) (i_rm i) (i_sib i))%nat, i_reg i).
Proof.
  rewrite front_bytes, app_assoc, (app_assoc (_ ++ _)), <- !length_app, modrm_app by apply W. unfold front. rewrite !length_app. cbn [length]. f_equal. f_equal. lia.
Qed.

Lemma decode_front : decode_mem_access bytes = decoded i bytes.
Proof.
  unfold decode_mem_access, decoded. rewrite front_prefixes, front_osize, front_opcode. destruct (shape_of (i_form i) (osize i)) as [size shape].
  cbn [mbind option_bind fst snd]. rewrite front_modrm. cbn [mbind option_bind]. rewrite (reg_number i W). cbn [rex]. rewrite (high_regs i W), rex_w_bit, front_bytes, plain_byte_load.
  by destruct shape.
Qed.
End Front.

Lemma parse_imm_app pre imm rest w :
  parse_imm (pre ++ imm ++ rest) (length pre) (length imm) w =
  Some (if w && (length imm =? 4)%nat then wrap 64 (signed 32 (le_value imm)) else le_value imm, (length pre + length imm)%nat).
Proof.
  unfold parse_imm. rewrite (proj2 (Nat.leb_le _ _)) by (rewrite !length_app; lia). by rewrite drop_app_length, take_app_length.
Qed.

Lemma imm_shape i k : snd (shape_of (i_form i) (osize i)) = ShImm k -> k = imm_size i.
Proof. unfold imm_size. by destruct (i_form i); intros [= <-]. Qed.

Lemma decode_encode i rest : insn_wf i -> decode_mem_access (encode i ++ rest) = Some (meaning i).
Proof.
  intros W. pose proof (iw_disp i W) as Hd. pose proof (iw_imm i W) as Hi. pose proof (iw_group i W) as Hg.
  rewrite encode_front, <- !app_assoc, (decode_front i _ (iw_front i W)). unfold decoded, meaning. rewrite encode_front, <- Hd, <- length_app.
  assert (El : length (front i ++ i_disp i ++ i_imm i) = (length (front i ++ i_disp i) + imm_size i)%nat) by (rewrite !length_app; lia).
  rewrite app_assoc, El. unfold imm_size in *. destruct (i_form i) eqn:Ef; cbn [shape_of fst snd]; rewrite ?Nat.add_0_r; cbn [Z.eqb Pos.eqb andb];
    try (rewrite bool_decide_false by done); try (rewrite bool_decide_true by done); try done.
  - by destruct (osize i =? 1) eqn:E1; [|done]; exfalso; revert E1; unfold osize; repeat case_match.
  - rewrite Hg. cbn [negb Z.eqb]. rewrite <- Hi, parse_imm_app, Hi. cbn [mbind option_bind]. by rewrite andb_false_r.
  - rewrite Hg. cbn [negb Z.eqb]. rewrite <- Hi, parse_imm_app, Hi. cbn [mbind option_bind]. unfold osize. by destruct (rex_bit i 3).
Qed.

Lemma decoded_room i bytes a : decoded i bytes = Some a -> (ma_len a <= length bytes)%nat ->
  (length (front i) + disp_size (i_mod i) (i_rm i) (i_sib i) + imm_size i <= length bytes)%nat /\ match i_form i with Mov_mi8 | Mov_mi => i_reg i = 0 | _ => True end.
Proof.
  unfold decoded, imm_size. intros E Hl. destruct (i_form i); cbn [shape_of fst snd] in E; try (injection E as <-; cbn [ma_len] in Hl; split; [lia|done]).
  all: destruct (Z.eqb_spec (i_reg i) 0); cbn [negb] in E; [|done]; unfold parse_imm in E; case_match eqn:Hn; cbn [mbind option_bind] in E; [|done];
    apply Nat.leb_le in Hn; split; [lia|done].
Qed.

Lemma decode_split bytes a : Forall (fits 8) bytes -> decode_mem_access bytes = Some a -> exists i suf, front_wf i /\ i_disp i = [] /\ i_imm i = [] /\ bytes = front i ++ suf.
Proof.
  intros Hf E. unfold decode_mem_access in E. destruct (prefixes_split bytes Hf) as (l & r & rest & -> & Hl & Hr & Ep). rewrite Ep in E.
  rewrite app_assoc, <- length_app in E. destruct (parse_opcode _ _ _) as [[[size shape] n]|] eqn:Eo; [|done]. cbn [mbind option_bind] in E.
  apply opcode_split in Eo as (f & suf & -> & [= _ ->]). rewrite app_assoc, <- length_app in E.
  destruct (parse_modrm _ _) as [[n reg]|] eqn:Em; [|done]. apply modrm_inv in Em as (md & rm & sib & suf' & -> & Hm & Hg & Hrm & Hs & _).
  2: { apply Forall_app in Hf as [_ Hf]. apply Forall_app in Hf as [_ Hf]. by apply Forall_app in Hf as [_ Hf]. }
  exists (mkInsn l r f md reg rm sib [] []), suf'. split_and!; [by split|done|done|]. unfold front. cbn. rewrite <- !app_assoc. cbn [app]. by rewrite <- ?app_assoc.
Qed.

(** C15: The decoder answers with an access that lies within the bytes it was
    given exactly when they start with the encoding of one of the documented
    data movements on memory, and then with that instruction's size, operands
    and length. *)
Theorem insn_decodes_exactly bytes a : Forall (fits 8) bytes ->
  decode_mem_access bytes = Some a /\ (ma_len a <= length bytes)%nat <-> exists i rest, insn_wf i /\ bytes = encode i ++ rest /\ a = meaning i.
Proof.
  intros Hf. split.
  - intros [E Hl]. destruct (decode_split bytes a Hf E) as (i & suf & W & Hd0 & Hi0 & ->). rewrite (decode_front i suf W) in E.
    destruct (decoded_room _ _ _ E Hl) as [Hroom Hg]. rewrite length_app in Hroom.
    pose (d := disp_size (i_mod i) (i_rm i) (i_sib i)). pose (k := imm_size i).
    pose (j := mkInsn (i_legacy i) (i_rex i) (i_form i) (i_mod i) (i_reg i) (i_rm i) (i_sib i) (take d suf) (take k (drop d suf))).
    assert (Wj : insn_wf j).
    { split; [by destruct W| | |done]; cbn [j i_disp i_imm i_mod i_rm i_sib]; rewrite length_take_le; [done|lia|done|rewrite length_drop; unfold k, d; lia]. }
    assert (Ej : front i ++ suf = encode j ++ drop k (drop d suf)).
    { rewrite encode_front. change (front j) with (front i). cbn [j i_disp i_imm]. rewrite <- !app_assoc, !take_drop. done. }
    exists j, (drop k (drop d suf)). split_and!; [done|done|]. rewrite <- (decode_front i suf W), Ej, decode_encode in E by done. by injection E.
  - intros (i & rest & W & -> & ->). split; [by apply decode_encode|]. rewrite length_app. unfold meaning. destruct (i_form i); cbn [ma_len]; lia.
Qed.

Lemma insn_decodes_exactly_witness :
  decode_mem_access [0x66; 0x41; 0xC7; 0x44; 0x24; 0x08; 0x34; 0x12; 0x90] = Some (mkMemAccess 8 2 (AkStoreImm 0x1234)) /\
  exists i rest, insn_wf i /\ [0x66; 0x41; 0xC7; 0x44; 0x24; 0x08; 0x34; 0x12; 0x90] = encode i ++ rest /\ mkMemAccess 8 2 (AkStoreImm 0x1234) = meaning i.
Proof.
  split; [by vm_compute|]. apply (proj1 (insn_decodes_exactly [0x66; 0x41; 0xC7; 0x44; 0x24; 0x08; 0x34; 0x12; 0x90] (mkMemAccess 8 2 (AkStoreImm 0x1234))
    ltac:(repeat constructor; done))). split; [by vm_compute|]. cbn. lia.
Defined.

(** An instruction cut inside its displacement is accepted all the same. *)
Lemma insn_truncated : decode_mem_access [0x8B; 0x80] = Some (mkMemAccess 6 4 (AkLoad 0 false false 4)).
Proof. reflexivity. Qed.

(** ** Fetching *)

(** What a guest has at a guest-physical address: RAM, and above it the first
    flash image that covers the address. *)
Definition covers (f : FlashSpan) (gpa : Z) : Prop := sf_gpa f <= gpa < sf_gpa f + len (sf_bytes f).
Definition mem_byte (mem : GuestMem) (gpa b : Z) : Prop :=
  (gpa < len (gm_ram mem) /\ gm_ram mem !! Z.to_nat gpa = Some b) \/
  (len (gm_ram mem) <= gpa /\ exists i f, gm_flash mem !! i = Some f /\ covers f gpa /\ sf_bytes f !! Z.to_nat (gpa - sf_gpa f) = Some b /\
     forall j f', (j < i)%nat -> gm_flash mem !! j = Some f' -> ~ covers f' gpa).

(** The eight octets of RAM from [a] on, as a little-endian word. *)
Definition mem_word (mem : GuestMem) (a w : Z) : Prop :=
  a mod 8 = 0 /\ exists bs, length bs = 8%nat /\ (forall k, (k < 8)%nat -> gm_ram mem !! (Z.to_nat a + k)%nat = bs !! k) /\ w = le_value bs.

(** The walk of 4-level long-mode tables in RAM (AMD64 volume 2, 5.3): an entry is
    present with bit 0, bit 7 of the two middle levels makes it a large page, and
    the address is in bits 51:12, 51:21 or 51:30. *)
Definition next_table (e : Z) : Z := (e / 2 ^ 12) mod 2 ^ 40 * 2 ^ 12.
Definition entry (mem : GuestMem) (table gva shift e : Z) : Prop := mem_word mem (table + 8 * ((gva / 2 ^ shift) mod 512)) e /\ Z.testbit e 0 = true.
Inductive walks (mem : GuestMem) (cr3 gva : Z) : Z -> Prop :=
  | walk_1g e4 e3 : entry mem (next_table cr3) gva 39 e4 -> entry mem (next_table e4) gva 30 e3 -> Z.testbit e3 7 = true ->
      walks mem cr3 gva ((e3 / 2 ^ 30) mod 2 ^ 22 * 2 ^ 30 + gva mod 2 ^ 30)
  | walk_2m e4 e3 e2 : entry mem (next_table cr3) gva 39 e4 -> entry mem (next_table e4) gva 30 e3 -> Z.testbit e3 7 = false ->
      entry mem (next_table e3) gva 21 e2 -> Z.testbit e2 7 = true ->
      walks mem cr3 gva ((e2 / 2 ^ 21) mod 2 ^ 31 * 2 ^ 21 + gva mod 2 ^ 21)
  | walk_4k e4 e3 e2 e1 : entry mem (next_table cr3) gva 39 e4 -> entry mem (next_table e4) gva 30 e3 -> Z.testbit e3 7 = false ->
      entry mem (next_table e3) gva 21 e2 -> Z.testbit e2 7 = false -> entry mem (next_table e2) gva 12 e1 ->
      walks mem cr3 gva (next_table e1 + gva mod 2 ^ 12).

(** The octet a processor fetches at the instruction pointer [ip]: through the
    tables, or at the 32-bit linear address with paging off. *)
Definition octet (mem : GuestMem) (paging : bool) (cr3 cs_base ip b : Z) : Prop :=
  if paging then exists gpa, walks mem cr3 (ip mod 2 ^ 64) gpa /\ mem_byte mem gpa b else mem_byte mem ((cs_base + ip) mod 2 ^ 32) b.

(** The reads of the monitor are those. *)
Lemma flash_byte_spec flash gpa b : flash_byte flash gpa = Some b <->
  exists i f, flash !! i = Some f /\ covers f gpa /\ sf_bytes f !! Z.to_nat (gpa - sf_gpa f) = Some b /\ forall j f', (j < i)%nat -> flash !! j = Some f' -> ~ covers f' gpa.
Proof.
  induction flash as [|f flash IH]; [split; [done|]; intros (i & f & Hf & _); by destruct i|]. cbn [flash_byte]. unfold checked_sub.
  assert (Hd : (covers f gpa /\ exists b', (off ← (if gpa <? sf_gpa f then None else Some (gpa - sf_gpa f)); if off <? len (sf_bytes f) then sf_bytes f !! Z.to_nat off else None) = Some b' /\ sf_bytes f !! Z.to_nat (gpa - sf_gpa f) = Some b') \/
     (~ covers f gpa /\ (off ← (if gpa <? sf_gpa f then None else Some (gpa - sf_gpa f)); if off <? len (sf_bytes f) then sf_bytes f !! Z.to_nat off else None) = None)).
  { unfold covers. destruct (Z.ltb_spec gpa (sf_gpa f)); cbn [mbind option_bind]; [right; split; [lia|done]|]. destruct (Z.ltb_spec (gpa - sf_gpa f) (len (sf_bytes f))); [left; split; [lia|]|right; split; [lia|done]].
    destruct (lookup_lt_is_Some_2 (sf_bytes f) (Z.to_nat (gpa - sf_gpa f))) as [b' Hb]; [unfold len in *; lia|]. by exists b'. }
  destruct Hd as [(Hc & b' & -> & Hb)|[Hc ->]].
  - split; [intros [= ->]; exists 0%nat, f; split_and!; [done|done|done|lia]|]. intros ([|i] & f' & Hf & Hc' & Hb' & Hfirst); [injection Hf as <-; congruence|]. by destruct (Hfirst 0%nat f ltac:(lia) eq_refl).
  - rewrite IH. split; intros (i & f' & Hf & Hc' & Hb' & Hfirst).
    + exists (S i), f'. split_and!; [done..|]. intros [|j] f'' Hj Hl; [by injection Hl as <-|]. apply (Hfirst j f''); [lia|done].
    + destruct i as [|i]; [injection Hf as <-; done|]. exists i, f'. split_and!; [done..|]. intros j f'' Hj Hl. apply (Hfirst (S j) f''); [lia|done].
Qed.

Lemma read_u8_spec mem gpa b : read_u8 mem gpa = Some b <-> mem_byte mem gpa b.
Proof.
  unfold read_u8, mem_byte. destruct (Z.ltb_spec gpa (len (gm_ram mem))); [|rewrite flash_byte_spec]; split; [by left|by intros [[_ ?]|[? _]]; [|lia]|by right|by intros [[? _]|[_ ?]]; [lia|]].
Qed.

Lemma read_u64_spec mem a w : 0 <= a -> read_u64 mem a = Some w <-> mem_word mem a w.
Proof.
  intros Ha. unfold read_u64, mem_word, get_u64. destruct (Z.eqb_spec (a mod 8) 0) as [Hm|Hm]; [|rewrite andb_false_r; split; [done|by intros [? _]]]. rewrite andb_true_r.
  assert (Hs : forall k, (k < 8)%nat -> take 8 (drop (Z.to_nat a) (gm_ram mem)) !! k = gm_ram mem !! (Z.to_nat a + k)%nat) by (intros k Hk; rewrite lookup_take_lt, lookup_drop by lia; done).
  destruct (Z.leb_spec (a + 8) (len (gm_ram mem))) as [Hl|Hl].
  - assert (Hlen : length (take 8 (drop (Z.to_nat a) (gm_ram mem))) = 8%nat) by (rewrite length_take, length_drop; unfold len in Hl; lia). split.
    + intros [= <-]. split; [done|]. exists (take 8 (drop (Z.to_nat a) (gm_ram mem))). split_and!; [done| |done]. intros k Hk. by rewrite Hs.
    + intros (_ & bs & Hb & Hk & ->). do 2 f_equal. apply list_eq_same_length with (n := 8%nat); [done..|]. intros k x y Hlt Hx Hy. rewrite Hs, Hk in Hx by done. congruence.
  - split; [done|]. intros (_ & bs & Hb & Hk & _). specialize (Hk 7%nat ltac:(lia)). rewrite (lookup_ge_None_2 (gm_ram mem)) in Hk by (unfold len in Hl; lia). symmetry in Hk. apply lookup_ge_None_1 in Hk. lia.
Qed.

(** Masks as arithmetic. *)
Lemma land_mask x lo n : 0 <= lo -> 0 <= n -> x .& (Z.ones n .<< lo) = (x / 2 ^ lo) mod 2 ^ n * 2 ^ lo.
Proof.
  intros Hl Hn. rewrite <- Z.land_ones, <- Z.shiftr_div_pow2, <- (Z.shiftl_mul_pow2 _ lo) by done. apply Z.bits_inj'. intros i Hi. rewrite Z.land_spec, !Z.shiftl_spec, Z.land_spec by done.
  destruct (Z.lt_ge_cases i lo); [rewrite !(Z.testbit_neg_r _ (i - lo)) by lia; by rewrite andb_false_r|]. rewrite Z.shiftr_spec by lia. by replace (i - lo + lo) with i by lia.
Qed.

Lemma land_low x n : 0 <= n -> x .& Z.ones n = x mod 2 ^ n.
Proof. intros Hn. by rewrite Z.land_ones. Qed.

Lemma lor_frame f x n : 0 <= n -> (f * 2 ^ n) .| (x mod 2 ^ n) = f * 2 ^ n + x mod 2 ^ n.
Proof.
  intros Hn. symmetry. apply Z.add_nocarry_lor. apply Z.bits_inj'. intros i Hi. rewrite Z.land_spec, Z.testbit_0_l. destruct (Z.lt_ge_cases i n); [by rewrite Z.mul_pow2_bits_low|].
  by rewrite Z.mod_pow2_bits_high, andb_false_r.
Qed.

Lemma addr_mask x : x .& 0x000FFFFFFFFFF000 = next_table x.
Proof. change 0x000FFFFFFFFFF000 with (Z.ones 40 .<< 12). by rewrite land_mask. Qed.

Lemma index_mask gva s : 0 <= s -> (gva .>> s) .& 0x1FF * 8 = 8 * ((gva / 2 ^ s) mod 512).
Proof. intros Hs. change 0x1FF with (Z.ones 9). rewrite Z.land_ones, Z.shiftr_div_pow2 by done. change (2 ^ 9) with 512. lia. Qed.

Lemma present_bit e : (e .& 1 =? 0) = negb (Z.testbit e 0).
Proof. rewrite <- (tst_bit e 0) by done. unfold tst. by rewrite negb_involutive. Qed.

Lemma walked_addr e gva s : 0 <= next_table e + 8 * ((gva / 2 ^ s) mod 512).
Proof. unfold next_table. pose proof (Z.mod_pos_bound (e / 2 ^ 12) (2 ^ 40) ltac:(lia)). pose proof (Z.mod_pos_bound (gva / 2 ^ s) 512 ltac:(lia)). lia. Qed.

(** One level of the walk. *)
Lemma level_spec {A} mem e gva s (k : Z -> option A) x :
  (w ← read_u64 mem (next_table e + 8 * ((gva / 2 ^ s) mod 512)); if w .& 1 =? 0 then None else k w) = Some x <-> exists w, entry mem (next_table e) gva s w /\ k w = Some x.
Proof.
  unfold entry. pose proof (walked_addr e gva s) as Ha. split.
  - destruct (read_u64 mem _) as [w|] eqn:E; [|done]. cbn [mbind option_bind]. rewrite present_bit. destruct (Z.testbit w 0) eqn:Ep; [|done]. cbn [negb]. intros Hk. exists w. split; [split; [|done]|done]. by apply read_u64_spec.
  - intros (w & [Hw Hp] & Hk). apply read_u64_spec in Hw; [|done]. rewrite Hw. cbn [mbind option_bind]. rewrite present_bit, Hp. done.
Qed.

Lemma translate_walks mem cr3 gva gpa : translate_gva cr3 gva (read_u64 mem) = Some gpa <-> walks mem cr3 gva gpa.
Proof.
  unfold translate_gva. cbv zeta. rewrite !index_mask by lia. rewrite addr_mask, level_spec.
  assert (H1 : forall e, tst e (1 .<< 7) = Z.testbit e 7) by (intros e; by apply (tst_bit e 7)).
  assert (E3 : forall e, (e .& 0x000FFFFFC0000000) .| (gva .& 0x3FFFFFFF) = (e / 2 ^ 30) mod 2 ^ 22 * 2 ^ 30 + gva mod 2 ^ 30).
  { intros e. change 0x000FFFFFC0000000 with (Z.ones 22 .<< 30). change 0x3FFFFFFF with (Z.ones 30). by rewrite land_mask, land_low, lor_frame. }
  assert (E2 : forall e, (e .& 0x000FFFFFFFE00000) .| (gva .& 0x1FFFFF) = (e / 2 ^ 21) mod 2 ^ 31 * 2 ^ 21 + gva mod 2 ^ 21).
  { intros e. change 0x000FFFFFFFE00000 with (Z.ones 31 .<< 21). change 0x1FFFFF with (Z.ones 21). by rewrite land_mask, land_low, lor_frame. }
  assert (E1 : forall e, (e .& 0x000FFFFFFFFFF000) .| (gva .& 0xFFF) = next_table e + gva mod 2 ^ 12).
  { intros e. rewrite addr_mask. change 0xFFF with (Z.ones 12). unfold next_table. by rewrite land_low, lor_frame. }
  split.
  - intros (e4 & H4 & H). rewrite addr_mask, level_spec in H. destruct H as (e3 & H3 & H). rewrite H1 in H. destruct (Z.testbit e3 7) eqn:P3.
    { injection H as <-. rewrite E3. by eapply walk_1g. }
    rewrite addr_mask, level_spec in H. destruct H as (e2 & H2 & H). rewrite H1 in H. destruct (Z.testbit e2 7) eqn:P2.
    { injection H as <-. rewrite E2. by eapply walk_2m. }
    rewrite addr_mask, level_spec in H. destruct H as (e1 & H0 & [= <-]). rewrite E1. by eapply walk_4k.
  - intros [e4 e3 H4 H3 P3|e4 e3 e2 H4 H3 P3 H2 P2|e4 e3 e2 e1 H4 H3 P3 H2 P2 H0]; exists e4; (split; [done|]); rewrite addr_mask, level_spec; exists e3; (split; [done|]); rewrite H1, P3; [by rewrite E3|..];
      rewrite addr_mask, level_spec; exists e2; (split; [done|]); rewrite H1, P2; [by rewrite E2|]. rewrite addr_mask, level_spec. exists e1. split; [done|]. by rewrite E1.
Qed.

(** The octet as the fetch reads it, page by page. *)
Definition code_byte (mem : GuestMem) (paging : bool) (cr3 cs_base gva : Z) : option Z :=
  if paging then gpa ← translate_gva cr3 gva (read_u64 mem); read_u8 mem gpa
  else read_u8 mem (wrap 64 (cs_base + gva) .& 0xFFFFFFFF).

Lemma code_byte_octet mem paging cr3 cs_base ip b : code_byte mem paging cr3 cs_base (wrap 64 ip) = Some b <-> octet mem paging cr3 cs_base ip b.
Proof.
  unfold code_byte, octet, wrap. destruct paging.
  - split.
    + destruct (translate_gva _ _ _) as [gpa|] eqn:E; [|done]. cbn [mbind option_bind]. intros Hb. exists gpa. split; [by apply translate_walks|by apply read_u8_spec].
    + intros (gpa & Hw & Hb). apply translate_walks in Hw. rewrite Hw. by apply read_u8_spec.
  - change 0xFFFFFFFF with (Z.ones 32). rewrite land_low, Z.mod_mod_divide by (done || by exists (2 ^ 32)). rewrite read_u8_spec.
    by rewrite Z.add_mod, Z.mod_mod_divide, <- Z.add_mod by (done || by exists (2 ^ 32)).
Qed.

Lemma testbit_low12 i : 0 <= i -> Z.testbit 0xFFF i = (i <? 12).
Proof. intros Hi. change 0xFFF with (Z.ones 12). apply Z.testbit_ones_nonneg; lia. Qed.

Lemma page_index g s : 12 <= s -> ((g .&~ 0xFFF) .>> s) .& 0x1FF = (g .>> s) .& 0x1FF.
Proof.
  intros Hs. f_equal. apply Z.bits_inj'. intros i Hi. rewrite !Z.shiftr_spec, Z.ldiff_spec, testbit_low12 by lia. rewrite (proj2 (Z.ltb_ge _ _)) by lia. apply andb_true_r.
Qed.

Lemma frame_offset frame g k : 12 <= k -> frame .& 0xFFF = 0 -> frame .| (g .& Z.ones k) = (frame .| ((g .&~ 0xFFF) .& Z.ones k)) + (g .& 0xFFF).
Proof.
  intros Hk Hf. assert (Hb : forall i, 0 <= i < 12 -> Z.testbit frame i = false).
  { intros i Hi. pose proof (f_equal (fun z => Z.testbit z i) Hf) as Hb. cbv beta in Hb. rewrite Z.land_spec, testbit_low12, Z.testbit_0_l in Hb by lia.
    by rewrite (proj2 (Z.ltb_lt _ _)), andb_true_r in Hb by lia. }
  rewrite Z.add_nocarry_lor; apply Z.bits_inj'; intros i Hi;
    rewrite ?Z.testbit_0_l, ?Z.lor_spec, ?Z.land_spec, ?Z.lor_spec, ?Z.land_spec, ?Z.ldiff_spec, ?testbit_low12, ?Z.testbit_ones_nonneg by lia;
    destruct (Z.ltb_spec i 12); rewrite ?(Hb i), ?(proj2 (Z.ltb_lt i k)) by lia; by destruct (Z.testbit frame i), (Z.testbit g i), (i <? k).
Qed.

Lemma frame_low e m : m .& 0xFFF = 0 -> (e .& m) .& 0xFFF = 0.
Proof. intros Hm. by rewrite <- Z.land_assoc, Hm, Z.land_0_r. Qed.

(** The walk translates a page at a time. *)
Lemma translate_page cr3 gva rd : translate_gva cr3 gva rd = page ← translate_gva cr3 (gva .&~ 0xFFF) rd; Some (page + (gva .& 0xFFF)).
Proof.
  unfold translate_gva. cbv zeta. rewrite !page_index by lia. destruct (rd _) as [pml4e|]; cbn [mbind option_bind]; [|done]. case_match; [done|].
  destruct (rd _) as [pdpte|]; cbn [mbind option_bind]; [|done]. case_match; [done|]. case_match.
  { cbn [mbind option_bind]. f_equal. by apply (frame_offset _ gva 30), frame_low. }
  destruct (rd _) as [pde|]; cbn [mbind option_bind]; [|done]. case_match; [done|]. case_match.
  { cbn [mbind option_bind]. f_equal. by apply (frame_offset _ gva 21), frame_low. }
  destruct (rd _) as [pte|]; cbn [mbind option_bind]; [|done]. case_match; [done|].
  cbn [mbind option_bind]. f_equal. by apply (frame_offset _ gva 12), frame_low.
Qed.

Lemma ctz_page g : fits 64 g -> ctz 64 g < 12 -> g mod 4096 <> 0.
Proof.
  intros Hg Hc Hm. destruct (Z.eq_dec g 0) as [->|Hn]; [by vm_compute in Hc|]. pose proof (ctz_set 64 g Hg Hn) as Hs. pose proof (ctz_nonneg 64 g).
  rewrite <- (Z.mod_pow2_bits_low g 12) in Hs by lia. change (2 ^ 12) with 4096 in Hs. by rewrite Hm, Z.testbit_0_l in Hs.
Qed.

Lemma code_page_base g : g .&~ 0xFFF = g - g mod 4096.
Proof. change 0xFFF with (Z.ones 12). rewrite Z.ldiff_ones_r, Z.shiftl_mul_pow2, Z.shiftr_div_pow2 by lia. change (2 ^ 12) with 4096. pose proof (Z.div_mod g 4096). lia. Qed.

(** Inside a page the page is the one of the octet before. *)
Lemma same_page x : ctz 64 (wrap 64 (x + 1)) < 12 -> wrap 64 (x + 1) .&~ 0xFFF = wrap 64 x .&~ 0xFFF.
Proof.
  intros Hc. apply ctz_page in Hc; [|apply fits_wrap; lia]. unfold wrap in *. rewrite !code_page_base. rewrite !(Z.mod_mod_divide _ (2 ^ 64) 4096) in * by (by exists (2 ^ 52)).
  pose proof (Z.mod_pos_bound (x + 1) 4096 ltac:(lia)). pose proof (Z.div_mod (x + 1) 4096 ltac:(lia)). pose proof (Z.div_mod (x + 1) (2 ^ 64) ltac:(lia)).
  assert (Em : x mod 4096 = (x + 1) mod 4096 - 1) by (symmetry; apply (Z.mod_unique _ _ ((x + 1) / 4096)); lia).
  assert (Ew : x mod 2 ^ 64 = (x + 1) mod 2 ^ 64 - 1); [|lia].
  pose proof (Z.mod_pos_bound (x + 1) (2 ^ 64) ltac:(lia)). symmetry. apply (Z.mod_unique _ _ ((x + 1) / 2 ^ 64)); [|lia]. left.
  assert ((x + 1) mod 2 ^ 64 <> 0); [|lia]. intros E0. pose proof (Z.mod_mod_divide (x + 1) (2 ^ 64) 4096 ltac:(by exists (2 ^ 52))) as E1.
  by rewrite E0 in E1.
Qed.

Lemma fetch_loop_spec todo mem paging cr3 cs_base rip : forall n page, 0 <= n ->
  (paging = true -> n = 0 \/ page = translate_gva cr3 (wrap 64 (rip + (n - 1)) .&~ 0xFFF) (read_u64 mem)) ->
  let bytes := fetch_loop todo mem paging cr3 cs_base rip n page in
  (length bytes <= todo)%nat /\
  (forall k b, bytes !! k = Some b -> code_byte mem paging cr3 cs_base (wrap 64 (rip + (n + Z.of_nat k))) = Some b) /\
  ((length bytes < todo)%nat -> code_byte mem paging cr3 cs_base (wrap 64 (rip + (n + Z.of_nat (length bytes)))) = None).
Proof.
  induction todo as [|todo IH]; intros n page Hn Hp bytes; [cbn; split_and!; [done|done|lia]|]. subst bytes. cbn [fetch_loop]. cbv zeta.
  set (gva := wrap 64 (rip + n)). set (page' := if paging && _ then _ else page).
  assert (Hpage : paging = true -> page' = translate_gva cr3 (gva .&~ 0xFFF) (read_u64 mem)).
  { intros ->. subst page'. cbn [andb]. destruct (Z.eqb_spec n 0); [done|]. cbn [orb]. destruct (Z.leb_spec 12 (ctz 64 gva)) as [|Hc]; [done|].
    destruct Hp as [| ->]; [done..|]. unfold gva in *. replace (rip + n) with (rip + (n - 1) + 1) in * by lia. by rewrite <- same_page. }
  assert (Hb : (if paging then page ← page'; read_u8 mem (page + (gva .& 0xFFF)) else read_u8 mem (wrap 64 (cs_base + gva) .& 0xFFFFFFFF)) =
    code_byte mem paging cr3 cs_base gva).
  { unfold code_byte. destruct paging; [|done]. rewrite Hpage, (translate_page cr3 gva) by done. by destruct (translate_gva cr3 (gva .&~ 0xFFF) (read_u64 mem)). }
  rewrite Hb. destruct (code_byte mem paging cr3 cs_base gva) as [b|] eqn:Eb.
  - destruct (IH (n + 1) page') as (I1 & I2 & I3); [lia| |].
    { intros Ht. right. rewrite (Hpage Ht). unfold gva. do 4 f_equal. lia. }
    cbn [length]. split_and!; [lia| |].
    + intros [|k] b' Hk; [injection Hk as <-; by rewrite Z.add_0_r|]. rewrite <- (I2 k b' Hk). do 2 f_equal. lia.
    + intros Hl. rewrite <- I3 by lia. do 2 f_equal. lia.
  - cbn [length]. split_and!; [lia|done|]. intros _. by rewrite Z.add_0_r.
Qed.

(** C26: For a guest without paging, or whose 64-bit code runs on 4-level long-mode
    tables in its RAM, the fetch reads the octets the processor does: up to fifteen
    and up to the first that is not mapped or not memory.  It walks the tables once
    a page, also where the instruction crosses a page or the end of the address
    space.  The walk and the memory are described on their own: an entry is eight
    octets of RAM, present with bit 0, a large page with bit 7, with the address in
    its bits 51:12, 51:21 or 51:30. *)
Theorem insn_fetch_bytes mem paging cr3 cs_base rip : let bytes := fetch_insn mem paging cr3 cs_base rip in
  (length bytes <= 15)%nat /\
  (forall k b, bytes !! k = Some b -> octet mem paging cr3 cs_base (rip + Z.of_nat k) b) /\
  ((length bytes < 15)%nat -> forall b, ~ octet mem paging cr3 cs_base (rip + Z.of_nat (length bytes)) b).
Proof.
  intros bytes. destruct (fetch_loop_spec 15 mem paging cr3 cs_base rip 0 None) as (H1 & H2 & H3); [done|by left|]. split_and!; [done| |].
  - intros k b Hk. by apply code_byte_octet, (H2 k b).
  - intros Hl b Hb. apply code_byte_octet in Hb. specialize (H3 Hl). rewrite Z.add_0_l in H3. subst bytes. unfold fetch_insn in Hb. by rewrite H3 in Hb.
Qed.

(** A page that is its own table at every level, with an instruction behind the
    entry. *)
Lemma insn_fetch_sample : fetch_insn (mkGuestMem [3; 0; 0; 0; 0; 0; 0; 0; 0x8B; 0x07] []) true 0 0 8 = [0x8B; 0x07].
Proof. reflexivity. Qed.

(** ** The result of a load *)

Lemma mask_to_mod v s : s = 1 \/ s = 2 \/ s = 4 -> mask_to v s = v mod 2 ^ (8 * s).
Proof. intros [-> | [-> | ->]]; [apply (Z.land_ones v 8)|apply (Z.land_ones v 16)|apply (Z.land_ones v 32)]; done. Qed.

(** The widths a decoded access has. *)
Definition width (s : Z) : Prop := s = 1 \/ s = 2 \/ s = 4 \/ s = 8.

(** The loaded value as a number, signed for [movsx]. *)
Definition loaded (raw size : Z) (sign : bool) : Z :=
  let x := wrap (8 * size) raw in if sign then signed (8 * size) x else x.

Lemma mask_to_wrap v s : fits 64 v -> width s -> mask_to v s = wrap (8 * s) v.
Proof.
  intros Hv [-> | [-> | [-> | ->]]]; [apply mask_to_mod; auto..|]. symmetry. by apply wrap_small.
Qed.

Lemma sign_bit n x : 1 <= n -> fits n x -> Z.testbit x (n - 1) = (2 ^ (n - 1) <=? x).
Proof.
  intros Hn [H0 H1]. assert (En : 2 ^ n = 2 * 2 ^ (n - 1)) by (rewrite <- Z.pow_succ_r by lia; f_equal; lia). destruct (Z.leb_spec (2 ^ (n - 1)) x) as [Hle|Hlt].
  - apply Z.testbit_true; [lia|]. rewrite (Z.mod_small (x / _)); [|split; [apply Z.div_pos; lia|apply Z.div_lt_upper_bound; lia]].
    symmetry. apply (Z.div_unique _ _ _ (x - 2 ^ (n - 1))); lia.
  - apply (fits_high (n - 1)); [split; lia|lia].
Qed.

Lemma sign_fill n x : 0 <= n <= 64 -> fits n x -> x .| ((2 ^ 64 - 1) .&~ ((1 .<< n) - 1)) = x + (2 ^ 64 - 2 ^ n).
Proof.
  intros Hn Hx. assert (E1 : (2 ^ 64 - 1) .&~ ((1 .<< n) - 1) = 2 ^ 64 - 2 ^ n).
  { rewrite Z.shiftl_1_l. change (2 ^ n - 1) with (Z.pred (2 ^ n)). rewrite <- Z.ones_equiv. change (2 ^ 64 - 1) with (Z.ones 64).
    rewrite Z.ldiff_ones_r, Z.shiftl_mul_pow2, Z.shiftr_div_pow2 by lia. rewrite Z.ones_div_pow2, Z.ones_equiv by lia.
    rewrite Z.mul_pred_l, <- Z.pow_add_r by lia. f_equal. f_equal. lia. }
  rewrite <- E1. symmetry. apply Z.add_nocarry_lor. apply Z.bits_inj'. intros i Hi. rewrite Z.land_spec, Z.ldiff_spec, Z.testbit_0_l, Z.shiftl_1_l.
  change (2 ^ n - 1) with (Z.pred (2 ^ n)). rewrite <- Z.ones_equiv, (Z.testbit_ones_nonneg n) by lia. destruct (Z.ltb_spec i n).
  - by rewrite !andb_false_r.
  - by rewrite (fits_high n) by (done || lia).
Qed.

Lemma extend_loaded raw size dest sign : fits 64 raw -> width size -> width dest -> extend raw size dest sign = wrap (8 * dest) (loaded raw size sign).
Proof.
  intros Hr Hs Hd. unfold extend, loaded. rewrite (mask_to_wrap raw size) by done. set (x := wrap (8 * size) raw).
  assert (H8 : 8 <= 8 * size <= 64) by (destruct Hs as [-> | [-> | [-> | ->]]]; lia). assert (Hx : fits (8 * size) x) by (apply fits_wrap; lia).
  assert (Hmod : forall y z, (2 ^ 64 | y - z) -> wrap (8 * dest) y = wrap (8 * dest) z).
  { intros y z Hyz. unfold wrap. assert ((2 ^ (8 * dest) | y - z)) as [q Hq]. { transitivity (2 ^ 64); [|done]. exists (2 ^ (64 - 8 * dest)). destruct Hd as [-> | [-> | [-> | ->]]]; done. }
    replace y with (z + q * 2 ^ (8 * dest)) by lia. apply Z.mod_add. destruct Hd as [-> | [-> | [-> | ->]]]; done. }
  assert (Hxw : fits 64 x) by (apply (fits_mono (8 * size)); [done|lia]). destruct sign; cbn [andb]; [|by apply mask_to_wrap].
  rewrite (tst_pow _ _ (size * 8 - 1)), (Z.mul_comm size 8), sign_bit by (rewrite ?Z.shiftl_1_l; done || lia). unfold signed.
  assert (Hp : 2 ^ (8 * size) <= 2 ^ 64) by (apply Z.pow_le_mono_r; lia). destruct (Z.leb_spec (2 ^ (8 * size - 1)) x) as [Hle|Hlt].
  - rewrite (proj2 (Z.ltb_ge x (2 ^ (8 * size - 1)))), andb_true_r by done. destruct (Z.ltb_spec size 8) as [Hlt|Hge].
    + rewrite sign_fill by (done || lia). rewrite mask_to_wrap by (done || (destruct Hx; split; lia)). apply Hmod. exists 1. lia.
    + rewrite mask_to_wrap by done. apply Hmod. exists 1. replace (8 * size) with 64 by (destruct Hs as [-> | [-> | [-> | ->]]]; lia). lia.
  - rewrite (proj2 (Z.ltb_lt x (2 ^ (8 * size - 1)))), andb_false_r by done. by apply mask_to_wrap.
Qed.

Lemma shl_add a k b : 0 <= k -> 0 <= b < 2 ^ k -> (a .<< k) .| b = a * 2 ^ k + b.
Proof.
  intros Hk Hb. rewrite Z.shiftl_mul_pow2 by done. symmetry. apply Z.add_nocarry_lor. apply Z.bits_inj'. intros i Hi. rewrite Z.land_spec, Z.testbit_0_l.
  destruct (Z.lt_ge_cases i k); [by rewrite Z.mul_pow2_bits_low by lia|]. rewrite (fits_high k b) by done. apply andb_false_r.
Qed.

(** A register after a write of [v]: the low octets, or the second, are replaced
    and a four-octet write clears the upper half. *)
Definition reg_write (old v dest : Z) (high8 : bool) : Z :=
  if dest =? 1 then if high8 then (old / 2 ^ 16 * 256 + v) * 256 + old mod 256 else old / 256 * 256 + v
  else if dest =? 2 then old / 2 ^ 16 * 2 ^ 16 + v
  else v.

Lemma merge_low old v k : 0 <= k -> (old .&~ Z.ones k) .| (v .& Z.ones k) = old / 2 ^ k * 2 ^ k + v mod 2 ^ k.
Proof. intros Hk. rewrite Z.ldiff_ones_r, Z.land_ones, shl_add, Z.shiftr_div_pow2 by first [done|apply Z.mod_pos_bound; lia]. done. Qed.

Lemma merge_high old v : (old .&~ 0xFF00) .| ((v .& 0xFF) .<< 8) = (old / 2 ^ 16 * 256 + v mod 256) * 256 + old mod 256.
Proof.
  change 256 with (2 ^ 8) at 1 2 3 4. rewrite <- !shl_add by (done || apply Z.mod_pos_bound; done). rewrite <- !(Z.land_ones _ 8) by done. rewrite <- Z.shiftr_div_pow2 by done.
  apply Z.bits_inj'. intros i Hi. change 0xFF00 with (Z.ones 8 .<< 8). change 0xFF with (Z.ones 8).
  rewrite !Z.lor_spec, Z.ldiff_spec, Z.land_spec, !(Z.shiftl_spec _ 8 i), (Z.testbit_ones_nonneg 8 i) by lia.
  destruct (Z.ltb_spec i 8).
  - rewrite !(Z.testbit_neg_r _ (i - 8)) by lia. cbn. by rewrite !andb_true_r, orb_false_r.
  - rewrite Z.lor_spec, (Z.shiftl_spec _ 8 (i - 8)), !Z.land_spec, !(Z.testbit_ones_nonneg 8 (i - 8)), andb_false_r, orb_false_r by lia.
    destruct (Z.ltb_spec (i - 8) 8).
    + rewrite !(Z.testbit_neg_r _ (i - 8 - 8)) by lia. cbn. by rewrite andb_false_r.
    + rewrite Z.shiftr_spec by lia. cbn. rewrite !andb_false_r, andb_true_r, !orb_false_r. f_equal. lia.
Qed.

(** A decoded load leaves the register the instruction leaves: the octets
    read, as a number, signed for [movsx], reduced to the destination's width
    and put into it, with the rest of the register kept for one or two octets
    and cleared for four. *)
Theorem insn_load_result old raw size dest sign high8 : fits 64 old -> fits 64 raw -> width size -> width dest ->
  merge_reg old (extend raw size dest sign) dest high8 = reg_write old (wrap (8 * dest) (loaded raw size sign)) dest high8.
Proof.
  intros Ho Hr Hs Hd. rewrite extend_loaded by done. generalize (loaded raw size sign). intros v. unfold merge_reg, reg_write, wrap.
  destruct Hd as [-> | [-> | [-> | ->]]]; cbn [Z.eqb Pos.eqb andb].
  - destruct high8; [rewrite merge_high|change 0xFF with (Z.ones 8); rewrite merge_low by done]; by rewrite Z.mod_mod.
  - change 0xFFFF with (Z.ones 16). rewrite merge_low by done. by rewrite Z.mod_mod.
  - change 0xFFFFFFFF with (Z.ones 32). rewrite Z.land_ones by done. by apply Z.mod_mod.
  - done.
Qed.

Lemma insn_load_result_witness : merge_reg 0x1122334455667788 (extend 0x9A 1 2 true) 2 false = 0x112233445566FF9A.
Proof. rewrite (insn_load_result 0x1122334455667788 0x9A 1 2 true false); [done|by split|by split|by left|by right; left]. Defined.
