(* ===== verification/BlockDev.v ===== *)
(** * Carved-out disks: enlil-boot/src/blockdev.rs

    The sector interface of a guest's disk, the memory disk, and [DiskMap], the
    allow-list that lets guests share one physical disk, with the text format
    that assigns the ranges.  The theorems say that a restricted disk is a disk
    again, that guests on one disk have private disks as far as their ranges
    allow, and that nothing is granted the text does not grant. *)

From Stdlib Require Import ZArith Lia Bool String.
From stdpp Require Import base decidable list numbers.
From S2P Require Import Prelude Rust Storage Str.

Inductive BlockError := OutOfRange | Denied | Unaligned | Io.

Abbreviation SECTOR := 512 (only parsing).

(** [blk_read] gives the bytes it fills the buffer of the given length with. *)
Class BlockBackend (B : Type) := {
  sectors : B -> Z;
  blk_read : B -> Z -> Z -> B * res BlockError (list Z);
  blk_write : B -> Z -> list Z -> B * res BlockError unit;
  blk_flush : B -> B * res BlockError unit;
}.

Definition check_span (sectors lba n : Z) : res BlockError Z :=
  if negb (n mod SECTOR =? 0) then Err Unaligned
  else match checked_add lba (n / SECTOR) with
       | Some end_ => if end_ <=? sectors then Ok (n / SECTOR) else Err OutOfRange
       | None => Err OutOfRange
       end.

(** ** The memory disk *)

Record RamDisk := mkRamDisk { rd_data : list Z }.

Definition RamDisk_new (sectors : Z) : res Empty_set RamDisk := n ← rmul sectors SECTOR; Ok (mkRamDisk (zeros n)).

Definition ram_sectors (d : RamDisk) : Z := len (rd_data d) / SECTOR.

Definition ram_read (d : RamDisk) (lba n : Z) : RamDisk * res BlockError (list Z) :=
  match check_span (ram_sectors d) lba n with
  | Ok _ => (d, Ok (sub (rd_data d) (lba * SECTOR) n))
  | Err e => (d, Err e)
  | Panic => (d, Panic)
  end.

Definition ram_write (d : RamDisk) (lba : Z) (data : list Z) : RamDisk * res BlockError unit :=
  match check_span (ram_sectors d) lba (len data) with
  | Ok _ => (mkRamDisk (splice (rd_data d) (lba * SECTOR) data), Ok tt)
  | Err e => (d, Err e)
  | Panic => (d, Panic)
  end.

#[export] Instance RamDisk_backend : BlockBackend RamDisk :=
  {| sectors := ram_sectors; blk_read := ram_read; blk_write := ram_write; blk_flush d := (d, Ok tt) |}.

(** ** The allow-list *)

Record Allow := mkAllow { al_start : Z; al_end : Z; al_writable : bool }.

#[export] Instance Allow_eq_dec : EqDecision Allow.
Proof. solve_decision. Defined.

Record DiskMap (B : Type) := mkDiskMap { dm_inner : B; dm_ranges : list Allow }.
Arguments mkDiskMap {B} _ _.
Arguments dm_inner {B} _.
Arguments dm_ranges {B} _.

Definition DiskMap_new {B} (inner : B) (ranges : list Allow) : DiskMap B :=
  mkDiskMap inner (sort_by_key al_start (filter (fun r => al_start r < al_end r) ranges)).

Definition readable (ranges : list Allow) (lba : Z) : bool :=
  existsb (fun r => (al_start r <=? lba) && (lba <? al_end r)) ranges.

Definition writable (ranges : list Allow) (lba : Z) : bool :=
  existsb (fun r => al_writable r && (al_start r <=? lba) && (lba <? al_end r)) ranges.

(** The loop of [run_end] from [end_] on. *)
Fixpoint run_from (fuel : nat) (ranges : list Allow) (readable0 : bool) (end_ limit : Z) : Z :=
  match fuel with
  | O => end_
  | S fuel => if (end_ <? limit) && eqb (readable ranges end_) readable0 then run_from fuel ranges readable0 (end_ + 1) limit else end_
  end.

Definition run_end (ranges : list Allow) (lba limit : Z) : Z :=
  run_from (Z.to_nat (limit - lba)) ranges (readable ranges lba) (lba + 1) limit.

Section DiskMap.
Context {B : Type} `{BlockBackend B}.

(** The loop of [read], with the bytes filled so far. *)
Fixpoint read_runs (fuel : nat) (inner : B) (ranges : list Allow) (cur end_ : Z) (buf : list Z) : B * res BlockError (list Z) :=
  if cur <? end_ then
    match fuel with
    | O => (inner, Panic)
    | S fuel =>
        let re := run_end ranges cur end_ in
        if readable ranges cur then
          match blk_read inner cur ((re - cur) * SECTOR) with
          | (inner, Ok bytes) => read_runs fuel inner ranges re end_ (buf ++ bytes)
          | (inner, Err e) => (inner, Err e)
          | (inner, Panic) => (inner, Panic)
          end
        else read_runs fuel inner ranges re end_ (buf ++ zeros ((re - cur) * SECTOR))
    end
  else (inner, Ok buf).

Definition map_read (d : DiskMap B) (lba n : Z) : DiskMap B * res BlockError (list Z) :=
  match check_span (sectors (dm_inner d)) lba n with
  | Ok k => let '(inner, r) := read_runs (Z.to_nat k) (dm_inner d) (dm_ranges d) lba (lba + k) [] in (mkDiskMap inner (dm_ranges d), r)
  | Err e => (d, Err e)
  | Panic => (d, Panic)
  end.

Definition map_write (d : DiskMap B) (lba : Z) (data : list Z) : DiskMap B * res BlockError unit :=
  match check_span (sectors (dm_inner d)) lba (len data) with
  | Ok k =>
      if existsb (fun s => negb (writable (dm_ranges d) s)) (seqZ lba k) then (d, Err Denied)
      else let '(inner, r) := blk_write (dm_inner d) lba data in (mkDiskMap inner (dm_ranges d), r)
  | Err e => (d, Err e)
  | Panic => (d, Panic)
  end.

Definition map_flush (d : DiskMap B) : DiskMap B * res BlockError unit :=
  let '(inner, r) := blk_flush (dm_inner d) in (mkDiskMap inner (dm_ranges d), r).

#[export] Instance DiskMap_backend : BlockBackend (DiskMap B) :=
  {| sectors d := sectors (dm_inner d); blk_read := map_read; blk_write := map_write; blk_flush := map_flush |}.
End DiskMap.

(** ** The assignment text *)

Inductive DiskModel := Virtio | Nvme.

Record BootTarget := mkBootTarget { bt_partition : Z; bt_loader : str }.

Record DiskConfig := mkDiskConfig { dc_serial : str; dc_ranges : list Allow; dc_model : DiskModel; dc_boot : option BootTarget }.

Inductive ConfigError := BadLine (line : str) | BadRange (value : str) | NoSerial | NoRanges | BadBootEntry.

Definition parse_u64 (s : str) : option Z :=
  let s := trim s in
  match (match strip_prefix (lit "0x") s with Some hex => Some hex | None => strip_prefix (lit "0X") s end) with
  | Some hex => from_str_radix 16 (2 ^ 64 - 1) hex
  | None => from_str_radix 10 (2 ^ 64 - 1) s
  end.

Definition parse_allow (value : str) : res ConfigError Allow :=
  let bad := Err (BadRange value) in
  match split_whitespace value with
  | [span; mode] =>
      let allow (writable : bool) : res ConfigError Allow :=
        if bool_decide (span = lit "all") then Ok (mkAllow 0 (2 ^ 64 - 1) writable)
        else match split_once 45 span with
             | None => bad
             | Some (a, b) =>
                 match parse_u64 a, parse_u64 b with
                 | Some start, Some last =>
                     if (last <? start) || (last =? 2 ^ 64 - 1) then bad else Ok (mkAllow start (last + 1) writable)
                 | _, _ => bad
                 end
             end in
      if bool_decide (mode = lit "rw") then allow true
      else if bool_decide (mode = lit "ro") then allow false
      else bad
  | _ => bad
  end.

(** The local variables of [parse]. *)
Record Parsed := mkParsed { p_serial : option str; p_model : DiskModel; p_ranges : list Allow; p_partition : option Z; p_loader : option str }.

Definition parse_line (p : Parsed) (raw : str) : res ConfigError Parsed :=
  let line := trim (default [] (head (split 35 raw))) in
  if bool_decide (line = []) then Ok p
  else match split_once 61 line with
  | None => Err (BadLine line)
  | Some (key, value) =>
    let key := trim key in
    let value := trim value in
    if bool_decide (key = lit "nvme-serial") then Ok (mkParsed (Some value) (p_model p) (p_ranges p) (p_partition p) (p_loader p))
    else if bool_decide (key = lit "allow") then
      r ← parse_allow value;
      Ok (mkParsed (p_serial p) (p_model p) (p_ranges p ++ [r]) (p_partition p) (p_loader p))
    else if bool_decide (key = lit "model") then
      if bool_decide (value = lit "virtio") then Ok (mkParsed (p_serial p) Virtio (p_ranges p) (p_partition p) (p_loader p))
      else if bool_decide (value = lit "nvme") then Ok (mkParsed (p_serial p) Nvme (p_ranges p) (p_partition p) (p_loader p))
      else Err (BadLine line)
    else if bool_decide (key = lit "boot-partition") then
      match parse_u64 value with
      | Some n => if (n <? 2 ^ 32) && negb (n =? 0) then Ok (mkParsed (p_serial p) (p_model p) (p_ranges p) (Some n) (p_loader p)) else Err BadBootEntry
      | None => Err BadBootEntry
      end
    else if bool_decide (key = lit "boot-loader") then Ok (mkParsed (p_serial p) (p_model p) (p_ranges p) (p_partition p) (Some value))
    else Err (BadLine line)
  end.

Fixpoint parse_lines (p : Parsed) (text : list str) : res ConfigError Parsed :=
  match text with
  | [] => Ok p
  | raw :: text => p ← parse_line p raw; parse_lines p text
  end.

Definition parse (text : str) : res ConfigError DiskConfig :=
  p ← parse_lines (mkParsed None Virtio [] None None) (lines text);
  boot ← match p_partition p, p_loader p with
         | Some partition, Some loader => if bool_decide (loader = []) then Err BadBootEntry else Ok (Some (mkBootTarget partition loader))
         | None, None => Ok None
         | _, _ => Err BadBootEntry
         end;
  serial ← match p_serial p with Some s => if bool_decide (s = []) then Err NoSerial else Ok s | None => Err NoSerial end;
  if bool_decide (p_ranges p = []) then Err NoRanges
  else Ok (mkDiskConfig serial (p_ranges p) (p_model p) boot).

Definition clamped (c : DiskConfig) (sectors : Z) : list Allow :=
  filter (fun r => al_start r < al_end r) ((fun r => mkAllow (al_start r) (Z.min (al_end r) sectors) (al_writable r)) <$> dc_ranges c).

(** ** What a backend promises *)

(** A disk of [sectors b] sectors whose bytes are [blk_byte b].  A request that
    fails may have changed the sectors it is about and no others. *)
Class BlockDisk (B : Type) `{BlockBackend B} := {
  blk_ok : B -> Prop;
  blk_byte : B -> Z -> Z;
  blk_sectors : forall b, blk_ok b -> 0 <= sectors b < 2 ^ 64;
  blk_read_spec : forall b lba n b' r, blk_ok b -> 0 <= lba -> 0 <= n -> blk_read b lba n = (b', r) ->
    blk_ok b' /\ sectors b' = sectors b /\ (forall x, blk_byte b' x = blk_byte b x) /\ r <> Panic /\
    forall bytes, r = Ok bytes -> n mod SECTOR = 0 /\ lba + n / SECTOR <= sectors b /\ len bytes = n /\
      forall k, 0 <= k < n -> getb bytes k = blk_byte b (lba * SECTOR + k);
  blk_write_spec : forall b lba data b' r, blk_ok b -> 0 <= lba -> blk_write b lba data = (b', r) ->
    blk_ok b' /\ sectors b' = sectors b /\ r <> Panic /\
    (forall x, x < lba * SECTOR \/ lba * SECTOR + len data <= x -> blk_byte b' x = blk_byte b x) /\
    (r = Ok tt -> len data mod SECTOR = 0 /\ lba + len data / SECTOR <= sectors b /\ forall x, blk_byte b' x = over (blk_byte b) (lba * SECTOR) data x);
  blk_flush_spec : forall b b' r, blk_ok b -> blk_flush b = (b', r) ->
    blk_ok b' /\ sectors b' = sectors b /\ r <> Panic /\ forall x, blk_byte b' x = blk_byte b x;
}.

Lemma check_span_spec secs lba n k : check_span secs lba n = Ok k -> n mod SECTOR = 0 /\ k = n / SECTOR /\ lba + k <= secs /\ lba + k < 2 ^ 64.
Proof.
  unfold check_span, checked_add. destruct (Z.eqb_spec (n mod SECTOR) 0); cbn [negb]; [|done]. destruct (Z.ltb_spec (lba + n / SECTOR) (2 ^ 64)); [|done].
  destruct (Z.leb_spec (lba + n / SECTOR) secs); [|done]. by intros [= <-].
Qed.

Lemma check_span_panic secs lba n : check_span secs lba n <> Panic.
Proof. unfold check_span. by repeat case_match. Qed.

Lemma sector_bytes n : n mod SECTOR = 0 -> n = n / SECTOR * SECTOR.
Proof. intros H. pose proof (Z.div_mod n 512 ltac:(lia)). lia. Qed.

Definition ram_ok (d : RamDisk) : Prop := len (rd_data d) < 2 ^ 64.

#[export, refine] Instance RamDisk_disk : BlockDisk RamDisk := {| blk_ok := ram_ok; blk_byte d x := getb (rd_data d) x |}.
Proof.
  - intros b Hb. cbn. unfold ram_sectors. pose proof (len_nonneg (rd_data b)). unfold ram_ok in Hb. pose proof (Z.div_pos (len (rd_data b)) 512 ltac:(lia) ltac:(lia)).
    pose proof (Z.div_le_upper_bound (len (rd_data b)) 512 (len (rd_data b)) ltac:(lia) ltac:(lia)). lia.
  - intros b lba n b' r Hb Hl Hn E. cbn in *. unfold ram_read in E. pose proof (check_span_panic (ram_sectors b) lba n).
    destruct (check_span _ _ _) as [k| |] eqn:Ek; injection E as <- <-; (split_and!; [done..|]); [|done..]. intros bytes [= <-].
    apply check_span_spec in Ek as (Em & -> & Hs & _). pose proof (sector_bytes n Em). unfold ram_sectors in Hs.
    pose proof (Z.mul_div_le (len (rd_data b)) 512 ltac:(lia)). split_and!; [done|done|apply len_sub; lia|]. intros x Hx. by rewrite getb_sub by lia.
  - intros b lba data b' r Hb Hl E. cbn in *. unfold ram_write in E. pose proof (check_span_panic (ram_sectors b) lba (len data)).
    destruct (check_span _ _ _) as [k| |] eqn:Ek; injection E as <- <-; cbn; [|split_and!; done..].
    apply check_span_spec in Ek as (Em & -> & Hs & _). pose proof (sector_bytes _ Em). unfold ram_sectors, ram_ok in *. cbn.
    pose proof (Z.mul_div_le (len (rd_data b)) 512 ltac:(lia)). rewrite len_splice. split_and!; try done.
    + intros x Hx. rewrite getb_splice by lia. case_match eqn:E; [|done]. apply andb_true_iff in E as [?%Z.leb_le ?%Z.ltb_lt]. lia.
    + intros _. split_and!; [done|done|]. intros x. by rewrite getb_splice by lia.
  - intros b b' r Hb [= <- <-]. done.
Defined.

(** ** The restricted disk is a disk *)

Lemma writable_readable ranges s : writable ranges s = true -> readable ranges s = true.
Proof.
  unfold writable, readable. rewrite !existsb_exists. intros (r & Hr & Hb). exists r. split; [done|]. by destruct (al_writable r).
Qed.

Lemma run_from_spec fuel ranges b end_ limit : end_ <= limit -> limit - end_ <= Z.of_nat fuel -> forall start, start < end_ -> (forall s, start <= s < end_ -> readable ranges s = b) ->
  let e := run_from fuel ranges b end_ limit in end_ <= e <= limit /\ forall s, start <= s < e -> readable ranges s = b.
Proof.
  revert end_. induction fuel as [|fuel IH]; intros end_ Hl Hf start Hs Hb; cbn [run_from]; [split; [lia|done]|].
  destruct (Z.ltb_spec end_ limit); cbn [andb]; [|split; [lia|done]]. destruct (eqb (readable ranges end_) b) eqn:E; [|split; [lia|done]].
  apply eqb_prop in E. destruct (IH (end_ + 1) ltac:(lia) ltac:(lia) start ltac:(lia)) as [I1 I2].
  - intros s Hr. destruct (Z.eq_dec s end_) as [->|]; [done|]. apply Hb. lia.
  - split; [lia|done].
Qed.

Lemma run_end_spec ranges lba limit : lba < limit ->
  lba < run_end ranges lba limit <= limit /\ forall s, lba <= s < run_end ranges lba limit -> readable ranges s = readable ranges lba.
Proof.
  intros Hl. unfold run_end. destruct (run_from_spec (Z.to_nat (limit - lba)) ranges (readable ranges lba) (lba + 1) limit ltac:(lia) ltac:(lia) lba ltac:(lia)) as [I1 I2].
  - intros s Hs. by replace s with lba by lia.
  - split; [lia|done].
Qed.

Section restricted.
Context {B : Type} `{BlockDisk B}.

(** The bytes a guest with these ranges sees. *)
Definition seen (ranges : list Allow) (b : B) (x : Z) : Z := if readable ranges (x / SECTOR) then blk_byte b x else 0.

Definition filled (ranges : list Allow) (b : B) (lba : Z) (buf : list Z) : Prop :=
  forall k, 0 <= k < len buf -> getb buf k = seen ranges b (lba * SECTOR + k).

Lemma filled_app ranges b lba cur buf bytes : len buf = (cur - lba) * SECTOR -> filled ranges b lba buf -> filled ranges b cur bytes -> filled ranges b lba (buf ++ bytes).
Proof.
  intros Hl H1 H2 k Hk. rewrite getb_app. rewrite len_app in Hk. destruct (Z.ltb_spec k (len buf)); [apply H1; lia|]. rewrite H2 by lia. f_equal. lia.
Qed.

Lemma sector_of lba k n : 0 <= k < n * SECTOR -> lba <= (lba * SECTOR + k) / SECTOR < lba + n.
Proof. intros Hk. rewrite Z.add_comm, Z.div_add by lia. pose proof (Z.div_pos k 512 ltac:(lia) ltac:(lia)). pose proof (Z.div_lt_upper_bound k 512 n ltac:(lia) ltac:(lia)). lia. Qed.

Lemma filled_same ranges b b' lba buf : (forall x, blk_byte b' x = blk_byte b x) -> filled ranges b' lba buf -> filled ranges b lba buf.
Proof. intros Hs Hf k Hk. rewrite (Hf k Hk). unfold seen. by rewrite Hs. Qed.

Lemma read_runs_spec ranges lba end_ fuel : forall inner cur buf inner' r, blk_ok inner -> 0 <= lba <= cur -> cur <= end_ -> end_ - cur <= Z.of_nat fuel ->
  len buf = (cur - lba) * SECTOR -> filled ranges inner lba buf -> read_runs fuel inner ranges cur end_ buf = (inner', r) ->
  blk_ok inner' /\ sectors inner' = sectors inner /\ (forall x, blk_byte inner' x = blk_byte inner x) /\ r <> Panic /\
  forall bytes, r = Ok bytes -> len bytes = (end_ - lba) * SECTOR /\ filled ranges inner lba bytes.
Proof.
  induction fuel as [|fuel IH]; intros inner cur buf inner' r Hok Hlba Hcur Hfuel Hlen Hf E; cbn [read_runs] in E.
  { rewrite (proj2 (Z.ltb_ge _ _)) in E by lia. injection E as <- <-. split_and!; [done..|]. intros ? [= <-]. replace end_ with cur by lia. done. }
  destruct (Z.ltb_spec cur end_).
  2: { injection E as <- <-. split_and!; [done..|]. intros ? [= <-]. replace end_ with cur by lia. done. }
  destruct (run_end_spec ranges cur end_ ltac:(lia)) as [Hre Hsame]. set (re := run_end ranges cur end_) in *. destruct (readable ranges cur) eqn:Hr.
  - destruct (blk_read inner cur ((re - cur) * SECTOR)) as [inner1 r1] eqn:E1. apply blk_read_spec in E1 as (Hok1 & Hs1 & Hb1 & Hp1 & Hr1); [|done|lia|lia].
    destruct r1 as [bytes|e|]; [|injection E as <- <-; by split_and!|done]. destruct (Hr1 bytes eq_refl) as (_ & _ & Hl1 & Hg1).
    apply IH in E as (I1 & I2 & I3 & I4 & I5); [|done|lia|lia|lia|rewrite len_app; lia|].
    + split_and!; [done|congruence|intros x; by rewrite I3|done|]. intros bs Hbs. destruct (I5 bs Hbs) as [Hl Hfb]. split; [done|]. by apply (filled_same ranges inner inner1).
    + apply (filled_app _ _ _ cur); [done| |].
      * intros k Hk. rewrite (Hf k Hk). unfold seen. by rewrite Hb1.
      * intros k Hk. rewrite Hg1 by lia. unfold seen. pose proof (sector_of cur k (re - cur) ltac:(lia)). by rewrite Hsame, Hb1 by lia.
  - apply IH in E as (I1 & I2 & I3 & I4 & I5); [by split_and!|done|lia|lia|lia|rewrite len_app, len_zeros'; lia|].
    apply (filled_app _ _ _ cur); [done|done|]. intros k Hk. rewrite getb_zeros. unfold seen. rewrite len_zeros' in Hk. pose proof (sector_of cur k (re - cur) ltac:(lia)).
    by rewrite Hsame by lia.
Qed.

Lemma all_writable ranges lba k x : existsb (fun s => negb (writable ranges s)) (seqZ lba k) = false -> lba * SECTOR <= x < lba * SECTOR + k * SECTOR ->
  writable ranges (x / SECTOR) = true.
Proof.
  intros He Hx. pose proof (sector_of lba (x - lba * 512) k ltac:(lia)) as Hs. replace (lba * 512 + (x - lba * 512)) with x in Hs by lia.
  destruct (writable ranges (x / SECTOR)) eqn:E; [done|]. exfalso. apply not_true_iff_false in He. apply He, existsb_exists. exists (x / SECTOR).
  split; [apply list_elem_of_In, elem_of_seqZ; lia|by rewrite E].
Qed.

Lemma map_write_inner d lba data d' r : blk_ok (dm_inner d) -> 0 <= lba -> map_write d lba data = (d', r) ->
  (r <> Ok tt /\ r <> Panic /\ d' = d) \/
  (blk_write (dm_inner d) lba data = (dm_inner d', r) /\ dm_ranges d' = dm_ranges d /\
   forall x, lba * SECTOR <= x < lba * SECTOR + len data -> writable (dm_ranges d) (x / SECTOR) = true).
Proof.
  intros Hok Hl E. unfold map_write in E. pose proof (check_span_panic (sectors (dm_inner d)) lba (len data)).
  destruct (check_span _ _ _) as [k| |] eqn:Ek; [|injection E as <- <-; by left|done]. apply check_span_spec in Ek as (Em & -> & _). pose proof (sector_bytes _ Em).
  destruct (existsb _ _) eqn:Ew; [injection E as <- <-; by left|]. right. destruct (blk_write (dm_inner d) lba data) as [inner r1] eqn:E1. injection E as <- <-.
  split_and!; [done..|]. intros x Hx. apply (all_writable _ lba (len data / SECTOR)); [done|lia].
Qed.

Lemma map_read_inner d lba n d' r : blk_ok (dm_inner d) -> 0 <= lba -> 0 <= n -> map_read d lba n = (d', r) ->
  blk_ok (dm_inner d') /\ sectors (dm_inner d') = sectors (dm_inner d) /\ dm_ranges d' = dm_ranges d /\ (forall x, blk_byte (dm_inner d') x = blk_byte (dm_inner d) x) /\ r <> Panic /\
  forall bytes, r = Ok bytes -> n mod SECTOR = 0 /\ lba + n / SECTOR <= sectors (dm_inner d) /\ len bytes = n /\ filled (dm_ranges d) (dm_inner d) lba bytes.
Proof.
  intros Hok Hl Hn E. unfold map_read in E. pose proof (check_span_panic (sectors (dm_inner d)) lba n).
  destruct (check_span _ _ _) as [k| |] eqn:Ek; [|injection E as <- <-; by split_and!|done]. apply check_span_spec in Ek as (Em & -> & Hs & _). pose proof (sector_bytes n Em).
  destruct (read_runs _ _ _ _ _ _) as [inner r1] eqn:E1. injection E as <- <-. pose proof (Z.div_pos n 512 Hn ltac:(lia)).
  apply (read_runs_spec _ lba) in E1 as (I1 & I2 & I3 & I4 & I5); [|done|lia|lia|lia|unfold len; cbn; lia|intros x Hx; unfold len in Hx; cbn in Hx; lia]. cbn.
  split_and!; [done..|]. intros bytes Hb. destruct (I5 bytes Hb) as [Hlen Hf]. split_and!; [done|done|lia|done].
Qed.

Lemma map_flush_inner d d' r : blk_ok (dm_inner d) -> map_flush d = (d', r) ->
  blk_ok (dm_inner d') /\ sectors (dm_inner d') = sectors (dm_inner d) /\ dm_ranges d' = dm_ranges d /\ (forall x, blk_byte (dm_inner d') x = blk_byte (dm_inner d) x) /\ r <> Panic.
Proof.
  intros Hok E. unfold map_flush in E. destruct (blk_flush (dm_inner d)) as [inner r1] eqn:E1. injection E as <- <-. apply blk_flush_spec in E1 as (I1 & I2 & I3 & I4); [|done]. by split_and!.
Qed.

(** A disk restricted to ranges is a disk, of the bytes seen through them. *)
#[export, refine] Instance DiskMap_disk : BlockDisk (DiskMap B) :=
  {| blk_ok d := blk_ok (dm_inner d); blk_byte d x := seen (dm_ranges d) (dm_inner d) x |}.
Proof.
  - intros d Hd. apply (blk_sectors (dm_inner d) Hd).
  - intros d lba n d' r Hok Hl Hn E. cbn in *. apply map_read_inner in E as (I1 & I2 & I3 & I4 & I5 & I6); [|done..]. split_and!; try done.
    + intros x. unfold seen. by rewrite I3, I4.
    + intros bytes Hb. destruct (I6 bytes Hb) as (J1 & J2 & J3 & J4). split_and!; [done..|]. intros x Hx. apply J4. lia.
  - intros d lba data d' r Hok Hl E. cbn in *. apply map_write_inner in E as [(Hr & Hp & ->)|(E & Er & Hw)]; [by split_and!| |done..].
    apply blk_write_spec in E as (I1 & I2 & I3 & I4 & I5); [|done..]. rewrite Er. split_and!; try done.
    + intros x Hx. unfold seen. by rewrite I4.
    + intros Hr. destruct (I5 Hr) as (J1 & J2 & J3). split_and!; [done|done|]. intros x. unfold seen, over. rewrite J3. unfold over.
      destruct (Z.leb_spec (lba * SECTOR) x), (Z.ltb_spec x (lba * SECTOR + len data)); cbn [andb]; try done. by rewrite writable_readable by (apply Hw; lia).
  - intros d d' r Hok E. cbn in *. apply map_flush_inner in E as (I1 & I2 & I3 & I4 & I5); [|done]. split_and!; try done. intros x. unfold seen. by rewrite I3, I4.
Defined.
End restricted.

(** ** One disk for several guests *)

Inductive disk_op := OpRead (lba n : Z) | OpWrite (lba : Z) (data : list Z) | OpFlush.

Inductive answer := ARead (r : res BlockError (list Z)) | ADone (r : res BlockError unit).

Definition op_ok (o : disk_op) : Prop := match o with OpRead lba n => 0 <= lba /\ 0 <= n | OpWrite lba _ => 0 <= lba | OpFlush => True end.

(** What a private disk of bytes [v] does with a request: a failed write may
    leave anything in the sectors it is about that are writable. *)
Definition private_step (rs : list Allow) (v : Z -> Z) (o : disk_op) (a : answer) (v' : Z -> Z) : Prop :=
  match o, a with
  | OpRead lba n, ARead r =>
      r <> Panic /\ (forall x, v' x = v x) /\ forall bytes, r = Ok bytes -> len bytes = n /\ forall k, 0 <= k < n -> getb bytes k = v (lba * SECTOR + k)
  | OpWrite lba data, ADone r =>
      r <> Panic /\ (r = Ok tt -> forall x, v' x = over v (lba * SECTOR) data x) /\
      forall x, v' x <> v x -> lba * SECTOR <= x < lba * SECTOR + len data /\ writable rs (x / SECTOR) = true
  | OpFlush, ADone r => r <> Panic /\ forall x, v' x = v x
  | _, _ => False
  end.

Inductive private_run (rs : list Allow) (v : Z -> Z) : list (disk_op * answer) -> (Z -> Z) -> Prop :=
  | pr_nil v' : (forall x, v' x = v x) -> private_run rs v [] v'
  | pr_cons o a v1 l v' : private_step rs v o a v1 -> private_run rs v1 l v' -> private_run rs v ((o, a) :: l) v'.

Section shared.
Context {B : Type} `{BlockDisk B} (ranges : nat -> list Allow).

(** A request of guest [g], through its own restriction of the disk. *)
Definition serve (b : B) (g : nat) (o : disk_op) : B * answer :=
  let d := mkDiskMap b (ranges g) in
  match o with
  | OpRead lba n => let '(d, r) := blk_read d lba n in (dm_inner d, ARead r)
  | OpWrite lba data => let '(d, r) := blk_write d lba data in (dm_inner d, ADone r)
  | OpFlush => let '(d, r) := blk_flush d in (dm_inner d, ADone r)
  end.

Fixpoint serve_all (b : B) (l : list (nat * disk_op)) : B * list (nat * (disk_op * answer)) :=
  match l with
  | [] => (b, [])
  | (g, o) :: l => let '(b, a) := serve b g o in let '(b, rest) := serve_all b l in (b, (g, (o, a)) :: rest)
  end.

(** One request: the guest's private disk, and the bytes it may change. *)
Lemma serve_spec b g o b' a : blk_ok b -> op_ok o -> serve b g o = (b', a) ->
  blk_ok b' /\ private_step (ranges g) (seen (ranges g) b) o a (seen (ranges g) b') /\
  forall x, blk_byte b' x <> blk_byte b x -> writable (ranges g) (x / SECTOR) = true.
Proof.
  intros Hok Ho E. unfold serve in E. destruct o as [lba n|lba data|].
  - destruct (blk_read _ _ _) as [d r] eqn:E1. injection E as <- <-. destruct Ho. apply map_read_inner in E1 as (I1 & I2 & I3 & I4 & I5 & I6); [|done..]. cbn in *.
    split_and!; [done|done|intros x; unfold seen; by rewrite I4| |by intros x []; rewrite I4]. intros bytes Hb. destruct (I6 bytes Hb) as (J1 & J2 & J3 & J4). split; [done|]. intros x Hx. apply J4. lia.
  - destruct (blk_write _ _ _) as [d r] eqn:E1. injection E as <- <-. cbn in Ho. pose proof E1 as E2. apply (blk_write_spec (B := DiskMap B)) in E2 as (_ & _ & K1 & _ & K3); [|done..].
    assert (Hd : dm_ranges d = ranges g /\ blk_ok (dm_inner d) /\ forall x, blk_byte (dm_inner d) x <> blk_byte b x -> lba * SECTOR <= x < lba * SECTOR + len data /\ writable (ranges g) (x / SECTOR) = true).
    { apply map_write_inner in E1 as [(_ & _ & ->)|(E1 & Er & Hw)]; [by split_and!| |done..]. apply blk_write_spec in E1 as (I1 & I2 & I3 & I4 & I5); [|done..].
      split_and!; [done|done|]. intros x Hx. assert (Hin : lba * SECTOR <= x < lba * SECTOR + len data); [|by split; [|apply Hw]].
      destruct (Z.lt_ge_cases x (lba * SECTOR)), (Z.lt_ge_cases x (lba * SECTOR + len data)); try lia; exfalso; apply Hx, I4; lia. }
    destruct Hd as (Er & Hd1 & Hd2). cbn in K3. unfold private_step. split_and!; [done|done| | |intros x Hx; by apply Hd2].
    + intros Hr x. destruct (K3 Hr) as (_ & _ & J). rewrite <- J. by rewrite Er.
    + intros x Hx. apply Hd2. unfold seen in Hx. by case_match.
  - destruct (blk_flush _) as [d r] eqn:E1. injection E as <- <-. apply map_flush_inner in E1 as (I1 & I2 & I3 & I4 & I5); [|done]. cbn in *.
    split_and!; [done|done|intros x; unfold seen; by rewrite I4|by intros x []; rewrite I4].
Qed.

(** What guest [g] asked and was answered. *)
Definition of_guest (g : nat) (l : list (nat * (disk_op * answer))) : list (disk_op * answer) :=
  omap (fun e => if (e.1 =? g)%nat then Some e.2 else None) l.

Lemma private_run_ext rs v v0 l v' : (forall x, v x = v0 x) -> private_run rs v l v' -> private_run rs v0 l v'.
Proof.
  intros Hv Hr. revert v0 Hv. induction Hr as [v v' Hn|v o a v1 l v' Hs Hr IH]; intros v0 Hv.
  - constructor. intros x. by rewrite Hn.
  - apply (pr_cons _ _ _ _ v1); [|done]. destruct o, a; cbn in *; try done.
    + destruct Hs as (S1 & S2 & S3). split_and!; [done|intros x; by rewrite S2|]. intros bytes Hb. destruct (S3 bytes Hb) as [? S4]. split; [done|]. intros k Hk. by rewrite S4.
    + destruct Hs as (S1 & S2 & S3). split_and!; [done| |]; [intros Hb x; rewrite (S2 Hb); unfold over; by rewrite Hv|intros x Hx; apply S3; by rewrite Hv].
    + destruct Hs as (S1 & S2). split; [done|]. intros x. by rewrite S2.
Qed.

(** C11: Guests whose allow-lists keep every sector one of them may write out of
    another's sight share a disk as if each had its own: whatever requests they
    all make in whatever order, a guest is answered, and sees its sectors
    change, as a private disk would by its own requests alone; and a sector no
    guest may write never changes. *)
Theorem disk_share_isolates g b l b' answers : blk_ok b -> Forall (fun e => op_ok e.2) l ->
  (forall h s, h <> g -> writable (ranges h) s = true -> readable (ranges g) s = false) ->
  serve_all b l = (b', answers) ->
  private_run (ranges g) (seen (ranges g) b) (of_guest g answers) (seen (ranges g) b') /\
  forall x, (forall h, writable (ranges h) (x / SECTOR) = false) -> blk_byte b' x = blk_byte b x.
Proof.
  intros Hok Hl Hsep. revert b answers Hok. induction Hl as [|[h o] l Ho Hl IH]; intros b answers Hok E; cbn [serve_all] in E.
  { injection E as <- <-. split; [by constructor|done]. }
  destruct (serve b h o) as [b1 a] eqn:E1. destruct (serve_all b1 l) as [b2 rest] eqn:E2. injection E as <- <-.
  destruct (serve_spec b h o b1 a Hok Ho E1) as (Hok1 & Hp & Hw). destruct (IH b1 rest Hok1 E2) as [I1 I2]. split.
  - unfold of_guest. cbn [omap list_omap fst snd]. destruct (Nat.eqb_spec h g) as [->|Hne].
    + by apply (pr_cons _ _ _ _ (seen (ranges g) b1)).
    + apply (private_run_ext _ (seen (ranges g) b1)); [|done]. intros x. unfold seen. destruct (readable (ranges g) (x / SECTOR)) eqn:Er; [|done].
      destruct (Z.eq_dec (blk_byte b1 x) (blk_byte b x)) as [|Hx]; [done|]. by rewrite (Hsep h) in Er by auto.
  - intros x Hx. rewrite I2 by done. destruct (Z.eq_dec (blk_byte b1 x) (blk_byte b x)) as [|Hc]; [done|]. specialize (Hw x Hc). by rewrite (Hx h) in Hw.
Qed.
End shared.

Definition two_guests (g : nat) : list Allow :=
  match g with O => [mkAllow 0 1 false; mkAllow 1 3 true] | 1%nat => [mkAllow 0 1 false; mkAllow 3 4 true] | _ => [] end.

(** A sector full of one byte. *)
Definition sector_full (b : Z) : list Z := replicate (Z.to_nat 512) b.

Definition shared_requests : list (nat * disk_op) :=
  [(O, OpWrite 1 (sector_full 7)); (1%nat, OpWrite 2 (sector_full 8)); (1%nat, OpWrite 3 (sector_full 9)); (1%nat, OpRead 0 2048); (O, OpRead 0 2048)].

Lemma two_guests_apart h s : h <> O -> writable (two_guests h) s = true -> readable (two_guests 0) s = false.
Proof.
  destruct h as [|[|h]]; [done| |done]. intros _. unfold writable, readable, two_guests. cbn [existsb al_start al_end al_writable andb orb]. rewrite orb_false_r.
  intros [?%Z.leb_le ?%Z.ltb_lt]%andb_true_iff. rewrite !(proj2 (Z.ltb_ge _ _)) by lia. by rewrite !andb_false_r.
Qed.

Lemma disk_share_isolates_witness : exists b' answers,
  serve_all two_guests (mkRamDisk (zeros 2048)) shared_requests = (b', answers) /\
  private_run (two_guests 0) (seen (two_guests 0) (mkRamDisk (zeros 2048))) (of_guest 0 answers) (seen (two_guests 0) b') /\
  length (of_guest 0 answers) = 2%nat /\ (answers !! 1%nat) = Some (1%nat, (OpWrite 2 (sector_full 8), ADone (Err Denied))).
Proof.
  destruct (serve_all two_guests (mkRamDisk (zeros 2048)) shared_requests) as [b' answers] eqn:E. exists b', answers. split; [reflexivity|].
  split; [|vm_compute in E; injection E as <- <-; split; reflexivity].
  refine (proj1 (disk_share_isolates two_guests 0 (mkRamDisk (zeros 2048)) shared_requests b' answers _ _ _ E)).
  - cbn [blk_ok RamDisk_disk]. unfold ram_ok. cbn [rd_data]. rewrite len_zeros'. lia.
  - unfold shared_requests. repeat (apply Forall_cons_2; [cbn [snd op_ok]; lia|]). apply Forall_nil_2.
  - apply two_guests_apart.
Defined.

(** ** The assignment text grants what it says *)

(** The ranges of the [allow] lines of a text. *)
Definition allow_line (raw : str) : option Allow :=
  '(key, value) ← split_once 61 (trim (default [] (head (split 35 raw))));
  if bool_decide (trim key = lit "allow") then ok (parse_allow (trim value)) else None.

(** What an [allow] line grants: the sectors from the first to the last number,
    both included, or all, for reading, and for writing with [rw]. *)
Definition value_grants (value : str) (s : Z) (w : bool) : Prop :=
  exists span, split_whitespace value = [span; if w then lit "rw" else lit "ro"] /\
    (span = lit "all" \/ span <> lit "all" /\ exists a b first last, split_once 45 span = Some (a, b) /\ parse_u64 a = Some first /\ parse_u64 b = Some last /\ first <= s <= last).

Definition grants (raw : str) (s : Z) (w : bool) : Prop :=
  exists key value, split_once 61 (trim (default [] (head (split 35 raw)))) = Some (key, value) /\ trim key = lit "allow" /\ value_grants (trim value) s w.

(** The range of a line: the span it names and the mode. *)
Definition spans (span : str) (r : Allow) : Prop :=
  span = lit "all" /\ al_start r = 0 /\ al_end r = 2 ^ 64 - 1 \/
  span <> lit "all" /\ exists a b first last, split_once 45 span = Some (a, b) /\ parse_u64 a = Some first /\ parse_u64 b = Some last /\ al_start r = first /\ al_end r = last + 1.

Lemma parse_allow_spans value r : parse_allow value = Ok r ->
  exists span, split_whitespace value = [span; if al_writable r then lit "rw" else lit "ro"] /\ spans span r.
Proof.
  unfold parse_allow, spans. destruct (split_whitespace value) as [|span [|mode [|]]]; try done. intros E. exists span.
  destruct (bool_decide_reflect (mode = lit "rw")) as [Hm|]; [|destruct (bool_decide_reflect (mode = lit "ro")) as [Hm|]; [|done]]; rewrite Hm;
    (destruct (bool_decide_reflect (span = lit "all")); [injection E as <-; split; [done|by left]|];
     destruct (split_once 45 span) as [[a b]|]; [|done]; destruct (parse_u64 a) as [first|] eqn:E1, (parse_u64 b) as [last|] eqn:E2; try done;
     destruct (_ || _); [done|]; injection E as <-; split; [done|]; right; split; [done|]; by exists a, b, first, last).
Qed.

Lemma modes_differ (w w' : bool) : (if w then lit "rw" else lit "ro") = (if w' then lit "rw" else lit "ro") -> w = w'.
Proof. by destruct w, w'. Qed.

Lemma parse_allow_grants value r s w : parse_allow value = Ok r -> 0 <= s < 2 ^ 64 - 1 ->
  al_start r <= s < al_end r /\ al_writable r = w <-> value_grants value s w.
Proof.
  intros (span & Ew & Hsp)%parse_allow_spans Hs. unfold value_grants. rewrite Ew. split.
  - intros [Hr <-]. exists span. split; [done|]. destruct Hsp as [(-> & _)|(Hn & a & b & first & last & H1 & H2 & H3 & H4 & H5)]; [by left|].
    right. split; [done|]. exists a, b, first, last. split_and!; [done..|lia|lia].
  - intros (span' & Hl & Hg). injection Hl as <- Hm. apply modes_differ in Hm. split; [|done].
    destruct Hsp as [(-> & Ha & Hb)|(Hn & a & b & first & last & H1 & H2 & H3 & H4 & H5)]; [lia|].
    destruct Hg as [|(_ & a' & b' & f' & l' & K1 & K2 & K3 & K4)]; [done|]. simplify_eq. lia.
Qed.

Lemma parse_line_ranges p raw p' : parse_line p raw = Ok p' -> p_ranges p' = p_ranges p ++ option_list (allow_line raw).
Proof.
  unfold parse_line, allow_line. set (line := trim _). destruct (bool_decide_reflect (line = [])) as [->|Hl].
  { intros [= <-]. cbn. by rewrite app_nil_r. }
  destruct (split_once 61 line) as [[key value]|]; [|done]. cbn [mbind option_bind].
  destruct (bool_decide_reflect (trim key = lit "nvme-serial")) as [->|]; [intros [= <-]; cbn; by rewrite app_nil_r|].
  destruct (bool_decide_reflect (trim key = lit "allow")) as [Hk|].
  { destruct (parse_allow (trim value)) as [r| |]; cbn; [|done..]. by intros [= <-]. }
  cbn [option_list]. rewrite app_nil_r. intros E. repeat (case_match; try done); by injection E as <-.
Qed.

Lemma parse_lines_ranges text : forall p p', parse_lines p text = Ok p' -> p_ranges p' = p_ranges p ++ omap allow_line text.
Proof.
  induction text as [|raw text IH]; intros p p' E; cbn [parse_lines] in E.
  { injection E as <-. cbn. by rewrite app_nil_r. }
  destruct (parse_line p raw) as [p1| |] eqn:E1; cbn in E; [|done..]. apply parse_line_ranges in E1. rewrite (IH _ _ E), E1, <- app_assoc. f_equal.
  cbn. by destruct (allow_line raw).
Qed.

(** Every [allow] line of a text that parses is a range. *)
Lemma parse_lines_allow text raw key value : forall p p', parse_lines p text = Ok p' -> raw ∈ text ->
  split_once 61 (trim (default [] (head (split 35 raw)))) = Some (key, value) -> trim key = lit "allow" -> exists r, parse_allow (trim value) = Ok r.
Proof.
  induction text as [|raw0 text IH]; intros p p' E Hin Hs Hk; [by apply not_elem_of_nil in Hin|]. cbn [parse_lines] in E.
  destruct (parse_line p raw0) as [p1| |] eqn:E1; cbn in E; [|done..]. apply elem_of_cons in Hin as [<-|Hin]; [|by eapply IH].
  unfold parse_line in E1. rewrite Hs in E1. destruct (bool_decide_reflect (trim (default [] (head (split 35 raw))) = [])) as [H0|]; [by rewrite H0 in Hs|].
  rewrite Hk in E1. rewrite bool_decide_false, bool_decide_true in E1 by done. destruct (parse_allow (trim value)) as [r| |]; [by exists r|done..].
Qed.

Lemma parse_ranges text c : parse text = Ok c -> dc_ranges c = omap allow_line (lines text) /\ dc_ranges c <> [] /\ dc_serial c <> [].
Proof.
  unfold parse. destruct (parse_lines _ _) as [p| |] eqn:E; cbn [mbind res_bind]; [|done..]. apply parse_lines_ranges in E. cbn in E.
  destruct (match p_partition p with Some _ => _ | None => _ end) as [boot| |]; cbn [mbind res_bind]; [|done..].
  destruct (p_serial p) as [serial|]; cbn [mbind res_bind]; [|done]. destruct (bool_decide_reflect (serial = [])); cbn [mbind res_bind]; [done|].
  destruct (bool_decide_reflect (p_ranges p = [])); [done|]. intros [= <-]. done.
Qed.

Lemma text_grants text c s w : parse text = Ok c -> 0 <= s < 2 ^ 64 - 1 ->
  (exists r, r ∈ dc_ranges c /\ al_start r <= s < al_end r /\ al_writable r = w) <-> exists raw, raw ∈ lines text /\ grants raw s w.
Proof.
  intros E Hs. rewrite (proj1 (parse_ranges text c E)). unfold parse in E. destruct (parse_lines _ _) as [p| |] eqn:El; [|done..]. clear E. setoid_rewrite list_elem_of_omap. split.
  - intros (r & (raw & Hraw & Ha) & Hr). exists raw. split; [done|]. unfold allow_line in Ha. destruct (split_once _ _) as [[key value]|] eqn:Es; [|done]. cbn [mbind option_bind] in Ha.
    destruct (bool_decide_reflect (trim key = lit "allow")); [|done]. destruct (parse_allow (trim value)) as [r'| |] eqn:Ep; [|done..]. injection Ha as ->.
    exists key, value. split_and!; [done..|]. by apply (parse_allow_grants _ r).
  - intros (raw & Hraw & key & value & Es & Hk & Hg). destruct (parse_lines_allow _ raw key value _ _ El Hraw Es Hk) as [r Hr]. exists r. split.
    + exists raw. split; [done|]. unfold allow_line. rewrite Es. cbn [mbind option_bind]. by rewrite bool_decide_true, Hr.
    + by apply (parse_allow_grants (trim value)).
Qed.

Lemma readable_in ranges s : readable ranges s = true <-> exists r, r ∈ ranges /\ al_start r <= s < al_end r.
Proof.
  unfold readable. rewrite existsb_exists. split.
  - intros (r & Hr%list_elem_of_In & [?%Z.leb_le ?%Z.ltb_lt]%andb_true_iff). by exists r.
  - intros (r & Hr%list_elem_of_In & Hs). exists r. split; [done|]. apply andb_true_iff. split; [apply Z.leb_le|apply Z.ltb_lt]; lia.
Qed.

Lemma writable_in ranges s : writable ranges s = true <-> exists r, r ∈ ranges /\ al_writable r = true /\ al_start r <= s < al_end r.
Proof.
  unfold writable. rewrite existsb_exists. split.
  - intros (r & Hr%list_elem_of_In & [[? ?%Z.leb_le]%andb_true_iff ?%Z.ltb_lt]%andb_true_iff). by exists r.
  - intros (r & Hr%list_elem_of_In & Hw & Hs). exists r. split; [done|]. rewrite Hw. apply andb_true_iff. split; [apply Z.leb_le|apply Z.ltb_lt]; lia.
Qed.

(** The ranges of the disk map built from a configuration. *)
Lemma map_ranges_in {B} (inner : B) c secs r : r ∈ dm_ranges (DiskMap_new inner (clamped c secs)) <->
  al_start r < al_end r /\ exists r0, r0 ∈ dc_ranges c /\ r = mkAllow (al_start r0) (Z.min (al_end r0) secs) (al_writable r0).
Proof.
  unfold DiskMap_new, clamped. cbn [dm_ranges]. rewrite (sort_by_key_perm al_start), !list_elem_of_filter, list_elem_of_fmap. naive_solver.
Qed.

(** C24: A guest reaches exactly the sectors of the disk its assignment text
    grants: it may read those an [allow] line names and write those a line with
    [rw] names, and a text that has no such line or names no disk is refused. *)
Theorem disk_config_grants {B} (inner : B) text c secs s : parse text = Ok c -> secs < 2 ^ 64 -> 0 <= s ->
  let ranges := dm_ranges (DiskMap_new inner (clamped c secs)) in
  (readable ranges s = true <-> s < secs /\ exists raw w, raw ∈ lines text /\ grants raw s w) /\
  (writable ranges s = true <-> s < secs /\ exists raw, raw ∈ lines text /\ grants raw s true) /\
  dc_serial c <> [] /\ dc_ranges c <> [].
Proof.
  intros E Hsecs Hs ranges. destruct (parse_ranges text c E) as (_ & Hne & Hse).
  assert (Hin : forall w, (exists r, r ∈ ranges /\ al_start r <= s < al_end r /\ al_writable r = w) <-> s < secs /\ exists raw, raw ∈ lines text /\ grants raw s w).
  { intros w. split.
    - intros (r & (_ & r0 & Hr0 & ->)%map_ranges_in & Hr & Hw). cbn in Hr, Hw. split; [lia|]. apply (text_grants text c s w E); [lia|]. exists r0. split_and!; [done|lia|lia|done].
    - intros [Hlt Hg]. apply (text_grants text c s w E) in Hg as (r & Hr & Hr1 & Hw); [|lia]. exists (mkAllow (al_start r) (Z.min (al_end r) secs) (al_writable r)).
      split; [|cbn; split; [lia|done]]. apply map_ranges_in. split; [cbn; lia|]. by exists r. }
  split_and!; [| |done|done].
  - rewrite readable_in. split.
    + intros (r & Hr & Hr1). destruct (proj1 (Hin (al_writable r))) as (Hlt & raw & H1 & H2); [by exists r|]. split; [done|]. by exists raw, (al_writable r).
    + intros (Hlt & raw & w & H1 & H2). destruct (proj2 (Hin w)) as (r & Hr & Hr1 & _); [split; [done|by exists raw]|]. by exists r.
  - rewrite writable_in, <- Hin. split; intros (r & Hr); exists r; naive_solver.
Qed.

Definition sample_text : str :=
  lit "nvme-serial = S6XN # the disk" ++ [10] ++ lit "allow = 0-2047 ro" ++ [13; 10] ++ [10] ++ lit "allow = 4096-0xFFFF rw" ++ [10] ++ lit "model = nvme".

Lemma disk_config_grants_witness : exists c, parse sample_text = Ok c /\
  writable (dm_ranges (DiskMap_new tt (clamped c 8192))) 5000 = true /\ writable (dm_ranges (DiskMap_new tt (clamped c 8192))) 100 = false /\
  exists raw, raw ∈ lines sample_text /\ grants raw 5000 true.
Proof.
  exists (mkDiskConfig (lit "S6XN") [mkAllow 0 2048 false; mkAllow 4096 65536 true] Nvme None). split; [vm_compute; reflexivity|].
  split; [vm_compute; reflexivity|]. split; [vm_compute; reflexivity|].
  apply (disk_config_grants tt sample_text (mkDiskConfig (lit "S6XN") [mkAllow 0 2048 false; mkAllow 4096 65536 true] Nvme None) 8192 5000); [vm_compute; reflexivity|lia|lia|vm_compute; reflexivity].
Defined.
